(* ===== verification/_CoqProject ===== *)
-Q . S2P
Prelude.v
Guid.v
Packet.v
GroupModel.v
GroupMembership.v
GroupSettings.v
GroupRegistry.v
GroupInvites.v
GroupInvariant.v
GroupSystem.v
GroupTheorems.v
GroupInviteTheorems.v
GroupSettingsTheorems.v
MapData.v
InstanceLocks.v
InstanceLockTheorems.v
InstanceShared.v
InstanceStore.v
InstanceStoreTheorems.v
InstanceScript.v
EventMap.v
LootModel.v
LootAuthority.v
LootSystem.v
LootInvariant.v
LootSteps.v
LootClaims.v
LootResolve.v
LootLedger.v
LootWakeups.v
LootTheorems.v
Float32.v
MotionGenerators.v
MotionMaster.v
MotionMasterTheorems.v
MotionRefs.v
MotionSubsystem.v
MotionSubsystemTheorems.v
MotionTheorems.v
MotionAgreement.v
InventoryModel.v
Items.v
InventoryStorage.v
InventoryPlan.v
InventoryDestroy.v
InventoryPlanLemmas.v
InventoryPlanTheorems.v
InventoryBuyback.v
InventoryStorageTheorems.v
InventoryBags.v
InventorySwap.v
InventoryEquip.v
InventoryEquipTheorems.v
BTree.v
EquipmentSets.v
EquipmentSave.v
EquipmentSaveSystem.v
EquipmentSaveTheorems.v
EquipmentSaveProperties.v
SpellCatalog.v
SpellModel.v
SpellPlanner.v
SpellPlannerSkill.v
SpellPlannerCast.v
SpellPlannerSpell.v
SpellPlannerTotal.v
Profession.v
SpellReplay.v
SpellApply.v
SpellPlannerSteps.v
SpellApplyTheorems.v
SpellReplayTheorems.v
SpellLearned.v
SpellTrainer.v
SpellSession.v
SpellSessionTheorems.v
SpellPurchase.v
SpellRuntime.v
SpellSave.v
SpellEffect.v
