(* ===== verification/Prelude.v ===== *)
(** RustyCore: a verification library for the parts of the server that keep
    state of their own.

    RustyCore is a World of Warcraft 3.4.3 server in Rust, a port of a C++
    server ("..._like_cpp" marks a function that mirrors one of its routines).
    The development models the components below, function by function, with the
    names of the source, and proves what makes each of them correct.  The
    first lines of every file say which source file it models.

    * The components

    - Identifiers: Guid.v models wow-core/src/guid.rs, the 128-bit object
      guid as two 64-bit words, its factories, accessors, byte form, order and
      generators.
    - Packets: Packet.v models wow-packet/src/world_packet.rs and header.rs, a
      byte buffer with a read cursor and two bit cursors, as a state monad with
      errors.
    - Groups: wow-social/src/group.  GroupModel.v has the data of model.rs and
      outcome.rs (members, flags, markers, storage ids); GroupMembership.v the
      roster operations; GroupSettings.v the settings and the ready check; GroupRegistry.v the transitions on the registry of all
      groups (membership.rs, settings.rs, ready_check.rs), each a guard, a change
      of one group and the persistence intents it returns; GroupInvites.v the
      pending invites (invites.rs).  GroupSystem.v puts them together: a state
      with the registry and the invites, one constructor of GroupOp per public
      operation, and the states reachable by any sequence of them.
    - Instances: wow-data/src/map.rs, difficulty.rs, dungeon_encounter.rs and
      wow-instances/src/instances.  MapData.v has the map and difficulty
      tables; InstanceLocks.v the lock data, the reset clock and the lock manager
      (ops_1.rs); InstanceShared.v its reachable states;
      InstanceStore.v the persistence mutations (wow-persistence), the
      operations that plan them and what their statements (wow-database) do to
      the two tables; InstanceScript.v the encounter states and the rest of
      state_2.rs.
    - Timed events: EventMap.v models wow-core/src/event_map.rs.
    - Loot: wow-loot/src/authority, the owner of a corpse's or chest's loot
      from which concurrent sessions claim items and money.  LootModel.v has
      the pools and the authority's state (state.rs), LootAuthority.v its
      operations (ops_1.rs, ops_2.rs), LootSystem.v the transition system of
      authority, leases, persistence guards and waiters.
    - Movement: the motion masters that decide which movement generator drives
      a unit.  MotionGenerators.v and MotionMaster.v model wow-movement (the
      trait of generators as the interface [MovementGenerator], those of
      generators/, motion_master.rs); MotionRefs.v and MotionSubsystem.v the
      represented master of wow-entities/src/unit_subsystems/movement;
      Float32.v the [f32] arithmetic they use.
    - Inventory: wow-entities/src/item, bag.rs and player.  InventoryModel.v
      has the item templates, results and slot numbers, Items.v items and bags
      as objects, InventoryStorage.v the slots of a player with the operations
      that store, split, merge, remove and destroy items and the buyback slots,
      InventoryPlan.v the plans of can_store_item and can_bank_item (where items
      may go), InventoryDestroy.v the plans that destroy items, InventoryEquip.v
      the rules of using, equipping and unequipping (equipment.rs) and
      InventorySwap.v the phases of swap_item.
    - Equipment sets: EquipmentSets.v models wow-entities/src/player/
      equipment_sets.rs and what the session does with the client's packets
      (wow-world/src/session/player_items/equipment_sets.rs); EquipmentSave.v
      the rows a save captures, the statements written for them (wow-database)
      and what those do to the two tables; EquipmentSaveSystem.v the tables as
      one set sees them; EquipmentSaveTheorems.v the transition system of edits,
      captures, commits, failures and acknowledgements, in which a save may
      commit while the player goes on editing.
    - Spell acquisition: what a player gains by learning a spell (wow-world/src/
      spell_acquisition).  SpellCatalog.v has the tables it reads (wow-data
      spell_acquisition, spell, skill, skill_talent.rs), BTree.v Rust's BTreeMap;
      SpellModel.v rows, snapshots, plans and refusals (model.rs, authority.rs);
      SpellPlanner.v, SpellPlannerSkill.v, SpellPlannerCast.v and
      SpellPlannerSpell.v the planner (planner/mod.rs, skill.rs, cast.rs,
      spell.rs), a state of which every mutation is journalled; SpellReplay.v the replay that checks a plan and its client
      actions before it is used (application/validate_plan.rs,
      validate_post_commit.rs); SpellApply.v the rows it becomes (translate.rs,
      prepare.rs) and the transaction that stores them, with the fee (wow-
      persistence spell/acquisition.rs, wow-database spell_acquisition_adapter.rs);
      Profession.v the professions it gives slots to (profession.rs).
    - Trainer purchases: SpellTrainer.v has the decision on an offer
      (trainer_offer.rs), the application of what is prepared (application/
      runtime.rs) and the purchase (trainer_purchase.rs), over any session that
      has their interface; SpellSession.v the session of the server, which
      implements it: what is read of a player and installed in one (wow-entities
      player/progression.rs, spell_acquisition/adapter.rs, runtime_adapter.rs),
      the commits and what they leave where their answer is lost
      (session/spell_state, persistence, money), and the end of the handler of a
      purchase (handlers/trainer.rs).
    - Spells and their saves: SpellRuntime.v has the spells of a player in memory
      (wow-entities player/spell_runtime.rs, spellbook.rs) and the session's
      operations on them (wow-world session/spell_state); SpellSave.v the group
      of a deferred save, its statements, the acknowledgement of a commit
      (save_ack.rs), the rows made at login (world_entry.rs) and the transition
      system of a player, the tables and a save in flight; SpellEffect.v the
      learning of a spell from an effect (spell_acquisition/effect_learning.rs),
      over any session that has its interface and over the server's.

    The group transitions and the lock manager both name players by guid
    (Guid.v) and return persistence intents; they share no state.  The lock
    manager reads the map tables (MapData.v) through the entries of a map.  The
    loot authority and the inventory name objects by guid.  The two motion
    masters run side by side in the server.  The equipment sets share the
    player's inventory only through the guids their pieces name.  A spell plan is
    made on a snapshot of the session, checked by the replay, prepared and
    committed in one transaction, against the rows the snapshot was loaded from;
    then the session installs it and sends what it tells the client.

    * What the theorems show

    - Guid.v: what the factories pack reads back field by field; the byte form
      is a bijection; the void-storage allocator hands out distinct ids until it
      is exhausted; server_id drops eleven of the bits stored.
    - Packet.v: any sequence of fields written reads back equal; no sequence of
      reads, on any bytes, leaves the buffer or panics; the wire header and
      its size check.
    - GroupTheorems.v, GroupInviteTheorems.v and GroupSettingsTheorems.v, on
      the invariant of GroupInvariant.v: every
      reachable group is well-formed (aligned duplicate-free rosters, full
      subgroups never exceeded, exact counters); storage ids are exact; the
      complete behaviour of joining, leaving, accepting, answering a ready
      check, the loot turn, icons and assignments, refusals included; when
      callers keep the stated conditions nobody is in two groups, and runs that
      break either of them put a player in two; loading rows keeps the id
      allocator sound when ids are contiguous, and a gap makes it collide.
    - MapData.v: the two walks over tables leave within as many rounds as the
      table has entries, or never.
    - InstanceLocks.v, InstanceLockTheorems.v, InstanceShared.v: locks reset at
      the first scheduled instant after now; what an update, a forced reset and
      a join check do; in every reachable state shared data is updated for
      exactly the locks that share it, and its registration is forgotten exactly
      when nothing holds it.
    - InstanceStoreTheorems.v: for a player whose locks are filed under its own
      guid, the plan under construction, committed, leaves the lock table an
      exact mirror of the permanent locks (a refinement of the manager by the
      table); loading a mirror restores the
      locks, but under the guids of realm 0.
    - InstanceScript.v: a boss is killed at most once.
    - EventMap.v: the queue of queues refines a flat list of timed events
      kept stably in due order; executing returns the first due event the
      phases allow; event words keep id, group and phase apart.
    - LootTheorems.v, on the invariants of LootInvariant.v (state and leases,
      kept by every operation: LootSteps.v), LootClaims.v and LootResolve.v
      (open claims) and LootLedger.v (what was installed, committed and left):
      no item is handed out twice and money is conserved; a claim past its
      durable boundary commits whatever happens to the authority; a closed
      authority stays closed; reservations are released; and no waiter misses
      the step that would let it go on (LootWakeups.v).
    - MotionMasterTheorems.v, against the generator interface: the order of the
      active generators, the unit states held, and the fate of every generator,
      read off generators that record the calls they receive ([Traced]): those
      held are never finalized, those dropped exactly once, as their last call.
      MotionTheorems.v (with MotionSubsystemTheorems.v): the same for the
      represented master in every reachable state, what a frame does, what
      entering the world does, when timed generators end, and that no number
      leaves the range of its type.  MotionAgreement.v: the two masters agree.
    - InventoryPlanTheorems.v (with InventoryPlanLemmas.v): a plan to store or bank
      items accounts for all of them, overfills nothing, respects the limits
      on how many one may own, and is refused for lack of room only when there
      is none but the slot number asked for, which is skipped in every bag.  InventoryDestroy.v: the plan to destroy items takes as
      many as asked for, or all there are.  InventoryStorageTheorems.v:
      storing and taking out are inverse, splitting conserves items, errors
      are exact.  InventoryBags.v: storing in a bag and taking out keep
      the bag object and the player's record of it in step, where the operations
      are given the object.  InventoryBuyback.v: a sale always finds the right slot.
      InventoryEquipTheorems.v: what may be equipped and where, with every check.
      InventorySwap.v: exchanging bags moves every item once.
    - EquipmentSaveTheorems.v and EquipmentSaveProperties.v: every edit the
      handlers accept is a step, and a run carries the guids that an edit
      retyped, moved to another index or brought back after their deletion.  For
      every other guid the update state of a set says what its row is; the
      statements of a save insert, update and delete exactly the rows that call
      for it; and a committed save reads back at the next login.  For those guids
      all three fail, as concrete runs show.
    - SpellPlannerTotal.v: the planner answers on every input, well-formed or
      not.  SpellPlannerSteps.v: every routine of the planner relates the states
      before and after by the journal it adds (a logical relation the other
      files instantiate).  SpellReplayTheorems.v: the replay of a plan
      ends in its resulting snapshot, or refuses a provenance or a stale skill
      row; client actions are accepted only when transitions account for them.
      SpellLearned.v: a plan gives the spell asked for and keeps every other.
      SpellApplyTheorems.v: the rows
      prepared for a plan are those its in-memory snapshot stands for, the
      transaction stores exactly them or nothing, and profession slots are given
      once.  The concrete plans the theorems are applied to are at the end of
      SpellLearned.v, among them one in which a skill re-entered by its own
      reward makes a plan that the replay refuses.
    - SpellTrainer.v: what a purchase asks of a session, in which order and with
      which result, for every session.  SpellSessionTheorems.v: what is installed
      in a session reads back as it was prepared.  SpellPurchase.v: a purchase
      never panics, is all or nothing in the tables and in memory, and keeps the
      two in step unless the session is kicked.
    - SpellSave.v: in every state that logins, changes of rows, saves, their
      failures, commits, lost answers and acknowledgements reach, the
      statements of a save meet no key that is taken, and what a save commits
      is the row it captured, even where the row was changed in flight.  A
      change of rows there is any that keeps a row the tables may hold, marks
      what it changes and makes no row temporary; forgetting a dependent spell
      whose row is stored does not, and a run shows the save it blocks.
    - SpellEffect.v: the fallback by which an effect teaches a spell always
      answers, and is all or nothing.

    * Conventions

    Integers are [Z] with the wrap-around written at each operation ([u32],
    [i64], ...), as in the release profile, where arithmetic wraps and shifts
    take their distance modulo the width; theorems that need no overflow say
    so in their hypotheses.  Panics are [None].  Hash maps are [gmap]s; code that
    iterates over one takes the order as the interface [IterOrder], and the
    theorems hold for every order.  A shared object ([Arc], [Weak]) is an
    address into a heap that is part of the state; a critical section of a
    mutex is one step.  [Box<dyn MovementGenerator>] is a record of a state with
    its instance of the interface.  The waiting loops of the loot authority are
    attempts repeated after each notification, and a log of what was installed
    and committed is kept beside its state, for the theorems only.  Its tokens
    and epochs are 64-bit counters; the theorems bound the number of operations
    by what they can count.  A [loop] whose end is not structural takes fuel, and
    [None] then means that the fuel ran out:
    - [execute_event_like_cpp] runs with one round more than there are queued
      events, and EventMap.v proves that this is always enough;
    - the walks of MapData.v take the fuel as an argument, and the theorems there
      prove that the number of table entries decides them;
    - the loops of the motion masters that remove generators run once per active
      generator, and those that apply delayed actions in rounds bounded by the
      actions queued; the theorems on both masters prove that every operation
      completes with the fuel it is given;
    - the mutually recursive routines of the spell planner have
      [planner_fuel] = 3 * 16384 + 3 levels: the code counts its work up to
      16384, no more than three calls nest between two counts, and
      SpellPlannerTotal.v proves that the fuel never runs out;
    - the fallback of effect learning has one level per row of the player and two
      more: a nested call has one spell more on its path, or one row less that is
      disabled, and SpellEffect.v proves that it always answers.

    * What is not modelled

    Locks, atomics and the guards of concurrent maps (each operation is one
    atomic step), asynchronous handlers and database access beyond the effect of
    the statements, log lines and error texts, floating-point arithmetic outside
    the motion code and the prices of trainers (an [f32] in a packet or table is its bits), the update masks that say
    which fields of an object to send to clients, the rand crate (a parameter),
    serde_json and with it the save data of instance scripts, and the crates that
    hold content, geometry or network glue.  Of a purchase: how the handler reaches
    the trainer and collects the proofs of an offer, battle pets, the auras that an
    acquisition invalidates, the registry of players, the quest objectives that a
    change of money completes, and an await that is cancelled.  Of the spells of a
    player: trait configurations, talents, action buttons, and what unlearning a
    spell does to lower ranks, skills and auras; a trainer purchase writes the
    spell tables itself and is not a step of the saves' transition system.

    * Plan

    Next: the saves of reputations (save_ack.rs); the self-contained state
    machines of wow-entities (auras, cooldowns, trades); the save data of
    instance scripts over a JSON interface; replay of the group persistence
    intents onto their tables, as InstanceStore.v does for locks. *)
From stdpp Require Export base gmap sets list strings fin_maps.
From Stdlib Require Export ZArith Lia.

#[global] Set Default Goal Selector "!".
#[global] Open Scope Z_scope.

#[global] Arguments Z.shiftl : simpl never.
#[global] Arguments Z.shiftr : simpl never.
#[global] Arguments Z.land : simpl never.
#[global] Arguments Z.lor : simpl never.
#[global] Arguments Z.ldiff : simpl never.
#[global] Arguments Z.testbit : simpl never.
#[global] Arguments Z.eqb : simpl never.
#[global] Arguments Z.ltb : simpl never.
#[global] Arguments Z.leb : simpl never.

Declare Scope wow_scope.
Delimit Scope wow_scope with wow.

(** * Fallible code: Rust's [Result] *)
Inductive result (T E : Type) : Type :=
| Ok (t : T)
| Err (e : E).
Arguments Ok {T E} t.
Arguments Err {T E} e.

Definition rbind {T U E} (m : result T E) (k : T -> result U E) : result U E :=
  match m with
  | Ok t => k t
  | Err e => Err e
  end.

(** [Option::ok_or]. *)
Definition ok_or {T E} (o : option T) (e : E) : result T E :=
  match o with
  | Some t => Ok t
  | None => Err e
  end.

Notation "'let?' x ':=' m 'in' k" := (rbind m (fun x => k))
  (at level 10, x pattern, m at level 100, k at level 200) : wow_scope.

Lemma ok_or_Ok {T E} (o : option T) (e : E) t : ok_or o e = Ok t <-> o = Some t.
Proof. destruct o; simpl; split; congruence. Qed.

Lemma rbind_Ok {T U E} (m : result T E) (k : T -> result U E) u :
  rbind m k = Ok u <-> exists t, m = Ok t /\ k t = Ok u.
Proof.
  destruct m; simpl; split; [eauto|by intros (? & [= ->] & ?)|done|by intros (? & ? & _)].
Qed.

(** * Record update: [r <| f := v |>], Rust's field assignment *)
Class Setter {R T : Type} (proj : R -> T) : Type := set_field : (T -> T) -> R -> R.
Arguments set_field {R T} proj {_} _ _ : assert.

(** An instance rebuilds a record from its projections, one per field. *)
Class Eta (R : Type) : Type := eta : R -> R.

Ltac head_of t := lazymatch t with ?f _ => head_of f | _ => t end.

Ltac build_setter R proj :=
  let inst := constr:(ltac:(typeclasses eauto) : Eta R) in
  let inst := lazymatch inst with ?c => c end in
  let head := head_of inst in
  let body := eval unfold head in inst in
  lazymatch (eval pattern proj in body) with
  | ?abs _ => exact (fun f => abs (fun r => f (proj r)))
  end.

#[global] Hint Extern 1 (@Setter ?R ?T ?proj) => build_setter R proj : typeclass_instances.

Notation "r <| f := v |>" := (set_field f (fun _ => v) r)
  (at level 1, left associativity, format "r  <| f  :=  v |>") : wow_scope.
#[global] Open Scope wow_scope.

(** Evaluate field reads of updated records. *)
Ltac ssimpl := repeat progress (unfold set_field in *; cbn beta iota in *; cbn in *).
Ltac ssimpl_goal := repeat progress (unfold set_field; cbn beta iota; cbn).

(** * Machine integers

    A w-bit integer is a [Z]; [wrap_u] and [wrap_s] are the two's-complement
    wrap-around of an unsigned and of a signed operation.  [+] and [-] on
    integers follow the release profile (Cargo.toml sets no
    [overflow-checks]), so they wrap. *)
Definition wrap_u (w z : Z) : Z := z mod 2 ^ w.
Definition wrap_s (w z : Z) : Z := (z + 2 ^ (w - 1)) mod 2 ^ w - 2 ^ (w - 1).

Abbreviation u8 := (wrap_u 8).
Abbreviation u16 := (wrap_u 16).
Abbreviation u32 := (wrap_u 32).
Abbreviation u64 := (wrap_u 64).
Abbreviation i32 := (wrap_s 32).
Abbreviation i64 := (wrap_s 64).

Definition in_u (w z : Z) : Prop := 0 <= z < 2 ^ w.
Definition in_s (w z : Z) : Prop := - 2 ^ (w - 1) <= z < 2 ^ (w - 1).

Definition u8_max : Z := 255.
Definition u32_max : Z := 4294967295.
Definition i64_max : Z := 9223372036854775807.
Definition i32_max : Z := 2147483647.
Definition u64_max : Z := 18446744073709551615.

(** [saturating_add] and [saturating_sub] of an unsigned type of maximum [m]. *)
Definition sat_add (m a b : Z) : Z := Z.min m (a + b).
Definition sat_sub (a b : Z) : Z := Z.max 0 (a - b).

(** [i64::try_from(x : u64).ok()]. *)
Definition i64_try_from (z : Z) : option Z := if z <=? i64_max then Some z else None.

(** Flag words: [x & f != 0], [x |= f], [x &= !f]. *)
Definition has_flag (x f : Z) : bool := negb (Z.land x f =? 0).
Definition set_flag (x f : Z) : Z := Z.lor x f.
Definition clear_flag (x f : Z) : Z := Z.ldiff x f.

(** [i64 << n]. *)
Definition shl64 (x n : Z) : Z := i64 (Z.shiftl x n).

Section Words.
Variable w : Z.
Hypothesis w_pos : 0 < w.

Lemma wrap_u_range z : in_u w (wrap_u w z).
Proof. apply Z.mod_pos_bound, Z.pow_pos_nonneg; lia. Qed.

Lemma wrap_u_id z : in_u w z -> wrap_u w z = z.
Proof. apply Z.mod_small. Qed.

Lemma pow_split : 2 ^ w = 2 * 2 ^ (w - 1).
Proof. rewrite <- Z.pow_succ_r by lia. f_equal. lia. Qed.

Lemma wrap_s_range z : in_s w (wrap_s w z).
Proof.
  unfold in_s, wrap_s. pose proof pow_split.
  pose proof (Z.mod_pos_bound (z + 2 ^ (w - 1)) (2 ^ w)).
  assert (0 < 2 ^ (w - 1)) by (apply Z.pow_pos_nonneg; lia). lia.
Qed.

Lemma wrap_s_id z : in_s w z -> wrap_s w z = z.
Proof.
  unfold in_s, wrap_s. pose proof pow_split. intros ?.
  rewrite Z.mod_small; lia.
Qed.

Lemma wrap_s_eqm z : exists k, wrap_s w z = z + k * 2 ^ w.
Proof.
  unfold wrap_s. exists (- ((z + 2 ^ (w - 1)) / 2 ^ w)).
  rewrite Z.mod_eq; [lia|]. apply Z.pow_nonzero; lia.
Qed.

Lemma testbit_wrap_u z i :
  Z.testbit (wrap_u w z) i = (i <? w) && Z.testbit z i.
Proof.
  unfold wrap_u. destruct (Z.ltb_spec i w); simpl.
  - apply Z.mod_pow2_bits_low; lia.
  - apply Z.mod_pow2_bits_high; lia.
Qed.

Lemma testbit_wrap_s_low z i : i < w -> Z.testbit (wrap_s w z) i = Z.testbit z i.
Proof.
  intros ?. destruct (wrap_s_eqm z) as [k ->].
  rewrite <- (Z.mod_pow2_bits_low (z + k * 2 ^ w) w) by lia.
  rewrite Z.mod_add by (apply Z.pow_nonzero; lia).
  apply Z.mod_pow2_bits_low; lia.
Qed.

Lemma wrap_u_wrap_s z : wrap_u w (wrap_s w z) = wrap_u w z.
Proof.
  destruct (wrap_s_eqm z) as [k ->]. unfold wrap_u.
  apply Z.mod_add, Z.pow_nonzero; lia.
Qed.

Lemma wrap_s_wrap_u z : wrap_s w (wrap_u w z) = wrap_s w z.
Proof.
  unfold wrap_u, wrap_s. f_equal.
  rewrite Zplus_mod_idemp_l. done.
Qed.
End Words.

Lemma testbit_bounded w z i : in_u w z -> w <= i -> Z.testbit z i = false.
Proof.
  intros [? ?] ?. destruct (Z.eq_dec z 0) as [->|]; [apply Z.testbit_0_l|].
  apply Z.bits_above_log2; [lia|]. apply Z.log2_lt_pow2; [lia|].
  eapply Z.lt_le_trans; [done|]. apply Z.pow_le_mono_r; lia.
Qed.

Lemma testbit_ones_all n i : 0 <= n -> Z.testbit (Z.ones n) i = (0 <=? i) && (i <? n).
Proof. apply Z.testbit_ones. Qed.

Lemma testbit_shl n x i :
  0 <= n -> Z.testbit (Z.shiftl x n) i = (0 <=? i) && Z.testbit x (i - n).
Proof.
  intros ?. destruct (Z.leb_spec 0 i); simpl.
  - by rewrite Z.shiftl_spec.
  - by rewrite Z.testbit_neg_r.
Qed.

Lemma testbit_shr n x i :
  0 <= n -> Z.testbit (Z.shiftr x n) i = (0 <=? i) && Z.testbit x (i + n).
Proof.
  intros ?. destruct (Z.leb_spec 0 i); simpl.
  - by rewrite Z.shiftr_spec.
  - by rewrite Z.testbit_neg_r.
Qed.

Lemma testbit_shl64 n x i :
  0 <= n -> i < 64 -> Z.testbit (shl64 x n) i = (0 <=? i) && Z.testbit x (i - n).
Proof. intros. unfold shl64. rewrite testbit_wrap_s_low by lia. by apply testbit_shl. Qed.

Lemma mask_mod x n : 0 <= n -> Z.land x (Z.ones n) = x mod 2 ^ n.
Proof. apply Z.land_ones. Qed.

(** Bitwise equality: compare bit [i], with every operator pushed to its
    operands and the index comparisons decided by [lia]. *)
Ltac decide_tests :=
  repeat match goal with
  | |- context [?a <=? ?b] =>
      first [ replace (a <=? b) with true by (symmetry; apply Z.leb_le; lia)
            | replace (a <=? b) with false by (symmetry; apply Z.leb_gt; lia) ]
  | |- context [?a <? ?b] =>
      first [ replace (a <? b) with true by (symmetry; apply Z.ltb_lt; lia)
            | replace (a <? b) with false by (symmetry; apply Z.ltb_ge; lia) ]
  | |- context [Z.testbit ?x ?i] =>
      rewrite (Z.testbit_neg_r x i) by lia
  end.

Ltac bits_push :=
  repeat first
    [ rewrite Z.land_spec | rewrite Z.lor_spec | rewrite Z.ldiff_spec
    | rewrite testbit_ones_all by lia
    | rewrite testbit_shl64 by lia
    | rewrite testbit_shr by lia | rewrite testbit_shl by lia
    | rewrite testbit_wrap_u by lia ];
  decide_tests; simpl andb; simpl orb;
  rewrite ?andb_false_r, ?andb_true_r, ?orb_false_r, ?orb_false_l, ?andb_false_l.

(** [in_u n] is closed under bitwise operators: a value is in range exactly
    when no bit at or above [n] is set. *)
Lemma in_u_bits n x :
  0 <= n -> (forall i, n <= i -> Z.testbit x i = false) -> in_u n x.
Proof.
  intros Hn Hb. replace x with (x mod 2 ^ n).
  - apply Z.mod_pos_bound, Z.pow_pos_nonneg; lia.
  - apply Z.bits_inj'. intros i Hi. destruct (Z.lt_ge_cases i n).
    + by apply Z.mod_pow2_bits_low.
    + rewrite Hb by done. apply Z.mod_pow2_bits_high. lia.
Qed.

Lemma in_u_lor n x y : 0 <= n -> in_u n x -> in_u n y -> in_u n (Z.lor x y).
Proof.
  intros Hn Hx Hy. apply in_u_bits; [done|]. intros i Hi.
  rewrite Z.lor_spec, (testbit_bounded n x), (testbit_bounded n y); done.
Qed.

Lemma in_u_land_r n x y : 0 <= n -> in_u n y -> in_u n (Z.land x y).
Proof.
  intros Hn Hy. apply in_u_bits; [done|]. intros i Hi.
  rewrite Z.land_spec, (testbit_bounded n y) by done. apply andb_false_r.
Qed.

Lemma in_u_ldiff n x y : 0 <= n -> in_u n x -> in_u n (Z.ldiff x y).
Proof.
  intros Hn Hx. apply in_u_bits; [done|]. intros i Hi.
  by rewrite Z.ldiff_spec, (testbit_bounded n x).
Qed.

Lemma in_u_bit n k : 0 <= k < n -> in_u n (Z.shiftl 1 k).
Proof.
  intros Hk. apply in_u_bits; [lia|]. intros i Hi.
  rewrite Z.shiftl_1_l. apply Z.pow2_bits_false. lia.
Qed.

Lemma testbit_bit k i : 0 <= k -> Z.testbit (Z.shiftl 1 k) i = (i =? k).
Proof. intros. rewrite Z.shiftl_1_l, Z.pow2_bits_eqb by done. apply Z.eqb_sym. Qed.

#[export] Hint Resolve in_u_lor in_u_land_r in_u_ldiff : core.

(** Flag words: what setting and clearing one flag does to another. *)
Lemma has_flag_set x f g : has_flag (set_flag x f) g = has_flag x g || has_flag f g.
Proof.
  unfold has_flag, set_flag. rewrite Z.land_lor_distr_l.
  destruct (Z.eqb_spec (Z.lor (Z.land x g) (Z.land f g)) 0) as [E|E].
  - apply Z.lor_eq_0_iff in E as [-> ->]. done.
  - destruct (Z.eqb_spec (Z.land x g) 0) as [Ex|]; [|done].
    destruct (Z.eqb_spec (Z.land f g) 0) as [Ef|]; [|done].
    exfalso. apply E. by rewrite Ex, Ef.
Qed.

Lemma has_flag_lor x f g : has_flag x (Z.lor f g) = has_flag x f || has_flag x g.
Proof.
  unfold has_flag. rewrite !(Z.land_comm x). fold (set_flag f g).
  change (has_flag (set_flag f g) x = has_flag f x || has_flag g x). apply has_flag_set.
Qed.

Lemma has_flag_clear_same x f : has_flag (clear_flag x f) f = false.
Proof. unfold has_flag, clear_flag. by rewrite Z.land_ldiff. Qed.

Lemma clear_flag_id x f : has_flag x f = false -> clear_flag x f = x.
Proof.
  unfold has_flag, clear_flag. destruct (Z.eqb_spec (Z.land x f) 0) as [E|]; [|done]. intros _.
  apply Z.bits_inj'. intros i _. rewrite Z.ldiff_spec.
  assert (Ei : Z.testbit x i && Z.testbit f i = false)
    by (rewrite <- Z.land_spec, E; apply Z.testbit_0_l).
  by destruct (Z.testbit x i), (Z.testbit f i).
Qed.

Lemma clear_set_flag x f : has_flag x f = false -> clear_flag (set_flag x f) f = x.
Proof.
  intros E. rewrite <- (clear_flag_id x f E) at 2. unfold clear_flag, set_flag.
  apply Z.bits_inj'. intros i _. rewrite !Z.ldiff_spec, Z.lor_spec.
  by destruct (Z.testbit x i), (Z.testbit f i).
Qed.

Lemma clear_flag_comm x f g : clear_flag (clear_flag x f) g = clear_flag (clear_flag x g) f.
Proof.
  unfold clear_flag. apply Z.bits_inj'. intros i _. rewrite !Z.ldiff_spec.
  by destruct (Z.testbit x i), (Z.testbit f i), (Z.testbit g i).
Qed.

Lemma clear_set_other x f g :
  Z.land f g = 0 -> clear_flag (set_flag x f) g = set_flag (clear_flag x g) f.
Proof.
  intros E. unfold clear_flag, set_flag. apply Z.bits_inj'. intros i _.
  rewrite Z.ldiff_spec, !Z.lor_spec, Z.ldiff_spec.
  assert (Ei : Z.testbit f i && Z.testbit g i = false)
    by (rewrite <- Z.land_spec, E; apply Z.testbit_0_l).
  by destruct (Z.testbit x i), (Z.testbit f i), (Z.testbit g i).
Qed.

Lemma has_flag_clear_other x f g :
  Z.land f g = 0 -> has_flag (clear_flag x f) g = has_flag x g.
Proof.
  intros E. unfold has_flag, clear_flag. do 2 f_equal.
  apply Z.bits_inj'. intros i _. rewrite !Z.land_spec, Z.ldiff_spec.
  assert (Ei : Z.testbit f i && Z.testbit g i = false)
    by (rewrite <- Z.land_spec, E; apply Z.testbit_0_l).
  by destruct (Z.testbit x i), (Z.testbit f i), (Z.testbit g i).
Qed.

(** * Hash maps iterated in an unspecified order

    A [DashMap] or [HashMap] visits each entry exactly once, in an order the
    library does not document.  Code that iterates takes the order as an
    interface; theorems hold for every order. *)
Class IterOrder (K : Type) `{Countable K} : Type :=
  { iter_keys {V} : gmap K V -> list K;
    iter_keys_perm {V} (m : gmap K V) : iter_keys m ≡ₚ (map_to_list m).*1 }.

(** The order of [map_to_list]: an instance to compute with. *)
Definition map_list_order (K : Type) `{Countable K} : IterOrder K :=
  {| iter_keys V m := (map_to_list m).*1; iter_keys_perm V m := Permutation_refl _ |}.

Section Iteration.
Context `{Countable K} {O : IterOrder K} {V : Type}.
Implicit Type m : gmap K V.

Definition iter_entries m : list (K * V) :=
  omap (fun k => (fun v => (k, v)) <$> m !! k) (iter_keys m).

Lemma elem_of_iter_keys m k : k ∈ iter_keys m <-> is_Some (m !! k).
Proof.
  rewrite iter_keys_perm, list_elem_of_fmap. split.
  - intros ([k' v] & -> & Hin). apply elem_of_map_to_list in Hin. eauto.
  - intros [v Hv]. exists (k, v). split; [done|]. by apply elem_of_map_to_list.
Qed.

Lemma NoDup_iter_keys m : NoDup (iter_keys m).
Proof. rewrite iter_keys_perm. apply NoDup_fst_map_to_list. Qed.

Lemma elem_of_iter_entries m k v : (k, v) ∈ iter_entries m <-> m !! k = Some v.
Proof.
  unfold iter_entries. rewrite list_elem_of_omap. split.
  - intros (k' & Hk & E). destruct (m !! k') eqn:Ek; simplify_eq/=. done.
  - intros E. exists k. split; [apply elem_of_iter_keys; eauto|]. by rewrite E.
Qed.

Lemma NoDup_iter_entries m : NoDup (iter_entries m).*1.
Proof.
  pose proof (NoDup_iter_keys m) as Hnd. unfold iter_entries.
  induction (iter_keys m) as [|k ks IH]; [constructor|].
  apply NoDup_cons in Hnd as [Hk Hnd]. cbn. destruct (m !! k); cbn; [|by apply IH].
  constructor; [|by apply IH]. rewrite list_elem_of_fmap. intros ([k' v'] & -> & Hin). apply Hk.
  apply list_elem_of_omap in Hin as (k'' & Hk'' & E). cbn.
  destruct (m !! k''); simplify_eq/=. done.
Qed.
End Iteration.

(** [iter().any(p)] over the values. *)
Definition map_any `{Countable K} {V} (p : V -> bool) (m : gmap K V) : bool :=
  existsb (fun kv => p kv.2) (map_to_list m).

Lemma map_any_spec `{Countable K} {V} (p : V -> bool) (m : gmap K V) :
  map_any p m = true <-> exists k v, m !! k = Some v /\ p v = true.
Proof.
  unfold map_any. rewrite existsb_exists. split.
  - intros ([k v] & Hin & Hp). apply list_elem_of_In, elem_of_map_to_list in Hin. eauto.
  - intros (k & v & Hk & Hp). exists (k, v). split; [|done].
    by apply list_elem_of_In, elem_of_map_to_list.
Qed.

(** * Vectors *)
(** [iter().position(p)] and [iter().find(p)]. *)
Definition position {A} (P : A -> Prop) `{forall x, Decision (P x)} (l : list A) : option nat :=
  fst <$> list_find P l.
Definition find_first {A} (P : A -> Prop) `{forall x, Decision (P x)} (l : list A) : option A :=
  snd <$> list_find P l.

(** Distinct keys decide the entry. *)
Lemma NoDup_fst_unique {A B} (l : list (A * B)) x y1 y2 :
  NoDup l.*1 -> (x, y1) ∈ l -> (x, y2) ∈ l -> y1 = y2.
Proof.
  induction l as [|[x' y'] l IH]; [by intros _ ?%elem_of_nil|].
  intros [Hn Hnd]%NoDup_cons Hin1 Hin2.
  assert (Hfst : forall y, (x', y) ∉ l).
  { intros y Hin. apply Hn, list_elem_of_fmap. by exists (x', y). }
  apply elem_of_cons in Hin1 as [?|Hin1], Hin2 as [?|Hin2]; simplify_eq; try done; [| |by apply IH].
  - by destruct (Hfst y2).
  - by destruct (Hfst y1).
Qed.

(** [Vec::swap_remove] at an index in range: the removed element and the rest,
    the last element having taken its place. *)
Definition swap_remove {A} (i : nat) (l : list A) : option (A * list A) :=
  x ← l !! i; y ← last l;
  Some (x, take (pred (length l)) (<[i := y]> l)).

Lemma position_Some {A} (P : A -> Prop) `{forall x, Decision (P x)} l i :
  position P l = Some i -> exists x, l !! i = Some x /\ P x.
Proof.
  unfold position. intros E. destruct (list_find P l) as [[j x]|] eqn:F; simplify_eq/=.
  apply list_find_Some in F as (? & ? & _). eauto.
Qed.

Lemma position_None {A} (P : A -> Prop) `{forall x, Decision (P x)} l :
  position P l = None <-> Forall (fun x => ~ P x) l.
Proof.
  unfold position. destruct (list_find P l) as [[j x]|] eqn:F; simpl.
  - apply list_find_Some in F as (Hj & HP & _). split; [done|].
    intros HF. exfalso. rewrite Forall_lookup in HF. by apply (HF j x).
  - apply list_find_None in F. by split.
Qed.

Lemma find_first_Some {A} (P : A -> Prop) `{forall x, Decision (P x)} l x :
  find_first P l = Some x -> x ∈ l /\ P x.
Proof.
  unfold find_first. intros E. destruct (list_find P l) as [[j y]|] eqn:F; simplify_eq/=.
  apply list_find_Some in F as (? & ? & _). split; [|done]. by eapply list_elem_of_lookup_2.
Qed.

Lemma find_first_None {A} (P : A -> Prop) `{forall x, Decision (P x)} l :
  find_first P l = None <-> Forall (fun x => ~ P x) l.
Proof.
  unfold find_first. destruct (list_find P l) as [[j x]|] eqn:F; simpl.
  - apply list_find_Some in F as (Hj & HP & _). split; [done|].
    intros HF. exfalso. rewrite Forall_lookup in HF. by apply (HF j x).
  - apply list_find_None in F. by split.
Qed.

Lemma filter_all {A} (P : A -> Prop) `{forall x, Decision (P x)} l : Forall P l -> filter P l = l.
Proof.
  induction 1 as [|x l Hx Hl IH]; [done|]. by rewrite filter_cons, decide_True, IH.
Qed.

Lemma swap_remove_spec {A} i (l : list A) x :
  l !! i = Some x -> exists l', swap_remove i l = Some (x, l') /\ l ≡ₚ x :: l'.
Proof.
  intros E. unfold swap_remove. rewrite E. cbn [mbind option_bind].
  destruct l as [|a l0] using rev_ind; [by rewrite lookup_nil in E|clear IHl0].
  rewrite last_snoc. cbn [mbind option_bind]. eexists. split; [done|].
  rewrite length_app. cbn [length]. rewrite Nat.add_1_r. cbn [pred].
  destruct (decide (i < length l0)%nat) as [Hi|Hi].
  - rewrite lookup_app_l in E by done. rewrite insert_app_l by done.
    rewrite take_app_length' by (by rewrite length_insert).
    rewrite insert_take_drop by done.
    rewrite <- (take_drop_middle l0 i x E) at 1. 
    rewrite <- Permutation_cons_append. by rewrite <- !Permutation_middle, Permutation_swap.
  - assert (i = length l0) as -> by (apply lookup_lt_Some in E; rewrite length_app in E; simpl in E; lia).
    rewrite lookup_app_r in E by lia. rewrite Nat.sub_diag in E. simplify_eq/=.
    rewrite list_insert_id by (by rewrite lookup_app_r, Nat.sub_diag).
    rewrite take_app_length. by rewrite <- Permutation_cons_append.
Qed.

Lemma map_id_on {A} (f : A -> A) l : (forall x, x ∈ l -> f x = x) -> map f l = l.
Proof.
  induction l as [|x l IH]; intros Hf; [done|]. simpl. rewrite Hf by left. f_equal.
  apply IH. intros y Hy. apply Hf. by right.
Qed.

(** * Loops

    A [loop] or [while] whose body either goes on with a new state or leaves
    with a result; [None]: the fuel ran out.  When every state the loop can
    reach is in a finite list, its length is fuel enough: the loop either
    leaves within that many rounds or never. *)
Fixpoint loop {S R} (body : S -> S + R) (fuel : nat) (s : S) : option R :=
  match fuel with
  | O => None
  | Datatypes.S fuel =>
      match body s with
      | inl s' => loop body fuel s'
      | inr r => Some r
      end
  end.

Section Loops.
Context {S R : Type} (body : S -> S + R).

Lemma loop_mono n m s r : (n <= m)%nat -> loop body n s = Some r -> loop body m s = Some r.
Proof.
  revert m s. induction n as [|n IH]; intros m s Hle; [done|].
  destruct m as [|m]; [lia|]. cbn. destruct (body s); [apply IH; lia|done].
Qed.

(** The states of the first [n] rounds. *)
Fixpoint loop_trace (n : nat) (s : S) : list S :=
  match n with
  | O => []
  | Datatypes.S n => s :: match body s with inl s' => loop_trace n s' | inr _ => [] end
  end.

Lemma loop_trace_leaves n s r x :
  loop body n s = Some r -> x ∈ loop_trace n s -> loop body n x = Some r.
Proof.
  revert s. induction n as [|n IH]; intros s E Hx; [done|].
  cbn [loop_trace] in Hx. apply elem_of_cons in Hx as [->|Hx]; [done|].
  cbn [loop] in E. destruct (body s) as [s'|] eqn:B; [|by apply not_elem_of_nil in Hx].
  apply (loop_mono n); [lia|]. by eapply IH.
Qed.

Lemma loop_trace_fresh n s r :
  loop body n s = None -> loop body (Datatypes.S n) s = Some r ->
  NoDup (loop_trace (Datatypes.S n) s) /\ length (loop_trace (Datatypes.S n) s) = Datatypes.S n.
Proof.
  revert s. induction n as [|n IH]; intros s En E.
  - cbn in *. destruct (body s); [done|]. split; [repeat constructor; by apply not_elem_of_nil|done].
  - change (match body s with inl s' => loop body n s' | inr r => Some r end = None) in En.
    change (match body s with inl s' => loop body (Datatypes.S n) s' | inr r => Some r end = Some r) in E.
    change (loop_trace (Datatypes.S (Datatypes.S n)) s) with
      (s :: match body s with inl s' => loop_trace (Datatypes.S n) s' | inr _ => [] end).
    destruct (body s) as [s'|] eqn:B; [|done].
    destruct (IH s' En E) as [Hnd Hl]. split; [|cbn [length]; by rewrite Hl].
    constructor; [|done]. intros Hin. pose proof (loop_trace_leaves _ _ _ _ E Hin) as Hs.
    change (match body s with inl s' => loop body n s' | inr r => Some r end = Some r) in Hs.
    rewrite B in Hs. congruence.
Qed.

Lemma loop_trace_closed (D : list S) n s :
  (forall s s', s ∈ D -> body s = inl s' -> s' ∈ D) -> s ∈ D -> loop_trace n s ⊆ D.
Proof.
  intros Hc. revert s. induction n as [|n IH]; intros s Hs; cbn; [by apply list_subseteq_nil|].
  apply list_subseteq_cons_iff. split; [done|].
  destruct (body s) as [s'|] eqn:B; [eauto|by apply list_subseteq_nil].
Qed.

Lemma loop_bound (D : list S) n s r :
  (forall s s', s ∈ D -> body s = inl s' -> s' ∈ D) -> s ∈ D ->
  loop body n s = Some r -> loop body (length D) s = Some r.
Proof.
  intros Hc Hs E. assert (exists k, loop body k s = None /\ loop body (Datatypes.S k) s = Some r) as (k & Ek & ESk).
  { revert E. induction n as [|n IH]; intros E; [done|].
    destruct (loop body n s) as [r'|] eqn:En; [|eauto].
    pose proof (loop_mono n (Datatypes.S n) s r' ltac:(lia) En). apply IH. congruence. }
  destruct (loop_trace_fresh k s r Ek ESk) as [Hnd Hl].
  apply (loop_mono (Datatypes.S k)); [|done]. rewrite <- Hl.
  apply submseteq_length, NoDup_submseteq; [done|]. by apply loop_trace_closed.
Qed.

(** A measure that falls in every round bounds the rounds. *)
Lemma loop_measure (P : S -> Prop) (rank : S -> nat) s :
  (forall s s', P s -> body s = inl s' -> P s' /\ (rank s' < rank s)%nat) -> P s ->
  exists r, loop body (Datatypes.S (rank s)) s = Some r.
Proof.
  intros Hr. remember (rank s) as n eqn:E. revert s E.
  induction (lt_wf n) as [n _ IH]; intros s -> Hs. cbn [loop].
  destruct (body s) as [s'|r] eqn:B; [|eauto]. destruct (Hr s s' Hs B) as [Hs' Hlt].
  destruct (IH (rank s') Hlt s' eq_refl Hs') as [r Er]. exists r. by eapply loop_mono.
Qed.
End Loops.
