(* ===== verification/Guid.v ===== *)
(** wow-core/src/guid.rs: object identifiers and their generators. *)
From S2P Require Import Prelude.

(** [HighGuid], in declaration order: the discriminant is the position. *)
Module HighGuid.
Inductive t : Type :=
| Null | Uniq | Player | Item | WorldTransaction | StaticDoor | Transport
| Conversation | Creature | Vehicle | Pet | GameObject | DynamicObject
| AreaTrigger | Corpse | LootObject | SceneObject | Scenario | AIGroup
| DynamicDoor | ClientActor | Vignette | CallForHelp | AIResource | AILock
| AILockTicket | ChatChannel | Party | Guild | WowAccount | BNetAccount
| GMTask | MobileSession | RaidGroup | Spell | Mail | WebObj | LFGObject
| LFGList | UserRouter | PVPQueueGroup | UserClient | PetBattle
| UniqUserClient | BattlePet | CommerceObj | ClientSession | Cast
| ClientConnection | ClubFinder | ToolsClient | WorldLayer | ArenaTeam
| LMMParty | LMMLobby | Count.

#[global] Instance eq_dec : EqDecision t.
Proof. solve_decision. Defined.

Definition values : list t :=
  [Null; Uniq; Player; Item; WorldTransaction; StaticDoor; Transport;
   Conversation; Creature; Vehicle; Pet; GameObject; DynamicObject;
   AreaTrigger; Corpse; LootObject; SceneObject; Scenario; AIGroup;
   DynamicDoor; ClientActor; Vignette; CallForHelp; AIResource; AILock;
   AILockTicket; ChatChannel; Party; Guild; WowAccount; BNetAccount;
   GMTask; MobileSession; RaidGroup; Spell; Mail; WebObj; LFGObject;
   LFGList; UserRouter; PVPQueueGroup; UserClient; PetBattle;
   UniqUserClient; BattlePet; CommerceObj; ClientSession; Cast;
   ClientConnection; ClubFinder; ToolsClient; WorldLayer; ArenaTeam;
   LMMParty; LMMLobby; Count].

(** [high as u8]: the position in [values]. *)
Fixpoint index_of (h : t) (l : list t) (i : Z) : Z :=
  match l with
  | [] => i
  | x :: l' => if decide (x = h) then i else index_of h l' (i + 1)
  end.
Definition code (h : t) : Z := index_of h values 0.

(** [HighGuid::from_u8]; the [transmute] yields the variant of that
    discriminant. *)
Definition from_u8 (val : Z) : option t :=
  if val <? code Count then values !! Z.to_nat val else None.

Lemma code_range h : 0 <= code h < 56.
Proof. by destruct h; vm_compute. Qed.

Lemma from_u8_code h : h <> Count -> from_u8 (code h) = Some h.
Proof. by destruct h. Qed.
End HighGuid.

(** [TypeId]. *)
Module TypeId.
Inductive t : Type :=
| Object | Item | Container | AzeriteEmpoweredItem | AzeriteItem | Unit
| Player | ActivePlayer | GameObject | DynamicObject | Corpse | AreaTrigger
| SceneObject | Conversation.

#[global] Instance eq_dec : EqDecision t.
Proof. solve_decision. Defined.
End TypeId.

(** [ObjectGuid]: two [i64] words. *)
Record ObjectGuid : Type := mkGuid { high : Z; low : Z }.

#[global] Instance guid_eq_dec : EqDecision ObjectGuid.
Proof. solve_decision. Defined.

#[global] Instance guid_countable : Countable ObjectGuid.
Proof.
  refine (inj_countable' (fun g => (high g, low g)) (fun p => mkGuid p.1 p.2) _).
  by intros [].
Defined.

Definition guid_wf (g : ObjectGuid) : Prop := in_s 64 (high g) /\ in_s 64 (low g).

Definition EMPTY : ObjectGuid := mkGuid 0 0.

(** ** Accessors *)
Definition high_type (g : ObjectGuid) : HighGuid.t :=
  let raw := u8 (Z.land (Z.shiftr (high g) 58) 0x3F) in
  default HighGuid.Null (HighGuid.from_u8 raw).

Definition sub_type (g : ObjectGuid) : Z := u8 (Z.land (high g) 0x3F).
Definition realm_id (g : ObjectGuid) : Z := u16 (Z.land (Z.shiftr (high g) 42) 0x1FFF).
Definition server_id (g : ObjectGuid) : Z := u32 (Z.land (Z.shiftr (low g) 40) 0x1FFF).
Definition map_id_of_guid (g : ObjectGuid) : Z := u16 (Z.land (Z.shiftr (high g) 29) 0x1FFF).
Definition entry (g : ObjectGuid) : Z := u32 (Z.land (Z.shiftr (high g) 6) 0x7FFFFF).

Definition counter (g : ObjectGuid) : Z :=
  if decide (high_type g = HighGuid.Transport)
  then Z.land (Z.shiftr (high g) 38) 0xFFFFF
  else Z.land (low g) 0xFFFFFFFFFF.

Definition max_counter (h : HighGuid.t) : Z :=
  if decide (h = HighGuid.Transport) then 0xFFFFF else 0xFFFFFFFFFF.

(** ** Type checks *)
Definition is_empty (g : ObjectGuid) : bool := (high g =? 0) && (low g =? 0).
Definition has_type (h : HighGuid.t) (g : ObjectGuid) : bool := bool_decide (high_type g = h).
Definition is_creature : ObjectGuid -> bool := has_type HighGuid.Creature.
Definition is_pet : ObjectGuid -> bool := has_type HighGuid.Pet.
Definition is_vehicle : ObjectGuid -> bool := has_type HighGuid.Vehicle.
Definition is_creature_or_pet (g : ObjectGuid) : bool := is_creature g || is_pet g.
Definition is_creature_or_vehicle (g : ObjectGuid) : bool := is_creature g || is_vehicle g.
Definition is_any_type_creature (g : ObjectGuid) : bool :=
  is_creature g || is_pet g || is_vehicle g.
Definition is_player (g : ObjectGuid) : bool :=
  negb (is_empty g) && has_type HighGuid.Player g.
Definition is_unit (g : ObjectGuid) : bool := is_any_type_creature g || is_player g.
Definition is_item : ObjectGuid -> bool := has_type HighGuid.Item.
Definition is_game_object : ObjectGuid -> bool := has_type HighGuid.GameObject.
Definition is_dynamic_object : ObjectGuid -> bool := has_type HighGuid.DynamicObject.
Definition is_corpse : ObjectGuid -> bool := has_type HighGuid.Corpse.
Definition is_area_trigger : ObjectGuid -> bool := has_type HighGuid.AreaTrigger.
Definition is_mo_transport : ObjectGuid -> bool := has_type HighGuid.Transport.
Definition is_any_type_game_object (g : ObjectGuid) : bool :=
  is_game_object g || is_mo_transport g.
Definition is_party : ObjectGuid -> bool := has_type HighGuid.Party.
Definition is_guild : ObjectGuid -> bool := has_type HighGuid.Guild.
Definition is_scene_object : ObjectGuid -> bool := has_type HighGuid.SceneObject.
Definition is_conversation : ObjectGuid -> bool := has_type HighGuid.Conversation.
Definition is_cast : ObjectGuid -> bool := has_type HighGuid.Cast.

Definition type_id_for (h : HighGuid.t) : TypeId.t :=
  match h with
  | HighGuid.Item => TypeId.Item
  | HighGuid.Creature | HighGuid.Pet | HighGuid.Vehicle => TypeId.Unit
  | HighGuid.Player => TypeId.Player
  | HighGuid.GameObject | HighGuid.Transport => TypeId.GameObject
  | HighGuid.DynamicObject => TypeId.DynamicObject
  | HighGuid.Corpse => TypeId.Corpse
  | HighGuid.AreaTrigger => TypeId.AreaTrigger
  | HighGuid.SceneObject => TypeId.SceneObject
  | HighGuid.Conversation => TypeId.Conversation
  | _ => TypeId.Object
  end.
Definition type_id (g : ObjectGuid) : TypeId.t := type_id_for (high_type g).

Definition has_entry (g : ObjectGuid) : bool :=
  match high_type g with
  | HighGuid.WorldTransaction | HighGuid.Conversation | HighGuid.Creature
  | HighGuid.Vehicle | HighGuid.Pet | HighGuid.GameObject
  | HighGuid.DynamicObject | HighGuid.AreaTrigger | HighGuid.Corpse
  | HighGuid.LootObject | HighGuid.SceneObject | HighGuid.Scenario
  | HighGuid.AIGroup | HighGuid.DynamicDoor | HighGuid.Vignette
  | HighGuid.CallForHelp | HighGuid.AIResource | HighGuid.AILock
  | HighGuid.AILockTicket | HighGuid.Cast => true
  | _ => false
  end.

Definition is_map_specific (h : HighGuid.t) : bool :=
  match h with
  | HighGuid.Conversation | HighGuid.Creature | HighGuid.Vehicle | HighGuid.Pet
  | HighGuid.GameObject | HighGuid.DynamicObject | HighGuid.AreaTrigger
  | HighGuid.Corpse | HighGuid.LootObject | HighGuid.SceneObject
  | HighGuid.Scenario | HighGuid.AIGroup | HighGuid.DynamicDoor
  | HighGuid.Vignette | HighGuid.CallForHelp | HighGuid.AIResource
  | HighGuid.AILock | HighGuid.AILockTicket => true
  | _ => false
  end.

Definition is_realm_specific (h : HighGuid.t) : bool :=
  match h with
  | HighGuid.Player | HighGuid.Item | HighGuid.ChatChannel
  | HighGuid.Transport | HighGuid.Guild => true
  | _ => false
  end.

Definition is_global (h : HighGuid.t) : bool :=
  match h with
  | HighGuid.Uniq | HighGuid.Party | HighGuid.WowAccount | HighGuid.BNetAccount
  | HighGuid.GMTask | HighGuid.RaidGroup | HighGuid.Spell | HighGuid.Mail
  | HighGuid.UserRouter | HighGuid.PVPQueueGroup | HighGuid.UserClient
  | HighGuid.UniqUserClient | HighGuid.BattlePet => true
  | _ => false
  end.

(** ** Factory methods *)
Definition type_bits (h : HighGuid.t) : Z := shl64 (HighGuid.code h) 58.
Definition realm_bits (realm : Z) : Z := shl64 (Z.land realm 0x1FFF) 42.

Definition create_null : ObjectGuid := EMPTY.
Definition create_uniq (id : Z) : ObjectGuid := mkGuid (type_bits HighGuid.Uniq) id.
Definition create_player (realm db_id : Z) : ObjectGuid :=
  mkGuid (Z.lor (type_bits HighGuid.Player) (realm_bits realm)) db_id.
Definition create_item (realm db_id : Z) : ObjectGuid :=
  mkGuid (Z.lor (type_bits HighGuid.Item) (realm_bits realm)) db_id.

Definition create_world_object (guid_type : HighGuid.t)
    (sub realm map server ent cnt : Z) : ObjectGuid :=
  mkGuid
    (Z.lor (Z.lor (Z.lor (Z.lor (type_bits guid_type) (realm_bits realm))
       (shl64 (Z.land map 0x1FFF) 29))
       (shl64 (Z.land ent 0x7FFFFF) 6))
       (Z.land sub 0x3F))
    (Z.lor (shl64 (Z.land server 0xFFFFFF) 40) (Z.land cnt 0xFFFFFFFFFF)).

Definition create_creature_like_cpp (realm map ent cnt : Z) : ObjectGuid :=
  create_world_object HighGuid.Creature 0 realm map 0 ent cnt.
Definition create_vehicle_like_cpp (realm map ent cnt : Z) : ObjectGuid :=
  create_world_object HighGuid.Vehicle 0 realm map 0 ent cnt.
Definition create_gameobject_like_cpp (map ent cnt : Z) : ObjectGuid :=
  create_world_object HighGuid.GameObject 0 0 map 0 ent cnt.
Definition create_area_trigger_like_cpp (map ent cnt : Z) : ObjectGuid :=
  create_world_object HighGuid.AreaTrigger 0 0 map 0 ent cnt.

Definition create_transport (guid_type : HighGuid.t) (cnt : Z) : ObjectGuid :=
  mkGuid (Z.lor (type_bits guid_type) (shl64 cnt 38)) 0.
Definition create_global (guid_type : HighGuid.t) (db_id_high db_id : Z) : ObjectGuid :=
  mkGuid (Z.lor (type_bits guid_type) (Z.land db_id_high 0x3FFFFFFFFFFFFFF)) db_id.
Definition create_guild (guid_type : HighGuid.t) (realm db_id : Z) : ObjectGuid :=
  mkGuid (Z.lor (type_bits guid_type) (realm_bits realm)) db_id.

Definition create_chat_channel (realm : Z) (built_in trade : bool)
    (zone_id faction_group_mask cnt : Z) : ObjectGuid :=
  mkGuid
    (Z.lor (Z.lor (Z.lor (Z.lor (Z.lor (type_bits HighGuid.ChatChannel)
       (realm_bits realm))
       (shl64 (Z.b2z built_in) 25))
       (shl64 (Z.b2z trade) 24))
       (shl64 (Z.land zone_id 0x3FFF) 10))
       (shl64 (Z.land faction_group_mask 0x3F) 4))
    cnt.

Definition create_client_actor (owner_type owner_id cnt : Z) : ObjectGuid :=
  mkGuid
    (Z.lor (Z.lor (type_bits HighGuid.ClientActor)
       (shl64 (Z.land owner_type 0x1FFF) 42))
       (shl64 (Z.land owner_id 0xFFFFFF) 26))
    cnt.

Definition create_client (guid_type : HighGuid.t) (realm arg1 cnt : Z) : ObjectGuid :=
  mkGuid
    (Z.lor (Z.lor (type_bits guid_type) (realm_bits realm))
       (shl64 (Z.land arg1 0xFFFFFFFF) 10))
    cnt.

(** [counter as i64] of a [u64]. *)
Definition create_group (cnt : Z) : ObjectGuid :=
  create_global HighGuid.Party 0 (i64 cnt).

(** ** [Ord] *)
Definition guid_cmp (a b : ObjectGuid) : comparison :=
  match Z.compare (high a) (high b) with
  | Eq => Z.compare (low a) (low b)
  | c => c
  end.

(** ** Typed wrappers *)
Record PlayerGuid : Type := mkPlayerGuid { player_inner : ObjectGuid }.
Record CreatureGuid : Type := mkCreatureGuid { creature_inner : ObjectGuid }.
Definition as_player (g : ObjectGuid) : option PlayerGuid :=
  if is_player g then Some (mkPlayerGuid g) else None.
Definition as_creature (g : ObjectGuid) : option CreatureGuid :=
  if is_creature g then Some (mkCreatureGuid g) else None.

(** ** Raw bytes

    [to_le_bytes] of a 64-bit word: eight bytes, least significant first; a
    signed word is read as its unsigned pattern. *)
Fixpoint le_bytes (n : nat) (z : Z) : list Z :=
  match n with
  | O => []
  | S n' => u8 z :: le_bytes n' (Z.shiftr z 8)
  end.

(** [from_le_bytes] of an unsigned word. *)
Fixpoint le_value (bs : list Z) : Z :=
  match bs with
  | [] => 0
  | b :: bs' => Z.lor b (Z.shiftl (le_value bs') 8)
  end.

Definition to_raw_bytes (g : ObjectGuid) : list Z :=
  le_bytes 8 (low g) ++ le_bytes 8 (high g).

(** The argument is [&[u8; 16]]: a list of sixteen bytes. *)
Definition from_raw_bytes (bytes : list Z) : ObjectGuid :=
  mkGuid (i64 (le_value (drop 8 bytes))) (i64 (le_value (take 8 bytes))).

(** ** Counter generators

    Each generator is an atomic counter; an operation returns the new counter
    and its result, [None] standing for the panic or abort of the source. *)
Record ObjectGuidGenerator : Type := mkGenerator
  { next_guid : Z; generator_high_guid : HighGuid.t }.

(** [fetch_add] is performed before the [assert!], and wraps. *)
Definition generate (g : ObjectGuidGenerator) : ObjectGuidGenerator * option Z :=
  let val := next_guid g in
  (mkGenerator (i64 (next_guid g + 1)) (generator_high_guid g),
   if val <? max_counter (generator_high_guid g) - 1 then Some val else None).

Definition set_next (val : Z) (g : ObjectGuidGenerator) : ObjectGuidGenerator :=
  mkGenerator val (generator_high_guid g).

Definition next_after_max_used (g : ObjectGuidGenerator) : Z := next_guid g.

Definition EQUIPMENT_SET_GUID_LIMIT_LIKE_CPP : Z := 0xFFFFFFFFFFFFFFFE.
Definition VOID_STORAGE_ITEM_ID_LIMIT_LIKE_PACKET_GUID : Z := 0x10000000000.

(** [EquipmentSetGuidGeneratorLikeCpp] and [VoidStorageItemIdGeneratorLikeCpp]
    have the same shape: a counter guarded by a limit. *)
Definition equipment_set_new (next : Z) : option Z :=
  if next <? EQUIPMENT_SET_GUID_LIMIT_LIKE_CPP then Some next else None.
Definition equipment_set_try_generate (current : Z) : Z * option Z :=
  if current <? EQUIPMENT_SET_GUID_LIMIT_LIKE_CPP
  then (current + 1, Some current) else (current, None).
Definition equipment_set_generate (current : Z) : Z * option Z :=
  equipment_set_try_generate current.

Definition void_storage_new (next : Z) : option Z :=
  if next <? VOID_STORAGE_ITEM_ID_LIMIT_LIKE_PACKET_GUID then Some next else None.
Definition void_storage_try_generate (current : Z) : Z * option Z :=
  if current <? VOID_STORAGE_ITEM_ID_LIMIT_LIKE_PACKET_GUID
  then (current + 1, Some current) else (current, None).
Definition void_storage_generate (current : Z) : Z * option Z :=
  void_storage_try_generate current.

(** Every identifier a caller obtains from [n] successive calls. *)
Fixpoint void_storage_run (n : nat) (current : Z) : Z * list Z :=
  match n with
  | O => (current, [])
  | S n' =>
      let '(c1, r) := void_storage_generate current in
      let '(c2, rs) := void_storage_run n' c1 in
      (c2, match r with Some v => v :: rs | None => rs end)
  end.

(** * Lemmas *)
Lemma land_ones_id x n : 0 <= n -> in_u n x -> Z.land x (Z.ones n) = x.
Proof. intros. rewrite mask_mod by done. by apply Z.mod_small. Qed.

Lemma code_bound h : in_u 6 (HighGuid.code h).
Proof. pose proof (HighGuid.code_range h). unfold in_u. lia. Qed.

(** Read back the [n]-bit field at offset [k]. *)
Ltac field_bits :=
  apply Z.bits_inj'; intros i Hi;
  unfold type_bits, realm_bits;
  change 0x1FFF with (Z.ones 13); change 0x7FFFFF with (Z.ones 23);
  change 0x3F with (Z.ones 6); change 0xFFFFFFFFFF with (Z.ones 40);
  change 0xFFFFFF with (Z.ones 24); change 0xFFFFF with (Z.ones 20).

Lemma le_bytes_length n z : length (le_bytes n z) = n.
Proof. revert z. induction n; intros; simpl; auto. Qed.

Lemma le_value_le_bytes n z : le_value (le_bytes n z) = z mod 2 ^ (8 * Z.of_nat n).
Proof.
  revert z. induction n as [|n IH]; intros z; [by rewrite Z.mod_1_r|].
  cbn [le_bytes le_value]. rewrite IH. apply Z.bits_inj'. intros i Hi.
  rewrite Z.lor_spec, testbit_wrap_u, Z.shiftl_spec by lia.
  destruct (Z.ltb_spec i 8); simpl.
  - rewrite (Z.testbit_neg_r _ (i - 8)) by lia. rewrite orb_false_r.
    symmetry. apply Z.mod_pow2_bits_low. lia.
  - destruct (Z.lt_ge_cases i (8 * Z.of_nat (S n))).
    + rewrite !Z.mod_pow2_bits_low, Z.shiftr_spec by lia. f_equal. lia.
    + rewrite !Z.mod_pow2_bits_high by lia. done.
Qed.

Lemma shiftr_le_value_cons b x :
  in_u 8 b -> Z.shiftr (Z.lor b (Z.shiftl x 8)) 8 = x.
Proof.
  intros Hb. apply Z.bits_inj'. intros i Hi.
  rewrite Z.shiftr_spec, Z.lor_spec, Z.shiftl_spec by lia.
  rewrite (testbit_bounded 8 b) by (try lia; done). simpl. f_equal. lia.
Qed.

Lemma u8_le_value_cons b x : in_u 8 b -> u8 (Z.lor b (Z.shiftl x 8)) = b.
Proof.
  intros Hb. apply Z.bits_inj'. intros i Hi.
  rewrite testbit_wrap_u, Z.lor_spec, Z.shiftl_spec by lia.
  destruct (Z.ltb_spec i 8); simpl.
  - rewrite (Z.testbit_neg_r _ (i - 8)) by lia. by rewrite orb_false_r.
  - symmetry. by eapply testbit_bounded.
Qed.

Lemma le_bytes_le_value bs : Forall (in_u 8) bs -> le_bytes (length bs) (le_value bs) = bs.
Proof.
  induction 1 as [|b bs Hb _ IH]; cbn [length le_bytes le_value]; [done|].
  by rewrite u8_le_value_cons, shiftr_le_value_cons, IH.
Qed.

Lemma i64_le_value_le_bytes z : in_s 64 z -> i64 (le_value (le_bytes 8 z)) = z.
Proof.
  intros. rewrite le_value_le_bytes. change (2 ^ (8 * Z.of_nat 8)) with (2 ^ 64).
  change (z mod 2 ^ 64) with (u64 z). rewrite wrap_s_wrap_u by lia. by apply wrap_s_id.
Qed.

Lemma le_bytes_wrap_s z : le_bytes 8 (i64 z) = le_bytes 8 z.
Proof.
  assert (forall n a b, (forall i, 0 <= i < 8 * Z.of_nat n -> Z.testbit a i = Z.testbit b i) ->
    le_bytes n a = le_bytes n b) as Hext.
  { induction n as [|n IH]; intros a b H; simpl; [done|]. f_equal.
    - apply Z.bits_inj'. intros i Hi. rewrite !testbit_wrap_u by lia.
      destruct (Z.ltb_spec i 8); simpl; [apply H; lia|done].
    - apply IH. intros i Hi. rewrite !Z.shiftr_spec by lia. apply H. lia. }
  apply Hext. intros i Hi. apply testbit_wrap_s_low; lia.
Qed.

(** A value whose bits are all below [n] and read through [i64] shifts. *)
Lemma wrap_u_land x w n : 0 <= n <= w -> wrap_u w (Z.land x (Z.ones n)) = Z.land x (Z.ones n).
Proof.
  intros [? ?]. apply wrap_u_id. unfold in_u. rewrite mask_mod by done.
  pose proof (Z.mod_pos_bound x (2 ^ n)).
  assert (0 < 2 ^ n) by (apply Z.pow_pos_nonneg; lia).
  assert (2 ^ n <= 2 ^ w) by (apply Z.pow_le_mono_r; lia). lia.
Qed.

Ltac field_read n x :=
  apply Z.bits_inj'; intros i Hi;
  let H := fresh in
  destruct (Z.lt_ge_cases i n) as [H|H];
  [ bits_push; try (f_equal; lia)
  | bits_push; try (symmetry; eapply (testbit_bounded n x); [done|lia]) ].

Section Fields.
Context (h : HighGuid.t) (sub realm map server ent cnt : Z).
Hypothesis sub_ok : in_u 6 sub.
Hypothesis realm_ok : in_u 13 realm.
Hypothesis map_ok : in_u 13 map.
Hypothesis ent_ok : in_u 23 ent.
Hypothesis cnt_ok : in_u 40 cnt.
Let g := create_world_object h sub realm map server ent cnt.
Let code_ok : in_u 6 (HighGuid.code h) := code_bound h.

Ltac open_field :=
  unfold g, create_world_object, type_bits, realm_bits; cbn [high low];
  change 0x1FFF with (Z.ones 13); change 0x7FFFFF with (Z.ones 23);
  change 0x3F with (Z.ones 6); change 0xFFFFFFFFFF with (Z.ones 40);
  change 0xFFFFFF with (Z.ones 24); change 0xFFFFF with (Z.ones 20).

Lemma field_type : Z.land (Z.shiftr (high g) 58) 0x3F = HighGuid.code h.
Proof. open_field. field_read 6 (HighGuid.code h). Qed.

Lemma field_sub : Z.land (high g) 0x3F = sub.
Proof. open_field. field_read 6 sub. Qed.

Lemma field_realm : Z.land (Z.shiftr (high g) 42) 0x1FFF = realm.
Proof. open_field. field_read 13 realm. Qed.

Lemma field_map : Z.land (Z.shiftr (high g) 29) 0x1FFF = map.
Proof. open_field. field_read 13 map. Qed.

Lemma field_entry : Z.land (Z.shiftr (high g) 6) 0x7FFFFF = ent.
Proof. open_field. field_read 23 ent. Qed.

Lemma field_counter : Z.land (low g) 0xFFFFFFFFFF = cnt.
Proof. open_field. field_read 40 cnt. Qed.

Lemma field_server : Z.land (Z.shiftr (low g) 40) 0x1FFF = server mod 2 ^ 13.
Proof.
  open_field. rewrite <- (mask_mod server 13) by lia.
  apply Z.bits_inj'. intros i Hi.
  destruct (Z.lt_ge_cases i 13); bits_push; f_equal; lia.
Qed.
End Fields.

Lemma in_s_shiftr w x : 0 < w -> in_s w x <-> (Z.shiftr x (w - 1) = 0 \/ Z.shiftr x (w - 1) = -1).
Proof.
  intros Hw. unfold in_s. rewrite Z.shiftr_div_pow2 by lia.
  assert (0 < 2 ^ (w - 1)) by (apply Z.pow_pos_nonneg; lia).
  pose proof (Z.div_mod x (2 ^ (w - 1))). pose proof (Z.mod_pos_bound x (2 ^ (w - 1))).
  split; intros; nia.
Qed.

Lemma in_s_lor w x y : 0 < w -> in_s w x -> in_s w y -> in_s w (Z.lor x y).
Proof.
  intros ?. rewrite !in_s_shiftr, Z.shiftr_lor by done.
  intros [-> | ->] [-> | ->]; simpl; auto.
Qed.

Lemma in_s_shl64 x n : in_s 64 (shl64 x n).
Proof. by apply wrap_s_range. Qed.

Lemma in_s_mask x n : 0 <= n < 64 -> in_s 64 (Z.land x (Z.ones n)).
Proof.
  intros ?. rewrite mask_mod by lia. pose proof (Z.mod_pos_bound x (2 ^ n)).
  assert (0 < 2 ^ n) by (apply Z.pow_pos_nonneg; lia).
  assert (2 ^ n <= 2 ^ 63) by (apply Z.pow_le_mono_r; lia).
  unfold in_s. simpl Z.sub. lia.
Qed.

Create HintDb guid.
#[export] Hint Resolve in_s_lor in_s_shl64 : guid.

Lemma create_world_object_wf h sub realm map server ent cnt :
  guid_wf (create_world_object h sub realm map server ent cnt).
Proof.
  split; unfold create_world_object, type_bits, realm_bits; cbn [high low].
  - change 0x3F with (Z.ones 6) at 1.
    repeat (apply in_s_lor; [lia| |]); auto with guid; apply in_s_mask; lia.
  - apply in_s_lor; auto with guid; [lia|].
    change 0xFFFFFFFFFF with (Z.ones 40). apply in_s_mask; lia.
Qed.

(** The type field of every factory that places only lower fields beside it. *)
Lemma high_type_of_fields h rest l :
  h <> HighGuid.Count -> (forall i, 58 <= i < 64 -> Z.testbit rest i = false) ->
  high_type (mkGuid (Z.lor (type_bits h) rest) l) = h.
Proof.
  intros Hh Hrest. unfold high_type; cbn [high].
  replace (Z.land (Z.shiftr (Z.lor (type_bits h) rest) 58) 0x3F) with (HighGuid.code h).
  - rewrite wrap_u_id by (pose proof (HighGuid.code_range h); unfold in_u; lia).
    by rewrite HighGuid.from_u8_code.
  - symmetry. change 0x3F with (Z.ones 6). pose proof (code_bound h). unfold type_bits.
    apply Z.bits_inj'. intros i Hi. destruct (Z.lt_ge_cases i 6).
    + bits_push. rewrite Hrest by lia. rewrite orb_false_r. f_equal. lia.
    + bits_push. symmetry. by eapply (testbit_bounded 6).
Qed.

Lemma realm_bits_low realm i : 58 <= i < 64 -> Z.testbit (realm_bits realm) i = false.
Proof. intros. unfold realm_bits. change 0x1FFF with (Z.ones 13). bits_push. done. Qed.

Lemma create_player_type realm db_id :
  high_type (create_player realm db_id) = HighGuid.Player.
Proof. apply high_type_of_fields; [done|]. intros. by apply realm_bits_low. Qed.

Lemma create_player_nonempty realm db_id : create_player realm db_id <> EMPTY.
Proof.
  intros E. pose proof (create_player_type realm db_id) as H. by rewrite E in H.
Qed.

Lemma is_empty_spec g : is_empty g = true <-> g = EMPTY.
Proof.
  destruct g as [x y]; unfold is_empty, EMPTY; cbn [high low].
  rewrite andb_true_iff, !Z.eqb_eq. split; [by intros [-> ->]|by intros [= -> ->]].
Qed.

Lemma create_player_inj realm x y : create_player realm x = create_player realm y -> x = y.
Proof. by intros [= ->]. Qed.

(** * Properties *)
(** A world-object GUID gives back every field it was built from (the
    server id apart), each at its own width, and its words are [i64]s. *)
Theorem create_world_object_fields h sub realm map server ent cnt :
  h <> HighGuid.Count -> h <> HighGuid.Transport ->
  in_u 6 sub -> in_u 13 realm -> in_u 13 map -> in_u 23 ent -> in_u 40 cnt ->
  let g := create_world_object h sub realm map server ent cnt in
  guid_wf g /\ high_type g = h /\ sub_type g = sub /\ realm_id g = realm /\
  map_id_of_guid g = map /\ entry g = ent /\ counter g = cnt.
Proof.
  intros Hc Ht Hs Hr Hm He Hn g.
  assert (Htype : high_type g = h).
  { unfold high_type, g. rewrite field_type by done.
    rewrite wrap_u_id by (pose proof (HighGuid.code_range h); unfold in_u; lia).
    by rewrite HighGuid.from_u8_code. }
  split; [apply create_world_object_wf|]. split; [done|].
  unfold sub_type, realm_id, map_id_of_guid, entry, counter. rewrite Htype.
  rewrite decide_False by done. unfold g.
  rewrite field_sub, field_realm, field_map, field_entry, field_counter by done.
  rewrite !wrap_u_id by (unfold in_u in *; lia). done.
Qed.

Lemma create_world_object_fields_witness :
  let g := create_world_object HighGuid.Creature 0 1 631 0 36597 77 in
  high_type g = HighGuid.Creature /\ entry g = 36597 /\ counter g = 77.
Proof.
  destruct (create_world_object_fields HighGuid.Creature 0 1 631 0 36597 77)
    as (_ & H1 & _ & _ & _ & H2 & H3); try done.
Defined.

(** [server_id] reads 13 of the 24 bits the factory stores, so it returns
    the server id modulo 2^13 only. *)
Theorem server_id_truncates h sub realm map server ent cnt :
  server_id (create_world_object h sub realm map server ent cnt) = Z.modulo server (2 ^ 13).
Proof.
  unfold server_id. rewrite field_server. apply wrap_u_id. unfold in_u.
  pose proof (Z.mod_pos_bound server (2 ^ 13)). lia.
Qed.

Lemma from_to_raw_bytes g : guid_wf g -> from_raw_bytes (to_raw_bytes g) = g.
Proof.
  intros [Hh Hl]. unfold to_raw_bytes, from_raw_bytes.
  rewrite take_app_length', drop_app_length' by (by rewrite le_bytes_length).
  rewrite !i64_le_value_le_bytes by done. by destruct g.
Qed.

Lemma to_from_raw_bytes bs :
  length bs = 16%nat -> Forall (in_u 8) bs -> to_raw_bytes (from_raw_bytes bs) = bs.
Proof.
  intros Hlen Hb. unfold to_raw_bytes, from_raw_bytes; cbn [high low]. rewrite !le_bytes_wrap_s.
  rewrite <- (take_drop 8 bs) at 3. f_equal.
  - rewrite <- (le_bytes_le_value (take 8 bs)) at 2 by (by apply Forall_take).
    by rewrite length_take, Hlen.
  - rewrite <- (le_bytes_le_value (drop 8 bs)) at 2 by (by apply Forall_drop).
    by rewrite length_drop, Hlen.
Qed.

(** The sixteen raw bytes of a GUID decode to it, and any sixteen bytes
    decode to a GUID that encodes to them. *)
Theorem raw_bytes_roundtrip g bs :
  guid_wf g -> length bs = 16%nat -> Forall (in_u 8) bs ->
  length (to_raw_bytes g) = 16%nat /\ from_raw_bytes (to_raw_bytes g) = g /\
  guid_wf (from_raw_bytes bs) /\ to_raw_bytes (from_raw_bytes bs) = bs.
Proof.
  intros Hg Hlen Hb. split_and!.
  - unfold to_raw_bytes. by rewrite length_app, !le_bytes_length.
  - by apply from_to_raw_bytes.
  - split; cbn; by apply wrap_s_range.
  - by apply to_from_raw_bytes.
Qed.

Lemma raw_bytes_roundtrip_witness :
  from_raw_bytes (to_raw_bytes (create_player 1 42)) = create_player 1 42.
Proof.
  apply (raw_bytes_roundtrip (create_player 1 42) (to_raw_bytes (create_player 1 42))).
  - repeat split; vm_compute; intros; discriminate.
  - reflexivity.
  - vm_compute. repeat constructor; vm_compute; intros; discriminate.
Defined.

Lemma void_storage_run_exhausted n c :
  VOID_STORAGE_ITEM_ID_LIMIT_LIKE_PACKET_GUID <= c -> void_storage_run n c = (c, []).
Proof.
  intros ?. induction n as [|n IH]; cbn [void_storage_run]; [done|].
  unfold void_storage_generate, void_storage_try_generate.
  destruct (Z.ltb_spec c VOID_STORAGE_ITEM_ID_LIMIT_LIKE_PACKET_GUID); [lia|].
  by rewrite IH.
Qed.

(** [n] calls of the void-storage allocator hand out the next free
    identifiers in order, without repetition, none of which leaves the 40-bit
    counter of a packet GUID; once the range is exhausted the counter stays. *)
Theorem void_storage_run_spec n c :
  0 <= c <= VOID_STORAGE_ITEM_ID_LIMIT_LIKE_PACKET_GUID ->
  let k := Z.min (Z.of_nat n) (VOID_STORAGE_ITEM_ID_LIMIT_LIKE_PACKET_GUID - c) in
  void_storage_run n c = (c + k, seqZ c k) /\
  NoDup (seqZ c k) /\ Forall (in_u 40) (seqZ c k).
Proof.
  intros Hc k. split_and!; [|apply NoDup_seqZ|].
  - subst k. revert c Hc. induction n as [|n IH]; intros c Hc.
    + rewrite Z.min_l by lia. cbn. f_equal. lia.
    + cbn [void_storage_run]. unfold void_storage_generate, void_storage_try_generate.
      destruct (Z.ltb_spec c VOID_STORAGE_ITEM_ID_LIMIT_LIKE_PACKET_GUID).
      * rewrite IH by lia. rewrite (seqZ_cons c) by lia. f_equal; [lia|].
        repeat f_equal; lia.
      * rewrite void_storage_run_exhausted by done. f_equal; [lia|].
        by rewrite Z.min_r, seqZ_nil by lia.
  - apply Forall_forall. intros x Hx. apply elem_of_seqZ in Hx.
    unfold in_u, VOID_STORAGE_ITEM_ID_LIMIT_LIKE_PACKET_GUID in *. lia.
Qed.

Lemma void_storage_run_spec_witness :
  void_storage_run 3 0xFFFFFFFFFE = (0x10000000000, [0xFFFFFFFFFE; 0xFFFFFFFFFF]).
Proof.
  apply (void_storage_run_spec 3 0xFFFFFFFFFE).
  unfold VOID_STORAGE_ITEM_ID_LIMIT_LIKE_PACKET_GUID; lia.
Defined.
