(* ===== verification/Packet.v ===== *)
(** wow-packet/src/world_packet.rs: the packet buffer, with byte fields,
    bit-packed fields and packed GUIDs. *)
From S2P Require Import Prelude Guid.

Definition MAX_PACKET_SIZE : Z := 0x40000.

(** The messages of [StringError] and [DecompressionError] are not modelled. *)
Inductive PacketError : Type :=
| ReadPastEnd (wanted available : nat)
| StringError
| InvalidOpcode (opcode : Z)
| TooLarge (size : Z)
| InvalidArrayCapacity (requested max : Z)
| DecompressionError
| UnexpectedOpcode (expected actual : Z).

(** [data] is the byte buffer; [bit_pos] counts the bits left in [bit_buf],
    [wbit_pos] the bits already placed in [wbit_buf]. *)
Record WorldPacket : Type := mkPacket
  { data : list Z; read_pos : nat; bit_buf : Z; bit_pos : Z;
    wbit_buf : Z; wbit_pos : Z }.

#[export] Instance eta_packet : Eta WorldPacket := fun p =>
  mkPacket (data p) (read_pos p) (bit_buf p) (bit_pos p) (wbit_buf p) (wbit_pos p).

(** ** Construction and metadata *)
Definition from_bytes (bs : list Z) : WorldPacket := mkPacket bs 0 0 0 0 0.
Definition new_empty : WorldPacket := from_bytes [].
Definition put (bs : list Z) (p : WorldPacket) : WorldPacket :=
  p <| data := data p ++ bs |>.

(** [opcode] is [opcode.to_u16().unwrap_or(0)]. *)
Definition new_server (opcode : Z) : WorldPacket := put (le_bytes 2 opcode) new_empty.
Definition new_client (bs : list Z) : WorldPacket := from_bytes bs.

Definition opcode_raw (p : WorldPacket) : Z :=
  match data p with
  | b0 :: b1 :: _ => le_value [b0; b1]
  | _ => 0
  end.

Definition size_of (p : WorldPacket) : nat := length (data p).
Definition remaining (p : WorldPacket) : nat := (length (data p) - read_pos p)%nat.
Definition packet_is_empty (p : WorldPacket) : bool := Nat.eqb (remaining p) 0.
Definition skip_opcode (p : WorldPacket) : WorldPacket :=
  p <| read_pos := Nat.min 2 (length (data p)) |>.
Definition reset_read (p : WorldPacket) : WorldPacket :=
  p <| read_pos := 0%nat |> <| bit_buf := 0 |> <| bit_pos := 0 |>.

(** ** Reads: a state monad over the packet with [PacketError] *)
Definition reader (A : Type) : Type := WorldPacket -> WorldPacket * result A PacketError.

Definition rret {A} (a : A) : reader A := fun p => (p, Ok a).
Definition rseq {A B} (m : reader A) (k : A -> reader B) : reader B :=
  fun p => match m p with
           | (p', Ok a) => k a p'
           | (p', Err e) => (p', Err e)
           end.
Notation "'bind!' x ':=' m 'in' k" := (rseq m (fun x => k))
  (at level 10, x pattern, m at level 100, k at level 200) : wow_scope.

Definition modify (f : WorldPacket -> WorldPacket) : reader unit := fun p => (f p, Ok tt).
Definition gets {A} (f : WorldPacket -> A) : reader A := fun p => (p, Ok (f p)).

Definition reset_bit_reader (p : WorldPacket) : WorldPacket :=
  p <| bit_buf := 0 |> <| bit_pos := 0 |>.

Definition ensure_readable (n : nat) : reader unit := fun p =>
  if (remaining p <? n)%nat
  then (p, Err (ReadPastEnd n (remaining p)))
  else (p, Ok tt).

(** [data[read_pos..read_pos + n]]. *)
Definition slice (n : nat) (p : WorldPacket) : list Z := take n (drop (read_pos p) (data p)).

Definition read_bytes (count : nat) : reader (list Z) :=
  bind! _ := modify reset_bit_reader in
  bind! _ := ensure_readable count in
  bind! v := gets (slice count) in
  bind! _ := modify (fun p => p <| read_pos := (read_pos p + count)%nat |>) in
  rret v.

(** The fixed-width reads take the little-endian value of their bytes. *)
Definition read_le (n : nat) : reader Z := bind! bs := read_bytes n in rret (le_value bs).
Definition read_uint8 : reader Z := read_le 1.
Definition read_uint16 : reader Z := read_le 2.
Definition read_uint32 : reader Z := read_le 4.
Definition read_uint64 : reader Z := read_le 8.
Definition read_int8 : reader Z := bind! v := read_uint8 in rret (wrap_s 8 v).
Definition read_int16 : reader Z := bind! v := read_uint16 in rret (wrap_s 16 v).
Definition read_int32 : reader Z := bind! v := read_uint32 in rret (i32 v).
Definition read_int64 : reader Z := bind! v := read_uint64 in rret (i64 v).

(** A [f32] is its 32-bit pattern. *)
Definition read_float : reader Z := read_uint32.

Definition read_guid : reader ObjectGuid :=
  bind! lo := read_int64 in
  bind! hi := read_int64 in
  rret (mkGuid hi lo).

(** [String::from_utf8]: the well-formed UTF-8 byte sequences. *)
Definition is_cont (b : Z) : bool := (0x80 <=? b) && (b <=? 0xBF).
Fixpoint utf8_valid (bs : list Z) : bool :=
  match bs with
  | [] => true
  | a :: r1 =>
      if a <? 0x80 then utf8_valid r1
      else match r1 with
      | [] => false
      | b :: r2 =>
          if (0xC2 <=? a) && (a <=? 0xDF) then is_cont b && utf8_valid r2
          else match r2 with
          | [] => false
          | c :: r3 =>
              if (0xE0 <=? a) && (a <=? 0xEF) then
                (if a =? 0xE0 then (0xA0 <=? b) && (b <=? 0xBF)
                 else if a =? 0xED then (0x80 <=? b) && (b <=? 0x9F)
                 else is_cont b) && is_cont c && utf8_valid r3
              else match r3 with
              | [] => false
              | d :: r4 =>
                  (0xF0 <=? a) && (a <=? 0xF4) &&
                  (if a =? 0xF0 then (0x90 <=? b) && (b <=? 0xBF)
                   else if a =? 0xF4 then (0x80 <=? b) && (b <=? 0x8F)
                   else is_cont b) && is_cont c && is_cont d && utf8_valid r4
              end
          end
      end
  end.

(** A Rust [String] is its UTF-8 bytes. *)
Definition from_utf8 (bs : list Z) : reader (list Z) := fun p =>
  (p, if utf8_valid bs then Ok bs else Err StringError).

Definition read_string (len : nat) : reader (list Z) :=
  bind! bytes := read_bytes len in from_utf8 bytes.

(** The scan of [read_cstring]: the bytes before the first zero byte, and
    whether a zero byte was found. *)
Fixpoint until_nul (bs : list Z) : list Z * bool :=
  match bs with
  | [] => ([], false)
  | b :: bs' => if b =? 0 then ([], true)
                else let '(s, f) := until_nul bs' in (b :: s, f)
  end.

(** On a bad string the position is left on the terminator. *)
Definition read_cstring : reader (list Z) :=
  bind! _ := modify reset_bit_reader in
  bind! (s, found) := gets (fun p => until_nul (drop (read_pos p) (data p))) in
  bind! _ := modify (fun p => p <| read_pos := (read_pos p + length s)%nat |>) in
  bind! v := from_utf8 s in
  bind! _ := modify (fun p => if found : bool then p <| read_pos := S (read_pos p) |> else p) in
  rret v.

Definition skip (n : nat) : reader unit :=
  bind! _ := modify reset_bit_reader in
  bind! _ := ensure_readable n in
  modify (fun p => p <| read_pos := (read_pos p + n)%nat |>).

(** ** Bit reads *)
Definition load_bit_byte : reader unit := fun p =>
  if bit_pos p =? 0 then
    (bind! _ := ensure_readable 1 in
     modify (fun p => p <| bit_buf := nth (read_pos p) (data p) 0 |>
                        <| read_pos := S (read_pos p) |> <| bit_pos := 8 |>)) p
  else (p, Ok tt).

Definition read_bit : reader bool :=
  bind! _ := load_bit_byte in
  bind! _ := modify (fun p => p <| bit_pos := bit_pos p - 1 |>) in
  gets (fun p => Z.land (Z.shiftr (bit_buf p) (bit_pos p)) 1 =? 1).

Definition has_bit : reader bool := read_bit.

Fixpoint read_bits_loop (n : nat) (value : Z) : reader Z :=
  match n with
  | O => rret value
  | S n' => bind! b := read_bit in
            read_bits_loop n' (Z.lor (u32 (Z.shiftl value 1)) (Z.b2z b))
  end.
Definition read_bits (n : nat) : reader Z := read_bits_loop n 0.

Definition reset_bits (p : WorldPacket) : WorldPacket := reset_bit_reader p.

(** ** Writes *)
Definition flush_bits (p : WorldPacket) : WorldPacket :=
  if 0 <? wbit_pos p
  then put [wbit_buf p] p <| wbit_buf := 0 |> <| wbit_pos := 0 |>
  else p.

Definition write_bytes (bs : list Z) (p : WorldPacket) : WorldPacket := put bs (flush_bits p).

(** The fixed-width writes append their little-endian bytes; the [_unflushed]
    variants leave pending bits where they are. *)
Definition write_uint8 (v : Z) : WorldPacket -> WorldPacket := write_bytes (le_bytes 1 v).
Definition write_uint16 (v : Z) : WorldPacket -> WorldPacket := write_bytes (le_bytes 2 v).
Definition write_uint32 (v : Z) : WorldPacket -> WorldPacket := write_bytes (le_bytes 4 v).
Definition write_uint64 (v : Z) : WorldPacket -> WorldPacket := write_bytes (le_bytes 8 v).
Definition write_int8 (v : Z) : WorldPacket -> WorldPacket := write_uint8 (u8 v).
Definition write_int16 (v : Z) : WorldPacket -> WorldPacket := write_uint16 (u16 v).
Definition write_int32 (v : Z) : WorldPacket -> WorldPacket := write_uint32 (u32 v).
Definition write_int64 (v : Z) : WorldPacket -> WorldPacket := write_uint64 (u64 v).
Definition write_float (bits : Z) : WorldPacket -> WorldPacket := write_uint32 bits.
Definition write_uint8_unflushed (v : Z) : WorldPacket -> WorldPacket := put (le_bytes 1 v).
Definition write_int8_unflushed (v : Z) : WorldPacket -> WorldPacket :=
  write_uint8_unflushed (u8 v).
Definition write_uint32_unflushed (v : Z) : WorldPacket -> WorldPacket := put (le_bytes 4 v).
Definition write_int32_unflushed (v : Z) : WorldPacket -> WorldPacket :=
  write_uint32_unflushed (u32 v).
Definition write_float_unflushed (bits : Z) : WorldPacket -> WorldPacket :=
  write_uint32_unflushed bits.

Definition write_guid (g : ObjectGuid) (p : WorldPacket) : WorldPacket :=
  write_int64 (high g) (write_int64 (low g) p).

Definition write_string (s : list Z) : WorldPacket -> WorldPacket := write_bytes s.
Definition write_cstring (s : list Z) (p : WorldPacket) : WorldPacket :=
  write_uint8 0 (write_bytes s p).

(** ** Bit writes *)
Definition write_bit (v : bool) (p : WorldPacket) : WorldPacket :=
  let p1 := p <| wbit_pos := wbit_pos p + 1 |> in
  let p2 := if v
            then p1 <| wbit_buf := Z.lor (wbit_buf p1) (Z.shiftl 1 (8 - wbit_pos p1)) |>
            else p1 in
  if wbit_pos p2 =? 8
  then put [wbit_buf p2] p2 <| wbit_buf := 0 |> <| wbit_pos := 0 |>
  else p2.

(** [for i in (0..n).rev()]: bit [n-1] first.  A [u32] shift is by [i mod 32]. *)
Fixpoint write_bits (value : Z) (n : nat) (p : WorldPacket) : WorldPacket :=
  match n with
  | O => p
  | S i => write_bits value i
             (write_bit (Z.land (Z.shiftr value (Z.of_nat i mod 32)) 1 =? 1) p)
  end.

(** ** Packed GUIDs

    The mask of a word has bit [i] set when its byte [i] is non-zero; only
    those bytes are written. *)
Fixpoint byte_mask (bs : list Z) (i : Z) : Z :=
  match bs with
  | [] => 0
  | b :: bs' => Z.lor (if b =? 0 then 0 else Z.shiftl 1 i) (byte_mask bs' (i + 1))
  end.
Definition nonzero_bytes (bs : list Z) : list Z := filter (fun b => b <> 0) bs.

Definition write_packed_guid_unflushed (g : ObjectGuid) (p : WorldPacket) : WorldPacket :=
  let low_bytes := le_bytes 8 (u64 (low g)) in
  let high_bytes := le_bytes 8 (u64 (high g)) in
  put (nonzero_bytes high_bytes) (put (nonzero_bytes low_bytes)
    (put [byte_mask high_bytes 0] (put [byte_mask low_bytes 0] p))).

Definition write_packed_guid (g : ObjectGuid) (p : WorldPacket) : WorldPacket :=
  write_packed_guid_unflushed g (flush_bits p).

(** Read the bytes a mask announces, zero elsewhere: indices [i..i+n). *)
Fixpoint read_masked (n : nat) (mask i : Z) : reader (list Z) :=
  match n with
  | O => rret []
  | S n' =>
      bind! b := (if negb (Z.land mask (Z.shiftl 1 i) =? 0) then read_uint8 else rret 0) in
      bind! bs := read_masked n' mask (i + 1) in
      rret (b :: bs)
  end.

Definition read_packed_guid : reader ObjectGuid :=
  bind! _ := modify reset_bit_reader in
  bind! low_mask := read_uint8 in
  bind! high_mask := read_uint8 in
  bind! low_bytes := read_masked 8 low_mask 0 in
  bind! high_bytes := read_masked 8 high_mask 0 in
  rret (mkGuid (i64 (le_value high_bytes)) (i64 (le_value low_bytes))).

(** ** A packet as a sequence of fields *)
Inductive field : Type :=
| FU8 (v : Z) | FU16 (v : Z) | FU32 (v : Z) | FU64 (v : Z)
| FI8 (v : Z) | FI16 (v : Z) | FI32 (v : Z) | FI64 (v : Z)
| FFloat (bits : Z)
| FGuid (g : ObjectGuid)
| FPackedGuid (g : ObjectGuid)
| FBytes (bs : list Z)
| FString (s : list Z)
| FCString (s : list Z)
| FBit (b : bool)
| FBits (v : Z) (n : nat).

Definition write_field (f : field) : WorldPacket -> WorldPacket :=
  match f with
  | FU8 v => write_uint8 v | FU16 v => write_uint16 v
  | FU32 v => write_uint32 v | FU64 v => write_uint64 v
  | FI8 v => write_int8 v | FI16 v => write_int16 v
  | FI32 v => write_int32 v | FI64 v => write_int64 v
  | FFloat v => write_float v
  | FGuid g => write_guid g
  | FPackedGuid g => write_packed_guid g
  | FBytes bs => write_bytes bs
  | FString s => write_string s
  | FCString s => write_cstring s
  | FBit b => write_bit b
  | FBits v n => write_bits v n
  end.

(** Read a field of the given shape. *)
Definition read_field (f : field) : reader field :=
  match f with
  | FU8 _ => bind! v := read_uint8 in rret (FU8 v)
  | FU16 _ => bind! v := read_uint16 in rret (FU16 v)
  | FU32 _ => bind! v := read_uint32 in rret (FU32 v)
  | FU64 _ => bind! v := read_uint64 in rret (FU64 v)
  | FI8 _ => bind! v := read_int8 in rret (FI8 v)
  | FI16 _ => bind! v := read_int16 in rret (FI16 v)
  | FI32 _ => bind! v := read_int32 in rret (FI32 v)
  | FI64 _ => bind! v := read_int64 in rret (FI64 v)
  | FFloat _ => bind! v := read_float in rret (FFloat v)
  | FGuid _ => bind! g := read_guid in rret (FGuid g)
  | FPackedGuid _ => bind! g := read_packed_guid in rret (FPackedGuid g)
  | FBytes bs => bind! v := read_bytes (length bs) in rret (FBytes v)
  | FString s => bind! v := read_string (length s) in rret (FString v)
  | FCString _ => bind! s := read_cstring in rret (FCString s)
  | FBit _ => bind! b := read_bit in rret (FBit b)
  | FBits _ n => bind! v := read_bits n in rret (FBits v n)
  end.

Fixpoint write_fields (fs : list field) (p : WorldPacket) : WorldPacket :=
  match fs with
  | [] => p
  | f :: fs' => write_fields fs' (write_field f p)
  end.

Fixpoint read_fields (fs : list field) : reader (list field) :=
  match fs with
  | [] => rret []
  | f :: fs' => bind! v := read_field f in bind! vs := read_fields fs' in rret (v :: vs)
  end.

(** The values a Rust field of that type can hold. *)
Definition field_ok (f : field) : Prop :=
  match f with
  | FU8 v => in_u 8 v | FU16 v => in_u 16 v | FU32 v => in_u 32 v | FU64 v => in_u 64 v
  | FI8 v => in_s 8 v | FI16 v => in_s 16 v | FI32 v => in_s 32 v | FI64 v => in_s 64 v
  | FFloat v => in_u 32 v
  | FGuid g | FPackedGuid g => guid_wf g
  | FBytes bs => Forall (in_u 8) bs
  | FString s => utf8_valid s = true
  | FCString s => utf8_valid s = true /\ Forall (fun b => b <> 0) s
  | FBit _ => True
  | FBits v n => (n <= 32)%nat /\ in_u (Z.of_nat n) v
  end.

Example roundtrip_example :
  let fs := [FBits 5 3; FBit true; FU16 513; FCString [72; 105]; FI8 (-2);
             FPackedGuid (create_player 1 4660)] in
  snd (read_fields fs (flush_bits (write_fields fs new_empty))) = Ok fs.
Proof. reflexivity. Qed.

(** * Writer/reader synchronisation

    [D] is the final buffer.  [extends w D]: what [w] has written, pending bits
    included, is a prefix of [D].  [synced w r D]: reader [r] over [D] stands
    exactly where [w] stands. *)
Definition wwf (w : WorldPacket) : Prop :=
  0 <= wbit_pos w < 8 /\ in_u 8 (wbit_buf w) /\
  (forall i, 0 <= i < 8 - wbit_pos w -> Z.testbit (wbit_buf w) i = false).

Definition aligned (w : WorldPacket) : Prop := wbit_pos w = 0 /\ wbit_buf w = 0.

Definition extends (w : WorldPacket) (D : list Z) : Prop :=
  exists t, D = data w ++ t /\
    (wbit_pos w = 0 \/
     exists b t', t = b :: t' /\
       forall i, 8 - wbit_pos w <= i < 8 -> Z.testbit b i = Z.testbit (wbit_buf w) i).

Definition synced (w r : WorldPacket) (D : list Z) : Prop :=
  data r = D /\
  ((wbit_pos w = 0 /\ bit_pos r = 0 /\ read_pos r = length (data w)) \/
   (0 < wbit_pos w /\ bit_pos r = 8 - wbit_pos w /\
    read_pos r = S (length (data w)) /\ bit_buf r = nth (length (data w)) D 0)).

(** Writer [wr] and reader [rd] agree on value [a], between a writer state
    satisfying [P] and one satisfying [Q]. *)
Record roundtrips {A} (P : WorldPacket -> Prop) (wr : WorldPacket -> WorldPacket)
    (rd : reader A) (a : A) (Q : WorldPacket -> Prop) : Prop :=
  { rt_post : forall w, P w -> Q (wr w);
    rt_extends : forall w D, P w -> extends (wr w) D -> extends w D;
    rt_read : forall w r D, P w -> extends (wr w) D -> synced w r D ->
      exists r', rd r = (r', Ok a) /\ synced (wr w) r' D }.

Lemma aligned_wwf w : aligned w -> wwf w.
Proof.
  intros [Hp Hb]. unfold wwf. rewrite Hp, Hb. split; [lia|]. split; [unfold in_u; lia|].
  intros. apply Z.testbit_0_l.
Qed.

Lemma rt_weaken {A} (P P' Q Q' : WorldPacket -> Prop) wr rd (a : A) :
  (forall w, P' w -> P w) -> (forall w, Q w -> Q' w) ->
  roundtrips P wr rd a Q -> roundtrips P' wr rd a Q'.
Proof. intros HP HQ [H1 H2 H3]. split; eauto. Qed.

Lemma rt_ret {A} P (a : A) : roundtrips P id (rret a) a P.
Proof. split; unfold id; eauto. Qed.

Lemma rt_seq {A B} (P Q R : WorldPacket -> Prop) wr1 wr2 rd (k : A -> reader B) a b :
  roundtrips P wr1 rd a Q -> roundtrips Q wr2 (k a) b R ->
  roundtrips P (fun w => wr2 (wr1 w)) (rseq rd k) b R.
Proof.
  intros [P1 E1 R1] [P2 E2 R2]. split.
  - eauto.
  - intros w D Hw HD. apply E1; [done|]. eauto.
  - intros w r D Hw HD Hs.
    destruct (R1 w r D) as (r1 & Hr1 & Hs1); [done|eauto|done|].
    destruct (R2 (wr1 w) r1 D) as (r2 & Hr2 & Hs2); [eauto|done|done|].
    exists r2. split; [|done]. unfold rseq. by rewrite Hr1.
Qed.

Lemma rt_map {A B} (P Q : WorldPacket -> Prop) wr rd (f : A -> B) a :
  roundtrips P wr rd a Q -> roundtrips P wr (rseq rd (fun x => rret (f x))) (f a) Q.
Proof. intros H. apply (rt_seq P Q Q wr id rd _ a (f a) H). apply rt_ret. Qed.

Lemma rt_ext {A} P Q wr wr' rd rd' (a a' : A) :
  roundtrips P wr rd a Q -> (forall w, P w -> wr w = wr' w) ->
  (forall r, rd r = rd' r) -> a = a' -> roundtrips P wr' rd' a' Q.
Proof.
  intros [H1 H2 H3] Hw Hr <-. split.
  - intros w HP. rewrite <- Hw by done. auto.
  - intros w D HP. rewrite <- Hw by done. auto.
  - intros w r D HP. rewrite <- Hw, <- Hr by done. auto.
Qed.

(** ** Whole bytes *)
Lemma flush_aligned w : wwf w -> aligned (flush_bits w).
Proof.
  intros (Hp & Hb & Hz). unfold flush_bits. destruct (Z.ltb_spec 0 (wbit_pos w)); [done|].
  assert (E : wbit_pos w = 0) by lia. split; [done|].
  apply Z.bits_inj'. intros i Hi. rewrite Z.testbit_0_l.
  destruct (Z.lt_ge_cases i 8); [apply Hz; lia|by eapply testbit_bounded].
Qed.

Lemma flush_id w : wbit_pos w = 0 -> flush_bits w = w.
Proof. intros E. unfold flush_bits. by rewrite E. Qed.

Lemma extends_aligned w D : wbit_pos w = 0 -> extends w D <-> exists t, D = data w ++ t.
Proof.
  intros E. split; [intros (t & -> & _); eauto|intros [t ->]; exists t; auto].
Qed.

Lemma extends_flush w D : wwf w -> extends (flush_bits w) D -> extends w D.
Proof.
  intros Hw (t & HD & _). unfold flush_bits in HD.
  destruct (Z.ltb_spec 0 (wbit_pos w)); [|exists t; split; [done|left; destruct Hw; lia]].
  exists (wbit_buf w :: t). rewrite HD. cbn. rewrite <- app_assoc. split; [done|].
  right. eauto.
Qed.

Lemma synced_flush w r D :
  wwf w -> synced w r D -> synced (flush_bits w) (reset_bit_reader r) D.
Proof.
  intros Hw [Hd Hs]. split; [done|]. left. cbn.
  destruct (flush_aligned w Hw) as [-> _]. split; [done|]. split; [done|].
  unfold flush_bits. destruct (Z.ltb_spec 0 (wbit_pos w)).
  - destruct Hs as [(? & _)|(_ & _ & -> & _)]; [lia|]. cbn. rewrite length_app. simpl. lia.
  - destruct Hs as [(_ & _ & ->)|(? & _)]; [done|lia].
Qed.

(** After a flush the reader sees exactly the bytes written next. *)
Lemma synced_rest w r D t :
  aligned w -> synced w r D -> D = data w ++ t -> drop (read_pos r) (data r) = t.
Proof.
  intros [Hp _] [Hd [(_ & _ & Hr)|(? & _)]] HD; [|lia].
  by rewrite Hd, Hr, HD, drop_app_length.
Qed.

Lemma rt_bytes bs : roundtrips wwf (write_bytes bs) (read_bytes (length bs)) bs aligned.
Proof.
  split.
  - intros w Hw. by destruct (flush_aligned w Hw).
  - intros w D Hw (t & -> & _). apply extends_flush; [done|].
    apply extends_aligned; [by apply flush_aligned|].
    cbn. rewrite <- app_assoc. eauto.
  - intros w r D Hw (t & HD & _) Hs. apply synced_flush in Hs; [|done].
    pose proof (flush_aligned w Hw) as Ha. cbn in HD. rewrite <- app_assoc in HD.
    pose proof (synced_rest _ _ _ _ Ha Hs HD) as Hrest.
    unfold read_bytes, rseq, modify, ensure_readable, gets, rret, slice.
    replace (remaining (reset_bit_reader r)) with (length (bs ++ t))
      by (unfold remaining; rewrite <- Hrest, length_drop; done).
    rewrite length_app. destruct (Nat.ltb_spec (length bs + length t) (length bs)); [lia|].
    eexists. split; [rewrite Hrest; by rewrite take_app_length|].
    destruct Hs as [Hd Hs]. split; [done|]. left. destruct Ha as [Ha _].
    destruct Hs as [(_ & _ & Hr)|(? & _)]; [|lia].
    split; [done|]. split; [done|]. cbn in Hr |- *. rewrite Hr, length_app. done.
Qed.

Lemma rt_le n v :
  roundtrips wwf (write_bytes (le_bytes n v)) (read_le n) (v mod 2 ^ (8 * Z.of_nat n)) aligned.
Proof.
  rewrite <- le_value_le_bytes. unfold read_le. rewrite <- (le_bytes_length n v) at 2.
  apply rt_map, rt_bytes.
Qed.

Lemma rt_le_u n v :
  in_u (8 * Z.of_nat n) v -> roundtrips wwf (write_bytes (le_bytes n v)) (read_le n) v aligned.
Proof. intros H. rewrite <- (Z.mod_small v _ H) at 2. apply rt_le. Qed.

Lemma rt_le_s n v :
  (0 < n)%nat -> in_s (8 * Z.of_nat n) v ->
  roundtrips wwf (write_bytes (le_bytes n (wrap_u (8 * Z.of_nat n) v)))
    (rseq (read_le n) (fun x => rret (wrap_s (8 * Z.of_nat n) x))) v aligned.
Proof.
  intros Hn H. set (u := wrap_u (8 * Z.of_nat n) v).
  replace v with (wrap_s (8 * Z.of_nat n) u)
    by (unfold u; rewrite wrap_s_wrap_u by lia; apply wrap_s_id; [lia|done]).
  apply (rt_map _ _ _ _ (fun x => wrap_s (8 * Z.of_nat n) x)). apply rt_le_u.
  apply wrap_u_range. lia.
Qed.

(** ** Single bits *)

(** The state before the full-byte flush of [write_bit]. *)
Definition place_bit (v : bool) (w : WorldPacket) : Z :=
  if v then Z.lor (wbit_buf w) (Z.shiftl 1 (7 - wbit_pos w)) else wbit_buf w.

Lemma write_bit_eq v w :
  write_bit v w =
    if wbit_pos w =? 7
    then mkPacket (data w ++ [place_bit v w]) (read_pos w) (bit_buf w) (bit_pos w) 0 0
    else mkPacket (data w) (read_pos w) (bit_buf w) (bit_pos w) (place_bit v w) (wbit_pos w + 1).
Proof.
  assert (8 - (wbit_pos w + 1) = 7 - wbit_pos w) as E by lia.
  unfold write_bit, place_bit.
  destruct v; cbn; rewrite ?E;
    destruct (Z.eqb_spec (wbit_pos w) 7), (Z.eqb_spec (wbit_pos w + 1) 8); first [lia|done].
Qed.

Lemma testbit_place_bit v w i :
  wwf w -> 0 <= i ->
  Z.testbit (place_bit v w) i =
    if i =? 7 - wbit_pos w then v else Z.testbit (wbit_buf w) i.
Proof.
  intros (Hp & _ & Hz) Hi. unfold place_bit. destruct v.
  - rewrite Z.lor_spec, testbit_bit by lia.
    destruct (i =? 7 - wbit_pos w); [apply orb_true_r|apply orb_false_r].
  - destruct (Z.eqb_spec i (7 - wbit_pos w)); [|done]. apply Hz. lia.
Qed.

Lemma wwf_write_bit v w : wwf w -> wwf (write_bit v w).
Proof.
  intros Hw. pose proof Hw as (Hp & Hb & Hz). rewrite write_bit_eq.
  destruct (Z.eqb_spec (wbit_pos w) 7); [by apply aligned_wwf|].
  unfold wwf; cbn. split; [lia|]. split.
  - unfold place_bit. destruct v; [|done].
    apply in_u_lor; [lia|done|]. apply in_u_bit. lia.
  - intros i Hi. rewrite testbit_place_bit by (done || lia).
    destruct (Z.eqb_spec i (7 - wbit_pos w)); [lia|]. apply Hz. lia.
Qed.

(** The byte of [D] that holds the next bit, and the bits fixed so far. *)
Lemma extends_write_bit v w D :
  wwf w -> extends (write_bit v w) D ->
  exists b t, D = data w ++ b :: t /\ Z.testbit b (7 - wbit_pos w) = v /\
    forall i, 8 - wbit_pos w <= i < 8 -> Z.testbit b i = Z.testbit (wbit_buf w) i.
Proof.
  intros Hw (t & HD & Ht). pose proof Hw as (Hp & _). rewrite write_bit_eq in HD, Ht.
  destruct (Z.eqb_spec (wbit_pos w) 7) as [E|E]; cbn in HD, Ht.
  - exists (place_bit v w), t. rewrite HD, <- app_assoc. split; [done|]. split.
    + rewrite testbit_place_bit by (done || lia). by rewrite Z.eqb_refl.
    + intros i Hi. rewrite testbit_place_bit by (done || lia).
      destruct (Z.eqb_spec i (7 - wbit_pos w)); [lia|done].
  - destruct Ht as [?|(b & t' & -> & Hb)]; [lia|]. exists b, t'. split; [done|]. split.
    + rewrite Hb, testbit_place_bit by (done || lia). by rewrite Z.eqb_refl.
    + intros i Hi. rewrite Hb, testbit_place_bit by (done || lia).
      destruct (Z.eqb_spec i (7 - wbit_pos w)); [lia|done].
Qed.

Lemma land_1_testbit x k : 0 <= k -> (Z.land (Z.shiftr x k) 1 =? 1) = Z.testbit x k.
Proof.
  intros. replace (Z.land (Z.shiftr x k) 1) with (Z.b2z (Z.testbit x k)); [by destruct Z.testbit|].
  change (Z.land (Z.shiftr x k) 1) with (Z.land (Z.shiftr x k) (Z.ones 1)).
  rewrite mask_mod by lia. change (2 ^ 1) with 2.
  by rewrite <- Z.bit0_mod, Z.shiftr_spec.
Qed.

(** [read_bit] on a reader that already holds a byte. *)
Lemma read_bit_loaded r :
  0 < bit_pos r ->
  read_bit r = (r <| bit_pos := bit_pos r - 1 |>, Ok (Z.testbit (bit_buf r) (bit_pos r - 1))).
Proof.
  intros. unfold read_bit, rseq, load_bit_byte.
  destruct (Z.eqb_spec (bit_pos r) 0); [lia|]. cbn.
  unfold gets; cbn. by rewrite land_1_testbit by lia.
Qed.

(** [read_bit] on a reader at a byte boundary. *)
Lemma read_bit_fresh r b t :
  bit_pos r = 0 -> drop (read_pos r) (data r) = b :: t ->
  read_bit r = (mkPacket (data r) (S (read_pos r)) b 7 (wbit_buf r) (wbit_pos r),
                Ok (Z.testbit b 7)).
Proof.
  intros E Hd. unfold read_bit, rseq, load_bit_byte. rewrite E. simpl.
  unfold ensure_readable, rseq, remaining, modify. rewrite <- length_drop, Hd. simpl. cbn.
  assert (nth (read_pos r) (data r) 0 = b) as ->.
  { rewrite nth_lookup. rewrite <- (Nat.add_0_r (read_pos r)), <- lookup_drop, Hd. done. }
  unfold gets; cbn. by rewrite land_1_testbit by lia.
Qed.

Lemma rt_bit v : roundtrips wwf (write_bit v) read_bit v wwf.
Proof.
  split; [apply wwf_write_bit| |].
  - intros w D Hw HD. destruct (extends_write_bit v w D Hw HD) as (b & t & -> & _ & Hb).
    exists (b :: t). split; [done|]. right. eauto.
  - intros w r D Hw HD [Hd Hs]. pose proof Hw as (Hp & _).
    destruct (extends_write_bit v w D Hw HD) as (b & t & HD' & Hv & _).
    assert (nth (length (data w)) D 0 = b) as Hn
      by (rewrite HD'; apply nth_middle).
    assert (exists r', read_bit r = (r', Ok v) /\ data r' = D /\
      read_pos r' = S (length (data w)) /\ bit_buf r' = b /\ bit_pos r' = 7 - wbit_pos w)
      as (r' & Hread & Hd' & Hr' & Hb' & Hp').
    { destruct Hs as [(E & Hbp & Hr)|(Hpos & Hbp & Hr & Hbb)].
      - rewrite (read_bit_fresh r b t) by (rewrite ?Hr, ?Hd, ?HD'; by rewrite ?drop_app_length).
        replace (7 - wbit_pos w) with 7 in * by lia. rewrite Hv.
        eexists. split; [done|]. cbn. rewrite Hr. auto.
      - rewrite read_bit_loaded by lia. rewrite Hbb, Hbp, Hn.
        replace (8 - wbit_pos w - 1) with (7 - wbit_pos w) by lia. rewrite Hv.
        eexists. split; [done|]. cbn. rewrite Hbb, Hn. auto. }
    exists r'. split; [done|]. split; [done|]. rewrite write_bit_eq.
    destruct (Z.eqb_spec (wbit_pos w) 7) as [E|E]; cbn.
    + left. rewrite length_app. cbn. rewrite Hp'. split; [done|]. split; lia.
    + right. split; [lia|]. rewrite Hp', Hn. split; [lia|]. done.
Qed.

(** ** Bit groups *)
Lemma write_bits_S v i w :
  (i < 32)%nat ->
  write_bits v (S i) w = write_bits v i (write_bit (Z.testbit v (Z.of_nat i)) w).
Proof.
  intros. cbn [write_bits]. rewrite Z.mod_small by lia. by rewrite land_1_testbit by lia.
Qed.

(** The value accumulated after the bits above [n] have been read. *)
Lemma shiftr_step v n :
  Z.lor (Z.shiftl (Z.shiftr v (Z.of_nat (S n))) 1) (Z.b2z (Z.testbit v (Z.of_nat n)))
  = Z.shiftr v (Z.of_nat n).
Proof.
  apply Z.bits_inj'. intros i Hi.
  rewrite Z.lor_spec, Z.shiftl_spec, (Z.shiftr_spec _ _ i) by lia.
  destruct (Z.eq_dec i 0) as [->|].
  - rewrite Z.testbit_neg_r, Z.b2z_bit0 by lia. f_equal.
  - rewrite Z.shiftr_spec by lia.
    replace (Z.testbit (Z.b2z (Z.testbit v (Z.of_nat n))) i) with false.
    + rewrite orb_false_r. f_equal. lia.
    + symmetry. apply (testbit_bounded 1); [|lia].
      unfold in_u. destruct (Z.testbit v (Z.of_nat n)); simpl; lia.
Qed.

Lemma in_u_shiftr w v k : 0 <= w -> 0 <= k -> in_u w v -> in_u w (Z.shiftr v k).
Proof.
  intros ? ? Hv. apply in_u_bits; [done|]. intros i Hi.
  rewrite Z.shiftr_spec by lia. apply (testbit_bounded w); [done|lia].
Qed.

Lemma rt_bits_loop v n :
  (n <= 32)%nat -> in_u 32 v ->
  roundtrips wwf (write_bits v n) (read_bits_loop n (Z.shiftr v (Z.of_nat n))) v wwf.
Proof.
  intros Hn Hv. induction n as [|n IH].
  - cbn. rewrite Z.shiftr_0_r. apply (rt_ext wwf wwf id _ (rret v) _ v); auto using rt_ret.
  - eapply (rt_ext _ _ (fun w => write_bits v n (write_bit (Z.testbit v (Z.of_nat n)) w)));
      [|intros; symmetry; apply write_bits_S; lia|reflexivity|reflexivity].
    cbn [read_bits_loop]. eapply rt_seq; [apply rt_bit|].
    rewrite wrap_u_id.
    + rewrite shiftr_step. apply IH. lia.
    + apply in_u_bits; [lia|]. intros i Hi.
      rewrite Z.shiftl_spec, Z.shiftr_spec by lia. apply (testbit_bounded 32); [done|lia].
Qed.

Lemma rt_bits v n :
  (n <= 32)%nat -> in_u (Z.of_nat n) v ->
  roundtrips wwf (write_bits v n) (read_bits n) v wwf.
Proof.
  intros Hn Hv. unfold read_bits.
  replace 0 with (Z.shiftr v (Z.of_nat n)) at 1.
  - apply rt_bits_loop; [done|]. unfold in_u in *.
    assert (2 ^ Z.of_nat n <= 2 ^ 32) by (apply Z.pow_le_mono_r; lia). lia.
  - rewrite Z.shiftr_div_pow2 by lia. by apply Z.div_small.
Qed.

(** ** Packed GUIDs *)
Lemma write_bytes_app a b w :
  wwf w -> write_bytes (a ++ b) w = write_bytes b (write_bytes a w).
Proof.
  intros Hw. destruct (flush_aligned w Hw) as [Hp _]. unfold write_bytes.
  rewrite (flush_id (put a (flush_bits w))) by done.
  unfold put. cbn. by rewrite app_assoc.
Qed.

Lemma put_aligned bs w : aligned w -> put bs w = write_bytes bs w.
Proof. intros [Hp _]. unfold write_bytes. by rewrite flush_id. Qed.

Lemma rt_read_nothing P : (forall w, P w -> aligned w) ->
  roundtrips P (write_bytes []) (rret 0) 0 P.
Proof.
  intros HP. apply (rt_ext P P id _ (rret 0) _ 0); auto using rt_ret.
  intros w Hw. unfold id. rewrite <- put_aligned by auto. unfold put.
  destruct w. cbn. by rewrite app_nil_r.
Qed.

Lemma testbit_byte_mask bs i j :
  0 <= i -> 0 <= j ->
  Z.testbit (byte_mask bs i) j =
    (i <=? j) && (j <? i + Z.of_nat (length bs)) && negb (nth (Z.to_nat (j - i)) bs 0 =? 0).
Proof.
  revert i. induction bs as [|b bs IH]; intros i Hi Hj; cbn [byte_mask length].
  - rewrite Z.testbit_0_l. destruct (Z.leb_spec i j), (Z.ltb_spec j (i + Z.of_nat 0)); done || lia.
  - rewrite Z.lor_spec, IH by lia.
    assert (Z.testbit (if b =? 0 then 0 else Z.shiftl 1 i) j = (j =? i) && negb (b =? 0)) as ->.
    { destruct (b =? 0); [by rewrite Z.testbit_0_l, andb_false_r|].
      rewrite testbit_bit by done. by rewrite andb_true_r. }
    destruct (Z.eqb_spec j i) as [->|].
    + rewrite Z.leb_refl, (proj2 (Z.leb_gt (i + 1) i)) by lia.
      rewrite (proj2 (Z.ltb_lt i (i + Z.of_nat (S (length bs))))) by lia. rewrite Z.sub_diag.
      change (Z.to_nat 0) with 0%nat. cbn. by rewrite orb_false_r.
    + cbn. destruct (Z.leb_spec i j), (Z.leb_spec (i + 1) j); try lia.
      replace (Z.to_nat (j - i)) with (S (Z.to_nat (j - (i + 1)))) by lia. cbn.
      replace (i + 1 + Z.of_nat (length bs)) with (i + Z.of_nat (S (length bs))) by lia.
      done.
Qed.

Lemma land_bit x i : 0 <= i -> negb (Z.land x (Z.shiftl 1 i) =? 0) = Z.testbit x i.
Proof.
  intros Hi. destruct (Z.testbit x i) eqn:E.
  - apply negb_true_iff, Z.eqb_neq. intros Hz.
    assert (Z.testbit (Z.land x (Z.shiftl 1 i)) i = false) by (by rewrite Hz, Z.testbit_0_l).
    rewrite Z.land_spec, testbit_bit, E, Z.eqb_refl in H by done. done.
  - apply negb_false_iff, Z.eqb_eq. apply Z.bits_inj'. intros j Hj.
    rewrite Z.land_spec, testbit_bit, Z.testbit_0_l by done.
    destruct (Z.eqb_spec j i) as [->|]; [by rewrite E|apply andb_false_r].
Qed.

Lemma rt_uint8 b : in_u 8 b -> roundtrips wwf (write_bytes [b]) read_uint8 b aligned.
Proof.
  intros Hb. replace [b] with (le_bytes 1 b).
  - by apply (rt_le_u 1).
  - cbn [le_bytes]. by rewrite wrap_u_id.
Qed.

Lemma rt_masked bs mask i :
  0 <= i -> Forall (in_u 8) bs ->
  (forall j, (j < length bs)%nat ->
     Z.testbit mask (i + Z.of_nat j) = negb (nth j bs 0 =? 0)) ->
  roundtrips aligned (write_bytes (nonzero_bytes bs)) (read_masked (length bs) mask i) bs aligned.
Proof.
  intros Hi Hbs. revert i Hi. induction Hbs as [|b bs Hb _ IH]; intros i Hi Hm.
  - cbn. apply (rt_ext aligned aligned id _ (rret []) _ []); auto using rt_ret.
    intros w Hw. unfold id. rewrite <- put_aligned by done. unfold put.
    destruct w. cbn. by rewrite app_nil_r.
  - cbn [length read_masked]. rewrite land_bit by done.
    pose proof (Hm 0%nat) as H0. rewrite Z.add_0_r in H0. cbn in H0. rewrite H0 by lia.
    assert (roundtrips aligned (write_bytes (nonzero_bytes bs))
      (rseq (read_masked (length bs) mask (i + 1)) (fun l => rret (b :: l))) (b :: bs) aligned)
      as Hrest.
    { apply (rt_map _ _ _ _ (fun l => b :: l)). apply IH; [lia|]. intros j Hj.
      replace (i + 1 + Z.of_nat j) with (i + Z.of_nat (S j)) by lia. apply (Hm (S j)). cbn. lia. }
    unfold nonzero_bytes. rewrite filter_cons. destruct (Z.eqb_spec b 0) as [E|E]; cbn.
    + rewrite decide_False by (intros n; by apply n). rewrite E in Hrest |- *.
      eapply rt_ext; [exact Hrest|done|done|done].
    + rewrite decide_True by done.
      eapply (rt_ext _ _ (fun w => write_bytes (nonzero_bytes bs) (write_bytes [b] w)));
        [|intros w Hw; rewrite <- write_bytes_app by (by apply aligned_wwf); done|done|done].
      eapply rt_seq; [|exact Hrest].
      apply (rt_weaken wwf aligned aligned aligned); auto using aligned_wwf, rt_uint8.
Qed.

Lemma le_bytes_u8 n z : Forall (in_u 8) (le_bytes n z).
Proof.
  revert z. induction n; intros z; cbn [le_bytes]; constructor; auto. by apply wrap_u_range.
Qed.

Lemma byte_mask_u8 z : in_u 8 (byte_mask (le_bytes 8 z) 0).
Proof.
  apply in_u_bits; [lia|]. intros i Hi. rewrite testbit_byte_mask, le_bytes_length by lia.
  destruct (Z.ltb_spec i (0 + Z.of_nat 8)); [lia|]. by rewrite andb_false_r.
Qed.

Lemma rt_masked_word z :
  roundtrips aligned (write_bytes (nonzero_bytes (le_bytes 8 z)))
    (read_masked 8 (byte_mask (le_bytes 8 z) 0) 0) (le_bytes 8 z) aligned.
Proof.
  apply (rt_masked (le_bytes 8 z) (byte_mask (le_bytes 8 z) 0) 0); [lia|apply le_bytes_u8|].
  intros j Hj. rewrite testbit_byte_mask by lia. rewrite le_bytes_length in *.
  decide_tests. rewrite !andb_true_l, Z.sub_0_r, Z.add_0_l, Nat2Z.id. done.
Qed.

Lemma write_packed_guid_eq g w :
  wwf w ->
  let lo := le_bytes 8 (u64 (low g)) in
  let hi := le_bytes 8 (u64 (high g)) in
  write_packed_guid g w =
  write_bytes (nonzero_bytes hi) (write_bytes (nonzero_bytes lo)
    (write_bytes [byte_mask hi 0] (write_bytes [byte_mask lo 0] w))).
Proof.
  intros Hw lo hi. unfold write_packed_guid, write_packed_guid_unflushed. fold lo hi.
  pose proof (flush_aligned w Hw) as Ha.
  rewrite (put_aligned [byte_mask lo 0]) by done.
  assert (write_bytes [byte_mask lo 0] (flush_bits w) = write_bytes [byte_mask lo 0] w) as ->.
  { unfold write_bytes. by rewrite (flush_id (flush_bits w)) by apply Ha. }
  assert (forall bs v, wwf v -> aligned (write_bytes bs v)) as Hal by (intros; by apply rt_bytes).
  rewrite !put_aligned by auto 10 using aligned_wwf. done.
Qed.

Lemma le_word_roundtrip z : in_s 64 z -> i64 (le_value (le_bytes 8 (u64 z))) = z.
Proof.
  intros Hz. rewrite le_value_le_bytes. change (2 ^ (8 * Z.of_nat 8)) with (2 ^ 64).
  change (u64 z mod 2 ^ 64) with (u64 (u64 z)).
  rewrite (wrap_u_id 64 (u64 z)) by (by apply wrap_u_range).
  rewrite wrap_s_wrap_u by lia. by apply wrap_s_id.
Qed.

(** [read_packed_guid] without its leading reset, which [read_uint8] repeats. *)
Definition read_packed_words : reader ObjectGuid :=
  bind! lm := read_uint8 in bind! hm := read_uint8 in
  bind! lb := read_masked 8 lm 0 in bind! hb := read_masked 8 hm 0 in
  rret (mkGuid (i64 (le_value hb)) (i64 (le_value lb))).

Lemma rt_packed_guid g :
  guid_wf g -> roundtrips wwf (write_packed_guid g) read_packed_guid g aligned.
Proof.
  intros [Hh Hl].
  set (lo := le_bytes 8 (u64 (low g))). set (hi := le_bytes 8 (u64 (high g))).
  apply (rt_ext wwf aligned
    (fun w => write_bytes (nonzero_bytes hi) (write_bytes (nonzero_bytes lo)
       (write_bytes [byte_mask hi 0] (write_bytes [byte_mask lo 0] w)))) _
    read_packed_words _ (mkGuid (i64 (le_value hi)) (i64 (le_value lo)))).
  - assert (roundtrips aligned (write_bytes [byte_mask hi 0]) read_uint8 (byte_mask hi 0) aligned)
      by (apply (rt_weaken wwf aligned aligned aligned); [apply aligned_wwf|done|];
          apply rt_uint8, byte_mask_u8).
    apply (rt_seq wwf aligned aligned (write_bytes [byte_mask lo 0])
      (fun w => write_bytes (nonzero_bytes hi) (write_bytes (nonzero_bytes lo)
         (write_bytes [byte_mask hi 0] w))) _ _ (byte_mask lo 0)); [apply rt_uint8, byte_mask_u8|].
    apply (rt_seq aligned aligned aligned (write_bytes [byte_mask hi 0])
      (fun w => write_bytes (nonzero_bytes hi) (write_bytes (nonzero_bytes lo) w))
      _ _ (byte_mask hi 0)); [done|].
    apply (rt_seq aligned aligned aligned (write_bytes (nonzero_bytes lo))
      (write_bytes (nonzero_bytes hi)) _ _ lo); [apply rt_masked_word|].
    apply (rt_map _ _ _ _ (fun hb => mkGuid (i64 (le_value hb)) (i64 (le_value lo)))).
    apply rt_masked_word.
  - intros w Hw. symmetry. by apply write_packed_guid_eq.
  - reflexivity.
  - unfold lo, hi. rewrite !le_word_roundtrip by done. by destruct g.
Qed.

(** ** C strings *)
Lemma until_nul_app s t :
  Forall (fun b => b <> 0) s -> until_nul (s ++ 0 :: t) = (s, true).
Proof.
  induction 1 as [|b s Hb _ IH]; cbn; [done|].
  destruct (Z.eqb_spec b 0); [done|]. by rewrite IH.
Qed.

Lemma rt_cstring s :
  utf8_valid s = true -> Forall (fun b => b <> 0) s ->
  roundtrips wwf (write_cstring s) read_cstring s aligned.
Proof.
  intros Hu Hs.
  assert (forall w, wwf w -> write_bytes (s ++ [0]) w = write_cstring s w) as E
    by (intros; unfold write_cstring, write_uint8; by rewrite write_bytes_app).
  destruct (rt_bytes (s ++ [0])) as [H1 H2 _]. split.
  - intros w Hw. rewrite <- E by done. auto.
  - intros w D Hw. rewrite <- E by done. auto.
  - intros w r D Hw HD Hsy. rewrite <- E in HD |- * by done.
    apply synced_flush in Hsy; [|done]. pose proof (flush_aligned w Hw) as Ha.
    destruct HD as (t & HD & _). cbn in HD. rewrite <- !app_assoc in HD. cbn in HD.
    pose proof (synced_rest _ _ _ _ Ha Hsy HD) as Hrest.
    unfold read_cstring, rseq, modify, gets, from_utf8, rret.
    rewrite Hrest, until_nul_app, Hu by done.
    eexists. split; [done|]. destruct Hsy as [Hd Hsy]. split; [done|]. left.
    destruct Ha as [Ha _]. destruct Hsy as [(_ & _ & Hr)|(? & _)]; [|lia].
    split; [done|]. split; [done|]. cbn in Hr |- *. rewrite Hr, !length_app. cbn. lia.
Qed.

(** ** Fields *)
Lemma rt_guid g : guid_wf g -> roundtrips wwf (write_guid g) read_guid g aligned.
Proof.
  intros [Hh Hl]. unfold write_guid, read_guid.
  destruct g as [hi lo]; cbn [high low] in *.
  apply (rt_seq wwf aligned aligned (write_int64 lo) (write_int64 hi) _ _ lo);
    [by apply (rt_le_s 8); [lia|]|].
  apply (rt_map _ _ _ _ (fun h => mkGuid h lo)).
  apply (rt_weaken wwf aligned aligned aligned); [apply aligned_wwf|done|].
  by apply (rt_le_s 8); [lia|].
Qed.

Lemma rt_string s :
  utf8_valid s = true -> roundtrips wwf (write_string s) (read_string (length s)) s aligned.
Proof.
  intros Hu. unfold write_string, read_string.
  apply (rt_seq wwf aligned aligned (write_bytes s) id (read_bytes (length s)) from_utf8 s s);
    [apply rt_bytes|].
  apply (rt_ext aligned aligned id _ (rret s) _ s); auto using rt_ret.
  intros r. unfold rret, from_utf8. by rewrite Hu.
Qed.

Lemma rt_field f : field_ok f -> roundtrips wwf (write_field f) (read_field f) f wwf.
Proof.
  assert (forall A (wr : WorldPacket -> WorldPacket) (rd : reader A) a (c : A -> field),
    roundtrips wwf wr rd a aligned ->
    roundtrips wwf wr (rseq rd (fun x => rret (c x))) (c a) wwf) as Hc.
  { intros A wr rd a c H. apply rt_map.
    apply (rt_weaken wwf wwf aligned wwf); auto using aligned_wwf. }
  destruct f; cbn [field_ok write_field read_field]; intros H.
  1-4: apply (Hc Z); first [by apply (rt_le_u 1)|by apply (rt_le_u 2)
                           |by apply (rt_le_u 4)|by apply (rt_le_u 8)].
  1-4: apply (Hc Z); first [by apply (rt_le_s 1); [lia|]|by apply (rt_le_s 2); [lia|]
                           |by apply (rt_le_s 4); [lia|]|by apply (rt_le_s 8); [lia|]].
  - apply (Hc Z). by apply (rt_le_u 4).
  - apply (Hc ObjectGuid). by apply rt_guid.
  - apply (Hc ObjectGuid). by apply rt_packed_guid.
  - apply (Hc (list Z)). apply rt_bytes.
  - apply (Hc (list Z)). by apply rt_string.
  - destruct H. apply (Hc (list Z)). by apply rt_cstring.
  - apply rt_map, rt_bit.
  - destruct H. apply (rt_map _ _ _ _ (fun x => FBits x n)). by apply rt_bits.
Qed.

Lemma rt_fields fs :
  Forall field_ok fs -> roundtrips wwf (write_fields fs) (read_fields fs) fs wwf.
Proof.
  induction 1 as [|f fs Hf _ IH]; cbn [write_fields read_fields].
  - apply (rt_ext wwf wwf id _ (rret []) _ []); auto using rt_ret.
  - apply (rt_seq wwf wwf wwf (write_field f) (write_fields fs) _ _ f); [by apply rt_field|].
    by apply (rt_map _ _ _ _ (fun vs => f :: vs)).
Qed.

Lemma empty_wwf : wwf new_empty.
Proof. by apply aligned_wwf. Qed.

(** * Properties *)
(** C27: any sequence of integer, float, GUID, packed-GUID, byte, string and bit
    fields written into an empty packet and flushed is read back unchanged,
    from the bytes produced, by the same sequence of reads. *)
Theorem packet_fields_roundtrip fs :
  Forall field_ok fs ->
  exists p', read_fields fs (from_bytes (data (flush_bits (write_fields fs new_empty))))
             = (p', Ok fs).
Proof.
  intros Hfs. destruct (rt_fields fs Hfs) as [Hpost _ Hread].
  set (w := write_fields fs new_empty).
  assert (extends w (data (flush_bits w))) as Hext.
  { apply extends_flush; [by apply Hpost, empty_wwf|].
    apply extends_aligned; [by apply flush_aligned, Hpost, empty_wwf|].
    exists []. by rewrite app_nil_r. }
  destruct (Hread new_empty (from_bytes (data (flush_bits w))) (data (flush_bits w)) empty_wwf Hext)
    as (p' & Hr & _); [|by exists p'].
  split; [done|]. by left.
Qed.

Lemma packet_fields_roundtrip_witness :
  exists p', read_fields [FBits 5 3; FU16 513; FPackedGuid (create_player 1 4660)]
    (from_bytes (data (flush_bits (write_fields
       [FBits 5 3; FU16 513; FPackedGuid (create_player 1 4660)] new_empty))))
    = (p', Ok [FBits 5 3; FU16 513; FPackedGuid (create_player 1 4660)]).
Proof.
  apply packet_fields_roundtrip. repeat constructor; vm_compute; intros; discriminate.
Defined.

(** ** Readers stay inside the buffer *)
Definition in_bounds (p : WorldPacket) : Prop := (read_pos p <= length (data p))%nat.

Definition reader_safe {A} (rd : reader A) : Prop :=
  forall p, in_bounds p ->
    data (fst (rd p)) = data p /\ (read_pos p <= read_pos (fst (rd p)))%nat /\
    in_bounds (fst (rd p)).

Lemma safe_ret {A} (a : A) : reader_safe (rret a).
Proof. intros p Hp. cbn. auto. Qed.

Lemma safe_gets {A} (f : WorldPacket -> A) : reader_safe (gets f).
Proof. intros p Hp. cbn. auto. Qed.

Lemma safe_seq {A B} (rd : reader A) (k : A -> reader B) :
  reader_safe rd -> (forall a, reader_safe (k a)) -> reader_safe (rseq rd k).
Proof.
  intros H1 H2 p Hp. unfold rseq. specialize (H1 p Hp).
  destruct (rd p) as [p1 [a|e]]; cbn in *; [|done].
  destruct H1 as (Hd & Hr & Hb). destruct (H2 a p1 Hb) as (Hd2 & Hr2 & Hb2).
  split; [congruence|]. split; [lia|done].
Qed.

Lemma safe_reset : reader_safe (modify reset_bit_reader).
Proof. intros p Hp. cbn. auto. Qed.

Lemma safe_from_utf8 bs : reader_safe (from_utf8 bs).
Proof. intros p Hp. cbn. auto. Qed.

Lemma safe_ensure n : reader_safe (ensure_readable n).
Proof. intros p Hp. unfold ensure_readable. destruct (_ <? _)%nat; cbn; auto. Qed.

Lemma read_bytes_eq n p :
  read_bytes n p =
    if (remaining p <? n)%nat
    then (reset_bit_reader p, Err (ReadPastEnd n (remaining p)))
    else (reset_bit_reader p <| read_pos := (read_pos p + n)%nat |>, Ok (slice n p)).
Proof.
  unfold read_bytes, rseq, modify, ensure_readable.
  change (remaining (reset_bit_reader p)) with (remaining p).
  by destruct (remaining p <? n)%nat.
Qed.

Lemma safe_bytes n : reader_safe (read_bytes n).
Proof.
  intros p Hp. rewrite read_bytes_eq. unfold remaining, in_bounds in *.
  destruct (Nat.ltb_spec (length (data p) - read_pos p) n); cbn; split_and!; try done; lia.
Qed.

Lemma until_nul_length bs :
  (length (fst (until_nul bs)) + (if snd (until_nul bs) then 1 else 0) <= length bs)%nat.
Proof.
  induction bs as [|b bs IH]; cbn; [lia|].
  destruct (b =? 0); cbn; [lia|]. destruct (until_nul bs) as [s []]; cbn in *; lia.
Qed.

Lemma safe_cstring : reader_safe read_cstring.
Proof.
  intros p Hp. unfold read_cstring, rseq, modify, gets, from_utf8, rret. cbn.
  pose proof (until_nul_length (drop (read_pos p) (data p))) as H.
  rewrite length_drop in H. unfold in_bounds in *.
  destruct (until_nul _) as [s found]; cbn in H.
  cbn [fst snd] in H. destruct (utf8_valid s), found; cbn; split_and!; try done; lia.
Qed.

Lemma safe_bit : reader_safe read_bit.
Proof.
  intros p Hp. unfold read_bit, load_bit_byte, ensure_readable, rseq, modify, gets.
  unfold remaining, in_bounds in *.
  destruct (bit_pos p =? 0), (Nat.ltb_spec (length (data p) - read_pos p) 1); cbn;
    split_and!; try done; lia.
Qed.

Create HintDb packet.
#[export] Hint Resolve safe_ret safe_gets safe_seq safe_reset safe_from_utf8 safe_ensure
  safe_bytes safe_cstring safe_bit : packet.

Lemma safe_le n : reader_safe (read_le n).
Proof. unfold read_le. auto with packet. Qed.
#[export] Hint Resolve safe_le : packet.

Lemma safe_bits n : reader_safe (read_bits n).
Proof.
  unfold read_bits. generalize 0. induction n; intros v; cbn [read_bits_loop]; auto with packet.
Qed.

Lemma safe_masked n mask i : reader_safe (read_masked n mask i).
Proof.
  revert i. induction n as [|n IH]; intros i; cbn [read_masked]; auto with packet.
  apply safe_seq; [destruct (negb _); unfold read_uint8; auto with packet|auto with packet].
Qed.
#[export] Hint Resolve safe_bits safe_masked : packet.

(** C39: whatever bytes a peer sent, no read of any field shape, failed ones
    included, modifies the buffer, moves backwards or leaves it. *)
Theorem reads_stay_in_bounds fs p :
  in_bounds p ->
  data (fst (read_fields fs p)) = data p /\
  (read_pos p <= read_pos (fst (read_fields fs p)) <= length (data p))%nat.
Proof.
  assert (forall f, reader_safe (read_field f)) as Hf.
  { intros []; cbn [read_field];
      unfold read_int8, read_int16, read_int32, read_int64, read_guid, read_packed_guid,
        read_string, read_float, read_uint8, read_uint16, read_uint32, read_uint64, read_int64,
        read_uint64; auto 12 with packet. }
  assert (reader_safe (read_fields fs)) as Hfs
    by (induction fs; cbn [read_fields]; auto with packet).
  intros Hp. destruct (Hfs p Hp) as (Hd & Hr & Hb). unfold in_bounds in Hb.
  rewrite Hd in Hb. auto.
Qed.

Lemma reads_stay_in_bounds_witness :
  data (fst (read_fields [FU16 0; FPackedGuid EMPTY; FCString []] (from_bytes [1; 2; 255; 3])))
  = [1; 2; 255; 3].
Proof. apply reads_stay_in_bounds. unfold in_bounds. cbn. lia. Defined.

(** A byte read either delivers exactly the next bytes and advances past
    them, or, when fewer remain, reports both counts and leaves the position. *)
Theorem read_bytes_total n p :
  (exists p', read_bytes n p = (p', Ok (take n (drop (read_pos p) (data p)))) /\
     read_pos p' = (read_pos p + n)%nat /\ data p' = data p /\ (n <= remaining p)%nat) \/
  (exists p', read_bytes n p = (p', Err (ReadPastEnd n (remaining p))) /\
     read_pos p' = read_pos p /\ data p' = data p /\ (remaining p < n)%nat).
Proof.
  rewrite read_bytes_eq. destruct (Nat.ltb_spec (remaining p) n).
  - right. eexists. split; [done|]. auto.
  - left. eexists. split; [done|]. auto.
Qed.

(** * wow-packet/src/header.rs *)
Definition HEADER_SIZE : nat := 16.
Definition TAG_SIZE : nat := 12.
Record PacketHeader : Type := mkHeader { header_size : Z; tag : list Z }.
Definition header_zeroed : PacketHeader := mkHeader 0 (replicate TAG_SIZE 0).

(** [buf] is the sixteen-byte array of the wire. *)
Definition header_read (buf : list Z) : PacketHeader :=
  mkHeader (i32 (le_value (take 4 buf))) (take 12 (drop 4 buf)).
Definition header_to_bytes (h : PacketHeader) : list Z :=
  le_bytes 4 (u32 (header_size h)) ++ tag h.
Definition is_valid_size (h : PacketHeader) : bool :=
  (0 <? header_size h) && (u64 (header_size h) <=? MAX_PACKET_SIZE).

Definition header_wf (h : PacketHeader) : Prop :=
  in_s 32 (header_size h) /\ length (tag h) = TAG_SIZE /\ Forall (in_u 8) (tag h).

(** A wire header is sixteen bytes and parses back to itself, and a size
    accepted by [is_valid_size] is a payload of 1 to [MAX_PACKET_SIZE] bytes. *)
Theorem header_roundtrip h :
  header_wf h ->
  length (header_to_bytes h) = HEADER_SIZE /\ header_read (header_to_bytes h) = h /\
  (is_valid_size h = true <-> 1 <= header_size h <= MAX_PACKET_SIZE).
Proof.
  intros (Hs & Hl & _). unfold header_to_bytes, header_read, HEADER_SIZE, TAG_SIZE in *.
  split_and!.
  - rewrite length_app, le_bytes_length. lia.
  - rewrite take_app_length', drop_app_length' by (by rewrite le_bytes_length).
    rewrite le_value_le_bytes. change (2 ^ (8 * Z.of_nat 4)) with (2 ^ 32).
    change (u32 (header_size h) mod 2 ^ 32) with (u32 (u32 (header_size h))).
    rewrite (wrap_u_id 32 (u32 _)) by (by apply wrap_u_range).
    rewrite wrap_s_wrap_u, wrap_s_id by (done || lia).
    rewrite take_ge by lia. by destruct h.
  - unfold is_valid_size, MAX_PACKET_SIZE. unfold in_s in Hs. simpl Z.sub in Hs.
    rewrite andb_true_iff, Z.ltb_lt, Z.leb_le.
    split; [intros [? Hle]|intros ?; split; [lia|]];
      rewrite wrap_u_id in * by (unfold in_u; lia); lia.
Qed.

Lemma header_roundtrip_witness :
  header_read (header_to_bytes (mkHeader 1024 (replicate 12 7))) = mkHeader 1024 (replicate 12 7).
Proof.
  apply header_roundtrip. split; [unfold in_s; simpl; lia|].
  split; [reflexivity|]. repeat (constructor; [unfold in_u; lia|]). constructor.
Defined.
