(* ===== verification/GroupModel.v ===== *)
(** wow-social/src/group/model.rs and outcome.rs: group identity, the group
    record, the storage-id allocators, and the outcome and persistence types. *)
From S2P Require Import Prelude Guid.

(** * Constants *)
Definition GROUP_FLAG_RAID_LIKE_CPP : Z := 0x002.
Definition GROUP_FLAG_LFG_LIKE_CPP : Z := 0x008.
Definition GROUP_FLAG_DESTROYED_LIKE_CPP : Z := 0x010.
Definition GROUP_FLAG_EVERYONE_ASSISTANT_LIKE_CPP : Z := 0x040.
Definition GROUP_TYPE_NONE_LIKE_CPP : Z := 0.
Definition GROUP_TYPE_NORMAL_LIKE_CPP : Z := 1.
Definition GROUP_CATEGORY_HOME_LIKE_CPP : Z := 0.
Definition GROUP_CATEGORY_INSTANCE_LIKE_CPP : Z := 1.
Definition MAX_GROUP_CATEGORY_LIKE_CPP : Z := 2.
Definition LFG_STATE_DUNGEON_LIKE_CPP : Z := 5.
Definition LFG_STATE_FINISHED_DUNGEON_LIKE_CPP : Z := 6.
Definition LFG_GROUP_MAX_KICKS_LIKE_CPP : Z := 3.
Definition LFG_GROUP_KICK_VOTES_NEEDED_LIKE_CPP : nat := 3.
Definition MEMBER_FLAG_ASSISTANT_LIKE_CPP : Z := 0x01.
Definition MEMBER_FLAG_MAINTANK_LIKE_CPP : Z := 0x02.
Definition MEMBER_FLAG_MAINASSIST_LIKE_CPP : Z := 0x04.
Definition GROUP_ASSIGN_MAINTANK_LIKE_CPP : Z := 0.
Definition GROUP_ASSIGN_MAINASSIST_LIKE_CPP : Z := 1.
Definition MAX_GROUP_SIZE_LIKE_CPP : nat := 5.
Definition MAX_RAID_SIZE_LIKE_CPP : nat := 40.
Definition MAX_RAID_SUBGROUPS_LIKE_CPP : nat := MAX_RAID_SIZE_LIKE_CPP / MAX_GROUP_SIZE_LIKE_CPP.
Definition MISSING_MEMBER_GROUP_LIKE_CPP : Z := u8 (Z.of_nat MAX_RAID_SUBGROUPS_LIKE_CPP) + 1.
Definition LOOT_METHOD_FREE_FOR_ALL_LIKE_CPP : Z := 0.
Definition LOOT_METHOD_PERSONAL_LIKE_CPP : Z := 5.
Definition ITEM_QUALITY_UNCOMMON_LIKE_CPP : Z := 2.
Definition DIFFICULTY_NORMAL_LIKE_CPP : Z := 1.
Definition DIFFICULTY_NORMAL_RAID_LIKE_CPP : Z := 14.
Definition DIFFICULTY_10_N_LIKE_CPP : Z := 3.
Definition TARGET_ICONS_COUNT_LIKE_CPP : nat := 8.
Definition EMPTY_TARGET_ICON_RAW_LIKE_CPP : list Z := replicate 16 0.
Definition RAID_MARKERS_COUNT_LIKE_CPP : nat := 8.
Definition READYCHECK_DURATION_MS_LIKE_CPP : Z := 35000.

#[global] Arguments MAX_GROUP_SIZE_LIKE_CPP : simpl never.
#[global] Arguments MAX_RAID_SIZE_LIKE_CPP : simpl never.
#[global] Arguments MAX_RAID_SUBGROUPS_LIKE_CPP : simpl never.

(** * Data *)
Record GroupMemberCharacterLikeCpp : Type := mkCharacter
  { character_name : string; character_race : Z; character_class : Z }.

Record GroupMemberSlotLikeCpp : Type := mkSlot
  { slot_guid : ObjectGuid; slot_name : string; slot_race : Z; slot_class : Z;
    subgroup : Z; flags : Z; roles : Z; ready_checked : bool }.

#[export] Instance eta_slot : Eta GroupMemberSlotLikeCpp := fun s =>
  mkSlot (slot_guid s) (slot_name s) (slot_race s) (slot_class s)
    (subgroup s) (flags s) (roles s) (ready_checked s).

(** The slot of a member that joined at run time. *)
Definition fresh_slot (guid : ObjectGuid) (sub : Z) : GroupMemberSlotLikeCpp :=
  mkSlot guid "" 0 0 sub 0 0 false.

Record GroupDbRowLikeCpp : Type := mkGroupRow
  { row_leader_guid_low : Z; row_loot_method : Z; row_looter_guid_low : Z;
    row_loot_threshold : Z; row_target_icons : list (list Z); row_group_flags : Z;
    row_dungeon_difficulty_id : Z; row_raid_difficulty_id : Z;
    row_legacy_raid_difficulty_id : Z; row_master_looter_guid_low : Z;
    row_db_store_id : Z; row_lfg_dungeon_id : option Z; row_lfg_state : option Z }.

Record GroupMemberDbRowLikeCpp : Type := mkMemberRow
  { mrow_db_store_id : Z; mrow_member_guid_low : Z; mrow_member_flags : Z;
    mrow_subgroup : Z; mrow_roles : Z }.

Record GroupRecentInstanceLikeCpp : Type := mkRecent
  { instance_owner : ObjectGuid; recent_instance_id : Z }.

Record GroupOwnedInstanceLikeCpp : Type := mkOwned
  { owned_map_id : Z; owned_instance_id : Z }.

Inductive GroupInstanceResetMethodLikeCpp : Type := Manual | OnChangeDifficulty.
Inductive GroupInstanceResetResultLikeCpp : Type := Success | NotEmpty | CannotReset | Other.
Inductive GroupDifficultyKindLikeCpp : Type := Dungeon | Raid | LegacyRaid.

Record GroupLoadSummaryLikeCpp : Type := mkSummary
  { loaded_groups : Z; loaded_member_rows : Z; loaded_members : Z;
    skipped_group_rows : Z; skipped_member_rows : Z }.

#[export] Instance eta_summary : Eta GroupLoadSummaryLikeCpp := fun s =>
  mkSummary (loaded_groups s) (loaded_member_rows s) (loaded_members s)
    (skipped_group_rows s) (skipped_member_rows s).

Record GroupLfgDbStateLikeCpp : Type := mkLfg { lfg_dungeon_id : Z; lfg_state : option Z }.

(** [Position]: four [f32] fields, each its 32-bit pattern; groups only store it. *)
Record Position : Type := mkPosition { pos_x : Z; pos_y : Z; pos_z : Z; orientation : Z }.

Record RaidMarkerLikeCpp : Type := mkMarker
  { marker_map_id : Z; marker_position : Position; transport_guid : ObjectGuid }.

Record GroupInfo : Type := mkGroup
  { group_guid : Z;
    db_store_id : Z;
    leader_guid : ObjectGuid;
    group_category : Z;
    members : list ObjectGuid;
    member_slots : list GroupMemberSlotLikeCpp;
    loot_method : Z;
    looter_guid : ObjectGuid;
    loot_threshold : Z;
    master_looter_guid : ObjectGuid;
    dungeon_difficulty_id : Z;
    raid_difficulty_id : Z;
    legacy_raid_difficulty_id : Z;
    target_icons : list (list Z);
    raid_markers : list (option RaidMarkerLikeCpp);
    recent_instances : gmap Z GroupRecentInstanceLikeCpp;
    owned_instances : gmap (Z * Z) GroupOwnedInstanceLikeCpp;
    lfg_db_state : option GroupLfgDbStateLikeCpp;
    lfg_kicks_left_like_cpp : Z;
    raid_subgroup_counts : option (list Z);
    ready_check_started : bool;
    ready_check_timer_ms : Z;
    sequence_num : Z;
    group_flags : Z }.

#[export] Instance eta_group : Eta GroupInfo := fun g =>
  mkGroup (group_guid g) (db_store_id g) (leader_guid g) (group_category g)
    (members g) (member_slots g) (loot_method g) (looter_guid g) (loot_threshold g)
    (master_looter_guid g) (dungeon_difficulty_id g) (raid_difficulty_id g)
    (legacy_raid_difficulty_id g) (target_icons g) (raid_markers g)
    (recent_instances g) (owned_instances g) (lfg_db_state g)
    (lfg_kicks_left_like_cpp g) (raid_subgroup_counts g) (ready_check_started g)
    (ready_check_timer_ms g) (sequence_num g) (group_flags g).

(** [self.sequence_num += 1]. *)
Definition bump (g : GroupInfo) : GroupInfo := g <| sequence_num := u32 (sequence_num g + 1) |>.

(** * outcome.rs *)
Inductive GroupAuthorityErrorLikeCpp : Type :=
| MissingGroup | MissingMember | NotLeader | NotLeaderOrAssistant
| InvalidSubgroup | SubgroupFull | NotRaid | GroupTooLarge | NoChange
| LfgGroup | LfgBootLimit | LfgBootTooFewPlayers | LfgBootDungeonComplete
| LfgBootLootRolls | LfgBootInCombat | LfgKickOwnedByVote
| InviteRestricted | TargetIsLeader.

Inductive GroupPersistenceIntentLikeCpp : Type :=
| InsertGroup (db : Z) (leader : ObjectGuid) (method : Z) (looter : ObjectGuid)
    (threshold gflags dungeon raid legacy : Z) (master : ObjectGuid)
| InsertMember (db : Z) (member : ObjectGuid) (mflags sub mroles : Z)
| DeleteGroup (db : Z)
| DeleteAllMembers (db : Z)
| DeleteLfgData (db : Z)
| DeleteMember (member : ObjectGuid)
| UpdateLeader (db : Z) (leader : ObjectGuid)
| UpdateGroupType (db : Z) (gflags : Z)
| UpdateMemberSubgroup (member : ObjectGuid) (sub : Z)
| UpdateMemberFlags (member : ObjectGuid) (mflags : Z)
| UpdateDifficulty (db : Z) (kind : GroupDifficultyKindLikeCpp) (difficulty : Z).

Record GroupTransitionOutcomeLikeCpp (T : Type) : Type := mkOutcome
  { outcome_group : GroupInfo; facts : T; persistence : list GroupPersistenceIntentLikeCpp }.
Arguments mkOutcome {T} _ _ _.
Arguments outcome_group {T} _.
Arguments facts {T} _.
Arguments persistence {T} _.

Record GroupMemberRemovalFactsLikeCpp : Type := mkRemoval
  { removed_guid : ObjectGuid; removal_db_store_id : Z; disbanded : bool;
    new_leader_guid : option ObjectGuid; remaining_members : list ObjectGuid }.

Inductive GroupMemberRemovalKindLikeCpp : Type :=
| Leave
| Kick (actor_guid : ObjectGuid)
    (actor_in_battleground target_has_loot_rolls any_member_in_actor_map_combat : bool).

(** * Identifier allocators

    The process-wide statics of model.rs.  Their mutexes are never poisoned:
    no code panics while holding one. *)
Record GroupIds : Type := mkIds
  { next_group_id : Z; next_group_db_store_id : Z;
    freed_group_db_store_ids : list Z; group_db_store : list (option Z) }.

#[export] Instance eta_ids : Eta GroupIds := fun s =>
  mkIds (next_group_id s) (next_group_db_store_id s) (freed_group_db_store_ids s)
    (group_db_store s).

Definition initial_ids : GroupIds := mkIds 1 1 [] [].

(** [enumerate().min_by_key(|(_, id)| *id)]: the first of the least ids. *)
Fixpoint min_index (l : list Z) : option (nat * Z) :=
  match l with
  | [] => None
  | x :: l' =>
      match min_index l' with
      | Some (i, y) => if x <=? y then Some (0%nat, x) else Some (S i, y)
      | None => Some (0%nat, x)
      end
  end.

Definition generate_group_db_store_id_like_cpp (s : GroupIds) : GroupIds * Z :=
  match min_index (freed_group_db_store_ids s) with
  | Some (index, _) =>
      match swap_remove index (freed_group_db_store_ids s) with
      | Some (id, rest) => (s <| freed_group_db_store_ids := rest |>, id)
      | None => (s, 0) (* unreachable: [index] is a position of the vector *)
      end
  | None => (s <| next_group_db_store_id := u32 (next_group_db_store_id s + 1) |>,
             next_group_db_store_id s)
  end.

Definition generate_group_id_like_cpp (s : GroupIds) : GroupIds * Z :=
  (s <| next_group_id := u64 (next_group_id s + 1) |>, next_group_id s).

(** [compare_exchange(storage_id, storage_id.saturating_add(1))]. *)
Definition advance_next_group_db_store_id_after_load_like_cpp (storage_id : Z) (s : GroupIds)
  : GroupIds :=
  if next_group_db_store_id s =? storage_id
  then s <| next_group_db_store_id := sat_add u32_max storage_id 1 |>
  else s.

Definition free_group_db_store_id_like_cpp (storage_id : Z) (s : GroupIds) : GroupIds :=
  if storage_id =? 0 then s
  else
    let s1 := s <| group_db_store := <[Z.to_nat storage_id := None]> (group_db_store s) |> in
    if decide (storage_id ∈ freed_group_db_store_ids s1) then s1
    else s1 <| freed_group_db_store_ids := freed_group_db_store_ids s1 ++ [storage_id] |>.

Definition register_group_db_store_id_like_cpp (storage_id runtime_group_guid : Z) (s : GroupIds)
  : GroupIds :=
  let index := Z.to_nat storage_id in
  let store := group_db_store s in
  let store1 := if (length store <=? index)%nat then resize (index + 1) None store else store in
  s <| group_db_store := <[index := Some runtime_group_guid]> store1 |>.

Definition group_guid_by_db_store_id_like_cpp (storage_id : Z) (s : GroupIds) : option Z :=
  mjoin (group_db_store s !! Z.to_nat storage_id).

(** * Loading a group row *)
Class GroupDifficultyValidatorLikeCpp : Type :=
  { check_loaded_dungeon_difficulty_id_like_cpp : Z -> Z;
    check_loaded_raid_difficulty_id_like_cpp : Z -> Z;
    check_loaded_legacy_raid_difficulty_id_like_cpp : Z -> Z }.

Definition represented_lfg_db_state_like_cpp (gflags : Z) (dungeon_id state : option Z)
  : option GroupLfgDbStateLikeCpp :=
  if negb (has_flag gflags GROUP_FLAG_LFG_LIKE_CPP) then None
  else
    let dungeon_id := default 0 dungeon_id in
    let state := default 0 state in
    if (dungeon_id =? 0) || (state =? 0) then None
    else Some (mkLfg dungeon_id
      (if (state =? LFG_STATE_DUNGEON_LIKE_CPP) || (state =? LFG_STATE_FINISHED_DUNGEON_LIKE_CPP)
       then Some state else None)).

Definition empty_icons : list (list Z) :=
  replicate TARGET_ICONS_COUNT_LIKE_CPP EMPTY_TARGET_ICON_RAW_LIKE_CPP.

(** [GroupInfo::new] *)
Definition group_new (leader : ObjectGuid) (s : GroupIds) : GroupIds * GroupInfo :=
  let '(s1, gid) := generate_group_id_like_cpp s in
  let '(s2, db) := generate_group_db_store_id_like_cpp s1 in
  (s2,
   {| group_guid := gid; db_store_id := db; leader_guid := leader;
      group_category := GROUP_CATEGORY_HOME_LIKE_CPP;
      members := [leader]; member_slots := [fresh_slot leader 0];
      loot_method := LOOT_METHOD_PERSONAL_LIKE_CPP; looter_guid := leader;
      loot_threshold := ITEM_QUALITY_UNCOMMON_LIKE_CPP; master_looter_guid := EMPTY;
      dungeon_difficulty_id := DIFFICULTY_NORMAL_LIKE_CPP;
      raid_difficulty_id := DIFFICULTY_NORMAL_RAID_LIKE_CPP;
      legacy_raid_difficulty_id := DIFFICULTY_10_N_LIKE_CPP;
      target_icons := empty_icons;
      raid_markers := replicate RAID_MARKERS_COUNT_LIKE_CPP None;
      recent_instances := ∅; owned_instances := ∅;
      lfg_db_state := None; lfg_kicks_left_like_cpp := 0;
      raid_subgroup_counts := None; ready_check_started := false;
      ready_check_timer_ms := 0; sequence_num := 1; group_flags := 0 |}).

Definition loaded_from_db_like_cpp (runtime_group_guid db : Z) (leader : ObjectGuid)
    (method : Z) (looter : ObjectGuid) (threshold gflags dungeon raid legacy : Z)
    (master : ObjectGuid) : GroupInfo :=
  {| group_guid := runtime_group_guid; db_store_id := db; leader_guid := leader;
     group_category := GROUP_CATEGORY_HOME_LIKE_CPP;
     members := []; member_slots := [];
     loot_method := method; looter_guid := looter; loot_threshold := threshold;
     master_looter_guid := master;
     dungeon_difficulty_id := dungeon; raid_difficulty_id := raid;
     legacy_raid_difficulty_id := legacy;
     target_icons := empty_icons;
     raid_markers := replicate RAID_MARKERS_COUNT_LIKE_CPP None;
     recent_instances := ∅; owned_instances := ∅; lfg_db_state := None;
     lfg_kicks_left_like_cpp :=
       if has_flag gflags GROUP_FLAG_LFG_LIKE_CPP then LFG_GROUP_MAX_KICKS_LIKE_CPP else 0;
     raid_subgroup_counts :=
       if has_flag gflags GROUP_FLAG_RAID_LIKE_CPP
       then Some (replicate MAX_RAID_SUBGROUPS_LIKE_CPP 0) else None;
     ready_check_started := false; ready_check_timer_ms := 0;
     sequence_num := 1; group_flags := gflags |}.

Definition loaded_from_db_validated_like_cpp `{V : GroupDifficultyValidatorLikeCpp}
    (runtime_group_guid db : Z) (leader : ObjectGuid) (method : Z) (looter : ObjectGuid)
    (threshold gflags dungeon raid legacy : Z) (master : ObjectGuid) : GroupInfo :=
  loaded_from_db_like_cpp runtime_group_guid db leader method looter threshold gflags
    (check_loaded_dungeon_difficulty_id_like_cpp dungeon)
    (check_loaded_raid_difficulty_id_like_cpp raid)
    (check_loaded_legacy_raid_difficulty_id_like_cpp legacy) master.

Definition load_group_from_db_row_validated_like_cpp `{V : GroupDifficultyValidatorLikeCpp}
    (runtime_group_guid : Z) (row : GroupDbRowLikeCpp)
    (leader : option GroupMemberCharacterLikeCpp) : option GroupInfo :=
  _ ← leader;
  l ← i64_try_from (row_leader_guid_low row);
  k ← i64_try_from (row_looter_guid_low row);
  m ← i64_try_from (row_master_looter_guid_low row);
  let group := loaded_from_db_validated_like_cpp runtime_group_guid (row_db_store_id row)
    (create_player 1 l) (row_loot_method row) (create_player 1 k) (row_loot_threshold row)
    (row_group_flags row) (row_dungeon_difficulty_id row) (row_raid_difficulty_id row)
    (row_legacy_raid_difficulty_id row) (create_player 1 m) in
  Some (group <| target_icons := row_target_icons row |>
              <| lfg_db_state := represented_lfg_db_state_like_cpp (row_group_flags row)
                   (row_lfg_dungeon_id row) (row_lfg_state row) |>).

(** * Reads and instance bookkeeping of [GroupInfo] *)
Definition group_category_like_cpp (g : GroupInfo) : Z := group_category g.

Definition recent_instance_owner_like_cpp (map_id : Z) (g : GroupInfo) : ObjectGuid :=
  default (leader_guid g) (instance_owner <$> recent_instances g !! map_id).

Definition recent_instance_id_like_cpp (map_id : Z) (g : GroupInfo) : Z :=
  default 0 (recent_instance_id <$> recent_instances g !! map_id).

Definition set_recent_instance_like_cpp (map_id : Z) (owner : ObjectGuid) (instance_id : Z)
    (g : GroupInfo) : GroupInfo :=
  g <| recent_instances := <[map_id := mkRecent owner instance_id]> (recent_instances g) |>.

Definition forget_recent_instance_like_cpp (map_id : Z) (g : GroupInfo) : GroupInfo * bool :=
  (g <| recent_instances := delete map_id (recent_instances g) |>,
   bool_decide (is_Some (recent_instances g !! map_id))).

Definition link_owned_instance_like_cpp (map_id instance_id : Z) (g : GroupInfo)
  : GroupInfo * bool :=
  (g <| owned_instances :=
       <[(map_id, instance_id) := mkOwned map_id instance_id]> (owned_instances g) |>,
   bool_decide (owned_instances g !! (map_id, instance_id) = None)).

Definition unlink_owned_instance_like_cpp (map_id instance_id : Z) (g : GroupInfo)
  : GroupInfo * bool :=
  (g <| owned_instances := delete (map_id, instance_id) (owned_instances g) |>,
   bool_decide (is_Some (owned_instances g !! (map_id, instance_id)))).

Definition apply_owned_instance_reset_result_like_cpp (map_id : Z)
    (result : GroupInstanceResetResultLikeCpp) (method : GroupInstanceResetMethodLikeCpp)
    (g : GroupInfo) : GroupInfo * bool :=
  match result, method with
  | Success, _ | CannotReset, _ => forget_recent_instance_like_cpp map_id g
  | NotEmpty, OnChangeDifficulty => forget_recent_instance_like_cpp map_id g
  | NotEmpty, _ | Other, _ => (g, false)
  end.

Definition matches_party_index_like_cpp (party_index : option Z) (g : GroupInfo) : bool :=
  match party_index with
  | None => true
  | Some index =>
      if index <? MAX_GROUP_CATEGORY_LIKE_CPP then group_category g =? index else false
  end.

Definition is_raid_group (g : GroupInfo) : bool :=
  has_flag (group_flags g) GROUP_FLAG_RAID_LIKE_CPP.

Definition max_members (g : GroupInfo) : nat :=
  if is_raid_group g then MAX_RAID_SIZE_LIKE_CPP else MAX_GROUP_SIZE_LIKE_CPP.

Definition is_full_like_cpp (g : GroupInfo) : bool :=
  (max_members g <=? length (members g))%nat.

Definition is_lfg_group_like_cpp (g : GroupInfo) : bool :=
  has_flag (group_flags g) GROUP_FLAG_LFG_LIKE_CPP.

Definition group_is_empty (g : GroupInfo) : bool := (length (members g) <? 2)%nat.
