(* ===== verification/GroupMembership.v ===== *)
(** wow-social/src/group/membership.rs: the operations of one group on its
    members, subgroups, roles and member flags. *)
From S2P Require Import Prelude Guid GroupModel.

(** * Subgroup counters *)
Definition subgroup_counter_increase_like_cpp (sub : Z) (g : GroupInfo) : GroupInfo * bool :=
  match raid_subgroup_counts g with
  | None => (g, true)
  | Some counts =>
      match counts !! Z.to_nat sub with
      | None => (g, false)
      | Some count =>
          (g <| raid_subgroup_counts := Some (<[Z.to_nat sub := sat_add u8_max count 1]> counts) |>,
           true)
      end
  end.

Definition subgroup_counter_decrease_like_cpp (sub : Z) (g : GroupInfo) : GroupInfo :=
  match raid_subgroup_counts g with
  | None => g
  | Some counts =>
      match counts !! Z.to_nat sub with
      | None => g
      | Some count =>
          g <| raid_subgroup_counts := Some (<[Z.to_nat sub := sat_sub count 1]> counts) |>
      end
  end.

(** One pass of [init_raid_subgroups_counter_like_cpp]: out-of-range subgroups
    are not counted. *)
Definition count_slot (counts : list Z) (slot : GroupMemberSlotLikeCpp) : list Z :=
  match counts !! Z.to_nat (subgroup slot) with
  | Some count => <[Z.to_nat (subgroup slot) := sat_add u8_max count 1]> counts
  | None => counts
  end.

Definition init_raid_subgroups_counter_like_cpp (g : GroupInfo) : GroupInfo :=
  g <| raid_subgroup_counts :=
    Some (foldl count_slot (replicate MAX_RAID_SUBGROUPS_LIKE_CPP 0) (member_slots g)) |>.

(** * Membership *)
(** The first raid subgroup with room; [None] when there is none. *)
Definition free_subgroup (counts : list Z) : option nat :=
  position (fun count => count < Z.of_nat MAX_GROUP_SIZE_LIKE_CPP) counts.

Definition add_member (guid : ObjectGuid) (g : GroupInfo) : GroupInfo * bool :=
  if decide (guid ∈ members g) then (g, false)
  else
    match
      match raid_subgroup_counts g with
      | Some counts => (fun index => u8 (Z.of_nat index)) <$> free_subgroup counts
      | None => Some 0
      end
    with
    | None => (g, false)
    | Some sub =>
        let '(g1, ok) := subgroup_counter_increase_like_cpp sub g in
        if ok : bool then
          (bump (g1 <| members := members g1 ++ [guid] |>
                    <| member_slots := member_slots g1 ++ [fresh_slot guid sub] |>), true)
        else (g1, false)
    end.

Definition member_slot_like_cpp (guid : ObjectGuid) (g : GroupInfo)
  : option GroupMemberSlotLikeCpp :=
  find_first (fun s => slot_guid s = guid) (member_slots g).

Definition member_group_like_cpp (guid : ObjectGuid) (g : GroupInfo) : Z :=
  default MISSING_MEMBER_GROUP_LIKE_CPP (subgroup <$> member_slot_like_cpp guid g).

Definition get_lfg_roles_like_cpp (guid : ObjectGuid) (g : GroupInfo) : Z :=
  default 0 (roles <$> member_slot_like_cpp guid g).

(** [member_slots.iter().position(|slot| slot.guid == guid)]. *)
Definition slot_position (guid : ObjectGuid) (g : GroupInfo) : option nat :=
  position (fun s => slot_guid s = guid) (member_slots g).

(** [self.member_slots[index]] updated in place. *)
Definition update_slot (index : nat) (f : GroupMemberSlotLikeCpp -> GroupMemberSlotLikeCpp)
    (g : GroupInfo) : GroupInfo :=
  g <| member_slots := alter f index (member_slots g) |>.

Definition set_lfg_roles_like_cpp (guid : ObjectGuid) (r : Z) (g : GroupInfo) : GroupInfo * bool :=
  match slot_position guid g with
  | None => (g, false)
  | Some i => (update_slot i (fun s => s <| roles := r |>) g, true)
  end.

Definition has_free_slot_sub_group_like_cpp (sub : Z) (g : GroupInfo) : bool :=
  match raid_subgroup_counts g with
  | None => false
  | Some counts =>
      match counts !! Z.to_nat sub with
      | Some count => count <? Z.of_nat MAX_GROUP_SIZE_LIKE_CPP
      | None => false
      end
  end.

Definition swap_members_groups_like_cpp (first second : ObjectGuid) (g : GroupInfo)
  : GroupInfo * option (list (ObjectGuid * Z)) :=
  if negb (is_raid_group g) then (g, None)
  else
    match slot_position first g, slot_position second g with
    | Some i, Some j =>
        if Nat.eqb i j then (g, None)
        else
          match member_slots g !! i, member_slots g !! j with
          | Some s1, Some s2 =>
              if subgroup s1 =? subgroup s2 then (g, None)
              else
                let g1 := update_slot i (fun s => s <| subgroup := subgroup s2 |>) g in
                let g2 := update_slot j (fun s => s <| subgroup := subgroup s1 |>) g1 in
                (bump g2, Some [(first, subgroup s2); (second, subgroup s1)])
          | _, _ => (g, None) (* unreachable: both are positions of the vector *)
          end
    | _, _ => (g, None)
    end.

(** * Member flags *)
Definition is_unique_flag (flag : Z) : bool :=
  (flag =? MEMBER_FLAG_MAINTANK_LIKE_CPP) || (flag =? MEMBER_FLAG_MAINASSIST_LIKE_CPP).

Definition clear_slot_flag (flag : Z) (s : GroupMemberSlotLikeCpp) : GroupMemberSlotLikeCpp :=
  s <| flags := clear_flag (flags s) flag |>.
Definition set_slot_flag (flag : Z) (s : GroupMemberSlotLikeCpp) : GroupMemberSlotLikeCpp :=
  s <| flags := set_flag (flags s) flag |>.
Definition apply_slot_flag (apply : bool) (flag : Z) : GroupMemberSlotLikeCpp -> GroupMemberSlotLikeCpp :=
  if apply then set_slot_flag flag else clear_slot_flag flag.

Definition remove_unique_group_member_flag_like_cpp (flag : Z) (g : GroupInfo)
  : GroupInfo * bool :=
  if negb (is_unique_flag flag) then (g, false)
  else
    let changed := existsb (fun s => has_flag (flags s) flag) (member_slots g) in
    let g1 := g <| member_slots :=
      map (fun s => if has_flag (flags s) flag then clear_slot_flag flag s else s)
          (member_slots g) |> in
    (if changed then bump g1 else g1, changed).

Definition set_group_member_flag_updates_like_cpp (guid : ObjectGuid) (apply : bool) (flag : Z)
    (g : GroupInfo) : GroupInfo * option (list (ObjectGuid * Z)) :=
  if negb (is_raid_group g) then (g, None)
  else
    match slot_position guid g with
    | None => (g, None)
    | Some slot_index =>
        if negb ((flag =? MEMBER_FLAG_ASSISTANT_LIKE_CPP) || is_unique_flag flag) then (g, None)
        else
          let previous := map (fun s => (slot_guid s, flags s)) (member_slots g) in
          let g1 := if is_unique_flag flag
                    then g <| member_slots := map (clear_slot_flag flag) (member_slots g) |>
                    else g in
          let g2 := update_slot slot_index (apply_slot_flag apply flag) g1 in
          let changed := existsb (fun s =>
              existsb (fun p => bool_decide (p.1 = slot_guid s) && negb (p.2 =? flags s)) previous)
            (member_slots g2) in
          let g3 := if changed then bump g2 else g2 in
          (g3, (fun s => [(guid, flags s)]) <$> member_slots g3 !! slot_index)
    end.

Definition set_group_member_flag_like_cpp (guid : ObjectGuid) (apply : bool) (flag : Z)
    (g : GroupInfo) : GroupInfo * option Z :=
  let '(g1, updates) := set_group_member_flag_updates_like_cpp guid apply flag g in
  (g1, us ← updates; snd <$> find_first (fun p => p.1 = guid) us).

Definition set_assistant_leader_flag_like_cpp (guid : ObjectGuid) (apply : bool) (g : GroupInfo)
  : GroupInfo * option Z :=
  set_group_member_flag_like_cpp guid apply MEMBER_FLAG_ASSISTANT_LIKE_CPP g.

Definition is_leader_like_cpp (guid : ObjectGuid) (g : GroupInfo) : bool :=
  bool_decide (leader_guid g = guid).

Definition is_assistant_like_cpp (guid : ObjectGuid) (g : GroupInfo) : bool :=
  existsb (fun s => bool_decide (slot_guid s = guid) &&
                    has_flag (flags s) MEMBER_FLAG_ASSISTANT_LIKE_CPP) (member_slots g).

Definition change_leader_like_cpp (new_leader : ObjectGuid) (g : GroupInfo)
  : GroupInfo * option Z :=
  match slot_position new_leader g with
  | None => (g, None)
  | Some i =>
      match member_slots g !! i with
      | None => (g, None) (* unreachable: [i] is a position of the vector *)
      | Some slot =>
          let new_flags := clear_flag (flags slot) MEMBER_FLAG_ASSISTANT_LIKE_CPP in
          let g1 := update_slot i (clear_slot_flag MEMBER_FLAG_ASSISTANT_LIKE_CPP)
                      (g <| leader_guid := new_leader |>) in
          (if negb (bool_decide (leader_guid g = new_leader)) || negb (flags slot =? new_flags)
           then bump g1 else g1,
           Some new_flags)
      end
  end.

Definition set_everyone_is_assistant_like_cpp (apply : bool) (g : GroupInfo)
  : GroupInfo * (Z * Z) :=
  let new_flags := if apply then set_flag (group_flags g) GROUP_FLAG_EVERYONE_ASSISTANT_LIKE_CPP
                   else clear_flag (group_flags g) GROUP_FLAG_EVERYONE_ASSISTANT_LIKE_CPP in
  let slots := map (apply_slot_flag apply MEMBER_FLAG_ASSISTANT_LIKE_CPP) (member_slots g) in
  let changed := negb (new_flags =? group_flags g) ||
    existsb (fun s =>
      negb (flags (apply_slot_flag apply MEMBER_FLAG_ASSISTANT_LIKE_CPP s) =? flags s))
      (member_slots g) in
  let g1 := g <| group_flags := new_flags |> <| member_slots := slots |> in
  let g2 := if changed then bump g1 else g1 in
  (g2, (group_flags g2, db_store_id g2)).

Definition change_member_group_like_cpp (guid : ObjectGuid) (sub : Z) (g : GroupInfo)
  : GroupInfo * bool :=
  if negb (is_raid_group g) then (g, false)
  else if (MAX_RAID_SUBGROUPS_LIKE_CPP <=? Z.to_nat sub)%nat then (g, false)
  else if negb (has_free_slot_sub_group_like_cpp sub g) then (g, false)
  else
    match slot_position guid g with
    | None => (g, false)
    | Some i =>
        match member_slots g !! i with
        | None => (g, false) (* unreachable: [i] is a position of the vector *)
        | Some slot =>
            let previous := subgroup slot in
            if previous =? sub then (g, false)
            else
              let g1 := update_slot i (fun s => s <| subgroup := sub |>) g in
              let g2 := fst (subgroup_counter_increase_like_cpp sub g1) in
              let g3 := subgroup_counter_decrease_like_cpp previous g2 in
              (bump g3, true)
        end
    end.

(** * Removal and conversion *)
(** The counter of the first slot of [guid] is released, then every entry of
    [guid] is dropped. *)
Definition release_counter (guid : ObjectGuid) (g : GroupInfo) : GroupInfo :=
  match member_slot_like_cpp guid g with
  | Some slot => subgroup_counter_decrease_like_cpp (subgroup slot) g
  | None => g
  end.

Definition drop_member (guid : ObjectGuid) (g : GroupInfo) : GroupInfo :=
  g <| members := filter (fun m => m <> guid) (members g) |>
    <| member_slots := filter (fun s => slot_guid s <> guid) (member_slots g) |>.

Definition remove_member (guid : ObjectGuid) (g : GroupInfo) : GroupInfo :=
  bump (drop_member guid (release_counter guid g)).

Definition load_member_from_db_like_cpp (guid_low member_flags sub r : Z)
    (character : option GroupMemberCharacterLikeCpp) (g : GroupInfo) : GroupInfo * bool :=
  match character with
  | None => (g, false)
  | Some character =>
      let member_flags := if has_flag (group_flags g) GROUP_FLAG_EVERYONE_ASSISTANT_LIKE_CPP
                          then set_flag member_flags MEMBER_FLAG_ASSISTANT_LIKE_CPP
                          else member_flags in
      match i64_try_from guid_low with
      | None => (g, false)
      | Some guid_db_id =>
          if bool_decide (is_Some (raid_subgroup_counts g)) &&
             (MAX_RAID_SUBGROUPS_LIKE_CPP <=? Z.to_nat sub)%nat then (g, false)
          else
            let guid := create_player 1 guid_db_id in
            let g1 := drop_member guid (release_counter guid g) in
            let '(g2, ok) := subgroup_counter_increase_like_cpp sub g1 in
            if ok : bool then
              (g2 <| members := members g2 ++ [guid] |>
                  <| member_slots := member_slots g2 ++
                       [mkSlot guid (character_name character) (character_race character)
                          (character_class character) sub member_flags r false] |>, true)
            else (g2, false)
      end
  end.

Definition convert_to_raid_like_cpp (g : GroupInfo) : GroupInfo :=
  if negb (is_raid_group g)
  then bump (init_raid_subgroups_counter_like_cpp
         (g <| group_flags := set_flag (group_flags g) GROUP_FLAG_RAID_LIKE_CPP |>))
  else g.

Definition convert_to_group_like_cpp (g : GroupInfo) : GroupInfo * bool :=
  if (5 <? length (members g))%nat then (g, false)
  else if is_raid_group g
  then (bump (g <| group_flags := clear_flag (group_flags g) GROUP_FLAG_RAID_LIKE_CPP |>
                <| raid_subgroup_counts := None |>), true)
  else (g, true).
