(* ===== verification/GroupSettings.v ===== *)
(** wow-social/src/group/settings.rs: loot rotation, target icons, raid
    markers and difficulties of one group. *)
From S2P Require Import Prelude Guid GroupModel GroupMembership.

(** * Target icons and raid markers *)
Definition target_icon_list_like_cpp (g : GroupInfo) : list (Z * ObjectGuid) :=
  imap (fun symbol raw => (u8 (Z.of_nat symbol), from_raw_bytes raw)) (target_icons g).

Definition active_raid_markers_mask_like_cpp (g : GroupInfo) : Z :=
  foldl (fun mask '(index, marker) =>
           if bool_decide (is_Some marker) then Z.lor mask (u32 (Z.shiftl 1 (Z.of_nat index)))
           else mask)
    0 (imap (fun i m => (i, m)) (raid_markers g)).

Definition raid_marker_list_like_cpp (g : GroupInfo) : list RaidMarkerLikeCpp :=
  omap id (raid_markers g).

Definition add_raid_marker_like_cpp (marker_id map_id : Z) (position : Position)
    (transport : ObjectGuid) (g : GroupInfo) : GroupInfo * bool :=
  match raid_markers g !! Z.to_nat marker_id with
  | None => (g, false)
  | Some (Some _) => (g, false)
  | Some None =>
      (g <| raid_markers :=
         <[Z.to_nat marker_id := Some (mkMarker map_id position transport)]> (raid_markers g) |>,
       true)
  end.

(** Whether [delete_raid_marker] clears slot [index]. *)
Definition marker_selected (marker_id : Z) (index : nat) : bool :=
  Nat.eqb (Z.to_nat marker_id) index || Nat.eqb (Z.to_nat marker_id) RAID_MARKERS_COUNT_LIKE_CPP.

Definition delete_raid_marker_like_cpp (marker_id : Z) (g : GroupInfo) : GroupInfo * bool :=
  if (RAID_MARKERS_COUNT_LIKE_CPP <? Z.to_nat marker_id)%nat then (g, false)
  else
    let hit (index : nat) (m : option RaidMarkerLikeCpp) :=
      bool_decide (is_Some m) && marker_selected marker_id index in
    (g <| raid_markers := imap (fun i m => if hit i m then None else m) (raid_markers g) |>,
     existsb id (imap hit (raid_markers g))).

(** * Loot rotation *)
Definition looter_guid_like_cpp (g : GroupInfo) : ObjectGuid :=
  if loot_method g =? LOOT_METHOD_FREE_FOR_ALL_LIKE_CPP then EMPTY else looter_guid g.

(** The first eligible slot owner from [start], wrapping around. *)
Definition next_looter (eligible : list ObjectGuid) (start : nat)
    (slots : list GroupMemberSlotLikeCpp) : option ObjectGuid :=
  slot_guid <$> find_first (fun s => slot_guid s ∈ eligible) (drop start slots ++ take start slots).

Definition update_looter_guid_like_cpp (eligible : list ObjectGuid) (ifneed : bool)
    (g : GroupInfo) : GroupInfo * bool :=
  if loot_method g =? LOOT_METHOD_FREE_FOR_ALL_LIKE_CPP then (g, false)
  else
    let old := looter_guid_like_cpp g in
    let current_index := position (fun s => slot_guid s = old) (member_slots g) in
    match
      match current_index with
      | Some index =>
          if ifneed && bool_decide (old ∈ eligible) then None else Some (S index)
      | None => Some 0%nat
      end
    with
    | None => (g, false)
    | Some start_index =>
        let new_looter := next_looter eligible start_index (member_slots g) in
        if bool_decide (new_looter = Some old) then (g, false)
        else (bump (g <| looter_guid := default EMPTY new_looter |>), true)
    end.

Definition set_target_icon_like_cpp (symbol : Z) (target : ObjectGuid) (g : GroupInfo)
  : GroupInfo * option (list (Z * ObjectGuid)) :=
  if (TARGET_ICONS_COUNT_LIKE_CPP <=? Z.to_nat symbol)%nat then (g, None)
  else
    let target_raw := to_raw_bytes target in
    let hits := if is_empty target then []
                else filter (fun i => target_icons g !! i = Some target_raw)
                       (seq 0 TARGET_ICONS_COUNT_LIKE_CPP) in
    let cleared := foldl (fun icons i => <[i := EMPTY_TARGET_ICON_RAW_LIKE_CPP]> icons)
                     (target_icons g) hits in
    (bump (g <| target_icons := <[Z.to_nat symbol := target_raw]> cleared |>),
     Some (map (fun i => (u8 (Z.of_nat i), EMPTY)) hits ++ [(symbol, target)])).

(** * Difficulty *)
Definition set_dungeon_difficulty_id_like_cpp (d : Z) (g : GroupInfo) : GroupInfo * bool :=
  if dungeon_difficulty_id g =? d then (g, false)
  else (g <| dungeon_difficulty_id := d |>, true).
Definition set_raid_difficulty_id_like_cpp (d : Z) (g : GroupInfo) : GroupInfo * bool :=
  if raid_difficulty_id g =? d then (g, false)
  else (g <| raid_difficulty_id := d |>, true).
Definition set_legacy_raid_difficulty_id_like_cpp (d : Z) (g : GroupInfo) : GroupInfo * bool :=
  if legacy_raid_difficulty_id g =? d then (g, false)
  else (g <| legacy_raid_difficulty_id := d |>, true).

(** wow-social/src/group/ready_check.rs: the ready-check state machine of one
    group. *)

Inductive ReadyCheckEventLikeCpp : Type :=
| Started (party_index party_guid : Z) (initiator_guid : ObjectGuid) (duration_ms : Z)
| Response (party_guid : Z) (player : ObjectGuid) (is_ready : bool)
| Completed (party_index party_guid : Z).

(** An operation returns the group and the events it appended. *)
Definition reset_member_ready_checked_like_cpp (g : GroupInfo) : GroupInfo :=
  g <| member_slots := map (fun s => s <| ready_checked := false |>) (member_slots g) |>.

Definition is_ready_check_completed_like_cpp (g : GroupInfo) : bool :=
  forallb ready_checked (member_slots g).

Definition end_ready_check_like_cpp (g : GroupInfo) : GroupInfo * list ReadyCheckEventLikeCpp :=
  if negb (ready_check_started g) then (g, [])
  else
    (reset_member_ready_checked_like_cpp
       (g <| ready_check_started := false |> <| ready_check_timer_ms := 0 |>),
     [Completed 0 (group_guid g)]).

Definition update_ready_check_like_cpp (diff_ms : Z) (g : GroupInfo)
  : GroupInfo * list ReadyCheckEventLikeCpp :=
  if negb (ready_check_started g) then (g, [])
  else
    let g1 := g <| ready_check_timer_ms := i64 (ready_check_timer_ms g - diff_ms) |> in
    if ready_check_timer_ms g1 <=? 0 then end_ready_check_like_cpp g1 else (g1, []).

Definition set_member_ready_checked_like_cpp (slot_index : nat) (g : GroupInfo)
  : GroupInfo * list ReadyCheckEventLikeCpp :=
  let g1 := update_slot slot_index (fun s => s <| ready_checked := true |>) g in
  if is_ready_check_completed_like_cpp g1 then end_ready_check_like_cpp g1 else (g1, []).

(** [slot_index] is a position of [member_slots]. *)
Definition set_member_ready_check_slot_like_cpp (slot_index : nat) (ready : bool) (g : GroupInfo)
  : GroupInfo * list ReadyCheckEventLikeCpp :=
  match member_slots g !! slot_index with
  | None => (g, []) (* unreachable: the callers pass positions of the vector *)
  | Some slot =>
      let '(g1, events) := set_member_ready_checked_like_cpp slot_index g in
      (g1, Response (group_guid g) (slot_guid slot) ready :: events)
  end.

(** The loop over the offline slots: it does nothing once the check ended. *)
Fixpoint mark_offline (indices : list nat) (g : GroupInfo)
  : GroupInfo * list ReadyCheckEventLikeCpp :=
  match indices with
  | [] => (g, [])
  | index :: rest =>
      let '(g1, e1) := if ready_check_started g
                       then set_member_ready_check_slot_like_cpp index false g else (g, []) in
      let '(g2, e2) := mark_offline rest g1 in
      (g2, e1 ++ e2)
  end.

Definition offline_indices (connected : list ObjectGuid) (g : GroupInfo) : list nat :=
  omap (fun p => if decide (slot_guid (snd p) ∈ connected) then None else Some (fst p))
    (imap (fun i s => (i, s)) (member_slots g)).

Definition start_ready_check_like_cpp (starter : ObjectGuid) (connected : list ObjectGuid)
    (g : GroupInfo) : GroupInfo * list ReadyCheckEventLikeCpp :=
  if ready_check_started g then (g, [])
  else
    match slot_position starter g with
    | None => (g, [])
    | Some starter_index =>
        let g1 := g <| ready_check_started := true |>
                    <| ready_check_timer_ms := READYCHECK_DURATION_MS_LIKE_CPP |> in
        let '(g2, e2) := mark_offline (offline_indices connected g1) g1 in
        let '(g3, e3) := if ready_check_started g2
                         then set_member_ready_checked_like_cpp starter_index g2 else (g2, []) in
        (g3, e2 ++ e3 ++ [Started 0 (group_guid g3) starter READYCHECK_DURATION_MS_LIKE_CPP])
    end.

Definition set_member_ready_check_like_cpp (guid : ObjectGuid) (ready : bool) (g : GroupInfo)
  : GroupInfo * list ReadyCheckEventLikeCpp :=
  if negb (ready_check_started g) then (g, [])
  else
    match slot_position guid g with
    | None => (g, [])
    | Some slot_index => set_member_ready_check_slot_like_cpp slot_index ready g
    end.
