(* ===== verification/GroupRegistry.v ===== *)
(** wow-social/src/group: the [GroupRegistry] operations of model.rs,
    membership.rs, settings.rs and ready_check.rs. *)
From S2P Require Import Prelude Guid GroupModel GroupMembership GroupSettings.

(** The registry map and the identifier statics.  Every operation holds the
    map entry of its group for its whole duration, so operations are atomic. *)
Record GroupWorld : Type := mkWorld { ids : GroupIds; groups : gmap Z GroupInfo }.

#[export] Instance eta_world : Eta GroupWorld := fun w => mkWorld (ids w) (groups w).

Definition new_registry : GroupWorld := mkWorld initial_ids ∅.

(** * Transitions on one group

    [body] is the code that runs with the entry of the group borrowed: it
    mutates the group and returns a [Result].  Mutations made before an error
    stay, as they do through the entry guard. *)
Definition body (A : Type) : Type :=
  GroupInfo -> GroupInfo * result A GroupAuthorityErrorLikeCpp.

Definition bret {A} (a : A) : body A := fun g => (g, Ok a).
Definition bseq {A B} (m : body A) (k : A -> body B) : body B := fun g =>
  match m g with
  | (g1, Ok a) => k a g1
  | (g1, Err e) => (g1, Err e)
  end.
Notation "'step!' x ':=' m 'in' k" := (bseq m (fun x => k))
  (at level 10, x pattern, m at level 100, k at level 200) : wow_scope.

(** [if cond { return Err(e) }]. *)
Definition fail_if (cond : GroupInfo -> bool) (e : GroupAuthorityErrorLikeCpp) : body unit :=
  fun g => (g, if cond g then Err e else Ok tt).
(** A call of a mutating method. *)
Definition call {A} (f : GroupInfo -> GroupInfo * A) : body A := fun g =>
  let '(g1, a) := f g in (g1, Ok a).
(** A call followed by [.ok_or(e)?]. *)
Definition call_ok_or {A} (f : GroupInfo -> GroupInfo * option A)
    (e : GroupAuthorityErrorLikeCpp) : body A := fun g =>
  let '(g1, a) := f g in (g1, ok_or a e).
Definition read {A} (f : GroupInfo -> A) : body A := fun g => (g, Ok (f g)).
(** [Ok(GroupTransitionOutcomeLikeCpp { persistence, group: group.clone(), facts })]. *)
Definition outcome {T} (fs : T) (intents : list GroupPersistenceIntentLikeCpp)
  : body (GroupTransitionOutcomeLikeCpp T) := fun g => (g, Ok (mkOutcome g fs intents)).

(** [self.groups.get_mut(&group_guid).ok_or(MissingGroup)?] around a body. *)
Definition with_group {A} (guid : Z) (b : body A) (w : GroupWorld)
  : GroupWorld * result A GroupAuthorityErrorLikeCpp :=
  match groups w !! guid with
  | None => (w, Err MissingGroup)
  | Some g => let '(g1, r) := b g in (w <| groups := <[guid := g1]> (groups w) |>, r)
  end.

Abbreviation transition T := (body (GroupTransitionOutcomeLikeCpp T)).

Definition not_leader (actor : ObjectGuid) (g : GroupInfo) : bool :=
  negb (is_leader_like_cpp actor g).
Definition not_leader_or_assistant (actor : ObjectGuid) (g : GroupInfo) : bool :=
  negb (is_leader_like_cpp actor g) && negb (is_assistant_like_cpp actor g).
Definition not_member (guid : ObjectGuid) (g : GroupInfo) : bool :=
  negb (bool_decide (guid ∈ members g)).

(** * membership.rs *)
Definition convert_group_body (actor : ObjectGuid) (raid : bool) : transition (Z * Z) :=
  step! _ := fail_if (not_leader actor) NotLeader in
  step! _ := fail_if (fun g => length (members g) <? 2)%nat MissingMember in
  step! _ := (if raid then call (fun g => (convert_to_raid_like_cpp g, tt))
              else step! ok := call convert_to_group_like_cpp in
                   fail_if (fun _ => negb ok) GroupTooLarge) in
  step! fs := read (fun g => (group_flags g, db_store_id g)) in
  outcome fs [UpdateGroupType fs.2 fs.1].
Definition convert_group_like_cpp guid actor raid := with_group guid (convert_group_body actor raid).

Definition change_member_subgroup_body (actor member : ObjectGuid) (sub : Z)
  : transition (ObjectGuid * Z) :=
  step! _ := fail_if (not_leader_or_assistant actor) NotLeaderOrAssistant in
  step! _ := fail_if (fun g => negb (is_raid_group g)) NotRaid in
  step! _ := fail_if (fun _ => MAX_RAID_SUBGROUPS_LIKE_CPP <=? Z.to_nat sub)%nat InvalidSubgroup in
  step! _ := fail_if (fun g => negb (has_free_slot_sub_group_like_cpp sub g)) SubgroupFull in
  step! _ := fail_if (not_member member) MissingMember in
  step! ok := call (change_member_group_like_cpp member sub) in
  step! _ := fail_if (fun _ => negb ok) NoChange in
  outcome (member, sub) [UpdateMemberSubgroup member sub].
Definition change_member_subgroup_like_cpp guid actor member sub :=
  with_group guid (change_member_subgroup_body actor member sub).

Definition swap_member_subgroups_body (actor first second : ObjectGuid)
  : transition (list (ObjectGuid * Z)) :=
  step! _ := fail_if (not_leader_or_assistant actor) NotLeaderOrAssistant in
  step! fs := call_ok_or (swap_members_groups_like_cpp first second) NoChange in
  outcome fs (map (fun p => UpdateMemberSubgroup p.1 p.2) fs).
Definition swap_member_subgroups_like_cpp guid actor first second :=
  with_group guid (swap_member_subgroups_body actor first second).

Definition change_leader_transition_body (actor new_leader : ObjectGuid) : transition (Z * Z) :=
  step! _ := fail_if (not_leader actor) NotLeader in
  step! _ := fail_if (not_member new_leader) MissingMember in
  step! db := read db_store_id in
  step! final_flags := call_ok_or (change_leader_like_cpp new_leader) NoChange in
  outcome (db, final_flags)
    ((if db =? 0 then [] else [UpdateLeader db new_leader])
     ++ [UpdateMemberFlags new_leader final_flags]).
Definition change_leader_transition_like_cpp guid actor new_leader :=
  with_group guid (change_leader_transition_body actor new_leader).

Definition set_member_flag_transition_body (actor member : ObjectGuid) (apply : bool) (flag : Z)
  : transition Z :=
  step! _ := fail_if (not_leader actor) NotLeader in
  step! fs := call_ok_or (set_group_member_flag_like_cpp member apply flag) MissingMember in
  outcome fs [UpdateMemberFlags member fs].
Definition set_member_flag_transition_like_cpp guid actor member apply flag :=
  with_group guid (set_member_flag_transition_body actor member apply flag).

Definition set_everyone_assistant_transition_body (actor : ObjectGuid) (apply : bool)
  : transition (Z * Z) :=
  step! _ := fail_if (not_leader actor) NotLeader in
  step! fs := call (set_everyone_is_assistant_like_cpp apply) in
  outcome fs [UpdateGroupType fs.2 fs.1].
Definition set_everyone_assistant_transition_like_cpp guid actor apply :=
  with_group guid (set_everyone_assistant_transition_body actor apply).

Definition assignment_flag (assignment : Z) : option Z :=
  if assignment =? GROUP_ASSIGN_MAINASSIST_LIKE_CPP then Some MEMBER_FLAG_MAINASSIST_LIKE_CPP
  else if assignment =? GROUP_ASSIGN_MAINTANK_LIKE_CPP then Some MEMBER_FLAG_MAINTANK_LIKE_CPP
  else None.

Definition set_party_assignment_transition_body (actor member : ObjectGuid) (assignment : Z)
    (apply : bool) : transition (list (ObjectGuid * Z)) :=
  step! _ := fail_if (not_leader_or_assistant actor) NotLeaderOrAssistant in
  match assignment_flag assignment with
  | None => outcome [] []
  | Some flag =>
      step! _ := call (remove_unique_group_member_flag_like_cpp flag) in
      step! fs := call (set_group_member_flag_updates_like_cpp member apply flag) in
      let fs := default [] fs in
      outcome fs (map (fun p => UpdateMemberFlags p.1 p.2) fs)
  end.
Definition set_party_assignment_transition_like_cpp guid actor member assignment apply :=
  with_group guid (set_party_assignment_transition_body actor member assignment apply).

Definition set_lfg_role_transition_body (member : ObjectGuid) (role : Z) : transition (Z * bool) :=
  step! old_role := read (get_lfg_roles_like_cpp member) in
  step! _ := fail_if (fun _ => old_role =? role) NoChange in
  step! mutated := call (set_lfg_roles_like_cpp member role) in
  outcome (old_role, mutated) [].
Definition set_lfg_role_transition_like_cpp guid member role :=
  with_group guid (set_lfg_role_transition_body member role).

(** ** [remove_member_like_cpp] *)
Definition kick_guard (member : ObjectGuid) (kind : GroupMemberRemovalKindLikeCpp) : body unit :=
  match kind with
  | Leave => bret tt
  | Kick actor in_bg loot_rolls in_combat => fun g =>
      (if is_lfg_group_like_cpp g then
         step! _ := fail_if (fun g => lfg_kicks_left_like_cpp g =? 0) LfgBootLimit in
         step! _ := fail_if (fun g => length (members g) <=? LFG_GROUP_KICK_VOTES_NEEDED_LIKE_CPP)%nat
                      LfgBootTooFewPlayers in
         step! _ := fail_if (fun g => bool_decide
                      ((lfg_db_state g ≫= lfg_state) = Some LFG_STATE_FINISHED_DUNGEON_LIKE_CPP))
                      LfgBootDungeonComplete in
         step! _ := fail_if (fun _ => loot_rolls) LfgBootLootRolls in
         fail_if (fun _ => in_combat) LfgBootInCombat
       else
         step! _ := fail_if (not_leader_or_assistant actor) NotLeaderOrAssistant in
         step! _ := fail_if (fun _ => in_bg) InviteRestricted in
         fail_if (fun g => bool_decide (leader_guid g = member)) TargetIsLeader) g
  end.

Definition is_kick (kind : GroupMemberRemovalKindLikeCpp) : bool :=
  match kind with Leave => false | Kick _ _ _ _ => true end.

(** The part of [remove_member_like_cpp] that runs on the borrowed entry. *)
Definition remove_member_body (member : ObjectGuid) (kind : GroupMemberRemovalKindLikeCpp)
    (connected : list ObjectGuid) : transition GroupMemberRemovalFactsLikeCpp :=
  step! _ := kick_guard member kind in
  step! _ := fail_if (not_member member) MissingMember in
  step! _ := fail_if (fun g => is_kick kind && is_lfg_group_like_cpp g) LfgKickOwnedByVote in
  step! previous_leader := read leader_guid in
  step! _ := call (fun g => (remove_member member g, tt)) in
  step! db := read db_store_id in
  step! new_leader := (fun g =>
    if (2 <=? length (members g))%nat && bool_decide (previous_leader = member) then
      match find_first (fun c => c ∈ members g) connected with
      | Some successor =>
          let '(g1, r) := change_leader_like_cpp successor g in
          (g1, Ok (if r is Some _ then Some successor else None))
      | None => (g, Ok None)
      end
    else (g, Ok None)) in
  step! is_disbanded := read (fun g => length (members g) <? 2)%nat in
  step! remaining := read members in
  outcome (mkRemoval member db is_disbanded new_leader remaining)
    (if is_disbanded : bool then [DeleteGroup db; DeleteAllMembers db; DeleteLfgData db]
     else DeleteMember member ::
          match new_leader with Some l => [UpdateLeader db l] | None => [] end).

(** A disbanded group is taken out of the map and its storage id freed. *)
Definition remove_member_like_cpp (guid : Z) (member : ObjectGuid)
    (kind : GroupMemberRemovalKindLikeCpp) (connected : list ObjectGuid) (w : GroupWorld)
  : GroupWorld *
    result (GroupTransitionOutcomeLikeCpp GroupMemberRemovalFactsLikeCpp)
      GroupAuthorityErrorLikeCpp :=
  let '(w1, r) := with_group guid (remove_member_body member kind connected) w in
  match r with
  | Ok o =>
      if disbanded (facts o) then
        (w1 <| groups := delete guid (groups w1) |>
            <| ids := free_group_db_store_id_like_cpp (db_store_id (outcome_group o)) (ids w1) |>,
         Ok o)
      else (w1, Ok o)
  | Err e => (w1, Err e)
  end.

(** * settings.rs *)
(** A raid reserves icons and markers to its leader and assistants. *)
Definition raid_unauthorised (actor : ObjectGuid) (g : GroupInfo) : bool :=
  is_raid_group g && not_leader_or_assistant actor g.

Definition set_target_icon_transition_body (actor : ObjectGuid) (symbol : Z) (target : ObjectGuid)
  : transition (list (Z * ObjectGuid)) :=
  step! _ := fail_if (raid_unauthorised actor) NotLeaderOrAssistant in
  step! fs := call_ok_or (set_target_icon_like_cpp symbol target) InvalidSubgroup in
  outcome fs [].
Definition set_target_icon_transition_like_cpp guid actor symbol target :=
  with_group guid (set_target_icon_transition_body actor symbol target).

Definition delete_raid_marker_transition_body (actor : ObjectGuid) (marker_id : Z)
  : transition bool :=
  step! _ := fail_if (raid_unauthorised actor) NotLeaderOrAssistant in
  step! _ := fail_if (fun _ => RAID_MARKERS_COUNT_LIKE_CPP <? Z.to_nat marker_id)%nat
               InvalidSubgroup in
  step! fs := call (delete_raid_marker_like_cpp marker_id) in
  outcome fs [].
Definition delete_raid_marker_transition_like_cpp guid actor marker_id :=
  with_group guid (delete_raid_marker_transition_body actor marker_id).

Definition add_raid_marker_transition_body (actor : ObjectGuid) (marker_id map_id : Z)
    (position : Position) (transport : ObjectGuid) : transition unit :=
  step! _ := fail_if (not_member actor) MissingMember in
  step! _ := fail_if (raid_unauthorised actor) NotLeaderOrAssistant in
  step! ok := call (add_raid_marker_like_cpp marker_id map_id position transport) in
  step! _ := fail_if (fun _ => negb ok) NoChange in
  outcome tt [].
Definition add_raid_marker_transition_like_cpp guid actor marker_id map_id position transport :=
  with_group guid (add_raid_marker_transition_body actor marker_id map_id position transport).

Definition set_recent_instance_transition_like_cpp guid (map_id : Z) (owner : ObjectGuid)
    (instance_id : Z) :=
  with_group guid
    (step! _ := call (fun g => (set_recent_instance_like_cpp map_id owner instance_id g, tt)) in
     outcome tt []).

Definition link_owned_instance_transition_like_cpp guid (map_id instance_id : Z) :=
  with_group guid
    (step! fs := call (link_owned_instance_like_cpp map_id instance_id) in outcome fs []).

Definition unlink_owned_instance_transition_like_cpp guid (map_id instance_id : Z) :=
  with_group guid
    (step! fs := call (unlink_owned_instance_like_cpp map_id instance_id) in outcome fs []).

Definition apply_instance_reset_transition_like_cpp guid (map_id : Z)
    (result : GroupInstanceResetResultLikeCpp) (method : GroupInstanceResetMethodLikeCpp) :=
  with_group guid
    (step! fs := call (apply_owned_instance_reset_result_like_cpp map_id result method) in
     outcome fs []).

Definition set_difficulty_of_kind (kind : GroupDifficultyKindLikeCpp) (d : Z)
  : GroupInfo -> GroupInfo * bool :=
  match kind with
  | Dungeon => set_dungeon_difficulty_id_like_cpp d
  | Raid => set_raid_difficulty_id_like_cpp d
  | LegacyRaid => set_legacy_raid_difficulty_id_like_cpp d
  end.

Definition set_difficulty_transition_body (actor : ObjectGuid) (d : Z)
    (kind : GroupDifficultyKindLikeCpp) : transition Z :=
  step! _ := fail_if (not_leader actor) NotLeader in
  step! _ := fail_if is_lfg_group_like_cpp LfgGroup in
  step! changed := call (set_difficulty_of_kind kind d) in
  step! _ := fail_if (fun _ => negb changed) NoChange in
  step! db := read db_store_id in
  outcome db [UpdateDifficulty db kind d].
Definition set_difficulty_transition_like_cpp guid actor d kind :=
  with_group guid (set_difficulty_transition_body actor d kind).

Definition advance_looter_transition_like_cpp guid (eligible : list ObjectGuid) :=
  with_group guid
    (step! fs := call (update_looter_guid_like_cpp eligible false) in outcome fs []).

(** * ready_check.rs *)
Definition no_events (events : list ReadyCheckEventLikeCpp) : bool :=
  match events with [] => true | _ => false end.

Definition start_ready_check_transition_body (actor : ObjectGuid) (connected : list ObjectGuid)
  : transition (list ReadyCheckEventLikeCpp) :=
  step! _ := fail_if (not_leader_or_assistant actor) NotLeaderOrAssistant in
  step! fs := call (start_ready_check_like_cpp actor connected) in
  step! _ := fail_if (fun _ => no_events fs) NoChange in
  outcome fs [].
Definition start_ready_check_transition_like_cpp guid actor connected :=
  with_group guid (start_ready_check_transition_body actor connected).

Definition respond_ready_check_transition_body (member : ObjectGuid) (ready : bool)
  : transition (list ReadyCheckEventLikeCpp) :=
  step! _ := fail_if (not_member member) MissingMember in
  step! fs := call (set_member_ready_check_like_cpp member ready) in
  step! _ := fail_if (fun _ => no_events fs) NoChange in
  outcome fs [].
Definition respond_ready_check_transition_like_cpp guid member ready :=
  with_group guid (respond_ready_check_transition_body member ready).

(** The second loop of [tick_ready_checks_like_cpp], over the keys the first
    one collected. *)
Fixpoint tick_keys (diff_ms : Z) (keys : list Z) (m : gmap Z GroupInfo)
  : gmap Z GroupInfo * list (Z * list ReadyCheckEventLikeCpp) :=
  match keys with
  | [] => (m, [])
  | guid :: rest =>
      match m !! guid with
      | None => tick_keys diff_ms rest m
      | Some g =>
          let '(g1, events) := update_ready_check_like_cpp diff_ms g in
          let '(m2, results) := tick_keys diff_ms rest (<[guid := g1]> m) in
          (m2, if no_events events then results else (guid, events) :: results)
      end
  end.

Definition tick_ready_checks_like_cpp `{O : !IterOrder Z} (diff_ms : Z) (w : GroupWorld)
  : GroupWorld * list (Z * list ReadyCheckEventLikeCpp) :=
  let active_keys := (filter (fun kv => ready_check_started kv.2 = true)
                        (iter_entries (groups w))).*1 in
  let '(m, results) := tick_keys diff_ms active_keys (groups w) in
  (w <| groups := m |>, results).

Definition tick_all_group_ready_checks_like_cpp `{O : !IterOrder Z} (diff_ms : Z) (w : GroupWorld) :=
  tick_ready_checks_like_cpp diff_ms w.

(** * The registry itself (model.rs) *)
Definition registry_get (guid : Z) (w : GroupWorld) : option GroupInfo := groups w !! guid.
Definition registry_contains_key (guid : Z) (w : GroupWorld) : bool :=
  bool_decide (is_Some (groups w !! guid)).
Definition snapshots `{O : !IterOrder Z} (w : GroupWorld) : list GroupInfo :=
  (iter_entries (groups w)).*2.

(** [None]: the assertion on the key panics. *)
Definition register_group_like_cpp (guid : Z) (g : GroupInfo) (w : GroupWorld)
  : option (GroupWorld * option GroupInfo) :=
  if negb (guid =? group_guid g) then None
  else
    let db := db_store_id g in
    let ids1 := register_group_db_store_id_like_cpp db guid (ids w) in
    let previous := groups w !! guid in
    let ids2 :=
      match previous with
      | Some p => if negb (db_store_id p =? db)
                  then free_group_db_store_id_like_cpp (db_store_id p) ids1 else ids1
      | None => ids1
      end in
    Some (mkWorld ids2 (<[guid := g]> (groups w)), previous).

Definition unregister_group_like_cpp (guid : Z) (w : GroupWorld) : GroupWorld * option GroupInfo :=
  match groups w !! guid with
  | None => (w, None)
  | Some g =>
      (mkWorld (free_group_db_store_id_like_cpp (db_store_id g) (ids w)) (delete guid (groups w)),
       Some g)
  end.

Definition get_group_by_db_store_id_like_cpp (storage_id : Z) (w : GroupWorld)
  : option GroupInfo :=
  guid ← group_guid_by_db_store_id_like_cpp storage_id (ids w);
  registry_get guid w.

Record GroupMembershipStateLikeCpp : Type := mkMembership
  { ms_group_guid : Z; ms_group_category : Z; ms_leader_guid : ObjectGuid;
    ms_role_mask : Z; ms_subgroup : Z }.

Definition membership_in (member : ObjectGuid) (g : GroupInfo)
  : option GroupMembershipStateLikeCpp :=
  slot ← member_slot_like_cpp member g;
  Some (mkMembership (group_guid g) (group_category g) (leader_guid g) (roles slot)
          (subgroup slot)).

Definition member_group_state_like_cpp `{O : !IterOrder Z} (member : ObjectGuid) (w : GroupWorld)
  : option GroupMembershipStateLikeCpp :=
  head (omap (fun kv => membership_in member kv.2) (iter_entries (groups w))).

Definition registry_group_category_like_cpp (guid : Z) (w : GroupWorld) : option Z :=
  group_category_like_cpp <$> groups w !! guid.

(** ** Loading the database rows

    The summary counters are [usize]: they count rows held in memory and do
    not reach their maximum. *)
Section Load.
Context `{V : GroupDifficultyValidatorLikeCpp}.
Variable character_cache : gmap Z GroupMemberCharacterLikeCpp.

(** A runtime id is drawn for every row, skipped ones too. *)
Definition load_group_row (st : GroupWorld * GroupLoadSummaryLikeCpp) (row : GroupDbRowLikeCpp)
  : GroupWorld * GroupLoadSummaryLikeCpp :=
  let '(w, summary) := st in
  let '(ids1, gid) := generate_group_id_like_cpp (ids w) in
  let w1 := w <| ids := ids1 |> in
  let leader := character_cache !! row_leader_guid_low row in
  match load_group_from_db_row_validated_like_cpp gid row leader with
  | None => (w1, summary <| skipped_group_rows := skipped_group_rows summary + 1 |>)
  | Some group =>
      match register_group_like_cpp (group_guid group) group w1 with
      | None => (w1, summary) (* unreachable: the key is the group's own guid *)
      | Some (w2, _) =>
          let ids2 := register_group_db_store_id_like_cpp (row_db_store_id row)
                        (group_guid group) (ids w2) in
          let ids3 := advance_next_group_db_store_id_after_load_like_cpp
                        (row_db_store_id row) ids2 in
          (w2 <| ids := ids3 |>, summary <| loaded_groups := loaded_groups summary + 1 |>)
      end
  end.

Definition load_member_row (st : GroupWorld * GroupLoadSummaryLikeCpp)
    (row : GroupMemberDbRowLikeCpp) : GroupWorld * GroupLoadSummaryLikeCpp :=
  let '(w, summary0) := st in
  let summary := summary0 <| loaded_member_rows := loaded_member_rows summary0 + 1 |> in
  let skipped := summary <| skipped_member_rows := skipped_member_rows summary + 1 |> in
  match group_guid_by_db_store_id_like_cpp (mrow_db_store_id row) (ids w) with
  | None => (w, skipped)
  | Some gid =>
      match groups w !! gid with
      | None => (w, skipped)
      | Some g =>
          let character := character_cache !! mrow_member_guid_low row in
          let '(g1, ok) := load_member_from_db_like_cpp (mrow_member_guid_low row)
            (mrow_member_flags row) (mrow_subgroup row) (mrow_roles row) character g in
          (w <| groups := <[gid := g1]> (groups w) |>,
           if ok : bool then summary <| loaded_members := loaded_members summary + 1 |>
           else skipped)
      end
  end.

Definition empty_summary : GroupLoadSummaryLikeCpp := mkSummary 0 0 0 0 0.

Definition load_groups_from_db_rows_like_cpp (group_rows : list GroupDbRowLikeCpp)
    (member_rows : list GroupMemberDbRowLikeCpp) (w : GroupWorld)
  : GroupWorld * GroupLoadSummaryLikeCpp :=
  foldl load_member_row (foldl load_group_row (w, empty_summary) group_rows) member_rows.
End Load.
