(* ===== verification/GroupInvites.v ===== *)
(** wow-social/src/group/invites.rs: pending group invites, from creation to
    acceptance. *)
From S2P Require Import Prelude Guid GroupModel GroupMembership GroupRegistry.

(** * Data *)
Record PendingInviteLikeCpp : Type := mkInvite
  { invite_leader_guid : ObjectGuid; invite_group_guid : option Z; invite_category : Z }.

#[export] Instance pending_invite_eq_dec : EqDecision PendingInviteLikeCpp.
Proof. solve_decision. Defined.

Definition new_pending_group (leader : ObjectGuid) (category : Z) : PendingInviteLikeCpp :=
  mkInvite leader None category.
Definition new_existing_group (leader : ObjectGuid) (guid category : Z) : PendingInviteLikeCpp :=
  mkInvite leader (Some guid) category.

(** [PendingInvites]: invited player to invite.  Its transition lock makes
    every operation below atomic. *)
Abbreviation PendingInvites := (gmap ObjectGuid PendingInviteLikeCpp).

Inductive CreateGroupInviteResultLikeCpp : Type :=
| InviteCreated (invite : PendingInviteLikeCpp)
| TargetAlreadyInvited
| TargetAlreadyGrouped
| InviterNotLeaderOrAssistant
| InviterGroupFull
| MissingInviterGroup
| InviterWrongCategory.

Inductive AcceptGroupInviteResultLikeCpp : Type :=
| NoInvite
| WrongCategory
| SelfInvite
| GroupFull
| AddFailed
| AlreadyMember
| AcceptMissingGroup
| MissingLeader
| JoinedExisting (group : GroupInfo) (sub : Z) (intents : list GroupPersistenceIntentLikeCpp)
| Created (group : GroupInfo) (sub : Z) (intents : list GroupPersistenceIntentLikeCpp).

(** * The directory *)
Definition pending_get (invited : ObjectGuid) (p : PendingInvites) : option PendingInviteLikeCpp :=
  p !! invited.
Definition pending_contains_key (invited : ObjectGuid) (p : PendingInvites) : bool :=
  bool_decide (is_Some (p !! invited)).

Definition remove_all (guids : list ObjectGuid) (p : PendingInvites) : PendingInvites :=
  foldl (fun p guid => delete guid p) p guids.

Section Invites.
Context `{OG : !IterOrder Z} `{OI : !IterOrder ObjectGuid}.

Definition matching_guids (invite : PendingInviteLikeCpp) (p : PendingInvites) : list ObjectGuid :=
  (filter (fun kv => kv.2 = invite) (iter_entries p)).*1.

Definition seed_invite_like_cpp (invited : ObjectGuid) (invite : PendingInviteLikeCpp)
    (p : PendingInvites) : PendingInvites * option PendingInviteLikeCpp :=
  (<[invited := invite]> p, p !! invited).

(** * Creation *)
(** A group of the category that lists the player as a member. *)
Definition holds_member (category : Z) (guid : ObjectGuid) (g : GroupInfo) : bool :=
  (group_category_like_cpp g =? category) && bool_decide (guid ∈ members g).

(** The claimed group if it holds the inviter, else any group that does. *)
Definition resolve_inviter_group (inviter : ObjectGuid) (claimed : option Z) (category : Z)
    (m : gmap Z GroupInfo) : option Z :=
  match claimed ≫= (fun guid => g ← m !! guid;
                      if holds_member category inviter g then Some guid else None) with
  | Some guid => Some guid
  | None => fst <$> find_first (fun kv => holds_member category inviter kv.2 = true)
                      (iter_entries m)
  end.

Definition create_invite_like_cpp (inviter invitee : ObjectGuid) (claimed : option Z)
    (lookup_category new_category : Z) (w : GroupWorld) (p : PendingInvites)
  : PendingInvites * CreateGroupInviteResultLikeCpp :=
  if bool_decide (is_Some (p !! invitee)) then (p, TargetAlreadyInvited)
  else if map_any (holds_member lookup_category invitee) (groups w) then (p, TargetAlreadyGrouped)
  else
    let resolved := resolve_inviter_group inviter claimed lookup_category (groups w) in
    if bool_decide (is_Some claimed) && bool_decide (resolved = None) then (p, MissingInviterGroup)
    else
      match resolved with
      | Some guid =>
          match groups w !! guid with
          | None => (p, MissingInviterGroup)
          | Some g =>
              if negb (group_category_like_cpp g =? lookup_category) then (p, InviterWrongCategory)
              else if not_leader_or_assistant inviter g then (p, InviterNotLeaderOrAssistant)
              else if is_full_like_cpp g then (p, InviterGroupFull)
              else
                let invite := new_existing_group (leader_guid g) guid (group_category_like_cpp g) in
                (<[invitee := invite]> p, InviteCreated invite)
          end
      | None =>
          match p !! inviter with
          | Some invite => (<[invitee := invite]> p, InviteCreated invite)
          | None =>
              let invite := new_pending_group inviter new_category in
              (<[invitee := invite]> (<[inviter := invite]> p), InviteCreated invite)
          end
      end.

(** * Cancellation *)
(** Removes one exact invite; a pending group left with at most one invite is
    dissolved. *)
Definition cancel_invite_like_cpp (invitee : ObjectGuid) (expected : PendingInviteLikeCpp)
    (p : PendingInvites) : PendingInvites * bool :=
  if negb (bool_decide (p !! invitee = Some expected)) then (p, false)
  else
    let p1 := delete invitee p in
    if bool_decide (invite_group_guid expected = None) &&
       (length (matching_guids expected p1) <=? 1)%nat
    then (remove_all (matching_guids expected p1) p1, true)
    else (p1, true).

Definition replace_invite_like_cpp (invitee : ObjectGuid)
    (expected replacement : PendingInviteLikeCpp) (p : PendingInvites) : PendingInvites * bool :=
  let '(p1, ok) := cancel_invite_like_cpp invitee expected p in
  if negb ok then (p1, false)
  else
    let p2 :=
      match invite_group_guid replacement, p1 !! invite_leader_guid replacement with
      | None, None => <[invite_leader_guid replacement := replacement]> p1
      | _, _ => p1
      end in
    (<[invitee := replacement]> p2, true).

Definition expire_invite_like_cpp (invitee : ObjectGuid) (expected : PendingInviteLikeCpp)
    (p : PendingInvites) : PendingInvites * bool :=
  cancel_invite_like_cpp invitee expected p.

Definition cancel_pending_group_like_cpp (expected : PendingInviteLikeCpp) (p : PendingInvites)
  : PendingInvites * nat :=
  let guids := matching_guids expected p in
  (remove_all guids p, length guids).

(** [party_index.is_some_and(|index| invite.group_category != index)]. *)
Definition category_differs (party_index : option Z) (invite : PendingInviteLikeCpp) : bool :=
  match party_index with
  | Some index => negb (invite_category invite =? index)
  | None => false
  end.

(** The lookup and the cancellation take the lock separately; the
    cancellation re-checks the invite, and this is the run in which no other
    operation comes between the two. *)
Definition decline_invite_like_cpp (invitee : ObjectGuid) (party_index : option Z)
    (p : PendingInvites) : PendingInvites * option PendingInviteLikeCpp :=
  match pending_get invitee p with
  | None => (p, None)
  | Some invite =>
      if category_differs party_index invite then (p, None)
      else
        let '(p1, ok) := cancel_invite_like_cpp invitee invite p in
        (p1, if ok : bool then Some invite else None)
  end.

(** * Acceptance *)
(** The invite points at an existing group. *)
Definition join_existing (invitee : ObjectGuid) (invite : PendingInviteLikeCpp) (guid : Z)
    (w : GroupWorld) (p : PendingInvites)
  : GroupWorld * PendingInvites * AcceptGroupInviteResultLikeCpp :=
  match groups w !! guid with
  | None => (w, p, AcceptMissingGroup)
  | Some g =>
      if negb (group_category_like_cpp g =? invite_category invite) then (w, p, WrongCategory)
      else
        let p1 := delete invitee p in
        if is_full_like_cpp g then (w, p1, GroupFull)
        else if bool_decide (invitee ∈ members g) then (w, p1, AlreadyMember)
        else
          let '(g1, ok) := add_member invitee g in
          let w1 := w <| groups := <[guid := g1]> (groups w) |> in
          if negb ok then (w1, p1, AddFailed)
          else
            let sub := default 0 (subgroup <$> member_slot_like_cpp invitee g1) in
            (w1, p1, JoinedExisting g1 sub [InsertMember (db_store_id g1) invitee 0 sub 0])
  end.

Definition insert_group_intent (g : GroupInfo) : GroupPersistenceIntentLikeCpp :=
  InsertGroup (db_store_id g) (leader_guid g) (loot_method g) (looter_guid g) (loot_threshold g)
    (group_flags g) (dungeon_difficulty_id g) (raid_difficulty_id g) (legacy_raid_difficulty_id g)
    (master_looter_guid g).

(** The remaining invites of the pending group now point at the new group. *)
Definition promote_all (promoted : PendingInviteLikeCpp) (guids : list ObjectGuid)
    (p : PendingInvites) : PendingInvites :=
  foldl (fun p guid => <[guid := promoted]> p) p guids.

(** The invite points at a group that does not exist yet. *)
Definition create_from_invite (invitee : ObjectGuid) (invite : PendingInviteLikeCpp)
    (available_leader : option ObjectGuid) (w : GroupWorld) (p : PendingInvites)
  : GroupWorld * PendingInvites * AcceptGroupInviteResultLikeCpp :=
  let p1 := delete invitee p in
  if negb (bool_decide (available_leader = Some (invite_leader_guid invite)))
  then (w, remove_all (matching_guids invite p1) p1, MissingLeader)
  else
    let '(ids1, g0) := group_new (invite_leader_guid invite) (ids w) in
    let '(g, ok) := add_member invitee g0 in
    if negb ok then (w <| ids := ids1 |>, p1, AddFailed)
    else
      let guid := group_guid g in
      let db := db_store_id g in
      let sub := default 0 (subgroup <$> member_slot_like_cpp invitee g) in
      let w1 := mkWorld (register_group_db_store_id_like_cpp db guid ids1)
                  (<[guid := g]> (groups w)) in
      let p2 := delete (invite_leader_guid invite) p1 in
      let promoted := new_existing_group (invite_leader_guid invite) guid
                        (invite_category invite) in
      (w1, promote_all promoted (matching_guids invite p2) p2,
       Created g sub [insert_group_intent g;
                      InsertMember db (leader_guid g) 0 0 0;
                      InsertMember db invitee 0 sub 0]).

Definition accept_invite_like_cpp (invitee : ObjectGuid) (party_index : option Z)
    (available_leader : option ObjectGuid) (w : GroupWorld) (p : PendingInvites)
  : GroupWorld * PendingInvites * AcceptGroupInviteResultLikeCpp :=
  match p !! invitee with
  | None => (w, p, NoInvite)
  | Some invite =>
      if category_differs party_index invite then (w, p, WrongCategory)
      else if bool_decide (invite_leader_guid invite = invitee)
      then (w, delete invitee p, SelfInvite)
      else
        match invite_group_guid invite with
        | Some guid => join_existing invitee invite guid w p
        | None => create_from_invite invitee invite available_leader w p
        end
  end.
End Invites.
