(* ===== verification/GroupInvariant.v ===== *)
(** The well-formedness invariant of one group, and that every operation of
    membership.rs, settings.rs and ready_check.rs preserves it. *)
From S2P Require Import Prelude Guid GroupModel GroupMembership GroupSettings.

(** * The invariant *)
Abbreviation place := (ObjectGuid * Z)%type.

(** Who sits where. *)
Definition slot_place (s : GroupMemberSlotLikeCpp) : place := (slot_guid s, subgroup s).
Definition roster (g : GroupInfo) : list place := map slot_place (member_slots g).

(** How many members sit in subgroup [i]. *)
Definition occupancy (i : Z) (r : list place) : nat := length (filter (fun p => p.2 = i) r).

Definition exact_counts (r : list place) : list Z :=
  map (fun i => Z.of_nat (occupancy (Z.of_nat i) r)) (seq 0 MAX_RAID_SUBGROUPS_LIKE_CPP).

Record group_wf (g : GroupInfo) : Prop :=
  { wf_members : members g = (roster g).*1;
    wf_nodup : NoDup (members g);
    wf_subgroup : Forall (fun p => 0 <= p.2 < Z.of_nat MAX_RAID_SUBGROUPS_LIKE_CPP) (roster g);
    wf_room : forall i, (occupancy i (roster g) <= MAX_GROUP_SIZE_LIKE_CPP)%nat;
    wf_size : (length (members g) <= max_members g)%nat;
    wf_counts : raid_subgroup_counts g =
      if is_raid_group g then Some (exact_counts (roster g)) else None }.

(** What every operation on a stored group keeps: its identity and category,
    its well-formedness, and that it gains no member. *)
Record group_step (g g' : GroupInfo) : Prop :=
  { step_guid : group_guid g' = group_guid g;
    step_db : db_store_id g' = db_store_id g;
    step_category : group_category g' = group_category g;
    step_members : members g' ⊆ members g;
    step_wf : group_wf g -> group_wf g' }.

Lemma group_step_refl g : group_step g g.
Proof. by split. Qed.

Lemma group_step_trans g1 g2 g3 : group_step g1 g2 -> group_step g2 g3 -> group_step g1 g3.
Proof.
  intros [A1 A2 A3 A4 A5] [B1 B2 B3 B4 B5].
  split; [congruence..|set_solver|auto].
Qed.

#[export] Instance group_step_preorder : PreOrder group_step.
Proof. split; [exact group_step_refl|exact group_step_trans]. Qed.

(** * Occupancy *)
Definition sits (i : Z) (p : place) : nat := if decide (p.2 = i) then 1%nat else 0%nat.

Lemma occupancy_nil i : occupancy i [] = 0%nat.
Proof. done. Qed.

Lemma occupancy_cons i p r : occupancy i (p :: r) = (sits i p + occupancy i r)%nat.
Proof. unfold occupancy, sits. rewrite filter_cons. by destruct (decide _). Qed.

Lemma occupancy_app i r1 r2 : occupancy i (r1 ++ r2) = (occupancy i r1 + occupancy i r2)%nat.
Proof. unfold occupancy. by rewrite filter_app, length_app. Qed.

Lemma occupancy_le i r : (occupancy i r <= length r)%nat.
Proof. apply length_filter. Qed.

Lemma sits_le i p : (sits i p <= 1)%nat.
Proof. unfold sits. destruct (decide _); lia. Qed.

Lemma sits_self i p : p.2 = i -> sits i p = 1%nat.
Proof. intros. unfold sits. by rewrite decide_True. Qed.

Lemma sits_other i p : p.2 <> i -> sits i p = 0%nat.
Proof. intros. unfold sits. by rewrite decide_False. Qed.

Lemma occupancy_snoc i r p : occupancy i (r ++ [p]) = (occupancy i r + sits i p)%nat.
Proof. rewrite occupancy_app, occupancy_cons, occupancy_nil. lia. Qed.

Lemma occupancy_insert i j r p q :
  r !! j = Some p -> (occupancy i (<[j := q]> r) + sits i p = occupancy i r + sits i q)%nat.
Proof.
  revert j. induction r as [|a r IH]; intros [|j] E; simplify_eq/=.
  - rewrite !occupancy_cons. lia.
  - rewrite !occupancy_cons. specialize (IH j E). lia.
Qed.

(** Every member sits in exactly one of the eight subgroups. *)
Lemma sum_sits p n :
  0 <= p.2 < Z.of_nat n -> sum_list (map (fun i => sits (Z.of_nat i) p) (seq 0 n)) = 1%nat.
Proof.
  induction n as [|n IH]; [lia|]. intros Hp.
  rewrite seq_S, map_app. cbn [map Nat.add]. rewrite sum_list_with_app.
  destruct (decide (p.2 = Z.of_nat n)) as [E|E].
  - assert (sits (Z.of_nat n) p = 1)%nat as -> by (unfold sits; by rewrite decide_True).
    assert (forall l, Forall (fun i => i < n)%nat l ->
      sum_list (map (fun i => sits (Z.of_nat i) p) l) = 0%nat) as Z0.
    { intros l. induction 1 as [|i l Hi Hl IHl]; [done|]. simpl. rewrite IHl.
      unfold sits. rewrite decide_False; [done|lia]. }
    rewrite Z0; [done|]. apply Forall_seq. lia.
  - rewrite IH by lia. unfold sits. simpl. rewrite decide_False; [done|congruence].
Qed.

Lemma sum_map_plus {A} (f h : A -> nat) l :
  sum_list (map (fun i => f i + h i)%nat l) = (sum_list (map f l) + sum_list (map h l))%nat.
Proof. induction l as [|x l IH]; simpl; [done|]. rewrite IH. lia. Qed.

Lemma sum_occupancy r :
  Forall (fun p => 0 <= p.2 < Z.of_nat MAX_RAID_SUBGROUPS_LIKE_CPP) r ->
  sum_list (map (fun i => occupancy (Z.of_nat i) r) (seq 0 MAX_RAID_SUBGROUPS_LIKE_CPP)) = length r.
Proof.
  induction 1 as [|p r Hp Hr IH]; [done|].
  rewrite (map_ext _ (fun i => sits (Z.of_nat i) p + occupancy (Z.of_nat i) r)%nat)
    by (intros; apply occupancy_cons).
  rewrite sum_map_plus, IH, sum_sits by done. done.
Qed.

(** * Exact counters *)
Lemma exact_counts_length r : length (exact_counts r) = MAX_RAID_SUBGROUPS_LIKE_CPP.
Proof. unfold exact_counts. by rewrite length_map, length_seq. Qed.

Lemma exact_counts_lookup r i :
  exact_counts r !! i = if decide (i < MAX_RAID_SUBGROUPS_LIKE_CPP)%nat
    then Some (Z.of_nat (occupancy (Z.of_nat i) r)) else None.
Proof.
  unfold exact_counts. rewrite list_lookup_fmap.
  destruct (decide _) as [Hi|Hi].
  - rewrite lookup_seq_lt by done. done.
  - rewrite lookup_seq_ge by lia. done.
Qed.

Lemma exact_counts_at r i :
  0 <= i < Z.of_nat MAX_RAID_SUBGROUPS_LIKE_CPP ->
  exact_counts r !! Z.to_nat i = Some (Z.of_nat (occupancy i r)).
Proof.
  intros Hi. rewrite exact_counts_lookup, decide_True by lia. by rewrite Z2Nat.id by lia.
Qed.

Lemma exact_counts_update r r' i c :
  0 <= i < Z.of_nat MAX_RAID_SUBGROUPS_LIKE_CPP ->
  c = Z.of_nat (occupancy i r') ->
  (forall j, j <> i -> occupancy j r' = occupancy j r) ->
  <[Z.to_nat i := c]> (exact_counts r) = exact_counts r'.
Proof.
  intros Hi -> Hj. apply list_eq. intros k.
  destruct (decide (k = Z.to_nat i)) as [->|Hk].
  - rewrite list_lookup_insert_eq by (rewrite exact_counts_length; lia).
    by rewrite exact_counts_at.
  - rewrite list_lookup_insert_ne by done. rewrite !exact_counts_lookup.
    destruct (decide _); [|done]. rewrite Hj; [done|lia].
Qed.

Lemma exact_counts_ext r r' :
  (forall i, occupancy i r = occupancy i r') -> exact_counts r = exact_counts r'.
Proof. intros E. unfold exact_counts. apply map_ext. intros. by rewrite E. Qed.

Lemma init_counts_exact slots :
  Forall (fun p => 0 <= p.2 < Z.of_nat MAX_RAID_SUBGROUPS_LIKE_CPP) (map slot_place slots) ->
  (forall i, (occupancy i (map slot_place slots) <= MAX_GROUP_SIZE_LIKE_CPP)%nat) ->
  foldl count_slot (replicate MAX_RAID_SUBGROUPS_LIKE_CPP 0) slots
  = exact_counts (map slot_place slots).
Proof.
  induction slots as [|s slots IH] using rev_ind; intros Hs Hroom; [done|].
  rewrite map_app in Hs, Hroom |- *. change (map slot_place [s]) with [slot_place s] in *. apply Forall_app in Hs as [Hs Hlast].
  apply Forall_cons_1 in Hlast as [Hlast _].
  change (0 <= subgroup s < Z.of_nat MAX_RAID_SUBGROUPS_LIKE_CPP) in Hlast.
  assert (Hroom' : forall i, (occupancy i (map slot_place slots) <= MAX_GROUP_SIZE_LIKE_CPP)%nat).
  { intros i. specialize (Hroom i). rewrite occupancy_app in Hroom. lia. }
  rewrite foldl_snoc, (IH Hs Hroom').
  unfold count_slot. rewrite exact_counts_at by done.
  apply exact_counts_update; [done| |].
  - specialize (Hroom (subgroup s)). revert Hroom.
    rewrite occupancy_snoc, sits_self by done.
    unfold sat_add, u8_max, MAX_GROUP_SIZE_LIKE_CPP. lia.
  - intros j Hj. rewrite occupancy_snoc, sits_other by (simpl; congruence). lia.
Qed.

(** * Operations that keep every place *)
(** The fields the invariant reads. *)
Definition core (g : GroupInfo) :=
  (group_guid g, db_store_id g, group_category g, members g, roster g,
   is_raid_group g, raid_subgroup_counts g).

Lemma core_step g g' : core g' = core g -> group_step g g'.
Proof.
  unfold core. intros [= E1 E2 E3 E4 E5 E6 E7]. split; [done..|by rewrite E4|].
  intros [W1 W2 W3 W4 W5 W6]. unfold max_members in *.
  split; unfold max_members; rewrite ?E4, ?E5, ?E6, ?E7; assumption.
Qed.

Lemma core_bump g : core (bump g) = core g.
Proof. done. Qed.

(** A slot update that moves nobody. *)
Definition keeps_place (f : GroupMemberSlotLikeCpp -> GroupMemberSlotLikeCpp) : Prop :=
  forall s, slot_place (f s) = slot_place s.

Lemma map_place_keeps f l : keeps_place f -> map slot_place (map f l) = map slot_place l.
Proof. intros Hf. rewrite map_map. apply map_ext. intros s. apply Hf. Qed.

Lemma map_place_alter f i l : keeps_place f -> map slot_place (alter f i l) = map slot_place l.
Proof.
  intros Hf. revert i. induction l as [|s l IH]; intros [|i]; simpl; [done..| |].
  - by rewrite Hf.
  - change (slot_place s :: map slot_place (alter f i l) = slot_place s :: map slot_place l).
    by rewrite IH.
Qed.

Lemma core_slots g slots :
  map slot_place slots = roster g -> core (g <| member_slots := slots |>) = core g.
Proof. intros E. unfold core, roster at 1. ssimpl. by rewrite E. Qed.

Lemma core_update_slot i f g : keeps_place f -> core (update_slot i f g) = core g.
Proof. intros Hf. by apply core_slots, map_place_alter. Qed.

Lemma keeps_clear_flag flag : keeps_place (clear_slot_flag flag).
Proof. done. Qed.
Lemma keeps_set_flag flag : keeps_place (set_slot_flag flag).
Proof. done. Qed.
Lemma keeps_apply_flag apply flag : keeps_place (apply_slot_flag apply flag).
Proof. by destruct apply. Qed.
Lemma keeps_roles r : keeps_place (fun s => s <| roles := r |>).
Proof. done. Qed.
Lemma keeps_ready b : keeps_place (fun s => s <| ready_checked := b |>).
Proof. done. Qed.
Lemma keeps_if (P : GroupMemberSlotLikeCpp -> bool) f :
  keeps_place f -> keeps_place (fun s => if P s then f s else s).
Proof. intros Hf s. destruct (P s); [apply Hf|done]. Qed.

Create HintDb core_db.
#[export] Hint Resolve core_bump core_update_slot map_place_keeps map_place_alter
  keeps_clear_flag keeps_set_flag keeps_apply_flag keeps_roles keeps_ready keeps_if : core_db.

(** Open an operation: decide its branches and unfold pairs. *)
Ltac branches :=
  repeat match goal with
  | |- context [match ?x with _ => _ end] =>
      lazymatch x with context [match _ with _ => _ end] => fail | _ => destruct x eqn:? end
  end; simplify_eq/=.

Lemma set_lfg_roles_core guid r g : core (set_lfg_roles_like_cpp guid r g).1 = core g.
Proof. unfold set_lfg_roles_like_cpp. branches; auto with core_db. Qed.

Lemma remove_unique_flag_core flag g :
  core (remove_unique_group_member_flag_like_cpp flag g).1 = core g.
Proof.
  unfold remove_unique_group_member_flag_like_cpp. destruct (is_unique_flag flag); simpl; [|done].
  destruct (existsb _ _); rewrite ?core_bump; apply core_slots; auto with core_db.
Qed.

Lemma set_flag_updates_core guid apply flag g :
  core (set_group_member_flag_updates_like_cpp guid apply flag g).1 = core g.
Proof.
  unfold set_group_member_flag_updates_like_cpp.
  destruct (is_raid_group g); simpl; [|done].
  destruct (slot_position guid g) as [i|]; [|done].
  destruct (_ || _); simpl; [|done].
  set (g1 := if is_unique_flag flag then _ else _).
  assert (core g1 = core g) as E1.
  { subst g1. destruct (is_unique_flag flag); [|done]. apply core_slots. auto with core_db. }
  rewrite <- E1. destruct (existsb _ _); rewrite ?core_bump; auto with core_db.
Qed.

Lemma set_flag_core guid apply flag g :
  core (set_group_member_flag_like_cpp guid apply flag g).1 = core g.
Proof.
  unfold set_group_member_flag_like_cpp. pose proof (set_flag_updates_core guid apply flag g) as E.
  by destruct (set_group_member_flag_updates_like_cpp guid apply flag g).
Qed.

Lemma change_leader_core new_leader g : core (change_leader_like_cpp new_leader g).1 = core g.
Proof.
  unfold change_leader_like_cpp. destruct (slot_position _ _) as [i|]; [|done].
  destruct (member_slots g !! i); [|done]. cbn [fst].
  destruct (_ || _); rewrite ?core_bump; (rewrite core_update_slot; [done|auto with core_db]).
Qed.

Lemma raid_bit_other x f :
  Z.land f GROUP_FLAG_RAID_LIKE_CPP = 0 ->
  has_flag (set_flag x f) GROUP_FLAG_RAID_LIKE_CPP = has_flag x GROUP_FLAG_RAID_LIKE_CPP /\
  has_flag (clear_flag x f) GROUP_FLAG_RAID_LIKE_CPP = has_flag x GROUP_FLAG_RAID_LIKE_CPP.
Proof.
  intros Hf. unfold has_flag, set_flag, clear_flag. split; f_equal; f_equal.
  - by rewrite Z.land_lor_distr_l, Hf, Z.lor_0_r.
  - apply Z.bits_inj'. intros i Hi. rewrite !Z.land_spec, Z.ldiff_spec.
    apply (f_equal (fun z => Z.testbit z i)) in Hf. rewrite Z.land_spec, Z.bits_0 in Hf.
    destruct (Z.testbit x i), (Z.testbit f i), (Z.testbit GROUP_FLAG_RAID_LIKE_CPP i); done.
Qed.

Lemma everyone_assistant_core apply g :
  core (set_everyone_is_assistant_like_cpp apply g).1 = core g.
Proof.
  unfold set_everyone_is_assistant_like_cpp. cbn [fst].
  set (nf := if apply then _ else _).
  assert (has_flag nf GROUP_FLAG_RAID_LIKE_CPP = is_raid_group g) as Eraid.
  { subst nf. unfold is_raid_group.
    destruct (raid_bit_other (group_flags g) GROUP_FLAG_EVERYONE_ASSISTANT_LIKE_CPP) as [? ?];
      [done|]. by destruct apply. }
  set (c := _ || _). clearbody c.
  transitivity (core (g <| group_flags := nf |>)).
  - destruct c; rewrite ?core_bump; apply (core_slots (g <| group_flags := nf |>));
      unfold roster; ssimpl; auto with core_db.
  - unfold core, roster, is_raid_group in *. ssimpl. by rewrite Eraid.
Qed.

(** ** Ready checks *)
Lemma end_ready_check_core g : core (end_ready_check_like_cpp g).1 = core g.
Proof.
  unfold end_ready_check_like_cpp. destruct (ready_check_started g); simpl; [|done].
  unfold reset_member_ready_checked_like_cpp. rewrite core_slots; [done|].
  apply map_place_keeps, keeps_ready.
Qed.

Lemma update_ready_check_core d g : core (update_ready_check_like_cpp d g).1 = core g.
Proof.
  unfold update_ready_check_like_cpp. destruct (ready_check_started g); simpl; [|done].
  destruct (_ <=? 0); [|done]. by rewrite end_ready_check_core.
Qed.

Lemma set_ready_checked_core i g : core (set_member_ready_checked_like_cpp i g).1 = core g.
Proof.
  unfold set_member_ready_checked_like_cpp.
  destruct (is_ready_check_completed_like_cpp _); rewrite ?end_ready_check_core;
    apply core_update_slot; auto with core_db.
Qed.

Lemma ready_check_slot_core i r g : core (set_member_ready_check_slot_like_cpp i r g).1 = core g.
Proof.
  unfold set_member_ready_check_slot_like_cpp. destruct (member_slots g !! i); [|done].
  pose proof (set_ready_checked_core i g). by destruct (set_member_ready_checked_like_cpp i g).
Qed.

Lemma mark_offline_core l g : core (mark_offline l g).1 = core g.
Proof.
  revert g. induction l as [|i l IH]; intros g; [done|]. cbn [mark_offline].
  destruct (ready_check_started g).
  - pose proof (ready_check_slot_core i false g) as E.
    destruct (set_member_ready_check_slot_like_cpp i false g) as [g1 e1]. cbn [fst] in E.
    specialize (IH g1). destruct (mark_offline l g1). simpl in *. congruence.
  - specialize (IH g). destruct (mark_offline l g). done.
Qed.

Lemma start_ready_check_core starter connected g :
  core (start_ready_check_like_cpp starter connected g).1 = core g.
Proof.
  unfold start_ready_check_like_cpp. destruct (ready_check_started g); [done|].
  destruct (slot_position starter g) as [i|]; [|done]. cbv zeta.
  set (g1 := _ <| ready_check_timer_ms := _ |>).
  pose proof (mark_offline_core (offline_indices connected g1) g1) as E2.
  destruct (mark_offline _ g1) as [g2 e2]. cbn [fst] in E2.
  destruct (ready_check_started g2).
  - pose proof (set_ready_checked_core i g2) as E3.
    destruct (set_member_ready_checked_like_cpp i g2). simpl in *. by rewrite E3, E2.
  - simpl. by rewrite E2.
Qed.

Lemma set_ready_check_core guid r g : core (set_member_ready_check_like_cpp guid r g).1 = core g.
Proof.
  unfold set_member_ready_check_like_cpp. destruct (ready_check_started g); simpl; [|done].
  destruct (slot_position guid g); [|done]. apply ready_check_slot_core.
Qed.

(** ** Settings *)
Lemma target_icon_core symbol target g : core (set_target_icon_like_cpp symbol target g).1 = core g.
Proof. unfold set_target_icon_like_cpp. by destruct (_ <=? _)%nat. Qed.

Lemma add_marker_core m map_id pos tr g : core (add_raid_marker_like_cpp m map_id pos tr g).1 = core g.
Proof. unfold add_raid_marker_like_cpp. by branches. Qed.

Lemma delete_marker_core m g : core (delete_raid_marker_like_cpp m g).1 = core g.
Proof. unfold delete_raid_marker_like_cpp. by destruct (_ <? _)%nat. Qed.

Lemma reset_result_core map_id r m g :
  core (apply_owned_instance_reset_result_like_cpp map_id r m g).1 = core g.
Proof. by destruct r, m. Qed.

Lemma update_looter_core eligible ifneed g :
  core (update_looter_guid_like_cpp eligible ifneed g).1 = core g.
Proof. unfold update_looter_guid_like_cpp. by branches. Qed.

#[export] Hint Resolve set_lfg_roles_core remove_unique_flag_core set_flag_updates_core
  set_flag_core change_leader_core everyone_assistant_core update_ready_check_core
  start_ready_check_core set_ready_check_core target_icon_core add_marker_core
  delete_marker_core reset_result_core update_looter_core : core_db.

(** * Operations that move members *)
Lemma roster_fst g : (roster g).*1 = map slot_guid (member_slots g).
Proof. unfold roster. rewrite <- list_fmap_compose. done. Qed.

Lemma roster_length g : group_wf g -> length (members g) = length (roster g).
Proof. intros W. by rewrite (wf_members g W), length_fmap. Qed.

(** The counters after the roster changed at subgroup [i] only. *)
Lemma counter_increase_spec i g :
  group_wf g -> 0 <= i < Z.of_nat MAX_RAID_SUBGROUPS_LIKE_CPP ->
  forall r', occupancy i r' = S (occupancy i (roster g)) ->
  (forall j, j <> i -> occupancy j r' = occupancy j (roster g)) ->
  subgroup_counter_increase_like_cpp i g =
    (g <| raid_subgroup_counts := if is_raid_group g then Some (exact_counts r') else None |>, true).
Proof.
  intros W Hi r' E1 E2. unfold subgroup_counter_increase_like_cpp.
  pose proof (wf_counts g W) as Ec. pose proof (wf_room g W i) as Hroom.
  destruct (is_raid_group g) eqn:Er; rewrite Ec.
  - rewrite exact_counts_at by done.
    rewrite (exact_counts_update (roster g) r' i); [done..| |].
    + unfold sat_add, u8_max, MAX_GROUP_SIZE_LIKE_CPP in *. lia.
    + done.
  - destruct g; simpl in *; by rewrite Ec.
Qed.

(** The lowest subgroup with room exists unless the raid is full. *)
Lemma free_subgroup_spec r :
  Forall (fun p => 0 <= p.2 < Z.of_nat MAX_RAID_SUBGROUPS_LIKE_CPP) r ->
  (length r < MAX_RAID_SIZE_LIKE_CPP)%nat ->
  exists i, free_subgroup (exact_counts r) = Some i /\ (i < MAX_RAID_SUBGROUPS_LIKE_CPP)%nat /\
    (occupancy (Z.of_nat i) r < MAX_GROUP_SIZE_LIKE_CPP)%nat /\
    forall j, (j < i)%nat -> (MAX_GROUP_SIZE_LIKE_CPP <= occupancy (Z.of_nat j) r)%nat.
Proof.
  intros Hs Hl. unfold free_subgroup, position.
  destruct (list_find _ (exact_counts r)) as [[i c]|] eqn:E; simpl.
  - apply list_find_Some in E as (Ei & Hc & Hmin).
    rewrite exact_counts_lookup in Ei. destruct (decide _) as [Hi|]; simplify_eq.
    exists i. split; [done|]. split; [done|]. split; [lia|].
    intros j Hj. specialize (Hmin j (Z.of_nat (occupancy (Z.of_nat j) r))).
    rewrite exact_counts_lookup, decide_True in Hmin by lia. specialize (Hmin eq_refl Hj). lia.
  - exfalso. apply list_find_None in E. pose proof (sum_occupancy r Hs) as Hsum.
    assert (forall n, (n <= MAX_RAID_SUBGROUPS_LIKE_CPP)%nat ->
      (n * MAX_GROUP_SIZE_LIKE_CPP <= sum_list (map (fun i => occupancy (Z.of_nat i) r) (seq 0 n)))%nat)
      as Hge.
    { induction n as [|n IH]; intros Hn; [simpl; lia|].
      rewrite seq_S, map_app, sum_list_with_app. cbn [map Nat.add sum_list_with].
      specialize (IH ltac:(lia)). rewrite Forall_lookup in E.
      specialize (E n (Z.of_nat (occupancy (Z.of_nat n) r))).
      rewrite exact_counts_lookup, decide_True in E by lia. specialize (E eq_refl).
      change (id ?x) with x. lia. }
    specialize (Hge MAX_RAID_SUBGROUPS_LIKE_CPP (le_n _)).
    change MAX_RAID_SIZE_LIKE_CPP with (MAX_RAID_SUBGROUPS_LIKE_CPP * MAX_GROUP_SIZE_LIKE_CPP)%nat in Hl.
    lia.
Qed.

(** Appending one slot with room keeps a group well-formed. *)
Lemma wf_snoc g g' x i :
  group_wf g -> x ∉ members g -> is_full_like_cpp g = false ->
  0 <= i < Z.of_nat MAX_RAID_SUBGROUPS_LIKE_CPP ->
  (occupancy i (roster g) < MAX_GROUP_SIZE_LIKE_CPP)%nat ->
  members g' = members g ++ [x] -> roster g' = roster g ++ [(x, i)] ->
  is_raid_group g' = is_raid_group g ->
  raid_subgroup_counts g' = (if is_raid_group g then Some (exact_counts (roster g')) else None) ->
  group_wf g'.
Proof.
  intros W Hx Hfull Hi Hocc Em Er Eraid Ec. unfold is_full_like_cpp in Hfull.
  apply Nat.leb_gt in Hfull. split.
  - by rewrite Em, Er, fmap_app, (wf_members g W).
  - rewrite Em. apply NoDup_app. split; [apply (wf_nodup g W)|].
    split; [|apply NoDup_singleton]. by intros y Hy ->%list_elem_of_singleton.
  - rewrite Er. apply Forall_app. split; [apply (wf_subgroup g W)|].
    by apply Forall_singleton.
  - intros j. rewrite Er, occupancy_snoc. pose proof (wf_room g W j).
    destruct (decide (j = i)) as [->|]; [rewrite sits_self by done; lia|].
    rewrite sits_other by (simpl; congruence). lia.
  - unfold max_members in *. rewrite Em, Eraid, length_app. cbn [length]. lia.
  - by rewrite Ec, Eraid.
Qed.

Lemma add_member_wf g x :
  group_wf g -> x ∉ members g -> is_full_like_cpp g = false ->
  exists g' sub,
    add_member x g = (g', true) /\ group_wf g' /\
    0 <= sub < Z.of_nat MAX_RAID_SUBGROUPS_LIKE_CPP /\
    (is_raid_group g = false -> sub = 0) /\
    (is_raid_group g = true -> (occupancy sub (roster g) < MAX_GROUP_SIZE_LIKE_CPP)%nat /\
      forall j, 0 <= j < sub -> occupancy j (roster g) = MAX_GROUP_SIZE_LIKE_CPP) /\
    g' = bump (g <| raid_subgroup_counts :=
                   if is_raid_group g then Some (exact_counts (roster g ++ [(x, sub)])) else None |>
                 <| members := members g ++ [x] |>
                 <| member_slots := member_slots g ++ [fresh_slot x sub] |>).
Proof.
  intros W Hx Hfull. pose proof Hfull as Hl. unfold is_full_like_cpp, max_members in Hl.
  apply Nat.leb_gt in Hl. pose proof (roster_length g W) as Elen.
  assert (exists sub,
    match raid_subgroup_counts g with
    | Some counts => (fun index => u8 (Z.of_nat index)) <$> free_subgroup counts
    | None => Some 0
    end = Some sub /\ 0 <= sub < Z.of_nat MAX_RAID_SUBGROUPS_LIKE_CPP /\
    (is_raid_group g = false -> sub = 0) /\
    (occupancy sub (roster g) < MAX_GROUP_SIZE_LIKE_CPP)%nat /\
    (is_raid_group g = true ->
      forall j, 0 <= j < sub -> occupancy j (roster g) = MAX_GROUP_SIZE_LIKE_CPP))
    as (sub & Esub & Hsub & Hsub0 & Hocc & Hmin).
  { rewrite (wf_counts g W). destruct (is_raid_group g) eqn:Er.
    - destruct (free_subgroup_spec (roster g) (wf_subgroup g W)) as (i & -> & Hi & Ho & Hm);
        [lia|]. simpl. exists (Z.of_nat i).
      assert (MAX_RAID_SUBGROUPS_LIKE_CPP = 8%nat) by done.
      rewrite wrap_u_id by (try unfold in_u; lia).
      split; [done|]. split; [lia|]. split; [done|]. split; [done|]. intros _ j Hj.
      specialize (Hm (Z.to_nat j) ltac:(lia)). rewrite Z2Nat.id in Hm by lia.
      pose proof (wf_room g W j). lia.
    - exists 0. split; [done|]. split; [unfold MAX_RAID_SUBGROUPS_LIKE_CPP; simpl; lia|].
      split; [done|]. split; [|done]. pose proof (occupancy_le 0 (roster g)). lia. }
  set (r' := roster g ++ [(x, sub)]).
  assert (Einc := counter_increase_spec sub g W Hsub r').
  eexists _, sub. split; [|split; [|split; [done|split; [done|split; [by split; [|apply Hmin]|reflexivity]]]]].
  - unfold add_member. rewrite decide_False by done. rewrite Esub.
    rewrite Einc; [reflexivity| |].
    + unfold r'. rewrite occupancy_snoc, sits_self by done. lia.
    + intros j Hj. unfold r'. rewrite occupancy_snoc, sits_other by (simpl; congruence). lia.
  - assert (Er : roster (bump (g <| raid_subgroup_counts :=
                   if is_raid_group g then Some (exact_counts (roster g ++ [(x, sub)])) else None |>
                 <| members := members g ++ [x] |>
                 <| member_slots := member_slots g ++ [fresh_slot x sub] |>)) = roster g ++ [(x, sub)])
      by (unfold roster; ssimpl; apply map_app).
    apply (wf_snoc g _ x sub); try done. by rewrite Er.
Qed.

(** ** Moving a member between subgroups *)
Lemma slot_position_Some guid g i :
  slot_position guid g = Some i -> exists s, member_slots g !! i = Some s /\ slot_guid s = guid.
Proof. apply position_Some. Qed.

Lemma slot_position_members guid g :
  group_wf g -> is_Some (slot_position guid g) <-> guid ∈ members g.
Proof.
  intros W. rewrite (wf_members g W), roster_fst. unfold slot_position. split.
  - intros [i (s & Hs & <-)%position_Some]. apply list_elem_of_fmap.
    exists s. split; [done|]. by eapply list_elem_of_lookup_2.
  - intros (s & -> & Hs)%list_elem_of_fmap.
    destruct (position _ _) eqn:E; [done|]. apply position_None in E.
    rewrite Forall_forall in E. by destruct (E s Hs).
Qed.

Lemma roster_alter f i g s :
  member_slots g !! i = Some s ->
  roster (update_slot i f g) = <[i := slot_place (f s)]> (roster g).
Proof.
  unfold roster, update_slot. ssimpl. generalize (member_slots g) as l. intros l. revert i.
  induction l as [|a l IH]; intros [|i] E; simplify_eq/=; [done|].
  by f_equal; apply IH.
Qed.

Lemma roster_lookup g i s :
  member_slots g !! i = Some s -> roster g !! i = Some (slot_place s).
Proof. intros E. unfold roster. by rewrite list_lookup_fmap, E. Qed.

Lemma fst_insert_same (r : list place) i p q :
  r !! i = Some p -> q.1 = p.1 -> (<[i := q]> r).*1 = r.*1.
Proof.
  intros E Hq. rewrite list_fmap_insert, Hq. apply list_insert_id.
  by rewrite list_lookup_fmap, E.
Qed.

Lemma wf_place g i s : group_wf g -> member_slots g !! i = Some s ->
  0 <= subgroup s < Z.of_nat MAX_RAID_SUBGROUPS_LIKE_CPP.
Proof.
  intros W E. pose proof (wf_subgroup g W) as H. rewrite Forall_lookup in H.
  apply (H i (slot_place s)). by apply roster_lookup.
Qed.

Lemma occupied_pos g i s : member_slots g !! i = Some s ->
  (1 <= occupancy (subgroup s) (roster g))%nat.
Proof.
  intros E. apply roster_lookup in E.
  pose proof (occupancy_insert (subgroup s) i (roster g) _ (slot_guid s, subgroup s + 1) E) as H.
  rewrite sits_self in H by done. rewrite sits_other in H by (simpl; lia). lia.
Qed.

(** [change_member_group] on the counters: one more in the new subgroup, one
    less in the old one. *)
Lemma counters_moved r i p sub :
  r !! i = Some p -> p.2 <> sub ->
  0 <= p.2 < Z.of_nat MAX_RAID_SUBGROUPS_LIKE_CPP ->
  0 <= sub < Z.of_nat MAX_RAID_SUBGROUPS_LIKE_CPP ->
  (occupancy sub r < MAX_GROUP_SIZE_LIKE_CPP)%nat ->
  let r' := <[i := (p.1, sub)]> r in
  <[Z.to_nat p.2 := sat_sub (Z.of_nat (occupancy p.2 r)) 1]>
    (<[Z.to_nat sub := sat_add u8_max (Z.of_nat (occupancy sub r)) 1]> (exact_counts r))
  = exact_counts r'.
Proof.
  intros E Hne Hp Hsub Hocc r'.
  assert (Ho : forall j, (occupancy j r' + sits j p = occupancy j r + sits j (p.1, sub))%nat)
    by (intros j; by apply occupancy_insert).
  apply list_eq. intros k.
  destruct (decide (k = Z.to_nat p.2)) as [->|Hk].
  - rewrite list_lookup_insert_eq by (rewrite length_insert, exact_counts_length; lia).
    rewrite exact_counts_at by done. f_equal. specialize (Ho p.2).
    rewrite sits_self in Ho by done. rewrite sits_other in Ho by (simpl; congruence).
    unfold sat_sub. lia.
  - rewrite list_lookup_insert_ne by done.
    destruct (decide (k = Z.to_nat sub)) as [->|Hk'].
    + rewrite list_lookup_insert_eq by (rewrite exact_counts_length; lia).
      rewrite exact_counts_at by done. f_equal. specialize (Ho sub).
      rewrite (sits_self sub (p.1, sub)) in Ho by done. rewrite sits_other in Ho by done.
      unfold sat_add, u8_max, MAX_GROUP_SIZE_LIKE_CPP in *. lia.
    + rewrite list_lookup_insert_ne by done. rewrite !exact_counts_lookup.
      destruct (decide _); [|done]. specialize (Ho (Z.of_nat k)).
      rewrite !sits_other in Ho by (simpl; lia). do 2 f_equal. lia.
Qed.

Lemma free_slot_spec sub g :
  group_wf g -> 0 <= sub -> has_free_slot_sub_group_like_cpp sub g = true <->
  is_raid_group g = true /\ 0 <= sub < Z.of_nat MAX_RAID_SUBGROUPS_LIKE_CPP /\
  (occupancy sub (roster g) < MAX_GROUP_SIZE_LIKE_CPP)%nat.
Proof.
  intros W H0. unfold has_free_slot_sub_group_like_cpp. rewrite (wf_counts g W).
  destruct (is_raid_group g); [|by split; [|intros [? _]]].
  rewrite exact_counts_lookup. destruct (decide _) as [Hi|Hi].
  - rewrite Z2Nat.id by done. rewrite Z.ltb_lt. split; [intros ?|intros (_ & _ & ?)]; lia.
  - split; [done|]. intros (_ & ? & _). lia.
Qed.

Lemma counters_transfer g1 r i p sub :
  raid_subgroup_counts g1 = Some (exact_counts r) ->
  r !! i = Some p -> p.2 <> sub ->
  0 <= p.2 < Z.of_nat MAX_RAID_SUBGROUPS_LIKE_CPP ->
  0 <= sub < Z.of_nat MAX_RAID_SUBGROUPS_LIKE_CPP ->
  (occupancy sub r < MAX_GROUP_SIZE_LIKE_CPP)%nat ->
  subgroup_counter_decrease_like_cpp p.2 (subgroup_counter_increase_like_cpp sub g1).1
  = g1 <| raid_subgroup_counts := Some (exact_counts (<[i := (p.1, sub)]> r)) |>.
Proof.
  intros Ec E Hne Hp Hsub Hocc. rewrite <- counters_moved by done.
  unfold subgroup_counter_increase_like_cpp. rewrite Ec, exact_counts_at by done. cbn [fst].
  unfold subgroup_counter_decrease_like_cpp. ssimpl_goal.
  rewrite list_lookup_insert_ne by lia. by rewrite exact_counts_at.
Qed.

(** A roster with one member moved keeps the invariant. *)
Lemma wf_moved g g' i p sub :
  group_wf g -> is_raid_group g = true -> roster g !! i = Some p ->
  0 <= sub < Z.of_nat MAX_RAID_SUBGROUPS_LIKE_CPP ->
  (occupancy sub (roster g) < MAX_GROUP_SIZE_LIKE_CPP)%nat ->
  members g' = members g -> is_raid_group g' = true ->
  roster g' = <[i := (p.1, sub)]> (roster g) ->
  raid_subgroup_counts g' = Some (exact_counts (roster g')) ->
  group_wf g'.
Proof.
  intros W Hraid E Hsub Hocc Em Hraid' Er Ec. split.
  - rewrite Em, Er, (fst_insert_same _ i p) by done. apply (wf_members g W).
  - rewrite Em. apply (wf_nodup g W).
  - rewrite Er. apply Forall_insert; [apply (wf_subgroup g W)|done].
  - intros j. rewrite Er. pose proof (occupancy_insert j i (roster g) p (p.1, sub) E) as Ho.
    pose proof (wf_room g W j). destruct (decide (j = sub)) as [->|].
    + rewrite (sits_self sub (p.1, sub)) in Ho by done. lia.
    + rewrite (sits_other j (p.1, sub)) in Ho by (simpl; congruence). lia.
  - pose proof (wf_size g W) as Hz. unfold max_members in *. by rewrite Em, Hraid', Hraid in *.
  - by rewrite Hraid'.
Qed.

(** [change_member_group_like_cpp] succeeds exactly on a member of a raid who
    sits elsewhere than in the wanted subgroup, which has room. *)
Lemma change_member_group_moves guid sub g i s :
  group_wf g -> 0 <= sub ->
  is_raid_group g = true -> has_free_slot_sub_group_like_cpp sub g = true ->
  slot_position guid g = Some i -> member_slots g !! i = Some s -> subgroup s <> sub ->
  exists g', change_member_group_like_cpp guid sub g = (g', true) /\ group_step g g' /\
    members g' = members g /\ roster g' = <[i := (guid, sub)]> (roster g).
Proof.
  intros W H0 Hraid Hfree Hi Hs Hne.
  destruct (free_slot_spec sub g W H0) as [Hf _]. destruct (Hf Hfree) as (_ & Hsub & Hocc).
  destruct (slot_position_Some guid g i Hi) as (s' & Hs' & Hguid).
  rewrite Hs in Hs'. injection Hs' as <-.
  pose proof (wf_place g i s W Hs) as Hp. pose proof (roster_lookup g i s Hs) as Hr.
  unfold change_member_group_like_cpp. rewrite Hraid, Hfree, Hi, Hs. cbn [negb].
  replace (MAX_RAID_SUBGROUPS_LIKE_CPP <=? Z.to_nat sub)%nat with false
    by (symmetry; apply Nat.leb_gt; lia).
  replace (subgroup s =? sub) with false by (symmetry; by apply Z.eqb_neq).
  set (g1 := update_slot i (fun s => s <| subgroup := sub |>) g).
  assert (Er : roster g1 = <[i := (guid, sub)]> (roster g)).
  { subst g1. rewrite (roster_alter _ i g s Hs). by rewrite <- Hguid. }
  assert (Ec : raid_subgroup_counts g1 = Some (exact_counts (roster g))).
  { change (raid_subgroup_counts g = Some (exact_counts (roster g))).
    by rewrite (wf_counts g W), Hraid. }
  unfold slot_place in Hr. rewrite Hguid in Hr.
  pose proof (counters_transfer g1 (roster g) i (guid, subgroup s) sub Ec Hr Hne Hp Hsub Hocc)
    as Et. cbn [fst snd] in Et. rewrite Et.
  eexists. split; [reflexivity|]. split; [|split; [done|exact Er]].
  split; [done..|]. intros _.
  apply (wf_moved g _ i (guid, subgroup s) sub); try done.
  - change (Some (exact_counts (<[i := (guid, sub)]> (roster g))) = Some (exact_counts (roster g1))).
    by rewrite Er.
Qed.

(** Counter updates touch nothing but the counters. *)
Lemma counter_increase_only i g :
  exists c, (subgroup_counter_increase_like_cpp i g).1 = g <| raid_subgroup_counts := c |>.
Proof.
  unfold subgroup_counter_increase_like_cpp. destruct g as [? ? ? ? ? ? ? ? ? ? ? ? ? ? ? ? ? ? ? c].
  ssimpl_goal. destruct c as [cs|]; [destruct (cs !! Z.to_nat i)|]; eexists; reflexivity.
Qed.

Lemma counter_decrease_only i g :
  exists c, subgroup_counter_decrease_like_cpp i g = g <| raid_subgroup_counts := c |>.
Proof.
  unfold subgroup_counter_decrease_like_cpp. destruct g as [? ? ? ? ? ? ? ? ? ? ? ? ? ? ? ? ? ? ? c].
  ssimpl_goal. destruct c as [cs|]; [destruct (cs !! Z.to_nat i)|]; eexists; reflexivity.
Qed.

Lemma change_member_group_step guid sub g :
  0 <= sub -> group_step g (change_member_group_like_cpp guid sub g).1.
Proof.
  intros H0.
  assert (group_wf g -> group_wf (change_member_group_like_cpp guid sub g).1) as Hwf.
  { intros W. unfold change_member_group_like_cpp.
    destruct (is_raid_group g) eqn:Hraid; [|done]. cbn [negb].
    destruct (_ <=? Z.to_nat sub)%nat eqn:Hn; [done|].
    destruct (has_free_slot_sub_group_like_cpp sub g) eqn:Hfree; [|done]. cbn [negb].
    destruct (slot_position guid g) as [i|] eqn:Hi; [|done].
    destruct (member_slots g !! i) as [s|] eqn:Hs; [|done].
    destruct (subgroup s =? sub) eqn:Hne; [done|]. apply Z.eqb_neq in Hne.
    destruct (change_member_group_moves guid sub g i s W H0 Hraid Hfree Hi Hs Hne)
      as (g' & E & Hstep & _).
    unfold change_member_group_like_cpp in E. rewrite Hraid, Hn, Hfree, Hi, Hs in E. cbn [negb] in E.
    rewrite (proj2 (Z.eqb_neq _ _) Hne) in E. injection E as E. cbn [fst]. rewrite E.
    by apply (step_wf _ _ Hstep). }
  unfold change_member_group_like_cpp in *.
  destruct (is_raid_group g); [|done]. cbn [negb] in *.
  destruct (_ <=? Z.to_nat sub)%nat; [done|].
  destruct (has_free_slot_sub_group_like_cpp sub g); [|done]. cbn [negb] in *.
  destruct (slot_position guid g) as [i|]; [|done].
  destruct (member_slots g !! i) as [s|]; [|done].
  destruct (subgroup s =? sub); [done|]. cbn [fst] in *.
  set (g1 := update_slot i _ g) in *.
  destruct (counter_increase_only sub g1) as [c1 E1]. rewrite E1 in *.
  destruct (counter_decrease_only (subgroup s) (g1 <| raid_subgroup_counts := c1 |>)) as [c2 E2].
  rewrite E2 in *. by split.
Qed.

(** ** Swapping two members *)
Lemma swap_members_step a b g : group_step g (swap_members_groups_like_cpp a b g).1.
Proof.
  unfold swap_members_groups_like_cpp. destruct (is_raid_group g) eqn:Hraid; [|done]. cbn [negb].
  destruct (slot_position a g) as [i|] eqn:Hi; [|done].
  destruct (slot_position b g) as [j|] eqn:Hj; [|done].
  destruct (Nat.eqb i j) eqn:Hij; [done|]. apply Nat.eqb_neq in Hij.
  destruct (member_slots g !! i) as [s1|] eqn:H1; [|done].
  destruct (member_slots g !! j) as [s2|] eqn:H2; [|done].
  destruct (subgroup s1 =? subgroup s2) eqn:Hsub; [done|]. cbn [fst].
  set (g1 := update_slot i _ g). set (g2 := update_slot j _ g1).
  assert (E1 : roster g1 = <[i := (slot_guid s1, subgroup s2)]> (roster g))
    by (unfold g1; by rewrite (roster_alter _ i g s1 H1)).
  assert (H2' : member_slots g1 !! j = Some s2).
  { unfold g1, update_slot. ssimpl_goal. rewrite list_lookup_alter_ne; done. }
  assert (E2 : roster g2 = <[j := (slot_guid s2, subgroup s1)]> (roster g1))
    by (unfold g2; by rewrite (roster_alter _ j g1 s2 H2')).
  pose proof (roster_lookup g i s1 H1) as R1. pose proof (roster_lookup g1 j s2 H2') as R2.
  assert (Eocc : forall k, occupancy k (roster g2) = occupancy k (roster g)).
  { intros k. pose proof (occupancy_insert k i _ _ (slot_guid s1, subgroup s2) R1) as O1.
    pose proof (occupancy_insert k j _ _ (slot_guid s2, subgroup s1) R2) as O2.
    rewrite <- E1 in O1. rewrite <- E2 in O2. unfold sits in *. cbn [slot_place snd] in *. lia. }
  split; [done..|]. intros W.
  pose proof (wf_place g i s1 W H1) as P1. pose proof (wf_place g j s2 W H2) as P2.
  apply (step_wf g2 (bump g2)); [by apply core_step|]. split.
  - rewrite E2, (fst_insert_same _ j _ _ R2) by done. rewrite E1, (fst_insert_same _ i _ _ R1) by done.
    apply (wf_members g W).
  - apply (wf_nodup g W).
  - rewrite E2, E1. apply Forall_insert; [apply Forall_insert; [apply (wf_subgroup g W)|done]|done].
  - intros k. rewrite Eocc. apply (wf_room g W).
  - apply (wf_size g W).
  - rewrite (exact_counts_ext (roster g2) (roster g) Eocc). apply (wf_counts g W).
Qed.

(** ** Removal *)
Lemma drop_member_roster guid g :
  roster (drop_member guid g) = filter (fun p => p.1 <> guid) (roster g).
Proof.
  unfold roster, drop_member. ssimpl_goal. induction (member_slots g) as [|s l IH]; [done|].
  rewrite filter_cons. cbn [map]. rewrite filter_cons. cbn [slot_place fst].
  destruct (decide (slot_guid s <> guid)); cbn [map]; by rewrite IH.
Qed.

Lemma filter_fst (guid : ObjectGuid) (r : list place) :
  filter (fun m => m <> guid) r.*1 = (filter (fun p => p.1 <> guid) r).*1.
Proof.
  induction r as [|p r IH]; [done|]. rewrite fmap_cons, !filter_cons.
  destruct (decide (p.1 <> guid)); rewrite ?fmap_cons; by rewrite IH.
Qed.

Lemma occupancy_filter_le (P : place -> Prop) `{forall p, Decision (P p)} i r :
  (occupancy i (filter P r) <= occupancy i r)%nat.
Proof.
  induction r as [|p r IH]; [done|]. rewrite filter_cons.
  destruct (decide (P p)); rewrite !occupancy_cons; lia.
Qed.

(** Removing the one entry of [guid] takes one from its subgroup. *)
Lemma occupancy_filter guid p (r : list place) :
  NoDup r.*1 -> p ∈ r -> p.1 = guid ->
  forall i, (occupancy i (filter (fun q => q.1 <> guid) r) + sits i p = occupancy i r)%nat.
Proof.
  induction r as [|q r IH]; [by intros _ ?%not_elem_of_nil|].
  rewrite fmap_cons. intros [Hq Hnd]%NoDup_cons Hp Hg i. rewrite filter_cons, occupancy_cons.
  apply elem_of_cons in Hp as [->|Hp].
  - rewrite decide_False by (intros HH; by apply HH).
    rewrite filter_all; [lia|]. apply Forall_forall. intros x Hx Ex.
    apply Hq. rewrite Hg, <- Ex. apply list_elem_of_fmap. eauto.
  - rewrite decide_True.
    + rewrite occupancy_cons, <- (IH Hnd Hp Hg i). lia.
    + intros HH. apply Hq. rewrite HH, <- Hg. apply list_elem_of_fmap. eauto.
Qed.

Lemma member_slot_Some guid g s :
  member_slot_like_cpp guid g = Some s -> s ∈ member_slots g /\ slot_guid s = guid.
Proof. unfold member_slot_like_cpp. intros E. by apply find_first_Some in E. Qed.

Lemma member_slot_place guid g s :
  member_slot_like_cpp guid g = Some s -> (guid, subgroup s) ∈ roster g.
Proof.
  intros [Hs <-]%member_slot_Some. unfold roster. apply list_elem_of_fmap. by exists s.
Qed.

Lemma member_slot_None guid g :
  member_slot_like_cpp guid g = None -> Forall (fun p => p.1 <> guid) (roster g).
Proof.
  unfold member_slot_like_cpp, roster. intros E. apply find_first_None in E. by rewrite Forall_map.
Qed.

Lemma member_slot_is_Some guid g :
  group_wf g -> is_Some (member_slot_like_cpp guid g) <-> guid ∈ members g.
Proof.
  intros W. rewrite (wf_members g W). split.
  - intros [s Hs]. apply list_elem_of_fmap. exists (guid, subgroup s).
    split; [done|by apply member_slot_place].
  - intros Hin. destruct (member_slot_like_cpp guid g) eqn:E; [done|].
    apply member_slot_None in E. rewrite Forall_forall in E.
    apply list_elem_of_fmap in Hin as (p & -> & Hp). by destruct (E p Hp).
Qed.

Lemma release_counter_only guid g :
  exists c, release_counter guid g = g <| raid_subgroup_counts := c |>.
Proof.
  unfold release_counter. destruct (member_slot_like_cpp guid g); [apply counter_decrease_only|].
  exists (raid_subgroup_counts g). by destruct g.
Qed.

Lemma release_counter_counts guid g :
  group_wf g ->
  raid_subgroup_counts (release_counter guid g) =
    if is_raid_group g then Some (exact_counts (filter (fun p => p.1 <> guid) (roster g)))
    else None.
Proof.
  intros W. unfold release_counter. pose proof (wf_counts g W) as Ec.
  destruct (member_slot_like_cpp guid g) as [s|] eqn:Es.
  - pose proof (member_slot_place guid g s Es) as Hp.
    assert (Hs : 0 <= subgroup s < Z.of_nat MAX_RAID_SUBGROUPS_LIKE_CPP).
    { pose proof (wf_subgroup g W) as H. rewrite Forall_forall in H. apply (H _ Hp). }
    assert (Hnd : NoDup (roster g).*1) by (rewrite <- (wf_members g W); apply (wf_nodup g W)).
    pose proof (occupancy_filter guid _ (roster g) Hnd Hp eq_refl) as Ho.
    unfold subgroup_counter_decrease_like_cpp. rewrite Ec.
    destruct (is_raid_group g); [|done].
    rewrite exact_counts_at by done. ssimpl_goal. f_equal.
    apply exact_counts_update; [done| |].
    + specialize (Ho (subgroup s)). rewrite sits_self in Ho by done. unfold sat_sub. lia.
    + intros j Hj. specialize (Ho j). rewrite sits_other in Ho by (simpl; congruence). lia.
  - apply member_slot_None in Es. rewrite (filter_all _ _ Es). done.
Qed.

(** The group without [guid]. *)
Lemma drop_member_step guid g : group_step g (drop_member guid (release_counter guid g)).
Proof.
  pose proof (release_counter_counts guid g) as Ec.
  destruct (release_counter_only guid g) as [c E]. rewrite E in Ec |- *.
  assert (Er : roster (drop_member guid (g <| raid_subgroup_counts := c |>))
               = filter (fun p => p.1 <> guid) (roster g))
    by (rewrite drop_member_roster; reflexivity).
  split; [done..| |].
  - intros x. unfold drop_member. ssimpl_goal. by intros [_ ?]%list_elem_of_filter.
  - intros W. specialize (Ec W). split.
    + rewrite Er, <- filter_fst, <- (wf_members g W). done.
    + apply NoDup_filter, (wf_nodup g W).
    + rewrite Er. apply Forall_forall. intros p [_ Hp]%list_elem_of_filter.
      pose proof (wf_subgroup g W) as H. rewrite Forall_forall in H. by apply H.
    + intros i. rewrite Er. etrans; [apply occupancy_filter_le|apply (wf_room g W)].
    + pose proof (wf_size g W) as Hz. unfold max_members in *.
      etrans; [apply length_filter|exact Hz].
    + rewrite Er. exact Ec.
Qed.

Lemma remove_member_step guid g : group_step g (remove_member guid g).
Proof.
  unfold remove_member. etrans; [apply drop_member_step|]. by apply core_step.
Qed.

Lemma remove_member_members guid g :
  members (remove_member guid g) = filter (fun m => m <> guid) (members g).
Proof. unfold remove_member. by destruct (release_counter_only guid g) as [c ->]. Qed.

Lemma remove_member_fields guid g :
  leader_guid (remove_member guid g) = leader_guid g /\
  group_flags (remove_member guid g) = group_flags g /\
  member_slots (remove_member guid g) = filter (fun s => slot_guid s <> guid) (member_slots g).
Proof. unfold remove_member. by destruct (release_counter_only guid g) as [c ->]. Qed.

(** ** Conversion *)
Lemma raid_bit_set x : has_flag (set_flag x GROUP_FLAG_RAID_LIKE_CPP) GROUP_FLAG_RAID_LIKE_CPP = true.
Proof.
  unfold has_flag, set_flag. apply negb_true_iff, Z.eqb_neq. intros E.
  apply (f_equal (fun z => Z.testbit z 1)) in E. revert E.
  rewrite Z.land_spec, Z.lor_spec, Z.bits_0. by destruct (Z.testbit x 1).
Qed.

Lemma raid_bit_clear x :
  has_flag (clear_flag x GROUP_FLAG_RAID_LIKE_CPP) GROUP_FLAG_RAID_LIKE_CPP = false.
Proof.
  unfold has_flag, clear_flag. apply negb_false_iff, Z.eqb_eq.
  apply Z.bits_inj'. intros i Hi. rewrite Z.land_spec, Z.ldiff_spec, Z.bits_0.
  destruct (Z.testbit x i), (Z.testbit GROUP_FLAG_RAID_LIKE_CPP i); done.
Qed.

Lemma convert_to_raid_step g : group_step g (convert_to_raid_like_cpp g).
Proof.
  unfold convert_to_raid_like_cpp. destruct (is_raid_group g) eqn:Er; [done|]. cbn [negb].
  etrans; [|by apply core_step].
  split; [done..|]. intros [W1 W2 W3 W4 W5 W6].
  unfold init_raid_subgroups_counter_like_cpp. split; try done.
  - unfold max_members in *. unfold is_raid_group. ssimpl_goal. rewrite raid_bit_set.
    rewrite Er in W5. unfold MAX_RAID_SIZE_LIKE_CPP, MAX_GROUP_SIZE_LIKE_CPP in *. lia.
  - unfold is_raid_group. ssimpl_goal. rewrite raid_bit_set. f_equal.
    by apply (init_counts_exact (member_slots g)).
Qed.

Lemma convert_to_group_step g : group_step g (convert_to_group_like_cpp g).1.
Proof.
  unfold convert_to_group_like_cpp. destruct (5 <? length (members g))%nat eqn:E5; [done|].
  apply Nat.ltb_ge in E5. destruct (is_raid_group g) eqn:Er; [|done]. cbn [fst].
  etrans; [|by apply core_step].
  split; [done..|]. intros [W1 W2 W3 W4 W5 W6]. split; try done.
  - unfold max_members, is_raid_group. ssimpl_goal. by rewrite raid_bit_clear.
  - unfold is_raid_group. ssimpl_goal. by rewrite raid_bit_clear.
Qed.

(** ** Loading a member row *)
(** A row that fits: its subgroup exists and has room, and so has the group,
    once a previous entry of the same player is dropped. *)
Record row_fits (guid : ObjectGuid) (sub : Z) (g : GroupInfo) : Prop :=
  { fits_range : 0 <= sub < Z.of_nat MAX_RAID_SUBGROUPS_LIKE_CPP;
    fits_room : (occupancy sub (roster (drop_member guid (release_counter guid g)))
                 < MAX_GROUP_SIZE_LIKE_CPP)%nat;
    fits_size : is_full_like_cpp (drop_member guid (release_counter guid g)) = false }.

Lemma load_member_wf low mflags sub r c g :
  group_wf g -> row_fits (create_player 1 low) sub g ->
  0 <= low <= i64_max ->
  exists g', load_member_from_db_like_cpp low mflags sub r (Some c) g = (g', true) /\
    group_wf g' /\
    members g' = filter (fun m => m <> create_player 1 low) (members g) ++ [create_player 1 low].
Proof.
  intros W [Hr Ho Hf] Hlow. unfold load_member_from_db_like_cpp, i64_try_from.
  replace (low <=? i64_max) with true by (symmetry; apply Z.leb_le; lia).
  replace (MAX_RAID_SUBGROUPS_LIKE_CPP <=? Z.to_nat sub)%nat with false
    by (symmetry; apply Nat.leb_gt; lia). rewrite andb_false_r.
  set (guid := create_player 1 low) in *.
  set (g1 := drop_member guid (release_counter guid g)) in *.
  assert (W1 : group_wf g1) by (by apply (step_wf _ _ (drop_member_step guid g))).
  set (r' := roster g1 ++ [(guid, sub)]).
  rewrite (counter_increase_spec sub g1 W1 Hr r').
  2: { unfold r'. rewrite occupancy_snoc, sits_self by done. lia. }
  2: { intros j Hj. unfold r'. rewrite occupancy_snoc, sits_other by (simpl; congruence). lia. }
  eexists. split; [reflexivity|]. split.
  - assert (guid ∉ members g1) as Hnin.
    { unfold g1, drop_member. ssimpl_goal. intros [? _]%list_elem_of_filter. done. }
    eapply (wf_snoc g1 _ guid sub W1 Hnin Hf Hr Ho); try done.
    + unfold roster. ssimpl_goal. apply map_app.
    + unfold r', roster. ssimpl_goal. by rewrite map_app.
  - unfold g1. destruct (release_counter_only guid g) as [cc ->]. done.
Qed.

#[export] Hint Resolve group_step_refl remove_member_step convert_to_raid_step
  convert_to_group_step swap_members_step change_member_group_step : core_db.
