(* ===== verification/GroupSystem.v ===== *)
(** The group subsystem as a transition system: its operations over the
    registry, the identifier allocators and the pending invites, the invariant
    of its reachable states, and at the end concrete runs for the witnesses. *)
From S2P Require Import Prelude Guid GroupModel GroupMembership GroupSettings.
From S2P Require Import GroupRegistry GroupInvites GroupInvariant.

(** * The system *)
Record System : Type := mkSystem { world : GroupWorld; invites : PendingInvites }.

#[export] Instance eta_system : Eta System := fun s => mkSystem (world s) (invites s).

(** The production entry points with their arguments.  The database load and
    the two fixture boundaries ([register_group], [seed_invite]) are start-up
    or test code and are not steps. *)
Inductive GroupOp : Type :=
| OpConvert (guid : Z) (actor : ObjectGuid) (raid : bool)
| OpChangeSubgroup (guid : Z) (actor member : ObjectGuid) (sub : Z)
| OpSwapSubgroups (guid : Z) (actor first second : ObjectGuid)
| OpChangeLeader (guid : Z) (actor new_leader : ObjectGuid)
| OpMemberFlag (guid : Z) (actor member : ObjectGuid) (apply : bool) (flag : Z)
| OpEveryoneAssistant (guid : Z) (actor : ObjectGuid) (apply : bool)
| OpAssignment (guid : Z) (actor member : ObjectGuid) (assignment : Z) (apply : bool)
| OpLfgRole (guid : Z) (member : ObjectGuid) (role : Z)
| OpRemove (guid : Z) (member : ObjectGuid) (kind : GroupMemberRemovalKindLikeCpp)
    (connected : list ObjectGuid)
| OpTargetIcon (guid : Z) (actor : ObjectGuid) (symbol : Z) (target : ObjectGuid)
| OpDeleteMarker (guid : Z) (actor : ObjectGuid) (marker : Z)
| OpAddMarker (guid : Z) (actor : ObjectGuid) (marker map_id : Z) (position : Position)
    (transport : ObjectGuid)
| OpRecentInstance (guid map_id : Z) (owner : ObjectGuid) (instance : Z)
| OpLinkInstance (guid map_id instance : Z)
| OpUnlinkInstance (guid map_id instance : Z)
| OpInstanceReset (guid map_id : Z) (result : GroupInstanceResetResultLikeCpp)
    (method : GroupInstanceResetMethodLikeCpp)
| OpDifficulty (guid : Z) (actor : ObjectGuid) (difficulty : Z) (kind : GroupDifficultyKindLikeCpp)
| OpAdvanceLooter (guid : Z) (eligible : list ObjectGuid)
| OpStartReadyCheck (guid : Z) (actor : ObjectGuid) (connected : list ObjectGuid)
| OpRespondReadyCheck (guid : Z) (member : ObjectGuid) (ready : bool)
| OpTick (diff_ms : Z)
| OpUnregister (guid : Z)
| OpCreateInvite (inviter invitee : ObjectGuid) (claimed : option Z) (lookup new : Z)
| OpCancelInvite (invitee : ObjectGuid) (expected : PendingInviteLikeCpp)
| OpReplaceInvite (invitee : ObjectGuid) (expected replacement : PendingInviteLikeCpp)
| OpCancelPendingGroup (expected : PendingInviteLikeCpp)
| OpDeclineInvite (invitee : ObjectGuid) (party_index : option Z)
| OpAcceptInvite (invitee : ObjectGuid) (party_index : option Z)
    (available_leader : option ObjectGuid).

Section System.
Context `{OG : !IterOrder Z} `{OI : !IterOrder ObjectGuid}.

Definition on_world {A} (r : GroupWorld * A) (s : System) : System := s <| world := r.1 |>.
Definition on_invites {A} (r : PendingInvites * A) (s : System) : System := s <| invites := r.1 |>.

Definition exec (op : GroupOp) (s : System) : System :=
  let w := world s in let p := invites s in
  match op with
  | OpConvert guid actor raid => on_world (convert_group_like_cpp guid actor raid w) s
  | OpChangeSubgroup guid actor member sub =>
      on_world (change_member_subgroup_like_cpp guid actor member sub w) s
  | OpSwapSubgroups guid actor a b => on_world (swap_member_subgroups_like_cpp guid actor a b w) s
  | OpChangeLeader guid actor l => on_world (change_leader_transition_like_cpp guid actor l w) s
  | OpMemberFlag guid actor member apply flag =>
      on_world (set_member_flag_transition_like_cpp guid actor member apply flag w) s
  | OpEveryoneAssistant guid actor apply =>
      on_world (set_everyone_assistant_transition_like_cpp guid actor apply w) s
  | OpAssignment guid actor member a apply =>
      on_world (set_party_assignment_transition_like_cpp guid actor member a apply w) s
  | OpLfgRole guid member role => on_world (set_lfg_role_transition_like_cpp guid member role w) s
  | OpRemove guid member kind connected =>
      on_world (remove_member_like_cpp guid member kind connected w) s
  | OpTargetIcon guid actor symbol target =>
      on_world (set_target_icon_transition_like_cpp guid actor symbol target w) s
  | OpDeleteMarker guid actor marker =>
      on_world (delete_raid_marker_transition_like_cpp guid actor marker w) s
  | OpAddMarker guid actor marker map_id pos transport =>
      on_world (add_raid_marker_transition_like_cpp guid actor marker map_id pos transport w) s
  | OpRecentInstance guid map_id owner instance =>
      on_world (set_recent_instance_transition_like_cpp guid map_id owner instance w) s
  | OpLinkInstance guid map_id instance =>
      on_world (link_owned_instance_transition_like_cpp guid map_id instance w) s
  | OpUnlinkInstance guid map_id instance =>
      on_world (unlink_owned_instance_transition_like_cpp guid map_id instance w) s
  | OpInstanceReset guid map_id result method =>
      on_world (apply_instance_reset_transition_like_cpp guid map_id result method w) s
  | OpDifficulty guid actor d kind =>
      on_world (set_difficulty_transition_like_cpp guid actor d kind w) s
  | OpAdvanceLooter guid eligible => on_world (advance_looter_transition_like_cpp guid eligible w) s
  | OpStartReadyCheck guid actor connected =>
      on_world (start_ready_check_transition_like_cpp guid actor connected w) s
  | OpRespondReadyCheck guid member ready =>
      on_world (respond_ready_check_transition_like_cpp guid member ready w) s
  | OpTick diff => on_world (tick_ready_checks_like_cpp diff w) s
  | OpUnregister guid => on_world (unregister_group_like_cpp guid w) s
  | OpCreateInvite inviter invitee claimed lookup new =>
      on_invites (create_invite_like_cpp inviter invitee claimed lookup new w p) s
  | OpCancelInvite invitee expected => on_invites (cancel_invite_like_cpp invitee expected p) s
  | OpReplaceInvite invitee expected replacement =>
      on_invites (replace_invite_like_cpp invitee expected replacement p) s
  | OpCancelPendingGroup expected => on_invites (cancel_pending_group_like_cpp expected p) s
  | OpDeclineInvite invitee index => on_invites (decline_invite_like_cpp invitee index p) s
  | OpAcceptInvite invitee index leader =>
      let '(w1, p1, _) := accept_invite_like_cpp invitee index leader w p in mkSystem w1 p1
  end.

(** Arguments of the source's types: a subgroup is a [u8]. *)
Definition op_typed (op : GroupOp) : Prop :=
  match op with OpChangeSubgroup _ _ _ sub => in_u 8 sub | _ => True end.

Definition initial_system : System := mkSystem new_registry ∅.

Inductive reachable : nat -> System -> Prop :=
| reach_initial : reachable 0 initial_system
| reach_step n s op : reachable n s -> op_typed op -> reachable (S n) (exec op s).

Definition run (ops : list GroupOp) (s : System) : System := foldl (fun s op => exec op s) s ops.
End System.

(** * The invariant of the registry and the allocators *)
Record world_inv (n : nat) (w : GroupWorld) : Prop :=
  { inv_group guid g : groups w !! guid = Some g ->
      group_guid g = guid /\ group_wf g /\ (2 <= length (members g))%nat /\
      guid < next_group_id (ids w) /\
      0 < db_store_id g < next_group_db_store_id (ids w) /\
      (db_store_id g ∉ freed_group_db_store_ids (ids w)) /\
      group_db_store (ids w) !! Z.to_nat (db_store_id g) = Some (Some guid);
    inv_store i guid : group_db_store (ids w) !! i = Some (Some guid) ->
      exists g, groups w !! guid = Some g /\ db_store_id g = Z.of_nat i;
    inv_freed : NoDup (freed_group_db_store_ids (ids w)) /\
      Forall (fun id => 0 < id < next_group_db_store_id (ids w)) (freed_group_db_store_ids (ids w));
    inv_next : 1 <= next_group_id (ids w) <= Z.of_nat n + 1 /\
      1 <= next_group_db_store_id (ids w) <= Z.of_nat n + 1 }.

(** An operation on one stored group that moves nobody in or out. *)
Definition group_keep (g g' : GroupInfo) : Prop := group_step g g' /\ members g' = members g.

#[export] Instance group_keep_preorder : PreOrder group_keep.
Proof.
  split; [by split|]. intros g1 g2 g3 [A1 A2] [B1 B2]. split; [by etrans|congruence].
Qed.

Lemma core_keep g g' : core g' = core g -> group_keep g g'.
Proof. intros E. split; [by apply core_step|]. by unfold core in E; simplify_eq. Qed.

Definition body_keeps {A} (b : body A) : Prop := forall g, group_keep g (b g).1.

Lemma keeps_bseq {A B} (m : body A) (k : A -> body B) :
  body_keeps m -> (forall a, body_keeps (k a)) -> body_keeps (bseq m k).
Proof.
  intros Hm Hk g. unfold bseq. specialize (Hm g). destruct (m g) as [g1 [a|e]]; simpl in *; [|done].
  etrans; [exact Hm|apply Hk].
Qed.

Lemma keeps_fail_if c e : body_keeps (fail_if c e).
Proof. by intros g. Qed.
Lemma keeps_read {A} (f : GroupInfo -> A) : body_keeps (read f).
Proof. by intros g. Qed.
Lemma keeps_outcome {T} (fs : T) l : body_keeps (outcome fs l).
Proof. by intros g. Qed.
Lemma keeps_bret {A} (a : A) : body_keeps (bret a).
Proof. by intros g. Qed.

Lemma keeps_call {A} (f : GroupInfo -> GroupInfo * A) :
  (forall g, group_keep g (f g).1) -> body_keeps (call f).
Proof. intros Hf g. unfold call. specialize (Hf g). by destruct (f g). Qed.

Lemma keeps_call_ok_or {A} (f : GroupInfo -> GroupInfo * option A) e :
  (forall g, group_keep g (f g).1) -> body_keeps (call_ok_or f e).
Proof. intros Hf g. unfold call_ok_or. specialize (Hf g). by destruct (f g). Qed.

Lemma change_member_group_keep guid sub g :
  0 <= sub -> group_keep g (change_member_group_like_cpp guid sub g).1.
Proof.
  intros H0. split; [by apply change_member_group_step|].
  unfold change_member_group_like_cpp. branches; try done.
  destruct (counter_increase_only sub (update_slot n (fun s => s <| subgroup := sub |>) g)) as [c1 ->].
  match goal with |- context [subgroup_counter_decrease_like_cpp ?i ?h] =>
    destruct (counter_decrease_only i h) as [c2 ->] end. done.
Qed.

Lemma swap_members_keep a b g : group_keep g (swap_members_groups_like_cpp a b g).1.
Proof.
  split; [apply swap_members_step|]. unfold swap_members_groups_like_cpp. by branches.
Qed.

Lemma convert_to_raid_keep g : group_keep g (convert_to_raid_like_cpp g).
Proof.
  split; [apply convert_to_raid_step|]. unfold convert_to_raid_like_cpp. by branches.
Qed.

Lemma convert_to_group_keep g : group_keep g (convert_to_group_like_cpp g).1.
Proof.
  split; [apply convert_to_group_step|]. unfold convert_to_group_like_cpp. by branches.
Qed.

#[export] Hint Resolve keeps_bseq keeps_fail_if keeps_read keeps_outcome keeps_bret keeps_call
  keeps_call_ok_or core_keep change_member_group_keep swap_members_keep convert_to_raid_keep
  convert_to_group_keep : core_db.

Ltac keeps_body := repeat (apply keeps_bseq; [|intros]); eauto with core_db.

Lemma convert_keeps actor raid : body_keeps (convert_group_body actor raid).
Proof.
  unfold convert_group_body. keeps_body. destruct raid; [apply keeps_call; simpl|]; keeps_body.
Qed.

Lemma change_subgroup_keeps actor m sub :
  0 <= sub -> body_keeps (change_member_subgroup_body actor m sub).
Proof. intros. unfold change_member_subgroup_body. keeps_body. Qed.

Lemma swap_keeps actor a b : body_keeps (swap_member_subgroups_body actor a b).
Proof. unfold swap_member_subgroups_body. keeps_body. Qed.

Lemma leader_keeps actor l : body_keeps (change_leader_transition_body actor l).
Proof. unfold change_leader_transition_body. keeps_body. Qed.

Lemma member_flag_keeps actor m apply f : body_keeps (set_member_flag_transition_body actor m apply f).
Proof. unfold set_member_flag_transition_body. keeps_body. Qed.

Lemma everyone_keeps actor apply : body_keeps (set_everyone_assistant_transition_body actor apply).
Proof. unfold set_everyone_assistant_transition_body. keeps_body. Qed.

Lemma assignment_keeps actor m a apply :
  body_keeps (set_party_assignment_transition_body actor m a apply).
Proof.
  unfold set_party_assignment_transition_body. keeps_body. destruct (assignment_flag a); keeps_body.
Qed.

Lemma lfg_role_keeps m r : body_keeps (set_lfg_role_transition_body m r).
Proof. unfold set_lfg_role_transition_body. keeps_body. Qed.

Lemma target_icon_keeps actor s t : body_keeps (set_target_icon_transition_body actor s t).
Proof. unfold set_target_icon_transition_body. keeps_body. Qed.

Lemma delete_marker_keeps actor m : body_keeps (delete_raid_marker_transition_body actor m).
Proof. unfold delete_raid_marker_transition_body. keeps_body. Qed.

Lemma add_marker_keeps actor m i p t : body_keeps (add_raid_marker_transition_body actor m i p t).
Proof. unfold add_raid_marker_transition_body. keeps_body. Qed.

Lemma difficulty_keeps actor d k : body_keeps (set_difficulty_transition_body actor d k).
Proof.
  unfold set_difficulty_transition_body. keeps_body. apply keeps_call. intros g. apply core_keep.
  destruct k; unfold set_difficulty_of_kind, set_dungeon_difficulty_id_like_cpp,
    set_raid_difficulty_id_like_cpp, set_legacy_raid_difficulty_id_like_cpp; by destruct (_ =? _).
Qed.

Lemma start_ready_keeps actor c : body_keeps (start_ready_check_transition_body actor c).
Proof. unfold start_ready_check_transition_body. keeps_body. Qed.

Lemma respond_ready_keeps m r : body_keeps (respond_ready_check_transition_body m r).
Proof. unfold respond_ready_check_transition_body. keeps_body. Qed.

(** * The storage-id allocator *)
Lemma min_index_spec l :
  match min_index l with
  | Some (i, y) => l !! i = Some y /\ Forall (fun x => y <= x) l
  | None => l = []
  end.
Proof.
  induction l as [|x l IH]; [done|]. simpl. destruct (min_index l) as [[i y]|].
  - destruct IH as [IH1 IH2]. destruct (x <=? y) eqn:E.
    + apply Z.leb_le in E. split; [done|]. constructor; [lia|].
      eapply Forall_impl; [exact IH2|]. simpl. lia.
    + apply Z.leb_gt in E. split; [done|]. constructor; [lia|done].
  - subst. split; [done|]. by constructor.
Qed.

(** The ids in use stay below the next fresh one, and no freed id repeats. *)
Definition ids_ok (s : GroupIds) : Prop :=
  NoDup (freed_group_db_store_ids s) /\
  Forall (fun id => 0 < id < next_group_db_store_id s) (freed_group_db_store_ids s) /\
  1 <= next_group_db_store_id s < u32_max.

Lemma generate_db_spec s :
  ids_ok s ->
  exists s' id, generate_group_db_store_id_like_cpp s = (s', id) /\
    0 < id < next_group_db_store_id s' /\ (id ∉ freed_group_db_store_ids s') /\
    (id ∈ freed_group_db_store_ids s \/ id = next_group_db_store_id s) /\
    freed_group_db_store_ids s' ⊆ freed_group_db_store_ids s /\
    NoDup (freed_group_db_store_ids s') /\
    next_group_db_store_id s <= next_group_db_store_id s' <= next_group_db_store_id s + 1 /\
    group_db_store s' = group_db_store s /\ next_group_id s' = next_group_id s.
Proof.
  intros (Hnd & Hfr & Hnext). unfold generate_group_db_store_id_like_cpp.
  pose proof (min_index_spec (freed_group_db_store_ids s)) as Hm.
  destruct (min_index _) as [[i y]|].
  - destruct Hm as [Hi _]. destruct (swap_remove_spec i _ y Hi) as (l' & -> & Hperm).
    rewrite Hperm in Hnd, Hfr. apply NoDup_cons in Hnd as [Hy Hnd'].
    apply Forall_cons in Hfr as [Hy' Hfr']. eexists _, y. split; [reflexivity|]. ssimpl_goal.
    split; [done|]. split; [done|]. split; [left; rewrite Hperm; by left|].
    split; [intros z Hz; rewrite Hperm; by right|]. split; [done|]. split; [lia|done].
  - rewrite Hm in *. eexists _, _. split; [reflexivity|]. ssimpl_goal. rewrite Hm.
    unfold u32_max in Hnext. rewrite wrap_u_id by (unfold in_u; lia).
    split; [lia|]. split; [apply not_elem_of_nil|]. split; [by right|].
    split; [done|]. split; [constructor|]. split; [lia|done].
Qed.

(** Freeing an id in use. *)
Lemma free_db_spec id s :
  0 < id -> id ∉ freed_group_db_store_ids s ->
  free_group_db_store_id_like_cpp id s =
    mkIds (next_group_id s) (next_group_db_store_id s) (freed_group_db_store_ids s ++ [id])
      (<[Z.to_nat id := None]> (group_db_store s)).
Proof.
  intros Hid Hfree. unfold free_group_db_store_id_like_cpp.
  replace (id =? 0) with false by (symmetry; apply Z.eqb_neq; lia).
  cbv zeta. ssimpl_goal. by rewrite decide_False.
Qed.

Lemma register_db_lookup id guid s j :
  0 <= id ->
  mjoin (group_db_store (register_group_db_store_id_like_cpp id guid s) !! j) =
  if decide (j = Z.to_nat id) then Some guid else mjoin (group_db_store s !! j).
Proof.
  intros Hid. unfold register_group_db_store_id_like_cpp. cbv zeta. ssimpl_goal.
  set (l := group_db_store s). set (k := Z.to_nat id).
  destruct (length l <=? k)%nat eqn:E; [apply Nat.leb_le in E|apply Nat.leb_gt in E].
  - destruct (decide (j = k)) as [->|Hj].
    + rewrite list_lookup_insert_eq; [done|]. rewrite length_resize. lia.
    + rewrite list_lookup_insert_ne by done. destruct (decide (j < length l)%nat).
      * rewrite lookup_resize by lia. done.
      * rewrite (lookup_ge_None_2 l) by lia. destruct (decide (j < k)%nat).
        -- rewrite lookup_resize_new by lia. done.
        -- rewrite lookup_resize_old by lia. done.
  - destruct (decide (j = k)) as [->|Hj].
    + by rewrite list_lookup_insert_eq.
    + by rewrite list_lookup_insert_ne.
Qed.

Lemma register_db_ids id guid s :
  next_group_id (register_group_db_store_id_like_cpp id guid s) = next_group_id s /\
  next_group_db_store_id (register_group_db_store_id_like_cpp id guid s) = next_group_db_store_id s /\
  freed_group_db_store_ids (register_group_db_store_id_like_cpp id guid s)
    = freed_group_db_store_ids s.
Proof. done. Qed.

Lemma mjoin_lookup (l : list (option Z)) i v :
  mjoin (l !! i) = Some v <-> l !! i = Some (Some v).
Proof. destruct (l !! i) as [[x|]|]; simpl; split; congruence. Qed.

(** * The invariant is preserved *)
Lemma world_inv_mono n w : world_inv n w -> world_inv (S n) w.
Proof. intros [A B C D]. split; [done..|lia]. Qed.

Lemma keep_inv n w guid g g' :
  world_inv n w -> groups w !! guid = Some g -> group_step g g' ->
  (2 <= length (members g'))%nat ->
  world_inv n (w <| groups := <[guid := g']> (groups w) |>).
Proof.
  intros [A B C D] Hg [E1 E2 E3 E4 E5] Hlen. split; ssimpl_goal; [| |done..].
  - intros k h. destruct (decide (k = guid)) as [->|Hk].
    + rewrite lookup_insert_eq. intros [= <-].
      destruct (A guid g Hg) as (? & ? & ? & ? & ? & ? & ?). rewrite E1, E2. auto 10.
    + rewrite lookup_insert_ne by done. apply A.
  - intros i k Hi. destruct (B i k Hi) as (h & Hh & Hdb).
    destruct (decide (k = guid)) as [->|Hk].
    + rewrite lookup_insert_eq. exists g'. split; [done|]. congruence.
    + rewrite lookup_insert_ne by done. eauto.
Qed.

Lemma with_group_inv {A} n guid (b : body A) w :
  body_keeps b -> world_inv n w -> world_inv n (with_group guid b w).1.
Proof.
  intros Hb W. unfold with_group. destruct (groups w !! guid) as [g|] eqn:Hg; [|done].
  destruct (Hb g) as [Hs Hm]. destruct (b g) as [g' r]. simpl in *.
  eapply keep_inv; [done..|]. rewrite Hm. by apply (inv_group n w W guid g Hg).
Qed.

(** Taking a group out of the registry and freeing its storage id. *)
Lemma delete_inv n w guid g :
  world_inv n w -> groups w !! guid = Some g ->
  world_inv n (mkWorld (free_group_db_store_id_like_cpp (db_store_id g) (ids w))
                 (delete guid (groups w))).
Proof.
  intros [A B C D] Hg. destruct (A guid g Hg) as (E1 & E2 & E3 & E4 & E5 & E6 & E7).
  rewrite free_db_spec by (done || lia). split; ssimpl_goal.
  - intros k h [Hk Hh]%lookup_delete_Some.
    destruct (A k h Hh) as (F1 & F2 & F3 & F4 & F5 & F6 & F7).
    assert (Hdb : db_store_id h <> db_store_id g) by (intros Hdb; rewrite Hdb, E7 in F7; congruence).
    do 5 (split; [done|]). split.
    + intros [?|?%list_elem_of_singleton]%elem_of_app; [done|congruence].
    + rewrite list_lookup_insert_ne by lia. done.
  - intros i k Hi. destruct (decide (i = Z.to_nat (db_store_id g))) as [->|Hne].
    + rewrite list_lookup_insert_eq in Hi; [done|]. by apply lookup_lt_is_Some; rewrite E7.
    + rewrite list_lookup_insert_ne in Hi by done. destruct (B i k Hi) as (h & Hh & Hdb).
      exists h. split; [|done]. apply lookup_delete_Some. split; [|done].
      intros ->. rewrite Hg in Hh. injection Hh as ->. lia.
  - destruct C as [C1 C2]. split.
    + apply NoDup_app. split; [done|]. split; [|apply NoDup_singleton].
      by intros x Hx ->%list_elem_of_singleton.
    + apply Forall_app. split; [done|]. by apply Forall_singleton.
  - done.
Qed.

(** * Removal *)
(** The first reason to refuse a removal, in the order the code checks. *)
Definition first_reason (l : list (bool * GroupAuthorityErrorLikeCpp))
  : option GroupAuthorityErrorLikeCpp :=
  snd <$> find_first (fun c => fst c = true) l.

Definition removal_reasons (member : ObjectGuid) (kind : GroupMemberRemovalKindLikeCpp)
    (g : GroupInfo) : list (bool * GroupAuthorityErrorLikeCpp) :=
  match kind with
  | Leave => []
  | Kick actor in_bg loot_rolls in_combat =>
      if is_lfg_group_like_cpp g then
        [(lfg_kicks_left_like_cpp g =? 0, LfgBootLimit);
         ((length (members g) <=? 3)%nat, LfgBootTooFewPlayers);
         (bool_decide ((lfg_db_state g ≫= lfg_state) = Some LFG_STATE_FINISHED_DUNGEON_LIKE_CPP),
          LfgBootDungeonComplete);
         (loot_rolls, LfgBootLootRolls);
         (in_combat, LfgBootInCombat)]
      else
        [(negb (bool_decide (leader_guid g = actor)) && negb (is_assistant_like_cpp actor g),
          NotLeaderOrAssistant);
         (in_bg, InviteRestricted);
         (bool_decide (leader_guid g = member), TargetIsLeader)]
  end
  ++ [(negb (bool_decide (member ∈ members g)), MissingMember);
      (match kind with Leave => false | _ => is_lfg_group_like_cpp g end, LfgKickOwnedByVote)].

Definition removal_error member kind g := first_reason (removal_reasons member kind g).

(** The first connected player that is still a member. *)
Definition successor (connected remaining : list ObjectGuid) : option ObjectGuid :=
  find_first (fun c => c ∈ remaining) connected.

Lemma first_reason_cons b e l :
  first_reason ((b, e) :: l) = if b : bool then Some e else first_reason l.
Proof.
  unfold first_reason, find_first. cbn [list_find fst]. destruct b.
  - by rewrite decide_True.
  - rewrite decide_False by done. by destruct (list_find _ l) as [[? ?]|].
Qed.

Lemma bseq_fail_if {A} c e (k : unit -> body A) g :
  bseq (fail_if c e) k g = if c g then (g, Err e) else k tt g.
Proof. unfold bseq, fail_if. by destruct (c g). Qed.

Lemma bseq_read {A B} (f : GroupInfo -> A) (k : A -> body B) g : bseq (read f) k g = k (f g) g.
Proof. done. Qed.

Lemma bseq_call {A B} (f : GroupInfo -> GroupInfo * A) (k : A -> body B) g :
  bseq (call f) k g = k (f g).2 (f g).1.
Proof. unfold bseq, call. by destruct (f g). Qed.

(** The checks of [remove_member_like_cpp] as one table, before anything
    mutates. *)
Lemma removal_checks member kind {A} (k : body A) g :
  (step! _ := kick_guard member kind in
   step! _ := fail_if (not_member member) MissingMember in
   step! _ := fail_if (fun g => is_kick kind && is_lfg_group_like_cpp g) LfgKickOwnedByVote in k) g
  = match removal_error member kind g with Some e => (g, Err e) | None => k g end.
Proof.
  unfold removal_error, removal_reasons. destruct kind as [|actor bg rolls combat].
  - cbn [app]. rewrite !first_reason_cons. unfold bseq at 1, kick_guard, bret.
    rewrite !bseq_fail_if. unfold not_member. by destruct (negb _).
  - unfold bseq at 1, kick_guard. destruct (is_lfg_group_like_cpp g) eqn:Elfg.
    + rewrite !bseq_fail_if. cbn [app]. rewrite !first_reason_cons.
      unfold LFG_GROUP_KICK_VOTES_NEEDED_LIKE_CPP.
      repeat match goal with |- context [if ?b then (g, Err _) else _] => destruct b; [done|] end.
      unfold fail_if at 1. destruct combat; [done|]. rewrite !bseq_fail_if, Elfg. unfold not_member.
      by destruct (negb _).
    + rewrite !bseq_fail_if. cbn [app]. rewrite !first_reason_cons.
      unfold not_leader_or_assistant, is_leader_like_cpp.
      destruct (negb (bool_decide (leader_guid g = actor)) && _); [done|].
      destruct bg; [done|]. unfold fail_if at 1.
      destruct (bool_decide (leader_guid g = member)); [done|].
      rewrite !bseq_fail_if, Elfg. unfold not_member. by destruct (negb _).
Qed.

(** Promoting a member: it leads, without the assistant flag. *)
Lemma change_leader_member l g :
  group_wf g -> l ∈ members g ->
  exists g' f, change_leader_like_cpp l g = (g', Some f) /\ group_keep g g' /\ leader_guid g' = l.
Proof.
  intros W Hl. apply (slot_position_members l g W) in Hl as [i Hi].
  destruct (slot_position_Some l g i Hi) as (s & Hs & _).
  pose proof (change_leader_core l g) as Ec. unfold change_leader_like_cpp in *.
  rewrite Hi, Hs in *. eexists _, _. split; [reflexivity|]. split; [by apply core_keep|].
  by destruct (_ || _).
Qed.

Lemma remove_member_body_spec member kind connected g :
  group_wf g ->
  match removal_error member kind g with
  | Some e => remove_member_body member kind connected g = (g, Err e)
  | None =>
      exists g', group_step g g' /\
        members g' = filter (fun m => m <> member) (members g) /\
        let is_disbanded := (length (members g') <? 2)%nat in
        let new_leader := if negb is_disbanded && bool_decide (leader_guid g = member)
                          then successor connected (members g') else None in
        leader_guid g' = default (leader_guid g) new_leader /\
        remove_member_body member kind connected g =
        (g', Ok (mkOutcome g'
           (mkRemoval member (db_store_id g) is_disbanded new_leader (members g'))
           (if is_disbanded
            then [DeleteGroup (db_store_id g); DeleteAllMembers (db_store_id g);
                  DeleteLfgData (db_store_id g)]
            else DeleteMember member ::
                 match new_leader with Some l => [UpdateLeader (db_store_id g) l] | None => [] end)))
  end.
Proof.
  intros W. unfold remove_member_body. rewrite removal_checks.
  destruct (removal_error member kind g) as [e|]; [done|].
  rewrite bseq_read, bseq_call, bseq_read. cbn [fst snd].
  pose proof (remove_member_step member g) as Hs.
  pose proof (remove_member_members member g) as Hm.
  destruct (remove_member_fields member g) as (Hl & _ & _).
  set (g1 := remove_member member g) in *. rewrite (step_db _ _ Hs).
  pose proof (step_wf _ _ Hs W) as W1.
  assert (Eneg : (2 <=? length (members g1))%nat = negb (length (members g1) <? 2)%nat)
    by (by rewrite Nat.ltb_antisym, negb_involutive).
  unfold bseq at 1. rewrite Eneg.
  destruct (negb (length (members g1) <? 2)%nat && bool_decide (leader_guid g = member)) eqn:Ec.
  - destruct (find_first _ connected) as [c|] eqn:Ef.
    + apply find_first_Some in Ef as Hin. destruct Hin as [_ Hin].
      destruct (change_leader_member c g1 W1 Hin) as (g2 & f & -> & [Hs2 Hm2] & Hl2).
      exists g2. split; [by etrans|]. rewrite Hm2. split; [done|]. cbv zeta.
      rewrite Ec. unfold successor. rewrite Ef. split; [done|].
      rewrite !bseq_read. unfold outcome. by rewrite Hm2.
    + exists g1. split; [done|]. split; [done|]. cbv zeta. rewrite Ec. unfold successor. rewrite Ef.
      by split.
  - exists g1. split; [done|]. split; [done|]. cbv zeta. rewrite Ec. by split.
Qed.

Lemma remove_member_inv n guid member kind connected w :
  world_inv n w -> world_inv n (remove_member_like_cpp guid member kind connected w).1.
Proof.
  intros W. unfold remove_member_like_cpp, with_group.
  destruct (groups w !! guid) as [g|] eqn:Hg; [|done].
  destruct (inv_group n w W guid g Hg) as (_ & Wg & _).
  pose proof (remove_member_body_spec member kind connected g Wg) as H.
  destruct (removal_error member kind g) as [e|].
  - rewrite H. eapply keep_inv; [done..|by apply (inv_group n w W guid g Hg)].
  - destruct H as (g' & Hs & Hm & Hl & ->). cbn [facts disbanded outcome_group].
    destruct (length (members g') <? 2)%nat eqn:Ed.
    + ssimpl_goal. rewrite delete_insert_eq, (step_db _ _ Hs). by eapply delete_inv.
    + eapply keep_inv; [done..|]. by apply Nat.ltb_ge in Ed.
Qed.

(** * Joining and creating *)
(** A new group of its leader and one more player. *)
Lemma group_new_wf leader s :
  let g := (group_new leader s).2 in
  group_wf g /\ members g = [leader] /\ is_raid_group g = false /\ is_full_like_cpp g = false.
Proof.
  unfold group_new, generate_group_id_like_cpp.
  destruct (generate_group_db_store_id_like_cpp _) as [s2 db]. cbn [snd]. split; [|done]. split.
  - done.
  - apply NoDup_singleton.
  - apply Forall_singleton. by split.
  - intros i. etrans; [apply occupancy_le|]. apply Nat.leb_le. reflexivity.
  - apply Nat.leb_le. reflexivity.
  - done.
Qed.

Lemma add_member_sub x g g' : group_wf g -> x ∉ members g -> is_full_like_cpp g = false ->
  (add_member x g).1 = g' ->
  (add_member x g).2 = true /\ group_wf g' /\ members g' = members g ++ [x] /\
  group_guid g' = group_guid g /\ db_store_id g' = db_store_id g /\
  group_category g' = group_category g /\ leader_guid g' = leader_guid g.
Proof.
  intros W Hx Hf <-. destruct (add_member_wf g x W Hx Hf) as (g' & sub & E & W' & _ & _ & _ & Eg).
  rewrite E. cbn [fst snd]. split; [done|]. split; [done|]. by rewrite Eg.
Qed.

(** What [group_new] draws from the allocators. *)
Lemma group_new_ids leader s :
  ids_ok s -> 1 <= next_group_id s < u32_max ->
  let g := (group_new leader s).2 in let s' := (group_new leader s).1 in
  group_guid g = next_group_id s /\
  0 < db_store_id g < next_group_db_store_id s' /\
  (db_store_id g ∉ freed_group_db_store_ids s') /\
  (db_store_id g ∈ freed_group_db_store_ids s \/ db_store_id g = next_group_db_store_id s) /\
  freed_group_db_store_ids s' ⊆ freed_group_db_store_ids s /\
  NoDup (freed_group_db_store_ids s') /\
  next_group_db_store_id s <= next_group_db_store_id s' <= next_group_db_store_id s + 1 /\
  group_db_store s' = group_db_store s /\ next_group_id s' = next_group_id s + 1.
Proof.
  intros Hok Hn. unfold group_new, generate_group_id_like_cpp.
  set (s1 := s <| next_group_id := _ |>).
  destruct (generate_db_spec s1) as (s2 & id & -> & H1 & H2 & H3 & H4 & H5 & H6 & H7 & H8).
  { exact Hok. }
  cbn [fst snd db_store_id group_guid]. rewrite H8. subst s1. ssimpl_goal.
  unfold u32_max in Hn. rewrite wrap_u_id by (unfold in_u; lia). auto 10.
Qed.

Lemma create_inv n w leader g :
  world_inv n w -> Z.of_nat n + 1 < u32_max ->
  let g0 := (group_new leader (ids w)).2 in let ids1 := (group_new leader (ids w)).1 in
  group_wf g -> (2 <= length (members g))%nat ->
  group_guid g = group_guid g0 -> db_store_id g = db_store_id g0 ->
  world_inv (S n) (mkWorld (register_group_db_store_id_like_cpp (db_store_id g) (group_guid g) ids1)
                     (<[group_guid g := g]> (groups w))).
Proof.
  intros [A B [C1 C2] [D1 D2]] Hn g0 ids1 Wg Hlen Eguid Edb.
  assert (Hok : ids_ok (ids w)) by (split; [done|]; split; [done|]; unfold u32_max in *; lia).
  destruct (group_new_ids leader (ids w) Hok) as (N1 & N2 & N3 & N4 & N5 & N6 & N7 & N8 & N9);
    [unfold u32_max in *; lia|].
  fold g0 ids1 in N1, N2, N3, N4, N5, N6, N7, N8, N9. rewrite <- Edb in N2, N3, N4.
  pose proof (register_db_lookup (db_store_id g) (group_guid g) ids1) as Hreg.
  split; cbn [ids groups].
  - intros k h. destruct (decide (k = group_guid g)) as [->|Hk].
    + rewrite lookup_insert_eq. intros [= <-].
      destruct (register_db_ids (db_store_id g) (group_guid g) ids1) as (-> & -> & ->).
      split; [done|]. split; [done|]. split; [done|]. split; [lia|]. split; [done|].
      split; [done|]. apply mjoin_lookup. rewrite Hreg by lia. by rewrite decide_True.
    + rewrite lookup_insert_ne by done. intros Hh.
      destruct (A k h Hh) as (F1 & F2 & F3 & F4 & F5 & F6 & F7).
      destruct (register_db_ids (db_store_id g) (group_guid g) ids1) as (-> & -> & ->).
      assert (db_store_id h <> db_store_id g) as Hne.
      { intros E. destruct N4 as [N4|N4]; [by rewrite E in F6|lia]. }
      split; [done|]. split; [done|]. split; [done|]. split; [lia|]. split; [lia|].
      split; [intros Hin; by apply F6, N5|].
      apply mjoin_lookup. rewrite Hreg by lia. rewrite decide_False by lia.
      rewrite N8. by apply mjoin_lookup.
  - intros i k. rewrite <- mjoin_lookup, Hreg by lia. destruct (decide _) as [->|Hi].
    + intros [= <-]. exists g. rewrite lookup_insert_eq. split; [done|lia].
    + rewrite N8, mjoin_lookup. intros Hk. destruct (B i k Hk) as (h & Hh & Hdb).
      exists h. split; [|done]. rewrite lookup_insert_ne; [done|].
      destruct (A k h Hh) as (_ & _ & _ & F4 & _). lia.
  - destruct (register_db_ids (db_store_id g) (group_guid g) ids1) as (_ & -> & ->).
    split; [done|]. apply Forall_forall. intros x Hx. apply N5 in Hx.
    rewrite Forall_forall in C2. specialize (C2 x Hx). lia.
  - destruct (register_db_ids (db_store_id g) (group_guid g) ids1) as (-> & -> & _). lia.
Qed.

Section Accept.
Context `{OI : !IterOrder ObjectGuid}.

Lemma join_existing_inv n invitee invite guid w p :
  world_inv n w -> world_inv n (join_existing invitee invite guid w p).1.1.
Proof.
  intros W. unfold join_existing. destruct (groups w !! guid) as [g|] eqn:Hg; [|done].
  destruct (negb _); [done|]. destruct (is_full_like_cpp g) eqn:Hf; [done|].
  destruct (bool_decide _) eqn:Hm; [done|]. apply bool_decide_eq_false in Hm.
  destruct (inv_group n w W guid g Hg) as (_ & Wg & Hlen & _).
  destruct (add_member invitee g) as [g1 ok] eqn:Ea.
  destruct (add_member_sub invitee g g1 Wg Hm Hf) as (Eok & Wg1 & Em & E1 & E2 & E3 & _);
    [by rewrite Ea|]. rewrite Ea in Eok. cbn in Eok. subst ok. cbn [negb fst].
  assert (Hkeep : forall w', ids w' = ids w -> groups w' = <[guid := g1]> (groups w) ->
    world_inv n w'); [|by apply Hkeep].
  intros w' Eids Egr. destruct W as [A B C D]. split; rewrite ?Eids, ?Egr; [| |done..].
  - intros k h. destruct (decide (k = guid)) as [->|Hk].
    + rewrite lookup_insert_eq. intros [= <-].
      destruct (A guid g Hg) as (F1 & _ & _ & F). rewrite E1, E2, Em, length_app.
      split; [done|]. split; [done|]. split; [lia|exact F].
    + rewrite lookup_insert_ne by done. apply A.
  - intros i k Hi. destruct (B i k Hi) as (h & Hh & Hdb). destruct (decide (k = guid)) as [->|Hk].
    + rewrite lookup_insert_eq. exists g1. split; [done|]. congruence.
    + rewrite lookup_insert_ne by done. eauto.
Qed.

Lemma create_from_invite_inv n invitee invite leader w p :
  world_inv n w -> Z.of_nat n + 1 < u32_max -> invite_leader_guid invite <> invitee ->
  world_inv (S n) (create_from_invite invitee invite leader w p).1.1.
Proof.
  intros W Hn Hne. unfold create_from_invite. destruct (negb _); [by apply world_inv_mono|].
  pose proof (create_inv n w (invite_leader_guid invite)) as Hc.
  destruct (group_new_wf (invite_leader_guid invite) (ids w)) as (Wg0 & Em0 & _ & Hf0).
  destruct (group_new (invite_leader_guid invite) (ids w)) as [ids1 g0]. cbn [fst snd] in *.
  destruct (add_member invitee g0) as [g ok] eqn:Ea.
  destruct (add_member_sub invitee g0 g Wg0) as (Eok & Wg & Em & E1 & E2 & _ & _).
  { rewrite Em0. by intros ->%list_elem_of_singleton. }
  { done. }
  { by rewrite Ea. }
  rewrite Ea in Eok. cbn in Eok. subst ok. cbn [negb fst].
  apply Hc; try done. rewrite Em, Em0. done.
Qed.

Lemma accept_invite_inv n invitee index leader w p :
  world_inv n w -> Z.of_nat n + 1 < u32_max ->
  world_inv (S n) (accept_invite_like_cpp invitee index leader w p).1.1.
Proof.
  intros W Hn. unfold accept_invite_like_cpp.
  destruct (p !! invitee) as [invite|]; [|by apply world_inv_mono].
  destruct (category_differs index invite); [by apply world_inv_mono|].
  destruct (bool_decide _) eqn:Hl; [by apply world_inv_mono|]. apply bool_decide_eq_false in Hl.
  destruct (invite_group_guid invite); [by apply world_inv_mono, join_existing_inv|].
  by apply create_from_invite_inv.
Qed.
End Accept.

Lemma tick_keys_inv n d ids0 keys m :
  world_inv n (mkWorld ids0 m) -> world_inv n (mkWorld ids0 (tick_keys d keys m).1).
Proof.
  revert m. induction keys as [|k keys IH]; intros m W; [done|]. cbn [tick_keys].
  destruct (m !! k) as [g|] eqn:Hg; [|by apply IH].
  pose proof (core_keep _ _ (update_ready_check_core d g)) as [Hs Hm].
  destruct (update_ready_check_like_cpp d g) as [g1 ev]. cbn [fst] in *.
  pose proof (keep_inv n (mkWorld ids0 m) k g g1 W Hg Hs) as W1. cbn [groups] in W1.
  specialize (IH (<[k := g1]> m)). destruct (tick_keys d keys (<[k := g1]> m)) as [m2 r].
  apply IH, W1. rewrite Hm. by apply (inv_group n _ W k g Hg).
Qed.

Section Reachable.
Context `{OG : !IterOrder Z} `{OI : !IterOrder ObjectGuid}.

Lemma exec_inv n op s :
  world_inv n (world s) -> op_typed op -> Z.of_nat n + 1 < u32_max ->
  world_inv (S n) (world (exec op s)).
Proof.
  intros W Hop Hn. destruct op; cbn [exec op_typed] in *; unfold on_world, on_invites; ssimpl_goal;
    try (apply world_inv_mono; done);
    try (apply world_inv_mono, with_group_inv; [|done]).
  - apply convert_keeps.
  - apply change_subgroup_keeps. apply Hop.
  - apply swap_keeps.
  - apply leader_keeps.
  - apply member_flag_keeps.
  - apply everyone_keeps.
  - apply assignment_keeps.
  - apply lfg_role_keeps.
  - by apply world_inv_mono, remove_member_inv.
  - apply target_icon_keeps.
  - apply delete_marker_keeps.
  - apply add_marker_keeps.
  - keeps_body.
  - keeps_body.
  - keeps_body.
  - keeps_body.
  - apply difficulty_keeps.
  - keeps_body.
  - apply start_ready_keeps.
  - apply respond_ready_keeps.
  - apply world_inv_mono. unfold tick_ready_checks_like_cpp.
    pose proof (tick_keys_inv n diff_ms (ids (world s))
      (filter (fun kv => ready_check_started kv.2 = true) (iter_entries (groups (world s)))).*1
      (groups (world s))) as Ht.
    destruct (tick_keys _ _ _) as [m r]. apply Ht. by destruct (world s).
  - apply world_inv_mono. unfold unregister_group_like_cpp.
    destruct (groups (world s) !! guid) as [g|] eqn:Hg; [|done]. by apply delete_inv.
  - pose proof (accept_invite_inv n invitee party_index available_leader (world s) (invites s) W Hn)
      as Ha.
    by destruct (accept_invite_like_cpp _ _ _ _ _) as [[w1 p1] r].
Qed.

Lemma initial_inv : world_inv 0 new_registry.
Proof.
  split; cbn [new_registry groups ids initial_ids group_db_store freed_group_db_store_ids].
  - by intros guid g ?%lookup_empty_Some.
  - intros i guid. by rewrite lookup_nil.
  - split; constructor.
  - cbn. lia.
Qed.

Lemma reachable_inv n s :
  reachable n s -> Z.of_nat n < u32_max -> world_inv n (world s).
Proof.
  intros Hr. induction Hr as [|n s op Hr IH Hop]; intros Hn; [exact initial_inv|].
  apply exec_inv; [apply IH; lia|done|lia].
Qed.
End Reachable.

(** * Concrete players and runs for the witnesses *)
#[export] Instance z_order : IterOrder Z := map_list_order Z.
#[export] Instance guid_order : IterOrder ObjectGuid := map_list_order ObjectGuid.

Definition player (n : Z) : ObjectGuid := create_player 1 n.

(** [a] invites [b], who accepts while [a] is connected. *)
Definition form_group (a b : Z) : list GroupOp :=
  [OpCreateInvite (player a) (player b) None 0 0;
   OpAcceptInvite (player b) None (Some (player a))].

(** A member of group [guid] invites [b], who accepts. *)
Definition grow_group (a b guid : Z) : list GroupOp :=
  [OpCreateInvite (player a) (player b) (Some guid) 0 0;
   OpAcceptInvite (player b) None (Some (player a))].

Definition demo_ops : list GroupOp :=
  form_group 1 2 ++ grow_group 1 3 1 ++ [OpConvert 1 (player 1) true].
Definition demo : System := run demo_ops initial_system.

Lemma run_reachable `{OG : !IterOrder Z} `{OI : !IterOrder ObjectGuid} ops n s :
  reachable n s -> Forall op_typed ops -> reachable (n + length ops) (run ops s).
Proof.
  revert n s. induction ops as [|op ops IH]; intros n s Hr Hops.
  - by rewrite Nat.add_0_r.
  - apply Forall_cons in Hops as [Hop Hops]. cbn [length run foldl].
    rewrite <- Nat.add_succ_comm. apply (IH (S n)); [|done]. by constructor.
Qed.

Lemma demo_reachable : reachable 5 demo.
Proof. apply (run_reachable demo_ops 0); repeat constructor. Qed.

Definition demo_group : GroupInfo :=
  default (group_new EMPTY initial_ids).2 (groups (world demo) !! 1).

Lemma demo_lookup : groups (world demo) !! 1 = Some demo_group.
Proof. by vm_compute. Qed.

Lemma demo_wf : group_wf demo_group.
Proof.
  apply (inv_group 5 (world demo) (reachable_inv _ _ demo_reachable ltac:(done)) 1 _ demo_lookup).
Qed.

