(* ===== verification/GroupTheorems.v ===== *)
(** Theorems of the group subsystem: the reachable states, membership,
    invites, authority, and the identifier allocators. *)
From S2P Require Import Prelude Guid GroupModel GroupMembership GroupSettings.
From S2P Require Import GroupRegistry GroupInvites GroupInvariant GroupSystem.

(** * Reachable states *)
(** C2: In every state the group operations can reach from an empty registry
    (in fewer than 2^32-1 steps, so no identifier counter wraps), each stored
    group is filed under its own guid and is well-formed: [members] and
    [member_slots] list the same players in the same order without
    duplicates, every subgroup number is below 8 and holds at most 5 members,
    the size is within the limit of the group's type, the raid counters exist
    exactly for raids and equal the number of slots of each subgroup, and no
    stored group has fewer than two members. *)
Theorem reachable_groups_wf `{OG : !IterOrder Z} `{OI : !IterOrder ObjectGuid} n s guid g :
  reachable n s -> Z.of_nat n < u32_max -> groups (world s) !! guid = Some g ->
  group_guid g = guid /\ group_wf g /\ (2 <= length (members g) <= max_members g)%nat.
Proof.
  intros Hr Hn Hg. destruct (inv_group n _ (reachable_inv n s Hr Hn) guid g Hg) as (? & W & ? & _).
  pose proof (wf_size g W). auto.
Qed.

Lemma reachable_groups_wf_witness :
  members demo_group = [player 1; player 2; player 3] /\
  raid_subgroup_counts demo_group = Some [3; 0; 0; 0; 0; 0; 0; 0] /\
  (group_guid demo_group = 1 /\ group_wf demo_group /\
   (2 <= length (members demo_group) <= max_members demo_group)%nat).
Proof.
  split; [by vm_compute|]. split; [by vm_compute|].
  apply (reachable_groups_wf 5 demo 1 demo_group demo_reachable); [done|exact demo_lookup].
Defined.

(** In every reachable state a storage id belongs to at most one group,
    is never on the free list while in use, and looking a group up by storage
    id finds it exactly when a stored group carries that id. *)
Theorem storage_ids_exact `{OG : !IterOrder Z} `{OI : !IterOrder ObjectGuid} n s :
  reachable n s -> Z.of_nat n < u32_max ->
  (forall a b ga gb, groups (world s) !! a = Some ga -> groups (world s) !! b = Some gb ->
     db_store_id ga = db_store_id gb -> a = b) /\
  (forall a g, groups (world s) !! a = Some g ->
     0 < db_store_id g /\ (db_store_id g ∉ freed_group_db_store_ids (ids (world s)))) /\
  (forall db g, 0 <= db ->
     get_group_by_db_store_id_like_cpp db (world s) = Some g <->
     db_store_id g = db /\ groups (world s) !! group_guid g = Some g).
Proof.
  intros Hr Hn. destruct (reachable_inv n s Hr Hn) as [A B _ _]. split; [|split].
  - intros a b ga gb Ha Hb E.
    destruct (A a ga Ha) as (_ & _ & _ & _ & _ & _ & Ea).
    destruct (A b gb Hb) as (_ & _ & _ & _ & _ & _ & Eb). rewrite E, Eb in Ea. congruence.
  - intros a g Ha. destruct (A a g Ha) as (_ & _ & _ & _ & ? & ? & _). split; [lia|done].
  - intros db g Hdb. unfold get_group_by_db_store_id_like_cpp, group_guid_by_db_store_id_like_cpp,
      registry_get. split.
    + intros (guid & E & Hg)%bind_Some. apply mjoin_lookup in E.
      destruct (B _ guid E) as (g' & Hg' & Edb). rewrite Hg in Hg'. injection Hg' as <-.
      destruct (A guid g Hg) as (-> & _). split; [lia|done].
    + intros [<- Hg]. destruct (A _ g Hg) as (_ & _ & _ & _ & _ & _ & E).
      apply bind_Some. exists (group_guid g). split; [by apply mjoin_lookup|done].
Qed.

Lemma storage_ids_exact_witness :
  get_group_by_db_store_id_like_cpp 1 (world demo) = Some demo_group.
Proof.
  destruct (storage_ids_exact 5 demo demo_reachable ltac:(done)) as (_ & _ & H).
  apply H; [lia|]. split; [by vm_compute|exact demo_lookup].
Defined.

(** * Members *)
(** A group that is not full accepts any new player: [add_member] returns
    true, appends the player to both lists, and seats the player in subgroup 0
    of a party or in the lowest raid subgroup with fewer than five members;
    the result is well-formed again.  A player already present is refused and
    nothing changes. *)
Theorem add_member_spec x g :
  group_wf g ->
  (x ∈ members g -> add_member x g = (g, false)) /\
  (x ∉ members g -> is_full_like_cpp g = false ->
   exists g' sub,
     add_member x g = (g', true) /\ group_wf g' /\
     members g' = members g ++ [x] /\
     member_slots g' = member_slots g ++ [fresh_slot x sub] /\
     sequence_num g' = u32 (sequence_num g + 1) /\
     (is_raid_group g = false -> sub = 0) /\
     (is_raid_group g = true ->
      0 <= sub < 8 /\ (occupancy sub (roster g) < 5)%nat /\
      forall j, 0 <= j < sub -> occupancy j (roster g) = 5%nat)).
Proof.
  intros W. split.
  - intros Hx. unfold add_member. by rewrite decide_True.
  - intros Hx Hf. destruct (add_member_wf g x W Hx Hf) as (g' & sub & E & W' & H1 & H2 & H3 & Eg).
    exists g', sub. split; [done|]. split; [done|]. rewrite Eg. ssimpl_goal.
    do 3 (split; [done|]). split; [done|]. intros Hr. destruct (H3 Hr). done.
Qed.

Lemma add_member_spec_witness :
  exists g' sub, add_member (player 4) demo_group = (g', true) /\
    member_slots g' = member_slots demo_group ++ [fresh_slot (player 4) sub].
Proof.
  destruct (add_member_spec (player 4) demo_group demo_wf) as [_ H].
  destruct H as (g' & sub & E & _ & _ & Es & _); [| |exists g', sub; exact (conj E Es)].
  - apply (bool_decide_unpack _). by vm_compute.
  - by vm_compute.
Defined.

(** C28: Removing a member (leave or kick).  The request is refused with the
    first applicable reason of [removal_reasons], and then nothing changes.
    Otherwise the player and only the player disappears from both lists; with
    fewer than two members left the group is taken out of the registry and its
    storage id goes to the free list, and exactly the three delete intents are
    issued; else, when the leader left, the first connected remaining member
    leads (if there is one), and the intents are the deletion of the member
    followed by the update of the leader. *)
Theorem remove_member_spec guid member kind connected w g :
  groups w !! guid = Some g -> group_wf g ->
  match removal_error member kind g with
  | Some e => remove_member_like_cpp guid member kind connected w = (w, Err e)
  | None =>
      exists g', group_wf g' /\
        members g' = filter (fun m => m <> member) (members g) /\
        let is_disbanded := (length (members g') <? 2)%nat in
        let new_leader := if negb is_disbanded && bool_decide (leader_guid g = member)
                          then successor connected (members g') else None in
        leader_guid g' = default (leader_guid g) new_leader /\
        remove_member_like_cpp guid member kind connected w =
        (if is_disbanded
         then mkWorld (free_group_db_store_id_like_cpp (db_store_id g) (ids w))
                (delete guid (groups w))
         else mkWorld (ids w) (<[guid := g']> (groups w)),
         Ok (mkOutcome g'
              (mkRemoval member (db_store_id g) is_disbanded new_leader (members g'))
              (if is_disbanded
               then [DeleteGroup (db_store_id g); DeleteAllMembers (db_store_id g);
                     DeleteLfgData (db_store_id g)]
               else DeleteMember member ::
                    match new_leader with
                    | Some l => [UpdateLeader (db_store_id g) l]
                    | None => []
                    end)))
  end.
Proof.
  intros Hg W. pose proof (remove_member_body_spec member kind connected g W) as H.
  unfold remove_member_like_cpp, with_group. rewrite Hg.
  destruct (removal_error member kind g) as [e|].
  - rewrite H. destruct w as [i m]. ssimpl_goal. by rewrite insert_id.
  - destruct H as (g' & Hs & Hm & Hl & ->). exists g'. split; [by apply (step_wf _ _ Hs)|].
    split; [done|]. split; [done|]. cbn [facts disbanded outcome_group].
    destruct (length (members g') <? 2)%nat; [|done].
    ssimpl_goal. by rewrite delete_insert_eq, (step_db _ _ Hs).
Qed.

(** The leader of three leaves: the first connected member takes over. *)
Lemma remove_member_spec_witness :
  removal_error (player 1) Leave demo_group = None /\
  exists g', members g' = [player 2; player 3] /\ leader_guid g' = player 3.
Proof.
  split; [by vm_compute|].
  pose proof (remove_member_spec 1 (player 1) Leave [player 9; player 3; player 2] (world demo)
    demo_group demo_lookup demo_wf) as H.
  assert (E : removal_error (player 1) Leave demo_group = None) by (by vm_compute).
  rewrite E in H. destruct H as (g' & _ & Hm & Hl & _). exists g'. revert Hl. rewrite Hm.
  intros ->. split; by vm_compute.
Defined.

(** * Authority *)
Definition officer (actor : ObjectGuid) (g : GroupInfo) : bool :=
  bool_decide (leader_guid g = actor) || is_assistant_like_cpp actor g.

(** The group an operation is about. *)
Definition op_target (op : GroupOp) : option Z :=
  match op with
  | OpConvert g _ _ | OpChangeSubgroup g _ _ _ | OpSwapSubgroups g _ _ _ | OpChangeLeader g _ _
  | OpMemberFlag g _ _ _ _ | OpEveryoneAssistant g _ _ | OpAssignment g _ _ _ _ | OpLfgRole g _ _
  | OpRemove g _ _ _ | OpTargetIcon g _ _ _ | OpDeleteMarker g _ _ | OpAddMarker g _ _ _ _ _
  | OpRecentInstance g _ _ _ | OpLinkInstance g _ _ | OpUnlinkInstance g _ _
  | OpInstanceReset g _ _ _ | OpDifficulty g _ _ _ | OpAdvanceLooter g _
  | OpStartReadyCheck g _ _ | OpRespondReadyCheck g _ _ | OpUnregister g => Some g
  | _ => None
  end.

(** Who may do what: the leader converts, promotes, flags, and sets the
    difficulty; officers also move members, assign roles and start ready
    checks; in a raid only officers touch icons and markers; members place
    markers and answer ready checks; a kick needs an officer outside a
    battleground and another target than the leader, and is never possible in
    a dungeon-finder group. *)
Definition permitted (op : GroupOp) (g : GroupInfo) : bool :=
  match op with
  | OpConvert _ a _ | OpChangeLeader _ a _ | OpMemberFlag _ a _ _ _ | OpEveryoneAssistant _ a _
  | OpDifficulty _ a _ _ => bool_decide (leader_guid g = a)
  | OpChangeSubgroup _ a _ _ | OpSwapSubgroups _ a _ _ | OpAssignment _ a _ _ _
  | OpStartReadyCheck _ a _ => officer a g
  | OpTargetIcon _ a _ _ | OpDeleteMarker _ a _ => negb (is_raid_group g) || officer a g
  | OpAddMarker _ a _ _ _ _ =>
      bool_decide (a ∈ members g) && (negb (is_raid_group g) || officer a g)
  | OpRespondReadyCheck _ m _ => bool_decide (m ∈ members g)
  | OpRemove _ m Leave _ => bool_decide (m ∈ members g)
  | OpRemove _ m (Kick a in_bg _ _) _ =>
      negb (is_lfg_group_like_cpp g) && officer a g && negb in_bg &&
      negb (bool_decide (leader_guid g = m)) && bool_decide (m ∈ members g)
  | _ => true
  end.

Lemma with_group_err {A} guid (b : body A) w g e :
  groups w !! guid = Some g -> b g = (g, Err e) -> with_group guid b w = (w, Err e).
Proof.
  intros Hg Hb. unfold with_group. rewrite Hg, Hb. destruct w as [i m]. ssimpl_goal.
  by rewrite insert_id.
Qed.

Lemma with_group_same {A} guid (b : body A) w g e :
  groups w !! guid = Some g -> b g = (g, Err e) -> (with_group guid b w).1 = w.
Proof. intros Hg Hb. by rewrite (with_group_err guid b w g e Hg Hb). Qed.

Lemma with_group_none {A} guid (b : body A) w :
  groups w !! guid = None -> with_group guid b w = (w, Err MissingGroup).
Proof. intros Hg. unfold with_group. by rewrite Hg. Qed.

Lemma fail_first {A} c e (k : unit -> body A) g :
  c g = true -> bseq (fail_if c e) k g = (g, Err e).
Proof. intros Hc. by rewrite bseq_fail_if, Hc. Qed.

Lemma not_leader_spec a g : not_leader a g = negb (bool_decide (leader_guid g = a)).
Proof. done. Qed.
Lemma not_officer_spec a g : not_leader_or_assistant a g = negb (officer a g).
Proof. unfold officer. by rewrite negb_orb. Qed.
Lemma raid_unauthorised_spec a g :
  raid_unauthorised a g = negb (negb (is_raid_group g) || officer a g).
Proof. unfold raid_unauthorised. by rewrite not_officer_spec, negb_orb, negb_involutive. Qed.

Section Authority.
Context `{OG : !IterOrder Z} `{OI : !IterOrder ObjectGuid}.

Lemma on_world_same {A} (s : System) (r : GroupWorld * A) : r.1 = world s -> on_world r s = s.
Proof. intros E. unfold on_world. rewrite E. by destruct s. Qed.

Lemma remove_error_same guid member kind connected w e :
  with_group guid (remove_member_body member kind connected) w = (w, Err e) ->
  (remove_member_like_cpp guid member kind connected w).1 = w.
Proof. intros E. unfold remove_member_like_cpp. by rewrite E. Qed.

(** A removal that is not permitted has a reason. *)
Lemma removal_not_permitted guid m kind connected g :
  permitted (OpRemove guid m kind connected) g = false ->
  exists e, remove_member_body m kind connected g = (g, Err e).
Proof.
  intros Hp. unfold remove_member_body. rewrite removal_checks.
  destruct (removal_error m kind g) as [e|] eqn:E; [by exists e|]. exfalso. revert E Hp.
  unfold removal_error, removal_reasons, officer. destruct kind as [|a bg rolls combat]; cbn [app].
  - rewrite !first_reason_cons. cbn [permitted]. by destruct (bool_decide _).
  - cbn [permitted]. destruct (is_lfg_group_like_cpp g) eqn:El; cbn [app];
      rewrite !first_reason_cons, ?El; unfold officer, is_leader_like_cpp;
      repeat match goal with |- context [if ?b then Some _ else _] => destruct b eqn:?; [done|] end;
      try done.
    repeat match goal with H : negb _ = false |- _ => apply negb_false_iff in H end.
    match goal with H : negb _ && negb _ = false |- _ =>
      apply andb_false_iff in H; destruct H as [H|H]; apply negb_false_iff in H end;
      intros _; repeat match goal with H : bool_decide _ = _ |- _ => rewrite H end;
      repeat match goal with H : is_assistant_like_cpp _ _ = _ |- _ => rewrite H end;
      subst; rewrite ?orb_true_r; done.
Qed.

(** An operation on a group that does not exist, or by an actor without
    the rank it needs, or a removal that may not happen, changes nothing at
    all: the whole state is the same afterwards.  In particular no kick goes
    through in a dungeon-finder group. *)
Theorem unauthorised_changes_nothing op s guid :
  op_target op = Some guid ->
  (forall g, groups (world s) !! guid = Some g -> permitted op g = false) ->
  exec op s = s.
Proof.
  intros Ht Hp. destruct (groups (world s) !! guid) as [g|] eqn:Hg.
  - specialize (Hp g eq_refl).
    destruct op; simplify_eq/=; apply on_world_same;
      try (eapply with_group_same; [exact Hg|apply fail_first];
           rewrite ?not_leader_spec, ?not_officer_spec, ?raid_unauthorised_spec, Hp; done).
    + destruct (removal_not_permitted guid member kind connected g Hp) as [e E].
      eapply remove_error_same. by apply with_group_err with (1 := Hg).
    + apply andb_false_iff in Hp as [Hp|Hp].
      * eapply with_group_same; [exact Hg|apply fail_first]. unfold not_member. by rewrite Hp.
      * destruct (not_member actor g) eqn:Em.
        -- eapply with_group_same; [exact Hg|by apply fail_first].
        -- eapply with_group_same; [exact Hg|]. unfold add_raid_marker_transition_body.
           by rewrite !bseq_fail_if, Em, raid_unauthorised_spec, Hp.
    + eapply with_group_same; [exact Hg|apply fail_first]. unfold not_member. by rewrite Hp.
  - destruct op; simplify_eq/=; apply on_world_same;
      try apply (f_equal fst (with_group_none _ _ _ Hg)).
    + eapply remove_error_same. by apply with_group_none.
    + unfold unregister_group_like_cpp. by rewrite Hg.
Qed.
End Authority.

Lemma unauthorised_changes_nothing_witness :
  exec (OpConvert 1 (player 2) false) demo = demo /\
  exec (OpRemove 1 (player 3) (Kick (player 2) false false false) []) demo = demo.
Proof.
  split; apply (unauthorised_changes_nothing _ demo 1); try reflexivity;
    intros g E; rewrite demo_lookup in E; apply (inj Some) in E; subst g; by vm_compute.
Defined.

(** * Loading and the storage-id allocator *)
Section LoadIds.
Context `{V : GroupDifficultyValidatorLikeCpp}.
Variable cache : gmap Z GroupMemberCharacterLikeCpp.

(** A row the loader accepts: its leader is known and its guids fit. *)
Definition row_ok (row : GroupDbRowLikeCpp) : Prop :=
  is_Some (cache !! row_leader_guid_low row) /\ row_leader_guid_low row <= i64_max /\
  row_looter_guid_low row <= i64_max /\ row_master_looter_guid_low row <= i64_max.

Lemma row_ok_loads gid row :
  row_ok row ->
  exists g, load_group_from_db_row_validated_like_cpp gid row (cache !! row_leader_guid_low row)
            = Some g /\ group_guid g = gid /\ db_store_id g = row_db_store_id row.
Proof.
  intros ([c Hc] & H1 & H2 & H3). unfold load_group_from_db_row_validated_like_cpp. rewrite Hc.
  cbn [mbind option_bind]. unfold i64_try_from.
  apply Z.leb_le in H1 as ->, H2 as ->, H3 as ->. by eexists.
Qed.

(** The registry between two rows: the next storage id is [k]. *)
Record loading (k : Z) (w : GroupWorld) : Prop :=
  { loading_next : next_group_db_store_id (ids w) = k;
    loading_freed : freed_group_db_store_ids (ids w) = [];
    loading_group guid g : groups w !! guid = Some g ->
      guid < next_group_id (ids w) /\ 0 < db_store_id g < k }.

Lemma load_row_step k w summary row :
  loading k w -> row_ok row -> row_db_store_id row = k -> 0 < k < u32_max ->
  0 <= next_group_id (ids w) < u64_max ->
  let st := load_group_row cache (w, summary) row in
  loading (k + 1) st.1 /\ next_group_id (ids st.1) = next_group_id (ids w) + 1 /\
  loaded_groups st.2 = loaded_groups summary + 1.
Proof.
  intros [L1 L2 L3] Hrow Edb Hk Hgid. unfold load_group_row, generate_group_id_like_cpp.
  destruct (row_ok_loads (next_group_id (ids w)) row Hrow) as (g & -> & Eg & Eg').
  unfold u64_max in Hgid. ssimpl_goal. rewrite wrap_u_id by (unfold in_u; lia).
  unfold register_group_like_cpp. rewrite Z.eqb_refl. cbn [negb groups ids]. ssimpl_goal.
  assert (groups w !! group_guid g = None) as Hfresh.
  { destruct (groups w !! group_guid g) as [g'|] eqn:E; [|done]. destruct (L3 _ _ E). lia. }
  rewrite Hfresh. ssimpl_goal.
  unfold advance_next_group_db_store_id_after_load_like_cpp, sat_add, u32_max in *. ssimpl_goal.
  rewrite L1, Edb, Z.eqb_refl. split; [|by ssimpl_goal]. split; ssimpl_goal.
  - lia.
  - done.
  - intros guid h. destruct (decide (guid = group_guid g)) as [->|Hne].
    + rewrite lookup_insert_eq. intros [= <-]. lia.
    + rewrite lookup_insert_ne by done. intros Hh. destruct (L3 guid h Hh). lia.
Qed.

Lemma load_rows_contiguous rows k w summary :
  loading k w -> Forall row_ok rows ->
  map row_db_store_id rows = map (fun i => k + Z.of_nat i) (seq 0 (length rows)) ->
  0 < k -> k + Z.of_nat (length rows) <= u32_max ->
  0 <= next_group_id (ids w) <= k ->
  loading (k + Z.of_nat (length rows)) (foldl (load_group_row cache) (w, summary) rows).1.
Proof.
  revert k w summary. induction rows as [|row rows IH]; intros k w summary L Hok Hids Hk Hmax Hgid.
  { cbn. by rewrite Z.add_0_r. }
  apply Forall_cons in Hok as [Hrow Hrows]. cbn [length seq map] in *.
  injection Hids as Edb Hids. rewrite Z.add_0_r in Edb. cbn [foldl].
  destruct (load_row_step k w summary row L Hrow Edb) as (L' & Hgid' & _);
    [unfold u32_max, u64_max in *; lia..|].
  destruct (load_group_row cache (w, summary) row) as [w1 s1]. cbn [fst snd] in *.
  replace (k + Z.of_nat (S (length rows))) with (k + 1 + Z.of_nat (length rows)) by lia.
  apply IH; try done; try lia. rewrite Hids, <- seq_shift, map_map. apply map_ext. lia.
Qed.

(** Loading group rows whose storage ids are 1, 2, ..., n in this order
    into an empty registry leaves the allocator consistent: the next fresh id
    is n+1 and every loaded group's storage id lies below it. *)
Theorem load_contiguous_ids rows :
  Forall row_ok rows ->
  map row_db_store_id rows = map (fun i => 1 + Z.of_nat i) (seq 0 (length rows)) ->
  1 + Z.of_nat (length rows) <= u32_max ->
  let w := (load_groups_from_db_rows_like_cpp cache rows [] new_registry).1 in
  next_group_db_store_id (ids w) = 1 + Z.of_nat (length rows) /\
  forall guid g, groups w !! guid = Some g ->
    0 < db_store_id g < next_group_db_store_id (ids w).
Proof.
  intros Hok Hids Hmax. unfold load_groups_from_db_rows_like_cpp. cbn [foldl].
  assert (L0 : loading 1 new_registry).
  { split; [done..|]. intros guid g. cbn. by intros ?%lookup_empty_Some. }
  destruct (load_rows_contiguous rows 1 new_registry empty_summary L0 Hok Hids) as [E _ L];
    [lia|done|cbn; lia|]. split; [done|]. intros guid g Hg. rewrite E. by apply (L guid g).
Qed.
End LoadIds.

(** A difficulty store that accepts every id, two known players, and rows of
    groups led by player 1. *)
#[local] Instance any_difficulty : GroupDifficultyValidatorLikeCpp :=
  {| check_loaded_dungeon_difficulty_id_like_cpp d := d;
     check_loaded_raid_difficulty_id_like_cpp d := d;
     check_loaded_legacy_raid_difficulty_id_like_cpp d := d |}.

Definition one_character : gmap Z GroupMemberCharacterLikeCpp :=
  {[ 1 := mkCharacter "leader" 1 1 ]}.

Definition stored_row (db : Z) : GroupDbRowLikeCpp :=
  mkGroupRow 1 5 1 2 empty_icons 0 1 14 3 0 db None None.

Lemma load_contiguous_ids_witness :
  next_group_db_store_id
    (ids (load_groups_from_db_rows_like_cpp one_character [stored_row 1; stored_row 2] []
            new_registry).1) = 3.
Proof.
  apply (load_contiguous_ids one_character [stored_row 1; stored_row 2]).
  - repeat constructor; try done; by eexists.
  - reflexivity.
  - done.
Defined.

(** Storage ids 1 and 3 are loaded, then two new groups are formed. *)
Definition gap_system : System :=
  run (form_group 11 12 ++ form_group 13 14)
    (mkSystem (load_groups_from_db_rows_like_cpp one_character [stored_row 1; stored_row 3] []
                 new_registry).1 ∅).

(** With a gap in the loaded storage ids the allocator later hands out an
    id that is in use: after loading ids 1 and 3, the second new group gets
    storage id 3, two stored groups carry it, and the loaded one can no longer
    be found by its storage id. *)
Theorem storage_id_collision_after_gap :
  exists loaded fresh,
    groups (world gap_system) !! 2 = Some loaded /\ db_store_id loaded = 3 /\
    groups (world gap_system) !! 4 = Some fresh /\ db_store_id fresh = 3 /\
    members fresh = [player 13; player 14] /\
    group_guid <$> get_group_by_db_store_id_like_cpp 3 (world gap_system) = Some 4.
Proof.
  exists (default demo_group (groups (world gap_system) !! 2)),
    (default demo_group (groups (world gap_system) !! 4)).
  do 5 (split; [by vm_compute|]). by vm_compute.
Qed.
