(* ===== verification/GroupInviteTheorems.v ===== *)
(** Theorems of the pending invites: creation, cancellation, acceptance, and
    when a player can belong to two groups. *)
From S2P Require Import Prelude Guid GroupModel GroupMembership GroupSettings GroupRegistry.
From S2P Require Import GroupInvites.
From S2P Require Import GroupInvariant GroupSystem.

(** * The directory *)
Lemma remove_all_lookup l (p : PendingInvites) q :
  remove_all l p !! q = if decide (q ∈ l) then None else p !! q.
Proof.
  unfold remove_all. revert p. induction l as [|x l IH]; intros p.
  - by rewrite decide_False by apply not_elem_of_nil.
  - cbn [foldl]. rewrite IH. destruct (decide (q ∈ l)) as [Hq|Hq].
    + rewrite decide_True by (by right). done.
    + destruct (decide (q = x)) as [->|Hne].
      * rewrite lookup_delete_eq, decide_True by left. done.
      * rewrite lookup_delete_ne by done. rewrite decide_False by (by apply not_elem_of_cons). done.
Qed.

Lemma promote_all_lookup v l (p : PendingInvites) q :
  promote_all v l p !! q = if decide (q ∈ l) then Some v else p !! q.
Proof.
  unfold promote_all. revert p. induction l as [|x l IH]; intros p.
  - by rewrite decide_False by apply not_elem_of_nil.
  - cbn [foldl]. rewrite IH. destruct (decide (q ∈ l)) as [Hq|Hq].
    + rewrite decide_True by (by right). done.
    + destruct (decide (q = x)) as [->|Hne].
      * rewrite lookup_insert_eq, decide_True by left. done.
      * rewrite lookup_insert_ne by done. rewrite decide_False by (by apply not_elem_of_cons). done.
Qed.

Section Directory.
Context `{OG : !IterOrder Z} `{OI : !IterOrder ObjectGuid}.

Lemma elem_of_matching invite (p : PendingInvites) q :
  q ∈ matching_guids invite p <-> p !! q = Some invite.
Proof.
  unfold matching_guids. rewrite list_elem_of_fmap. split.
  - intros ([k v] & -> & [Hv Hin]%list_elem_of_filter). cbn in *. subst.
    by apply elem_of_iter_entries in Hin.
  - intros E. exists (q, invite). split; [done|]. apply list_elem_of_filter. split; [done|].
    by apply elem_of_iter_entries.
Qed.

Lemma NoDup_matching invite (p : PendingInvites) : NoDup (matching_guids invite p).
Proof.
  unfold matching_guids.
  assert (forall l : list (ObjectGuid * PendingInviteLikeCpp), NoDup l.*1 ->
    NoDup (filter (fun kv => kv.2 = invite) l).*1) as H.
  { induction l as [|kv l IH]; [done|]. rewrite fmap_cons. intros [Hkv Hl]%NoDup_cons.
    rewrite filter_cons. destruct (decide _); [|auto]. rewrite fmap_cons. apply NoDup_cons.
    split; [|auto]. intros Hin. apply Hkv.
    apply list_elem_of_fmap in Hin as (x & E & [_ Hx]%list_elem_of_filter). rewrite E.
    apply list_elem_of_fmap. eauto. }
  apply H. unfold iter_entries.
  assert (forall ks : list ObjectGuid, NoDup ks ->
    NoDup (omap (fun k => (fun v => (k, v)) <$> p !! k) ks).*1) as H2.
  { induction ks as [|k ks IH]; [constructor|]. intros [Hk Hks]%NoDup_cons. cbn [omap list_omap].
    destruct (p !! k); cbn [fmap option_fmap option_map]; [|auto].
    rewrite fmap_cons. apply NoDup_cons. split; [|auto].
    intros (x & E & Hx)%list_elem_of_fmap. apply list_elem_of_omap in Hx as (k' & Hk' & Ex).
    by destruct (p !! k'); simplify_eq/=. }
  apply H2, NoDup_iter_keys.
Qed.

(** The lookup after every invite of a pending group went. *)
Lemma remove_matching_lookup invite (p : PendingInvites) q :
  remove_all (matching_guids invite p) p !! q =
  if decide (p !! q = Some invite) then None else p !! q.
Proof.
  rewrite remove_all_lookup. destruct (decide (q ∈ _)) as [H|H]; rewrite elem_of_matching in H;
    [by rewrite decide_True|by rewrite decide_False].
Qed.
End Directory.

(** * Acceptance *)
Lemma new_group_add invitee leader s :
  leader <> invitee ->
  let g0 := (group_new leader s).2 in
  add_member invitee g0 =
  (bump (g0 <| members := [leader; invitee] |>
            <| member_slots := [fresh_slot leader 0; fresh_slot invitee 0] |>), true).
Proof.
  intros Hne. unfold group_new, generate_group_id_like_cpp.
  destruct (generate_group_db_store_id_like_cpp _) as [s2 db]. cbn [snd].
  unfold add_member. cbn [members raid_subgroup_counts].
  by rewrite decide_False by (by intros ->%list_elem_of_singleton).
Qed.

Lemma new_group_slot invitee leader :
  leader <> invitee ->
  find_first (fun s => slot_guid s = invitee) [fresh_slot leader 0; fresh_slot invitee 0]
  = Some (fresh_slot invitee 0).
Proof.
  intros Hne. unfold find_first. cbn. rewrite decide_False by done. by rewrite decide_True.
Qed.

(** What the first acceptance of a pending group leaves in the directory: the
    invitee and the leader hold no invite, the others now point at the group. *)
Definition promoted_invites (invitee leader : ObjectGuid) (invite promoted : PendingInviteLikeCpp)
    (p : PendingInvites) (q : ObjectGuid) : option PendingInviteLikeCpp :=
  if decide (q = invitee \/ q = leader) then None
  else if decide (p !! q = Some invite) then Some promoted else p !! q.

(** The insert intents of a new group of [leader] and [invitee]. *)
Definition creation_intents (g : GroupInfo) (leader invitee : ObjectGuid)
  : list GroupPersistenceIntentLikeCpp :=
  [InsertGroup (db_store_id g) leader LOOT_METHOD_PERSONAL_LIKE_CPP leader
     ITEM_QUALITY_UNCOMMON_LIKE_CPP 0 DIFFICULTY_NORMAL_LIKE_CPP DIFFICULTY_NORMAL_RAID_LIKE_CPP
     DIFFICULTY_10_N_LIKE_CPP EMPTY;
   InsertMember (db_store_id g) leader 0 0 0; InsertMember (db_store_id g) invitee 0 0 0].

Section Accept.
Context `{OG : !IterOrder Z} `{OI : !IterOrder ObjectGuid}.

Lemma create_from_invite_result invitee available w p invite :
  invite_leader_guid invite <> invitee ->
  let leader := invite_leader_guid invite in
  let '(w', p', r) := create_from_invite invitee invite available w p in
  if decide (available = Some leader) then
    exists g, r = Created g 0 (creation_intents g leader invitee) /\
      group_guid g = next_group_id (ids w) /\ group_wf g /\
      members g = [leader; invitee] /\ leader_guid g = leader /\ group_flags g = 0 /\
      group_category g = GROUP_CATEGORY_HOME_LIKE_CPP /\
      groups w' = <[group_guid g := g]> (groups w) /\
      forall q, p' !! q = promoted_invites invitee leader invite
                  (new_existing_group leader (group_guid g) (invite_category invite)) p q
  else
    r = MissingLeader /\ w' = w /\
    forall q, p' !! q = if decide (q = invitee \/ p !! q = Some invite) then None else p !! q.
Proof.
  intros Hne. cbv zeta. unfold create_from_invite.
  destruct (decide (available = _)) as [->|Ha].
  - rewrite bool_decide_eq_true_2 by done. cbn [negb].
    set (leader := invite_leader_guid invite) in *.
    pose proof (new_group_add invitee leader (ids w) Hne) as Eadd.
    destruct (group_new_wf leader (ids w)) as (Wg0 & Em0 & _ & Hf0).
    assert (Eg : group_guid (group_new leader (ids w)).2 = next_group_id (ids w) /\
      leader_guid (group_new leader (ids w)).2 = leader /\
      forall l m, insert_group_intent (bump ((group_new leader (ids w)).2
          <| members := m |> <| member_slots := l |>)) =
        InsertGroup (db_store_id (group_new leader (ids w)).2) leader
          LOOT_METHOD_PERSONAL_LIKE_CPP leader
          ITEM_QUALITY_UNCOMMON_LIKE_CPP 0 DIFFICULTY_NORMAL_LIKE_CPP
          DIFFICULTY_NORMAL_RAID_LIKE_CPP DIFFICULTY_10_N_LIKE_CPP EMPTY /\
      group_flags (group_new leader (ids w)).2 = 0 /\
      group_category (group_new leader (ids w)).2 = GROUP_CATEGORY_HOME_LIKE_CPP).
    { unfold group_new, generate_group_id_like_cpp.
      by destruct (generate_group_db_store_id_like_cpp _). }
    destruct (group_new leader (ids w)) as [ids1 g0]. cbn [fst snd] in *. rewrite Eadd.
    assert (Hnin : invitee ∉ members g0) by (rewrite Em0; by intros ->%list_elem_of_singleton).
    destruct (add_member_sub invitee g0 _ Wg0 Hnin Hf0 eq_refl) as (_ & Wg & _).
    rewrite Eadd in Wg. cbn [fst] in Wg. set (g := bump _) in *. cbn [negb].
    destruct Eg as (Eguid & Elead & Eint). destruct (Eint (member_slots g) (members g)) as (Ei & Ef & Ecat).
    unfold member_slot_like_cpp.
    change (member_slots g) with [fresh_slot leader 0; fresh_slot invitee 0].
    rewrite new_group_slot by done. cbn [fmap option_fmap option_map default].
    exists g. split; [|split; [done|split; [done|split; [done|split; [done|split; [done|split; [done|split; [done|]]]]]]]].
    + unfold creation_intents. f_equal. f_equal; [exact Ei|]. f_equal. by f_equal.
    + intros q. rewrite promote_all_lookup. unfold promoted_invites.
      destruct (decide (q ∈ _)) as [Hq|Hq]; rewrite elem_of_matching in Hq.
      * apply lookup_delete_Some in Hq as [H1 Hq]. apply lookup_delete_Some in Hq as [H2 Hq].
        rewrite decide_False by (by intros [?|?]). by rewrite decide_True.
      * destruct (decide (q = leader)) as [->|H1];
          [rewrite lookup_delete_eq, decide_True by tauto; done|].
        rewrite lookup_delete_ne in Hq |- * by done.
        destruct (decide (q = invitee)) as [->|H2];
          [rewrite lookup_delete_eq, decide_True by tauto; done|].
        rewrite lookup_delete_ne in Hq |- * by done.
        rewrite decide_False by tauto. by rewrite decide_False.
  - rewrite bool_decide_eq_false_2 by done. cbn [negb]. split; [done|]. split; [done|].
    intros q. rewrite remove_matching_lookup. destruct (decide (q = invitee)) as [->|H2].
    + rewrite lookup_delete_eq, decide_False by done. by rewrite decide_True by tauto.
    + rewrite lookup_delete_ne by done. destruct (decide (p !! q = Some invite)).
      * by rewrite decide_True by tauto.
      * by rewrite decide_False by tauto.
Qed.

(** C35: Accepting an invite to a group that does not exist yet.  When its
    leader is available a group is created under the next runtime guid with
    exactly the leader and the invitee as members, led by the leader, and
    stored; the invitee's and the leader's invites are consumed, every other
    invite of the same pending group now points at the new group, all others
    stay; the three insert intents describe the group.  When the leader is not
    available every invite of the pending group is dropped and the registry is
    untouched. *)
Theorem accept_pending_spec invitee index available w p invite :
  p !! invitee = Some invite -> invite_group_guid invite = None ->
  category_differs index invite = false -> invite_leader_guid invite <> invitee ->
  let leader := invite_leader_guid invite in
  let '(w', p', r) := accept_invite_like_cpp invitee index available w p in
  if decide (available = Some leader) then
    exists g, r = Created g 0 (creation_intents g leader invitee) /\
      group_guid g = next_group_id (ids w) /\ group_wf g /\
      members g = [leader; invitee] /\ leader_guid g = leader /\ group_flags g = 0 /\
      group_category g = GROUP_CATEGORY_HOME_LIKE_CPP /\
      groups w' = <[group_guid g := g]> (groups w) /\
      forall q, p' !! q = promoted_invites invitee leader invite
                  (new_existing_group leader (group_guid g) (invite_category invite)) p q
  else
    r = MissingLeader /\ w' = w /\
    forall q, p' !! q = if decide (q = invitee \/ p !! q = Some invite) then None else p !! q.
Proof.
  intros Hp Hnone Hcat Hne. cbv zeta. unfold accept_invite_like_cpp.
  rewrite Hp, Hcat, bool_decide_eq_false_2, Hnone by done.
  by apply create_from_invite_result.
Qed.

(** Accepting an invite to an existing group.  A vanished group or one of
    another category leaves everything as it is, the invite included;
    otherwise the invite is consumed, and the player joins unless the group is
    full or already lists the player.  A join appends the player, stores the
    group, and issues one insert intent with the subgroup the player got; it
    cannot fail after the checks. *)
Theorem accept_existing_spec invitee index available w p invite guid :
  p !! invitee = Some invite -> invite_group_guid invite = Some guid ->
  category_differs index invite = false -> invite_leader_guid invite <> invitee ->
  (forall g, groups w !! guid = Some g -> group_wf g) ->
  let result := accept_invite_like_cpp invitee index available w p in
  match groups w !! guid with
  | None => result = (w, p, AcceptMissingGroup)
  | Some g =>
      if negb (group_category g =? invite_category invite) then result = (w, p, WrongCategory)
      else if is_full_like_cpp g then result = (w, delete invitee p, GroupFull)
      else if decide (invitee ∈ members g) then result = (w, delete invitee p, AlreadyMember)
      else exists g' sub,
        result = (mkWorld (ids w) (<[guid := g']> (groups w)), delete invitee p,
                  JoinedExisting g' sub [InsertMember (db_store_id g) invitee 0 sub 0]) /\
        members g' = members g ++ [invitee] /\
        member_slots g' = member_slots g ++ [fresh_slot invitee sub] /\
        leader_guid g' = leader_guid g /\ group_wf g'
  end.
Proof.
  intros Hp Hguid Hcat Hne Hwf. cbv zeta. unfold accept_invite_like_cpp.
  rewrite Hp, Hcat, bool_decide_eq_false_2, Hguid by done. unfold join_existing.
  destruct (groups w !! guid) as [g|]; [|done]. specialize (Hwf g eq_refl).
  unfold group_category_like_cpp. destruct (negb _); [done|].
  destruct (is_full_like_cpp g) eqn:Hf; [done|].
  destruct (decide (invitee ∈ members g)) as [Hin|Hin].
  { by rewrite bool_decide_eq_true_2. }
  rewrite bool_decide_eq_false_2 by done.
  destruct (add_member_wf g invitee Hwf Hin Hf) as (g' & sub & -> & W' & _ & _ & _ & Eg').
  cbn [negb]. exists g', sub.
  assert (Em : member_slots g' = member_slots g ++ [fresh_slot invitee sub]) by (by rewrite Eg').
  assert (Edb : db_store_id g' = db_store_id g) by (by rewrite Eg').
  assert (Es : member_slot_like_cpp invitee g' = Some (fresh_slot invitee sub)).
  { unfold member_slot_like_cpp, find_first. rewrite Em, list_find_app_r.
    - cbn. by rewrite decide_True.
    - apply list_find_None. rewrite (wf_members g Hwf), roster_fst in Hin.
      apply Forall_forall. intros s Hs E. apply Hin. rewrite <- E.
      by apply list_elem_of_fmap_2. }
  rewrite Es, Edb. cbn [fmap option_fmap option_map default subgroup fresh_slot].
  split; [done|]. split; [by rewrite Eg'|]. split; [done|]. split; [by rewrite Eg'|done].
Qed.
End Accept.

(** * One group per player *)
(** Nothing but the listed members remains: groups only lose members. *)
Definition world_le (w' w : GroupWorld) : Prop :=
  forall guid g', groups w' !! guid = Some g' ->
    exists g, groups w !! guid = Some g /\ members g' ⊆ members g /\
      group_category g' = group_category g.

#[export] Instance world_le_preorder : PreOrder world_le.
Proof.
  split.
  - intros w guid g Hg. by exists g.
  - intros w1 w2 w3 H1 H2 guid g Hg. destruct (H1 guid g Hg) as (g2 & Hg2 & S2 & C2).
    destruct (H2 guid g2 Hg2) as (g3 & Hg3 & S3 & C3). exists g3. split; [done|].
    split; [by etrans|congruence].
Qed.







Section Single.
Context `{OG : !IterOrder Z} `{OI : !IterOrder ObjectGuid}.



















End Single.

(** * Instances *)
(** Player 1 has invited 2 and 3 to a group that does not exist yet. *)
Definition two_invited : System :=
  run [OpCreateInvite (player 1) (player 2) None 0 0;
       OpCreateInvite (player 1) (player 3) None 0 0] initial_system.

Lemma accept_pending_spec_witness :
  let '(w', p', r) := accept_invite_like_cpp (player 2) (Some 0) (Some (player 1))
                        (world two_invited) (invites two_invited) in
  exists g, r = Created g 0 (creation_intents g (player 1) (player 2)) /\
    members g = [player 1; player 2] /\
    p' !! player 3 = Some (new_existing_group (player 1) (group_guid g) 0).
Proof.
  pose proof (accept_pending_spec (player 2) (Some 0) (Some (player 1)) (world two_invited)
    (invites two_invited) (new_pending_group (player 1) 0)) as H.
  destruct (accept_invite_like_cpp _ _ _ _ _) as [[w' p'] r].
  destruct H as (g & Er & _ & _ & Em & _ & _ & _ & _ & Hq).
  - by vm_compute.
  - reflexivity.
  - reflexivity.
  - apply (bool_decide_unpack _). by vm_compute.
  - exists g. split; [exact Er|]. split; [exact Em|]. rewrite Hq. unfold promoted_invites.
    rewrite decide_False by (apply (bool_decide_unpack _); by vm_compute).
    rewrite decide_True by (apply (bool_decide_unpack _); by vm_compute). reflexivity.
Defined.

(** The raid of the demonstration run, whose member 1 invites player 4. *)
Definition raid_invite : PendingInvites :=
  <[player 4 := new_existing_group (player 1) 1 0]> (invites demo).

Lemma accept_existing_spec_witness :
  exists g' sub,
    accept_invite_like_cpp (player 4) None None (world demo) raid_invite
    = (mkWorld (ids (world demo)) (<[1 := g']> (groups (world demo))), delete (player 4) raid_invite,
       JoinedExisting g' sub [InsertMember (db_store_id demo_group) (player 4) 0 sub 0]) /\
    members g' = members demo_group ++ [player 4].
Proof.
  pose proof (accept_existing_spec (player 4) None None (world demo) raid_invite
    (new_existing_group (player 1) 1 0) 1) as H. cbv zeta in H. rewrite demo_lookup in H.
  assert (Hc : group_category demo_group = 0) by (by vm_compute).
  assert (Hf : is_full_like_cpp demo_group = false) by (by vm_compute).
  rewrite Hc, Hf in H. cbn [negb] in H. change (negb (0 =? _)) with false in H.
  rewrite decide_False in H by (apply (bool_decide_unpack _); by vm_compute).
  destruct H as (g' & sub & E & Em & _).
  - apply lookup_insert_eq.
  - reflexivity.
  - reflexivity.
  - apply (bool_decide_unpack _). by vm_compute.
  - intros g E. apply (inj Some) in E. subst g. exact demo_wf.
  - exists g', sub. exact (conj E Em).
Defined.







(** Player 1 invites 2, then accepts the invite to the own group, which only
    consumes it; 3 invites 1, who accepts; then 2 accepts the first invite.
    The announced leaders (3, then 1) are connected throughout. *)
Definition double_ops : list GroupOp :=
  [OpCreateInvite (player 1) (player 2) None 0 0;
   OpAcceptInvite (player 1) None (Some (player 1));
   OpCreateInvite (player 3) (player 1) None 0 0;
   OpAcceptInvite (player 1) None (Some (player 3));
   OpAcceptInvite (player 2) None (Some (player 1))].

(** The category of the lookup comes from the packet: looked up in another
    category, a player grouped in the home category can be invited, and the
    acceptance puts that player in a second home group. *)
Definition category_ops : list GroupOp :=
  form_group 1 2
  ++ [OpCreateInvite (player 3) (player 2) None 1 0; OpAcceptInvite (player 2) None (Some (player 3))].

Theorem category_of_packet_splits :
  exists s g1 g2, reachable 4 s /\
    groups (world s) !! 1 = Some g1 /\ groups (world s) !! 2 = Some g2 /\
    group_category g1 = GROUP_CATEGORY_HOME_LIKE_CPP /\ group_category g2 = GROUP_CATEGORY_HOME_LIKE_CPP /\
    members g1 = [player 1; player 2] /\ members g2 = [player 3; player 2].
Proof.
  exists (run category_ops initial_system),
    (default demo_group (groups (world (run category_ops initial_system)) !! 1)),
    (default demo_group (groups (world (run category_ops initial_system)) !! 2)).
  split; [apply (run_reachable category_ops 0); repeat constructor|].
  do 5 (split; [by vm_compute|]). by vm_compute.
Qed.

(** Without the condition on the announced leader the property fails: a
    run of five public operations, in the home category and with every
    announced leader connected, leaves player 1 in two stored groups and
    leader of one of them. *)
Theorem player_in_two_groups :
  exists s g1 g2, reachable 5 s /\
    groups (world s) !! 1 = Some g1 /\ groups (world s) !! 2 = Some g2 /\
    members g1 = [player 3; player 1] /\ members g2 = [player 1; player 2] /\
    leader_guid g2 = player 1.
Proof.
  exists (run double_ops initial_system),
    (default demo_group (groups (world (run double_ops initial_system)) !! 1)),
    (default demo_group (groups (world (run double_ops initial_system)) !! 2)).
  split; [apply (run_reachable double_ops 0); repeat constructor|].
  do 4 (split; [by vm_compute|]). by vm_compute.
Qed.
