(* ===== verification/GroupSettingsTheorems.v ===== *)
(** Theorems of the group settings: looter rotation, target icons, raid
    markers and the unique raid roles. *)
From S2P Require Import Prelude Guid GroupModel GroupMembership GroupSettings GroupRegistry GroupInvariant GroupSystem.

(** * Looter rotation *)
Lemma find_first_map {A B} (f : A -> B) (P : B -> Prop) `{forall x, Decision (P x)} l :
  find_first P (map f l) = f <$> find_first (fun x => P (f x)) l.
Proof.
  unfold find_first.
  change (map f l) with (f <$> l). rewrite list_find_fmap.
  change (P ∘ f) with (fun x => P (f x)). by destruct (list_find _ l) as [[? ?]|].
Qed.

Lemma position_map {A B} (f : A -> B) (P : B -> Prop) `{forall x, Decision (P x)} l :
  position P (map f l) = position (fun x => P (f x)) l.
Proof.
  unfold position. change (map f l) with (f <$> l). rewrite list_find_fmap.
  change (P ∘ f) with (fun x => P (f x)). by destruct (list_find _ l) as [[? ?]|].
Qed.

Lemma position_NoDup (l : list ObjectGuid) i x :
  NoDup l -> l !! i = Some x -> position (fun y => y = x) l = Some i.
Proof.
  intros Hnd Hi. unfold position. destruct (list_find _ l) as [[j y]|] eqn:E.
  - apply list_find_Some in E as (Hj & -> & _). cbn. f_equal. by eapply NoDup_lookup.
  - apply list_find_None in E. rewrite Forall_lookup in E. by destruct (E i x Hi).
Qed.

Lemma member_position g i x :
  group_wf g -> members g !! i = Some x ->
  position (fun s => slot_guid s = x) (member_slots g) = Some i.
Proof.
  intros W Hi. pose proof (wf_nodup g W) as Hnd. rewrite (wf_members g W), roster_fst in Hnd, Hi.
  pose proof (@position_map _ _ slot_guid (fun y => y = x) (fun y => decide (y = x)) (member_slots g))
    as E. etrans; [symmetry; exact E|]. by apply position_NoDup.
Qed.

(** The players in turn order after the one at position [i]; that player
    comes last. *)
Definition turn_order (i : nat) (l : list ObjectGuid) : list ObjectGuid :=
  map (fun d => default EMPTY (l !! ((i + d) mod length l)%nat)) (seq 1 (length l)).

Lemma turn_order_split i l :
  (i < length l)%nat -> turn_order i l = drop (S i) l ++ take (S i) l.
Proof.
  intros Hi. apply list_eq. intros k. unfold turn_order. rewrite list_lookup_fmap.
  destruct (decide (k < length l)%nat) as [Hk|Hk].
  - rewrite lookup_seq_lt by done. cbn [fmap option_fmap option_map].
    destruct (decide (S i + k < length l)%nat) as [H|H].
    + rewrite lookup_app_l by (rewrite length_drop; lia). rewrite lookup_drop.
      replace ((i + (1 + k)) mod length l)%nat with (S i + k)%nat
        by (rewrite Nat.mod_small; lia).
      destruct (lookup_lt_is_Some_2 l (S i + k)) as [x ->]; [lia|done].
    + rewrite lookup_app_r by (rewrite length_drop; lia). rewrite length_drop.
      rewrite lookup_take_lt by lia.
      replace ((i + (1 + k)) mod length l)%nat with (k - (length l - S i))%nat.
      * destruct (lookup_lt_is_Some_2 l (k - (length l - S i))) as [x ->]; [lia|done].
      * apply (Nat.mod_unique _ _ 1); lia.
  - rewrite lookup_seq_ge by lia. symmetry. apply lookup_ge_None_2.
    rewrite length_app, length_drop, length_take. lia.
Qed.

Lemma next_looter_order eligible g i :
  group_wf g -> (i < length (members g))%nat ->
  next_looter eligible (S i) (member_slots g) =
  find_first (fun x => x ∈ eligible) (turn_order i (members g)).
Proof.
  intros W Hi. rewrite turn_order_split by done. unfold next_looter.
  rewrite (wf_members g W), roster_fst.
  change (@fmap list _ _ _ slot_guid (member_slots g)) with (map slot_guid (member_slots g)).
  rewrite skipn_map, firstn_map, <- map_app.
  pose proof (@find_first_map _ _ slot_guid (fun x => x ∈ eligible) (fun x => decide (x ∈ eligible))
    (drop (S i) (member_slots g) ++ take (S i) (member_slots g))) as E. symmetry. exact E.
Qed.

(** Advancing the looter (not free for all) passes the turn to the first
    eligible member in turn order after the current looter, around the end of
    the roster and back to the current looter last; nobody eligible clears the
    looter.  A change is reported, and the sequence number moves, exactly when
    the looter differs. *)
Theorem looter_rotation_spec eligible g i :
  group_wf g -> (loot_method g =? LOOT_METHOD_FREE_FOR_ALL_LIKE_CPP) = false ->
  members g !! i = Some (looter_guid g) ->
  let next := find_first (fun x => x ∈ eligible) (turn_order i (members g)) in
  let changed := negb (bool_decide (next = Some (looter_guid g))) in
  update_looter_guid_like_cpp eligible false g =
  (g <| looter_guid := default EMPTY next |>
     <| sequence_num := if changed then u32 (sequence_num g + 1) else sequence_num g |>, changed).
Proof.
  intros W Hm Hi. cbv zeta. unfold update_looter_guid_like_cpp, looter_guid_like_cpp. rewrite Hm.
  rewrite (member_position g i _ W Hi). cbn [andb].
  rewrite next_looter_order by (done || by apply lookup_lt_Some in Hi).
  destruct (bool_decide _) eqn:Ed.
  - apply bool_decide_eq_true in Ed as ->. by destruct g.
  - done.
Qed.

(** Rotation with everybody in range, [k] times. *)
Fixpoint rotate_loot (k : nat) (eligible : list ObjectGuid) (g : GroupInfo) : GroupInfo :=
  match k with
  | O => g
  | S k => rotate_loot k eligible (update_looter_guid_like_cpp eligible false g).1
  end.

Lemma next_all_eligible eligible l i :
  l <> [] -> l ⊆ eligible ->
  find_first (fun x => x ∈ eligible) (turn_order i l) = l !! (S i mod length l)%nat.
Proof.
  intros Hne Hsub. unfold turn_order. destruct (length l) as [|n] eqn:En; [by destruct l|].
  assert (Hlt : (S i mod S n < length l)%nat) by (rewrite En; apply Nat.mod_upper_bound; lia).
  destruct (lookup_lt_is_Some_2 l _ Hlt) as [x Hx]. cbn [seq map]. rewrite Nat.add_1_r.
  rewrite Hx. cbn [default]. unfold find_first. cbn [list_find].
  rewrite decide_True; [done|]. apply Hsub. by eapply list_elem_of_lookup_2.
Qed.

(** With every member eligible the rotation is round-robin: after [k]
    advances the looter is the member [k] positions further around the
    roster, so in every full turn each member comes up exactly once. *)
Theorem looter_round_robin k eligible g i :
  group_wf g -> (loot_method g =? LOOT_METHOD_FREE_FOR_ALL_LIKE_CPP) = false ->
  members g ⊆ eligible -> members g !! i = Some (looter_guid g) ->
  members g !! ((i + k) mod length (members g))%nat = Some (looter_guid (rotate_loot k eligible g)).
Proof.
  intros W Hm Hsub Hi. revert g i W Hm Hsub Hi. induction k as [|k IH]; intros g i W Hm Hsub Hi.
  - pose proof (lookup_lt_Some _ _ _ Hi). by rewrite Nat.add_0_r, Nat.mod_small.
  - cbn [rotate_loot]. pose proof (lookup_lt_Some _ _ _ Hi) as Hlt.
    assert (Hne : members g <> []) by (intros E; rewrite E in Hlt; cbn in Hlt; lia).
    pose proof (update_looter_core eligible false g) as Hcore.
    assert (E : looter_guid (update_looter_guid_like_cpp eligible false g).1
      = default EMPTY (members g !! (S i mod length (members g))%nat) /\
      loot_method (update_looter_guid_like_cpp eligible false g).1 = loot_method g).
    { unfold update_looter_guid_like_cpp, looter_guid_like_cpp. rewrite Hm.
      rewrite (member_position g i _ W Hi). cbn [andb].
      rewrite next_looter_order, next_all_eligible by done.
      destruct (bool_decide _) eqn:Ed; [|done]. apply bool_decide_eq_true in Ed as ->. done. }
    destruct (update_looter_guid_like_cpp eligible false g) as [g1 ch]. cbn [fst] in *.
    destruct E as [El Emeth].
    assert (Hlen : (S i mod length (members g) < length (members g))%nat)
      by (apply Nat.mod_upper_bound; lia).
    destruct (lookup_lt_is_Some_2 (members g) _ Hlen) as [x Hx].
    pose proof (core_keep _ _ Hcore) as [Hstep Emem]. rewrite <- Emem.
    replace ((i + S k) mod length (members g1))%nat
      with ((S i mod length (members g1) + k) mod length (members g1))%nat.
    + apply IH; [by apply (step_wf _ _ Hstep)|by rewrite Emeth|by rewrite Emem|].
      by rewrite Emem, El, Hx.
    + rewrite Nat.Div0.add_mod_idemp_l. f_equal. lia.
Qed.

(** * Target icons *)
Definition clear_icons (hits : list nat) (icons : list (list Z)) : list (list Z) :=
  foldl (fun icons i => <[i := EMPTY_TARGET_ICON_RAW_LIKE_CPP]> icons) icons hits.

Lemma clear_icons_length hits icons : length (clear_icons hits icons) = length icons.
Proof.
  unfold clear_icons. revert icons. induction hits as [|i hits IH]; intros icons; [done|].
  cbn [foldl]. by rewrite IH, length_insert.
Qed.

Lemma clear_icons_lookup hits icons j :
  (j < length icons)%nat ->
  clear_icons hits icons !! j
  = if decide (j ∈ hits) then Some EMPTY_TARGET_ICON_RAW_LIKE_CPP else icons !! j.
Proof.
  unfold clear_icons. revert icons. induction hits as [|i hits IH]; intros icons Hj.
  - by rewrite decide_False by apply not_elem_of_nil.
  - cbn [foldl]. rewrite IH by (by rewrite length_insert).
    destruct (decide (j ∈ hits)) as [H|H]; [by rewrite decide_True by (by right)|].
    destruct (decide (j = i)) as [->|Hne].
    + by rewrite list_lookup_insert_eq, decide_True by (done || left).
    + rewrite list_lookup_insert_ne by done. by rewrite decide_False by (by apply not_elem_of_cons).
Qed.

(** The symbols that show [target]. *)
Definition shown_on (target : ObjectGuid) (g : GroupInfo) : list nat :=
  if is_empty target then []
  else filter (fun i => target_icons g !! i = Some (to_raw_bytes target)) (seq 0 8).

Lemma shown_on_lt target g i :
  length (target_icons g) = 8%nat -> i ∈ shown_on target g -> (i < length (target_icons g))%nat.
Proof.
  unfold shown_on. intros ->. destruct (is_empty target); [by intros ?%elem_of_nil|].
  intros [_ Hi]%list_elem_of_filter. apply elem_of_seq in Hi. lia.
Qed.

(** Setting a target icon puts the target on the chosen symbol, takes it
    off every other symbol and leaves the rest; so a real target shows on
    exactly one symbol, and decoding the stored bytes gives the target back.
    The updates name the cleared symbols in order and then the chosen one. *)
Theorem set_target_icon_spec symbol target g :
  length (target_icons g) = 8%nat -> 0 <= symbol < 8 -> guid_wf target ->
  let '(g', updates) := set_target_icon_like_cpp symbol target g in
  updates = Some (map (fun i => (Z.of_nat i, EMPTY)) (shown_on target g) ++ [(symbol, target)]) /\
  length (target_icons g') = 8%nat /\
  (forall i, target_icons g' !! i =
     if decide (i = Z.to_nat symbol) then Some (to_raw_bytes target)
     else if decide (i ∈ shown_on target g) then Some EMPTY_TARGET_ICON_RAW_LIKE_CPP
     else target_icons g !! i) /\
  (target <> EMPTY -> forall i, from_raw_bytes <$> target_icons g' !! i = Some target ->
     Forall (fun raw => length raw = 16%nat /\ Forall (in_u 8) raw) (target_icons g) ->
     i = Z.to_nat symbol) /\
  from_raw_bytes <$> target_icons g' !! Z.to_nat symbol = Some target.
Proof.
  intros Hlen Hs Hwf. unfold set_target_icon_like_cpp.
  replace (TARGET_ICONS_COUNT_LIKE_CPP <=? Z.to_nat symbol)%nat with false
    by (symmetry; apply Nat.leb_gt; unfold TARGET_ICONS_COUNT_LIKE_CPP; lia).
  cbv zeta. change (if is_empty target then [] else _) with (shown_on target g).
  set (hits := shown_on target g). change (foldl _ (target_icons g) hits) with
    (clear_icons hits (target_icons g)).
  assert (Hget : forall i, <[Z.to_nat symbol := to_raw_bytes target]>
      (clear_icons hits (target_icons g)) !! i =
    if decide (i = Z.to_nat symbol) then Some (to_raw_bytes target)
    else if decide (i ∈ hits) then Some EMPTY_TARGET_ICON_RAW_LIKE_CPP else target_icons g !! i).
  { intros i. destruct (decide (i = Z.to_nat symbol)) as [->|Hne].
    - rewrite list_lookup_insert_eq; [done|]. rewrite clear_icons_length. lia.
    - rewrite list_lookup_insert_ne by done. destruct (decide (i < length (target_icons g))%nat) as [Hi|Hi].
      + by apply clear_icons_lookup.
      + rewrite !lookup_ge_None_2 by (rewrite ?clear_icons_length; lia).
        rewrite decide_False; [done|]. intros Hin. apply Hi, (shown_on_lt target g i Hlen Hin). }
  split.
  { apply (f_equal (fun l => Some (l ++ [(symbol, target)]))). apply map_ext_in.
    intros i Hi%list_elem_of_In. apply (f_equal (fun z => (z, EMPTY))). apply wrap_u_id.
    pose proof (shown_on_lt target g i Hlen Hi). unfold in_u. lia. }
  split; [ssimpl_goal; by rewrite length_insert, clear_icons_length|]. split; [exact Hget|]. split.
  - intros Hne i E Hraw. destruct (decide (i = Z.to_nat symbol)) as [|Hi]; [done|]. exfalso.
    revert E. change (from_raw_bytes <$> <[Z.to_nat symbol := to_raw_bytes target]>
      (clear_icons hits (target_icons g)) !! i = Some target -> False).
    rewrite Hget, decide_False by done. destruct (decide (i ∈ hits)) as [|Hnot].
    + intros [= <-]. by apply Hne.
    + destruct (target_icons g !! i) as [raw|] eqn:Er; [|done]. intros [= <-]. apply Hnot.
      rewrite Forall_lookup in Hraw. destruct (Hraw i raw Er) as [H1 H2].
      unfold hits, shown_on. rewrite (not_true_is_false (is_empty _)) by (by rewrite is_empty_spec).
      apply list_elem_of_filter. rewrite to_from_raw_bytes by done. split; [done|].
      apply elem_of_seq. apply lookup_lt_Some in Er. lia.
  - change (from_raw_bytes <$> <[Z.to_nat symbol := to_raw_bytes target]>
      (clear_icons hits (target_icons g)) !! Z.to_nat symbol = Some target).
    rewrite Hget, decide_True by done. by apply (f_equal Some), from_to_raw_bytes.
Qed.

Lemma set_target_icon_spec_witness :
  from_raw_bytes <$> target_icons (set_target_icon_like_cpp 3 (player 9)
    (set_target_icon_like_cpp 1 (player 9) demo_group).1).1 !! 1%nat = Some EMPTY.
Proof.
  pose proof (set_target_icon_spec 3 (player 9) (set_target_icon_like_cpp 1 (player 9) demo_group).1)
    as H.
  destruct (set_target_icon_like_cpp 3 _ _) as [g' u]. destruct H as (_ & _ & H & _).
  - by vm_compute.
  - done.
  - split; split; vm_compute; congruence.
  - cbn [fst]. rewrite H. by vm_compute.
Defined.

(** * Main tank and main assist *)
Lemma clear_flag_absent x f : has_flag x f = false -> clear_flag x f = x.
Proof.
  unfold has_flag, clear_flag. intros H%negb_false_iff%Z.eqb_eq. apply Z.bits_inj'. intros i Hi.
  apply (f_equal (fun z => Z.testbit z i)) in H. rewrite Z.land_spec, Z.bits_0 in H.
  rewrite Z.ldiff_spec. by destruct (Z.testbit x i), (Z.testbit f i).
Qed.

Lemma clear_slot_absent f s : has_flag (flags s) f = false -> clear_slot_flag f s = s.
Proof. intros H. unfold clear_slot_flag. rewrite clear_flag_absent by done. by destruct s. Qed.

Lemma clear_flag_idem x f : clear_flag (clear_flag x f) f = clear_flag x f.
Proof.
  unfold clear_flag. apply Z.bits_inj'. intros i Hi. rewrite !Z.ldiff_spec.
  by destruct (Z.testbit x i), (Z.testbit f i).
Qed.

Lemma clear_if_present f l :
  map (fun s => if has_flag (flags s) f then clear_slot_flag f s else s) l = map (clear_slot_flag f) l.
Proof.
  apply map_ext. intros s. destruct (has_flag (flags s) f) eqn:E; [done|]. by rewrite clear_slot_absent.
Qed.

Lemma clear_twice f l : map (clear_slot_flag f) (map (clear_slot_flag f) l) = map (clear_slot_flag f) l.
Proof.
  rewrite map_map. apply map_ext. intros s. unfold clear_slot_flag. ssimpl_goal.
  by rewrite clear_flag_idem.
Qed.

Lemma remove_unique_slots flag g :
  is_unique_flag flag = true ->
  member_slots (remove_unique_group_member_flag_like_cpp flag g).1
  = map (clear_slot_flag flag) (member_slots g).
Proof.
  intros Hu. unfold remove_unique_group_member_flag_like_cpp. rewrite Hu. cbn [negb fst].
  rewrite <- clear_if_present. by destruct (existsb _ _).
Qed.

(** One slot of a duplicate-free list, found by its owner. *)
Lemma alter_owner f i (l : list GroupMemberSlotLikeCpp) s :
  l !! i = Some s -> NoDup (map slot_guid l) ->
  alter f i l = map (fun x => if decide (slot_guid x = slot_guid s) then f x else x) l.
Proof.
  revert i. induction l as [|a l IH]; intros [|i] Hs Hnd; simplify_eq/=;
    apply NoDup_cons in Hnd as [Ha Hnd].
  - rewrite decide_True by done. f_equal. symmetry. apply map_id_on. intros x Hx.
    rewrite decide_False; [done|]. intros E. apply Ha. rewrite <- E. by apply list_elem_of_fmap_2.
  - rewrite decide_False; [f_equal; by apply IH|]. intros E. apply Ha. rewrite E.
    apply list_elem_of_fmap_2. by eapply list_elem_of_lookup_2.
Qed.

Lemma role_bit_set x f : f = 2 \/ f = 4 -> has_flag (set_flag x f) f = true.
Proof.
  intros Hf. unfold has_flag, set_flag. apply negb_true_iff, Z.eqb_neq. intros E.
  assert (Ha : Z.land (Z.lor x f) f = f).
  { apply Z.bits_inj'. intros i Hi. rewrite Z.land_spec, Z.lor_spec.
    by destruct (Z.testbit x i), (Z.testbit f i). }
  rewrite Ha in E. lia.
Qed.

Lemma role_bit_clear x f : has_flag (clear_flag x f) f = false.
Proof.
  unfold has_flag, clear_flag. apply negb_false_iff, Z.eqb_eq, Z.bits_inj'. intros i Hi.
  rewrite Z.land_spec, Z.ldiff_spec, Z.bits_0. by destruct (Z.testbit x i), (Z.testbit f i).
Qed.

(** Assigning main tank or main assist in a raid, by an officer and for
    a member: afterwards the flag of the role is set on that member exactly if
    it was granted, and on nobody else; every other flag and every other field
    of the slots is untouched, and the one intent persists the member's flags. *)
Theorem party_assignment_spec actor member assignment flag apply g :
  group_wf g -> is_raid_group g = true -> assignment_flag assignment = Some flag ->
  not_leader_or_assistant actor g = false -> member ∈ members g ->
  let b := set_party_assignment_transition_body actor member assignment apply g in
  member_slots b.1 = map (fun s => if decide (slot_guid s = member)
                                   then apply_slot_flag apply flag (clear_slot_flag flag s)
                                   else clear_slot_flag flag s) (member_slots g) /\
  members b.1 = members g /\
  exists f, b.2 = Ok (mkOutcome b.1 [(member, f)] [UpdateMemberFlags member f]) /\
    has_flag f flag = apply.
Proof.
  intros W Hraid Hflag Hrank Hin. cbv zeta. unfold set_party_assignment_transition_body.
  assert (Hu : is_unique_flag flag = true).
  { revert Hflag. unfold assignment_flag. destruct (_ =? _); [by intros [= <-]|].
    destruct (_ =? _); [by intros [= <-]|done]. }
  rewrite bseq_fail_if, Hrank, Hflag, !bseq_call. unfold outcome. cbn [fst snd].
  pose proof (remove_unique_flag_core flag g) as Hcore.
  pose proof (remove_unique_slots flag g Hu) as Hslots.
  set (g1 := (remove_unique_group_member_flag_like_cpp flag g).1) in *.
  pose proof (core_keep _ _ Hcore) as [Hstep Emem]. pose proof (step_wf _ _ Hstep W) as W1.
  assert (Hraid1 : is_raid_group g1 = true)
    by (rewrite <- Hraid; unfold core in Hcore; congruence).
  rewrite <- Emem in Hin. apply (slot_position_members member g1 W1) in Hin as [i Hi].
  destruct (slot_position_Some member g1 i Hi) as (s & Hs & Hguid).
  pose proof (set_flag_updates_core member apply flag g1) as Hcore2.
  unfold set_group_member_flag_updates_like_cpp in Hcore2 |- *.
  rewrite Hraid1, Hi, Hu, orb_true_r in Hcore2 |- *. cbn [negb fst snd] in *.
  set (g2 := update_slot i (apply_slot_flag apply flag) _) in *.
  set (ch := existsb _ (member_slots g2)) in *.
  assert (E2 : member_slots (if ch then bump g2 else g2) =
    map (fun s => if decide (slot_guid s = member)
                  then apply_slot_flag apply flag (clear_slot_flag flag s)
                  else clear_slot_flag flag s) (member_slots g)).
  { transitivity (member_slots g2); [by destruct ch|]. unfold g2, update_slot. ssimpl_goal.
    rewrite Hslots, clear_twice.
    assert (Hs' : map (clear_slot_flag flag) (member_slots g) !! i = Some s) by (by rewrite <- Hslots).
    rewrite (alter_owner _ i _ s Hs').
    - rewrite map_map. apply map_ext. intros x. cbn. by rewrite Hguid.
    - rewrite map_map. cbn. pose proof (wf_nodup g W) as Hnd.
      by rewrite (wf_members g W), roster_fst in Hnd. }
  assert (Hlook : exists s0, member_slots g !! i = Some s0 /\ slot_guid s0 = member).
  { rewrite Hslots in Hs. change (map ?f ?l) with (f <$> l) in Hs. rewrite list_lookup_fmap in Hs.
    destruct (member_slots g !! i) as [s0|]; [|done]. exists s0. split; [done|].
    injection Hs as <-. exact Hguid. }
  destruct Hlook as (s0 & Hs0 & Hguid0).
  assert (El : member_slots (if ch then bump g2 else g2) !! i
    = Some (apply_slot_flag apply flag (clear_slot_flag flag s0))).
  { rewrite E2. change (map ?f ?l) with (f <$> l). rewrite list_lookup_fmap, Hs0. cbn.
    by rewrite decide_True. }
  split; [exact E2|]. split.
  { rewrite <- Emem. apply (core_keep _ _ Hcore2). }
  rewrite El. cbn [fmap option_fmap option_map default map fst snd]. eexists. split; [reflexivity|].
  revert Hflag. unfold assignment_flag.
  destruct (_ =? _); [|destruct (_ =? _); [|done]]; intros [= <-]; destruct apply;
    cbn [apply_slot_flag set_slot_flag clear_slot_flag flags];
    [apply role_bit_set|apply role_bit_clear|apply role_bit_set|apply role_bit_clear]; auto.
Qed.

(** * Instances: the raid of players 1, 2 and 3 *)
Lemma looter_rotation_spec_witness :
  update_looter_guid_like_cpp [player 3; player 1] false demo_group
  = (demo_group <| looter_guid := player 3 |>
                <| sequence_num := u32 (sequence_num demo_group + 1) |>, true).
Proof.
  pose proof (looter_rotation_spec [player 3; player 1] demo_group 0 demo_wf) as H. cbv zeta in H.
  assert (E : find_first (fun x => x ∈ [player 3; player 1]) (turn_order 0 (members demo_group))
              = Some (player 3)) by (by vm_compute).
  assert (El : looter_guid demo_group = player 1) by (by vm_compute).
  rewrite E, El in H.
  rewrite bool_decide_eq_false_2 in H by (apply (bool_decide_unpack _); by vm_compute).
  apply H; by vm_compute.
Defined.

Lemma looter_round_robin_witness :
  members demo_group !! 1%nat
  = Some (looter_guid (rotate_loot 4 [player 1; player 2; player 3] demo_group)).
Proof.
  apply (looter_round_robin 4 [player 1; player 2; player 3] demo_group 0 demo_wf).
  - by vm_compute.
  - assert (E : members demo_group = [player 1; player 2; player 3]) by (by vm_compute).
    by rewrite E.
  - by vm_compute.
Defined.

Lemma party_assignment_spec_witness :
  map flags (member_slots
    (set_party_assignment_transition_body (player 1) (player 2) 0 true demo_group).1) = [0; 2; 0].
Proof.
  pose proof (party_assignment_spec (player 1) (player 2) 0 2 true demo_group demo_wf) as H.
  cbv zeta in H. destruct H as [-> _].
  - by vm_compute.
  - reflexivity.
  - by vm_compute.
  - apply (bool_decide_unpack _). by vm_compute.
  - by vm_compute.
Defined.

(** Theorems of the ready-check state machine: starting, answering, expiry. *)

(** * States *)
Definition mark_slot (s : GroupMemberSlotLikeCpp) : GroupMemberSlotLikeCpp :=
  s <| ready_checked := true |>.
Definition reset_slot (s : GroupMemberSlotLikeCpp) : GroupMemberSlotLikeCpp :=
  s <| ready_checked := false |>.

(** No check runs and nobody is marked. *)
Definition idle (g : GroupInfo) : Prop :=
  ready_check_started g = false /\ ready_check_timer_ms g = 0 /\
  Forall (fun s => ready_checked s = false) (member_slots g).

(** The group once its check ended. *)
Definition ended (g : GroupInfo) : GroupInfo :=
  g <| ready_check_started := false |> <| ready_check_timer_ms := 0 |>
    <| member_slots := map reset_slot (member_slots g) |>.

Lemma ended_idle g : idle (ended g).
Proof. split; [done|split; [done|]]. by apply Forall_map, Forall_true. Qed.

Lemma end_started g :
  ready_check_started g = true ->
  end_ready_check_like_cpp g = (ended g, [Completed 0 (group_guid g)]).
Proof. intros E. unfold end_ready_check_like_cpp. by rewrite E. Qed.

Lemma reset_mark i l : map reset_slot (alter mark_slot i l) = map reset_slot l.
Proof.
  revert i. induction l as [|s l IH]; intros [|i]; simpl; [done..|]. by f_equal; apply IH.
Qed.

Lemma ended_mark i g : ended (update_slot i mark_slot g) = ended g.
Proof. unfold ended, update_slot. ssimpl_goal. by rewrite reset_mark. Qed.

Lemma set_ready_checked_eq i g :
  ready_check_started g = true ->
  set_member_ready_checked_like_cpp i g =
  let g1 := update_slot i mark_slot g in
  if forallb ready_checked (member_slots g1) then (ended g, [Completed 0 (group_guid g)])
  else (g1, []).
Proof.
  intros E. unfold set_member_ready_checked_like_cpp, is_ready_check_completed_like_cpp. cbv zeta.
  change (fun s => s <| ready_checked := true |>) with mark_slot.
  destruct (forallb _ _); [|done]. by rewrite end_started, ended_mark.
Qed.

Lemma ready_check_slot_eq i r g s :
  ready_check_started g = true -> member_slots g !! i = Some s ->
  set_member_ready_check_slot_like_cpp i r g =
  let g1 := update_slot i mark_slot g in
  if forallb ready_checked (member_slots g1)
  then (ended g, [Response (group_guid g) (slot_guid s) r; Completed 0 (group_guid g)])
  else (g1, [Response (group_guid g) (slot_guid s) r]).
Proof.
  intros E Hs. unfold set_member_ready_check_slot_like_cpp. rewrite Hs, set_ready_checked_eq by done.
  cbv zeta. by destruct (forallb _ _).
Qed.

(** * Answers *)
Lemma all_marked guid l :
  forallb ready_checked (map (fun s => if bool_decide (slot_guid s = guid) then mark_slot s else s) l)
  = forallb (fun s => ready_checked s || bool_decide (slot_guid s = guid)) l.
Proof.
  induction l as [|a l IH]; [done|]. simpl. rewrite IH.
  by destruct (bool_decide (slot_guid a = guid)); rewrite ?orb_true_r, ?orb_false_r.
Qed.

(** An answer of a member during a check is announced, and marks exactly
    that member, whatever the answer.  When every other member was marked
    already it also completes the check: one completion event, the check is
    off, the timer is zero and all marks are cleared.  Without a running check,
    or from a player who is not a member, nothing happens. *)
Theorem respond_spec guid r g :
  group_wf g ->
  let result := set_member_ready_check_like_cpp guid r g in
  if ready_check_started g && bool_decide (guid ∈ members g) then
    result.2 = Response (group_guid g) guid r ::
      (if forallb (fun s => ready_checked s || bool_decide (slot_guid s = guid)) (member_slots g)
       then [Completed 0 (group_guid g)] else []) /\
    (if forallb (fun s => ready_checked s || bool_decide (slot_guid s = guid)) (member_slots g)
     then idle result.1
     else ready_check_started result.1 = true /\
       ready_check_timer_ms result.1 = ready_check_timer_ms g /\
       member_slots result.1 =
         map (fun s => if bool_decide (slot_guid s = guid) then mark_slot s else s) (member_slots g))
  else result = (g, []).
Proof.
  intros W. cbv zeta. unfold set_member_ready_check_like_cpp.
  destruct (ready_check_started g) eqn:Est; [|done]. cbn [negb andb].
  pose proof (slot_position_members guid g W) as Hpos.
  destruct (slot_position guid g) as [i|] eqn:Hi.
  2: { rewrite bool_decide_eq_false_2; [done|]. intros Hin. apply Hpos in Hin. by destruct Hin. }
  rewrite bool_decide_eq_true_2 by (apply Hpos; eauto).
  destruct (slot_position_Some guid g i Hi) as (s & Hs & Hguid).
  rewrite (ready_check_slot_eq i r g s Est Hs). cbv zeta. rewrite Hguid.
  assert (Eslots : member_slots (update_slot i mark_slot g) =
    map (fun s => if bool_decide (slot_guid s = guid) then mark_slot s else s) (member_slots g)).
  { unfold update_slot. ssimpl_goal. pose proof (wf_nodup g W) as Hnd.
    rewrite (wf_members g W), roster_fst in Hnd. rewrite <- Hguid.
    clear -Hs Hnd. revert i Hs Hnd. induction (member_slots g) as [|a l IH]; intros [|i] Hs Hnd;
      simplify_eq/=; apply NoDup_cons in Hnd as [Ha Hnd].
    - rewrite bool_decide_eq_true_2 by done. f_equal. symmetry. apply map_id_on.
      intros x Hx. rewrite bool_decide_eq_false_2; [done|]. intros E. apply Ha. rewrite <- E.
      by apply list_elem_of_fmap_2.
    - rewrite bool_decide_eq_false_2; [|intros E; apply Ha; rewrite E;
        apply list_elem_of_fmap_2; by eapply list_elem_of_lookup_2].
      f_equal. by apply IH. }
  rewrite Eslots.
  pose proof (all_marked guid (member_slots g)) as Eall.
  rewrite Eall. destruct (forallb _ (member_slots g)).
  - split; [done|]. apply ended_idle.
  - split; [done|]. split; [done|]. split; [done|exact Eslots].
Qed.

(** * Expiry *)
(** Successive timer ticks of one group. *)
Definition ticks (ds : list Z) (g : GroupInfo) : GroupInfo * list ReadyCheckEventLikeCpp :=
  foldl (fun acc d => let '(g1, ev) := update_ready_check_like_cpp d acc.1 in (g1, acc.2 ++ ev))
    (g, []) ds.

Lemma ticks_cons d ds g :
  ticks (d :: ds) g =
  let '(g1, ev) := update_ready_check_like_cpp d g in
  let '(g2, ev2) := ticks ds g1 in (g2, ev ++ ev2).
Proof.
  assert (H : forall ds acc,
    foldl (fun acc d => let '(g1, ev) := update_ready_check_like_cpp d acc.1 in (g1, acc.2 ++ ev))
      acc ds = let '(g2, ev2) := ticks ds acc.1 in (g2, acc.2 ++ ev2)).
  { clear. induction ds as [|d ds IH]; intros [g ev]; [cbn; by rewrite app_nil_r|].
    unfold ticks. cbn [foldl fst snd app].
    destruct (update_ready_check_like_cpp d g) as [g1 e1]. rewrite !IH. cbn [fst snd].
    destruct (ticks ds g1). by rewrite app_assoc. }
  unfold ticks at 1. cbn [foldl fst snd app].
  destruct (update_ready_check_like_cpp d g) as [g1 e1]. by rewrite H.
Qed.

Lemma ticks_off ds g : ready_check_started g = false -> ticks ds g = (g, []).
Proof.
  intros E. induction ds as [|d ds IH]; [done|]. rewrite ticks_cons.
  unfold update_ready_check_like_cpp. rewrite E. cbn [negb]. by rewrite IH.
Qed.

(** A running check that nobody answers ends by time: over any sequence
    of ticks, nothing is announced and the check goes on with the timer
    reduced by the elapsed time as long as the total is below the remaining
    time; once the total reaches it exactly one completion event has been
    announced, and the group is idle, whatever ticks follow. *)
Theorem ready_check_expires ds g :
  ready_check_started g = true -> 0 < ready_check_timer_ms g <= READYCHECK_DURATION_MS_LIKE_CPP ->
  Forall (in_u 32) ds ->
  let total := foldr Z.add 0 ds in
  let '(g', events) := ticks ds g in
  if ready_check_timer_ms g <=? total
  then events = [Completed 0 (group_guid g)] /\ idle g'
  else events = [] /\ g' = g <| ready_check_timer_ms := ready_check_timer_ms g - total |>.
Proof.
  intros Est Ht Hds. cbv zeta. revert g Est Ht. induction Hds as [|d ds Hd Hds IH]; intros g Est Ht.
  - cbn. replace (ready_check_timer_ms g <=? 0) with false by (symmetry; apply Z.leb_gt; lia).
    split; [done|]. rewrite Z.sub_0_r. by destruct g.
  - rewrite ticks_cons. unfold update_ready_check_like_cpp. rewrite Est. cbn [negb].
    assert (Hsum : 0 <= foldr Z.add 0 ds).
    { clear -Hds. induction Hds as [|d ds [? ?] _ IH]; cbn; lia. }
    unfold READYCHECK_DURATION_MS_LIKE_CPP in Ht. destruct Hd as [Hd0 Hd1].
    assert (Ew : i64 (ready_check_timer_ms g - d) = ready_check_timer_ms g - d).
    { apply wrap_s_id; [lia|]. unfold in_s. lia. }
    cbv zeta. ssimpl_goal. rewrite Ew.
    destruct (ready_check_timer_ms g - d <=? 0) eqn:E.
    + apply Z.leb_le in E. rewrite end_started by done. rewrite ticks_off by done.
      replace (ready_check_timer_ms g <=? d + foldr Z.add 0 ds) with true
        by (symmetry; apply Z.leb_le; lia).
      split; [done|]. apply ended_idle.
    + apply Z.leb_gt in E.
      pose (g1 := g <| ready_check_timer_ms := ready_check_timer_ms g - d |>).
      specialize (IH g1 Est). subst g1. revert IH. ssimpl_goal. intros IH. unfold READYCHECK_DURATION_MS_LIKE_CPP in IH.
      specialize (IH ltac:(lia)).
      destruct (ticks ds _) as [g' ev]. cbn [app].
      replace (ready_check_timer_ms g <=? d + foldr Z.add 0 ds)
        with (ready_check_timer_ms g - d <=? foldr Z.add 0 ds)
        by (destruct (Z.leb_spec (ready_check_timer_ms g - d) (foldr Z.add 0 ds)),
                     (Z.leb_spec (ready_check_timer_ms g) (d + foldr Z.add 0 ds)); lia || done).
      revert IH. cbv beta iota zeta.
      destruct (ready_check_timer_ms g - d <=? foldr Z.add 0 ds); [done|]. intros [-> ->]. split; [done|].
      by rewrite Z.sub_add_distr.
Qed.

(** * Starting *)
Definition mark_all (l : list nat) (slots : list GroupMemberSlotLikeCpp)
  : list GroupMemberSlotLikeCpp := foldl (fun sl i => alter mark_slot i sl) slots l.

Definition with_slots (slots : list GroupMemberSlotLikeCpp) (g : GroupInfo) : GroupInfo :=
  g <| member_slots := slots |>.

Lemma mark_slot_guid (i j : nat) (slots : list GroupMemberSlotLikeCpp) :
  slot_guid <$> alter mark_slot i slots !! j = slot_guid <$> slots !! j.
Proof.
  destruct (decide (i = j)) as [->|Hij].
  - rewrite list_lookup_alter_eq. by destruct (slots !! j).
  - by rewrite list_lookup_alter_ne.
Qed.

(** Marking the slots [l] in turn: a response each; the check ends when the
    last mark completes it. *)
Lemma mark_offline_spec l g :
  ready_check_started g = true ->
  Forall (fun i => i < length (member_slots g))%nat l ->
  (forall l1 i l2, l = l1 ++ i :: l2 -> forallb ready_checked (mark_all l1 (member_slots g)) = false) ->
  mark_offline l g =
  let responses := omap (fun i => (fun s => Response (group_guid g) (slot_guid s) false)
                                    <$> member_slots g !! i) l in
  let slots' := mark_all l (member_slots g) in
  if match l with [] => false | _ => forallb ready_checked slots' end
  then (ended g, responses ++ [Completed 0 (group_guid g)])
  else (with_slots slots' g, responses).
Proof.
  revert g. induction l as [|i l IH]; intros g Est Hl Hpre; cbv zeta.
  { cbn. by destruct g. }
  cbn [mark_offline]. rewrite Est. apply Forall_cons in Hl as [Hi Hl].
  destruct (lookup_lt_is_Some_2 _ _ Hi) as [s Hs].
  rewrite (ready_check_slot_eq i false g s Est Hs). cbv zeta. cbn [omap list_omap]. rewrite Hs.
  cbn [fmap option_fmap option_map mark_all foldl].
  set (g1 := update_slot i mark_slot g).
  change (member_slots g1) with (alter mark_slot i (member_slots g)).
  destruct l as [|i2 l].
  { cbn. by destruct (forallb _ _). }
  assert (Hne : forallb ready_checked (alter mark_slot i (member_slots g)) = false)
    by apply (Hpre [i] i2 l eq_refl).
  rewrite Hne. rewrite (IH g1 Est).
  - cbv zeta. change (member_slots g1) with (alter mark_slot i (member_slots g)).
    rewrite (list_omap_ext _ (fun j => (fun s => Response (group_guid g) (slot_guid s) false)
      <$> member_slots g !! j) (i2 :: l) (i2 :: l)).
    2: { apply Forall_Forall2_diag, Forall_true. intros b.
         pose proof (mark_slot_guid i b (member_slots g)) as E.
         destruct (alter mark_slot i (member_slots g) !! b), (member_slots g !! b); simplify_eq/=;
           [by rewrite E|done]. }
    unfold mark_all. cbn [foldl].
    match goal with |- _ = (if ?c then _ else _) => destruct c end; [|reflexivity].
    by rewrite <- (ended_mark i g).
  - change (member_slots g1) with (alter mark_slot i (member_slots g)). by rewrite length_alter.
  - intros l1 j l2 E. apply (Hpre (i :: l1) j l2). by rewrite E.
Qed.

Section Offline.
Variable connected : list ObjectGuid.

(** [offline_indices] of a suffix that starts at position [k]. *)
Definition offline_from (k : nat) (l : list GroupMemberSlotLikeCpp) : list nat :=
  omap (fun p => if decide (slot_guid (snd p) ∈ connected) then None else Some (fst p))
    (imap (fun i s => ((k + i)%nat, s)) l).

Definition offline (s : GroupMemberSlotLikeCpp) : bool :=
  negb (bool_decide (slot_guid s ∈ connected)).

Lemma offline_from_cons k s l :
  offline_from k (s :: l) = (if offline s then [k] else []) ++ offline_from (S k) l.
Proof.
  unfold offline_from, offline. rewrite imap_cons.
  assert (imap ((fun i s => ((k + i)%nat, s)) ∘ S) l = imap (fun i s => ((S k + i)%nat, s)) l) as ->.
  { apply imap_ext. intros i x _. cbn. f_equal. lia. }
  cbn [omap list_omap fst snd]. rewrite Nat.add_0_r.
  destruct (decide (slot_guid s ∈ connected)) as [H|H].
  - by rewrite bool_decide_eq_true_2.
  - by rewrite bool_decide_eq_false_2.
Qed.

Lemma offline_indices_from g : offline_indices connected g = offline_from 0 (member_slots g).
Proof. done. Qed.

Lemma offline_from_range k l : Forall (fun i => k <= i < k + length l)%nat (offline_from k l).
Proof.
  revert k. induction l as [|s l IH]; intros k; [constructor|]. rewrite offline_from_cons.
  apply Forall_app. split.
  - destruct (offline s); [|constructor]. constructor; [cbn; lia|constructor].
  - eapply Forall_impl; [apply IH|]. cbn. lia.
Qed.

Lemma offline_from_NoDup k l : NoDup (offline_from k l).
Proof.
  revert k. induction l as [|s l IH]; intros k; [constructor|]. rewrite offline_from_cons.
  destruct (offline s); [|apply IH]. apply NoDup_cons. split; [|apply IH].
  intros Hin. pose proof (offline_from_range (S k) l) as H. rewrite Forall_forall in H.
  specialize (H _ Hin). lia.
Qed.

Lemma offline_responses {B} (f : GroupMemberSlotLikeCpp -> B) pre l :
  omap (fun i => f <$> (pre ++ l) !! i) (offline_from (length pre) l)
  = map f (filter (fun s => offline s = true) l).
Proof.
  revert pre. induction l as [|s l IH]; intros pre; [done|].
  rewrite offline_from_cons, omap_app, filter_cons.
  specialize (IH (pre ++ [s])). rewrite <- app_assoc in IH. cbn [app] in IH.
  rewrite length_app in IH. cbn [length] in IH. rewrite Nat.add_1_r in IH. rewrite IH.
  destruct (offline s) eqn:E.
  - rewrite decide_True by done. cbn [omap list_omap]. by rewrite list_lookup_middle.
  - by rewrite decide_False.
Qed.

Lemma mark_all_app l1 l2 slots : mark_all (l1 ++ l2) slots = mark_all l2 (mark_all l1 slots).
Proof. unfold mark_all. apply foldl_app. Qed.

Lemma mark_all_offline pre l :
  mark_all (offline_from (length pre) l) (pre ++ l)
  = pre ++ map (fun s => if offline s then mark_slot s else s) l.
Proof.
  revert pre. induction l as [|s l IH]; intros pre; [done|].
  rewrite offline_from_cons, mark_all_app. cbn [map].
  assert (E : mark_all (if offline s then [length pre] else []) (pre ++ s :: l)
    = (pre ++ [if offline s then mark_slot s else s]) ++ l).
  { rewrite <- app_assoc. destruct (offline s); [|done]. cbn [mark_all foldl].
    rewrite alter_app_r_alt by lia. by rewrite Nat.sub_diag. }
  rewrite E.
  specialize (IH (pre ++ [if offline s then mark_slot s else s])). rewrite length_app in IH.
  cbn [length] in IH. rewrite Nat.add_1_r in IH. rewrite IH. by rewrite <- app_assoc.
Qed.

Lemma mark_all_lookup_other l slots i : i ∉ l -> mark_all l slots !! i = slots !! i.
Proof.
  revert slots. induction l as [|j l IH]; intros slots Hi; [done|].
  apply not_elem_of_cons in Hi as [Hij Hi]. cbn. change (mark_all l (alter mark_slot j slots) !! i = slots !! i).
  rewrite IH by done. by rewrite list_lookup_alter_ne.
Qed.
End Offline.

Lemma forallb_lookup_false {A} (f : A -> bool) l i x :
  l !! i = Some x -> f x = false -> forallb f l = false.
Proof.
  intros Hl Hf. apply not_true_iff_false. rewrite forallb_forall. intros H.
  rewrite H in Hf; [done|]. apply list_elem_of_In. by eapply list_elem_of_lookup_2.
Qed.

Lemma forallb_ready_map (p : GroupMemberSlotLikeCpp -> bool) l :
  Forall (fun s => ready_checked s = false) l ->
  forallb ready_checked (map (fun s => if p s then mark_slot s else s) l) = forallb p l.
Proof.
  induction 1 as [|s l Hs Hl IH]; [done|]. simpl. rewrite IH.
  by destruct (p s); simpl; rewrite ?Hs.
Qed.

Lemma mark_starter connected starter slots i s :
  slots !! i = Some s -> slot_guid s = starter -> NoDup (map slot_guid slots) ->
  alter mark_slot i (map (fun s => if offline connected s then mark_slot s else s) slots)
  = map (fun s => if offline connected s || bool_decide (slot_guid s = starter)
                  then mark_slot s else s) slots.
Proof.
  intros Hs <- Hnd. revert i Hs. induction slots as [|a l IH]; intros [|i] Hs; simplify_eq/=;
    apply NoDup_cons in Hnd as [Ha Hnd].
  - rewrite bool_decide_eq_true_2, orb_true_r by done. f_equal; [by destruct (offline _ _)|].
    apply map_ext_in. intros x Hx%list_elem_of_In.
    rewrite bool_decide_eq_false_2, orb_false_r; [done|]. intros E. apply Ha. rewrite <- E.
    by apply list_elem_of_fmap_2.
  - rewrite bool_decide_eq_false_2, orb_false_r.
    + f_equal. by apply IH.
    + intros E. apply Ha. rewrite E. apply list_elem_of_fmap_2. by eapply list_elem_of_lookup_2.
Qed.

(** Starting a check from an idle group on behalf of a member announces,
    in this order, a negative answer for every member that is not connected in
    roster order, the completion of the check when nobody else has to answer,
    and the start of the check with a duration of 35 s.  Unless it completed
    at once, the check runs with a full timer and exactly the starter and the
    unconnected members are marked; a completed check leaves the group idle. *)
Theorem start_spec starter connected g :
  idle g -> group_wf g -> starter ∈ members g ->
  let answered s := offline connected s || bool_decide (slot_guid s = starter) in
  let all_answered := forallb answered (member_slots g) in
  let '(g', events) := start_ready_check_like_cpp starter connected g in
  events = map (fun s => Response (group_guid g) (slot_guid s) false)
             (filter (fun s => offline connected s = true) (member_slots g))
           ++ (if all_answered then [Completed 0 (group_guid g)] else [])
           ++ [Started 0 (group_guid g) starter READYCHECK_DURATION_MS_LIKE_CPP] /\
  if all_answered then idle g'
  else ready_check_started g' = true /\ ready_check_timer_ms g' = READYCHECK_DURATION_MS_LIKE_CPP /\
    member_slots g' = map (fun s => if answered s then mark_slot s else s) (member_slots g).
Proof.
  intros (Hoff & Ht & Hidle) W Hin. cbv zeta. unfold start_ready_check_like_cpp. rewrite Hoff.
  apply (slot_position_members starter g W) in Hin as [i Hi]. rewrite Hi.
  destruct (slot_position_Some starter g i Hi) as (s & Hs & Hguid).
  pose (g1 := g <| ready_check_started := true |>
                <| ready_check_timer_ms := READYCHECK_DURATION_MS_LIKE_CPP |>).
  change (g <| ready_check_started := true |>
            <| ready_check_timer_ms := READYCHECK_DURATION_MS_LIKE_CPP |>) with g1.
  cbv zeta. rewrite (offline_indices_from connected g1).
  change (member_slots g1) with (member_slots g).
  rewrite (mark_offline_spec _ g1 eq_refl).
  2: { eapply Forall_impl; [apply offline_from_range|]. cbn. intros j Hj. apply Hj. }
  2: { intros l1 j l2 E. change (member_slots g1) with (member_slots g).
       pose proof (offline_from_NoDup connected 0 (member_slots g)) as Hnd. rewrite E in Hnd.
       apply NoDup_app in Hnd as (_ & Hnd & _).
       pose proof (offline_from_range connected 0 (member_slots g)) as Hr.
       rewrite E in Hr. apply Forall_app in Hr as [_ Hr]. apply Forall_cons in Hr as [Hr _].
       destruct (lookup_lt_is_Some_2 (member_slots g) j) as [x Hx]; [lia|].
       apply (forallb_lookup_false _ _ j x).
       - rewrite mark_all_lookup_other; [done|]. intros Hj. by apply (Hnd j Hj); left.
       - rewrite Forall_lookup in Hidle. by apply (Hidle j). }
  cbv zeta. change (member_slots g1) with (member_slots g). change (group_guid g1) with (group_guid g).
  pose proof (offline_responses connected (fun s => Response (group_guid g) (slot_guid s) false) []
    (member_slots g)) as Eresp. cbn [app length] in Eresp. rewrite Eresp.
  pose proof (mark_all_offline connected [] (member_slots g)) as Emark. cbn [app length] in Emark.
  rewrite Emark, forallb_ready_map by done.
  set (slots := member_slots g) in *.
  set (resp := map _ (filter _ slots)).
  assert (Hno : offline_from connected 0 slots = [] -> forallb (offline connected) slots = false).
  { intros E. apply (forallb_lookup_false _ _ i s Hs). apply not_true_iff_false. intros Ho.
    pose proof (mark_all_offline connected [] slots) as Em. cbn [app length] in Em.
    rewrite E in Em. apply (f_equal (fun l => l !! i)) in Em. cbn in Em.
    rewrite list_lookup_fmap, Hs in Em. cbn in Em. rewrite Ho in Em. injection Em as Em.
    rewrite Forall_lookup in Hidle. specialize (Hidle i s Hs). by rewrite Em in Hidle. }
  set (c := match offline_from connected 0 slots with [] => false | _ => _ end).
  assert (Ec : c = forallb (offline connected) slots).
  { subst c. destruct (offline_from connected 0 slots); [by rewrite Hno|done]. }
  rewrite Ec. clear c Ec.
  destruct (forallb (offline connected) slots) eqn:Eall.
  - assert (forallb (fun s => offline connected s || bool_decide (slot_guid s = starter)) slots = true)
      as ->.
    { rewrite forallb_forall in Eall |- *. intros x Hx. by rewrite Eall. }
    change (ready_check_started (ended g1)) with false. cbv iota.
    split; [|apply (ended_idle g1)]. rewrite <- app_assoc. reflexivity.
  - change (ready_check_started (with_slots _ g1)) with true. cbv iota.
    rewrite set_ready_checked_eq by done. cbv zeta.
    set (g2 := with_slots _ g1).
    assert (Es : member_slots (update_slot i mark_slot g2) =
      map (fun s => if offline connected s || bool_decide (slot_guid s = starter)
                    then mark_slot s else s) slots).
    { apply (mark_starter connected starter slots i s); try done.
      pose proof (wf_nodup g W) as Hnd. by rewrite (wf_members g W), roster_fst in Hnd. }
    rewrite Es, forallb_ready_map by done.
    match goal with |- context [if ?c then (ended g2, _) else _] => destruct c end; cbv beta iota.
    + split; [reflexivity|]. apply (ended_idle g2).
    + split; [reflexivity|]. split; [done|]. split; [done|exact Es].
Qed.

(** * Instances: the raid of players 1, 2 and 3, of whom 3 is not connected *)
Lemma demo_idle : idle demo_group.
Proof. split; [by vm_compute|]. split; [by vm_compute|]. by apply (bool_decide_unpack _); vm_compute. Qed.

Definition demo_check : GroupInfo :=
  (start_ready_check_like_cpp (player 1) [player 1; player 2] demo_group).1.

Lemma start_spec_witness :
  (start_ready_check_like_cpp (player 1) [player 1; player 2] demo_group).2
  = [Response (group_guid demo_group) (player 3) false;
     Started 0 (group_guid demo_group) (player 1) READYCHECK_DURATION_MS_LIKE_CPP].
Proof.
  pose proof (start_spec (player 1) [player 1; player 2] demo_group demo_idle demo_wf) as H.
  assert (Hin : player 1 ∈ members demo_group)
    by (apply (bool_decide_unpack _); by vm_compute).
  specialize (H Hin). cbv zeta in H.
  destruct (start_ready_check_like_cpp _ _ _) as [g' ev]. destruct H as [-> _]. by vm_compute.
Defined.

Lemma demo_check_wf : group_wf demo_check.
Proof. apply (step_wf demo_group); [|exact demo_wf]. apply core_step, start_ready_check_core. Qed.

Lemma respond_spec_witness :
  (set_member_ready_check_like_cpp (player 2) true demo_check).2
  = [Response (group_guid demo_check) (player 2) true; Completed 0 (group_guid demo_check)].
Proof.
  pose proof (respond_spec (player 2) true demo_check demo_check_wf) as H. cbv zeta in H.
  assert (E : ready_check_started demo_check && bool_decide (player 2 ∈ members demo_check) = true)
    by (by vm_compute).
  assert (Ea : forallb (fun s => ready_checked s || bool_decide (slot_guid s = player 2))
                 (member_slots demo_check) = true) by (by vm_compute).
  rewrite E, Ea in H. exact (proj1 H).
Defined.

Lemma ready_check_expires_witness :
  (ticks [20000; 10000; 5000; 100] demo_check).2 = [Completed 0 (group_guid demo_check)].
Proof.
  pose proof (ready_check_expires [20000; 10000; 5000; 100] demo_check) as H. cbv zeta in H.
  assert (Es : ready_check_started demo_check = true) by (by vm_compute).
  assert (Et : ready_check_timer_ms demo_check = 35000) by (by vm_compute).
  rewrite Et in H. specialize (H Es). destruct (ticks _ demo_check) as [g' ev].
  apply H; [unfold READYCHECK_DURATION_MS_LIKE_CPP; lia|].
  repeat (apply Forall_cons; split; [unfold in_u; lia|]). constructor.
Defined.
