(* ===== verification/MapData.v ===== *)
(** wow-data/src/map.rs and difficulty.rs: the map and difficulty tables the
    instance locks read, with the two walks over them (the terrain root of a
    map, the downscaled difficulty). *)
From S2P Require Import Prelude.

(** * Tables *)
Definition MAP_FLAG_FLEXIBLE_RAID_LOCKING : Z := 0x00008000.
Definition MAP_FLAG_GARRISON : Z := 0x04000000.
Definition MAP_DIFFICULTY_FLAG_USE_LOOT_BASED_LOCK : Z := 0x02.
Definition DIFFICULTY_FLAGS_DEFAULT : Z := 0x02.
Definition DIFFICULTY_FLAGS_ALL : Z := 0xF7.

Definition MAP_COMMON : Z := 0.
Definition MAP_INSTANCE : Z := 1.
Definition MAP_RAID : Z := 2.
Definition MAP_BATTLEGROUND : Z := 3.
Definition MAP_ARENA : Z := 4.
Definition MAP_SCENARIO : Z := 5.

Record MapEntry : Type := mkMapEntry
  { map_entry_id : Z; instance_type : Z; expansion_id : Z; parent_map_id : Z;
    cosmetic_parent_map_id : Z; flags1 : Z; flags2 : Z }.

Definition is_flex_locking_map (e : MapEntry) : bool :=
  has_flag (flags1 e) MAP_FLAG_FLEXIBLE_RAID_LOCKING.
Definition is_garrison (e : MapEntry) : bool := has_flag (flags1 e) MAP_FLAG_GARRISON.
Definition is_dungeon (e : MapEntry) : bool :=
  ((instance_type e =? MAP_INSTANCE) || (instance_type e =? MAP_RAID)
   || (instance_type e =? MAP_SCENARIO)) && negb (is_garrison e).
Definition is_instanceable_like_cpp (e : MapEntry) : bool :=
  (instance_type e =? MAP_INSTANCE) || (instance_type e =? MAP_RAID)
  || (instance_type e =? MAP_BATTLEGROUND) || (instance_type e =? MAP_ARENA)
  || (instance_type e =? MAP_SCENARIO).

(** The id-to-area table of the store serves other code. *)
Record MapStore : Type := mkMapStore { map_entries : gmap Z MapEntry }.

Record MapDifficultyEntry : Type := mkMapDifficultyEntry
  { map_difficulty_id : Z; message : string; md_map_id : Z; md_difficulty_id : Z;
    md_lock_id : Z; md_reset_interval : Z; md_max_players : Z; md_flags : Z }.

Definition is_using_encounter_locks_md (e : MapDifficultyEntry) : bool :=
  has_flag (md_flags e) MAP_DIFFICULTY_FLAG_USE_LOOT_BASED_LOCK.

Record MapDifficultyStore : Type := mkMapDifficultyStore
  { by_id : gmap Z MapDifficultyEntry; by_map_difficulty : gmap (Z * Z) Z }.

Record DifficultyEntry : Type := mkDifficultyEntry
  { difficulty_entry_id : Z; difficulty_instance_type : Z; difficulty_flags : Z;
    fallback_difficulty_id : Z; toggle_difficulty_id : Z }.

Record DifficultyStore : Type := mkDifficultyStore { difficulty_entries : gmap Z DifficultyEntry }.

Definition map_store_from_entries (es : list MapEntry) : MapStore :=
  mkMapStore (foldl (fun m e => <[map_entry_id e := e]> m) ∅ es).
Definition map_difficulty_store_from_entries (es : list MapDifficultyEntry) : MapDifficultyStore :=
  foldl (fun st e =>
      mkMapDifficultyStore (<[map_difficulty_id e := e]> (by_id st))
        (<[(md_map_id e, md_difficulty_id e) := map_difficulty_id e]> (by_map_difficulty st)))
    (mkMapDifficultyStore ∅ ∅) es.
Definition difficulty_store_from_entries (es : list DifficultyEntry) : DifficultyStore :=
  mkDifficultyStore (foldl (fun m e => <[difficulty_entry_id e := e]> m) ∅ es).

Definition map_get (maps : MapStore) (id : Z) : option MapEntry := map_entries maps !! id.
Definition difficulty_get (diffs : DifficultyStore) (id : Z) : option DifficultyEntry :=
  difficulty_entries diffs !! id.
Definition map_difficulty_get (st : MapDifficultyStore) (map_id difficulty_id : Z)
  : option MapDifficultyEntry :=
  id ← by_map_difficulty st !! (map_id, difficulty_id); by_id st !! id.

(** * The terrain root of a map *)
(** One round of the [while]: on to the parent's entry, or out with the
    current map. *)
Definition terrain_round (maps : MapStore) (cur : Z * MapEntry) : (Z * MapEntry) + Z :=
  let '(current_map_id, entry) := cur in
  if negb (parent_map_id entry =? -1) || negb (cosmetic_parent_map_id entry =? -1) then
    let parent := if negb (parent_map_id entry =? -1)
                  then parent_map_id entry else cosmetic_parent_map_id entry in
    if parent <? 0 then inr current_map_id
    else match map_get maps parent with
         | None => inr current_map_id
         | Some parent_entry => inl (parent, parent_entry)
         end
  else inr current_map_id.

(** The outer [None]: the fuel ran out. *)
Definition terrain_root_map_id_like_cpp (fuel : nat) (maps : MapStore) (map_id : Z)
  : option (option Z) :=
  match map_get maps map_id with
  | None => Some None
  | Some entry => Some <$> loop (terrain_round maps) fuel (map_id, entry)
  end.

(** * The downscaled difficulty *)
Section Difficulty.
Context {Ord : IterOrder (Z * Z)}.

Fixpoint default_scan (st : MapDifficultyStore) (diffs : DifficultyStore) (map_id : Z)
    (fallback : option MapDifficultyEntry) (rows : list ((Z * Z) * Z))
  : option MapDifficultyEntry :=
  match rows with
  | [] => fallback
  | ((entry_map_id, difficulty_id), entry_id) :: rows =>
      if negb (entry_map_id =? map_id) then default_scan st diffs map_id fallback rows
      else match by_id st !! entry_id with
           | None => default_scan st diffs map_id fallback rows
           | Some entry =>
               let fallback := match fallback with Some f => Some f | None => Some entry end in
               match difficulty_get diffs difficulty_id with
               | None => default_scan st diffs map_id fallback rows
               | Some difficulty =>
                   if has_flag (Z.land (difficulty_flags difficulty) DIFFICULTY_FLAGS_ALL)
                        DIFFICULTY_FLAGS_DEFAULT
                   then Some entry
                   else default_scan st diffs map_id fallback rows
               end
           end
  end.

Definition default_for_map_like_cpp (st : MapDifficultyStore) (diffs : DifficultyStore)
    (map_id : Z) : option MapDifficultyEntry :=
  default_scan st diffs map_id None (iter_entries (by_map_difficulty st)).

Definition default_row (st : MapDifficultyStore) (diffs : DifficultyStore) (map_id : Z)
  : option (MapDifficultyEntry * Z) :=
  row ← default_for_map_like_cpp st diffs map_id; Some (row, md_difficulty_id row).

(** One round of the [loop]: out with the map's row for the effective
    difficulty, else on to the fallback difficulty. *)
Definition downscale_round (st : MapDifficultyStore) (diffs : DifficultyStore) (map_id : Z)
    (cur : Z * DifficultyEntry) : (Z * DifficultyEntry) + option (MapDifficultyEntry * Z) :=
  let '(effective, difficulty) := cur in
  match map_difficulty_get st map_id effective with
  | Some row => inr (Some (row, effective))
  | None =>
      let effective := fallback_difficulty_id difficulty in
      match difficulty_get diffs effective with
      | None => inr (default_row st diffs map_id)
      | Some next => inl (effective, next)
      end
  end.

(** The outer [None]: the fuel ran out. *)
Definition downscaled_for_map_like_cpp (fuel : nat) (st : MapDifficultyStore)
    (diffs : DifficultyStore) (map_id difficulty_id : Z)
  : option (option (MapDifficultyEntry * Z)) :=
  match difficulty_get diffs difficulty_id with
  | None => Some (default_row st diffs map_id)
  | Some difficulty => loop (downscale_round st diffs map_id) fuel (difficulty_id, difficulty)
  end.
End Difficulty.

(** * Termination and results *)
Section Walks.
Context {Ord : IterOrder (Z * Z)}.
Variables (st : MapDifficultyStore) (diffs : DifficultyStore) (map_id : Z).

(** Following fallbacks from difficulty [d]: the [n]-th one, while each is a
    known difficulty without a row for the map. *)
Fixpoint fallback_at (n : nat) (d : Z) : option Z :=
  match n with
  | O => Some d
  | S n =>
      e ← difficulty_get diffs d;
      match map_difficulty_get st map_id d with
      | Some _ => None
      | None => fallback_at n (fallback_difficulty_id e)
      end
  end.

Lemma downscale_loop fuel d e r :
  difficulty_get diffs d = Some e -> loop (downscale_round st diffs map_id) fuel (d, e) = Some r ->
  exists n d', fallback_at n d = Some d' /\
    ((exists row, is_Some (difficulty_get diffs d') /\ map_difficulty_get st map_id d' = Some row
                  /\ r = Some (row, d')) \/
     (difficulty_get diffs d' = None /\ r = default_row st diffs map_id)).
Proof.
  revert d e. induction fuel as [|fuel IH]; intros d e He E; [done|]. cbn [loop downscale_round] in E.
  destruct (map_difficulty_get st map_id d) as [row|] eqn:R.
  - exists 0%nat, d. split; [done|]. left. exists row. simplify_eq. eauto.
  - destruct (difficulty_get diffs (fallback_difficulty_id e)) as [next|] eqn:F.
    + destruct (IH _ _ F E) as (n & d' & Hn & H). exists (S n), d'. split; [|done].
      cbn [fallback_at]. by rewrite He, R.
    + exists 1%nat, (fallback_difficulty_id e). cbn [fallback_at]. rewrite He. cbn. rewrite R.
      split; [done|]. right. by simplify_eq.
Qed.

Lemma downscale_goes_on c ce c' ce' :
  downscale_round st diffs map_id (c, ce) = inl (c', ce') ->
  map_difficulty_get st map_id c = None /\ difficulty_get diffs c' = Some ce' /\ c' = fallback_difficulty_id ce.
Proof. cbn. intros B. repeat case_match; simplify_eq. done. Qed.

(** The walk along the fallback difficulties either returns within as
    many rounds as there are difficulties, or never; it always returns when
    the fallback chain has no cycle (some rank falls along it).  What it
    returns is the map's row for the first difficulty of the chain that has
    one, with that difficulty, and the map's default row when the chain
    leaves the known difficulties first. *)
Theorem downscaled_difficulty_spec d :
  (forall fuel r, downscaled_for_map_like_cpp fuel st diffs map_id d = Some r ->
     downscaled_for_map_like_cpp (size (difficulty_entries diffs)) st diffs map_id d = Some r) /\
  (forall rank : Z -> nat,
     (forall d e, difficulty_get diffs d = Some e -> is_Some (difficulty_get diffs (fallback_difficulty_id e)) ->
        (rank (fallback_difficulty_id e) < rank d)%nat) ->
     exists r, downscaled_for_map_like_cpp (size (difficulty_entries diffs)) st diffs map_id d = Some r) /\
  (forall fuel r, downscaled_for_map_like_cpp fuel st diffs map_id d = Some r ->
     exists n d', fallback_at n d = Some d' /\
       ((exists row, is_Some (difficulty_get diffs d') /\ map_difficulty_get st map_id d' = Some row
                     /\ r = Some (row, d')) \/
        (difficulty_get diffs d' = None /\ r = default_row st diffs map_id))).
Proof.
  assert (Hb : forall fuel r, downscaled_for_map_like_cpp fuel st diffs map_id d = Some r ->
     downscaled_for_map_like_cpp (size (difficulty_entries diffs)) st diffs map_id d = Some r).
  { intros fuel r. unfold downscaled_for_map_like_cpp. destruct (difficulty_get diffs d) as [e|] eqn:He; [|done].
    rewrite <- length_map_to_list. apply loop_bound; [|by apply elem_of_map_to_list].
    intros [c ce] [c' ce'] _ (_ & Hc' & ->)%downscale_goes_on. by apply elem_of_map_to_list. }
  split; [done|]. split.
  - intros rank Hrank. enough (exists fuel r, downscaled_for_map_like_cpp fuel st diffs map_id d = Some r)
      as (fuel & r & E) by eauto.
    unfold downscaled_for_map_like_cpp. destruct (difficulty_get diffs d) as [e|] eqn:He; [|exists 0%nat; eauto].
    eexists. apply (loop_measure _ (fun s => difficulty_get diffs s.1 = Some s.2) (fun s => rank s.1)); [|done].
    intros [c ce] [c' ce'] Hc (_ & Hc' & ->)%downscale_goes_on. cbn in *. split; [done|].
    apply Hrank; eauto.
  - intros fuel r E. unfold downscaled_for_map_like_cpp in E.
    destruct (difficulty_get diffs d) as [e|] eqn:He; [by eapply downscale_loop|].
    exists 0%nat, d. simplify_eq. eauto.
Qed.
End Walks.

Section TerrainRoot.
Variable maps : MapStore.

(** The map whose terrain a map uses next: its parent, or else its cosmetic
    parent, when that map exists. *)
Definition terrain_parent (m : Z) : option Z :=
  e ← map_get maps m;
  let p := if parent_map_id e =? -1 then cosmetic_parent_map_id e else parent_map_id e in
  if 0 <=? p then _ ← map_get maps p; Some p else None.

Fixpoint ancestor (n : nat) (m : Z) : option Z :=
  match n with
  | O => Some m
  | S n => p ← terrain_parent m; ancestor n p
  end.

Lemma terrain_round_spec m e :
  map_get maps m = Some e ->
  terrain_round maps (m, e) =
  match terrain_parent m with
  | Some p => match map_get maps p with Some pe => inl (p, pe) | None => inr m end
  | None => inr m
  end.
Proof.
  intros He. unfold terrain_parent, terrain_round. rewrite He. cbn [mbind option_bind].
  set (q := if parent_map_id e =? -1 then _ else _).
  assert (Hq : (if negb (parent_map_id e =? -1) then parent_map_id e
                else cosmetic_parent_map_id e) = q)
    by (unfold q; by destruct (parent_map_id e =? -1)).
  rewrite Hq. destruct (negb (parent_map_id e =? -1) || _) eqn:G.
  - destruct (Z.ltb_spec q 0), (Z.leb_spec 0 q); try lia; [done|].
    destruct (map_get maps q) eqn:F; cbn; by rewrite ?F.
  - apply orb_false_iff in G as [G1%negb_false_iff G2%negb_false_iff].
    unfold q. by rewrite G1, (proj1 (Z.eqb_eq _ _) G2).
Qed.

Lemma terrain_parent_known m p : terrain_parent m = Some p -> is_Some (map_get maps p).
Proof.
  unfold terrain_parent. destruct (map_get maps m) as [e|]; [|done]. cbn.
  destruct (0 <=? _); [|done]. destruct (map_get maps _) eqn:F; [|done]. intros [= <-]. eauto.
Qed.

Lemma terrain_loop fuel m e root :
  map_get maps m = Some e -> loop (terrain_round maps) fuel (m, e) = Some root ->
  exists n, ancestor n m = Some root /\ is_Some (map_get maps root) /\ terrain_parent root = None.
Proof.
  revert m e. induction fuel as [|fuel IH]; intros m e He E; [done|].
  cbn [loop] in E. rewrite (terrain_round_spec _ _ He) in E.
  destruct (terrain_parent m) as [p|] eqn:P; [|exists 0%nat; simplify_eq; eauto].
  destruct (terrain_parent_known _ _ P) as [pe Hpe]. rewrite Hpe in E.
  destruct (IH _ _ Hpe E) as (n & Hn & H). exists (S n). cbn. by rewrite P.
Qed.

Lemma ancestor_add a b m : ancestor (a + b) m = p ← ancestor a m; ancestor b p.
Proof.
  revert m. induction a as [|a IH]; intros m; [done|]. cbn.
  destruct (terrain_parent m); cbn; [apply IH|done].
Qed.

Lemma ancestor_cycle n k m : ancestor n m = Some m -> ancestor (k * n) m = Some m.
Proof.
  intros E. induction k as [|k IH]; [done|]. cbn [Nat.mul]. by rewrite ancestor_add, E.
Qed.

(** The terrain root of a map is the last map of its chain of parents
    (the parent, or else the cosmetic parent, as long as that map exists);
    [None] exactly for an unknown map.  The walk leaves within as many rounds
    as there are maps, unless the parents form a cycle: then it never
    leaves. *)
Theorem terrain_root_spec m :
  (forall fuel, terrain_root_map_id_like_cpp fuel maps m = Some None <-> map_get maps m = None) /\
  (forall fuel root, terrain_root_map_id_like_cpp fuel maps m = Some (Some root) ->
     (exists n, ancestor n m = Some root) /\ is_Some (map_get maps root) /\ terrain_parent root = None) /\
  (forall fuel r, terrain_root_map_id_like_cpp fuel maps m = Some r ->
     terrain_root_map_id_like_cpp (size (map_entries maps)) maps m = Some r) /\
  (forall n, (0 < n)%nat -> is_Some (map_get maps m) -> ancestor n m = Some m ->
     forall fuel, terrain_root_map_id_like_cpp fuel maps m = None).
Proof.
  unfold terrain_root_map_id_like_cpp. split; [|split; [|split]].
  - intros fuel. destruct (map_get maps m) eqn:E; [|done]. by destruct (loop _ _ _).
  - intros fuel root E. destruct (map_get maps m) as [e|] eqn:He; [|done].
    destruct (loop _ fuel _) eqn:L; simplify_eq/=.
    destruct (terrain_loop _ _ _ _ He L) as (n & ? & ? & ?). eauto.
  - intros fuel r. destruct (map_get maps m) as [e|] eqn:He; [|done].
    intros (root & E & ->)%fmap_Some. apply fmap_Some. exists root. split; [|done].
    rewrite <- length_map_to_list.
    eapply (loop_bound _ _ fuel); [|by apply elem_of_map_to_list|done].
    intros [c ce] [c' ce'] Hc B. apply elem_of_map_to_list in Hc.
    rewrite (terrain_round_spec _ _ Hc) in B. repeat case_match; simplify_eq.
    by apply elem_of_map_to_list.
  - intros n Hn [e He] Hcyc fuel. rewrite He. apply fmap_None.
    destruct (loop _ fuel _) as [root|] eqn:L; [exfalso|done].
    destruct (terrain_loop _ _ _ _ He L) as (k & Hk & _ & Hstop).
    apply (ancestor_cycle n (S k)) in Hcyc.
    replace (S k * n)%nat with (k + (1 + (S k * n - S k)))%nat in Hcyc by nia.
    rewrite ancestor_add, Hk in Hcyc. cbn in Hcyc. by rewrite Hstop in Hcyc.
Qed.
End TerrainRoot.

(** * Concrete tables *)
Definition demo_difficulties : DifficultyStore :=
  difficulty_store_from_entries
    [mkDifficultyEntry 5 1 0 2 0; mkDifficultyEntry 2 1 0 1 0; mkDifficultyEntry 1 1 2 0 0].
Definition demo_map_difficulties : MapDifficultyStore :=
  map_difficulty_store_from_entries [mkMapDifficultyEntry 900 "" 33 2 9 1 5 2].

(** A map, its phase, and two maps that are each other's parents. *)
Definition demo_maps : MapStore :=
  map_store_from_entries
    [mkMapEntry 571 0 2 (-1) (-1) 0 0; mkMapEntry 609 0 2 571 (-1) 0 0;
     mkMapEntry 1 0 0 2 (-1) 0 0; mkMapEntry 2 0 0 (-1) 1 0 0].

Lemma downscaled_difficulty_spec_witness :
  exists n d', fallback_at demo_map_difficulties demo_difficulties 33 n 5 = Some d' /\
    ((exists row, is_Some (difficulty_get demo_difficulties d') /\
        map_difficulty_get demo_map_difficulties 33 d' = Some row /\
        Some (mkMapDifficultyEntry 900 "" 33 2 9 1 5 2, 2) = Some (row, d')) \/
     (difficulty_get demo_difficulties d' = None /\
      Some (mkMapDifficultyEntry 900 "" 33 2 9 1 5 2, 2)
      = default_row (Ord := map_list_order (Z * Z)) demo_map_difficulties demo_difficulties 33)).
Proof.
  apply (downscaled_difficulty_spec (Ord := map_list_order (Z * Z)) demo_map_difficulties
           demo_difficulties 33 5) with (fuel := 3%nat).
  by vm_compute.
Defined.

Lemma terrain_root_spec_witness :
  terrain_root_map_id_like_cpp 9 demo_maps 609 = Some (Some 571) /\
  forall fuel, terrain_root_map_id_like_cpp fuel demo_maps 1 = None.
Proof.
  split; [by vm_compute|].
  apply (terrain_root_spec demo_maps 1) with (n := 2%nat); [lia|by vm_compute; eauto|by vm_compute].
Defined.
