(* ===== verification/InstanceLocks.v ===== *)
(** wow-instances/src/instances/state_1.rs, first half: what a lock on an
    instance holds, the map's lock entries, and when locks reset. *)
From stdpp Require Import sorting.
From S2P Require Import Prelude MapData Guid.

(** * Data *)
Module MapDifficultyResetInterval.
Inductive t : Type := Anytime | Daily | Weekly.

#[global] Instance eq_dec : EqDecision t.
Proof. solve_decision. Defined.

Definition raid_duration_secs (i : t) : Z :=
  match i with
  | Daily => 86400
  | Weekly => 604800
  | Anytime => 0
  end.

(** The match on the table's [reset_interval] column. *)
Definition of_column (c : Z) : t :=
  if c =? 1 then Daily else if c =? 2 then Weekly else Anytime.
End MapDifficultyResetInterval.

Module TransferAbortReason.
Inductive t : Type := None | LockedToDifferentInstance | AlreadyCompletedEncounter.
End TransferAbortReason.

Record InstanceLockData : Type := mkLockData
  { lock_data : string; completed_encounters_mask : Z; entrance_world_safe_loc_id : Z }.
Definition default_lock_data : InstanceLockData := mkLockData "" 0 0.

Record SharedInstanceLockData : Type := mkShared
  { shared_instance_id : Z; shared_lock_data : InstanceLockData }.

(** [shared_data] is an [Arc] to a cell: the address of the cell. *)
Record InstanceLock : Type := mkLock
  { lock_map_id : Z; lock_difficulty_id : Z; instance_id : Z; expiry_time : Z;
    extended : bool; data : InstanceLockData; is_in_use : bool; is_new : bool;
    shared_data : option Z }.

#[export] Instance eta_lock_data : Eta InstanceLockData := fun d =>
  mkLockData (lock_data d) (completed_encounters_mask d) (entrance_world_safe_loc_id d).
#[export] Instance eta_shared : Eta SharedInstanceLockData := fun d =>
  mkShared (shared_instance_id d) (shared_lock_data d).
#[export] Instance eta_lock : Eta InstanceLock := fun l =>
  mkLock (lock_map_id l) (lock_difficulty_id l) (instance_id l) (expiry_time l) (extended l)
    (data l) (is_in_use l) (is_new l) (shared_data l).

Definition lock_new (map_id difficulty_id expiry_time instance_id : Z) : InstanceLock :=
  mkLock map_id difficulty_id instance_id expiry_time false default_lock_data false false None.
Definition lock_new_shared (map_id difficulty_id expiry_time instance_id shared : Z)
  : InstanceLock :=
  mkLock map_id difficulty_id instance_id expiry_time false default_lock_data false false
    (Some shared).

Definition is_expired_at (now : Z) (l : InstanceLock) : bool := expiry_time l <? now.

(** * The map's lock entries *)
Record MapDb2Entries : Type := mkEntries
  { map_id : Z; difficulty_id : Z; lock_id : Z;
    reset_interval : MapDifficultyResetInterval.t; max_players : Z;
    is_flex_locking : bool; is_using_encounter_locks : bool }.

Definition InstanceLockKey : Type := Z * Z.

Definition entries_of_row (map_id difficulty_id : Z) (m : MapEntry) (md : MapDifficultyEntry)
  : MapDb2Entries :=
  mkEntries map_id difficulty_id (md_lock_id md)
    (MapDifficultyResetInterval.of_column (md_reset_interval md)) (md_max_players md)
    (is_flex_locking_map m) (is_using_encounter_locks_md md).

Definition from_stores_like_cpp (maps : MapStore) (mds : MapDifficultyStore)
    (map_id difficulty_id : Z) : option MapDb2Entries :=
  m ← map_get maps map_id;
  md ← map_difficulty_get mds map_id difficulty_id;
  Some (entries_of_row map_id difficulty_id m md).

(** The outer [None]: the fuel ran out. *)
Definition from_downscaled_stores_like_cpp {Ord : IterOrder (Z * Z)} (fuel : nat)
    (maps : MapStore) (mds : MapDifficultyStore) (diffs : DifficultyStore)
    (map_id difficulty_id : Z) : option (option MapDb2Entries) :=
  match map_get maps map_id with
  | None => Some None
  | Some m =>
      found ← downscaled_for_map_like_cpp fuel mds diffs map_id difficulty_id;
      Some ('(md, effective_difficulty_id) ← found;
            Some (entries_of_row map_id effective_difficulty_id m md))
  end.

Definition entries_key (e : MapDb2Entries) : Z * Z := (map_id e, lock_id e).
Definition is_instance_id_bound (e : MapDb2Entries) : bool :=
  negb (is_flex_locking e) && negb (is_using_encounter_locks e).
Definition has_reset_schedule (e : MapDb2Entries) : bool :=
  negb (bool_decide (reset_interval e = MapDifficultyResetInterval.Anytime)).
Definition duration (e : MapDb2Entries) : Z :=
  MapDifficultyResetInterval.raid_duration_secs (reset_interval e).

(** * Reset times *)
Record ResetSchedule : Type := mkSchedule { hour : Z; week_day : Z }.
Definition default_schedule : ResetSchedule := mkSchedule 8 2.

Definition next_reset_time_at (e : MapDb2Entries) (schedule : ResetSchedule) (now : Z) : Z :=
  if negb (has_reset_schedule e) then now
  else
    let days := i64 (now / 86400) in
    let h := i32 ((now mod 86400) / 3600) in
    let reset_hour := hour schedule in
    let '(days, h) :=
      match reset_interval e with
      | MapDifficultyResetInterval.Daily =>
          ((if reset_hour <=? h then i64 (days + 1) else days), reset_hour)
      | MapDifficultyResetInterval.Weekly =>
          let reset_day := week_day schedule in
          let wd := i64 (days + 4) mod 7 in
          let days_adjust := i64 (reset_day - wd) in
          let days_adjust := if (reset_day <? wd) || ((wd =? reset_day) && (reset_hour <=? h))
                             then i64 (days_adjust + 7) else days_adjust in
          (i64 (days + days_adjust), reset_hour)
      | MapDifficultyResetInterval.Anytime => (days, h)
      end in
    u64 (u64 (u64 days * 86400) + u64 (u64 h * 3600)).

Definition effective_expiry_time_at (e : MapDb2Entries) (schedule : ResetSchedule) (now : Z)
    (l : InstanceLock) : Z :=
  if negb (extended l) then expiry_time l
  else if is_expired_at now l then next_reset_time_at e schedule now
  else u64 (expiry_time l + duration e).

(** * The reset clock *)
(** [t] is a reset instant: the scheduled hour, of the scheduled day of the
    week for weekly resets (day 0 of the epoch was a Thursday, day 4). *)
Definition scheduled (e : MapDb2Entries) (s : ResetSchedule) (t : Z) : Prop :=
  t mod 86400 = hour s * 3600 /\
  (reset_interval e = MapDifficultyResetInterval.Weekly -> (t / 86400 + 4) mod 7 = week_day s).

Definition schedule_ok (s : ResetSchedule) : Prop := 0 <= hour s < 24 /\ 0 <= week_day s < 7.

(** An instant at which the arithmetic of the reset does not overflow: before
    the last eight days of the 64-bit clock. *)
Definition clock_ok (now : Z) : Prop := 0 <= now < u64_max - 8 * 86400.

(** The first reset after [now], on unbounded integers. *)
Definition next_reset (e : MapDb2Entries) (s : ResetSchedule) (now : Z) : Z :=
  let days := now / 86400 in
  let passed := hour s <=? (now mod 86400) / 3600 in
  match reset_interval e with
  | MapDifficultyResetInterval.Anytime => now
  | MapDifficultyResetInterval.Daily => (days + (if passed then 1 else 0)) * 86400 + hour s * 3600
  | MapDifficultyResetInterval.Weekly =>
      let wd := (days + 4) mod 7 in
      (days + (week_day s - wd)
       + (if (week_day s <? wd) || ((wd =? week_day s) && passed) then 7 else 0)) * 86400
      + hour s * 3600
  end.

Lemma days_small now : clock_ok now -> 0 <= now / 86400 < 2 ^ 50 /\ 0 <= now mod 86400 < 86400.
Proof.
  unfold clock_ok, u64_max. intros H. split; [|apply Z.mod_pos_bound; lia].
  split; [apply Z.div_pos; lia|]. apply Z.div_lt_upper_bound; lia.
Qed.

Lemma secs_eq d h :
  0 <= d -> 0 <= h < 24 -> d * 86400 + h * 3600 <= u64_max ->
  u64 (u64 (u64 d * 86400) + u64 (u64 h * 3600)) = d * 86400 + h * 3600.
Proof.
  unfold u64_max. intros Hd Hh Hb. rewrite (wrap_u_id 64 d) by (unfold in_u; lia).
  rewrite (wrap_u_id 64 h) by (unfold in_u; lia).
  rewrite (wrap_u_id 64 (d * _)), (wrap_u_id 64 (h * _)) by (unfold in_u; lia).
  rewrite wrap_u_id; unfold in_u; lia.
Qed.

Lemma next_reset_eq e s now :
  schedule_ok s -> clock_ok now -> next_reset_time_at e s now = next_reset e s now.
Proof.
  intros [Hh Hw] Hc. destruct (days_small now Hc) as [Hd Hm].
  assert (Hm' : 0 <= (now mod 86400) / 3600 < 24)
    by (split; [apply Z.div_pos; lia|apply Z.div_lt_upper_bound; lia]).
  assert (Hnow : now = 86400 * (now / 86400) + now mod 86400) by (apply Z.div_mod; lia).
  unfold clock_ok, u64_max in Hc. unfold next_reset_time_at, has_reset_schedule, next_reset.
  set (d := now / 86400) in *. set (h := now mod 86400 / 3600) in *.
  destruct (reset_interval e); [done|..].
  - rewrite bool_decide_false by done. cbn [negb].
    rewrite (wrap_s_id 32) by (unfold in_s; lia). rewrite (wrap_s_id 64 eq_refl d) by (unfold in_s; lia).
    destruct (hour s <=? h); rewrite ?(wrap_s_id 64) by (done || unfold in_s; lia);
      rewrite secs_eq by (unfold u64_max; lia); lia.
  - rewrite bool_decide_false by done. cbn [negb].
    rewrite (wrap_s_id 32) by (unfold in_s; lia). rewrite (wrap_s_id 64 eq_refl d) by (unfold in_s; lia).
    rewrite (wrap_s_id 64 eq_refl (d + 4)) by (unfold in_s; lia).
    pose proof (Z.mod_pos_bound (d + 4) 7 ltac:(lia)) as Hwd.
    rewrite (wrap_s_id 64 eq_refl (week_day s - _)) by (unfold in_s; lia).
    rewrite (wrap_s_id 64 eq_refl (_ + 7)) by (unfold in_s; lia).
    set (wd := (d + 4) mod 7) in *.
    assert (Hd0 : 0 <= d + (week_day s - wd) +
              (if (week_day s <? wd) || ((wd =? week_day s) && (hour s <=? h)) then 7 else 0) <= d + 7).
    { destruct (Z.ltb_spec (week_day s) wd); cbn [orb]; [lia|].
      destruct (Z.eqb_spec wd (week_day s)) as [E|E]; cbn [andb]; [destruct (hour s <=? h); lia|].
      unfold wd in *. lia. }
    replace (if _ || _ then week_day s - wd + 7 else week_day s - wd)
      with (week_day s - wd + if (week_day s <? wd) || ((wd =? week_day s) && (hour s <=? h))
                              then 7 else 0) by (destruct (_ || _); lia).
    rewrite Z.add_assoc, (wrap_s_id 64) by (done || unfold in_s; lia).
    rewrite secs_eq; unfold u64_max; lia.
Qed.

Lemma duration_spec e :
  duration e = match reset_interval e with
               | MapDifficultyResetInterval.Anytime => 0
               | MapDifficultyResetInterval.Daily => 86400
               | MapDifficultyResetInterval.Weekly => 604800
               end.
Proof. unfold duration. by destruct (reset_interval e). Qed.

Lemma has_schedule_spec e :
  has_reset_schedule e = true <-> reset_interval e <> MapDifficultyResetInterval.Anytime.
Proof. unfold has_reset_schedule. by rewrite negb_true_iff, bool_decide_eq_false. Qed.

(** Decompose an instant into day, and second of the day. *)
Lemma day_split t : exists d m, t = d * 86400 + m /\ 0 <= m < 86400 /\ t / 86400 = d /\ t mod 86400 = m.
Proof.
  exists (t / 86400), (t mod 86400). pose proof (Z.div_mod t 86400 ltac:(lia)).
  pose proof (Z.mod_pos_bound t 86400 ltac:(lia)). lia.
Qed.

Lemma clock_reset d h : 0 <= h < 24 -> let t := d * 86400 + h * 3600 in
  t mod 86400 = h * 3600 /\ t / 86400 = d.
Proof.
  intros Hh t. assert (t / 86400 = d) by (symmetry; apply (Z.div_unique t 86400 d (h * 3600)); lia).
  split; [|done]. rewrite Z.mod_eq by lia. lia.
Qed.

Lemma next_reset_first e s now :
  schedule_ok s -> reset_interval e <> MapDifficultyResetInterval.Anytime ->
  let t := next_reset e s now in
  scheduled e s t /\ now < t /\ t - duration e <= now /\
  (forall u, scheduled e s u -> now < u -> t <= u).
Proof.
  intros [Hh Hw] Hi t. subst t. unfold next_reset, scheduled. rewrite duration_spec.
  destruct (day_split now) as (d & m & Hnow & Hm & -> & ->).
  pose proof (Z.div_mod m 3600 ltac:(lia)) as Hq. pose proof (Z.mod_pos_bound m 3600 ltac:(lia)).
  destruct (reset_interval e); [done|..].
  - destruct (clock_reset (d + if hour s <=? m / 3600 then 1 else 0) (hour s) Hh) as [-> _].
    split; [done|]. destruct (Z.leb_spec (hour s) (m / 3600)); (split; [lia|]; split; [lia|]);
      intros u [Hu _] Hlt; destruct (day_split u) as (du & mu & ? & ? & _ & ?); lia.
  - set (extra := if _ || _ then 7 else 0).
    destruct (clock_reset (d + (week_day s - (d + 4) mod 7) + extra) (hour s) Hh) as [-> ->].
    pose proof (Z.mod_pos_bound (d + 4) 7 ltac:(lia)).
    pose proof (Z.div_mod (d + 4) 7 ltac:(lia)) as Hd.
    assert (Hextra : extra = 0 \/ extra = 7) by (unfold extra; destruct (_ || _); lia).
    split; [split; [done|]; intros _|].
    { assert (extra / 7 * 7 = extra) by (by destruct Hextra as [-> | ->]).
      replace (d + (week_day s - (d + 4) mod 7) + extra + 4)
        with (week_day s + ((d + 4) / 7 + extra / 7) * 7) by lia.
      rewrite Z.mod_add by lia. by apply Z.mod_small. }
    assert (Hcase : (extra = 7 /\ (week_day s < (d + 4) mod 7 \/
                        (d + 4) mod 7 = week_day s /\ hour s <= m / 3600)) \/
                    (extra = 0 /\ (d + 4) mod 7 <= week_day s /\
                        ((d + 4) mod 7 = week_day s -> m / 3600 < hour s))).
    { unfold extra. destruct (Z.ltb_spec (week_day s) ((d + 4) mod 7)); cbn [orb]; [left; lia|].
      destruct (Z.eqb_spec ((d + 4) mod 7) (week_day s)); cbn [andb]; [|right; lia].
      destruct (Z.leb_spec (hour s) (m / 3600)); [left|right]; lia. }
    split; [lia|]. split; [lia|]. intros u [Hu Hday] Hlt. specialize (Hday eq_refl).
    destruct (day_split u) as (du & mu & -> & Hmu & Hdu & Emu). rewrite Hdu in Hday.
    pose proof (Z.div_mod (du + 4) 7 ltac:(lia)). lia.
Qed.

(** A lock on a map with a reset schedule runs out at the first reset
    instant strictly after now: the scheduled hour of the next day, or of the
    scheduled week day for weekly resets, and no reset instant lies between.
    One reset period before it is not later than now.  A map without schedule
    resets at once. *)
Theorem next_reset_spec e s now :
  schedule_ok s -> clock_ok now ->
  let t := next_reset_time_at e s now in
  (has_reset_schedule e = false -> t = now) /\
  (has_reset_schedule e = true ->
     scheduled e s t /\ now < t /\ t - duration e <= now /\
     (forall u, scheduled e s u -> now < u -> t <= u)).
Proof.
  intros Hs Hc t. subst t. split.
  - intros H. unfold next_reset_time_at. by rewrite H.
  - rewrite has_schedule_spec. intros H. rewrite next_reset_eq by done. by apply next_reset_first.
Qed.

Lemma next_reset_later e s now :
  has_reset_schedule e = true -> schedule_ok s -> clock_ok now -> now < next_reset_time_at e s now.
Proof.
  intros H%has_schedule_spec Hs Hc. rewrite next_reset_eq by done. by apply next_reset_first.
Qed.

(** The raid lock of the tests: weekly, on a Tuesday at 9. *)
Definition weekly_entries : MapDb2Entries :=
  mkEntries 631 4 7 MapDifficultyResetInterval.Weekly 25 false false.

Lemma next_reset_spec_witness :
  scheduled weekly_entries (mkSchedule 9 2) 1069200 /\ 468000 < 1069200 /\
  1069200 - duration weekly_entries <= 468000 /\
  (forall u, scheduled weekly_entries (mkSchedule 9 2) u -> 468000 < u -> 1069200 <= u).
Proof.
  apply (next_reset_spec weekly_entries (mkSchedule 9 2) 468000); [|by vm_compute|by vm_compute].
  unfold schedule_ok; cbn; lia.
Defined.

(** wow-instances/src/instances/ops_1.rs: the lock manager.  The [Arc] cells
    that bound locks share are a heap inside the state; the [Weak] registry
    maps an instance id to a cell address. *)

(** * State *)
Definition LockTable : Type := gmap ObjectGuid (gmap (Z * Z) InstanceLock).

(** [cells] is the heap of shared data with [next_cell] its next free
    address; the other fields are the struct's. *)
Record InstanceLockMgr : Type := mkMgr
  { temporary_instance_locks_by_player : gmap ObjectGuid (gmap (Z * Z) InstanceLock);
    instance_locks_by_player : gmap ObjectGuid (gmap (Z * Z) InstanceLock);
    instance_lock_data_by_id : gmap Z Z;
    loaded_character_instance_ids_like_cpp : list Z;
    cells : gmap Z SharedInstanceLockData; next_cell : Z }.

#[export] Instance eta_mgr : Eta InstanceLockMgr := fun m =>
  mkMgr (temporary_instance_locks_by_player m) (instance_locks_by_player m)
    (instance_lock_data_by_id m) (loaded_character_instance_ids_like_cpp m) (cells m) (next_cell m).

Abbreviation temps := temporary_instance_locks_by_player.
Abbreviation perms := instance_locks_by_player.

Definition mgr_default : InstanceLockMgr := mkMgr ∅ ∅ ∅ [] ∅ 0.

Record InstanceLockUpdateEvent : Type := mkUpdate
  { ev_instance_id : Z; new_data : string; instance_completed_encounters_mask : Z;
    completed_encounter_bit : option Z; ev_entrance : option Z }.

(** ** Nested tables *)
(** [map.get(&p).and_then(|locks| locks.get(&k))]. *)
Definition get_lock (p : ObjectGuid) (k : Z * Z) (t : gmap ObjectGuid (gmap (Z * Z) InstanceLock))
  : option InstanceLock :=
  locks ← t !! p; locks !! k.

(** [map.entry(p).or_default().insert(k, lock)]. *)
Definition put_lock (p : ObjectGuid) (k : Z * Z) (l : InstanceLock)
    (t : gmap ObjectGuid (gmap (Z * Z) InstanceLock)) : gmap ObjectGuid (gmap (Z * Z) InstanceLock) :=
  <[p := <[k := l]> (default ∅ (t !! p))]> t.

(** [if let Some(locks) = map.get_mut(&p) { locks.remove(&k); }]. *)
Definition remove_lock (p : ObjectGuid) (k : Z * Z)
    (t : gmap ObjectGuid (gmap (Z * Z) InstanceLock)) : gmap ObjectGuid (gmap (Z * Z) InstanceLock) :=
  match t !! p with
  | Some locks => <[p := delete k locks]> t
  | None => t
  end.

(** [if map.get(&p).is_some_and(HashMap::is_empty) { map.remove(&p); }]. *)
Definition drop_empty (p : ObjectGuid) (t : gmap ObjectGuid (gmap (Z * Z) InstanceLock))
  : gmap ObjectGuid (gmap (Z * Z) InstanceLock) :=
  match t !! p with
  | Some locks => if bool_decide (locks = ∅) then delete p t else t
  | None => t
  end.

(** ** Shared cells *)
(** The addresses that [Arc]s outside the manager (clones of locks) keep
    alive at the moment of a call. *)
Section Held.
Variable held : gset Z.

Definition references (c : Z) (t : gmap ObjectGuid (gmap (Z * Z) InstanceLock)) : bool :=
  map_any (map_any (fun l => bool_decide (shared_data l = Some c))) t.

(** [Weak::upgrade]: some [Arc] to the cell exists. *)
Definition alive (m : InstanceLockMgr) (c : Z) : bool :=
  bool_decide (c ∈ held) || references c (temps m) || references c (perms m).
Definition upgrade (m : InstanceLockMgr) (c : Z) : option Z :=
  if alive m c then Some c else None.

(** [Arc::new] together with the registration of its [Weak]. *)
Definition register_shared (iid : Z) (d : SharedInstanceLockData) (m : InstanceLockMgr)
  : InstanceLockMgr * Z :=
  let c := next_cell m in
  (m <| cells := <[c := d]> (cells m) |> <| next_cell := c + 1 |>
     <| instance_lock_data_by_id := <[iid := c]> (instance_lock_data_by_id m) |>, c).

Definition instance_initialization_data (m : InstanceLockMgr) (l : InstanceLock)
  : InstanceLockData :=
  match shared_data l with
  | Some c => default (data l) (shared_lock_data <$> cells m !! c)
  | None => data l
  end.

(** * Lookup *)
Definition lock_active (now : Z) (l : InstanceLock) : bool :=
  negb (is_expired_at now l) || extended l.

Definition find_active_instance_lock_inner (p : ObjectGuid) (e : MapDb2Entries) (now : Z)
    (ignore_temporary ignore_expired : bool) (m : InstanceLockMgr) : option InstanceLock :=
  if negb (has_reset_schedule e) then None
  else
    let temporary := if ignore_temporary then None else get_lock p (entries_key e) (temps m) in
    match get_lock p (entries_key e) (perms m) with
    | Some l =>
        if negb ignore_expired || negb (is_expired_at now l) || extended l
        then Some l else temporary
    | None => temporary
    end.

Definition find_active_instance_lock_at (p : ObjectGuid) (e : MapDb2Entries) (now : Z)
    (m : InstanceLockMgr) : option InstanceLock :=
  find_active_instance_lock_inner p e now false true m.

(** * Changes *)
Definition set_active_instance_lock_instance_id_at (p : ObjectGuid) (e : MapDb2Entries)
    (now iid : Z) (m : InstanceLockMgr) : InstanceLockMgr * bool :=
  if negb (has_reset_schedule e) then (m, false)
  else
    let in_temporary :=
      match get_lock p (entries_key e) (temps m) with
      | Some l => (m <| temporary_instance_locks_by_player :=
                          put_lock p (entries_key e) (l <| instance_id := iid |>) (temps m) |>, true)
      | None => (m, false)
      end in
    match get_lock p (entries_key e) (perms m) with
    | Some l =>
        if lock_active now l
        then (m <| instance_locks_by_player :=
                     put_lock p (entries_key e) (l <| instance_id := iid |>) (perms m) |>, true)
        else in_temporary
    | None => in_temporary
    end.

Definition create_instance_lock_for_new_instance_at (p : ObjectGuid) (e : MapDb2Entries)
    (iid : Z) (schedule : ResetSchedule) (now : Z) (m : InstanceLockMgr)
  : InstanceLockMgr * option InstanceLock :=
  if negb (has_reset_schedule e) then (m, None)
  else
    let expiry := next_reset_time_at e schedule now in
    let '(m, l) :=
      if is_instance_id_bound e then
        let '(m, c) := register_shared iid (mkShared 0 default_lock_data) m in
        (m, lock_new_shared (map_id e) (difficulty_id e) expiry iid c)
      else (m, lock_new (map_id e) (difficulty_id e) expiry iid) in
    let l := l <| is_new := true |> in
    let m := m <| temporary_instance_locks_by_player :=
                    put_lock p (entries_key e) l (temps m) |> in
    (m, get_lock p (entries_key e) (temps m)).

(** [1_u32 << bit]: the release profile shifts by the low five bits. *)
Definition encounter_bit (bit : Z) : Z := u32 (Z.shiftl 1 (bit mod 32)).

(** The first half of an update: an inactive lock gives way to the temporary
    one, which moves over, or else is removed. *)
Definition settle_lock (p : ObjectGuid) (e : MapDb2Entries) (now : Z) (m : InstanceLockMgr)
  : InstanceLockMgr :=
  let key := entries_key e in
  let has_active := match get_lock p key (perms m) with
                    | Some l => lock_active now l
                    | None => false
                    end in
  if has_active then m
  else
    let temporary := get_lock p key (temps m) in
    let m1 := match temporary with
              | Some t =>
                  m <| temporary_instance_locks_by_player := remove_lock p key (temps m) |>
                    <| instance_locks_by_player := put_lock p key t (perms m) |>
              | None => m
              end in
    let m2 := m1 <| temporary_instance_locks_by_player := drop_empty p (temps m1) |> in
    match temporary with
    | Some _ => m2
    | None => m2 <| instance_locks_by_player := remove_lock p key (perms m2) |>
    end.

(** The second half: a fresh lock where none is left. *)
Definition ensure_lock (p : ObjectGuid) (e : MapDb2Entries) (iid : Z) (schedule : ResetSchedule)
    (now : Z) (m : InstanceLockMgr) : InstanceLockMgr :=
  match get_lock p (entries_key e) (perms m) with
  | Some _ => m
  | None =>
      let expiry := next_reset_time_at e schedule now in
      let '(m, l) :=
        if is_instance_id_bound e then
          let '(m, c) :=
            match (c ← instance_lock_data_by_id m !! iid; upgrade m c) with
            | Some c => (m, c)
            | None => register_shared iid (mkShared iid default_lock_data) m
            end in
          (m, lock_new_shared (map_id e) (difficulty_id e) expiry iid c)
        else (m, lock_new (map_id e) (difficulty_id e) expiry iid) in
      m <| instance_locks_by_player := put_lock p (entries_key e) l (perms m) |>
  end.

(** The assignments to the lock. *)
Definition apply_update (e : MapDb2Entries) (ev : InstanceLockUpdateEvent)
    (schedule : ResetSchedule) (now : Z) (l : InstanceLock) : InstanceLock :=
  let d := (data l) <| lock_data := new_data ev |> in
  let d := match completed_encounter_bit ev with
           | Some bit => d <| completed_encounters_mask :=
                             Z.lor (completed_encounters_mask d) (encounter_bit bit) |>
           | None => d
           end in
  let d := if negb (is_using_encounter_locks e)
           then d <| completed_encounters_mask :=
                       Z.lor (completed_encounters_mask d) (instance_completed_encounters_mask ev) |>
           else d in
  let d := match ev_entrance ev with
           | Some entrance => d <| entrance_world_safe_loc_id := entrance |>
           | None => d
           end in
  let l := l <| instance_id := ev_instance_id ev |> <| is_new := false |> <| data := d |> in
  if is_expired_at now l
  then l <| expiry_time := next_reset_time_at e schedule now |> <| extended := false |>
  else l.

Definition update_instance_lock_for_player_at (p : ObjectGuid) (e : MapDb2Entries)
    (ev : InstanceLockUpdateEvent) (schedule : ResetSchedule) (now : Z) (m : InstanceLockMgr)
  : InstanceLockMgr * option InstanceLock :=
  if negb (has_reset_schedule e) then (m, None)
  else
    let m := ensure_lock p e (ev_instance_id ev) schedule now (settle_lock p e now m) in
    match get_lock p (entries_key e) (perms m) with
    | None => (m, None)
    | Some l =>
        let l := apply_update e ev schedule now l in
        (m <| instance_locks_by_player := put_lock p (entries_key e) l (perms m) |>, Some l)
    end.

Definition can_join_instance_lock_at (p : ObjectGuid) (e : MapDb2Entries) (target : InstanceLock)
    (now : Z) (m : InstanceLockMgr) : TransferAbortReason.t :=
  match find_active_instance_lock_at p e now m with
  | None => TransferAbortReason.None
  | Some own =>
      if is_flex_locking e then
        if negb (Z.land (completed_encounters_mask (data own))
                   (Z.lxor u32_max (completed_encounters_mask (data target))) =? 0)
        then TransferAbortReason.AlreadyCompletedEncounter
        else TransferAbortReason.None
      else if negb (is_using_encounter_locks e) && negb (is_new own)
              && negb (instance_id own =? instance_id target)
      then TransferAbortReason.LockedToDifferentInstance
      else TransferAbortReason.None
  end.

Definition update_shared_instance_lock (ev : InstanceLockUpdateEvent) (m : InstanceLockMgr)
  : InstanceLockMgr * option SharedInstanceLockData :=
  match (c ← instance_lock_data_by_id m !! ev_instance_id ev; upgrade m c) with
  | None => (m, None)
  | Some c =>
      match cells m !! c with
      | None => (m, None)
      | Some s =>
          let d := (shared_lock_data s) <| lock_data := new_data ev |> in
          let d := match completed_encounter_bit ev with
                   | Some bit => d <| completed_encounters_mask :=
                                     Z.lor (completed_encounters_mask d) (encounter_bit bit) |>
                   | None => d
                   end in
          let d := match ev_entrance ev with
                   | Some entrance => d <| entrance_world_safe_loc_id := entrance |>
                   | None => d
                   end in
          let s := mkShared (ev_instance_id ev) d in
          (m <| cells := <[c := s]> (cells m) |>, Some s)
      end
  end.

(** The registry entry, removed when no [Arc] is left; [true] asks the caller
    to delete the row. *)
Definition cleanup_registry (iid : Z) (m : InstanceLockMgr) : InstanceLockMgr * bool :=
  match instance_lock_data_by_id m !! iid with
  | None => (m, false)
  | Some c =>
      if alive m c then (m, false)
      else (m <| instance_lock_data_by_id := delete iid (instance_lock_data_by_id m) |>, true)
  end.
End Held.

Definition update_instance_lock_extension_for_player_at (p : ObjectGuid) (e : MapDb2Entries)
    (ext : bool) (schedule : ResetSchedule) (now : Z) (m : InstanceLockMgr)
  : InstanceLockMgr * option (Z * Z) :=
  match get_lock p (entries_key e) (perms m) with
  | None => (m, None)
  | Some l =>
      if negb (lock_active now l) then (m, None)
      else
        let old_expiry := effective_expiry_time_at e schedule now l in
        let l := l <| extended := ext |> in
        (m <| instance_locks_by_player := put_lock p (entries_key e) l (perms m) |>,
         Some (old_expiry, effective_expiry_time_at e schedule now l))
  end.


(** * Forced resets *)
Record InstanceLockResetResult : Type := mkReset
  { reset : list InstanceLock; failed_to_reset : list InstanceLock }.

(** Whether the loop passes over a lock. *)
Definition reset_skips (want_map want_difficulty : option Z) (now : Z) (l : InstanceLock) : bool :=
  match want_map with Some i => negb (i =? lock_map_id l) | None => false end
  || match want_difficulty with Some d => negb (d =? lock_difficulty_id l) | None => false end
  || is_expired_at now l.

Definition reset_lock (e : MapDb2Entries) (schedule : ResetSchedule) (now : Z) (l : InstanceLock)
  : InstanceLock :=
  l <| expiry_time := u64 (next_reset_time_at e schedule now - duration e) |> <| extended := false |>.

(** One round of the loop over the player's locks. *)
Definition reset_round (want_map want_difficulty : option Z)
    (entries_by_key : gmap (Z * Z) MapDb2Entries) (schedule : ResetSchedule) (now : Z)
    (acc : gmap (Z * Z) InstanceLock * InstanceLockResetResult) (kl : (Z * Z) * InstanceLock)
  : gmap (Z * Z) InstanceLock * InstanceLockResetResult :=
  let '(locks, res) := acc in
  let '(key, l) := kl in
  if reset_skips want_map want_difficulty now l then acc
  else if is_in_use l then (locks, mkReset (reset res) (failed_to_reset res ++ [l]))
  else match entries_by_key !! key with
       | None => acc
       | Some e =>
           let l := reset_lock e schedule now l in
           (<[key := l]> locks, mkReset (reset res ++ [l]) (failed_to_reset res))
       end.

Section Orders.
Context {Ord : IterOrder (Z * Z)}.

Definition reset_instance_locks_for_player_at (p : ObjectGuid) (want_map want_difficulty : option Z)
    (entries_by_key : gmap (Z * Z) MapDb2Entries) (schedule : ResetSchedule) (now : Z)
    (m : InstanceLockMgr) : InstanceLockMgr * InstanceLockResetResult :=
  match perms m !! p with
  | None => (m, mkReset [] [])
  | Some locks =>
      let '(locks, res) :=
        foldl (reset_round want_map want_difficulty entries_by_key schedule now)
          (locks, mkReset [] []) (iter_entries locks) in
      (m <| instance_locks_by_player := <[p := locks]> (perms m) |>, res)
  end.

(** * Queries *)
Definition get_instance_locks_for_player (p : ObjectGuid) (m : InstanceLockMgr)
  : list InstanceLock :=
  match perms m !! p with Some locks => (iter_entries locks).*2 | None => [] end.

Record InstanceRaidInfoLock : Type := mkRaidInfo
  { info_instance_id : Z; info_map_id : Z; info_difficulty_id : Z; time_remaining : Z;
    completed_mask : Z; locked : bool; info_extended : bool }.

Definition raid_info (now : Z) (schedule : ResetSchedule)
    (entries_for : Z -> Z -> option MapDb2Entries) (l : InstanceLock) : InstanceRaidInfoLock :=
  let effective :=
    if extended l then
      match entries_for (lock_map_id l) (lock_difficulty_id l) with
      | Some e => effective_expiry_time_at e schedule now l
      | None => expiry_time l
      end
    else expiry_time l in
  let seconds_remaining := Z.min (sat_sub effective now) i32_max in
  mkRaidInfo (instance_id l) (lock_map_id l) (lock_difficulty_id l) (i32 seconds_remaining)
    (completed_encounters_mask (data l)) (negb (is_expired_at now l)) (extended l).

Definition get_raid_info_locks_for_player_at (p : ObjectGuid) (now : Z) (schedule : ResetSchedule)
    (entries_for : Z -> Z -> option MapDb2Entries) (m : InstanceLockMgr)
  : list InstanceRaidInfoLock :=
  raid_info now schedule entries_for <$> get_instance_locks_for_player p m.

(** [Vec::dedup]: of equal neighbours the first stays. *)
Fixpoint dedup {A} `{EqDecision A} (l : list A) : list A :=
  match l with
  | [] => []
  | x :: l =>
      match l with
      | [] => [x]
      | y :: _ => if decide (x = y) then dedup l else x :: dedup l
      end
  end.

(** The order of [(u32, u8)]. *)
Definition pair_le (a b : Z * Z) : Prop := a.1 < b.1 \/ a.1 = b.1 /\ a.2 <= b.2.
#[export] Instance pair_le_dec : RelDecision pair_le.
Proof. intros a b. unfold pair_le. apply _. Defined.

Definition player_lock_map_difficulties (p : ObjectGuid) (m : InstanceLockMgr) : list (Z * Z) :=
  dedup (merge_sort pair_le
    ((fun l => (lock_map_id l, lock_difficulty_id l)) <$> get_instance_locks_for_player p m)).

Definition statistics (m : InstanceLockMgr) : Z * Z :=
  (u32 (Z.of_nat (size (instance_lock_data_by_id m))), u32 (Z.of_nat (size (perms m)))).

Definition registered_instance_ids_like_cpp_order {OrdG : IterOrder ObjectGuid}
    (m : InstanceLockMgr) : list Z :=
  match loaded_character_instance_ids_like_cpp m with
  | [] =>
      dedup (merge_sort Z.le
        (locks ← (iter_entries (perms m)).*2; instance_id <$> (iter_entries locks).*2))
  | ids => dedup (merge_sort Z.le ids)
  end.
End Orders.

(** * Loading *)
Record SharedInstanceLockRow : Type := mkSharedRow
  { srow_instance_id : Z; srow_data : string; srow_mask : Z; srow_entrance : Z }.

Record CharacterInstanceLockRow : Type := mkCharRow
  { row_guid : Z; row_map_id : Z; row_lock_id : Z; row_instance_id : Z; row_difficulty_id : Z;
    row_data : string; row_mask : Z; row_entrance : Z; row_expiry : Z; row_extended : bool }.

#[export] Instance eta_char_row : Eta CharacterInstanceLockRow := fun r =>
  mkCharRow (row_guid r) (row_map_id r) (row_lock_id r) (row_instance_id r) (row_difficulty_id r)
    (row_data r) (row_mask r) (row_entrance r) (row_expiry r) (row_extended r).

(** [MissingSharedInstanceData { player_guid_counter, instance_id }]. *)
Record InstanceLockLoadIssue : Type := mkIssue { issue_guid : Z; issue_instance_id : Z }.

Definition load_shared_row (acc : InstanceLockMgr * gmap Z Z) (row : SharedInstanceLockRow)
  : InstanceLockMgr * gmap Z Z :=
  let '(m, by_id) := acc in
  let '(m, c) := register_shared (srow_instance_id row)
    (mkShared (srow_instance_id row) (mkLockData (srow_data row) (srow_mask row) (srow_entrance row)))
    m in
  (m, <[srow_instance_id row := c]> by_id).

(** The entries a row of an unknown map counts as. *)
Definition unknown_entries (row : CharacterInstanceLockRow) : MapDb2Entries :=
  mkEntries (row_map_id row) (row_difficulty_id row) (row_lock_id row)
    MapDifficultyResetInterval.Anytime 0 true true.

(** [ObjectGuid::create_global(HighGuid::Player, 0, counter as i64)]. *)
Definition row_player (row : CharacterInstanceLockRow) : ObjectGuid :=
  create_global HighGuid.Player 0 (i64 (row_guid row)).

(** The lock of a row; [None]: its shared data is missing. *)
Definition lock_of_row (entries_for : Z -> Z -> option MapDb2Entries) (by_id : gmap Z Z)
    (row : CharacterInstanceLockRow) : option InstanceLock :=
  let e := default (unknown_entries row) (entries_for (row_map_id row) (row_difficulty_id row)) in
  let fill l := l <| data := mkLockData (row_data row) (row_mask row) (row_entrance row) |>
                  <| extended := row_extended row |> in
  if is_instance_id_bound e then
    c ← by_id !! row_instance_id row;
    Some (fill (lock_new_shared (row_map_id row) (row_difficulty_id row) (row_expiry row)
                  (row_instance_id row) c))
  else Some (fill (lock_new (row_map_id row) (row_difficulty_id row) (row_expiry row)
                     (row_instance_id row))).

Definition load_character_row (entries_for : Z -> Z -> option MapDb2Entries) (by_id : gmap Z Z)
    (acc : InstanceLockMgr * list InstanceLockLoadIssue) (row : CharacterInstanceLockRow)
  : InstanceLockMgr * list InstanceLockLoadIssue :=
  let '(m, issues) := acc in
  let m := m <| loaded_character_instance_ids_like_cpp :=
                  loaded_character_instance_ids_like_cpp m ++ [row_instance_id row] |> in
  match lock_of_row entries_for by_id row with
  | None => (m, issues ++ [mkIssue (row_guid row) (row_instance_id row)])
  | Some l =>
      (m <| instance_locks_by_player :=
              put_lock (row_player row) (row_map_id row, row_lock_id row) l (perms m) |>, issues)
  end.

Definition load_from_rows_like_cpp (shared_rows : list SharedInstanceLockRow)
    (character_rows : list CharacterInstanceLockRow)
    (entries_for : Z -> Z -> option MapDb2Entries) (m : InstanceLockMgr)
  : InstanceLockMgr * list InstanceLockLoadIssue :=
  let m := m <| temporary_instance_locks_by_player := ∅ |> <| instance_locks_by_player := ∅ |>
             <| instance_lock_data_by_id := ∅ |>
             <| loaded_character_instance_ids_like_cpp := [] |> in
  let '(m, by_id) := foldl load_shared_row (m, ∅) shared_rows in
  foldl (load_character_row entries_for by_id) (m, []) character_rows.
