(* ===== verification/InstanceLockTheorems.v ===== *)
(** The lock manager: what an update does to the lock in force, who may join,
    how shared data is seen, forced resets. *)
From S2P Require Import Prelude Guid MapData InstanceLocks.

(** * Nested tables *)
Section Tables.
Implicit Type t : gmap ObjectGuid (gmap (Z * Z) InstanceLock).

Lemma get_put p k l t : get_lock p k (put_lock p k l t) = Some l.
Proof. unfold get_lock, put_lock. rewrite lookup_insert_eq. cbn. by rewrite lookup_insert_eq. Qed.

Lemma get_put_ne p k p' k' l t :
  (p', k') <> (p, k) -> get_lock p' k' (put_lock p k l t) = get_lock p' k' t.
Proof.
  intros Hne. unfold get_lock, put_lock. destruct (decide (p' = p)) as [->|Hp].
  - rewrite lookup_insert_eq. cbn. rewrite lookup_insert_ne by congruence.
    destruct (t !! p) eqn:E; [done|]. cbn. by rewrite lookup_empty.
  - by rewrite lookup_insert_ne.
Qed.

Lemma get_remove p k t : get_lock p k (remove_lock p k t) = None.
Proof.
  unfold get_lock, remove_lock. destruct (t !! p) as [locks|] eqn:E.
  - rewrite lookup_insert_eq. cbn. by rewrite lookup_delete_eq.
  - by rewrite E.
Qed.

Lemma get_remove_ne p k p' k' t :
  (p', k') <> (p, k) -> get_lock p' k' (remove_lock p k t) = get_lock p' k' t.
Proof.
  intros Hne. unfold get_lock, remove_lock. destruct (t !! p) as [locks|] eqn:E; [|done].
  destruct (decide (p' = p)) as [->|Hp].
  - rewrite lookup_insert_eq, E. cbn. by rewrite lookup_delete_ne by congruence.
  - by rewrite lookup_insert_ne.
Qed.

Lemma get_drop_empty p p' k' t : get_lock p' k' (drop_empty p t) = get_lock p' k' t.
Proof.
  unfold get_lock, drop_empty. destruct (t !! p) as [locks|] eqn:E; [|done].
  destruct (bool_decide (locks = ∅)) eqn:B; [apply bool_decide_eq_true in B as ->|done].
  destruct (decide (p' = p)) as [->|Hp]; [by rewrite lookup_delete_eq, E|].
  by rewrite lookup_delete_ne.
Qed.

Lemma references_spec c t :
  references c t = true <-> exists p k l, get_lock p k t = Some l /\ shared_data l = Some c.
Proof.
  unfold references, get_lock. rewrite map_any_spec. split.
  - intros (p & locks & Hp & (k & l & Hk & Hs%bool_decide_eq_true)%map_any_spec).
    exists p, k, l. by rewrite Hp.
  - intros (p & k & l & Hl & Hs). destruct (t !! p) as [locks|] eqn:E; [|done]. cbn in Hl.
    exists p, locks. split; [done|]. apply map_any_spec. exists k, l.
    split; [done|]. by apply bool_decide_eq_true.
Qed.
End Tables.

(** * The lock in force *)
(** The lock [find_active] answers on a map with a schedule: the permanent
    lock while it runs or is extended, else the temporary one. *)
Definition in_force (p : ObjectGuid) (k : Z * Z) (now : Z) (m : InstanceLockMgr)
  : option InstanceLock :=
  match get_lock p k (perms m) with
  | Some l => if lock_active now l then Some l else get_lock p k (temps m)
  | None => get_lock p k (temps m)
  end.

Lemma find_active_in_force p e now m :
  find_active_instance_lock_at p e now m =
  if has_reset_schedule e then in_force p (entries_key e) now m else None.
Proof.
  unfold find_active_instance_lock_at, find_active_instance_lock_inner, in_force, lock_active.
  by destruct (has_reset_schedule e), (get_lock p (entries_key e) (perms m)) as [l|].
Qed.

(** A new lock, as [ensure_lock] makes it: bound locks get a cell. *)
Definition fresh_lock (e : MapDb2Entries) (iid : Z) (schedule : ResetSchedule) (now : Z)
    (cell : option Z) : InstanceLock :=
  mkLock (map_id e) (difficulty_id e) iid (next_reset_time_at e schedule now) false
    default_lock_data false false cell.

Section Update.
Variables (held : gset Z) (p : ObjectGuid) (e : MapDb2Entries) (ev : InstanceLockUpdateEvent)
  (schedule : ResetSchedule) (now : Z).
Let key := entries_key e.

(** [settle_lock] makes the lock in force the permanent one, and touches no
    other entry. *)
Lemma settle_lock_spec m :
  let m' := settle_lock p e now m in
  get_lock p key (perms m') = in_force p key now m /\
  (forall p' k', (p', k') <> (p, key) ->
     get_lock p' k' (perms m') = get_lock p' k' (perms m) /\
     get_lock p' k' (temps m') = get_lock p' k' (temps m)) /\
  get_lock p key (temps m') =
    (if from_option (lock_active now) false (get_lock p key (perms m))
     then get_lock p key (temps m) else None) /\
  cells m' = cells m /\ next_cell m' = next_cell m /\
  instance_lock_data_by_id m' = instance_lock_data_by_id m.
Proof.
  cbv zeta. unfold settle_lock, in_force. fold key.
  destruct (get_lock p key (perms m)) as [l|] eqn:Hp; cbn [from_option];
    [destruct (lock_active now l) eqn:Ha; [by rewrite Hp|]|];
    (destruct (get_lock p key (temps m)) as [t|] eqn:Ht; ssimpl_goal; rewrite !get_drop_empty;
     [rewrite get_put, get_remove|rewrite get_remove, Ht]; split_and!; try done;
     intros p' k' Hne; rewrite get_drop_empty; rewrite ?get_put_ne, ?get_remove_ne by done; done).
Qed.

(** [ensure_lock] keeps a permanent lock, and else makes one; a bound one
    gets the cell its instance is registered with. *)
Lemma ensure_lock_spec iid m :
  let m' := ensure_lock held p e iid schedule now m in
  (exists cell, (is_Some cell <-> is_instance_id_bound e = true) /\
     (forall c, get_lock p key (perms m) = None -> cell = Some c ->
        instance_lock_data_by_id m' !! iid = Some c) /\
     get_lock p key (perms m') =
       Some (default (fresh_lock e iid schedule now cell) (get_lock p key (perms m)))) /\
  (forall p' k', (p', k') <> (p, key) -> get_lock p' k' (perms m') = get_lock p' k' (perms m)) /\
  temps m' = temps m /\
  (forall c, c <> next_cell m -> cells m' !! c = cells m !! c).
Proof.
  cbv zeta. unfold ensure_lock. fold key. destruct (get_lock p key (perms m)) as [l|] eqn:Hl.
  { split; [|done]. exists (if is_instance_id_bound e then Some 0 else None).
    split; [by destruct (is_instance_id_bound e); rewrite is_Some_alt|done]. }
  destruct (is_instance_id_bound e) eqn:Hb.
  - destruct (instance_lock_data_by_id m !! iid ≫= _) as [c|] eqn:Hc; ssimpl_goal.
    + split; [exists (Some c)|]; split_and!; try done; [|by rewrite get_put|by intros; rewrite get_put_ne].
      intros c' _ [= <-]. destruct (instance_lock_data_by_id m !! iid) as [c'|]; [|done]. cbn in Hc.
      unfold upgrade in Hc. destruct (alive held m c'); congruence.
    + split; [exists (Some (next_cell m))|]; split_and!; try done.
      * intros c _ [= <-]. by rewrite lookup_insert_eq.
      * by rewrite get_put.
      * by intros; rewrite get_put_ne.
      * intros c Hc'. by rewrite lookup_insert_ne.
  - ssimpl_goal. split; [exists None|]; split_and!; try done;
      solve [by intros [? ?]|by rewrite get_put|by intros; rewrite get_put_ne].
Qed.
End Update.

(** * Updates *)
Lemma testbit_encounter_bit b i :
  0 <= b -> 0 <= i -> Z.testbit (encounter_bit b) i = (i =? b mod 32).
Proof.
  intros Hb Hi. pose proof (Z.mod_pos_bound b 32 ltac:(lia)). unfold encounter_bit.
  rewrite wrap_u_id by (apply in_u_bit; lia). apply testbit_bit. lia.
Qed.

(** What an update makes of a lock. *)
Lemma apply_update_fields e ev schedule now old :
  let l := apply_update e ev schedule now old in
  lock_map_id l = lock_map_id old /\ lock_difficulty_id l = lock_difficulty_id old /\
  shared_data l = shared_data old /\ is_in_use l = is_in_use old /\
  instance_id l = ev_instance_id ev /\ is_new l = false /\
  lock_data (data l) = new_data ev /\
  entrance_world_safe_loc_id (data l) = default (entrance_world_safe_loc_id (data old)) (ev_entrance ev) /\
  completed_encounters_mask (data l) =
    Z.lor (Z.lor (completed_encounters_mask (data old))
             (from_option encounter_bit 0 (completed_encounter_bit ev)))
      (if is_using_encounter_locks e then 0 else instance_completed_encounters_mask ev) /\
  expiry_time l = (if is_expired_at now old then next_reset_time_at e schedule now else expiry_time old) /\
  extended l = extended old && negb (is_expired_at now old).
Proof.
  cbv zeta. unfold apply_update.
  destruct (completed_encounter_bit ev), (is_using_encounter_locks e), (ev_entrance ev); ssimpl_goal;
    unfold is_expired_at; ssimpl_goal;
    destruct (expiry_time old <? now); ssimpl_goal;
    rewrite ?Z.lor_0_r, ?andb_true_r, ?andb_false_r; split_and!; done.
Qed.

(** The temporary lock after an update: it stays beside an active permanent lock,
    and else has taken the permanent lock's place. *)
Definition kept_temporary (p : ObjectGuid) (k : Z * Z) (now : Z) (m : InstanceLockMgr)
  : option InstanceLock :=
  if from_option (lock_active now) false (get_lock p k (perms m)) then get_lock p k (temps m) else None.

(** The whole update: the permanent lock of the player becomes what the
    assignments make of the lock in force, or of a fresh one. *)
Lemma update_lock_core held p e ev schedule now m :
  has_reset_schedule e = true -> schedule_ok schedule -> clock_ok now ->
  exists m' cell,
    let l := apply_update e ev schedule now
               (default (fresh_lock e (ev_instance_id ev) schedule now cell)
                  (in_force p (entries_key e) now m)) in
    update_instance_lock_for_player_at held p e ev schedule now m = (m', Some l) /\
    get_lock p (entries_key e) (perms m') = Some l /\ is_expired_at now l = false /\
    get_lock p (entries_key e) (temps m') = kept_temporary p (entries_key e) now m /\
    (is_Some cell <-> is_instance_id_bound e = true) /\
    (forall c, in_force p (entries_key e) now m = None -> cell = Some c ->
       instance_lock_data_by_id m' !! ev_instance_id ev = Some c) /\
    (forall p' k', (p', k') <> (p, entries_key e) ->
       get_lock p' k' (perms m') = get_lock p' k' (perms m) /\
       get_lock p' k' (temps m') = get_lock p' k' (temps m)) /\
    (forall c, c <> next_cell m -> cells m' !! c = cells m !! c).
Proof.
  intros He Hs Hc. cbv zeta. unfold update_instance_lock_for_player_at. rewrite He. cbn [negb].
  destruct (settle_lock_spec p e now m) as (Sin & Sframe & Stemp & Scells & Snext & _).
  destruct (ensure_lock_spec held p e schedule now (ev_instance_id ev) (settle_lock p e now m))
    as ((cell & Hbound & Hreg & Hl) & Eframe & Etemps & Ecells).
  set (m1 := settle_lock p e now m) in *.
  set (m2 := ensure_lock held p e (ev_instance_id ev) schedule now m1) in *.
  rewrite Sin in Hl, Hreg. rewrite Hl.
  set (old := default _ (in_force p (entries_key e) now m)) in *.
  destruct (apply_update_fields e ev schedule now old) as (_ & _ & _ & _ & _ & _ & _ & _ & _ & Fexp & _).
  set (l := apply_update e ev schedule now old) in *.
  assert (Hrun : is_expired_at now l = false).
  { unfold is_expired_at at 1. rewrite Fexp. apply Z.ltb_ge.
    destruct (is_expired_at now old) eqn:X; [|by apply Z.ltb_ge in X].
    apply Z.lt_le_incl, next_reset_later; done. }
  exists (m2 <| instance_locks_by_player := put_lock p (entries_key e) l (perms m2) |>), cell.
  split_and!; try done.
  - ssimpl_goal. by rewrite get_put.
  - ssimpl_goal. by rewrite Etemps, Stemp.
  - intros p' k' Hne. ssimpl_goal. rewrite get_put_ne by done. rewrite (Eframe p' k' Hne), Etemps.
    by apply Sframe.
  - intros c Hne. ssimpl_goal. rewrite Ecells, Scells; [done|]. by rewrite Snext.
Qed.

Lemma in_force_permanent p k now m l :
  get_lock p k (perms m) = Some l -> is_expired_at now l = false -> in_force p k now m = Some l.
Proof. intros E X. unfold in_force, lock_active. by rewrite E, X. Qed.

(** C34: An update of a player's lock never fails on a map with a schedule.  It
    starts from the lock in force (or from an empty one that runs to the next
    reset and, when the map binds to an instance, is tied to that instance's
    shared data), and gives the event's instance, data and entrance, adds the
    completed encounter's bit, and the instance's own mask unless the map
    uses encounter locks; an expired lock is renewed to the next reset, no longer
    extended.  The result is the player's permanent lock, in force; a temporary
    lock it was made from is gone, one beside an active permanent lock stays;
    and no other lock changes. *)
Theorem update_lock_spec held p e ev schedule now m :
  has_reset_schedule e = true -> schedule_ok schedule -> clock_ok now ->
  exists m' l cell,
    let old := default (fresh_lock e (ev_instance_id ev) schedule now cell)
                 (find_active_instance_lock_at p e now m) in
    update_instance_lock_for_player_at held p e ev schedule now m = (m', Some l) /\
    get_lock p (entries_key e) (perms m') = Some l /\
    get_lock p (entries_key e) (temps m') =
      (if from_option (lock_active now) false (get_lock p (entries_key e) (perms m))
       then get_lock p (entries_key e) (temps m) else None) /\
    find_active_instance_lock_at p e now m' = Some l /\ is_expired_at now l = false /\
    (is_Some cell <-> is_instance_id_bound e = true) /\
    (forall c, find_active_instance_lock_at p e now m = None -> cell = Some c ->
       instance_lock_data_by_id m' !! ev_instance_id ev = Some c) /\
    lock_map_id l = lock_map_id old /\ lock_difficulty_id l = lock_difficulty_id old /\
    instance_id l = ev_instance_id ev /\ is_new l = false /\ is_in_use l = is_in_use old /\
    lock_data (data l) = new_data ev /\ shared_data l = shared_data old /\
    entrance_world_safe_loc_id (data l)
      = default (entrance_world_safe_loc_id (data old)) (ev_entrance ev) /\
    completed_encounters_mask (data l) =
      Z.lor (Z.lor (completed_encounters_mask (data old))
               (from_option encounter_bit 0 (completed_encounter_bit ev)))
        (if is_using_encounter_locks e then 0 else instance_completed_encounters_mask ev) /\
    expiry_time l = (if is_expired_at now old then next_reset_time_at e schedule now
                     else expiry_time old) /\
    extended l = extended old && negb (is_expired_at now old) /\
    (forall p' k', (p', k') <> (p, entries_key e) ->
       get_lock p' k' (perms m') = get_lock p' k' (perms m) /\
       get_lock p' k' (temps m') = get_lock p' k' (temps m)) /\
    (forall c, c <> next_cell m -> cells m' !! c = cells m !! c).
Proof.
  intros He Hs Hc. rewrite find_active_in_force, He.
  destruct (update_lock_core held p e ev schedule now m He Hs Hc)
    as (m' & cell & E & Hl & Hrun & Htemp & Hb & Hreg & Hf & Hcells).
  set (l := apply_update _ _ _ _ _) in *. exists m', l, cell. cbv zeta.
  destruct (apply_update_fields e ev schedule now
              (default (fresh_lock e (ev_instance_id ev) schedule now cell)
                 (in_force p (entries_key e) now m)))
    as (Fmap & Fdiff & Fsh & Fuse & Fid & Fnew & Fd & Fen & Fm & Fx & Fext).
  split_and!; try done. rewrite find_active_in_force, He. by apply in_force_permanent.
Qed.

(** * Who may join *)
Lemma submask_bits a b :
  in_u 32 a -> in_u 32 b ->
  (Z.land a (Z.lxor u32_max b) = 0 <->
   forall i, 0 <= i -> Z.testbit a i = true -> Z.testbit b i = true).
Proof.
  intros Ha Hb. change u32_max with (Z.ones 32). split.
  - intros E i Hi Ta. apply (f_equal (fun z => Z.testbit z i)) in E.
    rewrite Z.land_spec, Z.lxor_spec, Z.bits_0, Ta, testbit_ones_all in E by lia. cbn in E.
    destruct (Z.lt_ge_cases i 32); [|by rewrite (testbit_bounded 32 a i) in Ta].
    replace ((0 <=? i) && (i <? 32)) with true in E by lia. by destruct (Z.testbit b i).
  - intros H. apply Z.bits_inj'. intros i Hi. rewrite Z.land_spec, Z.lxor_spec, Z.bits_0.
    rewrite testbit_ones_all by lia. destruct (Z.testbit a i) eqn:Ta; [|done].
    rewrite (H i Hi Ta). destruct (Z.lt_ge_cases i 32);
      [|by rewrite (testbit_bounded 32 a i) in Ta].
    by replace ((0 <=? i) && (i <? 32)) with true by lia.
Qed.

(** While the lock an update made runs, its player may join exactly: on a
    map whose locks bind to an instance, that instance; on a flexibly locking
    map, the instances where at least the encounters the player has completed
    are completed; and on a map with encounter locks alone, any. *)
Theorem update_restricts_joining held p e ev schedule now m m' l target later :
  has_reset_schedule e = true -> schedule_ok schedule -> clock_ok now ->
  update_instance_lock_for_player_at held p e ev schedule now m = (m', Some l) ->
  later <= expiry_time l ->
  in_u 32 (completed_encounters_mask (data l)) -> in_u 32 (completed_encounters_mask (data target)) ->
  let verdict := can_join_instance_lock_at p e target later m' in
  (is_instance_id_bound e = true ->
     verdict = (if instance_id target =? ev_instance_id ev then TransferAbortReason.None
                else TransferAbortReason.LockedToDifferentInstance)) /\
  (is_flex_locking e = true ->
     (verdict = TransferAbortReason.None <->
        forall i, 0 <= i -> Z.testbit (completed_encounters_mask (data l)) i = true ->
                  Z.testbit (completed_encounters_mask (data target)) i = true) /\
     (verdict = TransferAbortReason.None \/ verdict = TransferAbortReason.AlreadyCompletedEncounter)) /\
  (is_flex_locking e = false -> is_using_encounter_locks e = true ->
     verdict = TransferAbortReason.None).
Proof.
  intros He Hs Hc E Hlater Ml Mt verdict.
  destruct (update_lock_core held p e ev schedule now m He Hs Hc) as (m2 & cell & E' & Hl & _).
  rewrite E in E'. injection E' as <- El. rewrite <- El in Hl.
  assert (Hown : find_active_instance_lock_at p e later m' = Some l).
  { rewrite find_active_in_force, He. apply in_force_permanent; [done|]. by apply Z.ltb_ge. }
  destruct (apply_update_fields e ev schedule now
              (default (fresh_lock e (ev_instance_id ev) schedule now cell)
                 (in_force p (entries_key e) now m))) as (_ & _ & _ & _ & Fid & Fnew & _).
  rewrite <- El in Fid, Fnew. subst verdict. unfold can_join_instance_lock_at, is_instance_id_bound.
  rewrite Hown, Fid, Fnew, (Z.eqb_sym (ev_instance_id ev)).
  rewrite <- submask_bits by done. split_and!.
  - destruct (is_flex_locking e), (is_using_encounter_locks e); try done. intros _. cbn.
    by destruct (instance_id target =? ev_instance_id ev).
  - intros ->. destruct (Z.eqb_spec (Z.land (completed_encounters_mask (data l))
      (Z.lxor u32_max (completed_encounters_mask (data target)))) 0) as [E0|E0]; cbn; naive_solver.
  - by intros -> ->.
Qed.

(** * Forced resets *)
Section Reset.
Context {Ord : IterOrder (Z * Z)}.
Variables (want_map want_difficulty : option Z) (entries_by_key : gmap (Z * Z) MapDb2Entries)
  (schedule : ResetSchedule) (now : Z).

(** What a reset makes of a lock, when it resets it. *)
Definition reset_outcome (k : Z * Z) (l : InstanceLock) : option InstanceLock :=
  if reset_skips want_map want_difficulty now l || is_in_use l then None
  else e ← entries_by_key !! k; Some (reset_lock e schedule now l).

Lemma reset_round_eq acc k l :
  reset_round want_map want_difficulty entries_by_key schedule now acc (k, l) =
  (match reset_outcome k l with Some l' => <[k := l']> acc.1 | None => acc.1 end,
   mkReset (reset acc.2 ++ option_list (reset_outcome k l))
     (failed_to_reset acc.2 ++
        if negb (reset_skips want_map want_difficulty now l) && is_in_use l then [l] else [])).
Proof.
  destruct acc as [locks [rs fs]]. unfold reset_round, reset_outcome.
  destruct (reset_skips want_map want_difficulty now l); cbn; [by rewrite !app_nil_r|].
  destruct (is_in_use l); cbn; [by rewrite app_nil_r|].
  destruct (entries_by_key !! k); cbn; by rewrite ?app_nil_r.
Qed.

Lemma reset_fold es acc :
  NoDup es.*1 ->
  let acc' := foldl (reset_round want_map want_difficulty entries_by_key schedule now) acc es in
  (forall k l, (k, l) ∈ es ->
     acc'.1 !! k = match reset_outcome k l with Some l' => Some l' | None => acc.1 !! k end) /\
  (forall k, k ∉ es.*1 -> acc'.1 !! k = acc.1 !! k) /\
  reset acc'.2 = reset acc.2 ++ omap (fun kl => reset_outcome kl.1 kl.2) es /\
  failed_to_reset acc'.2 = failed_to_reset acc.2 ++
    (filter (fun kl => negb (reset_skips want_map want_difficulty now kl.2) && is_in_use kl.2 = true) es).*2.
Proof.
  revert acc. induction es as [|[k l] es IH]; intros acc Hnd; cbv zeta.
  { cbn. rewrite !app_nil_r. split_and!; try done. by intros k l ?%elem_of_nil. }
  apply NoDup_cons in Hnd as [Hk Hnd]. change (k ∉ es.*1) in Hk. change (NoDup es.*1) in Hnd.
  cbn [foldl]. rewrite reset_round_eq.
  match goal with |- context [foldl _ ?a es] => destruct (IH a Hnd) as (Hin & Hout & Hr & Hf) end. split_and!.
  - intros k' l' [[= -> ->]|Hkl]%elem_of_cons.
    + rewrite Hout by done. cbn. destruct (reset_outcome k l); [by rewrite lookup_insert_eq|done].
    + rewrite (Hin _ _ Hkl). destruct (reset_outcome k' l'); [done|]. cbn.
      assert (k' <> k) by (intros ->; apply Hk, list_elem_of_fmap; by exists (k, l')).
      destruct (reset_outcome k l); [by rewrite lookup_insert_ne|done].
  - intros k' [Hne Hk']%not_elem_of_cons. change (k' ∉ es.*1) in Hk'. cbn [fst] in Hne.
    rewrite Hout by done. cbn. destruct (reset_outcome k l); [by rewrite lookup_insert_ne|done].
  - rewrite Hr. cbn. rewrite <- app_assoc. f_equal. by destruct (reset_outcome k l).
  - rewrite Hf. cbn [snd failed_to_reset]. rewrite <- app_assoc. f_equal. rewrite filter_cons. cbn [snd].
    destruct (negb _ && is_in_use l); [by rewrite decide_True|by rewrite decide_False].
Qed.

(** The effect on the tables and the two lists, for any iteration order. *)
Lemma reset_core p m :
  let r := reset_instance_locks_for_player_at p want_map want_difficulty entries_by_key schedule now m in
  (forall k l, get_lock p k (perms m) = Some l ->
     get_lock p k (perms r.1) = Some (default l (reset_outcome k l))) /\
  (forall k, get_lock p k (perms m) = None -> get_lock p k (perms r.1) = None) /\
  (forall p' k, p' <> p -> get_lock p' k (perms r.1) = get_lock p' k (perms m)) /\
  (forall l', l' ∈ reset r.2 <->
     exists k l, get_lock p k (perms m) = Some l /\ reset_outcome k l = Some l') /\
  (forall l, l ∈ failed_to_reset r.2 <-> exists k, get_lock p k (perms m) = Some l /\
     reset_skips want_map want_difficulty now l = false /\ is_in_use l = true) /\
  r.1 = m <| instance_locks_by_player := perms r.1 |>.
Proof.
  unfold reset_instance_locks_for_player_at, get_lock.
  destruct (perms m !! p) as [locks|] eqn:Ep.
  2:{ cbn. rewrite Ep. split_and!; try done; [|..|by destruct m].
      - intros l'. split; [by intros ?%elem_of_nil|by intros (? & ? & ? & _)].
      - intros l. split; [by intros ?%elem_of_nil|by intros (? & ? & _)]. }
  destruct (reset_fold (iter_entries locks) (locks, mkReset [] []) (NoDup_iter_entries locks))
    as (Hin & Hout & Hr & Hf).
  destruct (foldl _ _ _) as [locks' res] eqn:Ef. cbn [fst snd] in *. cbn in Hr, Hf.
  assert (Hloc : forall k l, locks !! k = Some l ->
      locks' !! k = match reset_outcome k l with Some l' => Some l' | None => Some l end).
  { intros k l E. rewrite (Hin k l) by by apply elem_of_iter_entries. by rewrite E. }
  cbn zeta. ssimpl_goal. rewrite lookup_insert_eq. cbn. split_and!; try done.
  - intros k l E. rewrite (Hloc k l E). by destruct (reset_outcome k l).
  - intros k E. rewrite Hout; [done|]. rewrite list_elem_of_fmap. intros ([k' l] & -> & H).
    apply elem_of_iter_entries in H. cbn in E. congruence.
  - intros p' k Hne. by rewrite lookup_insert_ne.
  - intros l'. rewrite Hr, list_elem_of_omap. split.
    + intros ([k l] & H%elem_of_iter_entries & E). eauto.
    + intros (k & l & H%elem_of_iter_entries & E). by exists (k, l).
  - intros l. rewrite Hf, list_elem_of_fmap. split.
    + intros ([k l'] & -> & [B H%elem_of_iter_entries]%list_elem_of_filter). cbn in *.
      apply andb_true_iff in B as [B1%negb_true_iff B2]. eauto.
    + intros (k & H%elem_of_iter_entries & B1 & B2). exists (k, l). split; [done|].
      apply list_elem_of_filter. cbn. by rewrite B1, B2.
Qed.
End Reset.

(** Whether a reset asks for a lock: its map and difficulty are the wanted
    ones, and it has not expired. *)
Definition reset_wanted (want_map want_difficulty : option Z) (now : Z) (l : InstanceLock) : Prop :=
  (forall i, want_map = Some i -> i = lock_map_id l) /\
  (forall d, want_difficulty = Some d -> d = lock_difficulty_id l) /\ now <= expiry_time l.

Lemma reset_skips_spec wm wd now l :
  reset_skips wm wd now l = false <-> reset_wanted wm wd now l.
Proof.
  unfold reset_skips, reset_wanted, is_expired_at. rewrite !orb_false_iff, Z.ltb_ge.
  destruct wm as [i|], wd as [d|]; rewrite ?negb_false_iff, ?Z.eqb_eq;
    (split; [intros [[H1 H2] H3]|intros (H1 & H2 & H3)]; split_and!; try done;
     try (by intros ? [= <-]); eauto).
Qed.

Lemma reset_expiry e s now :
  schedule_ok s -> clock_ok now -> 604800 <= now ->
  u64 (next_reset_time_at e s now - duration e) = next_reset_time_at e s now - duration e /\
  next_reset_time_at e s now - duration e <= now.
Proof.
  intros Hs Hc Hweek. rewrite next_reset_eq by done.
  destruct (decide (reset_interval e = MapDifficultyResetInterval.Anytime)) as [E|E].
  - rewrite duration_spec. unfold next_reset. rewrite E. unfold clock_ok, u64_max in Hc.
    rewrite wrap_u_id; unfold in_u; lia.
  - destruct (next_reset_first e s now Hs E) as (_ & Hlt & Hle & _).
    assert (0 <= duration e <= 604800) by (rewrite duration_spec; destruct (reset_interval e); lia).
    unfold clock_ok, u64_max in Hc. rewrite wrap_u_id; unfold in_u; lia.
Qed.

(** A forced reset ends exactly the player's running locks on the wanted
    map and difficulty that nobody is in and whose entries are known: such a
    lock now expires one period before the next reset, which is not later
    than now, loses its extension, and is reported as reset, whatever order
    the map is walked in; after this second it is no longer in force.  Wanted
    locks in use are reported as failed and keep, as every other lock does,
    their state. *)
Theorem reset_locks_spec {Ord : IterOrder (Z * Z)} p wm wd entries schedule now m :
  schedule_ok schedule -> clock_ok now -> 604800 <= now ->
  let r := reset_instance_locks_for_player_at p wm wd entries schedule now m in
  (forall k l e, get_lock p k (perms m) = Some l ->
     reset_wanted wm wd now l -> is_in_use l = false -> entries !! k = Some e ->
     exists l', get_lock p k (perms r.1) = Some l' /\ l' ∈ reset r.2 /\
       l' = l <| expiry_time := next_reset_time_at e schedule now - duration e |>
              <| extended := false |> /\
       expiry_time l' <= now /\ forall later, now < later -> lock_active later l' = false) /\
  (forall k l, get_lock p k (perms m) = Some l ->
     ~ reset_wanted wm wd now l \/ is_in_use l = true \/ entries !! k = None ->
     get_lock p k (perms r.1) = Some l) /\
  (forall l, l ∈ failed_to_reset r.2 <->
     exists k, get_lock p k (perms m) = Some l /\ reset_wanted wm wd now l /\ is_in_use l = true) /\
  (forall p' k, p' <> p -> get_lock p' k (perms r.1) = get_lock p' k (perms m)) /\
  temps r.1 = temps m.
Proof.
  intros Hs Hc Hweek r.
  destruct (reset_core wm wd entries schedule now p m) as (Hsome & _ & Hother & Hin & Hfailed & Hr).
  fold r in Hsome, Hother, Hin, Hfailed, Hr. split_and!; [..|by rewrite Hr].
  - intros k l e El Hw%reset_skips_spec Hu Ee.
    assert (Ho : reset_outcome wm wd entries schedule now k l = Some (reset_lock e schedule now l))
      by (unfold reset_outcome; by rewrite Hw, Hu, Ee).
    destruct (reset_expiry e schedule now Hs Hc Hweek) as [Hx Hle].
    assert (El' : reset_lock e schedule now l
              = l <| expiry_time := next_reset_time_at e schedule now - duration e |>
                  <| extended := false |>) by (unfold reset_lock; by rewrite Hx).
    exists (reset_lock e schedule now l). split_and!; try done.
    + by rewrite (Hsome _ _ El), Ho.
    + apply Hin. eauto.
    + rewrite El'. ssimpl_goal. lia.
    + intros later Hl. rewrite El'. unfold lock_active, is_expired_at. ssimpl_goal.
      rewrite orb_false_r, negb_false_iff. apply Z.ltb_lt. lia.
  - intros k l El Hno. rewrite (Hsome _ _ El). unfold reset_outcome. f_equal.
    destruct (reset_skips wm wd now l) eqn:Sk; [done|]. apply reset_skips_spec in Sk.
    destruct Hno as [?|[-> | ->]]; [done|done|by destruct (is_in_use l)].
  - intros l. rewrite Hfailed. by setoid_rewrite reset_skips_spec.
  - done.
Qed.

(** * A concrete raid lock *)
Definition raider : ObjectGuid := create_player 1 55.
Definition boss_killed : InstanceLockUpdateEvent := mkUpdate 9001 "bosses:1" 4 (Some 1) (Some 42).
Definition noon : Z := 1700049600.

Definition raid_started : InstanceLockMgr :=
  (create_instance_lock_for_new_instance_at raider weekly_entries 9001 default_schedule noon mgr_default).1.
Definition raid_locked : InstanceLockMgr :=
  (update_instance_lock_for_player_at ∅ raider weekly_entries boss_killed default_schedule noon raid_started).1.
Definition raid_lock : InstanceLock :=
  mkLock 631 4 9001 1700553600 false (mkLockData "bosses:1" 6 42) false false (Some 0).

Lemma default_schedule_ok : schedule_ok default_schedule.
Proof. unfold schedule_ok. cbn. lia. Qed.

Lemma raid_update :
  update_instance_lock_for_player_at ∅ raider weekly_entries boss_killed default_schedule noon raid_started
  = (raid_locked, Some raid_lock).
Proof. by vm_compute. Qed.

Lemma update_lock_spec_witness :
  exists m' l, update_instance_lock_for_player_at ∅ raider weekly_entries boss_killed
                 default_schedule noon raid_started = (m', Some l) /\
    find_active_instance_lock_at raider weekly_entries noon m' = Some l /\
    is_expired_at noon l = false.
Proof.
  destruct (update_lock_spec ∅ raider weekly_entries boss_killed default_schedule noon raid_started
              eq_refl default_schedule_ok ltac:(by vm_compute))
    as (m' & l & cell & E & _ & _ & F & X & _).
  exact (ex_intro _ m' (ex_intro _ l (conj E (conj F X)))).
Defined.

Lemma update_restricts_joining_witness :
  can_join_instance_lock_at raider weekly_entries (lock_new 631 4 0 9002) 1700500000 raid_locked
  = TransferAbortReason.LockedToDifferentInstance.
Proof.
  apply (update_restricts_joining ∅ raider weekly_entries boss_killed default_schedule noon
           raid_started raid_locked raid_lock (lock_new 631 4 0 9002) 1700500000 eq_refl
           default_schedule_ok ltac:(by vm_compute) raid_update);
    by vm_compute.
Defined.

Lemma reset_locks_spec_witness :
  exists l', get_lock raider (631, 7) (perms (reset_instance_locks_for_player_at
      (Ord := map_list_order (Z * Z)) raider (Some 631) None
      {[ (631, 7) := weekly_entries ]} default_schedule noon raid_locked).1) = Some l' /\
    forall later, noon < later -> lock_active later l' = false.
Proof.
  destruct (reset_locks_spec (Ord := map_list_order (Z * Z)) raider (Some 631) None
              {[ (631, 7) := weekly_entries ]} default_schedule noon raid_locked
              default_schedule_ok ltac:(by vm_compute) ltac:(by vm_compute)) as [H _].
  destruct (H (631, 7) raid_lock weekly_entries) as (l' & E & _ & _ & _ & L).
  - by vm_compute.
  - split_and!; [by intros i [= <-]|by intros d|by vm_compute].
  - done.
  - by vm_compute.
  - exact (ex_intro _ l' (conj E L)).
Defined.
