(* ===== verification/InstanceShared.v ===== *)
(** Shared instance data: every run of the lock manager keeps its shared cells
    sound, an update of shared data is seen by exactly the locks that share it,
    and cleaning up drops only data no lock uses. *)
From S2P Require Import Prelude Guid MapData InstanceLocks InstanceLockTheorems.

(** * Runs *)
Inductive LockOp : Type :=
| OpCreate (p : ObjectGuid) (e : MapDb2Entries) (iid : Z) (schedule : ResetSchedule) (now : Z)
| OpUpdate (held : gset Z) (p : ObjectGuid) (e : MapDb2Entries) (ev : InstanceLockUpdateEvent)
    (schedule : ResetSchedule) (now : Z)
| OpSetInstanceId (p : ObjectGuid) (e : MapDb2Entries) (now iid : Z)
| OpUpdateShared (held : gset Z) (ev : InstanceLockUpdateEvent)
| OpCleanup (held : gset Z) (iid : Z)
| OpExtend (p : ObjectGuid) (e : MapDb2Entries) (ext : bool) (schedule : ResetSchedule) (now : Z)
| OpReset (p : ObjectGuid) (want_map want_difficulty : option Z)
    (entries_by_key : gmap (Z * Z) MapDb2Entries) (schedule : ResetSchedule) (now : Z)
| OpLoad (shared_rows : list SharedInstanceLockRow) (character_rows : list CharacterInstanceLockRow)
    (entries_for : Z -> Z -> option MapDb2Entries).

Definition exec_lock {Ord : IterOrder (Z * Z)} (op : LockOp) (m : InstanceLockMgr)
  : InstanceLockMgr :=
  match op with
  | OpCreate p e iid schedule now => (create_instance_lock_for_new_instance_at p e iid schedule now m).1
  | OpUpdate held p e ev schedule now => (update_instance_lock_for_player_at held p e ev schedule now m).1
  | OpSetInstanceId p e now iid => (set_active_instance_lock_instance_id_at p e now iid m).1
  | OpUpdateShared held ev => (update_shared_instance_lock held ev m).1
  | OpCleanup held iid => (cleanup_registry held iid m).1
  | OpExtend p e ext schedule now =>
      (update_instance_lock_extension_for_player_at p e ext schedule now m).1
  | OpReset p wm wd entries schedule now =>
      (reset_instance_locks_for_player_at p wm wd entries schedule now m).1
  | OpLoad srows crows entries_for => (load_from_rows_like_cpp srows crows entries_for m).1
  end.

Inductive lock_reachable {Ord : IterOrder (Z * Z)} : InstanceLockMgr -> Prop :=
| lock_start : lock_reachable mgr_default
| lock_step op m : lock_reachable m -> lock_reachable (exec_lock op m).

(** * Sound cells *)
Definition table_ok (cs : gmap Z SharedInstanceLockData)
    (t : gmap ObjectGuid (gmap (Z * Z) InstanceLock)) : Prop :=
  forall p k l c, get_lock p k t = Some l -> shared_data l = Some c -> is_Some (cs !! c).

Record cells_sound (m : InstanceLockMgr) : Prop :=
  { sound_temps : table_ok (cells m) (temps m);
    sound_perms : table_ok (cells m) (perms m);
    sound_registry i c : instance_lock_data_by_id m !! i = Some c -> is_Some (cells m !! c);
    sound_distinct i j c : instance_lock_data_by_id m !! i = Some c ->
      instance_lock_data_by_id m !! j = Some c -> i = j;
    sound_next c : is_Some (cells m !! c) -> c < next_cell m }.

Lemma table_ok_put cs p k l t :
  table_ok cs t -> (forall c, shared_data l = Some c -> is_Some (cs !! c)) ->
  table_ok cs (put_lock p k l t).
Proof.
  intros Ht Hl p' k' l' c E Hc. destruct (decide ((p', k') = (p, k))) as [[= -> ->]|Hne].
  - rewrite get_put in E. simplify_eq. eauto.
  - rewrite get_put_ne in E by done. eauto.
Qed.

Lemma table_ok_remove cs p k t : table_ok cs t -> table_ok cs (remove_lock p k t).
Proof.
  intros Ht p' k' l' c E Hc. destruct (decide ((p', k') = (p, k))) as [[= -> ->]|Hne].
  - by rewrite get_remove in E.
  - rewrite get_remove_ne in E by done. eauto.
Qed.

Lemma table_ok_drop cs p t : table_ok cs t -> table_ok cs (drop_empty p t).
Proof. intros Ht p' k' l' c. rewrite get_drop_empty. eauto. Qed.

Lemma table_ok_mono cs cs' t :
  table_ok cs t -> (forall c, is_Some (cs !! c) -> is_Some (cs' !! c)) -> table_ok cs' t.
Proof. intros Ht Hle p k l c E Hc. eauto. Qed.

Lemma insert_keeps_cells (cs : gmap Z SharedInstanceLockData) a s c :
  is_Some (cs !! c) -> is_Some (<[a := s]> cs !! c).
Proof. intros H. destruct (decide (a = c)) as [->|]; [rewrite lookup_insert_eq; eauto|by rewrite lookup_insert_ne]. Qed.

(** Replacing a table by a sound one. *)
Lemma sound_set_temps t m :
  cells_sound m -> table_ok (cells m) t ->
  cells_sound (m <| temporary_instance_locks_by_player := t |>).
Proof. intros [] Ht. by split. Qed.

Lemma sound_set_perms t m :
  cells_sound m -> table_ok (cells m) t -> cells_sound (m <| instance_locks_by_player := t |>).
Proof. intros [] Ht. by split. Qed.

Lemma register_sound iid s m :
  cells_sound m -> cells_sound (register_shared iid s m).1 /\
  cells (register_shared iid s m).1 !! (register_shared iid s m).2 = Some s.
Proof.
  intros [Ht Hp Hr Hd Hn]. cbn. split; [split; ssimpl_goal|by rewrite lookup_insert_eq].
  - eapply table_ok_mono; [done|]. intros c. apply insert_keeps_cells.
  - eapply table_ok_mono; [done|]. intros c. apply insert_keeps_cells.
  - intros i c E. destruct (decide (i = iid)) as [->|Hi].
    + rewrite lookup_insert_eq in E. simplify_eq. rewrite lookup_insert_eq. eauto.
    + rewrite lookup_insert_ne in E by done. apply insert_keeps_cells. eauto.
  - assert (Hfresh : forall i, instance_lock_data_by_id m !! i = Some (next_cell m) -> False).
    { intros i E. pose proof (Hn _ (Hr _ _ E)). lia. }
    intros i j c Ei Ej. rewrite lookup_insert_Some in Ei, Ej.
    destruct Ei as [[<- <-]|[? ?]], Ej as [[<- ?]|[? ?]]; simplify_eq; try done; [exfalso..|]; eauto.
  - intros c. rewrite lookup_insert_is_Some. intros [<-|[_ H]]; [lia|].
    pose proof (Hn c H). lia.
Qed.

(** The cell of a lock exists. *)
Definition lock_ok (m : InstanceLockMgr) (l : InstanceLock) : Prop :=
  forall c, shared_data l = Some c -> is_Some (cells m !! c).

Lemma sound_put_temps p k l m :
  cells_sound m -> lock_ok m l ->
  cells_sound (m <| temporary_instance_locks_by_player := put_lock p k l (temps m) |>).
Proof. intros H Hl. apply sound_set_temps, table_ok_put; [done|apply H|done]. Qed.

Lemma sound_put_perms p k l m :
  cells_sound m -> lock_ok m l ->
  cells_sound (m <| instance_locks_by_player := put_lock p k l (perms m) |>).
Proof. intros H Hl. apply sound_set_perms, table_ok_put; [done|apply H|done]. Qed.

Lemma create_sound p e iid schedule now m :
  cells_sound m -> cells_sound (create_instance_lock_for_new_instance_at p e iid schedule now m).1.
Proof.
  intros H. unfold create_instance_lock_for_new_instance_at. destruct (negb _); [done|].
  destruct (is_instance_id_bound e).
  - destruct (register_sound iid (mkShared 0 default_lock_data) m H) as [H' Hc].
    destruct (register_shared _ _ m) as [m' c]. apply sound_put_temps; [done|].
    intros c' [= <-]. cbn in Hc. rewrite Hc. eauto.
  - by apply sound_put_temps.
Qed.

Lemma settle_sound p e now m : cells_sound m -> cells_sound (settle_lock p e now m).
Proof.
  intros H. unfold settle_lock. destruct (match get_lock _ _ (perms m) with Some _ => _ | None => _ end);
    [done|].
  destruct (get_lock p (entries_key e) (temps m)) as [t|] eqn:Et.
  - apply sound_set_temps.
    + apply sound_set_perms; [apply sound_set_temps; [done|apply table_ok_remove, H]|].
      apply table_ok_put; [apply H|]. intros c Hc. by eapply (sound_temps m H).
    + apply table_ok_drop, table_ok_remove, H.
  - apply sound_set_perms; [apply sound_set_temps; [done|apply table_ok_drop, H]|].
    apply table_ok_remove, H.
Qed.

Lemma ensure_sound held p e iid schedule now m :
  cells_sound m -> cells_sound (ensure_lock held p e iid schedule now m).
Proof.
  intros H. unfold ensure_lock. destruct (get_lock _ _ (perms m)); [done|].
  destruct (is_instance_id_bound e); [|by apply sound_put_perms].
  destruct (instance_lock_data_by_id m !! iid ≫= _) as [c|] eqn:Ec.
  - apply sound_put_perms; [done|]. intros c' [= <-].
    destruct (instance_lock_data_by_id m !! iid) as [c'|] eqn:Er; [|done]. cbn in Ec.
    unfold upgrade in Ec. destruct (alive held m c'); simplify_eq. by eapply (sound_registry m H).
  - destruct (register_sound iid (mkShared iid default_lock_data) m H) as [H' Hc].
    destruct (register_shared _ _ m) as [m' c]. apply sound_put_perms; [done|].
    intros c' [= <-]. cbn in Hc. rewrite Hc. eauto.
Qed.

Lemma update_sound held p e ev schedule now m :
  cells_sound m -> cells_sound (update_instance_lock_for_player_at held p e ev schedule now m).1.
Proof.
  intros H. unfold update_instance_lock_for_player_at. destruct (negb _); [done|].
  apply (settle_sound p e now), (ensure_sound held p e (ev_instance_id ev) schedule now) in H.
  set (m' := ensure_lock _ _ _ _ _ _ _) in *.
  destruct (get_lock p (entries_key e) (perms m')) as [l|] eqn:El; [|done].
  apply sound_put_perms; [done|]. intros c.
  destruct (apply_update_fields e ev schedule now l) as (_ & _ & -> & _).
  intros Hc. by eapply (sound_perms m' H).
Qed.

Lemma set_id_sound p e now iid m :
  cells_sound m -> cells_sound (set_active_instance_lock_instance_id_at p e now iid m).1.
Proof.
  intros H. unfold set_active_instance_lock_instance_id_at. destruct (negb _); [done|].
  assert (Ht : forall l, get_lock p (entries_key e) (temps m) = Some l -> lock_ok m l)
    by (intros l E c Hc; by eapply (sound_temps m H)).
  assert (Hp : forall l, get_lock p (entries_key e) (perms m) = Some l -> lock_ok m l)
    by (intros l E c Hc; by eapply (sound_perms m H)).
  destruct (get_lock p (entries_key e) (perms m)) as [l|];
    [destruct (lock_active now l); [apply sound_put_perms; [done|exact (Hp l eq_refl)]|]|];
    (destruct (get_lock p (entries_key e) (temps m)) as [t|]; [|done]);
    apply sound_put_temps; [done|exact (Ht t eq_refl)|done|exact (Ht t eq_refl)].
Qed.

Lemma extend_sound p e ext schedule now m :
  cells_sound m ->
  cells_sound (update_instance_lock_extension_for_player_at p e ext schedule now m).1.
Proof.
  intros H. unfold update_instance_lock_extension_for_player_at.
  destruct (get_lock p (entries_key e) (perms m)) as [l|] eqn:E; [|done].
  destruct (negb _); [done|]. apply sound_put_perms; [done|].
  intros c Hc. by eapply (sound_perms m H).
Qed.

Lemma shared_sound held ev m :
  cells_sound m -> cells_sound (update_shared_instance_lock held ev m).1.
Proof.
  intros H. unfold update_shared_instance_lock.
  destruct (instance_lock_data_by_id m !! ev_instance_id ev ≫= _) as [c|]; [|done].
  destruct (cells m !! c) as [s|] eqn:Ec; [|done]. destruct H as [Ht Hp Hr Hd Hn].
  split; ssimpl_goal; try done.
  - eapply table_ok_mono; [done|]. intros x. apply insert_keeps_cells.
  - eapply table_ok_mono; [done|]. intros x. apply insert_keeps_cells.
  - intros i x E. apply insert_keeps_cells. eauto.
  - intros x. rewrite lookup_insert_is_Some. intros [<-|[_ ?]]; eauto.
Qed.

Lemma cleanup_sound held iid m : cells_sound m -> cells_sound (cleanup_registry held iid m).1.
Proof.
  intros H. unfold cleanup_registry. destruct (_ !! iid) as [c|]; [|done].
  destruct (alive held m c); [done|]. destruct H as [Ht Hp Hr Hd Hn]. split; ssimpl_goal; try done.
  - intros i x. rewrite lookup_delete_Some. intros [_ ?]. eauto.
  - intros i j x. rewrite !lookup_delete_Some. intros [_ ?] [_ ?]. eauto.
Qed.

Lemma reset_outcome_shared wm wd entries schedule now k l l' :
  reset_outcome wm wd entries schedule now k l = Some l' -> shared_data l' = shared_data l.
Proof.
  unfold reset_outcome. destruct (_ || _); [done|]. by intros (e & _ & [= <-])%bind_Some.
Qed.

Lemma reset_sound {Ord : IterOrder (Z * Z)} p wm wd entries schedule now m :
  cells_sound m ->
  cells_sound (reset_instance_locks_for_player_at p wm wd entries schedule now m).1.
Proof.
  intros H. destruct (reset_core wm wd entries schedule now p m) as (Hsome & Hnone & Hother & _ & _ & ->).
  set (m' := (reset_instance_locks_for_player_at p wm wd entries schedule now m).1) in *.
  apply sound_set_perms; [done|]. intros p' k l c E Hc.
  destruct (decide (p' = p)) as [->|Hp]; [|rewrite Hother in E by done; by eapply (sound_perms m H)].
  destruct (get_lock p k (perms m)) as [l0|] eqn:E0; [|by rewrite Hnone in E].
  rewrite (Hsome _ _ E0) in E. simplify_eq. eapply (sound_perms m H); [done|].
  destruct (reset_outcome _ _ _ _ _ k l0) as [l'|] eqn:Er; cbn in Hc; [|done].
  by rewrite <- (reset_outcome_shared _ _ _ _ _ _ _ _ Er).
Qed.

Lemma load_shared_sound rows m by_id :
  cells_sound m -> (forall i c, by_id !! i = Some c -> is_Some (cells m !! c)) ->
  let r := foldl load_shared_row (m, by_id) rows in
  cells_sound r.1 /\ (forall i c, r.2 !! i = Some c -> is_Some (cells r.1 !! c)).
Proof.
  revert m by_id. induction rows as [|row rows IH]; intros m by_id H Hid; [done|].
  cbn [foldl load_shared_row].
  set (s := mkShared _ _). destruct (register_sound (srow_instance_id row) s m H) as [H' Hc].
  change (foldl _ _ rows) with
    (foldl load_shared_row ((register_shared (srow_instance_id row) s m).1,
       <[srow_instance_id row := (register_shared (srow_instance_id row) s m).2]> by_id) rows).
  apply IH; [done|]. intros i c. rewrite lookup_insert_Some. intros [[<- <-]|[_ E]].
  - rewrite Hc. eauto.
  - cbn. apply insert_keeps_cells. eauto.
Qed.

Lemma load_characters_sound entries_for by_id rows m issues :
  cells_sound m -> (forall i c, by_id !! i = Some c -> is_Some (cells m !! c)) ->
  cells_sound (foldl (load_character_row entries_for by_id) (m, issues) rows).1.
Proof.
  revert m issues. induction rows as [|row rows IH]; intros m issues H Hid; [done|].
  cbn [foldl load_character_row]. set (m1 := set_field loaded_character_instance_ids_like_cpp _ m).
  assert (H1 : cells_sound m1) by (destruct H; by split).
  destruct (lock_of_row entries_for by_id row) as [l|] eqn:El; [|by apply IH].
  apply IH; [|done]. apply sound_put_perms; [done|]. intros c Hc.
  unfold lock_of_row in El. destruct (is_instance_id_bound _); [|simplify_eq; done].
  destruct (by_id !! row_instance_id row) as [c'|] eqn:Ec; [|done]. simplify_eq/=. eauto.
Qed.

Lemma load_sound srows crows entries_for m :
  cells_sound m -> cells_sound (load_from_rows_like_cpp srows crows entries_for m).1.
Proof.
  intros H. unfold load_from_rows_like_cpp.
  set (m0 := set_field loaded_character_instance_ids_like_cpp _ _).
  assert (H0 : cells_sound m0) by (destruct H; by split).
  destruct (load_shared_sound srows m0 ∅ H0) as [H1 Hid]; [done|].
  destruct (foldl load_shared_row _ srows) as [m1 by_id]. by apply load_characters_sound.
Qed.

Lemma exec_lock_sound {Ord : IterOrder (Z * Z)} op m : cells_sound m -> cells_sound (exec_lock op m).
Proof.
  destruct op; cbn; intros.
  - by apply create_sound.
  - by apply update_sound.
  - by apply set_id_sound.
  - by apply shared_sound.
  - by apply cleanup_sound.
  - by apply extend_sound.
  - by apply reset_sound.
  - by apply load_sound.
Qed.

Lemma table_ok_empty cs : table_ok cs ∅.
Proof. intros p k l c E. unfold get_lock in E. by rewrite lookup_empty in E. Qed.

Lemma default_sound : cells_sound mgr_default.
Proof.
  split; cbn; try (intros *; rewrite !lookup_empty); try apply table_ok_empty; try done;
    by intros [? ?].
Qed.

Lemma lock_reachable_sound {Ord : IterOrder (Z * Z)} m : lock_reachable m -> cells_sound m.
Proof. induction 1; [apply default_sound|by apply exec_lock_sound]. Qed.

(** * Updates of shared data *)
Lemma alive_spec held m c :
  alive held m c = true <->
  c ∈ held \/ exists p k l, (get_lock p k (temps m) = Some l \/ get_lock p k (perms m) = Some l) /\
                            shared_data l = Some c.
Proof.
  unfold alive. rewrite !orb_true_iff, bool_decide_eq_true, !references_spec. naive_solver.
Qed.

(** C37: In every reachable state an update of an instance's shared data fails,
    and changes nothing, exactly when the instance has no data that a lock, or a
    clone outside the manager, still holds.  Otherwise every lock that shares
    the cell sees the new data, the entrance and the added encounter bit at once;
    no other lock's data changes, no lock itself does, and the registrations
    stay.  Cleaning up an instance forgets its registration, and asks for its row
    to be deleted, exactly when it is registered and nothing holds its data any
    more, and changes nothing else; while something holds the data it changes
    nothing, so the data stay registered. *)
Theorem shared_update_spec {Ord : IterOrder (Z * Z)} held ev m :
  lock_reachable m ->
  let holder c := c ∈ held \/ exists p k l,
    (get_lock p k (temps m) = Some l \/ get_lock p k (perms m) = Some l) /\ shared_data l = Some c in
  let registered c := instance_lock_data_by_id m !! ev_instance_id ev = Some c in
  ((update_shared_instance_lock held ev m).2 = None <-> forall c, registered c -> ~ holder c) /\
  ((forall c, registered c -> ~ holder c) -> update_shared_instance_lock held ev m = (m, None)) /\
  (forall c, registered c -> holder c ->
     exists m' s, cells m !! c = Some s /\
       let d := shared_lock_data s in
       let d' := mkLockData (new_data ev)
                   (Z.lor (completed_encounters_mask d)
                      (from_option encounter_bit 0 (completed_encounter_bit ev)))
                   (default (entrance_world_safe_loc_id d) (ev_entrance ev)) in
       update_shared_instance_lock held ev m = (m', Some (mkShared (ev_instance_id ev) d')) /\
       temps m' = temps m /\ perms m' = perms m /\
       instance_lock_data_by_id m' = instance_lock_data_by_id m /\
       forall l, instance_initialization_data m' l =
         if decide (shared_data l = Some c) then d' else instance_initialization_data m l) /\
  (forall c, registered c -> ~ holder c ->
     cleanup_registry held (ev_instance_id ev) m
     = (m <| instance_lock_data_by_id := delete (ev_instance_id ev) (instance_lock_data_by_id m) |>, true)) /\
  ((forall c, registered c -> holder c) -> cleanup_registry held (ev_instance_id ev) m = (m, false)).
Proof.
  intros H%lock_reachable_sound holder registered.
  assert (Hal : forall c, alive held m c = true <-> holder c) by apply alive_spec.
  unfold update_shared_instance_lock, cleanup_registry, registered.
  destruct (instance_lock_data_by_id m !! ev_instance_id ev) as [c|] eqn:Er; cbn [mbind option_bind].
  2: by split_and!.
  unfold upgrade. destruct (sound_registry m H _ _ Er) as [s Hs].
  destruct (alive held m c) eqn:Ha.
  - pose proof (proj1 (Hal c) Ha) as Hc. rewrite Hs. split_and!; try done.
    + split; [done|]. intros Hno. by destruct (Hno c).
    + intros Hno. by destruct (Hno c).
    + intros c' [= <-] _. exists (m <| cells := <[c := mkShared (ev_instance_id ev)
        (mkLockData (new_data ev) (Z.lor (completed_encounters_mask (shared_lock_data s))
                      (from_option encounter_bit 0 (completed_encounter_bit ev)))
                   (default (entrance_world_safe_loc_id (shared_lock_data s)) (ev_entrance ev)))]>
          (cells m) |>), s.
      split; [done|]. cbv zeta. split.
      { destruct (completed_encounter_bit ev), (ev_entrance ev); ssimpl_goal; by rewrite ?Z.lor_0_r. }
      split_and!; try done. intros l. unfold instance_initialization_data. ssimpl_goal.
      destruct (shared_data l) as [x|]; [|done]. destruct (decide (Some x = Some c)) as [[= ->]|Hx].
      * by rewrite lookup_insert_eq.
      * by rewrite lookup_insert_ne by congruence.
    + intros c' [= <-] Hno. done.
  - assert (Hno : ~ holder c) by (intros Hc%Hal; congruence). split_and!; try done.
    + split; [|done]. by intros _ c' [= <-].
    + by intros c' [= <-].
    + intros Hall. by destruct (Hno (Hall c eq_refl)).
Qed.

#[export] Instance pair_order : IterOrder (Z * Z) := map_list_order (Z * Z).

Lemma raid_reachable : lock_reachable raid_locked.
Proof.
  apply (lock_step (OpUpdate ∅ raider weekly_entries boss_killed default_schedule noon)).
  apply (lock_step (OpCreate raider weekly_entries 9001 default_schedule noon)), lock_start.
Qed.

(** The raid lock sees an update of its instance's shared data. *)
Lemma shared_update_spec_witness :
  exists m' s, update_shared_instance_lock ∅ boss_killed raid_locked = (m', Some s) /\
    instance_initialization_data m' raid_lock = mkLockData "bosses:1" 2 42.
Proof.
  destruct (shared_update_spec ∅ boss_killed raid_locked raid_reachable) as (_ & _ & H & _).
  destruct (H 0) as (m' & s & Hs & E & _ & _ & _ & Hl).
  - by vm_compute.
  - right. exists raider, (631, 7), raid_lock. split; [right; by vm_compute|done].
  - assert (Es : cells raid_locked !! 0 = Some (mkShared 0 default_lock_data)) by by vm_compute.
    assert (Hs' := eq_trans (eq_sym Hs) Es). apply (inj Some) in Hs'. subst s.
    refine (ex_intro _ m' (ex_intro _ _ (conj E _))). rewrite Hl. by vm_compute.
Defined.
