(* ===== verification/InstanceStore.v ===== *)
(** The persistence of instance locks: the mutations of
    wow-persistence/src/instance_lock.rs, the operations of
    wow-instances/src/instances/ops_1.rs that append them to a plan, and what
    the statements of wow-database do to the two tables. *)
From S2P Require Import Prelude Guid InstanceLocks.

(** * Mutations *)
Inductive Mutation : Type :=
| DeleteCharacterLock (player_guid_counter map_id lock_id : Z)
| InsertCharacterLock (row : CharacterInstanceLockRow)
| DeleteSharedInstance (instance_id : Z)
| InsertSharedInstance (row : SharedInstanceLockRow)
| UpdateCharacterLockExtension (extended : bool) (player_guid_counter map_id lock_id : Z)
| ForceExpireCharacterLock (expiry_time player_guid_counter map_id lock_id : Z).

(** [player_guid.counter() as u64]. *)
Definition guid_counter (p : ObjectGuid) : Z := u64 (counter p).

Definition delete_character_instance_lock_mutation (p : ObjectGuid) (e : MapDb2Entries) : Mutation :=
  DeleteCharacterLock (guid_counter p) (map_id e) (lock_id e).

Definition insert_character_instance_lock_mutation (p : ObjectGuid) (e : MapDb2Entries)
    (l : InstanceLock) : Mutation :=
  InsertCharacterLock
    (mkCharRow (guid_counter p) (map_id e) (lock_id e) (instance_id l) (difficulty_id e)
       (lock_data (data l)) (completed_encounters_mask (data l))
       (entrance_world_safe_loc_id (data l)) (expiry_time l) (extended l)).

Definition update_character_instance_lock_extension_mutation (p : ObjectGuid) (e : MapDb2Entries)
    (ext : bool) : Mutation :=
  UpdateCharacterLockExtension ext (guid_counter p) (map_id e) (lock_id e).

Definition force_expire_character_instance_lock_mutation (p : ObjectGuid) (e : MapDb2Entries)
    (expiry : Z) : Mutation :=
  ForceExpireCharacterLock expiry (guid_counter p) (map_id e) (lock_id e).

Definition delete_instance_mutation (iid : Z) : Mutation := DeleteSharedInstance iid.

Definition insert_instance_mutation (s : SharedInstanceLockData) : Mutation :=
  InsertSharedInstance
    (mkSharedRow (shared_instance_id s) (lock_data (shared_lock_data s))
       (completed_encounters_mask (shared_lock_data s))
       (entrance_world_safe_loc_id (shared_lock_data s))).

(** * Operations that persist *)
(** The plan is the caller's: the mutations are appended to it. *)
Section Held.
Variable held : gset Z.

Definition update_instance_lock_for_player_with_persistence_at (plan : list Mutation)
    (p : ObjectGuid) (e : MapDb2Entries) (ev : InstanceLockUpdateEvent) (schedule : ResetSchedule)
    (now : Z) (m : InstanceLockMgr) : InstanceLockMgr * list Mutation * option InstanceLock :=
  match update_instance_lock_for_player_at held p e ev schedule now m with
  | (m, None) => (m, plan, None)
  | (m, Some l) =>
      (m, plan ++ [delete_character_instance_lock_mutation p e;
                   insert_character_instance_lock_mutation p e l], Some l)
  end.

Definition update_shared_instance_lock_with_persistence (plan : list Mutation)
    (ev : InstanceLockUpdateEvent) (m : InstanceLockMgr)
  : InstanceLockMgr * list Mutation * option SharedInstanceLockData :=
  match update_shared_instance_lock held ev m with
  | (m, None) => (m, plan, None)
  | (m, Some s) =>
      (m, plan ++ [delete_instance_mutation (shared_instance_id s); insert_instance_mutation s],
       Some s)
  end.

Definition cleanup_unreferenced_shared_instance_lock_data_like_cpp (iid : Z)
    (m : InstanceLockMgr) : InstanceLockMgr * option Mutation :=
  match cleanup_registry held iid m with
  | (m, true) => (m, Some (delete_instance_mutation iid))
  | (m, false) => (m, None)
  end.
End Held.

Definition update_instance_lock_extension_for_player_with_persistence_at (plan : list Mutation)
    (p : ObjectGuid) (e : MapDb2Entries) (ext : bool) (schedule : ResetSchedule) (now : Z)
    (m : InstanceLockMgr) : InstanceLockMgr * list Mutation * option (Z * Z) :=
  match update_instance_lock_extension_for_player_at p e ext schedule now m with
  | (m, None) => (m, plan, None)
  | (m, Some times) =>
      (m, plan ++ [update_character_instance_lock_extension_mutation p e ext], Some times)
  end.

Section Orders.
Context {Ord : IterOrder (Z * Z)}.

(** The entries the loop finds for a reset lock: by map and difficulty. *)
Definition entries_of_lock (entries_by_key : gmap (Z * Z) MapDb2Entries) (l : InstanceLock)
  : option MapDb2Entries :=
  find_first (fun e => map_id e = lock_map_id l /\ difficulty_id e = lock_difficulty_id l)
    (iter_entries entries_by_key).*2.

Definition reset_mutations (p : ObjectGuid) (entries_by_key : gmap (Z * Z) MapDb2Entries)
    (locks : list InstanceLock) : list Mutation :=
  omap (fun l => e ← entries_of_lock entries_by_key l;
                 Some (force_expire_character_instance_lock_mutation p e (expiry_time l))) locks.

Definition reset_instance_locks_for_player_with_persistence_at (plan : list Mutation)
    (p : ObjectGuid) (want_map want_difficulty : option Z)
    (entries_by_key : gmap (Z * Z) MapDb2Entries) (schedule : ResetSchedule) (now : Z)
    (m : InstanceLockMgr) : InstanceLockMgr * list Mutation * InstanceLockResetResult :=
  let '(m, res) := reset_instance_locks_for_player_at p want_map want_difficulty entries_by_key
                     schedule now m in
  (m, plan ++ reset_mutations p entries_by_key (reset res), res).
End Orders.

(** * The tables *)
(** [instance] and [character_instance_lock], as their rows; no key is
    assumed of them. *)
Record LockDb : Type := mkDb
  { instance_rows : list SharedInstanceLockRow; lock_rows : list CharacterInstanceLockRow }.

(** [WHERE guid = ? AND mapId = ? AND lockId = ?]. *)
Definition row_matches (g i k : Z) (r : CharacterInstanceLockRow) : bool :=
  (row_guid r =? g) && (row_map_id r =? i) && (row_lock_id r =? k).

(** The statement a mutation is sent as, run on the tables. *)
Definition statement_for_mutation_like_cpp (mu : Mutation) (db : LockDb) : LockDb :=
  match mu with
  | DeleteCharacterLock g i k =>
      mkDb (instance_rows db) (filter (fun r => row_matches g i k r = false) (lock_rows db))
  | InsertCharacterLock row => mkDb (instance_rows db) (lock_rows db ++ [row])
  | DeleteSharedInstance iid =>
      mkDb (filter (fun r => srow_instance_id r <> iid) (instance_rows db)) (lock_rows db)
  | InsertSharedInstance row => mkDb (instance_rows db ++ [row]) (lock_rows db)
  | UpdateCharacterLockExtension ext g i k =>
      mkDb (instance_rows db)
        (map (fun r => if row_matches g i k r then r <| row_extended := ext |> else r) (lock_rows db))
  | ForceExpireCharacterLock expiry g i k =>
      mkDb (instance_rows db)
        (map (fun r => if row_matches g i k r
                       then r <| row_expiry := expiry |> <| row_extended := false |> else r)
           (lock_rows db))
  end.

(** A committed plan: its statements in order. *)
Definition commit_plan_like_cpp (plan : list Mutation) (db : LockDb) : LockDb :=
  foldl (fun db mu => statement_for_mutation_like_cpp mu db) db plan.
