(* ===== verification/InstanceStoreTheorems.v ===== *)
(** Persistence of instance locks: committing the plans keeps the lock table a
    mirror of the permanent locks, and loading it restores them. *)
From S2P Require Import Prelude Guid MapData InstanceLocks.
From S2P Require Import InstanceLockTheorems InstanceStore.

(** * The mirror *)
(** The row of a permanent lock. *)
Definition stored_row (p : ObjectGuid) (k : Z * Z) (l : InstanceLock) : CharacterInstanceLockRow :=
  mkCharRow (guid_counter p) k.1 k.2 (instance_id l) (lock_difficulty_id l) (lock_data (data l))
    (completed_encounters_mask (data l)) (entrance_world_safe_loc_id (data l)) (expiry_time l)
    (extended l).

Definition row_key (r : CharacterInstanceLockRow) : Z * (Z * Z) :=
  (row_guid r, (row_map_id r, row_lock_id r)).

(** The table holds exactly the rows of the permanent locks, one per key. *)
Definition mirrors (t : gmap ObjectGuid (gmap (Z * Z) InstanceLock)) (db : LockDb) : Prop :=
  NoDup (map row_key (lock_rows db)) /\
  forall r, r ∈ lock_rows db <-> exists p k l, get_lock p k t = Some l /\ r = stored_row p k l.

(** Rows carry only the counter of a player's guid: no other player with locks
    has the same. *)
Definition own_counter (p : ObjectGuid) (t : gmap ObjectGuid (gmap (Z * Z) InstanceLock)) : Prop :=
  forall q k l, get_lock q k t = Some l -> guid_counter q = guid_counter p -> q = p.

Lemma row_matches_spec g i k r : row_matches g i k r = true <-> row_key r = (g, (i, k)).
Proof.
  unfold row_matches, row_key. rewrite !andb_true_iff, !Z.eqb_eq. split.
  - by intros [[-> ->] ->].
  - by intros [= -> -> ->].
Qed.

Lemma stored_row_key p k l : row_key (stored_row p k l) = (guid_counter p, k).
Proof. by destruct k. Qed.

(** A change of one lock, and of its row, keeps the mirror. *)
Section Change.
Variables (p : ObjectGuid) (k : Z * Z) (t t' : gmap ObjectGuid (gmap (Z * Z) InstanceLock))
  (l : InstanceLock).
Hypothesis Hown : own_counter p t.
Hypothesis Hset : get_lock p k t' = Some l.
Hypothesis Hframe : forall q i, (q, i) <> (p, k) -> get_lock q i t' = get_lock q i t.

Lemma own_key q i l' :
  get_lock q i t = Some l' -> (guid_counter q, i) = (guid_counter p, k) <-> (q, i) = (p, k).
Proof. intros E. split; [intros [= Hc ->]; by rewrite (Hown q k l')|by intros [= -> ->]]. Qed.

(** Membership in the changed mirror. *)
Lemma changed_rows (db : LockDb) r :
  (forall r, r ∈ lock_rows db <-> exists p k l, get_lock p k t = Some l /\ r = stored_row p k l) ->
  (exists q i l', get_lock q i t' = Some l' /\ r = stored_row q i l') <->
  (r ∈ lock_rows db /\ row_key r <> (guid_counter p, k)) \/ r = stored_row p k l.
Proof.
  intros Hdb. rewrite Hdb. split.
  - intros (q & i & l' & E & ->). destruct (decide ((q, i) = (p, k))) as [[= -> ->]|Hne].
    + right. congruence.
    + left. rewrite Hframe in E by done. split; [eauto|]. rewrite stored_row_key.
      by rewrite (own_key q i l' E).
  - intros [[(q & i & l' & E & ->) Hk]| ->]; [|by eauto].
    rewrite stored_row_key in Hk. exists q, i, l'. split; [|done]. rewrite Hframe; [done|].
    by rewrite <- (own_key q i l' E).
Qed.

Lemma mirrors_replace db :
  mirrors t db ->
  mirrors t' (mkDb (instance_rows db)
    (filter (fun r => row_matches (guid_counter p) k.1 k.2 r = false) (lock_rows db)
       ++ [stored_row p k l])).
Proof.
  intros [Hnd Hdb]. split; cbn.
  - rewrite map_app. apply NoDup_app. split_and!.
    + eapply sublist_NoDup; [exact Hnd|]. apply (fmap_sublist row_key), sublist_filter.
    + intros x (r & -> & Hr)%list_elem_of_fmap. apply list_elem_of_filter in Hr as [Hm _].
      cbn [map]. rewrite list_elem_of_singleton, stored_row_key. intros E. destruct k as [i j].
      apply not_true_iff_false in Hm. by apply Hm, row_matches_spec.
    + cbn. apply NoDup_singleton.
  - intros r. rewrite (changed_rows db r Hdb), elem_of_app, list_elem_of_singleton,
      list_elem_of_filter. destruct k as [i j]. cbn [fst snd].
    rewrite <- not_true_iff_false, row_matches_spec. tauto.
Qed.

(** An [UPDATE] of the row, when the lock was there before. *)
Lemma mirrors_update db (f : CharacterInstanceLockRow -> CharacterInstanceLockRow) l0 :
  mirrors t db -> get_lock p k t = Some l0 ->
  f (stored_row p k l0) = stored_row p k l ->
  mirrors t' (mkDb (instance_rows db)
    (map (fun r => if row_matches (guid_counter p) k.1 k.2 r then f r else r) (lock_rows db))).
Proof.
  intros [Hnd Hdb] Hl0 Hf.
  assert (Hrow : forall r, r ∈ lock_rows db -> row_matches (guid_counter p) k.1 k.2 r = true ->
                   r = stored_row p k l0).
  { intros r Hr Hm%row_matches_spec. apply Hdb in Hr as (q & i & l' & E & ->).
    rewrite stored_row_key in Hm. replace (k.1, k.2) with k in Hm by by destruct k.
    apply (own_key q i l' E) in Hm as [= -> ->]. congruence. }
  assert (Hkeys : map row_key (map (fun r => if row_matches (guid_counter p) k.1 k.2 r then f r else r)
                    (lock_rows db)) = map row_key (lock_rows db)).
  { rewrite map_map. apply map_ext_in. intros r Hr%list_elem_of_In.
    destruct (row_matches _ _ _ r) eqn:Hm; [|done].
    rewrite (Hrow r Hr Hm), Hf. by rewrite !stored_row_key. }
  split; cbn; [by rewrite Hkeys|]. intros r. rewrite (changed_rows db r Hdb), list_elem_of_fmap. split.
  - intros (r0 & -> & Hr0). destruct (row_matches _ _ _ r0) eqn:Hm.
    + right. by rewrite (Hrow r0 Hr0 Hm).
    + left. split; [done|]. intros E. apply not_true_iff_false in Hm. apply Hm, row_matches_spec.
      by destruct k.
  - intros [[Hr Hk]| ->].
    + exists r. split; [|done]. destruct (row_matches _ _ _ r) eqn:Hm; [|done].
      destruct Hk. rewrite (Hrow r Hr Hm). apply stored_row_key.
    + exists (stored_row p k l0). split; [|by apply Hdb; eauto]. rewrite Hf.
      by replace (row_matches _ _ _ _) with true
        by (symmetry; apply row_matches_spec; rewrite stored_row_key; by destruct k).
Qed.
End Change.

(** * Committed plans *)
Lemma commit_app plan plan' db :
  commit_plan_like_cpp (plan ++ plan') db = commit_plan_like_cpp plan' (commit_plan_like_cpp plan db).
Proof. apply foldl_app. Qed.

Lemma update_mirrors held p e ev schedule now m plan db :
  has_reset_schedule e = true -> schedule_ok schedule -> clock_ok now ->
  own_counter p (perms m) ->
  (forall l, find_active_instance_lock_at p e now m = Some l ->
     lock_difficulty_id l = difficulty_id e) ->
  mirrors (perms m) (commit_plan_like_cpp plan db) ->
  let r := update_instance_lock_for_player_with_persistence_at held plan p e ev schedule now m in
  mirrors (perms r.1.1) (commit_plan_like_cpp r.1.2 db).
Proof.
  intros He Hs Hc Hown Hdiff Hm. unfold update_instance_lock_for_player_with_persistence_at.
  destruct (update_lock_core held p e ev schedule now m He Hs Hc)
    as (m' & cell & -> & Hl & _ & _ & _ & _ & Hframe & _). cbn [fst snd].
  set (l := apply_update _ _ _ _ _) in *.
  assert (Hd : lock_difficulty_id l = difficulty_id e).
  { unfold l. rewrite (proj1 (proj2 (apply_update_fields _ _ _ _ _))).
    rewrite find_active_in_force, He in Hdiff.
    destruct (in_force p (entries_key e) now m) as [old|]; [by apply Hdiff|done]. }
  rewrite commit_app. cbn [commit_plan_like_cpp foldl].
  replace (insert_character_instance_lock_mutation p e l)
    with (InsertCharacterLock (stored_row p (entries_key e) l))
    by (unfold stored_row, insert_character_instance_lock_mutation; by rewrite Hd).
  apply (mirrors_replace p (entries_key e) (perms m) (perms m') l Hown Hl); [|done].
  intros q i Hne. by apply Hframe.
Qed.

Lemma extend_mirrors p e ext schedule now m plan db :
  own_counter p (perms m) -> mirrors (perms m) (commit_plan_like_cpp plan db) ->
  let r := update_instance_lock_extension_for_player_with_persistence_at plan p e ext schedule now m in
  mirrors (perms r.1.1) (commit_plan_like_cpp r.1.2 db).
Proof.
  intros Hown Hm. unfold update_instance_lock_extension_for_player_with_persistence_at,
    update_instance_lock_extension_for_player_at.
  destruct (get_lock p (entries_key e) (perms m)) as [l|] eqn:El; [|done].
  destruct (negb (lock_active now l)); [done|]. cbn [fst snd]. rewrite commit_app.
  cbn [commit_plan_like_cpp foldl].
  apply (mirrors_update p (entries_key e) (perms m) _ (l <| extended := ext |>) Hown) with (l0 := l);
    try done.
  - apply get_put.
  - intros q i Hne. by apply get_put_ne.
Qed.

(** ** Forced resets *)
Section Reset.
Context {Ord : IterOrder (Z * Z)}.
Variables (p : ObjectGuid) (wm wd : option Z) (entries : gmap (Z * Z) MapDb2Entries)
  (schedule : ResetSchedule) (now : Z).

(** The entries a reset is called with belong to the player's locks: each is
    filed under its own key, a lock's entries are those of its map and
    difficulty, and map and difficulty determine the key. *)
Definition entries_fit (t : gmap ObjectGuid (gmap (Z * Z) InstanceLock)) : Prop :=
  (forall k e, entries !! k = Some e -> entries_key e = k) /\
  (forall k l e, get_lock p k t = Some l -> entries !! k = Some e ->
     map_id e = lock_map_id l /\ difficulty_id e = lock_difficulty_id l) /\
  (forall k1 k2 e1 e2, entries !! k1 = Some e1 -> entries !! k2 = Some e2 ->
     map_id e1 = map_id e2 -> difficulty_id e1 = difficulty_id e2 -> k1 = k2).

Lemma reset_outcome_spec k l l' :
  reset_outcome wm wd entries schedule now k l = Some l' ->
  exists e, entries !! k = Some e /\ l' = reset_lock e schedule now l.
Proof.
  unfold reset_outcome. destruct (_ || _); [done|]. intros (e & E & [= <-])%bind_Some. eauto.
Qed.

Lemma entries_found t k l l' :
  entries_fit t -> get_lock p k t = Some l ->
  reset_outcome wm wd entries schedule now k l = Some l' ->
  exists e, entries_of_lock entries l' = Some e /\ entries_key e = k.
Proof.
  intros (Hkey & Hfit & Huniq) El (e & Ee & ->)%reset_outcome_spec.
  destruct (Hfit _ _ _ El Ee) as [Hmap Hdiff]. unfold entries_of_lock.
  destruct (find_first _ _) as [e'|] eqn:F.
  - exists e'. split; [done|]. apply find_first_Some in F as [Hin [Hm Hd]]. cbn in Hm, Hd.
    apply list_elem_of_fmap in Hin as ([k' e''] & -> & Hin%elem_of_iter_entries). cbn in *.
    rewrite (Hkey _ _ Hin). apply (Huniq _ _ _ _ Hin Ee); congruence.
  - exfalso. apply find_first_None in F. rewrite Forall_forall in F. apply (F e); [|done].
    apply list_elem_of_fmap. exists (k, e). split; [done|]. by apply elem_of_iter_entries.
Qed.

(** [t] with the player's lock [k] replaced. *)
Lemma get_replace (t : gmap ObjectGuid (gmap (Z * Z) InstanceLock)) locks k l :
  t !! p = Some locks -> <[p := <[k := l]> locks]> t = put_lock p k l t.
Proof. intros E. unfold put_lock. by rewrite E. Qed.

Lemma own_counter_put k l l0 t :
  own_counter p t -> get_lock p k t = Some l0 -> own_counter p (put_lock p k l t).
Proof.
  intros Hown E0 q i l' E. destruct (decide ((q, i) = (p, k))) as [[= -> ->]|Hne]; [done|].
  rewrite get_put_ne in E by done. eauto.
Qed.

Lemma reset_fold_mirrors es locks res t db :
  NoDup es.*1 -> t !! p = Some locks -> (forall k l, (k, l) ∈ es -> locks !! k = Some l) ->
  own_counter p t -> entries_fit t -> mirrors t db ->
  mirrors (<[p := (foldl (reset_round wm wd entries schedule now) (locks, res) es).1]> t)
    (commit_plan_like_cpp
       (reset_mutations p entries (omap (fun kl => reset_outcome wm wd entries schedule now kl.1 kl.2) es)) db).
Proof.
  revert locks res t db. induction es as [|[k l] es IH]; intros locks res t db Hnd Et Hes Hown Hfit Hm.
  { cbn. by rewrite insert_id. }
  apply NoDup_cons in Hnd as [Hk Hnd]. change (k ∉ es.*1) in Hk. change (NoDup es.*1) in Hnd.
  assert (El : get_lock p k t = Some l) by (unfold get_lock; rewrite Et; by apply Hes; left).
  cbn [foldl omap list_omap]. rewrite reset_round_eq. cbn [fst snd].
  destruct (reset_outcome wm wd entries schedule now k l) as [l'|] eqn:Eo.
  2:{ apply IH; try done. intros k' l' H. apply Hes. by right. }
  destruct (entries_found t k l l' Hfit El Eo) as (e & Ee & Hek).
  unfold reset_mutations. cbn [omap list_omap]. rewrite Ee. cbn [mbind option_bind].
  change (?a :: ?b) with ([a] ++ b). rewrite commit_app.
  assert (Hrepl : forall L, <[p := L]> t = <[p := L]> (put_lock p k l' t)).
  { intros L. unfold put_lock. by rewrite insert_insert_eq. }
  rewrite Hrepl. apply IH; try done.
  - unfold put_lock. by rewrite lookup_insert_eq, Et.
  - intros k' l2 H. rewrite lookup_insert_ne; [apply Hes; by right|].
    intros <-. apply Hk, list_elem_of_fmap. by exists (k, l2).
  - by eapply own_counter_put.
  - destruct Hfit as (H1 & H2 & H3). split_and!; try done. intros k' l2 e2 E E2.
    destruct (decide (k' = k)) as [Heq|Hne].
    + rewrite Heq, get_put in E. injection E as <-. rewrite Heq in E2.
      destruct (reset_outcome_spec _ _ _ Eo) as (e3 & _ & ->). by apply (H2 k l).
    + rewrite get_put_ne in E by congruence. eauto.
  - cbn [commit_plan_like_cpp foldl statement_for_mutation_like_cpp
         force_expire_character_instance_lock_mutation].
    destruct (reset_outcome_spec _ _ _ Eo) as (e3 & _ & El').
    replace (map_id e) with k.1 by by rewrite <- Hek.
    replace (lock_id e) with k.2 by by rewrite <- Hek.
    apply (mirrors_update p k t (put_lock p k l' t) l' Hown (get_put _ _ _ _)) with (l0 := l);
      [by intros; apply get_put_ne|done|done|].
    unfold stored_row. ssimpl_goal. by rewrite El'.
Qed.

Lemma reset_mirrors m plan db :
  own_counter p (perms m) -> entries_fit (perms m) ->
  mirrors (perms m) (commit_plan_like_cpp plan db) ->
  let r := reset_instance_locks_for_player_with_persistence_at plan p wm wd entries schedule now m in
  mirrors (perms r.1.1) (commit_plan_like_cpp r.1.2 db).
Proof.
  intros Hown Hfit Hm. unfold reset_instance_locks_for_player_with_persistence_at,
    reset_instance_locks_for_player_at.
  destruct (perms m !! p) as [locks|] eqn:Ep.
  2:{ cbn. unfold reset_mutations. cbn. by rewrite app_nil_r. }
  pose proof (reset_fold_mirrors (iter_entries locks) locks (mkReset [] []) (perms m)
    (commit_plan_like_cpp plan db) (NoDup_iter_entries locks) Ep) as H.
  destruct (reset_fold wm wd entries schedule now (iter_entries locks) (locks, mkReset [] [])
              (NoDup_iter_entries locks)) as (_ & _ & Hr & _).
  destruct (foldl _ _ _) as [locks' res']. cbn [fst snd reset] in *. cbn in Hr. rewrite commit_app, Hr.
  ssimpl_goal. apply H; try done. intros k l. by rewrite elem_of_iter_entries.
Qed.
End Reset.

(** Other players' locks do not matter to the counter. *)
Lemma own_counter_frame p t t' :
  (forall q i, q <> p -> get_lock q i t' = get_lock q i t) -> own_counter p t -> own_counter p t'.
Proof.
  intros Hf Hown q k l E Hc. destruct (decide (q = p)) as [|Hn]; [done|].
  rewrite Hf in E by done. eauto.
Qed.

Lemma update_own_counter held plan p e ev schedule now m :
  has_reset_schedule e = true -> schedule_ok schedule -> clock_ok now -> own_counter p (perms m) ->
  own_counter p (perms (update_instance_lock_for_player_with_persistence_at held plan p e ev
    schedule now m).1.1).
Proof.
  intros He Hs Hc. unfold update_instance_lock_for_player_with_persistence_at.
  destruct (update_lock_core held p e ev schedule now m He Hs Hc)
    as (m' & cell & -> & _ & _ & _ & _ & _ & Hframe & _). cbn [fst snd].
  apply own_counter_frame. intros q i Hq. apply Hframe. congruence.
Qed.

Lemma extend_own_counter plan p e ext schedule now m :
  own_counter p (perms m) ->
  own_counter p (perms (update_instance_lock_extension_for_player_with_persistence_at plan p e ext
    schedule now m).1.1).
Proof.
  unfold update_instance_lock_extension_for_player_with_persistence_at,
    update_instance_lock_extension_for_player_at.
  destruct (get_lock p (entries_key e) (perms m)) as [l|]; [|done].
  destruct (negb (lock_active now l)); [done|]. cbn [fst snd]. apply own_counter_frame.
  intros q i Hq. ssimpl_goal. apply get_put_ne. congruence.
Qed.

Lemma reset_own_counter {Ord : IterOrder (Z * Z)} plan p wm wd entries schedule now m :
  own_counter p (perms m) ->
  own_counter p (perms (reset_instance_locks_for_player_with_persistence_at plan p wm wd entries
    schedule now m).1.1).
Proof.
  unfold reset_instance_locks_for_player_with_persistence_at, reset_instance_locks_for_player_at.
  destruct (perms m !! p) as [locks|]; [|done]. destruct (foldl _ _ _) as [locks' res'].
  cbn [fst snd]. apply own_counter_frame. intros q i Hq. unfold get_lock. ssimpl_goal.
  by rewrite lookup_insert_ne.
Qed.

(** C12: A plan under construction mirrors the manager, for a player whose locks
    are filed under its own guid and under no other guid of the same counter (as
    they are until the locks are loaded from the table, see [loaded_locks_lost]):
    if committing the plan so far leaves the lock table with exactly one row per
    permanent lock, holding that lock's data, the same is true of the manager
    and the plan after updating a lock with the entries of the difficulty the
    lock in force was made for, with a reset schedule and a clock in range; after
    extending one; and after resetting the player's locks with the entries of
    those locks. The filing is kept too, so that the operations can follow each
    other. *)
Theorem plan_mirrors_locks {Ord : IterOrder (Z * Z)} p m plan db schedule now :
  own_counter p (perms m) -> mirrors (perms m) (commit_plan_like_cpp plan db) ->
  (forall held e ev,
     has_reset_schedule e = true -> schedule_ok schedule -> clock_ok now ->
     (forall l, find_active_instance_lock_at p e now m = Some l ->
        lock_difficulty_id l = difficulty_id e) ->
     let r := update_instance_lock_for_player_with_persistence_at held plan p e ev schedule now m in
     own_counter p (perms r.1.1) /\ mirrors (perms r.1.1) (commit_plan_like_cpp r.1.2 db)) /\
  (forall e ext,
     let r := update_instance_lock_extension_for_player_with_persistence_at plan p e ext schedule now m in
     own_counter p (perms r.1.1) /\ mirrors (perms r.1.1) (commit_plan_like_cpp r.1.2 db)) /\
  (forall wm wd entries, entries_fit p entries (perms m) ->
     let r := reset_instance_locks_for_player_with_persistence_at plan p wm wd entries schedule now m in
     own_counter p (perms r.1.1) /\ mirrors (perms r.1.1) (commit_plan_like_cpp r.1.2 db)).
Proof.
  intros Hown Hm. split_and!.
  - intros held e ev He Hs Hc Hd. split; [by apply update_own_counter|by apply update_mirrors].
  - intros e ext. split; [by apply extend_own_counter|by apply extend_mirrors].
  - intros wm wd entries Hfit. split; [by apply reset_own_counter|by apply reset_mirrors].
Qed.

(** * Loading *)
Lemma load_shared_fold rows m ids :
  let r := foldl load_shared_row (m, ids) rows in
  perms r.1 = perms m /\ temps r.1 = temps m /\
  (forall i, is_Some (r.2 !! i) <-> is_Some (ids !! i) \/ i ∈ map srow_instance_id rows).
Proof.
  revert m ids. induction rows as [|row rows IH]; intros m ids.
  { cbn. split_and!; try done. intros i. rewrite elem_of_nil. tauto. }
  cbn [foldl load_shared_row].
  set (st := register_shared (srow_instance_id row) _ m).
  change (foldl _ _ rows) with (foldl load_shared_row (st.1, <[srow_instance_id row := st.2]> ids) rows).
  destruct (IH st.1 (<[srow_instance_id row := st.2]> ids)) as (Hp & Ht & Hi).
  split_and!; [done|done|]. intros i. rewrite Hi, lookup_insert_is_Some'. cbn [map].
  rewrite elem_of_cons, (eq_comm i). tauto.
Qed.

Lemma NoDup_map_finer {A B C} (f : A -> B) (g : A -> C) l :
  (forall x y, x ∈ l -> y ∈ l -> g x = g y -> f x = f y) -> NoDup (map f l) -> NoDup (map g l).
Proof.
  induction l as [|x l IH]; intros Hfg Hnd; [constructor|]. cbn [map] in *.
  apply NoDup_cons in Hnd as [Hx Hnd]. constructor.
  - intros (y & E & Hy)%list_elem_of_fmap. apply Hx, list_elem_of_fmap. exists y.
    split; [apply Hfg; [left|by right|done]|done].
  - apply IH; [|done]. intros y z Hy Hz. apply Hfg; by right.
Qed.

(** Where a row's lock is filed. *)
Definition row_place (r : CharacterInstanceLockRow) : ObjectGuid * (Z * Z) :=
  (row_player r, (row_map_id r, row_lock_id r)).

(** Places no row is filed at keep their lock; the temporary locks stay. *)
Lemma load_characters_frame entries_for ids rows m issues :
  let r := foldl (load_character_row entries_for ids) (m, issues) rows in
  (forall q k, (forall row, row ∈ rows -> row_place row <> (q, k)) ->
     get_lock q k (perms r.1) = get_lock q k (perms m)) /\
  temps r.1 = temps m.
Proof.
  revert m issues. induction rows as [|row rows IH]; intros m issues; [done|].
  cbn [foldl load_character_row].
  set (m1 := set_field loaded_character_instance_ids_like_cpp _ m).
  destruct (lock_of_row entries_for ids row) as [l|].
  - destruct (IH (m1 <| instance_locks_by_player := put_lock (row_player row)
                    (row_map_id row, row_lock_id row) l (perms m1) |>) issues) as [Hout Ht].
    split; [|done]. intros q k Hno. rewrite Hout by (intros row' H; apply Hno; by right).
    ssimpl_goal. apply get_put_ne. intros E. apply (Hno row); [by left|by rewrite E].
  - destruct (IH m1 (issues ++ [mkIssue (row_guid row) (row_instance_id row)])) as [Hout Ht].
    split; [|done]. intros q k Hno. apply Hout. intros row' H. apply Hno. by right.
Qed.

Lemma load_characters_fold entries_for ids rows m issues :
  NoDup (map row_place rows) ->
  let r := foldl (load_character_row entries_for ids) (m, issues) rows in
  (forall row, row ∈ rows -> forall l, lock_of_row entries_for ids row = Some l ->
     get_lock (row_player row) (row_map_id row, row_lock_id row) (perms r.1) = Some l) /\
  r.2 = issues ++ map (fun row => mkIssue (row_guid row) (row_instance_id row))
                    (filter (fun row => lock_of_row entries_for ids row = None) rows).
Proof.
  revert m issues. induction rows as [|row rows IH]; intros m issues Hnd.
  { cbn. rewrite app_nil_r. split; [|done]. by intros row ?%elem_of_nil. }
  cbn [map] in Hnd. apply NoDup_cons in Hnd as [Hr Hnd]. cbn [foldl load_character_row].
  set (m1 := set_field loaded_character_instance_ids_like_cpp _ m).
  destruct (lock_of_row entries_for ids row) as [l|] eqn:El.
  - set (m2 := m1 <| instance_locks_by_player := put_lock (row_player row)
                 (row_map_id row, row_lock_id row) l (perms m1) |>).
    destruct (IH m2 issues Hnd) as (Hin & Hi). split.
    + intros row' [->|Hrow']%elem_of_cons l' E'; [|by apply Hin].
      rewrite (proj1 (load_characters_frame entries_for ids rows m2 issues)).
      * simplify_eq. apply get_put.
      * intros row2 H2 E2. apply Hr, list_elem_of_fmap. exists row2. by rewrite E2.
    + rewrite Hi, filter_cons, decide_False by congruence. done.
  - destruct (IH m1 (issues ++ [mkIssue (row_guid row) (row_instance_id row)]) Hnd) as (Hin & Hi).
    split.
    + intros row' [->|Hrow']%elem_of_cons l' E'; [congruence|by apply Hin].
    + rewrite Hi, filter_cons, decide_True by done. cbn. by rewrite <- app_assoc.
Qed.

(** The fields a row stores. *)
Lemma lock_of_row_fields entries_for ids row l :
  lock_of_row entries_for ids row = Some l ->
  lock_map_id l = row_map_id row /\ lock_difficulty_id l = row_difficulty_id row /\
  instance_id l = row_instance_id row /\ expiry_time l = row_expiry row /\
  extended l = row_extended row /\
  data l = mkLockData (row_data row) (row_mask row) (row_entrance row) /\
  is_new l = false /\ is_in_use l = false.
Proof.
  unfold lock_of_row. destruct (is_instance_id_bound _).
  - intros (c & _ & [= <-])%bind_Some. done.
  - by intros [= <-].
Qed.

Lemma guid_counter_range p : in_u 40 (guid_counter p).
Proof.
  assert (H : in_u 40 (counter p)).
  { unfold counter. destruct (decide _).
    - pose proof (in_u_land_r 20 (Z.shiftr (high p) 38) 0xFFFFF ltac:(lia) ltac:(done)).
      unfold in_u in *. lia.
    - by apply in_u_land_r. }
  unfold guid_counter. rewrite wrap_u_id; [done|]. unfold in_u in *. lia.
Qed.

(** The guid a loaded lock is filed under. *)
Definition reloaded (p : ObjectGuid) : ObjectGuid :=
  create_global HighGuid.Player 0 (guid_counter p).

Lemma row_player_stored p k l : row_player (stored_row p k l) = reloaded p.
Proof.
  unfold row_player, reloaded. cbn. rewrite (wrap_s_id 64 eq_refl); [done|].
  pose proof (guid_counter_range p). unfold in_u, in_s in *. lia.
Qed.

(** Loading a lock table that mirrors the permanent locks restores them:
    in whatever order the rows come, and when the shared data of every
    instance-bound lock is there, no row is refused, and the loaded locks are
    exactly the stored ones, each under its player's counter with its map,
    difficulty, instance, expiry, extension and data; none is temporary, new or
    in use. *)
Theorem reload_restores entries_for t db rows m :
  mirrors t db -> rows ≡ₚ lock_rows db ->
  (forall p k l, get_lock p k t = Some l -> k.1 = lock_map_id l) ->
  (forall p k l e, get_lock p k t = Some l -> entries_for k.1 (lock_difficulty_id l) = Some e ->
     is_instance_id_bound e = true -> instance_id l ∈ map srow_instance_id (instance_rows db)) ->
  let r := load_from_rows_like_cpp (instance_rows db) rows entries_for m in
  r.2 = [] /\
  (forall q k, get_lock q k (temps r.1) = None) /\
  (forall p k l, get_lock p k t = Some l ->
     exists l', get_lock (reloaded p) k (perms r.1) = Some l' /\
       lock_map_id l' = lock_map_id l /\ lock_difficulty_id l' = lock_difficulty_id l /\
       instance_id l' = instance_id l /\ expiry_time l' = expiry_time l /\
       extended l' = extended l /\ data l' = data l /\ is_new l' = false /\ is_in_use l' = false) /\
  (forall q k l', get_lock q k (perms r.1) = Some l' ->
     exists p l, q = reloaded p /\ get_lock p k t = Some l).
Proof.
  intros [Hnd Hdb] Hperm Hkeyed Hshared r.
  assert (Hrows : forall row, row ∈ rows <-> exists p k l, get_lock p k t = Some l /\ row = stored_row p k l)
    by (intros row; by rewrite Hperm).
  unfold load_from_rows_like_cpp in r. set (m0 := set_field loaded_character_instance_ids_like_cpp _ _) in r.
  destruct (load_shared_fold (instance_rows db) m0 ∅) as (Sp & St & Sids).
  destruct (foldl load_shared_row (m0, ∅) (instance_rows db)) as [m1 ids]. cbn [fst snd] in *.
  assert (Hplace : NoDup (map row_place rows)).
  { apply (NoDup_map_finer row_key); [|by rewrite (Permutation_map row_key Hperm)].
    intros row row' (p & k & l & _ & ->)%Hrows (p' & k' & l' & _ & ->)%Hrows.
    unfold row_place. rewrite !row_player_stored, !stored_row_key. intros [= -> E1 E2].
    f_equal. destruct k, k'. cbn in *. congruence. }
  destruct (load_characters_fold entries_for ids rows m1 [] Hplace) as (Hin & Hi).
  destruct (load_characters_frame entries_for ids rows m1 []) as (Hout & Ht).
  subst r. set (r := foldl _ (m1, []) rows) in *.
  assert (Hall : forall row, row ∈ rows -> exists l, lock_of_row entries_for ids row = Some l).
  { intros row (p & k & l & E & ->)%Hrows. unfold lock_of_row. cbn [row_map_id row_difficulty_id stored_row].
    destruct (entries_for k.1 (lock_difficulty_id l)) as [e|] eqn:Ee; [|by eexists].
    change (default _ (Some e)) with e. destruct (is_instance_id_bound e) eqn:Hb; [|by eexists].
    assert (is_Some (ids !! instance_id l)) as [c Hc] by (apply Sids; right; by eapply Hshared).
    cbn [row_instance_id stored_row]. rewrite Hc. cbn. eauto. }
  split_and!.
  - rewrite Hi. cbn [app]. destruct (filter _ rows) as [|x xs] eqn:F; [done|exfalso].
    assert (Hx : x ∈ x :: xs) by left. rewrite <- F in Hx. apply list_elem_of_filter in Hx as [E Hx].
    destruct (Hall x Hx). congruence.
  - intros q k. rewrite Ht, St. unfold get_lock. cbn. by rewrite lookup_empty.
  - intros p k l E. assert (Hrow : stored_row p k l ∈ rows) by (apply Hrows; eauto).
    destruct (Hall _ Hrow) as [l' El']. exists l'.
    destruct (lock_of_row_fields _ _ _ _ El') as (-> & -> & -> & -> & -> & -> & -> & ->).
    split; [|cbn; rewrite (Hkeyed _ _ _ E); by destruct (data l)].
    pose proof (Hin _ Hrow _ El') as G. rewrite row_player_stored in G. by destruct k.
  - intros q k l' E. destruct (decide (Exists (fun row => row_place row = (q, k)) rows)) as [Hex|Hno].
    + apply Exists_exists in Hex as (row & (p & k0 & l & El & ->)%Hrows & Hpl).
      unfold row_place in Hpl. rewrite row_player_stored in Hpl. cbn in Hpl.
      replace (k0.1, k0.2) with k0 in Hpl by by destruct k0. injection Hpl as <- <-. eauto.
    + exfalso. rewrite Hout in E.
      * rewrite Sp in E. unfold get_lock in E. cbn in E. by rewrite lookup_empty in E.
      * intros row Hrow Hpl. apply Hno, Exists_exists. eauto.
Qed.

(** ** The realm of loaded guids *)
Lemma create_player_realm realm c :
  Z.land (Z.shiftr (high (create_player realm c)) 42) 0x1FFF = Z.land realm 0x1FFF.
Proof.
  unfold create_player, type_bits, realm_bits. cbn [high]. change 0x1FFF with (Z.ones 13).
  apply Z.bits_inj'. intros i Hi. destruct (Z.lt_ge_cases i 13) as [Hlt|Hge].
  - bits_push. replace (i + 42 - 42) with i by lia.
    replace (Z.testbit (HighGuid.code HighGuid.Player) (i + 42 - 58)) with false; [done|].
    by rewrite Z.testbit_neg_r by lia.
  - bits_push. done.
Qed.

Lemma loaded_guid_other realm c c' :
  Z.land realm 0x1FFF <> 0 -> create_player realm c <> create_global HighGuid.Player 0 c'.
Proof.
  intros Hr E. apply (f_equal (fun g => Z.land (Z.shiftr (high g) 42) 0x1FFF)) in E.
  rewrite create_player_realm in E. by vm_compute in E.
Qed.

(** Loaded locks are filed under realm 0: right after a load no player of
    a realm with a nonzero id has a lock in force on any map, whatever rows
    the table held. *)
Theorem loaded_locks_lost realm c srows rows entries_for e now m :
  Z.land realm 0x1FFF <> 0 ->
  find_active_instance_lock_at (create_player realm c) e now
    (load_from_rows_like_cpp srows rows entries_for m).1 = None.
Proof.
  intros Hr. rewrite find_active_in_force. destruct (has_reset_schedule e); [|done].
  unfold load_from_rows_like_cpp. set (m0 := set_field loaded_character_instance_ids_like_cpp _ _).
  destruct (load_shared_fold srows m0 ∅) as (Sp & St & _).
  destruct (foldl load_shared_row (m0, ∅) srows) as [m1 ids]. cbn [fst snd] in *.
  destruct (load_characters_frame entries_for ids rows m1 []) as (Hout & Ht).
  unfold in_force. rewrite Ht, Hout.
  - rewrite Sp, St. unfold get_lock. cbn. by rewrite !lookup_empty.
  - intros row _ E. apply (f_equal fst) in E. symmetry in E. by apply loaded_guid_other in E.
Qed.

(** * A concrete raid lock, stored and loaded *)
Lemma empty_mirrors rows : mirrors ∅ (mkDb rows []).
Proof.
  split; cbn; [constructor|]. intros r. split; [by intros ?%elem_of_nil|].
  intros (p & k & l & E & _). unfold get_lock in E. by rewrite lookup_empty in E.
Qed.

Lemma empty_own_counter p : own_counter p ∅.
Proof. intros q k l E. unfold get_lock in E. by rewrite lookup_empty in E. Qed.

Lemma plan_mirrors_locks_witness :
  let r := update_instance_lock_for_player_with_persistence_at ∅ [] raider weekly_entries boss_killed
             default_schedule noon raid_started in
  own_counter raider (perms r.1.1) /\ mirrors (perms r.1.1) (commit_plan_like_cpp r.1.2 (mkDb [] [])).
Proof.
  refine (proj1 (plan_mirrors_locks (Ord := map_list_order (Z * Z)) raider raid_started [] (mkDb [] [])
           default_schedule noon _ _) ∅ weekly_entries boss_killed _ _ _ _).
  - apply empty_own_counter.
  - apply empty_mirrors.
  - by vm_compute.
  - apply default_schedule_ok.
  - by vm_compute.
  - intros l E. assert (Hd : lock_difficulty_id <$> find_active_instance_lock_at raider weekly_entries noon
      raid_started = Some 4) by by vm_compute.
    rewrite E in Hd. by injection Hd.
Defined.

Definition raid_db : LockDb :=
  mkDb [mkSharedRow 9001 "bosses:1" 2 42] [stored_row raider (631, 7) raid_lock].

Lemma raid_db_mirrors : mirrors (put_lock raider (631, 7) raid_lock ∅) raid_db.
Proof.
  refine (mirrors_replace raider (631, 7) ∅ _ raid_lock (empty_own_counter _) (get_put _ _ _ _) _
            (mkDb (instance_rows raid_db) []) (empty_mirrors _)).
  by intros; apply get_put_ne.
Qed.

Lemma raid_lock_only p k l :
  get_lock p k (put_lock raider (631, 7) raid_lock ∅) = Some l -> k = (631, 7) /\ l = raid_lock.
Proof.
  destruct (decide ((p, k) = (raider, (631, 7)))) as [[= -> ->]|Hne].
  - rewrite get_put. by intros [= <-].
  - rewrite get_put_ne by done. unfold get_lock. by rewrite lookup_empty.
Qed.

Lemma reload_restores_witness :
  let r := load_from_rows_like_cpp (instance_rows raid_db) (lock_rows raid_db)
             (fun _ _ => Some weekly_entries) mgr_default in
  r.2 = [] /\
  exists l', get_lock (reloaded raider) (631, 7) (perms r.1) = Some l' /\ data l' = data raid_lock.
Proof.
  destruct (reload_restores (fun _ _ => Some weekly_entries) _ raid_db (lock_rows raid_db) mgr_default
              raid_db_mirrors (Permutation_refl _)) as (H1 & _ & H3 & _).
  - by intros p k l [-> ->]%raid_lock_only.
  - intros p k l e [-> ->]%raid_lock_only _ _. by left.
  - refine (conj H1 _). destruct (H3 raider (631, 7) raid_lock (get_put _ _ _ _)) as (l' & E & H).
    exact (ex_intro _ l' (conj E (proj1 (proj2 (proj2 (proj2 (proj2 (proj2 H)))))))).
Defined.

Lemma loaded_locks_lost_witness :
  find_active_instance_lock_at raider weekly_entries noon
    (load_from_rows_like_cpp (instance_rows raid_db) (lock_rows raid_db)
       (fun _ _ => Some weekly_entries) mgr_default).1 = None.
Proof. apply (loaded_locks_lost 1 55). by vm_compute. Defined.
