(* ===== verification/InstanceScript.v ===== *)
(** wow-instances/src/instances/state_1.rs (second half) and state_2.rs: the
    encounter states of an instance script, its combat resurrections,
    entrances and area triggers. *)
From S2P Require Import Prelude.

(** * Data *)
Module EncounterState.
Inductive t : Type := NotStarted | InProgress | Fail | Done | Special | ToBeDecided.

#[global] Instance eq_dec : EqDecision t.
Proof. solve_decision. Defined.

Definition from_i64_like_cpp (v : Z) : option t :=
  if v =? 0 then Some NotStarted else if v =? 1 then Some InProgress
  else if v =? 2 then Some Fail else if v =? 3 then Some Done
  else if v =? 4 then Some Special else if v =? 5 then Some ToBeDecided else None.

Definition save_load_normalized_like_cpp (s : t) : t :=
  match s with
  | InProgress | Fail | Special => NotStarted
  | other => other
  end.
End EncounterState.
Import EncounterState (NotStarted, InProgress, Fail, Done, Special, ToBeDecided).

(** [F64] carries the bits of the number. *)
Inductive PersistentInstanceScriptValue : Type := I64 (v : Z) | F64 (bits : Z).

Record BossStateTransitionPlan : Type := mkPlan
  { plan_boss_id : Z; previous_state : EncounterState.t; new_state : EncounterState.t;
    initialize_combat_resurrections : bool; reset_combat_resurrections : bool;
    send_encounter_start : bool; send_encounter_end : bool; notify_players_start : bool;
    notify_players_end : bool; plan_dungeon_encounter_id : option Z; update_lock : bool;
    update_criteria : bool; send_boss_kill_credit : bool; update_lfg : bool;
    update_doors_minions_and_spawn_groups : bool }.

Inductive CombatResurrectionEvent : Type :=
| GainCharge (in_combat_res_count combat_res_charge_recovery : Z)
| InCombatResurrection.

Record CombatResurrectionTracker : Type := mkTracker
  { charges : Z; timer_ms : Z; timer_started : bool }.
#[export] Instance eta_tracker : Eta CombatResurrectionTracker := fun t =>
  mkTracker (charges t) (timer_ms t) (timer_started t).
Definition tracker_default : CombatResurrectionTracker := mkTracker 0 0 false.

Record DungeonEncounterEntry : Type := mkEncounter
  { encounter_id : Z; encounter_map_id : Z; encounter_difficulty_id : Z; order_index : Z;
    encounter_bit_index : Z; encounter_flags : Z; encounter_faction : Z }.
Record DungeonEncounterStore : Type := mkEncounterStore
  { encounter_entries : gmap Z DungeonEncounterEntry }.
Definition encounter_get (st : DungeonEncounterStore) (id : Z) : option DungeonEncounterEntry :=
  encounter_entries st !! id.
Definition encounter_store_from_entries (es : list DungeonEncounterEntry) : DungeonEncounterStore :=
  mkEncounterStore (foldl (fun m e => <[encounter_id e := e]> m) ∅ es).

(** [dungeon_encounters] is an array of [MAX_DUNGEON_ENCOUNTERS_PER_BOSS]. *)
Definition MAX_DUNGEON_ENCOUNTERS_PER_BOSS : nat := 4.
Record BossInfo : Type := mkBoss
  { state : EncounterState.t; dungeon_encounters : list (option Z) }.
#[export] Instance eta_boss : Eta BossInfo := fun b => mkBoss (state b) (dungeon_encounters b).
Definition boss_default : BossInfo := mkBoss ToBeDecided [None; None; None; None].

Record InstanceScriptBase : Type := mkScript
  { script_difficulty_id : Z; header : string; bosses : list BossInfo;
    persistent_values : list (string * PersistentInstanceScriptValue);
    combat_resurrections : CombatResurrectionTracker; entrance_id : Z; temporary_entrance_id : Z;
    activated_area_triggers : gset Z }.
#[export] Instance eta_script : Eta InstanceScriptBase := fun s =>
  mkScript (script_difficulty_id s) (header s) (bosses s) (persistent_values s)
    (combat_resurrections s) (entrance_id s) (temporary_entrance_id s) (activated_area_triggers s).

(** * Combat resurrections *)
(** The product [90 * 60 * 1000] is a constant of the code. *)
Definition combat_resurrection_charge_interval_like_cpp (player_count : Z) : Z :=
  if player_count =? 0 then 0 else 5400000 / player_count.

Definition tracker_initialize_like_cpp (n interval_ms : Z) (t : CombatResurrectionTracker)
  : CombatResurrectionTracker :=
  let t := t <| charges := n |> in
  if interval_ms =? 0 then t
  else t <| timer_ms := interval_ms |> <| timer_started := true |>.

Definition tracker_reset_like_cpp (t : CombatResurrectionTracker) : CombatResurrectionTracker :=
  t <| charges := 0 |> <| timer_ms := 0 |> <| timer_started := false |>.

Definition add_charge_like_cpp (player_count : Z) (t : CombatResurrectionTracker)
  : CombatResurrectionTracker * CombatResurrectionEvent :=
  let t := t <| charges := u8 (charges t + 1) |>
             <| timer_ms := combat_resurrection_charge_interval_like_cpp player_count |> in
  (t, GainCharge (charges t) (timer_ms t)).

Definition use_charge_like_cpp (t : CombatResurrectionTracker)
  : CombatResurrectionTracker * CombatResurrectionEvent :=
  (t <| charges := u8 (charges t - 1) |>, InCombatResurrection).

Definition tracker_update_like_cpp (diff_ms player_count : Z) (t : CombatResurrectionTracker)
  : CombatResurrectionTracker * option CombatResurrectionEvent :=
  if negb (timer_started t) then (t, None)
  else if timer_ms t <=? diff_ms then
    let '(t, ev) := add_charge_like_cpp player_count t in (t, Some ev)
  else (t <| timer_ms := timer_ms t - diff_ms |>, None).

(** * The script *)
Definition script_new (difficulty : Z) (boss_count : nat) : InstanceScriptBase :=
  mkScript difficulty "" (replicate boss_count boss_default) [] tracker_default 0 0 ∅.

Definition set_header (h : string) (s : InstanceScriptBase) : InstanceScriptBase :=
  s <| header := h |>.
Definition boss_count (s : InstanceScriptBase) : nat := length (bosses s).
Definition boss (b : Z) (s : InstanceScriptBase) : option BossInfo := bosses s !! Z.to_nat b.
Definition is_encounter_in_progress_like_cpp (s : InstanceScriptBase) : bool :=
  existsb (fun b => bool_decide (state b = InProgress)) (bosses s).
Definition boss_state (b : Z) (s : InstanceScriptBase) : EncounterState.t :=
  from_option state ToBeDecided (boss b s).

(** [bosses[b].state = st]. *)
Definition put_state (b : Z) (st : EncounterState.t) (s : InstanceScriptBase) : InstanceScriptBase :=
  s <| bosses := alter (fun i => i <| state := st |>) (Z.to_nat b) (bosses s) |>.

Definition set_boss_state_like_cpp (b : Z) (st : EncounterState.t) (s : InstanceScriptBase)
  : InstanceScriptBase * bool :=
  match boss b s with
  | None => (s, false)
  | Some _ => (put_state b st s, true)
  end.

Definition dungeon_encounter_for_difficulty (store : DungeonEncounterStore) (difficulty : Z)
    (b : BossInfo) : option DungeonEncounterEntry :=
  find_first (fun e => encounter_difficulty_id e = 0 \/ encounter_difficulty_id e = difficulty)
    (omap (encounter_get store) (omap id (dungeon_encounters b))).

Definition set_boss_state_planned_like_cpp (store : DungeonEncounterStore) (b : Z)
    (st : EncounterState.t) (has_alive_world_boss_minion : bool) (s : InstanceScriptBase)
  : InstanceScriptBase * option BossStateTransitionPlan :=
  match boss b s with
  | None => (s, None)
  | Some info =>
      let previous := state info in
      if bool_decide (previous = ToBeDecided) then (put_state b st s, None)
      else if bool_decide (previous = st) || bool_decide (previous = Done) then (s, None)
      else if bool_decide (st = Done) && has_alive_world_boss_minion then (s, None)
      else
        let dungeon_encounter :=
          if bool_decide (st = Done)
          then encounter_id <$> dungeon_encounter_for_difficulty store (script_difficulty_id s) info
          else None in
        let started := bool_decide (st = InProgress) in
        let ended := bool_decide (st = Fail) || bool_decide (st = Done) in
        let credited := bool_decide (is_Some dungeon_encounter) in
        (put_state b st s,
         Some (mkPlan b previous st started ended started ended started ended dungeon_encounter
                 credited credited credited credited true))
  end.

Definition create_like_cpp (s : InstanceScriptBase) : InstanceScriptBase :=
  foldl (fun s b => (set_boss_state_like_cpp (u32 (Z.of_nat b)) NotStarted s).1) s
    (seq 0 (length (bosses s))).

Definition register_persistent_value_like_cpp (name : string) (v : PersistentInstanceScriptValue)
    (s : InstanceScriptBase) : InstanceScriptBase :=
  s <| persistent_values := persistent_values s ++ [(name, v)] |>.
Definition persistent_value (name : string) (s : InstanceScriptBase)
  : option PersistentInstanceScriptValue :=
  snd <$> find_first (fun kv => kv.1 = name) (persistent_values s).

Definition initialize_combat_resurrections_like_cpp (n interval_ms : Z) (s : InstanceScriptBase)
  : InstanceScriptBase :=
  s <| combat_resurrections := tracker_initialize_like_cpp n interval_ms (combat_resurrections s) |>.
Definition reset_combat_resurrections_like_cpp (s : InstanceScriptBase) : InstanceScriptBase :=
  s <| combat_resurrections := tracker_reset_like_cpp (combat_resurrections s) |>.
Definition update_combat_resurrection_like_cpp (diff_ms player_count : Z) (s : InstanceScriptBase)
  : InstanceScriptBase * option CombatResurrectionEvent :=
  let '(t, ev) := tracker_update_like_cpp diff_ms player_count (combat_resurrections s) in
  (s <| combat_resurrections := t |>, ev).
Definition use_combat_resurrection_like_cpp (s : InstanceScriptBase)
  : InstanceScriptBase * CombatResurrectionEvent :=
  let '(t, ev) := use_charge_like_cpp (combat_resurrections s) in
  (s <| combat_resurrections := t |>, ev).

(** ** Entrances and area triggers *)
Definition set_entrance_location_like_cpp (loc : Z) (s : InstanceScriptBase) : InstanceScriptBase :=
  s <| entrance_id := loc |> <| temporary_entrance_id := 0 |>.
Definition set_temporary_entrance_location_like_cpp (loc : Z) (s : InstanceScriptBase)
  : InstanceScriptBase :=
  s <| temporary_entrance_id := loc |>.
Definition entrance_location_like_cpp (s : InstanceScriptBase) : Z :=
  if negb (temporary_entrance_id s =? 0) then temporary_entrance_id s else entrance_id s.
Definition entrance_location_for_completed_encounters_like_cpp (is_using_encounter_locks : bool)
    (_completed_encounters_mask : Z) (s : InstanceScriptBase) : option Z :=
  if negb is_using_encounter_locks then Some (entrance_id s) else None.

Definition mark_area_trigger_done_like_cpp (id : Z) (s : InstanceScriptBase) : InstanceScriptBase :=
  s <| activated_area_triggers := {[id]} ∪ activated_area_triggers s |>.
Definition reset_area_trigger_done_like_cpp (id : Z) (s : InstanceScriptBase) : InstanceScriptBase :=
  s <| activated_area_triggers := activated_area_triggers s ∖ {[id]} |>.
Definition is_area_trigger_done_like_cpp (id : Z) (s : InstanceScriptBase) : bool :=
  bool_decide (id ∈ activated_area_triggers s).

(** ** Dungeon encounters *)
Definition load_dungeon_encounter_data (store : DungeonEncounterStore) (b : Z) (ids : list Z)
    (s : InstanceScriptBase) : InstanceScriptBase :=
  s <| bosses := alter (fun i => i <| dungeon_encounters :=
                          (fun id => encounter_id <$> encounter_get store id) <$> ids |>)
                   (Z.to_nat b) (bosses s) |>.

Definition load_dungeon_encounter_data_rows (store : DungeonEncounterStore)
    (rows : list (Z * list Z)) (s : InstanceScriptBase) : InstanceScriptBase :=
  foldl (fun s row => load_dungeon_encounter_data store row.1 row.2 s) s rows.

Definition boss_dungeon_encounter (store : DungeonEncounterStore) (b : Z) (s : InstanceScriptBase)
  : option DungeonEncounterEntry :=
  info ← boss b s; dungeon_encounter_for_difficulty store (script_difficulty_id s) info.

Definition is_encounter_completed_like_cpp (store : DungeonEncounterStore) (id : Z)
    (s : InstanceScriptBase) : bool :=
  existsb (fun b =>
      existsb (fun e => encounter_id e =? id)
        (omap (encounter_get store) (omap (fun o : option Z => o) (dungeon_encounters b)))
      && bool_decide (state b = Done)) (bosses s).

(** [1u32 << bit]: the release profile shifts by the low five bits. *)
Definition is_encounter_completed_in_mask_by_boss_id_like_cpp (store : DungeonEncounterStore)
    (mask b : Z) (s : InstanceScriptBase) : bool :=
  match boss_dungeon_encounter store b s with
  | None => false
  | Some e =>
      if encounter_bit_index e <? 0 then false
      else negb (Z.land mask (u32 (Z.shiftl 1 (encounter_bit_index e mod 32))) =? 0)
           && bool_decide (boss_state b s = Done)
  end.

(** * Runs of planned transitions *)
(** A request: boss, wanted state, whether a world boss minion is alive. *)
Definition Request : Type := Z * EncounterState.t * bool.

Definition run_step (store : DungeonEncounterStore)
    (acc : InstanceScriptBase * list BossStateTransitionPlan) (r : Request)
  : InstanceScriptBase * list BossStateTransitionPlan :=
  let '(s, plans) := acc in
  let '(b, st, minion) := r in
  let '(s, p) := set_boss_state_planned_like_cpp store b st minion s in
  (s, plans ++ option_list p).
Definition run_requests (store : DungeonEncounterStore) (s : InstanceScriptBase)
    (rs : list Request) : InstanceScriptBase * list BossStateTransitionPlan :=
  foldl (run_step store) (s, []) rs.

(** The plans that end an encounter of boss [b] with a kill. *)
Definition kills (b : Z) (plans : list BossStateTransitionPlan) : list BossStateTransitionPlan :=
  filter (fun p => plan_boss_id p = b /\ new_state p = Done) plans.

Section Kills.
Variable store : DungeonEncounterStore.

Lemma boss_state_put b b' st s :
  0 <= b -> 0 <= b' -> is_Some (boss b' s) ->
  boss_state b (put_state b' st s) = if b =? b' then st else boss_state b s.
Proof.
  intros Hb Hb' [i Hi]. unfold boss_state, boss, put_state in *. ssimpl_goal.
  destruct (Z.eqb_spec b b') as [->|Hne].
  - by rewrite list_lookup_alter_eq, Hi.
  - by rewrite list_lookup_alter_ne by lia.
Qed.

Lemma kills_app b ps qs : kills b (ps ++ qs) = kills b ps ++ kills b qs.
Proof. apply filter_app. Qed.

Lemma kills_one b p :
  kills b [p] = if decide (plan_boss_id p = b /\ new_state p = Done) then [p] else [].
Proof. done. Qed.

(** A request either leaves the states alone and plans nothing, or gives its
    boss, who has not been killed, the wanted state, with at most one plan. *)
Lemma planned_cases b st minion s :
  let r := set_boss_state_planned_like_cpp store b st minion s in
  (r.1 = s /\ r.2 = None) \/
  (is_Some (boss b s) /\ boss_state b s <> Done /\ r.1 = put_state b st s /\
   forall p, r.2 = Some p -> plan_boss_id p = b /\ previous_state p = boss_state b s /\ new_state p = st
     /\ ~ (st = Done /\ minion = true)).
Proof.
  unfold set_boss_state_planned_like_cpp, boss_state.
  destruct (boss b s) as [i|] eqn:Hb; [|by left]. cbn [from_option].
  destruct (bool_decide_reflect (state i = ToBeDecided)) as [E|E].
  { right. split_and!; [done|by rewrite E|done|done]. }
  destruct (bool_decide_reflect (state i = st)) as [E1|E1]; [by left|].
  destruct (bool_decide_reflect (state i = Done)) as [E2|E2]; [by left|]. cbn [orb].
  destruct (bool_decide_reflect (st = Done)) as [->|E3], minion; cbn [andb]; [by left|..];
    (right; split_and!; [done|done|done|]; intros p [= <-]; cbn; split_and!; try done; by intros [? ?]).
Qed.

Lemma planned_state b b' st minion s :
  0 <= b -> 0 <= b' -> boss_state b s = Done ->
  boss_state b (set_boss_state_planned_like_cpp store b' st minion s).1 = Done.
Proof.
  intros Hb Hb' E. destruct (planned_cases b' st minion s) as [[-> _]|(Hi & Hd & -> & _)]; [done|].
  rewrite boss_state_put by done. destruct (Z.eqb_spec b b') as [->|]; [done|done].
Qed.

Lemma run_from rs s plans :
  Forall (fun r : Request => 0 <= r.1.1) rs ->
  (forall b, 0 <= b -> (length (kills b plans) <= 1)%nat /\
                       (boss_state b s <> Done -> kills b plans = [])) ->
  let r := foldl (run_step store) (s, plans) rs in
  forall b, 0 <= b ->
    (length (kills b r.2) <= 1)%nat /\ (boss_state b r.1 <> Done -> kills b r.2 = []) /\
    (boss_state b s = Done -> boss_state b r.1 = Done /\ kills b r.2 = kills b plans).
Proof.
  intros Hrs. revert s plans. induction Hrs as [|[[b' st] minion] rs Hb' _ IH]; intros s plans Hinv.
  { cbn. intros b Hb. destruct (Hinv b Hb). done. }
  cbn [fst] in Hb'. cbn [foldl run_step].
  pose proof (planned_cases b' st minion s) as Hc.
  destruct (set_boss_state_planned_like_cpp store b' st minion s) as [s1 p] eqn:E. cbn [fst snd] in Hc.
  assert (Hdone : forall b, 0 <= b -> boss_state b s = Done ->
            boss_state b s1 = Done /\ kills b (plans ++ option_list p) = kills b plans).
  { intros b Hb Hd. split.
    - pose proof (planned_state b b' st minion s Hb Hb' Hd) as H. by rewrite E in H.
    - rewrite kills_app. destruct Hc as [[_ ->]|(_ & Hnd & _ & Hp)]; [by rewrite app_nil_r|].
      destruct p as [p|]; [|by rewrite app_nil_r]. destruct (Hp p eq_refl) as (Hpb & _ & _ & _).
      change (option_list (Some p)) with [p]. rewrite kills_one, decide_False, app_nil_r; [done|].
      intros [<- _]. congruence. }
  intros b Hb. destruct (IH s1 (plans ++ option_list p)) with (b := b) as (H1 & H2 & H3); [|done|].
  - clear b Hb. intros b Hb. destruct (Hinv b Hb) as [Hl Hn].
    destruct (decide (boss_state b s = Done)) as [Hd|Hd].
    { destruct (Hdone b Hb Hd) as [E1 E2]. rewrite E2. split; [done|by intros ?]. }
    rewrite kills_app, (Hn Hd). cbn [app].
    destruct Hc as [[-> ->]|(Hi & _ & -> & Hp)]; [by split; [apply Nat.le_0_l|]|].
    destruct p as [p|]; [|by split; [apply Nat.le_0_l|]]. destruct (Hp p eq_refl) as (Hpb & _ & Hps & _). change (option_list (Some p)) with [p].
    rewrite kills_one. destruct (decide _) as [[E1 E2]|_]; [|by split; [apply Nat.le_0_l|]].
    split; [done|]. rewrite boss_state_put by done. rewrite <- E1, Hpb, Z.eqb_refl. by rewrite <- Hps.
  - split_and!; [done|done|]. intros Hd. destruct (Hdone b Hb Hd) as [Hd1 Hk].
    destruct (H3 Hd1) as [? ->]. done.
Qed.

(** Whatever sequence of transitions is requested, each boss is killed at
    most once: at most one plan with a kill (the plans that update the lock
    and give credit) is made for it; the boss is then done for good, and a
    boss that was done from the start yields no such plan. *)
Theorem boss_killed_once rs s b :
  Forall (fun r : Request => 0 <= r.1.1) rs -> 0 <= b ->
  let r := run_requests store s rs in
  (length (kills b r.2) <= 1)%nat /\
  (kills b r.2 <> [] -> boss_state b r.1 = Done) /\
  (boss_state b s = Done -> boss_state b r.1 = Done /\ kills b r.2 = []).
Proof.
  intros Hrs Hb. destruct (run_from rs s [] Hrs) with (b := b) as (H1 & H2 & H3);
    [intros; by split; [apply Nat.le_0_l|]|done|].
  split_and!; [done| |done]. intros Hk. destruct (decide (boss_state b (run_requests store s rs).1 = Done));
    [done|by destruct Hk; apply H2].
Qed.
End Kills.

(** A wipe, a kill, and a second attempt on the dead boss. *)
Lemma boss_killed_once_witness :
  let r := run_requests (encounter_store_from_entries []) (create_like_cpp (script_new 4 2))
             [(0, InProgress, false); (0, Fail, false); (0, InProgress, false); (0, Done, false);
              (0, InProgress, false); (0, Done, false)] in
  (length (kills 0 r.2) <= 1)%nat /\ (kills 0 r.2 <> [] -> boss_state 0 r.1 = Done) /\
  (boss_state 0 (create_like_cpp (script_new 4 2)) = Done ->
     boss_state 0 r.1 = Done /\ kills 0 r.2 = []).
Proof. apply boss_killed_once; [repeat constructor; cbn; lia|lia]. Defined.
