(* ===== verification/EventMap.v ===== *)
(** wow-core/src/event_map.rs: the timed event queue of creature and instance
    scripts, refined by a flat list of timed events in execution order. *)
From Stdlib Require Import Sorted.
From S2P Require Import Prelude.

(** * Ordered maps

    A [BTreeMap] with integer keys: its entries in key order. *)
Section BTree.
Context {V : Type}.

Fixpoint btree_insert (k : Z) (v : V) (m : list (Z * V)) : list (Z * V) :=
  match m with
  | [] => [(k, v)]
  | (k', v') :: m' =>
      if k <? k' then (k, v) :: m
      else if k =? k' then (k, v) :: m'
      else (k', v') :: btree_insert k v m'
  end.
End BTree.

(** [entry(k).or_default().push_back(x)] on a map of queues. *)
Fixpoint btree_push_back {A} (k : Z) (x : A) (m : list (Z * list A)) : list (Z * list A) :=
  match m with
  | [] => [(k, [x])]
  | (k', q) :: m' =>
      if k <? k' then (k, [x]) :: m
      else if k =? k' then (k', q ++ [x]) :: m'
      else (k', q) :: btree_push_back k x m'
  end.

(** * State *)
Definition EVENT_ID_MASK_LIKE_CPP : Z := 0x0000FFFF.
Definition EVENT_PHASE_MASK_LIKE_CPP : Z := 0xFF000000.
Definition MAX_EVENT_GROUP_OR_PHASE_LIKE_CPP : Z := 8.

Record EventMap : Type := mkEventMap
  { time_ms : Z; phase_mask : Z; last_event_data : Z;
    events : list (Z * list Z); timer_series : gmap Z (list Z) }.

#[export] Instance eta_event_map : Eta EventMap := fun m =>
  mkEventMap (time_ms m) (phase_mask m) (last_event_data m) (events m) (timer_series m).

(** [new], and what [reset_like_cpp] leaves. *)
Definition event_map_new : EventMap := mkEventMap 0 0 0 [] ∅.
Definition reset_like_cpp (m : EventMap) : EventMap :=
  m <| events := [] |> <| timer_series := ∅ |> <| time_ms := 0 |> <| phase_mask := 0 |>
    <| last_event_data := 0 |>.

Definition update_like_cpp (diff_ms : Z) (m : EventMap) : EventMap :=
  m <| time_ms := i64 (time_ms m + diff_ms) |>.

Definition phase_mask_like_cpp (m : EventMap) : Z := phase_mask m.
Definition is_empty_like_cpp (m : EventMap) : bool :=
  match events m with [] => true | _ => false end.

(** * Phases *)
Definition phase_bit (phase : Z) : Z := u8 (Z.shiftl 1 (phase - 1)).

Definition set_phase_like_cpp (phase : Z) (m : EventMap) : EventMap :=
  if phase =? 0 then m <| phase_mask := 0 |>
  else if phase <=? MAX_EVENT_GROUP_OR_PHASE_LIKE_CPP then m <| phase_mask := phase_bit phase |>
  else m.

Definition add_phase_like_cpp (phase : Z) (m : EventMap) : EventMap :=
  if negb (phase =? 0) && (phase <=? MAX_EVENT_GROUP_OR_PHASE_LIKE_CPP)
  then m <| phase_mask := Z.lor (phase_mask m) (phase_bit phase) |> else m.

Definition remove_phase_like_cpp (phase : Z) (m : EventMap) : EventMap :=
  if negb (phase =? 0) && (phase <=? MAX_EVENT_GROUP_OR_PHASE_LIKE_CPP)
  then m <| phase_mask := Z.ldiff (phase_mask m) (phase_bit phase) |> else m.

Definition is_in_phase_like_cpp (phase : Z) (m : EventMap) : bool :=
  (phase <=? MAX_EVENT_GROUP_OR_PHASE_LIKE_CPP) &&
  ((phase =? 0) || negb (Z.land (phase_mask m) (phase_bit phase) =? 0)).

(** * Event words *)
Definition valid_group_like_cpp (group : Z) : bool :=
  negb (group =? 0) && (group <=? MAX_EVENT_GROUP_OR_PHASE_LIKE_CPP).

Definition event_has_group_like_cpp (event_data group : Z) : bool :=
  valid_group_like_cpp group && negb (Z.land event_data (u32 (Z.shiftl 1 (group + 15))) =? 0).

Definition encode_event_data_like_cpp (event_id group phase : Z) : Z :=
  let event_id := if valid_group_like_cpp group
                  then Z.lor event_id (u32 (Z.shiftl 1 (group + 15))) else event_id in
  if negb (phase =? 0) && (phase <=? MAX_EVENT_GROUP_OR_PHASE_LIKE_CPP)
  then Z.lor event_id (u32 (Z.shiftl 1 (phase + 23))) else event_id.

Definition event_id_of (event_data : Z) : Z := Z.land event_data EVENT_ID_MASK_LIKE_CPP.

(** * Scheduling *)
Definition push_event (deadline event_data : Z) (m : EventMap) : EventMap :=
  m <| events := btree_push_back deadline event_data (events m) |>.

Definition schedule_event_with_group_phase_like_cpp (event_id delay_ms group phase : Z)
    (m : EventMap) : EventMap :=
  push_event (i64 (time_ms m + delay_ms)) (encode_event_data_like_cpp event_id group phase) m.

Definition schedule_event_like_cpp (event_id delay_ms : Z) (m : EventMap) : EventMap :=
  schedule_event_with_group_phase_like_cpp event_id delay_ms 0 0 m.

Definition repeat_like_cpp (delay_ms : Z) (m : EventMap) : EventMap :=
  push_event (i64 (time_ms m + delay_ms)) (last_event_data m) m.

(** The random source: [urand_like_cpp(min, max)], an inclusive range drawn by
    the rand crate. *)
Section Random.
Variable urand_like_cpp : Z -> Z -> Z.

(** [None]: one of the two assertions panics. *)
Definition randtime_delay_like_cpp (min_delay_ms max_delay_ms : Z) : option Z :=
  let diff := i64 (max_delay_ms - min_delay_ms) in
  if negb (0 <=? diff) then None
  else if negb (diff <=? u32_max) then None
  else Some (i64 (min_delay_ms + urand_like_cpp 0 (u32 diff))).

Definition schedule_event_range_like_cpp (event_id min_delay_ms max_delay_ms group phase : Z)
    (m : EventMap) : option EventMap :=
  delay ← randtime_delay_like_cpp min_delay_ms max_delay_ms;
  Some (schedule_event_with_group_phase_like_cpp event_id delay group phase m).

Definition repeat_range_like_cpp (min_delay_ms max_delay_ms : Z) (m : EventMap)
  : option EventMap :=
  delay ← randtime_delay_like_cpp min_delay_ms max_delay_ms;
  Some (repeat_like_cpp delay m).
End Random.

(** * Cancellation and delays *)
Definition retain_events_like_cpp (keep : Z -> bool) (evs : list (Z * list Z))
  : list (Z * list Z) :=
  foldl (fun retained '(deadline, queue) =>
      let queue := filter (fun data => keep data = true) queue in
      match queue with [] => retained | _ => btree_insert deadline queue retained end)
    [] evs.

Definition cancel_event_like_cpp (event_id : Z) (m : EventMap) : EventMap :=
  if is_empty_like_cpp m then m
  else
    m <| events := retain_events_like_cpp (fun data => negb (event_id_of data =? event_id)) (events m) |>
      <| timer_series := filter (fun kv => event_id_of kv.1 <> event_id) (timer_series m) |>.

Definition cancel_event_group_like_cpp (group : Z) (m : EventMap) : EventMap :=
  if negb (valid_group_like_cpp group) || is_empty_like_cpp m then m
  else
    m <| events := retain_events_like_cpp (fun data => negb (event_has_group_like_cpp data group))
                     (events m) |>
      <| timer_series := filter (fun kv => event_has_group_like_cpp kv.1 group = false)
                           (timer_series m) |>.

Definition reschedule_event_with_group_phase_like_cpp (event_id delay_ms group phase : Z)
    (m : EventMap) : EventMap :=
  schedule_event_with_group_phase_like_cpp event_id delay_ms group phase
    (cancel_event_like_cpp event_id m).

Definition reschedule_event_like_cpp (event_id delay_ms : Z) (m : EventMap) : EventMap :=
  reschedule_event_with_group_phase_like_cpp event_id delay_ms 0 0 m.

Definition delay_events_like_cpp (delay_ms : Z) (m : EventMap) : EventMap :=
  if is_empty_like_cpp m then m
  else m <| events := foldl (fun delayed '(deadline, queue) =>
              btree_insert (i64 (deadline + delay_ms)) queue delayed) [] (events m) |>.

Definition delay_events_group_like_cpp (delay_ms group : Z) (m : EventMap) : EventMap :=
  if negb (valid_group_like_cpp group) || is_empty_like_cpp m then m
  else
    m <| events := foldl (fun delayed '(deadline, queue) =>
           foldl (fun delayed data =>
               let target := if event_has_group_like_cpp data group
                             then i64 (deadline + delay_ms) else deadline in
               btree_push_back target data delayed) delayed queue) [] (events m) |>.

Definition time_until_event_like_cpp (event_id : Z) (m : EventMap) : Z :=
  match find_first (fun e => Exists (fun data => event_id_of data = event_id) e.2) (events m) with
  | Some (deadline, _) => i64 (deadline - time_ms m)
  | None => i64_max
  end.

(** * Series and execution *)
Definition schedule_next_from_series_like_cpp (event_data : Z) (m : EventMap) : EventMap :=
  match timer_series m !! event_data with
  | None => m
  | Some [] => m
  | Some (delay_ms :: series) =>
      schedule_event_like_cpp event_data delay_ms
        (m <| timer_series := <[event_data := series]> (timer_series m) |>)
  end.

Definition schedule_event_series_like_cpp (event_id group phase : Z) (time_series_ms : list Z)
    (m : EventMap) : EventMap :=
  let event_data := encode_event_data_like_cpp event_id group phase in
  schedule_next_from_series_like_cpp event_data
    (m <| timer_series := <[event_data := default [] (timer_series m !! event_data)
                                          ++ time_series_ms]> (timer_series m) |>).

(** The phase test of [execute_event_like_cpp]: the event is dropped. *)
Definition phase_blocked (mask event_data : Z) : bool :=
  negb (mask =? 0) && negb (Z.land event_data EVENT_PHASE_MASK_LIKE_CPP =? 0) &&
  (Z.land (u8 (Z.shiftr event_data 24)) mask =? 0).

(** One round of the loop per unit of fuel.  [None]: an [expect] panics, or
    the fuel ran out; neither happens on a well-formed map. *)
Fixpoint execute_loop (fuel : nat) (m : EventMap) : option (EventMap * Z) :=
  match fuel with
  | O => None
  | S fuel =>
      match events m with
      | [] => Some (m, 0)
      | (deadline, queue) :: rest =>
          if time_ms m <? deadline then Some (m, 0)
          else
            match queue with
            | [] => None
            | event_data :: queue' =>
                let m1 := m <| events := match queue' with
                                         | [] => rest
                                         | _ => (deadline, queue') :: rest
                                         end |> in
                if phase_blocked (phase_mask m1) event_data then execute_loop fuel m1
                else Some (schedule_next_from_series_like_cpp event_data
                             (m1 <| last_event_data := event_data |>),
                           event_id_of event_data)
            end
      end
  end.

(** The number of queued events, which bounds the rounds of the loop. *)
Definition queued (evs : list (Z * list Z)) : nat := length (concat evs.*2).

Definition execute_event_like_cpp (m : EventMap) : option (EventMap * Z) :=
  execute_loop (S (queued (events m))) m.

(** Theorems of the event queue: every operation against the flat list of
    timed events in execution order. *)

(** * The flat view *)
Abbreviation timed := (Z * Z)%type.

Definition entry_events (e : Z * list Z) : list timed := map (pair e.1) e.2.
Definition flat (evs : list (Z * list Z)) : list timed := concat (map entry_events evs).

(** What a [BTreeMap] of the code's queues satisfies: increasing deadlines,
    no empty queue. *)
Definition key_lt (a b : Z * list Z) : Prop := a.1 < b.1.
Definition events_wf (evs : list (Z * list Z)) : Prop :=
  StronglySorted key_lt evs /\ Forall (fun e => e.2 <> []) evs.

(** The specification of scheduling: behind everything due at the same time or
    earlier, before everything due later. *)
Fixpoint stable_insert (e : timed) (l : list timed) : list timed :=
  match l with
  | [] => [e]
  | e' :: l' => if e'.1 <=? e.1 then e' :: stable_insert e l' else e :: l
  end.

Lemma flat_cons e evs : flat (e :: evs) = entry_events e ++ flat evs.
Proof. done. Qed.

Lemma flat_app l1 l2 : flat (l1 ++ l2) = flat l1 ++ flat l2.
Proof. unfold flat. by rewrite map_app, concat_app. Qed.

Lemma entry_keys k q : Forall (fun e : timed => e.1 = k) (entry_events (k, q)).
Proof. unfold entry_events. apply Forall_map, Forall_true. done. Qed.

Lemma stable_insert_app e l1 l2 :
  Forall (fun e' => e'.1 <= e.1) l1 -> stable_insert e (l1 ++ l2) = l1 ++ stable_insert e l2.
Proof.
  induction 1 as [|e' l1 H _ IH]; [done|]. cbn. apply Z.leb_le in H as ->. by rewrite IH.
Qed.

Lemma stable_insert_head e l : Forall (fun e' => e.1 < e'.1) l -> stable_insert e l = e :: l.
Proof. destruct 1 as [|e' l H _]; [done|]. cbn. by apply Z.leb_gt in H as ->. Qed.

Lemma wf_cons_inv e evs :
  events_wf (e :: evs) -> events_wf evs /\ e.2 <> [] /\ Forall (key_lt e) evs.
Proof.
  intros [Hs Hq]. apply StronglySorted_inv in Hs as [Hs Hlt]. apply Forall_cons in Hq as [H1 H2].
  by split.
Qed.

Lemma wf_cons e evs :
  events_wf evs -> e.2 <> [] -> Forall (key_lt e) evs -> events_wf (e :: evs).
Proof. intros [H1 H2] H3 H4. split; [by constructor|by constructor]. Qed.

Lemma flat_keys_gt k evs : Forall (fun e => k < e.1) evs -> Forall (fun e : timed => k < e.1) (flat evs).
Proof.
  induction 1 as [|[k' q] evs Hk _ IH]; [constructor|]. rewrite flat_cons. apply Forall_app.
  split; [|done]. eapply Forall_impl; [apply entry_keys|]. cbn in *. intros ? ->. done.
Qed.

Lemma btree_push_keys {A} k x (m : list (Z * list A)) P :
  Forall (fun e => P e.1) m -> P k -> Forall (fun e => P e.1) (btree_push_back k x m).
Proof.
  induction 1 as [|[k' q] m H Hm IH]; intros Hk; cbn; [by constructor|].
  destruct (k <? k'); [by repeat constructor|].
  destruct (k =? k'); [by constructor|]. constructor; auto.
Qed.

Lemma push_wf k x evs : events_wf evs -> events_wf (btree_push_back k x evs).
Proof.
  induction evs as [|[k' q] evs IH]; intros W; cbn.
  - split; [|by repeat constructor]. repeat constructor.
  - pose proof (wf_cons_inv _ _ W) as (W' & Hq & Hlt).
    destruct (Z.ltb_spec k k').
    + apply wf_cons; [done|done|]. constructor; [done|].
      eapply Forall_impl; [exact Hlt|]. unfold key_lt. cbn. lia.
    + destruct (Z.eqb_spec k k') as [->|Hne].
      * apply wf_cons; [done| |done]. cbn. by destruct q.
      * apply wf_cons; [by apply IH|done|].
        apply (btree_push_keys k x evs (fun k0 => k' < k0)); [done|lia].
Qed.

Lemma flat_push k x evs :
  events_wf evs -> flat (btree_push_back k x evs) = stable_insert (k, x) (flat evs).
Proof.
  induction evs as [|[k' q] evs IH]; intros W; [done|].
  pose proof (wf_cons_inv _ _ W) as (W' & Hq & Hlt). cbn [btree_push_back].
  destruct (Z.ltb_spec k k').
  - rewrite flat_cons. cbn. symmetry. apply stable_insert_head. cbn [fst].
    apply (flat_keys_gt k ((k', q) :: evs)). constructor; [done|].
    eapply Forall_impl; [exact Hlt|]. unfold key_lt. cbn. lia.
  - destruct (Z.eqb_spec k k') as [->|Hne].
    + rewrite !flat_cons, stable_insert_app.
      * rewrite stable_insert_head by (by apply flat_keys_gt). unfold entry_events. cbn [fst snd].
        by rewrite map_app, <- app_assoc.
      * eapply Forall_impl; [apply entry_keys|]. cbn. lia.
    + rewrite !flat_cons, IH, stable_insert_app; [done| |done].
      eapply Forall_impl; [apply entry_keys|]. cbn. lia.
Qed.

(** Inserting behind the greatest key. *)
Lemma btree_insert_last {V} k (v : V) m :
  Forall (fun e => e.1 < k) m -> btree_insert k v m = m ++ [(k, v)].
Proof.
  induction 1 as [|[k' v'] m H _ IH]; [done|]. cbn in *.
  destruct (Z.ltb_spec k k'); [lia|]. destruct (Z.eqb_spec k k'); [lia|]. by rewrite IH.
Qed.

Lemma sorted_prefix pre e post :
  StronglySorted key_lt (pre ++ e :: post) -> Forall (fun e' => e'.1 < e.1) pre.
Proof.
  induction pre as [|a pre IH]; [constructor|]. cbn. intros [Hs Hlt]%StronglySorted_inv.
  constructor; [|by apply IH]. rewrite Forall_app in Hlt. destruct Hlt as [_ Hlt].
  by apply Forall_cons in Hlt as [? _].
Qed.

(** ** Cancellation keeps the rest in order *)
Definition keep_entry (keep : Z -> bool) (e : Z * list Z) : option (Z * list Z) :=
  match filter (fun data => keep data = true) e.2 with [] => None | q => Some (e.1, q) end.

Lemma omap_keys_lt keep k l :
  Forall (fun e => e.1 < k) l -> Forall (fun e => e.1 < k) (omap (keep_entry keep) l).
Proof.
  induction 1 as [|e l H _ IH]; [constructor|]. cbn. unfold keep_entry at 1.
  destruct (filter _ e.2); [done|by constructor].
Qed.

Lemma retain_omap keep evs :
  events_wf evs -> retain_events_like_cpp keep evs = omap (keep_entry keep) evs.
Proof.
  intros [Hs _]. unfold retain_events_like_cpp.
  enough (forall pre post, evs = pre ++ post ->
    foldl (fun retained '(deadline, queue) =>
      let queue := filter (fun data => keep data = true) queue in
      match queue with [] => retained | _ => btree_insert deadline queue retained end)
      (omap (keep_entry keep) pre) post = omap (keep_entry keep) evs) as H by by apply (H []).
  intros pre post. revert pre. induction post as [|[k q] post IH]; intros pre E.
  - cbn. by rewrite E, app_nil_r.
  - cbn [foldl]. rewrite <- (IH (pre ++ [(k, q)])) by (by rewrite E, <- app_assoc). f_equal.
    rewrite omap_app. cbn [omap list_omap].
    replace (keep_entry keep (k, q)) with
      (match filter (fun data => keep data = true) q with [] => None | q => Some (k, q) end) by done.
    destruct (filter _ q) as [|x q'] eqn:Ef; [by rewrite app_nil_r|].
    apply btree_insert_last. apply omap_keys_lt. rewrite E in Hs. by apply sorted_prefix in Hs.
Qed.

Lemma omap_wf keep evs : events_wf evs -> events_wf (omap (keep_entry keep) evs).
Proof.
  induction evs as [|e evs IH]; intros W; [done|].
  pose proof (wf_cons_inv _ _ W) as (W' & _ & Hlt). cbn. unfold keep_entry at 1.
  destruct (filter _ e.2) as [|x q] eqn:Ef; [by apply IH|].
  apply wf_cons; [by apply IH|done|].
  clear -Hlt. induction Hlt as [|e' l H _ IH]; [constructor|]. cbn. unfold keep_entry at 1.
  destruct (filter _ e'.2); [done|by constructor].
Qed.

Lemma filter_entry keep e :
  filter (fun d : timed => keep d.2 = true) (entry_events e)
  = map (pair e.1) (filter (fun data => keep data = true) e.2).
Proof.
  unfold entry_events. induction e.2 as [|x q IH]; [done|]. cbn [map]. rewrite !filter_cons. cbn [snd].
  destruct (decide (keep x = true)); cbn [map]; by rewrite IH.
Qed.

Lemma flat_retain keep evs :
  events_wf evs ->
  flat (retain_events_like_cpp keep evs) = filter (fun d : timed => keep d.2 = true) (flat evs).
Proof.
  intros W. rewrite retain_omap by done. induction evs as [|e evs IH]; [done|].
  pose proof (wf_cons_inv _ _ W) as (W' & _ & _). rewrite flat_cons, filter_app, filter_entry.
  cbn. unfold keep_entry at 1. rewrite <- (IH W').
  by destruct (filter _ e.2).
Qed.

(** ** Delays *)
Lemma map_shift_insert d pre post :
  (forall e, e ∈ pre ++ post -> in_s 64 (e.1 + d)) -> StronglySorted key_lt (pre ++ post) ->
  foldl (fun delayed '(deadline, queue) => btree_insert (i64 (deadline + d)) queue delayed)
    (map (fun e => (e.1 + d, e.2)) pre) post
  = map (fun e => (e.1 + d, e.2)) (pre ++ post).
Proof.
  revert pre. induction post as [|[k q] post IH]; intros pre Hr Hs.
  - cbn. by rewrite app_nil_r.
  - cbn [foldl]. rewrite (wrap_s_id 64) by (try lia; apply (Hr (k, q)); set_solver).
    rewrite btree_insert_last.
    + specialize (IH (pre ++ [(k, q)])). rewrite <- app_assoc in IH. cbn [app] in IH.
      rewrite map_app in IH. by apply IH.
    + apply sorted_prefix in Hs. apply Forall_map. eapply Forall_impl; [exact Hs|].
      cbn. lia.
Qed.

Lemma flat_shift d evs :
  flat (map (fun e => (e.1 + d, e.2)) evs) = map (fun e : timed => (e.1 + d, e.2)) (flat evs).
Proof.
  induction evs as [|e evs IH]; [done|]. cbn [map]. rewrite !flat_cons, map_app, IH. f_equal.
  unfold entry_events. by rewrite map_map.
Qed.

Lemma shift_wf d evs : events_wf evs -> events_wf (map (fun e => (e.1 + d, e.2)) evs).
Proof.
  induction evs as [|e evs IH]; intros W; [done|].
  pose proof (wf_cons_inv _ _ W) as (W' & Hq & Hlt). cbn. apply wf_cons; [by apply IH|done|].
  apply Forall_map. eapply Forall_impl; [exact Hlt|]. unfold key_lt. cbn. lia.
Qed.

(** Delaying one group re-inserts every event at its new deadline. *)
Definition shift_group (d group : Z) (e : timed) : timed :=
  (if event_has_group_like_cpp e.2 group then i64 (e.1 + d) else e.1, e.2).

Lemma flat_delay_group d group evs acc :
  events_wf acc ->
  let r := foldl (fun delayed '(deadline, queue) =>
           foldl (fun delayed data =>
               let target := if event_has_group_like_cpp data group
                             then i64 (deadline + d) else deadline in
               btree_push_back target data delayed) delayed queue) acc evs in
  events_wf r /\
  flat r = foldl (fun l e => stable_insert (shift_group d group e) l) (flat acc) (flat evs).
Proof.
  revert acc. induction evs as [|[k q] evs IH]; intros acc W; [done|]. cbv zeta. cbn [foldl].
  set (acc' := foldl _ acc q).
  assert (H : events_wf acc' /\
    flat acc' = foldl (fun l e => stable_insert (shift_group d group e) l) (flat acc)
                  (entry_events (k, q))).
  { subst acc'. clear IH. revert acc W. induction q as [|x q IHq]; intros acc W; [done|].
    cbn [foldl entry_events map fst snd].
    destruct (IHq (btree_push_back (if event_has_group_like_cpp x group then i64 (k + d) else k)
      x acc) (push_wf _ _ _ W)) as [W' E].
    split; [exact W'|]. rewrite E, flat_push by done. reflexivity. }
  destruct H as [W' E]. destruct (IH acc' W') as [W'' E2]. split; [exact W''|].
  etrans; [exact E2|]. by rewrite flat_cons, foldl_app, E.
Qed.

(** * The operations against the flat view *)
Lemma retain_wf keep evs : events_wf evs -> events_wf (retain_events_like_cpp keep evs).
Proof. intros W. rewrite retain_omap by done. by apply omap_wf. Qed.

Lemma empty_events m : is_empty_like_cpp m = true -> events m = [].
Proof. unfold is_empty_like_cpp. by destruct (events m). Qed.

Lemma delay_wf_flat delay m :
  events_wf (events m) -> Forall (fun e => in_s 64 (e.1 + delay)) (events m) ->
  events_wf (events (delay_events_like_cpp delay m)) /\
  flat (events (delay_events_like_cpp delay m))
  = map (fun e : timed => (e.1 + delay, e.2)) (flat (events m)).
Proof.
  intros W Hr. unfold delay_events_like_cpp. destruct (is_empty_like_cpp m) eqn:E.
  { apply empty_events in E. by rewrite E in *. }
  pose proof (map_shift_insert delay [] (events m)) as H. cbn [app map] in H.
  assert (Es : events (m <| events := foldl (fun delayed '(deadline, queue) =>
      btree_insert (i64 (deadline + delay)) queue delayed) [] (events m) |>)
    = map (fun e => (e.1 + delay, e.2)) (events m)).
  { apply H; [|apply W]. by apply Forall_forall. }
  rewrite Es. split; [by apply shift_wf|apply flat_shift].
Qed.

(** C23: On a well-formed queue every operation keeps it well-formed and acts
    on the flat list as specified: scheduling (and repeating) inserts behind
    everything due no later; cancelling an event or a group removes exactly
    its events and keeps the order of the rest; delaying all shifts every
    deadline; delaying a group takes its events to their new deadlines, each
    again behind what is due no later. *)
Theorem event_queue_refines m :
  events_wf (events m) ->
  (forall id delay group phase,
     let m' := schedule_event_with_group_phase_like_cpp id delay group phase m in
     events_wf (events m') /\
     flat (events m') = stable_insert
       (i64 (time_ms m + delay), encode_event_data_like_cpp id group phase) (flat (events m))) /\
  (forall delay, let m' := repeat_like_cpp delay m in
     events_wf (events m') /\
     flat (events m') = stable_insert (i64 (time_ms m + delay), last_event_data m) (flat (events m))) /\
  (forall id, let m' := cancel_event_like_cpp id m in
     events_wf (events m') /\
     flat (events m') = filter (fun e : timed => negb (event_id_of e.2 =? id) = true)
                          (flat (events m))) /\
  (forall group, valid_group_like_cpp group = true ->
     let m' := cancel_event_group_like_cpp group m in
     events_wf (events m') /\
     flat (events m') = filter (fun e : timed => negb (event_has_group_like_cpp e.2 group) = true)
                          (flat (events m))) /\
  (forall delay, Forall (fun e => in_s 64 (e.1 + delay)) (events m) ->
     let m' := delay_events_like_cpp delay m in
     events_wf (events m') /\
     flat (events m') = map (fun e : timed => (e.1 + delay, e.2)) (flat (events m))) /\
  (forall delay group, valid_group_like_cpp group = true ->
     let m' := delay_events_group_like_cpp delay group m in
     events_wf (events m') /\
     flat (events m') = foldl (fun l e => stable_insert (shift_group delay group e) l) []
                          (flat (events m))).
Proof.
  intros W. split; [|split; [|split; [|split; [|split]]]].
  - intros id delay group phase. split; [by apply push_wf|by apply flat_push].
  - intros delay. split; [by apply push_wf|by apply flat_push].
  - intros id. unfold cancel_event_like_cpp. destruct (is_empty_like_cpp m) eqn:E.
    { apply empty_events in E. by rewrite E in *. }
    split; [by apply retain_wf|by apply flat_retain].
  - intros group Hg. unfold cancel_event_group_like_cpp. rewrite Hg. cbn [negb orb].
    destruct (is_empty_like_cpp m) eqn:E; [apply empty_events in E; by rewrite E in *|].
    split; [by apply retain_wf|by apply flat_retain].
  - intros delay Hr. by apply delay_wf_flat.
  - intros delay group Hg. unfold delay_events_group_like_cpp. rewrite Hg. cbn [negb orb].
    destruct (is_empty_like_cpp m) eqn:E; [apply empty_events in E; by rewrite E in *|].
    apply (flat_delay_group delay group (events m) []). by repeat constructor.
Qed.

(** * Execution *)
Lemma flat_length evs : length (flat evs) = queued evs.
Proof.
  unfold queued. induction evs as [|e evs IH]; [done|]. rewrite flat_cons, fmap_cons. cbn [concat].
  rewrite !length_app, <- IH. unfold entry_events. by rewrite length_map.
Qed.

(** Due now, and dropped because of its phase. *)
Definition dropped (m : EventMap) (e : timed) : Prop :=
  e.1 <= time_ms m /\ phase_blocked (phase_mask m) e.2 = true.

(** What the series of an executed event puts back. *)
Definition after_series (m : EventMap) (data : Z) (rest : list timed) : list timed :=
  match timer_series m !! data with
  | Some (delay :: _) => stable_insert (i64 (time_ms m + delay), data) rest
  | _ => rest
  end.

Lemma schedule_series_flat data m :
  events_wf (events m) ->
  events_wf (events (schedule_next_from_series_like_cpp data m)) /\
  flat (events (schedule_next_from_series_like_cpp data m)) = after_series m data (flat (events m)).
Proof.
  intros W. unfold schedule_next_from_series_like_cpp, after_series.
  destruct (timer_series m !! data) as [[|d s]|]; [done| |done].
  split; [by apply push_wf|]. by apply (flat_push (i64 (time_ms m + d)) data).
Qed.

Definition pop_head (deadline : Z) (queue' : list Z) (rest : list (Z * list Z)) :=
  match queue' with [] => rest | _ => (deadline, queue') :: rest end.

Lemma pop_head_flat k x q rest :
  events_wf ((k, x :: q) :: rest) ->
  events_wf (pop_head k q rest) /\ flat ((k, x :: q) :: rest) = (k, x) :: flat (pop_head k q rest).
Proof.
  intros W. pose proof (wf_cons_inv _ _ W) as (W' & _ & Hlt). destruct q as [|y q]; [done|].
  split; [by apply wf_cons|done].
Qed.

Lemma flat_head_later now k q rest :
  events_wf ((k, q) :: rest) -> now < k -> Forall (fun e : timed => now < e.1) (flat ((k, q) :: rest)).
Proof.
  intros W Hk. pose proof (wf_cons_inv _ _ W) as (_ & _ & Hlt). apply flat_keys_gt.
  constructor; [done|]. eapply Forall_impl; [exact Hlt|]. unfold key_lt. cbn. lia.
Qed.

(** The outcome of the loop: [skipped] went, then either an event ran or
    nothing more is due. *)
Definition executed (m m' : EventMap) (id : Z) (skipped : list timed) : Prop :=
  (exists k data rest,
     flat (events m) = skipped ++ (k, data) :: rest /\ k <= time_ms m /\
     phase_blocked (phase_mask m) data = false /\ id = event_id_of data /\
     last_event_data m' = data /\ flat (events m') = after_series m data rest) \/
  (exists rest,
     flat (events m) = skipped ++ rest /\ Forall (fun e => time_ms m < e.1) rest /\ id = 0 /\
     flat (events m') = rest /\ last_event_data m' = last_event_data m).

Lemma execute_loop_spec fuel m :
  events_wf (events m) -> (length (flat (events m)) < fuel)%nat ->
  exists m' id skipped, execute_loop fuel m = Some (m', id) /\ events_wf (events m') /\
    Forall (dropped m) skipped /\ time_ms m' = time_ms m /\ phase_mask m' = phase_mask m /\
    executed m m' id skipped.
Proof.
  revert m. induction fuel as [|fuel IH]; intros m W Hf; [lia|]. cbn [execute_loop].
  destruct (events m) as [|[k q] rest] eqn:E.
  { exists m, 0, []. rewrite E. do 5 (split; [done|]). right. exists []. rewrite E. auto. }
  destruct (time_ms m <? k) eqn:Ek.
  { apply Z.ltb_lt in Ek. exists m, 0, []. rewrite E. do 5 (split; [done|]). right.
    exists (flat ((k, q) :: rest)). rewrite E. split; [done|]. split; [|done].
    by apply flat_head_later. }
  apply Z.ltb_ge in Ek. destruct q as [|x q].
  { destruct W as [_ Hq]. apply Forall_cons in Hq as [Hq _]. by destruct Hq. }
  destruct (pop_head_flat k x q rest W) as [W1 Eflat].
  pose (m1 := m <| events := pop_head k q rest |>).
  change (m <| events := match q with [] => rest | _ => (k, q) :: rest end |>) with m1.
  assert (W1' : events_wf (events m1)) by exact W1. cbv zeta.
  rewrite Eflat in Hf. cbn [length] in Hf.
  destruct (phase_blocked (phase_mask m1) x) eqn:Eb.
  - destruct (IH m1 W1') as (m' & id & skipped & Ex & W' & Hs & Et & Ep & Hex).
    { change (events m1) with (pop_head k q rest). lia. }
    exists m', id, ((k, x) :: skipped). split; [done|]. split; [done|].
    split; [by constructor|]. split; [done|]. split; [done|].
    destruct Hex as [(k' & d' & r' & E1 & H2 & H3 & H4 & H5 & H6)|(r' & E1 & H2 & H3 & H4 & H5)].
    + left. exists k', d', r'. rewrite E, Eflat. change (events m1) with (pop_head k q rest) in E1.
      rewrite E1. auto 10.
    + right. exists r'. rewrite E, Eflat. change (events m1) with (pop_head k q rest) in E1.
      rewrite E1. auto 10.
  - pose (m2 := m1 <| last_event_data := x |>).
    destruct (schedule_series_flat x m2 W1) as [W2 E2].
    exists (schedule_next_from_series_like_cpp x m2), (event_id_of x), [].
    assert (Hfields : time_ms (schedule_next_from_series_like_cpp x m2) = time_ms m /\
      phase_mask (schedule_next_from_series_like_cpp x m2) = phase_mask m /\
      last_event_data (schedule_next_from_series_like_cpp x m2) = x).
    { unfold schedule_next_from_series_like_cpp. by destruct (timer_series m2 !! x) as [[|? ?]|]. }
    destruct Hfields as (F1 & F2 & F3). do 5 (split; [done|]). left.
    exists k, x, (flat (pop_head k q rest)). rewrite E, Eflat. auto 10.
Qed.

(** Executing always terminates with a result (no panic, and the bound
    on the rounds is never the reason to stop).  It returns the id of the
    first event, in queue order, that is due and passes the phase test, drops
    exactly the due events before it, which the phases block, remembers its
    word, and lets its series schedule the next occurrence; it returns 0
    when no such event is due, and then everything left is later. *)
Theorem execute_spec m :
  events_wf (events m) ->
  exists m' id skipped, execute_event_like_cpp m = Some (m', id) /\ events_wf (events m') /\
    Forall (fun e => e.1 <= time_ms m /\ phase_blocked (phase_mask m) e.2 = true) skipped /\
    time_ms m' = time_ms m /\ phase_mask m' = phase_mask m /\
    executed m m' id skipped.
Proof. intros W. apply execute_loop_spec; [done|]. rewrite flat_length. lia. Qed.

(** * Event words *)
Lemma land_single_bit a k : 0 <= k -> negb (Z.land a (Z.shiftl 1 k) =? 0) = Z.testbit a k.
Proof.
  intros Hk. destruct (Z.testbit a k) eqn:E.
  - apply negb_true_iff, Z.eqb_neq. intros H. apply (f_equal (fun z => Z.testbit z k)) in H.
    rewrite Z.land_spec, testbit_bit, E, Z.bits_0, Z.eqb_refl in H by done. done.
  - apply negb_false_iff, Z.eqb_eq, Z.bits_inj'. intros i Hi.
    rewrite Z.land_spec, testbit_bit, Z.bits_0 by done.
    destruct (Z.eqb_spec i k) as [->|]; [by rewrite E|by rewrite andb_false_r].
Qed.

Lemma u32_bit k : 0 <= k < 32 -> u32 (Z.shiftl 1 k) = Z.shiftl 1 k.
Proof. intros Hk. apply wrap_u_id. by apply in_u_bit. Qed.

Definition valid_phase (phase : Z) : bool :=
  negb (phase =? 0) && (phase <=? MAX_EVENT_GROUP_OR_PHASE_LIKE_CPP).

Lemma valid_range x : 0 <= x ->
  negb (x =? 0) && (x <=? MAX_EVENT_GROUP_OR_PHASE_LIKE_CPP) = true <-> 1 <= x <= 8.
Proof.
  intros Hx. unfold MAX_EVENT_GROUP_OR_PHASE_LIKE_CPP.
  rewrite andb_true_iff, negb_true_iff, Z.eqb_neq, Z.leb_le. lia.
Qed.

(** The bits of an event word: the id, then one bit per group, then one per
    phase. *)
Lemma encode_bits id group phase i :
  in_u 16 id -> 0 <= group -> 0 <= phase -> 0 <= i ->
  Z.testbit (encode_event_data_like_cpp id group phase) i =
  Z.testbit id i || (valid_group_like_cpp group && (i =? group + 15))
  || (valid_phase phase && (i =? phase + 23)).
Proof.
  intros Hid Hg Hp Hi. unfold encode_event_data_like_cpp.
  change (negb (phase =? 0) && (phase <=? MAX_EVENT_GROUP_OR_PHASE_LIKE_CPP)) with (valid_phase phase).
  destruct (valid_group_like_cpp group) eqn:Eg, (valid_phase phase) eqn:Ep;
    try (apply (valid_range group Hg) in Eg); try (apply (valid_range phase Hp) in Ep);
    rewrite ?Z.lor_spec, ?u32_bit, ?Z.lor_spec, ?testbit_bit by lia; cbn [andb];
    by rewrite ?orb_false_r.
Qed.

(** An event word keeps its parts apart: the id reads back, the word is
    in exactly the group it was scheduled for, and under a phase mask the
    event is dropped exactly when it was scheduled for a phase (1 to 8) that
    the mask does not contain; with an empty mask nothing is dropped. *)
Theorem event_word_fields id group phase :
  in_u 16 id -> 0 <= group -> 0 <= phase ->
  let w := encode_event_data_like_cpp id group phase in
  in_u 32 w /\ event_id_of w = id /\
  (forall g, 0 <= g -> event_has_group_like_cpp w g = valid_group_like_cpp g && (g =? group)) /\
  (forall mask, in_u 8 mask ->
     phase_blocked mask w =
     negb (mask =? 0) && valid_phase phase && negb (Z.testbit mask (phase - 1))).
Proof.
  intros Hid Hg Hp. cbv zeta. set (w := encode_event_data_like_cpp id group phase).
  assert (Hw : forall i, 0 <= i -> Z.testbit w i =
    Z.testbit id i || (valid_group_like_cpp group && (i =? group + 15))
    || (valid_phase phase && (i =? phase + 23))) by (intros; by apply encode_bits).
  assert (Hhigh : forall i, 16 <= i -> Z.testbit id i = false)
    by (intros; by apply (testbit_bounded 16)).
  assert (Vg := valid_range group Hg). assert (Vp := valid_range phase Hp).
  change (negb (group =? 0) && _) with (valid_group_like_cpp group) in Vg.
  change (negb (phase =? 0) && _) with (valid_phase phase) in Vp.
  split; [|split; [|split]].
  - apply in_u_bits; [lia|]. intros i Hi. rewrite Hw, Hhigh by lia.
    destruct (valid_group_like_cpp group), (valid_phase phase); cbn; try done;
      destruct (Z.eqb_spec i (group + 15)), (Z.eqb_spec i (phase + 23)); cbn; lia.
  - unfold event_id_of. change EVENT_ID_MASK_LIKE_CPP with (Z.ones 16).
    apply Z.bits_inj'. intros i Hi. rewrite Z.land_spec, Hw, testbit_ones_all by lia.
    destruct (Z.leb_spec 0 i), (Z.ltb_spec i 16); try lia; cbn [andb];
      rewrite ?andb_true_r, ?andb_false_r; [|by rewrite Hhigh by lia].
    destruct (Z.eqb_spec i (group + 15)), (Z.eqb_spec i (phase + 23));
      rewrite ?andb_false_r, ?orb_false_r; try done; destruct (valid_group_like_cpp group),
      (valid_phase phase); cbn; rewrite ?orb_false_r; try done; lia.
  - intros g Hg'. unfold event_has_group_like_cpp.
    destruct (valid_group_like_cpp g) eqn:E; [|done]. pose proof E as E'.
    apply (valid_range g Hg') in E'. cbn [andb]. rewrite u32_bit, land_single_bit, Hw, Hhigh by lia.
    destruct (Z.eqb_spec g group) as [->|Hne].
    + rewrite Z.eqb_refl, E. by destruct (valid_phase phase).
    + replace (g + 15 =? group + 15) with false by (symmetry; apply Z.eqb_neq; lia).
      rewrite andb_false_r. cbn. destruct (valid_phase phase); [|done].
      pose proof (proj1 Vp eq_refl). apply andb_false_iff. right. apply Z.eqb_neq. lia.
  - intros mask Hmask. unfold phase_blocked.
    destruct (mask =? 0); [done|]. cbn [negb andb].
    destruct (valid_phase phase) eqn:Ep.
    + pose proof (proj1 Vp eq_refl) as Ep'.
      assert (E1 : negb (Z.land w EVENT_PHASE_MASK_LIKE_CPP =? 0) = true).
      { apply negb_true_iff, Z.eqb_neq. intros H.
        apply (f_equal (fun z => Z.testbit z (phase + 23))) in H. revert H.
        change EVENT_PHASE_MASK_LIKE_CPP with (Z.shiftl (Z.ones 8) 24).
        rewrite Z.land_spec, Hw, testbit_shl, testbit_ones_all, Z.eqb_refl, Z.bits_0, orb_true_r by lia.
        decide_tests. done. }
      rewrite E1. cbn [andb].
      assert (E2 : u8 (Z.shiftr w 24) = Z.shiftl 1 (phase - 1)).
      { apply Z.bits_inj'. intros i Hi. rewrite testbit_wrap_u, testbit_shr, testbit_bit by lia.
        decide_tests. cbn [andb]. destruct (Z.ltb_spec i 8); cbn [andb].
        - rewrite Hw, Hhigh by lia.
          destruct (valid_group_like_cpp group); [pose proof (proj1 Vg eq_refl)|];
          destruct (Z.eqb_spec (i + 24) (group + 15)), (Z.eqb_spec (i + 24) (phase + 23)),
            (Z.eqb_spec i (phase - 1)); cbn; lia.
        - symmetry. apply Z.eqb_neq. lia. }
      rewrite E2, Z.land_comm. rewrite <- (land_single_bit mask (phase - 1)) by lia. by rewrite negb_involutive.
    + replace (Z.land w EVENT_PHASE_MASK_LIKE_CPP) with 0; [done|]. symmetry.
      change EVENT_PHASE_MASK_LIKE_CPP with (Z.shiftl (Z.ones 8) 24).
      apply Z.bits_inj'. intros i Hi.
      rewrite Z.land_spec, Hw, testbit_shl, testbit_ones_all, Z.bits_0 by lia. cbn [andb].
      rewrite orb_false_r. destruct (Z.leb_spec 0 (i - 24)); [|by rewrite !andb_false_r].
      rewrite Hhigh by lia. cbn [orb]. destruct (valid_group_like_cpp group); [|done].
      pose proof (proj1 Vg eq_refl). cbn [andb]. by replace (i =? group + 15) with false by (symmetry; apply Z.eqb_neq; lia).
Qed.

(** * Queries and random delays *)
Lemma elem_of_flat k x evs : (k, x) ∈ flat evs <-> exists q, (k, q) ∈ evs /\ x ∈ q.
Proof.
  unfold flat. rewrite list_elem_of_In, in_concat. split.
  - intros (l & Hl & Hx). apply in_map_iff in Hl as ([k' q] & <- & Hin).
    unfold entry_events in Hx. apply in_map_iff in Hx as (y & E & Hy). simplify_eq/=.
    exists q. split; by apply list_elem_of_In.
  - intros (q & Hin & Hx). exists (entry_events (k, q)). split.
    + apply in_map_iff. exists (k, q). split; [done|by apply list_elem_of_In].
    + unfold entry_events. apply in_map_iff. exists x. split; [done|by apply list_elem_of_In].
Qed.

(** The time until an event is the distance to the earliest deadline at
    which an event of that id is queued, and the largest 64-bit value when
    none is. *)
Theorem time_until_spec id m :
  events_wf (events m) ->
  (exists k x, (k, x) ∈ flat (events m) /\ event_id_of x = id /\
     time_until_event_like_cpp id m = i64 (k - time_ms m) /\
     forall k' x', (k', x') ∈ flat (events m) -> event_id_of x' = id -> k <= k') \/
  ((forall k x, (k, x) ∈ flat (events m) -> event_id_of x <> id) /\
   time_until_event_like_cpp id m = i64_max).
Proof.
  intros [Hs _]. unfold time_until_event_like_cpp, find_first.
  destruct (list_find _ (events m)) as [[i [k q]]|] eqn:E; cbn [snd fmap option_fmap option_map].
  - left. apply list_find_Some in E as (Hi & (x & Hx & Eid)%Exists_exists & Hmin). cbn in Hx.
    exists k, x. split; [apply elem_of_flat; exists q; split; [by eapply list_elem_of_lookup_2|done]|].
    split; [done|]. split; [done|]. intros k' x' Hin Eid'.
    apply elem_of_flat in Hin as (q' & Hin & Hx'). apply list_elem_of_lookup in Hin as [j Hj].
    destruct (decide (j < i)%nat) as [Hlt|Hge].
    { destruct (Hmin j _ Hj Hlt). apply Exists_exists. by exists x'. }
    destruct (decide (j = i)) as [->|Hne]; [rewrite Hi in Hj; simplify_eq; lia|].
    assert (Hlook : key_lt (k, q) (k', q')).
    { rewrite <- (take_drop_middle _ _ _ Hi) in Hs.
      assert (Hd : (k', q') ∈ drop (S i) (events m)).
      { apply list_elem_of_lookup. exists (j - S i)%nat. rewrite lookup_drop, <- Hj. f_equal. lia. }
      clear -Hs Hd. induction (take i (events m)) as [|a l IH].
      - apply StronglySorted_inv in Hs as [_ Hf]. rewrite Forall_forall in Hf. by apply Hf.
      - apply StronglySorted_inv in Hs as [Hs _]. by apply IH. }
    unfold key_lt in Hlook. cbn in Hlook. lia.
  - right. split; [|done]. apply list_find_None in E. rewrite Forall_forall in E.
    intros k x (q & Hq & Hx)%elem_of_flat Eid. apply (E (k, q) Hq), Exists_exists. by exists x.
Qed.

Section Range.
Variable urand : Z -> Z -> Z.
(** An inclusive draw. *)
Hypothesis urand_range : forall a b, a <= b -> a <= urand a b <= b.

(** Scheduling with a random delay panics exactly when the bounds are
    reversed or further apart than 2^32-1 ms; otherwise the event is queued
    at a deadline between the two bounds. *)
Theorem schedule_range_spec id lo hi group phase m :
  in_s 64 (hi - lo) -> in_s 64 lo -> in_s 64 hi ->
  in_s 64 (time_ms m + lo) -> in_s 64 (time_ms m + hi) ->
  (schedule_event_range_like_cpp urand id lo hi group phase m = None <-> hi < lo \/ u32_max < hi - lo) /\
  (lo <= hi -> hi - lo <= u32_max ->
   exists deadline, time_ms m + lo <= deadline <= time_ms m + hi /\
     schedule_event_range_like_cpp urand id lo hi group phase m
     = Some (push_event deadline (encode_event_data_like_cpp id group phase) m)).
Proof.
  intros Hd Hlo Hhi Hl Hh. unfold schedule_event_range_like_cpp, randtime_delay_like_cpp.
  rewrite (wrap_s_id 64 eq_refl (hi - lo)) by (done || lia).
  destruct (Z.leb_spec 0 (hi - lo)); cbn [negb]; [|split; [split; [left; lia|done]|lia]].
  destruct (Z.leb_spec (hi - lo) u32_max) as [H1|H1]; cbn [negb];
    [|split; [split; [right; lia|done]|lia]].
  unfold u32_max in H1. rewrite (wrap_u_id 32 (hi - lo)) by (unfold in_u; lia).
  pose proof (urand_range 0 (hi - lo) ltac:(lia)) as Hu. unfold in_s in *.
  cbn [mbind option_bind]. split; [split; [done|unfold u32_max; lia]|]. intros _ _.
  exists (time_ms m + (lo + urand 0 (hi - lo))). split; [lia|].
  unfold schedule_event_with_group_phase_like_cpp. do 2 f_equal.
  rewrite !wrap_s_id; unfold in_s; try lia. rewrite wrap_s_id; unfold in_s; lia.
Qed.
End Range.

(** * Instances *)
(** Event 7 at 100 in phase 2, event 8 at 50 in group 1, event 9 at 100. *)
Definition demo_events : EventMap :=
  schedule_event_like_cpp 9 100
    (schedule_event_with_group_phase_like_cpp 8 50 1 0
       (schedule_event_with_group_phase_like_cpp 7 100 0 2 event_map_new)).

Lemma demo_events_wf : events_wf (events demo_events).
Proof. unfold demo_events. repeat apply push_wf. repeat constructor. Qed.

Lemma event_queue_refines_witness :
  flat (events (cancel_event_group_like_cpp 1 demo_events)) =
    [(100, encode_event_data_like_cpp 7 0 2); (100, 9)].
Proof.
  destruct (event_queue_refines demo_events demo_events_wf) as (_ & _ & _ & H & _).
  destruct (H 1) as [_ E]; [reflexivity|]. rewrite E. by vm_compute.
Defined.

(** The queue at time 100 in phase 1. *)
Lemma execute_spec_witness :
  exists m' id skipped,
    execute_event_like_cpp (update_like_cpp 100 (set_phase_like_cpp 1 demo_events)) = Some (m', id) /\
    executed (update_like_cpp 100 (set_phase_like_cpp 1 demo_events)) m' id skipped.
Proof.
  destruct (execute_spec (update_like_cpp 100 (set_phase_like_cpp 1 demo_events)) demo_events_wf)
    as (m' & id & skipped & E & _ & _ & _ & _ & H).
  exists m', id, skipped. exact (conj E H).
Defined.

Lemma event_word_fields_witness : event_id_of (encode_event_data_like_cpp 300 3 8) = 300.
Proof. apply (event_word_fields 300 3 8); unfold in_u; lia. Defined.

Lemma time_until_spec_witness :
  exists k, time_until_event_like_cpp 9 demo_events = i64 (k - time_ms demo_events).
Proof.
  destruct (time_until_spec 9 demo_events demo_events_wf) as [(k & x & _ & _ & E & _)|[H _]].
  - exists k. exact E.
  - exfalso. apply (H 100 9); [|by vm_compute]. apply (bool_decide_unpack _). by vm_compute.
Defined.

Lemma schedule_range_spec_witness :
  exists deadline, 10 <= deadline <= 30 /\
    schedule_event_range_like_cpp (fun a b => (a + b) / 2) 5 10 30 0 0 event_map_new
    = Some (push_event deadline (encode_event_data_like_cpp 5 0 0) event_map_new).
Proof.
  assert (Hu : forall a b, a <= b -> a <= (a + b) / 2 <= b).
  { intros a b Hab. split; [apply Z.div_le_lower_bound|apply Z.div_le_upper_bound]; lia. }
  apply (schedule_range_spec (fun a b => (a + b) / 2) Hu 5 10 30 0 0 event_map_new);
    unfold in_s, u32_max; cbn; lia.
Defined.
