(* ===== verification/LootModel.v ===== *)
(** The data of an object's loot and of its authority: wow-loot/src/authority/state.rs
    (loot pools, entries, scopes, snapshots, the authority's state and the helpers
    on it).  The operations are in LootAuthority.v. *)
From S2P Require Import Prelude Guid.

(** * Loot entries *)

Record LootEntryFlags : Type := mkLootEntryFlags {
  follow_loot_rules : bool;
  freeforall : bool;
  blocked : bool;
  counted : bool;
  under_threshold : bool;
  needs_quest : bool }.

#[export] Instance eta_entry_flags : Eta LootEntryFlags := fun f =>
  mkLootEntryFlags (follow_loot_rules f) (freeforall f) (blocked f) (counted f)
    (under_threshold f) (needs_quest f).
#[global] Instance entry_flags_eq_dec : EqDecision LootEntryFlags.
Proof. solve_decision. Defined.

Record LootEntry : Type := mkLootEntry {
  loot_list_id : Z;
  item_id : Z;
  quantity : Z;
  random_properties_id : Z;
  random_properties_seed : Z;
  item_context : Z;
  flags : LootEntryFlags;
  entry_allowed_looters : list ObjectGuid;
  roll_winner : ObjectGuid;
  ffa_looted_by : list ObjectGuid;
  taken : bool }.

#[export] Instance eta_entry : Eta LootEntry := fun e =>
  mkLootEntry (loot_list_id e) (item_id e) (quantity e) (random_properties_id e)
    (random_properties_seed e) (item_context e) (flags e) (entry_allowed_looters e)
    (roll_winner e) (ffa_looted_by e) (taken e).
#[global] Instance entry_eq_dec : EqDecision LootEntry.
Proof. solve_decision. Defined.

(** [Vec::contains]. *)
Definition contains (p : ObjectGuid) (l : list ObjectGuid) : bool := bool_decide (p ∈ l).

Definition LOOT_SLOT_TYPE_OWNER_LIKE_CPP : Z := 4.

Definition free_for_all_ui_type_like_cpp (_ : LootEntry) : Z := LOOT_SLOT_TYPE_OWNER_LIKE_CPP.

Definition is_over_threshold_like_cpp (e : LootEntry) : bool :=
  negb (under_threshold (flags e)) && negb (freeforall (flags e)).

Definition add_allowed_looter_like_cpp (player : ObjectGuid) (e : LootEntry) : LootEntry :=
  if negb (is_empty player) && negb (contains player (entry_allowed_looters e))
  then e <| entry_allowed_looters := entry_allowed_looters e ++ [player] |>
  else e.

Definition has_allowed_looter_like_cpp (player : ObjectGuid) (e : LootEntry) : bool :=
  contains player (entry_allowed_looters e).

Definition roll_winner_allows_like_cpp (player : ObjectGuid) (e : LootEntry) : bool :=
  is_empty (roll_winner e) || bool_decide (roll_winner e = player).

Definition is_looted_for_player_like_cpp (player : ObjectGuid) (e : LootEntry) : bool :=
  if freeforall (flags e) then contains player (ffa_looted_by e) else taken e.

Definition visible_in_represented_free_for_all_view_like_cpp
    (player : ObjectGuid) (e : LootEntry) : bool :=
  negb (is_looted_for_player_like_cpp player e) && has_allowed_looter_like_cpp player e.

Definition mark_looted_for_player_like_cpp (player : ObjectGuid) (e : LootEntry) : LootEntry :=
  if freeforall (flags e) then
    if negb (is_empty player) && negb (contains player (ffa_looted_by e))
    then e <| ffa_looted_by := ffa_looted_by e ++ [player] |>
    else e
  else e <| taken := true |>.

Definition fully_looted_like_cpp (e : LootEntry) : bool :=
  if freeforall (flags e) then
    negb (bool_decide (entry_allowed_looters e = []))
    && forallb (fun player => contains player (ffa_looted_by e)) (entry_allowed_looters e)
  else taken e.

(** * Loot pools *)

Record NotNormalLootItem : Type := mkNotNormalLootItem {
  ffa_list_id : Z;
  is_looted : bool }.

#[export] Instance eta_not_normal : Eta NotNormalLootItem := fun i =>
  mkNotNormalLootItem (ffa_list_id i) (is_looted i).
#[global] Instance not_normal_eq_dec : EqDecision NotNormalLootItem.
Proof. solve_decision. Defined.

Record CreatureLoot : Type := mkCreatureLoot {
  loot_guid : ObjectGuid;
  coins : Z;
  unlooted_count : Z;
  loot_type : Z;
  dungeon_encounter_id : Z;
  loot_method : Z;
  loot_master : ObjectGuid;
  round_robin_player : ObjectGuid;
  player_ffa_items : list (ObjectGuid * list NotNormalLootItem);
  players_looting : list ObjectGuid;
  allowed_looters : list ObjectGuid;
  items : list LootEntry;
  looted_by_player : bool }.

#[export] Instance eta_loot : Eta CreatureLoot := fun l =>
  mkCreatureLoot (loot_guid l) (coins l) (unlooted_count l) (loot_type l)
    (dungeon_encounter_id l) (loot_method l) (loot_master l) (round_robin_player l)
    (player_ffa_items l) (players_looting l) (allowed_looters l) (items l) (looted_by_player l).
#[global] Instance loot_eq_dec : EqDecision CreatureLoot.
Proof. solve_decision. Defined.

(** [iter_mut().find(p)] followed by a write: the first match is changed. *)
Fixpoint alter_first {A} (p : A -> bool) (f : A -> A) (l : list A) : list A :=
  match l with
  | [] => []
  | x :: l => if p x then f x :: l else x :: alter_first p f l
  end.

Definition is_looted_like_cpp (l : CreatureLoot) : bool :=
  (coins l =? 0) && (unlooted_count l =? 0).

Definition item_like_cpp (id : Z) (l : CreatureLoot) : option LootEntry :=
  List.find (fun e => loot_list_id e =? id) (items l).

Definition is_some_and {A} (o : option A) (p : A -> bool) : bool :=
  match o with Some x => p x | None => false end.
Definition is_none_or {A} (o : option A) (p : A -> bool) : bool :=
  match o with Some x => p x | None => true end.

Definition player_has_unlooted_ffa_item_like_cpp
    (player : ObjectGuid) (id : Z) (l : CreatureLoot) : bool :=
  is_some_and (List.find (fun pi : _ * _ => bool_decide (pi.1 = player)) (player_ffa_items l))
    (fun pi => existsb (fun i => (ffa_list_id i =? id) && negb (is_looted i)) pi.2).

Definition item_is_looted_for_player_like_cpp
    (id : Z) (player : ObjectGuid) (l : CreatureLoot) : bool :=
  is_none_or (item_like_cpp id l) (is_looted_for_player_like_cpp player).

(** The mutation of [mark_item_looted_for_player_like_cpp], with its result. *)
Definition mark_item_looted_for_player_like_cpp
    (id : Z) (player : ObjectGuid) (l : CreatureLoot) : CreatureLoot * bool :=
  match item_like_cpp id l with
  | None => (l, false)
  | Some e =>
      if is_looted_for_player_like_cpp player e then (l, false)
      else
        let l := l <| items := alter_first (fun e => loot_list_id e =? id)
                                 (mark_looted_for_player_like_cpp player) (items l) |> in
        let l :=
          if freeforall (flags e) then
            l <| player_ffa_items :=
              alter_first (fun pi : _ * _ => bool_decide (pi.1 = player))
                (fun pi => (pi.1, alter_first (fun i => ffa_list_id i =? id)
                                    (fun i => i <| is_looted := true |>) pi.2))
                (player_ffa_items l) |>
          else l in
        (l <| unlooted_count := sat_sub (unlooted_count l) 1 |>, true)
  end.

(** * Scopes, snapshots, outcomes *)

Inductive OwnedLootScope : Type :=
| Shared
| Personal (player : ObjectGuid).

#[global] Instance scope_eq_dec : EqDecision OwnedLootScope.
Proof. solve_decision. Defined.
#[global] Instance scope_countable : Countable OwnedLootScope.
Proof.
  refine (inj_countable' (fun s => match s with Shared => None | Personal p => Some p end)
    (fun o => match o with None => Shared | Some p => Personal p end) _).
  by intros [].
Defined.

Inductive OwnedLootAuthorityLifecycle : Type :=
| Pristine | Active | Retired | Quarantined | Detached.
#[global] Instance lifecycle_eq_dec : EqDecision OwnedLootAuthorityLifecycle.
Proof. solve_decision. Defined.

Record OwnedLootAuthorityStamp : Type := mkStamp {
  lifecycle : OwnedLootAuthorityLifecycle;
  stamp_object_generation : Z }.
#[global] Instance stamp_eq_dec : EqDecision OwnedLootAuthorityStamp.
Proof. solve_decision. Defined.

Record OwnedLootSnapshot : Type := mkSnapshot {
  snapshot_generation : Z;
  snapshot_scope : OwnedLootScope;
  snapshot_loot : CreatureLoot }.

Inductive LootInstallOutcome : Type :=
| Installed (generation : Z)
| AlreadyInitialized (generation : Z).

Definition outcome_generation (o : LootInstallOutcome) : Z :=
  match o with Installed g | AlreadyInitialized g => g end.
Definition installed (o : LootInstallOutcome) : bool :=
  match o with Installed _ => true | AlreadyInitialized _ => false end.

Record LootViewerOpenOutcome : Type := mkViewerOpen {
  open_generation : Z;
  open_scope : OwnedLootScope;
  inserted : bool;
  first_viewer : bool }.

Record LootViewerCloseOutcome : Type := mkViewerClose {
  close_snapshot : OwnedLootSnapshot;
  removed : bool;
  whole_object_fully_looted : bool;
  close_object_generation : Z;
  close_lifecycle_revision : Z;
  whole_object_fully_skinned : bool }.

Record LootFullyLootedLifecycleObservation : Type := mkFullyLooted {
  seen_object_generation : Z;
  seen_lifecycle_revision : Z;
  seen_fully_skinned : bool }.

Record LootRoundRobinReleaseOutcome : Type := mkRoundRobinRelease {
  release_snapshot : OwnedLootSnapshot;
  cleared : bool }.

(** * Claims *)

(** [claimant] is the player for free-for-all items, [None] for unique ones. *)
Record LootItemClaimKey : Type := mkClaimKey {
  claim_scope : OwnedLootScope;
  claim_list_id : Z;
  claimant : option ObjectGuid }.
#[global] Instance claim_key_eq_dec : EqDecision LootItemClaimKey.
Proof. solve_decision. Defined.

Inductive LootClaimPayload : Type :=
| PayloadItem (e : LootEntry)
| PayloadMoney (amount : Z).

Inductive LootClaimError : Type :=
| ErrRetired | ErrStaleGeneration | ErrNoLootForPlayer | ErrResponseEnqueueFailed
| ErrItemNotFound | ErrItemAlreadyLooted | ErrPlayerNotAllowed | ErrItemBlocked
| ErrWrongRollWinner.
#[global] Instance claim_error_eq_dec : EqDecision LootClaimError.
Proof. solve_decision. Defined.

Inductive LootClaimCommitError : Type :=
| CommitRolledBack | CommitStaleGeneration | CommitStateChanged.
#[global] Instance commit_error_eq_dec : EqDecision LootClaimCommitError.
Proof. solve_decision. Defined.

Inductive ReservationKey : Type :=
| KeyItem (key : LootItemClaimKey)
| KeyMoney (scope : OwnedLootScope).
#[global] Instance reservation_key_eq_dec : EqDecision ReservationKey.
Proof. solve_decision. Defined.
#[global] Instance reservation_key_countable : Countable ReservationKey.
Proof.
  refine (inj_countable'
    (fun k => match k with
              | KeyItem i => inl (claim_scope i, claim_list_id i, claimant i)
              | KeyMoney s => inr s
              end)
    (fun x => match x with
              | inl (s, i, c) => KeyItem (mkClaimKey s i c)
              | inr s => KeyMoney s
              end) _).
  by intros [[]|].
Defined.

Definition reservation_scope (key : ReservationKey) : OwnedLootScope :=
  match key with KeyItem item => claim_scope item | KeyMoney scope => scope end.

Inductive LootItemClaimMode : Type := Direct | Award.
#[global] Instance claim_mode_eq_dec : EqDecision LootItemClaimMode.
Proof. solve_decision. Defined.

Inductive ReserveAttempt : Type :=
| Acquired (generation token : Z) (key : ReservationKey) (payload : LootClaimPayload)
| Wait
| Rejected (e : LootClaimError).

(** * The authority's state *)

Record AuthorityState : Type := mkAuthority {
  generation : Z;
  retired : bool;
  detached : bool;
  quarantined : bool;
  shared : option CreatureLoot;
  personal : gmap ObjectGuid CreatureLoot;
  scope_epochs : gmap OwnedLootScope Z;
  next_scope_epoch_field : Z;
  lifecycle_revision : Z;
  reservations : gmap ReservationKey Z;
  persisting : gmap ReservationKey Z;
  next_token_field : Z }.

#[export] Instance eta_authority : Eta AuthorityState := fun a =>
  mkAuthority (generation a) (retired a) (detached a) (quarantined a) (shared a) (personal a)
    (scope_epochs a) (next_scope_epoch_field a) (lifecycle_revision a) (reservations a)
    (persisting a) (next_token_field a).

(** [AuthorityState::default]. *)
Definition default_authority : AuthorityState :=
  {| generation := 0; retired := true; detached := false; quarantined := false;
     shared := None; personal := ∅; scope_epochs := ∅; next_scope_epoch_field := 1;
     lifecycle_revision := 0; reservations := ∅; persisting := ∅; next_token_field := 1 |}.

(** [x.wrapping_add(1).max(1)], the successor of the [u64] counters. *)
Definition next_nonzero (x : Z) : Z := Z.max (u64 (x + 1)) 1.

Definition retain_only_persisting_reservations (a : AuthorityState) : AuthorityState :=
  a <| reservations :=
    filter (fun kt : ReservationKey * Z => persisting a !! kt.1 = Some kt.2) (reservations a) |>.

Definition finalize_closed_state_if_drained (a : AuthorityState) : AuthorityState :=
  if negb (retired a) || negb (bool_decide (persisting a = ∅)) then a
  else ((((a <| shared := None |>) <| personal := ∅ |>) <| scope_epochs := ∅ |>)
          <| reservations := ∅ |>).

Definition scope_has_persisting_claim (a : AuthorityState) (scope : OwnedLootScope) : bool :=
  existsb (fun kt : _ * _ => bool_decide (reservation_scope kt.1 = scope))
    (map_to_list (persisting a)).

Definition next_token (a : AuthorityState) : AuthorityState * Z :=
  (a <| next_token_field := next_nonzero (next_token_field a) |>, next_token_field a).

Definition next_scope_epoch (a : AuthorityState) : AuthorityState * Z :=
  (a <| next_scope_epoch_field := next_nonzero (next_scope_epoch_field a) |>,
   next_scope_epoch_field a).

Definition bump_lifecycle_revision (a : AuthorityState) : AuthorityState :=
  a <| lifecycle_revision := Z.max (sat_add u64_max (lifecycle_revision a) 1) 1 |>.

(** [for player in personal.keys()], written as a fold over the keys: the
    inserts are at distinct keys, so their order does not show. *)
Definition install_all_scope_epochs (epoch : Z) (a : AuthorityState) : AuthorityState :=
  let epochs := ∅ in
  let epochs := if bool_decide (is_Some (shared a)) then <[Shared := epoch]> epochs else epochs in
  let players := (map_to_list (personal a)).*1 in
  a <| scope_epochs := foldl (fun m p => <[Personal p := epoch]> m) epochs players |>.

(** [scope_epochs.values().min()]. *)
Definition any_scope_epoch (a : AuthorityState) : option Z :=
  match (map_to_list (scope_epochs a)).*2 with
  | [] => None
  | e :: l => Some (foldl Z.min e l)
  end.

Definition scope_epoch (a : AuthorityState) (scope : OwnedLootScope) : option Z :=
  scope_epochs a !! scope.

Definition selected_scope_like_cpp (a : AuthorityState) (player : ObjectGuid) :
    option OwnedLootScope :=
  if retired a then None
  else if bool_decide (personal a = ∅) then (fun _ => Shared) <$> shared a
  else if bool_decide (is_Some (personal a !! player)) then Some (Personal player) else None.

Definition all_pools (p : CreatureLoot -> bool) (a : AuthorityState) : bool :=
  is_none_or (shared a) p && forallb p (map_to_list (personal a)).*2.

Definition active_loot_pools_fully_looted_like_cpp : AuthorityState -> bool :=
  all_pools is_looted_like_cpp.

Definition active_loot_pools_have_no_viewers_like_cpp : AuthorityState -> bool :=
  all_pools (fun l => bool_decide (players_looting l = [])).

(** [LootType::Skinning as u8]. *)
Definition LootType_Skinning : Z := 6.

(** The loop over the personal pools, with its early return. *)
Fixpoint scan_skinning (has_personal : bool) (pools : list CreatureLoot) : bool :=
  match pools with
  | [] => has_personal
  | l :: pools =>
      if negb (loot_type l =? LootType_Skinning) then scan_skinning has_personal pools
      else if negb (is_looted_like_cpp l) then false
      else scan_skinning true pools
  end.

Section Order.
Context {Ord : IterOrder ObjectGuid}.

Definition active_loot_pools_fully_skinned_like_cpp (a : AuthorityState) : bool :=
  if is_some_and (shared a)
       (fun l => (loot_type l =? LootType_Skinning) && is_looted_like_cpp l)
  then true
  else scan_skinning false (iter_entries (personal a)).*2.
End Order.

Definition loot_for_scope (a : AuthorityState) (scope : OwnedLootScope) : option CreatureLoot :=
  match scope with Shared => shared a | Personal player => personal a !! player end.

(** A write through [loot_for_scope_mut]: nothing happens when it is [None]. *)
Definition update_loot (scope : OwnedLootScope) (f : CreatureLoot -> CreatureLoot)
    (a : AuthorityState) : AuthorityState :=
  match scope with
  | Shared => a <| shared := f <$> shared a |>
  | Personal player => a <| personal := alter f player (personal a) |>
  end.

Definition snapshot_for_scope (a : AuthorityState) (scope : OwnedLootScope) :
    option OwnedLootSnapshot :=
  if retired a then None
  else epoch ← scope_epoch a scope; mkSnapshot epoch scope <$> loot_for_scope a scope.

(** * Reservations *)

Definition reserve_item_once (player : ObjectGuid) (id : Z) (mode : LootItemClaimMode)
    (expected : option Z) (a : AuthorityState) : AuthorityState * ReserveAttempt :=
  if retired a then (a, Rejected ErrRetired) else
  match selected_scope_like_cpp a player with
  | None => (a, Rejected ErrNoLootForPlayer)
  | Some scope =>
      match scope_epoch a scope with
      | None => (a, Rejected ErrStaleGeneration)
      | Some epoch =>
          if is_some_and expected (fun x => negb (x =? epoch))
          then (a, Rejected ErrStaleGeneration) else
          match loot_for_scope a scope with
          | None => (a, Rejected ErrNoLootForPlayer)
          | Some loot =>
              match item_like_cpp id loot with
              | None => (a, Rejected ErrItemNotFound)
              | Some e =>
                  if is_looted_for_player_like_cpp player e
                  then (a, Rejected ErrItemAlreadyLooted)
                  else if negb (has_allowed_looter_like_cpp player e)
                  then (a, Rejected ErrPlayerNotAllowed)
                  else if bool_decide (mode = Direct) && blocked (flags e)
                  then (a, Rejected ErrItemBlocked)
                  else if negb (roll_winner_allows_like_cpp player e)
                  then (a, Rejected ErrWrongRollWinner)
                  else
                    let key := KeyItem (mkClaimKey scope id
                      (if freeforall (flags e) then Some player else None)) in
                    if bool_decide (is_Some (reservations a !! key)) then (a, Wait)
                    else
                      let '(a, token) := next_token a in
                      (a <| reservations := <[key := token]> (reservations a) |>,
                       Acquired epoch token key (PayloadItem e))
              end
          end
      end
  end.

Definition reserve_money_once (player : ObjectGuid) (expected : option Z) (a : AuthorityState) :
    AuthorityState * ReserveAttempt :=
  if retired a then (a, Rejected ErrRetired) else
  match selected_scope_like_cpp a player with
  | None => (a, Rejected ErrNoLootForPlayer)
  | Some scope =>
      match scope_epoch a scope with
      | None => (a, Rejected ErrStaleGeneration)
      | Some epoch =>
          if is_some_and expected (fun x => negb (x =? epoch))
          then (a, Rejected ErrStaleGeneration) else
          match loot_for_scope a scope with
          | None => (a, Rejected ErrNoLootForPlayer)
          | Some loot =>
              if negb (contains player (allowed_looters loot))
              then (a, Rejected ErrPlayerNotAllowed) else
              let key := KeyMoney scope in
              if bool_decide (is_Some (reservations a !! key)) then (a, Wait)
              else
                let payload := PayloadMoney (coins loot) in
                let '(a, token) := next_token a in
                (a <| reservations := <[key := token]> (reservations a) |>,
                 Acquired epoch token key payload)
          end
      end
  end.

(** * Leases *)

Definition LEASE_ACTIVE : Z := 0.
Definition LEASE_COMMITTED : Z := 1.
Definition LEASE_ROLLED_BACK : Z := 2.
Definition LEASE_QUARANTINED : Z := 3.

(** [LootClaimLeaseInner], less the handle of its authority. *)
Record LootClaimLease : Type := mkLease {
  lease_generation : Z;
  lease_token : Z;
  lease_key : ReservationKey;
  lease_player : ObjectGuid;
  lease_payload : LootClaimPayload;
  status : Z }.

#[export] Instance eta_lease : Eta LootClaimLease := fun l =>
  mkLease (lease_generation l) (lease_token l) (lease_key l) (lease_player l) (lease_payload l)
    (status l).

(** [LootClaimLease::new]. *)
Definition new_lease (generation token : Z) (key : ReservationKey) (player : ObjectGuid)
    (payload : LootClaimPayload) : LootClaimLease :=
  mkLease generation token key player payload LEASE_ACTIVE.

Definition is_committed_like_cpp (l : LootClaimLease) : bool := status l =? LEASE_COMMITTED.

Record LootClaimCommitOutcome : Type := mkCommitOutcome {
  first_commit : bool;
  commit_snapshot : option OwnedLootSnapshot }.
