(* ===== verification/LootAuthority.v ===== *)
(** The operations of the loot authority: wow-loot/src/authority/ops_1.rs and
    ops_2.rs.  Each is one critical section of the authority's mutex: it returns
    the new state, its result, and whether it calls [notify_changed].  The
    waiting loops of the [reserve_*] methods are attempts ([reserve_item_once],
    [reserve_money_once]) repeated after each notification. *)
From S2P Require Import Prelude Guid LootModel.

(** New state, result, notified. *)
Definition Act (A : Type) : Type := AuthorityState * A * bool.

(** An operation that changes nothing and notifies nobody. *)
Definition unchanged {A} (a : AuthorityState) (x : A) : Act A := (a, x, false).

(** * Lifecycle *)

Definition new_like_cpp : AuthorityState := default_authority.

Definition lifecycle_like_cpp (a : AuthorityState) : OwnedLootAuthorityLifecycle :=
  if detached a then Detached
  else if quarantined a then Quarantined
  else if negb (retired a) then Active
  else if generation a =? 0 then Pristine
  else Retired.

Definition is_pristine_like_cpp (a : AuthorityState) : bool :=
  bool_decide (lifecycle_like_cpp a = Pristine).

Definition stamp_like_cpp (a : AuthorityState) : OwnedLootAuthorityStamp :=
  mkStamp (lifecycle_like_cpp a) (generation a).

Definition new_retired_tombstone_like_cpp : AuthorityState :=
  (new_like_cpp <| generation := 1 |>) <| quarantined := true |>.

(** The mutation shared by the two detaches. *)
Definition do_detach (a : AuthorityState) : AuthorityState :=
  let a := (((a <| generation := next_nonzero (generation a) |>) <| retired := true |>)
              <| detached := true |>) <| quarantined := false |> in
  finalize_closed_state_if_drained (retain_only_persisting_reservations a).

Definition detach_like_cpp (a : AuthorityState) : Act Z :=
  if detached a then unchanged a (generation a)
  else (do_detach a, generation (do_detach a), true).

Definition detach_if_stamp_like_cpp (expected : OwnedLootAuthorityStamp) (a : AuthorityState) :
    Act bool :=
  if negb (bool_decide (lifecycle_like_cpp a = lifecycle expected))
     || negb (generation a =? stamp_object_generation expected)
  then unchanged a false
  else if detached a then unchanged a true
  else (do_detach a, true, true).

Definition is_fully_looted_like_cpp (a : AuthorityState) : bool :=
  retired a || active_loot_pools_fully_looted_like_cpp a.

(** The condition [wait_for_persisting_claims_like_cpp] waits for. *)
Definition no_persisting_claims (a : AuthorityState) : bool := bool_decide (persisting a = ∅).

Section Observations.
Context {Ord : IterOrder ObjectGuid} {R : Type}.

Definition with_fully_looted_lifecycle_observation_like_cpp
    (expected_generation expected_revision : Z) (apply_before_unlock : unit -> R)
    (a : AuthorityState) : option R :=
  if retired a
     || negb (generation a =? expected_generation)
     || negb (lifecycle_revision a =? expected_revision)
     || negb (active_loot_pools_fully_looted_like_cpp a)
  then None
  else Some (apply_before_unlock tt).

Definition with_unviewed_fully_looted_lifecycle_observation_like_cpp
    (expected_generation expected_revision : Z) (apply_before_unlock : unit -> R)
    (a : AuthorityState) : option R :=
  if retired a
     || negb (generation a =? expected_generation)
     || negb (lifecycle_revision a =? expected_revision)
     || negb (active_loot_pools_fully_looted_like_cpp a)
     || negb (active_loot_pools_have_no_viewers_like_cpp a)
  then None
  else Some (apply_before_unlock tt).

Definition fully_looted_unviewed_lifecycle_observation_like_cpp (a : AuthorityState) :
    option LootFullyLootedLifecycleObservation :=
  if retired a
     || negb (active_loot_pools_fully_looted_like_cpp a)
     || negb (active_loot_pools_have_no_viewers_like_cpp a)
  then None
  else Some (mkFullyLooted (generation a) (lifecycle_revision a)
               (active_loot_pools_fully_skinned_like_cpp a)).
End Observations.

(** * Installing pools *)

(** The block shared by [initialize_pristine], [replace_retired_generation] and
    [replace] once the object generation is chosen: all pools replaced, one new
    epoch for every scope. *)
Definition install_pools (gen : Z) (new_shared : option CreatureLoot)
    (new_personal : gmap ObjectGuid CreatureLoot) (a : AuthorityState) : AuthorityState * Z :=
  let a := (((((a <| generation := gen |>) <| retired := false |>) <| shared := new_shared |>)
               <| personal := new_personal |>) <| reservations := ∅ |>) <| persisting := ∅ |> in
  let '(a, epoch) := next_scope_epoch a in
  (bump_lifecycle_revision (install_all_scope_epochs epoch a), epoch).

Definition initialize_pristine_like_cpp (new_shared : option CreatureLoot)
    (new_personal : gmap ObjectGuid CreatureLoot) (a : AuthorityState) : Act LootInstallOutcome :=
  if detached a || quarantined a || negb (bool_decide (persisting a = ∅)) || negb (retired a)
     || negb (generation a =? 0)
  then unchanged a (AlreadyInitialized (default 0 (any_scope_epoch a)))
  else
    let '(a, epoch) := install_pools 1 new_shared new_personal a in
    (a, Installed epoch, true).

Definition initialize_like_cpp : option CreatureLoot -> gmap ObjectGuid CreatureLoot ->
    AuthorityState -> Act LootInstallOutcome := initialize_pristine_like_cpp.

Definition replace_retired_generation_like_cpp (expected : Z) (new_shared : option CreatureLoot)
    (new_personal : gmap ObjectGuid CreatureLoot) (a : AuthorityState) : Act (option Z) :=
  if detached a || quarantined a || negb (bool_decide (persisting a = ∅)) || negb (retired a)
     || negb (generation a =? expected)
  then unchanged a None
  else
    let '(a, epoch) := install_pools (next_nonzero (generation a)) new_shared new_personal a in
    (a, Some epoch, true).

Definition replace_like_cpp (new_shared : option CreatureLoot)
    (new_personal : gmap ObjectGuid CreatureLoot) (a : AuthorityState) : Act Z :=
  if detached a || quarantined a || negb (bool_decide (persisting a = ∅))
  then unchanged a 0
  else
    let '(a, epoch) := install_pools (next_nonzero (generation a)) new_shared new_personal a in
    (a, epoch, true).

Definition initialize_shared_like_cpp (loot : CreatureLoot) (a : AuthorityState) :
    Act LootInstallOutcome :=
  if detached a || quarantined a || negb (bool_decide (persisting a = ∅))
     || (retired a && negb (generation a =? 0))
  then unchanged a (AlreadyInitialized 0)
  else if negb (retired a) && bool_decide (is_Some (shared a))
  then unchanged a (AlreadyInitialized (default 0 (scope_epoch a Shared)))
  else
    let a :=
      if retired a then
        (((((a <| generation := next_nonzero (generation a) |>) <| retired := false |>)
             <| personal := ∅ |>) <| scope_epochs := ∅ |>) <| reservations := ∅ |>)
             <| persisting := ∅ |>
      else a in
    let '(a, epoch) := next_scope_epoch a in
    let a := (a <| shared := Some loot |>)
               <| scope_epochs := <[Shared := epoch]> (scope_epochs a) |> in
    (bump_lifecycle_revision a, Installed epoch, true).

(** What [upsert_personal] resets before the new pool is inserted. *)
Definition prepare_personal (player : ObjectGuid) (a : AuthorityState) : AuthorityState :=
  if retired a then
    (((((a <| generation := next_nonzero (generation a) |>) <| retired := false |>)
         <| shared := None |>) <| scope_epochs := ∅ |>) <| reservations := ∅ |>)
         <| persisting := ∅ |>
  else if bool_decide (personal a = ∅) && bool_decide (is_Some (shared a)) then
    ((a <| generation := next_nonzero (generation a) |>)
       <| scope_epochs := delete Shared (scope_epochs a) |>) <| reservations := ∅ |>
  else if bool_decide (is_Some (personal a !! player)) then
    a <| reservations := filter (fun kt : ReservationKey * Z =>
           reservation_scope kt.1 <> Personal player) (reservations a) |>
  else a.

Definition upsert_personal_like_cpp (player : ObjectGuid) (loot : CreatureLoot) (replace : bool)
    (a : AuthorityState) : Act LootInstallOutcome :=
  if detached a || quarantined a || (retired a && negb (generation a =? 0))
  then unchanged a (AlreadyInitialized 0)
  else if scope_has_persisting_claim a (Personal player)
          || (bool_decide (personal a = ∅) && bool_decide (is_Some (shared a))
              && negb (bool_decide (persisting a = ∅)))
  then unchanged a (AlreadyInitialized
         (default 0 (match scope_epoch a (Personal player) with
                     | Some e => Some e
                     | None => scope_epoch a Shared
                     end)))
  else if negb (retired a) && bool_decide (is_Some (personal a !! player)) && negb replace
  then unchanged a (AlreadyInitialized (default 0 (scope_epoch a (Personal player))))
  else
    let '(a, epoch) := next_scope_epoch (prepare_personal player a) in
    let a := (a <| personal := <[player := loot]> (personal a) |>)
               <| scope_epochs := <[Personal player := epoch]> (scope_epochs a) |> in
    (bump_lifecycle_revision a, Installed epoch, true).

Definition retire_like_cpp (a : AuthorityState) : Act Z :=
  if retired a && negb (generation a =? 0) then unchanged a (generation a)
  else
    let a := (a <| generation := next_nonzero (generation a) |>) <| retired := true |> in
    let a := finalize_closed_state_if_drained (retain_only_persisting_reservations a) in
    (a, generation a, true).

(** * Reading *)

Definition generation_like_cpp (a : AuthorityState) : Z := generation a.

Definition scope_generation_like_cpp (scope : OwnedLootScope) (a : AuthorityState) : option Z :=
  if retired a then None else scope_epoch a scope.

Definition is_retired_like_cpp (a : AuthorityState) : bool := retired a.

Definition snapshot_for_player_like_cpp (player : ObjectGuid) (a : AuthorityState) :
    option OwnedLootSnapshot :=
  scope ← selected_scope_like_cpp a player; snapshot_for_scope a scope.

Definition shared_snapshot_like_cpp (a : AuthorityState) : option OwnedLootSnapshot :=
  snapshot_for_scope a Shared.

Definition personal_snapshot_like_cpp (player : ObjectGuid) (a : AuthorityState) :
    option OwnedLootSnapshot := snapshot_for_scope a (Personal player).

Definition personal_snapshots_like_cpp (a : AuthorityState) :
    gmap ObjectGuid OwnedLootSnapshot :=
  if retired a then ∅
  else map_imap (fun player loot =>
         (fun epoch => mkSnapshot epoch (Personal player) loot)
           <$> scope_epoch a (Personal player)) (personal a).

Definition viewers_for_player_like_cpp (player : ObjectGuid) (a : AuthorityState) :
    list ObjectGuid :=
  match snapshot_for_player_like_cpp player a with
  | None => []
  | Some s => players_looting (snapshot_loot s)
  end.

(** * Viewers *)

Definition remove_viewer (player : ObjectGuid) (l : CreatureLoot) : CreatureLoot :=
  l <| players_looting := filter (fun v => v <> player) (players_looting l) |>.

Definition viewer_removed (player : ObjectGuid) (l : CreatureLoot) : bool :=
  negb (bool_decide (length (players_looting l)
                     = length (players_looting (remove_viewer player l)))).

(** The tentative open of one pool. *)
Definition open_pool (player : ObjectGuid) (l : CreatureLoot) : CreatureLoot :=
  let l := if looted_by_player l then l else l <| looted_by_player := true |> in
  if contains player (players_looting l) then l
  else l <| players_looting := players_looting l ++ [player] |>.

(** The rollback of a tentative open whose response was not published. *)
Definition unopen_pool (player : ObjectGuid) (was_inserted was_first : bool) (l : CreatureLoot) :
    CreatureLoot :=
  let l := if was_inserted then remove_viewer player l else l in
  if was_first then l <| looted_by_player := false |> else l.

Section OpenView.
Context {R : Type}.

Definition try_open_view_with_snapshot_like_cpp (player : ObjectGuid)
    (try_observe : OwnedLootSnapshot -> LootViewerOpenOutcome -> option R) (a : AuthorityState) :
    Act (result (LootViewerOpenOutcome * R) LootClaimError) :=
  if retired a then unchanged a (Err ErrRetired) else
  match selected_scope_like_cpp a player with
  | None => unchanged a (Err ErrNoLootForPlayer)
  | Some scope =>
      match scope_epoch a scope with
      | None => unchanged a (Err ErrStaleGeneration)
      | Some epoch =>
          match loot_for_scope a scope with
          | None => unchanged a (Err ErrNoLootForPlayer)
          | Some loot =>
              let outcome := mkViewerOpen epoch scope
                (negb (contains player (players_looting loot))) (negb (looted_by_player loot)) in
              let a := update_loot scope (open_pool player) a in
              match try_observe (mkSnapshot epoch scope (open_pool player loot)) outcome with
              | None =>
                  unchanged (update_loot scope
                    (unopen_pool player (inserted outcome) (first_viewer outcome)) a)
                    (Err ErrResponseEnqueueFailed)
              | Some observed =>
                  (a, Ok (outcome, observed), inserted outcome || first_viewer outcome)
              end
          end
      end
  end.

Definition open_view_with_snapshot_like_cpp (player : ObjectGuid)
    (observe : OwnedLootSnapshot -> LootViewerOpenOutcome -> R) :
    AuthorityState -> Act (result (LootViewerOpenOutcome * R) LootClaimError) :=
  try_open_view_with_snapshot_like_cpp player (fun s o => Some (observe s o)).
End OpenView.

Definition add_viewer_like_cpp (player : ObjectGuid) (a : AuthorityState) :
    Act (result LootViewerOpenOutcome LootClaimError) :=
  let '(a, r, notified) := open_view_with_snapshot_like_cpp player (fun _ _ => tt) a in
  (a, (let? x := r in Ok x.1), notified).

Definition remove_viewer_like_cpp (player : ObjectGuid) (a : AuthorityState) : Act bool :=
  match selected_scope_like_cpp a player with
  | None => unchanged a false
  | Some scope =>
      match loot_for_scope a scope with
      | None => unchanged a false
      | Some loot =>
          (update_loot scope (remove_viewer player) a, viewer_removed player loot,
           viewer_removed player loot)
      end
  end.

(** The guard of the generation-checked releases: the pool the player selects,
    when it still has the epoch the session opened. *)
Definition pool_of_generation (expected : Z) (player : ObjectGuid) (a : AuthorityState) :
    option (OwnedLootScope * CreatureLoot) :=
  if retired a then None
  else
    scope ← selected_scope_like_cpp a player;
    if bool_decide (scope_epoch a scope = Some expected)
    then (fun loot => (scope, loot)) <$> loot_for_scope a scope
    else None.

Definition remove_viewer_if_generation_like_cpp (expected : Z) (player : ObjectGuid)
    (a : AuthorityState) : Act (option bool) :=
  match pool_of_generation expected player a with
  | None => unchanged a None
  | Some (scope, loot) =>
      (update_loot scope (remove_viewer player) a, Some (viewer_removed player loot),
       viewer_removed player loot)
  end.

Definition close_viewer_if_generation_like_cpp {Ord : IterOrder ObjectGuid} (expected : Z)
    (player : ObjectGuid) (a : AuthorityState) : Act (option LootViewerCloseOutcome) :=
  match pool_of_generation expected player a with
  | None => unchanged a None
  | Some (scope, loot) =>
      let a := update_loot scope (remove_viewer player) a in
      let was_removed := viewer_removed player loot in
      (a,
       Some (mkViewerClose (mkSnapshot expected scope (remove_viewer player loot)) was_removed
               (active_loot_pools_fully_looted_like_cpp a) (generation a) (lifecycle_revision a)
               (active_loot_pools_fully_skinned_like_cpp a)),
       was_removed)
  end.

Definition clear_round_robin_if_generation_like_cpp (expected : Z) (player : ObjectGuid)
    (a : AuthorityState) : Act (option LootRoundRobinReleaseOutcome) :=
  match pool_of_generation expected player a with
  | None => unchanged a None
  | Some (scope, loot) =>
      let clear := fun l : CreatureLoot =>
        if bool_decide (round_robin_player l = player)
        then l <| round_robin_player := EMPTY |> else l in
      let was_cleared := bool_decide (round_robin_player loot = player) in
      (update_loot scope clear a,
       Some (mkRoundRobinRelease (mkSnapshot expected scope (clear loot)) was_cleared),
       was_cleared)
  end.

(** * Group rolls *)

(** The three writes that publish a finished roll on an entry. *)
Definition finish_entry (threshold : bool) (winner : ObjectGuid) (e : LootEntry) : LootEntry :=
  (e <| flags := ((flags e) <| blocked := false |>) <| under_threshold := threshold |> |>)
     <| roll_winner := winner |>.

Definition finish_loot (id : Z) (threshold : bool) (winner : ObjectGuid) (l : CreatureLoot) :
    CreatureLoot :=
  l <| items := alter_first (fun e => loot_list_id e =? id) (finish_entry threshold winner)
                  (items l) |>.

Definition finish_item_roll_like_cpp (player : ObjectGuid) (expected : Z) (id : Z)
    (threshold : bool) (winner : option ObjectGuid) (a : AuthorityState) :
    Act (result bool LootClaimError) :=
  if retired a then unchanged a (Err ErrRetired) else
  match selected_scope_like_cpp a player with
  | None => unchanged a (Err ErrNoLootForPlayer)
  | Some scope =>
      if negb (bool_decide (scope_epoch a scope = Some expected))
      then unchanged a (Err ErrStaleGeneration) else
      match loot_for_scope a scope with
      | None => unchanged a (Err ErrNoLootForPlayer)
      | Some loot =>
          match item_like_cpp id loot with
          | None => unchanged a (Err ErrItemNotFound)
          | Some e =>
              let winner := default EMPTY winner in
              let changed := blocked (flags e)
                || negb (bool_decide (under_threshold (flags e) = threshold))
                || negb (bool_decide (roll_winner e = winner)) in
              (update_loot scope (finish_loot id threshold winner) a, Ok changed, changed)
          end
      end
  end.

(** The rollback of a published roll whose award could not be reserved. *)
Definition restore_entry (previous e : LootEntry) : LootEntry :=
  (e <| flags := ((flags e) <| blocked := blocked (flags previous) |>)
                   <| under_threshold := under_threshold (flags previous) |> |>)
     <| roll_winner := roll_winner previous |>.

Definition restore_loot (id : Z) (previous : LootEntry) (l : CreatureLoot) : CreatureLoot :=
  l <| items := alter_first (fun e => loot_list_id e =? id) (restore_entry previous) (items l) |>.

Definition finish_item_roll_and_reserve_award_like_cpp (scope_player : ObjectGuid)
    (expected : Z) (id : Z) (winner : ObjectGuid) (a : AuthorityState) :
    Act (result LootClaimLease LootClaimError) :=
  if retired a then unchanged a (Err ErrRetired) else
  match selected_scope_like_cpp a scope_player with
  | None => unchanged a (Err ErrNoLootForPlayer)
  | Some scope =>
      if negb (bool_decide (selected_scope_like_cpp a winner = Some scope))
      then unchanged a (Err ErrNoLootForPlayer) else
      if negb (bool_decide (scope_epoch a scope = Some expected))
      then unchanged a (Err ErrStaleGeneration) else
      match loot_for_scope a scope with
      | None => unchanged a (Err ErrNoLootForPlayer)
      | Some loot =>
          match item_like_cpp id loot with
          | None => unchanged a (Err ErrItemNotFound)
          | Some previous =>
              let a := update_loot scope (finish_loot id false winner) a in
              match reserve_item_once winner id Award (Some expected) a with
              | (a, Acquired epoch token key payload) =>
                  (a, Ok (new_lease epoch token key winner payload), true)
              | (a, _) =>
                  unchanged (update_loot scope (restore_loot id previous) a)
                    (Err ErrItemAlreadyLooted)
              end
          end
      end
  end.

(** * Claims

    One attempt of a [reserve_*] loop: a lease, an error, or [None] to wait for
    the next notification. *)
Definition attempt_lease (player : ObjectGuid) (r : AuthorityState * ReserveAttempt) :
    Act (option (result LootClaimLease LootClaimError)) :=
  match r with
  | (a, Acquired epoch token key payload) =>
      unchanged a (Some (Ok (new_lease epoch token key player payload)))
  | (a, Wait) => unchanged a None
  | (a, Rejected e) => unchanged a (Some (Err e))
  end.

Definition reserve_item_with_mode_like_cpp (player : ObjectGuid) (id : Z)
    (mode : LootItemClaimMode) (expected : option Z) (a : AuthorityState) :
    Act (option (result LootClaimLease LootClaimError)) :=
  attempt_lease player (reserve_item_once player id mode expected a).

Definition reserve_item_like_cpp (player : ObjectGuid) (id : Z) :=
  reserve_item_with_mode_like_cpp player id Direct None.
Definition reserve_item_for_generation_like_cpp (player : ObjectGuid) (id expected : Z) :=
  reserve_item_with_mode_like_cpp player id Direct (Some expected).
Definition reserve_item_for_award_like_cpp (player : ObjectGuid) (id : Z) :=
  reserve_item_with_mode_like_cpp player id Award None.
Definition reserve_item_for_award_generation_like_cpp (player : ObjectGuid) (id expected : Z) :=
  reserve_item_with_mode_like_cpp player id Award (Some expected).

Definition reserve_money_for_optional_generation_like_cpp (player : ObjectGuid)
    (expected : option Z) (a : AuthorityState) :
    Act (option (result LootClaimLease LootClaimError)) :=
  attempt_lease player (reserve_money_once player expected a).
Definition reserve_money_like_cpp (player : ObjectGuid) :=
  reserve_money_for_optional_generation_like_cpp player None.
Definition reserve_money_for_generation_like_cpp (player : ObjectGuid) (expected : Z) :=
  reserve_money_for_optional_generation_like_cpp player (Some expected).

(** * Resolving a claim: the authority and the lease together *)
Definition LeaseAct (A : Type) : Type := AuthorityState * LootClaimLease * A * bool.

(** [persisting.get(&lease.key) == Some(&lease.token)], and the same for
    [reservations]. *)
Definition persists (a : AuthorityState) (l : LootClaimLease) : bool :=
  bool_decide (persisting a !! lease_key l = Some (lease_token l)).
Definition reserved (a : AuthorityState) (l : LootClaimLease) : bool :=
  bool_decide (reservations a !! lease_key l = Some (lease_token l)).
(** [scope_epoch(reservation_scope(lease.key)) == Some(lease.generation)]. *)
Definition current (a : AuthorityState) (l : LootClaimLease) : bool :=
  bool_decide (scope_epoch a (reservation_scope (lease_key l)) = Some (lease_generation l)).

Definition begin_claim_persistence (a : AuthorityState) (l : LootClaimLease) :
    LeaseAct (result unit LootClaimCommitError) :=
  if status l =? LEASE_COMMITTED then (a, l, Err CommitStateChanged, false)
  else if status l =? LEASE_ROLLED_BACK then (a, l, Err CommitRolledBack, false)
  else if negb (status l =? LEASE_ACTIVE) then (a, l, Err CommitStateChanged, false)
  else if persists a l then (a, l, Err CommitStateChanged, false)
  else if retired a || negb (current a l)
  then (a, l <| status := LEASE_ROLLED_BACK |>, Err CommitStaleGeneration, false)
  else if negb (reserved a l)
  then (a, l <| status := LEASE_ROLLED_BACK |>, Err CommitStateChanged, false)
  else (a <| persisting := <[lease_key l := lease_token l]> (persisting a) |>, l, Ok tt, false).

(** Both maps lose the claim's key. *)
Definition drop_claim (l : LootClaimLease) (a : AuthorityState) : AuthorityState :=
  (a <| persisting := delete (lease_key l) (persisting a) |>)
     <| reservations := delete (lease_key l) (reservations a) |>.

Definition abort_claim_persistence (a : AuthorityState) (l : LootClaimLease) : LeaseAct bool :=
  if negb (status l =? LEASE_ACTIVE) || negb (persists a l) then (a, l, false, false)
  else (finalize_closed_state_if_drained (drop_claim l a), l <| status := LEASE_ROLLED_BACK |>,
        true, true).

Definition quarantine_claim_persistence_commit_unknown (a : AuthorityState)
    (l : LootClaimLease) : LeaseAct bool :=
  if negb (status l =? LEASE_ACTIVE) || negb (persists a l) then (a, l, false, false)
  else
    let a := ((drop_claim l a) <| retired := true |>) <| quarantined := true |> in
    (finalize_closed_state_if_drained a, l <| status := LEASE_QUARANTINED |>, true, true).

(** What a commit writes to the pool, and whether there was something to write. *)
Definition apply_claim (l : LootClaimLease) (a : AuthorityState) : AuthorityState * bool :=
  let scope := reservation_scope (lease_key l) in
  match loot_for_scope a scope with
  | None => (a, false)
  | Some loot =>
      match lease_key l with
      | KeyItem key =>
          (update_loot scope
             (fun loot => (mark_item_looted_for_player_like_cpp (claim_list_id key)
                             (lease_player l) loot).1) a,
           (mark_item_looted_for_player_like_cpp (claim_list_id key) (lease_player l) loot).2)
      | KeyMoney _ => (update_loot scope (fun loot => loot <| coins := 0 |>) a, true)
      end
  end.

(** The error branches of a commit: the lease is rolled back, and a protected
    claim stops persisting. *)
Definition refuse_commit (protected : bool) (e : LootClaimCommitError) (a : AuthorityState)
    (l : LootClaimLease) : LeaseAct (result LootClaimCommitOutcome LootClaimCommitError) :=
  let a :=
    if protected then
      finalize_closed_state_if_drained
        (a <| persisting := delete (lease_key l) (persisting a) |>)
    else a in
  (a, l <| status := LEASE_ROLLED_BACK |>, Err e, true).

Definition commit_claim_with_snapshot (a : AuthorityState) (l : LootClaimLease)
    (persistence_owner : bool) :
    LeaseAct (result LootClaimCommitOutcome LootClaimCommitError) :=
  if status l =? LEASE_COMMITTED then (a, l, Ok (mkCommitOutcome false None), false)
  else if status l =? LEASE_QUARANTINED then (a, l, Err CommitStateChanged, false)
  else if status l =? LEASE_ROLLED_BACK then (a, l, Err CommitRolledBack, false)
  else
    let scope := reservation_scope (lease_key l) in
    let protected := persists a l in
    if protected && negb persistence_owner then (a, l, Err CommitStateChanged, false)
    else if (retired a && negb protected) || negb (current a l)
    then refuse_commit protected CommitStaleGeneration a l
    else if negb (reserved a l)
    then refuse_commit protected CommitStateChanged a l
    else
      let '(a, committed) := apply_claim l a in
      let snapshot := epoch ← scope_epoch a scope; mkSnapshot epoch scope <$> loot_for_scope a scope in
      let a := finalize_closed_state_if_drained (drop_claim l a) in
      if committed
      then (a, l <| status := LEASE_COMMITTED |>, Ok (mkCommitOutcome true snapshot), true)
      else (a, l <| status := LEASE_ROLLED_BACK |>, Err CommitStateChanged, true).

Definition commit_claim (a : AuthorityState) (l : LootClaimLease) (persistence_owner : bool) :
    LeaseAct (result bool LootClaimCommitError) :=
  let '(a, l, r, notified) := commit_claim_with_snapshot a l persistence_owner in
  (a, l, (let? o := r in Ok (first_commit o)), notified).

Definition rollback_claim (a : AuthorityState) (l : LootClaimLease) : LeaseAct bool :=
  if negb (status l =? LEASE_ACTIVE) then (a, l, false, false)
  else if persists a l then (a, l, false, false)
  else
    let was_removed := current a l && reserved a l in
    let a := if was_removed
             then a <| reservations := delete (lease_key l) (reservations a) |> else a in
    let a := if persists a l
             then a <| persisting := delete (lease_key l) (persisting a) |> else a in
    (finalize_closed_state_if_drained a, l <| status := LEASE_ROLLED_BACK |>, was_removed,
     was_removed).
