(* ===== verification/LootSystem.v ===== *)
(** The loot authority as a transition system: its state, the leases handed out,
    the persistence guards still open, the version its waiters watch, and a log of
    what was installed and first committed. *)
From S2P Require Import Prelude Guid LootModel LootAuthority.

(** * The system *)

(** One first commit: what the claim took, and from which generation. *)
Record LootCommit : Type := mkLootCommit {
  commit_key : ReservationKey;
  commit_generation : Z;
  commit_player : ObjectGuid;
  commit_payload : LootClaimPayload }.

(** [leases] is indexed by token.  [guards] holds the tokens of the unresolved
    [LootClaimPersistenceGuard]s.  [changed] is the value of the watch channel.
    [installs] and [commits] are ghost state. *)
Record LootSystem : Type := mkLootSystem {
  authority : AuthorityState;
  leases : gmap Z LootClaimLease;
  guards : gset Z;
  changed : Z;
  installs : list (OwnedLootScope * Z * Z);
  commits : list LootCommit }.

#[export] Instance eta_loot_system : Eta LootSystem := fun s =>
  mkLootSystem (authority s) (leases s) (guards s) (changed s) (installs s) (commits s).

Definition initial_loot (a : AuthorityState) : LootSystem := mkLootSystem a ∅ ∅ 0 [] [].

(** [notify_changed]: [*version = version.wrapping_add(1)]. *)
Definition notify (notified : bool) (s : LootSystem) : LootSystem :=
  if notified then s <| changed := u64 (changed s + 1) |> else s.

(** The pools that have an epoch in [a'] they did not have in [a], with their
    coins. *)
Definition new_pools (a a' : AuthorityState) : list (OwnedLootScope * Z * Z) :=
  omap (fun se : OwnedLootScope * Z =>
          if bool_decide (scope_epochs a !! se.1 = Some se.2) then None
          else Some (se.1, se.2, default 0 (coins <$> loot_for_scope a' se.1)))
       (map_to_list (scope_epochs a')).

Definition set_authority (a' : AuthorityState) (s : LootSystem) : LootSystem :=
  (s <| installs := installs s ++ new_pools (authority s) a' |>) <| authority := a' |>.

(** An operation on the authority alone. *)
Definition on_authority {A} (r : Act A) (s : LootSystem) : LootSystem :=
  let '(a, _, notified) := r in notify notified (set_authority a s).

Definition add_lease (l : LootClaimLease) (s : LootSystem) : LootSystem :=
  s <| leases := <[lease_token l := l]> (leases s) |>.

(** An operation that may hand out a lease. *)
Definition on_reserve {E} (r : Act (result LootClaimLease E)) (s : LootSystem) : LootSystem :=
  let '(_, x, _) := r in
  let s := on_authority r s in
  match x with Ok l => add_lease l s | Err _ => s end.

Definition on_attempt {E} (r : Act (option (result LootClaimLease E))) (s : LootSystem) :
    LootSystem :=
  let '(_, x, _) := r in
  let s := on_authority r s in
  match x with Some (Ok l) => add_lease l s | _ => s end.

(** An operation on the authority and a lease. *)
Definition on_lease {A} (r : LeaseAct A) (s : LootSystem) : LootSystem :=
  let '(a, l, x, notified) := r in add_lease l (on_authority (a, x, notified) s).

Definition log_commit (l : LootClaimLease) (s : LootSystem) : LootSystem :=
  s <| commits := commits s ++
    [mkLootCommit (lease_key l) (lease_generation l) (lease_player l) (lease_payload l)] |>.

Definition commit_lease (l : LootClaimLease) (owner : bool) (s : LootSystem) : LootSystem :=
  let r := commit_claim_with_snapshot (authority s) l owner in
  let '(_, _, x, _) := r in
  let s := on_lease r s in
  match x with
  | Ok o => if first_commit o then log_commit l s else s
  | Err _ => s
  end.

(** [LootClaimPersistenceGuard::commit_with_snapshot_like_cpp]: a success
    resolves the guard. *)
Definition guard_commit (l : LootClaimLease) (s : LootSystem) : LootSystem :=
  let '(_, _, x, _) := commit_claim_with_snapshot (authority s) l true in
  let s := commit_lease l true s in
  match x with
  | Ok _ => s <| guards := guards s ∖ {[lease_token l]} |>
  | Err _ => s
  end.

(** [quarantine_commit_unknown_like_cpp]. *)
Definition guard_quarantine (l : LootClaimLease) (s : LootSystem) : LootSystem :=
  let r := quarantine_claim_persistence_commit_unknown (authority s) l in
  let '(_, _, done, _) := r in
  let s := on_lease r s in
  if done : bool then s <| guards := guards s ∖ {[lease_token l]} |> else s.

(** [Drop for LootClaimPersistenceGuard] of an unresolved guard. *)
Definition guard_drop (l : LootClaimLease) (s : LootSystem) : LootSystem :=
  let s := on_lease (abort_claim_persistence (authority s) l) s in
  s <| guards := guards s ∖ {[lease_token l]} |>.

(** [begin_persistence_guard_like_cpp]. *)
Definition begin_guard (l : LootClaimLease) (s : LootSystem) : LootSystem :=
  let r := begin_claim_persistence (authority s) l in
  let '(_, _, x, _) := r in
  let s := on_lease r s in
  match x with
  | Ok _ => s <| guards := {[lease_token l]} ∪ guards s |>
  | Err _ => s
  end.

(** * Operations

    Operations on a lease name it by its token; the ones on a guard need it to be
    open.  Dropping the last clone of a lease is a rollback. *)
Inductive LootOp : Type :=
| LDetach
| LDetachIfStamp (expected : OwnedLootAuthorityStamp)
| LInitialize (shared : option CreatureLoot) (personal : gmap ObjectGuid CreatureLoot)
| LReplaceRetired (expected : Z) (shared : option CreatureLoot)
    (personal : gmap ObjectGuid CreatureLoot)
| LReplace (shared : option CreatureLoot) (personal : gmap ObjectGuid CreatureLoot)
| LInitializeShared (loot : CreatureLoot)
| LUpsertPersonal (player : ObjectGuid) (loot : CreatureLoot) (replace : bool)
| LRetire
| LOpenView (player : ObjectGuid)
    (publish : OwnedLootSnapshot -> LootViewerOpenOutcome -> bool)
| LRemoveViewer (player : ObjectGuid)
| LRemoveViewerIf (expected : Z) (player : ObjectGuid)
| LCloseViewer (expected : Z) (player : ObjectGuid)
| LClearRoundRobin (expected : Z) (player : ObjectGuid)
| LFinishRoll (player : ObjectGuid) (expected id : Z) (threshold : bool)
    (winner : option ObjectGuid)
| LFinishRollAndAward (scope_player : ObjectGuid) (expected id : Z) (winner : ObjectGuid)
| LReserveItem (player : ObjectGuid) (id : Z) (mode : LootItemClaimMode) (expected : option Z)
| LReserveMoney (player : ObjectGuid) (expected : option Z)
| LCommit (token : Z)
| LRollback (token : Z)
| LBegin (token : Z)
| LGuardCommit (token : Z)
| LGuardQuarantine (token : Z)
| LGuardDrop (token : Z).

Definition with_lease (token : Z) (f : LootClaimLease -> LootSystem -> LootSystem)
    (s : LootSystem) : LootSystem :=
  match leases s !! token with Some l => f l s | None => s end.

Definition with_guard (token : Z) (f : LootClaimLease -> LootSystem -> LootSystem)
    (s : LootSystem) : LootSystem :=
  if bool_decide (token ∈ guards s) then with_lease token f s else s.

Section System.
Context {Ord : IterOrder ObjectGuid}.

Definition loot_exec (op : LootOp) (s : LootSystem) : LootSystem :=
  let a := authority s in
  match op with
  | LDetach => on_authority (detach_like_cpp a) s
  | LDetachIfStamp e => on_authority (detach_if_stamp_like_cpp e a) s
  | LInitialize sh ps => on_authority (initialize_like_cpp sh ps a) s
  | LReplaceRetired e sh ps => on_authority (replace_retired_generation_like_cpp e sh ps a) s
  | LReplace sh ps => on_authority (replace_like_cpp sh ps a) s
  | LInitializeShared loot => on_authority (initialize_shared_like_cpp loot a) s
  | LUpsertPersonal p loot r => on_authority (upsert_personal_like_cpp p loot r a) s
  | LRetire => on_authority (retire_like_cpp a) s
  | LOpenView p publish =>
      on_authority (try_open_view_with_snapshot_like_cpp p
        (fun x o => if publish x o then Some tt else None) a) s
  | LRemoveViewer p => on_authority (remove_viewer_like_cpp p a) s
  | LRemoveViewerIf e p => on_authority (remove_viewer_if_generation_like_cpp e p a) s
  | LCloseViewer e p => on_authority (close_viewer_if_generation_like_cpp e p a) s
  | LClearRoundRobin e p => on_authority (clear_round_robin_if_generation_like_cpp e p a) s
  | LFinishRoll p e id t w => on_authority (finish_item_roll_like_cpp p e id t w a) s
  | LFinishRollAndAward p e id w =>
      on_reserve (finish_item_roll_and_reserve_award_like_cpp p e id w a) s
  | LReserveItem p id mode e => on_attempt (reserve_item_with_mode_like_cpp p id mode e a) s
  | LReserveMoney p e => on_attempt (reserve_money_for_optional_generation_like_cpp p e a) s
  | LCommit t => with_lease t (fun l => commit_lease l false) s
  | LRollback t => with_lease t (fun l s => on_lease (rollback_claim (authority s) l) s) s
  | LBegin t => with_lease t begin_guard s
  | LGuardCommit t => with_guard t guard_commit s
  | LGuardQuarantine t => with_guard t guard_quarantine s
  | LGuardDrop t => with_guard t guard_drop s
  end.

(** [add_allowed_looter_like_cpp] never adds the empty guid: an entry names
    players only. *)
Definition entry_ok (e : LootEntry) : Prop := EMPTY ∉ entry_allowed_looters e.
Definition loot_ok (l : CreatureLoot) : Prop := Forall entry_ok (items l).

(** Every pool an operation installs is well-formed. *)
Definition loot_op_ok (op : LootOp) : Prop :=
  match op with
  | LInitialize sh ps | LReplaceRetired _ sh ps | LReplace sh ps =>
      (forall l, sh = Some l -> loot_ok l) /\ map_Forall (fun _ => loot_ok) ps
  | LInitializeShared l | LUpsertPersonal _ l _ => loot_ok l
  | _ => True
  end.

(** The states reachable from a new authority or a tombstone in [n] operations. *)
Inductive loot_reachable : nat -> LootSystem -> Prop :=
| loot_reach_new : loot_reachable 0 (initial_loot new_like_cpp)
| loot_reach_tombstone : loot_reachable 0 (initial_loot new_retired_tombstone_like_cpp)
| loot_reach_step n s op :
    loot_reachable n s -> loot_op_ok op -> loot_reachable (S n) (loot_exec op s).
End System.
