(* ===== verification/LootInvariant.v ===== *)
(** The invariant of the loot authority and of its leases: how every operation
    changes the claims that are still open. *)
From S2P Require Import Prelude Guid LootModel LootAuthority LootSystem.

(** * Pools *)

Section AlterFirst.
Context {A : Type} (key : A -> Z) (f : A -> A).
Hypothesis f_key : forall x, key (f x) = key x.

Lemma find_alter_first id id' l :
  List.find (fun e => key e =? id) (alter_first (fun e => key e =? id') f l)
  = if id =? id' then f <$> List.find (fun e => key e =? id) l
    else List.find (fun e => key e =? id) l.
Proof.
  induction l as [|x l IH]; simpl.
  - by destruct (id =? id').
  - destruct (Z.eqb_spec (key x) id') as [E|E]; simpl; rewrite ?f_key.
    + destruct (Z.eqb_spec (key x) id), (Z.eqb_spec id id'); simpl; congruence.
    + rewrite IH. destruct (Z.eqb_spec (key x) id), (Z.eqb_spec id id'); simpl; congruence.
Qed.
End AlterFirst.

Lemma alter_first_Forall {A} (P : A -> Prop) p f (l : list A) :
  (forall x, P x -> P (f x)) -> Forall P l -> Forall P (alter_first p f l).
Proof. intros Hf. induction 1; simpl; [done|]. destruct (p x); auto. Qed.

Lemma contains_spec p l : contains p l = true <-> p ∈ l.
Proof. apply bool_decide_eq_true. Qed.

(** The claim key of item [id] of pool [s] for a player. *)
Definition item_key (s : OwnedLootScope) (id : Z) (ffa : bool) (p : ObjectGuid) : ReservationKey :=
  KeyItem (mkClaimKey s id (if ffa then Some p else None)).

(** What may happen to an entry while the claims other than [ex] stay as they
    are: it keeps its looters and kind, and only [ex] becomes looted. *)
Record entry_evolves (ex : option ReservationKey) (s : OwnedLootScope) (id : Z)
    (e e' : LootEntry) : Prop := {
  ee_ffa : freeforall (flags e') = freeforall (flags e);
  ee_looters : entry_allowed_looters e' = entry_allowed_looters e;
  ee_mono p : is_looted_for_player_like_cpp p e = true ->
              is_looted_for_player_like_cpp p e' = true;
  ee_others p : ex <> Some (item_key s id (freeforall (flags e)) p) ->
                is_looted_for_player_like_cpp p e' = is_looted_for_player_like_cpp p e }.

Record loot_evolves (ex : option ReservationKey) (s : OwnedLootScope)
    (l l' : CreatureLoot) : Prop := {
  le_items id : match item_like_cpp id l, item_like_cpp id l' with
                | Some e, Some e' => entry_evolves ex s id e e'
                | None, None => True
                | _, _ => False
                end;
  le_coins : ex <> Some (KeyMoney s) -> coins l' = coins l;
  le_ok : loot_ok l -> loot_ok l' }.

Lemma entry_evolves_refl ex s id e : entry_evolves ex s id e e.
Proof. by split. Qed.
#[export] Hint Resolve entry_evolves_refl : core.

Lemma loot_evolves_refl ex s l : loot_evolves ex s l l.
Proof. split; auto. intros id. by destruct (item_like_cpp id l). Qed.
#[export] Hint Resolve loot_evolves_refl : core.

(** A change of the other fields. *)
Lemma loot_evolves_fields ex s l l' :
  items l' = items l -> coins l' = coins l -> loot_evolves ex s l l'.
Proof.
  intros Hi Hc. split; [|done|unfold loot_ok; by rewrite Hi].
  intros id. unfold item_like_cpp. rewrite Hi. by destruct (List.find _ _).
Qed.

(** A change of the first entry of an id. *)
Lemma loot_evolves_alter ex s id f l l' :
  (forall e, loot_list_id (f e) = loot_list_id e) ->
  (forall e, item_like_cpp id l = Some e -> entry_evolves ex s id e (f e)) ->
  (forall e, entry_allowed_looters (f e) = entry_allowed_looters e) ->
  items l' = alter_first (fun e => loot_list_id e =? id) f (items l) ->
  coins l' = coins l -> loot_evolves ex s l l'.
Proof.
  intros Hid Hf Hl Hi Hc. split; [|done|].
  - intros id'. unfold item_like_cpp in *. rewrite Hi, (find_alter_first loot_list_id) by done.
    destruct (Z.eqb_spec id' id) as [->|].
    + destruct (List.find (fun e => loot_list_id e =? id) (items l)); simpl; auto.
    + destruct (List.find (fun e => loot_list_id e =? id') (items l)); auto.
  - unfold loot_ok. rewrite Hi. apply alter_first_Forall. intros e. unfold entry_ok. by rewrite Hl.
Qed.

Lemma open_pool_evolves ex s p l : loot_evolves ex s l (open_pool p l).
Proof.
  apply loot_evolves_fields; unfold open_pool; destruct (looted_by_player l);
    ssimpl_goal; destruct (contains _ _); done.
Qed.

Lemma remove_viewer_evolves ex s p l : loot_evolves ex s l (remove_viewer p l).
Proof. by apply loot_evolves_fields. Qed.

Lemma finish_loot_evolves ex s id t w l : loot_evolves ex s l (finish_loot id t w l).
Proof.
  eapply (loot_evolves_alter _ _ id (finish_entry t w)); try done.
Qed.

Lemma mark_entry_evolves s id p e :
  entry_evolves (Some (item_key s id (freeforall (flags e)) p)) s id e
    (mark_looted_for_player_like_cpp p e).
Proof.
  unfold mark_looted_for_player_like_cpp, is_looted_for_player_like_cpp, item_key.
  destruct (freeforall (flags e)) eqn:F; ssimpl_goal.
  - destruct (negb (is_empty p) && negb (contains p (ffa_looted_by e))); [|by split].
    split; ssimpl_goal; try done.
    + intros q. unfold is_looted_for_player_like_cpp. ssimpl_goal. rewrite F, !contains_spec.
      set_solver.
    + intros q Hq. unfold is_looted_for_player_like_cpp. ssimpl_goal. rewrite F in *.
      apply bool_decide_ext. rewrite elem_of_app, list_elem_of_singleton.
      assert (q <> p) by (by intros ->). naive_solver.
  - split; ssimpl_goal; try done; intros q; unfold is_looted_for_player_like_cpp; ssimpl_goal;
      rewrite F in *; [done|]. intros Hq. by destruct Hq.
Qed.

(** [mark_item_looted_for_player_like_cpp], on an item not yet looted. *)
Lemma mark_item_spec id p l e :
  item_like_cpp id l = Some e -> is_looted_for_player_like_cpp p e = false ->
  exists l', mark_item_looted_for_player_like_cpp id p l = (l', true)
    /\ items l' = alter_first (fun e => loot_list_id e =? id)
                    (mark_looted_for_player_like_cpp p) (items l)
    /\ coins l' = coins l
    /\ unlooted_count l' = sat_sub (unlooted_count l) 1.
Proof.
  intros He Hl. unfold mark_item_looted_for_player_like_cpp. rewrite He, Hl.
  eexists. split; [reflexivity|]. destruct (freeforall (flags e)); ssimpl_goal; done.
Qed.

Lemma mark_looted_id p e :
  loot_list_id (mark_looted_for_player_like_cpp p e) = loot_list_id e.
Proof. unfold mark_looted_for_player_like_cpp. by repeat case_match. Qed.

Lemma mark_looted_looters p e :
  entry_allowed_looters (mark_looted_for_player_like_cpp p e) = entry_allowed_looters e.
Proof. unfold mark_looted_for_player_like_cpp. by repeat case_match. Qed.

Lemma mark_item_evolves s id p l e :
  item_like_cpp id l = Some e ->
  loot_evolves (Some (item_key s id (freeforall (flags e)) p)) s l
    (mark_item_looted_for_player_like_cpp id p l).1.
Proof.
  intros He. destruct (is_looted_for_player_like_cpp p e) eqn:Hl.
  - unfold mark_item_looted_for_player_like_cpp. rewrite He, Hl. simpl. auto.
  - destruct (mark_item_spec id p l e He Hl) as (l' & -> & Hi & Hc & _). simpl.
    eapply (loot_evolves_alter _ _ id); eauto using mark_looted_id, mark_looted_looters.
    intros e' He'. rewrite He in He'. simplify_eq. apply mark_entry_evolves.
Qed.

(** After the mark the item is looted, unless the player is nobody. *)
Lemma mark_item_looted id p l e :
  is_empty p = false -> item_like_cpp id l = Some e ->
  is_looted_for_player_like_cpp p e = false ->
  exists e', item_like_cpp id (mark_item_looted_for_player_like_cpp id p l).1 = Some e'
    /\ freeforall (flags e') = freeforall (flags e)
    /\ is_looted_for_player_like_cpp p e' = true.
Proof.
  intros Hp He Hl. destruct (mark_item_spec id p l e He Hl) as (l' & -> & Hi & _ & _). simpl.
  unfold item_like_cpp in *.
  rewrite Hi, (find_alter_first loot_list_id _ (mark_looted_id p)), Z.eqb_refl, He. simpl.
  eexists. split; [done|]. revert Hl.
  unfold mark_looted_for_player_like_cpp, is_looted_for_player_like_cpp.
  destruct (freeforall (flags e)) eqn:F; intros Hl.
  - rewrite Hp, Hl. ssimpl_goal. rewrite F. split; [done|]. apply contains_spec. set_solver.
  - ssimpl_goal. by rewrite F.
Qed.

(** * States *)

(** The token of a claim that can still resolve: of a reservation while the
    authority is open, of a persisting claim always. *)
Definition live (a : AuthorityState) (k : ReservationKey) (t : Z) : Prop :=
  (retired a = false /\ reservations a !! k = Some t) \/ persisting a !! k = Some t.

Record state_inv (a : AuthorityState) : Prop := {
  si_closed : detached a = true \/ quarantined a = true -> retired a = true;
  si_pristine : generation a = 0 -> retired a = true /\ persisting a = ∅;
  si_generation : 0 <= generation a;
  si_drained : retired a = true -> persisting a = ∅ ->
    shared a = None /\ personal a = ∅ /\ scope_epochs a = ∅ /\ reservations a = ∅;
  si_subset k t : persisting a !! k = Some t -> reservations a !! k = Some t;
  si_live_key k t : live a k t -> is_Some (scope_epochs a !! reservation_scope k);
  si_epochs s e : scope_epochs a !! s = Some e ->
    1 <= e < next_scope_epoch_field a /\ is_Some (loot_for_scope a s);
  si_ok s l : loot_for_scope a s = Some l -> loot_ok l }.

(** [a] becomes [a'] while every open claim but [ex] stays claimable, and [ex]
    is released. *)
Record evolves (ex : option ReservationKey) (a a' : AuthorityState) : Prop := {
  ev_token : next_token_field a' = next_token_field a;
  ev_next : next_scope_epoch_field a <= next_scope_epoch_field a';
  ev_persisting k : ex <> Some k -> persisting a' !! k = persisting a !! k;
  ev_excluded k : ex = Some k -> persisting a' !! k = None /\ reservations a' !! k = None;
  ev_live k t : live a' k t ->
    live a k t /\ scope_epochs a' !! reservation_scope k = scope_epochs a !! reservation_scope k;
  ev_epochs s e : scope_epochs a' !! s = Some e ->
    scope_epochs a !! s = Some e \/ next_scope_epoch_field a <= e;
  ev_pools s e l : scope_epochs a' !! s = Some e -> scope_epochs a !! s = Some e ->
    loot_for_scope a s = Some l ->
    exists l', loot_for_scope a' s = Some l' /\ loot_evolves ex s l l' }.

Lemma evolves_refl a : evolves None a a.
Proof. split; eauto; done. Qed.

(** ** Counters *)
Lemma next_nonzero_pos x : 1 <= next_nonzero x.
Proof. unfold next_nonzero. lia. Qed.

Lemma next_nonzero_small x : 0 <= x < u64_max -> next_nonzero x = x + 1.
Proof. intros ?. unfold next_nonzero. rewrite wrap_u_id; [lia|]. unfold in_u, u64_max in *. lia. Qed.

(** ** Writes to one pool *)
Lemma loot_for_update s s' f a :
  loot_for_scope (update_loot s f a) s'
  = if bool_decide (s = s') then f <$> loot_for_scope a s' else loot_for_scope a s'.
Proof.
  case_bool_decide as E.
  - subst s'. destruct s; simpl; [done|apply lookup_alter_eq].
  - destruct s, s'; simpl; try done. apply lookup_alter_ne. congruence.
Qed.

Lemma update_loot_frame s f a :
  let a' := update_loot s f a in
  retired a' = retired a /\ generation a' = generation a /\ detached a' = detached a
  /\ quarantined a' = quarantined a
  /\ scope_epochs a' = scope_epochs a /\ next_scope_epoch_field a' = next_scope_epoch_field a
  /\ reservations a' = reservations a /\ persisting a' = persisting a
  /\ next_token_field a' = next_token_field a /\ lifecycle_revision a' = lifecycle_revision a.
Proof. destruct s; simpl; repeat split. Qed.

(** The fields of [update_loot s f a] other than the pools. *)
Ltac frame_update :=
  repeat match goal with
  | H : context [update_loot ?s ?f ?a] |- _ =>
      let R := fresh in pose proof (update_loot_frame s f a) as R; simpl in R;
      destruct R as (Rr & Rg & Rd & Rq & Re & Rn & Rv & Rp & Rt & Rl);
      rewrite ?Rr, ?Rg, ?Rd, ?Rq, ?Re, ?Rn, ?Rv, ?Rp, ?Rt, ?Rl in H;
      clear Rr Rg Rd Rq Re Rn Rv Rp Rt Rl
  | |- context [update_loot ?s ?f ?a] =>
      let R := fresh in pose proof (update_loot_frame s f a) as R; simpl in R;
      destruct R as (Rr & Rg & Rd & Rq & Re & Rn & Rv & Rp & Rt & Rl);
      progress rewrite ?Rr, ?Rg, ?Rd, ?Rq, ?Re, ?Rn, ?Rv, ?Rp, ?Rt, ?Rl;
      clear Rr Rg Rd Rq Re Rn Rv Rp Rt Rl
  end.

Lemma live_update s f a k t : live (update_loot s f a) k t <-> live a k t.
Proof. unfold live. frame_update. done. Qed.

Section UpdatePool.
Variables (a : AuthorityState) (s : OwnedLootScope) (f : CreatureLoot -> CreatureLoot)
  (ex : option ReservationKey).
Hypothesis f_evolves : forall l, loot_for_scope a s = Some l -> loot_evolves ex s l (f l).

Lemma update_pool_state : state_inv a -> state_inv (update_loot s f a).
Proof.
  intros [H1 H2 H3 H4 H5 H6 H7 H8]. split; frame_update; auto.
  - intros Hr Hp. destruct (H4 Hr Hp) as (Hs & Hps & He & Hv).
    destruct s; simpl; rewrite ?Hs, ?Hps; repeat split; done.
  - intros k t. rewrite live_update. apply H6.
  - intros s' e He. rewrite loot_for_update. destruct (H7 s' e He) as [? [l Hl]].
    split; [done|]. rewrite Hl. case_bool_decide; eauto.
  - intros s' l. rewrite loot_for_update. case_bool_decide; [|apply H8]. subst s'.
    destruct (loot_for_scope a s) as [l0|] eqn:E; simpl; [|done]. intros [= <-].
    apply (f_evolves l0 eq_refl), (H8 s l0), E.
Qed.

Lemma update_pool_evolves :
  (forall k, ex = Some k -> persisting a !! k = None /\ reservations a !! k = None) ->
  evolves ex a (update_loot s f a).
Proof.
  intros Hex. split; frame_update; try done; auto.
  - intros k t. by rewrite live_update.
  - intros s' e l _ _ Hl. rewrite loot_for_update, Hl. case_bool_decide; [|eauto]. subst s'.
    exists (f l). auto.
Qed.
End UpdatePool.
