(* ===== verification/LootSteps.v ===== *)
(** Every operation of the loot authority keeps the state invariant, and leaves
    the claims of others as they are (LootInvariant.v). *)
From S2P Require Import Prelude Guid LootModel LootAuthority LootSystem LootInvariant.

(** A step that keeps every claim open or drops it by its epoch. *)
Definition keeps (a a' : AuthorityState) : Prop := state_inv a' /\ evolves None a a'.

Lemma keeps_refl a : state_inv a -> keeps a a.
Proof. split; [done|apply evolves_refl]. Qed.
#[export] Hint Resolve keeps_refl : core.

(** * Closing *)

Lemma finalize_open a :
  retired a = false \/ persisting a <> ∅ -> finalize_closed_state_if_drained a = a.
Proof.
  unfold finalize_closed_state_if_drained. intros [->|Hp]; [done|].
  rewrite (bool_decide_false (persisting a = ∅)) by done. by rewrite orb_true_r.
Qed.

Lemma finalize_drained a :
  retired a = true -> persisting a = ∅ ->
  finalize_closed_state_if_drained a
  = ((((a <| shared := None |>) <| personal := ∅ |>) <| scope_epochs := ∅ |>)
       <| reservations := ∅ |>).
Proof.
  unfold finalize_closed_state_if_drained. intros -> Hp.
  by rewrite (bool_decide_true (persisting a = ∅)).
Qed.

(** Draining a closed authority keeps the invariant. *)
Lemma finalize_state a :
  retired a = true -> 1 <= generation a -> (forall k t, persisting a !! k = Some t ->
    reservations a !! k = Some t) ->
  (forall k t, persisting a !! k = Some t -> is_Some (scope_epochs a !! reservation_scope k)) ->
  (forall s e, scope_epochs a !! s = Some e ->
     1 <= e < next_scope_epoch_field a /\ is_Some (loot_for_scope a s)) ->
  (forall s l, loot_for_scope a s = Some l -> loot_ok l) ->
  state_inv (finalize_closed_state_if_drained a).
Proof.
  intros Hr Hg Hs Hk He Ho. destruct (decide (persisting a = ∅)) as [Hp|Hp].
  - rewrite finalize_drained by done. split; ssimpl_goal; try done; try lia.
    + rewrite Hp. intros k t. by rewrite lookup_empty.
    + intros k t [[E ?]|E]; ssimpl; [congruence|]. by rewrite Hp, lookup_empty in E.
    + intros [|p] l; ssimpl_goal; [done|by rewrite lookup_empty].
  - rewrite finalize_open by auto. split; try done; try lia.
    intros k t [[E ?]|E]; [congruence|eauto].
Qed.

Lemma finalize_evolves ex a a' :
  retired a' = true -> persisting a' = persisting a -> ex = None ->
  next_token_field a' = next_token_field a ->
  next_scope_epoch_field a' = next_scope_epoch_field a ->
  scope_epochs a' = scope_epochs a -> shared a' = shared a -> personal a' = personal a ->
  evolves ex a (finalize_closed_state_if_drained a').
Proof.
  intros Hr Hp -> Ht Hn He Hs Hps. destruct (decide (persisting a' = ∅)) as [Hd|Hd].
  - rewrite finalize_drained by done. split; ssimpl_goal; rewrite ?Ht, ?Hn; try done.
    + intros k _. by rewrite Hp.
    + intros k t [[E ?]|E]; ssimpl; [congruence|]. by rewrite Hd, lookup_empty in E.
  - rewrite finalize_open by auto. split; rewrite ?Ht, ?Hn; try done.
    + intros k _. by rewrite Hp.
    + intros k t [[E ?]|E]; [congruence|]. rewrite Hp in E. split; [by right|]. by rewrite He.
    + intros s e. rewrite He. auto.
    + intros s e l _ _. exists l. split; [|auto].
      destruct s; unfold loot_for_scope in *; congruence.
Qed.

(** The state a retirement, a detach or a quarantine goes through. *)
Definition closing (gen : Z) (det quar : bool) (a : AuthorityState) : AuthorityState :=
  ((((a <| generation := gen |>) <| retired := true |>) <| detached := det |>)
     <| quarantined := quar |>).

Lemma closing_keeps gen det quar a :
  1 <= gen -> state_inv a ->
  keeps a (finalize_closed_state_if_drained
             (retain_only_persisting_reservations (closing gen det quar a))).
Proof.
  intros Hg [H1 H2 H3 H4 H5 H6 H7 H8]. split.
  - apply finalize_state; ssimpl_goal; try done.
    + intros k t E. apply map_lookup_filter_Some. split; [by apply H5|done].
    + intros k t E. apply (H6 k t). by right.
  - by apply finalize_evolves.
Qed.

Lemma detach_keeps a : state_inv a -> keeps a (detach_like_cpp a).1.1.
Proof.
  intros H. unfold detach_like_cpp. destruct (detached a); [by apply keeps_refl|].
  apply (closing_keeps _ true false a); [apply next_nonzero_pos|done].
Qed.

Lemma detach_if_stamp_keeps e a : state_inv a -> keeps a (detach_if_stamp_like_cpp e a).1.1.
Proof.
  intros H. unfold detach_if_stamp_like_cpp. case_match; [by apply keeps_refl|].
  destruct (detached a); [by apply keeps_refl|].
  apply (closing_keeps _ true false a); [apply next_nonzero_pos|done].
Qed.

Lemma retire_keeps a : state_inv a -> keeps a (retire_like_cpp a).1.1.
Proof.
  intros H. unfold retire_like_cpp. case_match; [by apply keeps_refl|].
  apply (closing_keeps _ (detached a) (quarantined a) a); [apply next_nonzero_pos|done].
Qed.

(** * Installing *)

Lemma install_scope_epochs_spec epoch a s e :
  scope_epochs (install_all_scope_epochs epoch a) !! s = Some e <->
  e = epoch /\ is_Some (loot_for_scope a s).
Proof.
  unfold install_all_scope_epochs. ssimpl_goal.
  assert (Hf : forall ps (m : gmap OwnedLootScope Z),
    foldl (fun m p => <[Personal p := epoch]> m) m ps !! s = Some e
    <-> (exists p, s = Personal p /\ p ∈ ps /\ e = epoch)
        \/ (m !! s = Some e /\ forall p, s = Personal p -> p ∉ ps)).
  { induction ps as [|p ps IH]; intros m; simpl; [set_solver|].
    rewrite IH. destruct (decide (s = Personal p)) as [->|Hn].
    - rewrite lookup_insert_eq. destruct (decide (p ∈ ps)); set_solver.
    - rewrite lookup_insert_ne by done. set_solver. }
  rewrite Hf. clear Hf.
  assert (Hps : forall p, p ∈ (map_to_list (personal a)).*1 <-> is_Some (personal a !! p)).
  { intros p. rewrite list_elem_of_fmap. split.
    - intros ([? l] & -> & Hin%elem_of_map_to_list). eauto.
    - intros [l Hl]. exists (p, l). split; [done|]. by apply elem_of_map_to_list. }
  setoid_rewrite Hps. destruct s as [|p]; simpl.
  - case_bool_decide; rewrite ?lookup_insert_eq, ?lookup_empty; naive_solver.
  - case_bool_decide; rewrite ?lookup_insert_ne, ?lookup_empty by done; naive_solver.
Qed.

Section Install.
Variables (gen : Z) (sh : option CreatureLoot) (ps : gmap ObjectGuid CreatureLoot)
  (a : AuthorityState).
Hypotheses (Hgen : 1 <= gen) (Hsh : forall l, sh = Some l -> loot_ok l)
  (Hps : map_Forall (fun _ => loot_ok) ps)
  (Hopen : detached a = false /\ quarantined a = false) (Hp : persisting a = ∅)
  (Hnext : 1 <= next_scope_epoch_field a < u64_max) (Ha : state_inv a).

Lemma install_epochs s e :
  scope_epochs (install_pools gen sh ps a).1 !! s = Some e ->
  e = next_scope_epoch_field a /\ is_Some (loot_for_scope (install_pools gen sh ps a).1 s).
Proof. intros [-> Hl]%install_scope_epochs_spec. done. Qed.

Lemma install_keeps : keeps a (install_pools gen sh ps a).1.
Proof.
  destruct Hopen as [Hd Hq].
  assert (Hn : next_scope_epoch_field (install_pools gen sh ps a).1
               = next_scope_epoch_field a + 1) by (apply (next_nonzero_small (next_scope_epoch_field a)); lia).
  split; split.
  - change (detached a = true \/ quarantined a = true -> false = true). naive_solver congruence.
  - simpl. lia.
  - simpl. lia.
  - done.
  - intros k t. change ((∅ : gmap ReservationKey Z) !! k = Some t -> (∅ : gmap ReservationKey Z) !! k = Some t). done.
  - intros k t [[_ E]|E]; [change ((∅ : gmap ReservationKey Z) !! k = Some t) in E
                          |change ((∅ : gmap ReservationKey Z) !! k = Some t) in E];
      by rewrite lookup_empty in E.
  - intros s e [-> Hl]%install_epochs. rewrite Hn. split; [lia|done].
  - intros [|p] l E; [by apply Hsh|by apply (Hps p)].
  - done.
  - rewrite Hn. lia.
  - intros k _. rewrite Hp. done.
  - done.
  - intros k t [[_ E]|E]; [change ((∅ : gmap ReservationKey Z) !! k = Some t) in E
                          |change ((∅ : gmap ReservationKey Z) !! k = Some t) in E];
      by rewrite lookup_empty in E.
  - intros s e [-> _]%install_epochs. right. done.
  - intros s e l [-> _]%install_epochs He. apply (si_epochs a Ha) in He. lia.
Qed.
End Install.

(** The guards of the installs. *)
Ltac split_guards H :=
  repeat (apply orb_false_iff in H as [H ?]);
  repeat match goal with
  | E : negb (bool_decide _) = false |- _ =>
      apply negb_false_iff, bool_decide_eq_true in E
  | E : negb _ = false |- _ => apply negb_false_iff in E
  end.

Lemma initialize_keeps sh ps a :
  (forall l, sh = Some l -> loot_ok l) -> map_Forall (fun _ => loot_ok) ps ->
  1 <= next_scope_epoch_field a < u64_max -> state_inv a ->
  keeps a (initialize_like_cpp sh ps a).1.1.
Proof.
  intros Hsh Hps Hn Ha. unfold initialize_like_cpp, initialize_pristine_like_cpp.
  case_match eqn:G; [by apply keeps_refl|]. split_guards G.
  apply install_keeps; auto; lia.
Qed.

Lemma replace_retired_keeps e sh ps a :
  (forall l, sh = Some l -> loot_ok l) -> map_Forall (fun _ => loot_ok) ps ->
  1 <= next_scope_epoch_field a < u64_max -> state_inv a ->
  keeps a (replace_retired_generation_like_cpp e sh ps a).1.1.
Proof.
  intros Hsh Hps Hn Ha. unfold replace_retired_generation_like_cpp.
  case_match eqn:G; [by apply keeps_refl|]. split_guards G.
  apply install_keeps; auto. apply next_nonzero_pos.
Qed.

Lemma replace_keeps sh ps a :
  (forall l, sh = Some l -> loot_ok l) -> map_Forall (fun _ => loot_ok) ps ->
  1 <= next_scope_epoch_field a < u64_max -> state_inv a ->
  keeps a (replace_like_cpp sh ps a).1.1.
Proof.
  intros Hsh Hps Hn Ha. unfold replace_like_cpp.
  case_match eqn:G; [by apply keeps_refl|]. split_guards G.
  apply install_keeps; auto. apply next_nonzero_pos.
Qed.

(** ** One pool at a time *)

Lemma entry_evolves_trans ex s id e1 e2 e3 :
  entry_evolves ex s id e1 e2 -> entry_evolves ex s id e2 e3 -> entry_evolves ex s id e1 e3.
Proof.
  intros [F1 L1 M1 O1] [F2 L2 M2 O2]. split; [congruence|congruence|auto|].
  intros p Hp. rewrite O2; [by apply O1|]. by rewrite F1.
Qed.

Lemma loot_evolves_trans ex s l1 l2 l3 :
  loot_evolves ex s l1 l2 -> loot_evolves ex s l2 l3 -> loot_evolves ex s l1 l3.
Proof.
  intros [I1 C1 K1] [I2 C2 K2]. split; [|intros Hex; by rewrite C2, C1|auto].
  intros id. specialize (I1 id). specialize (I2 id).
  destruct (item_like_cpp id l1), (item_like_cpp id l2), (item_like_cpp id l3); try done.
  by eapply entry_evolves_trans.
Qed.

Lemma evolves_trans ex a b c : state_inv a -> evolves ex a b -> evolves ex b c -> evolves ex a c.
Proof.
  intros Ha E1 E2. split.
  - by rewrite (ev_token _ _ _ E2), (ev_token _ _ _ E1).
  - pose proof (ev_next _ _ _ E1). pose proof (ev_next _ _ _ E2). lia.
  - intros k Hk. by rewrite (ev_persisting _ _ _ E2), (ev_persisting _ _ _ E1).
  - apply (ev_excluded _ _ _ E2).
  - intros k t [L2 H2]%(ev_live _ _ _ E2). apply (ev_live _ _ _ E1) in L2 as [L1 H1].
    split; [done|congruence].
  - intros s e [H|H]%(ev_epochs _ _ _ E2); [by apply (ev_epochs _ _ _ E1)|].
    right. pose proof (ev_next _ _ _ E1). lia.
  - intros s e l Hc Hae Hl. assert (Hb : scope_epochs b !! s = Some e).
    { apply (ev_epochs _ _ _ E2) in Hc as [|Hc]; [done|].
      apply (si_epochs a Ha) in Hae. pose proof (ev_next _ _ _ E1). lia. }
    destruct (ev_pools _ _ _ E1 s e l Hb Hae Hl) as (l2 & Hl2 & K1).
    destruct (ev_pools _ _ _ E2 s e l2 Hc Hb Hl2) as (l3 & Hl3 & K2).
    exists l3. split; [done|]. by eapply loot_evolves_trans.
Qed.

Lemma keeps_trans a b c : state_inv a -> keeps a b -> keeps b c -> keeps a c.
Proof. intros Ha [Hb E1] [Hc E2]. split; [done|]. by eapply evolves_trans. Qed.

(** The last lines of [initialize_shared] and of [upsert_personal]. *)
Definition put_pool (s : OwnedLootScope) (loot : CreatureLoot) (a : AuthorityState) :
    AuthorityState :=
  match s with
  | Shared => a <| shared := Some loot |>
  | Personal p => a <| personal := <[p := loot]> (personal a) |>
  end.

Definition add_pool (s : OwnedLootScope) (loot : CreatureLoot) (a : AuthorityState) :
    AuthorityState :=
  let '(a, epoch) := next_scope_epoch a in
  bump_lifecycle_revision
    (put_pool s loot a <| scope_epochs := <[s := epoch]> (scope_epochs a) |>).

Lemma loot_for_put s loot a s' :
  loot_for_scope (put_pool s loot a) s' = if bool_decide (s = s') then Some loot
                                          else loot_for_scope a s'.
Proof.
  case_bool_decide as E.
  - subst s'. destruct s; simpl; [done|apply lookup_insert_eq].
  - destruct s, s'; simpl; try done. apply lookup_insert_ne. congruence.
Qed.

Section AddPool.
Variables (s : OwnedLootScope) (loot : CreatureLoot) (a : AuthorityState).
Hypotheses (Hloot : loot_ok loot) (Hr : retired a = false)
  (Hlive : forall k t, live a k t -> reservation_scope k <> s)
  (Hnext : 1 <= next_scope_epoch_field a < u64_max) (Ha : state_inv a).

Lemma add_pool_frame :
  let a' := add_pool s loot a in
  retired a' = retired a /\ detached a' = detached a /\ quarantined a' = quarantined a
  /\ generation a' = generation a /\ persisting a' = persisting a
  /\ reservations a' = reservations a /\ next_token_field a' = next_token_field a
  /\ next_scope_epoch_field a' = next_scope_epoch_field a + 1
  /\ scope_epochs a' = <[s := next_scope_epoch_field a]> (scope_epochs a).
Proof.
  assert (E : next_nonzero (next_scope_epoch_field a) = next_scope_epoch_field a + 1)
    by (apply next_nonzero_small; lia).
  destruct s; repeat split; exact E.
Qed.

Lemma loot_for_add s' :
  loot_for_scope (add_pool s loot a) s' = if bool_decide (s = s') then Some loot
                                          else loot_for_scope a s'.
Proof.
  pose proof (loot_for_put s loot (next_scope_epoch a).1 s') as H. by destruct s, s'.
Qed.

Lemma add_pool_keeps : keeps a (add_pool s loot a).
Proof.
  pose proof add_pool_frame as R. cbv zeta in R.
  destruct R as (Rr & Rd & Rq & Rg & Rp & Rv & Rt & Rn & Re).
  assert (L : forall k t, live (add_pool s loot a) k t <-> live a k t)
    by (intros; unfold live; by rewrite Rr, Rp, Rv).
  destruct Ha as [H1 H2 H3 H4 H5 H6 H7 H8]. split; split;
    rewrite ?Rr, ?Rd, ?Rq, ?Rg, ?Rp, ?Rv, ?Rt, ?Rn, ?Re; auto; try congruence; try lia.
  - intros k t HL. apply L in HL. apply lookup_insert_is_Some'. right. eauto.
  - intros s' e. rewrite loot_for_add. destruct (decide (s = s')) as [->|Hne].
    + rewrite lookup_insert_eq, bool_decide_true by done. intros [= <-]. split; [lia|eauto].
    + rewrite lookup_insert_ne, bool_decide_false by done. intros [? ?]%H7. split; [lia|done].
  - intros s' l. rewrite loot_for_add. case_bool_decide; [|apply H8]. by intros [= <-].
  - intros k t HL. apply L in HL. split; [done|]. rewrite lookup_insert_ne; [done|].
    intros Es. by apply (Hlive k t).
  - intros s' e. destruct (decide (s = s')) as [->|Hne].
    + rewrite lookup_insert_eq. intros [= <-]. right. lia.
    + rewrite lookup_insert_ne by done. auto.
  - intros s' e l. destruct (decide (s = s')) as [->|Hne].
    + rewrite lookup_insert_eq. intros [= <-] [? ?]%H7. lia.
    + intros _ _. rewrite loot_for_add, bool_decide_false by done. eauto.
Qed.
End AddPool.

(** Reopening a pristine authority. *)
Lemma reopen_keeps gen a a' :
  state_inv a -> retired a = true -> persisting a = ∅ -> 1 <= gen ->
  detached a = false -> quarantined a = false ->
  a' = ((a <| generation := gen |>) <| retired := false |>) ->
  keeps a a' /\ (forall k t, ~ live a' k t).
Proof.
  intros [H1 H2 H3 H4 H5 H6 H7 H8] Hr Hp Hg Hd Hq ->.
  destruct (H4 Hr Hp) as (Es & Eps & Ee & Ev).
  assert (L : forall k t, ~ live ((a <| generation := gen |>) <| retired := false |>) k t).
  { intros k t [[_ E]|E]; ssimpl; by rewrite ?Ev, ?Hp, lookup_empty in E. }
  split; [|done]. split; split; ssimpl_goal; auto; try lia; try congruence.
  - naive_solver congruence.
  - intros k t HL. by apply L in HL.
  - intros k t HL. by apply L in HL.
  - intros s e l _. by rewrite Ee, lookup_empty.
Qed.

Lemma initialize_shared_keeps loot a :
  loot_ok loot -> 1 <= next_scope_epoch_field a < u64_max -> state_inv a ->
  keeps a (initialize_shared_like_cpp loot a).1.1.
Proof.
  intros Hl Hn Ha. unfold initialize_shared_like_cpp.
  case_match eqn:G; [by apply keeps_refl|]. split_guards G.
  case_match eqn:G2; [by apply keeps_refl|].
  destruct (retired a) eqn:Hr; simpl in *.
  - pose proof (si_drained a Ha Hr ltac:(done)) as (Es & Eps & Ee & Ev).
    apply negb_false_iff, Z.eqb_eq in H. destruct (reopen_keeps 1 a _ Ha Hr ltac:(done) ltac:(lia)
      ltac:(done) ltac:(done) eq_refl) as [K L].
    eapply keeps_trans; [done|exact K|].
    replace ((a <| generation := 1 |>) <| retired := false |>) with
      ((((((a <| generation := next_nonzero (generation a) |>) <| retired := false |>)
         <| personal := ∅ |>) <| scope_epochs := ∅ |>) <| reservations := ∅ |>)
         <| persisting := ∅ |>) in *.
    2: { rewrite H. unfold set_field; simpl. f_equal; congruence. }
    apply (add_pool_keeps Shared); try done; [|apply K]. intros k t HL. by apply L in HL.
  - apply bool_decide_eq_false in G2.
    apply (add_pool_keeps Shared); try done. intros k t HL Es.
    destruct (si_live_key a Ha k t HL) as [e He]. rewrite Es in He.
    by apply (si_epochs a Ha) in He as [_ ?].
Qed.

(** What [upsert_personal] does before it inserts the pool. *)
Lemma prepare_keeps p a :
  state_inv a -> detached a = false -> quarantined a = false ->
  (retired a = true -> generation a = 0) ->
  scope_has_persisting_claim a (Personal p) = false ->
  (personal a = ∅ -> is_Some (shared a) -> persisting a = ∅) ->
  keeps a (prepare_personal p a) /\ retired (prepare_personal p a) = false
  /\ (forall k t, live (prepare_personal p a) k t -> reservation_scope k <> Personal p)
  /\ next_scope_epoch_field (prepare_personal p a) = next_scope_epoch_field a.
Proof.
  intros Ha Hd Hq Hpr Hscope Hsh. unfold prepare_personal.
  assert (Hnp : forall k t, persisting a !! k = Some t -> reservation_scope k <> Personal p).
  { intros k t E Es. apply Bool.not_true_iff_false in Hscope. apply Hscope.
    apply existsb_exists. exists (k, t). split; [|by apply bool_decide_eq_true].
    by apply list_elem_of_In, elem_of_map_to_list. }
  destruct (retired a) eqn:Hr.
  { pose proof (si_pristine a Ha (Hpr eq_refl)) as [_ Hp].
    pose proof (si_drained a Ha Hr Hp) as (Es & Eps & Ee & Ev).
    destruct (reopen_keeps 1 a _ Ha Hr Hp ltac:(lia) Hd Hq eq_refl) as [K L].
    match goal with |- context [keeps a ?b] =>
      replace b with ((a <| generation := 1 |>) <| retired := false |>) end.
    2: { rewrite (Hpr eq_refl). unfold set_field; simpl. f_equal; congruence. }
    split; [done|]. split; [done|]. split; [|done]. intros k t HL. by apply L in HL. }
  pose proof Ha as [H1 H2 H3 H4 H5 H6 H7 H8].
  assert (G0 : generation a <> 0) by (intros E; apply H2 in E as [E _]; congruence).
  destruct (bool_decide (personal a = ∅) && bool_decide (is_Some (shared a))) eqn:G.
  { apply andb_true_iff in G as [Gp%bool_decide_eq_true Gs%bool_decide_eq_true].
    pose proof (Hsh Gp Gs) as Hp. pose proof (next_nonzero_pos (generation a)).
    match goal with |- context [keeps a ?b] => assert (L : forall k t, ~ live b k t) end.
    { intros k t [[_ E]|E]; ssimpl; first [done|by rewrite Hp, lookup_empty in E]. }
    split; [|split; [done|split; [intros k t HL; by apply L in HL|done]]].
    split; split; ssimpl_goal; try done; try congruence; try lia.
    - naive_solver congruence.
    - intros s e [_ He]%lookup_delete_Some. by apply H7.
    - intros k t HL. by apply L in HL.
    - intros s e [_ He]%lookup_delete_Some. auto.
    - intros s e l _ _ Hl. exists l. auto. }
  destruct (bool_decide (is_Some (personal a !! p))) eqn:Gi.
  - match goal with |- context [keeps a ?b] => assert (L : forall k t, live b k t ->
      live a k t /\ reservation_scope k <> Personal p) end.
    { intros k t [[_ [E Es]%map_lookup_filter_Some]|E]; ssimpl; (split; [|by eauto]).
      - by left.
      - by right. }
    split; [|split; [done|split; [by intros k t [_ ?]%L|done]]].
    split; split; ssimpl_goal; try done; try congruence; try lia; auto.
    + intros k t E. apply map_lookup_filter_Some. split; [by auto|]. simpl. eauto.
    + intros k t [HL _]%L. eauto.
    + intros k t [HL _]%L. done.
    + intros s e l _ _ Hl. exists l. auto.
  - split; [by apply keeps_refl|]. split; [done|]. split; [|done].
    apply bool_decide_eq_false in Gi. intros k t HL Es. destruct (H6 k t HL) as [e He].
    rewrite Es in He. by apply H7 in He as [_ ?].
Qed.

Lemma upsert_keeps p loot r a :
  loot_ok loot -> 1 <= next_scope_epoch_field a < u64_max -> state_inv a ->
  keeps a (upsert_personal_like_cpp p loot r a).1.1.
Proof.
  intros Hl Hn Ha. unfold upsert_personal_like_cpp.
  case_match eqn:G; [by apply keeps_refl|]. split_guards G.
  case_match eqn:G2; [by apply keeps_refl|]. apply orb_false_iff in G2 as [G2 G3].
  case_match eqn:G4; [by apply keeps_refl|]. clear G4.
  assert (Hpr : retired a = true -> generation a = 0).
  { intros E. rewrite E in *. simpl in *. by apply Z.eqb_eq, negb_false_iff. }
  assert (Hsh : personal a = ∅ -> is_Some (shared a) -> persisting a = ∅).
  { intros E1 E2. rewrite !bool_decide_true in G3 by done. simpl in G3.
    by apply negb_false_iff, bool_decide_eq_true in G3. }
  destruct (prepare_keeps p a Ha ltac:(done) ltac:(done) Hpr G2 Hsh) as (K & Hr & L & Hnx).
  eapply keeps_trans; [done|exact K|].
  apply (add_pool_keeps (Personal p)); auto; [by rewrite Hnx|apply K].
Qed.

(** * Viewers and rolls *)

Lemma update_keeps s f a :
  (forall l, loot_evolves None s l (f l)) -> state_inv a -> keeps a (update_loot s f a).
Proof. intros Hf Ha. split; [eapply update_pool_state; eauto|by apply update_pool_evolves]. Qed.

Lemma update_twice_keeps s f g a :
  (forall l, loot_evolves None s l (f l)) -> (forall l, loot_evolves None s l (g l)) ->
  state_inv a -> keeps a (update_loot s g (update_loot s f a)).
Proof.
  intros Hf Hg Ha. apply (keeps_trans a (update_loot s f a)); [done|by apply update_keeps|].
  apply update_keeps; [done|]. by apply update_keeps.
Qed.

Lemma unopen_pool_evolves s p i f l : loot_evolves None s l (unopen_pool p i f l).
Proof. apply loot_evolves_fields; unfold unopen_pool; by destruct i, f. Qed.

Lemma restore_loot_evolves ex s id e l : loot_evolves ex s l (restore_loot id e l).
Proof. by eapply (loot_evolves_alter _ _ id (restore_entry e)). Qed.

#[export] Hint Resolve open_pool_evolves remove_viewer_evolves finish_loot_evolves
  unopen_pool_evolves restore_loot_evolves : core.

Lemma open_view_keeps {R} p f a :
  state_inv a -> keeps a (try_open_view_with_snapshot_like_cpp (R:=R) p f a).1.1.
Proof.
  intros Ha. unfold try_open_view_with_snapshot_like_cpp.
  repeat case_match; try (by apply keeps_refl).
  - by apply update_keeps; auto.
  - by apply update_twice_keeps; auto.
Qed.

Lemma remove_viewer_keeps p a : state_inv a -> keeps a (remove_viewer_like_cpp p a).1.1.
Proof.
  intros Ha. unfold remove_viewer_like_cpp. repeat case_match; try (by apply keeps_refl).
  by apply update_keeps; auto.
Qed.

Lemma remove_viewer_if_keeps e p a :
  state_inv a -> keeps a (remove_viewer_if_generation_like_cpp e p a).1.1.
Proof.
  intros Ha. unfold remove_viewer_if_generation_like_cpp.
  repeat case_match; try (by apply keeps_refl). by apply update_keeps; auto.
Qed.

Lemma close_viewer_keeps {Ord : IterOrder ObjectGuid} e p a :
  state_inv a -> keeps a (close_viewer_if_generation_like_cpp e p a).1.1.
Proof.
  intros Ha. unfold close_viewer_if_generation_like_cpp.
  repeat case_match; try (by apply keeps_refl). by apply update_keeps; auto.
Qed.

Lemma clear_round_robin_keeps e p a :
  state_inv a -> keeps a (clear_round_robin_if_generation_like_cpp e p a).1.1.
Proof.
  intros Ha. unfold clear_round_robin_if_generation_like_cpp.
  destruct (pool_of_generation e p a) as [[s l0]|]; [|by apply keeps_refl].
  apply update_keeps; [|done]. intros l. apply loot_evolves_fields; by case_bool_decide.
Qed.

Lemma finish_roll_keeps p e id t w a :
  state_inv a -> keeps a (finish_item_roll_like_cpp p e id t w a).1.1.
Proof.
  intros Ha. unfold finish_item_roll_like_cpp.
  repeat (case_match; try (by apply keeps_refl); try (by apply update_keeps; auto)).
Qed.
