(* ===== verification/LootClaims.v ===== *)
(** The claims invariant of the loot authority: in every reachable state an open
    claim belongs to an active lease, its pool still has the claim's epoch, and
    what it claims is still there. *)
From S2P Require Import Prelude Guid LootModel LootAuthority LootSystem LootInvariant LootSteps.

(** What a lease claims is in its pool: an item its player has not looted, or the
    coins it counted. *)
Definition claimable (a : AuthorityState) (l : LootClaimLease) : Prop :=
  match lease_key l with
  | KeyItem k =>
      exists loot e,
        loot_for_scope a (claim_scope k) = Some loot
        /\ item_like_cpp (claim_list_id k) loot = Some e
        /\ is_looted_for_player_like_cpp (lease_player l) e = false
        /\ lease_key l = item_key (claim_scope k) (claim_list_id k) (freeforall (flags e))
                           (lease_player l)
        /\ is_empty (lease_player l) = false
  | KeyMoney s =>
      exists loot, loot_for_scope a s = Some loot /\ lease_payload l = PayloadMoney (coins loot)
  end.

(** * Reserving *)

Definition reserve_key (key : ReservationKey) (a : AuthorityState) : AuthorityState :=
  let '(a, token) := next_token a in
  a <| reservations := <[key := token]> (reservations a) |>.

(** An attempt either changes nothing or takes a free key with a new token, for
    something the player may take. *)
Definition reserve_spec (player : ObjectGuid) (a a' : AuthorityState) (r : ReserveAttempt) : Prop :=
  match r with
  | Acquired epoch token key payload =>
      retired a = false /\ reservations a !! key = None
      /\ scope_epochs a !! reservation_scope key = Some epoch
      /\ token = next_token_field a /\ a' = reserve_key key a
      /\ selected_scope_like_cpp a player = Some (reservation_scope key)
      /\ match key with
         | KeyItem k => exists loot e,
             loot_for_scope a (claim_scope k) = Some loot
             /\ item_like_cpp (claim_list_id k) loot = Some e
             /\ is_looted_for_player_like_cpp player e = false
             /\ has_allowed_looter_like_cpp player e = true
             /\ roll_winner_allows_like_cpp player e = true
             /\ key = item_key (claim_scope k) (claim_list_id k) (freeforall (flags e)) player
             /\ payload = PayloadItem e
         | KeyMoney s => exists loot,
             loot_for_scope a s = Some loot /\ contains player (allowed_looters loot) = true
             /\ payload = PayloadMoney (coins loot)
         end
  | _ => a' = a
  end.

Lemma reserve_item_spec player id mode expected a :
  reserve_spec player a (reserve_item_once player id mode expected a).1
    (reserve_item_once player id mode expected a).2.
Proof.
  unfold reserve_item_once. destruct (retired a) eqn:Hr; [done|].
  destruct (selected_scope_like_cpp a player) as [s|] eqn:Hs; [|done].
  destruct (scope_epoch a s) as [g|] eqn:Hg; [|done].
  destruct (is_some_and expected _); [done|].
  destruct (loot_for_scope a s) as [loot|] eqn:Hl; [|done].
  destruct (item_like_cpp id loot) as [e|] eqn:He; [|done].
  destruct (is_looted_for_player_like_cpp player e) eqn:Hlo; [done|].
  destruct (has_allowed_looter_like_cpp player e) eqn:Hal; [|done].
  destruct (bool_decide (mode = Direct) && blocked (flags e)); [done|].
  destruct (roll_winner_allows_like_cpp player e) eqn:Hw; [|done].
  simpl negb. cbv iota zeta.
  destruct (bool_decide (is_Some (reservations a !! _))) eqn:Hf; [done|].
  apply bool_decide_eq_false in Hf. apply eq_None_not_Some in Hf.
  simpl. repeat split; try done. exists loot, e. done.
Qed.

Lemma reserve_money_spec player expected a :
  reserve_spec player a (reserve_money_once player expected a).1
    (reserve_money_once player expected a).2.
Proof.
  unfold reserve_money_once. destruct (retired a) eqn:Hr; [done|].
  destruct (selected_scope_like_cpp a player) as [s|] eqn:Hs; [|done].
  destruct (scope_epoch a s) as [g|] eqn:Hg; [|done].
  destruct (is_some_and expected _); [done|].
  destruct (loot_for_scope a s) as [loot|] eqn:Hl; [|done].
  destruct (contains player (allowed_looters loot)) eqn:Hal; [|done].
  simpl negb. cbv iota zeta.
  destruct (bool_decide (is_Some (reservations a !! _))) eqn:Hf; [done|].
  apply bool_decide_eq_false in Hf. apply eq_None_not_Some in Hf.
  simpl. repeat split; try done. exists loot. done.
Qed.

Lemma loot_for_reserve key a s : loot_for_scope (reserve_key key a) s = loot_for_scope a s.
Proof. by destruct s. Qed.

Lemma reserve_key_state key a :
  state_inv a -> retired a = false -> reservations a !! key = None ->
  is_Some (scope_epochs a !! reservation_scope key) ->
  state_inv (reserve_key key a).
Proof.
  intros [H1 H2 H3 H4 H5 H6 H7 H8] Hr Hf Hs. split; try done.
  - intros E. change (retired a = true) in E. congruence.
  - intros k t E. specialize (H5 k t E).
    change (<[key := next_token_field a]> (reservations a) !! k = Some t).
    rewrite lookup_insert_ne; [done|]. intros ->. congruence.
  - intros k t [[_ E]|E].
    + change (<[key := next_token_field a]> (reservations a) !! k = Some t) in E.
      destruct (decide (key = k)) as [->|Hne]; [done|].
      rewrite lookup_insert_ne in E by done. apply (H6 k t). by left.
    + apply (H6 k t). by right.
Qed.

(** * The invariant *)

Record claims_inv (n : nat) (s : LootSystem) : Prop := {
  ci_token : 1 <= next_token_field (authority s) <= Z.of_nat n + 1;
  ci_epoch : 1 <= next_scope_epoch_field (authority s) <= Z.of_nat n + 1;
  ci_state : state_inv (authority s);
  ci_leases t l : leases s !! t = Some l ->
    lease_token l = t /\ t < next_token_field (authority s)
    /\ lease_generation l < next_scope_epoch_field (authority s);
  ci_live k t : live (authority s) k t -> exists l,
    leases s !! t = Some l /\ lease_key l = k /\ status l = LEASE_ACTIVE
    /\ scope_epochs (authority s) !! reservation_scope k = Some (lease_generation l)
    /\ claimable (authority s) l;
  ci_persisting k t : persisting (authority s) !! k = Some t -> t ∈ guards s;
  ci_guards t : t ∈ guards s -> exists l, leases s !! t = Some l
    /\ (status l = LEASE_ACTIVE -> persisting (authority s) !! lease_key l = Some t) }.

Lemma claims_initial a :
  a = new_like_cpp \/ a = new_retired_tombstone_like_cpp -> claims_inv 0 (initial_loot a).
Proof.
  assert (He : forall k t, ~ live new_like_cpp k t) by (intros k t [[? ?]|?]; done).
  assert (He' : forall k t, ~ live new_retired_tombstone_like_cpp k t) by (intros k t [[? ?]|?]; done).
  intros [-> | ->]; split; simpl; try done; try lia.
  - split; simpl; try done; try lia; [by intros k t ?%He|by intros []].
  - by intros k t ?%He.
  - split; simpl; try done; try lia; [by intros k t ?%He'|by intros []].
  - by intros k t ?%He'.
Qed.

Lemma claimable_evolves ex a a' l e :
  evolves ex a a' -> ex <> Some (lease_key l) ->
  scope_epochs a' !! reservation_scope (lease_key l) = Some e ->
  scope_epochs a !! reservation_scope (lease_key l) = Some e ->
  claimable a l -> claimable a' l.
Proof.
  intros Hev Hne He' He. unfold claimable. destruct (lease_key l) as [k|s] eqn:Hk; simpl in *.
  - intros (loot & x & Hl & Hx & Hlo & Hkey & Hp).
    destruct (ev_pools _ _ _ Hev _ _ _ He' He Hl) as (loot' & Hl' & [HI _ _]).
    specialize (HI (claim_list_id k)). rewrite Hx in HI.
    destruct (item_like_cpp (claim_list_id k) loot') as [x'|] eqn:Hx'; [|done].
    destruct HI as [F _ _ O]. exists loot', x'. rewrite F, O by (by rewrite <- Hkey). done.
  - intros (loot & Hl & Hp). destruct (ev_pools _ _ _ Hev _ _ _ He' He Hl) as (loot' & Hl' & HI).
    exists loot'. split; [done|]. by rewrite (le_coins _ _ _ _ HI).
Qed.

(** ** Steps that open no claim *)

(** The leases and guards after a step that may resolve some of them. *)
Record leases_step (ex : option ReservationKey) (s s' : LootSystem) : Prop := {
  ls_old t l' : leases s' !! t = Some l' -> exists l,
    leases s !! t = Some l /\ l' = l <| status := status l' |>
    /\ (status l' = LEASE_ACTIVE -> status l = LEASE_ACTIVE);
  ls_new t l : leases s !! t = Some l -> exists l',
    leases s' !! t = Some l'
    /\ (status l' = status l \/ forall k, ~ live (authority s') k t);
  ls_guards t : t ∈ guards s' -> t ∈ guards s;
  ls_kept k t : persisting (authority s') !! k = Some t -> t ∈ guards s -> t ∈ guards s';
  ls_open t l' : t ∈ guards s' -> leases s' !! t = Some l' -> status l' = LEASE_ACTIVE ->
    ex <> Some (lease_key l') }.

Lemma claimable_status a l st : claimable a (l <| status := st |>) <-> claimable a l.
Proof. done. Qed.

Lemma claims_step n s s' ex :
  claims_inv n s -> state_inv (authority s') -> evolves ex (authority s) (authority s') ->
  next_scope_epoch_field (authority s') <= Z.of_nat n + 2 -> leases_step ex s s' ->
  claims_inv (S n) s'.
Proof.
  intros [C1 C2 C3 C4 C5 C6 C7] Ha Hev Hn [L1 L2 L3 L4 L5].
  pose proof (ev_next _ _ _ Hev) as Hnx. pose proof (ev_token _ _ _ Hev) as Ht.
  split; [rewrite Ht; lia|lia|done| | | |].
  - intros t l' (l & Hl & -> & _)%L1. apply C4 in Hl as (? & ? & ?). rewrite Ht. ssimpl_goal.
    repeat split; [done|done|lia].
  - intros k t HL. destruct (ev_live _ _ _ Hev k t HL) as [HL0 He].
    destruct (C5 k t HL0) as (l & Hl & Hk & Hst & Hep & Hc).
    destruct (L2 t l Hl) as (l' & Hl' & [Hs|Hs]); [|by apply Hs in HL].
    destruct (L1 t l' Hl') as (l0 & Hl0 & E & _). rewrite Hl in Hl0. injection Hl0 as <-.
    assert (Hk' : lease_key l' = lease_key l) by (by rewrite E).
    assert (Hg' : lease_generation l' = lease_generation l) by (by rewrite E).
    exists l'. rewrite Hk', Hg', He. repeat split; [done|done|congruence|done|].
    rewrite E. apply claimable_status. eapply (claimable_evolves ex); try done.
    + intros ->. destruct (ev_excluded _ _ _ Hev _ eq_refl) as [E1 E2].
      rewrite Hk in E1, E2. destruct HL as [[_ HL]|HL]; congruence.
    + rewrite Hk, He. done.
    + by rewrite Hk.
  - intros k t E. eapply L4; [done|]. destruct (decide (ex = Some k)) as [->|Hne].
    + destruct (ev_excluded _ _ _ Hev _ eq_refl) as [E1 _]. congruence.
    + apply (C6 k t). by rewrite <- (ev_persisting _ _ _ Hev k).
  - intros t Hg. destruct (C7 t (L3 t Hg)) as (l & Hl & Hp).
    destruct (L2 t l Hl) as (l' & Hl' & _). exists l'. split; [done|]. intros Hact.
    destruct (L1 t l' Hl') as (l0 & Hl0 & E & Hact0). rewrite Hl in Hl0. injection Hl0 as <-.
    assert (Hk : lease_key l' = lease_key l) by (by rewrite E).
    rewrite (ev_persisting _ _ _ Hev) by (by eapply L5). rewrite Hk. auto.
Qed.

Lemma authority_notify b s : authority (notify b s) = authority s.
Proof. by destruct b. Qed.
Lemma leases_notify b s : leases (notify b s) = leases s.
Proof. by destruct b. Qed.
Lemma guards_notify b s : guards (notify b s) = guards s.
Proof. by destruct b. Qed.

Lemma on_authority_fields {A} (r : Act A) s :
  authority (on_authority r s) = r.1.1 /\ leases (on_authority r s) = leases s
  /\ guards (on_authority r s) = guards s /\ commits (on_authority r s) = commits s
  /\ installs (on_authority r s) = installs s ++ new_pools (authority s) r.1.1.
Proof. destruct r as [[a x] []]; done. Qed.

(** The epochs an operation may use up. *)
Lemma quiet_next n s (a' : AuthorityState) :
  claims_inv n s -> next_scope_epoch_field a' = next_scope_epoch_field (authority s) ->
  next_scope_epoch_field a' <= Z.of_nat n + 2.
Proof. intros [_ C2 _ _ _ _ _] ->. lia. Qed.

Lemma leases_step_same s s' :
  leases s' = leases s -> guards s' = guards s -> leases_step None s s'.
Proof.
  intros El Eg. split; rewrite ?El, ?Eg; try done.
  - intros t l Hl. exists l. split; [done|]. split; [by destruct l|done].
  - intros t l Hl. exists l. auto.
Qed.

Lemma on_authority_claims {A} n s (r : Act A) :
  claims_inv n s -> keeps (authority s) r.1.1 ->
  next_scope_epoch_field r.1.1 <= Z.of_nat n + 2 ->
  claims_inv (S n) (on_authority r s).
Proof.
  intros Hs [Ha Hev] Hn. destruct (on_authority_fields r s) as (Ea & El & Eg & _).
  apply (claims_step _ s _ None); rewrite ?Ea; try done. by apply leases_step_same.
Qed.

(** *** At most one epoch per operation *)
Definition next_le (a a' : AuthorityState) : Prop :=
  next_scope_epoch_field a' <= next_scope_epoch_field a + 1.

Lemma next_le_refl a : next_le a a.
Proof. unfold next_le. lia. Qed.

Lemma next_le_eq a a' :
  next_scope_epoch_field a' = next_scope_epoch_field a -> next_le a a'.
Proof. unfold next_le. lia. Qed.

Lemma next_le_nonzero a a' :
  0 <= next_scope_epoch_field a ->
  next_scope_epoch_field a' = next_nonzero (next_scope_epoch_field a) -> next_le a a'.
Proof.
  unfold next_le, next_nonzero, wrap_u. intros Hp ->.
  pose proof (Z.mod_le (next_scope_epoch_field a + 1) (2 ^ 64) ltac:(lia) ltac:(lia)). lia.
Qed.

Lemma finalize_next a :
  next_scope_epoch_field (finalize_closed_state_if_drained a) = next_scope_epoch_field a.
Proof. unfold finalize_closed_state_if_drained. by case_match. Qed.

Lemma update_next s f a :
  next_scope_epoch_field (update_loot s f a) = next_scope_epoch_field a.
Proof. by destruct s. Qed.

Lemma update_persisting s f a : persisting (update_loot s f a) = persisting a.
Proof. by destruct s. Qed.

#[export] Hint Rewrite finalize_next update_next : next_epoch.

Ltac quiet_next_le :=
  repeat case_match; simplify_eq/=;
  first [apply next_le_refl
        | apply next_le_eq; autorewrite with next_epoch; reflexivity].

Lemma detach_next a : next_le a (detach_like_cpp a).1.1.
Proof. unfold detach_like_cpp, do_detach. quiet_next_le. Qed.

Lemma detach_if_next e a : next_le a (detach_if_stamp_like_cpp e a).1.1.
Proof. unfold detach_if_stamp_like_cpp, do_detach. quiet_next_le. Qed.

Lemma retire_next a : next_le a (retire_like_cpp a).1.1.
Proof. unfold retire_like_cpp. quiet_next_le. Qed.

Lemma open_view_next {R} p f a :
  next_le a (try_open_view_with_snapshot_like_cpp (R:=R) p f a).1.1.
Proof. unfold try_open_view_with_snapshot_like_cpp. quiet_next_le. Qed.

Lemma remove_viewer_next p a : next_le a (remove_viewer_like_cpp p a).1.1.
Proof. unfold remove_viewer_like_cpp. quiet_next_le. Qed.

Lemma remove_viewer_if_next e p a : next_le a (remove_viewer_if_generation_like_cpp e p a).1.1.
Proof. unfold remove_viewer_if_generation_like_cpp. quiet_next_le. Qed.

Lemma close_viewer_next {Ord : IterOrder ObjectGuid} e p a :
  next_le a (close_viewer_if_generation_like_cpp e p a).1.1.
Proof. unfold close_viewer_if_generation_like_cpp. quiet_next_le. Qed.

Lemma clear_round_robin_next e p a :
  next_le a (clear_round_robin_if_generation_like_cpp e p a).1.1.
Proof.
  unfold clear_round_robin_if_generation_like_cpp.
  destruct (pool_of_generation e p a) as [[s l]|]; simpl; quiet_next_le.
Qed.

Lemma finish_roll_next p e id t w a : next_le a (finish_item_roll_like_cpp p e id t w a).1.1.
Proof.
  unfold finish_item_roll_like_cpp.
  repeat (case_match; try apply next_le_refl; try (apply next_le_eq, update_next)).
Qed.

Section InstallNext.
Variable a : AuthorityState.
Hypothesis Hpos : 0 <= next_scope_epoch_field a.

Ltac install_next_le :=
  repeat match goal with |- context [if ?b then unchanged _ _ else _] => destruct b end;
  try apply next_le_refl;
  repeat match goal with |- context [if ?b then _ else _] => destruct b end;
  by apply next_le_nonzero.

Lemma initialize_next sh ps : next_le a (initialize_like_cpp sh ps a).1.1.
Proof. unfold initialize_like_cpp, initialize_pristine_like_cpp. install_next_le. Qed.

Lemma replace_retired_next e sh ps : next_le a (replace_retired_generation_like_cpp e sh ps a).1.1.
Proof. unfold replace_retired_generation_like_cpp. install_next_le. Qed.

Lemma replace_next sh ps : next_le a (replace_like_cpp sh ps a).1.1.
Proof. unfold replace_like_cpp. install_next_le. Qed.

Lemma initialize_shared_next l : next_le a (initialize_shared_like_cpp l a).1.1.
Proof. unfold initialize_shared_like_cpp. install_next_le. Qed.

Lemma upsert_next p l r : next_le a (upsert_personal_like_cpp p l r a).1.1.
Proof. unfold upsert_personal_like_cpp, prepare_personal. install_next_le. Qed.
End InstallNext.

(** ** Steps that open a claim *)

Lemma allowed_nonempty a s loot id e p :
  state_inv a -> loot_for_scope a s = Some loot -> item_like_cpp id loot = Some e ->
  has_allowed_looter_like_cpp p e = true -> is_empty p = false.
Proof.
  intros Ha Hl He Hp%contains_spec. apply Bool.not_true_iff_false. intros ->%is_empty_spec.
  apply (si_ok a Ha) in Hl. unfold loot_ok in Hl. rewrite Forall_forall in Hl.
  apply (Hl e); [|done]. apply list_elem_of_In. by apply List.find_some in He as [? _].
Qed.

Lemma acquired_claimable player a a' epoch token key payload :
  state_inv a -> reserve_spec player a a' (Acquired epoch token key payload) ->
  claimable a' (new_lease epoch token key player payload).
Proof.
  intros Ha (_ & _ & _ & _ & -> & _ & Hk). unfold claimable. simpl. destruct key as [k|s].
  - destruct Hk as (loot & e & Hl & He & Hlo & Hal & _ & Hkey & _).
    exists loot, e. rewrite loot_for_reserve. repeat split; try done. by eapply allowed_nonempty.
  - destruct Hk as (loot & Hl & _ & ->). exists loot. by rewrite loot_for_reserve.
Qed.

Lemma claimable_reserve key a l : claimable a l -> claimable (reserve_key key a) l.
Proof.
  unfold claimable. destruct (lease_key l).
  - intros (loot & e & Hl & H). exists loot, e. by rewrite loot_for_reserve.
  - intros (loot & Hl & H). exists loot. by rewrite loot_for_reserve.
Qed.

Lemma acquire_claims m s s' player epoch token key payload :
  claims_inv m s -> next_token_field (authority s) <= Z.of_nat m ->
  next_token_field (authority s) < u64_max ->
  reserve_spec player (authority s) (authority s') (Acquired epoch token key payload) ->
  leases s' = <[token := new_lease epoch token key player payload]> (leases s) ->
  guards s' = guards s -> claims_inv m s'.
Proof.
  intros Hs Hm Hu R El Eg. pose proof (acquired_claimable _ _ _ _ _ _ _ (ci_state _ _ Hs) R) as Hcl.
  destruct R as (Hr & Hf & He & Ht & Ha & Hsel & _). pose proof Hs as [C1 C2 C3 C4 C5 C6 C7].
  set (a := authority s) in *.
  assert (En : next_token_field (authority s') = next_token_field a + 1)
    by (rewrite Ha; apply (next_nonzero_small (next_token_field a)); lia).
  assert (Fresh : leases s !! token = None).
  { destruct (leases s !! token) as [l|] eqn:E; [|done]. apply C4 in E as (_ & ? & _). lia. }
  assert (Hst : state_inv (authority s')).
  { rewrite Ha. apply reserve_key_state; eauto. }
  split; [lia|by rewrite Ha|done| | | |].
  - intros t l. rewrite El, En. destruct (decide (token = t)) as [<-|Hne].
    + rewrite lookup_insert_eq. intros [= <-]. simpl. rewrite Ha.
      apply (si_epochs a C3) in He as [? _]. change (next_scope_epoch_field (reserve_key key a))
        with (next_scope_epoch_field a). lia.
    + rewrite lookup_insert_ne by done. intros (? & ? & ?)%C4. rewrite Ha.
      change (next_scope_epoch_field (reserve_key key a)) with (next_scope_epoch_field a). lia.
  - intros k t HL. rewrite El.
    assert (HL' : (k = key /\ t = token) \/ (live a k t /\ t <> token)).
    { assert (Hold : live a k t -> t <> token).
      { intros (l & Hl & _)%C5 ->. by rewrite Fresh in Hl. }
      rewrite Ha in HL. destruct HL as [[_ E]|E]; [|right; split; [by right|apply Hold; by right]].
      change (<[key := next_token_field a]> (reservations a) !! k = Some t) in E.
      destruct (decide (key = k)) as [<-|Hne].
      - rewrite lookup_insert_eq in E. injection E as <-. auto.
      - rewrite lookup_insert_ne in E by done. right.
        split; [by left|apply Hold; by left]. }
    assert (Ees : scope_epochs (authority s') = scope_epochs a) by (by rewrite Ha).
    rewrite Ees.
    destruct HL' as [[-> ->]|[HL' Hne]].
    + eexists. rewrite lookup_insert_eq. repeat split; try done.
    + destruct (C5 k t HL') as (l & Hl & Hk & Hst' & Hep & Hc). exists l.
      rewrite lookup_insert_ne by done. repeat split; try done. rewrite Ha.
      by apply claimable_reserve.
  - intros k t. rewrite Eg, Ha. apply C6.
  - intros t. rewrite Eg, El, Ha. intros (l & Hl & Hp)%C7. exists l. split; [|done].
    rewrite lookup_insert_ne; [done|]. intros <-. by rewrite Fresh in Hl.
Qed.

(** ** Steps on a lease *)

Lemma live_lease n s k t l :
  claims_inv n s -> leases s !! t = Some l -> live (authority s) k t ->
  lease_key l = k /\ status l = LEASE_ACTIVE
  /\ scope_epochs (authority s) !! reservation_scope k = Some (lease_generation l)
  /\ claimable (authority s) l.
Proof. intros Hs Hl (l' & Hl' & H)%(ci_live _ _ Hs). by simplify_eq. Qed.

Lemma live_generation a k t : state_inv a -> live a k t -> 1 <= generation a.
Proof.
  intros Ha HL. pose proof (si_generation a Ha). destruct (decide (generation a = 0)) as [E|]; [|lia].
  apply (si_pristine a Ha) in E as [Hr Hp]. destruct (si_drained a Ha Hr Hp) as (_ & _ & Ee & _).
  apply (si_live_key a Ha) in HL as [e He]. by rewrite Ee, lookup_empty in He.
Qed.

Lemma finalize_id a : state_inv a -> finalize_closed_state_if_drained a = a.
Proof.
  intros Ha. unfold finalize_closed_state_if_drained. case_match eqn:E; [done|].
  apply orb_false_iff in E as [Hr%negb_false_iff Hp%negb_false_iff%bool_decide_eq_true].
  destruct (si_drained a Ha Hr Hp) as (Es & Eps & Ee & Ev). destruct a. simpl in *. by subst.
Qed.

(** The release of a claim, when it resolves: [ret] and [quar] are what the
    authority's flags become. *)
Definition release (ret quar : bool) (l : LootClaimLease) (a : AuthorityState) : AuthorityState :=
  finalize_closed_state_if_drained
    ((drop_claim l a <| retired := ret |>) <| quarantined := quar |>).

Section Release.
Variables (ret quar : bool) (l : LootClaimLease) (a : AuthorityState).
Hypotheses (Ha : state_inv a) (HL : live a (lease_key l) (lease_token l))
  (Hret : ret = false -> retired a = false) (Hquar : quar = true -> ret = true).

Let a1 := (drop_claim l a <| retired := ret |>) <| quarantined := quar |>.

Lemma release_live k t : live a1 k t -> live a k t /\ k <> lease_key l.
Proof.
  intros [[Hr E]|E]; (cbn in E; apply lookup_delete_Some in E as [Hne E]; split; [|done]).
  - left. auto.
  - by right.
Qed.

Lemma release_state : state_inv (release ret quar l a).
Proof.
  pose proof (live_generation _ _ _ Ha HL) as Hg.
  assert (RL : forall k t, live a1 k t -> live a k t) by (intros k t; apply release_live).
  subst a1. destruct ret eqn:Er.
  - apply finalize_state; ssimpl_goal; try done.
    + intros k t [Hne E]%lookup_delete_Some. apply lookup_delete_Some.
      split; [done|]. by apply (si_subset a Ha).
    + intros k t [Hne E]%lookup_delete_Some. apply (si_live_key a Ha k t). by right.
    + apply (si_epochs a Ha).
    + apply (si_ok a Ha).
  - unfold release. rewrite finalize_open by (by left). split; try done.
    + intros [Hd|Hq]; ssimpl; [|by apply Hquar in Hq].
      rewrite (si_closed a Ha) in Hret by auto. by specialize (Hret eq_refl).
    + ssimpl_goal. lia.
    + ssimpl_goal. lia.
    + cbn. intros k t [Hne E]%lookup_delete_Some. apply lookup_delete_Some.
      split; [done|]. by apply (si_subset a Ha).
    + intros k t Hl%RL. by apply (si_live_key a Ha) in Hl.
    + apply (si_epochs a Ha).
    + apply (si_ok a Ha).
Qed.

Lemma release_evolves : evolves (Some (lease_key l)) a (release ret quar l a).
Proof.
  assert (RL : forall k t, live a1 k t -> live a k t) by (intros k t; apply release_live).
  assert (HC : (ret = true /\ persisting a1 = ∅) \/ (retired a1 = false \/ persisting a1 <> ∅)).
  { subst a1. destruct ret; [|by right; left].
    destruct (decide (delete (lease_key l) (persisting a) = ∅)); [by left|by right; right]. }
  unfold release. fold a1. destruct HC as [[Hr Hp]|HC].
  - assert (Hr1 : retired a1 = true) by done. rewrite finalize_drained by done. split; try done.
    + intros k Hne. cbn. rewrite lookup_delete_ne; [done|congruence].
    + intros k [= <-]. cbn. by rewrite lookup_delete_eq.
    + intros k t [[E ?]|E].
      * change (retired a1 = false) in E. congruence.
      * change (persisting a1 !! k = Some t) in E. by rewrite Hp, lookup_empty in E.
  - rewrite finalize_open by done. split; try done.
    + intros k Hne. cbn. rewrite lookup_delete_ne; [done|congruence].
    + intros k [= <-]. cbn. by rewrite !lookup_delete_eq.
    + intros k t Hlv%RL. done.
    + intros s e. auto.
    + intros s e x _ _ Hx. exists x. split; [by destruct s|auto].
Qed.

Lemma release_frame :
  persisting (release ret quar l a) = delete (lease_key l) (persisting a)
  /\ next_scope_epoch_field (release ret quar l a) = next_scope_epoch_field a
  /\ next_token_field (release ret quar l a) = next_token_field a.
Proof. unfold release, finalize_closed_state_if_drained. by case_match. Qed.
End Release.

(** Resolving an open claim: its key is released, its lease is no longer active. *)
Lemma resolve_leases n s s' t l st :
  claims_inv n s -> leases s !! t = Some l ->
  live (authority s) (lease_key l) t -> st <> LEASE_ACTIVE ->
  (forall k, ~ live (authority s') k t) ->
  leases s' = <[t := l <| status := st |>]> (leases s) ->
  persisting (authority s') = delete (lease_key l) (persisting (authority s)) ->
  (forall x, x ∈ guards s' -> x ∈ guards s) ->
  (forall x, x ∈ guards s -> x = t \/ x ∈ guards s') ->
  leases_step (Some (lease_key l)) s s'.
Proof.
  intros Hs Hl HL Hst Hdead El Ep Hg1 Hg2. split.
  - intros t' l'. rewrite El. destruct (decide (t = t')) as [<-|Hne].
    + rewrite lookup_insert_eq. intros [= <-]. exists l. done.
    + rewrite lookup_insert_ne by done. intros Hl'. exists l'. repeat split; [done|by destruct l'|done].
  - intros t' l0 Hl0. rewrite El. destruct (decide (t = t')) as [<-|Hne].
    + rewrite lookup_insert_eq. eauto.
    + rewrite lookup_insert_ne by done. eauto.
  - done.
  - intros k t' E Ht'. destruct (Hg2 t' Ht') as [->|?]; [|done].
    exfalso. eapply (Hdead k). by right.
  - intros t' l' Ht' Hl' Hact. rewrite El in Hl'. destruct (decide (t = t')) as [<-|Hne].
    + rewrite lookup_insert_eq in Hl'. injection Hl' as <-. done.
    + rewrite lookup_insert_ne in Hl' by done. intros [= Ek].
      destruct (ci_guards _ _ Hs t' (Hg1 t' Ht')) as (l0 & Hl0 & Hp). simplify_eq.
      specialize (Hp Hact). rewrite <- Ek in Hp.
      assert (HL' : live (authority s) (lease_key l) t') by (by right).
      apply (si_subset _ (ci_state _ _ Hs)) in Hp as Hres.
      destruct HL as [[_ HL]|HL]; congruence.
Qed.

Lemma update_loot_id s a : update_loot s id a = a.
Proof.
  destruct a, s; simpl; unfold set_field; simpl; f_equal.
  - by destruct shared.
  - apply map_eq. intros i. rewrite lookup_alter. case_decide; [|done]. subst.
    by destruct (_ !! i).
Qed.

Section Resolve.
Variables (n : nat) (s s' : LootSystem) (t : Z) (l : LootClaimLease) (ret quar : bool) (st : Z)
  (f : CreatureLoot -> CreatureLoot).
Hypotheses (Hs : claims_inv n s) (Hl : leases s !! t = Some l)
  (HL : live (authority s) (lease_key l) t)
  (Hret : ret = false -> retired (authority s) = false) (Hquar : quar = true -> ret = true)
  (Hf : forall loot, loot_for_scope (authority s) (reservation_scope (lease_key l)) = Some loot ->
          loot_evolves (Some (lease_key l)) (reservation_scope (lease_key l)) loot (f loot))
  (Hauth : authority s' = update_loot (reservation_scope (lease_key l)) f
                            (release ret quar l (authority s)))
  (Hst : st <> LEASE_ACTIVE)
  (Hleases : leases s' = <[t := l <| status := st |>]> (leases s))
  (Hg1 : forall x, x ∈ guards s' -> x ∈ guards s)
  (Hg2 : forall x, x ∈ guards s -> x = t \/ x ∈ guards s').

Lemma resolve_token : lease_token l = t.
Proof. by apply (ci_leases _ _ Hs) in Hl as (? & _). Qed.

Lemma release_pool loot :
  loot_for_scope (release ret quar l (authority s)) (reservation_scope (lease_key l)) = Some loot ->
  loot_for_scope (authority s) (reservation_scope (lease_key l)) = Some loot.
Proof.
  unfold release, finalize_closed_state_if_drained. case_match; [by destruct (reservation_scope _)|].
  by destruct (reservation_scope _).
Qed.

Lemma resolve_evolves :
  state_inv (authority s') /\ evolves (Some (lease_key l)) (authority s) (authority s').
Proof.
  pose proof (ci_state _ _ Hs) as Ha. rewrite Hauth. pose proof HL as HL'.
  rewrite <- resolve_token in HL'.
  pose proof (release_state ret quar l _ Ha HL' Hret Hquar) as Hr.
  pose proof (release_evolves ret quar l (authority s) Hret Hquar) as He.
  split.
  - eapply update_pool_state; [|done]. intros loot E%release_pool. by apply Hf.
  - apply (evolves_trans _ _ (release ret quar l (authority s))); [exact Ha|exact He|].
    apply update_pool_evolves.
    + intros loot E%release_pool. by apply Hf.
    + apply (ev_excluded _ _ _ He).
Qed.

Lemma resolve_dead k : ~ live (authority s') k t.
Proof.
  rewrite Hauth, live_update. intros Hk. pose proof resolve_token as Et.
  assert (Hk2 : live (authority s) k t /\ k <> lease_key l).
  { apply (release_live ret quar l (authority s) Hret).
    unfold release, finalize_closed_state_if_drained in Hk. case_match eqn:E; [done|].
    apply orb_false_iff in E as [Er%negb_false_iff Ep%negb_false_iff%bool_decide_eq_true].
    destruct Hk as [[? _]|Hk]; [cbn in *; congruence|]. right. done. }
  destruct Hk2 as [Hk2 Hne]. destruct (live_lease _ _ _ _ _ Hs Hl Hk2) as (E & _). congruence.
Qed.

Lemma resolve_claims : claims_inv (S n) s'.
Proof.
  destruct resolve_evolves as [Ha He].
  destruct (release_frame ret quar l (authority s)) as (Ep & En & _).
  assert (Hn : next_scope_epoch_field (authority s') = next_scope_epoch_field (authority s))
    by (by rewrite Hauth, update_next).
  apply (claims_step n s s' (Some (lease_key l))); [done|done|exact He|by eapply quiet_next|].
  eapply resolve_leases; try done; [apply resolve_dead|].
  rewrite Hauth, update_persisting. exact Ep.
Qed.
End Resolve.

(** A lease that is not open may lose its status. *)
Lemma stale_claims n s s' t l st :
  claims_inv n s -> leases s !! t = Some l ->
  (st = status l \/ (st <> LEASE_ACTIVE /\ forall k, ~ live (authority s) k t)) ->
  authority s' = authority s -> leases s' = <[t := l <| status := st |>]> (leases s) ->
  guards s' = guards s \/ (guards s' = guards s ∖ {[t]} /\ forall k, ~ live (authority s) k t) ->
  claims_inv (S n) s'.
Proof.
  intros Hs Hl Hst Ea El Hg. pose proof (ci_state _ _ Hs) as Ha.
  assert (Hact : st = LEASE_ACTIVE -> status l = LEASE_ACTIVE) by (destruct Hst as [->|[? _]]; done).
  eapply (claims_step n s s' None); [done|by rewrite Ea|rewrite Ea; apply evolves_refl| |].
  { by eapply quiet_next; [|rewrite Ea]. }
  split.
  - intros t' l'. rewrite El. destruct (decide (t = t')) as [<-|Hne].
    + rewrite lookup_insert_eq. intros [= <-]. exists l. done.
    + rewrite lookup_insert_ne by done. intros Hl'. exists l'. repeat split; [done|by destruct l'|done].
  - intros t' l0 Hl0. rewrite El, Ea. destruct (decide (t = t')) as [<-|Hne].
    + rewrite lookup_insert_eq. simplify_eq. eexists. split; [done|].
      destruct Hst as [->|[_ ?]]; auto.
    + rewrite lookup_insert_ne by done. eauto.
  - destruct Hg as [->|[-> _]]; set_solver.
  - intros k t'. rewrite Ea. intros E Ht'. destruct Hg as [->|[-> Hd]]; [done|].
    apply elem_of_difference. split; [done|]. intros ->%elem_of_singleton.
    apply (Hd k). by right.
  - done.
Qed.
