(* ===== verification/LootResolve.v ===== *)
(** How a claim of the loot authority resolves: commit, abort, quarantine and
    rollback of an open claim and of a stale one; the claims invariant holds in
    every reachable state. *)
From S2P Require Import Prelude Guid LootModel LootAuthority LootSystem LootInvariant LootSteps.
From S2P Require Import LootClaims.

(** What a commit writes to the pool. *)
Definition claim_effect (l : LootClaimLease) (loot : CreatureLoot) : CreatureLoot :=
  match lease_key l with
  | KeyItem k => (mark_item_looted_for_player_like_cpp (claim_list_id k) (lease_player l) loot).1
  | KeyMoney _ => loot <| coins := 0 |>
  end.

(** The state after an open claim commits. *)
Definition committed_state (l : LootClaimLease) (a : AuthorityState) : AuthorityState :=
  update_loot (reservation_scope (lease_key l)) (claim_effect l)
    (release (retired a) (quarantined a) l a).

Lemma finalize_update s f a :
  finalize_closed_state_if_drained (update_loot s f a)
  = update_loot s f (finalize_closed_state_if_drained a).
Proof.
  unfold finalize_closed_state_if_drained.
  replace (retired (update_loot s f a)) with (retired a) by (by destruct s).
  replace (persisting (update_loot s f a)) with (persisting a) by (by destruct s).
  case_match; [done|]. destruct a, s; reflexivity.
Qed.

Lemma drop_update l s f a : drop_claim l (update_loot s f a) = update_loot s f (drop_claim l a).
Proof. by destruct s. Qed.

Lemma release_same l a : release (retired a) (quarantined a) l a
  = finalize_closed_state_if_drained (drop_claim l a).
Proof. done. Qed.

Lemma persists_spec a l : persists a l = true <-> persisting a !! lease_key l = Some (lease_token l).
Proof. apply bool_decide_eq_true. Qed.
Lemma reserved_spec a l : reserved a l = true <-> reservations a !! lease_key l = Some (lease_token l).
Proof. apply bool_decide_eq_true. Qed.
Lemma current_spec a l : current a l = true <->
  scope_epochs a !! reservation_scope (lease_key l) = Some (lease_generation l).
Proof. apply bool_decide_eq_true. Qed.

Lemma live_bools a l :
  state_inv a -> live a (lease_key l) (lease_token l) ->
  reserved a l = true /\ (persists a l = true \/ (persists a l = false /\ retired a = false)).
Proof.
  intros Ha HL. rewrite reserved_spec.
  destruct (persists a l) eqn:Ep.
  - apply persists_spec in Ep. split; [by apply (si_subset a Ha)|auto].
  - destruct HL as [[Hr HL]|HL]; [auto|]. apply persists_spec in HL. congruence.
Qed.

Lemma claimable_pool a l :
  claimable a l -> exists loot,
    loot_for_scope a (reservation_scope (lease_key l)) = Some loot
    /\ apply_claim l a
       = (update_loot (reservation_scope (lease_key l)) (claim_effect l) a, true)
    /\ loot_evolves (Some (lease_key l)) (reservation_scope (lease_key l)) loot
         (claim_effect l loot).
Proof.
  unfold claimable, apply_claim, claim_effect. destruct (lease_key l) as [k|s] eqn:Hk; simpl.
  - intros (loot & e & Hl & He & Hlo & Hkey & Hp). exists loot. split; [done|]. rewrite Hl. split.
    + destruct (mark_item_spec _ _ _ _ He Hlo) as (l' & -> & _). done.
    + rewrite Hkey. by apply mark_item_evolves.
  - intros (loot & Hl & _). exists loot. split; [done|]. rewrite Hl. split; [done|].
    split; [|done|done]. intros id.
    change (item_like_cpp id (loot <| coins := 0 |>)) with (item_like_cpp id loot).
    by destruct (item_like_cpp id loot).
Qed.

Section Lease.
Variables (n : nat) (s : LootSystem) (t : Z) (l : LootClaimLease).
Hypotheses (Hs : claims_inv n s) (Hl : leases s !! t = Some l).

Let a := authority s.

Lemma lease_token_eq : lease_token l = t.
Proof. by apply (ci_leases _ _ Hs) in Hl as (? & _). Qed.

(** An open claim that its owner commits is applied, once and at once. *)
Lemma commit_live owner :
  live a (lease_key l) t -> owner = true \/ persists a l = false ->
  exists loot,
    loot_for_scope a (reservation_scope (lease_key l)) = Some loot
    /\ commit_claim_with_snapshot a l owner
       = (committed_state l a, l <| status := LEASE_COMMITTED |>,
          Ok (mkCommitOutcome true (Some (mkSnapshot (lease_generation l)
                (reservation_scope (lease_key l)) (claim_effect l loot)))), true).
Proof.
  intros HL Hown. destruct (live_lease _ _ _ _ _ Hs Hl HL) as (_ & Hst & Hep & Hc).
  rewrite <- lease_token_eq in HL. destruct (live_bools a l (ci_state _ _ Hs) HL) as [Hr Hp].
  assert (Hcur : current a l = true) by (by apply current_spec).
  destruct (claimable_pool a l Hc) as (loot & Hloot & Happ & _).
  exists loot. split; [done|]. unfold commit_claim_with_snapshot.
  rewrite Hst. change (LEASE_ACTIVE =? LEASE_COMMITTED) with false.
  change (LEASE_ACTIVE =? LEASE_QUARANTINED) with false.
  change (LEASE_ACTIVE =? LEASE_ROLLED_BACK) with false. cbv iota.
  rewrite Hcur, Hr, Happ. simpl negb.
  assert (E1 : persists a l && negb owner = false)
    by (destruct Hown as [-> | ->]; [by rewrite andb_false_r|done]).
  assert (E2 : retired a && negb (persists a l) || false = false)
    by (destruct Hp as [-> | [-> ->]]; [by rewrite andb_false_r|done]).
  rewrite E1, E2. cbv iota. unfold scope_epoch.
  replace (scope_epochs (update_loot (reservation_scope (lease_key l)) (claim_effect l) a))
    with (scope_epochs a) by (by destruct (reservation_scope (lease_key l))).
  fold a in Hep. rewrite Hep, loot_for_update, bool_decide_true, Hloot by done. simpl.
  by rewrite drop_update, finalize_update.
Qed.

(** A commit of a claim that is not open, or by the wrong owner, changes nothing
    but the status of the lease. *)
Lemma commit_stale owner :
  (forall k, ~ live a k t) \/ (owner = false /\ persists a l = true) ->
  exists st r b, commit_claim_with_snapshot a l owner = (a, l <| status := st |>, r, b)
    /\ (st = status l \/ (st <> LEASE_ACTIVE /\ forall k, ~ live a k t))
    /\ (forall o, r = Ok o -> first_commit o = false)
    /\ (forall o, r = Ok o -> forall k, ~ live a k t).
Proof.
  intros H. unfold commit_claim_with_snapshot.
  assert (Hself : l <| status := status l |> = l) by (by destruct l).
  assert (Hdead : status l <> LEASE_ACTIVE -> forall k, ~ live a k t).
  { intros Hne k HL. by destruct (live_lease _ _ _ _ _ Hs Hl HL) as (_ & ? & _). }
  assert (Hkeep : forall (r : result LootClaimCommitOutcome LootClaimCommitError),
    (forall o, r = Ok o -> first_commit o = false /\ forall k, ~ live a k t) ->
    exists st r' b, (a, l, r, false) = (a, l <| status := st |>, r', b)
    /\ (st = status l \/ (st <> LEASE_ACTIVE /\ forall k, ~ live a k t))
    /\ (forall o, r' = Ok o -> first_commit o = false)
    /\ (forall o, r' = Ok o -> forall k, ~ live a k t)).
  { intros r Hr. exists (status l), r, false. rewrite Hself. naive_solver. }
  destruct (Z.eqb_spec (status l) LEASE_COMMITTED) as [E1|E1].
  { apply Hkeep. intros o [= <-]. split; [done|]. apply Hdead. by rewrite E1. }
  destruct (Z.eqb_spec (status l) LEASE_QUARANTINED); [by apply Hkeep|].
  destruct (Z.eqb_spec (status l) LEASE_ROLLED_BACK); [by apply Hkeep|].
  destruct (persists a l && negb owner) eqn:E2; [by apply Hkeep|].
  assert (Hd : forall k, ~ live a k t).
  { destruct H as [H|[-> Hp]]; [done|]. by rewrite Hp in E2. }
  assert (Hp : persists a l = false).
  { apply Bool.not_true_iff_false. rewrite persists_spec, lease_token_eq. intros E.
    apply (Hd (lease_key l)). by right. }
  rewrite Hp. rewrite !andb_true_r.
  destruct (retired a || negb (current a l)) eqn:E3.
  { exists LEASE_ROLLED_BACK. eexists _, _. split; [reflexivity|]. naive_solver. }
  destruct (reserved a l) eqn:E4.
  { apply orb_false_iff in E3 as [Hr _]. apply reserved_spec in E4.
    rewrite lease_token_eq in E4. exfalso. apply (Hd (lease_key l)). by left. }
  exists LEASE_ROLLED_BACK. eexists _, _. split; [reflexivity|]. naive_solver.
Qed.

(** A claim that its guard's drop aborts, or an unknown COMMIT quarantines, is
    persisting; otherwise nothing happens. *)
Lemma abort_spec :
  (persisting a !! lease_key l = Some t
   /\ abort_claim_persistence a l
      = (release (retired a) (quarantined a) l a, l <| status := LEASE_ROLLED_BACK |>, true, true))
  \/ ((forall k, persisting a !! k <> Some t)
      /\ abort_claim_persistence a l = (a, l, false, false)).
Proof.
  unfold abort_claim_persistence. destruct (persists a l) eqn:Hp.
  - apply persists_spec in Hp as E. rewrite lease_token_eq in E. left. split; [done|].
    destruct (live_lease n s _ t l Hs Hl (or_intror E)) as (_ & -> & _). done.
  - right. split; [|by rewrite orb_true_r]. intros k E.
    destruct (live_lease n s _ t l Hs Hl (or_intror E)) as (Hk & _).
    apply Bool.not_true_iff_false in Hp. apply Hp, persists_spec. by rewrite lease_token_eq, Hk.
Qed.

Lemma quarantine_spec :
  (persisting a !! lease_key l = Some t
   /\ quarantine_claim_persistence_commit_unknown a l
      = (release true true l a, l <| status := LEASE_QUARANTINED |>, true, true))
  \/ ((forall k, persisting a !! k <> Some t)
      /\ quarantine_claim_persistence_commit_unknown a l = (a, l, false, false)).
Proof.
  unfold quarantine_claim_persistence_commit_unknown. destruct (persists a l) eqn:Hp.
  - apply persists_spec in Hp as E. rewrite lease_token_eq in E. left. split; [done|].
    destruct (live_lease n s _ t l Hs Hl (or_intror E)) as (_ & -> & _). done.
  - right. split; [|by rewrite orb_true_r]. intros k E.
    destruct (live_lease n s _ t l Hs Hl (or_intror E)) as (Hk & _).
    apply Bool.not_true_iff_false in Hp. apply Hp, persists_spec. by rewrite lease_token_eq, Hk.
Qed.

(** An open claim that does not persist is released by a rollback; one that
    persists is left alone; a stale lease only changes its status, or drops the
    reservation it kept in a quarantined authority. *)
Lemma rollback_spec :
  (live a (lease_key l) t /\ persists a l = false
   /\ rollback_claim a l
      = (release (retired a) (quarantined a) l a, l <| status := LEASE_ROLLED_BACK |>, true, true))
  \/ (retired a = true /\ persisting a !! lease_key l = None
      /\ rollback_claim a l
      = (a <| reservations := delete (lease_key l) (reservations a) |>,
         l <| status := LEASE_ROLLED_BACK |>, true, true))
  \/ (exists st, rollback_claim a l = (a, l <| status := st |>, false, false)
      /\ (st = status l \/ (st <> LEASE_ACTIVE /\ forall k, ~ live a k t))).
Proof.
  pose proof (ci_state _ _ Hs) as Ha. fold a in Ha. unfold rollback_claim.
  assert (Hself : l <| status := status l |> = l) by (by destruct l).
  destruct (Z.eqb_spec (status l) LEASE_ACTIVE) as [Hst|Hst]; simpl negb; cbv iota.
  2: { right. right. exists (status l). rewrite Hself. auto. }
  destruct (persists a l) eqn:Hp.
  { right. right. exists (status l). rewrite Hself. auto. }
  destruct (current a l && reserved a l) eqn:Hcr; cbv zeta.
  - apply andb_true_iff in Hcr as [Hcur%current_spec Hres].
    assert (Hpk : persisting a !! lease_key l = None).
    { destruct (persisting a !! lease_key l) as [t'|] eqn:E; [|done].
      apply (si_subset a Ha) in E as E'. apply reserved_spec in Hres.
      apply Bool.not_true_iff_false in Hp. exfalso. apply Hp, persists_spec. congruence. }
    change (persists (a <| reservations := delete (lease_key l) (reservations a) |>) l)
      with (persists a l). rewrite Hp.
    destruct (retired a) eqn:Hr.
    + right. left. repeat split; try done. rewrite finalize_open; [done|]. right. cbn. intros Hpe.
      destruct (si_drained a Ha Hr Hpe) as (_ & _ & Ee & _). by rewrite Ee, lookup_empty in Hcur.
    + left. apply reserved_spec in Hres. rewrite lease_token_eq in Hres.
      repeat split; [by left|]. pose proof (release_same l a) as R.
      rewrite Hr in R. rewrite R. unfold drop_claim.
      by rewrite (delete_id (persisting a)).
  - right. right. exists LEASE_ROLLED_BACK. rewrite Hp, finalize_id by done.
    split; [done|]. right. split; [done|]. intros k HL.
    destruct (live_lease _ _ _ _ _ Hs Hl HL) as (<- & _ & Hep & _).
    rewrite <- lease_token_eq in HL. destruct (live_bools a l Ha HL) as [Hr _].
    apply current_spec in Hep. fold a in Hep. by rewrite Hep, Hr in Hcr.
Qed.

(** A claim crosses its durable boundary only while it is open. *)
Lemma begin_spec :
  (retired a = false /\ reservations a !! lease_key l = Some t
   /\ persisting a !! lease_key l = None
   /\ begin_claim_persistence a l
      = (a <| persisting := <[lease_key l := t]> (persisting a) |>, l, Ok tt, false))
  \/ (exists st e, begin_claim_persistence a l = (a, l <| status := st |>, Err e, false)
      /\ (st = status l \/ (st <> LEASE_ACTIVE /\ forall k, ~ live a k t))).
Proof.
  pose proof (ci_state _ _ Hs) as Ha. fold a in Ha. unfold begin_claim_persistence.
  assert (Hkeep : forall e : LootClaimCommitError,
    exists st e', (a, l, Err e : result unit LootClaimCommitError, false)
                  = (a, l <| status := st |>, Err e', false)
    /\ (st = status l \/ (st <> LEASE_ACTIVE /\ forall k, ~ live a k t))).
  { intros e. exists (status l), e. split; [by destruct l|auto]. }
  destruct (Z.eqb_spec (status l) LEASE_COMMITTED); [by right|].
  destruct (Z.eqb_spec (status l) LEASE_ROLLED_BACK); [by right|].
  destruct (Z.eqb_spec (status l) LEASE_ACTIVE) as [Hst|Hst]; [|right; apply Hkeep].
  simpl negb. cbv iota. destruct (persists a l) eqn:Hp; [by right|].
  assert (Hnp : forall k, persisting a !! k <> Some t).
  { intros k E. destruct (live_lease n s _ t l Hs Hl (or_intror E)) as (Hk & _).
    apply Bool.not_true_iff_false in Hp. apply Hp, persists_spec. by rewrite lease_token_eq, Hk. }
  destruct (retired a) eqn:Hr; simpl orb; cbv iota.
  { right. exists LEASE_ROLLED_BACK. eexists. split; [done|]. right. split; [done|].
    intros k [[? _]|E]; [congruence|by eapply Hnp]. }
  destruct (current a l) eqn:Hcur; simpl negb; cbv iota.
  2: { right. exists LEASE_ROLLED_BACK. eexists. split; [done|]. right. split; [done|].
    intros k HL. destruct (live_lease _ _ _ _ _ Hs Hl HL) as (<- & _ & Hep & _).
    apply current_spec in Hep. fold a in Hep. congruence. }
  destruct (reserved a l) eqn:Hres; simpl negb; cbv iota.
  - left. apply reserved_spec in Hres. rewrite lease_token_eq in *. repeat split; try done.
    destruct (persisting a !! lease_key l) as [t'|] eqn:E; [|done].
    apply (si_subset a Ha) in E as E'. exfalso. apply (Hnp (lease_key l)). congruence.
  - right. exists LEASE_ROLLED_BACK. eexists. split; [done|]. right. split; [done|].
    intros k HL. destruct (live_lease _ _ _ _ _ Hs Hl HL) as (<- & _).
    rewrite <- lease_token_eq in HL. destruct (live_bools a l Ha HL) as [? _]. congruence.
Qed.
End Lease.

(** * Every step keeps the invariant *)

Lemma on_lease_fields {A} (a' : AuthorityState) l' (x : A) b s :
  let s' := on_lease (a', l', x, b) s in
  authority s' = a' /\ leases s' = <[lease_token l' := l']> (leases s) /\ guards s' = guards s
  /\ commits s' = commits s /\ installs s' = installs s ++ new_pools (authority s) a'
  /\ changed s' = changed (notify b s).
Proof. unfold on_lease, on_authority, set_authority. destruct b; done. Qed.

Lemma begin_claims n s s' t l :
  claims_inv n s -> leases s !! t = Some l -> retired (authority s) = false ->
  reservations (authority s) !! lease_key l = Some t ->
  persisting (authority s) !! lease_key l = None ->
  authority s' = (authority s) <| persisting := <[lease_key l := t]> (persisting (authority s)) |> ->
  leases s' = leases s -> guards s' = {[t]} ∪ guards s -> claims_inv (S n) s'.
Proof.
  intros Hs Hl Hr Hres Hp Ea El Eg. pose proof Hs as [C1 C2 C3 C4 C5 C6 C7].
  set (a := authority s) in *.
  assert (HL : live a (lease_key l) t) by (by left).
  assert (L : forall k t', live (authority s') k t' -> live a k t').
  { intros k t' [[_ E]|E]; rewrite Ea in E; cbn in E; [by left|].
    apply lookup_insert_Some in E as [[<- <-]|[_ E]]; [done|by right]. }
  assert (Hg : generation a <> 0).
  { intros [E _]%(si_pristine a C3). congruence. }
  destruct C3 as [S1 S2 S3 S4 S5 S6 S7 S8].
  split; rewrite ?Ea, ?El; cbn; try lia; try done.
  - split; cbn; try done; try congruence.
    + intros k t' [[<- <-]|[_ E]]%lookup_insert_Some; [done|by apply S5].
    + intros k t' HLk. apply (S6 k t'). apply L. by rewrite Ea.
  - intros k t' HLk. assert (HLk' : live a k t') by (apply L; by rewrite Ea). apply C5 in HLk'.
    done.
  - intros k t' E. rewrite Eg. apply lookup_insert_Some in E as [[<- <-]|[_ E]]; [set_solver|].
    apply C6 in E. set_solver.
  - intros t'. rewrite Eg. intros [->%elem_of_singleton|Ht]%elem_of_union.
    + exists l. split; [done|]. intros _. apply lookup_insert_eq.
    + destruct (C7 t' Ht) as (l0 & Hl0 & Hact). exists l0. split; [done|]. intros E%Hact.
      rewrite lookup_insert_ne; [done|]. intros Ek. congruence.
Qed.

Section ExecLease.
Variables (n : nat) (s : LootSystem) (t : Z) (l : LootClaimLease).
Hypotheses (Hs : claims_inv n s) (Hl : leases s !! t = Some l).

Lemma committed_claims s' :
  live (authority s) (lease_key l) t ->
  authority s' = committed_state l (authority s) ->
  leases s' = <[t := l <| status := LEASE_COMMITTED |>]> (leases s) ->
  guards s' = guards s \/ guards s' = guards s ∖ {[t]} -> claims_inv (S n) s'.
Proof.
  intros HL Ea El Hg. destruct (live_lease _ _ _ _ _ Hs Hl HL) as (_ & _ & _ & Hc).
  destruct (claimable_pool _ _ Hc) as (loot & Hloot & _ & He).
  apply (resolve_claims n s s' t l (retired (authority s)) (quarantined (authority s))
           LEASE_COMMITTED (claim_effect l)); try done.
  - intros Hq. apply (si_closed _ (ci_state _ _ Hs)). by right.
  - intros loot' Hloot'. rewrite Hloot in Hloot'. by injection Hloot' as <-.
  - destruct Hg as [-> | ->]; set_solver.
  - intros x Hx. destruct Hg as [-> | ->]; [by right|]. destruct (decide (x = t)); set_solver.
Qed.

Lemma released_claims s' ret quar st :
  live (authority s) (lease_key l) t ->
  (ret = false -> retired (authority s) = false) -> (quar = true -> ret = true) ->
  st <> LEASE_ACTIVE ->
  authority s' = release ret quar l (authority s) ->
  leases s' = <[t := l <| status := st |>]> (leases s) ->
  guards s' = guards s \/ guards s' = guards s ∖ {[t]} -> claims_inv (S n) s'.
Proof.
  intros HL Hret Hquar Hst Ea El Hg.
  eapply (resolve_claims n s s' t l ret quar st id); try done.
  - by rewrite update_loot_id.
  - destruct Hg as [-> | ->]; set_solver.
  - intros x Hx. destruct Hg as [-> | ->]; [by right|]. destruct (decide (x = t)); set_solver.
Qed.
End ExecLease.

Section ExecOps.
Variables (n : nat) (s : LootSystem) (t : Z) (l : LootClaimLease).
Hypotheses (Hs : claims_inv n s) (Hl : leases s !! t = Some l).


(** A commit either applies an open claim or leaves the pools alone. *)
Lemma commit_cases owner :
  (live (authority s) (lease_key l) t /\ (owner = true \/ persists (authority s) l = false))
  \/ ((forall k, ~ live (authority s) k t) \/ (owner = false /\ persists (authority s) l = true)).
Proof.
  destruct (decide (reservations (authority s) !! lease_key l = Some t
                    /\ retired (authority s) = false)) as [[Hr Ho]|Hn].
  - assert (HL : live (authority s) (lease_key l) t) by (by left).
    destruct owner; [auto|]. destruct (persists (authority s) l) eqn:Hp; auto.
  - destruct (persists (authority s) l) eqn:Hp.
    + apply persists_spec in Hp as E. rewrite (lease_token_eq n s t l Hs Hl) in E.
      destruct owner; [|auto]. left. split; [by right|auto].
    + right. left. intros k HL. destruct (live_lease _ _ _ _ _ Hs Hl HL) as (<- & _).
      destruct HL as [[? ?]|E]; [by apply Hn|]. apply Bool.not_true_iff_false in Hp.
      apply Hp, persists_spec. by rewrite (lease_token_eq n s t l Hs Hl).
Qed.

Lemma commit_lease_claims owner : claims_inv (S n) (commit_lease l owner s).
Proof.
  pose proof (lease_token_eq n s t l Hs Hl) as Et. unfold commit_lease.
  destruct (commit_cases owner) as [[HL Hown]|Hstale].
  - destruct (commit_live n s t l Hs Hl owner HL Hown) as (loot & _ & ->).
    cbv beta iota zeta delta [first_commit].
    match goal with |- claims_inv _ (log_commit _ (on_lease (?a', ?l', ?x, ?b) _)) =>
      destruct (on_lease_fields a' l' x b s) as (Ea & El & Eg & _) end.
    apply (committed_claims n s t l Hs Hl); [done|exact Ea| |left; exact Eg].
    unfold log_commit. cbn -[on_lease]. rewrite El. cbn. by rewrite Et.
  - destruct (commit_stale n s t l Hs Hl owner Hstale) as (st & r & b & -> & Hst & Hno & _).
    cbv beta iota zeta.
    destruct (on_lease_fields (authority s) (l <| status := st |>) r b s) as (Ea & El & Eg & _).
    assert (E : match r with
                | Ok o => if first_commit o then log_commit l (on_lease (authority s, l <| status := st |>, r, b) s)
                          else on_lease (authority s, l <| status := st |>, r, b) s
                | Err _ => on_lease (authority s, l <| status := st |>, r, b) s
                end = on_lease (authority s, l <| status := st |>, r, b) s).
    { destruct r as [o|]; [|done]. by rewrite (Hno o). }
    rewrite E. apply (stale_claims n s _ t l st); auto.
    rewrite El. cbn. by rewrite Et.
Qed.

Lemma rollback_lease_claims :
  claims_inv (S n) (on_lease (rollback_claim (authority s) l) s).
Proof.
  pose proof (lease_token_eq n s t l Hs Hl) as Et.
  destruct (rollback_spec n s t l Hs Hl)
    as [(HL & Hp & ->)|[(Hr & Hp & ->)|(st & -> & Hst)]].
  - match goal with |- claims_inv _ (on_lease (?a', ?l', ?x, ?b) _) =>
      destruct (on_lease_fields a' l' x b s) as (Ea & El & Eg & _) end.
    apply (released_claims n s t l Hs Hl _ (retired (authority s)) (quarantined (authority s))
      LEASE_ROLLED_BACK); [done| | | |exact Ea| |left; exact Eg].
    + done.
    + intros Hq. apply (si_closed _ (ci_state _ _ Hs)). by right.
    + done.
    + rewrite El. cbn. by rewrite Et.
  - match goal with |- claims_inv _ (on_lease (?a', ?l', ?x, ?b) _) =>
      destruct (on_lease_fields a' l' x b s) as (Ea & El & Eg & _);
      assert (Lv : forall k t', live a' k t' -> live (authority s) k t') end.
    { intros k t' [[? _]|?]; [cbn in *; congruence|by right]. }
    pose proof (ci_state _ _ Hs) as [S1 S2 S3 S4 S5 S6 S7 S8].
    apply (claims_step n s _ None); [done| | | |].
    + rewrite Ea. split; cbn; try done.
      * intros _ Hpe. destruct (S4 Hr Hpe) as (? & ? & ? & ->). by rewrite delete_empty.
      * intros k t' E. apply lookup_delete_Some. split; [congruence|auto].
      * intros k t' HLk. eapply (S6 k t'), Lv, HLk.
    + rewrite Ea. split; try done.
      * intros k t' HLk. split; [by apply Lv|done].
      * intros sc e. auto.
      * intros sc e lo _ _ Hlo. exists lo. split; [by destruct sc|auto].
    + rewrite Ea. by eapply quiet_next.
    + split; rewrite ?Eg; try done.
      * intros t' l'. rewrite El. cbn. rewrite Et. destruct (decide (t = t')) as [<-|Hne].
        -- rewrite lookup_insert_eq. intros [= <-]. by exists l.
        -- rewrite lookup_insert_ne by done. intros Hl'. exists l'. repeat split; [done|by destruct l'|done].
      * intros t' l'. rewrite El, Ea. cbn. rewrite Et. destruct (decide (t = t')) as [<-|Hne].
        -- rewrite lookup_insert_eq. intros E. simplify_eq. eexists. split; [done|]. right.
           intros k HLk. apply Lv in HLk as HLk2.
           destruct (live_lease _ _ _ _ _ Hs Hl HLk2) as (<- & _).
           destruct HLk as [[? _]|?]; cbn in *; congruence.
        -- rewrite lookup_insert_ne by done. eauto.
  - destruct (on_lease_fields (authority s) (l <| status := st |>) false false s)
      as (Ea & El & Eg & _).
    apply (stale_claims n s _ t l st); auto. rewrite El. cbn. by rewrite Et.
Qed.

Lemma begin_guard_claims : claims_inv (S n) (begin_guard l s).
Proof.
  pose proof (lease_token_eq n s t l Hs Hl) as Et. unfold begin_guard.
  destruct (begin_spec n s t l Hs Hl) as [(Hr & Hres & Hp & ->)|(st & e & -> & Hst)];
    cbv beta iota zeta.
  - match goal with |- context [on_lease (?a', ?l', ?x, ?b) _] =>
      destruct (on_lease_fields a' l' x b s) as (Ea & El & Eg & _) end.
    eapply (begin_claims n s _ t l); try done.
    + cbn -[on_lease]. rewrite El, Et. by apply insert_id.
    + cbn -[on_lease]. by rewrite Eg, Et.
  - match goal with |- context [on_lease (?a', ?l', ?x, ?b) _] =>
      destruct (on_lease_fields a' l' x b s) as (Ea & El & Eg & _) end.
    apply (stale_claims n s _ t l st); auto. rewrite El. cbn. by rewrite Et.
Qed.

Lemma guard_commit_claims : claims_inv (S n) (guard_commit l s).
Proof.
  pose proof (lease_token_eq n s t l Hs Hl) as Et. unfold guard_commit, commit_lease.
  destruct (commit_cases true) as [[HL Hown]|Hstale].
  - destruct (commit_live n s t l Hs Hl true HL Hown) as (loot & _ & ->).
    cbv beta iota zeta delta [first_commit].
    match goal with |- context [on_lease (?a', ?l', ?x, ?b) _] =>
      destruct (on_lease_fields a' l' x b s) as (Ea & El & Eg & _) end.
    apply (committed_claims n s t l Hs Hl); [done|exact Ea| |right].
    + cbn -[on_lease]. rewrite El. cbn. by rewrite Et.
    + cbn -[on_lease]. by rewrite Eg, Et.
  - destruct (commit_stale n s t l Hs Hl true Hstale) as (st & r & b & -> & Hst & Hno & Hok).
    cbv beta iota zeta.
    destruct (on_lease_fields (authority s) (l <| status := st |>) r b s) as (Ea & El & Eg & _).
    destruct r as [o|e].
    + rewrite (Hno o eq_refl). apply (stale_claims n s _ t l st); auto.
      * cbn -[on_lease]. rewrite El. cbn. by rewrite Et.
      * right. split; [|by eapply Hok]. cbn -[on_lease]. by rewrite Eg, Et.
    + apply (stale_claims n s _ t l st); auto. rewrite El. cbn. by rewrite Et.
Qed.

Lemma guard_quarantine_claims : claims_inv (S n) (guard_quarantine l s).
Proof.
  pose proof (lease_token_eq n s t l Hs Hl) as Et. unfold guard_quarantine.
  assert (Hself : l <| status := status l |> = l) by (by destruct l).
  destruct (quarantine_spec n s t l Hs Hl) as [(Hp & ->)|(Hnp & ->)]; cbv beta iota zeta.
  - match goal with |- context [on_lease (?a', ?l', ?x, ?b) _] =>
      destruct (on_lease_fields a' l' x b s) as (Ea & El & Eg & _) end.
    apply (released_claims n s t l Hs Hl _ true true LEASE_QUARANTINED);
      [by right|done|done|done|exact Ea| |right].
    + cbn -[on_lease]. rewrite El. cbn. by rewrite Et.
    + cbn -[on_lease]. by rewrite Eg, Et.
  - destruct (on_lease_fields (authority s) l false false s) as (Ea & El & Eg & _).
    apply (stale_claims n s _ t l (status l)); auto. by rewrite El, Et, Hself.
Qed.

Lemma guard_drop_claims : claims_inv (S n) (guard_drop l s).
Proof.
  pose proof (lease_token_eq n s t l Hs Hl) as Et. unfold guard_drop.
  assert (Hself : l <| status := status l |> = l) by (by destruct l).
  destruct (abort_spec n s t l Hs Hl) as [(Hp & ->)|(Hnp & ->)]; cbv beta iota zeta.
  - match goal with |- context [on_lease (?a', ?l', ?x, ?b) _] =>
      destruct (on_lease_fields a' l' x b s) as (Ea & El & Eg & _) end.
    apply (released_claims n s t l Hs Hl _ (retired (authority s)) (quarantined (authority s))
      LEASE_ROLLED_BACK); [by right|done| |done|exact Ea| |right].
    + intros Hq. apply (si_closed _ (ci_state _ _ Hs)). by right.
    + cbn -[on_lease]. rewrite El. cbn. by rewrite Et.
    + cbn -[on_lease]. by rewrite Eg, Et.
  - destruct (on_lease_fields (authority s) l false false s) as (Ea & El & Eg & _).
    eapply (claims_step n s _ None); [done| | | |].
    + cbn -[on_lease]. rewrite Ea. apply (ci_state _ _ Hs).
    + cbn -[on_lease]. rewrite Ea. apply evolves_refl.
    + eapply quiet_next; [done|]. cbn -[on_lease]. by rewrite Ea.
    + assert (El' : leases (on_lease (authority s, l, false, false) s) = leases s)
        by (rewrite El, Et; by apply insert_id).
      split; cbn -[on_lease]; rewrite ?El', ?Ea, ?Eg; try done.
      * intros t' l' Hl'. exists l'. repeat split; [done|by destruct l'|done].
      * eauto.
      * set_solver.
      * intros k t' E Ht'. apply elem_of_difference. split; [done|].
        rewrite Et. intros ->%elem_of_singleton. by apply (Hnp k).
Qed.
End ExecOps.

(** * Reachable states *)

Lemma step_epoch n s : claims_inv n s -> Z.of_nat n + 1 < u64_max ->
  1 <= next_scope_epoch_field (authority s) < u64_max.
Proof. intros [_ C2 _ _ _ _ _]. lia. Qed.

Lemma next_le_bound n s a' : claims_inv n s -> next_le (authority s) a' ->
  next_scope_epoch_field a' <= Z.of_nat n + 2.
Proof. intros [_ C2 _ _ _ _ _]. unfold next_le. lia. Qed.

Lemma attempt_claims n s player r {E} (x : Act (option (result LootClaimLease E))) :
  claims_inv n s -> Z.of_nat n + 1 < u64_max ->
  reserve_spec player (authority s) r.1 r.2 ->
  x = (r.1, match r.2 with
            | Acquired g t k pl => Some (Ok (new_lease g t k player pl))
            | _ => x.1.2 end, false) ->
  (forall l, x.1.2 = Some (Ok l) -> exists g t k pl, r.2 = Acquired g t k pl) ->
  claims_inv (S n) (on_attempt x s).
Proof.
  intros Hs Hn R Hx Hno. destruct r as [a' [g t k pl| |e]]; simpl in *.
  1: {
    rewrite Hx. unfold on_attempt, on_authority, notify.
    eapply (acquire_claims (S n) (on_authority (authority s, tt, false) s)); try done.
    - apply on_authority_claims; [done|apply keeps_refl, Hs|]. by eapply quiet_next.
    - pose proof (ci_token _ _ Hs). cbn. lia.
    - pose proof (ci_token _ _ Hs). cbn. lia. }
  all: subst a'; assert (E1 : on_attempt x s = on_authority (authority s, x.1.2, false) s);
    [rewrite Hx; unfold on_attempt; simpl;
     destruct (x.1.2) as [[l|]|] eqn:Ex; try done;
     destruct (Hno l eq_refl) as (? & ? & ? & ? & ?); done|];
    rewrite E1; apply on_authority_claims; [done|apply keeps_refl, Hs|by eapply quiet_next].
Qed.

Lemma attempt_reserve_claims n s player r :
  claims_inv n s -> Z.of_nat n + 1 < u64_max ->
  reserve_spec player (authority s) r.1 r.2 ->
  claims_inv (S n) (on_attempt (attempt_lease player r) s).
Proof.
  intros Hs Hn R. apply (attempt_claims n s player r); [done|done|done| |].
  - by destruct r as [a' []].
  - destruct r as [a' []]; simpl; [eauto|done|done].
Qed.

(** Publishing a roll and awarding it, in one step. *)
Lemma award_spec sp e id w a :
  (exists r, finish_item_roll_and_reserve_award_like_cpp sp e id w a = unchanged a (Err r))
  \/ (exists s prev, finish_item_roll_and_reserve_award_like_cpp sp e id w a
      = unchanged (update_loot s (restore_loot id prev) (update_loot s (finish_loot id false w) a))
          (Err ErrItemAlreadyLooted))
  \/ (exists s a' g t k pl,
      finish_item_roll_and_reserve_award_like_cpp sp e id w a
      = (a', Ok (new_lease g t k w pl), true)
      /\ reserve_spec w (update_loot s (finish_loot id false w) a) a' (Acquired g t k pl)).
Proof.
  unfold finish_item_roll_and_reserve_award_like_cpp.
  destruct (retired a); [left; eauto|].
  destruct (selected_scope_like_cpp a sp) as [s|]; [|left; eauto].
  destruct (negb (bool_decide (selected_scope_like_cpp a w = Some s))); [left; eauto|].
  destruct (negb _); [left; eauto|].
  destruct (loot_for_scope a s); [|left; eauto].
  destruct (item_like_cpp id _) as [prev|]; [|left; eauto].
  pose proof (reserve_item_spec w id Award (Some e) (update_loot s (finish_loot id false w) a)) as R.
  cbv zeta. destruct (reserve_item_once w id Award (Some e) _) as [a' [g t k pl| |x]]; simpl in R.
  - right. right. exists s, a', g, t, k, pl. split; [done|exact R].
  - subst a'. right. left. eauto.
  - subst a'. right. left. eauto.
Qed.

Lemma award_claims n s sp e id w :
  claims_inv n s -> Z.of_nat n + 1 < u64_max ->
  claims_inv (S n)
    (on_reserve (finish_item_roll_and_reserve_award_like_cpp sp e id w (authority s)) s).
Proof.
  intros Hs Hn. pose proof (ci_state _ _ Hs) as Ha.
  destruct (award_spec sp e id w (authority s))
    as [[r ->]|[(sc & prev & ->)|(sc & a' & g & t & k & pl & -> & R)]].
  - apply on_authority_claims; [done|by apply keeps_refl|by eapply quiet_next].
  - apply on_authority_claims; [done| |].
    + by apply update_twice_keeps.
    + eapply quiet_next; [done|]. simpl. by rewrite !update_next.
  - set (a1 := update_loot sc (finish_loot id false w) (authority s)) in *.
    assert (H1 : claims_inv (S n) (on_authority (a1, tt, false) s)).
    { apply on_authority_claims; [done|by apply update_keeps|].
      eapply quiet_next; [done|]. simpl. apply update_next. }
    assert (Et : next_token_field a1 = next_token_field (authority s)) by (by destruct sc).
    pose proof (ci_token _ _ Hs).
    eapply (acquire_claims (S n) (on_authority (a1, tt, false) s)); [done| | |exact R|done|done].
    + change (next_token_field a1 <= Z.of_nat (S n)). lia.
    + change (next_token_field a1 < u64_max). lia.
Qed.

Section Reach.
Context {Ord : IterOrder ObjectGuid}.

Lemma idle_claims n s : claims_inv n s -> claims_inv (S n) s.
Proof.
  intros Hs. apply (claims_step n s s None); [done|apply Hs|apply evolves_refl| |].
  - by eapply quiet_next.
  - by apply leases_step_same.
Qed.

Lemma with_lease_claims n s t f :
  claims_inv n s ->
  (forall l, leases s !! t = Some l -> claims_inv (S n) (f l s)) ->
  claims_inv (S n) (with_lease t f s).
Proof.
  intros Hs Hf. unfold with_lease. destruct (leases s !! t) eqn:E; [by apply Hf|].
  by apply idle_claims.
Qed.

Lemma with_guard_claims n s t f :
  claims_inv n s ->
  (forall l, leases s !! t = Some l -> claims_inv (S n) (f l s)) ->
  claims_inv (S n) (with_guard t f s).
Proof.
  intros Hs Hf. unfold with_guard. case_bool_decide; [|by apply idle_claims].
  by apply with_lease_claims.
Qed.

(** What an operation that hands out or resolves no claim does to the authority. *)
Definition authority_op (op : LootOp) : option (AuthorityState -> AuthorityState * bool) :=
  let keep {A} (r : Act A) := (r.1.1, r.2) in
  match op with
  | LDetach => Some (fun a => keep (detach_like_cpp a))
  | LDetachIfStamp e => Some (fun a => keep (detach_if_stamp_like_cpp e a))
  | LInitialize sh ps => Some (fun a => keep (initialize_like_cpp sh ps a))
  | LReplaceRetired e sh ps =>
      Some (fun a => keep (replace_retired_generation_like_cpp e sh ps a))
  | LReplace sh ps => Some (fun a => keep (replace_like_cpp sh ps a))
  | LInitializeShared loot => Some (fun a => keep (initialize_shared_like_cpp loot a))
  | LUpsertPersonal p loot r => Some (fun a => keep (upsert_personal_like_cpp p loot r a))
  | LRetire => Some (fun a => keep (retire_like_cpp a))
  | LOpenView p publish => Some (fun a => keep (try_open_view_with_snapshot_like_cpp p
        (fun x o => if publish x o then Some tt else None) a))
  | LRemoveViewer p => Some (fun a => keep (remove_viewer_like_cpp p a))
  | LRemoveViewerIf e p => Some (fun a => keep (remove_viewer_if_generation_like_cpp e p a))
  | LCloseViewer e p => Some (fun a => keep (close_viewer_if_generation_like_cpp e p a))
  | LClearRoundRobin e p => Some (fun a => keep (clear_round_robin_if_generation_like_cpp e p a))
  | LFinishRoll p e id t w => Some (fun a => keep (finish_item_roll_like_cpp p e id t w a))
  | _ => None
  end.

Lemma authority_op_exec op f s :
  authority_op op = Some f ->
  loot_exec op s = on_authority ((f (authority s)).1, tt, (f (authority s)).2) s.
Proof.
  destruct op; try discriminate; intros [= <-]; simpl;
    match goal with |- on_authority ?r s = _ => by destruct r as [[? ?] ?] end.
Qed.

Lemma authority_op_keeps op f a :
  authority_op op = Some f -> loot_op_ok op -> state_inv a ->
  1 <= next_scope_epoch_field a < u64_max -> keeps a (f a).1 /\ next_le a (f a).1.
Proof.
  intros Hf Hok Ha Hn.
  destruct op; try discriminate; injection Hf as <-; simpl in *; split;
    try destruct Hok as [? ?];
    eauto using detach_keeps, detach_if_stamp_keeps, retire_keeps, initialize_keeps,
      replace_retired_keeps, replace_keeps, initialize_shared_keeps, upsert_keeps,
      remove_viewer_keeps, remove_viewer_if_keeps, close_viewer_keeps,
      clear_round_robin_keeps, finish_roll_keeps, open_view_keeps;
    eauto using detach_next, detach_if_next, retire_next, remove_viewer_next,
      remove_viewer_if_next, close_viewer_next, clear_round_robin_next, finish_roll_next,
      open_view_next;
    [apply initialize_next|apply replace_retired_next|apply replace_next
    |apply initialize_shared_next|apply upsert_next]; lia.
Qed.

Lemma exec_claims n s op :
  claims_inv n s -> loot_op_ok op -> Z.of_nat n + 1 < u64_max ->
  claims_inv (S n) (loot_exec op s).
Proof.
  intros Hs Hok Hn. destruct (authority_op op) as [f|] eqn:Hf.
  - rewrite (authority_op_exec op f s Hf).
    destruct (authority_op_keeps op f (authority s) Hf Hok (ci_state _ _ Hs) (step_epoch n s Hs Hn)).
    apply on_authority_claims; [done|done|by eapply next_le_bound].
  - destruct op; try discriminate; simpl.
    + by apply award_claims.
    + apply attempt_reserve_claims; [done|done|apply reserve_item_spec].
    + apply attempt_reserve_claims; [done|done|apply reserve_money_spec].
    + apply with_lease_claims; [done|]. intros l Hl. by apply commit_lease_claims with token.
    + apply with_lease_claims; [done|]. intros l Hl. by apply rollback_lease_claims with token.
    + apply with_lease_claims; [done|]. intros l Hl. by apply begin_guard_claims with token.
    + apply with_guard_claims; [done|]. intros l Hl. by apply guard_commit_claims with token.
    + apply with_guard_claims; [done|]. intros l Hl. by apply guard_quarantine_claims with token.
    + apply with_guard_claims; [done|]. intros l Hl. by apply guard_drop_claims with token.
Qed.

Lemma reachable_claims n s :
  loot_reachable n s -> Z.of_nat n < u64_max -> claims_inv n s.
Proof.
  induction 1 as [| |n s op Hr IH Hok]; intros Hn.
  - apply claims_initial. by left.
  - apply claims_initial. by right.
  - apply exec_claims; [apply IH; lia|done|lia].
Qed.
End Reach.
