(* ===== verification/LootLedger.v ===== *)
(** The ledger of the loot authority: what was installed under each epoch, what
    was first committed, and what is left. *)
From S2P Require Import Prelude Guid LootModel LootAuthority LootSystem LootInvariant LootSteps.
From S2P Require Import LootClaims LootResolve.

(** * The log *)

(** The item claims that were committed, with the generation they were reserved in. *)
Definition item_commits (cs : list LootCommit) : list (LootItemClaimKey * Z) :=
  omap (fun c => match commit_key c with
                 | KeyItem k => Some (k, commit_generation c)
                 | KeyMoney _ => None
                 end) cs.

(** What one commit, and all of them, paid out of the pool of a scope and epoch. *)
Definition amount (sc : OwnedLootScope) (e : Z) (c : LootCommit) : Z :=
  if bool_decide (commit_key c = KeyMoney sc) && (commit_generation c =? e) then
    match commit_payload c with PayloadMoney m => m | PayloadItem _ => 0 end
  else 0.

Fixpoint paid (sc : OwnedLootScope) (e : Z) (cs : list LootCommit) : Z :=
  match cs with
  | [] => 0
  | c :: cs => amount sc e c + paid sc e cs
  end.

Lemma paid_app sc e cs c : paid sc e (cs ++ [c]) = paid sc e cs + amount sc e c.
Proof. induction cs as [|c' cs IH]; simpl; lia. Qed.

Lemma paid_none sc e cs : (forall c, c ∈ cs -> commit_generation c <> e) -> paid sc e cs = 0.
Proof.
  induction cs as [|c cs IH]; intros H; simpl; [done|]. rewrite IH by set_solver.
  unfold amount. destruct (Z.eqb_spec (commit_generation c) e) as [E|]; [|by rewrite andb_false_r].
  by apply H in E; [|set_solver].
Qed.

Lemma item_commits_app cs c : item_commits (cs ++ [c]) = item_commits cs ++ item_commits [c].
Proof. apply omap_app. Qed.

(** The item of a claim is gone for its claimant. *)
Definition looted_key (a : AuthorityState) (k : LootItemClaimKey) : Prop :=
  exists loot e, loot_for_scope a (claim_scope k) = Some loot
    /\ item_like_cpp (claim_list_id k) loot = Some e
    /\ forall p, KeyItem k = item_key (claim_scope k) (claim_list_id k) (freeforall (flags e)) p ->
                 is_looted_for_player_like_cpp p e = true.

(** * Steps that commit nothing *)

Definition items_mono (l l' : CreatureLoot) : Prop :=
  forall id e, item_like_cpp id l = Some e -> exists e', item_like_cpp id l' = Some e'
    /\ freeforall (flags e') = freeforall (flags e)
    /\ forall p, is_looted_for_player_like_cpp p e = true -> is_looted_for_player_like_cpp p e' = true.

Record settles (a a' : AuthorityState) : Prop := {
  st_next : next_scope_epoch_field a <= next_scope_epoch_field a';
  st_epochs s e : scope_epochs a' !! s = Some e ->
    scope_epochs a !! s = Some e \/ next_scope_epoch_field a <= e;
  st_pools s e l : scope_epochs a' !! s = Some e -> scope_epochs a !! s = Some e ->
    loot_for_scope a s = Some l ->
    exists l', loot_for_scope a' s = Some l' /\ coins l' = coins l /\ items_mono l l' }.

Lemma loot_evolves_mono ex s l l' : loot_evolves ex s l l' -> items_mono l l'.
Proof.
  intros [H _ _] id e He. specialize (H id). rewrite He in H.
  destruct (item_like_cpp id l') as [e'|]; [|done]. destruct H. eauto.
Qed.

Lemma items_mono_refl l : items_mono l l.
Proof. intros id e He. eauto. Qed.

Lemma evolves_settles a a' : evolves None a a' -> settles a a'.
Proof.
  intros Hev. split; [apply (ev_next _ _ _ Hev)|apply (ev_epochs _ _ _ Hev)|].
  intros s e l He' He Hl. destruct (ev_pools _ _ _ Hev s e l He' He Hl) as (l' & Hl' & K).
  exists l'. repeat split; [done|by apply (le_coins _ _ _ _ K)|by eapply loot_evolves_mono].
Qed.

(** The same pools, or none. *)
Lemma same_pools_settles a a' :
  next_scope_epoch_field a' = next_scope_epoch_field a ->
  (scope_epochs a' = ∅ \/ (scope_epochs a' = scope_epochs a
     /\ forall s, loot_for_scope a' s = loot_for_scope a s)) ->
  settles a a'.
Proof.
  intros Hn [He|[He Hp]]; (split; [lia| |]).
  - intros s e. by rewrite He, lookup_empty.
  - intros s e l. by rewrite He, lookup_empty.
  - intros s e. rewrite He. auto.
  - intros s e l _ _ Hl. exists l. rewrite Hp. repeat split; [done|]. apply items_mono_refl.
Qed.

Lemma finalize_pools a :
  scope_epochs (finalize_closed_state_if_drained a) = ∅
  \/ (scope_epochs (finalize_closed_state_if_drained a) = scope_epochs a
      /\ forall s, loot_for_scope (finalize_closed_state_if_drained a) s = loot_for_scope a s).
Proof. unfold finalize_closed_state_if_drained. case_match; [by right|by left]. Qed.

Lemma release_settles ret quar l a : settles a (release ret quar l a).
Proof.
  apply same_pools_settles; [by unfold release; rewrite finalize_next|].
  destruct (finalize_pools ((drop_claim l a <| retired := ret |>) <| quarantined := quar |>))
    as [E|[E1 E2]]; [by left|right]. split; [exact E1|]. intros s. etrans; [apply E2|].
  by destruct s.
Qed.

(** * The invariant *)

Record ledger_inv (s : LootSystem) : Prop := {
  li_commits c : c ∈ commits s -> commit_generation c < next_scope_epoch_field (authority s);
  li_looted c k : c ∈ commits s -> commit_key c = KeyItem k ->
    scope_epochs (authority s) !! claim_scope k = Some (commit_generation c) ->
    looted_key (authority s) k;
  li_once : NoDup (item_commits (commits s));
  li_installs sc e m : (sc, e, m) ∈ installs s ->
    e < next_scope_epoch_field (authority s)
    /\ (paid sc e (commits s) = 0 \/ paid sc e (commits s) = m);
  li_keys : NoDup (installs s).*1;
  li_current sc e l : scope_epochs (authority s) !! sc = Some e ->
    loot_for_scope (authority s) sc = Some l ->
    exists m, (sc, e, m) ∈ installs s /\ paid sc e (commits s) + coins l = m;
  li_source c sc : c ∈ commits s -> commit_key c = KeyMoney sc ->
    exists m, (sc, commit_generation c, m) ∈ installs s }.

Lemma ledger_initial a :
  scope_epochs a = ∅ -> ledger_inv (initial_loot a).
Proof.
  intros He. split; simpl; try (by intros ? ?%elem_of_nil); try constructor.
  - by intros c k ?%elem_of_nil.
  - by apply elem_of_nil in H.
  - by apply elem_of_nil in H.
  - intros sc e l. by rewrite He, lookup_empty.
  - by intros c sc ?%elem_of_nil.
Qed.

Lemma elem_of_new_pools a a' sc e m :
  (sc, e, m) ∈ new_pools a a' <->
  scope_epochs a' !! sc = Some e /\ scope_epochs a !! sc <> Some e
  /\ m = default 0 (coins <$> loot_for_scope a' sc).
Proof.
  unfold new_pools. rewrite list_elem_of_omap. split.
  - intros ([sc' e'] & Hin%elem_of_map_to_list & E). simpl in E.
    case_bool_decide; simplify_eq. done.
  - intros (He & Hne & ->). exists (sc, e). split; [by apply elem_of_map_to_list|]. simpl.
    by rewrite bool_decide_false.
Qed.

Lemma new_pools_keys a a' : NoDup (new_pools a a').*1.
Proof.
  unfold new_pools. pose proof (NoDup_fst_map_to_list (scope_epochs a')) as Hnd.
  induction (map_to_list (scope_epochs a')) as [|[sc e] l IH]; simpl; [constructor|].
  apply NoDup_cons in Hnd as [Hn Hnd]. case_bool_decide; simpl; [by apply IH|].
  constructor; [|by apply IH]. rewrite list_elem_of_fmap. intros ([[sc' e'] m] & E & Hin).
  simpl in E. injection E as <- <-. apply Hn.
  apply list_elem_of_omap in Hin as ([sc2 e2] & Hin & E). simpl in E.
  case_bool_decide; simplify_eq. apply list_elem_of_fmap. by exists (sc, e).
Qed.

Lemma looted_key_settles a a' k e :
  settles a a' -> scope_epochs a' !! claim_scope k = Some e ->
  scope_epochs a !! claim_scope k = Some e -> looted_key a k -> looted_key a' k.
Proof.
  intros Hst He' He (loot & x & Hl & Hx & Hlo).
  destruct (st_pools _ _ Hst _ _ _ He' He Hl) as (loot' & Hl' & _ & Hm).
  destruct (Hm _ _ Hx) as (x' & Hx' & F & Hmono).
  exists loot', x'. rewrite F. auto.
Qed.

Section Settle.
Variables (n : nat) (s s' : LootSystem).
Hypotheses (Hs : state_inv (authority s)) (Hs' : state_inv (authority s')) (Hl : ledger_inv s)
  (Hst : settles (authority s) (authority s')) (Hc : commits s' = commits s)
  (Hi : installs s' = installs s ++ new_pools (authority s) (authority s')).

(** A scope whose epoch was already there keeps it; another epoch is new. *)
Lemma settle_epoch sc e :
  scope_epochs (authority s') !! sc = Some e -> e < next_scope_epoch_field (authority s) ->
  scope_epochs (authority s) !! sc = Some e.
Proof. intros [?|?]%(st_epochs _ _ Hst) ?; [done|lia]. Qed.

Lemma ledger_settles : ledger_inv s'.
Proof.
  destruct Hl as [L1 L2 L3 L4 L5 L6 L7]. pose proof (st_next _ _ Hst).
  split; rewrite ?Hc; try done.
  - intros c Hin%L1. lia.
  - intros c k Hin Hk He. pose proof (L1 c Hin).
    apply settle_epoch in He as He0; [|done]. by eapply looted_key_settles; eauto.
  - intros sc e m. rewrite Hi, elem_of_app, elem_of_new_pools.
    intros [Hin|(He' & Hne & ->)].
    + apply L4 in Hin as [? ?]. split; [lia|done].
    + split; [by apply (si_epochs _ Hs') in He' as [? _]; lia|]. left. apply paid_none.
      intros c Hin%L1 E. rewrite E in Hin. by apply settle_epoch in He'.
  - rewrite Hi, fmap_app. apply NoDup_app. split; [done|]. split; [|apply new_pools_keys].
    intros [sc e] Hin Hnew. apply list_elem_of_fmap in Hin as ([[? ?] m] & E & Hin).
    apply list_elem_of_fmap in Hnew as ([[? ?] m'] & E' & Hnew). simplify_eq/=.
    apply L4 in Hin as [Hlt _]. apply elem_of_new_pools in Hnew as (He' & Hne & _).
    by apply settle_epoch in He'.
  - intros sc e l He' Hl'. rewrite Hi.
    destruct (decide (scope_epochs (authority s) !! sc = Some e)) as [He|Hne].
    + destruct (si_epochs _ Hs sc e He) as [_ [l0 Hl0]].
      destruct (st_pools _ _ Hst _ _ _ He' He Hl0) as (l1 & Hl1 & Hco & _).
      rewrite Hl' in Hl1. injection Hl1 as <-. rewrite Hco.
      destruct (L6 sc e l0 He Hl0) as (m & Hin & Hm). exists m. set_solver.
    + exists (coins l). split.
      * apply elem_of_app. right. apply elem_of_new_pools. by rewrite Hl'.
      * rewrite paid_none; [lia|]. intros c Hin%L1 E. rewrite E in Hin. by apply settle_epoch in He'.
  - intros c sc Hin Hk. destruct (L7 c sc Hin Hk) as [m Hm]. exists m. rewrite Hi. set_solver.
Qed.
End Settle.

(** * Commits *)

Lemma new_pools_nil a a' :
  (forall s e, scope_epochs a' !! s = Some e -> scope_epochs a !! s = Some e) ->
  new_pools a a' = [].
Proof.
  intros H. destruct (new_pools a a') as [|[[sc e] m] l] eqn:E; [done|]. exfalso.
  assert (Hin : (sc, e, m) ∈ new_pools a a') by (rewrite E; set_solver).
  apply elem_of_new_pools in Hin as (He & Hne & _). by apply H in He.
Qed.

Lemma release_epochs ret quar l a s e :
  scope_epochs (release ret quar l a) !! s = Some e -> scope_epochs a !! s = Some e.
Proof.
  unfold release. destruct (finalize_pools ((drop_claim l a <| retired := ret |>)
    <| quarantined := quar |>)) as [E|[E _]]; rewrite E; [by rewrite lookup_empty|done].
Qed.

(** An item commit enters the log. *)
Lemma ledger_log_item s c k :
  ledger_inv s -> commit_key c = KeyItem k ->
  commit_generation c < next_scope_epoch_field (authority s) ->
  (k, commit_generation c) ∉ item_commits (commits s) ->
  (scope_epochs (authority s) !! claim_scope k = Some (commit_generation c) ->
   looted_key (authority s) k) ->
  ledger_inv (s <| commits := commits s ++ [c] |>).
Proof.
  intros [L1 L2 L3 L4 L5 L6 L7] Hk Hg Hnew Hlo.
  assert (Hp : forall sc e, paid sc e (commits s ++ [c]) = paid sc e (commits s)).
  { intros sc e. rewrite paid_app. unfold amount. rewrite Hk, bool_decide_false by done. simpl. lia. }
  split; cbn -[paid item_commits]; try done.
  - intros c' [Hin| ->%list_elem_of_singleton]%elem_of_app; [by apply L1|done].
  - intros c' k' [Hin| ->%list_elem_of_singleton]%elem_of_app; [by apply L2|].
    rewrite Hk. by intros [= <-].
  - rewrite item_commits_app. cbn. rewrite Hk. apply NoDup_app. split; [done|].
    split; [|apply NoDup_singleton]. intros x Hx ->%list_elem_of_singleton. done.
  - intros sc e m. rewrite Hp. apply L4.
  - intros sc e l. rewrite Hp. apply L6.
  - intros c' sc [Hin| ->%list_elem_of_singleton]%elem_of_app; [by apply L7|]. by rewrite Hk.
Qed.

(** A money commit takes what is left of its pool. *)
Lemma ledger_pay s c sc m M :
  ledger_inv s -> commit_key c = KeyMoney sc -> commit_payload c = PayloadMoney m ->
  (sc, commit_generation c, M) ∈ installs s ->
  paid sc (commit_generation c) (commits s) + m = M ->
  (forall e, scope_epochs (authority s) !! sc = Some e -> e = commit_generation c) ->
  ledger_inv ((s <| authority := update_loot sc (fun l => l <| coins := 0 |>) (authority s) |>)
                <| commits := commits s ++ [c] |>).
Proof.
  intros [L1 L2 L3 L4 L5 L6 L7] Hk Hm HM Hpay Hcur.
  set (a' := update_loot sc (fun l => l <| coins := 0 |>) (authority s)).
  assert (Ee : scope_epochs a' = scope_epochs (authority s)) by (by subst a'; destruct sc).
  assert (En : next_scope_epoch_field a' = next_scope_epoch_field (authority s))
    by (by subst a'; destruct sc).
  assert (El : forall s', loot_for_scope a' s' = if bool_decide (sc = s')
      then (fun l => l <| coins := 0 |>) <$> loot_for_scope (authority s) s'
      else loot_for_scope (authority s) s') by (intros s'; apply loot_for_update).
  assert (Hp : forall sc' e, paid sc' e (commits s ++ [c]) = paid sc' e (commits s)
      + (if decide (sc' = sc /\ e = commit_generation c) then m else 0)).
  { intros sc' e. rewrite paid_app. unfold amount. rewrite Hk, Hm.
    destruct (decide _) as [[-> ->]|Hne]; [by rewrite bool_decide_true, Z.eqb_refl|].
    case_bool_decide; [|done]. destruct (Z.eqb_spec (commit_generation c) e); [|done].
    exfalso. apply Hne. split; congruence. }
  split; cbn -[paid item_commits]; fold a'; rewrite ?Ee, ?En; try done.
  - intros c' [Hin| ->%list_elem_of_singleton]%elem_of_app; [by apply L1|].
    by apply L4 in HM as [? _].
  - intros c' k [Hin| ->%list_elem_of_singleton]%elem_of_app; [|by rewrite Hk].
    intros Hk' He. destruct (L2 c' k Hin Hk' He) as (l & e & Hl & He' & Hlo).
    unfold looted_key. rewrite El, Hl. case_bool_decide; [|by exists l, e].
    exists (l <| coins := 0 |>), e. done.
  - rewrite item_commits_app. cbn. by rewrite Hk, app_nil_r.
  - intros sc' e m' Hin. pose proof (L4 _ _ _ Hin) as [? Hd]. split; [done|]. rewrite Hp.
    destruct (decide _) as [[-> ->]|_]; [|by rewrite Z.add_0_r]. right.
    by rewrite (NoDup_fst_unique _ _ m' M L5 Hin HM).
  - intros sc' e l He Hl. rewrite El in Hl. rewrite Hp.
    destruct (decide _) as [[-> ->]|Hne].
    + rewrite bool_decide_true in Hl by done. exists M. split; [done|].
      destruct (loot_for_scope (authority s) sc); [|done]. simplify_eq/=. lia.
    + case_bool_decide as Hsc; [|by rewrite Z.add_0_r; apply L6].
      subst sc'. exfalso. apply Hne. auto.
  - intros c' sc' [Hin| ->%list_elem_of_singleton]%elem_of_app; [by apply L7|].
    rewrite Hk. intros [= <-]. eauto.
Qed.

Lemma ledger_ext s s' :
  authority s' = authority s -> commits s' = commits s -> installs s' = installs s ->
  ledger_inv s -> ledger_inv s'.
Proof.
  intros Ea Ec Ei [L1 L2 L3 L4 L5 L6 L7]. split; rewrite ?Ea, ?Ec, ?Ei; auto.
Qed.

Lemma item_commit_in k g cs :
  (k, g) ∈ item_commits cs -> exists c, c ∈ cs /\ commit_key c = KeyItem k /\ commit_generation c = g.
Proof.
  intros (c & Hc & E)%list_elem_of_omap. exists c. destruct (commit_key c); by simplify_eq.
Qed.

Lemma looted_not_claimable a k l :
  lease_key l = KeyItem k -> looted_key a k -> claimable a l -> False.
Proof.
  intros Hk (loot & e & Hl & He & Hlo) Hc. unfold claimable in Hc. rewrite Hk in Hc.
  destruct Hc as (loot' & e' & Hl' & He' & Hno & Hkey & _). simplify_eq.
  specialize (Hlo _ Hkey). congruence.
Qed.

Section CommitLedger.
Variables (n : nat) (s : LootSystem) (t : Z) (l : LootClaimLease).
Hypotheses (Hs : claims_inv n s) (Hld : ledger_inv s) (Hl : leases s !! t = Some l)
  (HL : live (authority s) (lease_key l) t).

Let a := authority s.

Lemma committed_evolves :
  state_inv (committed_state l a) /\ evolves (Some (lease_key l)) a (committed_state l a).
Proof.
  destruct (live_lease _ _ _ _ _ Hs Hl HL) as (_ & _ & _ & Hc).
  destruct (claimable_pool _ _ Hc) as (loot & Hloot & _ & He).
  apply (resolve_evolves n s (initial_loot (committed_state l a)) t l
           (retired a) (quarantined a) (claim_effect l)); try done.
  - intros Hq. apply (si_closed _ (ci_state _ _ Hs)). by right.
  - intros loot' Hloot'. rewrite Hloot in Hloot'. by injection Hloot' as <-.
Qed.

Lemma committed_epochs s' e :
  scope_epochs (committed_state l a) !! s' = Some e -> scope_epochs a !! s' = Some e.
Proof.
  unfold committed_state. destruct (update_loot_frame (reservation_scope (lease_key l))
    (claim_effect l) (release (retired a) (quarantined a) l a)) as (_ & _ & _ & _ & E & _).
  rewrite E. apply release_epochs.
Qed.

Lemma released_pool s' e :
  scope_epochs (release (retired a) (quarantined a) l a) !! s' = Some e ->
  loot_for_scope (release (retired a) (quarantined a) l a) s' = loot_for_scope a s'.
Proof.
  unfold release. match goal with |- context [finalize_closed_state_if_drained ?b] =>
    destruct (finalize_pools b) as [E|[E1 E2]] end; [by rewrite E, lookup_empty|].
  intros _. rewrite E2. by destruct s'.
Qed.

(** The item of the commit is gone. *)
Lemma committed_looted k e :
  lease_key l = KeyItem k -> scope_epochs (committed_state l a) !! claim_scope k = Some e ->
  looted_key (committed_state l a) k.
Proof.
  intros Hk He. destruct (live_lease _ _ _ _ _ Hs Hl HL) as (_ & _ & _ & Hc).
  unfold claimable in Hc. rewrite Hk in Hc.
  destruct Hc as (loot & x & Hloot & Hx & Hlo & Hkey & Hp). cbn [claim_scope] in *.
  destruct (mark_item_looted _ _ _ _ Hp Hx Hlo) as (x' & Hx' & F & Hlo').
  exists (claim_effect l loot), x'. unfold committed_state in *.
  assert (Hsc : reservation_scope (lease_key l) = claim_scope k) by (by rewrite Hk).
  assert (He' : scope_epochs (release (retired a) (quarantined a) l a) !! claim_scope k = Some e)
    by (rewrite <- He; by destruct (reservation_scope (lease_key l))).
  rewrite loot_for_update, Hsc, bool_decide_true by done.
  rewrite (released_pool _ _ He'). fold a in Hloot. rewrite Hloot. split; [done|].
  unfold claim_effect. rewrite Hk. split; [done|]. intros p Hkp. rewrite F in Hkp.
  unfold is_looted_for_player_like_cpp in *. rewrite F in *.
  destruct (freeforall (flags x)); [|done]. rewrite Hkey in Hkp. unfold item_key in Hkp.
  assert (p = lease_player l) as -> by congruence. done.
Qed.

Lemma commit_ledger s' :
  authority s' = committed_state l a ->
  commits s' = commits s ++ [mkLootCommit (lease_key l) (lease_generation l) (lease_player l)
                               (lease_payload l)] ->
  installs s' = installs s ++ new_pools a (committed_state l a) -> ledger_inv s'.
Proof.
  intros Ea Ec Ei. destruct committed_evolves as [Ha Hev].
  pose proof committed_looted as Hcl.
  destruct (live_lease _ _ _ _ _ Hs Hl HL) as (_ & _ & Hep & Hc).
  pose proof (ci_leases _ _ Hs t l Hl) as (_ & _ & Hg).
  rewrite (new_pools_nil a (committed_state l a)) in Ei by apply committed_epochs.
  rewrite app_nil_r in Ei. destruct (lease_key l) as [k|ms] eqn:Hk; simpl in *.
  - assert (Hst : settles a (committed_state l a)).
    { split; [apply (ev_next _ _ _ Hev)|apply (ev_epochs _ _ _ Hev)|].
      intros s0 e lo He' He Hlo. destruct (ev_pools _ _ _ Hev _ _ _ He' He Hlo) as (lo' & Hlo' & K).
      exists lo'. repeat split; [done|by apply (le_coins _ _ _ _ K)|by eapply loot_evolves_mono]. }
    assert (H1 : ledger_inv (s <| authority := committed_state l a |>)).
    { apply (ledger_settles s); try done; [apply (ci_state _ _ Hs)|].
      change (installs s = installs s ++ new_pools a (committed_state l a)).
      by rewrite (new_pools_nil a _ committed_epochs), app_nil_r. }
    set (c := mkLootCommit _ _ _ _) in Ec.
    apply (ledger_ext ((s <| authority := committed_state l a |>) <| commits := commits s ++ [c] |>));
      [exact Ea|exact Ec|exact Ei|].
    apply (ledger_log_item (s <| authority := committed_state l a |>) c k H1); try done.
    + cbn. pose proof (ev_next _ _ _ Hev). fold a in Hg. lia.
    + cbn. intros (c' & Hin & Hck & Hcg)%item_commit_in.
      eapply (looted_not_claimable _ k l Hk); [|exact Hc].
      eapply (li_looted _ Hld c'); [done|done|]. by rewrite Hcg.
    + cbn. intros He. by apply (Hcl k (lease_generation l)).
  - set (a1 := release (retired a) (quarantined a) l a).
    assert (H1 : ledger_inv (s <| authority := a1 |>)).
    { apply (ledger_settles s); try done; [apply (ci_state _ _ Hs)| | |].
      - apply release_state; [apply (ci_state _ _ Hs)| |done|].
        + by rewrite Hk, (lease_token_eq n s t l Hs Hl).
        + intros Hq. apply (si_closed _ (ci_state _ _ Hs)). by right.
      - apply release_settles.
      - change (installs s = installs s ++ new_pools a a1).
        rewrite new_pools_nil; [by rewrite app_nil_r|]. intros s0 e. apply release_epochs. }
    unfold claimable in Hc. rewrite Hk in Hc. destruct Hc as (loot & Hloot & Hpl).
    destruct (li_current _ Hld ms (lease_generation l) loot Hep Hloot) as (M & HM & Hpay).
    set (c := mkLootCommit _ _ _ _) in Ec.
    assert (Hcs : committed_state l a = update_loot ms (fun l => l <| coins := 0 |>) a1).
    { unfold committed_state, claim_effect. by rewrite Hk. }
    rewrite Hcs in Ea.
    apply (ledger_ext (((s <| authority := a1 |>)
      <| authority := update_loot ms (fun l => l <| coins := 0 |>) a1 |>)
      <| commits := commits s ++ [c] |>)); [exact Ea|exact Ec|exact Ei|].
    apply (ledger_pay (s <| authority := a1 |>) c ms (coins loot) M H1); try done.
    cbn. intros e He%release_epochs. fold a in Hep. congruence.
Qed.
End CommitLedger.

(** * Reachable states *)

(** A step that appends what it installs and logs no commit. *)
Record uncommitting (s s' : LootSystem) : Prop := {
  un_settles : settles (authority s) (authority s');
  un_commits : commits s' = commits s;
  un_installs : installs s' = installs s ++ new_pools (authority s) (authority s') }.

Lemma settles_refl a : settles a a.
Proof. apply evolves_settles, evolves_refl. Qed.

Lemma uncommitting_ledger n s s' :
  claims_inv n s -> claims_inv (S n) s' -> ledger_inv s -> uncommitting s s' -> ledger_inv s'.
Proof. intros Hs Hs' Hl [U1 U2 U3]. eapply ledger_settles; eauto; by eapply ci_state. Qed.

Lemma new_pools_refl a : new_pools a a = [].
Proof. by apply new_pools_nil. Qed.

Lemma uncommitting_refl s : uncommitting s s.
Proof. split; [apply settles_refl|done|]. by rewrite new_pools_refl, app_nil_r. Qed.

Lemma on_authority_uncommitting {A} (r : Act A) s :
  settles (authority s) r.1.1 -> uncommitting s (on_authority r s).
Proof.
  intros Hst. destruct (on_authority_fields r s) as (Ea & _ & _ & Ec & Ei).
  split; [by rewrite Ea|done|by rewrite Ea].
Qed.

Lemma on_lease_uncommitting {A} a' l' (x : A) b s :
  settles (authority s) a' -> uncommitting s (on_lease (a', l', x, b) s).
Proof.
  intros Hst. destruct (on_lease_fields a' l' x b s) as (Ea & _ & _ & Ec & Ei & _).
  split; [by rewrite Ea|done|by rewrite Ea].
Qed.

(** Guards and leases are not part of the ledger. *)
Lemma uncommitting_guards s s' gs : uncommitting s s' -> uncommitting s (s' <| guards := gs |>).
Proof. by intros [U1 U2 U3]. Qed.
Lemma uncommitting_lease s s' l : uncommitting s s' -> uncommitting s (add_lease l s').
Proof. by intros [U1 U2 U3]. Qed.

Lemma reserve_settles player a a' r : reserve_spec player a a' r -> settles a a'.
Proof.
  destruct r as [g t k pl| |]; [|intros ->; apply settles_refl..].
  intros (_ & _ & _ & _ & -> & _). apply same_pools_settles; [done|]. right. split; [done|].
  intros s. apply loot_for_reserve.
Qed.

Lemma attempt_uncommitting s player r :
  reserve_spec player (authority s) r.1 r.2 ->
  uncommitting s (on_attempt (attempt_lease player r) s).
Proof.
  intros R. apply reserve_settles in R.
  destruct r as [a' [g t k pl| |e]]; [apply uncommitting_lease| |];
    by apply on_authority_uncommitting.
Qed.

Lemma settles_trans a b c : state_inv a -> settles a b -> settles b c -> settles a c.
Proof.
  intros Ha [N1 E1 P1] [N2 E2 P2]. split; [lia| |].
  - intros s e [H|H]%E2; [by apply E1|right; lia].
  - intros s e l Hc Hae Hl. assert (Hb : scope_epochs b !! s = Some e).
    { destruct (E2 _ _ Hc) as [|H]; [done|]. apply (si_epochs a Ha) in Hae. lia. }
    destruct (P1 s e l Hb Hae Hl) as (l2 & Hl2 & C2 & M2).
    destruct (P2 s e l2 Hc Hb Hl2) as (l3 & Hl3 & C3 & M3).
    exists l3. split; [done|]. split; [congruence|]. intros id x Hx.
    destruct (M2 id x Hx) as (x2 & Hx2 & F2 & L2). destruct (M3 id x2 Hx2) as (x3 & Hx3 & F3 & L3).
    exists x3. split; [done|]. split; [congruence|auto].
Qed.

Lemma award_uncommitting s sp e id w :
  state_inv (authority s) ->
  uncommitting s
    (on_reserve (finish_item_roll_and_reserve_award_like_cpp sp e id w (authority s)) s).
Proof.
  intros Ha. destruct (award_spec sp e id w (authority s))
    as [[r ->]|[(sc & prev & ->)|(sc & a' & g & t & k & pl & -> & R)]].
  - apply on_authority_uncommitting, settles_refl.
  - apply on_authority_uncommitting, evolves_settles.
    by apply (update_twice_keeps sc (finish_loot id false w) (restore_loot id prev)).
  - apply uncommitting_lease, on_authority_uncommitting.
    apply (settles_trans _ (update_loot sc (finish_loot id false w) (authority s))); [done| |].
    + apply evolves_settles. by apply (update_keeps sc (finish_loot id false w)).
    + by eapply reserve_settles.
Qed.

Section Commits.
Variables (n : nat) (s : LootSystem) (t : Z) (l : LootClaimLease).
Hypotheses (Hs : claims_inv n s) (Hld : ledger_inv s) (Hl : leases s !! t = Some l).

Lemma commit_lease_ledger owner : ledger_inv (commit_lease l owner s).
Proof.
  pose proof (commit_lease_claims n s t l Hs Hl owner) as Hs'. unfold commit_lease in *.
  destruct (commit_cases n s t l Hs Hl owner) as [[HL Hown]|Hstale].
  - destruct (commit_live n s t l Hs Hl owner HL Hown) as (loot & _ & E). rewrite E in *.
    cbv beta iota zeta delta [first_commit] in *.
    match goal with |- context [on_lease (?a', ?l', ?x, ?b) _] =>
      destruct (on_lease_fields a' l' x b s) as (Ea & El & _ & Ec & Ei & _) end.
    apply (commit_ledger n s t l Hs Hld Hl HL); cbn -[on_lease]; [done| |done].
    by rewrite Ec.
  - destruct (commit_stale n s t l Hs Hl owner Hstale) as (st & r & b & E & _ & Hno & _).
    rewrite E in *. cbv beta iota zeta in *.
    assert (Er : match r with
                | Ok o => if first_commit o then log_commit l (on_lease (authority s, l <| status := st |>, r, b) s)
                          else on_lease (authority s, l <| status := st |>, r, b) s
                | Err _ => on_lease (authority s, l <| status := st |>, r, b) s
                end = on_lease (authority s, l <| status := st |>, r, b) s)
      by (destruct r as [o|]; [by rewrite (Hno o)|done]).
    rewrite Er in *. apply (uncommitting_ledger n s); [exact Hs|exact Hs'|exact Hld|].
    apply on_lease_uncommitting, settles_refl.
Qed.

Lemma guard_commit_ledger : ledger_inv (guard_commit l s).
Proof.
  pose proof (commit_lease_ledger true) as H. unfold guard_commit.
  destruct (commit_claim_with_snapshot (authority s) l true) as [[[a' l'] [o|e]] b]; [|done].
  by eapply ledger_ext; [..|exact H].
Qed.

Lemma rollback_uncommitting : uncommitting s (on_lease (rollback_claim (authority s) l) s).
Proof.
  destruct (rollback_spec n s t l Hs Hl) as [(_ & _ & ->)|[(_ & _ & ->)|(st & -> & _)]];
    apply on_lease_uncommitting; [apply release_settles| |apply settles_refl].
  apply same_pools_settles; [done|]. right. split; [done|]. by intros [].
Qed.

Lemma begin_uncommitting : uncommitting s (begin_guard l s).
Proof.
  unfold begin_guard.
  destruct (begin_spec n s t l Hs Hl) as [(_ & _ & _ & ->)|(st & e & -> & _)];
    [apply uncommitting_guards|]; apply on_lease_uncommitting; [|apply settles_refl].
  apply same_pools_settles; [done|]. right. split; [done|]. by intros [].
Qed.

Lemma quarantine_uncommitting : uncommitting s (guard_quarantine l s).
Proof.
  unfold guard_quarantine.
  destruct (quarantine_spec n s t l Hs Hl) as [(_ & ->)|(_ & ->)];
    [apply uncommitting_guards|]; apply on_lease_uncommitting;
    [apply release_settles|apply settles_refl].
Qed.

Lemma drop_uncommitting : uncommitting s (guard_drop l s).
Proof.
  unfold guard_drop. apply uncommitting_guards.
  destruct (abort_spec n s t l Hs Hl) as [(_ & ->)|(_ & ->)];
    apply on_lease_uncommitting; [apply release_settles|apply settles_refl].
Qed.
End Commits.

Section Reach.
Context {Ord : IterOrder ObjectGuid}.

Lemma exec_ledger n s op :
  claims_inv n s -> ledger_inv s -> loot_op_ok op -> Z.of_nat n + 1 < u64_max ->
  ledger_inv (loot_exec op s).
Proof.
  intros Hs Hld Hok Hn. pose proof (exec_claims n s op Hs Hok Hn) as Hs'.
  assert (HU : forall s', s' = loot_exec op s -> uncommitting s s' -> ledger_inv (loot_exec op s)).
  { intros s' -> HU. by apply (uncommitting_ledger n s). }
  destruct (authority_op op) as [f|] eqn:Hf.
  { eapply HU; [done|]. rewrite (authority_op_exec op f s Hf).
    apply on_authority_uncommitting, evolves_settles.
    by apply (authority_op_keeps op f (authority s) Hf Hok (ci_state _ _ Hs) (step_epoch n s Hs Hn)). }
  assert (HL : forall t g, (forall l, leases s !! t = Some l -> ledger_inv (g l s)) ->
    ledger_inv (with_lease t g s)).
  { intros t g Hg. unfold with_lease. destruct (leases s !! t); [by apply Hg|done]. }
  assert (HG : forall t g, (forall l, leases s !! t = Some l -> ledger_inv (g l s)) ->
    ledger_inv (with_guard t g s)).
  { intros t g Hg. unfold with_guard. case_bool_decide; [by apply HL|done]. }
  clear HU Hs'.
  assert (HU : forall s', claims_inv (S n) s' -> uncommitting s s' -> ledger_inv s').
  { intros s' Hs' HU. by apply (uncommitting_ledger n s). }
  destruct op; try discriminate; simpl.
  - apply HU; [by apply award_claims|]. apply award_uncommitting, Hs.
  - apply HU; [apply attempt_reserve_claims; auto using reserve_item_spec|].
    apply attempt_uncommitting, reserve_item_spec.
  - apply HU; [apply attempt_reserve_claims; auto using reserve_money_spec|].
    apply attempt_uncommitting, reserve_money_spec.
  - apply HL. intros l Hl. by apply (commit_lease_ledger n s token l).
  - apply HL. intros l Hl. apply HU; [by apply rollback_lease_claims with token|].
    by apply (rollback_uncommitting n s token l).
  - apply HL. intros l Hl. apply HU; [by apply begin_guard_claims with token|].
    by apply (begin_uncommitting n s token l).
  - apply HG. intros l Hl. by apply (guard_commit_ledger n s token l).
  - apply HG. intros l Hl. apply HU; [by apply guard_quarantine_claims with token|].
    by apply (quarantine_uncommitting n s token l).
  - apply HG. intros l Hl. apply HU; [by apply guard_drop_claims with token|].
    by apply (drop_uncommitting n s token l).
Qed.

Lemma reachable_ledger n s :
  loot_reachable n s -> Z.of_nat n < u64_max -> ledger_inv s.
Proof.
  induction 1 as [| |n s op Hr IH Hok]; intros Hn; [by apply ledger_initial..|].
  apply (exec_ledger n); [apply reachable_claims; [done|lia]|apply IH; lia|done|lia].
Qed.
End Reach.
