(* ===== verification/LootWakeups.v ===== *)
(** The waiters of the loot authority: an attempt that has to wait keeps waiting
    until a step notifies the watch channel. *)
From S2P Require Import Prelude Guid LootModel LootAuthority LootSystem LootInvariant LootSteps.
From S2P Require Import LootClaims LootResolve.

(** What one waiter asks for in each round of its loop. *)
Inductive LootRequest : Type :=
| RequestItem (player : ObjectGuid) (id : Z) (mode : LootItemClaimMode) (expected : option Z)
| RequestMoney (player : ObjectGuid) (expected : option Z).

Definition attempt (r : LootRequest) (a : AuthorityState) : ReserveAttempt :=
  match r with
  | RequestItem p id mode e => (reserve_item_once p id mode e a).2
  | RequestMoney p e => (reserve_money_once p e a).2
  end.

(** [a'] offers what [a] offers, and reserves at least what it reserves. *)
Record same_offer (a a' : AuthorityState) : Prop := {
  so_retired : retired a' = retired a;
  so_selected p : selected_scope_like_cpp a' p = selected_scope_like_cpp a p;
  so_epochs : scope_epochs a' = scope_epochs a;
  so_pools s l : loot_for_scope a s = Some l -> exists l',
    loot_for_scope a' s = Some l' /\ items l' = items l /\ allowed_looters l' = allowed_looters l;
  so_reserved k : is_Some (reservations a !! k) -> is_Some (reservations a' !! k) }.

Lemma same_offer_refl a : same_offer a a.
Proof. split; eauto. Qed.
#[export] Hint Resolve same_offer_refl : core.

Lemma same_offer_trans a b c : same_offer a b -> same_offer b c -> same_offer a c.
Proof.
  intros [R1 S1 E1 P1 V1] [R2 S2 E2 P2 V2]. split; try congruence; auto.
  - intros s l Hl. destruct (P1 s l Hl) as (l1 & Hl1 & I1 & A1).
    destruct (P2 s l1 Hl1) as (l2 & Hl2 & I2 & A2). exists l2. split; [done|split; congruence].
Qed.

Lemma wait_same r a a' : same_offer a a' -> attempt r a = Wait -> attempt r a' = Wait.
Proof.
  intros [HR HS HE HP HV]. destruct r as [p id mode e|p e]; simpl;
    [unfold reserve_item_once|unfold reserve_money_once]; unfold scope_epoch;
    rewrite HR, HS, HE; (destruct (retired a); [done|]);
    (destruct (selected_scope_like_cpp a p) as [s|]; [|done]);
    (destruct (scope_epochs a !! s) as [g|]; [|done]);
    (destruct (is_some_and e _); [done|]);
    (destruct (loot_for_scope a s) as [l|] eqn:Hl; [|done]);
    destruct (HP s l Hl) as (l' & -> & Hi & Ha).
  - unfold item_like_cpp. rewrite Hi. destruct (List.find _ _) as [x|]; [|done].
    destruct (is_looted_for_player_like_cpp p x); [done|].
    destruct (has_allowed_looter_like_cpp p x); [|done].
    destruct (bool_decide (mode = Direct) && blocked (flags x)); [done|].
    destruct (roll_winner_allows_like_cpp p x); [|done]. simpl negb. cbv iota zeta.
    case_bool_decide as Hr; [|done]. intros _. by rewrite bool_decide_true by auto.
  - rewrite Ha. destruct (contains p (allowed_looters l)); [|done]. simpl negb. cbv iota zeta.
    case_bool_decide as Hr; [|done]. intros _. by rewrite bool_decide_true by auto.
Qed.

(** * Writes that offer the same *)

Lemma update_selected s f a p :
  selected_scope_like_cpp (update_loot s f a) p = selected_scope_like_cpp a p.
Proof.
  unfold selected_scope_like_cpp. destruct s as [|q]; simpl.
  - destruct (retired a); [done|]. destruct (bool_decide _); [|done]. by destruct (shared a).
  - destruct (retired a); [done|].
    assert (He : alter f q (personal a) = ∅ <-> personal a = ∅).
    { split; [|by intros ->].
      intros E. apply map_eq. intros i. rewrite lookup_empty.
      assert (Hi : alter f q (personal a) !! i = None) by (by rewrite E).
      destruct (decide (q = i)) as [<-|Hne].
      - rewrite lookup_alter_eq in Hi. by destruct (personal a !! q).
      - by rewrite lookup_alter_ne in Hi. }
    rewrite (bool_decide_ext _ _ He). destruct (bool_decide (personal a = ∅)); [done|].
    assert (Hs : is_Some (alter f q (personal a) !! p) <-> is_Some (personal a !! p)).
    { destruct (decide (q = p)) as [<-|Hne].
      - rewrite lookup_alter_eq. apply fmap_is_Some.
      - by rewrite lookup_alter_ne. }
    by rewrite (bool_decide_ext _ _ Hs).
Qed.

Lemma update_same s f a :
  (forall l, loot_for_scope a s = Some l ->
     items (f l) = items l /\ allowed_looters (f l) = allowed_looters l) ->
  same_offer a (update_loot s f a).
Proof.
  intros Hf. split; try (by destruct s).
  - intros p. apply update_selected.
  - intros s' l Hl. rewrite loot_for_update, Hl. case_bool_decide; [|eauto].
    subst s'. simpl. exists (f l). by apply Hf in Hl.
Qed.

Lemma reserve_key_same key a : same_offer a (reserve_key key a).
Proof.
  split; try done.
  - intros s l Hl. rewrite loot_for_reserve. eauto.
  - intros k Hk. change (is_Some (<[key := next_token_field a]> (reservations a) !! k)).
    apply lookup_insert_is_Some'. by right.
Qed.

Lemma reserve_same player a a' r : reserve_spec player a a' r -> same_offer a a'.
Proof.
  destruct r; [|by intros ->..]. intros (_ & _ & _ & _ & -> & _). apply reserve_key_same.
Qed.

(** Writing back what is already there. *)
Lemma alter_first_id {A} (p : A -> bool) f (l : list A) x :
  List.find p l = Some x -> f x = x -> alter_first p f l = l.
Proof.
  intros Hx Hf. induction l as [|y l IH]; [done|]. simpl in *.
  destruct (p y); [|by rewrite IH]. by simplify_eq; rewrite Hf.
Qed.

Lemma alter_first_twice {A} (key : A -> Z) id f g (l : list A) x :
  (forall y, key (f y) = key y) ->
  List.find (fun e => key e =? id) l = Some x -> g (f x) = x ->
  alter_first (fun e => key e =? id) g (alter_first (fun e => key e =? id) f l) = l.
Proof.
  intros Hk Hx Hg. induction l as [|y l IH]; [done|]. simpl in *.
  destruct (Z.eqb_spec (key y) id) as [E|E]; simpl.
  - simplify_eq. by rewrite Hk, Z.eqb_refl, Hg.
  - destruct (Z.eqb_spec (key y) id); [done|]. by rewrite IH.
Qed.

Lemma finish_entry_id t w e :
  blocked (flags e) || negb (bool_decide (under_threshold (flags e) = t))
    || negb (bool_decide (roll_winner e = w)) = false ->
  finish_entry t w e = e.
Proof.
  intros H. apply orb_false_iff in H as [H Hw%negb_false_iff%bool_decide_eq_true].
  apply orb_false_iff in H as [Hb Ht%negb_false_iff%bool_decide_eq_true].
  destruct e as [? ? ? ? ? ? [? ? ? ? ? ?] ? ? ? ?]. unfold finish_entry, set_field. simpl in *.
  by subst.
Qed.

Lemma restore_finish t w e : restore_entry e (finish_entry t w e) = e.
Proof. by destruct e as [? ? ? ? ? ? [? ? ? ? ? ?] ? ? ? ?]. Qed.

(** * Operations that do not notify *)

Definition quiet_same {A} (a : AuthorityState) (r : Act A) : Prop :=
  r.2 = false -> same_offer a r.1.1.

Lemma open_pool_items p l :
  items (open_pool p l) = items l /\ allowed_looters (open_pool p l) = allowed_looters l.
Proof. unfold open_pool. by destruct (looted_by_player l); ssimpl_goal; destruct (contains _ _). Qed.

Lemma unopen_pool_items p i f l :
  items (unopen_pool p i f l) = items l /\ allowed_looters (unopen_pool p i f l) = allowed_looters l.
Proof. by destruct i, f. Qed.

Lemma finish_loot_same_items id t w l e :
  item_like_cpp id l = Some e ->
  blocked (flags e) || negb (bool_decide (under_threshold (flags e) = t))
    || negb (bool_decide (roll_winner e = w)) = false ->
  items (finish_loot id t w l) = items l.
Proof. intros He H. eapply alter_first_id; [exact He|]. by apply finish_entry_id. Qed.

Lemma finish_roll_quiet p e id t w a : quiet_same a (finish_item_roll_like_cpp p e id t w a).
Proof.
  unfold quiet_same, finish_item_roll_like_cpp. destruct (retired a); [done|].
  destruct (selected_scope_like_cpp a p) as [s|]; [|done].
  destruct (negb _); [done|]. destruct (loot_for_scope a s) as [l|] eqn:Hl; [|done].
  destruct (item_like_cpp id l) as [x|] eqn:Hx; [|done]. cbv zeta. simpl. intros H.
  apply update_same. intros l' Hl'. simplify_eq. split; [|done]. by eapply finish_loot_same_items.
Qed.

Lemma open_view_quiet {R} p f a :
  quiet_same a (try_open_view_with_snapshot_like_cpp (R:=R) p f a).
Proof.
  unfold quiet_same, try_open_view_with_snapshot_like_cpp. destruct (retired a); [done|].
  destruct (selected_scope_like_cpp a p) as [s|]; [|done].
  destruct (scope_epoch a s); [|done]. destruct (loot_for_scope a s) as [l|] eqn:Hl; [|done].
  cbv zeta. destruct (f _ _); simpl; intros _.
  - apply update_same. intros ? _. apply open_pool_items.
  - eapply same_offer_trans; apply update_same; intros ? _;
      [apply open_pool_items|apply unopen_pool_items].
Qed.

Lemma remove_viewer_quiet p a : quiet_same a (remove_viewer_like_cpp p a).
Proof.
  unfold quiet_same, remove_viewer_like_cpp.
  destruct (selected_scope_like_cpp a p) as [s|]; [|done].
  destruct (loot_for_scope a s); [|done]. intros _. by apply update_same.
Qed.

Lemma remove_viewer_if_quiet e p a : quiet_same a (remove_viewer_if_generation_like_cpp e p a).
Proof.
  unfold quiet_same, remove_viewer_if_generation_like_cpp.
  destruct (pool_of_generation e p a) as [[s l]|]; [|done]. intros _. by apply update_same.
Qed.

Lemma close_viewer_quiet {Ord : IterOrder ObjectGuid} e p a :
  quiet_same a (close_viewer_if_generation_like_cpp e p a).
Proof.
  unfold quiet_same, close_viewer_if_generation_like_cpp.
  destruct (pool_of_generation e p a) as [[s l]|]; [|done]. intros _. by apply update_same.
Qed.

Lemma clear_round_robin_quiet e p a :
  quiet_same a (clear_round_robin_if_generation_like_cpp e p a).
Proof.
  unfold quiet_same, clear_round_robin_if_generation_like_cpp.
  destruct (pool_of_generation e p a) as [[s l]|]; [|done]. intros _. apply update_same.
  intros l' _. by case_bool_decide.
Qed.

Lemma award_quiet sp e id w a :
  quiet_same a (finish_item_roll_and_reserve_award_like_cpp sp e id w a).
Proof.
  unfold quiet_same, finish_item_roll_and_reserve_award_like_cpp.
  destruct (retired a); [done|]. destruct (selected_scope_like_cpp a sp) as [s|]; [|done].
  destruct (negb (bool_decide (selected_scope_like_cpp a w = Some s))); [done|].
  destruct (negb _); [done|]. destruct (loot_for_scope a s) as [l|] eqn:Hl; [|done].
  destruct (item_like_cpp id l) as [prev|] eqn:Hx; [|done]. cbv zeta.
  pose proof (reserve_item_spec w id Award (Some e) (update_loot s (finish_loot id false w) a)) as R.
  assert (H : same_offer a
    (update_loot s (restore_loot id prev) (update_loot s (finish_loot id false w) a))).
  { split; try (by destruct s).
    - intros p. by rewrite !update_selected.
    - intros s' l' Hl'. rewrite !loot_for_update, Hl'. case_bool_decide; [|eauto]. subst s'.
      simplify_eq/=. eexists. split; [done|]. split; [|done].
      apply (alter_first_twice loot_list_id _ _ _ _ prev); [done|exact Hx|apply restore_finish]. }
  destruct (reserve_item_once w id Award (Some e) _) as [a' [g t k pl| |x]]; simpl in R;
    [done|subst a'; intros _; exact H..].
Qed.

(** * Steps of the system *)

Lemma notify_changes s : changed (notify true s) <> changed s.
Proof.
  simpl. ssimpl_goal. unfold wrap_u. intros E.
  pose proof (Z.mod_pos_bound (changed s + 1) (2 ^ 64) ltac:(lia)).
  destruct (Z.eq_dec (changed s + 1) (2 ^ 64)) as [E2|E2]; [rewrite E2, Z.mod_same in E; lia|].
  rewrite Z.mod_small in E; lia.
Qed.

Lemma on_authority_quiet {A} (r : Act A) s :
  quiet_same (authority s) r -> changed (on_authority r s) = changed s ->
  same_offer (authority s) (authority (on_authority r s)).
Proof.
  destruct r as [[a' x] []]; intros Hq Hc; [|by apply Hq].
  exfalso. by apply (notify_changes (set_authority a' s)).
Qed.

Lemma install_quiet {A} a (r : Act A) : r.2 = true \/ r.1.1 = a -> quiet_same a r.
Proof. unfold quiet_same. intros [E|E]; rewrite E; [done|auto]. Qed.

Lemma authority_op_quiet {Ord : IterOrder ObjectGuid} op f a :
  authority_op op = Some f -> (f a).2 = false -> same_offer a (f a).1.
Proof.
  intros Hf. destruct op; try discriminate; injection Hf as <-; simpl;
    try (apply finish_roll_quiet || apply open_view_quiet || apply remove_viewer_quiet
         || apply remove_viewer_if_quiet || apply close_viewer_quiet
         || apply clear_round_robin_quiet);
    apply install_quiet;
    unfold detach_like_cpp, detach_if_stamp_like_cpp, initialize_like_cpp,
      initialize_pristine_like_cpp, replace_retired_generation_like_cpp, replace_like_cpp,
      initialize_shared_like_cpp, upsert_personal_like_cpp, retire_like_cpp;
    repeat match goal with |- context [if ?b then unchanged _ _ else _] => destruct b end;
    auto.
Qed.

Section LeaseSteps.
Variables (n : nat) (s : LootSystem) (t : Z) (l : LootClaimLease).
Hypotheses (Hs : claims_inv n s) (Hl : leases s !! t = Some l).

Lemma on_lease_quiet {A} a' l' (x : A) b :
  changed (on_lease (a', l', x, b) s) = changed s -> (b = false -> same_offer (authority s) a') ->
  same_offer (authority s) (authority (on_lease (a', l', x, b) s)).
Proof.
  intros Hc Hq. destruct (on_lease_fields a' l' x b s) as (Ea & _ & _ & _ & _ & Ech).
  rewrite Ea. destruct b; [|by apply Hq]. rewrite Ech in Hc. by apply notify_changes in Hc.
Qed.

Ltac lease_quiet Hc :=
  first [ refine (on_lease_quiet _ _ _ true Hc _); discriminate
        | refine (on_lease_quiet _ _ _ _ Hc _); done ].

Lemma commit_lease_quiet owner :
  changed (commit_lease l owner s) = changed s ->
  same_offer (authority s) (authority (commit_lease l owner s)).
Proof.
  unfold commit_lease. destruct (commit_cases n s t l Hs Hl owner) as [[HL Hown]|Hstale].
  - destruct (commit_live n s t l Hs Hl owner HL Hown) as (loot & _ & ->).
    intros Hc. lease_quiet Hc.
  - destruct (commit_stale n s t l Hs Hl owner Hstale) as (st & r & b & -> & _ & Hno & _).
    cbv beta iota zeta. destruct r as [o|e]; [rewrite (Hno o eq_refl)|]; intros Hc;
      lease_quiet Hc.
Qed.

Lemma guard_commit_quiet :
  changed (guard_commit l s) = changed s ->
  same_offer (authority s) (authority (guard_commit l s)).
Proof.
  pose proof (commit_lease_quiet true) as H. unfold guard_commit.
  destruct (commit_claim_with_snapshot (authority s) l true) as [[[a' l'] [o|e]] b]; exact H.
Qed.

Lemma rollback_quiet :
  changed (on_lease (rollback_claim (authority s) l) s) = changed s ->
  same_offer (authority s) (authority (on_lease (rollback_claim (authority s) l) s)).
Proof.
  destruct (rollback_spec n s t l Hs Hl) as [(_ & _ & ->)|[(_ & _ & ->)|(st & -> & _)]];
    intros Hc; lease_quiet Hc.
Qed.

Lemma begin_quiet :
  changed (begin_guard l s) = changed s ->
  same_offer (authority s) (authority (begin_guard l s)).
Proof.
  unfold begin_guard.
  destruct (begin_spec n s t l Hs Hl) as [(_ & _ & _ & ->)|(st & e & -> & _)]; intros Hc;
    [|lease_quiet Hc]. refine (on_lease_quiet _ _ _ false Hc _). intros _. split; try done; eauto.
Qed.

Lemma quarantine_quiet :
  changed (guard_quarantine l s) = changed s ->
  same_offer (authority s) (authority (guard_quarantine l s)).
Proof.
  unfold guard_quarantine. destruct (quarantine_spec n s t l Hs Hl) as [(_ & ->)|(_ & ->)];
    intros Hc; lease_quiet Hc.
Qed.

Lemma drop_quiet :
  changed (guard_drop l s) = changed s ->
  same_offer (authority s) (authority (guard_drop l s)).
Proof.
  unfold guard_drop. destruct (abort_spec n s t l Hs Hl) as [(_ & ->)|(_ & ->)];
    intros Hc; lease_quiet Hc.
Qed.
End LeaseSteps.

(** A step that leaves the version of the watch channel leaves what is offered. *)
Lemma exec_quiet {Ord : IterOrder ObjectGuid} n s op :
  claims_inv n s -> changed (loot_exec op s) = changed s ->
  same_offer (authority s) (authority (loot_exec op s)).
Proof.
  intros Hs. destruct (authority_op op) as [f|] eqn:Hf.
  { rewrite (authority_op_exec op f s Hf). intros Hc. apply on_authority_quiet; [|done].
    intros Hb. by apply authority_op_quiet with (op := op). }
  assert (HL : forall t g, (forall l, leases s !! t = Some l ->
      changed (g l s) = changed s -> same_offer (authority s) (authority (g l s))) ->
    changed (with_lease t g s) = changed s ->
    same_offer (authority s) (authority (with_lease t g s))).
  { intros t g Hg. unfold with_lease. destruct (leases s !! t); [by apply Hg|done]. }
  assert (HG : forall t g, (forall l, leases s !! t = Some l ->
      changed (g l s) = changed s -> same_offer (authority s) (authority (g l s))) ->
    changed (with_guard t g s) = changed s ->
    same_offer (authority s) (authority (with_guard t g s))).
  { intros t g Hg. unfold with_guard. case_bool_decide; [by apply HL|done]. }
  destruct op; try discriminate; simpl.
  - pose proof (award_quiet scope_player expected id winner (authority s)) as Q.
    unfold on_reserve.
    destruct (finish_item_roll_and_reserve_award_like_cpp _ _ _ _ _) as [[a' [l|e]] b] eqn:E;
      intros Hc; [|by apply (on_authority_quiet (a', Err e, b))].
    apply (on_authority_quiet (a', Ok l, b) s Q Hc).
  - intros _. pose proof (reserve_item_spec player id mode expected (authority s)) as R.
    apply reserve_same in R. unfold reserve_item_with_mode_like_cpp.
    by destruct (reserve_item_once _ _ _ _ _) as [a' []].
  - intros _. pose proof (reserve_money_spec player expected (authority s)) as R.
    apply reserve_same in R. unfold reserve_money_for_optional_generation_like_cpp.
    by destruct (reserve_money_once _ _ _) as [a' []].
  - apply HL. intros l Hl. by apply (commit_lease_quiet n s token l).
  - apply HL. intros l Hl. by apply (rollback_quiet n s token l).
  - apply HL. intros l Hl. by apply (begin_quiet n s token l).
  - apply HG. intros l Hl. by apply (guard_commit_quiet n s token l).
  - apply HG. intros l Hl. by apply (quarantine_quiet n s token l).
  - apply HG. intros l Hl. by apply (drop_quiet n s token l).
Qed.
