(* ===== verification/LootTheorems.v ===== *)
(** The properties of the loot authority: nothing is handed out twice, a claim
    past its durable boundary always commits, no waiter is forgotten, and a
    closed authority stays closed. *)
From S2P Require Import Prelude Guid LootModel LootAuthority LootSystem LootInvariant LootSteps.
From S2P Require Import LootClaims LootResolve LootLedger LootWakeups.

(** * Runs *)

Definition run {Ord : IterOrder ObjectGuid} (ops : list LootOp) (s : LootSystem) : LootSystem :=
  fold_left (fun s op => loot_exec op s) ops s.

Lemma loot_run_reachable {Ord : IterOrder ObjectGuid} ops : forall n s,
  loot_reachable n s -> Forall loot_op_ok ops -> loot_reachable (length ops + n) (run ops s).
Proof.
  induction ops as [|op ops IH]; intros n s Hr Hok; [done|]. inversion_clear Hok. simpl.
  replace (S (length ops + n)) with (length ops + S n)%nat by lia.
  apply IH; [by constructor|done].
Qed.

(** An order, two players and a pool to compute with. *)
#[local] Instance demo_order : IterOrder ObjectGuid := map_list_order ObjectGuid.
Definition alice : ObjectGuid := mkGuid 0x800000000000000 1.
Definition bob : ObjectGuid := mkGuid 0x800000000000000 2.
Definition demo_entry (id : Z) (ffa : bool) : LootEntry :=
  mkLootEntry id 2589 1 0 0 0 (mkLootEntryFlags false ffa false false false false)
    [alice; bob] EMPTY [] false.
Definition demo_loot : CreatureLoot :=
  mkCreatureLoot EMPTY 7 2 1 0 0 EMPTY EMPTY [] [] [alice; bob]
    [demo_entry 0 false; demo_entry 1 true] false.

Lemma demo_loot_ok : loot_ok demo_loot.
Proof.
  apply Forall_cons_2; [|apply Forall_cons_2; [|apply Forall_nil_2]];
    apply (bool_decide_eq_false_1 (EMPTY ∈ [alice; bob])); vm_compute; reflexivity.
Qed.

(** Alice and Bob take everything there is: the unique item once, the free item
    and the money, the money asked for twice. *)
Definition demo_ops : list LootOp :=
  [LInitializeShared demo_loot;
   LReserveItem alice 0 Direct None; LReserveItem bob 0 Direct None; LCommit 1; LCommit 1;
   LReserveItem bob 0 Direct None;
   LReserveItem alice 1 Direct None; LReserveItem bob 1 Direct None; LCommit 2; LCommit 3;
   LReserveMoney alice None; LBegin 4; LCommit 4; LGuardCommit 4;
   LReserveMoney bob None; LCommit 5].

Lemma demo_ops_ok : Forall loot_op_ok demo_ops.
Proof. apply Forall_cons_2; [apply demo_loot_ok|]. repeat (apply Forall_cons_2; [exact I|]). apply Forall_nil_2. Qed.

Lemma loot_demo_reachable k :
  loot_reachable (length (take k demo_ops) + 0) (run (take k demo_ops) (initial_loot new_like_cpp)).
Proof.
  apply loot_run_reachable; [constructor|]. apply Forall_take, demo_ops_ok.
Qed.

(** * Exactly once *)

(** C9: whatever the sessions do to a loot authority, in any order, the same item
    (the same free-for-all item for the same player) of the same pool generation
    is handed out by at most one first commit. *)
Theorem loot_item_taken_once {Ord : IterOrder ObjectGuid} n s :
  loot_reachable n s -> Z.of_nat n < u64_max -> NoDup (item_commits (commits s)).
Proof. intros Hr Hn. by apply li_once, (reachable_ledger n). Qed.

Lemma loot_item_taken_once_witness :
  length (commits (run demo_ops (initial_loot new_like_cpp))) = 5%nat
  /\ NoDup (item_commits (commits (run demo_ops (initial_loot new_like_cpp)))).
Proof.
  refine (conj _ _).
  - vm_compute. reflexivity.
  - refine (loot_item_taken_once 16 _ (loot_demo_reachable 16) _). vm_compute. reflexivity.
Defined.

(** C10: money is conserved.  Each pool of each generation is installed once; the
    commits of its money have paid nothing or the full amount installed, and what
    was paid and what is still in the pool always add up to that amount. *)
Theorem loot_money_conserved {Ord : IterOrder ObjectGuid} n s :
  loot_reachable n s -> Z.of_nat n < u64_max ->
  NoDup (installs s).*1
  /\ (forall sc e m, (sc, e, m) ∈ installs s ->
        paid sc e (commits s) = 0 \/ paid sc e (commits s) = m)
  /\ (forall c sc, c ∈ commits s -> commit_key c = KeyMoney sc ->
        exists m, (sc, commit_generation c, m) ∈ installs s)
  /\ (forall sc e l, scope_epochs (authority s) !! sc = Some e ->
        loot_for_scope (authority s) sc = Some l ->
        exists m, (sc, e, m) ∈ installs s /\ paid sc e (commits s) + coins l = m).
Proof.
  intros Hr Hn. destruct (reachable_ledger n s Hr Hn) as [L1 L2 L3 L4 L5 L6 L7].
  split; [done|]. split; [|split; [exact L7|exact L6]]. intros sc e m Hin. by apply (L4 sc e m).
Qed.

Lemma loot_money_conserved_witness :
  installs (run demo_ops (initial_loot new_like_cpp)) = [(Shared, 1, 7)]
  /\ paid Shared 1 (commits (run demo_ops (initial_loot new_like_cpp))) = 7
  /\ NoDup (installs (run demo_ops (initial_loot new_like_cpp))).*1.
Proof.
  refine (conj _ (conj _ (proj1 (loot_money_conserved 16 _ (loot_demo_reachable 16) _)))).
  - vm_compute. reflexivity.
  - vm_compute. reflexivity.
  - vm_compute. reflexivity.
Defined.

(** * Liveness *)

Section Durable.
Context {Ord : IterOrder ObjectGuid}.

Definition guard_op (t : Z) (op : LootOp) : bool :=
  match op with
  | LGuardCommit t' | LGuardQuarantine t' | LGuardDrop t' => t' =? t
  | _ => false
  end.

Lemma finalize_persisting a :
  persisting (finalize_closed_state_if_drained a) = persisting a.
Proof. unfold finalize_closed_state_if_drained. by case_match. Qed.

(** The key of another lease is another key. *)
Lemma other_key n s k t t' l' :
  claims_inv n s -> persisting (authority s) !! k = Some t -> t' <> t ->
  live (authority s) (lease_key l') t' -> lease_key l' <> k.
Proof.
  intros Hs Hp Hne HL E. rewrite E in HL. apply (si_subset _ (ci_state _ _ Hs)) in Hp as Hr.
  destruct HL as [[_ HL]|HL]; congruence.
Qed.

Lemma commit_keeps_persisting n s k t t' l' owner :
  claims_inv n s -> persisting (authority s) !! k = Some t -> leases s !! t' = Some l' ->
  owner = false \/ t' <> t ->
  persisting (authority (commit_lease l' owner s)) !! k = Some t.
Proof.
  intros Hs Hp Hl' Hne. unfold commit_lease.
  destruct (commit_cases n s t' l' Hs Hl' owner) as [[HL Hown]|Hstale].
  - assert (Htt : t' <> t).
    { destruct Hne as [-> |]; [|done]. intros ->. destruct Hown as [|Hown]; [done|].
      apply Bool.not_true_iff_false in Hown. apply Hown, persists_spec.
      destruct (live_lease _ _ _ _ _ Hs Hl' (or_intror Hp)) as (-> & _).
      by rewrite (lease_token_eq n s t l' Hs Hl'). }
    destruct (commit_live n s t' l' Hs Hl' owner HL Hown) as (loot & _ & ->).
    cbv beta iota zeta delta [first_commit].
    match goal with |- context [on_lease (?a', ?l1, ?x, ?b) _] =>
      destruct (on_lease_fields a' l1 x b s) as (Ea & _) end.
    cbn -[on_lease]. rewrite Ea. unfold committed_state, release.
    rewrite update_persisting, finalize_persisting. cbn.
    rewrite lookup_delete_ne; [done|]. by eapply other_key.
  - destruct (commit_stale n s t' l' Hs Hl' owner Hstale) as (st & r & b & -> & _ & Hno & _).
    cbv beta iota zeta.
    destruct (on_lease_fields (authority s) (l' <| status := st |>) r b s) as (Ea & _).
    destruct r as [o|e]; [rewrite (Hno o eq_refl)|]; by rewrite Ea.
Qed.

(** Only a claim's own guard ends its persistence. *)
Lemma persisting_stable n s k t op :
  claims_inv n s -> Z.of_nat n + 1 < u64_max -> loot_op_ok op ->
  persisting (authority s) !! k = Some t -> guard_op t op = false ->
  persisting (authority (loot_exec op s)) !! k = Some t.
Proof.
  intros Hs Hn Hok Hp Hg. destruct (authority_op op) as [f|] eqn:Hf.
  { rewrite (authority_op_exec op f s Hf).
    destruct (on_authority_fields ((f (authority s)).1, tt, (f (authority s)).2) s) as (-> & _).
    destruct (authority_op_keeps op f (authority s) Hf Hok (ci_state _ _ Hs) (step_epoch n s Hs Hn))
      as [[_ He] _].
    simpl. by rewrite (ev_persisting _ _ _ He). }
  assert (HR : forall p a' r, reserve_spec p (authority s) a' r -> persisting a' !! k = Some t).
  { intros p a' [g t' k' pl| |] R; [|by rewrite R..]. by destruct R as (_ & _ & _ & _ & -> & _). }
  assert (HW : forall t' g, (forall l', leases s !! t' = Some l' ->
      persisting (authority (g l' s)) !! k = Some t) ->
    persisting (authority (with_lease t' g s)) !! k = Some t).
  { intros t' g H. unfold with_lease. destruct (leases s !! t'); [by apply H|done]. }
  assert (HG : forall t' g, (forall l', leases s !! t' = Some l' ->
      persisting (authority (g l' s)) !! k = Some t) ->
    persisting (authority (with_guard t' g s)) !! k = Some t).
  { intros t' g H. unfold with_guard. case_bool_decide; [by apply HW|done]. }
  destruct op; try discriminate; simpl in *.
  - destruct (award_spec scope_player expected id winner (authority s))
      as [[r ->]|[(sc & prev & ->)|(sc & a' & g & t' & k' & pl & -> & R)]]; simpl; [done| |].
    + by rewrite !update_persisting.
    + destruct R as (_ & _ & _ & _ & -> & _). simpl. by rewrite update_persisting.
  - pose proof (HR _ _ _ (reserve_item_spec player id mode expected (authority s))) as H.
    unfold reserve_item_with_mode_like_cpp.
    by destruct (reserve_item_once _ _ _ _ _) as [a' []].
  - pose proof (HR _ _ _ (reserve_money_spec player expected (authority s))) as H.
    unfold reserve_money_for_optional_generation_like_cpp.
    by destruct (reserve_money_once _ _ _) as [a' []].
  - apply HW. intros l' Hl'. apply (commit_keeps_persisting n s k t token); auto.
  - apply HW. intros l' Hl'.
    destruct (rollback_spec n s token l' Hs Hl')
      as [(HL & Hnp & ->)|[(_ & Hnp & ->)|(st & -> & _)]];
      match goal with |- context [on_lease (?a', ?l1, ?x, ?b) _] =>
        destruct (on_lease_fields a' l1 x b s) as (-> & _) end; [|exact Hp|exact Hp].
    unfold release. rewrite finalize_persisting. cbn. rewrite lookup_delete_ne; [done|].
    destruct (decide (token = t)) as [->|]; [|by eapply other_key].
    destruct (live_lease _ _ _ _ _ Hs Hl' (or_intror Hp)) as (E & _).
    apply Bool.not_true_iff_false in Hnp. exfalso. apply Hnp, persists_spec.
    by rewrite E, (lease_token_eq n s t l' Hs Hl').
  - apply HW. intros l' Hl'. unfold begin_guard.
    destruct (begin_spec n s token l' Hs Hl') as [(_ & _ & Hnp & ->)|(st & e & -> & _)];
      cbv beta iota zeta;
      match goal with |- context [on_lease (?a', ?l1, ?x, ?b) _] =>
        destruct (on_lease_fields a' l1 x b s) as (Ea & _) end;
      cbn -[on_lease]; rewrite Ea; [|exact Hp]. cbn. rewrite lookup_insert_ne; [done|congruence].
  - apply HG. intros l' Hl'. apply Z.eqb_neq in Hg.
    pose proof (commit_keeps_persisting n s k t token l' true Hs Hp Hl' (or_intror Hg)) as H.
    unfold guard_commit.
    by destruct (commit_claim_with_snapshot (authority s) l' true) as [[[a' l1] [o|e]] b].
  - apply HG. intros l' Hl'. apply Z.eqb_neq in Hg. unfold guard_quarantine.
    destruct (quarantine_spec n s token l' Hs Hl') as [(Hp' & ->)|(_ & ->)]; cbv beta iota zeta;
      match goal with |- context [on_lease (?a', ?l1, ?x, ?b) _] =>
        destruct (on_lease_fields a' l1 x b s) as (Ea & _) end;
      cbn -[on_lease]; rewrite Ea; [|exact Hp]. unfold release. rewrite finalize_persisting. cbn.
    rewrite lookup_delete_ne; [done|]. congruence.
  - apply HG. intros l' Hl'. apply Z.eqb_neq in Hg. unfold guard_drop.
    destruct (abort_spec n s token l' Hs Hl') as [(Hp' & ->)|(_ & ->)];
      match goal with |- context [on_lease (?a', ?l1, ?x, ?b) _] =>
        destruct (on_lease_fields a' l1 x b s) as (Ea & _) end;
      cbn -[on_lease]; rewrite Ea; [|exact Hp]. unfold release. rewrite finalize_persisting. cbn.
    rewrite lookup_delete_ne; [done|]. congruence.
Qed.
End Durable.

(** C21: a claim that crossed its durable boundary cannot be lost.  Whatever
    happened since (retirement, replacement attempts, detach, other claims), its
    guard is still open, the guard's commit succeeds as the first commit and
    returns the pool with the claim applied, and every operation other than that
    guard's own leaves the claim where it is. *)
Theorem durable_claim_commits {Ord : IterOrder ObjectGuid} n s k t :
  loot_reachable n s -> Z.of_nat n + 1 < u64_max -> persisting (authority s) !! k = Some t ->
  exists l loot,
    leases s !! t = Some l /\ lease_key l = k /\ t ∈ guards s
    /\ loot_for_scope (authority s) (reservation_scope k) = Some loot
    /\ commit_claim_with_snapshot (authority s) l true
       = (committed_state l (authority s), l <| status := LEASE_COMMITTED |>,
          Ok (mkCommitOutcome true (Some (mkSnapshot (lease_generation l) (reservation_scope k)
                                            (claim_effect l loot)))), true)
    /\ (forall op, loot_op_ok op -> guard_op t op = false ->
          persisting (authority (loot_exec op s)) !! k = Some t).
Proof.
  intros Hr Hn Hp. pose proof (reachable_claims n s Hr ltac:(lia)) as Hs.
  destruct (ci_live _ _ Hs k t (or_intror Hp)) as (l & Hl & Hk & _).
  assert (HL : live (authority s) (lease_key l) t) by (right; by rewrite Hk).
  destruct (commit_live n s t l Hs Hl true HL (or_introl eq_refl)) as (loot & Hloot & Hc).
  exists l, loot. rewrite Hk in *. repeat split; try done; [by eapply ci_persisting|].
  intros op Hok Hg. by apply (persisting_stable n).
Qed.

(** Alice's claim on the unique item persists; then the object is retired. *)
Definition durable_ops : list LootOp :=
  [LInitializeShared demo_loot; LReserveItem alice 0 Direct None; LBegin 1; LRetire].

Lemma durable_claim_commits_witness :
  exists l loot, leases (run durable_ops (initial_loot new_like_cpp)) !! 1 = Some l
    /\ (exists r, commit_claim_with_snapshot
          (authority (run durable_ops (initial_loot new_like_cpp))) l true = r
        /\ loot_for_scope (authority (run durable_ops (initial_loot new_like_cpp))) Shared
           = Some loot).
Proof.
  assert (Hr : loot_reachable 4 (run durable_ops (initial_loot new_like_cpp))).
  { refine (loot_run_reachable durable_ops 0 _ loot_reach_new _).
    apply Forall_cons_2; [apply demo_loot_ok|].
    repeat (apply Forall_cons_2; [exact I|]). apply Forall_nil_2. }
  destruct (durable_claim_commits 4 _ (KeyItem (mkClaimKey Shared 0 None)) 1 Hr
    (eq_refl : 5 < u64_max)) as (l & loot & Hl & _ & _ & Hloot & Hc & _).
  - vm_compute. reflexivity.
  - exact (ex_intro _ l (ex_intro _ loot (conj Hl (ex_intro _ _ (conj Hc Hloot))))).
Defined.

(** C36: no wake-up is lost.  When a step makes an attempt that had to wait stop
    waiting (it can now succeed or fail), the step moves the version of the watch
    channel, so the waiter tries again. *)
Theorem no_lost_wakeup {Ord : IterOrder ObjectGuid} n s op r :
  loot_reachable n s -> Z.of_nat n < u64_max ->
  attempt r (authority s) = Wait -> attempt r (authority (loot_exec op s)) <> Wait ->
  changed (loot_exec op s) <> changed s.
Proof.
  intros Hr Hn Hw Hnw Hc. apply Hnw. apply (wait_same r (authority s)); [|done].
  by apply (exec_quiet n s op (reachable_claims n s Hr Hn)).
Qed.

(** Bob waits for the item Alice reserved; her rollback wakes him up. *)
Lemma no_lost_wakeup_witness :
  changed (loot_exec (LRollback 1) (run (take 2 demo_ops) (initial_loot new_like_cpp)))
  <> changed (run (take 2 demo_ops) (initial_loot new_like_cpp)).
Proof.
  refine (no_lost_wakeup 2 _ (LRollback 1) (RequestItem bob 0 Direct None) (loot_demo_reachable 2)
            eq_refl _ _).
  - vm_compute. reflexivity.
  - vm_compute. discriminate.
Defined.

(** The operation by which the holder of a claim hands it back. *)
Definition hand_back (s : LootSystem) (t : Z) : LootOp :=
  if bool_decide (t ∈ guards s) then LGuardDrop t else LRollback t.

(** No reservation of an open authority is orphaned.  It belongs to an active
    lease, reserved in the pool's current generation, and when the holder hands
    it back (dropping its guard, or the lease) the key is free and the waiters are
    notified. *)
Theorem reservation_released {Ord : IterOrder ObjectGuid} n s k t :
  loot_reachable n s -> Z.of_nat n < u64_max -> retired (authority s) = false ->
  reservations (authority s) !! k = Some t ->
  (exists l, leases s !! t = Some l /\ lease_key l = k /\ status l = LEASE_ACTIVE
     /\ scope_epoch (authority s) (reservation_scope k) = Some (lease_generation l))
  /\ reservations (authority (loot_exec (hand_back s t) s)) !! k = None
  /\ changed (loot_exec (hand_back s t) s) = u64 (changed s + 1).
Proof.
  intros Hr Hn Ho Hres. pose proof (reachable_claims n s Hr Hn) as Hs.
  assert (HL : live (authority s) k t) by (by left).
  destruct (ci_live _ _ Hs k t HL) as (l & Hl & Hk & Hst & Hep & _).
  split; [by exists l|]. unfold hand_back. case_bool_decide as Hg; simpl.
  - unfold with_guard, with_lease. rewrite bool_decide_true, Hl by done. unfold guard_drop.
    destruct (ci_guards _ _ Hs t Hg) as (l' & Hl' & Hp). simplify_eq. specialize (Hp Hst).
    destruct (abort_spec n s t l Hs Hl) as [(_ & ->)|(Hno & _)]; [|by apply Hno in Hp].
    match goal with |- context [on_lease (?a', ?l1, ?x, ?b) _] =>
      destruct (on_lease_fields a' l1 x b s) as (Ea & _ & _ & _ & _ & Ec) end.
    cbn -[on_lease]. rewrite Ea, Ec. split; [|done].
    by apply (ev_excluded _ _ _ (release_evolves (retired (authority s)) _ l (authority s)
      ltac:(done) ltac:(intros Hq; apply (si_closed _ (ci_state _ _ Hs)); by right)) _ eq_refl).
  - unfold with_lease. rewrite Hl.
    destruct (rollback_spec n s t l Hs Hl) as [(_ & _ & ->)|[(Hr' & _)|(st & E & _)]].
    + match goal with |- context [on_lease (?a', ?l1, ?x, ?b) _] =>
        destruct (on_lease_fields a' l1 x b s) as (Ea & _ & _ & _ & _ & Ec) end.
      rewrite Ea, Ec. split; [|done]. rewrite <- Hk.
      by apply (ev_excluded _ _ _ (release_evolves (retired (authority s)) _ l (authority s)
        ltac:(done) ltac:(intros Hq; apply (si_closed _ (ci_state _ _ Hs)); by right)) _ eq_refl).
    + congruence.
    + exfalso. assert (Hnp : persists (authority s) l = false).
      { apply Bool.not_true_iff_false. rewrite persists_spec, Hk, (lease_token_eq n s t l Hs Hl).
        intros Hp. by apply (ci_persisting _ _ Hs) in Hp. }
      revert E. unfold rollback_claim. rewrite Hst, Hnp. simpl negb. cbv iota.
      replace (current (authority s) l) with true
        by (symmetry; apply current_spec; by rewrite Hk).
      replace (reserved (authority s) l) with true
        by (symmetry; apply reserved_spec; by rewrite Hk, (lease_token_eq n s t l Hs Hl)).
      simpl andb. cbv iota zeta. intros [=].
Qed.

Lemma reservation_released_witness :
  changed (loot_exec (hand_back (run (take 2 demo_ops) (initial_loot new_like_cpp)) 1)
             (run (take 2 demo_ops) (initial_loot new_like_cpp)))
  = u64 (changed (run (take 2 demo_ops) (initial_loot new_like_cpp)) + 1).
Proof.
  refine (proj2 (proj2 (reservation_released 2 _ (KeyItem (mkClaimKey Shared 0 None)) 1
            (loot_demo_reachable 2) eq_refl _ _))).
  - vm_compute. reflexivity.
  - vm_compute. reflexivity.
Defined.

(** * Closing *)

Definition closed (a : AuthorityState) : bool := detached a || quarantined a.

Lemma update_closed s f a : closed (update_loot s f a) = closed a.
Proof. by destruct s. Qed.
Lemma finalize_closed a : closed (finalize_closed_state_if_drained a) = closed a.
Proof. unfold finalize_closed_state_if_drained. by case_match. Qed.

Lemma closed_authority_op {Ord : IterOrder ObjectGuid} op f a :
  authority_op op = Some f -> closed a = true -> closed (f a).1 = true.
Proof.
  intros Hf Hc. assert (Hc' : closed a = true) by done. unfold closed in Hc.
  destruct op; try discriminate; injection Hf as <-; simpl.
  - unfold detach_like_cpp. destruct (detached a) eqn:E; [done|].
    simpl. unfold do_detach. by rewrite finalize_closed.
  - unfold detach_if_stamp_like_cpp. clear Hc. case_match; [exact Hc'|].
    destruct (detached a); [exact Hc'|].
    simpl. unfold do_detach. by rewrite finalize_closed.
  - unfold initialize_like_cpp, initialize_pristine_like_cpp. by rewrite Hc.
  - unfold replace_retired_generation_like_cpp. by rewrite Hc.
  - unfold replace_like_cpp. by rewrite Hc.
  - unfold initialize_shared_like_cpp. by rewrite Hc.
  - unfold upsert_personal_like_cpp. by rewrite Hc.
  - unfold retire_like_cpp. clear Hc. case_match; [exact Hc'|]. simpl. by rewrite finalize_closed.
  - unfold try_open_view_with_snapshot_like_cpp. repeat case_match; simpl;
      rewrite ?update_closed; done.
  - unfold remove_viewer_like_cpp. repeat case_match; simpl; rewrite ?update_closed; done.
  - unfold remove_viewer_if_generation_like_cpp.
    repeat case_match; simpl; rewrite ?update_closed; done.
  - unfold close_viewer_if_generation_like_cpp.
    repeat case_match; simpl; rewrite ?update_closed; done.
  - unfold clear_round_robin_if_generation_like_cpp.
    destruct (pool_of_generation _ _ a) as [[? ?]|]; simpl; rewrite ?update_closed; done.
  - unfold finish_item_roll_like_cpp.
    repeat (case_match; try (simpl; rewrite ?update_closed; done)).
Qed.

Section Closed.
Context {Ord : IterOrder ObjectGuid}.

Lemma closed_exec n s op :
  claims_inv n s -> closed (authority s) = true ->
  closed (authority (loot_exec op s)) = true
  /\ dom (leases (loot_exec op s)) = dom (leases s).
Proof.
  intros Hs Hc. assert (Hr : retired (authority s) = true).
  { apply (si_closed _ (ci_state _ _ Hs)). by apply orb_true_iff in Hc. }
  destruct (authority_op op) as [f|] eqn:Hf.
  { rewrite (authority_op_exec op f s Hf).
    destruct (on_authority_fields ((f (authority s)).1, tt, (f (authority s)).2) s) as (-> & -> & _).
    split; [|done]. by apply (closed_authority_op op). }
  assert (HW : forall t g, (forall l, leases s !! t = Some l ->
      closed (authority (g l s)) = true /\ dom (leases (g l s)) = dom (leases s)) ->
    closed (authority (with_lease t g s)) = true
    /\ dom (leases (with_lease t g s)) = dom (leases s)).
  { intros t g H. unfold with_lease. destruct (leases s !! t); [by apply H|done]. }
  assert (HG : forall t g, (forall l, leases s !! t = Some l ->
      closed (authority (g l s)) = true /\ dom (leases (g l s)) = dom (leases s)) ->
    closed (authority (with_guard t g s)) = true
    /\ dom (leases (with_guard t g s)) = dom (leases s)).
  { intros t g H. unfold with_guard. case_bool_decide; [by apply HW|done]. }
  assert (HO : forall A t l a' l' (x : A) b, leases s !! t = Some l -> lease_token l' = t ->
    closed a' = true -> closed (authority (on_lease (a', l', x, b) s)) = true
      /\ dom (leases (on_lease (a', l', x, b) s)) = dom (leases s)).
  { intros A t l a' l' x b Hl Ht Ha'. destruct (on_lease_fields a' l' x b s) as (-> & -> & _).
    split; [done|]. rewrite Ht. apply dom_insert_lookup_L. eauto. }
  assert (HRel : forall ret quar l, (quarantined (authority s) = true -> quar = true) ->
    closed (release ret quar l (authority s)) = true).
  { intros ret quar l Hq. unfold release. rewrite finalize_closed. unfold closed in *. cbn.
    apply orb_true_iff in Hc as [-> | E]; [done|]. by rewrite Hq, orb_true_r. }
  assert (HCm : forall t l owner, leases s !! t = Some l ->
    closed (authority (commit_lease l owner s)) = true
    /\ dom (leases (commit_lease l owner s)) = dom (leases s)).
  { intros t l owner Hl. pose proof (lease_token_eq n s t l Hs Hl) as Et. unfold commit_lease.
    destruct (commit_cases n s t l Hs Hl owner) as [[HL Hown]|Hstale].
    - destruct (commit_live n s t l Hs Hl owner HL Hown) as (loot & _ & ->).
      apply (HO _ t l); [done|done|]. unfold committed_state. rewrite update_closed. by apply HRel.
    - destruct (commit_stale n s t l Hs Hl owner Hstale) as (st & r & b & -> & _ & Hno & _).
      cbv beta iota zeta. destruct r as [o|e]; [rewrite (Hno o eq_refl)|]; by apply (HO _ t l). }
  destruct op; try discriminate; simpl.
  - unfold finish_item_roll_and_reserve_award_like_cpp. by rewrite Hr.
  - unfold reserve_item_with_mode_like_cpp, reserve_item_once. by rewrite Hr.
  - unfold reserve_money_for_optional_generation_like_cpp, reserve_money_once. by rewrite Hr.
  - apply HW. intros l Hl. by apply (HCm token).
  - apply HW. intros l Hl. pose proof (lease_token_eq n s token l Hs Hl) as Et.
    destruct (rollback_spec n s token l Hs Hl) as [(_ & _ & ->)|[(_ & _ & ->)|(st & -> & _)]];
      apply (HO _ token l); try done. by apply HRel.
  - apply HW. intros l Hl. pose proof (lease_token_eq n s token l Hs Hl) as Et. unfold begin_guard.
    destruct (begin_spec n s token l Hs Hl) as [(Hr' & _)|(st & e & -> & _)]; [congruence|].
    by apply (HO _ token l).
  - apply HG. intros l Hl. pose proof (HCm token l true Hl) as H. unfold guard_commit.
    by destruct (commit_claim_with_snapshot (authority s) l true) as [[[a' l1] [o|e]] b].
  - apply HG. intros l Hl. pose proof (lease_token_eq n s token l Hs Hl) as Et.
    unfold guard_quarantine.
    destruct (quarantine_spec n s token l Hs Hl) as [(_ & ->)|(_ & ->)]; apply (HO _ token l);
      try done. by apply HRel.
  - apply HG. intros l Hl. pose proof (lease_token_eq n s token l Hs Hl) as Et. unfold guard_drop.
    destruct (abort_spec n s token l Hs Hl) as [(_ & ->)|(_ & ->)]; apply (HO _ token l);
      try done. by apply HRel.
Qed.
End Closed.

(** Detaching and quarantining are final.  A detached or quarantined authority
    stays so through any further operations: it is retired, its lifecycle reads
    [Detached] or [Quarantined], and no further lease is ever handed out. *)
Theorem closed_forever {Ord : IterOrder ObjectGuid} n s ops :
  loot_reachable n s -> Z.of_nat n + Z.of_nat (length ops) < u64_max ->
  Forall loot_op_ok ops -> detached (authority s) = true \/ quarantined (authority s) = true ->
  retired (authority (run ops s)) = true
  /\ (lifecycle_like_cpp (authority (run ops s)) = Detached
      \/ lifecycle_like_cpp (authority (run ops s)) = Quarantined)
  /\ dom (leases (run ops s)) = dom (leases s).
Proof.
  intros Hr Hn Hok Hc. apply orb_true_iff in Hc. fold (closed (authority s)) in Hc.
  revert n s Hr Hn Hc. induction Hok as [|op ops Hop Hok IH]; intros n s Hr Hn Hc.
  - simpl in *. pose proof (reachable_claims n s Hr ltac:(lia)) as Hs.
    apply orb_true_iff in Hc as Hc'. split; [by apply (si_closed _ (ci_state _ _ Hs))|].
    split; [|done]. unfold lifecycle_like_cpp. destruct (detached _); [by left|].
    destruct Hc' as [|Hq]; [done|]. rewrite Hq. by right.
  - simpl in Hn. pose proof (reachable_claims n s Hr ltac:(lia)) as Hs.
    destruct (closed_exec n s op Hs Hc) as [Hc' Hd].
    destruct (IH (S n) (loot_exec op s)) as (H1 & H2 & H3); [by constructor|lia|done|].
    simpl. rewrite H3, Hd. done.
Qed.

(** Alice's claim is quarantined after an unknown COMMIT; nothing reopens it. *)
Definition quarantine_ops : list LootOp :=
  [LInitializeShared demo_loot; LReserveItem alice 0 Direct None; LBegin 1; LGuardQuarantine 1].
Definition reopen_ops : list LootOp :=
  [LReplace (Some demo_loot) ∅; LReserveItem bob 0 Direct None; LRetire;
   LReplaceRetired 2 (Some demo_loot) ∅].

Lemma closed_forever_witness :
  retired (authority (run reopen_ops (run quarantine_ops (initial_loot new_like_cpp)))) = true.
Proof.
  assert (Hr : loot_reachable 4 (run quarantine_ops (initial_loot new_like_cpp))).
  { refine (loot_run_reachable quarantine_ops 0 _ loot_reach_new _).
    apply Forall_cons_2; [apply demo_loot_ok|].
    repeat (apply Forall_cons_2; [exact I|]). apply Forall_nil_2. }
  refine (proj1 (closed_forever 4 _ reopen_ops Hr _ _ (or_intror _))).
  - vm_compute. reflexivity.
  - assert (Hsh : loot_op_ok (LReplace (Some demo_loot) ∅)).
    { split; [intros l [= <-]; apply demo_loot_ok|apply map_Forall_empty]. }
    apply Forall_cons_2; [exact Hsh|]. do 2 (apply Forall_cons_2; [exact I|]).
    apply Forall_cons_2; [exact Hsh|]. apply Forall_nil_2.
  - vm_compute. reflexivity.
Defined.

(** * Views *)

(** Opening a view is all or nothing.  When the response cannot be queued,
    the authority is exactly what it was, for viewers old and new; when it can,
    the player is a viewer of the pool and the snapshot published is that pool. *)
Theorem open_view_transactional {R} player (f : OwnedLootSnapshot -> LootViewerOpenOutcome -> option R)
    a s e loot :
  retired a = false -> selected_scope_like_cpp a player = Some s -> scope_epoch a s = Some e ->
  loot_for_scope a s = Some loot ->
  let o := mkViewerOpen e s (negb (contains player (players_looting loot)))
             (negb (looted_by_player loot)) in
  let r := try_open_view_with_snapshot_like_cpp player f a in
  match f (mkSnapshot e s (open_pool player loot)) o with
  | None => r = (a, Err ErrResponseEnqueueFailed, false)
  | Some x => r.1.2 = Ok (o, x)
      /\ loot_for_scope r.1.1 s = Some (open_pool player loot)
      /\ player ∈ players_looting (open_pool player loot)
  end.
Proof.
  intros Hr Hs He Hl. cbv zeta. unfold try_open_view_with_snapshot_like_cpp.
  rewrite Hr, Hs, He, Hl. cbv zeta. cbn [inserted first_viewer].
  destruct (f _ _) as [x|] eqn:Hf.
  - simpl. split; [done|]. split; [by rewrite loot_for_update, bool_decide_true, Hl|].
    unfold open_pool. destruct (looted_by_player loot); ssimpl_goal;
      destruct (contains player (players_looting loot)) eqn:Hc; ssimpl_goal;
      first [by apply contains_spec|set_solver].
  - unfold unchanged. f_equal. f_equal.
    assert (Hu : unopen_pool player (negb (contains player (players_looting loot)))
        (negb (looted_by_player loot)) (open_pool player loot) = loot).
    { unfold unopen_pool, open_pool, remove_viewer.
      assert (Hrm : contains player (players_looting loot) = false ->
        filter (fun v => v <> player) (players_looting loot ++ [player]) = players_looting loot).
      { intros Hc. apply Bool.not_true_iff_false in Hc. rewrite contains_spec in Hc.
        rewrite filter_app, filter_cons_False, app_nil_r by naive_solver.
        apply filter_all, Forall_forall. intros v Hv ->. by apply Hc, list_elem_of_In. }
      destruct loot as [? ? ? ? ? ? ? ? ? pl ? ? [|]]; unfold set_field; simpl in *;
        destruct (contains player pl); simpl; rewrite ?Hrm; done. }
    clear Hf. unfold selected_scope_like_cpp, scope_epoch in *. destruct a, s as [|p]; simpl in *.
    + subst. unfold set_field. simpl. by rewrite Hu.
    + unfold set_field. simpl. f_equal. apply map_eq. intros i.
      destruct (decide (p = i)) as [<-|Hne]; [|by rewrite !lookup_alter_ne by done].
      rewrite !lookup_alter_eq, Hl. simpl. by rewrite Hu.
Qed.

Lemma open_view_transactional_witness :
  try_open_view_with_snapshot_like_cpp (R:=unit) alice (fun _ _ => None)
    (authority (run (take 1 demo_ops) (initial_loot new_like_cpp)))
  = (authority (run (take 1 demo_ops) (initial_loot new_like_cpp)),
     Err ErrResponseEnqueueFailed, false).
Proof.
  refine (open_view_transactional (R:=unit) alice (fun _ _ => None) _ Shared 1 demo_loot _ _ _ _);
    vm_compute; reflexivity.
Defined.

(** * Skinning *)

Lemma scan_skinning_spec b pools :
  scan_skinning b pools
  = forallb (fun l => negb (loot_type l =? LootType_Skinning) || is_looted_like_cpp l) pools
    && (b || existsb (fun l => loot_type l =? LootType_Skinning) pools).
Proof.
  revert b. induction pools as [|l pools IH]; intros b; simpl; [by rewrite orb_false_r|].
  destruct (loot_type l =? LootType_Skinning); simpl; [|by rewrite IH].
  destruct (is_looted_like_cpp l); simpl; [|done]. rewrite IH. by rewrite !orb_true_l, orb_true_r.
Qed.

Lemma elem_of_iter_values {Ord : IterOrder ObjectGuid} (m : gmap ObjectGuid CreatureLoot) l :
  In l (iter_entries m).*2 <-> exists p, m !! p = Some l.
Proof.
  rewrite <- list_elem_of_In, list_elem_of_fmap. split.
  - intros ([p l'] & -> & H%elem_of_iter_entries). eauto.
  - intros [p H]. exists (p, l). split; [done|]. by apply elem_of_iter_entries.
Qed.

(** The early-returning scan for a fully skinned corpse is the plain
    statement, in whatever order the hash map visits the pools: the shared pool is
    a looted skinning pool, or some personal pool is a skinning pool and every
    personal skinning pool is looted. *)
Theorem fully_skinned_spec {Ord : IterOrder ObjectGuid} a :
  active_loot_pools_fully_skinned_like_cpp a = true <->
  (exists l, shared a = Some l /\ loot_type l = LootType_Skinning /\ is_looted_like_cpp l = true)
  \/ ((exists p l, personal a !! p = Some l /\ loot_type l = LootType_Skinning)
      /\ forall p l, personal a !! p = Some l -> loot_type l = LootType_Skinning ->
                     is_looted_like_cpp l = true).
Proof.
  unfold active_loot_pools_fully_skinned_like_cpp.
  assert (Hp : scan_skinning false (iter_entries (personal a)).*2 = true <->
    ((exists p l, personal a !! p = Some l /\ loot_type l = LootType_Skinning)
      /\ forall p l, personal a !! p = Some l -> loot_type l = LootType_Skinning ->
                     is_looted_like_cpp l = true)).
  { rewrite scan_skinning_spec, andb_true_iff, forallb_forall. simpl. rewrite existsb_exists. split.
    - intros [Hall (l & [p Hl]%elem_of_iter_values & Ht%Z.eqb_eq)]. split; [eauto|].
      intros p' l' Hl' Ht'. specialize (Hall l'). rewrite Ht', Z.eqb_refl in Hall. simpl in Hall.
      apply Hall, elem_of_iter_values. eauto.
    - intros [(p & l & Hl & Ht) Hall]. split.
      + intros l' [p' Hl']%elem_of_iter_values.
        destruct (Z.eqb_spec (loot_type l') LootType_Skinning); [|done]. simpl. eauto.
      + exists l. split; [apply elem_of_iter_values; eauto|by apply Z.eqb_eq]. }
  destruct (shared a) as [l|] eqn:Hs; simpl.
  - destruct ((loot_type l =? LootType_Skinning) && is_looted_like_cpp l) eqn:E.
    + apply andb_true_iff in E as [Et%Z.eqb_eq El]. naive_solver.
    + rewrite Hp. split; [by right|]. intros [(l' & [= <-] & Ht & Hlo)|H]; [|done].
      by rewrite Ht, Hlo in E.
  - rewrite Hp. naive_solver.
Qed.
