(* ===== verification/Float32.v ===== *)
(** The [f32] operations the movement code uses: IEEE 754 single precision
    (24 bits of significand, exponents up to 128) through the Standard
    Library's executable specification, rounding to nearest, ties to even.
    A NaN carries no payload. *)
From Stdlib Require Import SpecFloat.
From S2P Require Import Prelude.

Definition f32 : Type := spec_float.
Definition f32_add : f32 -> f32 -> f32 := SFadd 24 128.
Definition f32_mul : f32 -> f32 -> f32 := SFmul 24 128.
Definition f32_div : f32 -> f32 -> f32 := SFdiv 24 128.
Definition f32_abs : f32 -> f32 := SFabs.
Definition f32_lt : f32 -> f32 -> bool := SFltb.

(** [x as f32] of an integer. *)
Definition f32_of_Z (z : Z) : f32 := binary_normalize 24 128 z 0 false.

Definition f32_zero : f32 := S754_zero false.
Definition f32_one : f32 := f32_of_Z 1.
Definition f32_minus_one : f32 := f32_of_Z (-1).

(** [std::f32::consts::TAU], bits 0x40C90FDB; the literals 0.1 and 0.01. *)
Definition f32_TAU : f32 := S754_finite false 0xC90FDB (-21).
Definition f32_0_1 : f32 := S754_finite false 0xCCCCCD (-27).
Definition f32_0_01 : f32 := S754_finite false 0xA3D70A (-30).

(** [f32::clamp]: a NaN passes through. *)
Definition f32_clamp (x lo hi : f32) : f32 :=
  let x := if f32_lt x lo then lo else x in
  if f32_lt hi x then hi else x.

Definition f32_is_nan (x : f32) : bool := match x with S754_nan => true | _ => false end.

#[export] Instance f32_eq_dec : EqDecision f32.
Proof. solve_decision. Defined.

(** A comparison with a number fails only on a NaN or when it is false. *)
Lemma f32_clamp_bounds x lo hi :
  f32_lt hi lo = false -> f32_lt hi hi = false ->
  f32_lt (f32_clamp x lo hi) lo = false /\ f32_lt hi (f32_clamp x lo hi) = false.
Proof.
  intros Hhl Hhh. unfold f32_clamp. destruct (f32_lt x lo) eqn:E.
  - rewrite Hhl. split; [|done]. destruct lo; unfold f32_lt, SFltb in *; cbn in *; try done.
    all: try (destruct s; done).
    destruct s; rewrite Z.compare_refl; [rewrite Pos.compare_refl|rewrite Pos.compare_refl]; done.
  - destruct (f32_lt hi x) eqn:E2; [by rewrite Hhl, Hhh|by rewrite E].
Qed.

(** Floating-point numbers given by their bits: decoding an [f32], widening it
    to an [f64], and the [f64] operations used with it, on the Standard
    Library's executable specification of IEEE 754. *)

(** * Bits of an [f32] *)
Definition f32_from_bits (bits : Z) : f32 :=
  let sign := Z.testbit bits 31 in
  let exponent := Z.shiftr bits 23 mod 2 ^ 8 in
  let fraction := bits mod 2 ^ 23 in
  if exponent =? 255 then if fraction =? 0 then S754_infinity sign else S754_nan
  else if exponent =? 0 then
    if fraction =? 0 then S754_zero sign else S754_finite sign (Z.to_pos fraction) (-149)
  else S754_finite sign (Z.to_pos (fraction + 2 ^ 23)) (exponent - 150).

(** Of a number; the bits of a NaN are not kept. *)
Definition f32_to_bits (x : f32) : Z :=
  let signed (s : bool) (z : Z) := if s then z + 2 ^ 31 else z in
  match x with
  | S754_zero s => signed s 0
  | S754_infinity s => signed s (255 * 2 ^ 23)
  | S754_nan => 255 * 2 ^ 23 + 2 ^ 22
  | S754_finite s m e =>
      signed s (if Z.pos m <? 2 ^ 23 then Z.pos m else (e + 150) * 2 ^ 23 + (Z.pos m - 2 ^ 23))
  end.

Definition f32_is_finite (x : f32) : bool :=
  match x with S754_zero _ | S754_finite _ _ _ => true | _ => false end.

(** [x != 0.0]; a NaN differs from every number. *)
Definition f32_nonzero (x : f32) : bool := negb (SFeqb x f32_zero).

(** * [f64] *)
Definition f64 : Type := spec_float.
Definition f64_of_Z (z : Z) : f64 := binary_normalize 53 1024 z 0 false.
Definition f64_of_f32 (x : f32) : f64 :=
  match x with
  | S754_finite s m e => binary_normalize 53 1024 (if s then Z.neg m else Z.pos m) e s
  | _ => x
  end.
Definition f64_add : f64 -> f64 -> f64 := SFadd 53 1024.
Definition f64_mul : f64 -> f64 -> f64 := SFmul 53 1024.
Definition f64_opp : f64 -> f64 := SFopp.
Definition f64_min (x y : f64) : f64 :=
  match x with S754_nan => y | _ => if SFltb y x then y else x end.
Definition f64_max (x y : f64) : f64 :=
  match x with S754_nan => y | _ => if SFltb x y then y else x end.

(** [lo <= x <= hi] on numbers; false on a NaN. *)
Definition f64_between (lo x hi : f64) : bool := SFleb lo x && SFleb x hi.

(** The integer nearest to [m * 2^e], halves away from zero. *)
Definition round_half_away (m : positive) (e : Z) : Z :=
  if 0 <=? e then Z.pos m * 2 ^ e
  else (Z.pos m + 2 ^ (- e - 1)) / 2 ^ (- e).

(** [f32::round] and [f64::round]. *)
Definition float_round (prec emax : Z) (x : spec_float) : spec_float :=
  match x with
  | S754_finite s m e =>
      if 0 <=? e then x
      else
        let z := round_half_away m e in
        if z =? 0 then S754_zero s else binary_normalize prec emax (if s then - z else z) 0 s
  | _ => x
  end.
Definition f32_round : f32 -> f32 := float_round 24 128.
Definition f64_round : f64 -> f64 := float_round 53 1024.

(** [x as i32] of an [f64]: towards zero, saturating; a NaN gives 0. *)
Definition f64_to_i32 (x : f64) : Z :=
  let clamp z := Z.max (- 2 ^ 31) (Z.min z i32_max) in
  match x with
  | S754_zero _ | S754_nan => 0
  | S754_infinity s => if s then - 2 ^ 31 else i32_max
  | S754_finite s m e =>
      let z := if 0 <=? e then Z.pos m * 2 ^ e else Z.pos m / 2 ^ (- e) in
      clamp (if s then - z else z)
  end.

Example f32_bits_one : f32_from_bits 0x3F800000 = f32_one /\ f32_to_bits f32_one = 0x3F800000.
Proof. by vm_compute. Qed.
Example f64_rounds_half_away :
  f64_to_i32 (f64_round (f64_mul (f64_of_Z (-5)) (f64_of_f32 (f32_from_bits 0x3F000000)))) = -3.
Proof. by vm_compute. Qed.
