(* ===== verification/MotionGenerators.v ===== *)
(** wow-movement/src/generator.rs and the generators idle.rs, rotate.rs and
    distract.rs: the interface [MovementGenerator] of the motion master, the
    laws every generator promises it, and the generators as instances. *)
From S2P Require Import Prelude Float32.

(** * generator.rs: enumerations *)
Module MovementGeneratorType.
Inductive t : Type :=
| Idle | Random | Waypoint | Confused | Chase | Home | Flight | Point | Fleeing | Distract
| Assistance | AssistanceDistract | TimedFleeing | Follow | Rotate | Effect | SplineChain
| Formation.

#[global] Instance eq_dec : EqDecision t.
Proof. solve_decision. Defined.

Definition from_trinity_id (value : Z) : option t :=
  match value with
  | 0 => Some Idle | 1 => Some Random | 2 => Some Waypoint | 4 => Some Confused
  | 5 => Some Chase | 6 => Some Home | 7 => Some Flight | 8 => Some Point
  | 9 => Some Fleeing | 10 => Some Distract | 11 => Some Assistance
  | 12 => Some AssistanceDistract | 13 => Some TimedFleeing | 14 => Some Follow
  | 15 => Some Rotate | 16 => Some Effect | 17 => Some SplineChain | 18 => Some Formation
  | _ => None
  end.

Definition trinity_id (kind : t) : Z :=
  match kind with
  | Idle => 0 | Random => 1 | Waypoint => 2 | Confused => 4 | Chase => 5 | Home => 6
  | Flight => 7 | Point => 8 | Fleeing => 9 | Distract => 10 | Assistance => 11
  | AssistanceDistract => 12 | TimedFleeing => 13 | Follow => 14 | Rotate => 15
  | Effect => 16 | SplineChain => 17 | Formation => 18
  end.
End MovementGeneratorType.

Module MovementGeneratorMode.
Inductive t : Type := Default | Override.

#[global] Instance eq_dec : EqDecision t.
Proof. solve_decision. Defined.

(** The discriminant; the derived order compares it. *)
Definition code (m : t) : Z := match m with Default => 0 | Override => 1 end.
End MovementGeneratorMode.

Module MovementGeneratorPriority.
Inductive t : Type := None | Normal | Highest.

#[global] Instance eq_dec : EqDecision t.
Proof. solve_decision. Defined.

Definition code (p : t) : Z := match p with None => 0 | Normal => 1 | Highest => 2 end.

Lemma code_inj p q : code p = code q -> p = q.
Proof. by destruct p, q. Qed.
End MovementGeneratorPriority.
Abbreviation priority_code := MovementGeneratorPriority.code.

Module MovementSlot.
Inductive t : Type := Default | Active.

#[global] Instance eq_dec : EqDecision t.
Proof. solve_decision. Defined.
End MovementSlot.

(** [MovementGeneratorFlags], a [u16] of flags. *)
Module MovementGeneratorFlags.
Definition NONE : Z := 0x000.
Definition INITIALIZATION_PENDING : Z := 0x001.
Definition INITIALIZED : Z := 0x002.
Definition SPEED_UPDATE_PENDING : Z := 0x004.
Definition INTERRUPTED : Z := 0x008.
Definition PAUSED : Z := 0x010.
Definition TIMED_PAUSED : Z := 0x020.
Definition DEACTIVATED : Z := 0x040.
Definition INFORM_ENABLED : Z := 0x080.
Definition FINALIZED : Z := 0x100.
Definition PERSIST_ON_DEATH : Z := 0x200.
Definition TRANSITORY : Z := Z.lor SPEED_UPDATE_PENDING INTERRUPTED.
End MovementGeneratorFlags.

Record MovementGeneratorState : Type := mkGeneratorState
  { mode : MovementGeneratorMode.t; priority : MovementGeneratorPriority.t;
    flags : Z; base_unit_state : Z }.

#[global] Instance eta_generator_state : Eta MovementGeneratorState := fun s =>
  mkGeneratorState (mode s) (priority s) (flags s) (base_unit_state s).

Definition generator_state_default : MovementGeneratorState :=
  mkGeneratorState MovementGeneratorMode.Default MovementGeneratorPriority.None
    MovementGeneratorFlags.NONE 0.

(** * The trait

    [state] and [state_mut] make up a lens; the flag operations are the default
    methods over it. *)
Class HasState (G : Type) : Type :=
  { state : G -> MovementGeneratorState;
    set_state : MovementGeneratorState -> G -> G }.

Section FlagMethods.
Context `{HasState G}.

Definition add_flag (flag : Z) (g : G) : G :=
  set_state ((state g) <| flags := Prelude.set_flag (flags (state g)) flag |>) g.

Definition generator_has_flag (flag : Z) (g : G) : bool :=
  Prelude.has_flag (flags (state g)) flag.

Definition remove_flag (flag : Z) (g : G) : G :=
  set_state ((state g) <| flags := Prelude.clear_flag (flags (state g)) flag |>) g.
End FlagMethods.

Class MovementGenerator (G : Type) `{HasState G} : Type :=
  { kind : G -> MovementGeneratorType.t;
    initialize : G -> G;
    reset : G -> G;
    update : Z -> G -> G * bool;
    deactivate : G -> G;
    finalize : bool -> bool -> G -> G;
    unit_speed_changed : G -> G;
    pause : Z -> G -> G;
    resume : Z -> G -> G;
    reset_position : G -> option (f32 * f32 * f32) }.

(** What the motion master reads to place a generator and to release the unit
    state it holds. *)
Definition shape `{MovementGenerator G} (g : G) :
    MovementGeneratorType.t * MovementGeneratorMode.t * MovementGeneratorPriority.t * Z :=
  (kind g, mode (state g), priority (state g), base_unit_state (state g)).

(** What a generator promises: no call of its life cycle changes its shape, and
    [finalize] marks it finalized. *)
Class GeneratorLaws (G : Type) `{MovementGenerator G} : Prop :=
  { shape_initialize g : shape (initialize g) = shape g;
    shape_reset g : shape (reset g) = shape g;
    shape_update diff_ms g : shape (fst (update diff_ms g)) = shape g;
    shape_deactivate g : shape (deactivate g) = shape g;
    shape_finalize active inform g : shape (finalize active inform g) = shape g;
    shape_unit_speed_changed g : shape (unit_speed_changed g) = shape g;
    shape_pause timer_ms g : shape (pause timer_ms g) = shape g;
    shape_resume timer_ms g : shape (resume timer_ms g) = shape g;
    finalize_finalizes active inform g :
      generator_has_flag MovementGeneratorFlags.FINALIZED (finalize active inform g) = true }.

(** * idle.rs *)
Module Idle.
Record t : Type := mk { st : MovementGeneratorState; stop_moving_calls : Z }.

#[global] Instance eta_t : Eta t := fun g => mk (st g) (stop_moving_calls g).

(** [IdleMovementGenerator::new], and its [Default]. *)
Definition new : t :=
  mk (mkGeneratorState MovementGeneratorMode.Default MovementGeneratorPriority.Normal
        MovementGeneratorFlags.INITIALIZED 0) 0.

#[global] Instance has_state : HasState t :=
  {| state := st; set_state s g := g <| st := s |> |}.

Definition stop_moving (g : t) : t :=
  g <| stop_moving_calls := sat_add u32_max (stop_moving_calls g) 1 |>.

#[global] Instance generator : MovementGenerator t :=
  {| kind _ := MovementGeneratorType.Idle;
     initialize := stop_moving;
     reset := stop_moving;
     update _ g := (g, true);
     deactivate g := g;
     finalize _ _ g := add_flag MovementGeneratorFlags.FINALIZED g;
     unit_speed_changed g := g; pause _ g := g; resume _ g := g;
     reset_position _ := None |}.
End Idle.

(** * rotate.rs *)
Module Rotate.
Inductive RotateDirection : Type := Left | Right.

Record RotateFacingSpline : Type := mkFacing
  { facing_angle : f32; disable_transport_path_transformations : bool }.

Record RotateMovementUpdate : Type := mkUpdate
  { keep_running : bool; facing_spline : option RotateFacingSpline }.

Record RotateMovementInform : Type := mkInform
  { inform_type : MovementGeneratorType.t; inform_id : Z }.

Record t : Type := mk
  { st : MovementGeneratorState; id : Z; duration_ms : Z; max_duration_ms : Z;
    direction : RotateDirection; stop_moving_calls : Z;
    last_facing_spline : option RotateFacingSpline;
    movement_inform : option RotateMovementInform }.

#[global] Instance eta_t : Eta t := fun g =>
  mk (st g) (id g) (duration_ms g) (max_duration_ms g) (direction g) (stop_moving_calls g)
    (last_facing_spline g) (movement_inform g).

Definition UNIT_STATE_ROTATING_LIKE_CPP : Z := 0x00200000.

Definition new (id time_ms : Z) (direction : RotateDirection) : t :=
  mk (mkGeneratorState MovementGeneratorMode.Default MovementGeneratorPriority.Normal
        MovementGeneratorFlags.INITIALIZATION_PENDING UNIT_STATE_ROTATING_LIKE_CPP)
    id time_ms time_ms direction 0 None None.

#[global] Instance has_state : HasState t :=
  {| state := st; set_state s g := g <| st := s |> |}.

Definition sign (d : RotateDirection) : f32 :=
  match d with Left => f32_one | Right => f32_minus_one end.

Definition rotated (current_orientation : f32) (diff_ms max_duration_ms : Z)
    (d : RotateDirection) : f32 :=
  if max_duration_ms =? 0 then current_orientation
  else f32_clamp
         (f32_add current_orientation
            (f32_mul (f32_div (f32_mul (f32_of_Z diff_ms) f32_TAU) (f32_of_Z max_duration_ms))
               (sign d)))
         f32_zero f32_TAU.

Definition update_with_owner_like_cpp (owner_exists : bool) (diff_ms : Z)
    (current_orientation : f32) (owner_on_transport : bool) (g : t) : t * RotateMovementUpdate :=
  if negb owner_exists then (g, mkUpdate false None)
  else
    let spline := mkFacing (rotated current_orientation diff_ms (max_duration_ms g) (direction g))
                    owner_on_transport in
    let g := g <| last_facing_spline := Some spline |> in
    if diff_ms <? duration_ms g then
      (g <| duration_ms := duration_ms g - diff_ms |>, mkUpdate true (Some spline))
    else (add_flag MovementGeneratorFlags.INFORM_ENABLED g, mkUpdate false (Some spline)).

Definition initialize (g : t) : t :=
  let g := remove_flag (Z.lor MovementGeneratorFlags.INITIALIZATION_PENDING
                          MovementGeneratorFlags.DEACTIVATED) g in
  let g := add_flag MovementGeneratorFlags.INITIALIZED g in
  g <| stop_moving_calls := sat_add u32_max (stop_moving_calls g) 1 |>.

Definition finalize (_active inform : bool) (g : t) : t :=
  (add_flag MovementGeneratorFlags.FINALIZED g)
    <| movement_inform :=
         if inform then Some (mkInform MovementGeneratorType.Rotate (id g)) else None |>.

#[global] Instance generator : MovementGenerator t :=
  {| kind _ := MovementGeneratorType.Rotate;
     MotionGenerators.initialize := initialize;
     reset g := initialize (remove_flag MovementGeneratorFlags.DEACTIVATED g);
     update diff_ms g :=
       let orientation := match last_facing_spline g with
                          | Some spline => facing_angle spline
                          | None => f32_zero
                          end in
       let '(g, outcome) := update_with_owner_like_cpp true diff_ms orientation false g in
       (g, keep_running outcome);
     deactivate g := add_flag MovementGeneratorFlags.DEACTIVATED g;
     MotionGenerators.finalize := finalize;
     unit_speed_changed g := g; pause _ g := g; resume _ g := g;
     reset_position _ := None |}.
End Rotate.

(** * distract.rs *)
Module Distract.
Record DistractFacingSpline : Type := mkFacing
  { facing_angle : f32; disable_transport_path_transformations : bool }.

Record DistractInitializeAction : Type := mkInitialize
  { stand_up : bool; facing_spline : DistractFacingSpline }.

Record DistractFinalizeAction : Type := mkFinalize { return_home_orientation : option f32 }.

Record t : Type := mk
  { st : MovementGeneratorState; timer_ms : Z; orientation : f32;
    last_initialize_action : option DistractInitializeAction;
    finalize_action : option DistractFinalizeAction }.

#[global] Instance eta_t : Eta t := fun g =>
  mk (st g) (timer_ms g) (orientation g) (last_initialize_action g) (finalize_action g).

Definition UNIT_STATE_DISTRACTED_LIKE_CPP : Z := 0x00001000.

Definition new_with_priority (timer_ms : Z) (orientation : f32)
    (priority : MovementGeneratorPriority.t) : t :=
  mk (mkGeneratorState MovementGeneratorMode.Default priority
        MovementGeneratorFlags.INITIALIZATION_PENDING UNIT_STATE_DISTRACTED_LIKE_CPP)
    timer_ms orientation None None.

Definition new (timer_ms : Z) (orientation : f32) : t :=
  new_with_priority timer_ms orientation MovementGeneratorPriority.Highest.

#[global] Instance has_state : HasState t :=
  {| state := st; set_state s g := g <| st := s |> |}.

Definition initialize_with_owner_like_cpp (owner_is_standing owner_on_transport : bool) (g : t) :
    t * DistractInitializeAction :=
  let g := remove_flag (Z.lor MovementGeneratorFlags.INITIALIZATION_PENDING
                          MovementGeneratorFlags.DEACTIVATED) g in
  let g := add_flag MovementGeneratorFlags.INITIALIZED g in
  let action := mkInitialize (negb owner_is_standing)
                  (mkFacing (orientation g) owner_on_transport) in
  (g <| last_initialize_action := Some action |>, action).

Definition reset_with_owner_like_cpp (owner_is_standing owner_on_transport : bool) (g : t) :
    t * DistractInitializeAction :=
  initialize_with_owner_like_cpp owner_is_standing owner_on_transport
    (remove_flag MovementGeneratorFlags.DEACTIVATED g).

Definition update_with_owner_like_cpp (owner_exists : bool) (diff_ms : Z) (g : t) : t * bool :=
  if negb owner_exists then (g, false)
  else if timer_ms g <? diff_ms then (add_flag MovementGeneratorFlags.INFORM_ENABLED g, false)
  else (g <| timer_ms := timer_ms g - diff_ms |>, true).

Definition finalize_with_owner_like_cpp (movement_inform owner_is_creature : bool)
    (home_orientation : f32) (g : t) : t * DistractFinalizeAction :=
  let g := add_flag MovementGeneratorFlags.FINALIZED g in
  let action := mkFinalize
    (if movement_inform && generator_has_flag MovementGeneratorFlags.INFORM_ENABLED g
        && owner_is_creature then Some home_orientation else None) in
  (g <| finalize_action := Some action |>, action).

#[global] Instance generator : MovementGenerator t :=
  {| kind _ := MovementGeneratorType.Distract;
     initialize g := fst (initialize_with_owner_like_cpp true false g);
     reset g := fst (reset_with_owner_like_cpp true false g);
     update diff_ms g := update_with_owner_like_cpp true diff_ms g;
     deactivate g := add_flag MovementGeneratorFlags.DEACTIVATED g;
     finalize _ inform g := fst (finalize_with_owner_like_cpp inform false f32_zero g);
     unit_speed_changed g := g; pause _ g := g; resume _ g := g;
     reset_position _ := None |}.
End Distract.

(** [AssistanceDistractMovementGenerator] wraps the generator above. *)
Module AssistanceDistract.
Record AssistanceDistractFinalizeAction : Type := mkFinalize { set_react_aggressive : bool }.

Record t : Type := mk
  { inner : Distract.t; finalize_action : option AssistanceDistractFinalizeAction }.

#[global] Instance eta_t : Eta t := fun g => mk (inner g) (finalize_action g).

Definition new (timer_ms : Z) (orientation : f32) : t :=
  mk (Distract.new_with_priority timer_ms orientation MovementGeneratorPriority.Normal) None.

#[global] Instance has_state : HasState t :=
  {| state g := state (inner g); set_state s g := g <| inner := set_state s (inner g) |> |}.

Definition initialize_with_owner_like_cpp (owner_is_standing owner_on_transport : bool) (g : t) :
    t * Distract.DistractInitializeAction :=
  let '(d, action) := Distract.initialize_with_owner_like_cpp owner_is_standing
                        owner_on_transport (inner g) in
  (g <| inner := d |>, action).

Definition reset_with_owner_like_cpp (owner_is_standing owner_on_transport : bool) (g : t) :
    t * Distract.DistractInitializeAction :=
  let '(d, action) := Distract.reset_with_owner_like_cpp owner_is_standing
                        owner_on_transport (inner g) in
  (g <| inner := d |>, action).

Definition update_with_owner_like_cpp (owner_exists : bool) (diff_ms : Z) (g : t) : t * bool :=
  let '(d, running) := Distract.update_with_owner_like_cpp owner_exists diff_ms (inner g) in
  (g <| inner := d |>, running).

Definition finalize_with_owner_like_cpp (movement_inform owner_is_creature : bool) (g : t) :
    t * AssistanceDistractFinalizeAction :=
  let g := add_flag MovementGeneratorFlags.FINALIZED g in
  let action := mkFinalize
    (movement_inform && generator_has_flag MovementGeneratorFlags.INFORM_ENABLED g
     && owner_is_creature) in
  (g <| finalize_action := Some action |>, action).

#[global] Instance generator : MovementGenerator t :=
  {| kind _ := MovementGeneratorType.AssistanceDistract;
     initialize g := g <| inner := initialize (inner g) |>;
     reset g := g <| inner := reset (inner g) |>;
     update diff_ms g := let '(d, running) := update diff_ms (inner g) in
                         (g <| inner := d |>, running);
     deactivate g := g <| inner := deactivate (inner g) |>;
     finalize _ inform g := fst (finalize_with_owner_like_cpp inform false g);
     unit_speed_changed g := g; pause _ g := g; resume _ g := g;
     reset_position _ := None |}.
End AssistanceDistract.

(** * runtime_state.rs: the proxy of a generator whose life cycle is run by the
    motion subsystem of wow-entities *)
Module Proxy.
Record t : Type := mk { st : MovementGeneratorState; kind_of : MovementGeneratorType.t }.

#[global] Instance eta_t : Eta t := fun g => mk (st g) (kind_of g).

#[global] Instance has_state : HasState t :=
  {| state := st; set_state s g := g <| st := s |> |}.

Definition initialize (g : t) : t :=
  add_flag MovementGeneratorFlags.INITIALIZED
    (remove_flag (Z.lor MovementGeneratorFlags.INITIALIZATION_PENDING
                    MovementGeneratorFlags.DEACTIVATED) g).

(** [contains] of a single flag is [has_flag]. *)
#[global] Instance generator : MovementGenerator t :=
  {| kind := kind_of;
     MotionGenerators.initialize := initialize;
     reset := initialize;
     update _ g := (g, negb (generator_has_flag MovementGeneratorFlags.FINALIZED g));
     deactivate g := add_flag MovementGeneratorFlags.DEACTIVATED g;
     finalize _ _ g := add_flag MovementGeneratorFlags.FINALIZED g;
     unit_speed_changed g := g; pause _ g := g; resume _ g := g;
     reset_position _ := None |}.
End Proxy.

(** * The laws *)
Lemma has_flag_set_flag_same x f : f <> 0 -> has_flag (set_flag x f) f = true.
Proof.
  intros Hf. rewrite has_flag_set. unfold has_flag at 2. rewrite Z.land_diag.
  destruct (Z.eqb_spec f 0); [done|]. by rewrite orb_true_r.
Qed.

Ltac generator_laws :=
  split; intros; repeat case_match; simplify_eq/=; try done;
  apply has_flag_set_flag_same; done.

#[global] Instance idle_laws : GeneratorLaws Idle.t.
Proof. generator_laws. Qed.

#[global] Instance rotate_laws : GeneratorLaws Rotate.t.
Proof.
  split; intros; try done.
  - cbn. unfold Rotate.update_with_owner_like_cpp. cbn. by destruct (_ <? _).
  - apply has_flag_set_flag_same. done.
Qed.

#[global] Instance distract_laws : GeneratorLaws Distract.t.
Proof.
  split; intros; try done.
  - cbn. unfold Distract.update_with_owner_like_cpp. cbn. by destruct (_ <? _).
  - apply has_flag_set_flag_same. done.
Qed.

#[global] Instance assistance_distract_laws : GeneratorLaws AssistanceDistract.t.
Proof.
  split; intros; try done.
  - cbn. unfold Distract.update_with_owner_like_cpp. cbn. by destruct (_ <? _).
  - apply has_flag_set_flag_same. done.
Qed.

#[global] Instance proxy_laws : GeneratorLaws Proxy.t.
Proof. generator_laws. Qed.

(** * [Box<dyn MovementGenerator>]: any lawful generator *)
Inductive DynGenerator : Type :=
| Box (G : Type) (HS : HasState G) (HG : MovementGenerator G) (HL : GeneratorLaws G) (g : G).
Arguments Box {G HS HG HL} g.

#[global] Instance dyn_has_state : HasState DynGenerator :=
  {| state d := match d with Box g => state g end;
     set_state s d := match d with @Box _ _ _ HL g => @Box _ _ _ HL (set_state s g) end |}.

Definition box_map (f : forall G (HS : HasState G) (HG : MovementGenerator G), G -> G)
    (d : DynGenerator) : DynGenerator :=
  match d with @Box G HS HG HL g => @Box G HS HG HL (f G HS HG g) end.

#[global] Instance dyn_generator : MovementGenerator DynGenerator :=
  {| kind d := match d with Box g => kind g end;
     initialize := box_map (fun _ _ _ g => initialize g);
     reset := box_map (fun _ _ _ g => reset g);
     update diff_ms d := match d with @Box G HS HG HL g =>
                           let '(g, running) := update diff_ms g in (@Box G HS HG HL g, running)
                         end;
     deactivate := box_map (fun _ _ _ g => deactivate g);
     finalize active inform := box_map (fun _ _ _ g => finalize active inform g);
     unit_speed_changed := box_map (fun _ _ _ g => unit_speed_changed g);
     pause timer_ms := box_map (fun _ _ _ g => pause timer_ms g);
     resume timer_ms := box_map (fun _ _ _ g => resume timer_ms g);
     reset_position d := match d with Box g => reset_position g end |}.

(** A box keeps the laws of what it holds. *)
#[global] Instance dyn_laws : GeneratorLaws DynGenerator.
Proof.
  split.
  - intros [G HS HG HL g]. apply (shape_initialize g).
  - intros [G HS HG HL g]. apply (shape_reset g).
  - intros diff_ms [G HS HG HL g]. pose proof (shape_update diff_ms g) as E.
    cbn. destruct (update diff_ms g). exact E.
  - intros [G HS HG HL g]. apply (shape_deactivate g).
  - intros a i [G HS HG HL g]. apply (shape_finalize a i g).
  - intros [G HS HG HL g]. apply (shape_unit_speed_changed g).
  - intros ms [G HS HG HL g]. apply (shape_pause ms g).
  - intros ms [G HS HG HL g]. apply (shape_resume ms g).
  - intros a i [G HS HG HL g]. apply (finalize_finalizes a i g).
Qed.
