(* ===== verification/MotionMaster.v ===== *)
(** wow-movement/src/motion_master.rs: the stack of movement generators of a
    unit.  One default generator lies under the active ones, which are kept by
    descending priority; operations requested while the master is updating or
    not yet initialized are queued. *)
From S2P Require Import Prelude MotionGenerators.

Module MotionMasterFlags.
Definition NONE : Z := 0x0.
Definition UPDATE : Z := 0x1.
Definition STATIC_INITIALIZATION_PENDING : Z := 0x2.
Definition INITIALIZATION_PENDING : Z := 0x4.
Definition INITIALIZING : Z := 0x8.
Definition DELAYED : Z := Z.lor UPDATE INITIALIZATION_PENDING.
End MotionMasterFlags.

Module MotionMasterDelayedActionType.
Inductive t : Type :=
| Clear | ClearSlot | ClearMode | ClearPriority | Add | Remove | RemoveType | Initialize.

#[global] Instance eq_dec : EqDecision t.
Proof. solve_decision. Defined.

Definition trinity_id (a : t) : Z :=
  match a with
  | Clear => 0 | ClearSlot => 1 | ClearMode => 2 | ClearPriority => 3
  | Add => 4 | Remove => 5 | RemoveType => 6 | Initialize => 7
  end.

Definition from_trinity_id (value : Z) : option t :=
  match value with
  | 0 => Some Clear | 1 => Some ClearSlot | 2 => Some ClearMode | 3 => Some ClearPriority
  | 4 => Some Add | 5 => Some Remove | 6 => Some RemoveType | 7 => Some Initialize
  | _ => None
  end.
End MotionMasterDelayedActionType.

(** * Delayed actions

    A closure over [&mut M] is the data [A] it captured, with the function
    [run] that says what calling it does; the validator is the answer it
    gives when the action is resolved. *)
Record ResolvedDelayedAction : Type := mkResolved
  { resolved_type : MotionMasterDelayedActionType.t; executed : bool }.

Record DelayedAction (A : Type) : Type := mkDelayed
  { action_type : MotionMasterDelayedActionType.t; action : A; validator : bool }.
Arguments mkDelayed {A} _ _ _.
Arguments action_type {A} _.
Arguments action {A} _.
Arguments validator {A} _.

Section Queue.
Context {A M : Type} (run : A -> M -> M).

(** [DelayedAction::new]. *)
Definition delayed_action_new (ty : MotionMasterDelayedActionType.t) (a : A) : DelayedAction A :=
  mkDelayed ty a true.

Definition resolve (a : DelayedAction A) (motion_master : M) : M * bool :=
  if negb (validator a) then (motion_master, false)
  else (run (action a) motion_master, true).

Fixpoint resolve_all (queue : list (DelayedAction A)) (motion_master : M) :
    M * list ResolvedDelayedAction :=
  match queue with
  | [] => (motion_master, [])
  | a :: rest =>
      let '(m, executed) := resolve a motion_master in
      let '(m, resolved) := resolve_all rest m in
      (m, mkResolved (action_type a) executed :: resolved)
  end.
End Queue.

(** * State *)
Module MotionMaster.
Section Master.
Context {G : Type}.

(** The closures the master queues: the public operation to call again. *)
Inductive MasterAction : Type :=
| ActionAdd (movement : G) (slot : MovementSlot.t)
| ActionRemoveKind (kind : MovementGeneratorType.t) (slot : MovementSlot.t)
| ActionClear
| ActionClearSlot (slot : MovementSlot.t)
| ActionClearMode (mode : MovementGeneratorMode.t)
| ActionClearPriority (priority : MovementGeneratorPriority.t).

(** [finalized] is a ghost: every generator the master has finalized and
    dropped, as [finalize] left it, with the two arguments it was given. *)
Record t : Type := mk
  { default_generator : option G;
    active_generators : list G;
    delayed_actions : list (DelayedAction MasterAction);
    master_flags : Z;
    base_unit_state_refs : list Z;
    last_resolved_delayed_actions : list ResolvedDelayedAction;
    finalized : list (G * bool * bool) }.

#[global] Instance eta_t : Eta t := fun m =>
  mk (default_generator m) (active_generators m) (delayed_actions m) (master_flags m)
    (base_unit_state_refs m) (last_resolved_delayed_actions m) (finalized m).

Definition new (generator : G) : t :=
  mk (Some generator) [] [] MotionMasterFlags.NONE [] [] [].

Definition new_pending : t :=
  mk None [] [] MotionMasterFlags.INITIALIZATION_PENDING [] [] [].

(** * Reading *)
Definition delayed_action_count (m : t) : nat := length (delayed_actions m).

Definition is_empty (m : t) : bool :=
  match default_generator m, active_generators m with None, [] => true | _, _ => false end.

Definition size (m : t) : nat :=
  ((if default_generator m then 1 else 0) + length (active_generators m))%nat.

Definition current_slot (m : t) : option MovementSlot.t :=
  match active_generators m, default_generator m with
  | _ :: _, _ => Some MovementSlot.Active
  | [], Some _ => Some MovementSlot.Default
  | [], None => None
  end.

(** [current_generator]; [set_current_generator] writes through
    [current_generator_mut]. *)
Definition current_generator (m : t) : option G :=
  match active_generators m with g :: _ => Some g | [] => default_generator m end.

Definition set_current_generator (g : G) (m : t) : t :=
  match active_generators m with
  | _ :: rest => m <| active_generators := g :: rest |>
  | [] => m <| default_generator := Some g |>
  end.

Context `{GeneratorLaws G}.

Definition current_kind (m : t) : option MovementGeneratorType.t :=
  match head (active_generators m) with
  | Some g => Some (kind g)
  | None => kind <$> default_generator m
  end.

Definition current_kind_for_slot (slot : MovementSlot.t) (m : t) :
    option MovementGeneratorType.t :=
  match slot with
  | MovementSlot.Default => kind <$> default_generator m
  | MovementSlot.Active => kind <$> head (active_generators m)
  end.

Definition has_generator_kind (k : MovementGeneratorType.t) (slot : MovementSlot.t) (m : t) :
    bool :=
  match slot with
  | MovementSlot.Default =>
      match default_generator m with Some g => bool_decide (kind g = k) | None => false end
  | MovementSlot.Active => existsb (fun g => bool_decide (kind g = k)) (active_generators m)
  end.

Definition base_unit_state_ref_count (base : Z) (m : t) : nat :=
  length (filter (fun s => s = base) (base_unit_state_refs m)).

(** * Base unit states and removal *)
Definition add_base_unit_state (base : Z) (m : t) : t :=
  if negb (base =? 0) then m <| base_unit_state_refs := base_unit_state_refs m ++ [base] |> else m.

(** [Vec::remove] of the first position that holds [s]. *)
Fixpoint remove_first (s : Z) (l : list Z) : list Z :=
  match l with
  | [] => []
  | x :: l' => if x =? s then l' else x :: remove_first s l'
  end.

Definition clear_base_unit_state (base : Z) (m : t) : t :=
  if base =? 0 then m else m <| base_unit_state_refs := remove_first base (base_unit_state_refs m) |>.

(** [Iterator::position]. *)
Fixpoint position (p : G -> bool) (l : list G) : option nat :=
  match l with
  | [] => None
  | g :: l' => if p g then Some 0%nat else S <$> position p l'
  end.

(** [Vec::remove] panics out of range; every caller below passes an index of
    the list, so the last branch is not reached. *)
Definition remove_active_index (index : nat) (active movement_inform : bool) (m : t) : t :=
  match active_generators m !! index with
  | Some movement =>
      let movement := finalize active movement_inform movement in
      clear_base_unit_state (base_unit_state (state movement))
        (m <| active_generators := delete index (active_generators m) |>
           <| finalized := finalized m ++ [(movement, active, movement_inform)] |>)
  | None => m
  end.

Definition delete_default (active movement_inform : bool) (m : t) : t :=
  match default_generator m with
  | Some g => m <| default_generator := None |>
                <| finalized := finalized m ++
                                [(finalize active movement_inform g, active, movement_inform)] |>
  | None => m
  end.

Definition no_active (m : t) : bool :=
  match active_generators m with [] => true | _ => false end.

(** * Adding *)
Definition higher_priority (p q : MovementGeneratorPriority.t) : bool :=
  priority_code q <? priority_code p.

(** The generator that the one to add displaces, or the top it suspends. *)
Definition make_room (p : MovementGeneratorPriority.t) (m : t) : t :=
  match active_generators m with
  | [] =>
      match default_generator m with
      | Some g => m <| default_generator := Some (deactivate g) |>
      | None => m
      end
  | top :: rest =>
      let top_priority := priority (state top) in
      if negb (higher_priority top_priority p) then
        if bool_decide (p = top_priority) then remove_active_index 0 true false m
        else m <| active_generators := deactivate top :: rest |>
      else
        match position (fun g => bool_decide (priority (state g) = p)) (active_generators m) with
        | Some index => remove_active_index index false false m
        | None => m
        end
  end.

Definition insertion_index (p : MovementGeneratorPriority.t) (l : list G) : nat :=
  default (length l) (position (fun g => higher_priority p (priority (state g))) l).

Definition insert_at {A} (index : nat) (x : A) (l : list A) : list A :=
  take index l ++ x :: drop index l.

Definition direct_add (movement : G) (slot : MovementSlot.t) (m : t) : t :=
  match slot with
  | MovementSlot.Default =>
      let m := delete_default (no_active m) false m in
      let m := if generator_has_flag MovementGeneratorFlags.INITIALIZATION_PENDING movement
               then m <| master_flags := set_flag (master_flags m)
                           MotionMasterFlags.STATIC_INITIALIZATION_PENDING |>
               else m in
      m <| default_generator := Some movement |>
  | MovementSlot.Active =>
      let m := make_room (priority (state movement)) m in
      let m := add_base_unit_state (base_unit_state (state movement)) m in
      let index := insertion_index (priority (state movement)) (active_generators m) in
      m <| active_generators := insert_at index movement (active_generators m) |>
  end.

(** * Clearing *)
Fixpoint remove_all_active (fuel : nat) (m : t) : t :=
  match fuel with
  | O => m
  | S fuel => if no_active m then m else remove_all_active fuel (remove_active_index 0 false false m)
  end.

(** The loop removes one generator per round. *)
Definition direct_clear_active (m : t) : t :=
  let m := if negb (no_active m) then remove_active_index 0 true false m else m in
  remove_all_active (length (active_generators m)) m.

Definition direct_clear (m : t) : t :=
  (direct_clear_active (delete_default (no_active m) false m)) <| base_unit_state_refs := [] |>.

(** The loop of [clear_mode] and of [clear_priority]: every round removes a
    generator or passes over one. *)
Fixpoint clear_where (fuel : nat) (p : G -> bool) (index : nat) (m : t) : t :=
  match fuel with
  | O => m
  | S fuel =>
      match active_generators m !! index with
      | None => m
      | Some g => if p g then clear_where fuel p index (remove_active_index index false false m)
                  else clear_where fuel p (S index) m
      end
  end.

(** * The public operations *)
Definition delayed (m : t) : bool := has_flag (master_flags m) MotionMasterFlags.DELAYED.

Definition push_delayed (ty : MotionMasterDelayedActionType.t) (a : MasterAction) (m : t) : t :=
  m <| delayed_actions := delayed_actions m ++ [delayed_action_new ty a] |>.

Definition add (movement : G) (slot : MovementSlot.t) (m : t) : t :=
  if delayed m then
    push_delayed MotionMasterDelayedActionType.Add (ActionAdd movement slot) m
  else direct_add movement slot m.

Definition remove_kind (k : MovementGeneratorType.t) (slot : MovementSlot.t) (m : t) : t :=
  if delayed m then
    push_delayed MotionMasterDelayedActionType.RemoveType (ActionRemoveKind k slot) m
  else
    match slot with
    | MovementSlot.Default =>
        if has_generator_kind k MovementSlot.Default m then delete_default false false m else m
    | MovementSlot.Active =>
        match position (fun g => bool_decide (kind g = k)) (active_generators m) with
        | Some index => remove_active_index index (Nat.eqb index 0) false m
        | None => m
        end
    end.

Definition clear (m : t) : t :=
  if delayed m then push_delayed MotionMasterDelayedActionType.Clear ActionClear m
  else direct_clear m.

Definition clear_slot (slot : MovementSlot.t) (m : t) : t :=
  if delayed m then
    push_delayed MotionMasterDelayedActionType.ClearSlot (ActionClearSlot slot) m
  else
    match slot with
    | MovementSlot.Default => delete_default (no_active m) false m
    | MovementSlot.Active => direct_clear_active m
    end.

Definition clear_mode (md : MovementGeneratorMode.t) (m : t) : t :=
  if delayed m then
    push_delayed MotionMasterDelayedActionType.ClearMode (ActionClearMode md) m
  else clear_where (length (active_generators m))
         (fun g => bool_decide (mode (state g) = md)) 0 m.

Definition clear_priority (p : MovementGeneratorPriority.t) (m : t) : t :=
  if delayed m then
    push_delayed MotionMasterDelayedActionType.ClearPriority (ActionClearPriority p) m
  else clear_where (length (active_generators m))
         (fun g => bool_decide (priority (state g) = p)) 0 m.

(** What calling a queued closure does. *)
Definition run_action (a : MasterAction) (m : t) : t :=
  match a with
  | ActionAdd movement slot => add movement slot m
  | ActionRemoveKind k slot => remove_kind k slot m
  | ActionClear => clear m
  | ActionClearSlot slot => clear_slot slot m
  | ActionClearMode md => clear_mode md m
  | ActionClearPriority p => clear_priority p m
  end.

(** The [while] of [resolve_delayed_actions]: the queue is taken out, resolved,
    and the emptied queue put back over whatever the actions queued. *)
Fixpoint resolve_rounds (fuel : nat) (m : t) : option t :=
  match delayed_actions m with
  | [] => Some m
  | queue =>
      match fuel with
      | O => None
      | S fuel =>
          let '(m, resolved) := resolve_all run_action queue (m <| delayed_actions := [] |>) in
          resolve_rounds fuel
            (m <| last_resolved_delayed_actions := last_resolved_delayed_actions m ++ resolved |>
               <| delayed_actions := [] |>)
      end
  end.

(** One round empties the queue. *)
Definition resolve_delayed_actions (m : t) : option t :=
  resolve_rounds 1 (m <| last_resolved_delayed_actions := [] |>).

(** The body of [update] on the current generator. *)
Definition drive (diff_ms : Z) (top : G) : G * bool :=
  let top := if generator_has_flag MovementGeneratorFlags.INITIALIZATION_PENDING top
             then initialize top else top in
  let top := if generator_has_flag MovementGeneratorFlags.DEACTIVATED top
             then reset top else top in
  MotionGenerators.update diff_ms top.

(** [None]: the loop of [resolve_delayed_actions] did not end. *)
Definition update (diff_ms : Z) (m : t) : option t :=
  if has_flag (master_flags m) (Z.lor MotionMasterFlags.INITIALIZATION_PENDING
                                  MotionMasterFlags.INITIALIZING)
     || is_empty m
  then Some m
  else
    let m := m <| master_flags := set_flag (master_flags m) MotionMasterFlags.UPDATE |> in
    match current_generator m with
    | None => Some m
    | Some top =>
        let '(top, keep_running) := drive diff_ms top in
        let m := set_current_generator top m in
        let m := if negb keep_running && negb (no_active m)
                 then remove_active_index 0 true true m else m in
        resolve_delayed_actions
          (m <| master_flags := clear_flag (master_flags m) MotionMasterFlags.UPDATE |>)
    end.

Definition propagate_speed_change (m : t) : t :=
  match current_generator m with
  | Some g => set_current_generator (MotionGenerators.unit_speed_changed g) m
  | None => m
  end.

Record StopOnDeathAction : Type := mkStop
  { persisted : bool; cleared_motion_master : bool; moved_idle : bool; stop_moving : bool }.

(** [idle_factory] is called at most once; [idle] is what it gives. *)
Definition stop_on_death (owner_in_world : bool) (idle : G) (m : t) : t * StopOnDeathAction :=
  if match current_generator m with
     | Some g => generator_has_flag MovementGeneratorFlags.PERSIST_ON_DEATH g
     | None => false
     end
  then (m, mkStop true false false false)
  else
    let m := if owner_in_world then add idle MovementSlot.Default (clear m) else m in
    (m, mkStop false owner_in_world owner_in_world true).
End Master.
Arguments t : clear implicits.
Arguments MasterAction : clear implicits.
End MotionMaster.
