(* ===== verification/MotionMasterTheorems.v ===== *)
(** What the motion master of MotionMaster.v keeps true, against the generator
    interface: the order of the active generators, the unit states they hold,
    and the fate of every generator it was given. *)
From stdpp Require Import sorting.
From S2P Require Import Prelude Float32 MotionGenerators MotionMaster.
Import MotionMaster.

(** * Lists of generators by priority *)
Section Lists.
Context `{GeneratorLaws G}.
Implicit Types (g : G) (l : list G).

Definition priority_of g : Z := priority_code (priority (state g)).
Definition base_of g : Z := base_unit_state (state g).

(** The unit states a list of generators holds. *)
Definition held l : list Z := filter (fun s => s <> 0) (base_of <$> l).

Definition descending l : Prop := StronglySorted (fun g h => priority_of h < priority_of g) l.

Lemma shape_inv g g' :
  shape g = shape g' ->
  kind g = kind g' /\ mode (state g) = mode (state g') /\
  priority_of g = priority_of g' /\ base_of g = base_of g'.
Proof. intros [= ? ? E ?]. unfold priority_of. by rewrite E. Qed.

Lemma descending_le_3 l : descending l -> (length l <= 3)%nat.
Proof.
  assert (Hb : forall g, 0 <= priority_of g <= 2)
    by (intros g; unfold priority_of; destruct (priority (state g)); cbn; lia).
  intros Hs. destruct l as [|a [|b [|c [|d l]]]]; cbn; try lia.
  inversion Hs as [|? ? Hs1 F1]; subst. inversion Hs1 as [|? ? Hs2 F2]; subst.
  inversion Hs2 as [|? ? Hs3 F3]; subst.
  rewrite !Forall_cons in F1, F2, F3.
  pose proof (Hb a); pose proof (Hb b); pose proof (Hb c); pose proof (Hb d). lia.
Qed.

Lemma descending_shapes l l' : shape <$> l = shape <$> l' -> descending l -> descending l'.
Proof.
  unfold descending. revert l'. induction l as [|g l IH]; intros [|g' l'] E; try done.
  injection E as E1 E2 E3 E4 E. intros Hs. inversion Hs as [|? ? Hs' F]; subst.
  constructor; [by apply IH|]. clear IH Hs Hs'. unfold priority_of in *. rewrite <- E3.
  revert l' E. induction F as [|x l Hx _ IH]; intros [|x' l'] E; try done.
  injection E as _ _ E' _ E. constructor; [by rewrite <- E'|by apply IH].
Qed.

Lemma held_shapes l l' : shape <$> l = shape <$> l' -> held l = held l'.
Proof.
  intros E. unfold held. f_equal. revert l' E.
  induction l as [|g l IH]; intros [|g' l'] E; try done.
  cbn in *. injection E as _ _ _ E' E. unfold base_of at 1 3. by rewrite E', (IH l').
Qed.

Lemma held_cons g l : held (g :: l) = (if base_of g =? 0 then [] else [base_of g]) ++ held l.
Proof. unfold held. cbn. destruct (Z.eqb_spec (base_of g) 0); by case_decide. Qed.

Lemma held_app l l' : held (l ++ l') = held l ++ held l'.
Proof. unfold held. by rewrite fmap_app, filter_app. Qed.

Lemma remove_first_perm s (l : list Z) : s ∈ l -> l ≡ₚ s :: remove_first s l.
Proof.
  induction l as [|x l IH]; cbn; [by intros ?%elem_of_nil|].
  destruct (Z.eqb_spec x s) as [->|]; [done|].
  intros [->|Hin]%elem_of_cons; [done|]. rewrite (IH Hin) at 1. apply Permutation_swap.
Qed.

Lemma remove_first_proper s : Proper ((≡ₚ) ==> (≡ₚ)) (remove_first s).
Proof.
  intros l l' E. destruct (decide (s ∈ l)) as [Hin|Hin].
  - apply (Permutation_cons_inv (a := s)).
    rewrite <- (remove_first_perm s l) by done.
    rewrite <- (remove_first_perm s l') by (by rewrite <- E). done.
  - assert (Hid : forall k, s ∉ k -> remove_first s k = k).
    { induction k as [|x k IH]; [done|]. cbn. rewrite not_elem_of_cons.
      intros [Hx Hk]. destruct (Z.eqb_spec x s); [done|]. by rewrite IH. }
    rewrite (Hid l), (Hid l'); [done| |done]. by rewrite <- E.
Qed.

(** Releasing the unit state of the generator at [index]. *)
Lemma held_delete l index g refs :
  l !! index = Some g -> refs ≡ₚ held l ->
  (if base_of g =? 0 then refs else remove_first (base_of g) refs) ≡ₚ held (delete index l).
Proof.
  intros Hg Hr. assert (El : held l ≡ₚ held (g :: delete index l)).
  { unfold held. by rewrite (delete_Permutation l index g Hg) at 1. }
  rewrite held_cons in El. rewrite El in Hr.
  destruct (Z.eqb_spec (base_of g) 0); [done|].
  rewrite (remove_first_proper _ _ _ Hr). cbn.
  destruct (Z.eqb_spec (base_of g) (base_of g)); [done|congruence].
Qed.

Lemma descending_delete l index : descending l -> descending (delete index l).
Proof.
  unfold descending. revert index. induction l as [|g l IH]; intros [|i] Hs; try done;
    inversion Hs as [|? ? Hs' F]; subst; [done|].
  cbn. constructor; [by apply IH|by apply Forall_delete].
Qed.

Lemma first_position_Some p l i :
  position p l = Some i ->
  exists g, l !! i = Some g /\ p g = true /\ Forall (fun h => p h = false) (take i l).
Proof.
  revert i. induction l as [|g l IH]; intros i; [done|]. cbn.
  destruct (p g) eqn:Ep; [intros [= <-]; exists g; cbn; auto|].
  intros (j & Hj & ->)%fmap_Some_1. apply IH in Hj as (h & Hl & Hp & F).
  exists h. cbn. auto.
Qed.

Lemma first_position_None p l : position p l = None <-> Forall (fun h => p h = false) l.
Proof.
  induction l as [|g l IH]; cbn; [split; auto|]. rewrite Forall_cons.
  destruct (p g); [split; [done|by intros [? _]]|].
  rewrite fmap_None, IH. naive_solver.
Qed.

Lemma insertion_index_cons p g l :
  insertion_index p (g :: l) =
  if higher_priority p (priority (state g)) then 0%nat else S (insertion_index p l).
Proof.
  unfold insertion_index. cbn. destruct (higher_priority p (priority (state g))); [done|].
  by destruct (position _ l).
Qed.

(** Inserting before the first generator of lower priority keeps the order. *)
Lemma insertion_index_descending movement l :
  descending l -> Forall (fun h => priority_of h <> priority_of movement) l ->
  descending (insert_at (insertion_index (priority (state movement)) l) movement l).
Proof.
  unfold descending, insert_at.
  induction l as [|g l IH]; intros Hs Hne; [cbn; repeat constructor|].
  inversion Hs as [|? ? Hs' F]; subst. apply Forall_cons in Hne as [Hg Hne].
  rewrite insertion_index_cons.
  change (higher_priority (priority (state movement)) (priority (state g)))
    with (priority_of g <? priority_of movement).
  destruct (Z.ltb_spec (priority_of g) (priority_of movement)) as [Hlt|Hge]; cbn.
  - constructor; [done|]. constructor; [done|].
    eapply Forall_impl; [exact F|]. cbn. lia.
  - constructor; [by apply IH|]. apply Forall_app; split; [by apply Forall_take|].
    constructor; [lia|by apply Forall_drop].
Qed.

Lemma insert_at_perm {A} (x : A) i (l : list A) : insert_at i x l ≡ₚ x :: l.
Proof.
  unfold insert_at. rewrite <- Permutation_middle. by rewrite take_drop.
Qed.
End Lists.

(** Distribute [fmap] over a concatenation. *)
Ltac fmap_push :=
  repeat first [rewrite fmap_app | rewrite fmap_cons | rewrite fmap_nil | progress cbn -[fmap]].

(** * The invariant, and the ledger of the generators handed in *)
Section Invariant.
Context `{GeneratorLaws G}.
Implicit Types (g : G) (m : t G).

Definition is_finalized (entry : G * bool * bool) : Prop :=
  generator_has_flag MovementGeneratorFlags.FINALIZED entry.1.1 = true.

(** A master that is not pending: active generators in strictly descending
    priority, one reference per unit state they hold, nothing queued. *)
Record master_inv m : Prop :=
  { inv_descending : descending (active_generators m);
    inv_refs : base_unit_state_refs m ≡ₚ held (active_generators m);
    inv_flags : master_flags m = MotionMasterFlags.NONE \/
                master_flags m = MotionMasterFlags.STATIC_INITIALIZATION_PENDING;
    inv_queue : delayed_actions m = [];
    inv_finalized : Forall is_finalized (finalized m) }.

(** The shapes of the generators the master holds or has finalized. *)
Definition ledger m : list (MovementGeneratorType.t * MovementGeneratorMode.t *
                             MovementGeneratorPriority.t * Z) :=
  shape <$> option_list (default_generator m) ++ active_generators m ++
            ((fun entry => entry.1.1) <$> finalized m).

(** A step that keeps the invariant and neither adds nor loses a generator. *)
Definition keeps m m' : Prop := (master_inv m -> master_inv m') /\ ledger m' ≡ₚ ledger m.

#[export] Instance keeps_preorder : PreOrder keeps.
Proof.
  split; [by intros m|]. intros a b c [Hab Eab] [Hbc Ebc].
  split; [tauto|by rewrite Ebc].
Qed.

Lemma base_of_finalize a i g : base_of (finalize a i g) = base_of g.
Proof. apply shape_inv, shape_finalize. Qed.

Lemma remove_active_index_eq index a i m g :
  active_generators m !! index = Some g ->
  remove_active_index index a i m =
  m <| active_generators := delete index (active_generators m) |>
    <| finalized := finalized m ++ [(finalize a i g, a, i)] |>
    <| base_unit_state_refs :=
         if base_of g =? 0 then base_unit_state_refs m
         else remove_first (base_of g) (base_unit_state_refs m) |>.
Proof.
  intros E. unfold remove_active_index, clear_base_unit_state. rewrite E.
  change (base_unit_state (state (finalize a i g))) with (base_of (finalize a i g)).
  rewrite base_of_finalize. by destruct m, (base_of g =? 0).
Qed.

Lemma finalized_snoc m g a i :
  Forall is_finalized (finalized m) ->
  Forall is_finalized (finalized m ++ [(finalize a i g, a, i)]).
Proof.
  intros F. apply Forall_app; split; [done|]. repeat constructor. apply finalize_finalizes.
Qed.

Lemma remove_active_index_keeps index a i m : keeps m (remove_active_index index a i m).
Proof.
  destruct (active_generators m !! index) as [g|] eqn:E.
  2: { unfold remove_active_index. by rewrite E. }
  rewrite (remove_active_index_eq _ _ _ _ g E). split.
  - intros [Hd Hr Hf Hq Hz]. split; cbn; [|by apply held_delete|done|done|].
    + by apply descending_delete.
    + by apply finalized_snoc.
  - unfold ledger, set_field. cbn -[fmap]. rewrite (delete_Permutation _ _ _ E) at 2.
    fmap_push. rewrite shape_finalize. solve_Permutation.
Qed.

Lemma delete_default_keeps a i m : keeps m (delete_default a i m).
Proof.
  unfold delete_default. destruct (default_generator m) as [g|] eqn:E; [|done]. split.
  - intros [Hd Hr Hf Hq Hz]. split; cbn; try done. by apply finalized_snoc.
  - unfold ledger, set_field. cbn -[fmap]. rewrite E.
    fmap_push. rewrite shape_finalize. solve_Permutation.
Qed.

Lemma set_current_keeps g g' m :
  current_generator m = Some g -> shape g' = shape g -> keeps m (set_current_generator g' m).
Proof.
  unfold current_generator, set_current_generator. intros E Es.
  destruct (active_generators m) as [|top rest] eqn:Ea.
  - split.
    + intros [Hd Hr Hf Hq Hz]. split; cbn; rewrite ?Ea in *; done.
    + unfold ledger, set_field. cbn -[fmap]. rewrite E, Ea. fmap_push. by rewrite Es.
  - injection E as ->. assert (El : shape <$> g :: rest = shape <$> g' :: rest)
      by (fmap_push; by rewrite Es). split.
    + intros [Hd Hr Hf Hq Hz]. rewrite Ea in Hd, Hr. split; cbn -[held]; try done.
      * by apply (descending_shapes (g :: rest)).
      * by rewrite <- (held_shapes _ _ El).
    + unfold ledger, set_field. cbn -[fmap]. rewrite Ea. fmap_push. by rewrite Es.
Qed.

Lemma flags_keeps f m :
  f = MotionMasterFlags.NONE \/ f = MotionMasterFlags.STATIC_INITIALIZATION_PENDING ->
  keeps m (m <| master_flags := f |>).
Proof. intros Hf. split; [|done]. by intros [Hd Hr _ Hq Hz]; split. Qed.

Lemma remove_all_active_keeps fuel m : keeps m (remove_all_active fuel m).
Proof.
  revert m. induction fuel as [|fuel IH]; intros m; cbn; [done|].
  destruct (no_active m); [done|]. rewrite <- IH. apply remove_active_index_keeps.
Qed.

Lemma direct_clear_active_keeps m : keeps m (direct_clear_active m).
Proof.
  unfold direct_clear_active. destruct (negb (no_active m)).
  - rewrite <- remove_all_active_keeps. apply remove_active_index_keeps.
  - apply remove_all_active_keeps.
Qed.

Lemma clear_where_keeps fuel p index m : keeps m (clear_where fuel p index m).
Proof.
  revert index m. induction fuel as [|fuel IH]; intros index m; cbn; [done|].
  destruct (active_generators m !! index); [|done].
  destruct (p g); [|apply IH]. rewrite <- IH. apply remove_active_index_keeps.
Qed.

Lemma active_of_remove index a i m :
  active_generators (remove_active_index index a i m) = delete index (active_generators m).
Proof.
  destruct (active_generators m !! index) as [g|] eqn:E.
  - by rewrite (remove_active_index_eq _ _ _ _ g E).
  - unfold remove_active_index. rewrite E. apply lookup_ge_None in E.
    rewrite delete_take_drop, take_ge, drop_ge by lia. by rewrite app_nil_r.
Qed.

Lemma remove_all_active_none m n :
  (length (active_generators m) <= n)%nat -> active_generators (remove_all_active n m) = [].
Proof.
  revert m. induction n as [|n IH]; intros m Hn; cbn.
  - by apply length_zero_iff_nil; lia.
  - unfold no_active. destruct (active_generators m) as [|g l] eqn:E; [done|].
    apply IH. rewrite active_of_remove, E. cbn in *. lia.
Qed.

Lemma direct_clear_active_none m : active_generators (direct_clear_active m) = [].
Proof. unfold direct_clear_active. by apply remove_all_active_none. Qed.

Lemma direct_clear_keeps m : keeps m (direct_clear m).
Proof.
  unfold direct_clear. set (m' := direct_clear_active _).
  assert (K : keeps m m').
  { subst m'. rewrite <- direct_clear_active_keeps. apply delete_default_keeps. }
  rewrite K. split; [|done]. intros [Hd Hr Hf Hq Hz]. split; cbn; try done.
  subst m'. by rewrite direct_clear_active_none.
Qed.

(** ** Adding *)
Lemma make_room_keeps p m : keeps m (make_room p m).
Proof.
  unfold make_room. destruct (active_generators m) as [|top rest] eqn:Ea.
  - destruct (default_generator m) as [g|] eqn:Ed; [|done].
    assert (Ec : current_generator m = Some g) by (unfold current_generator; by rewrite Ea).
    replace (m <| default_generator := Some (deactivate g) |>)
      with (set_current_generator (deactivate g) m)
      by (unfold set_current_generator; by rewrite Ea).
    by apply (set_current_keeps g); [|apply shape_deactivate].
  - destruct (negb _).
    + case_bool_decide; [apply remove_active_index_keeps|].
      assert (Ec : current_generator m = Some top) by (unfold current_generator; by rewrite Ea).
      replace (m <| active_generators := deactivate top :: rest |>)
        with (set_current_generator (deactivate top) m)
        by (unfold set_current_generator; by rewrite Ea).
      by apply (set_current_keeps top); [|apply shape_deactivate].
    + destruct (position _ _); [apply remove_active_index_keeps|done].
Qed.

Lemma priority_of_eq g p : priority_of g = priority_code p <-> priority (state g) = p.
Proof.
  unfold priority_of. split; [apply MovementGeneratorPriority.code_inj|by intros ->].
Qed.

(** Removing the one generator of a priority leaves none of it. *)
Lemma descending_delete_ne l i g p :
  descending l -> l !! i = Some g -> priority_of g = priority_code p ->
  Forall (fun h => priority_of h <> priority_code p) (delete i l).
Proof.
  unfold descending. revert i. induction l as [|h l IH]; intros i Hs Hl Hp; [done|].
  inversion Hs as [|? ? Hs' F]; subst. destruct i as [|i]; cbn in *.
  - injection Hl as ->. eapply Forall_impl; [exact F|]. cbn. lia.
  - constructor; [|by apply IH]. apply list_elem_of_lookup_2 in Hl.
    rewrite Forall_forall in F. specialize (F g Hl). lia.
Qed.

Lemma make_room_free p m :
  descending (active_generators m) ->
  Forall (fun h => priority_of h <> priority_code p) (active_generators (make_room p m)).
Proof.
  intros Hd. unfold make_room. destruct (active_generators m) as [|top rest] eqn:Ea.
  { destruct (default_generator m); cbn; rewrite ?Ea; constructor. }
  assert (Hr : Forall (fun h => priority_of h < priority_of top) rest)
    by (inversion Hd; done).
  unfold higher_priority. change (priority_code (priority (state top))) with (priority_of top).
  destruct (Z.ltb_spec (priority_code p) (priority_of top)) as [Hlt|Hge]; cbn [negb].
  - destruct (position _ _) as [i|] eqn:Ei.
    + apply first_position_Some in Ei as (g & Hg & Hp & _). apply bool_decide_eq_true in Hp.
      rewrite active_of_remove, Ea. eapply descending_delete_ne; [done|exact Hg|].
      by apply priority_of_eq.
    + apply first_position_None in Ei. rewrite Ea. eapply Forall_impl; [exact Ei|].
      intros h Hh. apply bool_decide_eq_false in Hh. by rewrite priority_of_eq.
  - case_bool_decide as Hp.
    + rewrite active_of_remove, Ea. cbn. subst p. eapply Forall_impl; [exact Hr|].
      unfold priority_of at 2. cbn. unfold priority_of. lia.
    + cbn. assert (Hn : priority_of top <> priority_code p)
        by (rewrite priority_of_eq; congruence).
      assert (Es : priority_of (deactivate top) = priority_of top)
        by apply shape_inv, shape_deactivate.
      constructor; [by rewrite Es|].
      eapply Forall_impl; [exact Hr|]. cbn. lia.
Qed.

(** A step that takes in the generators [given]. *)
Definition takes (given : list G) m m' : Prop :=
  (master_inv m -> master_inv m') /\ ledger m' ≡ₚ (shape <$> given) ++ ledger m.

Lemma keeps_takes m m' : keeps m m' -> takes [] m m'.
Proof. done. Qed.

Lemma takes_trans l1 l2 m1 m2 m3 :
  takes l1 m1 m2 -> takes l2 m2 m3 -> takes (l1 ++ l2) m1 m3.
Proof.
  intros [K1 E1] [K2 E2]. split; [tauto|]. rewrite E2, E1. fmap_push. solve_Permutation.
Qed.

Lemma direct_add_takes movement slot m : takes [movement] m (direct_add movement slot m).
Proof.
  destruct slot; cbn -[delete_default make_room].
  - set (m1 := delete_default _ _ m). set (m2 := if generator_has_flag _ _ then _ else _).
    assert (K : keeps m m2).
    { transitivity m1; [apply delete_default_keeps|]. subst m2.
      destruct (generator_has_flag _ _); [|done]. split; [|done].
      intros [Hd Hr Hf Hq Hz]; split; try done. right. cbn. by destruct Hf as [-> | ->]. }
    apply (takes_trans [] [movement] m m2); [by apply keeps_takes|].
    assert (En : default_generator m2 = None).
    { subst m2. assert (default_generator m1 = None)
        by (subst m1; unfold delete_default; by destruct (default_generator m) eqn:?).
      by destruct (generator_has_flag _ _). }
    split; [by intros [Hd Hr Hf Hq Hz]; split|].
    unfold ledger, set_field. cbn -[fmap]. rewrite En. done.
  - set (m1 := make_room _ m). set (m2 := add_base_unit_state _ m1).
    assert (Ea : active_generators m2 = active_generators m1)
      by (subst m2; unfold add_base_unit_state; by destruct (negb _)).
    split.
    + intros Hi. pose proof (make_room_free (priority (state movement)) m (inv_descending _ Hi)) as Hf.
      apply (proj1 (make_room_keeps (priority (state movement)) m)) in Hi. fold m1 in Hi, Hf.
      destruct Hi as [Hd Hr Hfl Hq Hz].
      assert (E2 : master_flags m2 = master_flags m1 /\ delayed_actions m2 = delayed_actions m1 /\
                   finalized m2 = finalized m1)
        by (subst m2; unfold add_base_unit_state; by destruct (negb _)).
      destruct E2 as (E2 & E3 & E4).
      split; cbn; rewrite ?E2, ?E3, ?E4; try done.
      * rewrite Ea. apply insertion_index_descending; done.
      * assert (Eh : held (insert_at (insertion_index (priority (state movement)) (active_generators m2))
                             movement (active_generators m2)) ≡ₚ held (movement :: active_generators m1))
          by (unfold held; rewrite Ea; by rewrite insert_at_perm).
        rewrite Eh, held_cons, <- Hr. subst m2. unfold add_base_unit_state. fold (base_of movement).
        destruct (Z.eqb_spec (base_of movement) 0); cbn; [done|].
        by rewrite Permutation_app_comm.
    + assert (El : ledger m2 = ledger m1)
        by (subst m2; unfold add_base_unit_state; by destruct (negb _)).
      rewrite <- (proj2 (make_room_keeps (priority (state movement)) m)). fold m1. rewrite <- El.
      unfold ledger, set_field. cbn -[fmap]. rewrite insert_at_perm. fmap_push. solve_Permutation.
Qed.

(** ** The public operations *)
Inductive MasterOp : Type :=
| OpAction (a : MasterAction G)
| OpUpdate (diff_ms : Z)
| OpSpeedChange
| OpStopOnDeath (owner_in_world : bool) (idle : G).

Definition run_op (op : MasterOp) m : option (t G) :=
  match op with
  | OpAction a => Some (run_action a m)
  | OpUpdate diff_ms => MotionMaster.update diff_ms m
  | OpSpeedChange => Some (propagate_speed_change m)
  | OpStopOnDeath owner_in_world idle => Some (fst (stop_on_death owner_in_world idle m))
  end.

(** The generators an operation hands to the master. *)
Definition handed (op : MasterOp) m : list G :=
  match op with
  | OpAction (ActionAdd movement _) => [movement]
  | OpStopOnDeath owner_in_world idle =>
      if owner_in_world && negb (persisted (snd (stop_on_death owner_in_world idle m)))
      then [idle] else []
  | _ => []
  end.

Fixpoint run_ops (ops : list MasterOp) m : option (t G * list G) :=
  match ops with
  | [] => Some (m, [])
  | op :: ops =>
      m' ← run_op op m;
      '(m'', gs) ← run_ops ops m';
      Some (m'', handed op m ++ gs)
  end.

Lemma inv_not_delayed m : master_inv m -> delayed m = false.
Proof. intros [_ _ [E|E] _ _]; unfold delayed; by rewrite E. Qed.

Lemma run_action_takes a m :
  master_inv m -> takes (handed (OpAction a) m) m (run_action a m).
Proof.
  intros Hi. pose proof (inv_not_delayed m Hi) as Ed.
  destruct a as [movement slot|k slot| |slot|md|p]; cbn;
    unfold add, remove_kind, clear, clear_slot, clear_mode, clear_priority; rewrite Ed;
    try apply keeps_takes.
  - apply direct_add_takes.
  - destruct slot.
    + destruct (has_generator_kind _ _ _); [apply delete_default_keeps|done].
    + destruct (position _ _); [apply remove_active_index_keeps|done].
  - apply direct_clear_keeps.
  - destruct slot; [apply delete_default_keeps|apply direct_clear_active_keeps].
  - apply clear_where_keeps.
  - apply clear_where_keeps.
Qed.

Lemma shape_drive diff_ms g : shape (fst (drive diff_ms g)) = shape g.
Proof.
  unfold drive. rewrite shape_update.
  destruct (generator_has_flag MovementGeneratorFlags.DEACTIVATED _); rewrite ?shape_reset;
    destruct (generator_has_flag MovementGeneratorFlags.INITIALIZATION_PENDING g);
    rewrite ?shape_initialize; done.
Qed.

Lemma resolve_nothing m :
  delayed_actions m = [] ->
  resolve_delayed_actions m = Some (m <| last_resolved_delayed_actions := [] |>).
Proof. intros E. unfold resolve_delayed_actions. cbn. by rewrite E. Qed.

(** On a master that is not pending, [update] drives the current generator,
    drops it when it is active and has stopped, and resolves nothing. *)
Definition update_result (diff_ms : Z) m : t G :=
  match current_generator m with
  | None => m
  | Some top =>
      let '(top, keep_running) := drive diff_ms top in
      let m := set_current_generator top m in
      (if negb keep_running && negb (no_active m) then remove_active_index 0 true true m else m)
        <| last_resolved_delayed_actions := [] |>
  end.

Lemma current_generator_empty m : is_empty m = bool_decide (current_generator m = None).
Proof.
  unfold is_empty, current_generator.
  by destruct (default_generator m), (active_generators m); rewrite ?bool_decide_false by done.
Qed.

(** Raising a flag around a step that does not read the flags. *)
Lemma set_current_flags g f m :
  set_current_generator g (m <| master_flags := f |>) =
  (set_current_generator g m) <| master_flags := f |>.
Proof. unfold set_current_generator. cbn. by destruct (active_generators m). Qed.

Lemma remove_active_flags i a b f m :
  remove_active_index i a b (m <| master_flags := f |>) =
  (remove_active_index i a b m) <| master_flags := f |>.
Proof.
  unfold remove_active_index, clear_base_unit_state. cbn.
  destruct (active_generators m !! i); [|done]. by destruct (_ =? 0).
Qed.

Lemma master_update_eq diff_ms m :
  master_inv m -> MotionMaster.update diff_ms m = Some (update_result diff_ms m).
Proof.
  intros Hi. pose proof Hi as [_ _ Hf Hq _].
  unfold MotionMaster.update, update_result. rewrite current_generator_empty.
  assert (En : has_flag (master_flags m) (Z.lor MotionMasterFlags.INITIALIZATION_PENDING
                 MotionMasterFlags.INITIALIZING) = false) by (by destruct Hf as [-> | ->]).
  rewrite En. cbn [orb]. set (f := set_flag (master_flags m) MotionMasterFlags.UPDATE).
  assert (Ef : clear_flag f MotionMasterFlags.UPDATE = master_flags m)
    by (subst f; by destruct Hf as [-> | ->]).
  assert (Ec : current_generator (m <| master_flags := f |>) = current_generator m) by done.
  rewrite Ec. destruct (current_generator m) as [top|] eqn:Et; cbn [bool_decide]; [|done].
  rewrite bool_decide_false by done.
  destruct (drive diff_ms top) as [top' keep]. rewrite set_current_flags.
  set (m1 := set_current_generator top' m).
  assert (En1 : no_active (m1 <| master_flags := f |>) = no_active m1) by done. rewrite En1.
  assert (F1 : master_flags m1 = master_flags m /\ delayed_actions m1 = [])
    by (subst m1; unfold set_current_generator; by destruct (active_generators m)).
  destruct F1 as [F1 Q1].
  destruct (negb keep && negb (no_active m1)).
  - rewrite remove_active_flags. set (m2 := remove_active_index 0 true true m1).
    assert (F2 : master_flags m2 = master_flags m1 /\ delayed_actions m2 = delayed_actions m1).
    { subst m2. unfold remove_active_index, clear_base_unit_state.
      destruct (active_generators m1 !! 0%nat); [|done]. by destruct (_ =? 0). }
    destruct F2 as [F2 Q2]. rewrite resolve_nothing by (cbn; congruence).
    f_equal. destruct m2. cbn in *. rewrite Ef, <- F1, <- F2. done.
  - rewrite resolve_nothing by done. f_equal. destruct m1. cbn in *. by rewrite Ef, F1.
Qed.

Lemma update_result_keeps diff_ms m : keeps m (update_result diff_ms m).
Proof.
  unfold update_result. destruct (current_generator m) as [top|] eqn:Et; [|done].
  pose proof (shape_drive diff_ms top) as Es.
  destruct (drive diff_ms top) as [top' keep]. cbn in Es.
  assert (Hl : forall m', keeps m' (m' <| last_resolved_delayed_actions := [] |>))
    by (intros m'; split; [by intros []; split|done]).
  rewrite <- Hl, (set_current_keeps top top' m Et Es) at 1.
  destruct (negb keep && _); [apply remove_active_index_keeps|done].
Qed.

Lemma run_op_takes op m :
  master_inv m -> exists m', run_op op m = Some m' /\ takes (handed op m) m m'.
Proof.
  intros Hi. destruct op as [a|diff_ms| |owner_in_world idle]; cbn [run_op].
  - eexists. split; [done|]. by apply run_action_takes.
  - rewrite master_update_eq by done. eexists. split; [done|]. apply keeps_takes, update_result_keeps.
  - eexists. split; [done|]. apply keeps_takes. unfold propagate_speed_change.
    destruct (current_generator m) as [g|] eqn:E; [|done].
    apply (set_current_keeps g); [done|apply shape_unit_speed_changed].
  - eexists. split; [done|]. unfold handed, stop_on_death.
    destruct (match current_generator m with Some _ => _ | None => false end); cbn.
    { by rewrite andb_false_r. }
    destruct owner_in_world; cbn; [|done].
    pose proof (inv_not_delayed m Hi) as Ed. unfold clear. rewrite Ed.
    assert (Hc : master_inv (direct_clear m)) by (by apply direct_clear_keeps).
    apply (takes_trans [] [idle] m (direct_clear m)); [apply keeps_takes, direct_clear_keeps|].
    apply (run_action_takes (ActionAdd idle MovementSlot.Default)). done.
Qed.

Lemma run_ops_takes ops m :
  master_inv m -> exists m' gs, run_ops ops m = Some (m', gs) /\ master_inv m' /\ takes gs m m'.
Proof.
  revert m. induction ops as [|op ops IH]; intros m Hi; cbn.
  { exists m, []. split; [done|]. split; [done|]. by apply keeps_takes. }
  destruct (run_op_takes op m Hi) as (m1 & -> & T1). cbn.
  destruct (IH m1 (proj1 T1 Hi)) as (m2 & gs & -> & Hi2 & T2). cbn.
  exists m2, (handed op m ++ gs). split; [done|]. split; [done|].
  by apply (takes_trans _ _ m m1).
Qed.

Lemma new_inv g : master_inv (new g).
Proof. split; cbn; try done; [apply SSorted_nil|by left]. Qed.

(** C26: From a new master, any sequence of operations completes ([update]
    included: its loop over delayed actions ends) and leaves the active
    generators in strictly descending priority, so at most three of them, with
    exactly one reference for every unit state they hold and nothing queued. *)
Theorem master_order_and_states (generator : G) ops :
  exists m gs, run_ops ops (new generator) = Some (m, gs) /\
  descending (active_generators m) /\ (length (active_generators m) <= 3)%nat /\
  base_unit_state_refs m ≡ₚ held (active_generators m) /\ delayed_actions m = [].
Proof.
  destruct (run_ops_takes ops _ (new_inv generator)) as (m & gs & E & [Hd Hr Hf Hq Hz] & _).
  exists m, gs. split; [done|]. split; [done|]. split; [by apply descending_le_3|]. done.
Qed.

(** ** The loops that clear *)
Lemma clear_where_spec p n index m :
  (length (active_generators m) <= index + n)%nat ->
  let m' := clear_where n p index m in
  active_generators m' =
    take index (active_generators m) ++
    filter (fun g => p g = false) (drop index (active_generators m)) /\
  finalized m' = finalized m ++
    ((fun g => (finalize false false g, false, false)) <$>
     filter (fun g => p g = true) (drop index (active_generators m))).
Proof.
  revert index m. induction n as [|n IH]; intros index m Hn; cbn.
  { rewrite drop_ge, take_ge by lia. cbn. by rewrite !app_nil_r. }
  destruct (active_generators m !! index) as [g|] eqn:Eg.
  2: { apply lookup_ge_None in Eg. rewrite drop_ge, take_ge by lia. cbn.
       by rewrite !app_nil_r. }
  pose proof (drop_S _ _ _ Eg) as Ed. rewrite Ed.
  destruct (p g) eqn:Ep.
  - rewrite !filter_cons, Ep. rewrite decide_False, decide_True by done.
    pose proof (lookup_lt_Some _ _ _ Eg).
    destruct (IH index (remove_active_index index false false m)) as [Ea Ef].
    { rewrite active_of_remove, length_delete by eauto. lia. }
    cbn in Ea, Ef. rewrite Ea, Ef. rewrite (remove_active_index_eq _ _ _ _ g Eg). cbn.
    rewrite delete_take_drop, take_app_le, drop_app_ge by (rewrite length_take; lia).
    rewrite length_take, take_take, Nat.min_id.
    replace (index - min index (length (active_generators m)))%nat with 0%nat by lia.
    rewrite drop_0. split; [done|]. by rewrite <- app_assoc.
  - rewrite !filter_cons, Ep. rewrite decide_True, decide_False by done.
    destruct (IH (S index) m) as [Ea Ef]; [lia|]. cbn in Ea, Ef. rewrite Ea, Ef.
    split; [|done]. rewrite (take_S_r _ _ g) by done. by rewrite <- app_assoc.
Qed.

(** Clearing a mode or a priority, a loop that removes by a moving index,
    keeps exactly the other active generators, in order, and finalizes each
    generator it removes, in order, as neither active nor informing. *)
Theorem clear_is_filter m md p :
  delayed m = false ->
  let drop_all (q : G -> bool) m' :=
    active_generators m' = filter (fun g => q g = false) (active_generators m) /\
    finalized m' = finalized m ++ ((fun g => (finalize false false g, false, false)) <$>
                                   filter (fun g => q g = true) (active_generators m)) in
  drop_all (fun g => bool_decide (mode (state g) = md)) (clear_mode md m) /\
  drop_all (fun g => bool_decide (priority (state g) = p)) (clear_priority p m).
Proof.
  intros Ed drop_all. unfold clear_mode, clear_priority. rewrite Ed.
  split; apply (clear_where_spec _ (length (active_generators m)) 0 m); lia.
Qed.

(** ** A pending master *)
Definition queued (op : MasterOp) : list (MasterAction G) :=
  match op with
  | OpAction a => [a]
  | OpStopOnDeath true idle => [ActionClear; ActionAdd idle MovementSlot.Default]
  | _ => []
  end.

Definition stuck (queue : list (MasterAction G)) m : Prop :=
  default_generator m = None /\ active_generators m = [] /\ finalized m = [] /\
  master_flags m = MotionMasterFlags.INITIALIZATION_PENDING /\
  action <$> delayed_actions m = queue.

Lemma push_stuck queue ty a m : stuck queue m -> stuck (queue ++ [a]) (push_delayed ty a m).
Proof. intros (? & ? & ? & ? & <-). repeat split; try done. cbn. by rewrite fmap_app. Qed.

Lemma run_action_stuck queue a m : stuck queue m -> stuck (queue ++ [a]) (run_action a m).
Proof.
  intros Hs. pose proof Hs as (_ & _ & _ & Ef & _).
  destruct a; cbn; unfold add, remove_kind, clear, clear_slot, clear_mode, clear_priority, delayed;
    rewrite Ef; by apply push_stuck.
Qed.

Lemma run_op_stuck queue op m :
  stuck queue m -> exists m', run_op op m = Some m' /\ stuck (queue ++ queued op) m'.
Proof.
  intros Hs. pose proof Hs as (E1 & E2 & E3 & E4 & E5).
  destruct op as [a|diff_ms| |[] idle]; cbn [run_op queued]; rewrite ?app_nil_r.
  - eexists. split; [done|]. by apply run_action_stuck.
  - unfold MotionMaster.update. rewrite E4. eauto.
  - unfold propagate_speed_change, current_generator. rewrite E1, E2. eauto.
  - eexists. split; [done|]. unfold stop_on_death, current_generator. rewrite E1, E2. cbn.
    apply (run_action_stuck _ ActionClear) in Hs.
    apply (run_action_stuck _ (ActionAdd idle MovementSlot.Default)) in Hs.
    by rewrite <- app_assoc in Hs.
  - eexists. split; [done|]. unfold stop_on_death, current_generator. by rewrite E1, E2.
Qed.

(** A master made by [new_pending] stays pending: whatever operations
    follow, it has no generator and runs none, and its queue holds every
    action requested since, in order, none of them resolved. *)
Theorem pending_master_never_starts ops :
  exists m gs, run_ops ops new_pending = Some (m, gs) /\ is_empty m = true /\
  delayed m = true /\ action <$> delayed_actions m = concat (queued <$> ops).
Proof.
  assert (Hg : forall queue m, stuck queue m -> exists m' gs,
            run_ops ops m = Some (m', gs) /\ stuck (queue ++ concat (queued <$> ops)) m').
  { induction ops as [|op ops IH]; intros queue m Hs.
    { exists m, []. split; [done|]. cbn. by rewrite app_nil_r. }
    destruct (run_op_stuck queue op m Hs) as (m1 & E1 & Hs1).
    destruct (IH _ _ Hs1) as (m2 & gs & E2 & Hs2).
    exists m2, (handed op m ++ gs). split; [cbn; rewrite E1; cbn; by rewrite E2|].
    cbn. by rewrite app_assoc. }
  destruct (Hg [] new_pending) as (m & gs & E & E1 & E2 & E3 & E4 & E5); [by repeat split|].
  exists m, gs. split; [done|]. unfold is_empty, delayed. by rewrite E1, E2, E4, E5.
Qed.
End Invariant.

(** * Generators that record their calls *)
Inductive GeneratorCall : Type :=
| Initialized | WasReset | Updated (diff_ms : Z) | Deactivated | Finalized (active inform : bool)
| SpeedChanged | Paused (timer_ms : Z) | Resumed (timer_ms : Z).

Definition is_finalize (c : GeneratorCall) : bool :=
  match c with Finalized _ _ => true | _ => false end.

(** A generator with a name and the calls it has had. *)
Record Traced (G : Type) : Type := mkTraced { tag : Z; inner : G; calls : list GeneratorCall }.
Arguments mkTraced {G} _ _ _.
Arguments tag {G} _.
Arguments inner {G} _.
Arguments calls {G} _.

Section Tracing.
Context `{GeneratorLaws G}.

Definition traced (c : GeneratorCall) (f : G -> G) (g : Traced G) : Traced G :=
  mkTraced (tag g) (f (inner g)) (calls g ++ [c]).

#[export] Instance traced_state : HasState (Traced G) :=
  {| state g := state (inner g);
     set_state s g := mkTraced (tag g) (set_state s (inner g)) (calls g) |}.

#[export] Instance traced_generator : MovementGenerator (Traced G) :=
  {| kind g := kind (inner g);
     initialize := traced Initialized initialize;
     reset := traced WasReset reset;
     MotionGenerators.update diff_ms g :=
       (traced (Updated diff_ms) (fun g => fst (MotionGenerators.update diff_ms g)) g,
        snd (MotionGenerators.update diff_ms (inner g)));
     deactivate := traced Deactivated deactivate;
     finalize active inform := traced (Finalized active inform) (finalize active inform);
     unit_speed_changed := traced SpeedChanged unit_speed_changed;
     pause timer_ms := traced (Paused timer_ms) (pause timer_ms);
     resume timer_ms := traced (Resumed timer_ms) (resume timer_ms);
     reset_position g := reset_position (inner g) |}.

#[export] Instance traced_laws : GeneratorLaws (Traced G).
Proof.
  split; intros; unfold shape; cbn.
  - apply (shape_initialize (inner g)).
  - apply (shape_reset (inner g)).
  - apply (shape_update diff_ms (inner g)).
  - apply (shape_deactivate (inner g)).
  - apply (shape_finalize active inform (inner g)).
  - apply (shape_unit_speed_changed (inner g)).
  - apply (shape_pause timer_ms (inner g)).
  - apply (shape_resume timer_ms (inner g)).
  - apply (finalize_finalizes active inform (inner g)).
Qed.

Implicit Types (g : Traced G) (m : t (Traced G)).

Definition not_finalized g : Prop := Forall (fun c => is_finalize c = false) (calls g).

(** The last call is the only [finalize], with the recorded arguments. *)
Definition finalized_once (entry : Traced G * bool * bool) : Prop :=
  exists before, calls entry.1.1 = before ++ [Finalized entry.1.2 entry.2]
    /\ Forall (fun c => is_finalize c = false) before.

Definition generators m : list (Traced G) :=
  option_list (default_generator m) ++ active_generators m.

(** The names of the generators the master holds or has finalized. *)
Definition names m : list Z := tag <$> generators m ++ ((fun entry => entry.1.1) <$> finalized m).

Definition books_ok m : Prop :=
  Forall not_finalized (generators m) /\ Forall finalized_once (finalized m).

(** A step that takes in the generators [given]. *)
Definition books (given : list (Traced G)) m m' : Prop :=
  (books_ok m -> Forall not_finalized given -> books_ok m')
  /\ names m' ≡ₚ (tag <$> given) ++ names m.

Lemma books_refl m : books [] m m.
Proof. done. Qed.

Lemma books_trans l1 l2 m1 m2 m3 : books l1 m1 m2 -> books l2 m2 m3 -> books (l1 ++ l2) m1 m3.
Proof.
  intros [K1 E1] [K2 E2]. split.
  - intros Hm [Hl1 Hl2]%Forall_app. auto.
  - rewrite E2, E1. fmap_push. solve_Permutation.
Qed.

Lemma books_then m1 m2 m3 l : books [] m1 m2 -> books l m2 m3 -> books l m1 m3.
Proof. apply (books_trans []). Qed.

Lemma not_finalized_traced c f g :
  is_finalize c = false -> not_finalized g -> not_finalized (traced c f g).
Proof. intros Hc Hg. apply Forall_app. by split; [|constructor]. Qed.

Lemma remove_active_index_books index a i m : books [] m (remove_active_index index a i m).
Proof.
  destruct (active_generators m !! index) as [g|] eqn:E.
  2: { unfold remove_active_index. by rewrite E. }
  rewrite (remove_active_index_eq _ _ _ _ g E). pose proof (delete_Permutation _ _ _ E) as Ep. split.
  - intros [Hl Hf] _. unfold generators in Hl. rewrite Ep in Hl.
    apply Forall_app in Hl as [Hd [Hg Hl]%Forall_cons]. split; cbn -[finalize].
    + by apply Forall_app.
    + apply Forall_app; split; [done|]. constructor; [|done]. by exists (calls g).
  - unfold names, generators. cbn -[fmap]. rewrite Ep at 2. fmap_push. solve_Permutation.
Qed.

Lemma delete_default_books a i m : books [] m (delete_default a i m).
Proof.
  unfold delete_default. destruct (default_generator m) as [g|] eqn:E; [|done]. split.
  - intros [Hl Hf] _. unfold generators in Hl. rewrite E in Hl.
    apply Forall_app in Hl as [[Hg _]%Forall_cons Hl]. split; [exact Hl|]. cbn -[finalize].
    apply Forall_app; split; [done|]. constructor; [|done]. by exists (calls g).
  - unfold names, generators. cbn -[fmap]. rewrite E. fmap_push. solve_Permutation.
Qed.

Lemma set_current_books g g' m :
  current_generator m = Some g -> tag g' = tag g -> (not_finalized g -> not_finalized g') ->
  books [] m (set_current_generator g' m).
Proof.
  unfold current_generator, set_current_generator. intros E Et Hg.
  destruct (active_generators m) as [|top rest] eqn:Ea; [|injection E as ->]; split;
    unfold books_ok, names, generators; cbn -[fmap]; rewrite ?E, ?Ea; fmap_push; rewrite ?Et; try done.
  - intros [Hl Hf] _. split; [|done]. inversion Hl; subst. by constructor; [auto|].
  - intros [[Hd [Hl Hr]%Forall_cons]%Forall_app Hf] _. split; [|done]. apply Forall_app.
    split; [done|]. constructor; [auto|done].
Qed.

Lemma remove_all_active_books fuel m : books [] m (remove_all_active fuel m).
Proof.
  revert m. induction fuel as [|fuel IH]; intros m; cbn; [apply books_refl|].
  destruct (no_active m); [apply books_refl|].
  eapply books_then; [apply remove_active_index_books|apply IH].
Qed.

Lemma direct_clear_active_books m : books [] m (direct_clear_active m).
Proof.
  unfold direct_clear_active. destruct (negb (no_active m)); [|apply remove_all_active_books].
  eapply books_then; [apply remove_active_index_books|apply remove_all_active_books].
Qed.

Lemma clear_where_books fuel p index m : books [] m (clear_where fuel p index m).
Proof.
  revert index m. induction fuel as [|fuel IH]; intros index m; cbn; [apply books_refl|].
  destruct (active_generators m !! index) as [g|]; [|apply books_refl]. destruct (p g); [|apply IH].
  eapply books_then; [apply remove_active_index_books|apply IH].
Qed.

Lemma direct_clear_books m : books [] m (direct_clear m).
Proof.
  unfold direct_clear. eapply books_then; [apply (delete_default_books (no_active m) false)|].
  eapply books_then; [apply direct_clear_active_books|by split].
Qed.

Lemma make_room_books p m : books [] m (make_room p m).
Proof.
  assert (Hd : forall g, current_generator m = Some g ->
            books [] m (set_current_generator (deactivate g) m)).
  { intros g E. apply (set_current_books g); [done..|]. by apply not_finalized_traced. }
  revert Hd. unfold make_room, current_generator, set_current_generator.
  destruct (active_generators m) as [|top rest].
  - destruct (default_generator m) as [g|]; [|done]. intros Hd. by apply Hd.
  - intros Hd. destruct (negb _).
    + case_bool_decide; [apply remove_active_index_books|by apply Hd].
    + destruct (position _ _); [apply remove_active_index_books|apply books_refl].
Qed.

Lemma direct_add_books movement slot m : books [movement] m (direct_add movement slot m).
Proof.
  destruct slot; cbn -[delete_default make_room].
  - eapply books_then; [apply (delete_default_books (no_active m) false)|].
    set (m1 := delete_default _ _ m).
    assert (En : default_generator m1 = None)
      by (subst m1; unfold delete_default; by destruct (default_generator m) eqn:?).
    assert (Eg : generators m1 = active_generators m1) by (unfold generators; by rewrite En).
    destruct (generator_has_flag _ _); split; unfold books_ok, names; rewrite Eg;
      cbn -[fmap]; fmap_push; try done;
      intros [Hl Hf] [Hm _]%Forall_cons; (split; [|done]); by constructor.
  - eapply books_then; [apply (make_room_books (priority (state movement)))|].
    set (m1 := make_room _ m). unfold add_base_unit_state.
    destruct (negb _); (split;
      [intros [[Hd Hl]%Forall_app Hf] [Hm _]%Forall_cons; split; [|done]; apply Forall_app;
       split; [done|]; cbn -[insert_at]; rewrite insert_at_perm; by constructor
      |unfold names, generators; cbn -[fmap insert_at]; rewrite insert_at_perm; fmap_push; solve_Permutation]).
Qed.

Lemma run_action_books a m :
  delayed m = false -> books (handed (OpAction a) m) m (run_action a m).
Proof.
  intros Ed. destruct a as [movement slot|k slot| |slot|md|p]; cbn -[has_generator_kind delete_default];
    unfold add, remove_kind, clear, clear_slot, clear_mode, clear_priority; rewrite Ed.
  - apply direct_add_books.
  - destruct slot.
    + destruct (has_generator_kind _ _ _); [apply delete_default_books|apply books_refl].
    + destruct (position _ _); [apply remove_active_index_books|apply books_refl].
  - apply direct_clear_books.
  - destruct slot; [apply delete_default_books|apply direct_clear_active_books].
  - apply clear_where_books.
  - apply clear_where_books.
Qed.

Lemma drive_books diff_ms g :
  tag (fst (drive diff_ms g)) = tag g /\ (not_finalized g -> not_finalized (fst (drive diff_ms g))).
Proof.
  unfold drive. set (g1 := if generator_has_flag MovementGeneratorFlags.INITIALIZATION_PENDING g then _ else _).
  set (g2 := if generator_has_flag MovementGeneratorFlags.DEACTIVATED g1 then _ else _). cbn.
  assert (Hg1 : tag g1 = tag g /\ (not_finalized g -> not_finalized g1))
    by (subst g1; destruct (generator_has_flag _ g); [split; [done|by apply not_finalized_traced]|done]).
  assert (Hg2 : tag g2 = tag g1 /\ (not_finalized g1 -> not_finalized g2))
    by (subst g2; destruct (generator_has_flag _ g1); [split; [done|by apply not_finalized_traced]|done]).
  destruct Hg1 as [<- Hg1], Hg2 as [<- Hg2]. split; [done|]. intros Hg.
  apply not_finalized_traced; [done|auto].
Qed.

Lemma update_result_books diff_ms m : books [] m (update_result diff_ms m).
Proof.
  unfold update_result. destruct (current_generator m) as [top|] eqn:Et; [|apply books_refl].
  pose proof (drive_books diff_ms top) as [Eg Hg].
  destruct (drive diff_ms top) as [top' keep]. cbn [fst] in Eg, Hg.
  eapply books_then; [by apply (set_current_books top top')|].
  destruct (negb keep && _); [|by split].
  apply (books_then _ _ _ _ (remove_active_index_books 0 true true _)). by split.
Qed.

Lemma run_op_books op m :
  master_inv m -> exists m', run_op op m = Some m' /\ books (handed op m) m m'.
Proof.
  intros Hi. pose proof (inv_not_delayed m Hi) as Ed.
  destruct op as [a|diff_ms| |owner_in_world idle]; cbn [run_op].
  - eexists. split; [done|]. by apply run_action_books.
  - rewrite master_update_eq by done. eexists. split; [done|]. apply update_result_books.
  - eexists. split; [done|]. unfold propagate_speed_change.
    destruct (current_generator m) as [g|] eqn:E; [|apply books_refl].
    apply (set_current_books g); [done..|]. by apply not_finalized_traced.
  - eexists. split; [done|]. unfold handed, stop_on_death.
    destruct (match current_generator m with Some _ => _ | None => false end); cbn.
    { rewrite andb_false_r. apply books_refl. }
    destruct owner_in_world; cbn; [|apply books_refl]. unfold clear. rewrite Ed.
    eapply books_then; [apply direct_clear_books|].
    apply (run_action_books (ActionAdd idle MovementSlot.Default)). apply inv_not_delayed.
    by apply direct_clear_keeps.
Qed.

Lemma run_ops_books ops m :
  master_inv m -> exists m' gs, run_ops ops m = Some (m', gs) /\ books gs m m'.
Proof.
  revert m. induction ops as [|op ops IH]; intros m Hi; cbn.
  { exists m, []. split; [done|apply books_refl]. }
  destruct (run_op_books op m Hi) as (m1 & E & T1), (run_op_takes op m Hi) as (m1' & E' & [K _]).
  rewrite E in E'. injection E' as <-. rewrite E. cbn.
  destruct (IH m1 (K Hi)) as (m2 & gs & -> & T2). cbn.
  exists m2, (handed op m ++ gs). split; [done|]. by apply (books_trans _ _ m m1).
Qed.

(** The generators a run is given have not been finalized before. *)
Definition hands_live (op : MasterOp) : Prop :=
  match op with
  | OpAction (ActionAdd movement _) => not_finalized movement
  | OpStopOnDeath _ idle => not_finalized idle
  | _ => True
  end.

Lemma handed_live ops m m' gs :
  Forall hands_live ops -> run_ops ops m = Some (m', gs) -> Forall not_finalized gs.
Proof.
  intros Hl. revert m gs. induction Hl as [|op ops Hop _ IH]; intros m gs; cbn [run_ops].
  { by intros [= _ <-]. }
  intros (m1 & _ & ([m2 gs'] & E & [= <- <-])%bind_Some)%bind_Some.
  apply Forall_app. split; [|by eapply IH].
  destruct op as [[]| | |]; cbn in Hop |- *; repeat constructor; try done.
  by destruct (_ && _); repeat constructor.
Qed.

(** C30: No generator is lost, duplicated or finalized twice: the names of those
    given to a master, one for one, are the names of the ones it holds and of the
    ones it has finalized and dropped; each of those has had exactly one call of
    [finalize], its last call, with the recorded arguments, and carries the
    finalized mark; and no generator still held has had one. *)
Theorem generators_accounted_for generator ops :
  not_finalized generator -> Forall hands_live ops ->
  exists m gs, run_ops ops (new generator) = Some (m, gs)
  /\ tag <$> generators m ++ ((fun entry => entry.1.1) <$> finalized m) ≡ₚ tag <$> generator :: gs
  /\ Forall not_finalized (generators m)
  /\ Forall finalized_once (finalized m) /\ Forall is_finalized (finalized m).
Proof.
  intros Hg Hops. destruct (run_ops_books ops _ (new_inv generator)) as (m & gs & E & [K En]).
  destruct (run_ops_takes ops _ (new_inv generator)) as (m' & gs' & E' & Hi & _).
  rewrite E in E'. injection E' as <- <-. exists m, gs. split; [done|].
  destruct K as [Hl Hf]; [by split; repeat constructor|by eapply handed_live|].
  split; [|by split_and!; [..|apply Hi]].
  unfold names, generators in En. unfold generators. rewrite En. cbn -[fmap]. fmap_push. solve_Permutation.
Qed.
End Tracing.

(** * Runs of a master with boxed generators *)
Definition demo_master_ops : list (@MasterOp DynGenerator) :=
  [OpAction (ActionAdd (Box (Rotate.new 7 1000 Rotate.Left)) MovementSlot.Active);
   OpAction (ActionAdd (Box (Distract.new 500 f32_one)) MovementSlot.Active);
   OpUpdate 501;
   OpAction (ActionAdd (Box (AssistanceDistract.new 300 f32_one)) MovementSlot.Active)].

Definition demo_master : t DynGenerator :=
  default (new (Box Idle.new)) (fst <$> run_ops demo_master_ops (new (Box Idle.new))).

(** What [demo_master] holds and has finalized, by kind. *)
Lemma demo_master_kinds :
  kind <$> active_generators demo_master = [MovementGeneratorType.AssistanceDistract] /\
  ((fun e => kind e.1.1) <$> finalized demo_master) =
    [MovementGeneratorType.Distract; MovementGeneratorType.Rotate].
Proof. split; vm_compute; reflexivity. Qed.

Lemma master_order_and_states_witness :
  exists m gs, run_ops demo_master_ops (new (Box Idle.new)) = Some (m, gs) /\
  descending (active_generators m) /\
  (kind <$> active_generators m) = [MovementGeneratorType.AssistanceDistract].
Proof.
  destruct (master_order_and_states (Box Idle.new) demo_master_ops) as (m & gs & E & Hd & _).
  exists m, gs. split; [exact E|]. split; [exact Hd|].
  assert (K : demo_master = m) by (unfold demo_master; by rewrite E).
  rewrite <- K. exact (proj1 demo_master_kinds).
Defined.

(** The same run with generators that record their calls: the one in the middle
    is driven, stops and is finalized as active and informing, the first is
    suspended and later displaced. *)
Definition fresh (name : Z) (g : DynGenerator) : Traced DynGenerator := mkTraced name g [].

Definition traced_ops : list (@MasterOp (Traced DynGenerator)) :=
  [OpAction (ActionAdd (fresh 1 (Box (Rotate.new 7 1000 Rotate.Left))) MovementSlot.Active);
   OpAction (ActionAdd (fresh 2 (Box (Distract.new 500 f32_one))) MovementSlot.Active);
   OpUpdate 501;
   OpAction (ActionAdd (fresh 3 (Box (AssistanceDistract.new 300 f32_one))) MovementSlot.Active)].

Lemma generators_accounted_for_witness :
  exists m gs, run_ops traced_ops (new (fresh 0 (Box Idle.new))) = Some (m, gs)
  /\ tag <$> generators m ++ ((fun entry => entry.1.1) <$> finalized m) ≡ₚ ([0; 1; 2; 3] : list Z)
  /\ Forall finalized_once (finalized m).
Proof.
  destruct (generators_accounted_for (fresh 0 (Box Idle.new)) traced_ops) as (m & gs & E & En & _ & Hf & _);
    [constructor|repeat constructor|].
  exists m, gs. split; [exact E|]. split; [|exact Hf].
  assert (Egs : (tag <$> gs) = ([1; 2; 3] : list Z)).
  { assert (K : option_map (fun r => map tag (snd r)) (run_ops traced_ops (new (fresh 0 (Box Idle.new))))
                = Some [1; 2; 3]) by (vm_compute; reflexivity).
    rewrite E in K. by injection K. }
  rewrite En. cbn [fmap list_fmap] in Egs |- *. by rewrite Egs.
Defined.

Lemma clear_is_filter_witness :
  kind <$> active_generators demo_master = [MovementGeneratorType.AssistanceDistract] /\
  active_generators (clear_mode MovementGeneratorMode.Default demo_master) =
    filter (fun g => bool_decide (mode (state g) = MovementGeneratorMode.Default) = false)
      (active_generators demo_master).
Proof.
  split; [exact (proj1 demo_master_kinds)|].
  exact (proj1 (proj1 (clear_is_filter demo_master MovementGeneratorMode.Default
                         MovementGeneratorPriority.Normal eq_refl))).
Defined.

Lemma pending_master_never_starts_witness :
  exists m gs, run_ops demo_master_ops new_pending = Some (m, gs) /\ is_empty m = true /\
  length (delayed_actions m) = 3%nat.
Proof.
  destruct (pending_master_never_starts demo_master_ops) as (m & gs & E & He & _ & Ha).
  exists m, gs. split; [exact E|]. split; [exact He|].
  apply (f_equal length) in Ha. rewrite length_fmap in Ha. rewrite Ha. reflexivity.
Defined.
