(* ===== verification/MotionRefs.v ===== *)
(** wow-entities/src/unit_subsystems: the generators of the represented motion
    master (mod.rs, movement/generators.rs, movement/actions.rs).  They are
    plain records ([MovementGeneratorRef]) whose life-cycle calls dispatch on
    the kind, instead of boxed objects.

    The crate has its own copies of the mode, priority, slot and direction
    enumerations, with the constructors of those in MotionGenerators.v, which
    are used here. *)
From S2P Require Import Prelude Float32 Guid MotionGenerators.

(** * generators.rs: kinds *)
Module MovementGeneratorKind.
Inductive t : Type :=
| Idle | Random | Waypoint | Confused | Chase | Home | Flight | Point | Fleeing | Distract
| Assistance | AssistanceDistract | TimedFleeing | Follow | Rotate | Effect | SplineChain
| Formation | Custom (value : Z).

#[global] Instance eq_dec : EqDecision t.
Proof. solve_decision. Defined.

Definition trinity_id (k : t) : Z :=
  match k with
  | Idle => 0 | Random => 1 | Waypoint => 2 | Confused => 4 | Chase => 5 | Home => 6
  | Flight => 7 | Point => 8 | Fleeing => 9 | Distract => 10 | Assistance => 11
  | AssistanceDistract => 12 | TimedFleeing => 13 | Follow => 14 | Rotate => 15
  | Effect => 16 | SplineChain => 17 | Formation => 18 | Custom value => u8 value
  end.

Definition from_trinity_id (value : Z) : option t :=
  match value with
  | 0 => Some Idle | 1 => Some Random | 2 => Some Waypoint | 4 => Some Confused
  | 5 => Some Chase | 6 => Some Home | 7 => Some Flight | 8 => Some Point
  | 9 => Some Fleeing | 10 => Some Distract | 11 => Some Assistance
  | 12 => Some AssistanceDistract | 13 => Some TimedFleeing | 14 => Some Follow
  | 15 => Some Rotate | 16 => Some Effect | 17 => Some SplineChain | 18 => Some Formation
  | _ => None
  end.
End MovementGeneratorKind.

(** * mod.rs: flags and constants *)
Definition MOVEMENTGENERATOR_FLAG_NONE : Z := 0x000.
Definition MOVEMENTGENERATOR_FLAG_INITIALIZATION_PENDING : Z := 0x001.
Definition MOVEMENTGENERATOR_FLAG_INITIALIZED : Z := 0x002.
Definition MOVEMENTGENERATOR_FLAG_SPEED_UPDATE_PENDING : Z := 0x004.
Definition MOVEMENTGENERATOR_FLAG_INTERRUPTED : Z := 0x008.
Definition MOVEMENTGENERATOR_FLAG_PAUSED : Z := 0x010.
Definition MOVEMENTGENERATOR_FLAG_TIMED_PAUSED : Z := 0x020.
Definition MOVEMENTGENERATOR_FLAG_DEACTIVATED : Z := 0x040.
Definition MOVEMENTGENERATOR_FLAG_INFORM_ENABLED : Z := 0x080.
Definition MOVEMENTGENERATOR_FLAG_FINALIZED : Z := 0x100.
Definition MOVEMENTGENERATOR_FLAG_PERSIST_ON_DEATH : Z := 0x200.
Definition MOVEMENTGENERATOR_FLAG_TRANSITORY : Z :=
  Z.lor MOVEMENTGENERATOR_FLAG_SPEED_UPDATE_PENDING MOVEMENTGENERATOR_FLAG_INTERRUPTED.

Definition MOTIONMASTER_FLAG_NONE : Z := 0x0.
Definition MOTIONMASTER_FLAG_UPDATE : Z := 0x1.
Definition MOTIONMASTER_FLAG_STATIC_INITIALIZATION_PENDING : Z := 0x2.
Definition MOTIONMASTER_FLAG_INITIALIZATION_PENDING : Z := 0x4.
Definition MOTIONMASTER_FLAG_INITIALIZING : Z := 0x8.
Definition MOTIONMASTER_FLAG_DELAYED : Z :=
  Z.lor MOTIONMASTER_FLAG_UPDATE MOTIONMASTER_FLAG_INITIALIZATION_PENDING.

Definition EVENT_CHARGE : Z := 1003.
Definition EVENT_JUMP : Z := 1004.
Definition EVENT_CHARGE_PREPATH : Z := 1005.
Definition EVENT_ASSIST_MOVE : Z := 1009.
Definition CREATURE_FAMILY_ASSISTANCE_DELAY_MS_LIKE_CPP : Z := 1500.

(** [UnitState] (wow-constants/src/unit.rs): the bits the generators hold. *)
Module UnitState.
Definition ROAMING : Z := 0x10.
Definition CHASE : Z := 0x20.
Definition DISTRACTED : Z := 0x1000.
Definition CHARGING : Z := 0x20000.
Definition JUMPING : Z := 0x40000.
Definition ROTATING : Z := 0x200000.
End UnitState.

(** * generators.rs: the represented generator *)
Record MovementGeneratorRef : Type := mkRef
  { kind : MovementGeneratorKind.t; mode : MovementGeneratorMode.t;
    priority : MovementGeneratorPriority.t; slot : MovementSlot.t; flags : Z;
    base_unit_state : Z; target_guid : option ObjectGuid; movement_id : Z;
    duration_ms : option Z; max_duration_ms : option Z; elapsed_ms : Z;
    arrival_spell_id : Z; arrival_spell_target_guid : ObjectGuid;
    rotate_direction : option Rotate.RotateDirection }.

#[export] Instance eta_ref : Eta MovementGeneratorRef := fun r =>
  mkRef (kind r) (mode r) (priority r) (slot r) (flags r) (base_unit_state r) (target_guid r)
    (movement_id r) (duration_ms r) (max_duration_ms r) (elapsed_ms r) (arrival_spell_id r)
    (arrival_spell_target_guid r) (rotate_direction r).

Definition ref_new (k : MovementGeneratorKind.t) (s : MovementSlot.t) : MovementGeneratorRef :=
  mkRef k MovementGeneratorMode.Default MovementGeneratorPriority.None s
    MOVEMENTGENERATOR_FLAG_NONE 0 None 0 None None 0 0 EMPTY None.

Definition with_mode (x : MovementGeneratorMode.t) (r : MovementGeneratorRef) := r <| mode := x |>.
Definition with_priority (x : MovementGeneratorPriority.t) (r : MovementGeneratorRef) :=
  r <| priority := x |>.
Definition with_flags (x : Z) (r : MovementGeneratorRef) := r <| flags := x |>.
Definition with_base_unit_state (x : Z) (r : MovementGeneratorRef) := r <| base_unit_state := x |>.
Definition with_target_guid (x : ObjectGuid) (r : MovementGeneratorRef) :=
  r <| target_guid := Some x |>.
Definition with_movement_id (x : Z) (r : MovementGeneratorRef) := r <| movement_id := x |>.
Definition with_duration_ms (x : Z) (r : MovementGeneratorRef) := r <| duration_ms := Some x |>.
Definition with_max_duration_ms (x : Z) (r : MovementGeneratorRef) :=
  r <| max_duration_ms := Some x |>.
Definition with_rotate_direction (x : Rotate.RotateDirection) (r : MovementGeneratorRef) :=
  r <| rotate_direction := Some x |>.
Definition with_arrival_spell (spell : Z) (target : ObjectGuid) (r : MovementGeneratorRef) :=
  r <| arrival_spell_id := spell |> <| arrival_spell_target_guid := target |>.

Definition ref_has_flag (flag : Z) (r : MovementGeneratorRef) : bool := has_flag (flags r) flag.

(** [self.flags |= x] and [self.flags &= !x]. *)
Definition raise (x : Z) (r : MovementGeneratorRef) : MovementGeneratorRef :=
  r <| flags := set_flag (flags r) x |>.
Definition lower (x : Z) (r : MovementGeneratorRef) : MovementGeneratorRef :=
  r <| flags := clear_flag (flags r) x |>.

(** * actions.rs: what the life-cycle calls report *)
Record GenericMovementInform : Type := mkGenericInform
  { generic_kind : MovementGeneratorKind.t; generic_movement_id : Z;
    generic_arrival_spell_id : option Z;
    generic_arrival_spell_target_guid : option ObjectGuid }.

Inductive PointMovementAction : Type :=
| Continue | MarkRoamingMove | LaunchSpline | RelaunchSpline | StopMoving
| StopMovingAndContinue | ClearRoamingMove | Finished.

#[export] Instance point_action_eq_dec : EqDecision PointMovementAction.
Proof. solve_decision. Defined.

Record PointMovementInform : Type := mkPointInform
  { point_kind : MovementGeneratorKind.t; point_movement_id : Z }.

Record PointMovementFinalize : Type := mkPointFinalize
  { clear_roaming_move : bool; point_inform : option PointMovementInform }.

Record AssistanceMovementFinalize : Type := mkAssistanceFinalize
  { assistance_clear_roaming_move : bool; set_no_call_assistance : option bool;
    call_assistance : bool; seek_assistance_distract_ms : option Z }.

Record RotateMovementUpdate : Type := mkRotateUpdate
  { keep_running : bool; facing_angle : option f32 }.

Record RotateMovementFinalize : Type := mkRotateFinalize
  { rotate_inform : option PointMovementInform }.

Record DistractMovementAction : Type := mkDistractAction
  { stand_up : bool; launch_facing_spline : bool }.

Record DistractMovementFinalize : Type := mkDistractFinalize { set_home_orientation : bool }.
Record AssistanceDistractFinalize : Type := mkAssistanceDistract { set_react_aggressive : bool }.

(** [IdleMovementAction] has the one value [StopMoving]. *)
Inductive IdleMovementAction : Type := IdleStopMoving.

(** delayed_actions.rs *)
Record MotionMasterUpdateContext : Type := mkContext
  { diff_ms : Z; can_move : bool; owner_exists : bool; owner_is_standing : bool;
    spline_finalized : bool; spline_cyclic : bool; current_orientation : f32 }.

Definition context_default : MotionMasterUpdateContext :=
  mkContext 0 true true true false false f32_zero.

(** * generators.rs: life cycles *)
Section LifeCycle.
Implicit Types r : MovementGeneratorRef.

Definition initialize_generic_like_cpp r : MovementGeneratorRef :=
  if ref_has_flag MOVEMENTGENERATOR_FLAG_DEACTIVATED r
     && negb (ref_has_flag MOVEMENTGENERATOR_FLAG_INITIALIZATION_PENDING r)
  then raise MOVEMENTGENERATOR_FLAG_FINALIZED (lower MOVEMENTGENERATOR_FLAG_DEACTIVATED r)
  else
    (raise MOVEMENTGENERATOR_FLAG_INITIALIZED
       (lower (Z.lor MOVEMENTGENERATOR_FLAG_INITIALIZATION_PENDING
                 MOVEMENTGENERATOR_FLAG_DEACTIVATED) r)) <| elapsed_ms := 0 |>.

Definition update_generic_like_cpp (diff : Z) (cyclic finalized : bool) r :
    MovementGeneratorRef * bool :=
  if ref_has_flag MOVEMENTGENERATOR_FLAG_FINALIZED r then (r, false)
  else
    let r := if negb cyclic then r <| elapsed_ms := sat_add u32_max (elapsed_ms r) diff |> else r in
    if match duration_ms r with Some d => d <=? elapsed_ms r | None => false end || finalized
    then (raise MOVEMENTGENERATOR_FLAG_INFORM_ENABLED r, false)
    else (r, true).

Definition deactivate_generic_like_cpp r : MovementGeneratorRef :=
  raise MOVEMENTGENERATOR_FLAG_DEACTIVATED r.

Definition finalize_generic_like_cpp (movement_inform : bool) r :
    MovementGeneratorRef * option GenericMovementInform :=
  let r := raise MOVEMENTGENERATOR_FLAG_FINALIZED r in
  if movement_inform && ref_has_flag MOVEMENTGENERATOR_FLAG_INFORM_ENABLED r then
    let spell {A} (x : A) := if negb (arrival_spell_id r =? 0) then Some x else None in
    (r, Some (mkGenericInform (kind r) (movement_id r) (spell (arrival_spell_id r))
                (spell (arrival_spell_target_guid r))))
  else (r, None).

Definition initialize_point_like_cpp (can_move : bool) r :
    MovementGeneratorRef * PointMovementAction :=
  let r := raise MOVEMENTGENERATOR_FLAG_INITIALIZED
             (lower (Z.lor (Z.lor MOVEMENTGENERATOR_FLAG_INITIALIZATION_PENDING
                              MOVEMENTGENERATOR_FLAG_TRANSITORY)
                       MOVEMENTGENERATOR_FLAG_DEACTIVATED) r) in
  if movement_id r =? EVENT_CHARGE_PREPATH then (r, MarkRoamingMove)
  else if negb can_move then (raise MOVEMENTGENERATOR_FLAG_INTERRUPTED r, StopMoving)
  else (r, LaunchSpline).

Definition reset_point_like_cpp (can_move : bool) r :
    MovementGeneratorRef * PointMovementAction :=
  initialize_point_like_cpp can_move
    (lower (Z.lor MOVEMENTGENERATOR_FLAG_TRANSITORY MOVEMENTGENERATOR_FLAG_DEACTIVATED) r).

Definition update_point_like_cpp (can_move finalized : bool) r :
    MovementGeneratorRef * PointMovementAction :=
  if movement_id r =? EVENT_CHARGE_PREPATH then
    if finalized then (raise MOVEMENTGENERATOR_FLAG_INFORM_ENABLED r, Finished)
    else (r, Continue)
  else if negb can_move then
    (raise MOVEMENTGENERATOR_FLAG_INTERRUPTED r, StopMovingAndContinue)
  else if (ref_has_flag MOVEMENTGENERATOR_FLAG_INTERRUPTED r && finalized)
       || (ref_has_flag MOVEMENTGENERATOR_FLAG_SPEED_UPDATE_PENDING r && negb finalized)
  then (lower (Z.lor MOVEMENTGENERATOR_FLAG_INTERRUPTED
                 MOVEMENTGENERATOR_FLAG_SPEED_UPDATE_PENDING) r, RelaunchSpline)
  else if finalized then
    (raise MOVEMENTGENERATOR_FLAG_INFORM_ENABLED (lower MOVEMENTGENERATOR_FLAG_TRANSITORY r),
     Finished)
  else (r, Continue).

Definition deactivate_point_like_cpp r : MovementGeneratorRef * PointMovementAction :=
  (raise MOVEMENTGENERATOR_FLAG_DEACTIVATED r, ClearRoamingMove).

Definition finalize_point_like_cpp (active movement_inform : bool) r :
    MovementGeneratorRef * PointMovementFinalize :=
  let r := raise MOVEMENTGENERATOR_FLAG_FINALIZED r in
  (r, mkPointFinalize active
        (if movement_inform && ref_has_flag MOVEMENTGENERATOR_FLAG_INFORM_ENABLED r
         then Some (mkPointInform MovementGeneratorKind.Point
                      (if movement_id r =? EVENT_CHARGE_PREPATH then EVENT_CHARGE
                       else movement_id r))
         else None)).

Definition finalize_assistance_like_cpp
    (active movement_inform owner_is_creature owner_is_alive : bool) r :
    MovementGeneratorRef * AssistanceMovementFinalize :=
  let r := raise MOVEMENTGENERATOR_FLAG_FINALIZED r in
  let can_inform := movement_inform && ref_has_flag MOVEMENTGENERATOR_FLAG_INFORM_ENABLED r
                    && owner_is_creature in
  (r, mkAssistanceFinalize active (if can_inform then Some false else None) can_inform
        (if can_inform && owner_is_alive
         then Some CREATURE_FAMILY_ASSISTANCE_DELAY_MS_LIKE_CPP else None)).

Definition finalize_assistance_distract_like_cpp (movement_inform owner_is_creature : bool) r :
    MovementGeneratorRef * AssistanceDistractFinalize :=
  let r := raise MOVEMENTGENERATOR_FLAG_FINALIZED r in
  (r, mkAssistanceDistract (movement_inform
        && ref_has_flag MOVEMENTGENERATOR_FLAG_INFORM_ENABLED r && owner_is_creature)).

Definition initialize_idle_like_cpp r : IdleMovementAction := IdleStopMoving.
Definition reset_idle_like_cpp r : IdleMovementAction := IdleStopMoving.
Definition update_idle_like_cpp r : bool := true.
Definition finalize_idle_like_cpp r : MovementGeneratorRef :=
  raise MOVEMENTGENERATOR_FLAG_FINALIZED r.

Definition initialize_rotate_like_cpp r : MovementGeneratorRef * IdleMovementAction :=
  (raise MOVEMENTGENERATOR_FLAG_INITIALIZED
     (lower (Z.lor MOVEMENTGENERATOR_FLAG_INITIALIZATION_PENDING
               MOVEMENTGENERATOR_FLAG_DEACTIVATED) r), IdleStopMoving).

Definition reset_rotate_like_cpp r : MovementGeneratorRef * IdleMovementAction :=
  initialize_rotate_like_cpp (lower MOVEMENTGENERATOR_FLAG_DEACTIVATED r).

(** The new orientation is the expression of rotate.rs. *)
Definition update_rotate_like_cpp (owner_exists : bool) (diff : Z) (orientation : f32) r :
    MovementGeneratorRef * RotateMovementUpdate :=
  if negb owner_exists then (r, mkRotateUpdate false None)
  else
    let facing := Rotate.rotated orientation diff (default 0 (max_duration_ms r))
                    (default Rotate.Left (rotate_direction r)) in
    let remaining := default 0 (duration_ms r) in
    if diff <? remaining then
      (r <| duration_ms := Some (remaining - diff) |>, mkRotateUpdate true (Some facing))
    else (raise MOVEMENTGENERATOR_FLAG_INFORM_ENABLED r, mkRotateUpdate false (Some facing)).

Definition deactivate_timed_idle_like_cpp r : MovementGeneratorRef :=
  raise MOVEMENTGENERATOR_FLAG_DEACTIVATED r.

Definition finalize_rotate_like_cpp (movement_inform owner_is_creature : bool) r :
    MovementGeneratorRef * RotateMovementFinalize :=
  (raise MOVEMENTGENERATOR_FLAG_FINALIZED r,
   mkRotateFinalize (if movement_inform && owner_is_creature
                     then Some (mkPointInform MovementGeneratorKind.Rotate (movement_id r))
                     else None)).

Definition initialize_distract_like_cpp (owner_is_standing : bool) r :
    MovementGeneratorRef * DistractMovementAction :=
  (raise MOVEMENTGENERATOR_FLAG_INITIALIZED
     (lower (Z.lor MOVEMENTGENERATOR_FLAG_INITIALIZATION_PENDING
               MOVEMENTGENERATOR_FLAG_DEACTIVATED) r),
   mkDistractAction (negb owner_is_standing) true).

Definition reset_distract_like_cpp (owner_is_standing : bool) r :
    MovementGeneratorRef * DistractMovementAction :=
  initialize_distract_like_cpp owner_is_standing (lower MOVEMENTGENERATOR_FLAG_DEACTIVATED r).

Definition update_distract_like_cpp (owner_exists : bool) (diff : Z) r :
    MovementGeneratorRef * bool :=
  if negb owner_exists then (r, false)
  else
    let remaining := default 0 (duration_ms r) in
    if remaining <? diff then (raise MOVEMENTGENERATOR_FLAG_INFORM_ENABLED r, false)
    else (r <| duration_ms := Some (remaining - diff) |>, true).

Definition finalize_distract_like_cpp (movement_inform owner_is_creature : bool) r :
    MovementGeneratorRef * DistractMovementFinalize :=
  let r := raise MOVEMENTGENERATOR_FLAG_FINALIZED r in
  (r, mkDistractFinalize (movement_inform
        && ref_has_flag MOVEMENTGENERATOR_FLAG_INFORM_ENABLED r && owner_is_creature)).

(** ** Dispatch on the kind *)
Definition initialize_for_motion_master_update_like_cpp (c : MotionMasterUpdateContext) r :
    MovementGeneratorRef :=
  match kind r with
  | MovementGeneratorKind.Idle => r
  | MovementGeneratorKind.Point => fst (initialize_point_like_cpp (can_move c) r)
  | MovementGeneratorKind.Rotate => fst (initialize_rotate_like_cpp r)
  | MovementGeneratorKind.Distract => fst (initialize_distract_like_cpp (owner_is_standing c) r)
  | MovementGeneratorKind.Effect => initialize_generic_like_cpp r
  | _ => raise MOVEMENTGENERATOR_FLAG_INITIALIZED
           (lower (Z.lor MOVEMENTGENERATOR_FLAG_INITIALIZATION_PENDING
                     MOVEMENTGENERATOR_FLAG_DEACTIVATED) r)
  end.

Definition reset_for_motion_master_update_like_cpp (c : MotionMasterUpdateContext) r :
    MovementGeneratorRef :=
  match kind r with
  | MovementGeneratorKind.Point => fst (reset_point_like_cpp (can_move c) r)
  | MovementGeneratorKind.Rotate => fst (reset_rotate_like_cpp r)
  | MovementGeneratorKind.Distract => fst (reset_distract_like_cpp (owner_is_standing c) r)
  | _ => initialize_for_motion_master_update_like_cpp c r
  end.

Definition update_for_motion_master_like_cpp (c : MotionMasterUpdateContext) r :
    MovementGeneratorRef * bool :=
  match kind r with
  | MovementGeneratorKind.Idle => (r, update_idle_like_cpp r)
  | MovementGeneratorKind.Point =>
      let '(r, action) := update_point_like_cpp (can_move c) (spline_finalized c) r in
      (r, negb (bool_decide (action = Finished)))
  | MovementGeneratorKind.Rotate =>
      let '(r, outcome) := update_rotate_like_cpp (owner_exists c) (diff_ms c)
                             (current_orientation c) r in
      (r, keep_running outcome)
  | MovementGeneratorKind.Distract => update_distract_like_cpp (owner_exists c) (diff_ms c) r
  | MovementGeneratorKind.Effect =>
      update_generic_like_cpp (diff_ms c) (spline_cyclic c) (spline_finalized c) r
  | _ => (r, true)
  end.

Definition initialize_or_reset_for_motion_master_update_like_cpp
    (c : MotionMasterUpdateContext) r : MovementGeneratorRef :=
  let r := if ref_has_flag MOVEMENTGENERATOR_FLAG_INITIALIZATION_PENDING r
           then initialize_for_motion_master_update_like_cpp c r else r in
  if ref_has_flag MOVEMENTGENERATOR_FLAG_DEACTIVATED r
  then reset_for_motion_master_update_like_cpp c r else r.
End LifeCycle.
