(* ===== verification/MotionSubsystem.v ===== *)
(** wow-entities/src/unit_subsystems/movement (delayed_actions.rs,
    subsystem.rs): the represented motion master of a unit, with a count per
    unit state and the state of the movement spline. *)
From S2P Require Import Prelude Float32 Guid MotionGenerators MotionMaster MotionRefs.

(** * delayed_actions.rs

    The delayed actions have the types of MotionMaster.v (the crate has its own
    copy of [MotionMasterDelayedActionType]). *)
Inductive MotionMasterDelayedActionPayload : Type :=
| PayloadClear
| PayloadClearSlot (slot : MovementSlot.t)
| PayloadClearMode (mode : MovementGeneratorMode.t)
| PayloadClearPriority (priority : MovementGeneratorPriority.t)
| PayloadAdd (generator : MovementGeneratorRef)
| PayloadRemove (kind : MovementGeneratorKind.t) (slot : MovementSlot.t)
| PayloadRemoveType (kind : MovementGeneratorKind.t) (slot : MovementSlot.t)
| PayloadInitialize.

Definition payload_type (p : MotionMasterDelayedActionPayload) : MotionMasterDelayedActionType.t :=
  match p with
  | PayloadClear => MotionMasterDelayedActionType.Clear
  | PayloadClearSlot _ => MotionMasterDelayedActionType.ClearSlot
  | PayloadClearMode _ => MotionMasterDelayedActionType.ClearMode
  | PayloadClearPriority _ => MotionMasterDelayedActionType.ClearPriority
  | PayloadAdd _ => MotionMasterDelayedActionType.Add
  | PayloadRemove _ _ => MotionMasterDelayedActionType.Remove
  | PayloadRemoveType _ _ => MotionMasterDelayedActionType.RemoveType
  | PayloadInitialize => MotionMasterDelayedActionType.Initialize
  end.

Record MotionMasterDelayedAction : Type := mkDelayedAction
  { payload : MotionMasterDelayedActionPayload; validator_passed : bool }.

(** The payload [push_delayed_action_like_cpp] makes of a bare type. *)
Definition default_payload (ty : MotionMasterDelayedActionType.t) :
    MotionMasterDelayedActionPayload :=
  match ty with
  | MotionMasterDelayedActionType.Clear => PayloadClear
  | MotionMasterDelayedActionType.ClearSlot => PayloadClearSlot MovementSlot.Active
  | MotionMasterDelayedActionType.ClearMode => PayloadClearMode MovementGeneratorMode.Default
  | MotionMasterDelayedActionType.ClearPriority =>
      PayloadClearPriority MovementGeneratorPriority.Normal
  | MotionMasterDelayedActionType.Add =>
      PayloadAdd (ref_new MovementGeneratorKind.Idle MovementSlot.Active)
  | MotionMasterDelayedActionType.Remove =>
      PayloadRemove MovementGeneratorKind.Idle MovementSlot.Active
  | MotionMasterDelayedActionType.RemoveType =>
      PayloadRemoveType MovementGeneratorKind.Idle MovementSlot.Active
  | MotionMasterDelayedActionType.Initialize => PayloadInitialize
  end.

Record MoveSplineState : Type := mkSpline
  { enabled : bool; finalized : bool; cyclic : bool; on_transport : bool; spline_id : Z;
    progress_ms : Z; spline_duration_ms : Z; velocity : option Z;
    final_destination : option (Z * Z * Z); current_destination : option (Z * Z * Z) }.

#[export] Instance eta_spline : Eta MoveSplineState := fun s =>
  mkSpline (enabled s) (finalized s) (cyclic s) (on_transport s) (spline_id s) (progress_ms s)
    (spline_duration_ms s) (velocity s) (final_destination s) (current_destination s).

Definition spline_default : MoveSplineState :=
  mkSpline false true false false 0 0 0 None None None.

Inductive MotionMasterUpdateOutcome : Type :=
| Stalled
| Empty
| Updated (popped : option MovementGeneratorRef)
    (resolved_delayed_actions : list ResolvedDelayedAction).

Record MotionMasterAddToWorldOutcomeLikeCpp : Type := mkAddToWorld
  { had_initialization_pending : bool; entered_initializing : bool;
    direct_initialize_represented : bool; added_resolved : list ResolvedDelayedAction;
    exited_initializing : bool; flags_before : Z; flags_after : Z;
    current_generator_after : MovementGeneratorKind.t }.

Record SeekAssistancePlan : Type := mkSeek
  { attack_stop : bool; cast_stop : bool; do_not_reacquire_spell_focus_target : bool;
    set_react_passive : bool; generator_added : bool }.

Inductive MoveFallPlan : Type := Noop | PlayerFallInfo | SplineStarted.

(** * State *)
Module MotionSubsystem.

(** [base_unit_states] counts are at most the number of active generators, which
    a [Vec] keeps far below the maximum of [usize]: [+= 1] does not wrap. *)
Record t : Type := mk
  { default_generator : MovementGeneratorRef;
    active_generators : list MovementGeneratorRef;
    current_generator : MovementGeneratorKind.t;
    base_unit_states : gmap Z Z;
    motion_flags : Z;
    delayed_actions : list MotionMasterDelayedAction;
    paused : bool; stopped : bool;
    spline : MoveSplineState }.

#[global] Instance eta_t : Eta t := fun m =>
  mk (default_generator m) (active_generators m) (current_generator m) (base_unit_states m)
    (motion_flags m) (delayed_actions m) (paused m) (stopped m) (spline m).

Definition motion_default : t :=
  mk (with_flags MOVEMENTGENERATOR_FLAG_INITIALIZED
        (with_priority MovementGeneratorPriority.Normal
           (ref_new MovementGeneratorKind.Idle MovementSlot.Default)))
    [] MovementGeneratorKind.Idle ∅ MOTIONMASTER_FLAG_INITIALIZATION_PENDING [] false false
    spline_default.

(** * Reading *)
Definition has_motion_master_flag (flag : Z) (m : t) : bool := has_flag (motion_flags m) flag.

Definition should_delay_motion_master_action_like_cpp (m : t) : bool :=
  has_motion_master_flag MOTIONMASTER_FLAG_DELAYED m.

Definition no_active (m : t) : bool :=
  match active_generators m with [] => true | _ => false end.

Definition is_empty (m : t) : bool :=
  no_active m && bool_decide (kind (default_generator m) = MovementGeneratorKind.Custom u32_max).

Definition size (m : t) : nat := (1 + length (active_generators m))%nat.

Definition current_slot (m : t) : MovementSlot.t :=
  if no_active m then MovementSlot.Default else MovementSlot.Active.

Definition current_movement_generator (m : t) : MovementGeneratorRef :=
  default (default_generator m) (head (active_generators m)).

(** * Delayed actions: queueing *)
Definition push_delayed_payload_with_validator_like_cpp (p : MotionMasterDelayedActionPayload)
    (passed : bool) (m : t) : t :=
  m <| delayed_actions := delayed_actions m ++ [mkDelayedAction p passed] |>.

Definition push_delayed_payload_like_cpp (p : MotionMasterDelayedActionPayload) (m : t) : t :=
  push_delayed_payload_with_validator_like_cpp p true m.

Definition push_delayed_action_like_cpp (ty : MotionMasterDelayedActionType.t) (m : t) : t :=
  push_delayed_payload_like_cpp (default_payload ty) m.

Definition push_delayed_action_with_validator_like_cpp (ty : MotionMasterDelayedActionType.t)
    (passed : bool) (m : t) : t :=
  push_delayed_payload_with_validator_like_cpp (default_payload ty) passed m.

Definition resolved_of (a : MotionMasterDelayedAction) : ResolvedDelayedAction :=
  mkResolved (payload_type (payload a)) (validator_passed a).

(** Drains the queue and reports it; the payloads are dropped. *)
Definition resolve_delayed_actions_like_cpp (m : t) : t * list ResolvedDelayedAction :=
  (m <| delayed_actions := [] |>, resolved_of <$> delayed_actions m).

(** * Base unit states *)
Definition add_base_unit_state (base : Z) (m : t) : t :=
  if negb (base =? 0) then
    m <| base_unit_states := <[base := default 0 (base_unit_states m !! base) + 1]>
                               (base_unit_states m) |>
  else m.

Definition clear_base_unit_state (base : Z) (m : t) : t :=
  if base =? 0 then m
  else
    match base_unit_states m !! base with
    | Some count =>
        let count := sat_sub count 1 in
        if count =? 0 then m <| base_unit_states := delete base (base_unit_states m) |>
        else m <| base_unit_states := <[base := count]> (base_unit_states m) |>
    | None => m
    end.

(** [Vec::remove] panics out of range; every caller passes an index of the
    list, so [None] as the removed generator is not reached. *)
Definition remove_generator_at (index : nat) (m : t) : t * option MovementGeneratorRef :=
  match active_generators m !! index with
  | Some removed =>
      (clear_base_unit_state (base_unit_state removed)
         (m <| active_generators := delete index (active_generators m) |>), Some removed)
  | None => (m, None)
  end.

(** * Ordering: [sort_by], which is stable *)
Definition sorts_before (left right : MovementGeneratorRef) : bool :=
  let ml := MovementGeneratorMode.code (mode left) in
  let mr := MovementGeneratorMode.code (mode right) in
  (mr <? ml) ||
  ((mr =? ml) && (priority_code (priority right) <? priority_code (priority left))).

Fixpoint sort_insert (x : MovementGeneratorRef) (l : list MovementGeneratorRef) :
    list MovementGeneratorRef :=
  match l with
  | [] => [x]
  | y :: l' => if sorts_before y x then y :: sort_insert x l' else x :: l
  end.

Definition stable_sort (l : list MovementGeneratorRef) : list MovementGeneratorRef :=
  foldr sort_insert [] l.

Definition sort_active_generators (m : t) : t :=
  m <| active_generators := stable_sort (active_generators m) |>.

(** [self.current_generator = self.current_movement_generator().kind]. *)
Definition refresh_current (m : t) : t :=
  m <| current_generator := kind (current_movement_generator m) |>.

(** * Adding *)
Definition at_least (p q : MovementGeneratorPriority.t) : bool :=
  priority_code q <=? priority_code p.

(** What [add_generator] displaces in the active slot, or suspends. *)
Definition make_room (generator : MovementGeneratorRef) (m : t) : t :=
  match active_generators m with
  | [] => m
  | top :: rest =>
      if at_least (priority generator) (priority top) then
        if bool_decide (priority generator = priority top) then fst (remove_generator_at 0 m)
        else m <| active_generators := raise MOVEMENTGENERATOR_FLAG_DEACTIVATED top :: rest |>
      else
        match MotionMaster.position (fun known => bool_decide (priority known = priority generator))
                (active_generators m) with
        | Some index => fst (remove_generator_at index m)
        | None => m
        end
  end.

Definition add_generator (generator : MovementGeneratorRef) (m : t) : t :=
  let m :=
    match slot generator with
    | MovementSlot.Default =>
        let m := m <| default_generator := generator |> in
        if bool_decide (kind generator = MovementGeneratorKind.Idle)
        then m <| motion_flags := set_flag (motion_flags m)
                    MOTIONMASTER_FLAG_STATIC_INITIALIZATION_PENDING |>
        else m
    | MovementSlot.Active =>
        let m := make_room generator m in
        let m := add_base_unit_state (base_unit_state generator) m in
        sort_active_generators (m <| active_generators := active_generators m ++ [generator] |>)
    end in
  (refresh_current m) <| stopped := false |>.

Definition set_current_generator (k : MovementGeneratorKind.t) (m : t) : t :=
  add_generator (ref_new k MovementSlot.Active) m.

(** * The default generator *)
Definition default_ref (k : MovementGeneratorKind.t) : MovementGeneratorRef :=
  let r := with_priority MovementGeneratorPriority.Normal (ref_new k MovementSlot.Default) in
  match k with
  | MovementGeneratorKind.Random | MovementGeneratorKind.Waypoint =>
      with_base_unit_state UnitState.ROAMING
        (with_flags MOVEMENTGENERATOR_FLAG_INITIALIZATION_PENDING r)
  | MovementGeneratorKind.Idle => with_flags MOVEMENTGENERATOR_FLAG_INITIALIZED r
  | _ => with_flags MOVEMENTGENERATOR_FLAG_INITIALIZATION_PENDING r
  end.

Definition initialize_default_generator_like_cpp (k : MovementGeneratorKind.t) (m : t) : t :=
  let m := m <| default_generator := default_ref k |> in
  if no_active m then m <| current_generator := kind (default_generator m) |> else m.

Definition move_idle (m : t) : t :=
  let m := initialize_default_generator_like_cpp MovementGeneratorKind.Idle m in
  let m := m <| motion_flags := set_flag (motion_flags m)
                  MOTIONMASTER_FLAG_STATIC_INITIALIZATION_PENDING |> in
  if no_active m then m <| current_generator := MovementGeneratorKind.Idle |> else m.

(** * Removing and clearing *)
Definition remove_generator_kind (k : MovementGeneratorKind.t) (s : MovementSlot.t) (m : t) :
    t * option MovementGeneratorRef :=
  let '(m, removed) :=
    match s with
    | MovementSlot.Default =>
        if bool_decide (kind (default_generator m) = k)
        then (move_idle m, Some (default_generator m)) else (m, None)
    | MovementSlot.Active =>
        match MotionMaster.position (fun g => bool_decide (kind g = k)) (active_generators m) with
        | Some index => remove_generator_at index m
        | None => (m, None)
        end
    end in
  (refresh_current m, removed).

Definition clear_active (m : t) : t * list MovementGeneratorRef :=
  (m <| active_generators := [] |> <| base_unit_states := ∅ |>
     <| current_generator := kind (default_generator m) |>, active_generators m).

Definition clear_slot (s : MovementSlot.t) (m : t) : t * list MovementGeneratorRef :=
  match s with
  | MovementSlot.Default => (move_idle m, [default_generator m])
  | MovementSlot.Active => clear_active m
  end.

(** The loop of [clear_by_priority] and [clear_by_mode]: every round removes a
    generator or passes over one, so as many rounds as generators end it. *)
Fixpoint clear_where (fuel : nat) (p : MovementGeneratorRef -> bool) (index : nat) (m : t) :
    t * list MovementGeneratorRef :=
  match fuel with
  | O => (m, [])
  | S fuel =>
      match active_generators m !! index with
      | None => (m, [])
      | Some g =>
          if p g then
            let '(m, _) := remove_generator_at index m in
            let '(m, removed) := clear_where fuel p index m in
            (m, g :: removed)
          else clear_where fuel p (S index) m
      end
  end.

Definition clear_by_priority (p : MovementGeneratorPriority.t) (m : t) :
    t * list MovementGeneratorRef :=
  let '(m, removed) := clear_where (length (active_generators m))
                         (fun g => bool_decide (priority g = p)) 0 m in
  (refresh_current m, removed).

Definition clear_by_mode (md : MovementGeneratorMode.t) (m : t) :
    t * list MovementGeneratorRef :=
  let '(m, removed) := clear_where (length (active_generators m))
                         (fun g => bool_decide (mode g = md)) 0 m in
  (refresh_current m, removed).

Definition direct_initialize_like_cpp (m : t) : t :=
  let selected_default := kind (default_generator m) in
  initialize_default_generator_like_cpp selected_default (fst (clear_active m)).

(** * Delayed actions: resolving *)
Definition apply_delayed_action_payload_like_cpp (p : MotionMasterDelayedActionPayload) (m : t) :
    t :=
  match p with
  | PayloadClear => fst (clear_active m)
  | PayloadClearSlot s => fst (clear_slot s m)
  | PayloadClearMode md => fst (clear_by_mode md m)
  | PayloadClearPriority pr => fst (clear_by_priority pr m)
  | PayloadAdd generator => add_generator generator m
  | PayloadRemove k s | PayloadRemoveType k s => fst (remove_generator_kind k s m)
  | PayloadInitialize => direct_initialize_like_cpp m
  end.

(** [None]: out of fuel. *)
Fixpoint resolve_loop (fuel : nat) (m : t) : option (t * list ResolvedDelayedAction) :=
  match delayed_actions m with
  | [] => Some (m, [])
  | a :: rest =>
      match fuel with
      | O => None
      | S fuel =>
          let m := m <| delayed_actions := rest |> in
          let m := if validator_passed a
                   then apply_delayed_action_payload_like_cpp (payload a) m else m in
          '(m, resolved) ← resolve_loop fuel m;
          Some (m, resolved_of a :: resolved)
      end
  end.

Definition resolve_delayed_action_payloads_like_cpp (m : t) :
    option (t * list ResolvedDelayedAction) :=
  resolve_loop (length (delayed_actions m)) m.

(** * The frame update *)
Definition update_motion_master_like_cpp (c : MotionMasterUpdateContext) (m : t) :
    option (t * MotionMasterUpdateOutcome) :=
  if has_motion_master_flag (Z.lor MOTIONMASTER_FLAG_INITIALIZATION_PENDING
                               MOTIONMASTER_FLAG_INITIALIZING) m
  then Some (m, Stalled)
  else if is_empty m then Some (m, Empty)
  else
    let m := m <| motion_flags := set_flag (motion_flags m) MOTIONMASTER_FLAG_UPDATE |> in
    let m :=
      if has_motion_master_flag MOTIONMASTER_FLAG_STATIC_INITIALIZATION_PENDING m
         && bool_decide (current_slot m = MovementSlot.Default)
      then m <| motion_flags := clear_flag (motion_flags m)
                  MOTIONMASTER_FLAG_STATIC_INITIALIZATION_PENDING |>
             <| default_generator :=
                  initialize_for_motion_master_update_like_cpp c (default_generator m) |>
      else m in
    let '(m, keep_running) :=
      match active_generators m with
      | [] =>
          let g := initialize_or_reset_for_motion_master_update_like_cpp c (default_generator m) in
          let '(g, keep_running) := update_for_motion_master_like_cpp c g in
          (m <| default_generator := g |>, keep_running)
      | top :: rest =>
          let g := initialize_or_reset_for_motion_master_update_like_cpp c top in
          let '(g, keep_running) := update_for_motion_master_like_cpp c g in
          (m <| active_generators := g :: rest |>, keep_running)
      end in
    let '(m, popped) :=
      if negb keep_running && negb (no_active m) then remove_generator_at 0 m else (m, None) in
    let m := refresh_current m in
    let m := m <| motion_flags := clear_flag (motion_flags m) MOTIONMASTER_FLAG_UPDATE |> in
    '(m, resolved) ← resolve_delayed_action_payloads_like_cpp m;
    Some (m, Updated popped resolved).

Definition add_to_world_like_cpp (m : t) : option (t * MotionMasterAddToWorldOutcomeLikeCpp) :=
  let before := motion_flags m in
  let pending := has_motion_master_flag MOTIONMASTER_FLAG_INITIALIZATION_PENDING m in
  if negb pending then
    Some (m, mkAddToWorld pending false false [] false before (motion_flags m)
               (current_generator m))
  else
    let m := m <| motion_flags := set_flag (motion_flags m) MOTIONMASTER_FLAG_INITIALIZING |> in
    let m := m <| motion_flags := clear_flag (motion_flags m)
                    MOTIONMASTER_FLAG_INITIALIZATION_PENDING |> in
    let m := direct_initialize_like_cpp m in
    '(m, resolved) ← resolve_delayed_action_payloads_like_cpp m;
    let m := m <| motion_flags := clear_flag (motion_flags m) MOTIONMASTER_FLAG_INITIALIZING |> in
    let m := refresh_current m in
    Some (m, mkAddToWorld pending (Z.land before MOTIONMASTER_FLAG_INITIALIZING =? 0) true resolved
               (negb (has_motion_master_flag MOTIONMASTER_FLAG_INITIALIZING m)) before
               (motion_flags m) (current_generator m)).

Definition add_to_world (m : t) : option t := fst <$> add_to_world_like_cpp m.

(** * Starting movements *)
Definition pending (k : MovementGeneratorKind.t) (p : MovementGeneratorPriority.t) (base : Z) :
    MovementGeneratorRef :=
  with_base_unit_state base
    (with_flags MOVEMENTGENERATOR_FLAG_INITIALIZATION_PENDING
       (with_priority p (ref_new k MovementSlot.Active))).

Definition move_point (id : Z) (m : t) : t :=
  add_generator (with_movement_id id
    (pending MovementGeneratorKind.Point MovementGeneratorPriority.Normal UnitState.ROAMING)) m.

Definition move_seek_assistance_like_cpp (m : t) : t * SeekAssistancePlan :=
  (add_generator (with_movement_id EVENT_ASSIST_MOVE
     (pending MovementGeneratorKind.Assistance MovementGeneratorPriority.Normal
        UnitState.ROAMING)) m,
   mkSeek true true true true true).

Definition move_seek_assistance_distract_like_cpp (timer_ms : Z) (m : t) : t :=
  add_generator (with_duration_ms timer_ms
    (pending MovementGeneratorKind.AssistanceDistract MovementGeneratorPriority.Normal
       UnitState.DISTRACTED)) m.

Definition move_distract_like_cpp (timer_ms : Z) (m : t) : t :=
  add_generator (with_duration_ms timer_ms
    (pending MovementGeneratorKind.Distract MovementGeneratorPriority.Highest
       UnitState.DISTRACTED)) m.

Definition move_rotate_like_cpp (id time_ms : Z) (direction : Rotate.RotateDirection) (m : t) :
    t * bool :=
  if time_ms =? 0 then (m, false)
  else
    (add_generator (with_rotate_direction direction (with_max_duration_ms time_ms
       (with_duration_ms time_ms (with_movement_id id
          (pending MovementGeneratorKind.Rotate MovementGeneratorPriority.Normal
             UnitState.ROTATING))))) m, true).

Definition move_charge (id : Z) (m : t) : t :=
  add_generator (with_movement_id id
    (pending MovementGeneratorKind.Point MovementGeneratorPriority.Highest UnitState.CHARGING)) m.

Definition move_follow (target : ObjectGuid) (duration : option Z) (m : t) : t :=
  let g := with_target_guid target (with_priority MovementGeneratorPriority.Normal
             (ref_new MovementGeneratorKind.Follow MovementSlot.Active)) in
  add_generator (match duration with Some d => with_duration_ms d g | None => g end) m.

Definition move_chase_like_cpp (target : ObjectGuid) (m : t) : t :=
  add_generator (with_target_guid target
    (pending MovementGeneratorKind.Chase MovementGeneratorPriority.Normal UnitState.CHASE)) m.

Definition add_generic_movement (k : MovementGeneratorKind.t) (id duration : Z)
    (p : MovementGeneratorPriority.t) (base flags : Z) (arrival_spell : option (Z * ObjectGuid))
    (m : t) : t :=
  let g := with_duration_ms duration (with_movement_id id (with_base_unit_state base
             (with_flags flags (with_priority p (ref_new k MovementSlot.Active))))) in
  add_generator (match arrival_spell with
                 | Some (spell, target) => with_arrival_spell spell target g
                 | None => g
                 end) m.

Definition launch_generic_movement (k : MovementGeneratorKind.t) (id duration : Z)
    (arrival_spell : option (Z * ObjectGuid)) (m : t) : t :=
  add_generic_movement k id duration MovementGeneratorPriority.Normal UnitState.ROAMING
    MOVEMENTGENERATOR_FLAG_INITIALIZATION_PENDING arrival_spell m.

Definition launch_move_spline_like_cpp (k : MovementGeneratorKind.t) (id : Z)
    (p : MovementGeneratorPriority.t) (duration : Z) (m : t) : t * bool :=
  let trinity_type := MovementGeneratorKind.trinity_id k in
  if (trinity_type =? 3) || (19 <=? trinity_type) then (m, false)
  else (add_generic_movement k id duration p UnitState.ROAMING
          MOVEMENTGENERATOR_FLAG_INITIALIZATION_PENDING None m, true).

Definition move_jump_like_cpp (id duration : Z) (speed_xy : f32)
    (arrival_spell : option (Z * ObjectGuid)) (m : t) : t * bool :=
  if f32_lt speed_xy f32_0_01 then (m, false)
  else (add_generic_movement MovementGeneratorKind.Effect id duration
          MovementGeneratorPriority.Highest UnitState.JUMPING
          MOVEMENTGENERATOR_FLAG_INITIALIZATION_PENDING arrival_spell m, true).

Definition move_jump_with_gravity_like_cpp (id duration : Z) (speed_xy : f32)
    (arrival_spell : option (Z * ObjectGuid)) (m : t) : t * bool :=
  if f32_lt speed_xy f32_0_01 then (m, false)
  else (add_generic_movement MovementGeneratorKind.Effect id duration
          MovementGeneratorPriority.Highest UnitState.JUMPING
          (Z.lor MOVEMENTGENERATOR_FLAG_INITIALIZATION_PENDING
             MOVEMENTGENERATOR_FLAG_PERSIST_ON_DEATH) arrival_spell m, true).

Definition move_knockback_from_like_cpp (is_player : bool) (duration : Z) (speed_xy : f32)
    (m : t) : t * bool :=
  if is_player || f32_lt speed_xy f32_0_01 then (m, false)
  else (add_generic_movement MovementGeneratorKind.Effect 0 duration
          MovementGeneratorPriority.Highest 0
          (Z.lor MOVEMENTGENERATOR_FLAG_INITIALIZATION_PENDING
             MOVEMENTGENERATOR_FLAG_PERSIST_ON_DEATH) None m, true).

Definition move_fall_like_cpp (id duration : Z) (has_valid_ground_height : bool)
    (vertical_delta : f32) (has_root_or_stun_state is_player : bool) (m : t) : t * MoveFallPlan :=
  if negb has_valid_ground_height || f32_lt (f32_abs vertical_delta) f32_0_1
     || has_root_or_stun_state
  then (m, Noop)
  else if is_player then (m, PlayerFallInfo)
  else (add_generic_movement MovementGeneratorKind.Effect id duration
          MovementGeneratorPriority.Highest 0 MOVEMENTGENERATOR_FLAG_INITIALIZATION_PENDING None m,
        SplineStarted).

(** * The spline *)
Definition finalize_spline (m : t) : t :=
  m <| spline := (spline m) <| enabled := false |> <| finalized := true |>
                   <| progress_ms := spline_duration_ms (spline m) |> |>.

Definition interrupt_spline (m : t) : t :=
  let m := finalize_spline m in m <| spline := (spline m) <| current_destination := None |> |>.

Definition start_spline (id duration : Z) (m : t) : t :=
  m <| spline := mkSpline true false false false id 0 duration None None None |>
    <| stopped := false |>.

Definition launch_spline (id duration : Z) (destination : Z * Z * Z) (is_cyclic transport : bool)
    (speed : option Z) (m : t) : t :=
  m <| spline := mkSpline true false is_cyclic transport id 0 duration speed (Some destination)
                   (Some destination) |>
    <| stopped := false |>.

Definition set_spline_progress (progress : Z) (m : t) : t :=
  let m := m <| spline := (spline m)
                  <| progress_ms := Z.min progress (spline_duration_ms (spline m)) |> |> in
  if (spline_duration_ms (spline m) <=? progress_ms (spline m)) && negb (cyclic (spline m))
  then finalize_spline m else m.

Definition update_spline (diff : Z) (m : t) : t * bool :=
  let s := spline m in
  if negb (enabled s) || finalized s then (m, false)
  else
    let next_progress := sat_add u32_max (progress_ms s) diff in
    if cyclic s && (0 <? spline_duration_ms s) then
      (m <| spline := s <| progress_ms := next_progress mod spline_duration_ms s |> |>, false)
    else
      let m := set_spline_progress next_progress m in
      (m, finalized (spline m)).

(** * Stopping and pausing *)
Definition stop_moving (m : t) : t := finalize_spline (m <| stopped := true |>).

Definition stop_on_death (m : t) : t * bool :=
  if match head (active_generators m) with
     | Some g => ref_has_flag MOVEMENTGENERATOR_FLAG_PERSIST_ON_DEATH g
     | None => false
     end
  then (m, false)
  else (stop_moving (move_idle (fst (clear_active m))), true).

Definition pause_movement (m : t) : t := m <| paused := true |>.
Definition resume_movement (m : t) : t := m <| paused := false |>.

Definition pause_generator (timer_ms : Z) (g : MovementGeneratorRef) : MovementGeneratorRef :=
  if 0 <? timer_ms then
    (lower MOVEMENTGENERATOR_FLAG_PAUSED (raise MOVEMENTGENERATOR_FLAG_TIMED_PAUSED g))
      <| duration_ms := Some timer_ms |> <| elapsed_ms := 0 |>
  else lower MOVEMENTGENERATOR_FLAG_TIMED_PAUSED (raise MOVEMENTGENERATOR_FLAG_PAUSED g).

(** [movement_generator_for_slot_mut] is the match on the slot. *)
Definition pause_current_movement_like_cpp (timer_ms : Z) (s : MovementSlot.t) (forced : bool)
    (m : t) : t * bool :=
  let finish m :=
    let m := m <| paused := true |> in
    (if forced && bool_decide (current_slot m = s) then stop_moving m else m, true) in
  match s, active_generators m with
  | MovementSlot.Default, _ =>
      finish (m <| default_generator := pause_generator timer_ms (default_generator m) |>)
  | MovementSlot.Active, g :: rest =>
      finish (m <| active_generators := pause_generator timer_ms g :: rest |>)
  | MovementSlot.Active, [] => (m, false)
  end.
End MotionSubsystem.
