(* ===== verification/MotionSubsystemTheorems.v ===== *)
(** What the represented motion master of MotionSubsystem.v keeps true: the
    order of the active generators, the exact count of the unit states they
    hold, the selected kind; what its update and its entry into the world do. *)
From stdpp Require Import sorting.
From S2P Require Import Prelude Float32 Guid MotionGenerators MotionMaster MotionRefs MotionSubsystem.
Import MotionSubsystem.

(** * The order of the active generators *)
Section Order.
Implicit Types (g : MovementGeneratorRef) (l : list MovementGeneratorRef).

(** Mode first, then priority. *)
Definition rank g : Z := 3 * MovementGeneratorMode.code (mode g) + priority_code (priority g).

Lemma sorts_before_rank g h : sorts_before g h = (rank h <? rank g).
Proof. unfold sorts_before, rank. by destruct (mode g), (mode h), (priority g), (priority h). Qed.

Definition ordered l : Prop := StronglySorted (fun g h => rank h <= rank g) l.

Lemma sort_insert_perm g l : sort_insert g l ≡ₚ g :: l.
Proof.
  induction l as [|h l IH]; cbn; [done|]. destruct (sorts_before h g); [|done].
  rewrite IH. apply Permutation_swap.
Qed.

Lemma sort_insert_ordered g l : ordered l -> ordered (sort_insert g l).
Proof.
  unfold ordered. induction l as [|h l IH]; intros Hs; cbn; [repeat constructor|].
  inversion Hs as [|? ? Hs' F]; subst. rewrite sorts_before_rank.
  destruct (Z.ltb_spec (rank g) (rank h)).
  - constructor; [by apply IH|]. rewrite sort_insert_perm. constructor; [lia|done].
  - constructor; [done|]. constructor; [lia|]. eapply Forall_impl; [exact F|]. cbn. lia.
Qed.

Lemma stable_sort_perm l : stable_sort l ≡ₚ l.
Proof. induction l as [|g l IH]; cbn; [done|]. by rewrite sort_insert_perm, IH. Qed.

Lemma stable_sort_ordered l : ordered (stable_sort l).
Proof. induction l as [|g l IH]; cbn; [apply SSorted_nil|by apply sort_insert_ordered]. Qed.

(** Where a generator goes: after every one of at least its rank. *)
Fixpoint place g l : list MovementGeneratorRef :=
  match l with
  | [] => [g]
  | h :: l' => if rank h <? rank g then g :: l else h :: place g l'
  end.

Lemma sort_insert_head g l :
  Forall (fun h => rank h <= rank g) l -> sort_insert g l = g :: l.
Proof.
  destruct l as [|h l]; [done|]. rewrite Forall_cons. intros [Hh _]. cbn.
  rewrite sorts_before_rank. by destruct (Z.ltb_spec (rank g) (rank h)); [lia|].
Qed.

Lemma place_perm g l : place g l ≡ₚ g :: l.
Proof.
  induction l as [|h l IH]; cbn; [done|]. destruct (rank h <? rank g); [done|].
  rewrite IH. apply Permutation_swap.
Qed.

(** Sorting after a push is insertion at that place. *)
Lemma stable_sort_snoc g l : ordered l -> stable_sort (l ++ [g]) = place g l.
Proof.
  unfold ordered. induction l as [|h l IH]; intros Hs; [done|].
  inversion Hs as [|? ? Hs' F]; subst. cbn. unfold stable_sort in IH. rewrite IH by done.
  destruct (Z.ltb_spec (rank h) (rank g)) as [Hlt|Hge].
  - assert (Ep : place g l = g :: l).
    { destruct l as [|h' l']; [done|]. cbn. apply Forall_cons in F as [F _].
      by destruct (Z.ltb_spec (rank h') (rank g)); [|lia]. }
    rewrite Ep. cbn. rewrite sorts_before_rank. destruct (Z.ltb_spec (rank h) (rank g)); [|lia].
    by rewrite sort_insert_head.
  - apply sort_insert_head. rewrite place_perm. by constructor.
Qed.

Lemma ordered_delete i l : ordered l -> ordered (delete i l).
Proof.
  unfold ordered. revert i. induction l as [|g l IH]; intros [|i] Hs; try done;
    inversion Hs as [|? ? Hs' F]; subst; [done|].
  cbn. constructor; [by apply IH|by apply Forall_delete].
Qed.

Lemma ordered_head g g' l : rank g' = rank g -> ordered (g :: l) -> ordered (g' :: l).
Proof.
  unfold ordered. intros E Hs. inversion Hs; subst. constructor; [done|]. by rewrite E.
Qed.

(** * Counting unit states *)
Definition state_count (s : Z) l : Z :=
  Z.of_nat (length (filter (fun g => base_unit_state g = s) l)).

Lemma state_count_cons s g l :
  state_count s (g :: l) = (if base_unit_state g =? s then 1 else 0) + state_count s l.
Proof.
  unfold state_count. rewrite filter_cons.
  destruct (Z.eqb_spec (base_unit_state g) s); case_decide; cbn [length]; try done; lia.
Qed.

Lemma state_count_proper s : Proper ((≡ₚ) ==> eq) (state_count s).
Proof. intros l l' E. unfold state_count. by rewrite E. Qed.

Lemma state_count_nonneg s l : 0 <= state_count s l.
Proof. unfold state_count. lia. Qed.

(** The map of counts a list calls for. *)
Definition counts_for l (counts : gmap Z Z) : Prop :=
  forall s, counts !! s =
    if (s =? 0) || (state_count s l =? 0) then None else Some (state_count s l).

Lemma counts_for_perm l l' counts : l ≡ₚ l' -> counts_for l counts -> counts_for l' counts.
Proof. intros E Hc s. rewrite Hc. by rewrite (state_count_proper s _ _ E). Qed.

Lemma counts_for_nil : counts_for [] ∅.
Proof. intros s. rewrite lookup_empty. unfold state_count. cbn. by rewrite orb_true_r. Qed.
End Order.

(** * The invariant *)
Section Invariant.
Implicit Types (g : MovementGeneratorRef) (m : t).

(** What holds of the generators and the counts, even inside an operation. *)
Record core_inv m : Prop :=
  { core_ordered : ordered (active_generators m);
    core_counts : counts_for (active_generators m) (base_unit_states m);
    core_slots : Forall (fun g => slot g = MovementSlot.Active) (active_generators m);
    core_default : slot (default_generator m) = MovementSlot.Default }.

Definition selected m : Prop := current_generator m = kind (current_movement_generator m).

(** Neither updating nor initializing. *)
Definition at_rest m : Prop :=
  has_motion_master_flag MOTIONMASTER_FLAG_UPDATE m = false /\
  has_motion_master_flag MOTIONMASTER_FLAG_INITIALIZING m = false.

Record motion_inv m : Prop :=
  { inv_core : core_inv m; inv_selected : selected m; inv_rest : at_rest m }.

Lemma motion_default_inv : motion_inv motion_default.
Proof. split; [split|done|done]; cbn; [apply SSorted_nil|apply counts_for_nil|constructor|done]. Qed.

(** ** Counts *)
Lemma add_counts m g l :
  counts_for l (base_unit_states m) ->
  counts_for (g :: l) (base_unit_states (add_base_unit_state (base_unit_state g) m)).
Proof.
  intros Hc s. unfold add_base_unit_state. pose proof (state_count_nonneg s l) as Hn.
  destruct (Z.eqb_spec (base_unit_state g) 0) as [E0|E0]; cbn.
  - rewrite Hc, state_count_cons. destruct (Z.eqb_spec s 0); [done|]. cbn.
    by destruct (Z.eqb_spec (base_unit_state g) s); [congruence|].
  - destruct (Z.eqb_spec (base_unit_state g) s) as [<-|Hne].
    + rewrite lookup_insert_eq, state_count_cons, Z.eqb_refl.
      rewrite Hc. destruct (Z.eqb_spec (base_unit_state g) 0); [done|]. cbn.
      destruct (Z.eqb_spec (state_count (base_unit_state g) l) 0) as [E|E]; cbn;
        destruct (Z.eqb_spec (1 + state_count (base_unit_state g) l) 0); try lia; f_equal; lia.
    + rewrite lookup_insert_ne by done. rewrite Hc, state_count_cons.
      by destruct (Z.eqb_spec (base_unit_state g) s).
Qed.

Lemma clear_counts m g l :
  counts_for (g :: l) (base_unit_states m) ->
  counts_for l (base_unit_states (clear_base_unit_state (base_unit_state g) m)).
Proof.
  intros Hc. assert (Hg : forall s, base_unit_states m !! s = _) by exact Hc.
  assert (Hother : forall s, base_unit_state g <> s \/ s = 0 ->
    base_unit_states m !! s =
    (if (s =? 0) || (state_count s l =? 0) then None else Some (state_count s l))).
  { intros s Hs. rewrite Hg, state_count_cons.
    destruct (Z.eqb_spec (base_unit_state g) s); [|done]. by destruct Hs as [|Hs]; [|rewrite Hs]. }
  unfold clear_base_unit_state.
  destruct (Z.eqb_spec (base_unit_state g) 0) as [E0|E0].
  { intros s. apply Hother. destruct (decide (s = 0)); [by right|left; congruence]. }
  pose proof (Hg (base_unit_state g)) as E. rewrite state_count_cons, Z.eqb_refl in E.
  pose proof (state_count_nonneg (base_unit_state g) l) as Hn.
  destruct (Z.eqb_spec (base_unit_state g) 0); [done|].
  destruct (Z.eqb_spec (1 + state_count (base_unit_state g) l) 0); [lia|]. cbn in E. rewrite E.
  unfold sat_sub. replace (Z.max 0 (1 + state_count (base_unit_state g) l - 1))
    with (state_count (base_unit_state g) l) by lia.
  intros s. destruct (Z.eqb_spec (state_count (base_unit_state g) l) 0) as [E1|E1]; cbn;
    (destruct (decide (base_unit_state g = s)) as [<-|Hne];
     [|rewrite ?lookup_insert_ne, ?lookup_delete_ne by done; by apply Hother; left]).
  - rewrite lookup_delete_eq, E1. by rewrite orb_true_r.
  - rewrite lookup_insert_eq. destruct (Z.eqb_spec (base_unit_state g) 0); [done|].
    destruct (Z.eqb_spec (state_count (base_unit_state g) l) 0); done.
Qed.

(** ** Frames: what the small steps leave alone *)
Lemma add_base_frame b m :
  active_generators (add_base_unit_state b m) = active_generators m /\
  default_generator (add_base_unit_state b m) = default_generator m /\
  motion_flags (add_base_unit_state b m) = motion_flags m /\
  delayed_actions (add_base_unit_state b m) = delayed_actions m.
Proof. unfold add_base_unit_state. by destruct (negb _). Qed.

Lemma clear_base_frame b m :
  active_generators (clear_base_unit_state b m) = active_generators m /\
  default_generator (clear_base_unit_state b m) = default_generator m /\
  motion_flags (clear_base_unit_state b m) = motion_flags m /\
  delayed_actions (clear_base_unit_state b m) = delayed_actions m.
Proof.
  unfold clear_base_unit_state. destruct (b =? 0); [done|].
  destruct (base_unit_states m !! b); [|done]. by destruct (sat_sub z 1 =? 0).
Qed.

Lemma remove_frame i m :
  let m' := fst (remove_generator_at i m) in
  active_generators m' = delete i (active_generators m) /\
  default_generator m' = default_generator m /\ motion_flags m' = motion_flags m /\
  delayed_actions m' = delayed_actions m.
Proof.
  unfold remove_generator_at. destruct (active_generators m !! i) as [g|] eqn:E; cbn.
  - destruct (clear_base_frame (base_unit_state g)
      (m <| active_generators := delete i (active_generators m) |>)) as (-> & -> & -> & ->). done.
  - apply lookup_ge_None in E. split; [|done].
    rewrite delete_take_drop, take_ge, drop_ge by lia. by rewrite app_nil_r.
Qed.

Lemma remove_core i m : core_inv m -> core_inv (fst (remove_generator_at i m)).
Proof.
  intros [Ho Hc Hs Hd]. destruct (remove_frame i m) as (Ea & Ed & _ & _). split.
  - rewrite Ea. by apply ordered_delete.
  - rewrite Ea. unfold remove_generator_at.
    destruct (active_generators m !! i) as [g|] eqn:E; cbn.
    + apply (clear_counts (m <| active_generators := delete i (active_generators m) |>) g). cbn.
      eapply counts_for_perm; [|exact Hc]. by apply delete_Permutation.
    + apply lookup_ge_None in E. rewrite delete_take_drop, take_ge, drop_ge by lia.
      by rewrite app_nil_r.
  - rewrite Ea. by apply Forall_delete.
  - by rewrite Ed.
Qed.

(** Replacing the top by a generator of the same rank, unit state and slot. *)
Definition same_role g g' : Prop :=
  kind g' = kind g /\ mode g' = mode g /\ priority g' = priority g /\
  base_unit_state g' = base_unit_state g /\ slot g' = slot g.

Lemma replace_top_core g g' rest m :
  active_generators m = g :: rest -> same_role g g' -> core_inv m ->
  core_inv (m <| active_generators := g' :: rest |>).
Proof.
  intros Ea (_ & Em & Ep & Eb & Es) [Ho Hc Hs Hd]. rewrite Ea in *. split; cbn; try done.
  - eapply ordered_head; [|exact Ho]. unfold rank. by rewrite Em, Ep.
  - intros s. rewrite Hc, !state_count_cons. by rewrite Eb.
  - apply Forall_cons in Hs as [? ?]. constructor; congruence.
Qed.

Lemma same_role_raise x g : same_role g (raise x g).
Proof. done. Qed.

Lemma make_room_core g m : core_inv m -> core_inv (make_room g m).
Proof.
  intros Hm. unfold make_room. destruct (active_generators m) as [|top rest] eqn:Ea; [done|].
  destruct (at_least _ _).
  - case_bool_decide; [by apply remove_core|].
    by apply (replace_top_core top).
  - destruct (MotionMaster.position _ _); [by apply remove_core|done].
Qed.

Lemma make_room_frame g m :
  default_generator (make_room g m) = default_generator m /\
  motion_flags (make_room g m) = motion_flags m /\
  delayed_actions (make_room g m) = delayed_actions m.
Proof.
  unfold make_room. destruct (active_generators m) as [|top rest]; [done|].
  destruct (at_least _ _); [case_bool_decide; [|done]|destruct (MotionMaster.position _ _); [|done]];
    match goal with |- context [remove_generator_at ?i m] =>
      destruct (remove_frame i m) as (_ & -> & -> & ->) end; done.
Qed.

(** ** Operations that keep the invariant and the queue *)
Definition flags_step m m' : Prop :=
  motion_flags m' = motion_flags m \/
  motion_flags m' = set_flag (motion_flags m) MOTIONMASTER_FLAG_STATIC_INITIALIZATION_PENDING.

Record op_ok m m' : Prop :=
  { ok_core : core_inv m -> core_inv m';
    ok_selected : selected m -> selected m';
    ok_queue : delayed_actions m' = delayed_actions m;
    ok_flags : flags_step m m' }.

Lemma set_flag_twice x f : set_flag (set_flag x f) f = set_flag x f.
Proof. unfold set_flag. by rewrite <- Z.lor_assoc, Z.lor_diag. Qed.

#[export] Instance op_ok_preorder : PreOrder op_ok.
Proof.
  split; [intros m; split; try done; by left|].
  intros a b c [A1 A2 A3 A4] [B1 B2 B3 B4]. split; [tauto|tauto|congruence|].
  unfold flags_step in *.
  destruct A4 as [E|E], B4 as [E'|E']; rewrite E', E, ?set_flag_twice; auto.
Qed.

Lemma refresh_ok m m' :
  (core_inv m -> core_inv m') -> delayed_actions m' = delayed_actions m -> flags_step m m' ->
  op_ok m (refresh_current m').
Proof.
  intros Hc Hq Hf. split; [|done|done|done].
  intros Hm. by destruct (Hc Hm); split.
Qed.

Lemma add_active_core g m :
  slot g = MovementSlot.Active -> core_inv m ->
  core_inv (sort_active_generators
              ((add_base_unit_state (base_unit_state g) m)
                 <| active_generators := active_generators m ++ [g] |>)).
Proof.
  intros Eg [Ho Hc Hs Hd]. destruct (add_base_frame (base_unit_state g) m) as (_ & Ed & _ & _).
  split; cbn; rewrite ?Ed; try done.
  - apply stable_sort_ordered.
  - eapply counts_for_perm; [|by apply add_counts]. rewrite stable_sort_perm.
    apply Permutation_cons_append.
  - rewrite stable_sort_perm. apply Forall_app. split; [done|by constructor].
Qed.

Lemma add_generator_ok g m : op_ok m (add_generator g m).
Proof.
  unfold add_generator. transitivity (refresh_current
    (match slot g with
     | MovementSlot.Default =>
         let m := m <| default_generator := g |> in
         if bool_decide (kind g = MovementGeneratorKind.Idle)
         then m <| motion_flags := set_flag (motion_flags m)
                     MOTIONMASTER_FLAG_STATIC_INITIALIZATION_PENDING |>
         else m
     | MovementSlot.Active =>
         let m := make_room g m in
         let m := add_base_unit_state (base_unit_state g) m in
         sort_active_generators (m <| active_generators := active_generators m ++ [g] |>)
     end)).
  2: { split; [by intros []; split|done|done|by left]. }
  destruct (slot g) eqn:Es; cbn zeta.
  - apply refresh_ok.
    + intros [Ho Hc Hs Hd]. by case_bool_decide; split.
    + by case_bool_decide.
    + case_bool_decide; [by right|by left].
  - destruct (make_room_frame g m) as (_ & Ef & Eq).
    destruct (add_base_frame (base_unit_state g) (make_room g m)) as (Ea & _ & Ef' & Eq').
    apply refresh_ok; cbn.
    + intros Hm. rewrite Ea. apply add_active_core; [done|]. by apply make_room_core.
    + congruence.
    + left. cbn. congruence.
Qed.

Lemma initialize_default_ok k m : op_ok m (initialize_default_generator_like_cpp k m).
Proof.
  unfold initialize_default_generator_like_cpp.
  assert (Es : slot (default_ref k) = MovementSlot.Default) by (by destruct k).
  unfold no_active, selected, current_movement_generator. cbn.
  destruct (active_generators m) as [|g l] eqn:Ea; (split; cbn; [|rewrite ?Ea|done|by left]).
  - intros [Ho Hc Hs Hd]. by split; cbn.
  - unfold selected, current_movement_generator. cbn. by rewrite Ea.
  - intros [Ho Hc Hs Hd]. by split; cbn.
  - unfold selected, current_movement_generator. cbn. by rewrite Ea.
Qed.

Lemma move_idle_ok m : op_ok m (move_idle m).
Proof.
  unfold move_idle. pose proof (initialize_default_ok MovementGeneratorKind.Idle m) as H0.
  set (m1 := initialize_default_generator_like_cpp _ m) in *.
  assert (Ek : kind (default_generator m1) = MovementGeneratorKind.Idle)
    by (subst m1; unfold initialize_default_generator_like_cpp; by destruct (no_active _)).
  etransitivity; [exact H0|]. cbn. unfold no_active. cbn.
  destruct (active_generators m1) as [|g l] eqn:Ea;
    (split; [by intros []; split| |done|by right]).
  - intros _. unfold selected, current_movement_generator. cbn. rewrite Ea. cbn. congruence.
  - done.
Qed.

Lemma clear_active_ok m : op_ok m (fst (clear_active m)).
Proof.
  split; [|done|done|by left]. intros [Ho Hc Hs Hd]. split; cbn; try done.
  - apply SSorted_nil.
  - apply counts_for_nil.
Qed.

Lemma remove_kind_ok k s m : op_ok m (fst (remove_generator_kind k s m)).
Proof.
  unfold remove_generator_kind. destruct s.
  - case_bool_decide; cbn; [|by apply refresh_ok; [|done|left]].
    destruct (move_idle_ok m) as [H1 _ H3 H4]. by apply refresh_ok.
  - destruct (MotionMaster.position _ _) as [i|]; cbn; [|by apply refresh_ok; [|done|left]].
    pose proof (remove_core i m) as Hr. pose proof (remove_frame i m) as (_ & _ & Ef & Eq).
    destruct (remove_generator_at i m) as [m1 r]. cbn in *.
    apply refresh_ok; [done|done|by left].
Qed.

Lemma clear_slot_ok s m : op_ok m (fst (clear_slot s m)).
Proof. destruct s; [apply move_idle_ok|apply clear_active_ok]. Qed.

Lemma clear_where_frame n p i m :
  let m' := fst (clear_where n p i m) in
  (core_inv m -> core_inv m') /\ delayed_actions m' = delayed_actions m /\
  motion_flags m' = motion_flags m.
Proof.
  revert i m. induction n as [|n IH]; intros i m; cbn; [done|].
  destruct (active_generators m !! i) as [g|]; [|done].
  destruct (p g); [|apply IH].
  pose proof (remove_core i m) as Hr. pose proof (remove_frame i m) as (_ & _ & Ef & Eq).
  destruct (remove_generator_at i m) as [m1 r]. cbn in Hr, Ef, Eq.
  destruct (IH i m1) as (H1 & H2 & H3). destruct (clear_where n p i m1). cbn in *.
  split; [tauto|]. split; congruence.
Qed.

Lemma clear_by_priority_ok p m : op_ok m (fst (clear_by_priority p m)).
Proof.
  unfold clear_by_priority. set (q := fun g => _).
  destruct (clear_where_frame (length (active_generators m)) q 0 m) as (H1 & H2 & H3).
  destruct (clear_where _ q 0 m) as [m1 r]. apply refresh_ok; [done|done|by left].
Qed.

Lemma clear_by_mode_ok md m : op_ok m (fst (clear_by_mode md m)).
Proof.
  unfold clear_by_mode. set (q := fun g => _).
  destruct (clear_where_frame (length (active_generators m)) q 0 m) as (H1 & H2 & H3).
  destruct (clear_where _ q 0 m) as [m1 r]. apply refresh_ok; [done|done|by left].
Qed.

Lemma direct_initialize_ok m : op_ok m (direct_initialize_like_cpp m).
Proof.
  unfold direct_initialize_like_cpp. etransitivity; [apply clear_active_ok|].
  apply initialize_default_ok.
Qed.

Lemma apply_payload_ok p m : op_ok m (apply_delayed_action_payload_like_cpp p m).
Proof.
  destruct p; cbn [apply_delayed_action_payload_like_cpp].
  - apply clear_active_ok.
  - apply clear_slot_ok.
  - apply clear_by_mode_ok.
  - apply clear_by_priority_ok.
  - apply add_generator_ok.
  - apply remove_kind_ok.
  - apply remove_kind_ok.
  - apply direct_initialize_ok.
Qed.

(** ** Life-cycle calls keep a generator's role *)
#[export] Instance same_role_preorder : PreOrder same_role.
Proof. split; [done|]. unfold same_role. intros a b c ? ?. naive_solver congruence. Qed.

Ltac role_cases :=
  repeat match goal with
  | |- context [if ?b then _ else _] => destruct b
  | |- context [match duration_ms ?g with _ => _ end] => destruct (duration_ms g)
  end; try done.

Lemma initialize_role c g : same_role g (initialize_for_motion_master_update_like_cpp c g).
Proof.
  unfold initialize_for_motion_master_update_like_cpp. destruct (kind g) eqn:E; try done.
  - unfold initialize_point_like_cpp. role_cases.
  - unfold initialize_generic_like_cpp. role_cases.
Qed.

Lemma reset_role c g : same_role g (reset_for_motion_master_update_like_cpp c g).
Proof.
  unfold reset_for_motion_master_update_like_cpp.
  pose proof (initialize_role c g) as Hi. destruct (kind g) eqn:E; try exact Hi; try done.
  unfold reset_point_like_cpp, initialize_point_like_cpp. role_cases.
Qed.

Lemma update_role c g : same_role g (fst (update_for_motion_master_like_cpp c g)).
Proof.
  unfold update_for_motion_master_like_cpp. destruct (kind g) eqn:E; try done.
  - unfold update_point_like_cpp. role_cases.
  - unfold update_distract_like_cpp. role_cases.
  - unfold update_rotate_like_cpp. role_cases.
  - unfold update_generic_like_cpp. role_cases.
Qed.

Lemma initialize_or_reset_role c g :
  same_role g (initialize_or_reset_for_motion_master_update_like_cpp c g).
Proof.
  unfold initialize_or_reset_for_motion_master_update_like_cpp.
  destruct (ref_has_flag MOVEMENTGENERATOR_FLAG_INITIALIZATION_PENDING g);
    destruct (ref_has_flag MOVEMENTGENERATOR_FLAG_DEACTIVATED _);
    rewrite <- ?reset_role, <- ?initialize_role; done.
Qed.

(** ** Resolving the queue *)
Definition run_delayed m (a : MotionMasterDelayedAction) : t :=
  if validator_passed a then apply_delayed_action_payload_like_cpp (payload a) m else m.

Lemma run_delayed_ok a m : op_ok m (run_delayed m a).
Proof. unfold run_delayed. destruct (validator_passed a); [apply apply_payload_ok|done]. Qed.

Lemma remove_queue i q m :
  remove_generator_at i (m <| delayed_actions := q |>) =
  ((fst (remove_generator_at i m)) <| delayed_actions := q |>, snd (remove_generator_at i m)).
Proof.
  unfold remove_generator_at, clear_base_unit_state. cbn.
  destruct (active_generators m !! i); [|done]. cbn.
  destruct (_ =? 0); [done|]. destruct (base_unit_states m !! _); [|done].
  by destruct (sat_sub _ _ =? 0).
Qed.

Lemma clear_where_queue n p i q m :
  clear_where n p i (m <| delayed_actions := q |>) =
  ((fst (clear_where n p i m)) <| delayed_actions := q |>, snd (clear_where n p i m)).
Proof.
  revert i m. induction n as [|n IH]; intros i m; cbn; [done|].
  destruct (active_generators m !! i) as [g|]; [|done].
  destruct (p g); [|apply IH].
  rewrite remove_queue. destruct (remove_generator_at i m) as [m1 r]. cbn. rewrite IH.
  by destruct (clear_where n p i m1).
Qed.

Lemma move_idle_queue q m : move_idle (m <| delayed_actions := q |>) = (move_idle m) <| delayed_actions := q |>.
Proof.
  unfold move_idle, initialize_default_generator_like_cpp, no_active. cbn.
  destruct (active_generators m) eqn:E; cbn; by rewrite E.
Qed.

Lemma make_room_queue g q m :
  make_room g (m <| delayed_actions := q |>) = (make_room g m) <| delayed_actions := q |>.
Proof.
  unfold make_room. cbn. destruct (active_generators m); [done|].
  destruct (at_least _ _); [case_bool_decide; [|done]|destruct (MotionMaster.position _ _); [|done]];
    by rewrite remove_queue.
Qed.

Lemma add_generator_queue g q m :
  add_generator g (m <| delayed_actions := q |>) = (add_generator g m) <| delayed_actions := q |>.
Proof.
  unfold add_generator. destruct (slot g).
  - by case_bool_decide.
  - rewrite make_room_queue. cbn. unfold add_base_unit_state. by destruct (negb _).
Qed.

(** No payload reads the queue. *)
Lemma apply_payload_queue p q m :
  apply_delayed_action_payload_like_cpp p (m <| delayed_actions := q |>) =
  (apply_delayed_action_payload_like_cpp p m) <| delayed_actions := q |>.
Proof.
  assert (Hk : forall k s, fst (remove_generator_kind k s (m <| delayed_actions := q |>)) =
                 (fst (remove_generator_kind k s m)) <| delayed_actions := q |>).
  { intros k s. unfold remove_generator_kind. destruct s; cbn.
    - case_bool_decide; [|done]. by rewrite move_idle_queue.
    - destruct (MotionMaster.position _ _) as [i|]; [|done]. rewrite remove_queue.
      by destruct (remove_generator_at i m). }
  destruct p as [|s|md|pr|g|k s|k s|]; cbn [apply_delayed_action_payload_like_cpp]; auto.
  - destruct s; cbn; [by rewrite move_idle_queue|done].
  - unfold clear_by_mode. rewrite clear_where_queue. cbn. by destruct (clear_where _ _ 0 m).
  - unfold clear_by_priority. rewrite clear_where_queue. cbn. by destruct (clear_where _ _ 0 m).
  - apply add_generator_queue.
Qed.

Lemma resolve_loop_spec n m :
  (length (delayed_actions m) <= n)%nat ->
  resolve_loop n m = Some (foldl run_delayed (m <| delayed_actions := [] |>) (delayed_actions m),
                           resolved_of <$> delayed_actions m).
Proof.
  revert m. induction n as [|n IH]; intros m Hn; cbn [resolve_loop].
  - destruct (delayed_actions m) as [|a q] eqn:E; [|cbn in Hn; lia]. cbn. do 2 f_equal.
    destruct m; cbn in *. by rewrite E.
  - destruct (delayed_actions m) as [|a q] eqn:E.
    { cbn. do 2 f_equal. destruct m; cbn in *. by rewrite E. }
    set (m1 := if validator_passed a then _ else _).
    assert (E1 : m1 = (run_delayed (m <| delayed_actions := [] |>) a) <| delayed_actions := q |>).
    { subst m1. unfold run_delayed. destruct (validator_passed a); [|done].
      rewrite <- (apply_payload_queue (payload a) q (m <| delayed_actions := [] |>)). reflexivity. }
    rewrite IH by (rewrite E1; cbn in *; lia). rewrite E1. cbn. do 3 f_equal.
    assert (Eq : delayed_actions (run_delayed (m <| delayed_actions := [] |>) a) = [])
      by (by rewrite (ok_queue _ _ (run_delayed_ok a _))).
    by destruct (run_delayed (m <| delayed_actions := [] |>) a); cbn in *; subst.
Qed.

(** The queue is resolved in order, each action once. *)
Lemma resolve_payloads_spec m :
  resolve_delayed_action_payloads_like_cpp m =
  Some (foldl run_delayed (m <| delayed_actions := [] |>) (delayed_actions m),
        resolved_of <$> delayed_actions m).
Proof. by apply resolve_loop_spec. Qed.

Lemma foldl_run_ok q m : op_ok m (foldl run_delayed m q).
Proof.
  revert m. induction q as [|a q IH]; intros m; cbn; [done|].
  etransitivity; [apply run_delayed_ok|apply IH].
Qed.

(** ** Flags *)
Lemma op_ok_flag f m m' :
  Z.land MOTIONMASTER_FLAG_STATIC_INITIALIZATION_PENDING f = 0 -> op_ok m m' ->
  has_motion_master_flag f m' = has_motion_master_flag f m.
Proof.
  intros Hf [_ _ _ [E|E]]; unfold has_motion_master_flag; rewrite E; [done|].
  rewrite has_flag_set. unfold has_flag at 2. rewrite Hf. apply orb_false_r.
Qed.

Lemma op_ok_inv m m' : op_ok m m' -> motion_inv m -> motion_inv m'.
Proof.
  intros Hok [Hc Hs [H1 H2]]. split.
  - by apply (ok_core m).
  - by apply (ok_selected m).
  - split; by rewrite (op_ok_flag _ m).
Qed.

(** ** The frame update *)

(** The generator the frame drives, and whether it goes on. *)
Definition driven (c : MotionMasterUpdateContext) g : MovementGeneratorRef * bool :=
  update_for_motion_master_like_cpp c (initialize_or_reset_for_motion_master_update_like_cpp c g).

Lemma driven_role c g : same_role g (fst (driven c g)).
Proof. unfold driven. rewrite <- update_role. apply initialize_or_reset_role. Qed.

(** A frame up to the delayed actions, the flags apart. *)
Definition frame (c : MotionMasterUpdateContext) m : t * option MovementGeneratorRef :=
  let '(m, popped) :=
    match active_generators m with
    | [] =>
        let g := if has_motion_master_flag MOTIONMASTER_FLAG_STATIC_INITIALIZATION_PENDING m
                 then initialize_for_motion_master_update_like_cpp c (default_generator m)
                 else default_generator m in
        (m <| default_generator := fst (driven c g) |>, None)
    | top :: rest =>
        let m' := m <| active_generators := fst (driven c top) :: rest |> in
        if snd (driven c top) then (m', None) else remove_generator_at 0 m'
    end in
  (refresh_current m, popped).

Definition frame_flags (m : t) : Z :=
  match active_generators m with
  | [] => clear_flag (motion_flags m) MOTIONMASTER_FLAG_STATIC_INITIALIZATION_PENDING
  | _ => motion_flags m
  end.

Lemma remove_flags i f m :
  remove_generator_at i (m <| motion_flags := f |>) =
  ((fst (remove_generator_at i m)) <| motion_flags := f |>, snd (remove_generator_at i m)).
Proof.
  unfold remove_generator_at, clear_base_unit_state. cbn.
  destruct (active_generators m !! i); [|done]. cbn.
  destruct (_ =? 0); [done|]. destruct (base_unit_states m !! _); [|done].
  by destruct (sat_sub _ _ =? 0).
Qed.

#[local] Arguments resolve_delayed_action_payloads_like_cpp : simpl never.
#[local] Arguments remove_generator_at : simpl never.

Definition stalled m : bool :=
  has_motion_master_flag (Z.lor MOTIONMASTER_FLAG_INITIALIZATION_PENDING
                            MOTIONMASTER_FLAG_INITIALIZING) m.

Lemma frame_queue c m : delayed_actions (fst (frame c m)) = delayed_actions m.
Proof.
  unfold frame. destruct (active_generators m) as [|top rest]; [done|].
  destruct (snd (driven c top)); [done|].
  set (m' := m <| active_generators := _ |>).
  destruct (remove_frame 0 m') as (_ & _ & _ & Eq). by destruct (remove_generator_at 0 m').
Qed.

(** The whole update: stalled and empty masters are left alone; otherwise the
    frame is played, then the queue in order. *)
Lemma update_eq c m :
  at_rest m ->
  update_motion_master_like_cpp c m =
  Some (if stalled m then (m, Stalled)
        else if is_empty m then (m, Empty)
        else
          let '(m', popped) := frame c m in
          (foldl run_delayed (m' <| motion_flags := frame_flags m |> <| delayed_actions := [] |>)
             (delayed_actions m),
           Updated popped (resolved_of <$> delayed_actions m))).
Proof.
  intros [HU HI]. unfold has_motion_master_flag in HU.
  unfold update_motion_master_like_cpp. fold (stalled m).
  destruct (stalled m); [done|]. destruct (is_empty m); [done|]. cbn zeta.
  pose proof (frame_queue c m) as Hq. unfold frame, frame_flags in *.
  set (f1 := set_flag (motion_flags m) MOTIONMASTER_FLAG_UPDATE).
  assert (E1 : clear_flag f1 MOTIONMASTER_FLAG_UPDATE = motion_flags m)
    by (by apply clear_set_flag).
  assert (ES : has_flag f1 MOTIONMASTER_FLAG_STATIC_INITIALIZATION_PENDING =
               has_flag (motion_flags m) MOTIONMASTER_FLAG_STATIC_INITIALIZATION_PENDING).
  { unfold f1. rewrite has_flag_set. apply orb_false_r. }
  change (has_motion_master_flag ?f (m <| motion_flags := f1 |>)) with (has_flag f1 f). rewrite ES.
  unfold current_slot, no_active, has_motion_master_flag. cbn.
  destruct (active_generators m) as [|top rest] eqn:Ea; cbn.
  - rewrite bool_decide_true, andb_true_r by done.
    destruct (has_flag (motion_flags m) MOTIONMASTER_FLAG_STATIC_INITIALIZATION_PENDING) eqn:EF;
      cbn; rewrite Ea; cbn; fold (driven c); unfold driven;
      destruct (update_for_motion_master_like_cpp c _) as [g keep]; cbn;
      rewrite Ea, andb_false_r; cbn; rewrite resolve_payloads_spec; cbn.
    + by rewrite clear_flag_comm, E1.
    + by rewrite E1, clear_flag_id.
  - rewrite bool_decide_false, andb_false_r by done. cbn. rewrite Ea. unfold driven in *.
    destruct (update_for_motion_master_like_cpp c _) as [g keep]. cbn in *.
    destruct keep; cbn in *.
    { rewrite resolve_payloads_spec. cbn. by rewrite E1. }
    set (m1 := m <| active_generators := g :: rest |>) in *.
    change (m <| motion_flags := f1 |> <| active_generators := g :: rest |>)
      with (m1 <| motion_flags := f1 |>). rewrite remove_flags.
    destruct (remove_generator_at 0 m1) as [m2 r]. cbn in *.
    rewrite resolve_payloads_spec. cbn. by rewrite E1, Hq.
Qed.

Lemma frame_inv c m :
  motion_inv m -> motion_inv ((fst (frame c m)) <| motion_flags := frame_flags m |>).
Proof.
  intros [Hc Hs [HU HI]]. unfold frame, frame_flags. pose proof Hc as [Ho Hn Hsl Hd].
  destruct (active_generators m) as [|top rest] eqn:Ea.
  - set (g := if has_motion_master_flag _ m then _ else _).
    assert (Hg : slot (fst (driven c g)) = MovementSlot.Default).
    { destruct (driven_role c g) as (_ & _ & _ & _ & ->). subst g.
      destruct (has_motion_master_flag MOTIONMASTER_FLAG_STATIC_INITIALIZATION_PENDING m);
        [|exact Hd].
      by destruct (initialize_role c (default_generator m)) as (_ & _ & _ & _ & ->). }
    split; [by split; cbn; rewrite ?Ea| |].
    + reflexivity.
    + split; unfold has_motion_master_flag; cbn; by rewrite has_flag_clear_other.
  - destruct (driven_role c top) as (_ & Hrole). pose proof (driven_role c top) as Hr.
    set (m1 := m <| active_generators := fst (driven c top) :: rest |>).
    assert (H1 : core_inv m1) by (by apply (replace_top_core top)).
    assert (Hfin : forall m', core_inv m' -> motion_inv
              ((refresh_current m') <| motion_flags := motion_flags m |>)).
    { intros m' [? ? ? ?]. split; [by split|done|done]. }
    destruct (snd (driven c top)); cbn; [by apply Hfin|].
    pose proof (remove_core 0 m1 H1) as H2. destruct (remove_generator_at 0 m1). by apply Hfin.
Qed.

(** ** Entering the world *)
Definition world_flags (m : t) : Z :=
  clear_flag (motion_flags m) MOTIONMASTER_FLAG_INITIALIZATION_PENDING.

(** The master [add_to_world_like_cpp] resolves its queue on. *)
Definition entering (m : t) : t :=
  direct_initialize_like_cpp
    (m <| motion_flags :=
       clear_flag (set_flag (motion_flags m) MOTIONMASTER_FLAG_INITIALIZING)
         MOTIONMASTER_FLAG_INITIALIZATION_PENDING |> <| delayed_actions := [] |>).

Lemma direct_initialize_queue q m :
  direct_initialize_like_cpp (m <| delayed_actions := q |>) =
  (direct_initialize_like_cpp m) <| delayed_actions := q |>.
Proof. reflexivity. Qed.

Definition entered (m : t) : t :=
  let m' := foldl run_delayed (entering m) (delayed_actions m) in
  refresh_current (m' <| motion_flags := clear_flag (motion_flags m')
                           MOTIONMASTER_FLAG_INITIALIZING |>).

Lemma add_to_world_eq m :
  has_motion_master_flag MOTIONMASTER_FLAG_INITIALIZATION_PENDING m = true ->
  add_to_world_like_cpp m =
  Some (entered m,
        mkAddToWorld true (Z.land (motion_flags m) MOTIONMASTER_FLAG_INITIALIZING =? 0) true
          (resolved_of <$> delayed_actions m) true (motion_flags m) (motion_flags (entered m))
          (current_generator (entered m))).
Proof.
  intros Hp. unfold add_to_world_like_cpp. rewrite Hp. cbn [negb]. cbn zeta.
  rewrite resolve_payloads_spec. cbn [mbind option_bind].
  set (m1 := foldl run_delayed _ _).
  assert (E : m1 = foldl run_delayed (entering m) (delayed_actions m)) by reflexivity.
  unfold entered. rewrite <- E. do 2 f_equal. unfold has_motion_master_flag. f_equal.
  change (motion_flags (refresh_current ?x)) with (motion_flags x). cbn [motion_flags].
  apply negb_true_iff, has_flag_clear_same.
Qed.

Lemma entered_ok m : op_ok (m <| delayed_actions := [] |>
    <| motion_flags := clear_flag (set_flag (motion_flags m) MOTIONMASTER_FLAG_INITIALIZING)
                         MOTIONMASTER_FLAG_INITIALIZATION_PENDING |>)
  (foldl run_delayed (entering m) (delayed_actions m)).
Proof.
  etransitivity; [|apply foldl_run_ok]. unfold entering.
  rewrite direct_initialize_queue.
  destruct (direct_initialize_ok (m <| motion_flags :=
       clear_flag (set_flag (motion_flags m) MOTIONMASTER_FLAG_INITIALIZING)
         MOTIONMASTER_FLAG_INITIALIZATION_PENDING |>)) as [H1 H2 H3 H4].
  split; [|exact H2|done|exact H4]. intros [Ho Hc Hs Hd].
  destruct H1 as [H5 H6 H7 H8]; by split.
Qed.

Lemma entered_inv m : motion_inv m -> motion_inv (entered m).
Proof.
  intros [Hc Hs [HU HI]]. unfold entered. set (m' := foldl run_delayed _ _).
  pose proof (entered_ok m) as Hok. fold m' in Hok.
  assert (Hc' : core_inv m').
  { apply (ok_core _ _ Hok). by destruct Hc as [? ? ? ?]; split. }
  split.
  - by destruct Hc' as [? ? ? ?]; split.
  - reflexivity.
  - pose proof (op_ok_flag MOTIONMASTER_FLAG_UPDATE _ _ eq_refl Hok) as E1.
    unfold at_rest, has_motion_master_flag in *. cbn in *. split.
    + rewrite has_flag_clear_other by done. rewrite E1, has_flag_clear_other by done.
      by rewrite has_flag_set, HU.
    + apply has_flag_clear_same.
Qed.

Lemma entered_not_pending m :
  has_motion_master_flag MOTIONMASTER_FLAG_INITIALIZATION_PENDING (entered m) = false.
Proof.
  unfold entered. pose proof (entered_ok m) as Hok. set (m' := foldl run_delayed _ _) in *.
  pose proof (op_ok_flag MOTIONMASTER_FLAG_INITIALIZATION_PENDING _ _ eq_refl Hok) as E1.
  unfold has_motion_master_flag in *. cbn in *. rewrite has_flag_clear_other by done.
  rewrite E1. apply has_flag_clear_same.
Qed.

(** ** Operations that do not touch the generators *)
Definition same_generators m m' : Prop :=
  default_generator m' = default_generator m /\ active_generators m' = active_generators m /\
  current_generator m' = current_generator m /\ base_unit_states m' = base_unit_states m /\
  motion_flags m' = motion_flags m.

Lemma same_generators_inv m m' : same_generators m m' -> motion_inv m -> motion_inv m'.
Proof.
  intros (E1 & E2 & E3 & E4 & E5) [[Ho Hc Hs Hd] Hsel Hr].
  unfold selected, current_movement_generator, at_rest, has_motion_master_flag in *.
  split; [split|..]; unfold selected, current_movement_generator, at_rest,
    has_motion_master_flag; rewrite ?E1, ?E2, ?E3, ?E4, ?E5; done.
Qed.

Lemma finalize_spline_same m : same_generators m (finalize_spline m).
Proof. done. Qed.

Lemma set_spline_progress_same p m : same_generators m (set_spline_progress p m).
Proof. unfold set_spline_progress. by destruct (_ && _). Qed.

Lemma update_spline_same d m : same_generators m (fst (update_spline d m)).
Proof.
  unfold update_spline. destruct (_ || _); [done|]. destruct (_ && _); [done|].
  apply set_spline_progress_same.
Qed.

Lemma stop_on_death_inv m : motion_inv m -> motion_inv (fst (stop_on_death m)).
Proof.
  intros Hm. unfold stop_on_death. destruct (match head _ with Some _ => _ | None => false end);
    [done|]. cbn. eapply same_generators_inv; [apply finalize_spline_same|].
  eapply same_generators_inv; [|].
  2: { eapply op_ok_inv; [|exact Hm]. etransitivity; [apply clear_active_ok|apply move_idle_ok]. }
  done.
Qed.

Lemma pause_role ms g : same_role g (pause_generator ms g).
Proof. unfold pause_generator. by destruct (0 <? ms). Qed.

Lemma pause_current_inv ms s forced m :
  motion_inv m -> motion_inv (fst (pause_current_movement_like_cpp ms s forced m)).
Proof.
  intros Hm. pose proof Hm as [Hc Hsel Hr]. pose proof Hc as [Ho Hn Hs Hd].
  assert (Hfin : forall m', motion_inv m' ->
            motion_inv (if forced && bool_decide (current_slot m' = s)
                        then stop_moving (m' <| paused := true |>) else m' <| paused := true |>)).
  { intros m' Hm'. destruct (forced && _); by apply (same_generators_inv m'). }
  unfold pause_current_movement_like_cpp. destruct s; cbn zeta.
  - apply (Hfin (m <| default_generator := pause_generator ms (default_generator m) |>)).
    destruct (pause_role ms (default_generator m)) as (Ek & _ & _ & _ & Es).
    split; [split; cbn; [done|done|done|congruence]|unfold selected, current_movement_generator in *|done].
    cbn. destruct (active_generators m); cbn in *; congruence.
  - destruct (active_generators m) as [|g rest] eqn:Ea; [done|].
    apply (Hfin (m <| active_generators := pause_generator ms g :: rest |>)).
    destruct (pause_role ms g) as (Ek & _).
    split; [by apply (replace_top_core g); [|apply pause_role|]| |done].
    unfold selected, current_movement_generator in *. rewrite Ea in Hsel. cbn in *. congruence.
Qed.
End Invariant.
