(* ===== verification/MotionTheorems.v ===== *)
(** The represented motion master as a transition system: one constructor per
    public operation of subsystem.rs, the states any sequence of them reaches,
    and the theorems on them. *)
From stdpp Require Import sorting.
From S2P Require Import Prelude Float32 Guid MotionGenerators MotionMaster MotionRefs MotionSubsystem MotionSubsystemTheorems.
Import MotionSubsystem.

Inductive MotionOp : Type :=
| OpPush (p : MotionMasterDelayedActionPayload) (passed : bool)
| OpPushType (ty : MotionMasterDelayedActionType.t) (passed : bool)
| OpDrain
| OpResolve
| OpUpdate (c : MotionMasterUpdateContext)
| OpAddToWorld
| OpAdd (g : MovementGeneratorRef)
| OpSetCurrent (k : MovementGeneratorKind.t)
| OpRemoveKind (k : MovementGeneratorKind.t) (s : MovementSlot.t)
| OpClearActive
| OpClearSlot (s : MovementSlot.t)
| OpClearPriority (p : MovementGeneratorPriority.t)
| OpClearMode (md : MovementGeneratorMode.t)
| OpDirectInitialize
| OpMoveIdle
| OpInitializeDefault (k : MovementGeneratorKind.t)
| OpMovePoint (id : Z)
| OpSeekAssistance
| OpSeekAssistanceDistract (timer_ms : Z)
| OpDistract (timer_ms : Z)
| OpRotate (id time_ms : Z) (direction : Rotate.RotateDirection)
| OpCharge (id : Z)
| OpFollow (target : ObjectGuid) (duration : option Z)
| OpChase (target : ObjectGuid)
| OpGeneric (k : MovementGeneratorKind.t) (id duration : Z) (spell : option (Z * ObjectGuid))
| OpLaunchMoveSpline (k : MovementGeneratorKind.t) (id : Z) (p : MovementGeneratorPriority.t)
    (duration : Z)
| OpJump (with_gravity : bool) (id duration : Z) (speed_xy : f32) (spell : option (Z * ObjectGuid))
| OpKnockback (is_player : bool) (duration : Z) (speed_xy : f32)
| OpFall (id duration : Z) (ground : bool) (delta : f32) (rooted is_player : bool)
| OpStopOnDeath
| OpPause
| OpResume
| OpPauseCurrent (timer_ms : Z) (s : MovementSlot.t) (forced : bool)
| OpStopMoving
| OpStartSpline (id duration : Z)
| OpLaunchSpline (id duration : Z) (destination : Z * Z * Z) (is_cyclic transport : bool)
    (speed : option Z)
| OpSetProgress (progress : Z)
| OpUpdateSpline (diff : Z)
| OpFinalizeSpline
| OpInterruptSpline.

(** [None] only where a loop would not end. *)
Definition run (op : MotionOp) (m : t) : option t :=
  match op with
  | OpPush p passed => Some (push_delayed_payload_with_validator_like_cpp p passed m)
  | OpPushType ty passed => Some (push_delayed_action_with_validator_like_cpp ty passed m)
  | OpDrain => Some (fst (resolve_delayed_actions_like_cpp m))
  | OpResolve => fst <$> resolve_delayed_action_payloads_like_cpp m
  | OpUpdate c => fst <$> update_motion_master_like_cpp c m
  | OpAddToWorld => add_to_world m
  | OpAdd g => Some (add_generator g m)
  | OpSetCurrent k => Some (set_current_generator k m)
  | OpRemoveKind k s => Some (fst (remove_generator_kind k s m))
  | OpClearActive => Some (fst (clear_active m))
  | OpClearSlot s => Some (fst (clear_slot s m))
  | OpClearPriority p => Some (fst (clear_by_priority p m))
  | OpClearMode md => Some (fst (clear_by_mode md m))
  | OpDirectInitialize => Some (direct_initialize_like_cpp m)
  | OpMoveIdle => Some (move_idle m)
  | OpInitializeDefault k => Some (initialize_default_generator_like_cpp k m)
  | OpMovePoint id => Some (move_point id m)
  | OpSeekAssistance => Some (fst (move_seek_assistance_like_cpp m))
  | OpSeekAssistanceDistract ms => Some (move_seek_assistance_distract_like_cpp ms m)
  | OpDistract ms => Some (move_distract_like_cpp ms m)
  | OpRotate id ms d => Some (fst (move_rotate_like_cpp id ms d m))
  | OpCharge id => Some (move_charge id m)
  | OpFollow target duration => Some (move_follow target duration m)
  | OpChase target => Some (move_chase_like_cpp target m)
  | OpGeneric k id duration spell => Some (launch_generic_movement k id duration spell m)
  | OpLaunchMoveSpline k id p duration => Some (fst (launch_move_spline_like_cpp k id p duration m))
  | OpJump false id duration speed spell => Some (fst (move_jump_like_cpp id duration speed spell m))
  | OpJump true id duration speed spell =>
      Some (fst (move_jump_with_gravity_like_cpp id duration speed spell m))
  | OpKnockback pl duration speed => Some (fst (move_knockback_from_like_cpp pl duration speed m))
  | OpFall id duration ground delta rooted pl =>
      Some (fst (move_fall_like_cpp id duration ground delta rooted pl m))
  | OpStopOnDeath => Some (fst (stop_on_death m))
  | OpPause => Some (pause_movement m)
  | OpResume => Some (resume_movement m)
  | OpPauseCurrent ms s forced => Some (fst (pause_current_movement_like_cpp ms s forced m))
  | OpStopMoving => Some (stop_moving m)
  | OpStartSpline id duration => Some (start_spline id duration m)
  | OpLaunchSpline id duration dest cy tr speed => Some (launch_spline id duration dest cy tr speed m)
  | OpSetProgress p => Some (set_spline_progress p m)
  | OpUpdateSpline d => Some (fst (update_spline d m))
  | OpFinalizeSpline => Some (finalize_spline m)
  | OpInterruptSpline => Some (interrupt_spline m)
  end.

(** The operations that do nothing but add one generator, or nothing at all. *)
Definition added_by (op : MotionOp) : option MovementGeneratorRef :=
  let pend := pending in
  let generic k id duration p base flags (spell : option (Z * ObjectGuid)) :=
    let g := with_duration_ms duration (with_movement_id id (with_base_unit_state base
               (with_flags flags (with_priority p (ref_new k MovementSlot.Active))))) in
    match spell with Some (s, target) => with_arrival_spell s target g | None => g end in
  let waiting := MOVEMENTGENERATOR_FLAG_INITIALIZATION_PENDING in
  let lasting := Z.lor waiting MOVEMENTGENERATOR_FLAG_PERSIST_ON_DEATH in
  match op with
  | OpAdd g => Some g
  | OpSetCurrent k => Some (ref_new k MovementSlot.Active)
  | OpMovePoint id => Some (with_movement_id id
      (pend MovementGeneratorKind.Point MovementGeneratorPriority.Normal UnitState.ROAMING))
  | OpSeekAssistance => Some (with_movement_id EVENT_ASSIST_MOVE
      (pend MovementGeneratorKind.Assistance MovementGeneratorPriority.Normal UnitState.ROAMING))
  | OpSeekAssistanceDistract ms => Some (with_duration_ms ms
      (pend MovementGeneratorKind.AssistanceDistract MovementGeneratorPriority.Normal
         UnitState.DISTRACTED))
  | OpDistract ms => Some (with_duration_ms ms
      (pend MovementGeneratorKind.Distract MovementGeneratorPriority.Highest UnitState.DISTRACTED))
  | OpRotate id ms d =>
      if ms =? 0 then None
      else Some (with_rotate_direction d (with_max_duration_ms ms (with_duration_ms ms
             (with_movement_id id (pend MovementGeneratorKind.Rotate
                MovementGeneratorPriority.Normal UnitState.ROTATING)))))
  | OpCharge id => Some (with_movement_id id
      (pend MovementGeneratorKind.Point MovementGeneratorPriority.Highest UnitState.CHARGING))
  | OpFollow target duration =>
      let g := with_target_guid target (with_priority MovementGeneratorPriority.Normal
                 (ref_new MovementGeneratorKind.Follow MovementSlot.Active)) in
      Some (match duration with Some d => with_duration_ms d g | None => g end)
  | OpChase target => Some (with_target_guid target
      (pend MovementGeneratorKind.Chase MovementGeneratorPriority.Normal UnitState.CHASE))
  | OpGeneric k id duration spell =>
      Some (generic k id duration MovementGeneratorPriority.Normal UnitState.ROAMING waiting spell)
  | OpLaunchMoveSpline k id p duration =>
      let code := MovementGeneratorKind.trinity_id k in
      if (code =? 3) || (19 <=? code) then None
      else Some (generic k id duration p UnitState.ROAMING waiting None)
  | OpJump gravity id duration speed spell =>
      if f32_lt speed f32_0_01 then None
      else Some (generic MovementGeneratorKind.Effect id duration MovementGeneratorPriority.Highest
                   UnitState.JUMPING (if gravity then lasting else waiting) spell)
  | OpKnockback pl duration speed =>
      if pl || f32_lt speed f32_0_01 then None
      else Some (generic MovementGeneratorKind.Effect 0 duration MovementGeneratorPriority.Highest 0
                   lasting None)
  | OpFall id duration ground delta rooted pl =>
      if negb ground || f32_lt (f32_abs delta) f32_0_1 || rooted then None
      else if pl then None
      else Some (generic MovementGeneratorKind.Effect id duration
                   MovementGeneratorPriority.Highest 0 waiting None)
  | _ => None
  end.

Definition is_movement (op : MotionOp) : bool :=
  match op with
  | OpAdd _ | OpSetCurrent _ | OpMovePoint _ | OpSeekAssistance | OpSeekAssistanceDistract _
  | OpDistract _ | OpRotate _ _ _ | OpCharge _ | OpFollow _ _ | OpChase _ | OpGeneric _ _ _ _
  | OpLaunchMoveSpline _ _ _ _ | OpJump _ _ _ _ _ | OpKnockback _ _ _ | OpFall _ _ _ _ _ _ => true
  | _ => false
  end.

(** Every way to start a movement adds the generator [added_by] names. *)
Lemma movement_adds op m :
  is_movement op = true ->
  run op m = Some (match added_by op with Some g => add_generator g m | None => m end).
Proof.
  destruct op as [| | | | | | |k| | | | | | | | |id| |ms|ms|id ms d|id|target du|target|k id du sp
    |k id p du|[] id du speed sp|pl du speed|id du ground delta rooted pl| | | | | | | | | | |];
    try done; intros _; cbn [run added_by];
    unfold move_rotate_like_cpp, launch_move_spline_like_cpp, move_jump_like_cpp,
      move_jump_with_gravity_like_cpp, move_knockback_from_like_cpp, move_fall_like_cpp;
    repeat match goal with |- context [if ?b then _ else _] => destruct b end; done.
Qed.

Inductive reachable : t -> Prop :=
| reachable_default : reachable motion_default
| reachable_run op m m' : reachable m -> run op m = Some m' -> reachable m'.

Lemma update_step c m :
  motion_inv m -> exists m' o, update_motion_master_like_cpp c m = Some (m', o) /\ motion_inv m'.
Proof.
  intros Hm. rewrite update_eq by apply Hm.
  destruct (stalled m); [by eauto|]. destruct (is_empty m); [by eauto|].
  pose proof (frame_inv c m Hm) as Hf. destruct (frame c m) as [m1 popped]. cbn in Hf.
  do 2 eexists. split; [done|]. eapply op_ok_inv; [apply foldl_run_ok|].
  by eapply same_generators_inv; [|exact Hf].
Qed.

(** Every operation ends and keeps the invariant. *)
Lemma run_inv op m : motion_inv m -> exists m', run op m = Some m' /\ motion_inv m'.
Proof.
  intros Hm. destruct (is_movement op) eqn:E.
  { rewrite movement_adds by done. eexists. split; [done|].
    destruct (added_by op); [|done]. eapply op_ok_inv; [apply add_generator_ok|done]. }
  pose proof (op_ok_inv m) as Hok. pose proof (same_generators_inv m) as Hsame.
  destruct op; try discriminate E; cbn [run]; try (eexists; split; [done|]).
  - by apply Hsame.
  - by apply Hsame.
  - by apply Hsame.
  - rewrite resolve_payloads_spec. eexists. split; [done|]. cbn.
    eapply op_ok_inv; [apply foldl_run_ok|]. by apply Hsame.
  - destruct (update_step c m Hm) as (m' & o & -> & H'). eauto.
  - unfold add_to_world. destruct (has_motion_master_flag MOTIONMASTER_FLAG_INITIALIZATION_PENDING m)
      eqn:Ep.
    + rewrite add_to_world_eq by done. eexists. split; [done|]. by apply entered_inv.
    + unfold add_to_world_like_cpp. rewrite Ep. eexists. by split.
  - apply Hok; [apply remove_kind_ok|done].
  - apply Hok; [apply clear_active_ok|done].
  - apply Hok; [apply clear_slot_ok|done].
  - apply Hok; [apply clear_by_priority_ok|done].
  - apply Hok; [apply clear_by_mode_ok|done].
  - apply Hok; [apply direct_initialize_ok|done].
  - apply Hok; [apply move_idle_ok|done].
  - apply Hok; [apply initialize_default_ok|done].
  - by apply stop_on_death_inv.
  - by apply Hsame.
  - by apply Hsame.
  - by apply pause_current_inv.
  - by apply Hsame.
  - by apply Hsame.
  - by apply Hsame.
  - apply Hsame; [apply set_spline_progress_same|done].
  - apply Hsame; [apply update_spline_same|done].
  - by apply Hsame.
  - by apply Hsame.
Qed.

Lemma motion_reachable_inv m : reachable m -> motion_inv m.
Proof.
  induction 1 as [|op m m' _ IH E]; [apply motion_default_inv|].
  destruct (run_inv op m IH) as (m1 & E1 & H1). congruence.
Qed.

(** C22: In every reachable state the active generators are in order (mode
    first, then priority), the unit states counted are exactly those of the
    active generators, with their number, and the kind recorded as current is
    that of the generator on top, the default one when none is active; and
    every operation, from such a state, completes. *)
Theorem motion_state_exact m :
  reachable m ->
  ordered (active_generators m) /\
  (forall s, base_unit_states m !! s =
     if (s =? 0) || (state_count s (active_generators m) =? 0) then None
     else Some (state_count s (active_generators m))) /\
  current_generator m = kind (current_movement_generator m) /\
  (forall op, exists m', run op m = Some m').
Proof.
  intros Hm. apply motion_reachable_inv in Hm. pose proof Hm as [[Ho Hc Hs Hd] Hsel Hr].
  repeat split; try done. intros op. destruct (run_inv op m Hm) as (m' & E & _). eauto.
Qed.

Definition demo_ops : list MotionOp :=
  [OpPush (PayloadAdd (pending MovementGeneratorKind.Point MovementGeneratorPriority.Normal
             UnitState.ROAMING)) true;
   OpPush PayloadClear false; OpAddToWorld; OpDistract 500; OpRotate 7 1000 Rotate.Left].

Fixpoint run_all (ops : list MotionOp) (m : t) : option t :=
  match ops with [] => Some m | op :: ops => m' ← run op m; run_all ops m' end.

Lemma run_all_reachable ops m m' : reachable m -> run_all ops m = Some m' -> reachable m'.
Proof.
  revert m. induction ops as [|op ops IH]; intros m Hm E; cbn in E; [by simplify_eq|].
  destruct (run op m) as [m1|] eqn:E1; [|done]. cbn in E.
  apply (IH m1); [by eapply reachable_run|done].
Qed.

Definition demo_motion : t := default motion_default (run_all demo_ops motion_default).

Lemma demo_motion_reachable : reachable demo_motion.
Proof.
  apply (run_all_reachable demo_ops motion_default); [constructor|]. by vm_compute.
Qed.

Lemma motion_state_exact_witness :
  reachable demo_motion /\
  kind <$> active_generators demo_motion =
    [MovementGeneratorKind.Distract; MovementGeneratorKind.Rotate] /\
  current_generator demo_motion = kind (current_movement_generator demo_motion).
Proof.
  split; [exact demo_motion_reachable|]. split; [by vm_compute|].
  exact (proj1 (proj2 (proj2 (motion_state_exact demo_motion demo_motion_reachable)))).
Defined.

(** A master waiting to enter the world starts once: its active generators
    are dropped, its default generator is made anew from its kind, the queued
    actions whose validators pass are applied in the order they were queued
    and reported, and nothing is pending or queued any more; entering again
    changes nothing. *)
Theorem add_to_world_starts m :
  reachable m ->
  has_motion_master_flag MOTIONMASTER_FLAG_INITIALIZATION_PENDING m = true ->
  exists m' outcome, add_to_world_like_cpp m = Some (m', outcome) /\
    m' = entered m /\
    added_resolved outcome = (resolved_of <$> delayed_actions m) /\
    active_generators (entering m) = [] /\
    default_generator (entering m) = default_ref (kind (default_generator m)) /\
    delayed_actions m' = [] /\ should_delay_motion_master_action_like_cpp m' = false /\
    exists again, add_to_world_like_cpp m' = Some (m', again) /\ added_resolved again = [].
Proof.
  intros Hm Hp. apply motion_reachable_inv in Hm. rewrite add_to_world_eq by done.
  do 2 eexists. split; [done|]. split; [done|]. split; [done|].
  assert (Hn := entered_not_pending m).
  assert (Hi : motion_inv (entered m)) by (by apply entered_inv).
  split; [done|]. split; [done|]. split.
  { exact (ok_queue _ _ (entered_ok m)). }
  split.
  { unfold should_delay_motion_master_action_like_cpp, has_motion_master_flag in *.
    destruct Hi as [_ _ [HU _]]. unfold has_motion_master_flag in HU.
    unfold MOTIONMASTER_FLAG_DELAYED. by rewrite has_flag_lor, HU, Hn. }
  unfold add_to_world_like_cpp. rewrite Hn. cbn. eexists. by split.
Qed.

Lemma add_to_world_starts_witness :
  exists m, reachable m /\ run_all (take 2 demo_ops) motion_default = Some m /\
    kind <$> active_generators (entered m) = [MovementGeneratorKind.Point] /\
    exists m' outcome, add_to_world_like_cpp m = Some (m', outcome) /\ m' = entered m /\
      added_resolved outcome = (resolved_of <$> delayed_actions m).
Proof.
  set (m := default motion_default (run_all (take 2 demo_ops) motion_default)).
  assert (Hr : reachable m).
  { apply (run_all_reachable (take 2 demo_ops) motion_default); [constructor|by vm_compute]. }
  exists m. split; [exact Hr|]. split; [by vm_compute|]. split; [by vm_compute|].
  destruct (add_to_world_starts m Hr eq_refl) as (m' & o & E & E1 & E2 & _).
  exists m', o. split; [exact E|]. split; [exact E1|exact E2].
Defined.

(** The frame update always completes.  A master that is pending or has no
    real generator is left alone.  Otherwise exactly the generator on top is
    initialized, reset or updated; it is popped, with the unit state it held,
    exactly when it is active and has finished; then the queued actions are
    applied in order and reported, and the queue is empty. *)
Theorem update_frame c m :
  reachable m ->
  exists m' outcome, update_motion_master_like_cpp c m = Some (m', outcome) /\
  match outcome with
  | Stalled => stalled m = true /\ m' = m
  | Empty => is_empty m = true /\ m' = m
  | Updated popped resolved =>
      delayed_actions m' = [] /\ resolved = (resolved_of <$> delayed_actions m) /\
      (exists m1, op_ok m1 m' /\ m' = foldl run_delayed m1 (delayed_actions m) /\
        match active_generators m with
        | [] => popped = None /\ active_generators m1 = [] /\
                base_unit_states m1 = base_unit_states m
        | top :: rest =>
            let '(g, keep_running) := driven c top in
            default_generator m1 = default_generator m /\
            (if keep_running then popped = None /\ active_generators m1 = g :: rest
             else popped = Some g /\ active_generators m1 = rest)
        end)
  end.
Proof.
  intros Hm. apply motion_reachable_inv in Hm. rewrite update_eq by apply Hm.
  destruct (stalled m) eqn:Est; [by exists m, Stalled|].
  destruct (is_empty m) eqn:Eem; [by exists m, Empty|].
  pose proof (frame_queue c m) as Hq. unfold frame in *.
  destruct (active_generators m) as [|top rest] eqn:Ea.
  - do 2 eexists. split; [done|]. rewrite (ok_queue _ _ (foldl_run_ok _ _)).
    split; [done|]. split; [done|]. eexists. split; [apply foldl_run_ok|]. split; [done|]. cbn.
    done.
  - destruct (driven c top) as [g keep]. cbn [fst snd] in *. destruct keep; cbn [fst] in Hq.
    + do 2 eexists. split; [done|]. rewrite (ok_queue _ _ (foldl_run_ok _ _)).
      split; [done|]. split; [done|]. eexists. split; [apply foldl_run_ok|]. done.
    + set (m0 := m <| active_generators := g :: rest |>) in *.
      pose proof (remove_frame 0 m0) as (Er & Ed & _ & _).
      assert (Es : snd (remove_generator_at 0 m0) = Some g) by done.
      destruct (remove_generator_at 0 m0) as [m1 r]. cbn [fst snd] in *. subst r.
      do 2 eexists. split; [done|]. rewrite (ok_queue _ _ (foldl_run_ok _ _)).
      split; [done|]. split; [done|]. eexists. split; [apply foldl_run_ok|]. done.
Qed.

Lemma update_frame_witness :
  reachable demo_motion /\
  exists m' outcome,
    update_motion_master_like_cpp (mkContext 501 true true true false false f32_zero) demo_motion =
      Some (m', outcome) /\
    kind <$> active_generators m' = [MovementGeneratorKind.Rotate].
Proof.
  split; [exact demo_motion_reachable|].
  destruct (update_frame (mkContext 501 true true true false false f32_zero) demo_motion
              demo_motion_reachable) as (m' & o & E & _).
  exists m', o. split; [exact E|]. vm_compute in E. injection E as <- _. reflexivity.
Defined.

(** * Timed generators *)

(** Consecutive frames on one generator, until it finishes. *)
Fixpoint drive_all (cs : list MotionMasterUpdateContext) (g : MovementGeneratorRef) :
    MovementGeneratorRef * bool :=
  match cs with
  | [] => (g, true)
  | c :: cs => let '(g, keep) := driven c g in if keep then drive_all cs g else (g, false)
  end.

Fixpoint total_ms (cs : list MotionMasterUpdateContext) : Z :=
  match cs with [] => 0 | c :: cs => diff_ms c + total_ms cs end.

Definition frames_ok (cs : list MotionMasterUpdateContext) : Prop :=
  Forall (fun c => owner_exists c = true /\ 0 <= diff_ms c) cs.

Lemma total_ms_nonneg cs : frames_ok cs -> 0 <= total_ms cs.
Proof. induction 1 as [|c cs [_ Hc] _ IH]; cbn; [done|lia]. Qed.

(** Initializing and resetting a timed generator leaves its time alone. *)
Lemma ready_timer c g :
  kind g = MovementGeneratorKind.Distract \/ kind g = MovementGeneratorKind.Rotate ->
  let g' := initialize_or_reset_for_motion_master_update_like_cpp c g in
  kind g' = kind g /\ duration_ms g' = duration_ms g.
Proof.
  intros Hk. unfold initialize_or_reset_for_motion_master_update_like_cpp,
    reset_for_motion_master_update_like_cpp, initialize_for_motion_master_update_like_cpp.
  destruct Hk as [Ek|Ek]; rewrite !Ek;
    destruct (ref_has_flag MOVEMENTGENERATOR_FLAG_INITIALIZATION_PENDING g);
    destruct (ref_has_flag MOVEMENTGENERATOR_FLAG_DEACTIVATED _); cbn; rewrite ?Ek; done.
Qed.

Lemma driven_distract c g d :
  kind g = MovementGeneratorKind.Distract -> duration_ms g = Some d -> owner_exists c = true ->
  snd (driven c g) = negb (d <? diff_ms c) /\
  (d <? diff_ms c = false -> kind (fst (driven c g)) = MovementGeneratorKind.Distract /\
                             duration_ms (fst (driven c g)) = Some (d - diff_ms c)).
Proof.
  intros Ek Ed Eo. destruct (ready_timer c g) as [Ek' Ed']; [by left|].
  unfold driven, update_for_motion_master_like_cpp. rewrite Ek', Ek.
  unfold update_distract_like_cpp. rewrite Eo, Ed', Ed. cbn.
  destruct (d <? diff_ms c); cbn; [done|]. by rewrite Ek', Ek.
Qed.

Lemma driven_rotate c g d :
  kind g = MovementGeneratorKind.Rotate -> duration_ms g = Some d -> owner_exists c = true ->
  snd (driven c g) = (diff_ms c <? d) /\
  (diff_ms c <? d = true -> kind (fst (driven c g)) = MovementGeneratorKind.Rotate /\
                            duration_ms (fst (driven c g)) = Some (d - diff_ms c)).
Proof.
  intros Ek Ed Eo. destruct (ready_timer c g) as [Ek' Ed']; [by right|].
  unfold driven, update_for_motion_master_like_cpp. rewrite Ek', Ek.
  unfold update_rotate_like_cpp. rewrite Eo, Ed', Ed. cbn.
  destruct (diff_ms c <? d); cbn; [by rewrite Ek', Ek|done].
Qed.

(** Timed generators end, and exactly when their time is used up: over
    frames of any lengths a distraction of [d] ms goes on while the frames add
    up to at most [d], a rotation of [d] ms while they add up to less. *)
Theorem timed_generators_end cs g d :
  frames_ok cs -> duration_ms g = Some d -> 0 <= d ->
  (kind g = MovementGeneratorKind.Distract -> snd (drive_all cs g) = (total_ms cs <=? d)) /\
  (kind g = MovementGeneratorKind.Rotate -> cs <> [] -> snd (drive_all cs g) = (total_ms cs <? d)).
Proof.
  intros Hcs Ed Hd. split.
  - intros Ek. revert g d Ek Ed Hd. induction Hcs as [|c cs [Eo Hc] Hcs IH]; intros g d Ek Ed Hd.
    { cbn. by destruct (Z.leb_spec 0 d); [|lia]. }
    pose proof (total_ms_nonneg cs Hcs).
    destruct (driven_distract c g d Ek Ed Eo) as [Es Hk]. cbn.
    destruct (driven c g) as [g' keep]. cbn in Es, Hk. subst keep.
    destruct (Z.ltb_spec d (diff_ms c)); cbn.
    + by destruct (Z.leb_spec (diff_ms c + total_ms cs) d); [lia|].
    + destruct Hk as [Ek' Ed']; [done|]. rewrite (IH g' (d - diff_ms c)) by (done || lia).
      destruct (Z.leb_spec (total_ms cs) (d - diff_ms c)), (Z.leb_spec (diff_ms c + total_ms cs) d);
        lia || done.
  - intros Ek. revert g d Ek Ed Hd. induction Hcs as [|c cs [Eo Hc] Hcs IH]; intros g d Ek Ed Hd Hne;
      [done|]. pose proof (total_ms_nonneg cs Hcs).
    destruct (driven_rotate c g d Ek Ed Eo) as [Es Hk]. cbn.
    destruct (driven c g) as [g' keep]. cbn in Es, Hk. subst keep.
    destruct (Z.ltb_spec (diff_ms c) d); cbn.
    + destruct Hk as [Ek' Ed']; [done|]. destruct cs as [|c' cs'].
      { cbn. by destruct (Z.ltb_spec (diff_ms c + 0) d); [|lia]. }
      rewrite (IH g' (d - diff_ms c)) by (done || lia).
      destruct (Z.ltb_spec (total_ms (c' :: cs')) (d - diff_ms c)),
        (Z.ltb_spec (diff_ms c + total_ms (c' :: cs')) d); lia || done.
    + by destruct (Z.ltb_spec (diff_ms c + total_ms cs) d); [lia|].
Qed.

Definition frame_of (ms : Z) : MotionMasterUpdateContext :=
  mkContext ms true true true false false f32_zero.

Lemma timed_generators_end_witness :
  let g := with_duration_ms 100 (pending MovementGeneratorKind.Distract
             MovementGeneratorPriority.Highest UnitState.DISTRACTED) in
  snd (drive_all [frame_of 60; frame_of 40] g) = true /\
  snd (drive_all [frame_of 60; frame_of 41] g) = false.
Proof.
  set (g := with_duration_ms 100 _).
  assert (Hf : forall a b, 0 <= a -> 0 <= b -> frames_ok [frame_of a; frame_of b])
    by (intros; by repeat constructor).
  split.
  - refine (eq_trans (proj1 (timed_generators_end [frame_of 60; frame_of 40] g 100 _ _ _) _) _);
      [by apply Hf|reflexivity|done|reflexivity|reflexivity].
  - refine (eq_trans (proj1 (timed_generators_end [frame_of 60; frame_of 41] g 100 _ _ _) _) _);
      [by apply Hf|reflexivity|done|reflexivity|reflexivity].
Defined.

(** * Machine widths *)
Definition kind_typed (k : MovementGeneratorKind.t) : Prop :=
  match k with MovementGeneratorKind.Custom value => in_u 32 value | _ => True end.

Definition opt_u32 (o : option Z) : Prop := match o with Some z => in_u 32 z | None => True end.

Record ref_typed (g : MovementGeneratorRef) : Prop :=
  { typed_kind : kind_typed (kind g); typed_flags : in_u 16 (flags g);
    typed_base : in_u 32 (base_unit_state g); typed_movement : in_u 32 (movement_id g);
    typed_duration : opt_u32 (duration_ms g); typed_max : opt_u32 (max_duration_ms g);
    typed_elapsed : in_u 32 (elapsed_ms g); typed_spell : in_u 32 (arrival_spell_id g) }.

Definition payload_typed (p : MotionMasterDelayedActionPayload) : Prop :=
  match p with PayloadAdd g => ref_typed g | _ => True end.

(** Coordinates are [i32]. *)
Definition opt_point (o : option (Z * Z * Z)) : Prop :=
  match o with Some (x, y, z) => in_s 32 x /\ in_s 32 y /\ in_s 32 z | None => True end.

Record spline_typed (s : MoveSplineState) : Prop :=
  { typed_spline_id : in_u 32 (spline_id s); typed_progress : in_u 32 (progress_ms s);
    typed_spline_duration : in_u 32 (spline_duration_ms s); typed_velocity : opt_u32 (velocity s);
    typed_final : opt_point (final_destination s); typed_current : opt_point (current_destination s) }.

Record motion_typed (m : t) : Prop :=
  { typed_default : ref_typed (default_generator m);
    typed_active : Forall ref_typed (active_generators m);
    typed_motion_flags : in_u 8 (motion_flags m);
    typed_queue : Forall (fun a => payload_typed (payload a)) (delayed_actions m);
    typed_spline : spline_typed (spline m) }.

(** The arguments of an operation have their types. *)
Definition op_typed (op : MotionOp) : Prop :=
  match op with
  | OpPush p _ => payload_typed p
  | OpUpdate c => in_u 32 (diff_ms c)
  | OpAdd g => ref_typed g
  | OpSetCurrent k | OpInitializeDefault k => kind_typed k
  | OpMovePoint id | OpCharge id => in_u 32 id
  | OpSeekAssistanceDistract ms | OpDistract ms => in_u 32 ms
  | OpRotate id ms _ => in_u 32 id /\ in_u 32 ms
  | OpFollow _ d => opt_u32 d
  | OpGeneric k id d spell => kind_typed k /\ in_u 32 id /\ in_u 32 d /\
      match spell with Some (s, _) => in_u 32 s | None => True end
  | OpLaunchMoveSpline k id _ d => kind_typed k /\ in_u 32 id /\ in_u 32 d
  | OpJump _ id d _ spell => in_u 32 id /\ in_u 32 d /\
      match spell with Some (s, _) => in_u 32 s | None => True end
  | OpKnockback _ d _ => in_u 32 d
  | OpFall id d _ _ _ _ => in_u 32 id /\ in_u 32 d
  | OpPauseCurrent ms _ _ => in_u 32 ms
  | OpStartSpline id d => in_u 32 id /\ in_u 32 d
  | OpLaunchSpline id d destination _ _ speed =>
      in_u 32 id /\ in_u 32 d /\ opt_point (Some destination) /\ opt_u32 speed
  | OpSetProgress p => in_u 32 p
  | OpUpdateSpline d => in_u 32 d
  | _ => True
  end.

Create HintDb motion_typed.

Lemma const_typed w x : bool_decide (in_u w x) = true -> in_u w x.
Proof. apply bool_decide_eq_true. Qed.

Ltac const := apply const_typed; vm_compute; reflexivity.

Lemma ref_typed_flags f g : in_u 16 f -> ref_typed g -> ref_typed (g <| flags := f |>).
Proof. by intros Hf []; split. Qed.

Lemma raise_typed x g : in_u 16 x -> ref_typed g -> ref_typed (raise x g).
Proof. intros Hx Hg. apply ref_typed_flags; [|done]. apply in_u_lor; [lia|apply Hg|done]. Qed.

Lemma lower_typed x g : ref_typed g -> ref_typed (lower x g).
Proof. intros Hg. apply ref_typed_flags; [|done]. apply in_u_ldiff; [lia|apply Hg]. Qed.

Lemma duration_typed o g : opt_u32 o -> ref_typed g -> ref_typed (g <| duration_ms := o |>).
Proof. by intros Hf []; split. Qed.

Lemma elapsed_typed z g : in_u 32 z -> ref_typed g -> ref_typed (g <| elapsed_ms := z |>).
Proof. by intros Hf []; split. Qed.

#[local] Hint Resolve raise_typed lower_typed duration_typed elapsed_typed : motion_typed.
#[local] Hint Extern 1 (in_u _ _) => const : motion_typed.

Ltac typed_cases :=
  repeat match goal with |- context [if ?b then _ else _] => destruct b end;
  cbn [fst snd]; auto 8 with motion_typed.

Lemma initialize_typed c g :
  ref_typed g -> ref_typed (initialize_for_motion_master_update_like_cpp c g).
Proof.
  intros Hg. unfold initialize_for_motion_master_update_like_cpp.
  destruct (kind g); cbn [fst]; auto with motion_typed.
  - unfold initialize_point_like_cpp. typed_cases.
  - unfold initialize_distract_like_cpp. typed_cases.
  - unfold initialize_rotate_like_cpp. typed_cases.
  - unfold initialize_generic_like_cpp. typed_cases.
Qed.

Lemma reset_typed c g : ref_typed g -> ref_typed (reset_for_motion_master_update_like_cpp c g).
Proof.
  intros Hg. pose proof (initialize_typed c g Hg) as Hi.
  unfold reset_for_motion_master_update_like_cpp. destruct (kind g); try exact Hi.
  - unfold reset_point_like_cpp, initialize_point_like_cpp. typed_cases.
  - unfold reset_distract_like_cpp, initialize_distract_like_cpp. typed_cases.
  - unfold reset_rotate_like_cpp, initialize_rotate_like_cpp. typed_cases.
Qed.

Lemma opt_u32_default o : opt_u32 o -> in_u 32 (default 0 o).
Proof. destruct o; [done|]. intros _. const. Qed.

Lemma update_typed c g :
  in_u 32 (diff_ms c) -> ref_typed g -> ref_typed (fst (update_for_motion_master_like_cpp c g)).
Proof.
  intros Hc Hg. pose proof (typed_duration g Hg) as Hd. apply opt_u32_default in Hd.
  pose proof (typed_elapsed g Hg) as He. unfold in_u in Hc, Hd, He.
  unfold update_for_motion_master_like_cpp. destruct (kind g); cbn [fst]; auto.
  - unfold update_point_like_cpp. typed_cases.
  - unfold update_distract_like_cpp. destruct (negb _); [done|].
    destruct (Z.ltb_spec (default 0 (duration_ms g)) (diff_ms c)); cbn [fst];
      auto with motion_typed. apply duration_typed; [|done]. cbn. unfold in_u. lia.
  - unfold update_rotate_like_cpp. destruct (negb _); [done|].
    destruct (Z.ltb_spec (diff_ms c) (default 0 (duration_ms g))); cbn [fst];
      auto with motion_typed. apply duration_typed; [|done]. cbn. unfold in_u. lia.
  - unfold update_generic_like_cpp. destruct (ref_has_flag _ g); [done|].
    assert (He' : ref_typed (g <| elapsed_ms := sat_add u32_max (elapsed_ms g) (diff_ms c) |>))
      by (apply elapsed_typed; [unfold in_u, sat_add, u32_max; lia|done]).
    destruct (spline_cyclic c); cbn [negb]; typed_cases.
Qed.

Lemma driven_typed c g : in_u 32 (diff_ms c) -> ref_typed g -> ref_typed (fst (driven c g)).
Proof.
  intros Hc Hg. unfold driven. apply update_typed; [done|].
  unfold initialize_or_reset_for_motion_master_update_like_cpp.
  destruct (ref_has_flag MOVEMENTGENERATOR_FLAG_INITIALIZATION_PENDING g);
    destruct (ref_has_flag MOVEMENTGENERATOR_FLAG_DEACTIVATED _);
    auto using initialize_typed, reset_typed.
Qed.

Lemma motion_flags_typed f m : in_u 8 f -> motion_typed m -> motion_typed (m <| motion_flags := f |>).
Proof. by intros Hf []; split. Qed.

Lemma set_motion_flag_typed f m :
  in_u 8 f -> motion_typed m -> motion_typed (m <| motion_flags := set_flag (motion_flags m) f |>).
Proof. intros Hf Hm. apply motion_flags_typed; [|done]. apply in_u_lor; [lia|apply Hm|done]. Qed.

Lemma clear_motion_flag_typed f m :
  motion_typed m -> motion_typed (m <| motion_flags := clear_flag (motion_flags m) f |>).
Proof. intros Hm. apply motion_flags_typed; [|done]. apply in_u_ldiff; [lia|apply Hm]. Qed.

Lemma active_typed l m :
  Forall ref_typed l -> motion_typed m -> motion_typed (m <| active_generators := l |>).
Proof. by intros Hl []; split. Qed.

Lemma default_typed g m :
  ref_typed g -> motion_typed m -> motion_typed (m <| default_generator := g |>).
Proof. by intros Hl []; split. Qed.

(** The fields that have no width of their own. *)
Lemma untyped_fields m m' :
  default_generator m' = default_generator m -> active_generators m' = active_generators m ->
  motion_flags m' = motion_flags m -> delayed_actions m' = delayed_actions m ->
  spline m' = spline m -> motion_typed m -> motion_typed m'.
Proof. intros E1 E2 E3 E4 E5 []. split; rewrite ?E1, ?E2, ?E3, ?E4, ?E5; done. Qed.

Lemma clear_base_typed b m : motion_typed m -> motion_typed (clear_base_unit_state b m).
Proof.
  intros Hm. unfold clear_base_unit_state. destruct (b =? 0); [done|].
  destruct (base_unit_states m !! b); [|done].
  destruct (sat_sub z 1 =? 0); by apply (untyped_fields m).
Qed.

Lemma remove_typed i m : motion_typed m -> motion_typed (fst (remove_generator_at i m)).
Proof.
  intros Hm. unfold remove_generator_at. destruct (active_generators m !! i); [|done].
  apply clear_base_typed, active_typed; [|done]. apply Forall_delete, Hm.
Qed.

Lemma make_room_typed g m : motion_typed m -> motion_typed (make_room g m).
Proof.
  intros Hm. pose proof (typed_active m Hm) as Ha. unfold make_room.
  destruct (active_generators m) as [|top rest]; [done|]. destruct (at_least _ _).
  - case_bool_decide; [by apply remove_typed|]. apply Forall_cons in Ha as [Ht Ha].
    apply active_typed; [|done]. constructor; [|done]. apply raise_typed; [const|done].
  - destruct (MotionMaster.position _ _); [by apply remove_typed|done].
Qed.

Lemma add_generator_typed g m : ref_typed g -> motion_typed m -> motion_typed (add_generator g m).
Proof.
  intros Hg Hm. unfold add_generator. destruct (slot g).
  - pose proof (default_typed g m Hg Hm) as Hd. case_bool_decide.
    + assert (Hc : in_u 8 MOTIONMASTER_FLAG_STATIC_INITIALIZATION_PENDING) by const.
      pose proof (set_motion_flag_typed _ _ Hc Hd) as Hf. by eapply untyped_fields; [..|exact Hf].
    + by eapply untyped_fields; [..|exact Hd].
  - pose proof (make_room_typed g m Hm) as Hr.
    set (m1 := add_base_unit_state _ (make_room g m)). assert (H1 : motion_typed m1).
    { subst m1. unfold add_base_unit_state. destruct (negb _); [|done].
      by eapply untyped_fields; [..|exact Hr]. }
    assert (H2 : motion_typed (m1 <| active_generators :=
                   stable_sort (active_generators m1 ++ [g]) |>)).
    { apply active_typed; [|done]. rewrite stable_sort_perm. apply Forall_app.
      split; [apply H1|by constructor]. }
    by eapply untyped_fields; [..|exact H2].
Qed.

Lemma ref_new_typed k s : kind_typed k -> ref_typed (ref_new k s).
Proof. intros Hk. split; try exact I; [done|const..]. Qed.

Lemma pending_typed k p base : kind_typed k -> in_u 32 base -> ref_typed (pending k p base).
Proof. intros Hk Hb. split; try exact I; try done; const. Qed.

Lemma initialize_default_typed k m :
  kind_typed k -> motion_typed m -> motion_typed (initialize_default_generator_like_cpp k m).
Proof.
  intros Hk Hm. assert (Hd : ref_typed (default_ref k)).
  { assert (Hn : ref_typed (ref_new k MovementSlot.Default)) by (by apply ref_new_typed).
    destruct Hn. destruct k; split; try done; const. }
  pose proof (default_typed _ m Hd Hm) as H1.
  unfold initialize_default_generator_like_cpp. destruct (no_active _); [|done].
  by eapply untyped_fields; [..|exact H1].
Qed.

Lemma move_idle_typed m : motion_typed m -> motion_typed (move_idle m).
Proof.
  intros Hm. unfold move_idle.
  pose proof (initialize_default_typed MovementGeneratorKind.Idle m I Hm) as H1.
  assert (Hc : in_u 8 MOTIONMASTER_FLAG_STATIC_INITIALIZATION_PENDING) by const.
  pose proof (set_motion_flag_typed _ _ Hc H1) as H2.
  destruct (no_active _); [|exact H2]. by eapply untyped_fields; [..|exact H2].
Qed.

Lemma clear_active_typed m : motion_typed m -> motion_typed (fst (clear_active m)).
Proof.
  intros Hm. assert (H1 : motion_typed (m <| active_generators := [] |>))
    by (apply active_typed; [constructor|done]).
  by eapply untyped_fields; [..|exact H1].
Qed.

Lemma clear_where_typed n p i m : motion_typed m -> motion_typed (fst (clear_where n p i m)).
Proof.
  revert i m. induction n as [|n IH]; intros i m Hm; [done|]. cbn [clear_where].
  destruct (active_generators m !! i); [|done]. destruct (p m0); [|by apply IH].
  pose proof (remove_typed i m Hm) as Hr. destruct (remove_generator_at i m) as [m1 r].
  specialize (IH i m1 Hr). by destruct (clear_where n p i m1).
Qed.

Lemma refresh_typed m : motion_typed m -> motion_typed (refresh_current m).
Proof. intros Hm. by eapply untyped_fields; [..|exact Hm]. Qed.

Lemma remove_kind_typed k s m : motion_typed m -> motion_typed (fst (remove_generator_kind k s m)).
Proof.
  intros Hm. unfold remove_generator_kind. destruct s.
  - case_bool_decide; apply refresh_typed; [by apply move_idle_typed|done].
  - destruct (MotionMaster.position _ _) as [i|]; [|by apply refresh_typed].
    pose proof (remove_typed i m Hm) as Hr. destruct (remove_generator_at i m).
    by apply refresh_typed.
Qed.

Lemma clear_by_typed p m :
  motion_typed m ->
  motion_typed (fst (let '(m, removed) := clear_where (length (active_generators m)) p 0 m in
                     (refresh_current m, removed))).
Proof.
  intros Hm. pose proof (clear_where_typed (length (active_generators m)) p 0 m Hm) as H1.
  destruct (clear_where _ p 0 m). by apply refresh_typed.
Qed.

Lemma clear_slot_typed s m : motion_typed m -> motion_typed (fst (clear_slot s m)).
Proof. destruct s; [apply move_idle_typed|apply clear_active_typed]. Qed.

Lemma direct_initialize_typed m : motion_typed m -> motion_typed (direct_initialize_like_cpp m).
Proof.
  intros Hm. apply initialize_default_typed; [apply Hm|by apply clear_active_typed].
Qed.

Lemma apply_payload_typed p m :
  payload_typed p -> motion_typed m ->
  motion_typed (apply_delayed_action_payload_like_cpp p m).
Proof.
  intros Hp Hm. destruct p; cbn [apply_delayed_action_payload_like_cpp].
  - by apply clear_active_typed.
  - by apply clear_slot_typed.
  - by apply clear_by_typed.
  - by apply clear_by_typed.
  - by apply add_generator_typed.
  - by apply remove_kind_typed.
  - by apply remove_kind_typed.
  - by apply direct_initialize_typed.
Qed.

Lemma queue_typed q m :
  Forall (fun a => payload_typed (payload a)) q -> motion_typed m ->
  motion_typed (m <| delayed_actions := q |>).
Proof. by intros Hq []; split. Qed.

Lemma foldl_run_typed q m :
  Forall (fun a => payload_typed (payload a)) q -> motion_typed m ->
  motion_typed (foldl run_delayed m q).
Proof.
  intros Hq. revert m. induction Hq as [|a q Ha _ IH]; intros m Hm; [done|]. cbn.
  apply IH. unfold run_delayed. destruct (validator_passed a); [|done].
  by apply apply_payload_typed.
Qed.

Lemma frame_typed c m :
  in_u 32 (diff_ms c) -> motion_typed m -> motion_typed (fst (frame c m)).
Proof.
  intros Hc Hm. pose proof (typed_active m Hm) as Ha. unfold frame.
  destruct (active_generators m) as [|top rest].
  - apply refresh_typed, default_typed; [|done]. apply driven_typed; [done|].
    destruct (has_motion_master_flag _ m); [apply initialize_typed|]; apply Hm.
  - apply Forall_cons in Ha as [Ht Ha].
    assert (H1 : motion_typed (m <| active_generators := fst (driven c top) :: rest |>))
      by (apply active_typed; [constructor; [by apply driven_typed|done]|done]).
    destruct (snd (driven c top)); [by apply refresh_typed|].
    pose proof (remove_typed 0 _ H1) as H2. destruct (remove_generator_at 0 _).
    by apply refresh_typed.
Qed.

Lemma set_spline_typed s m : spline_typed s -> motion_typed m -> motion_typed (m <| spline := s |>).
Proof. by intros Hs []; split. Qed.

Lemma progress_typed p s : in_u 32 p -> spline_typed s -> spline_typed (s <| progress_ms := p |>).
Proof. by intros Hp []; split. Qed.

Lemma finalize_spline_typed m : motion_typed m -> motion_typed (finalize_spline m).
Proof. intros Hm. apply set_spline_typed; [|done]. by destruct (typed_spline m Hm); split. Qed.

Lemma set_progress_typed p m :
  in_u 32 p -> motion_typed m -> motion_typed (set_spline_progress p m).
Proof.
  intros Hp Hm. pose proof (typed_spline m Hm) as Hs. pose proof (typed_spline_duration _ Hs) as Hd.
  assert (H1 : motion_typed (m <| spline := (spline m) <| progress_ms :=
                 Z.min p (spline_duration_ms (spline m)) |> |>)).
  { apply set_spline_typed; [|done]. apply progress_typed; [|done]. unfold in_u in *. lia. }
  unfold set_spline_progress. destruct (_ && _); [by apply finalize_spline_typed|done].
Qed.

Lemma update_spline_typed d m : in_u 32 d -> motion_typed m -> motion_typed (fst (update_spline d m)).
Proof.
  intros Hd Hm. pose proof (typed_spline m Hm) as Ht. pose proof (typed_progress _ Ht) as Hp.
  pose proof (typed_spline_duration _ Ht) as Hs. unfold update_spline.
  destruct (_ || _); [done|].
  assert (Hn : in_u 32 (sat_add u32_max (progress_ms (spline m)) d))
    by (unfold in_u, sat_add, u32_max in *; lia).
  destruct (cyclic (spline m)); cbn [andb]; [|by apply set_progress_typed].
  destruct (Z.ltb_spec 0 (spline_duration_ms (spline m))); [|by apply set_progress_typed].
  apply set_spline_typed; [|done]. apply progress_typed; [|done]. unfold in_u in *.
  pose proof (Z.mod_pos_bound (sat_add u32_max (progress_ms (spline m)) d)
                (spline_duration_ms (spline m))). lia.
Qed.

Lemma pause_typed ms g : in_u 32 ms -> ref_typed g -> ref_typed (pause_generator ms g).
Proof.
  intros Hms Hg. unfold pause_generator. destruct (0 <? ms).
  - apply elapsed_typed; [const|]. apply duration_typed; [done|].
    apply lower_typed, raise_typed; [const|done].
  - apply lower_typed, raise_typed; [const|done].
Qed.

Lemma pause_current_typed ms s forced m :
  in_u 32 ms -> motion_typed m ->
  motion_typed (fst (pause_current_movement_like_cpp ms s forced m)).
Proof.
  intros Hms Hm. pose proof (typed_active m Hm) as Ha.
  assert (Hfin : forall m', motion_typed m' ->
            motion_typed (if forced && bool_decide (current_slot m' = s)
                          then stop_moving (m' <| paused := true |>) else m' <| paused := true |>)).
  { intros m' Hm'. assert (motion_typed (m' <| paused := true |>))
      by (by eapply untyped_fields; [..|exact Hm']).
    destruct (forced && _); [|done]. apply finalize_spline_typed.
    by eapply untyped_fields; [..|exact Hm']. }
  unfold pause_current_movement_like_cpp. destruct s; cbn zeta.
  - apply (Hfin (m <| default_generator := pause_generator ms (default_generator m) |>)).
    apply default_typed; [|done]. apply pause_typed; [done|apply Hm].
  - destruct (active_generators m) as [|g rest]; [done|]. apply Forall_cons in Ha as [Hg Ha].
    apply (Hfin (m <| active_generators := pause_generator ms g :: rest |>)).
    apply active_typed; [|done]. constructor; [by apply pause_typed|done].
Qed.

Lemma stop_on_death_typed m : motion_typed m -> motion_typed (fst (stop_on_death m)).
Proof.
  intros Hm. unfold stop_on_death. destruct (match head _ with Some _ => _ | None => false end);
    [done|]. apply finalize_spline_typed.
  assert (H1 : motion_typed (move_idle (fst (clear_active m))))
    by (by apply move_idle_typed, clear_active_typed).
  by eapply untyped_fields; [..|exact H1].
Qed.

(** The generator a movement adds is typed. *)
Lemma added_typed op g : op_typed op -> added_by op = Some g -> ref_typed g.
Proof.
  destruct op; cbn [op_typed added_by]; intros Ho E; try discriminate E;
    repeat match type of E with
    | context [if ?b then _ else _] => destruct b
    | context [match ?o with Some _ => _ | None => _ end] => destruct o as [[]|] || destruct o
    end; simplify_eq; try exact Ho; destruct_and?; try by apply ref_new_typed.
  all: split; first [exact I|assumption|const].
Qed.

Lemma run_typed op m m' : motion_inv m -> op_typed op -> motion_typed m -> run op m = Some m' ->
  motion_typed m'.
Proof.
  intros Hi Ho Hm E. destruct (is_movement op) eqn:Em.
  { rewrite movement_adds in E by done. destruct (added_by op) as [g|] eqn:Eg; simplify_eq; [|done].
    apply add_generator_typed; [by eapply added_typed|done]. }
  destruct op; try discriminate Em; cbn [run] in E; simplify_eq; cbn [op_typed] in Ho.
  - apply queue_typed; [|done]. apply Forall_app. split; [apply Hm|by repeat constructor].
  - apply queue_typed; [|done]. apply Forall_app. split; [apply Hm|].
    repeat constructor. destruct ty; try exact I. by apply ref_new_typed.
  - by apply queue_typed.
  - rewrite resolve_payloads_spec in E. cbn in E. simplify_eq.
    apply foldl_run_typed; [apply Hm|by apply queue_typed].
  - rewrite update_eq in E by apply Hi. cbn in E.
    destruct (stalled m); [by simplify_eq|]. destruct (is_empty m); [by simplify_eq|].
    pose proof (frame_typed c m Ho Hm) as Hf. destruct (frame c m) as [m1 popped].
    simplify_eq. apply foldl_run_typed; [apply Hm|]. apply queue_typed; [done|].
    apply motion_flags_typed; [|done]. unfold frame_flags.
    destruct (active_generators m); [apply in_u_ldiff; [lia|]|]; apply Hm.
  - unfold add_to_world in E.
    destruct (has_motion_master_flag MOTIONMASTER_FLAG_INITIALIZATION_PENDING m) eqn:Ep.
    + rewrite add_to_world_eq in E by done. cbn in E. injection E as <-.
      apply refresh_typed, clear_motion_flag_typed, foldl_run_typed; [apply Hm|].
      apply direct_initialize_typed, queue_typed; [done|].
      apply motion_flags_typed; [|done]. apply in_u_ldiff; [lia|].
      apply in_u_lor; [lia|apply Hm|const].
    + unfold add_to_world_like_cpp in E. rewrite Ep in E. cbn in E. by injection E as <-.
  - by apply remove_kind_typed.
  - by apply clear_active_typed.
  - by apply clear_slot_typed.
  - by apply clear_by_typed.
  - by apply clear_by_typed.
  - by apply direct_initialize_typed.
  - by apply move_idle_typed.
  - by apply initialize_default_typed.
  - by apply stop_on_death_typed.
  - by apply (untyped_fields m).
  - by apply (untyped_fields m).
  - by apply pause_current_typed.
  - apply finalize_spline_typed. by apply (untyped_fields m).
  - destruct Ho as [Hid Hd]. assert (H1 : motion_typed (m <| spline :=
      mkSpline true false false false id 0 duration None None None |>))
      by (apply set_spline_typed; [split; try done; const|done]).
    by eapply untyped_fields; [..|exact H1].
  - destruct Ho as (Hid & Hd & Hdest & Hv). assert (H1 : motion_typed (m <| spline :=
      mkSpline true false is_cyclic transport id 0 duration speed (Some destination)
        (Some destination) |>)) by (apply set_spline_typed; [split; try done; const|done]).
    by eapply untyped_fields; [..|exact H1].
  - by apply set_progress_typed.
  - by apply update_spline_typed.
  - by apply finalize_spline_typed.
  - apply set_spline_typed; [|by apply finalize_spline_typed].
    by destruct (typed_spline m Hm); split.
Qed.

(** States reached by operations whose arguments have their types. *)
Inductive typed_reachable : t -> Prop :=
| typed_reachable_default : typed_reachable motion_default
| typed_reachable_run op m m' :
    typed_reachable m -> op_typed op -> run op m = Some m' -> typed_reachable m'.

Lemma current_generator_typed m : motion_inv m -> motion_typed m -> kind_typed (current_generator m).
Proof.
  intros Hi Hm. rewrite (inv_selected m Hi). unfold current_movement_generator.
  destruct (active_generators m) as [|g rest] eqn:E; cbn; [apply (typed_default m Hm)|].
  pose proof (typed_active m Hm) as Ha. rewrite E in Ha. apply Forall_cons in Ha as [Hg _]. apply Hg.
Qed.

Lemma counts_in_range m s n :
  motion_inv m -> motion_typed m -> base_unit_states m !! s = Some n ->
  in_u 32 s /\ s <> 0 /\ 1 <= n <= Z.of_nat (length (active_generators m)).
Proof.
  intros Hi Hm. rewrite (core_counts m (inv_core m Hi)). unfold state_count.
  destruct (Z.eqb_spec s 0); [done|]. cbn [orb].
  pose proof (length_filter (fun g => base_unit_state g = s) (active_generators m)) as Hl.
  destruct (filter _ (active_generators m)) as [|g l] eqn:E; [done|].
  assert (Hin : g ∈ filter (fun g => base_unit_state g = s) (active_generators m)) by (rewrite E; left).
  apply list_elem_of_filter in Hin as [<- Hin]. cbn [length] in *.
  destruct (Z.eqb_spec (Z.of_nat (S (length l))) 0); [lia|]. intros [= <-].
  split; [|split; [done|lia]]. pose proof (typed_active m Hm) as Ha. rewrite Forall_forall in Ha. by apply Ha.
Qed.

(** C38: With arguments in the range of their types every number the subsystem
    stores stays in the range of its own: in every generator and queued
    generator the flags (u16), the unit state, ids and timers (u32) and the
    value of a custom kind (u32), also in the selected kind; the flags of the
    master (u8); the spline's id, times and velocity (u32) and the coordinates
    of both its destinations (i32); and the counts of the unit states, whose keys
    are nonzero (u32), are at least one and at most the number of active
    generators, so that no decrement wraps. *)
Theorem motion_fields_in_range m :
  typed_reachable m ->
  motion_typed m /\ kind_typed (current_generator m)
  /\ forall s n, base_unit_states m !! s = Some n ->
       in_u 32 s /\ s <> 0 /\ 1 <= n <= Z.of_nat (length (active_generators m)).
Proof.
  intros Hr. assert (Hb : reachable m /\ motion_typed m).
  { induction Hr as [|op m m' _ [Hr Hm] Ho E].
    - split; [constructor|]. split; try const; try constructor; try exact I; try const.
    - split; [by eapply reachable_run|]. eapply run_typed; try done. by apply motion_reachable_inv. }
  destruct Hb as [Hreach Hm]. pose proof (motion_reachable_inv m Hreach) as Hi.
  split; [done|]. split; [by apply current_generator_typed|]. intros s n. by apply counts_in_range.
Qed.

Lemma motion_fields_in_range_witness :
  exists m, typed_reachable m /\ kind <$> active_generators m = [MovementGeneratorKind.Rotate] /\
            motion_typed m /\ velocity (spline m) = Some 7.
Proof.
  set (m1 := default motion_default (run (OpRotate 7 1000 Rotate.Left) motion_default)).
  set (launch := OpLaunchSpline 3 500 (10, -20, 30) false false (Some 7)).
  set (m := default motion_default (run launch m1)).
  assert (Hr : typed_reachable m).
  { apply (typed_reachable_run launch m1);
      [|cbn; split_and!; first [const|apply (bool_decide_unpack _); vm_compute; exact I]|by vm_compute].
    apply (typed_reachable_run (OpRotate 7 1000 Rotate.Left) motion_default);
      [constructor|split; const|by vm_compute]. }
  exists m. split; [exact Hr|]. split; [by vm_compute|].
  split; [exact (proj1 (motion_fields_in_range m Hr))|by vm_compute].
Defined.
