(* ===== verification/MotionAgreement.v ===== *)
(** The server keeps two motion masters for a unit: the boxed one of
    wow-movement (MotionMaster.v) and the represented one of wow-entities
    (MotionSubsystem.v).  On generators of the default mode and the operations
    both have on the active slot, they agree: the same generators in the same
    order, the same one on top, the same unit states held. *)
From stdpp Require Import sorting.
From S2P Require Import Prelude Float32 Guid MotionGenerators MotionMaster MotionMasterTheorems MotionRefs MotionSubsystem MotionSubsystemTheorems MotionTheorems.

(** * Kinds *)
Definition same_kind (k : MovementGeneratorType.t) (k' : MovementGeneratorKind.t) : Prop :=
  MovementGeneratorKind.from_trinity_id (MovementGeneratorType.trinity_id k) = Some k'.

Lemma type_of_trinity_id k :
  MovementGeneratorType.from_trinity_id (MovementGeneratorType.trinity_id k) = Some k.
Proof. by destruct k. Qed.

Lemma same_kind_id k k' :
  same_kind k k' -> MovementGeneratorKind.trinity_id k' = MovementGeneratorType.trinity_id k.
Proof. unfold same_kind. destruct k; cbn; intros [= <-]; done. Qed.

Lemma same_kind_inj k k' l l' : same_kind k k' -> same_kind l l' -> (k = l <-> k' = l').
Proof.
  intros Hk Hl. split; [intros ->; unfold same_kind in *; congruence|]. intros ->.
  apply same_kind_id in Hk, Hl. rewrite Hk in Hl.
  apply (f_equal MovementGeneratorType.from_trinity_id) in Hl.
  rewrite !type_of_trinity_id in Hl. congruence.
Qed.

Section Agreement.
Context `{GeneratorLaws G}.
Implicit Types (g : G) (r : MovementGeneratorRef).

(** A boxed generator and its record. *)
Record corresponds g r : Prop :=
  { same_kinds : same_kind (MotionGenerators.kind g) (kind r);
    default_mode : MotionGenerators.mode (state g) = MovementGeneratorMode.Default;
    default_mode' : mode r = MovementGeneratorMode.Default;
    same_priority : MotionGenerators.priority (state g) = priority r;
    same_base : MotionGenerators.base_unit_state (state g) = base_unit_state r }.

Lemma corresponds_shape g g' r : shape g' = shape g -> corresponds g r -> corresponds g' r.
Proof. intros [= E1 E2 E3 E4] []. split; congruence. Qed.

Lemma corresponds_role g r r' : same_role r r' -> corresponds g r -> corresponds g r'.
Proof. intros (E1 & E2 & E3 & E4 & _) []. split; congruence. Qed.

Lemma corresponds_rank g r : corresponds g r -> rank r = priority_of g.
Proof. intros [_ _ Em Ep _]. unfold rank, priority_of. rewrite Em, Ep. cbn. lia. Qed.

(** * The same positions *)
Lemma position_agree (p : G -> bool) (q : MovementGeneratorRef -> bool) l l' :
  Forall2 (fun g r => p g = q r) l l' -> MotionMaster.position p l = MotionMaster.position q l'.
Proof. induction 1 as [|g r l l' E _ IH]; cbn; [done|]. by rewrite E, IH. Qed.

Lemma position_corresponds (p : G -> bool) (q : MovementGeneratorRef -> bool) l l' :
  (forall g r, corresponds g r -> p g = q r) -> Forall2 corresponds l l' ->
  MotionMaster.position p l = MotionMaster.position q l'.
Proof. intros Hp Hl. apply position_agree. eapply Forall2_impl; [exact Hl|exact Hp]. Qed.

Lemma kind_test_agree k k' g r :
  same_kind k k' -> corresponds g r ->
  bool_decide (MotionGenerators.kind g = k) = bool_decide (kind r = k').
Proof. intros Hk [Hg _ _ _ _]. apply bool_decide_ext. by apply same_kind_inj. Qed.

Lemma priority_test_agree p g r :
  corresponds g r ->
  bool_decide (MotionGenerators.priority (state g) = p) = bool_decide (priority r = p).
Proof. intros [_ _ _ E _]. by rewrite E. Qed.

(** Insertion by index and insertion by sorting. *)
Lemma insertion_agree g r l l' :
  corresponds g r -> Forall2 corresponds l l' ->
  Forall2 corresponds
    (MotionMaster.insert_at
       (MotionMaster.insertion_index (MotionGenerators.priority (state g)) l) g l)
    (place r l').
Proof.
  intros Hg Hl. unfold MotionMaster.insert_at. induction Hl as [|h s l l' Hh Hl IH].
  { by apply Forall2_cons. }
  cbn [place]. rewrite insertion_index_cons, (corresponds_rank _ _ Hh), (corresponds_rank _ _ Hg).
  change (MotionMaster.higher_priority (MotionGenerators.priority (state g))
            (MotionGenerators.priority (state h))) with (priority_of h <? priority_of g).
  destruct (priority_of h <? priority_of g); cbn; repeat (apply Forall2_cons; split); done.
Qed.

(** * Agreement of the two masters *)
Record agree (m : MotionMaster.t G) (m' : MotionSubsystem.t) : Prop :=
  { agree_active : Forall2 corresponds (MotionMaster.active_generators m)
                     (MotionSubsystem.active_generators m');
    agree_default : exists g, MotionMaster.default_generator m = Some g /\
                     same_kind (MotionGenerators.kind g) (kind (MotionSubsystem.default_generator m'));
    agree_inv : master_inv m;
    agree_inv' : motion_inv m' }.

Lemma remove_agree i a b m m' :
  Forall2 corresponds (MotionMaster.active_generators m) (MotionSubsystem.active_generators m') ->
  Forall2 corresponds
    (MotionMaster.active_generators (MotionMaster.remove_active_index i a b m))
    (MotionSubsystem.active_generators (fst (MotionSubsystem.remove_generator_at i m'))).
Proof.
  intros Hl. rewrite active_of_remove. destruct (remove_frame i m') as (-> & _).
  by apply Forall2_delete.
Qed.

Lemma make_room_agree g r m m' :
  corresponds g r ->
  Forall2 corresponds (MotionMaster.active_generators m) (MotionSubsystem.active_generators m') ->
  Forall2 corresponds
    (MotionMaster.active_generators
       (MotionMaster.make_room (MotionGenerators.priority (state g)) m))
    (MotionSubsystem.active_generators (MotionSubsystem.make_room r m')).
Proof.
  intros Hg Hl. pose proof Hg as [_ _ _ Epr _].
  pose proof (remove_agree 0 true false m m' Hl) as Htop.
  pose proof (fun i => remove_agree i false false m m' Hl) as Hat.
  unfold MotionMaster.make_room, MotionSubsystem.make_room. rewrite Epr.
  rewrite (position_corresponds _ (fun s => bool_decide (priority s = priority r)) _ _
             (priority_test_agree (priority r)) Hl).
  destruct (MotionMaster.active_generators m) as [|top rest] eqn:Ea,
    (MotionSubsystem.active_generators m') as [|top' rest'] eqn:Ea'; try by inversion Hl.
  - destruct (MotionMaster.default_generator m); cbn; by rewrite ?Ea, ?Ea'.
  - apply Forall2_cons in Hl as [Ht Hr]. pose proof Ht as [_ _ _ Etop _]. rewrite Etop.
    unfold MotionMaster.higher_priority, MotionSubsystem.at_least. rewrite <- Z.leb_antisym.
    destruct (_ <=? _).
    + case_bool_decide; [exact Htop|]. cbn. apply Forall2_cons. split; [|done].
      apply (corresponds_role _ top' _); [done|].
      by apply (corresponds_shape top); [apply shape_deactivate|].
    + destruct (MotionMaster.position _ _); [apply Hat|].
      rewrite Ea, Ea'. by apply Forall2_cons.
Qed.

(** * The shared operations *)
Inductive SharedOp : Type :=
| SharedAdd (g : G) (r : MovementGeneratorRef)
| SharedRemove (k : MovementGeneratorType.t) (k' : MovementGeneratorKind.t)
| SharedClear
| SharedClearPriority (p : MovementGeneratorPriority.t)
| SharedClearMode (md : MovementGeneratorMode.t).

(** The two arguments of an operation say the same. *)
Definition shared_ok (op : SharedOp) : Prop :=
  match op with
  | SharedAdd g r => corresponds g r /\ slot r = MovementSlot.Active
  | SharedRemove k k' => same_kind k k'
  | _ => True
  end.

Definition on_master (op : SharedOp) (m : MotionMaster.t G) : MotionMaster.t G :=
  match op with
  | SharedAdd g _ => MotionMaster.add g MovementSlot.Active m
  | SharedRemove k _ => MotionMaster.remove_kind k MovementSlot.Active m
  | SharedClear => MotionMaster.clear_slot MovementSlot.Active m
  | SharedClearPriority p => MotionMaster.clear_priority p m
  | SharedClearMode md => MotionMaster.clear_mode md m
  end.

Definition on_subsystem (op : SharedOp) (m : MotionSubsystem.t) : MotionSubsystem.t :=
  match op with
  | SharedAdd _ r => MotionSubsystem.add_generator r m
  | SharedRemove _ k => fst (MotionSubsystem.remove_generator_kind k MovementSlot.Active m)
  | SharedClear => fst (MotionSubsystem.clear_slot MovementSlot.Active m)
  | SharedClearPriority p => fst (MotionSubsystem.clear_by_priority p m)
  | SharedClearMode md => fst (MotionSubsystem.clear_by_mode md m)
  end.

Definition active_agree (m : MotionMaster.t G) (m' : MotionSubsystem.t) : Prop :=
  Forall2 corresponds (MotionMaster.active_generators m) (MotionSubsystem.active_generators m').

Lemma add_active_agree g r m m' :
  corresponds g r -> slot r = MovementSlot.Active -> motion_inv m' -> active_agree m m' ->
  active_agree (MotionMaster.direct_add g MovementSlot.Active m) (MotionSubsystem.add_generator r m').
Proof.
  intros Hg Hs Hi Hl. pose proof (make_room_agree g r m m' Hg Hl) as Hr.
  assert (Ho : ordered (MotionSubsystem.active_generators (MotionSubsystem.make_room r m')))
    by (apply core_ordered, make_room_core, Hi).
  unfold active_agree, MotionMaster.direct_add, MotionSubsystem.add_generator. rewrite Hs.
  set (m1 := MotionMaster.make_room _ m) in *. set (m1' := MotionSubsystem.make_room r m') in *.
  destruct (add_base_frame (base_unit_state r) m1') as (Ea' & _).
  assert (Ea : MotionMaster.active_generators (MotionMaster.add_base_unit_state
                 (MotionGenerators.base_unit_state (state g)) m1) = MotionMaster.active_generators m1)
    by (unfold MotionMaster.add_base_unit_state; by destruct (negb _)).
  cbn -[MotionSubsystem.stable_sort MotionMaster.insert_at MotionSubsystem.add_base_unit_state
        MotionMaster.add_base_unit_state].
  rewrite Ea, Ea'. rewrite stable_sort_snoc by done. by apply insertion_agree.
Qed.

Lemma clear_where_agree p q n i m m' :
  (forall g r, corresponds g r -> p g = q r) -> active_agree m m' ->
  active_agree (MotionMaster.clear_where n p i m) (fst (MotionSubsystem.clear_where n q i m')).
Proof.
  intros Hp. revert i m m'. induction n as [|n IH]; intros i m m' Hl; cbn; [done|].
  destruct (MotionMaster.active_generators m !! i) as [g|] eqn:Eg.
  - destruct (Forall2_lookup_l _ _ _ _ _ Hl Eg) as (r & Er & Hgr). rewrite Er, (Hp g r Hgr).
    destruct (q r); [|by apply IH].
    pose proof (remove_agree i false false m m' Hl) as Hr.
    destruct (MotionSubsystem.remove_generator_at i m') as [m1' x].
    specialize (IH i _ m1' Hr). by destruct (MotionSubsystem.clear_where n q i m1').
  - destruct (MotionSubsystem.active_generators m' !! i) as [r|] eqn:Er; [|done].
    destruct (Forall2_lookup_r _ _ _ _ _ Hl Er) as (g & Eg' & _). congruence.
Qed.

(** ** The default generators stay what they are *)
Definition default_kind (m : MotionMaster.t G) : option MovementGeneratorType.t :=
  MotionGenerators.kind <$> MotionMaster.default_generator m.

Lemma remove_active_default i a b m :
  default_kind (MotionMaster.remove_active_index i a b m) = default_kind m.
Proof.
  unfold MotionMaster.remove_active_index, MotionMaster.clear_base_unit_state.
  destruct (MotionMaster.active_generators m !! i); [|done]. by destruct (_ =? 0).
Qed.

Lemma remove_all_default n m : default_kind (MotionMaster.remove_all_active n m) = default_kind m.
Proof.
  revert m. induction n as [|n IH]; intros m; cbn; [done|].
  destruct (MotionMaster.no_active m); [done|]. rewrite IH. apply remove_active_default.
Qed.

Lemma clear_where_default p n i m : default_kind (MotionMaster.clear_where n p i m) = default_kind m.
Proof.
  revert i m. induction n as [|n IH]; intros i m; cbn; [done|].
  destruct (MotionMaster.active_generators m !! i); [|done].
  destruct (p g); rewrite IH; [apply remove_active_default|done].
Qed.

Lemma master_default op m :
  shared_ok op -> master_inv m -> default_kind (on_master op m) = default_kind m.
Proof.
  intros Hop Hi. pose proof (inv_not_delayed m Hi) as Ed.
  destruct op as [g r|k k'| |p|md]; cbn [on_master]; unfold MotionMaster.add,
    MotionMaster.remove_kind, MotionMaster.clear_slot, MotionMaster.clear_priority,
    MotionMaster.clear_mode; rewrite Ed.
  - unfold MotionMaster.direct_add. change (default_kind (?x <| MotionMaster.active_generators := _ |>))
      with (default_kind x).
    transitivity (default_kind (MotionMaster.make_room (MotionGenerators.priority (state g)) m)).
    { unfold MotionMaster.add_base_unit_state. by destruct (negb _). }
    unfold MotionMaster.make_room. destruct (MotionMaster.active_generators m).
    + destruct (MotionMaster.default_generator m) as [d|] eqn:Edf; [|done].
      unfold default_kind. cbn. rewrite Edf. cbn. f_equal.
      apply (shape_inv (deactivate d) d), shape_deactivate.
    + destruct (negb _); [case_bool_decide; [apply remove_active_default|done]|].
      destruct (MotionMaster.position _ _); [apply remove_active_default|done].
  - destruct (MotionMaster.position _ _); [apply remove_active_default|done].
  - unfold MotionMaster.direct_clear_active. destruct (negb _); rewrite remove_all_default;
      [apply remove_active_default|done].
  - apply clear_where_default.
  - apply clear_where_default.
Qed.

Lemma subsystem_clear_where_default q n i m :
  MotionSubsystem.default_generator (fst (MotionSubsystem.clear_where n q i m)) =
  MotionSubsystem.default_generator m.
Proof.
  revert i m. induction n as [|n IH]; intros i m; cbn; [done|].
  destruct (MotionSubsystem.active_generators m !! i) as [r|]; [|done].
  destruct (q r); [|apply IH]. destruct (remove_frame i m) as (_ & <- & _).
  destruct (MotionSubsystem.remove_generator_at i m) as [m1 x]. cbn [fst].
  rewrite <- (IH i m1). by destruct (MotionSubsystem.clear_where n q i m1).
Qed.

Lemma subsystem_default op m :
  shared_ok op ->
  MotionSubsystem.default_generator (on_subsystem op m) = MotionSubsystem.default_generator m.
Proof.
  intros Hop. destruct op as [g r|k k'| |p|md]; cbn [on_subsystem]; [| |done| |].
  - unfold MotionSubsystem.add_generator. destruct Hop as [_ ->].
    destruct (make_room_frame r m) as (<- & _).
    by destruct (add_base_frame (base_unit_state r) (MotionSubsystem.make_room r m)) as (_ & <- & _).
  - unfold MotionSubsystem.remove_generator_kind.
    destruct (MotionMaster.position _ _) as [i|]; [|done].
    destruct (remove_frame i m) as (_ & <- & _).
    by destruct (MotionSubsystem.remove_generator_at i m).
  - unfold MotionSubsystem.clear_by_priority. rewrite <- (subsystem_clear_where_default
      (fun r => bool_decide (priority r = p)) (length (MotionSubsystem.active_generators m)) 0 m).
    by destruct (MotionSubsystem.clear_where _ _ 0 m).
  - unfold MotionSubsystem.clear_by_mode. rewrite <- (subsystem_clear_where_default
      (fun r => bool_decide (mode r = md)) (length (MotionSubsystem.active_generators m)) 0 m).
    by destruct (MotionSubsystem.clear_where _ _ 0 m).
Qed.

Lemma shared_active_agree op m m' :
  shared_ok op -> agree m m' -> active_agree (on_master op m) (on_subsystem op m').
Proof.
  intros Hop [Hl _ Hi Hi']. pose proof (inv_not_delayed m Hi) as Ed.
  destruct op as [g r|k k'| |p|md]; cbn [on_master on_subsystem]; unfold MotionMaster.add,
    MotionMaster.remove_kind, MotionMaster.clear_slot, MotionMaster.clear_priority,
    MotionMaster.clear_mode; rewrite Ed.
  - destruct Hop. by apply add_active_agree.
  - unfold MotionSubsystem.remove_generator_kind.
    rewrite (position_corresponds _ (fun r => bool_decide (kind r = k')) _ _
               (fun g r => kind_test_agree k k' g r Hop) Hl).
    destruct (MotionMaster.position _ _) as [i|]; [|done].
    pose proof (remove_agree i (Nat.eqb i 0) false m m' Hl) as Hr.
    by destruct (MotionSubsystem.remove_generator_at i m').
  - unfold active_agree. rewrite direct_clear_active_none. apply Forall2_nil. done.
  - unfold MotionSubsystem.clear_by_priority. rewrite <- (Forall2_length _ _ _ Hl).
    pose proof (clear_where_agree (fun g => bool_decide (MotionGenerators.priority (state g) = p))
      (fun r => bool_decide (priority r = p)) (length (MotionMaster.active_generators m)) 0 m m'
      (priority_test_agree p) Hl) as Hc.
    by destruct (MotionSubsystem.clear_where _ _ 0 m').
  - unfold MotionSubsystem.clear_by_mode. rewrite <- (Forall2_length _ _ _ Hl).
    assert (Hm : forall g r, corresponds g r ->
              bool_decide (MotionGenerators.mode (state g) = md) = bool_decide (mode r = md))
      by (intros g r [_ E1 E2 _ _]; by rewrite E1, E2).
    pose proof (clear_where_agree (fun g => bool_decide (MotionGenerators.mode (state g) = md))
      (fun r => bool_decide (mode r = md)) (length (MotionMaster.active_generators m)) 0 m m' Hm Hl)
      as Hc.
    by destruct (MotionSubsystem.clear_where _ _ 0 m').
Qed.

Lemma subsystem_op_ok op m : op_ok m (on_subsystem op m).
Proof.
  destruct op; cbn [on_subsystem].
  - apply add_generator_ok.
  - apply remove_kind_ok.
  - apply clear_slot_ok.
  - apply clear_by_priority_ok.
  - apply clear_by_mode_ok.
Qed.

Definition as_action (op : SharedOp) : MotionMaster.MasterAction G :=
  match op with
  | SharedAdd g _ => MotionMaster.ActionAdd g MovementSlot.Active
  | SharedRemove k _ => MotionMaster.ActionRemoveKind k MovementSlot.Active
  | SharedClear => MotionMaster.ActionClearSlot MovementSlot.Active
  | SharedClearPriority p => MotionMaster.ActionClearPriority p
  | SharedClearMode md => MotionMaster.ActionClearMode md
  end.

Lemma on_master_action op m : on_master op m = MotionMaster.run_action (as_action op) m.
Proof. by destruct op. Qed.

Lemma shared_agree op m m' :
  shared_ok op -> agree m m' -> agree (on_master op m) (on_subsystem op m').
Proof.
  intros Hop Ha. pose proof (shared_active_agree op m m' Hop Ha) as Hact.
  destruct Ha as [Hl (d & Ed & Ek) Hi Hi']. split; [exact Hact| | |].
  - pose proof (master_default op m Hop Hi) as Em. unfold default_kind in Em. rewrite Ed in Em.
    cbn in Em. apply fmap_Some in Em as (d' & Ed' & Ek').
    exists d'. split; [done|]. rewrite (subsystem_default op m') by done. congruence.
  - rewrite on_master_action. by apply (run_action_takes (as_action op) m Hi).
  - exact (op_ok_inv m' _ (subsystem_op_ok op m') Hi').
Qed.

Lemma shared_run_agree ops m m' :
  Forall shared_ok ops -> agree m m' ->
  agree (foldl (fun m op => on_master op m) m ops) (foldl (fun m op => on_subsystem op m) m' ops).
Proof.
  intros Hops. revert m m'. induction Hops as [|op ops Hop _ IH]; intros m m' Hm; cbn; [done|].
  by apply IH, shared_agree.
Qed.

(** * What agreement means to a caller *)
Lemma agree_current m m' :
  agree m m' ->
  exists k, MotionMaster.current_kind m = Some k /\
            same_kind k (MotionSubsystem.current_generator m').
Proof.
  intros [Hl (d & Ed & Ek) Hi Hi']. rewrite (inv_selected _ Hi').
  unfold MotionMaster.current_kind, MotionSubsystem.current_movement_generator.
  destruct Hl as [|g r l l' Hg _]; cbn.
  - rewrite Ed. cbn. eauto.
  - exists (MotionGenerators.kind g). split; [done|apply Hg].
Qed.

Lemma held_count s l l' :
  s <> 0 -> Forall2 corresponds l l' ->
  Z.of_nat (length (filter (fun x => x = s) (held l))) = state_count s l'.
Proof.
  intros Hs. induction 1 as [|g r l l' Hg _ IH]; [done|].
  rewrite held_cons, state_count_cons, filter_app, length_app, <- IH.
  destruct Hg as [_ _ _ _ Eb]. change (base_of g) with (MotionGenerators.base_unit_state (state g)).
  rewrite Eb. destruct (Z.eqb_spec (base_unit_state r) 0) as [E0|E0].
  - destruct (Z.eqb_spec (base_unit_state r) s); [congruence|]. done.
  - rewrite filter_cons. destruct (Z.eqb_spec (base_unit_state r) s); case_decide; cbn; try done; lia.
Qed.

Lemma agree_states m m' s :
  agree m m' -> s <> 0 ->
  Z.of_nat (MotionMaster.base_unit_state_ref_count s m) =
  default 0 (MotionSubsystem.base_unit_states m' !! s).
Proof.
  intros [Hl _ Hi Hi'] Hs. unfold MotionMaster.base_unit_state_ref_count.
  rewrite (inv_refs _ Hi), (held_count s _ _ Hs Hl).
  rewrite (core_counts _ (inv_core _ Hi') s). destruct (Z.eqb_spec s 0); [done|]. cbn.
  by destruct (Z.eqb_spec (state_count s (MotionSubsystem.active_generators m')) 0).
Qed.

(** C29: The two motion masters are equivalent on their common ground.  A new
    boxed master and a represented one at rest, with the same default
    generator, given the same operations on the active slot with generators of
    the default mode, hold corresponding generators in the same order,
    select the same kind, and count the same unit states. *)
Theorem motion_masters_agree (idle : G) m' ops :
  motion_inv m' -> MotionSubsystem.active_generators m' = [] ->
  same_kind (MotionGenerators.kind idle) (kind (MotionSubsystem.default_generator m')) ->
  Forall shared_ok ops ->
  let a := foldl (fun m op => on_master op m) (MotionMaster.new idle) ops in
  let b := foldl (fun m op => on_subsystem op m) m' ops in
  Forall2 corresponds (MotionMaster.active_generators a) (MotionSubsystem.active_generators b) /\
  (exists k, MotionMaster.current_kind a = Some k /\
             same_kind k (MotionSubsystem.current_generator b)) /\
  (forall s, s <> 0 -> Z.of_nat (MotionMaster.base_unit_state_ref_count s a) =
                       default 0 (MotionSubsystem.base_unit_states b !! s)).
Proof.
  intros Hi' Ea Hk Hops a b. assert (Hab : agree a b).
  { subst a b. assert (Hstart : agree (MotionMaster.new idle) m').
    { split; [rewrite Ea; by apply Forall2_nil|exists idle; by split|apply new_inv|done]. }
    by apply shared_run_agree. }
  split; [apply Hab|]. split; [by apply agree_current|]. intros s Hs. by apply agree_states.
Qed.
End Agreement.

(** * A run of both, with boxed generators of three implementations *)
Section Demo.
Definition demo_rotate : MovementGeneratorRef :=
  with_duration_ms 1000 (MotionSubsystem.pending MovementGeneratorKind.Rotate MovementGeneratorPriority.Normal
                           UnitState.ROTATING).
Definition demo_distract : MovementGeneratorRef :=
  with_duration_ms 500 (MotionSubsystem.pending MovementGeneratorKind.Distract MovementGeneratorPriority.Highest
                          UnitState.DISTRACTED).
Definition demo_assist : MovementGeneratorRef :=
  with_duration_ms 300 (MotionSubsystem.pending MovementGeneratorKind.AssistanceDistract
                          MovementGeneratorPriority.Normal UnitState.DISTRACTED).

Definition demo_shared : list (@SharedOp DynGenerator) :=
  [SharedAdd (Box (Rotate.new 7 1000 Rotate.Left)) demo_rotate;
   SharedAdd (Box (Distract.new 500 f32_one)) demo_distract;
   SharedAdd (Box (AssistanceDistract.new 300 f32_one)) demo_assist;
   SharedRemove MovementGeneratorType.Distract MovementGeneratorKind.Distract].

Lemma demo_shared_ok : Forall shared_ok demo_shared.
Proof.
  unfold demo_shared. rewrite !Forall_cons, Forall_nil.
  split; [split; by split|]. split; [split; by split|]. split; [split; by split|]. done.
Qed.

(** A represented master that has entered the world. *)
Definition demo_start : MotionSubsystem.t := entered MotionSubsystem.motion_default.

Lemma motion_masters_agree_witness :
  let a := foldl (fun m op => on_master op m) (MotionMaster.new (Box Idle.new)) demo_shared in
  let b := foldl (fun m op => on_subsystem op m) demo_start demo_shared in
  Forall2 corresponds (MotionMaster.active_generators a) (MotionSubsystem.active_generators b) /\
  MotionMaster.current_kind a = Some MovementGeneratorType.AssistanceDistract /\
  length (MotionSubsystem.active_generators b) = 1%nat.
Proof.
  assert (Hi : motion_inv demo_start) by apply entered_inv, motion_default_inv.
  assert (Hk : same_kind (MotionGenerators.kind (Box Idle.new))
                 (kind (MotionSubsystem.default_generator demo_start))) by (vm_compute; reflexivity).
  destruct (motion_masters_agree (Box Idle.new) demo_start demo_shared Hi eq_refl Hk
              demo_shared_ok) as [Hl _].
  split; [exact Hl|]. split; vm_compute; reflexivity.
Defined.
End Demo.
