(* ===== verification/InventoryModel.v ===== *)
(** wow-entities/src/item (templates.rs, slots.rs), wow-constants/src/item and
    the tables of player/mod.rs: storage templates, the slots of a player's
    inventory and what goes into which bag. *)
From S2P Require Import Prelude Guid.

(** * wow-constants/src/item *)
Module InventoryResult.
Inductive t : Type :=
| Ok | CantEquipLevelI | CantEquipSkill | WrongSlot | BagFull | BagInBag | TradeEquippedBag
| AmmoOnly | ProficiencyNeeded | NoSlotAvailable | CantEquipEver | CantEquipEver2
| NoSlotAvailable2 | Equipped2handed | TwoHandSkillNotFound | WrongBagType | WrongBagType2
| ItemMaxCount | NoSlotAvailable3 | CantStack | NotEquippable | CantSwap | SlotEmpty
| ItemNotFound | DropBoundItem | OutOfRange | TooFewToSplit | SplitFailed
| SpellFailedReagentsGeneric | CantTradeGold | NotEnoughMoney | NotABag | DestroyNonemptyBag
| NotOwner | OnlyOneQuiver | NoBankSlot | NoBankHere | ItemLocked | GenericStunned | PlayerDead
| ClientLockedOut | InternalBagError | OnlyOneBolt | OnlyOneAmmo | CantWrapStackable
| CantWrapEquipped | CantWrapWrapped | CantWrapBound | CantWrapUnique | CantWrapBags | LootGone
| InvFull | BankFull | VendorSoldOut | BagFull2 | ItemNotFound2 | CantStack2 | BagFull3
| VendorSoldOut2 | ObjectIsBusy | CantBeDisenchanted | NotInCombat | NotWhileDisarmed | BagFull4
| CantEquipRank | CantEquipReputation | TooManySpecialBags | LootCantLootThatNow
| ItemUniqueEquippable | VendorMissingTurnins | NotEnoughHonorPoints | NotEnoughArenaPoints
| ItemMaxCountSocketed | MailBoundItem | InternalBagError2 | BagFull5
| ItemMaxCountEquippedSocketed | ItemUniqueEquippableSocketed | TooMuchGold
| NotDuringArenaMatch | TradeBoundItem | CantEquipRating | EventAutoequipBindConfirm
| NotSameAccount | EquipNone3 | ItemMaxLimitCategoryCountExceededIs
| ItemMaxLimitCategorySocketedExceededIs | ScalingStatItemLevelExceeded | PurchaseLevelTooLow
| CantEquipNeedTalent | ItemMaxLimitCategoryEquippedExceededIs | ShapeshiftFormCannotEquip
| ItemInventoryFullSatchel | ScalingStatItemLevelTooLow | CantBuyQuantity
| ItemIsBattlePayLocked | ReagentBankFull | ReagentBankLocked | WrongBagType3 | CantUseItem
| CantBeObliterated | GuildBankConjuredItem | BagFull6 | BagFull7 | CantBeScrapped | BagFull8
| NotInPetBattle | BagFull9 | CantDoThatRightNow | CantDoThatRightNow2 | NotInNPE | ItemCooldown
| NotInRatedBattleground | EquipableSpellsSlotsFull | CantBeRecrafted | ReagentBagWrongSlot
| SlotOnlyReagentBag | ReagentBagItemType | CantBulkSellItemWithRefund.

#[global] Instance eq_dec : EqDecision t.
Proof. solve_decision. Defined.
End InventoryResult.

(** [ItemClass], an [i8]. *)
Module ItemClass.
Inductive t : Type :=
| None | Consumable | Container | Weapon | Gem | Armor | Reagent | Projectile | TradeGoods
| ItemEnhancement | Recipe | Money | Quiver | Quest | Key | Permanent | Miscellaneous | Glyph
| BattlePets | WowToken | Profession.

#[global] Instance eq_dec : EqDecision t.
Proof. solve_decision. Defined.
End ItemClass.

Module ItemSubClassContainer.
Definition Container : Z := 0.
Definition SoulContainer : Z := 1.
Definition HerbContainer : Z := 2.
Definition EnchantingContainer : Z := 3.
Definition EngineeringContainer : Z := 4.
Definition GemContainer : Z := 5.
Definition MiningContainer : Z := 6.
Definition LeatherworkingContainer : Z := 7.
Definition InscriptionContainer : Z := 8.
Definition TackleContainer : Z := 9.
Definition CookingContainer : Z := 10.
Definition ReagentContainer : Z := 11.
End ItemSubClassContainer.

(** [ItemSubClassWeapon as u32], the one told apart. *)
Module ItemSubClassWeapon.
Definition Polearm : Z := 6.
End ItemSubClassWeapon.

Module ItemSubclassProfession.
Definition Blacksmithing : Z := 0.
Definition Leatherworking : Z := 1.
Definition Alchemy : Z := 2.
Definition Herbalism : Z := 3.
Definition Cooking : Z := 4.
Definition Mining : Z := 5.
Definition Tailoring : Z := 6.
Definition Engineering : Z := 7.
Definition Enchanting : Z := 8.
Definition Fishing : Z := 9.
Definition Skinning : Z := 10.
Definition Jewelcrafting : Z := 11.
Definition Inscription : Z := 12.
End ItemSubclassProfession.

Module ItemSubClassQuiver.
Definition Quiver : Z := 2.
Definition AmmoPouch : Z := 3.
End ItemSubClassQuiver.

Module ItemBondingType.
Inductive t : Type := None | OnAcquire | OnEquip | OnUse | Quest.

#[global] Instance eq_dec : EqDecision t.
Proof. solve_decision. Defined.
End ItemBondingType.

(** [BagFamilyMask], a [u32] of flags. *)
Module BagFamilyMask.
Definition ARROWS : Z := 0x01.
Definition BULLETS : Z := 0x02.
Definition SOUL_SHARDS : Z := 0x04.
Definition LEATHERWORKING_SUPP : Z := 0x08.
Definition INSCRIPTION_SUPP : Z := 0x10.
Definition HERBS : Z := 0x20.
Definition ENCHANTING_SUPP : Z := 0x40.
Definition ENGINEERING_SUPP : Z := 0x80.
Definition KEYS : Z := 0x100.
Definition GEMS : Z := 0x200.
Definition MINING_SUPP : Z := 0x400.
Definition FISHING_SUPP : Z := 0x8000.
Definition COOKING_SUPP : Z := 0x10000.
End BagFamilyMask.

Module ItemUpdateState.
Inductive t : Type := Unchanged | Changed | New | Removed.

#[global] Instance eq_dec : EqDecision t.
Proof. solve_decision. Defined.
End ItemUpdateState.

(** The kinds of slot an item is worn in. *)
Module InventoryType.
Inductive t : Type :=
| NonEquip | Head | Neck | Shoulders | Body | Chest | Waist | Legs | Feet | Wrists | Hands
| Finger | Trinket | Weapon | Shield | Ranged | Cloak | Weapon2Hand | Bag | Tabard | Robe
| WeaponMainhand | WeaponOffhand | Holdable | Ammo | Thrown | RangedRight | Quiver | Relic
| ProfessionTool | ProfessionGear | EquipableSpellOffensive | EquipableSpellUtility
| EquipableSpellDefensive | EquipableSpellMobility.

#[global] Instance eq_dec : EqDecision t.
Proof. solve_decision. Defined.
End InventoryType.

(** [ItemFieldFlags], [ItemFieldFlags2] and [ItemFlags]: the bits used here. *)
Module ItemFieldFlags.
Definition SOULBOUND : Z := 0x01.
Definition UNLOCKED : Z := 0x04.
Definition WRAPPED : Z := 0x08.
Definition BOP_TRADEABLE : Z := 0x100.
Definition REFUNDABLE : Z := 0x1000.
Definition CHILD : Z := 0x00080000.
End ItemFieldFlags.
Module ItemFieldFlags2.
Definition EQUIPPED : Z := 0x01.
End ItemFieldFlags2.
Definition IS_BOUND_TO_ACCOUNT : Z := 0x8000000.

(** * templates.rs *)
Record ItemStorageTemplate : Type := mkTemplate
  { entry : Z; class_id : ItemClass.t; subclass_id : Z; inventory_type : InventoryType.t;
    bonding : ItemBondingType.t; bag_family : Z; max_stack_size : Z; max_count : Z;
    item_limit_category : Z; container_slots : Z; sell_price : Z; is_crafting_reagent : bool;
    template_flags : Z }.

Definition regular_item (entry max_stack_size : Z) : ItemStorageTemplate :=
  mkTemplate entry ItemClass.Miscellaneous 0 InventoryType.NonEquip ItemBondingType.None 0
    max_stack_size 0 0 0 0 false 0.

Definition can_change_equip_state_in_combat (proto : ItemStorageTemplate) : bool :=
  match inventory_type proto with
  | InventoryType.Relic | InventoryType.Shield | InventoryType.Holdable => true
  | _ => false
  end
  || match class_id proto with
     | ItemClass.Weapon | ItemClass.Projectile => true
     | _ => false
     end.

(** [contains] of a single flag, and of the empty family. *)
Definition family_contains (proto : ItemStorageTemplate) (flag : Z) : bool :=
  has_flag (bag_family proto) flag.

Definition is_bound_account_wide (proto : ItemStorageTemplate) : bool :=
  has_flag (template_flags proto) IS_BOUND_TO_ACCOUNT.

Definition item_can_go_into_bag (proto bag_proto : ItemStorageTemplate) : bool :=
  let subclass := subclass_id bag_proto in
  match class_id bag_proto with
  | ItemClass.Container =>
      if subclass =? ItemSubClassContainer.Container then true
      else if subclass =? ItemSubClassContainer.SoulContainer
      then family_contains proto BagFamilyMask.SOUL_SHARDS
      else if subclass =? ItemSubClassContainer.HerbContainer
      then family_contains proto BagFamilyMask.HERBS
      else if subclass =? ItemSubClassContainer.EnchantingContainer
      then family_contains proto BagFamilyMask.ENCHANTING_SUPP
      else if subclass =? ItemSubClassContainer.MiningContainer
      then family_contains proto BagFamilyMask.MINING_SUPP
      else if subclass =? ItemSubClassContainer.EngineeringContainer
      then family_contains proto BagFamilyMask.ENGINEERING_SUPP
      else if subclass =? ItemSubClassContainer.GemContainer
      then family_contains proto BagFamilyMask.GEMS
      else if subclass =? ItemSubClassContainer.LeatherworkingContainer
      then family_contains proto BagFamilyMask.LEATHERWORKING_SUPP
      else if subclass =? ItemSubClassContainer.InscriptionContainer
      then family_contains proto BagFamilyMask.INSCRIPTION_SUPP
      else if subclass =? ItemSubClassContainer.TackleContainer
      then family_contains proto BagFamilyMask.FISHING_SUPP
      else if subclass =? ItemSubClassContainer.CookingContainer
      then family_contains proto BagFamilyMask.COOKING_SUPP
      else if subclass =? ItemSubClassContainer.ReagentContainer
      then is_crafting_reagent proto
      else false
  | ItemClass.Quiver =>
      if subclass =? ItemSubClassQuiver.Quiver then family_contains proto BagFamilyMask.ARROWS
      else if subclass =? ItemSubClassQuiver.AmmoPouch
      then family_contains proto BagFamilyMask.BULLETS
      else false
  | _ => false
  end.

(** * Slots (slots.rs, bag.rs, player/mod.rs) *)
Definition INVENTORY_SLOT_BAG_0 : Z := 255.
Definition NULL_BAG : Z := 0.
Definition NULL_SLOT : Z := 255.
Definition MAX_BAG_SIZE : Z := 36.
Definition EQUIPMENT_SLOT_HEAD : Z := 0.
Definition EQUIPMENT_SLOT_NECK : Z := 1.
Definition EQUIPMENT_SLOT_SHOULDERS : Z := 2.
Definition EQUIPMENT_SLOT_BODY : Z := 3.
Definition EQUIPMENT_SLOT_CHEST : Z := 4.
Definition EQUIPMENT_SLOT_WAIST : Z := 5.
Definition EQUIPMENT_SLOT_LEGS : Z := 6.
Definition EQUIPMENT_SLOT_FEET : Z := 7.
Definition EQUIPMENT_SLOT_WRISTS : Z := 8.
Definition EQUIPMENT_SLOT_HANDS : Z := 9.
Definition EQUIPMENT_SLOT_FINGER1 : Z := 10.
Definition EQUIPMENT_SLOT_FINGER2 : Z := 11.
Definition EQUIPMENT_SLOT_TRINKET1 : Z := 12.
Definition EQUIPMENT_SLOT_TRINKET2 : Z := 13.
Definition EQUIPMENT_SLOT_BACK : Z := 14.
Definition EQUIPMENT_SLOT_MAINHAND : Z := 15.
Definition EQUIPMENT_SLOT_OFFHAND : Z := 16.
Definition EQUIPMENT_SLOT_TABARD : Z := 18.
Definition EQUIPMENT_SLOT_END : Z := 19.
Definition PROFESSION_SLOT_PROFESSION1_TOOL : Z := 19.
Definition PROFESSION_SLOT_PROFESSION1_GEAR1 : Z := 20.
Definition PROFESSION_SLOT_PROFESSION1_GEAR2 : Z := 21.
Definition PROFESSION_SLOT_PROFESSION2_GEAR1 : Z := 23.
Definition PROFESSION_SLOT_PROFESSION2_GEAR2 : Z := 24.
Definition PROFESSION_SLOT_COOKING_TOOL : Z := 25.
Definition PROFESSION_SLOT_COOKING_GEAR1 : Z := 26.
Definition PROFESSION_SLOT_FISHING_TOOL : Z := 27.
Definition PROFESSION_SLOT_MAX_COUNT : Z := 3.
Definition PROFESSION_SLOT_START : Z := 19.
Definition PROFESSION_SLOT_END : Z := 30.
Definition PLAYER_SLOT_END : Z := 141.
Definition INVENTORY_SLOT_BAG_START : Z := 30.
Definition INVENTORY_SLOT_BAG_END : Z := 34.
Definition REAGENT_BAG_SLOT_START : Z := 34.
Definition REAGENT_BAG_SLOT_END : Z := 35.
Definition INVENTORY_SLOT_ITEM_START : Z := 35.
Definition INVENTORY_SLOT_ITEM_END : Z := 59.
Definition BANK_SLOT_ITEM_START : Z := 59.
Definition BANK_SLOT_ITEM_END : Z := 87.
Definition BANK_SLOT_BAG_START : Z := 87.
Definition BANK_SLOT_BAG_END : Z := 94.
Definition BUYBACK_SLOT_START : Z := 94.
Definition BUYBACK_SLOT_END : Z := 106.
Definition BUYBACK_SLOT_COUNT : Z := BUYBACK_SLOT_END - BUYBACK_SLOT_START.
Definition KEYRING_SLOT_START : Z := 106.
Definition KEYRING_SLOT_END : Z := 138.
Definition CHILD_EQUIPMENT_SLOT_START : Z := 138.
Definition CHILD_EQUIPMENT_SLOT_END : Z := 141.
Definition ITEM_LIMIT_CATEGORY_MODE_HAVE : Z := 0.
Definition ITEM_LIMIT_CATEGORY_MODE_EQUIP : Z := 1.

(** [(lo..hi).contains(&x)]. *)
Definition in_range (lo hi x : Z) : bool := (lo <=? x) && (x <? hi).

(** [u16::from_be_bytes([bag, slot])], and the two bytes of a position. *)
Definition make_item_pos (bag slot : Z) : Z := 256 * bag + slot.
Definition pos_bag (pos : Z) : Z := pos / 256.
Definition pos_slot (pos : Z) : Z := pos mod 256.

Definition is_bag_storage_slot (slot : Z) : bool :=
  in_range INVENTORY_SLOT_BAG_START INVENTORY_SLOT_BAG_END slot
  || in_range BANK_SLOT_BAG_START BANK_SLOT_BAG_END slot
  || in_range REAGENT_BAG_SLOT_START REAGENT_BAG_SLOT_END slot.

Definition is_buyback_slot (slot : Z) : bool := in_range BUYBACK_SLOT_START BUYBACK_SLOT_END slot.

Definition is_child_equipment_pos (bag slot : Z) : bool :=
  (bag =? INVENTORY_SLOT_BAG_0)
  && in_range CHILD_EQUIPMENT_SLOT_START CHILD_EQUIPMENT_SLOT_END slot.

Definition is_inventory_pos (bag slot : Z) : bool :=
  if (bag =? INVENTORY_SLOT_BAG_0) && (slot =? NULL_SLOT) then true
  else if (bag =? INVENTORY_SLOT_BAG_0)
          && in_range INVENTORY_SLOT_ITEM_START INVENTORY_SLOT_ITEM_END slot then true
  else if in_range INVENTORY_SLOT_BAG_START INVENTORY_SLOT_BAG_END bag then true
  else if (bag =? INVENTORY_SLOT_BAG_0)
          && in_range KEYRING_SLOT_START KEYRING_SLOT_END slot then true
  else if is_child_equipment_pos bag slot then true
  else false.

Definition is_equipment_pos (bag slot : Z) : bool :=
  if (bag =? INVENTORY_SLOT_BAG_0) && (slot <? EQUIPMENT_SLOT_END) then true
  else if (bag =? INVENTORY_SLOT_BAG_0)
          && in_range PROFESSION_SLOT_START PROFESSION_SLOT_END slot then true
  else if (bag =? INVENTORY_SLOT_BAG_0)
          && in_range INVENTORY_SLOT_BAG_START INVENTORY_SLOT_BAG_END slot then true
  else if (bag =? INVENTORY_SLOT_BAG_0)
          && in_range REAGENT_BAG_SLOT_START REAGENT_BAG_SLOT_END slot then true
  else false.

Definition is_bank_pos (bag slot : Z) : bool :=
  if (bag =? INVENTORY_SLOT_BAG_0) && in_range BANK_SLOT_ITEM_START BANK_SLOT_ITEM_END slot
  then true
  else if (bag =? INVENTORY_SLOT_BAG_0) && in_range BANK_SLOT_BAG_START BANK_SLOT_BAG_END slot
  then true
  else if in_range BANK_SLOT_BAG_START BANK_SLOT_BAG_END bag then true
  else false.

Definition is_inventory_packed_pos (pos : Z) : bool := is_inventory_pos (pos_bag pos) (pos_slot pos).
Definition is_equipment_packed_pos (pos : Z) : bool := is_equipment_pos (pos_bag pos) (pos_slot pos).
Definition is_bank_packed_pos (pos : Z) : bool := is_bank_pos (pos_bag pos) (pos_slot pos).

Definition is_bag_pos (pos : Z) : bool :=
  (pos_bag pos =? INVENTORY_SLOT_BAG_0) && is_bag_storage_slot (pos_slot pos).

(** The limit is computed in [i16]: 106 + 106 - 138 is below the first slot. *)
Definition cpp_keyring_family_gate_applies (slot : Z) : bool :=
  in_range KEYRING_SLOT_START (KEYRING_SLOT_START + KEYRING_SLOT_START - KEYRING_SLOT_END) slot.
