(* ===== verification/Items.v ===== *)
(** wow-entities/src/item/item.rs and bag.rs: an item and a bag as objects, with
    the operations that store, bind, split and destroy them. *)
From S2P Require Import Prelude Guid InventoryModel.

Definition MAX_ITEM_SPELLS : nat := 5.
Definition BOP_TRADEABLE_DURATION_SECS : Z := 2 * 60 * 60.

Inductive ItemStateTransition : Type := Updated | PretendNeverExisted.

(** [Item] with the part of [ItemDataValues] and of [EntityObject] (guid,
    entry, [in_world]) that the operations read or write.  The update masks,
    which record what to send to the client, are left out. *)
Record Item : Type := mkItem
  { item_guid : ObjectGuid; item_entry : Z; in_world : bool;
    owner_guid : ObjectGuid; contained_in : ObjectGuid;
    creator : ObjectGuid; gift_creator : ObjectGuid;
    item_count : Z; expiration : Z; dynamic_flags : Z; dynamic_flags2 : Z;
    durability : Z; max_durability : Z; create_played_time : Z; context : Z;
    spell_charges : list Z;
    item_slot : Z; container_guid : ObjectGuid; container_slot : Z;
    item_bonding : ItemBondingType.t; update_state : ItemUpdateState.t; queue_pos : Z;
    loot_generated : bool; is_in_trade : bool; last_played_time_update : Z;
    refund_recipient : ObjectGuid; paid_money : Z; paid_extended_cost : Z;
    soulbound_trade_allowed_guids : gset ObjectGuid; debug_item_level : Z }.

#[export] Instance eta_item : Eta Item := fun i =>
  mkItem (item_guid i) (item_entry i) (in_world i) (owner_guid i) (contained_in i) (creator i)
    (gift_creator i) (item_count i) (expiration i) (dynamic_flags i) (dynamic_flags2 i)
    (durability i) (max_durability i) (create_played_time i) (context i) (spell_charges i)
    (item_slot i) (container_guid i) (container_slot i) (item_bonding i) (update_state i)
    (queue_pos i) (loot_generated i) (is_in_trade i) (last_played_time_update i)
    (refund_recipient i) (paid_money i) (paid_extended_cost i)
    (soulbound_trade_allowed_guids i) (debug_item_level i).

Definition item_new (last_played : Z) : Item :=
  mkItem EMPTY 0 false EMPTY EMPTY EMPTY EMPTY 0 0 0 0 0 0 0 0 (replicate MAX_ITEM_SPELLS 0)
    0 EMPTY INVENTORY_SLOT_BAG_0 ItemBondingType.None ItemUpdateState.New (-1) false false
    last_played EMPTY 0 0 ∅ 0.

(** * Flags and binding *)
Definition set_item_flag (flag : Z) (i : Item) : Item :=
  i <| dynamic_flags := set_flag (dynamic_flags i) flag |>.
Definition remove_item_flag (flag : Z) (i : Item) : Item :=
  i <| dynamic_flags := clear_flag (dynamic_flags i) flag |>.
Definition has_item_flag (flag : Z) (i : Item) : bool := has_flag (dynamic_flags i) flag.
Definition set_item_flag2 (flag : Z) (i : Item) : Item :=
  i <| dynamic_flags2 := set_flag (dynamic_flags2 i) flag |>.
Definition remove_item_flag2 (flag : Z) (i : Item) : Item :=
  i <| dynamic_flags2 := clear_flag (dynamic_flags2 i) flag |>.

Definition set_binding (bind : bool) (i : Item) : Item :=
  if bind then set_item_flag ItemFieldFlags.SOULBOUND i
  else remove_item_flag ItemFieldFlags.SOULBOUND i.

Definition is_soul_bound (i : Item) : bool := has_item_flag ItemFieldFlags.SOULBOUND i.
Definition is_refundable (i : Item) : bool := has_item_flag ItemFieldFlags.REFUNDABLE i.
Definition is_bop_tradeable (i : Item) : bool := has_item_flag ItemFieldFlags.BOP_TRADEABLE i.
Definition is_wrapped (i : Item) : bool := has_item_flag ItemFieldFlags.WRAPPED i.
Definition is_locked (i : Item) : bool := negb (has_item_flag ItemFieldFlags.UNLOCKED i).
Definition is_broken (i : Item) : bool := (0 <? max_durability i) && (durability i =? 0).

Definition bind_if_visualized (i : Item) : Item :=
  match item_bonding i with
  | ItemBondingType.OnEquip | ItemBondingType.OnAcquire | ItemBondingType.Quest =>
      set_binding true i
  | _ => i
  end.

Definition bind_if_stored (is_bag_pos : bool) (i : Item) : Item :=
  match item_bonding i with
  | ItemBondingType.OnAcquire | ItemBondingType.Quest => set_binding true i
  | ItemBondingType.OnEquip => if is_bag_pos then set_binding true i else i
  | _ => i
  end.

Definition is_soulbound_trade_allowed_for (player : ObjectGuid) (i : Item) : bool :=
  bool_decide (player ∈ soulbound_trade_allowed_guids i).

Definition set_soulbound_tradeable (allowed_looters : list ObjectGuid) (i : Item) : Item :=
  (set_item_flag ItemFieldFlags.BOP_TRADEABLE i)
    <| soulbound_trade_allowed_guids := list_to_set allowed_looters |>.

Definition clear_soulbound_tradeable (i : Item) : Item * bool :=
  let i := remove_item_flag ItemFieldFlags.BOP_TRADEABLE i in
  (i <| soulbound_trade_allowed_guids := ∅ |>,
   negb (bool_decide (soulbound_trade_allowed_guids i = ∅))).

Definition is_binded_not_with (player : ObjectGuid) (proto : ItemStorageTemplate)
    (bop_trade_allowed_for_player : bool) (i : Item) : bool :=
  if negb (is_soul_bound i) then false
  else if bool_decide (owner_guid i = player) then false
  else if is_bop_tradeable i && bop_trade_allowed_for_player then false
  else if is_bound_account_wide proto then false
  else true.

Definition is_binded_not_with_using_allowed_guids (player : ObjectGuid)
    (proto : ItemStorageTemplate) (i : Item) : bool :=
  is_binded_not_with player proto (is_soulbound_trade_allowed_for player i) i.

(** * Refunds and played time *)
Definition set_not_refundable (i : Item) : Item :=
  (remove_item_flag ItemFieldFlags.REFUNDABLE i)
    <| refund_recipient := EMPTY |> <| paid_money := 0 |> <| paid_extended_cost := 0 |>.

(** [i64::saturating_sub], then [u32::try_from] or the maximum. *)
Definition played_time (now_secs : Z) (i : Item) : Z :=
  let elapsed := Z.max (- 2 ^ 63) (Z.min i64_max (now_secs - last_played_time_update i)) in
  let elapsed := if (0 <=? elapsed) && (elapsed <=? u32_max) then elapsed else u32_max in
  sat_add u32_max (create_played_time i) elapsed.

Definition is_refund_expired_at (now_secs : Z) (i : Item) : bool :=
  BOP_TRADEABLE_DURATION_SECS <? played_time now_secs i.

Definition is_soulbound_trade_expired (owner_total_played_time : Z) (i : Item) : bool :=
  sat_add u32_max (create_played_time i) BOP_TRADEABLE_DURATION_SECS <? owner_total_played_time.

(** * Stacks *)
Definition can_be_merged_partly_with (e max_stack : Z) (i : Item) : InventoryResult.t :=
  if loot_generated i then InventoryResult.LootGone
  else if negb (item_entry i =? e) then InventoryResult.CantStack
  else if max_stack <=? item_count i then InventoryResult.CantStack
  else InventoryResult.Ok.

(** * Position *)
Definition set_container_guid (container : ObjectGuid) (i : Item) : Item :=
  let i := i <| container_guid := container |> in
  if Guid.is_empty container then i <| container_slot := INVENTORY_SLOT_BAG_0 |> else i.

Definition set_container_guid_and_slot (container : ObjectGuid) (slot : Z) (i : Item) : Item :=
  i <| container_guid := container |>
    <| container_slot := if Guid.is_empty container then INVENTORY_SLOT_BAG_0 else slot |>.

Definition is_in_bag (i : Item) : bool := negb (Guid.is_empty (container_guid i)).

Definition bag_slot (i : Item) : Z :=
  if is_in_bag i then container_slot i else INVENTORY_SLOT_BAG_0.

Definition position (i : Item) : Z := Z.lor (u16 (Z.shiftl (bag_slot i) 8)) (item_slot i).

Definition is_equipped (i : Item) : bool :=
  negb (is_in_bag i)
  && ((item_slot i <? EQUIPMENT_SLOT_END)
      || ((PROFESSION_SLOT_START <=? item_slot i) && (item_slot i <? PROFESSION_SLOT_END))).

(** * The state of the row in the database *)
Definition is_in_update_queue (i : Item) : bool := negb (queue_pos i =? -1).

Definition set_state (s : ItemUpdateState.t) (i : Item) : Item * ItemStateTransition :=
  if bool_decide (update_state i = ItemUpdateState.New)
     && bool_decide (s = ItemUpdateState.Removed)
  then (i, PretendNeverExisted)
  else
    (if bool_decide (s <> ItemUpdateState.Unchanged) then
       if bool_decide (update_state i <> ItemUpdateState.New) then i <| update_state := s |> else i
     else i <| queue_pos := -1 |> <| update_state := ItemUpdateState.Unchanged |>,
     Updated).

Definition force_state (s : ItemUpdateState.t) (i : Item) : Item := i <| update_state := s |>.

(** * Creating *)
Record ItemCreateInfo : Type := mkItemCreate
  { create_guid : ObjectGuid; create_item_id : Z; create_context : Z;
    create_owner : option ObjectGuid; create_max_durability : Z;
    create_spell_charges : list Z; create_expiration : Z }.

Definition initialize_created_state (create : ItemCreateInfo) (i : Item) : Item :=
  let i := i <| item_guid := create_guid create |> <| item_entry := create_item_id create |> in
  let i := match create_owner create with
           | Some o => i <| owner_guid := o |> <| contained_in := o |>
           | None => i
           end in
  i <| item_count := 1 |>
    <| max_durability := create_max_durability create |>
    <| durability := create_max_durability create |>
    <| spell_charges := create_spell_charges create |>
    <| expiration := create_expiration create |>
    <| create_played_time := 0 |>
    <| context := create_context create |>.

(** Cloning, when a stack is split. *)
Definition clone_item_for_store (guid : ObjectGuid) (owner : option ObjectGuid) (count : Z)
    (source : Item) : Item :=
  let i := (item_new (last_played_time_update source))
             <| item_guid := guid |> <| item_entry := item_entry source |> in
  let i := match owner with
           | Some o => i <| owner_guid := o |> <| contained_in := o |>
           | None => i
           end in
  i <| max_durability := max_durability source |>
    <| durability := max_durability source |>
    <| spell_charges := spell_charges source |>
    <| expiration := expiration source |>
    <| create_played_time := 0 |>
    <| context := context source |>
    <| item_count := count |>
    <| creator := creator source |>
    <| gift_creator := gift_creator source |>
    <| dynamic_flags := clear_flag (dynamic_flags source)
         (Z.lor ItemFieldFlags.REFUNDABLE ItemFieldFlags.BOP_TRADEABLE) |>
    <| item_bonding := item_bonding source |>.

(** [EntityObject::remove_from_world], on the field kept here. *)
Definition object_remove_from_world (i : Item) : Item := i <| in_world := false |>.

(** * Bags *)
Record Bag : Type := mkBag
  { bag_item : Item; num_slots : Z; slot_guids : list ObjectGuid;
    bag_slots : list (option ObjectGuid) }.

#[export] Instance eta_bag : Eta Bag := fun b =>
  mkBag (bag_item b) (num_slots b) (slot_guids b) (bag_slots b).

Definition bag_new (last_played : Z) : Bag :=
  mkBag (item_new last_played) 0 (replicate (Z.to_nat MAX_BAG_SIZE) EMPTY)
    (replicate (Z.to_nat MAX_BAG_SIZE) None).

Definition bag_is_empty (b : Bag) : bool :=
  forallb (fun s => negb (bool_decide (is_Some s))) (take (Z.to_nat (num_slots b)) (bag_slots b)).

Definition free_slots (b : Bag) : Z :=
  Z.of_nat (length (filter (fun s => s = None) (take (Z.to_nat (num_slots b)) (bag_slots b)))).

Definition bag_item_by_pos (slot : Z) (b : Bag) : option ObjectGuid :=
  if slot <? num_slots b then mjoin (bag_slots b !! Z.to_nat slot) else None.

Definition slot_by_item_guid (guid : ObjectGuid) (b : Bag) : Z :=
  match Prelude.position (fun s => s = Some guid) (take (Z.to_nat (num_slots b)) (bag_slots b)) with
  | Some i => Z.of_nat i
  | None => NULL_SLOT
  end.

(** [assert!((slot as usize) < MAX_BAG_SIZE)]: [None] is the panic. *)
Definition bag_store_item (slot : Z) (i : Item) (b : Bag) : option (Bag * Item) :=
  if negb (slot <? MAX_BAG_SIZE) then None
  else if bool_decide (item_guid i = item_guid (bag_item b)) then Some (b, i)
  else
    let b := b <| bag_slots := <[Z.to_nat slot := Some (item_guid i)]> (bag_slots b) |>
               <| slot_guids := <[Z.to_nat slot := item_guid i]> (slot_guids b) |> in
    let i := i <| contained_in := item_guid (bag_item b) |>
               <| owner_guid := owner_guid (bag_item b) |> in
    let i := set_container_guid_and_slot (item_guid (bag_item b)) (item_slot (bag_item b)) i in
    Some (b, i <| item_slot := slot |>).

Definition bag_remove_item (slot : Z) (b : Bag) : option (Bag * option ObjectGuid) :=
  if negb (slot <? MAX_BAG_SIZE) then None
  else
    Some (b <| bag_slots := <[Z.to_nat slot := None]> (bag_slots b) |>
            <| slot_guids := <[Z.to_nat slot := EMPTY]> (slot_guids b) |>,
          mjoin (bag_slots b !! Z.to_nat slot)).

Definition bag_clear_slots (b : Bag) : Bag :=
  b <| bag_slots := replicate (Z.to_nat MAX_BAG_SIZE) None |>
    <| slot_guids := replicate (Z.to_nat MAX_BAG_SIZE) EMPTY |>.

Record BagCreateInfo : Type := mkBagCreate
  { bag_create_guid : ObjectGuid; bag_create_item_id : Z; bag_create_context : Z;
    bag_create_owner : option ObjectGuid; bag_create_max_durability : Z;
    create_container_slots : Z }.

Inductive BagCreateError : Type := TooManySlots (requested max : Z).

Definition try_initialize_created_state (create : BagCreateInfo) (b : Bag) :
    result Bag BagCreateError :=
  if MAX_BAG_SIZE <? create_container_slots create
  then Err (TooManySlots (create_container_slots create) MAX_BAG_SIZE)
  else
    let i := (bag_item b) <| item_guid := bag_create_guid create |>
               <| item_entry := bag_create_item_id create |> in
    let i := match bag_create_owner create with
             | Some o => i <| owner_guid := o |> <| contained_in := o |>
             | None => i
             end in
    let i := i <| max_durability := bag_create_max_durability create |>
               <| durability := bag_create_max_durability create |>
               <| item_count := 1 |> <| context := bag_create_context create |> in
    Ok (bag_clear_slots (b <| bag_item := i |> <| num_slots := create_container_slots create |>)).
