(* ===== verification/InventoryStorage.v ===== *)
(** wow-entities/src/player: items/storage.rs and the storage types of mod.rs.
    A player's item slots, the bags in them and the buyback slots, with the
    operations that store, find, move, split, merge and destroy items. *)
From S2P Require Import Prelude Guid InventoryModel Items.

Inductive PlayerStorageError : Type :=
| InvalidPlayerSlot (slot : Z)
| InvalidBagSlot (slot : Z)
| InvalidBagItemSlot (slot : Z)
| UnknownBag (bag : Z)
| EmptyPlayerSlot (slot : Z)
| EmptyBagItemSlot (bag slot : Z)
| OccupiedPlayerSlot (slot : Z)
| OccupiedBagItemSlot (bag slot : Z)
| MismatchedBagGuid (bag : Z) (expected actual : ObjectGuid)
| MismatchedItemGuid (slot : Z) (expected actual : ObjectGuid)
| MismatchedBagItemGuid (bag slot : Z) (expected actual : ObjectGuid)
| SplitItemLootGenerated
| InvalidSplitCount (available requested : Z)
| TooFewItemsToSplit (available requested : Z)
| SplitItemInTrade
| TopLevelBuybackHiddenFromGetItemByPos (slot : Z).

Record PlayerBagStorage : Type := mkBagStorage
  { bag_guid : ObjectGuid; bag_size : Z; slots : list (option ObjectGuid) }.

#[export] Instance eta_bag_storage : Eta PlayerBagStorage := fun b =>
  mkBagStorage (bag_guid b) (bag_size b) (slots b).

(** [PlayerBagStorage::new]; its assertion holds at the only call. *)
Definition bag_storage_new (guid : ObjectGuid) (size : Z) : PlayerBagStorage :=
  mkBagStorage guid size (replicate (Z.to_nat MAX_BAG_SIZE) None).

Definition item_by_pos (slot : Z) (b : PlayerBagStorage) : option ObjectGuid :=
  if slot <? bag_size b then mjoin (slots b !! Z.to_nat slot) else None.

Definition set_item (slot : Z) (guid : option ObjectGuid) (b : PlayerBagStorage) :
    PlayerBagStorage :=
  b <| slots := <[Z.to_nat slot := guid]> (slots b) |>.

Record VisibleItemValues : Type := mkVisible
  { item_id : Z; item_appearance_mod_id : Z; item_visual : Z }.
Definition visible_default : VisibleItemValues := mkVisible 0 0 0.

(** [Player], with what item storage reads and writes: its guid, the fields of
    [PlayerInventoryStorage] ([items], [bags], [current_buyback_slot]), the
    client's view of the slots ([inv_slots], [visible_items]), the buyback prices
    and times, and the numbers of backpack and bank bag slots. *)
Record Player : Type := mkPlayer
  { player_guid : ObjectGuid;
    items : list (option ObjectGuid);
    bags : list (option PlayerBagStorage);
    current_buyback_slot : Z;
    inv_slots : list ObjectGuid;
    visible_items : list VisibleItemValues;
    buyback_price : list Z;
    buyback_timestamp : list Z;
    num_backpack_slots : Z;
    num_bank_slots : Z }.

#[export] Instance eta_player : Eta Player := fun p =>
  mkPlayer (player_guid p) (items p) (bags p) (current_buyback_slot p) (inv_slots p)
    (visible_items p) (buyback_price p) (buyback_timestamp p) (num_backpack_slots p)
    (num_bank_slots p).

(** A player with empty storage. *)
Definition player_default (guid : ObjectGuid) (backpack_slots bank_slots : Z) : Player :=
  mkPlayer guid (replicate (Z.to_nat PLAYER_SLOT_END) None)
    (replicate (Z.to_nat PLAYER_SLOT_END) None) BUYBACK_SLOT_START
    (replicate (Z.to_nat PLAYER_SLOT_END) EMPTY)
    (replicate (Z.to_nat EQUIPMENT_SLOT_END) visible_default)
    (replicate (Z.to_nat BUYBACK_SLOT_COUNT) 0) (replicate (Z.to_nat BUYBACK_SLOT_COUNT) 0)
    backpack_slots bank_slots.

(** * The client's view *)
Definition set_inv_slot (slot : Z) (guid : ObjectGuid) (p : Player) : Player :=
  if PLAYER_SLOT_END <=? slot then p
  else p <| inv_slots := <[Z.to_nat slot := guid]> (inv_slots p) |>.

Definition set_visible_item_slot (slot : Z) (item : option VisibleItemValues) (p : Player) :
    Player :=
  if EQUIPMENT_SLOT_END <=? slot then p
  else p <| visible_items := <[Z.to_nat slot := default visible_default item]> (visible_items p) |>.

Definition set_buyback_price (slot : Z) (price : Z) (p : Player) : Player :=
  if BUYBACK_SLOT_COUNT <=? slot then p
  else p <| buyback_price := <[Z.to_nat slot := price]> (buyback_price p) |>.

Definition set_buyback_timestamp (slot : Z) (timestamp : Z) (p : Player) : Player :=
  if BUYBACK_SLOT_COUNT <=? slot then p
  else p <| buyback_timestamp := <[Z.to_nat slot := timestamp]> (buyback_timestamp p) |>.

(** * Looking up *)

(** [items.get(slot).copied().flatten()], and [items[slot]] where the callers
    keep [slot] below the 141 slots. *)
Definition top_level_item_guid (slot : Z) (p : Player) : option ObjectGuid :=
  mjoin (items p !! Z.to_nat slot).

Definition bag_at (slot : Z) (p : Player) : option PlayerBagStorage :=
  mjoin (bags p !! Z.to_nat slot).

Definition get_bag_by_pos (bag : Z) (p : Player) : option ObjectGuid :=
  if is_bag_storage_slot bag then bag_guid <$> bag_at bag p else None.

Definition get_item_by_pos (bag slot : Z) (p : Player) : option ObjectGuid :=
  if (bag =? INVENTORY_SLOT_BAG_0) && (slot <? PLAYER_SLOT_END) && negb (is_buyback_slot slot)
  then top_level_item_guid slot p
  else b ← bag_at bag p; item_by_pos slot b.

Definition get_item_by_packed_pos (pos : Z) (p : Player) : option ObjectGuid :=
  get_item_by_pos (pos_bag pos) (pos_slot pos) p.

Definition inventory_end (p : Player) : Z :=
  Z.min (sat_add u8_max INVENTORY_SLOT_ITEM_START (num_backpack_slots p)) INVENTORY_SLOT_ITEM_END.

Definition is_valid_pos (bag slot : Z) (explicit_pos : bool) (p : Player) : bool :=
  if (bag =? NULL_BAG) && negb explicit_pos then true
  else if bag =? INVENTORY_SLOT_BAG_0 then
    ((slot =? NULL_SLOT) && negb explicit_pos)
    || (slot <? EQUIPMENT_SLOT_END)
    || in_range PROFESSION_SLOT_START PROFESSION_SLOT_END slot
    || in_range INVENTORY_SLOT_BAG_START INVENTORY_SLOT_BAG_END slot
    || in_range REAGENT_BAG_SLOT_START REAGENT_BAG_SLOT_END slot
    || in_range INVENTORY_SLOT_ITEM_START (inventory_end p) slot
    || in_range BANK_SLOT_ITEM_START BANK_SLOT_ITEM_END slot
    || in_range BANK_SLOT_BAG_START BANK_SLOT_BAG_END slot
    || in_range KEYRING_SLOT_START KEYRING_SLOT_END slot
  else
    match bag_at bag p with
    | None => false
    | Some storage =>
        if (slot =? NULL_SLOT) && negb explicit_pos then true else slot <? bag_size storage
    end.

(** ** Visiting every item *)
Module ItemSearchLocation.
Definition EQUIPMENT : Z := 0x01.
Definition INVENTORY : Z := 0x02.
Definition BANK : Z := 0x04.
Definition REAGENT_BANK : Z := 0x08.
Definition DEFAULT : Z := Z.lor EQUIPMENT INVENTORY.
Definition EVERYWHERE : Z := Z.lor (Z.lor (Z.lor EQUIPMENT INVENTORY) BANK) REAGENT_BANK.
End ItemSearchLocation.

(** [lo..hi]. *)
Definition slot_range (lo hi : Z) : list Z := seqZ lo (hi - lo).

Definition visit_top_slots (p : Player) (l : list Z) : list ObjectGuid :=
  omap (fun slot => top_level_item_guid slot p) l.

(** [bag.slots.iter().take(bag_size).filter_map(..)]. *)
Definition visit_bag_items (p : Player) (bag_slot : Z) : list ObjectGuid :=
  match bag_at bag_slot p with
  | None => []
  | Some b => omap (fun g => g) (take (Z.to_nat (bag_size b)) (slots b))
  end.

(** The guids that [for_each_item_guid] hands to its callback, in order, as
    long as the callback continues. *)
Definition item_guids (location : Z) (p : Player) : list ObjectGuid :=
  (if has_flag location ItemSearchLocation.EQUIPMENT then
     visit_top_slots p (slot_range 0 EQUIPMENT_SLOT_END)
     ++ visit_top_slots p (slot_range PROFESSION_SLOT_START PROFESSION_SLOT_END)
   else [])
  ++ (if has_flag location ItemSearchLocation.INVENTORY then
        visit_top_slots p (slot_range INVENTORY_SLOT_BAG_START (inventory_end p))
        ++ visit_top_slots p (slot_range KEYRING_SLOT_START KEYRING_SLOT_END)
        ++ visit_top_slots p (slot_range CHILD_EQUIPMENT_SLOT_START CHILD_EQUIPMENT_SLOT_END)
        ++ (slot_range INVENTORY_SLOT_BAG_START INVENTORY_SLOT_BAG_END ≫= visit_bag_items p)
      else [])
  ++ (if has_flag location ItemSearchLocation.BANK then
        visit_top_slots p (slot_range BANK_SLOT_ITEM_START BANK_SLOT_BAG_END)
        ++ (slot_range BANK_SLOT_BAG_START BANK_SLOT_BAG_END ≫= visit_bag_items p)
      else [])
  ++ (if has_flag location ItemSearchLocation.REAGENT_BANK then
        slot_range REAGENT_BAG_SLOT_START REAGENT_BAG_SLOT_END ≫= visit_bag_items p
      else []).

(** [for_each_item_guid] with a callback that threads a state of its own and
    says whether to go on; [false] when it was stopped. *)
Fixpoint run_callback {S} (callback : S -> ObjectGuid -> S * bool) (l : list ObjectGuid) (s : S) :
    S * bool :=
  match l with
  | [] => (s, true)
  | g :: l =>
      let '(s, continue) := callback s g in
      if continue then run_callback callback l s else (s, false)
  end.

Definition for_each_item_guid {S} (location : Z) (callback : S -> ObjectGuid -> S * bool) (s : S)
    (p : Player) : S * bool :=
  run_callback callback (item_guids location p) s.

Definition get_item_by_guid (guid : ObjectGuid) (p : Player) : option ObjectGuid :=
  let '(found, _) :=
    for_each_item_guid ItemSearchLocation.EVERYWHERE
      (fun found item_guid => if decide (item_guid = guid) then (true, false) else (found, true))
      false p in
  if found then Some guid else None.

(** [PlayerInventoryStorage::get_item_by_guid_everywhere]. *)
Definition get_item_by_guid_everywhere (guid : ObjectGuid) (p : Player) : option ObjectGuid :=
  let top := filter (fun e : nat * option ObjectGuid => is_buyback_slot (Z.of_nat e.1) = false)
               (imap (fun i g => (i, g)) (items p)) in
  if bool_decide (Some guid ∈ top.*2) then Some guid
  else
    let in_bags := omap (fun b => b) (bags p)
                     ≫= fun b => take (Z.to_nat (bag_size b)) (slots b) in
    if bool_decide (Some guid ∈ in_bags) then Some guid else None.

(** * Storing guids *)
Definition register_bag_storage (bag_slot : Z) (guid : ObjectGuid) (size : Z) (p : Player) :
    result Player PlayerStorageError :=
  if negb (is_bag_storage_slot bag_slot) then Err (InvalidBagSlot bag_slot)
  else if MAX_BAG_SIZE <? size then Err (InvalidBagItemSlot size)
  else Ok (p <| bags := <[Z.to_nat bag_slot := Some (bag_storage_new guid size)]> (bags p) |>).

Definition store_top_level_item (slot : Z) (guid : ObjectGuid) (p : Player) :
    result Player PlayerStorageError :=
  if PLAYER_SLOT_END <=? slot then Err (InvalidPlayerSlot slot)
  else Ok (set_inv_slot slot guid (p <| items := <[Z.to_nat slot := Some guid]> (items p) |>)).

Definition remove_top_level_item (slot : Z) (p : Player) :
    result (Player * option ObjectGuid) PlayerStorageError :=
  if PLAYER_SLOT_END <=? slot then Err (InvalidPlayerSlot slot)
  else
    let removed := top_level_item_guid slot p in
    let p := p <| items := <[Z.to_nat slot := None]> (items p) |> in
    let p := set_inv_slot slot EMPTY p in
    let p := if slot <? EQUIPMENT_SLOT_END then set_visible_item_slot slot None p else p in
    let p := if is_bag_storage_slot slot
             then p <| bags := <[Z.to_nat slot := None]> (bags p) |> else p in
    Ok (p, removed).

Definition update_bag (bag : Z) (f : PlayerBagStorage -> PlayerBagStorage) (p : Player) : Player :=
  p <| bags := alter (fmap f) (Z.to_nat bag) (bags p) |>.

Definition store_bag_item (bag slot : Z) (guid : ObjectGuid) (p : Player) :
    result Player PlayerStorageError :=
  let? storage := ok_or (bag_at bag p) (UnknownBag bag) in
  if (MAX_BAG_SIZE <=? slot) || (bag_size storage <=? slot) then Err (InvalidBagItemSlot slot)
  else Ok (update_bag bag (set_item slot (Some guid)) p).

Definition remove_bag_item (bag slot : Z) (p : Player) :
    result (Player * option ObjectGuid) PlayerStorageError :=
  let? storage := ok_or (bag_at bag p) (UnknownBag bag) in
  if (MAX_BAG_SIZE <=? slot) || (bag_size storage <=? slot) then Err (InvalidBagItemSlot slot)
  else Ok (update_bag bag (set_item slot None) p, item_by_pos slot storage).

Definition visualize_item (slot : Z) (guid : ObjectGuid) (visible : VisibleItemValues)
    (p : Player) : result Player PlayerStorageError :=
  let? p := store_top_level_item slot guid p in
  Ok (if slot <? EQUIPMENT_SLOT_END then set_visible_item_slot slot (Some visible) p else p).

(** * Storing item objects *)
Definition set_position_of_top_level (slot : Z) (owner : ObjectGuid) (i : Item) : Item :=
  set_container_guid EMPTY
    (i <| contained_in := owner |> <| owner_guid := owner |> <| item_slot := slot |>).

Definition changed (i : Item) : Item := fst (set_state ItemUpdateState.Changed i).
Definition removed_state (i : Item) : Item := fst (set_state ItemUpdateState.Removed i).

Definition visualize_item_object (slot : Z) (i : Item) (visible : VisibleItemValues)
    (p : Player) : result (Player * Item) PlayerStorageError :=
  let? p := store_top_level_item slot (item_guid i) p in
  let i := set_position_of_top_level slot (player_guid p) (bind_if_visualized i) in
  let p := if slot <? EQUIPMENT_SLOT_END then set_visible_item_slot slot (Some visible) p else p in
  Ok (p, changed i).

Definition store_item_object (slot : Z) (i : Item) (count : Z) (p : Player) :
    result (Player * Item) PlayerStorageError :=
  if PLAYER_SLOT_END <=? slot then Err (InvalidPlayerSlot slot)
  else if bool_decide (is_Some (top_level_item_guid slot p)) then Err (OccupiedPlayerSlot slot)
  else
    let? p := store_top_level_item slot (item_guid i) p in
    let i := bind_if_stored (is_bag_storage_slot slot) (i <| item_count := count |>) in
    Ok (p, changed (set_position_of_top_level slot (player_guid p) i)).

Definition store_cloned_item_object (slot : Z) (source : Item) (new_guid : ObjectGuid) (count : Z)
    (p : Player) : result (Player * Item) PlayerStorageError :=
  store_item_object slot (clone_item_for_store new_guid (Some (player_guid p)) count source)
    count p.

Definition validate_split_source (source : Item) (count : Z) : option PlayerStorageError :=
  if loot_generated source then Some SplitItemLootGenerated
  else if (count =? 0) || (item_count source =? count)
  then Some (InvalidSplitCount (item_count source) count)
  else if item_count source <? count then Some (TooFewItemsToSplit (item_count source) count)
  else if is_in_trade source then Some SplitItemInTrade
  else None.

(** The player, the source with what is left and the new stack. *)
Definition split_item_to_empty_top_level_object (slot : Z) (source : Item)
    (new_guid : ObjectGuid) (count : Z) (p : Player) :
    result (Player * Item * Item) PlayerStorageError :=
  match validate_split_source source count with
  | Some e => Err e
  | None =>
      let? r := store_cloned_item_object slot source new_guid count p in
      Ok (fst r, changed (source <| item_count := u32 (item_count source - count) |>), snd r)
  end.

(** What a merge does to the stack that grows and to the one that goes. *)
Definition merge_into (is_bag_pos : bool) (count : Z) (existing : Item) : Item :=
  let existing := bind_if_stored is_bag_pos existing in
  changed (existing <| item_count := u32 (item_count existing + count) |>).
Definition merged_away (owner : ObjectGuid) (incoming : Item) : Item :=
  removed_state (fst (clear_soulbound_tradeable
    (set_not_refundable (incoming <| owner_guid := owner |>)))).

Definition merge_top_level_item_stack_object (slot : Z) (existing incoming : Item) (count : Z)
    (p : Player) : result (Item * Item) PlayerStorageError :=
  if PLAYER_SLOT_END <=? slot then Err (InvalidPlayerSlot slot)
  else
    match top_level_item_guid slot p with
    | None => Err (EmptyPlayerSlot slot)
    | Some expected =>
        if bool_decide (expected <> item_guid existing)
        then Err (MismatchedItemGuid slot expected (item_guid existing))
        else Ok (merge_into (is_bag_storage_slot slot) count existing,
                 merged_away (player_guid p) incoming)
    end.

(** * Taking item objects out

    The operations take an [Option<&mut Item>] and do nothing without an item;
    what follows is what they do with one. *)

(** What [remove_item_object] and [destroy_item_object] check before they take
    an item out of a bag, and the guid found there. *)
Definition check_bag_item (bag slot : Z) (i : Item) (bag_object : option Bag) (p : Player) :
    result Bag PlayerStorageError :=
  let? b := ok_or bag_object (UnknownBag bag) in
  let? expected_bag := ok_or (get_bag_by_pos bag p) (UnknownBag bag) in
  if bool_decide (expected_bag <> item_guid (bag_item b))
  then Err (MismatchedBagGuid bag expected_bag (item_guid (bag_item b)))
  else
    let? expected := ok_or (storage ← bag_at bag p; item_by_pos slot storage)
                       (EmptyBagItemSlot bag slot) in
    if bool_decide (expected <> item_guid i)
    then Err (MismatchedBagItemGuid bag slot expected (item_guid i))
    else Ok b.

Definition check_top_level_item (slot : Z) (i : Item) (p : Player) :
    result unit PlayerStorageError :=
  let? expected := ok_or (top_level_item_guid slot p) (EmptyPlayerSlot slot) in
  if bool_decide (expected <> item_guid i)
  then Err (MismatchedItemGuid slot expected (item_guid i))
  else Ok tt.

Definition detach_item (i : Item) : Item :=
  set_container_guid EMPTY (i <| contained_in := EMPTY |> <| item_slot := NULL_SLOT |>).

(** The player, the item, the bag object and the guid removed. *)
Definition Removal : Type := Player * Item * option Bag * option ObjectGuid.

(** Taking the guid out of the slots; [on_top] is what happens to an item of a
    top-level slot first.  [None] is the panic of [Bag::remove_item]. *)
Definition take_out (bag slot : Z) (i : Item) (bag_object : option Bag) (on_top : Item -> Item)
    (p : Player) : option (result Removal PlayerStorageError) :=
  if bag =? INVENTORY_SLOT_BAG_0 then
    Some (let? _ := check_top_level_item slot i p in
          let? r := remove_top_level_item slot p in
          Ok (fst r, on_top i, bag_object, snd r))
  else
    match check_bag_item bag slot i bag_object p with
    | Err e => Some (Err e)
    | Ok b =>
        '(b, _) ← bag_remove_item slot b;
        Some (let? r := remove_bag_item bag slot p in Ok (fst r, i, Some b, snd r))
    end.

Definition remove_item_object (bag slot : Z) (i : Item) (bag_object : option Bag) (p : Player) :
    option (result Removal PlayerStorageError) :=
  taken ← take_out bag slot i bag_object
            (fun i => if slot <? INVENTORY_SLOT_BAG_END
                      then remove_item_flag2 ItemFieldFlags2.EQUIPPED i else i) p;
  Some (let? r := taken in
        let '(p, i, b, removed) := r in
        Ok (p, detach_item i, b, removed)).

Definition move_item_from_inventory_object (bag slot : Z) (i : Item) (bag_object : option Bag)
    (p : Player) : option (result Removal PlayerStorageError) :=
  taken ← remove_item_object bag slot i bag_object p;
  Some (let? r := taken in
        let '(p, i, b, removed) := r in
        Ok (p, if bool_decide (is_Some removed) then set_not_refundable i else i, b, removed)).

Definition finalize_move_item_to_inventory_object (original : ObjectGuid) (last_item : Item)
    (in_character_inventory_db : bool) (p : Player) : Item * bool :=
  if bool_decide (original <> item_guid last_item) then (last_item, false)
  else
    let i := if bool_decide (owner_guid last_item <> player_guid p)
             then last_item <| owner_guid := player_guid p |> else last_item in
    (fst (set_state (if in_character_inventory_db then ItemUpdateState.Changed
                     else ItemUpdateState.New) i), true).

Definition destroy_item_object (bag slot : Z) (i : Item) (bag_object : option Bag) (p : Player) :
    option (result Removal PlayerStorageError) :=
  taken ← take_out bag slot i bag_object (fun i => i) p;
  Some (let? r := taken in
        let '(p, i, b, removed) := r in
        let i := fst (clear_soulbound_tradeable (set_not_refundable i)) in
        Ok (p, removed_state (detach_item i), b, removed)).

(** The player, the item, the bag object and the count still to destroy. *)
Definition destroy_item_count_for_item_object (i : Item) (count : Z) (bag_object : option Bag)
    (p : Player) : option (result (Player * Item * option Bag * Z) PlayerStorageError) :=
  if item_count i <=? count then
    destroyed ← destroy_item_object (bag_slot i) (item_slot i) i bag_object p;
    Some (let? r := destroyed in
          let '(p, i', b, _) := r in
          Ok (p, i', b, count - item_count i))
  else
    Some (Ok (p, changed (i <| item_count := item_count i - count |>), bag_object, 0)).

(** * Item objects in bags *)

(** The bag object must be the one registered at [bag_slot]. *)
Definition registered_bag (bag_slot item_slot : Z) (bag : Bag) (p : Player) :
    result PlayerBagStorage PlayerStorageError :=
  let? storage := ok_or (bag_at bag_slot p) (UnknownBag bag_slot) in
  if bool_decide (bag_guid storage <> item_guid (bag_item bag))
  then Err (MismatchedBagGuid bag_slot (bag_guid storage) (item_guid (bag_item bag)))
  else if (MAX_BAG_SIZE <=? item_slot) || (bag_size storage <=? item_slot)
  then Err (InvalidBagItemSlot item_slot)
  else Ok storage.

(** The slot was checked, so [bag_store_item] does not panic. *)
Definition store_bag_item_object (bag_slot : Z) (bag : Bag) (item_slot : Z) (i : Item)
    (count : Z) (p : Player) : result (Player * Bag * Item) PlayerStorageError :=
  let? storage := registered_bag bag_slot item_slot bag p in
  if bool_decide (is_Some (item_by_pos item_slot storage))
  then Err (OccupiedBagItemSlot bag_slot item_slot)
  else
    let i := bind_if_stored false (i <| item_count := count |>) in
    let '(bag, i) := default (bag, i) (bag_store_item item_slot i bag) in
    let? p := store_bag_item bag_slot item_slot (item_guid i) p in
    Ok (p, bag <| bag_item := changed (bag_item bag) |>, changed i).

Definition store_cloned_bag_item_object (bag_slot : Z) (bag : Bag) (item_slot : Z)
    (source : Item) (new_guid : ObjectGuid) (count : Z) (p : Player) :
    result (Player * Bag * Item) PlayerStorageError :=
  store_bag_item_object bag_slot bag item_slot
    (clone_item_for_store new_guid (Some (player_guid p)) count source) count p.

Definition split_item_to_empty_bag_item_object (bag_slot : Z) (bag : Bag) (item_slot : Z)
    (source : Item) (new_guid : ObjectGuid) (count : Z) (p : Player) :
    result (Player * Bag * Item * Item) PlayerStorageError :=
  match validate_split_source source count with
  | Some e => Err e
  | None =>
      let? r := store_cloned_bag_item_object bag_slot bag item_slot source new_guid count p in
      let '(p, bag, cloned) := r in
      Ok (p, bag, changed (source <| item_count := u32 (item_count source - count) |>), cloned)
  end.

Definition merge_bag_item_stack_object (bag_slot : Z) (bag : Bag) (item_slot : Z)
    (existing incoming : Item) (count : Z) (p : Player) :
    result (Item * Item) PlayerStorageError :=
  let? storage := registered_bag bag_slot item_slot bag p in
  let? expected := ok_or (item_by_pos item_slot storage) (EmptyBagItemSlot bag_slot item_slot) in
  let in_bag := default EMPTY (bag_item_by_pos item_slot bag) in
  if bool_decide (in_bag <> expected)
  then Err (MismatchedBagItemGuid bag_slot item_slot expected in_bag)
  else if bool_decide (expected <> item_guid existing)
  then Err (MismatchedBagItemGuid bag_slot item_slot expected (item_guid existing))
  else Ok (merge_into false count existing, merged_away (player_guid p) incoming).

(** * Buyback *)
Definition get_item_from_buyback_slot (slot : Z) (p : Player) : option ObjectGuid :=
  if is_buyback_slot slot then top_level_item_guid slot p else None.

(** [items[current_buyback_slot]] panics beyond the slots: [None]. *)
Definition current_buyback_item (p : Player) : option (option ObjectGuid) :=
  items p !! Z.to_nat (current_buyback_slot p).

Definition remove_item_from_buyback_slot (slot : Z) (p : Player) :
    option (Player * option ObjectGuid) :=
  if negb (is_buyback_slot slot) then Some (p, None)
  else
    let removed := top_level_item_guid slot p in
    let index := slot - BUYBACK_SLOT_START in
    let p := p <| items := <[Z.to_nat slot := None]> (items p) |> in
    let p := set_inv_slot slot EMPTY p in
    let p := set_buyback_timestamp index 0 (set_buyback_price index 0 p) in
    current ← current_buyback_item p;
    Some (if bool_decide (is_Some current) then p <| current_buyback_slot := slot |> else p,
          removed).

(** The scan of [add_item_to_buyback_slot]: the first empty slot after the first
    one, or else the slot with the least time. *)
Fixpoint oldest_buyback (p : Player) (candidates : list Z) (oldest_slot oldest_time : Z) : Z :=
  match candidates with
  | [] => oldest_slot
  | candidate :: rest =>
      match top_level_item_guid candidate p with
      | None => candidate
      | Some _ =>
          let time := nth (Z.to_nat (candidate - BUYBACK_SLOT_START)) (buyback_timestamp p) 0 in
          if time <? oldest_time then oldest_buyback p rest candidate time
          else oldest_buyback p rest oldest_slot oldest_time
      end
  end.

Definition buyback_slot_for_new_item (p : Player) : option Z :=
  current ← current_buyback_item p;
  Some (if bool_decide (is_Some current) then
          oldest_buyback p (slot_range (BUYBACK_SLOT_START + 1) BUYBACK_SLOT_END)
            BUYBACK_SLOT_START (nth 0 (buyback_timestamp p) 0)
        else current_buyback_slot p).

(** What both ways of adding do once the slot is free. *)
Definition fill_buyback_slot (slot : Z) (guid : ObjectGuid) (price timestamp : Z) (p : Player) :
    Player :=
  let index := slot - BUYBACK_SLOT_START in
  let p := p <| items := <[Z.to_nat slot := Some guid]> (items p) |> in
  let p := set_inv_slot slot guid p in
  let p := set_buyback_timestamp index timestamp (set_buyback_price index price p) in
  if current_buyback_slot p <? BUYBACK_SLOT_END - 1
  then p <| current_buyback_slot := current_buyback_slot p + 1 |> else p.

Definition add_item_to_buyback_slot (guid : ObjectGuid) (price timestamp : Z) (p : Player) :
    option (Player * Z) :=
  slot ← buyback_slot_for_new_item p;
  '(p, _) ← remove_item_from_buyback_slot slot p;
  Some (fill_buyback_slot slot guid price timestamp p, slot).

(** The item, when given, must be the one in the slot. *)
Definition remove_item_from_buyback_slot_object (slot : Z) (item : option Item)
    (delete_item : bool) (p : Player) :
    option (result (Player * option Item * option ObjectGuid) PlayerStorageError) :=
  if negb (is_buyback_slot slot) then Some (Ok (p, item, None))
  else
    let stored := top_level_item_guid slot p in
    match stored, item with
    | Some expected, Some actual =>
        if bool_decide (expected <> item_guid actual)
        then Some (Err (MismatchedItemGuid slot expected (item_guid actual)))
        else
          let actual := object_remove_from_world actual in
          let actual := if delete_item then removed_state actual else actual in
          '(p, removed) ← remove_item_from_buyback_slot slot p;
          Some (Ok (p, Some actual, removed))
    | _, _ =>
        '(p, removed) ← remove_item_from_buyback_slot slot p;
        Some (Ok (p, item, removed))
    end.

(** [(game_time - login_time + 30 * 3600) as u32 as i64]: [i64] arithmetic. *)
Definition buyback_time (game_time login_time : Z) : Z :=
  u32 (i64 (i64 (game_time - login_time) + 30 * 3600)).

Definition add_item_to_buyback_slot_object (i : Item)
    (item_template : option ItemStorageTemplate) (game_time login_time : Z)
    (overwritten_item : option Item) (p : Player) :
    option (result (Player * option Item * Z) PlayerStorageError) :=
  slot ← buyback_slot_for_new_item p;
  removal ← remove_item_from_buyback_slot_object slot overwritten_item true p;
  Some (let? r := removal in
        let '(p, overwritten, _) := r in
        let price := match item_template with
                     | Some proto => u32 (sell_price proto * item_count i)
                     | None => 0
                     end in
        Ok (fill_buyback_slot slot (item_guid i) price (buyback_time game_time login_time) p,
            overwritten, slot)).
