(* ===== verification/InventoryPlan.v ===== *)
(** wow-entities/src/player/items/storage.rs: where an item may go.  The plans of
    [can_store_item] (bags) and [can_bank_item] (bank) as sequences of phases,
    each of which looks for room in one part of the inventory. *)
From S2P Require Import Prelude Guid InventoryModel Items InventoryStorage.

(** * Plans *)
Record ItemPosCount : Type := mkPosCount { pos : Z; pos_count : Z }.

Definition is_contained_in (position : Z) (positions : list ItemPosCount) : bool :=
  existsb (fun e => pos e =? position) positions.

(** [&mut dest] and [&mut count], the count still to be placed. *)
Definition Plan : Type := list ItemPosCount * Z.

Record ItemSlotRef : Type := mkSlotRef { ref_bag : Z; ref_slot : Z; ref_item : Item }.
Record ItemStorageRef : Type := mkStorageRef
  { stored_bag : Z; stored_slot : Z; stored_item : Item;
    stored_template : option ItemStorageTemplate }.
Record BagTemplateRef : Type := mkBagTemplate { template_bag : Z; bag_template : ItemStorageTemplate }.

Definition item_ref_by_pos (items : list ItemSlotRef) (bag slot : Z) : option Item :=
  ref_item <$> find_first (fun r => ref_bag r = bag /\ ref_slot r = slot) items.

Definition bag_template_by_pos (templates : list BagTemplateRef) (bag : Z) :
    option ItemStorageTemplate :=
  bag_template <$> find_first (fun t => template_bag t = bag) templates.

(** [existing.filter(..)]: the item already there, unless it is the one to move. *)
Definition other_than (source : option Item) (existing : option Item) : option Item :=
  e ← existing;
  match source with
  | Some s => if bool_decide (item_guid e <> item_guid s) then Some e else None
  | None => Some e
  end.

Definition is_child (source : Item) : bool := has_item_flag ItemFieldFlags.CHILD source.

(** Pushing a position, unless the plan has it. *)
Definition place (position need : Z) (plan : Plan) : Plan :=
  let '(dest, count) := plan in
  let need := Z.min need count in
  if is_contained_in position dest then plan
  else (dest ++ [mkPosCount position need], count - need).

(** * One slot *)
Definition specific_slot_source (bag slot : Z) (source_item : option Item)
    (source_is_not_empty_bag : bool) : InventoryResult.t :=
  match source_item with
  | None => InventoryResult.Ok
  | Some source =>
      if source_is_not_empty_bag && negb (is_bag_pos (make_item_pos bag slot))
      then InventoryResult.DestroyNonemptyBag
      else if is_child source && negb (is_equipment_pos bag slot)
              && negb (is_child_equipment_pos bag slot)
      then InventoryResult.WrongBagType3
      else if negb (is_child source) && is_child_equipment_pos bag slot
      then InventoryResult.WrongBagType3
      else InventoryResult.Ok
  end.

(** Whether the slot exists and takes items of [proto], asked when it is empty or
    will be. *)
Definition specific_slot_free (bag slot : Z) (proto : ItemStorageTemplate)
    (bag_proto : option ItemStorageTemplate) (p : Player) : bool :=
  if slot =? REAGENT_BAG_SLOT_START then false
  else if bag =? INVENTORY_SLOT_BAG_0 then
    if cpp_keyring_family_gate_applies slot && negb (family_contains proto BagFamilyMask.KEYS)
    then false
    else negb (in_range BUYBACK_SLOT_START BUYBACK_SLOT_END slot || (PLAYER_SLOT_END <=? slot))
  else
    match get_bag_by_pos bag p, bag_proto with
    | Some _, Some bag_proto =>
        negb (container_slots bag_proto <=? slot) && item_can_go_into_bag proto bag_proto
    | _, _ => false
    end.

(** The free space of a stack to merge with: no wrap, as it is mergeable. *)
Definition merge_space (proto : ItemStorageTemplate) (existing : Item) : Z :=
  max_stack_size proto - item_count existing.

Definition mergeable (proto : ItemStorageTemplate) (existing : Item) : InventoryResult.t :=
  can_be_merged_partly_with (entry proto) (max_stack_size proto) existing.

Definition can_store_item_in_specific_slot (bag slot : Z) (proto : ItemStorageTemplate)
    (swap : bool) (existing_item source_item : option Item) (source_is_not_empty_bag : bool)
    (bag_proto : option ItemStorageTemplate) (p : Player) (plan : Plan) :
    InventoryResult.t * Plan :=
  let existing_item := other_than source_item existing_item in
  match specific_slot_source bag slot source_item source_is_not_empty_bag with
  | InventoryResult.Ok =>
      let put need := (InventoryResult.Ok, place (make_item_pos bag slot) need plan) in
      let into_free :=
        if specific_slot_free bag slot proto bag_proto p then put (max_stack_size proto)
        else (InventoryResult.WrongBagType, plan) in
      match existing_item with
      | None => into_free
      | Some existing =>
          if swap then into_free
          else
            match mergeable proto existing with
            | InventoryResult.Ok => put (merge_space proto existing)
            | e => (e, plan)
            end
      end
  | e => (e, plan)
  end.

(** * Ranges of slots *)

(** What a slot with [existing] in it takes when merging ([merge]) or when
    filling empty slots; [None] when the loop passes over it. *)
Definition slot_need (proto : ItemStorageTemplate) (merge : bool) (existing : option Item) :
    option Z :=
  match existing with
  | None => if merge then None else Some (max_stack_size proto)
  | Some existing =>
      if merge then
        match mergeable proto existing with
        | InventoryResult.Ok => Some (merge_space proto existing)
        | _ => None
        end
      else None
  end.

(** The loop over slots shared by [can_store_item_in_inventory_slots] and
    [can_store_item_in_bag]: [skip] are the slots passed over. *)
Fixpoint fill_slots (bag : Z) (skip : Z -> bool) (proto : ItemStorageTemplate) (merge : bool)
    (source_item : option Item) (slot_items : list ItemSlotRef) (l : list Z) (plan : Plan) :
    Plan :=
  match l with
  | [] => plan
  | slot :: l =>
      let next := fill_slots bag skip proto merge source_item slot_items l in
      if skip slot then next plan
      else
        match slot_need proto merge
                (other_than source_item (item_ref_by_pos slot_items bag slot)) with
        | None => next plan
        | Some need =>
            if is_contained_in (make_item_pos bag slot) (fst plan) then next plan
            else
              let plan := place (make_item_pos bag slot) need plan in
              if snd plan =? 0 then plan else next plan
        end
  end.

Definition can_store_item_in_inventory_slots (slot_begin slot_end : Z)
    (proto : ItemStorageTemplate) (merge : bool) (source_item : option Item)
    (source_is_not_empty_bag : bool) (skip_bag skip_slot : Z) (slot_items : list ItemSlotRef)
    (plan : Plan) : InventoryResult.t * Plan :=
  if bool_decide (is_Some source_item) && source_is_not_empty_bag
  then (InventoryResult.DestroyNonemptyBag, plan)
  else
    let skip slot := ((skip_bag =? INVENTORY_SLOT_BAG_0) && (slot =? skip_slot))
                     || (slot =? REAGENT_BAG_SLOT_START) in
    (InventoryResult.Ok,
     fill_slots INVENTORY_SLOT_BAG_0 skip proto merge source_item slot_items
       (slot_range slot_begin slot_end) plan).

Definition is_regular_container (proto : ItemStorageTemplate) : bool :=
  match class_id proto with
  | ItemClass.Container => subclass_id proto =? ItemSubClassContainer.Container
  | _ => false
  end.

(** The checks of [can_store_item_in_bag] before its loop. *)
Definition bag_accepts (bag : Z) (storage : PlayerBagStorage) (proto : ItemStorageTemplate)
    (non_specialized : bool) (source_item : option Item) (source_is_not_empty_bag : bool)
    (bag_proto : option ItemStorageTemplate) : InventoryResult.t :=
  if match source_item with
     | Some source => bool_decide (item_guid source = bag_guid storage)
     | None => false
     end then InventoryResult.WrongBagType
  else if bool_decide (is_Some source_item) && source_is_not_empty_bag
  then InventoryResult.DestroyNonemptyBag
  else if match source_item with Some source => is_child source | None => false end
  then InventoryResult.WrongBagType3
  else
    match bag_proto with
    | None => InventoryResult.WrongBagType
    | Some bag_proto =>
        if negb (Bool.eqb non_specialized (is_regular_container bag_proto))
        then InventoryResult.WrongBagType
        else if negb (item_can_go_into_bag proto bag_proto) then InventoryResult.WrongBagType
        else InventoryResult.Ok
    end.

Definition can_store_item_in_bag (bag : Z) (proto : ItemStorageTemplate)
    (merge non_specialized : bool) (source_item : option Item) (source_is_not_empty_bag : bool)
    (skip_bag skip_slot : Z) (bag_proto : option ItemStorageTemplate)
    (slot_items : list ItemSlotRef) (p : Player) (plan : Plan) : InventoryResult.t * Plan :=
  if bag =? skip_bag then (InventoryResult.WrongBagType, plan)
  else
    match bag_at bag p with
    | None => (InventoryResult.WrongBagType, plan)
    | Some storage =>
        match bag_accepts bag storage proto non_specialized source_item source_is_not_empty_bag
                bag_proto with
        | InventoryResult.Ok =>
            (InventoryResult.Ok,
             fill_slots bag (fun slot => slot =? skip_slot) proto merge source_item slot_items
               (slot_range 0 (bag_size storage)) plan)
        | e => (e, plan)
        end
    end.

(** * Limits *)
Record ItemLimitCategoryTemplate : Type := mkLimitCategory
  { limit_id : Z; limit_quantity : Z; limit_flags : Z }.

Record CanTakeMoreSimilarItemsOutcome : Type := mkSimilar
  { similar_result : InventoryResult.t; similar_no_space_count : option Z;
    offending_item_id : option Z }.

Definition can_take_more_similar_ok : CanTakeMoreSimilarItemsOutcome :=
  mkSimilar InventoryResult.Ok None None.

Definition can_take_more_similar_items (proto : option ItemStorageTemplate) (count : Z)
    (source_item : option Item) (current_item_count : Z)
    (limit_category : option ItemLimitCategoryTemplate) (current_limit_category_count : Z) :
    CanTakeMoreSimilarItemsOutcome :=
  match proto with
  | None => mkSimilar InventoryResult.ItemMaxCount (Some count) None
  | Some proto =>
      if match source_item with Some s => loot_generated s | None => false end
      then mkSimilar InventoryResult.LootGone None None
      else if ((max_count proto <=? 0) && (item_limit_category proto =? 0))
              || (max_count proto =? i32_max)
      then can_take_more_similar_ok
      else
        let total := sat_add u32_max current_item_count count in
        if (0 <? max_count proto) && (max_count proto <? total)
        then mkSimilar InventoryResult.ItemMaxCount (Some (sat_sub total (max_count proto))) None
        else if negb (item_limit_category proto =? 0) then
          match limit_category with
          | None => mkSimilar InventoryResult.NotEquippable (Some count) None
          | Some category =>
              let total := sat_add u32_max current_limit_category_count count in
              if (limit_flags category =? ITEM_LIMIT_CATEGORY_MODE_HAVE)
                 && (limit_quantity category <? total)
              then mkSimilar InventoryResult.ItemMaxLimitCategoryCountExceededIs
                     (Some (sat_sub total (limit_quantity category))) (Some (entry proto))
              else can_take_more_similar_ok
          end
        else can_take_more_similar_ok
  end.

(** [.sum()] of [u32]s wraps. *)
Definition sum_counts (l : list Item) : Z := u32 (foldr (fun i n => item_count i + n) 0 l).

Definition not_skipped (skip_item : option Item) (r : ItemStorageRef) : bool :=
  match skip_item with
  | Some skip => negb (bool_decide (item_guid (stored_item r) = item_guid skip))
  | None => true
  end.

Definition item_count_by_entry (e : Z) (in_bank_also : bool) (skip_item : option Item)
    (stored_items : list ItemStorageRef) : Z :=
  let counted r :=
    (is_equipment_pos (stored_bag r) (stored_slot r)
     || is_inventory_pos (stored_bag r) (stored_slot r)
     || (in_bank_also && is_bank_pos (stored_bag r) (stored_slot r)))
    && not_skipped skip_item r && (item_entry (stored_item r) =? e) in
  sum_counts (stored_item <$> filter (fun r => counted r = true) stored_items).

Definition item_count_with_limit_category (category : Z) (skip_item : option Item)
    (stored_items : list ItemStorageRef) : Z :=
  let counted r :=
    not_skipped skip_item r
    && match stored_template r with
       | Some template => item_limit_category template =? category
       | None => false
       end in
  sum_counts (stored_item <$> filter (fun r => counted r = true) stored_items).

(** * Phases *)

(** A phase looks for room and changes the plan; a step is a phase with what the
    caller does about its result: it returns ([inl]) or goes on ([inr]). *)
Definition Phase : Type := Plan -> InventoryResult.t * Plan.

Section Steps.
Context {O : Type}.
Variable fail : InventoryResult.t -> Z -> O.
Variable done : O.

Definition Step : Type := Plan -> (O * Plan) + Plan.

(** [if count == 0 { return .. }]. *)
Definition finish (plan : Plan) : (O * Plan) + Plan :=
  if snd plan =? 0 then inl (done, plan) else inr plan.

(** A result other than [Ok] is returned. *)
Definition strict (phase : Phase) : Step := fun plan =>
  match phase plan with
  | (InventoryResult.Ok, plan) => finish plan
  | (e, plan) => inl (fail e (snd plan), plan)
  end.

(** [if result != Ok { continue; }], in the loops over bags. *)
Definition lenient (phase : Phase) : Step := fun plan =>
  match phase plan with
  | (InventoryResult.Ok, plan) => finish plan
  | (_, plan) => inr plan
  end.

(** A step taken only under a condition. *)
Definition given (b : bool) (steps : list Step) : list Step := if b then steps else [].

Fixpoint run_steps (steps : list Step) (plan : Plan) : (O * Plan) + Plan :=
  match steps with
  | [] => inr plan
  | step :: steps =>
      match step plan with
      | inl r => inl r
      | inr plan => run_steps steps plan
      end
  end.
End Steps.

(** A second phase when the first one fails, as for a requested bag: specialized
    first, then regular. *)
Definition or_else (first second : Phase) : Phase := fun plan =>
  match first plan with
  | (InventoryResult.Ok, plan) => (InventoryResult.Ok, plan)
  | (_, plan) => second plan
  end.

(** * [can_store_item] *)
Record CanStoreItemOutcome : Type := mkOutcome
  { result : InventoryResult.t; no_space_count : option Z }.

(** [count + no_similar_count], in [u32]. *)
Definition can_store_item_error (e : InventoryResult.t) (count no_similar_count : Z) :
    CanStoreItemOutcome :=
  mkOutcome e (Some (u32 (count + no_similar_count))).

(** [can_store_item_count_zero], once the count is zero. *)
Definition store_done (no_similar_count : Z) : CanStoreItemOutcome :=
  if no_similar_count =? 0 then mkOutcome InventoryResult.Ok None
  else can_store_item_error InventoryResult.ItemMaxCount 0 no_similar_count.

Record CanStoreItemArgs : Type := mkStoreArgs
  { store_bag : Z; store_slot : Z; store_count : Z; store_proto : option ItemStorageTemplate;
    source_item : option Item; source_is_not_empty_bag : bool;
    source_bop_trade_allowed_for_player : bool; swap : bool;
    limit_category : option ItemLimitCategoryTemplate; slot_items : list ItemSlotRef;
    stored_items : list ItemStorageRef; bag_templates : list BagTemplateRef }.

Section Store.
Variable p : Player.
Variable args : CanStoreItemArgs.
Variable proto : ItemStorageTemplate.

Definition in_slots (slot_begin slot_end : Z) (merge : bool) : Phase :=
  can_store_item_in_inventory_slots slot_begin slot_end proto merge (source_item args)
    (source_is_not_empty_bag args) (store_bag args) (store_slot args) (slot_items args).

Definition in_bag (bag : Z) (merge non_specialized : bool) (skip_bag : Z) : Phase :=
  can_store_item_in_bag bag proto merge non_specialized (source_item args)
    (source_is_not_empty_bag args) skip_bag (store_slot args)
    (bag_template_by_pos (bag_templates args) bag) (slot_items args) p.

(** The bag asked for, specialized or regular. *)
Definition in_requested_bag (merge : bool) : Phase :=
  or_else (in_bag (store_bag args) merge false NULL_BAG)
    (in_bag (store_bag args) merge true NULL_BAG).

Definition in_specific_slot : Phase :=
  can_store_item_in_specific_slot (store_bag args) (store_slot args) proto (swap args)
    (item_ref_by_pos (slot_items args) (store_bag args) (store_slot args)) (source_item args)
    (source_is_not_empty_bag args) (bag_template_by_pos (bag_templates args) (store_bag args)) p.

(** What the items already owned leave of the count, and what they do not; or the
    outcome when nothing is left.  The subtraction is in [u32]. *)
Definition store_similar : CanStoreItemOutcome + Z * Z :=
  let similar :=
    can_take_more_similar_items (Some proto) (store_count args) (source_item args)
      (item_count_by_entry (entry proto) true (source_item args) (stored_items args))
      (limit_category args)
      (item_count_with_limit_category (item_limit_category proto) (source_item args)
         (stored_items args)) in
  match similar_result similar with
  | InventoryResult.Ok => inr (store_count args, 0)
  | e =>
      let no_similar_count := default 0 (similar_no_space_count similar) in
      if store_count args =? no_similar_count
      then inl (can_store_item_error e no_similar_count 0)
      else inr (u32 (store_count args - no_similar_count), no_similar_count)
  end.

(** A new bag may also go straight into an equipped bag slot. *)
Definition search_slot_start : Z :=
  if negb (bool_decide (is_Some (source_item args))) && is_regular_container proto
     && match bonding proto with
        | ItemBondingType.None | ItemBondingType.OnAcquire => true
        | _ => false
        end
  then INVENTORY_SLOT_BAG_START else INVENTORY_SLOT_ITEM_START.

Definition stackable : bool := negb (max_stack_size proto =? 1).
Definition is_keys : bool := family_contains proto BagFamilyMask.KEYS.
Definition has_family : bool := negb (bag_family proto =? 0).
Definition source_is_child : bool :=
  match source_item args with Some s => is_child s | None => false end.

Definition inventory_bags : list Z := slot_range INVENTORY_SLOT_BAG_START INVENTORY_SLOT_BAG_END.

Section StoreSteps.
Variable no_similar_count : Z.

Let fail e count := can_store_item_error e count no_similar_count.
Let done := store_done no_similar_count.

Definition store_in_backpack (merge : bool) : list Step :=
  [strict fail done (in_slots INVENTORY_SLOT_ITEM_START (inventory_end p) merge)].
Definition store_in_child_slots (merge : bool) : list Step :=
  [strict fail done (in_slots CHILD_EQUIPMENT_SLOT_START CHILD_EQUIPMENT_SLOT_END merge)].
Definition store_in_keyring : list Step :=
  [strict fail done (in_slots KEYRING_SLOT_START KEYRING_SLOT_END false)].
Definition store_in_bags (merge non_specialized : bool) : list Step :=
  (fun bag => lenient done (in_bag bag merge non_specialized (store_bag args))) <$> inventory_bags.

(** The slot asked for, then the bag asked for (stacks first), then anywhere:
    stacks, the bags and keyring of the item's family, its child slots, empty
    slots of the backpack, regular bags. *)
Definition store_requested_slot : list Step :=
  given (negb (store_bag args =? NULL_BAG) && negb (store_slot args =? NULL_SLOT))
    [strict fail done in_specific_slot].

Definition store_merge_requested : list Step :=
  given stackable
    (if store_bag args =? INVENTORY_SLOT_BAG_0
     then store_in_child_slots true ++ store_in_backpack true
     else [strict fail done (in_requested_bag true)]).

Definition store_free_requested : list Step :=
  if store_bag args =? INVENTORY_SLOT_BAG_0
  then given is_keys store_in_keyring
       ++ given source_is_child (store_in_child_slots false)
       ++ store_in_backpack false
  else [strict fail done (in_requested_bag false)].

Definition store_requested_bag : list Step :=
  given (negb (store_bag args =? NULL_BAG)) (store_merge_requested ++ store_free_requested).

Definition store_merge_anywhere : list Step :=
  given stackable
    (store_in_child_slots true ++ store_in_backpack true
     ++ given has_family (store_in_bags true false) ++ store_in_bags true true).

Definition store_in_family : list Step :=
  given has_family (given is_keys store_in_keyring ++ store_in_bags false false).

(** [if args.source_is_not_empty_bag { return BagInBag }]. *)
Definition refuse_full_bag : Step := fun plan =>
  if source_is_not_empty_bag args then inl (mkOutcome InventoryResult.BagInBag None, plan)
  else inr plan.

Definition store_free_anywhere : list Step :=
  refuse_full_bag
  :: given source_is_child (store_in_child_slots false)
  ++ [strict fail done (in_slots search_slot_start (inventory_end p) false)]
  ++ store_in_bags false true.

Definition store_steps : list Step :=
  store_requested_slot ++ store_requested_bag ++ store_merge_anywhere ++ store_in_family
  ++ store_free_anywhere.

Definition store_run (plan : Plan) : CanStoreItemOutcome * Plan :=
  match run_steps store_steps plan with
  | inl r => r
  | inr plan => (fail InventoryResult.InvFull (snd plan), plan)
  end.
End StoreSteps.
End Store.

Definition can_store_item (dest : list ItemPosCount) (args : CanStoreItemArgs) (p : Player) :
    CanStoreItemOutcome * list ItemPosCount :=
  match store_proto args with
  | None =>
      (can_store_item_error
         (if swap args then InventoryResult.CantSwap else InventoryResult.ItemNotFound)
         (store_count args) 0, dest)
  | Some proto =>
      if match source_item args with Some s => loot_generated s | None => false end
      then (can_store_item_error InventoryResult.LootGone (store_count args) 0, dest)
      else if match source_item args with
              | Some s => is_binded_not_with (player_guid p) proto
                            (source_bop_trade_allowed_for_player args) s
              | None => false
              end
      then (can_store_item_error InventoryResult.NotOwner (store_count args) 0, dest)
      else
        match store_similar args proto with
        | inl outcome => (outcome, dest)
        | inr (count, no_similar_count) =>
            let '(outcome, (dest, _)) :=
              store_run p args proto no_similar_count (dest, count) in
            (outcome, dest)
        end
  end.

(** * [can_bank_item] *)
Record CanBankItemArgs : Type := mkBankArgs
  { bank_bag : Z; bank_slot : Z; bank_proto : option ItemStorageTemplate;
    bank_source_item : option Item; bank_source_is_not_empty_bag : bool; source_is_bag : bool;
    source_is_currency_token : bool; bank_bop_trade_allowed_for_player : bool;
    bank_swap : bool; can_use_result : InventoryResult.t;
    bank_limit_category : option ItemLimitCategoryTemplate; bank_slot_items : list ItemSlotRef;
    bank_stored_items : list ItemStorageRef; bank_bag_templates : list BagTemplateRef }.

(** The part that both kinds of plan share. *)
Definition bank_store_args (args : CanBankItemArgs) (count : Z) : CanStoreItemArgs :=
  mkStoreArgs (bank_bag args) (bank_slot args) count (bank_proto args) (bank_source_item args)
    (bank_source_is_not_empty_bag args) (bank_bop_trade_allowed_for_player args)
    (bank_swap args) (bank_limit_category args) (bank_slot_items args)
    (bank_stored_items args) (bank_bag_templates args).

Section Bank.
Variable p : Player.
Variable bank_args : CanBankItemArgs.
Variable proto : ItemStorageTemplate.

Let args := bank_store_args bank_args 0.
Let fail (e : InventoryResult.t) (_ : Z) := e.
Let done := InventoryResult.Ok.

Definition bank_bags : list Z := slot_range BANK_SLOT_BAG_START BANK_SLOT_BAG_END.

Definition bank_in_slots (merge : bool) : list Step :=
  [strict fail done (in_slots args proto BANK_SLOT_ITEM_START BANK_SLOT_ITEM_END merge)].
Definition bank_in_bags (merge non_specialized : bool) : list Step :=
  (fun bag => lenient done (in_bag p args proto bag merge non_specialized (bank_bag bank_args)))
    <$> bank_bags.

(** A bag slot of the bank must have been bought, and takes bags one can use. *)
Definition refuse_bank_bag_slot : Step := fun plan =>
  if in_range BANK_SLOT_BAG_START BANK_SLOT_BAG_END (bank_slot bank_args) then
    if negb (source_is_bag bank_args) then inl (InventoryResult.WrongSlot, plan)
    else if num_bank_slots p <=? bank_slot bank_args - BANK_SLOT_BAG_START
    then inl (InventoryResult.NoBankSlot, plan)
    else
      match can_use_result bank_args with
      | InventoryResult.Ok => inr plan
      | e => inl (e, plan)
      end
  else inr plan.

Definition bank_refuse_full_bag : Step := fun plan =>
  if bank_source_is_not_empty_bag bank_args then inl (InventoryResult.BagInBag, plan)
  else inr plan.

Definition bank_requested_slot : list Step :=
  given (negb (bank_bag bank_args =? NULL_BAG) && negb (bank_slot bank_args =? NULL_SLOT))
    [refuse_bank_bag_slot; strict fail done (in_specific_slot p args proto)].

Definition bank_requested_bag : list Step :=
  given (negb (bank_bag bank_args =? NULL_BAG))
    (bank_refuse_full_bag
     :: given (stackable proto)
          (if bank_bag bank_args =? INVENTORY_SLOT_BAG_0 then bank_in_slots true
           else [strict fail done (in_requested_bag p args proto true)])
     ++ (if bank_bag bank_args =? INVENTORY_SLOT_BAG_0 then bank_in_slots false
         else [strict fail done (in_requested_bag p args proto false)])).

Definition bank_anywhere : list Step :=
  given (stackable proto)
    (bank_in_slots true ++ given (has_family proto) (bank_in_bags true false)
     ++ bank_in_bags true true)
  ++ given (has_family proto) (bank_in_bags false false)
  ++ bank_in_slots false ++ bank_in_bags false true.

Definition bank_steps : list Step := bank_requested_slot ++ bank_requested_bag ++ bank_anywhere.

Definition bank_run (plan : Plan) : InventoryResult.t * Plan :=
  match run_steps bank_steps plan with
  | inl r => r
  | inr plan => (InventoryResult.BankFull, plan)
  end.
End Bank.

Definition can_bank_item (dest : list ItemPosCount) (args : CanBankItemArgs) (p : Player) :
    InventoryResult.t * list ItemPosCount :=
  match bank_source_item args, bank_proto args with
  | Some source, Some proto =>
      if loot_generated source then (InventoryResult.LootGone, dest)
      else if is_binded_not_with (player_guid p) proto
                (bank_bop_trade_allowed_for_player args) source
      then (InventoryResult.NotOwner, dest)
      else if source_is_currency_token args then (InventoryResult.CantSwap, dest)
      else
        let similar :=
          can_take_more_similar_items (bank_proto args) (item_count source)
            (bank_source_item args)
            (item_count_by_entry (entry proto) true (bank_source_item args)
               (bank_stored_items args))
            (bank_limit_category args)
            (item_count_with_limit_category (item_limit_category proto)
               (bank_source_item args) (bank_stored_items args)) in
        match similar_result similar with
        | InventoryResult.Ok =>
            let '(r, (dest, _)) := bank_run p args proto (dest, item_count source) in
            (r, dest)
        | e => (e, dest)
        end
  | _, _ =>
      (if bank_swap args then InventoryResult.CantSwap else InventoryResult.ItemNotFound, dest)
  end.
