(* ===== verification/InventoryDestroy.v ===== *)
(** wow-entities/src/player: the plans that destroy a number of items of one
    entry, or the items a filter marks, and the scans of mod.rs they are made of. *)
From S2P Require Import Prelude Guid InventoryModel Items InventoryStorage.

Record DestroyItemCountItemRef : Type := mkDestroyRef
  { destroy_bag : Z; destroy_slot : Z; destroy_item : Item;
    can_unequip_result : InventoryResult.t }.

Record DestroyItemCountAction : Type := mkDestroyAction
  { action_bag : Z; action_slot : Z; action_removed : Z; action_remaining : Z;
    destroy_stack : bool }.

Record DestroyItemCountPlan : Type := mkDestroyPlan
  { removed_count : Z; actions : list DestroyItemCountAction }.

#[export] Instance eta_destroy_plan : Eta DestroyItemCountPlan := fun p =>
  mkDestroyPlan (removed_count p) (actions p).

Section Count.
Variable refs : list DestroyItemCountItemRef.
Variable item_entry_wanted : Z.
Variable requested_count : Z.
Variable unequip_check : bool.

Definition destroy_item_count_item_by_pos (bag slot : Z) : option DestroyItemCountItemRef :=
  find_first (fun r => destroy_bag r = bag /\ destroy_slot r = slot) refs.

(** [plan.removed_count += item_count] does not wrap: it stays at most the
    requested count. *)
Definition destroy_item_count_consider_item (require_unequip_for_full_stack : bool)
    (r : DestroyItemCountItemRef) (check : bool) (plan : DestroyItemCountPlan) :
    DestroyItemCountPlan :=
  let i := destroy_item r in
  if (requested_count <=? removed_count plan) || negb (item_entry i =? item_entry_wanted)
     || is_in_trade i
  then plan
  else
    let needed := requested_count - removed_count plan in
    if item_count i <=? needed then
      if require_unequip_for_full_stack && check
         && bool_decide (can_unequip_result r <> InventoryResult.Ok)
      then plan
      else plan <| actions := actions plan ++
                     [mkDestroyAction (destroy_bag r) (destroy_slot r) (item_count i) 0 true] |>
                <| removed_count := removed_count plan + item_count i |>
    else plan <| actions := actions plan ++
                   [mkDestroyAction (destroy_bag r) (destroy_slot r) needed
                      (item_count i - needed) false] |>
              <| removed_count := requested_count |>.

(** The scan of a list of positions, shared by both kinds of range. *)
Fixpoint destroy_scan (positions : list (Z * Z)) (require_unequip check : bool)
    (plan : DestroyItemCountPlan) : DestroyItemCountPlan :=
  match positions with
  | [] => plan
  | (bag, slot) :: rest =>
      match destroy_item_count_item_by_pos bag slot with
      | None => destroy_scan rest require_unequip check plan
      | Some r =>
          let plan := destroy_item_count_consider_item require_unequip r check plan in
          if requested_count <=? removed_count plan then plan
          else destroy_scan rest require_unequip check plan
      end
  end.

Definition top_level_positions (start stop : Z) : list (Z * Z) :=
  (fun slot => (INVENTORY_SLOT_BAG_0, slot)) <$> slot_range start stop.

Definition bag_positions (start_bag end_bag : Z) : list (Z * Z) :=
  bag ← slot_range start_bag end_bag; pair bag <$> slot_range 0 MAX_BAG_SIZE.

Definition destroy_item_count_scan_top_level_range (start stop : Z) (require_unequip : bool)
    (plan : DestroyItemCountPlan) : DestroyItemCountPlan :=
  destroy_scan (top_level_positions start stop) require_unequip unequip_check plan.

Definition destroy_item_count_scan_bag_ranges (start_bag end_bag : Z)
    (plan : DestroyItemCountPlan) : DestroyItemCountPlan :=
  destroy_scan (bag_positions start_bag end_bag) false false plan.

(** [if plan.removed_count >= count { return plan; }] between the scans. *)
Fixpoint destroy_passes (passes : list (DestroyItemCountPlan -> DestroyItemCountPlan))
    (plan : DestroyItemCountPlan) : DestroyItemCountPlan :=
  match passes with
  | [] => plan
  | pass :: rest =>
      let plan := pass plan in
      if requested_count <=? removed_count plan then plan else destroy_passes rest plan
  end.

(** Backpack, keyring, bags, equipment, bank, bank bags, the bank's bag slots,
    child slots. *)
Definition destroy_item_count_by_entry_plan (inventory_slot_count : Z) : DestroyItemCountPlan :=
  let plan := mkDestroyPlan 0 [] in
  if requested_count =? 0 then plan
  else
    destroy_passes
      [destroy_item_count_scan_top_level_range INVENTORY_SLOT_ITEM_START
         (sat_add u8_max INVENTORY_SLOT_ITEM_START inventory_slot_count) false;
       destroy_item_count_scan_top_level_range KEYRING_SLOT_START KEYRING_SLOT_END false;
       destroy_item_count_scan_bag_ranges INVENTORY_SLOT_BAG_START INVENTORY_SLOT_BAG_END;
       destroy_item_count_scan_top_level_range 0 INVENTORY_SLOT_BAG_END true;
       destroy_item_count_scan_top_level_range BANK_SLOT_ITEM_START BANK_SLOT_ITEM_END false;
       destroy_item_count_scan_bag_ranges BANK_SLOT_BAG_START BANK_SLOT_BAG_END;
       destroy_item_count_scan_top_level_range BANK_SLOT_BAG_START BANK_SLOT_BAG_END true;
       destroy_item_count_scan_top_level_range CHILD_EQUIPMENT_SLOT_START
         CHILD_EQUIPMENT_SLOT_END false] plan.
End Count.

(** * Items marked by a filter *)
Record DestroyFilteredItemRef : Type := mkFilteredRef
  { filtered_bag : Z; filtered_slot : Z; should_destroy : bool }.
Record DestroyFilteredItemAction : Type := mkFilteredAction
  { filtered_action_bag : Z; filtered_action_slot : Z }.

Section Filtered.
Variable refs : list DestroyFilteredItemRef.

Definition destroy_filtered_item_by_pos (bag slot : Z) : option DestroyFilteredItemRef :=
  find_first (fun r => filtered_bag r = bag /\ filtered_slot r = slot) refs.

Definition destroy_filtered_consider_item (r : DestroyFilteredItemRef)
    (l : list DestroyFilteredItemAction) : list DestroyFilteredItemAction :=
  if should_destroy r then l ++ [mkFilteredAction (filtered_bag r) (filtered_slot r)] else l.

Fixpoint destroy_filtered_scan (positions : list (Z * Z)) (l : list DestroyFilteredItemAction) :
    list DestroyFilteredItemAction :=
  match positions with
  | [] => l
  | (bag, slot) :: rest =>
      destroy_filtered_scan rest
        (match destroy_filtered_item_by_pos bag slot with
         | Some r => destroy_filtered_consider_item r l
         | None => l
         end)
  end.

Definition destroy_filtered_scan_top_level_range (start stop : Z) :=
  destroy_filtered_scan (top_level_positions start stop).
Definition destroy_filtered_scan_bag_ranges (start_bag end_bag : Z) :=
  destroy_filtered_scan (bag_positions start_bag end_bag).

Definition destroy_zone_limited_item_plan (inventory_slot_count : Z) :
    list DestroyFilteredItemAction :=
  let l := destroy_filtered_scan_top_level_range INVENTORY_SLOT_ITEM_START
             (sat_add u8_max INVENTORY_SLOT_ITEM_START inventory_slot_count) [] in
  let l := destroy_filtered_scan_top_level_range KEYRING_SLOT_START KEYRING_SLOT_END l in
  let l := destroy_filtered_scan_bag_ranges INVENTORY_SLOT_BAG_START INVENTORY_SLOT_BAG_END l in
  destroy_filtered_scan_top_level_range 0 INVENTORY_SLOT_BAG_END l.

Definition destroy_conjured_items_plan (inventory_slot_count : Z) :
    list DestroyFilteredItemAction :=
  let l := destroy_filtered_scan_top_level_range INVENTORY_SLOT_ITEM_START
             (sat_add u8_max INVENTORY_SLOT_ITEM_START inventory_slot_count) [] in
  let l := destroy_filtered_scan_bag_ranges INVENTORY_SLOT_BAG_START INVENTORY_SLOT_BAG_END l in
  destroy_filtered_scan_top_level_range 0 INVENTORY_SLOT_BAG_END l.
End Filtered.

(** What the plan to destroy a number of items (InventoryDestroy.v) guarantees:
    it destroys that many if the player has them, from stacks that exist, each
    at most once. *)

(** * The scans as one walk over the slots *)

(** A slot and whether a whole stack there must be one the player may unequip. *)
Definition Visit : Type := (Z * Z) * bool.

Section Walk.
Context (refs : list DestroyItemCountItemRef) (wanted requested : Z).

Definition item_at (v : Visit) : option DestroyItemCountItemRef :=
  destroy_item_count_item_by_pos refs v.1.1 v.1.2.

Definition consider (v : Visit) (plan : DestroyItemCountPlan) : DestroyItemCountPlan :=
  match item_at v with
  | None => plan
  | Some r => destroy_item_count_consider_item wanted requested v.2 r true plan
  end.

Definition walk (l : list Visit) (plan : DestroyItemCountPlan) : DestroyItemCountPlan :=
  foldl (fun plan v => consider v plan) plan l.

#[local] Arguments walk : simpl never.
#[local] Arguments consider : simpl never.

Lemma walk_cons v l plan : walk (v :: l) plan = walk l (consider v plan).
Proof. done. Qed.

Lemma consider_done v plan : requested <= removed_count plan -> consider v plan = plan.
Proof.
  intros H. unfold consider, destroy_item_count_consider_item. destruct (item_at v); [|done].
  by destruct (Z.leb_spec requested (removed_count plan)); [|lia].
Qed.

Lemma walk_done l plan : requested <= removed_count plan -> walk l plan = plan.
Proof.
  revert plan. induction l as [|v l IH]; intros plan H; [done|].
  rewrite walk_cons, consider_done by done. by apply IH.
Qed.

Lemma walk_app l1 l2 plan : walk (l1 ++ l2) plan = walk l2 (walk l1 plan).
Proof. apply foldl_app. Qed.

Lemma destroy_scan_walk positions require_unequip check plan :
  destroy_scan refs wanted requested positions require_unequip check plan
  = walk ((fun position => (position, require_unequip && check)) <$> positions) plan.
Proof.
  revert plan. induction positions as [|[bag slot] positions IH]; intros plan; cbn; [done|].
  rewrite walk_cons. unfold consider, item_at. cbn [fst snd].
  destruct (destroy_item_count_item_by_pos refs bag slot) as [r|]; [|apply IH].
  assert (E : destroy_item_count_consider_item wanted requested (require_unequip && check) r true plan
              = destroy_item_count_consider_item wanted requested require_unequip r check plan).
  { unfold destroy_item_count_consider_item. by rewrite andb_true_r. }
  rewrite E. destruct (Z.leb_spec requested
    (removed_count (destroy_item_count_consider_item wanted requested require_unequip r check plan))).
  - by rewrite walk_done.
  - apply IH.
Qed.

Lemma destroy_passes_walk passes visits plan :
  Forall2 (fun pass l => forall plan, pass plan = walk l plan) passes visits ->
  destroy_passes requested passes plan = walk (concat visits) plan.
Proof.
  intros H. revert plan. induction H as [|pass l passes visits Hp H IH]; intros plan; cbn; [done|].
  rewrite walk_app, Hp. destruct (Z.leb_spec requested (removed_count (walk l plan))).
  - symmetry. by apply walk_done.
  - apply IH.
Qed.

(** * What a walk destroys *)

(** The stacks that may be destroyed as a whole. *)
Definition eligible (v : Visit) (r : DestroyItemCountItemRef) : Prop :=
  item_at v = Some r /\ item_entry (destroy_item r) = wanted /\ is_in_trade (destroy_item r) = false /\
  (v.2 = true -> can_unequip_result r = InventoryResult.Ok).

Fixpoint total_removed (l : list DestroyItemCountAction) : Z :=
  match l with [] => 0 | a :: l => action_removed a + total_removed l end.

Lemma total_removed_app l1 l2 : total_removed (l1 ++ l2) = total_removed l1 + total_removed l2.
Proof. induction l1; cbn; lia. Qed.

Definition action_pos (a : DestroyItemCountAction) : Z * Z := (action_bag a, action_slot a).

(** The action takes from a stack of the wanted item no more than it has, and
    says what is left. *)
Definition exact_action (a : DestroyItemCountAction) : Prop :=
  exists r, destroy_item_count_item_by_pos refs (action_bag a) (action_slot a) = Some r /\
    item_entry (destroy_item r) = wanted /\ is_in_trade (destroy_item r) = false /\
    action_removed a + action_remaining a = item_count (destroy_item r) /\
    0 <= action_removed a /\ 0 <= action_remaining a /\
    destroy_stack a = (action_remaining a =? 0).

Definition whole (r : DestroyItemCountItemRef) : DestroyItemCountAction :=
  mkDestroyAction (destroy_bag r) (destroy_slot r) (item_count (destroy_item r)) 0 true.

Hypothesis Hcounts : Forall (fun r => 0 <= item_count (destroy_item r)) refs.

Lemma item_at_pos v r :
  item_at v = Some r -> (destroy_bag r, destroy_slot r) = v.1 /\ 0 <= item_count (destroy_item r).
Proof.
  unfold item_at, destroy_item_count_item_by_pos. intros H. apply find_first_Some in H as [Hin [H1 H2]].
  rewrite Forall_forall in Hcounts. split; [|by apply Hcounts]. destruct v as [[? ?] ?]. cbn in *. congruence.
Qed.

Lemma consider_spec v plan :
  removed_count plan <= requested ->
  exists l, actions (consider v plan) = actions plan ++ l /\
    removed_count (consider v plan) = removed_count plan + total_removed l /\
    removed_count (consider v plan) <= requested /\
    Forall exact_action l /\ action_pos <$> l `sublist_of` [v.1] /\
    (removed_count (consider v plan) < requested ->
     forall r, eligible v r -> l = [whole r]) /\
    (removed_count (consider v plan) < requested -> l <> [] -> exists r, eligible v r /\ l = [whole r]).
Proof.
  intros Hle.
  assert (Hnil : (removed_count plan < requested -> forall r, eligible v r -> [] = [whole r]) ->
            exists l, actions plan = actions plan ++ l /\
    removed_count plan = removed_count plan + total_removed l /\ removed_count plan <= requested /\
    Forall exact_action l /\ action_pos <$> l `sublist_of` [v.1] /\
    (removed_count plan < requested -> forall r, eligible v r -> l = [whole r]) /\
    (removed_count plan < requested -> l <> [] -> exists r, eligible v r /\ l = [whole r])).
  { intros H. exists []. rewrite app_nil_r. cbn. rewrite Z.add_0_r.
    do 3 (split; [done|]). split; [constructor|]. split; [apply sublist_nil_l|]. done. }
  unfold consider. destruct (item_at v) as [r|] eqn:Er.
  2: { apply Hnil. intros _ r (E & _). congruence. }
  destruct (item_at_pos v r Er) as [Epos Hpos].
  assert (Ev : destroy_item_count_item_by_pos refs (destroy_bag r) (destroy_slot r) = Some r).
  { unfold item_at in Er. rewrite <- Epos in Er. exact Er. }
  unfold destroy_item_count_consider_item.
  destruct (Z.leb_spec requested (removed_count plan)); [apply Hnil; lia|]. cbn [orb].
  destruct (Z.eqb_spec (item_entry (destroy_item r)) wanted) as [Ee|Ee]; cbn [negb orb].
  2: { apply Hnil. intros _ r' (E & E' & _). congruence. }
  destruct (is_in_trade (destroy_item r)) eqn:Etrade; cbn [orb].
  { apply Hnil. intros _ r' (E & _ & E' & _). congruence. }
  assert (Hone : action_pos (whole r) = v.1) by done.
  destruct (Z.leb_spec (item_count (destroy_item r)) (requested - removed_count plan)).
  - destruct (v.2 && true && _) eqn:Eu.
    + apply andb_true_iff in Eu as [Eu1 Eu2]. rewrite andb_true_r in Eu1.
      apply bool_decide_eq_true in Eu2. apply Hnil. intros _ r' (E & _ & _ & E').
      rewrite Er in E. simplify_eq. by destruct Eu2; apply E'.
    + exists [whole r]. cbn. rewrite Z.add_0_r.
      assert (He : eligible v r).
      { split; [done|]. split; [done|]. split; [done|]. intros E. rewrite E in Eu. cbn in Eu.
        by apply bool_decide_eq_false, dec_stable in Eu. }
      split; [done|]. split; [done|]. split; [lia|]. split.
      { constructor; [|done]. exists r. cbn. repeat split; done || lia. }
      split; [by rewrite <- Hone|]. split; [|by eauto].
      intros _ r' (E & _). congruence.
  - eexists. cbn. split; [done|]. cbn. split; [lia|]. split; [lia|]. split.
    { constructor; [|done]. exists r. cbn. repeat split; try done; try lia. }
    split; [by rewrite <- Hone|]. split; intros; lia.
Qed.

Lemma walk_spec l plan :
  removed_count plan <= requested ->
  exists new, actions (walk l plan) = actions plan ++ new /\
    removed_count (walk l plan) = removed_count plan + total_removed new /\
    removed_count (walk l plan) <= requested /\
    Forall exact_action new /\ action_pos <$> new `sublist_of` l.*1 /\
    (removed_count (walk l plan) < requested ->
     forall a, a ∈ new <-> exists v r, v ∈ l /\ eligible v r /\ a = whole r).
Proof.
  revert plan. induction l as [|v l IH]; intros plan Hle.
  - exists []. cbn. rewrite app_nil_r, Z.add_0_r. do 3 (split; [done|]). split; [constructor|].
    split; [done|]. intros _ a. split; [by intros H%not_elem_of_nil|].
    intros (v & r & H & _). by apply not_elem_of_nil in H.
  - destruct (consider_spec v plan Hle) as (l1 & E1 & R1 & B1 & F1 & S1 & A1 & O1).
    destruct (IH (consider v plan) B1) as (l2 & E2 & R2 & B2 & F2 & S2 & A2).
    rewrite walk_cons. exists (l1 ++ l2). rewrite E2, E1, R2, R1, app_assoc, total_removed_app, fmap_app.
    split; [done|]. split; [lia|]. split; [lia|]. split; [by apply Forall_app|].
    split; [change ((v :: l).*1) with ([v.1] ++ l.*1); by apply sublist_app|]. intros Hlt.
    assert (H2 : 0 <= total_removed l2).
    { clear -F2. induction F2 as [|a l2 (r & _ & _ & _ & _ & H & _) _ IH]; cbn; lia. }
    assert (H1 : removed_count (consider v plan) < requested) by lia.
    assert (H3 : removed_count (walk l (consider v plan)) < requested) by lia.
    specialize (A1 H1). specialize (O1 H1). specialize (A2 H3).
    intros a. rewrite elem_of_app, A2. split.
    + intros [Ha|(v' & r & Hv & He & ->)].
      * destruct O1 as (r & He & ->); [by intros ->; apply not_elem_of_nil in Ha|].
        apply list_elem_of_singleton in Ha as ->. exists v, r. split; [apply list_elem_of_here|done].
      * exists v', r. split; [by apply list_elem_of_further|done].
    + intros (v' & r & [->|Hv]%elem_of_cons & He & ->).
      * left. rewrite (A1 r He). by apply list_elem_of_singleton.
      * right. by exists v', r.
Qed.
End Walk.

(** * The plan *)

(** Every slot that the plan looks at, in order. *)
Definition destroy_visits (unequip_check : bool) (inventory_slot_count : Z) : list Visit :=
  let at_top start stop strict :=
    (fun position => (position, strict && unequip_check)) <$> top_level_positions start stop in
  let in_bags start_bag end_bag :=
    (fun position => (position, false)) <$> bag_positions start_bag end_bag in
  concat
    [at_top INVENTORY_SLOT_ITEM_START (sat_add u8_max INVENTORY_SLOT_ITEM_START inventory_slot_count) false;
     at_top KEYRING_SLOT_START KEYRING_SLOT_END false;
     in_bags INVENTORY_SLOT_BAG_START INVENTORY_SLOT_BAG_END;
     at_top 0 INVENTORY_SLOT_BAG_END true;
     at_top BANK_SLOT_ITEM_START BANK_SLOT_ITEM_END false;
     in_bags BANK_SLOT_BAG_START BANK_SLOT_BAG_END;
     at_top BANK_SLOT_BAG_START BANK_SLOT_BAG_END true;
     at_top CHILD_EQUIPMENT_SLOT_START CHILD_EQUIPMENT_SLOT_END false].

Lemma plan_walk refs wanted requested unequip_check n :
  0 <= requested ->
  destroy_item_count_by_entry_plan refs wanted requested unequip_check n
  = walk refs wanted requested (destroy_visits unequip_check n) (mkDestroyPlan 0 []).
Proof.
  intros H. unfold destroy_item_count_by_entry_plan.
  destruct (Z.eqb_spec requested 0) as [->|Hn]; [by rewrite walk_done|].
  unfold destroy_visits. apply destroy_passes_walk.
  repeat constructor; intros plan; apply destroy_scan_walk.
Qed.

Lemma visits_sublist unequip_check n m :
  0 <= n <= m -> m <= INVENTORY_SLOT_ITEM_END - INVENTORY_SLOT_ITEM_START ->
  (destroy_visits unequip_check n).*1 `sublist_of` (destroy_visits unequip_check m).*1.
Proof.
  intros Hn Hm. apply fmap_sublist. unfold destroy_visits. cbn [concat].
  apply sublist_app; [|done]. do 2 apply fmap_sublist. unfold slot_range, sat_add, u8_max.
  unfold INVENTORY_SLOT_ITEM_END, INVENTORY_SLOT_ITEM_START in *. rewrite !Z.min_r by lia.
  replace (35 + m - 35) with (35 + n - 35 + (m - n)) by lia.
  rewrite seqZ_app by lia. by apply sublist_inserts_r.
Qed.

(** No slot is looked at twice, as long as the backpack does not reach the bank. *)
Lemma visits_NoDup unequip_check n :
  0 <= n <= INVENTORY_SLOT_ITEM_END - INVENTORY_SLOT_ITEM_START -> NoDup (destroy_visits unequip_check n).*1.
Proof.
  intros Hn. eapply sublist_NoDup; [|apply (visits_sublist _ _ 24); [|done]; split; apply Hn].
  apply (bool_decide_unpack (NoDup _)). destruct unequip_check; vm_compute; exact I.
Qed.

(** C25: the plan to destroy a number of items of one kind never destroys more than
    asked for, adds up to what it reports, and takes from each stack at most once
    and no more than it holds, never from one being traded; and it destroys
    fewer than asked for only if it destroys every stack that may be destroyed,
    wherever it lies. *)
Theorem destroy_plan_exact refs wanted requested unequip_check n
    (Hcounts : Forall (fun r => 0 <= item_count (destroy_item r)) refs) (Hreq : 0 <= requested)
    (Hn : 0 <= n <= INVENTORY_SLOT_ITEM_END - INVENTORY_SLOT_ITEM_START) :
  let plan := destroy_item_count_by_entry_plan refs wanted requested unequip_check n in
  removed_count plan = total_removed (actions plan) /\ removed_count plan <= requested /\
  Forall (exact_action refs wanted) (actions plan) /\ NoDup (action_pos <$> actions plan) /\
  (removed_count plan < requested ->
   forall a, a ∈ actions plan <->
     exists v r, v ∈ destroy_visits unequip_check n /\ eligible refs wanted v r /\ a = whole r).
Proof.
  cbn zeta. rewrite plan_walk by done.
  destruct (walk_spec refs wanted requested Hcounts (destroy_visits unequip_check n) (mkDestroyPlan 0 []) Hreq)
    as (l & E & R & B & F & S & A). rewrite E, R. cbn in *.
  split; [done|]. split; [lia|]. split; [done|]. split; [|by rewrite <- R].
  eapply sublist_NoDup; [by apply visits_NoDup|exact S].
Qed.

(** Two stacks of three and four, of which five items go: the second stack keeps
    two. *)
Lemma destroy_plan_exact_witness :
  let item count := (item_new 0) <| item_entry := 100 |> <| item_count := count |> in
  let refs := [mkDestroyRef INVENTORY_SLOT_BAG_0 35 (item 3) InventoryResult.Ok;
               mkDestroyRef 30 2 (item 4) InventoryResult.Ok] in
  let plan := destroy_item_count_by_entry_plan refs 100 5 false 16 in
  plan = mkDestroyPlan 5 [mkDestroyAction INVENTORY_SLOT_BAG_0 35 3 0 true;
                          mkDestroyAction 30 2 2 2 false] /\
  removed_count plan = total_removed (actions plan).
Proof.
  cbn zeta. split; [by vm_compute|].
  refine (proj1 (destroy_plan_exact _ 100 5 false 16 _ _ _)); [by repeat constructor|lia|].
  unfold INVENTORY_SLOT_ITEM_END, INVENTORY_SLOT_ITEM_START. lia.
Defined.
