(* ===== verification/InventoryPlanLemmas.v ===== *)
(** What the phases of InventoryPlan.v do to a plan: they only add positions
    that have room, each once, and account for every item placed. *)
From S2P Require Import Prelude Guid InventoryModel Items InventoryStorage InventoryPlan.

#[global] Arguments is_contained_in : simpl never.
#[global] Arguments make_item_pos : simpl never.

Fixpoint total (l : list ItemPosCount) : Z :=
  match l with [] => 0 | e :: l => pos_count e + total l end.

Lemma total_app l1 l2 : total (l1 ++ l2) = total l1 + total l2.
Proof. induction l1; cbn; lia. Qed.

Lemma total_nonneg l : Forall (fun e => 0 <= pos_count e) l -> 0 <= total l.
Proof. induction 1; cbn; lia. Qed.

Lemma contained_spec position l :
  is_contained_in position l = true <-> position ∈ pos <$> l.
Proof.
  unfold is_contained_in. rewrite existsb_exists, list_elem_of_fmap. split.
  - intros (e & He & E). exists e. split; [lia|by apply list_elem_of_In].
  - intros (e & -> & He). exists e. split; [by apply list_elem_of_In|lia].
Qed.

Lemma not_contained_spec position l :
  is_contained_in position l = false <-> position ∉ pos <$> l.
Proof. rewrite <- contained_spec. by destruct (is_contained_in position l). Qed.

(** [ok position need]: the position has room for [need] items. *)
Section Placed.
Context (ok : Z -> Z -> Prop).

Definition fits (e : ItemPosCount) : Prop :=
  exists need, ok (pos e) need /\ 0 <= pos_count e <= need.
Definition full (e : ItemPosCount) : Prop := ok (pos e) (pos_count e).

Lemma fits_nonneg e : fits e -> 0 <= pos_count e.
Proof. intros (need & _ & H). lia. Qed.

(** [plan'] adds to [plan] positions that have room, each once; what is placed
    there is no longer to be placed; and while something is left, every position
    added has been filled. *)
Definition placed (plan plan' : Plan) : Prop :=
  exists l, fst plan' = fst plan ++ l /\ Forall fits l /\
    total l + snd plan' = snd plan /\ 0 <= snd plan' /\ (0 < snd plan' -> Forall full l) /\
    (NoDup (pos <$> fst plan) -> NoDup (pos <$> fst plan')).

Lemma placed_refl plan : 0 <= snd plan -> placed plan plan.
Proof. intros H. exists []. by rewrite app_nil_r. Qed.

Lemma placed_le plan plan' : placed plan plan' -> 0 <= snd plan' <= snd plan.
Proof.
  intros (l & _ & Hf & Et & H0 & _). split; [done|].
  assert (0 <= total l); [|lia]. apply total_nonneg.
  eapply Forall_impl; [exact Hf|]. apply fits_nonneg.
Qed.

Lemma placed_trans plan plan' plan'' :
  placed plan plan' -> placed plan' plan'' -> placed plan plan''.
Proof.
  intros H1 H2. pose proof (placed_le _ _ H2) as Hle.
  destruct H1 as (l1 & E1 & F1 & T1 & P1 & U1 & N1), H2 as (l2 & E2 & F2 & T2 & P2 & U2 & N2).
  exists (l1 ++ l2). rewrite E2, E1, app_assoc, total_app, !Forall_app.
  repeat split; try done; try lia.
  - apply U1. lia.
  - by apply U2.
  - intros H. rewrite <- E1, <- E2. auto.
Qed.

(** A phase starts with something to place, or with a count of zero. *)
Lemma place_placed position need plan :
  0 <= snd plan -> 0 <= need -> ok position need -> placed plan (place position need plan).
Proof.
  destruct plan as [dest count]. intros Hc Hn Ho. cbn in Hc. unfold place.
  destruct (is_contained_in position dest) eqn:Ei; [by apply placed_refl|].
  exists [mkPosCount position (Z.min need count)]. cbn.
  apply not_contained_spec in Ei.
  split; [done|]. split.
  { constructor; [|done]. exists need. cbn. split; [done|lia]. }
  split; [lia|]. split; [lia|]. split.
  - intros H. constructor; [|done]. unfold full. cbn.
    by replace (Z.min need count) with need by lia.
  - intros Hd. rewrite fmap_app. apply NoDup_app. split; [done|]. split; [|apply NoDup_singleton].
    intros x Hx Hx'. apply list_elem_of_singleton in Hx' as ->. by apply Ei.
Qed.

(** Positions stay in the plan. *)
Lemma placed_contained plan plan' position :
  placed plan plan' -> is_contained_in position (fst plan) = true ->
  is_contained_in position (fst plan') = true.
Proof.
  intros (l & -> & _). rewrite !contained_spec, fmap_app, elem_of_app. auto.
Qed.
End Placed.

(** * Slots *)
Lemma make_item_pos_inj b s b' s' :
  in_u 8 s -> in_u 8 s' -> make_item_pos b s = make_item_pos b' s' -> b = b' /\ s = s'.
Proof. unfold make_item_pos, in_u. lia. Qed.

Lemma elem_of_slot_range x lo hi : x ∈ slot_range lo hi <-> lo <= x < hi.
Proof. unfold slot_range. rewrite elem_of_seqZ. lia. Qed.

Lemma mergeable_Ok proto e :
  mergeable proto e = InventoryResult.Ok <->
  loot_generated e = false /\ item_entry e = entry proto /\ item_count e < max_stack_size proto.
Proof.
  unfold mergeable, can_be_merged_partly_with.
  destruct (loot_generated e); [by split; [|intros [? _]]|].
  destruct (Z.eqb_spec (item_entry e) (entry proto)); cbn; [|split; [done|intros (_ & ? & _); done]].
  destruct (Z.leb_spec (max_stack_size proto) (item_count e)); split; try done; lia.
Qed.

Lemma slot_need_nonneg proto merge existing need :
  0 <= max_stack_size proto -> slot_need proto merge existing = Some need -> 0 <= need.
Proof.
  intros Hm. destruct existing as [e|], merge; cbn; try (by intros [= <-]); try done.
  destruct (mergeable proto e) eqn:E; try done. apply mergeable_Ok in E. intros [= <-].
  unfold merge_space. lia.
Qed.

(** The results of phases are none of the results that end a whole plan. *)
Definition phase_result (r : InventoryResult.t) : Prop :=
  r <> InventoryResult.InvFull /\ r <> InventoryResult.BankFull.

Definition phase_ok (ok : Z -> Z -> Prop) (phase : Phase) : Prop :=
  forall plan, 0 <= snd plan ->
    phase_result (fst (phase plan)) /\ placed ok plan (snd (phase plan)).

(** A phase that fails leaves the plan alone. *)
Definition fails_clean (phase : Phase) : Prop :=
  forall plan, fst (phase plan) <> InventoryResult.Ok -> snd (phase plan) = plan.

(** A phase that succeeds and leaves something has used every position of [S]. *)
Definition covers (S : Z -> Prop) (phase : Phase) : Prop :=
  forall plan, fst (phase plan) = InventoryResult.Ok -> 0 < snd (snd (phase plan)) ->
    forall position, S position -> is_contained_in position (fst (snd (phase plan))) = true.

Section FillSlots.
Context (ok : Z -> Z -> Prop) (bag : Z) (skip : Z -> bool) (proto : ItemStorageTemplate)
  (merge : bool) (source : option Item) (refs : list ItemSlotRef).
Hypothesis Hmax : 0 <= max_stack_size proto.

Definition need_at (slot : Z) : option Z :=
  slot_need proto merge (other_than source (item_ref_by_pos refs bag slot)).

Lemma fill_slots_placed l plan :
  0 <= snd plan ->
  (forall slot need, slot ∈ l -> skip slot = false -> need_at slot = Some need ->
     ok (make_item_pos bag slot) need) ->
  placed ok plan (fill_slots bag skip proto merge source refs l plan).
Proof.
  revert plan. induction l as [|slot l IH]; intros plan Hc Hok; cbn; [by apply placed_refl|].
  assert (Hnext : forall plan, 0 <= snd plan ->
            placed ok plan (fill_slots bag skip proto merge source refs l plan)).
  { intros plan' H'. apply IH; [done|]. intros s n Hs. apply Hok. by apply list_elem_of_further. }
  destruct (skip slot) eqn:Es; [by apply Hnext|].
  fold (need_at slot). destruct (need_at slot) as [need|] eqn:En; [|by apply Hnext].
  destruct (is_contained_in _ _) eqn:Ei; [by apply Hnext|].
  assert (Hp : placed ok plan (place (make_item_pos bag slot) need plan)).
  { apply place_placed; [done|by eapply slot_need_nonneg|].
    apply Hok; [apply list_elem_of_here|done..]. }
  destruct (snd (place _ _ _) =? 0); [done|].
  eapply placed_trans; [exact Hp|]. apply Hnext. apply (placed_le _ _ _ Hp).
Qed.

Lemma fill_slots_contained l plan position :
  is_contained_in position (fst plan) = true ->
  is_contained_in position (fst (fill_slots bag skip proto merge source refs l plan)) = true.
Proof.
  revert plan. induction l as [|slot l IH]; intros plan Hi; cbn; [done|].
  destruct (skip slot); [auto|]. fold (need_at slot).
  destruct (need_at slot) as [need|]; [|auto].
  destruct (is_contained_in (make_item_pos bag slot) (fst plan)) eqn:Ei; [auto|].
  assert (Hi' : is_contained_in position (fst (place (make_item_pos bag slot) need plan)) = true).
  { unfold place. destruct plan as [dest count]. cbn in *. rewrite Ei. cbn.
    rewrite contained_spec in *. rewrite fmap_app, elem_of_app. auto. }
  destruct (_ =? 0); [done|auto].
Qed.

Lemma fill_slots_covers l plan slot :
  snd (fill_slots bag skip proto merge source refs l plan) <> 0 ->
  slot ∈ l -> skip slot = false -> is_Some (need_at slot) ->
  is_contained_in (make_item_pos bag slot)
    (fst (fill_slots bag skip proto merge source refs l plan)) = true.
Proof.
  revert plan. induction l as [|s l IH]; intros plan Hc Hs Hk [need Hn]; [by apply not_elem_of_nil in Hs|].
  cbn in *. apply elem_of_cons in Hs as [->|Hs].
  - rewrite Hk in *. fold (need_at s) in *. rewrite Hn in *.
    destruct (is_contained_in (make_item_pos bag s) (fst plan)) eqn:Ei.
    + by apply fill_slots_contained.
    + destruct (_ =? 0) eqn:E0; [apply Z.eqb_eq in E0; done|].
      apply fill_slots_contained. unfold place. destruct plan as [dest count]. cbn in *.
      rewrite Ei. cbn. apply contained_spec. rewrite fmap_app, elem_of_app. right.
      by apply list_elem_of_singleton.
  - destruct (skip s); [by apply IH|]. fold (need_at s) in *.
    destruct (need_at s); [|by apply IH].
    destruct (is_contained_in _ _); [by apply IH|].
    destruct (_ =? 0) eqn:E0; [apply Z.eqb_eq in E0; done|by apply IH].
Qed.
End FillSlots.

(** * Room *)

(** Whether an item of [proto] may be put into the slot: a top-level slot that
    exists, or a slot of a bag that takes the item. *)
Definition opens (p : Player) (templates : list BagTemplateRef) (proto : ItemStorageTemplate)
    (bag slot : Z) : Prop :=
  (bag = INVENTORY_SLOT_BAG_0 /\ slot < PLAYER_SLOT_END /\ slot <> REAGENT_BAG_SLOT_START /\
   is_buyback_slot slot = false) \/
  (exists storage bag_proto, bag_at bag p = Some storage /\ slot < bag_size storage /\
   bag_template_by_pos templates bag = Some bag_proto /\
   item_can_go_into_bag proto bag_proto = true).

(** What a slot takes: the rest of a stack of the same item, or a whole stack when
    it holds nothing else, or is the one to swap with. *)
Definition slot_room (p : Player) (args : CanStoreItemArgs) (proto : ItemStorageTemplate)
    (bag slot need : Z) : Prop :=
  match other_than (source_item args) (item_ref_by_pos (slot_items args) bag slot) with
  | None => need = max_stack_size proto /\ opens p (bag_templates args) proto bag slot
  | Some e =>
      (mergeable proto e = InventoryResult.Ok /\ need = merge_space proto e) \/
      (swap args = true /\ bag = store_bag args /\ slot = store_slot args /\
       need = max_stack_size proto /\ opens p (bag_templates args) proto bag slot)
  end.

Definition room (p : Player) (args : CanStoreItemArgs) (proto : ItemStorageTemplate)
    (position need : Z) : Prop :=
  exists bag slot, in_u 8 bag /\ in_u 8 slot /\ position = make_item_pos bag slot /\
    slot_room p args proto bag slot need.

(** What the callers of the plans guarantee: the registered bags are as large as
    their templates say and no larger than a bag may be, and numbers are in the
    range of their types. *)
Record plan_typed (p : Player) (args : CanStoreItemArgs) (proto : ItemStorageTemplate) : Prop := {
  typed_bags : forall bag storage, bag_at bag p = Some storage ->
    0 <= bag_size storage <= MAX_BAG_SIZE;
  typed_templates : forall bag storage bag_proto, bag_at bag p = Some storage ->
    bag_template_by_pos (bag_templates args) bag = Some bag_proto ->
    container_slots bag_proto = bag_size storage;
  typed_bag : in_u 8 (store_bag args);
  typed_slot : in_u 8 (store_slot args);
  typed_count : in_u 32 (store_count args);
  typed_stack : in_u 32 (max_stack_size proto);
  typed_backpack : in_u 8 (num_backpack_slots p) }.

Lemma in_u8 z : in_u 8 z <-> 0 <= z < 256.
Proof. unfold in_u. lia. Qed.

Section Phases.
Context (p : Player) (args : CanStoreItemArgs) (proto : ItemStorageTemplate).
Hypothesis Ht : plan_typed p args proto.

Let ok := room p args proto.

Lemma max_nonneg : 0 <= max_stack_size proto.
Proof. apply Ht. Qed.

Lemma inventory_end_range : INVENTORY_SLOT_ITEM_START <= inventory_end p <= INVENTORY_SLOT_ITEM_END.
Proof.
  destruct Ht as [_ _ _ _ _ _ H]. rewrite in_u8 in H.
  unfold inventory_end, sat_add, u8_max, INVENTORY_SLOT_ITEM_START, INVENTORY_SLOT_ITEM_END. lia.
Qed.

(** A range of slots of the player, apart from the buyback slots. *)
Definition plain_range (lo hi : Z) : Prop :=
  0 <= lo /\ hi <= PLAYER_SLOT_END /\ (hi <= BUYBACK_SLOT_START \/ BUYBACK_SLOT_END <= lo).

Lemma plain_slot lo hi slot :
  plain_range lo hi -> lo <= slot < hi -> in_u 8 slot /\ slot < PLAYER_SLOT_END /\
  is_buyback_slot slot = false.
Proof.
  intros (H0 & H1 & H2) Hs. rewrite in_u8. unfold is_buyback_slot, in_range.
  destruct (Z.leb_spec BUYBACK_SLOT_START slot), (Z.ltb_spec slot BUYBACK_SLOT_END);
    unfold PLAYER_SLOT_END, BUYBACK_SLOT_START, BUYBACK_SLOT_END in *; cbn;
    repeat split; lia || done.
Qed.

Lemma slot_need_room merge bag slot need :
  slot_need proto merge
    (other_than (source_item args) (item_ref_by_pos (slot_items args) bag slot)) = Some need ->
  (merge = false -> opens p (bag_templates args) proto bag slot) ->
  slot_room p args proto bag slot need.
Proof.
  unfold slot_room. destruct (other_than _ _) as [e|], merge; cbn; try done.
  - destruct (mergeable proto e) eqn:E; try done. intros [= <-] _. by left.
  - intros [= <-] Ho. auto.
Qed.

Lemma bag_accepts_result bag storage proto' non_specialized source nonempty bag_proto :
  phase_result (bag_accepts bag storage proto' non_specialized source nonempty bag_proto).
Proof. unfold bag_accepts. repeat case_match; (split; done). Qed.

Lemma bag_accepts_Ok bag storage proto' non_specialized source nonempty bag_proto :
  bag_accepts bag storage proto' non_specialized source nonempty bag_proto = InventoryResult.Ok ->
  exists bp, bag_proto = Some bp /\ item_can_go_into_bag proto' bp = true.
Proof.
  unfold bag_accepts. repeat case_match; try done; intros _; eexists;
    (split; [done|by apply negb_false_iff]).
Qed.

Lemma specific_slot_source_result bag slot source nonempty :
  phase_result (specific_slot_source bag slot source nonempty).
Proof. unfold specific_slot_source. repeat case_match; (split; done). Qed.

Lemma specific_slot_free_opens bag slot :
  specific_slot_free bag slot proto (bag_template_by_pos (bag_templates args) bag) p = true ->
  opens p (bag_templates args) proto bag slot.
Proof.
  unfold specific_slot_free. destruct (Z.eqb_spec slot REAGENT_BAG_SLOT_START); [done|].
  destruct (Z.eqb_spec bag INVENTORY_SLOT_BAG_0).
  - destruct (_ && _); [done|]. intros H. apply negb_true_iff, orb_false_iff in H as [Hb Hs].
    left. repeat split; try done. by apply Z.leb_gt in Hs.
  - unfold get_bag_by_pos. destruct (is_bag_storage_slot bag); [|done].
    destruct (bag_at bag p) as [storage|] eqn:Es; [|done]. cbn.
    destruct (bag_template_by_pos _ bag) as [bp|] eqn:Et; [|done].
    intros H. apply andb_true_iff in H as [H1 H2]. apply negb_true_iff, Z.leb_gt in H1.
    right. exists storage, bp. repeat split; try done.
    by rewrite <- (typed_templates _ _ _ Ht _ _ _ Es Et).
Qed.

Lemma in_slots_ok lo hi merge : plain_range lo hi -> phase_ok ok (in_slots args proto lo hi merge).
Proof.
  intros Hr plan Hc. unfold in_slots, can_store_item_in_inventory_slots.
  destruct (_ && _); cbn; [split; [by split|by apply placed_refl]|].
  split; [by split|]. apply fill_slots_placed; [apply max_nonneg|done|].
  intros slot need Hs Hk Hn. apply elem_of_slot_range in Hs.
  destruct (plain_slot lo hi slot Hr Hs) as (Hu & Hl & Hb).
  exists INVENTORY_SLOT_BAG_0, slot. split; [by rewrite in_u8|]. split; [done|]. split; [done|].
  eapply slot_need_room; [exact Hn|]. intros _. left. repeat split; try done.
  apply orb_false_iff in Hk as [_ Hk]. lia.
Qed.

Lemma in_bag_ok bag merge non_specialized skip_bag :
  in_u 8 bag -> phase_ok ok (in_bag p args proto bag merge non_specialized skip_bag).
Proof.
  intros Hb plan Hc. unfold in_bag, can_store_item_in_bag.
  assert (Hsame : forall e, phase_result e -> phase_result (fst (e, plan)) /\
            placed ok plan (snd (e, plan))) by (intros e He; split; [done|by apply placed_refl]).
  destruct (bag =? skip_bag); [by apply Hsame|].
  destruct (bag_at bag p) as [storage|] eqn:Es; [|by apply Hsame].
  pose proof (bag_accepts_result bag storage proto non_specialized (source_item args)
                (source_is_not_empty_bag args) (bag_template_by_pos (bag_templates args) bag)) as Hr.
  destruct (bag_accepts _ _ _ _ _ _ _) eqn:Ea; try (by apply Hsame).
  apply bag_accepts_Ok in Ea as (bag_proto & Et & Ei). cbn.
  split; [done|]. apply fill_slots_placed; [apply max_nonneg|done|].
  intros slot need Hs Hk Hn. apply elem_of_slot_range in Hs.
  destruct (typed_bags _ _ _ Ht _ _ Es) as [_ Hsz]. unfold MAX_BAG_SIZE in Hsz.
  exists bag, slot. split; [done|]. split; [rewrite in_u8; lia|]. split; [done|].
  eapply slot_need_room; [exact Hn|]. intros _. right.
  exists storage, bag_proto. repeat split; try done. lia.
Qed.

Lemma in_bag_fails_clean bag merge non_specialized skip_bag :
  fails_clean (in_bag p args proto bag merge non_specialized skip_bag).
Proof.
  intros plan. unfold in_bag, can_store_item_in_bag. repeat case_match; done.
Qed.

Lemma in_requested_bag_ok merge : phase_ok ok (in_requested_bag p args proto merge).
Proof.
  intros plan Hc. unfold in_requested_bag, or_else.
  pose proof (in_bag_ok (store_bag args) merge false NULL_BAG (typed_bag _ _ _ Ht) plan Hc) as [H1 H2].
  destruct (in_bag _ _ _ _ _ false _ plan) as [r plan']. cbn in H1, H2.
  assert (Hn : phase_result (fst (in_bag p args proto (store_bag args) merge true NULL_BAG plan')) /\
               placed ok plan (snd (in_bag p args proto (store_bag args) merge true NULL_BAG plan'))).
  { destruct (in_bag_ok (store_bag args) merge true NULL_BAG (typed_bag _ _ _ Ht) plan') as [H3 H4];
      [by apply (placed_le ok plan plan')|].
    split; [done|]. by eapply placed_trans. }
  by destruct r.
Qed.

Lemma in_specific_slot_ok : phase_ok ok (in_specific_slot p args proto).
Proof.
  intros plan Hc. unfold in_specific_slot, can_store_item_in_specific_slot.
  set (existing := other_than _ _).
  assert (Hsame : forall e, phase_result e -> phase_result (fst (e, plan)) /\
            placed ok plan (snd (e, plan))) by (intros e He; split; [done|by apply placed_refl]).
  assert (Hput : forall need, 0 <= need ->
            slot_room p args proto (store_bag args) (store_slot args) need ->
            phase_result InventoryResult.Ok /\
            placed ok plan (place (make_item_pos (store_bag args) (store_slot args)) need plan)).
  { intros need Hn Hr. split; [by split|]. apply place_placed; [done..|].
    exists (store_bag args), (store_slot args). split; [apply Ht|]. split; [apply Ht|done]. }
  assert (Hfree : existing = None \/ swap args = true ->
            specific_slot_free (store_bag args) (store_slot args) proto
              (bag_template_by_pos (bag_templates args) (store_bag args)) p = true ->
            phase_result InventoryResult.Ok /\
            placed ok plan (place (make_item_pos (store_bag args) (store_slot args))
              (max_stack_size proto) plan)).
  { intros He Hf. apply Hput; [apply max_nonneg|]. apply specific_slot_free_opens in Hf.
    unfold slot_room. fold existing. destruct existing as [e|]; [|done].
    right. destruct He as [|Hw]; [done|]. repeat split; done. }
  pose proof (specific_slot_source_result (store_bag args) (store_slot args) (source_item args)
                (source_is_not_empty_bag args)) as Hs.
  destruct (specific_slot_source _ _ _ _); try (by apply Hsame).
  assert (Hcase : existing = None \/ swap args = true \/
            exists e, existing = Some e /\ swap args = false).
  { destruct existing as [e|]; [|by left]. destruct (swap args); [by right; left|].
    right; right. by exists e. }
  destruct Hcase as [He|[Hw|(e & He & Hw)]].
  - rewrite He. destruct (specific_slot_free _ _ _ _ _) eqn:Ef; [|by apply Hsame].
    apply Hfree; [by left|done].
  - destruct existing, (specific_slot_free _ _ _ _ _) eqn:Ef; rewrite ?Hw;
      first [by apply Hsame | apply Hfree; [by right|done]].
  - rewrite He, Hw. destruct (mergeable proto e) eqn:Em; try (by apply Hsame).
    + apply Hput; [apply mergeable_Ok in Em; unfold merge_space; lia|].
      unfold slot_room. fold existing. rewrite He. by left.
    + exfalso. revert Em. unfold mergeable, can_be_merged_partly_with. by repeat case_match.
    + exfalso. revert Em. unfold mergeable, can_be_merged_partly_with. by repeat case_match.
Qed.
End Phases.

(** * Steps *)
Section Runs.
Context {O : Type} (fail : InventoryResult.t -> Z -> O) (done : O) (ok : Z -> Z -> Prop)
  (Post : O -> Plan -> Prop).
Hypothesis Hfail : forall e plan, e <> InventoryResult.Ok -> phase_result e ->
  Post (fail e (snd plan)) plan.
Hypothesis Hdone : forall plan, snd plan = 0 -> Post done plan.

Definition step_ok (step : @Step O) : Prop := forall plan, 0 <= snd plan ->
  match step plan with
  | inl (o, plan') => placed ok plan plan' /\ Post o plan'
  | inr plan' => placed ok plan plan'
  end.

(** A step that goes on has used every position of [S]. *)
Definition passes (S : Z -> Prop) (step : @Step O) : Prop := forall plan plan', 0 <= snd plan ->
  step plan = inr plan' -> forall position, S position ->
  is_contained_in position (fst plan') = true.

Lemma finish_ok plan plan' :
  placed ok plan plan' ->
  match finish done plan' with
  | inl (o, plan'') => placed ok plan plan'' /\ Post o plan''
  | inr plan'' => placed ok plan plan''
  end.
Proof.
  intros H. unfold finish. destruct (Z.eqb_spec (snd plan') 0); [|done]. split; [done|].
  by apply Hdone.
Qed.

Lemma strict_ok phase : phase_ok ok phase -> step_ok (strict fail done phase).
Proof.
  intros H plan Hc. destruct (H plan Hc) as [Hr Hp]. unfold strict.
  destruct (phase plan) as [r plan']. cbn in *.
  destruct r; try (by split; [|apply Hfail]). by apply finish_ok.
Qed.

Lemma lenient_ok phase : phase_ok ok phase -> step_ok (lenient done phase).
Proof.
  intros H plan Hc. destruct (H plan Hc) as [Hr Hp]. unfold lenient.
  destruct (phase plan) as [r plan']. cbn in *. destruct r; try done. by apply finish_ok.
Qed.

Lemma finish_inr plan plan' : finish done plan = inr plan' -> plan' = plan /\ snd plan <> 0.
Proof. unfold finish. destruct (Z.eqb_spec (snd plan) 0); [done|]. by intros [= <-]. Qed.

Lemma strict_passes S phase : phase_ok ok phase -> covers S phase -> passes S (strict fail done phase).
Proof.
  intros H Hs plan plan' Hc. destruct (H plan Hc) as [_ Hp]. pose proof (placed_le _ _ _ Hp).
  specialize (Hs plan). unfold strict. destruct (phase plan) as [r plan0]. cbn in *.
  destruct r; try done. intros E. apply finish_inr in E as [-> Hn]. apply Hs; [done|lia].
Qed.

Lemma lenient_passes S phase :
  phase_ok ok phase -> (forall plan, fst (phase plan) = InventoryResult.Ok) -> covers S phase ->
  passes S (lenient done phase).
Proof.
  intros H Hr Hs plan plan' Hc. destruct (H plan Hc) as [_ Hp]. pose proof (placed_le _ _ _ Hp).
  specialize (Hs plan). specialize (Hr plan). unfold lenient.
  destruct (phase plan) as [r plan0]. cbn in *.
  subst r. intros E. apply finish_inr in E as [-> Hn]. apply Hs; [done|lia].
Qed.

Lemma run_steps_ok steps plan :
  Forall step_ok steps -> 0 <= snd plan ->
  match run_steps steps plan with
  | inl (o, plan') => placed ok plan plan' /\ Post o plan'
  | inr plan' => placed ok plan plan'
  end.
Proof.
  intros Hs. revert plan. induction Hs as [|step steps Hstep Hs IH]; intros plan Hc; cbn.
  { by apply placed_refl. }
  specialize (Hstep plan Hc). destruct (step plan) as [[o plan']|plan']; [done|].
  specialize (IH plan' (proj1 (placed_le _ _ _ Hstep))).
  destruct (run_steps steps plan') as [[o plan'']|plan''].
  - split; [|by apply IH]. eapply placed_trans; [exact Hstep|apply IH].
  - by eapply placed_trans.
Qed.

(** A step that goes on does so with something left, if there was. *)
Definition lasts (step : @Step O) : Prop :=
  forall plan plan', snd plan <> 0 -> step plan = inr plan' -> snd plan' <> 0.

Lemma strict_left phase plan plan' : strict fail done phase plan = inr plan' -> snd plan' <> 0.
Proof.
  unfold strict. destruct (phase plan) as [r plan0]. destruct r; try done.
  by intros [-> H]%finish_inr.
Qed.

Lemma strict_lasts phase : lasts (strict fail done phase).
Proof. intros plan plan' _. apply strict_left. Qed.

Lemma lenient_lasts phase : fails_clean phase -> lasts (lenient done phase).
Proof.
  intros H plan plan' Hp. specialize (H plan). unfold lenient.
  destruct (phase plan) as [r plan0]. cbn in H.
  destruct r; first [by intros [-> ?]%finish_inr | by intros [= <-]; rewrite H].
Qed.

Lemma run_steps_lasts steps plan plan' :
  Forall lasts steps -> run_steps steps plan = inr plan' ->
  snd plan <> 0 \/ (exists phase, strict fail done phase ∈ steps) -> snd plan' <> 0.
Proof.
  intros Hs. revert plan. induction Hs as [|step steps Hstep Hs IH]; intros plan; cbn.
  { intros [= <-] [?|[phase H]]; [done|]. by apply not_elem_of_nil in H. }
  destruct (step plan) as [|plan1] eqn:E1; [done|]. intros E Hor. eapply IH; [exact E|].
  destruct Hor as [Hn|[phase [<-|Hin]%elem_of_cons]].
  - left. by eapply Hstep.
  - left. by eapply strict_left.
  - right. by exists phase.
Qed.

Lemma run_steps_passes steps step S plan plan' :
  Forall step_ok steps -> step ∈ steps -> passes S step -> 0 <= snd plan ->
  run_steps steps plan = inr plan' ->
  forall position, S position -> is_contained_in position (fst plan') = true.
Proof.
  intros Hs Hin Hpass Hc E position HS. revert plan Hc E.
  induction Hs as [|s steps Hstep Hs IH]; intros plan Hc E; [by apply not_elem_of_nil in Hin|].
  cbn in E. specialize (Hstep plan Hc). destruct (s plan) as [|plan1] eqn:E1; [done|].
  pose proof (proj1 (placed_le _ _ _ Hstep)) as Hc1.
  apply elem_of_cons in Hin as [->|Hin]; [|by eapply IH].
  pose proof (run_steps_ok steps plan1 Hs Hc1) as Hr. rewrite E in Hr.
  eapply placed_contained; [exact Hr|]. exact (Hpass plan plan1 Hc E1 position HS).
Qed.
End Runs.
