(* ===== verification/InventoryPlanTheorems.v ===== *)
(** What the plans of InventoryPlan.v guarantee: every item is accounted for,
    nothing is put where there is no room, the limits on how many one may own
    hold, and a plan is refused for lack of room only when there is none. *)
From S2P Require Import Prelude Guid InventoryModel Items InventoryStorage InventoryPlan InventoryPlanLemmas.

(** * The positions a phase has to use *)
Section Covers.
Context (p : Player) (args : CanStoreItemArgs) (proto : ItemStorageTemplate).

(** What a slot takes: with [merge], the rest of a stack of the same item; else
    a whole stack, if it is empty. *)
Definition takes (merge : bool) (bag slot need : Z) : Prop :=
  slot_need proto merge
    (other_than (source_item args) (item_ref_by_pos (slot_items args) bag slot)) = Some need.

(** A slot among [lo..hi], other than the one asked for, that takes something. *)
Definition free_in (merge : bool) (lo hi : Z) (position : Z) : Prop :=
  exists slot need, position = make_item_pos INVENTORY_SLOT_BAG_0 slot /\ lo <= slot < hi /\
    slot <> REAGENT_BAG_SLOT_START /\
    ~ (store_bag args = INVENTORY_SLOT_BAG_0 /\ slot = store_slot args) /\
    takes merge INVENTORY_SLOT_BAG_0 slot need.

Lemma in_slots_covers merge lo hi : covers (free_in merge lo hi) (in_slots args proto lo hi merge).
Proof.
  intros plan Hr Hc position (slot & need & -> & Hs & Hg & Hk & He). revert Hr Hc.
  unfold in_slots, can_store_item_in_inventory_slots. destruct (_ && _); [done|].
  cbn [fst snd]. intros _ Hc. apply fill_slots_covers.
  - lia.
  - by apply elem_of_slot_range.
  - apply orb_false_iff. split; [|lia]. apply andb_false_iff.
    destruct (Z.eqb_spec (store_bag args) INVENTORY_SLOT_BAG_0); [|by left].
    right. apply Z.eqb_neq. intros ->. by apply Hk.
  - by eexists.
Qed.

(** A slot of a bag that takes something. *)
Definition free_in_bag (merge : bool) (bag : Z) (position : Z) : Prop :=
  exists storage slot need, position = make_item_pos bag slot /\ bag_at bag p = Some storage /\
    0 <= slot < bag_size storage /\ slot <> store_slot args /\ takes merge bag slot need.

Definition regular_bag (bag : Z) : Prop :=
  exists storage, bag_at bag p = Some storage /\
    bag_accepts bag storage proto true (source_item args) (source_is_not_empty_bag args)
      (bag_template_by_pos (bag_templates args) bag) = InventoryResult.Ok.

Lemma in_bag_Ok bag merge skip_bag plan :
  bag <> skip_bag -> regular_bag bag ->
  fst (in_bag p args proto bag merge true skip_bag plan) = InventoryResult.Ok.
Proof.
  intros Hn (storage & Es & Ha). unfold in_bag, can_store_item_in_bag.
  destruct (Z.eqb_spec bag skip_bag); [done|]. by rewrite Es, Ha.
Qed.

Lemma in_bag_covers merge bag skip_bag :
  bag <> skip_bag -> regular_bag bag ->
  covers (free_in_bag merge bag) (in_bag p args proto bag merge true skip_bag).
Proof.
  intros Hn (storage & Es & Ha) plan _. unfold in_bag, can_store_item_in_bag.
  destruct (Z.eqb_spec bag skip_bag); [done|]. rewrite Es, Ha. cbn [fst snd].
  intros Hc position (storage' & slot & need & -> & Es' & Hs & Hk & He).
  rewrite Es' in Es. simplify_eq. apply fill_slots_covers.
  - lia.
  - by apply elem_of_slot_range.
  - by apply Z.eqb_neq.
  - by eexists.
Qed.

(** The search for a specialized bag refuses a regular one. *)
Lemma in_bag_wrong_kind bag merge skip_bag plan :
  regular_bag bag ->
  exists e, e <> InventoryResult.Ok /\ in_bag p args proto bag merge false skip_bag plan = (e, plan).
Proof.
  intros (storage & Es & Ha). unfold in_bag, can_store_item_in_bag. rewrite Es.
  destruct (bag =? skip_bag); [eexists; split; [|done]; done|].
  assert (Hf : bag_accepts bag storage proto false (source_item args) (source_is_not_empty_bag args)
            (bag_template_by_pos (bag_templates args) bag) <> InventoryResult.Ok).
  { revert Ha. unfold bag_accepts. 
    destruct (source_item args) as [source|], (bag_template_by_pos _ bag) as [bp|];
      [destruct (is_regular_container bp)| |destruct (is_regular_container bp)|]; cbn;
      by repeat (try done; case_match). }
  destruct (bag_accepts _ _ _ false _ _ _); first [done|eexists; split; [|done]; done].
Qed.

Lemma in_requested_bag_covers merge :
  store_bag args <> NULL_BAG -> regular_bag (store_bag args) ->
  covers (free_in_bag merge (store_bag args)) (in_requested_bag p args proto merge).
Proof.
  intros Hn Hb plan. unfold in_requested_bag, or_else.
  destruct (in_bag_wrong_kind _ merge NULL_BAG plan Hb) as (e & He & ->).
  pose proof (in_bag_covers merge _ _ Hn Hb plan) as Hc. by destruct e.
Qed.
End Covers.

Lemma Forall_given {O} (P : @Step O -> Prop) b steps : Forall P steps -> Forall P (given b steps).
Proof. by destruct b. Qed.

(** * Storing in the bags *)
Section Store.
Context (p : Player) (args : CanStoreItemArgs) (proto : ItemStorageTemplate) (ns : Z).
Hypothesis Ht : plan_typed p args proto.
Hypothesis Hns : 0 <= ns /\ ns <= store_count args.

Let ok := room p args proto.

(** The outcome tells how many items are not in the plan. *)
Definition outcome_exact (o : CanStoreItemOutcome) (plan : Plan) : Prop :=
  (result o = InventoryResult.Ok -> snd plan = 0 /\ ns = 0 /\ no_space_count o = None) /\
  (forall n, no_space_count o = Some n -> n = u32 (snd plan + ns)) /\
  result o <> InventoryResult.InvFull.

Lemma outcome_fail e plan :
  e <> InventoryResult.Ok -> phase_result e ->
  outcome_exact (can_store_item_error e (snd plan) ns) plan.
Proof. intros He [Hr _]. split; [done|]. split; [|done]. cbn. by intros n [= <-]. Qed.

Lemma outcome_done plan : snd plan = 0 -> outcome_exact (store_done ns) plan.
Proof.
  intros Hp. unfold store_done. destruct (Z.eqb_spec ns 0) as [->|Hn].
  - split; [done|]. by split.
  - split; [done|]. split; [|done]. cbn. rewrite Hp. by intros n [= <-].
Qed.

Let step_ok := step_ok ok outcome_exact.

Lemma plain_backpack : plain_range INVENTORY_SLOT_ITEM_START (inventory_end p).
Proof.
  pose proof (inventory_end_range p args proto Ht).
  unfold plain_range, INVENTORY_SLOT_ITEM_START, INVENTORY_SLOT_ITEM_END, PLAYER_SLOT_END,
    BUYBACK_SLOT_START, BUYBACK_SLOT_END in *. lia.
Qed.

Lemma plain_search : plain_range (search_slot_start args proto) (inventory_end p).
Proof.
  pose proof (inventory_end_range p args proto Ht). unfold search_slot_start.
  case_match;
  unfold plain_range, INVENTORY_SLOT_BAG_START, INVENTORY_SLOT_ITEM_START, INVENTORY_SLOT_ITEM_END,
    PLAYER_SLOT_END, BUYBACK_SLOT_START, BUYBACK_SLOT_END in *; lia.
Qed.

Lemma strict_slots_ok lo hi merge :
  plain_range lo hi ->
  step_ok (strict (fun e count => can_store_item_error e count ns) (store_done ns)
             (in_slots args proto lo hi merge)).
Proof.
  intros H. apply strict_ok; [apply outcome_fail|apply outcome_done|].
  by apply in_slots_ok.
Qed.

Lemma store_in_backpack_ok merge : Forall step_ok (store_in_backpack p args proto ns merge).
Proof. constructor; [|done]. apply strict_slots_ok, plain_backpack. Qed.

Lemma store_in_child_ok merge : Forall step_ok (store_in_child_slots args proto ns merge).
Proof.
  constructor; [|done]. apply strict_slots_ok. unfold plain_range, CHILD_EQUIPMENT_SLOT_START,
    CHILD_EQUIPMENT_SLOT_END, PLAYER_SLOT_END, BUYBACK_SLOT_START, BUYBACK_SLOT_END. lia.
Qed.

Lemma store_in_keyring_ok : Forall step_ok (store_in_keyring args proto ns).
Proof.
  constructor; [|done]. apply strict_slots_ok. unfold plain_range, KEYRING_SLOT_START,
    KEYRING_SLOT_END, PLAYER_SLOT_END, BUYBACK_SLOT_START, BUYBACK_SLOT_END. lia.
Qed.

Lemma inventory_bag_range bag : bag ∈ inventory_bags -> in_u 8 bag.
Proof.
  intros H. apply elem_of_slot_range in H. rewrite in_u8.
  unfold INVENTORY_SLOT_BAG_START, INVENTORY_SLOT_BAG_END in H. lia.
Qed.

Lemma store_in_bags_ok merge non_specialized :
  Forall step_ok (store_in_bags p args proto ns merge non_specialized).
Proof.
  apply Forall_fmap, Forall_forall. intros bag Hb.
  apply lenient_ok; [apply outcome_done|].
  apply in_bag_ok; [done|by apply inventory_bag_range].
Qed.

Lemma store_requested_ok :
  Forall step_ok (store_requested_slot p args proto ns ++ store_requested_bag p args proto ns).
Proof.
  assert (Hbag : forall merge, Forall step_ok
            [strict (fun e count => can_store_item_error e count ns) (store_done ns)
               (in_requested_bag p args proto merge)]).
  { intros merge. constructor; [|done]. apply strict_ok; [apply outcome_fail|apply outcome_done|].
    by apply in_requested_bag_ok. }
  apply Forall_app. split.
  - apply Forall_given. constructor; [|done].
    apply strict_ok; [apply outcome_fail|apply outcome_done|]. by apply in_specific_slot_ok.
  - apply Forall_given, Forall_app. split.
    + apply Forall_given. case_match; [|apply Hbag].
      apply Forall_app. split; [apply store_in_child_ok|apply store_in_backpack_ok].
    + unfold store_free_requested. case_match; [|apply Hbag].
      apply Forall_app. split; [apply Forall_given, store_in_keyring_ok|].
      apply Forall_app. split; [apply Forall_given, store_in_child_ok|apply store_in_backpack_ok].
Qed.

Lemma refuse_full_bag_ok : step_ok (refuse_full_bag args).
Proof.
  intros plan Hc. unfold refuse_full_bag. destruct (source_is_not_empty_bag args).
  - split; [by apply placed_refl|]. by split.
  - by apply placed_refl.
Qed.

Lemma store_steps_ok : Forall step_ok (store_steps p args proto ns).
Proof.
  unfold store_steps. rewrite app_assoc. apply Forall_app. split; [apply store_requested_ok|].
  apply Forall_app. split.
  { apply Forall_given, Forall_app. split; [apply store_in_child_ok|].
    apply Forall_app. split; [apply store_in_backpack_ok|].
    apply Forall_app. split; [apply Forall_given|]; apply store_in_bags_ok. }
  apply Forall_app. split.
  { apply Forall_given, Forall_app.
    split; [apply Forall_given, store_in_keyring_ok|apply store_in_bags_ok]. }
  constructor; [apply refuse_full_bag_ok|].
  apply Forall_app. split; [apply Forall_given, store_in_child_ok|].
  constructor; [apply strict_slots_ok, plain_search|apply store_in_bags_ok].
Qed.

Lemma store_steps_last : Forall lasts (store_steps p args proto ns).
Proof.
  assert (Hb : forall merge non_specialized,
            Forall lasts (store_in_bags p args proto ns merge non_specialized)).
  { intros. apply Forall_fmap, Forall_forall. intros bag _.
    apply lenient_lasts, in_bag_fails_clean. }
  assert (Hstrict : forall phase, Forall lasts
            [strict (fun e count => can_store_item_error e count ns) (store_done ns) phase]).
  { intros. constructor; [apply strict_lasts|done]. }
  unfold store_steps, store_requested_slot, store_requested_bag, store_merge_requested,
    store_free_requested, store_merge_anywhere, store_in_family, store_free_anywhere.
  repeat first [apply Forall_app; split | apply Forall_given | apply Hb | apply Hstrict | case_match].
  constructor; [intros plan plan' Hn; unfold refuse_full_bag; case_match; by intros [= <-]|].
  repeat first [apply Forall_app; split | apply Forall_given | apply Hb | apply Hstrict].
Qed.

(** When stacks are merged: only if the item stacks. *)
Definition may (merge : bool) : Prop := merge = true -> stackable proto = true.

Lemma backpack_step merge :
  may merge -> exists lo, lo <= INVENTORY_SLOT_ITEM_START /\ plain_range lo (inventory_end p) /\
  strict (fun e count => can_store_item_error e count ns) (store_done ns)
    (in_slots args proto lo (inventory_end p) merge) ∈ store_steps p args proto ns.
Proof.
  intros Hm. unfold store_steps. destruct merge.
  - exists INVENTORY_SLOT_ITEM_START. split; [done|]. split; [apply plain_backpack|].
    unfold store_merge_anywhere. rewrite (Hm eq_refl). cbn [given]. rewrite !elem_of_app.
    right; right; left. right. left. by apply list_elem_of_singleton.
  - exists (search_slot_start args proto). split; [|split; [apply plain_search|]].
    { unfold search_slot_start. by case_match. }
    unfold store_free_anywhere. rewrite !elem_of_app, elem_of_cons, !elem_of_app.
    do 6 right. left. by apply list_elem_of_singleton.
Qed.

Lemma requested_bag_step merge :
  may merge -> store_bag args ∈ inventory_bags ->
  strict (fun e count => can_store_item_error e count ns) (store_done ns)
    (in_requested_bag p args proto merge) ∈ store_steps p args proto ns.
Proof.
  intros Hm Hb. apply elem_of_slot_range in Hb. unfold INVENTORY_SLOT_BAG_START, INVENTORY_SLOT_BAG_END in Hb.
  unfold store_steps, store_requested_bag, store_merge_requested, store_free_requested.
  replace (store_bag args =? NULL_BAG) with false by (unfold NULL_BAG; lia).
  replace (store_bag args =? INVENTORY_SLOT_BAG_0) with false by (unfold INVENTORY_SLOT_BAG_0; lia).
  cbn [negb given]. rewrite !elem_of_app. right; left. destruct merge.
  - left. rewrite (Hm eq_refl). by apply list_elem_of_singleton.
  - right. by apply list_elem_of_singleton.
Qed.

Lemma bag_step merge bag :
  may merge -> bag ∈ inventory_bags ->
  lenient (store_done ns) (in_bag p args proto bag merge true (store_bag args))
    ∈ store_steps p args proto ns.
Proof.
  intros Hm Hb. unfold store_steps.
  assert (Hin : lenient (store_done ns) (in_bag p args proto bag merge true (store_bag args))
                  ∈ store_in_bags p args proto ns merge true).
  { unfold store_in_bags. apply list_elem_of_fmap. by exists bag. }
  destruct merge.
  - unfold store_merge_anywhere. rewrite (Hm eq_refl). cbn [given]. rewrite !elem_of_app.
    right; right; left. by do 3 right.
  - unfold store_free_anywhere. rewrite !elem_of_app, elem_of_cons, !elem_of_app.
    by do 7 right.
Qed.
End Store.

(** * Limits *)
Definition owned (args : CanStoreItemArgs) (proto : ItemStorageTemplate) : Z :=
  item_count_by_entry (entry proto) true (source_item args) (stored_items args).

Definition owned_of_category (args : CanStoreItemArgs) (proto : ItemStorageTemplate) : Z :=
  item_count_with_limit_category (item_limit_category proto) (source_item args) (stored_items args).

(** The player does not already own more than the limits allow; and the count
    asked for, with what is owned, is a number of 32 bits. *)
Record not_over_limit (args : CanStoreItemArgs) (proto : ItemStorageTemplate) : Prop := {
  limit_entry : 0 < max_count proto -> owned args proto <= max_count proto;
  limit_max_count : max_count proto <= i32_max;
  limit_of_category : forall category, limit_category args = Some category ->
    0 <= limit_quantity category <= u8_max /\
    (limit_flags category = ITEM_LIMIT_CATEGORY_MODE_HAVE ->
     owned_of_category args proto <= limit_quantity category);
  limit_total : owned args proto + store_count args <= u32_max /\
    owned_of_category args proto + store_count args <= u32_max }.

Lemma sum_counts_range l : 0 <= sum_counts l <= u32_max.
Proof.
  unfold sum_counts.
  pose proof (wrap_u_range 32 ltac:(lia) (foldr (fun i n => item_count i + n) 0 l)) as H.
  unfold in_u in H. change (2 ^ 32) with 4294967296 in H. unfold u32_max. lia.
Qed.

(** What [store_similar] leaves of the count respects both limits. *)
Definition similar_exact (args : CanStoreItemArgs) (proto : ItemStorageTemplate)
    (count ns : Z) : Prop :=
  0 <= ns <= store_count args /\ count = store_count args - ns /\
  (0 < max_count proto -> owned args proto + count <= max_count proto \/ max_count proto = i32_max) /\
  (ns = 0 -> item_limit_category proto <> 0 -> max_count proto <> i32_max ->
   exists category, limit_category args = Some category /\
     (limit_flags category = ITEM_LIMIT_CATEGORY_MODE_HAVE ->
      owned_of_category args proto + count <= limit_quantity category)).

Lemma u32_id z : 0 <= z <= u32_max -> u32 z = z.
Proof. intros H. apply wrap_u_id; unfold in_u, u32_max in *; lia. Qed.

Lemma store_similar_exact args proto :
  in_u 32 (store_count args) -> not_over_limit args proto ->
  match source_item args with Some s => loot_generated s | None => false end = false ->
  match store_similar args proto with
  | inl o => result o <> InventoryResult.Ok /\ result o <> InventoryResult.InvFull /\
             no_space_count o = Some (store_count args)
  | inr (count, ns) => similar_exact args proto count ns
  end.
Proof.
  intros Hc [H1 H2 H3 [H4 H5]] Hl. unfold in_u in Hc.
  assert (Hc' : 0 <= store_count args <= u32_max) by (unfold u32_max; lia).
  pose proof (sum_counts_range : forall l, _) as Hr.
  assert (Ho : 0 <= owned args proto) by apply Hr.
  assert (Hcat : 0 <= owned_of_category args proto) by apply Hr.
  unfold store_similar, can_take_more_similar_items.
  fold (owned args proto) (owned_of_category args proto).
  rewrite Hl. unfold sat_add, sat_sub, u8_max in *.
  rewrite !Z.min_r by lia.
  assert (Hkeep : similar_exact args proto (store_count args) 0 <->
            (0 < max_count proto -> owned args proto + store_count args <= max_count proto \/
                                    max_count proto = i32_max) /\
            (item_limit_category proto <> 0 -> max_count proto <> i32_max ->
             exists category, limit_category args = Some category /\
             (limit_flags category = ITEM_LIMIT_CATEGORY_MODE_HAVE ->
              owned_of_category args proto + store_count args <= limit_quantity category))).
  { unfold similar_exact. split; [intros (_ & _ & ? & ?); auto|intros [? ?]; repeat split; auto; lia]. }
  assert (Htrim : forall e n, e <> InventoryResult.Ok -> e <> InventoryResult.InvFull ->
            0 < n <= store_count args ->
            (0 < max_count proto -> owned args proto + (store_count args - n) <= max_count proto \/
                                    max_count proto = i32_max) ->
            match (if store_count args =? n then inl (can_store_item_error e n 0)
                   else inr (u32 (store_count args - n), n)) with
            | inl o => result o <> InventoryResult.Ok /\ result o <> InventoryResult.InvFull /\
                       no_space_count o = Some (store_count args)
            | inr (count, ns) => similar_exact args proto count ns
            end).
  { intros e n He He' Hn Hm. destruct (Z.eqb_spec (store_count args) n) as [E|E].
    - repeat split; try done. cbn. rewrite u32_id by lia. by rewrite E, Z.add_0_r.
    - rewrite u32_id by lia. unfold similar_exact. repeat split; try done; intros; try lia. }
  destruct (_ && _ || _) eqn:Eskip; cbn [similar_result similar_no_space_count default can_take_more_similar_ok].
  { apply Hkeep. apply orb_true_iff in Eskip as [E|E]; [|split; intros; lia].
    apply andb_true_iff in E as [E1 E2]. split; intros; lia. }
  apply orb_false_iff in Eskip as [_ Emax]. apply Z.eqb_neq in Emax.
  destruct (Z.ltb_spec 0 (max_count proto)) as [Hm|Hm]; cbn [andb].
  - specialize (H1 Hm). destruct (Z.ltb_spec (max_count proto) (owned args proto + store_count args)).
    { cbn. apply Htrim; try done; intros; lia. }
    destruct (Z.eqb_spec (item_limit_category proto) 0) as [E|E]; cbn [negb].
    { cbn. apply Hkeep. split; intros; [lia|done]. }
    destruct (limit_category args) as [category|] eqn:Ec; cbn.
    2: { destruct (Z.eq_dec (store_count args) 0) as [E0|E0].
         - rewrite E0. cbn. repeat split; try done.
         - apply Htrim; try done; intros; lia. }
    destruct (H3 category eq_refl) as [Hq H3'].
    destruct (Z.eqb_spec (limit_flags category) ITEM_LIMIT_CATEGORY_MODE_HAVE) as [Ef|Ef]; cbn [andb].
    + destruct (Z.ltb_spec (limit_quantity category) (owned_of_category args proto + store_count args)); cbn.
      * specialize (H3' Ef). apply Htrim; try done; intros; lia.
      * apply Hkeep. split; intros; [lia|]. exists category. split; [done|]. intros; lia.
    + cbn. apply Hkeep. split; intros; [lia|]. exists category. by split.
  - destruct (Z.eqb_spec (item_limit_category proto) 0) as [E|E]; cbn [negb].
    { cbn. apply Hkeep. split; intros; [lia|done]. }
    destruct (limit_category args) as [category|] eqn:Ec; cbn.
    2: { destruct (Z.eq_dec (store_count args) 0) as [E0|E0].
         - rewrite E0. cbn. repeat split; try done.
         - apply Htrim; try done; intros; lia. }
    destruct (H3 category eq_refl) as [Hq H3'].
    destruct (Z.eqb_spec (limit_flags category) ITEM_LIMIT_CATEGORY_MODE_HAVE) as [Ef|Ef]; cbn [andb].
    + destruct (Z.ltb_spec (limit_quantity category) (owned_of_category args proto + store_count args)); cbn.
      * specialize (H3' Ef). apply Htrim; try done; intros; lia.
      * apply Hkeep. split; intros; [lia|]. exists category. split; [done|]. intros; lia.
    + cbn. apply Hkeep. split; intros; [lia|]. exists category. by split.
Qed.

(** * The plan *)
Lemma store_run_exact p args proto ns dest count :
  plan_typed p args proto -> 0 <= ns <= store_count args -> 0 <= count ->
  let (o, plan) := store_run p args proto ns (dest, count) in
  placed (room p args proto) (dest, count) plan /\
  (result o = InventoryResult.Ok -> snd plan = 0 /\ ns = 0 /\ no_space_count o = None) /\
  (forall n, no_space_count o = Some n -> n = u32 (snd plan + ns)).
Proof.
  intros Ht Hns Hc. unfold store_run.
  pose proof (run_steps_ok _ (outcome_exact ns) _ (dest, count) (store_steps_ok p args proto ns Ht Hns) Hc)
    as H.
  destruct (run_steps _ _) as [[o plan]|plan].
  - destruct H as (Hp & H1 & H2 & _). auto.
  - split; [done|]. split; [done|]. cbn. by intros n [= <-].
Qed.

(** C11: for a player who is not over a limit already, whose registered bags are of
    their templates' sizes, a plan to store items says exactly where they go: no position twice; at
    every position there is room for what is put there (the rest of a stack of
    the same item, or an empty slot that exists and may hold the item); what is
    planned and what the outcome reports as not placed add up to the count asked
    for, so that success means that everything is placed; the player does not
    come to own more than the limit of the item, nor, when the plan succeeds,
    more than that of its category. *)
Theorem store_plan_exact p args proto o dest
    (Ht : plan_typed p args proto) (Hproto : store_proto args = Some proto)
    (Hlim : not_over_limit args proto) (E : can_store_item [] args p = (o, dest)) :
  NoDup (pos <$> dest) /\ Forall (fits (room p args proto)) dest /\
  (result o = InventoryResult.Ok -> total dest = store_count args /\ no_space_count o = None) /\
  (forall n, no_space_count o = Some n -> total dest + n = store_count args) /\
  (0 < max_count proto -> max_count proto <> i32_max ->
   owned args proto + total dest <= max_count proto) /\
  (result o = InventoryResult.Ok -> item_limit_category proto <> 0 -> max_count proto <> i32_max ->
   exists category, limit_category args = Some category /\
     (limit_flags category = ITEM_LIMIT_CATEGORY_MODE_HAVE ->
      owned_of_category args proto + total dest <= limit_quantity category)).
Proof.
  pose proof (typed_count _ _ _ Ht) as Hc.
  assert (Hc' : 0 <= store_count args <= u32_max).
  { unfold in_u in Hc. change (2 ^ 32) with 4294967296 in Hc. unfold u32_max. lia. }
  match goal with |- ?G =>
    assert (Hnone : forall o', result o' <> InventoryResult.Ok ->
              no_space_count o' = Some (store_count args) -> (o', []) = (o, dest) -> G) end.
  { intros o' H1 H2 [= <- <-]. split; [constructor|]. split; [constructor|]. split; [done|].
    split; [intros n Hn; cbn; rewrite H2 in Hn; by simplify_eq|].
    split; [intros; cbn; rewrite Z.add_0_r; by apply Hlim|done]. }
  unfold can_store_item in E. rewrite Hproto in E.
  assert (Herr : forall e, no_space_count (can_store_item_error e (store_count args) 0) =
                           Some (store_count args)).
  { intros e. cbn. by rewrite Z.add_0_r, u32_id. }
  destruct (match source_item args with Some s => loot_generated s | None => false end) eqn:El.
  { by eapply Hnone, E. }
  destruct (match source_item args with Some s => is_binded_not_with _ _ _ s | None => false end).
  { by eapply Hnone, E. }
  pose proof (store_similar_exact args proto Hc Hlim El) as Hs.
  destruct (store_similar args proto) as [o'|[count ns]].
  { destruct Hs as (H1 & _ & H3). by eapply Hnone, E. }
  destruct Hs as (Hns & Hcount & Hmax & Hcat).
  pose proof (store_run_exact p args proto ns [] count Ht Hns ltac:(lia)) as Hr.
  destruct (store_run _ _ _ _ _) as [o' [dest' left]]. simplify_eq/=.
  destruct Hr as ((l & El' & Hf & Et & H0 & _ & Hd) & Hok & Hno). cbn in *. subst l.
  assert (Hpos : 0 <= total dest).
  { apply total_nonneg. eapply Forall_impl; [exact Hf|]. apply fits_nonneg. }
  split; [by apply Hd; constructor|]. split; [done|]. split; [|split; [|split]].
  - intros H. destruct (Hok H) as (? & ? & ?). split; [lia|done].
  - intros n Hn. apply Hno in Hn. rewrite u32_id in Hn by lia. lia.
  - intros H1 H2. destruct (Hmax H1); [lia|done].
  - intros H1 H2 H3. destruct (Hok H1) as (? & H5 & _). destruct (Hcat H5 H2 H3) as (c & Ec & Hq).
    exists c. split; [done|]. intros H6. specialize (Hq H6). lia.
Qed.

(** A slot that can take [need] items: among the slots [lo..hi], other than the
    slot asked for, or in one of the [bags] that is for any kind of item, other
    than at the slot number asked for: that number is skipped in every bag. *)
Section Spare.
Context (p : Player) (args : CanStoreItemArgs) (proto : ItemStorageTemplate)
  (lo hi : Z) (bags : list Z).

Definition spare (merge : bool) (bag slot need : Z) : Prop :=
  takes args proto merge bag slot need /\
  ((bag = INVENTORY_SLOT_BAG_0 /\ lo <= slot < hi /\
    ~ (store_bag args = INVENTORY_SLOT_BAG_0 /\ slot = store_slot args)) \/
   (bag ∈ bags /\ regular_bag p args proto bag /\
    exists storage, bag_at bag p = Some storage /\ 0 <= slot < bag_size storage /\
      slot <> store_slot args)).

Hypothesis Ht : plan_typed p args proto.
Hypothesis Hrange : REAGENT_BAG_SLOT_START < lo /\ hi <= PLAYER_SLOT_END.

Lemma spare_range merge bag slot need :
  spare merge bag slot need -> in_u 8 slot /\ ~ (bag = store_bag args /\ slot = store_slot args).
Proof.
  unfold REAGENT_BAG_SLOT_START, PLAYER_SLOT_END in Hrange.
  intros [_ [(-> & Hs & Hn)|(_ & _ & storage & Es & Hs & Hn)]]; rewrite in_u8.
  - split; [lia|]. intros [E ->]. by apply Hn.
  - destruct (typed_bags _ _ _ Ht _ _ Es) as [_ H]. unfold MAX_BAG_SIZE in H.
    split; [lia|]. by intros [_ ?].
Qed.

(** There is room for exactly what the slot takes. *)
Lemma spare_room merge bag slot need need' :
  spare merge bag slot need -> room p args proto (make_item_pos bag slot) need' -> need' = need.
Proof.
  intros Hs (bag' & slot' & _ & Hu & E & Hr).
  destruct (spare_range _ _ _ _ Hs) as [Hu' Hn].
  apply make_item_pos_inj in E as [<- <-]; [|done..].
  destruct Hs as [Hneed _]. unfold takes, slot_need, slot_room in *.
  destruct (other_than _ _) as [e|], merge; simplify_eq; try done.
  - destruct (mergeable proto e) eqn:Em; try done. simplify_eq.
    destruct Hr as [[_ ->]|(_ & E1 & E2 & _)]; [done|]. exfalso. by apply Hn.
  - by destruct Hr.
Qed.

Context {O : Type} (fail : InventoryResult.t -> Z -> O) (done : O) (Post : O -> Plan -> Prop)
  (steps : list (@Step O)) (merge : bool).
Hypothesis Hsteps : Forall (step_ok (room p args proto) Post) steps.
Hypothesis Hslots : exists lo', lo' <= lo /\ plain_range lo' hi /\
  strict fail done (in_slots args proto lo' hi merge) ∈ steps.
Hypothesis Hbags : forall bag, bag ∈ bags -> in_u 8 bag /\ bag <> NULL_BAG /\
  lenient done (in_bag p args proto bag merge true (store_bag args)) ∈ steps.
Hypothesis Hrequested : store_bag args ∈ bags ->
  strict fail done (in_requested_bag p args proto merge) ∈ steps.

Lemma run_uses_spare count plan bag slot need :
  0 <= count -> run_steps steps ([], count) = inr plan -> 0 < snd plan ->
  spare merge bag slot need -> mkPosCount (make_item_pos bag slot) need ∈ fst plan.
Proof.
  intros Hc E Hleft Hs.
  assert (Hin : is_contained_in (make_item_pos bag slot) (fst plan) = true).
  { destruct Hs as [Htake [(-> & Hr & Hn)|(Hb & Hreg & storage & Es & Hr & Hn)]].
    - destruct Hslots as (lo' & Hlo & Hplain & Hstep).
      eapply (run_steps_passes _ _ _ _ _ ([], count) _ Hsteps Hstep); [|exact Hc|exact E|].
      + apply (strict_passes _ _ (room p args proto)); [by apply in_slots_ok|apply in_slots_covers].
      + exists slot, need. repeat split; by lia || tauto.
    - destruct (Hbags bag Hb) as (Hu & Hnull & Hstep).
      assert (Hfree : free_in_bag p args proto merge bag (make_item_pos bag slot))
        by (by exists storage, slot, need).
      destruct (decide (bag = store_bag args)) as [->|Hne].
      + eapply (run_steps_passes _ _ _ _ _ ([], count) _ Hsteps (Hrequested Hb));
          [|exact Hc|exact E|exact Hfree].
        apply (strict_passes _ _ (room p args proto)); [by apply in_requested_bag_ok|].
        by apply in_requested_bag_covers.
      + eapply (run_steps_passes _ _ _ _ _ ([], count) _ Hsteps Hstep); [|exact Hc|exact E|exact Hfree].
        apply (lenient_passes _ (room p args proto)); [by apply in_bag_ok| |by apply in_bag_covers].
        intros q. by apply in_bag_Ok. }
  pose proof (run_steps_ok _ Post _ ([], count) Hsteps Hc) as Hr. rewrite E in Hr.
  destruct Hr as (l & El & _ & _ & _ & Hfull & _). cbn in El. rewrite El in *.
  apply contained_spec, list_elem_of_fmap in Hin as ([position n] & Ep & Hin). cbn in Ep. subst.
  specialize (Hfull Hleft). rewrite Forall_forall in Hfull. specialize (Hfull _ Hin).
  unfold full in Hfull. cbn in Hfull. by rewrite (spare_room _ _ _ _ _ Hs Hfull) in Hin.
Qed.
End Spare.

(** C13: for a player who is not over a limit already, a plan to store items is
    refused for lack of room only when the room is used up: the plan fills, to
    the last item, every empty slot of the backpack other than the one asked for
    and of the equipped bags that take any kind of item, and every stack there
    that the items can be merged with, and something is left. In the bags,
    whichever was asked for, the slot number asked for is left out: the search
    skips it in each of them ([number_asked_for_is_skipped]). *)
Theorem store_plan_complete p args proto o dest merge bag slot need
    (Ht : plan_typed p args proto) (Hproto : store_proto args = Some proto)
    (Hlim : not_over_limit args proto) (E : can_store_item [] args p = (o, dest))
    (Hfull : result o = InventoryResult.InvFull)
    (Hm : merge = true -> stackable proto = true)
    (Hs : spare p args proto INVENTORY_SLOT_ITEM_START (inventory_end p) inventory_bags
            merge bag slot need) :
  mkPosCount (make_item_pos bag slot) need ∈ dest /\ total dest < store_count args.
Proof.
  pose proof (typed_count _ _ _ Ht) as Hc. unfold can_store_item in E. rewrite Hproto in E.
  destruct (match source_item args with Some s => loot_generated s | None => false end) eqn:El;
    [by simplify_eq|].
  destruct (match source_item args with Some s => is_binded_not_with _ _ _ s | None => false end);
    [by simplify_eq|].
  pose proof (store_similar_exact args proto Hc Hlim El) as Hsim.
  destruct (store_similar args proto) as [o'|[count ns]].
  { destruct Hsim as (_ & H & _). by simplify_eq. }
  destruct Hsim as (Hns & Hcount & _ & _). unfold store_run in E.
  assert (Hc0 : 0 <= count) by lia.
  pose proof (run_steps_ok _ (outcome_exact ns) _ ([], count) (store_steps_ok p args proto ns Ht Hns) Hc0)
    as Hr.
  destruct (run_steps _ _) as [[o' plan]|plan] eqn:Er.
  { destruct plan. simplify_eq. by destruct Hr as (_ & _ & _ & Hr). }
  assert (Hleft : snd plan <> 0).
  { eapply run_steps_lasts; [apply store_steps_last|exact Er|]. right.
    destruct (backpack_step p args proto ns Ht false) as (lo & _ & _ & Hin); [done|].
    by eexists. }
  destruct plan as [dest' left]. simplify_eq.
  destruct Hr as (l & El' & Hf & Et & H0 & _). cbn in *. subst l. split; [|lia].
  change dest with (fst (dest, left)).
  eapply run_uses_spare; [exact Ht| |by apply store_steps_ok|by apply backpack_step|
    |by apply requested_bag_step|exact Hc0|exact Er|cbn; lia|exact Hs].
  - pose proof (inventory_end_range p args proto Ht). unfold REAGENT_BAG_SLOT_START,
      INVENTORY_SLOT_ITEM_START, INVENTORY_SLOT_ITEM_END, PLAYER_SLOT_END in *. lia.
  - intros b Hb. split; [by apply inventory_bag_range|]. split; [|by apply bag_step].
    apply elem_of_slot_range in Hb. unfold INVENTORY_SLOT_BAG_START, NULL_BAG in *. lia.
Qed.

(** * Banking *)
(** What a plan for the bank leaves to be placed. *)
Definition bank_exact (result : InventoryResult.t) (plan : Plan) : Prop :=
  (result = InventoryResult.Ok -> snd plan = 0) /\ result <> InventoryResult.BankFull.

Section BankSteps.
Context (p : Player) (args : CanBankItemArgs) (proto : ItemStorageTemplate).
Let sargs := bank_store_args args 0.
Hypothesis Ht : plan_typed p sargs proto.
Let ok := room p sargs proto.
Let fail (e : InventoryResult.t) (_ : Z) := e.
Let step_ok := step_ok ok bank_exact.

Lemma bank_fail e plan :
  e <> InventoryResult.Ok -> phase_result e -> bank_exact (fail e (snd plan)) plan.
Proof. intros He [_ Hr]. by split. Qed.

Lemma bank_done plan : snd plan = 0 -> bank_exact InventoryResult.Ok plan.
Proof. by split. Qed.

Lemma plain_bank : plain_range BANK_SLOT_ITEM_START BANK_SLOT_ITEM_END.
Proof.
  unfold plain_range, BANK_SLOT_ITEM_START, BANK_SLOT_ITEM_END, PLAYER_SLOT_END,
    BUYBACK_SLOT_START, BUYBACK_SLOT_END. lia.
Qed.

Lemma bank_in_slots_ok merge : Forall step_ok (bank_in_slots args proto merge).
Proof.
  constructor; [|done]. apply strict_ok; [apply bank_fail|apply bank_done|].
  apply in_slots_ok; [exact Ht|apply plain_bank].
Qed.

Lemma bank_in_bags_ok merge non_specialized :
  Forall step_ok (bank_in_bags p args proto merge non_specialized).
Proof.
  apply Forall_fmap, Forall_forall. intros bag Hb. apply elem_of_slot_range in Hb.
  apply lenient_ok; [apply bank_done|]. apply (in_bag_ok p sargs proto Ht).
  rewrite in_u8. unfold BANK_SLOT_BAG_START, BANK_SLOT_BAG_END in Hb. lia.
Qed.

Lemma bank_steps_ok :
  phase_result (can_use_result args) -> Forall step_ok (bank_steps p args proto).
Proof.
  intros Huse.
  assert (Hbag : forall merge, Forall step_ok
            [strict fail InventoryResult.Ok (in_requested_bag p sargs proto merge)]).
  { intros merge. constructor; [|done]. apply strict_ok; [apply bank_fail|apply bank_done|].
    by apply in_requested_bag_ok. }
  assert (Hstop : forall e plan, 0 <= snd plan -> e <> InventoryResult.Ok -> phase_result e ->
            placed ok plan plan /\ bank_exact e plan).
  { intros e plan Hc He Hr. split; [by apply placed_refl|]. by apply bank_fail. }
  unfold bank_steps, bank_requested_slot, bank_requested_bag, bank_anywhere.
  apply Forall_app; split; [|apply Forall_app; split].
  - apply Forall_given. constructor; [|constructor; [|done]].
    + intros plan Hc. unfold refuse_bank_bag_slot.
      destruct (in_range _ _ _); [|by apply placed_refl].
      destruct (negb _); [by apply Hstop|]. destruct (_ <=? _); [by apply Hstop|].
      revert Huse. destruct (can_use_result args); intros Huse;
        first [by apply placed_refl | apply Hstop; [exact Hc|discriminate|exact Huse]].
    + apply strict_ok; [apply bank_fail|apply bank_done|]. by apply in_specific_slot_ok.
  - apply Forall_given. constructor; [|apply Forall_app; split; [apply Forall_given|]; case_match;
      first [apply bank_in_slots_ok | apply Hbag]].
    intros plan Hc. unfold bank_refuse_full_bag.
    destruct (bank_source_is_not_empty_bag args); [by apply Hstop|by apply placed_refl].
  - repeat first [apply Forall_app; split | apply Forall_given | apply bank_in_slots_ok
      | apply bank_in_bags_ok].
Qed.

Lemma bank_steps_last : Forall lasts (bank_steps p args proto).
Proof.
  assert (Hb : forall merge non_specialized,
            Forall lasts (bank_in_bags p args proto merge non_specialized)).
  { intros. apply Forall_fmap, Forall_forall. intros bag _.
    apply lenient_lasts, in_bag_fails_clean. }
  assert (Hstrict : forall phase, Forall lasts [strict fail InventoryResult.Ok phase]).
  { intros. constructor; [apply strict_lasts|done]. }
  unfold bank_steps, bank_requested_slot, bank_requested_bag, bank_anywhere.
  apply Forall_app; split; [|apply Forall_app; split].
  - apply Forall_given. constructor; [|apply Hstrict].
    intros plan plan' Hn. unfold refuse_bank_bag_slot.
    destruct (in_range _ _ _); [|by intros [= <-]].
    destruct (negb _); [done|]. destruct (_ <=? _); [done|].
    destruct (can_use_result args); first [done | by intros [= <-]].
  - apply Forall_given. constructor; [intros plan plan' Hn; unfold bank_refuse_full_bag;
      case_match; by intros [= <-]|].
    apply Forall_app; split; [apply Forall_given|]; case_match; apply Hstrict.
  - repeat first [apply Forall_app; split | apply Forall_given | apply Hb | apply Hstrict].
Qed.

Lemma bank_slots_step merge :
  may proto merge -> exists lo, lo <= BANK_SLOT_ITEM_START /\ plain_range lo BANK_SLOT_ITEM_END /\
  strict fail InventoryResult.Ok (in_slots sargs proto lo BANK_SLOT_ITEM_END merge)
    ∈ bank_steps p args proto.
Proof.
  intros Hm. exists BANK_SLOT_ITEM_START. split; [done|]. split; [apply plain_bank|].
  unfold bank_steps, bank_anywhere, bank_in_slots. rewrite !elem_of_app, !list_elem_of_singleton.
  right; right. destruct merge; [left; rewrite (Hm eq_refl)|right; right; by left].
  cbn [given]. apply elem_of_app. left. by apply list_elem_of_singleton.
Qed.

Lemma bank_requested_step merge :
  may proto merge -> store_bag sargs ∈ bank_bags ->
  strict fail InventoryResult.Ok (in_requested_bag p sargs proto merge) ∈ bank_steps p args proto.
Proof.
  change (store_bag sargs) with (bank_bag args).
  intros Hm Hb. apply elem_of_slot_range in Hb. unfold BANK_SLOT_BAG_START, BANK_SLOT_BAG_END in Hb.
  unfold bank_steps, bank_requested_bag.
  replace (bank_bag args =? NULL_BAG) with false by (unfold NULL_BAG; lia).
  replace (bank_bag args =? INVENTORY_SLOT_BAG_0) with false by (unfold INVENTORY_SLOT_BAG_0; lia).
  cbn [negb given]. rewrite !elem_of_app, elem_of_cons, elem_of_app. right; left. right. destruct merge.
  - left. rewrite (Hm eq_refl). by apply list_elem_of_singleton.
  - right. by apply list_elem_of_singleton.
Qed.

Lemma bank_bag_step merge bag :
  may proto merge -> bag ∈ bank_bags ->
  lenient InventoryResult.Ok (in_bag p sargs proto bag merge true (store_bag sargs))
    ∈ bank_steps p args proto.
Proof.
  intros Hm Hb.
  assert (Hin : lenient InventoryResult.Ok (in_bag p sargs proto bag merge true (bank_bag args))
                  ∈ bank_in_bags p args proto merge true).
  { unfold bank_in_bags. apply list_elem_of_fmap. by exists bag. }
  unfold bank_steps, bank_anywhere. rewrite !elem_of_app.
  destruct merge; [|by do 5 right].
  right; right; left. rewrite (Hm eq_refl). cbn [given]. rewrite !elem_of_app. by do 2 right.
Qed.
End BankSteps.

(** A plan to put an item into the bank says exactly where it goes: no
    position twice, and at every position there is room for what is put there;
    success means that the whole item is placed, and "bank full" that every empty
    slot of the bank, and of its bags for any kind of item, is filled and
    something is left. *)
Theorem bank_plan_exact p args proto source r dest
    (Ht : plan_typed p (bank_store_args args (item_count source)) proto)
    (Hproto : bank_proto args = Some proto) (Hsource : bank_source_item args = Some source)
    (Huse : phase_result (can_use_result args)) (E : can_bank_item [] args p = (r, dest)) :
  NoDup (pos <$> dest) /\
  Forall (fits (room p (bank_store_args args (item_count source)) proto)) dest /\
  (r = InventoryResult.Ok -> total dest = item_count source) /\
  (r = InventoryResult.BankFull ->
   total dest < item_count source /\
   forall bag slot need,
     spare p (bank_store_args args (item_count source)) proto BANK_SLOT_ITEM_START
       BANK_SLOT_ITEM_END bank_bags false bag slot need ->
     mkPosCount (make_item_pos bag slot) need ∈ dest).
Proof.
  set (sargs := bank_store_args args (item_count source)) in *.
  assert (Ht' : plan_typed p (bank_store_args args 0) proto) by (by destruct Ht).
  assert (Hc : 0 <= item_count source) by apply (typed_count _ _ _ Ht).
  unfold can_bank_item in E. rewrite Hproto, Hsource in E.
  match goal with |- ?G =>
    assert (Hnone : forall r', r' <> InventoryResult.Ok -> r' <> InventoryResult.BankFull ->
              (r', []) = (r, dest) -> G) end.
  { intros r' H1 H2 [= <- <-]. split; [constructor|]. by split; [constructor|]. }
  destruct (loot_generated source) eqn:El; [by eapply Hnone, E|].
  destruct (is_binded_not_with _ _ _ _); [by eapply Hnone, E|].
  destruct (source_is_currency_token args); [by eapply Hnone, E|].
  set (similar := can_take_more_similar_items _ _ _ _ _ _) in E.
  assert (Hsim : similar_result similar = InventoryResult.Ok \/
            similar_result similar <> InventoryResult.Ok /\
            similar_result similar <> InventoryResult.BankFull).
  { unfold similar, can_take_more_similar_items. rewrite El.
    repeat case_match; first [by left | by right]. }
  destruct Hsim as [Hsim|[H1 H2]].
  2: { eapply (Hnone _ H1 H2). rewrite <- E. by destruct (similar_result similar). }
  rewrite Hsim in E. unfold bank_run in E.
  pose proof (run_steps_ok _ bank_exact _ ([], item_count source)
                (bank_steps_ok p args proto Ht' Huse) Hc) as Hr.
  destruct (run_steps _ _) as [[r' plan]|plan] eqn:Er; destruct plan as [dest' left];
    simplify_eq; [destruct Hr as [(l & El' & Hf & Et & H0 & _ & Hd) [Hok Hbf]]
                 |destruct Hr as (l & El' & Hf & Et & H0 & _ & Hd)]; cbn in *; subst l.
  - split; [by apply Hd; constructor|]. split; [done|]. split; [|done].
    intros H. specialize (Hok H). lia.
  - split; [by apply Hd; constructor|]. split; [done|]. split; [done|]. intros _.
    assert (Hleft : left <> 0).
    { change left with (snd (dest, left)).
      eapply run_steps_lasts; [apply bank_steps_last|exact Er|]. right.
      destruct (bank_slots_step p args proto false) as (lo & _ & _ & Hin); [done|].
      by eexists. }
    split; [lia|]. intros bag slot need Hs.
    change dest with (fst (dest, left)).
    eapply (run_uses_spare p (bank_store_args args 0) proto BANK_SLOT_ITEM_START
              BANK_SLOT_ITEM_END bank_bags Ht' ltac:(done) (fun e _ => e) InventoryResult.Ok
              bank_exact (bank_steps p args proto) false);
      [exact (bank_steps_ok p args proto Ht' Huse)|by apply bank_slots_step|
      |by apply (bank_requested_step p args proto false)|exact Hc|exact Er
      |cbn; lia|exact Hs].
    intros b Hb. apply and_assoc. split; [|by apply bank_bag_step].
    apply elem_of_slot_range in Hb. rewrite in_u8.
    unfold BANK_SLOT_BAG_START, BANK_SLOT_BAG_END, NULL_BAG in *. lia.
Qed.

(** The plans of InventoryPlan.v at concrete inventories: that the theorems of
    InventoryPlanTheorems.v apply, and where the arithmetic of a limit wraps. *)

(** A backpack of two slots, the first with two of an item that stacks to five,
    and a bag of three slots. *)
Definition sample_guid (counter : Z) : ObjectGuid := mkGuid counter 1.
Definition sample_bag : PlayerBagStorage := bag_storage_new (sample_guid 2) 3.
Definition sample_player : Player :=
  (player_default (sample_guid 1) 2 2)
    <| bags := <[30%nat := Some sample_bag]> (replicate (Z.to_nat PLAYER_SLOT_END) None) |>.
Definition sample_proto : ItemStorageTemplate := regular_item 100 5.
Definition sample_item (counter count : Z) : Item :=
  (item_new 0) <| item_guid := sample_guid counter |> <| item_entry := 100 |>
    <| item_count := count |>.
Definition sample_bag_proto : ItemStorageTemplate :=
  mkTemplate 200 ItemClass.Container ItemSubClassContainer.Container InventoryType.NonEquip
    ItemBondingType.None 0 1 0 0 3 0 false 0.
Definition sample_args (count : Z) : CanStoreItemArgs :=
  mkStoreArgs NULL_BAG NULL_SLOT count (Some sample_proto) None false false false None
    [mkSlotRef INVENTORY_SLOT_BAG_0 35 (sample_item 3 2)]
    [mkStorageRef INVENTORY_SLOT_BAG_0 35 (sample_item 3 2) (Some sample_proto)]
    [mkBagTemplate 30 sample_bag_proto].

Lemma sample_bag_at bag storage : bag_at bag sample_player = Some storage ->
  Z.to_nat bag = 30%nat /\ storage = sample_bag.
Proof.
  unfold bag_at, sample_player. cbn [bags]. destruct (decide (Z.to_nat bag = 30%nat)) as [->|Hn].
  - cbn. by intros [= <-].
  - change (bags _) with (<[30%nat := Some sample_bag]>
      (replicate (Z.to_nat PLAYER_SLOT_END) (@None PlayerBagStorage))).
    rewrite list_lookup_insert_ne by done.
    destruct (replicate _ _ !! _) as [o|] eqn:E; [|done].
    apply lookup_replicate in E as [-> _]. done.
Qed.

Lemma sample_typed args : bag_templates args = [mkBagTemplate 30 sample_bag_proto] ->
  in_u 8 (store_bag args) -> in_u 8 (store_slot args) -> in_u 32 (store_count args) ->
  plan_typed sample_player args sample_proto.
Proof.
  intros Ht Hb Hs Hc. split; try done.
  - intros bag storage [_ ->]%sample_bag_at. done.
  - intros bag storage bag_proto [_ ->]%sample_bag_at. rewrite Ht.
    unfold bag_template_by_pos, find_first. cbn. case_match; [|done]. cbn. by intros [= <-].
Qed.

(** The first stack of 5 becomes full, the free slot and the bag take the rest. *)
Lemma store_plan_exact_witness :
  let args := sample_args 12 in
  fst (can_store_item [] args sample_player) = mkOutcome InventoryResult.Ok None /\
  total (snd (can_store_item [] args sample_player)) = 12 /\
  NoDup (pos <$> snd (can_store_item [] args sample_player)).
Proof.
  assert (H := store_plan_exact sample_player (sample_args 12) sample_proto
            (fst (can_store_item [] (sample_args 12) sample_player))
            (snd (can_store_item [] (sample_args 12) sample_player))
            ltac:(by apply sample_typed) eq_refl
            ltac:(split; [done|done|done|by vm_compute]) (surjective_pairing _)).
  destruct H as (H1 & _ & H2 & _). cbn zeta. split; [by vm_compute|].
  split; [|exact H1]. apply H2. by vm_compute.
Defined.

(** Everything is full, and seven items are left. *)
Lemma store_plan_complete_witness :
  let args := sample_args 30 in
  let dest := snd (can_store_item [] args sample_player) in
  fst (can_store_item [] args sample_player) = mkOutcome InventoryResult.InvFull (Some 7) /\
  mkPosCount (make_item_pos INVENTORY_SLOT_BAG_0 36) 5 ∈ dest /\ total dest < 30.
Proof.
  cbn zeta. split; [by vm_compute|].
  apply (store_plan_complete sample_player (sample_args 30) sample_proto
           (fst (can_store_item [] (sample_args 30) sample_player)) _
           false INVENTORY_SLOT_BAG_0 36 5);
    [by apply sample_typed|done|split; [done|done|done|by vm_compute]|apply surjective_pairing
    |by vm_compute|done|].
  split; [by vm_compute|]. left. split; [done|]. split; [by vm_compute|]. by intros [? _].
Defined.

Definition sample_bank_args (source : Item) : CanBankItemArgs :=
  mkBankArgs NULL_BAG NULL_SLOT (Some sample_proto) (Some source) false false false false false
    InventoryResult.Ok None [] [] [mkBagTemplate 30 sample_bag_proto].

Lemma bank_plan_exact_witness :
  can_bank_item [] (sample_bank_args (sample_item 4 5)) sample_player
  = (InventoryResult.Ok, [mkPosCount (make_item_pos INVENTORY_SLOT_BAG_0 59) 5]) /\
  total (snd (can_bank_item [] (sample_bank_args (sample_item 4 5)) sample_player)) = 5.
Proof.
  split; [by vm_compute|].
  apply (bank_plan_exact sample_player (sample_bank_args (sample_item 4 5)) sample_proto
           (sample_item 4 5) InventoryResult.Ok);
    [by apply sample_typed|done|done|done|by vm_compute|done].
Defined.

(** A bag with its two other slots taken and the backpack full: slot 2 of the bag
    is free, but when slot 2 of another bag was asked for and is taken, it is not
    found. *)
Lemma number_asked_for_is_skipped :
  let bag := bag_storage_new (sample_guid 2) 3 in
  let p := sample_player <| bags := <[30%nat := Some bag]> (<[31%nat := Some bag]>
             (replicate (Z.to_nat PLAYER_SLOT_END) None)) |> in
  let item counter := sample_item counter 5 in
  let at_ b s counter := mkSlotRef b s (item counter) in
  let args := mkStoreArgs 30 2 8 (Some sample_proto) None false false false None
    [at_ INVENTORY_SLOT_BAG_0 35 3; at_ INVENTORY_SLOT_BAG_0 36 4;
     at_ 30 0 5; at_ 30 1 6; at_ 31 0 7; at_ 31 1 8] []
    [mkBagTemplate 30 sample_bag_proto; mkBagTemplate 31 sample_bag_proto] in
  item_ref_by_pos (slot_items args) 31 2 = None /\
  can_store_item [] args p
  = (mkOutcome InventoryResult.InvFull (Some 3), [mkPosCount (make_item_pos 30 2) 5]).
Proof. by vm_compute. Qed.

(** A player who owns five of an item limited to two, and is given one more: the
    excess, four, is more than the count of one, whose difference wraps: a plan
    for 4294967293 items instead of a refusal. *)
Lemma store_similar_wraps :
  let proto := mkTemplate 100 ItemClass.Miscellaneous 0 InventoryType.NonEquip
                 ItemBondingType.None 0 20 2 0 0 0 false 0 in
  let args := mkStoreArgs NULL_BAG NULL_SLOT 1 (Some proto) None false false false None []
                [mkStorageRef INVENTORY_SLOT_BAG_0 35 (sample_item 3 5) (Some proto)] [] in
  store_similar args proto = inr (4294967293, 4).
Proof. by vm_compute. Qed.
