(* ===== verification/InventoryBuyback.v ===== *)
(** The buyback slots of a player (storage.rs of wow-entities): the last twelve
    items sold.  In every state the operations lead to, selling an item finds a
    slot, empty if there is one, and otherwise the one of the oldest sale. *)
From S2P Require Import Prelude Guid InventoryModel Items InventoryStorage.

Definition buyback_time_at (slot : Z) (p : Player) : Z :=
  nth (Z.to_nat (slot - BUYBACK_SLOT_START)) (buyback_timestamp p) 0.

Record buyback_ok (p : Player) : Prop := {
  ok_items : length (items p) = Z.to_nat PLAYER_SLOT_END;
  ok_inv_slots : length (inv_slots p) = Z.to_nat PLAYER_SLOT_END;
  ok_prices : length (buyback_price p) = Z.to_nat BUYBACK_SLOT_COUNT;
  ok_times : length (buyback_timestamp p) = Z.to_nat BUYBACK_SLOT_COUNT;
  ok_current : is_buyback_slot (current_buyback_slot p) = true;
  ok_time_pos : forall slot, is_buyback_slot slot = true -> 0 <= buyback_time_at slot p;
  ok_time_empty : forall slot, is_buyback_slot slot = true ->
    top_level_item_guid slot p = None -> buyback_time_at slot p = 0;
  ok_view : forall slot, is_buyback_slot slot = true ->
    inv_slots p !! Z.to_nat slot = Some (default EMPTY (top_level_item_guid slot p)) }.

Lemma buyback_slot_spec slot :
  is_buyback_slot slot = true <-> BUYBACK_SLOT_START <= slot < BUYBACK_SLOT_END.
Proof. unfold is_buyback_slot, in_range. rewrite andb_true_iff, Z.leb_le, Z.ltb_lt. done. Qed.

Ltac slots :=
  rewrite ?buyback_slot_spec in *;
  unfold BUYBACK_SLOT_START, BUYBACK_SLOT_END, BUYBACK_SLOT_COUNT, PLAYER_SLOT_END,
    BUYBACK_SLOT_START, BUYBACK_SLOT_END in *; lia.

(** * One slot set to an item or emptied *)

(** What both removal and sale do to a slot of a player. *)
Definition put_buyback (slot : Z) (guid : option ObjectGuid) (price time : Z) (p : Player) : Player :=
  let index := slot - BUYBACK_SLOT_START in
  set_buyback_timestamp index time (set_buyback_price index price
    (set_inv_slot slot (default EMPTY guid)
      (p <| items := <[Z.to_nat slot := guid]> (items p) |>))).

Section Put.
Context (slot : Z) (guid : option ObjectGuid) (price time : Z) (p : Player).
Hypothesis Hp : buyback_ok p.
Hypothesis Hslot : is_buyback_slot slot = true.

Let p' := put_buyback slot guid price time p.

Lemma put_fields :
  items p' = <[Z.to_nat slot := guid]> (items p) /\
  inv_slots p' = <[Z.to_nat slot := default EMPTY guid]> (inv_slots p) /\
  buyback_timestamp p' = <[Z.to_nat (slot - BUYBACK_SLOT_START) := time]> (buyback_timestamp p) /\
  buyback_price p' = <[Z.to_nat (slot - BUYBACK_SLOT_START) := price]> (buyback_price p) /\
  current_buyback_slot p' = current_buyback_slot p.
Proof.
  unfold p', put_buyback, set_buyback_timestamp, set_buyback_price, set_inv_slot.
  pose proof Hslot as H.
  destruct (Z.leb_spec PLAYER_SLOT_END slot); [slots|].
  destruct (Z.leb_spec BUYBACK_SLOT_COUNT (slot - BUYBACK_SLOT_START)); [slots|done].
Qed.

Lemma put_same : top_level_item_guid slot p' = guid.
Proof.
  destruct put_fields as [E _]. unfold top_level_item_guid. rewrite E.
  rewrite list_lookup_insert_eq; [done|]. rewrite (ok_items _ Hp). pose proof Hslot. slots.
Qed.

Lemma put_other s : 0 <= s -> s <> slot -> top_level_item_guid s p' = top_level_item_guid s p.
Proof.
  intros H0 Hn. destruct put_fields as [E _]. unfold top_level_item_guid. rewrite E.
  rewrite list_lookup_insert_ne; [done|]. pose proof Hslot. slots.
Qed.

Lemma put_time s : is_buyback_slot s = true ->
  buyback_time_at s p' = if s =? slot then time else buyback_time_at s p.
Proof.
  intros Hs. destruct put_fields as (_ & _ & E & _). unfold buyback_time_at. rewrite E.
  rewrite !nth_lookup. destruct (Z.eqb_spec s slot) as [->|Hn].
  - rewrite list_lookup_insert_eq; [done|]. rewrite (ok_times _ Hp). slots.
  - rewrite list_lookup_insert_ne; [done|]. pose proof Hslot. slots.
Qed.

(** The invariant holds again, whichever buyback slot becomes the current one. *)
Lemma put_ok current :
  is_buyback_slot current = true -> 0 <= time -> (guid = None -> time = 0) ->
  buyback_ok (p' <| current_buyback_slot := current |>).
Proof.
  intros Hc H0 Hn. destruct put_fields as (E1 & E2 & E3 & E4 & _).
  pose proof put_same as Hsame. pose proof put_other as Hother. pose proof put_time as Htime.
  split; cbn.
  - rewrite E1, length_insert. apply Hp.
  - rewrite E2, length_insert. apply Hp.
  - rewrite E4, length_insert. apply Hp.
  - rewrite E3, length_insert. apply Hp.
  - done.
  - intros s Hs. change (0 <= buyback_time_at s p'). rewrite Htime by done.
    destruct (s =? slot); [done|by apply Hp].
  - intros s Hs. change (top_level_item_guid s p' = None -> buyback_time_at s p' = 0).
    rewrite Htime by done. destruct (Z.eqb_spec s slot) as [->|Hne].
    + rewrite Hsame. auto.
    + rewrite Hother; [by apply Hp|slots|done].
  - intros s Hs. change (inv_slots p' !! Z.to_nat s = Some (default EMPTY (top_level_item_guid s p'))).
    rewrite E2. destruct (decide (s = slot)) as [->|Hne].
    + rewrite Hsame, list_lookup_insert_eq; [done|]. rewrite (ok_inv_slots _ Hp). slots.
    + rewrite Hother, list_lookup_insert_ne; [by apply Hp| |slots|done]. pose proof Hslot. slots.
Qed.
End Put.

(** * The operations *)
Lemma set_current_id p : p <| current_buyback_slot := current_buyback_slot p |> = p.
Proof. by destruct p. Qed.

Lemma current_item p : buyback_ok p ->
  current_buyback_item p = Some (top_level_item_guid (current_buyback_slot p) p).
Proof.
  intros Hp. unfold current_buyback_item, top_level_item_guid.
  destruct (items p !! Z.to_nat (current_buyback_slot p)) as [o|] eqn:E; [done|].
  apply lookup_ge_None in E. rewrite (ok_items _ Hp) in E. pose proof (ok_current _ Hp). slots.
Qed.

(** Removing empties the slot, which becomes the current one if the current one
    is taken. *)
Lemma remove_buyback p slot : buyback_ok p -> is_buyback_slot slot = true ->
  exists p', remove_item_from_buyback_slot slot p = Some (p', top_level_item_guid slot p) /\
    let p0 := put_buyback slot None 0 0 p in
    p' = (if bool_decide (is_Some (top_level_item_guid (current_buyback_slot p) p0))
          then p0 <| current_buyback_slot := slot |> else p0) /\ buyback_ok p'.
Proof.
  intros Hp Hs. set (p0 := put_buyback slot None 0 0 p).
  assert (Ep0 : current_buyback_slot p0 = current_buyback_slot p) by by apply put_fields.
  assert (Hp0 : forall c, is_buyback_slot c = true -> buyback_ok (p0 <| current_buyback_slot := c |>)).
  { intros c Hc. by apply put_ok. }
  assert (Hp0' : buyback_ok p0).
  { replace p0 with (p0 <| current_buyback_slot := current_buyback_slot p |>).
    - apply Hp0, Hp.
    - rewrite <- Ep0. apply set_current_id. }
  pose proof (current_item p0 Hp0') as Ec. rewrite Ep0 in Ec.
  unfold remove_item_from_buyback_slot. rewrite Hs. cbn [negb].
  change (set_buyback_timestamp _ _ _) with p0. rewrite Ec. cbn.
  eexists. split; [done|]. split; [done|]. case_bool_decide; [by apply Hp0|done].
Qed.

Lemma fill_buyback p slot guid price time : buyback_ok p -> is_buyback_slot slot = true -> 0 <= time ->
  exists current,
    fill_buyback_slot slot guid price time p
    = (put_buyback slot (Some guid) price time p) <| current_buyback_slot := current |> /\
    is_buyback_slot current = true.
Proof.
  intros Hp Hs Ht. unfold fill_buyback_slot.
  change (set_buyback_timestamp _ _ _) with (put_buyback slot (Some guid) price time p).
  set (p0 := put_buyback _ _ _ _ _).
  assert (Ep0 : current_buyback_slot p0 = current_buyback_slot p) by by apply put_fields.
  pose proof (ok_current _ Hp) as Hc. rewrite Ep0.
  destruct (Z.ltb_spec (current_buyback_slot p) (BUYBACK_SLOT_END - 1)).
  - eexists. split; [done|]. slots.
  - exists (current_buyback_slot p). split; [|done]. by rewrite <- Ep0, set_current_id.
Qed.

(** The scan ends at an empty slot or at the least of the times seen. *)
Lemma oldest_buyback_spec p candidates slot time :
  time = buyback_time_at slot p ->
  let found := oldest_buyback p candidates slot time in
  (found = slot \/ found ∈ candidates) /\
  (found ∈ candidates /\ top_level_item_guid found p = None \/
   (forall s, s ∈ candidates -> is_Some (top_level_item_guid s p)) /\
   (forall s, s = slot \/ s ∈ candidates -> buyback_time_at found p <= buyback_time_at s p) /\
   (found = slot \/ buyback_time_at found p < buyback_time_at slot p)).
Proof.
  revert slot time. induction candidates as [|c rest IH]; intros slot time ->; cbn.
  { split; [by left|]. right. split; [intros s Hs; by apply not_elem_of_nil in Hs|].
    split; [|by left]. intros s [->|Hs]; [done|by apply not_elem_of_nil in Hs]. }
  destruct (top_level_item_guid c p) as [g|] eqn:Ec.
  2: { split; [right; apply list_elem_of_here|]. left. split; [apply list_elem_of_here|done]. }
  fold (buyback_time_at c p).
  assert (Hcase : forall best,
            best = slot \/ best = c /\ buyback_time_at best p < buyback_time_at slot p ->
            buyback_time_at best p <= buyback_time_at c p ->
            let found := oldest_buyback p rest best (buyback_time_at best p) in
            (found = slot \/ found ∈ c :: rest) /\
            (found ∈ c :: rest /\ top_level_item_guid found p = None \/
             (forall s, s ∈ c :: rest -> is_Some (top_level_item_guid s p)) /\
             (forall s, s = slot \/ s ∈ c :: rest -> buyback_time_at found p <= buyback_time_at s p) /\
             (found = slot \/ buyback_time_at found p < buyback_time_at slot p))).
  { intros best Hb H2. destruct (IH best _ eq_refl) as [Hf Hd]. cbn zeta in *.
    set (found := oldest_buyback _ _ _ _) in *.
    rewrite !elem_of_cons. split; [destruct Hf as [->|?]; destruct Hb as [->|[-> _]]; tauto|].
    destruct Hd as [[Hin He]|(Hall & Hmin & Hlt)]; [by left; auto|]. right. split; [|split].
    - intros s [->|Hs]%elem_of_cons; [by exists g|auto].
    - intros s. rewrite elem_of_cons. pose proof (Hmin best (or_introl eq_refl)).
      intros [->|[->|Hs]]; [destruct Hb as [->|[-> ?]]; lia|lia|]. apply Hmin. by right.
    - destruct Hb as [->|[-> ?]]; [done|]. right. destruct Hlt as [->|?]; lia. }
  destruct (Z.ltb_spec (buyback_time_at c p) (buyback_time_at slot p)).
  - apply Hcase; [by right|lia].
  - apply Hcase; [by left|lia].
Qed.

(** Where the next sale goes. *)
Lemma sale_slot p : buyback_ok p ->
  exists slot, buyback_slot_for_new_item p = Some slot /\ is_buyback_slot slot = true /\
    (is_Some (top_level_item_guid slot p) ->
     forall s, is_buyback_slot s = true ->
       is_Some (top_level_item_guid s p) /\ buyback_time_at slot p <= buyback_time_at s p).
Proof.
  intros Hp. unfold buyback_slot_for_new_item. rewrite (current_item p Hp). cbn.
  case_bool_decide as Hc.
  2: { exists (current_buyback_slot p). split; [done|]. split; [by apply Hp|]. by intros. }
  pose proof (oldest_buyback_spec p (slot_range (BUYBACK_SLOT_START + 1) BUYBACK_SLOT_END)
                BUYBACK_SLOT_START (nth 0 (buyback_timestamp p) 0) eq_refl) as [Hf Hd].
  set (found := oldest_buyback _ _ _ _) in *.
  assert (Hfound : is_buyback_slot found = true).
  { destruct Hf as [->|Hf]; [done|]. unfold slot_range in Hf. rewrite elem_of_seqZ in Hf. slots. }
  exists found. split; [done|]. split; [done|]. intros Ho.
  destruct Hd as [[_ He]|(Hall & Hmin & Hlt)]; [by rewrite He in Ho; destruct Ho|].
  assert (Hsplit : forall s, is_buyback_slot s = true ->
            s = BUYBACK_SLOT_START \/ s ∈ slot_range (BUYBACK_SLOT_START + 1) BUYBACK_SLOT_END).
  { intros s Hs. destruct (decide (s = BUYBACK_SLOT_START)); [by left|right].
    unfold slot_range. rewrite elem_of_seqZ. slots. }
  intros s Hs. split; [|by apply Hmin, Hsplit]. destruct (Hsplit s Hs) as [->|Hin]; [|by apply Hall].
  destruct Hlt as [Heq|Hlt]; [by rewrite <- Heq|].
  destruct (top_level_item_guid BUYBACK_SLOT_START p) as [g|] eqn:E0; [by exists g|]. exfalso.
  pose proof (ok_time_empty _ Hp BUYBACK_SLOT_START eq_refl E0).
  pose proof (ok_time_pos _ Hp found Hfound). lia.
Qed.

(** * What the operations lead to *)

(** The operations of storage.rs that change the player, those on single slots
    used outside the buyback slots, as their callers do. *)
Inductive storage_step : Player -> Player -> Prop :=
  | step_sell guid price time p p' slot :
      0 <= time -> add_item_to_buyback_slot guid price time p = Some (p', slot) ->
      storage_step p p'
  | step_sell_object i proto game_time login_time overwritten overwritten' p p' slot :
      add_item_to_buyback_slot_object i proto game_time login_time overwritten p
      = Some (Ok (p', overwritten', slot)) -> storage_step p p'
  | step_buy_back slot p p' removed :
      remove_item_from_buyback_slot slot p = Some (p', removed) -> storage_step p p'
  | step_buy_back_object slot item item' delete_item p p' removed :
      remove_item_from_buyback_slot_object slot item delete_item p = Some (Ok (p', item', removed)) ->
      storage_step p p'
  | step_store slot guid p p' :
      0 <= slot -> is_buyback_slot slot = false -> store_top_level_item slot guid p = Ok p' ->
      storage_step p p'
  | step_remove slot p p' removed :
      0 <= slot -> is_buyback_slot slot = false -> remove_top_level_item slot p = Ok (p', removed) ->
      storage_step p p'
  | step_visualize slot guid visible p p' :
      0 <= slot -> is_buyback_slot slot = false -> visualize_item slot guid visible p = Ok p' ->
      storage_step p p'
  | step_register slot guid size p p' :
      register_bag_storage slot guid size p = Ok p' -> storage_step p p'
  | step_store_in_bag bag slot guid p p' : store_bag_item bag slot guid p = Ok p' -> storage_step p p'
  | step_remove_from_bag bag slot p p' removed :
      remove_bag_item bag slot p = Ok (p', removed) -> storage_step p p'.

Inductive storage_reachable : Player -> Prop :=
  | reach_new guid backpack_slots bank_slots :
      storage_reachable (player_default guid backpack_slots bank_slots)
  | reach_step p p' : storage_reachable p -> storage_step p p' -> storage_reachable p'.

Lemma buyback_ok_default guid backpack_slots bank_slots :
  buyback_ok (player_default guid backpack_slots bank_slots).
Proof.
  assert (Hnone : forall slot, top_level_item_guid slot (player_default guid backpack_slots bank_slots) = None).
  { intros slot. unfold top_level_item_guid, player_default. cbn [items].
    destruct (replicate _ _ !! _) as [o|] eqn:E; [|done]. by apply lookup_replicate in E as [-> _]. }
  assert (Htime : forall slot, buyback_time_at slot (player_default guid backpack_slots bank_slots) = 0).
  { intros slot. unfold buyback_time_at, player_default. cbn [buyback_timestamp].
    rewrite nth_lookup. destruct (replicate _ _ !! _) as [o|] eqn:E; [|done].
    by apply lookup_replicate in E as [-> _]. }
  split; try done.
  - intros. by rewrite Htime.
  - intros slot Hs. rewrite Hnone. unfold player_default. cbn [inv_slots default].
    apply lookup_replicate. split; [done|]. slots.
Qed.

(** Fields on which the invariant depends. *)
Lemma buyback_ok_same p p' :
  buyback_ok p -> length (items p') = length (items p) -> length (inv_slots p') = length (inv_slots p) ->
  (forall slot, is_buyback_slot slot = true ->
     top_level_item_guid slot p' = top_level_item_guid slot p /\ inv_slots p' !! Z.to_nat slot = inv_slots p !! Z.to_nat slot) ->
  buyback_price p' = buyback_price p -> buyback_timestamp p' = buyback_timestamp p ->
  current_buyback_slot p' = current_buyback_slot p -> buyback_ok p'.
Proof.
  intros Hp E1 E2 Hs E3 E4 E5.
  split; unfold buyback_time_at; rewrite ?E1, ?E2, ?E3, ?E4, ?E5; try apply Hp;
    intros slot H; destruct (Hs slot H) as [-> Ei]; rewrite ?Ei; by apply Hp.
Qed.

Lemma sell_ok guid price time p :
  buyback_ok p -> 0 <= time ->
  exists slot p', buyback_slot_for_new_item p = Some slot /\ is_buyback_slot slot = true /\
    remove_item_from_buyback_slot slot p = Some (p', top_level_item_guid slot p) /\ buyback_ok p' /\
    (forall s, 0 <= s -> s <> slot -> top_level_item_guid s p' = top_level_item_guid s p) /\
    buyback_ok (fill_buyback_slot slot guid price time p').
Proof.
  intros Hp Ht. destruct (sale_slot p Hp) as (slot & Es & Hs & _).
  destruct (remove_buyback p slot Hp Hs) as (p' & Er & Ep' & Hp').
  exists slot, p'. do 4 (split; [done|]). split.
  - intros s H0 Hn. rewrite Ep'. case_bool_decide; [|by apply put_other].
    by apply (put_other slot None 0 0 p Hs).
  - destruct (fill_buyback p' slot guid price time Hp' Hs Ht) as (c & -> & Hc). by apply put_ok.
Qed.

(** What the operations on a slot that is not for buyback leave alone. *)
Lemma outside_ok slot guid p p' :
  buyback_ok p -> 0 <= slot -> is_buyback_slot slot = false ->
  items p' = <[Z.to_nat slot := guid]> (items p) ->
  inv_slots p' = <[Z.to_nat slot := default EMPTY guid]> (inv_slots p) ->
  buyback_price p' = buyback_price p -> buyback_timestamp p' = buyback_timestamp p ->
  current_buyback_slot p' = current_buyback_slot p -> buyback_ok p'.
Proof.
  intros Hp H0 Hs E1 E2. apply buyback_ok_same; [done|by rewrite E1, length_insert|
    by rewrite E2, length_insert|].
  intros s Hs'. assert (Z.to_nat slot <> Z.to_nat s).
  { intros E. assert (slot = s) as -> by slots. congruence. }
  unfold top_level_item_guid. rewrite E1, E2. by rewrite !list_lookup_insert_ne.
Qed.

Lemma store_ok slot guid p p' :
  buyback_ok p -> 0 <= slot -> is_buyback_slot slot = false ->
  store_top_level_item slot guid p = Ok p' -> buyback_ok p'.
Proof.
  intros Hp H0 Hs. unfold store_top_level_item, set_inv_slot.
  destruct (PLAYER_SLOT_END <=? slot); [done|]. intros [= <-].
  by eapply (outside_ok slot (Some guid)).
Qed.

Lemma set_visible_fields slot v p :
  let p' := set_visible_item_slot slot v p in
  items p' = items p /\ inv_slots p' = inv_slots p /\ buyback_price p' = buyback_price p /\
  buyback_timestamp p' = buyback_timestamp p /\ current_buyback_slot p' = current_buyback_slot p.
Proof. unfold set_visible_item_slot. by destruct (_ <=? _). Qed.

Lemma visible_ok slot v p : buyback_ok p -> buyback_ok (set_visible_item_slot slot v p).
Proof.
  intros Hp. destruct (set_visible_fields slot v p) as (E1 & E2 & E3 & E4 & E5).
  apply (buyback_ok_same p); [done|by rewrite E1|by rewrite E2| |done..].
  intros s _. unfold top_level_item_guid. by rewrite E1, E2.
Qed.

Lemma remove_ok slot p p' removed :
  buyback_ok p -> 0 <= slot -> is_buyback_slot slot = false ->
  remove_top_level_item slot p = Ok (p', removed) -> buyback_ok p'.
Proof.
  intros Hp H0 Hs. unfold remove_top_level_item, set_inv_slot.
  destruct (PLAYER_SLOT_END <=? slot); [done|]. intros [= <- _].
  set (p0 := p <| items := _ |> <| inv_slots := _ |>).
  assert (Hp0 : buyback_ok p0) by by eapply (outside_ok slot None).
  assert (Hp1 : buyback_ok (if slot <? EQUIPMENT_SLOT_END then set_visible_item_slot slot None p0 else p0)).
  { destruct (_ <? _); [by apply visible_ok|done]. }
  revert Hp1. generalize (if slot <? EQUIPMENT_SLOT_END then set_visible_item_slot slot None p0 else p0).
  intros p1 Hp1. destruct (is_bag_storage_slot slot); [|done].
  by apply (buyback_ok_same p1).
Qed.

Lemma buyback_time_range game_time login_time : 0 <= buyback_time game_time login_time.
Proof. apply (wrap_u_range 32). lia. Qed.

Lemma storage_step_ok p p' : buyback_ok p -> storage_step p p' -> buyback_ok p'.
Proof.
  intros Hp H. destruct H as [guid price time p p' slot Ht E
    |i proto game_time login_time overwritten overwritten' p p' slot E|slot p p' removed E
    |slot item item' delete_item p p' removed E|slot guid p p' H0 Hs E|slot p p' removed H0 Hs E
    |slot guid visible p p' H0 Hs E|slot guid size p p' E|bag slot guid p p' E|bag slot p p' removed E].
  - destruct (sell_ok guid price time p Hp Ht) as (s & p0 & Es & _ & Er & _ & _ & Hf).
    unfold add_item_to_buyback_slot in E. rewrite Es in E. cbn in E. rewrite Er in E. cbn in E.
    by simplify_eq.
  - destruct (sell_ok (item_guid i) (match proto with Some proto => u32 (sell_price proto * item_count i) | None => 0 end)
      (buyback_time game_time login_time) p Hp (buyback_time_range _ _))
      as (s & p0 & Es & Hs & Er & _ & _ & Hf).
    unfold add_item_to_buyback_slot_object, remove_item_from_buyback_slot_object in E.
    rewrite Es in E. cbn in E. rewrite Hs in E. cbn in E. rewrite Er in E. cbn in E.
    repeat case_match; cbn in *; by simplify_eq.
  - destruct (is_buyback_slot slot) eqn:Hs.
    + destruct (remove_buyback p slot Hp Hs) as (p0 & Er & _ & Hp0). rewrite Er in E. by simplify_eq.
    + unfold remove_item_from_buyback_slot in E. rewrite Hs in E. by simplify_eq/=.
  - unfold remove_item_from_buyback_slot_object in E. destruct (is_buyback_slot slot) eqn:Hs.
    + destruct (remove_buyback p slot Hp Hs) as (p0 & Er & _ & Hp0). rewrite Er in E. cbn in E.
      repeat case_match; by simplify_eq.
    + by simplify_eq/=.
  - by eapply store_ok.
  - by eapply remove_ok.
  - unfold visualize_item in E. destruct (store_top_level_item slot guid p) as [p0|] eqn:E0; [|done].
    cbn in E. simplify_eq. pose proof (store_ok _ _ _ _ Hp H0 Hs E0).
    destruct (_ <? _); [by apply visible_ok|done].
  - unfold register_bag_storage in E. repeat case_match; simplify_eq. by apply (buyback_ok_same p).
  - unfold store_bag_item in E. destruct (bag_at bag p); [|done]. cbn in E. case_match; [done|].
    simplify_eq. by apply (buyback_ok_same p).
  - unfold remove_bag_item in E. destruct (bag_at bag p); [|done]. cbn in E. case_match; [done|].
    simplify_eq. by apply (buyback_ok_same p).
Qed.

Lemma reachable_ok p : storage_reachable p -> buyback_ok p.
Proof. induction 1; [apply buyback_ok_default|by eapply storage_step_ok]. Qed.

(** C24: in every state the storage operations lead to, selling an item never
    fails: it goes into a buyback slot with its price and time, the other slots
    keep what they have, it can be bought back from there, and an item is only
    pushed out when all twelve slots are taken, and then the one sold longest
    ago. *)
Theorem buyback_sale p guid price time (Hp : storage_reachable p) (Ht : 0 <= time) :
  exists slot p', add_item_to_buyback_slot guid price time p = Some (p', slot) /\
    is_buyback_slot slot = true /\ get_item_from_buyback_slot slot p' = Some guid /\
    nth (Z.to_nat (slot - BUYBACK_SLOT_START)) (buyback_price p') 0 = price /\
    buyback_time_at slot p' = time /\
    (forall s, 0 <= s -> s <> slot -> top_level_item_guid s p' = top_level_item_guid s p) /\
    (exists p'', remove_item_from_buyback_slot slot p' = Some (p'', Some guid)) /\
    (is_Some (get_item_from_buyback_slot slot p) ->
     forall s, is_buyback_slot s = true ->
       is_Some (get_item_from_buyback_slot s p) /\ buyback_time_at slot p <= buyback_time_at s p).
Proof.
  apply reachable_ok in Hp.
  destruct (sell_ok guid price time p Hp Ht) as (slot & p0 & Es & Hs & Er & Hp0 & Hsame & Hf).
  destruct (sale_slot p Hp) as (slot' & Es' & _ & Hold). rewrite Es' in Es. injection Es as ->.
  destruct (fill_buyback p0 slot guid price time Hp0 Hs Ht) as (c & Ef & Hc).
  destruct (put_fields slot (Some guid) price time p0 Hs) as (_ & _ & _ & Eprice & _).
  pose proof (put_same slot (Some guid) price time p0 Hp0 Hs) as Hsame'.
  pose proof (put_other slot (Some guid) price time p0 Hs) as Hother.
  pose proof (put_time slot (Some guid) price time p0 Hp0 Hs slot Hs) as Htime.
  set (p1 := put_buyback _ _ _ _ _) in *.
  assert (Et : top_level_item_guid slot (fill_buyback_slot slot guid price time p0) = Some guid).
  { by rewrite Ef. }
  exists slot, (fill_buyback_slot slot guid price time p0).
  split; [unfold add_item_to_buyback_slot; rewrite Es'; cbn; by rewrite Er|].
  split; [done|]. unfold get_item_from_buyback_slot. rewrite Hs.
  split; [done|]. split.
  { rewrite Ef. cbn. rewrite Eprice, nth_lookup, list_lookup_insert_eq; [done|].
    rewrite (ok_prices _ Hp0). slots. }
  split; [rewrite Ef; cbn; rewrite Z.eqb_refl in Htime; exact Htime|]. split.
  { intros s H0 Hn. rewrite <- Hsame by done. rewrite <- Hother by done. by rewrite Ef. }
  split.
  { destruct (remove_buyback _ slot Hf Hs) as (p2 & E2 & _). exists p2. by rewrite <- Et. }
  intros Ho s Hs'. rewrite Hs'. by apply Hold.
Qed.

Lemma buyback_sale_witness :
  let p := player_default (mkGuid 1 1) 16 0 in
  storage_reachable p /\
  exists slot p', add_item_to_buyback_slot (mkGuid 7 1) 250 1000 p = Some (p', slot) /\
    get_item_from_buyback_slot slot p' = Some (mkGuid 7 1).
Proof.
  cbn zeta. split; [constructor|].
  destruct (buyback_sale (player_default (mkGuid 1 1) 16 0) (mkGuid 7 1) 250 1000
              ltac:(constructor) ltac:(lia)) as (slot & p' & E & _ & H & _).
  by exists slot, p'.
Defined.
