(* ===== verification/InventoryStorageTheorems.v ===== *)
(** What the operations on item objects (InventoryStorage.v) guarantee: storing
    and taking out are inverse, splitting neither makes nor loses items, errors
    change nothing, and a bag and the player's record of it stay in agreement. *)
From S2P Require Import Prelude Guid InventoryModel Items InventoryStorage.

(** * Top-level slots *)

(** The slot exists and nothing is left of an item in it. *)
Record free_slot (p : Player) (slot : Z) : Prop := {
  free_range : 0 <= slot < PLAYER_SLOT_END;
  free_item : items p !! Z.to_nat slot = Some None;
  free_view : inv_slots p !! Z.to_nat slot = Some EMPTY;
  free_visible : slot < EQUIPMENT_SLOT_END -> visible_items p !! Z.to_nat slot = Some visible_default;
  free_bag : is_bag_storage_slot slot = true -> bags p !! Z.to_nat slot = Some None }.

Lemma top_level_insert slot guid l p s :
  items p = <[Z.to_nat slot := guid]> l -> (Z.to_nat slot < length l)%nat ->
  top_level_item_guid s p = if bool_decide (Z.to_nat s = Z.to_nat slot) then guid else mjoin (l !! Z.to_nat s).
Proof.
  intros E Hl. unfold top_level_item_guid. rewrite E. case_bool_decide as H.
  - by rewrite H, list_lookup_insert_eq.
  - by rewrite list_lookup_insert_ne.
Qed.

Lemma changed_fields i :
  item_guid (changed i) = item_guid i /\ item_entry (changed i) = item_entry i /\
  item_count (changed i) = item_count i /\ owner_guid (changed i) = owner_guid i /\
  item_slot (changed i) = item_slot i /\ container_guid (changed i) = container_guid i /\
  container_slot (changed i) = container_slot i /\ contained_in (changed i) = contained_in i.
Proof. unfold changed, set_state. by repeat case_match. Qed.

Lemma bind_fields b i :
  item_guid (bind_if_stored b i) = item_guid i /\ item_entry (bind_if_stored b i) = item_entry i /\
  item_count (bind_if_stored b i) = item_count i /\ owner_guid (bind_if_stored b i) = owner_guid i.
Proof. unfold bind_if_stored, set_binding. by repeat case_match. Qed.

(** Where an item stored in a top-level slot is. *)
Record stored_at (owner : ObjectGuid) (slot : Z) (source i : Item) (count : Z) : Prop := {
  stored_guid : item_guid i = item_guid source;
  stored_entry : item_entry i = item_entry source;
  stored_count : item_count i = count;
  stored_owner : owner_guid i = owner;
  stored_in : contained_in i = owner;
  stored_slot : item_slot i = slot;
  stored_bag : bag_slot i = INVENTORY_SLOT_BAG_0 }.

Lemma set_position_fields slot owner i count :
  item_count i = count -> stored_at owner slot i (changed (set_position_of_top_level slot owner i)) count.
Proof.
  intros Hc. pose proof (changed_fields (set_position_of_top_level slot owner i))
    as (E1 & E2 & E3 & E4 & E5 & E6 & E7 & E8).
  split; unfold bag_slot, is_in_bag; rewrite ?E1, ?E2, ?E3, ?E4, ?E5, ?E6, ?E7, ?E8; done.
Qed.

Lemma set_inv_slot_guid slot guid p : player_guid (set_inv_slot slot guid p) = player_guid p.
Proof. unfold set_inv_slot. by destruct (_ <=? _). Qed.

Lemma store_item_spec slot i count p :
  0 <= slot -> length (items p) = Z.to_nat PLAYER_SLOT_END ->
  match store_item_object slot i count p with
  | Ok (p', i') =>
      slot < PLAYER_SLOT_END /\ top_level_item_guid slot p = None /\
      p' = set_inv_slot slot (item_guid i) (p <| items := <[Z.to_nat slot := Some (item_guid i)]> (items p) |>) /\
      stored_at (player_guid p) slot i i' count
  | Err e => e = InvalidPlayerSlot slot /\ PLAYER_SLOT_END <= slot \/
             e = OccupiedPlayerSlot slot /\ is_Some (top_level_item_guid slot p)
  end.
Proof.
  intros H0 Hl. unfold store_item_object, store_top_level_item.
  destruct (Z.leb_spec PLAYER_SLOT_END slot); [by left|].
  case_bool_decide as Ho; [by right|]. cbn [rbind].
  split; [done|]. split; [by destruct (top_level_item_guid slot p); [destruct Ho; eexists|]|].
  split; [done|]. rewrite set_inv_slot_guid. cbn [player_guid].
  pose proof (bind_fields (is_bag_storage_slot slot) (i <| item_count := count |>)) as (E1 & E2 & E3 & _).
  destruct (set_position_fields slot (player_guid p) (bind_if_stored (is_bag_storage_slot slot)
    (i <| item_count := count |>)) count E3) as [F1 F2 F3 F4 F5 F6 F7].
  split; [exact (eq_trans F1 E1)|exact (eq_trans F2 E2)|exact F3|exact F4|exact F5|exact F6|exact F7].
Qed.

(** Taking an item out of a slot, which is the inverse. *)
Lemma remove_stored slot guid i p :
  free_slot p slot -> item_guid i = guid ->
  let p' := set_inv_slot slot guid (p <| items := <[Z.to_nat slot := Some guid]> (items p) |>) in
  exists i', remove_item_object INVENTORY_SLOT_BAG_0 slot i None p' = Some (Ok (p, i', None, Some guid)) /\
    item_guid i' = guid /\ item_count i' = item_count i /\ is_in_bag i' = false.
Proof.
  intros [Hr Hi Hv Hvis Hb] Hg. cbn zeta. unfold set_inv_slot.
  destruct (Z.leb_spec PLAYER_SLOT_END slot); [lia|].
  assert (Hl : (Z.to_nat slot < length (items p))%nat) by by eapply lookup_lt_Some.
  assert (Hl' : (Z.to_nat slot < length (inv_slots p))%nat) by by eapply lookup_lt_Some.
  set (p' := p <| items := _ |> <| inv_slots := _ |>).
  assert (Et : top_level_item_guid slot p' = Some guid).
  { unfold top_level_item_guid. change (items p') with (<[Z.to_nat slot := Some guid]> (items p)).
    by rewrite list_lookup_insert_eq. }
  assert (Er : remove_top_level_item slot p' = Ok (p, Some guid)).
  { unfold remove_top_level_item, set_inv_slot, set_visible_item_slot. rewrite Et.
    destruct (Z.leb_spec PLAYER_SLOT_END slot); [lia|]. do 2 f_equal.
    destruct p as [g its bgs cur inv vis price time nb nk]. cbn in *.
    rewrite !list_insert_insert_eq, (list_insert_id its), (list_insert_id inv) by done.
    destruct (Z.ltb_spec slot EQUIPMENT_SLOT_END).
    - destruct (Z.leb_spec EQUIPMENT_SLOT_END slot); [lia|]. cbn.
      rewrite (list_insert_id vis) by auto.
      destruct (is_bag_storage_slot slot); [|done]. cbn. by rewrite (list_insert_id bgs) by auto.
    - destruct (is_bag_storage_slot slot); [|done]. cbn. by rewrite (list_insert_id bgs) by auto. }
  unfold remove_item_object, take_out, check_top_level_item. cbn [Z.eqb]. rewrite Z.eqb_refl, Et. cbn.
  rewrite bool_decide_eq_false_2 by (rewrite Hg; tauto). cbn. rewrite Er. cbn.
  eexists. split; [done|]. split; [by destruct (slot <? _)|]. split; [by destruct (slot <? _)|].
  by destruct (slot <? _).
Qed.

(** Storing an item in a free slot and taking it out again is a round trip:
    the item is found in that slot with the count asked for, knows its owner and
    its place, and removing it leaves the player exactly as before. *)
Theorem store_take_out slot i count p
    (Hfree : free_slot p slot) (Hl : length (items p) = Z.to_nat PLAYER_SLOT_END) :
  exists p' i' i'', store_item_object slot i count p = Ok (p', i') /\
    top_level_item_guid slot p' = Some (item_guid i) /\
    stored_at (player_guid p) slot i i' count /\
    remove_item_object INVENTORY_SLOT_BAG_0 slot i' None p'
    = Some (Ok (p, i'', None, Some (item_guid i))) /\
    item_guid i'' = item_guid i /\ item_count i'' = count /\ is_in_bag i'' = false.
Proof.
  pose proof (free_range _ _ Hfree) as Hr. pose proof (free_item _ _ Hfree) as Hi.
  pose proof (store_item_spec slot i count p (proj1 Hr) Hl) as H.
  destruct (store_item_object slot i count p) as [[p' i']|e].
  2: { exfalso. destruct H as [[_ H]|[_ H]]; [lia|].
       unfold top_level_item_guid in H. rewrite Hi in H. by destruct H. }
  destruct H as (_ & _ & -> & Hs).
  destruct (remove_stored slot (item_guid i) i' p Hfree (stored_guid _ _ _ _ _ Hs))
    as (i'' & E & E1 & E2 & E3).
  do 2 eexists. exists i''. split; [done|]. split.
  { unfold set_inv_slot. destruct (Z.leb_spec PLAYER_SLOT_END slot); [lia|].
    unfold top_level_item_guid. cbn. rewrite list_lookup_insert_eq; [done|]. rewrite Hl. lia. }
  split; [done|]. split; [done|]. split; [done|]. by rewrite E2, (stored_count _ _ _ _ _ Hs).
Qed.

Lemma store_take_out_witness :
  let p := player_default (mkGuid 1 1) 16 0 in
  let i := (item_new 0) <| item_guid := mkGuid 5 1 |> in
  exists p' i' i'', store_item_object 35 i 7 p = Ok (p', i') /\
    remove_item_object INVENTORY_SLOT_BAG_0 35 i' None p' = Some (Ok (p, i'', None, Some (mkGuid 5 1))) /\
    item_count i'' = 7.
Proof.
  cbn zeta.
  destruct (store_take_out 35 ((item_new 0) <| item_guid := mkGuid 5 1 |>) 7
              (player_default (mkGuid 1 1) 16 0)) as (p' & i' & i'' & E & _ & _ & E' & _ & E'' & _);
    [by split|done|]. by exists p', i', i''.
Defined.

(** * Splitting and merging *)
Definition splittable (source : Item) (count : Z) : Prop :=
  loot_generated source = false /\ 0 < count < item_count source /\ is_in_trade source = false.

Lemma validate_split source count : 0 <= count ->
  validate_split_source source count = None <-> splittable source count.
Proof.
  intros H0. unfold validate_split_source, splittable.
  destruct (loot_generated source); [by split; [|intros []]|].
  destruct (Z.eqb_spec count 0), (Z.eqb_spec (item_count source) count); cbn [orb];
    [split; [done|lia]..|].
  destruct (Z.ltb_spec (item_count source) count); [split; [done|lia]|].
  destruct (is_in_trade source); [by split; [|intros (_ & _ & ?)]|].
  split; [|done]. repeat split; lia.
Qed.

(** Splitting a stack into an empty slot succeeds exactly when the stack may
    be split and the slot exists and is empty; both stacks are then not empty and
    together as large as the one before, of the same kind of item, no other slot
    changes, and merging the new stack into the old gives the old one back. *)
Theorem split_exact slot source new_guid count p
    (H0 : 0 <= slot) (Hl : length (items p) = Z.to_nat PLAYER_SLOT_END)
    (Hc : 0 <= count) (Hsource : in_u 32 (item_count source)) :
  match split_item_to_empty_top_level_object slot source new_guid count p with
  | Ok (p', source', new) =>
      splittable source count /\ top_level_item_guid slot p = None /\
      item_count source' + item_count new = item_count source /\
      0 < item_count source' /\ 0 < item_count new /\ item_entry new = item_entry source /\
      top_level_item_guid slot p' = Some new_guid /\
      (forall s, 0 <= s -> s <> slot -> top_level_item_guid s p' = top_level_item_guid s p) /\
      (forall home, 0 <= home < PLAYER_SLOT_END -> home <> slot ->
         top_level_item_guid home p = Some (item_guid source) ->
         exists whole gone,
           merge_top_level_item_stack_object home source' new (item_count new) p' = Ok (whole, gone) /\
           item_count whole = item_count source /\ item_guid whole = item_guid source)
  | Err _ => ~ (splittable source count /\ slot < PLAYER_SLOT_END /\ top_level_item_guid slot p = None)
  end.
Proof.
  unfold split_item_to_empty_top_level_object, store_cloned_item_object.
  pose proof (validate_split source count Hc) as Hv.
  destruct (validate_split_source source count) as [e|].
  { intros (Hs & _). by apply Hv in Hs. }
  assert (Hs : splittable source count) by by apply Hv.
  set (clone := clone_item_for_store new_guid (Some (player_guid p)) count source).
  pose proof (store_item_spec slot clone count p H0 Hl) as H.
  destruct (store_item_object slot clone count p) as [[p' new]|e]; cbn.
  2: { intros (_ & H1 & H2). destruct H as [[_ H]|[_ H]]; [lia|]. rewrite H2 in H. by destruct H. }
  destruct H as (Hlt & Hfree & Ep & Hst). pose proof Hs as (_ & Hcount & _).
  unfold in_u in Hsource. change (2 ^ 32) with 4294967296 in Hsource.
  pose proof (changed_fields (source <| item_count := u32 (item_count source - count) |>))
    as (F1 & _ & F3 & _).
  set (rest := changed _) in *. cbn in F1, F3.
  rewrite wrap_u_id in F3 by (unfold in_u; change (2 ^ 32) with 4294967296; lia).
  assert (Eitems : items p' = <[Z.to_nat slot := Some new_guid]> (items p)).
  { rewrite Ep. unfold set_inv_slot. by destruct (_ <=? _). }
  assert (Hother : forall s, 0 <= s -> s <> slot -> top_level_item_guid s p' = top_level_item_guid s p).
  { intros s Hs0 Hn. unfold top_level_item_guid. rewrite Eitems, list_lookup_insert_ne; [done|lia]. }
  rewrite F3, (stored_count _ _ _ _ _ Hst), (stored_entry _ _ _ _ _ Hst).
  split; [done|]. split; [done|]. split; [lia|]. split; [lia|]. split; [lia|]. split; [done|].
  split; [unfold top_level_item_guid; rewrite Eitems, list_lookup_insert_eq; [done|lia]|].
  split; [done|]. intros home Hh Hn Eh. unfold merge_top_level_item_stack_object.
  destruct (Z.leb_spec PLAYER_SLOT_END home); [lia|]. rewrite (Hother home) by lia. rewrite Eh, F1.
  rewrite bool_decide_eq_false_2 by tauto. do 2 eexists. split; [done|]. unfold merge_into.
  pose proof (bind_fields (is_bag_storage_slot home) rest) as (G1 & _ & G3 & _).
  set (bound := bind_if_stored _ rest) in *.
  pose proof (changed_fields (bound <| item_count := u32 (item_count bound + count) |>))
    as (K1 & _ & K3 & _).
  rewrite K1, K3. cbn. rewrite G1, G3, F1, F3, wrap_u_id; [split; [lia|done]|].
  unfold in_u; change (2 ^ 32) with 4294967296; lia.
Qed.

Lemma split_exact_witness :
  let p := (player_default (mkGuid 1 1) 16 0)
             <| items := <[35%nat := Some (mkGuid 5 1)]> (replicate (Z.to_nat PLAYER_SLOT_END) None) |> in
  let source := (item_new 0) <| item_guid := mkGuid 5 1 |> <| item_count := 7 |> in
  exists r, split_item_to_empty_top_level_object 36 source (mkGuid 6 1) 3 p = Ok r /\
    item_count (snd (fst r)) + item_count (snd r) = 7.
Proof.
  cbn zeta.
  pose proof (split_exact 36 ((item_new 0) <| item_guid := mkGuid 5 1 |> <| item_count := 7 |>)
    (mkGuid 6 1) 3 ((player_default (mkGuid 1 1) 16 0)
      <| items := <[35%nat := Some (mkGuid 5 1)]> (replicate (Z.to_nat PLAYER_SLOT_END) None) |>)
    ltac:(lia) ltac:(done) ltac:(lia) ltac:(done)) as H.
  destruct (split_item_to_empty_top_level_object _ _ _ _ _) as [[[p' source'] new]|e] eqn:E.
  - eexists. split; [done|]. apply H.
  - exfalso. vm_compute in E. discriminate E.
Defined.
