(* ===== verification/InventoryBags.v ===== *)
(** A bag as an object and the player's record of it (storage.rs and bag.rs of
    wow-entities): storing in the object's slots and taking out change both, which
    stay in step.  The operations that are given only guids change the record. *)
From S2P Require Import Prelude Guid InventoryModel Items InventoryStorage InventoryStorageTheorems.

(** The player's record of the bag in [bag_slot] is that of the object [b]. *)
Record in_step (p : Player) (bag_slot : Z) (b : Bag) (storage : PlayerBagStorage) : Prop := {
  step_slot : is_bag_storage_slot bag_slot = true;
  step_at : bag_at bag_slot p = Some storage;
  step_guid : bag_guid storage = item_guid (bag_item b);
  step_size : bag_size storage = num_slots b;
  step_max : 0 <= num_slots b <= MAX_BAG_SIZE;
  step_slots : slots storage = bag_slots b;
  step_length : length (bag_slots b) = Z.to_nat MAX_BAG_SIZE;
  step_view : slot_guids b = default EMPTY <$> bag_slots b }.

Lemma bag_at_update bag f p storage :
  bag_at bag p = Some storage -> bag_at bag (update_bag bag f p) = Some (f storage).
Proof.
  unfold bag_at, update_bag. cbn. intros H. rewrite list_lookup_alter_eq.
  by destruct (bags p !! Z.to_nat bag) as [[s|]|]; simplify_eq/=.
Qed.

(** Setting one slot of both, whatever else the object's own item becomes. *)
Lemma in_step_set p bag_slot b storage slot guid i :
  in_step p bag_slot b storage -> item_guid i = item_guid (bag_item b) ->
  in_step (update_bag bag_slot (set_item slot guid) p) bag_slot
    (b <| bag_slots := <[Z.to_nat slot := guid]> (bag_slots b) |>
       <| slot_guids := <[Z.to_nat slot := default EMPTY guid]> (slot_guids b) |> <| bag_item := i |>)
    (set_item slot guid storage).
Proof.
  intros [H1 H2 H3 H4 H5 H6 H7 H8] Hi. split; cbn; try done.
  - by apply bag_at_update.
  - by rewrite H3.
  - by rewrite H6.
  - by rewrite length_insert.
  - by rewrite H8, list_fmap_insert.
Qed.

Lemma in_step_item p bag_slot b storage slot :
  in_step p bag_slot b storage -> item_by_pos slot storage = bag_item_by_pos slot b.
Proof. intros H. unfold item_by_pos, bag_item_by_pos. by rewrite (step_size _ _ _ _ H), (step_slots _ _ _ _ H). Qed.

Lemma bag_slot_top bag_slot : is_bag_storage_slot bag_slot = true -> bag_slot <> INVENTORY_SLOT_BAG_0.
Proof. by intros H ->. Qed.

(** * Storing *)
Lemma bag_store_spec slot i b :
  slot < MAX_BAG_SIZE -> item_guid i <> item_guid (bag_item b) ->
  exists i', bag_store_item slot i b
    = Some (b <| bag_slots := <[Z.to_nat slot := Some (item_guid i)]> (bag_slots b) |>
              <| slot_guids := <[Z.to_nat slot := item_guid i]> (slot_guids b) |>, i') /\
    item_guid i' = item_guid i /\ item_count i' = item_count i /\ item_entry i' = item_entry i /\
    contained_in i' = item_guid (bag_item b) /\ item_slot i' = slot.
Proof.
  intros Hs Hn. unfold bag_store_item. destruct (Z.ltb_spec slot MAX_BAG_SIZE); [|lia]. cbn [negb].
  rewrite bool_decide_eq_false_2 by done. eexists. split; [done|]. done.
Qed.

Lemma store_in_step p bag_slot b storage slot i count :
  in_step p bag_slot b storage -> 0 <= slot -> item_guid i <> item_guid (bag_item b) ->
  match store_bag_item_object bag_slot b slot i count p with
  | Ok (p', b', i') =>
      slot < num_slots b /\ bag_item_by_pos slot b = None /\
      in_step p' bag_slot b' (set_item slot (Some (item_guid i)) storage) /\
      p' = update_bag bag_slot (set_item slot (Some (item_guid i))) p /\
      bag_slots b' = <[Z.to_nat slot := Some (item_guid i)]> (bag_slots b) /\
      item_guid (bag_item b') = item_guid (bag_item b) /\ num_slots b' = num_slots b /\
      item_guid i' = item_guid i /\ item_count i' = count /\ item_entry i' = item_entry i /\
      contained_in i' = item_guid (bag_item b) /\ item_slot i' = slot
  | Err e =>
      e = InvalidBagItemSlot slot /\ num_slots b <= slot \/
      e = OccupiedBagItemSlot bag_slot slot /\ is_Some (bag_item_by_pos slot b)
  end.
Proof.
  intros Hst H0 Hself. pose proof Hst as [H1 H2 H3 H4 H5 H6 H7 H8].
  unfold store_bag_item_object, registered_bag. rewrite H2. cbn [ok_or rbind].
  rewrite bool_decide_eq_false_2 by (rewrite H3; tauto).
  destruct (Z.leb_spec MAX_BAG_SIZE slot), (Z.leb_spec (bag_size storage) slot);
    cbn [orb rbind]; try (left; split; [done|lia]).
  rewrite (in_step_item _ _ _ _ _ Hst). case_bool_decide as Ho; [by right|].
  assert (Hnone : bag_item_by_pos slot b = None).
  { destruct (bag_item_by_pos slot b); [by destruct Ho; eexists|done]. }
  set (bound := bind_if_stored false (i <| item_count := count |>)).
  pose proof (bind_fields false (i <| item_count := count |>)) as (E1 & E2 & E3 & _).
  fold bound in E1, E2, E3. cbn in E1, E2, E3.
  destruct (bag_store_spec slot bound b ltac:(lia) ltac:(by rewrite E1))
    as (placed & -> & P1 & P2 & P3 & P4 & P5). unfold store_bag_item.
  rewrite H2. cbn [ok_or rbind].
  destruct (Z.leb_spec MAX_BAG_SIZE slot), (Z.leb_spec (bag_size storage) slot); try lia.
  cbn [orb rbind default id].
  pose proof (changed_fields placed) as (F1 & F2 & F3 & _ & F5 & _ & _ & F8).
  pose proof (changed_fields (bag_item b)) as (G1 & _).
  rewrite F1, F2, F3, F5, F8, P1, P2, P3, P4, P5, E1, E2, E3.
  split; [lia|]. split; [done|]. split; [by apply (in_step_set p bag_slot b storage)|].
  split; [done|]. cbn. by rewrite G1.
Qed.

(** * Taking out *)
Lemma take_out_in_step p bag_slot b storage slot i on_top :
  in_step p bag_slot b storage -> 0 <= slot ->
  exists r, take_out bag_slot slot i (Some b) on_top p = Some r /\
  match r with
  | Ok (p', i', b', removed) =>
      i' = i /\ removed = Some (item_guid i) /\ bag_item_by_pos slot b = Some (item_guid i) /\
      p' = update_bag bag_slot (set_item slot None) p /\
      exists b0, b' = Some b0 /\ in_step p' bag_slot b0 (set_item slot None storage) /\
        bag_slots b0 = <[Z.to_nat slot := None]> (bag_slots b) /\ bag_item b0 = bag_item b /\
        num_slots b0 = num_slots b
  | Err _ => bag_item_by_pos slot b <> Some (item_guid i)
  end.
Proof.
  intros Hst H0. pose proof Hst as [H1 H2 H3 H4 H5 H6 H7 H8].
  unfold take_out. destruct (Z.eqb_spec bag_slot INVENTORY_SLOT_BAG_0) as [E|_].
  { by apply bag_slot_top in H1. }
  unfold check_bag_item, get_bag_by_pos. rewrite H1, H2. cbn [ok_or rbind fmap option_fmap option_map].
  rewrite bool_decide_eq_false_2 by (rewrite H3; tauto). cbn.
  rewrite (in_step_item _ _ _ _ _ Hst).
  destruct (bag_item_by_pos slot b) as [g|] eqn:Eg; cbn.
  2: { eexists. split; [done|]. done. }
  case_bool_decide as Hg; [eexists; split; [done|congruence]|].
  assert (g = item_guid i) as -> by (destruct (decide (g = item_guid i)); tauto).
  unfold bag_item_by_pos in Eg. destruct (Z.ltb_spec slot (num_slots b)) as [Hs|]; [|done].
  unfold bag_remove_item. destruct (Z.ltb_spec slot MAX_BAG_SIZE); [|lia]. cbn.
  unfold remove_bag_item. rewrite H2. cbn [ok_or rbind].
  destruct (Z.leb_spec MAX_BAG_SIZE slot), (Z.leb_spec (bag_size storage) slot); try lia. cbn.
  eexists. split; [done|]. cbn.
  split; [done|]. split.
  { rewrite (in_step_item _ _ _ _ _ Hst). unfold bag_item_by_pos.
    destruct (Z.ltb_spec slot (num_slots b)); [done|lia]. }
  split; [done|]. split; [done|]. eexists. split; [done|].
  split; [|done]. pose proof (in_step_set p bag_slot b storage slot None (bag_item b) Hst eq_refl) as H'.
  by destruct b.
Qed.

(** A bag of four slots in the first bag slot, and an item. *)
Definition sample_bag_object : Bag :=
  (bag_new 0) <| bag_item := (item_new 0) <| item_guid := mkGuid 9 1 |> |> <| num_slots := 4 |>.
Definition bag_owner : Player :=
  (player_default (mkGuid 1 1) 16 0)
    <| bags := <[30%nat := Some (bag_storage_new (mkGuid 9 1) 4)]>
                 (replicate (Z.to_nat PLAYER_SLOT_END) None) |>.
Definition loose_item : Item := (item_new 0) <| item_guid := mkGuid 5 1 |>.

Lemma sample_in_step : in_step bag_owner 30 sample_bag_object (bag_storage_new (mkGuid 9 1) 4).
Proof. by split. Qed.

Lemma set_item_undo slot guid storage :
  slots storage !! Z.to_nat slot = Some None ->
  set_item slot None (set_item slot guid storage) = storage.
Proof.
  intros H. destruct storage as [g size l]. unfold set_item. cbn in *.
  by rewrite list_insert_insert_eq, list_insert_id.
Qed.

Lemma update_bag_undo bag_slot slot guid p storage :
  bag_at bag_slot p = Some storage -> slots storage !! Z.to_nat slot = Some None ->
  update_bag bag_slot (set_item slot None) (update_bag bag_slot (set_item slot guid) p) = p.
Proof.
  intros Ha Hs. unfold bag_at in Ha. destruct p as [g its bgs cur inv vis price time nb nk].
  cbn in Ha.
  transitivity (mkPlayer g its (alter (fmap (set_item slot None)) (Z.to_nat bag_slot)
    (alter (fmap (set_item slot guid)) (Z.to_nat bag_slot) bgs)) cur inv vis price time nb nk);
    [reflexivity|].
  f_equal. apply list_eq. intros n.
  destruct (decide (n = Z.to_nat bag_slot)) as [->|Hn].
  - rewrite !list_lookup_alter_eq. destruct (bgs !! Z.to_nat bag_slot) as [[s|]|]; simplify_eq/=.
    by rewrite set_item_undo.
  - by rewrite !list_lookup_alter_ne by done.
Qed.

(** Storing an item in a bag fails only for a slot that the bag does not have
    or that is taken; otherwise the item is found there, by the bag and by the
    player, and taking it out again, which does not panic, leaves both as they
    were. *)
Theorem bag_store_take_out p bag_slot b storage slot i count
    (Hst : in_step p bag_slot b storage) (H0 : 0 <= slot)
    (Hself : item_guid i <> item_guid (bag_item b)) :
  match store_bag_item_object bag_slot b slot i count p with
  | Ok (p', b', i') =>
      get_item_by_pos bag_slot slot p' = Some (item_guid i) /\
      bag_item_by_pos slot b' = Some (item_guid i) /\
      item_count i' = count /\ contained_in i' = item_guid (bag_item b) /\ item_slot i' = slot /\
      exists i'' b'',
        remove_item_object bag_slot slot i' (Some b') p'
        = Some (Ok (p, i'', Some b'', Some (item_guid i))) /\
        bag_slots b'' = bag_slots b /\ item_count i'' = count /\ is_in_bag i'' = false
  | Err e =>
      e = InvalidBagItemSlot slot /\ num_slots b <= slot \/
      e = OccupiedBagItemSlot bag_slot slot /\ is_Some (bag_item_by_pos slot b)
  end.
Proof.
  pose proof (store_in_step p bag_slot b storage slot i count Hst H0 Hself) as H.
  destruct (store_bag_item_object bag_slot b slot i count p) as [[[p' b'] i']|e]; [|done].
  destruct H as (Hs & Hnone & Hst' & Ep & Eb & Eg & En & Ei & Ec & _ & Ein & Eslot).
  pose proof (step_max _ _ _ _ Hst) as Hmax. pose proof (step_length _ _ _ _ Hst) as Hlen.
  assert (Hn : bag_slots b !! Z.to_nat slot = Some None).
  { unfold bag_item_by_pos in Hnone. destruct (Z.ltb_spec slot (num_slots b)); [|lia].
    destruct (bag_slots b !! Z.to_nat slot) as [[g|]|] eqn:E; [done|done|].
    apply lookup_ge_None in E. rewrite Hlen in E. unfold MAX_BAG_SIZE in *. lia. }
  assert (Hb' : bag_item_by_pos slot b' = Some (item_guid i)).
  { unfold bag_item_by_pos. rewrite En, Eb. destruct (Z.ltb_spec slot (num_slots b)); [|lia].
    by rewrite list_lookup_insert_eq by (by eapply lookup_lt_Some). }
  split.
  { unfold get_item_by_pos. pose proof (bag_slot_top _ (step_slot _ _ _ _ Hst)).
    destruct (Z.eqb_spec bag_slot INVENTORY_SLOT_BAG_0); [done|]. cbn [andb].
    rewrite (step_at _ _ _ _ Hst'). cbn [mbind option_bind].
    by rewrite (in_step_item _ _ _ _ _ Hst'). }
  do 4 (split; [done|]).
  destruct (take_out_in_step p' bag_slot b' _ slot i'
    (fun i => if slot <? INVENTORY_SLOT_BAG_END then remove_item_flag2 ItemFieldFlags2.EQUIPPED i else i)
    Hst' H0) as (r & Er & Hr).
  unfold remove_item_object. rewrite Er. cbn [mbind option_bind].
  destruct r as [[[[p'' i''] b''] removed]|]; [|by rewrite Ei in Hr].
  destruct Hr as (-> & -> & _ & -> & b0 & -> & _ & Eslots & _ & _). cbn [rbind].
  rewrite Ep, (update_bag_undo bag_slot slot _ p storage);
    [|apply Hst|by rewrite (step_slots _ _ _ _ Hst)].
  do 2 eexists. split; [by rewrite Ei|]. split; [|by split].
  by rewrite Eslots, Eb, list_insert_insert_eq, list_insert_id.
Qed.

Lemma bag_store_take_out_witness :
  exists r, store_bag_item_object 30 sample_bag_object 2 loose_item 7 bag_owner = Ok r /\
    item_count (snd r) = 7.
Proof.
  pose proof (bag_store_take_out bag_owner 30 sample_bag_object _ 2 loose_item 7 sample_in_step
    ltac:(lia) ltac:(by intros [=])) as H.
  destruct (store_bag_item_object 30 sample_bag_object 2 loose_item 7 bag_owner)
    as [[[p' b'] i']|e] eqn:E; [|discriminate E].
  exists (p', b', i'). split; [done|]. apply H.
Defined.
