(* ===== verification/InventorySwap.v ===== *)
(** wow-entities/src/player/items/storage.rs: the plans of [swap_item], moving an
    item onto another slot.  The phases (preflight, empty destination, merging
    stacks, validation of a real swap, exchange of bag contents, execution) are
    computed one by one and put together by [swap_item_orchestration_plan]. *)
From S2P Require Import Prelude Guid InventoryModel Items InventoryStorage.

(** * Preflight *)
Record SwapItemPreflightItem : Type := mkPreflightItem
  { is_bag : bool; is_empty_bag : bool; preflight_is_child : bool; parent_pos : option Z;
    preflight_can_unequip : InventoryResult.t }.

Inductive SwapItemPreflightResult : Type :=
  | NoSource
  | ChildRedirect (first_src first_dst second_src second_dst : Z)
  | PreflightError (r : InventoryResult.t)
  | PreflightContinue.

Record SwapItemPreflightPlan : Type := mkPreflightPlan
  { preflight_result : SwapItemPreflightResult; src_unequip_swap : option bool;
    dst_unequip_swap : option bool }.

(** A child item worn is exchanged through its parent. *)
Definition child_redirect (src dst : Z) (src_item : SwapItemPreflightItem)
    (dst_item : option SwapItemPreflightItem) : option SwapItemPreflightResult :=
  if preflight_is_child src_item then
    parent ← parent_pos src_item;
    if is_equipment_packed_pos src then Some (ChildRedirect dst src parent dst) else None
  else
    item ← dst_item;
    if preflight_is_child item then
      parent ← parent_pos item;
      if is_equipment_packed_pos dst then Some (ChildRedirect src dst parent src) else None
    else None.

Definition src_unequip (src dst : Z) (dst_item : option SwapItemPreflightItem) : option bool :=
  if is_equipment_packed_pos src || is_bag_pos src then
    Some (negb (is_bag_pos src) || is_bag_pos dst
          || match dst_item with Some item => is_bag item && is_empty_bag item | None => false end)
  else None.

Definition dst_unequip (src dst : Z) (src_item : SwapItemPreflightItem)
    (dst_item : option SwapItemPreflightItem) : option bool :=
  match dst_item with
  | Some _ =>
      if is_equipment_packed_pos dst || is_bag_pos dst then
        Some (negb (is_bag_pos dst) || is_bag_pos src || (is_bag src_item && is_empty_bag src_item))
      else None
  | None => None
  end.

(** The result that refuses to unequip, if one has to be asked. *)
Definition unequip_refusal (swap : option bool) (item : option SwapItemPreflightItem) :
    option InventoryResult.t :=
  match swap, item with
  | Some _, Some item =>
      if bool_decide (preflight_can_unequip item <> InventoryResult.Ok)
      then Some (preflight_can_unequip item) else None
  | _, _ => None
  end.

Definition swap_item_preflight_plan (src dst : Z) (is_alive : bool)
    (src_item dst_item : option SwapItemPreflightItem) : SwapItemPreflightPlan :=
  match src_item with
  | None => mkPreflightPlan NoSource None None
  | Some src_item =>
      match child_redirect src dst src_item dst_item with
      | Some r => mkPreflightPlan r None None
      | None =>
          if negb is_alive then mkPreflightPlan (PreflightError InventoryResult.PlayerDead) None None
          else
            let src_swap := src_unequip src dst dst_item in
            match unequip_refusal src_swap (Some src_item) with
            | Some e => mkPreflightPlan (PreflightError e) src_swap None
            | None =>
                if is_bag_pos src && (pos_slot src =? pos_bag dst)
                then mkPreflightPlan (PreflightError InventoryResult.BagInBag) src_swap None
                else if is_bag_pos dst && (pos_bag src =? pos_slot dst)
                then mkPreflightPlan (PreflightError InventoryResult.CantSwap) src_swap None
                else
                  let dst_swap := dst_unequip src dst src_item dst_item in
                  match unequip_refusal dst_swap dst_item with
                  | Some e => mkPreflightPlan (PreflightError e) src_swap dst_swap
                  | None => mkPreflightPlan PreflightContinue src_swap dst_swap
                  end
            end
      end
  end.

(** * An empty destination *)
Inductive SwapItemEmptyDestinationResult : Type :=
  | OccupiedDestination
  | EmptyInvalidDestinationNoop
  | EmptyError (r : InventoryResult.t)
  | MoveToInventory (quest_added_from_bank : bool)
  | MoveToBank (quest_removed : bool)
  | EmptyEquip (dest : Z) (auto_unequip_offhand : bool).

Definition swap_item_empty_destination_plan (src dst : Z) (dst_item_present : bool)
    (can_store_result can_bank_result can_equip_result : InventoryResult.t) (equip_dest : Z) :
    SwapItemEmptyDestinationResult :=
  let unless_error r move :=
    if bool_decide (r <> InventoryResult.Ok) then EmptyError r else move in
  if dst_item_present then OccupiedDestination
  else if is_inventory_packed_pos dst
  then unless_error can_store_result (MoveToInventory (is_bank_packed_pos src))
  else if is_bank_packed_pos dst then unless_error can_bank_result (MoveToBank true)
  else if is_equipment_packed_pos dst
  then unless_error can_equip_result (EmptyEquip equip_dest true)
  else EmptyInvalidDestinationNoop.

(** * Merging stacks *)
Inductive SwapItemMergeFillResult : Type :=
  | ContinueToRealSwap
  | MergeInvalidDestinationNoop
  | MoveMergedStackToInventory
  | MoveMergedStackToBank
  | EquipMergedStack (dest : Z) (auto_unequip_offhand : bool)
  | PartialFill (source_remaining_count destination_count : Z) (send_updates : bool).

#[global] Instance merge_fill_eq_dec : EqDecision SwapItemMergeFillResult.
Proof. solve_decision. Defined.

Record SwapItemMergeFillPlan : Type := mkMergeFillPlan
  { merge_fill_result : SwapItemMergeFillResult; send_refund_info : bool }.

Definition swap_item_merge_fill_plan (dst : Z) (source_is_bag destination_is_bag : bool)
    (source_count destination_count source_max_stack_size : Z)
    (can_store_result can_bank_result can_equip_result : InventoryResult.t) (equip_dest : Z)
    (is_in_world : bool) : SwapItemMergeFillPlan :=
  if source_is_bag || destination_is_bag then mkMergeFillPlan ContinueToRealSwap false
  else
    let destination_kind :=
      if is_inventory_packed_pos dst then Some (can_store_result, MoveMergedStackToInventory)
      else if is_bank_packed_pos dst then Some (can_bank_result, MoveMergedStackToBank)
      else if is_equipment_packed_pos dst then Some (can_equip_result, EquipMergedStack equip_dest true)
      else None in
    match destination_kind with
    | None => mkMergeFillPlan MergeInvalidDestinationNoop false
    | Some (validation_result, move_result) =>
        if bool_decide (validation_result <> InventoryResult.Ok)
        then mkMergeFillPlan ContinueToRealSwap false
        else
          let sum := sat_add u32_max source_count destination_count in
          if sum <=? source_max_stack_size then mkMergeFillPlan move_result true
          else
            mkMergeFillPlan (PartialFill (sat_sub sum source_max_stack_size) source_max_stack_size
                               is_in_world) true
    end.

(** * A real swap *)
Inductive SwapItemRealSwapTarget : Type :=
  | TargetInventory | TargetBank | TargetEquip (dest : Z) | TargetNone.

#[global] Instance swap_target_eq_dec : EqDecision SwapItemRealSwapTarget.
Proof. solve_decision. Defined.

Inductive SwapItemRealSwapValidationSubject : Type := SubjectSource | SubjectDestination.

Inductive SwapItemRealSwapValidationResult : Type :=
  | ValidationError (r : InventoryResult.t) (subject : SwapItemRealSwapValidationSubject)
  | ValidationContinue (source_target destination_target : SwapItemRealSwapTarget).

Definition swap_item_real_swap_target_for_destination (destination : Z)
    (can_store_result can_bank_result can_equip_result : InventoryResult.t) (equip_dest : Z)
    (equip_dest_can_unequip_result : InventoryResult.t) :
    InventoryResult.t * SwapItemRealSwapTarget :=
  if is_inventory_packed_pos destination then (can_store_result, TargetInventory)
  else if is_bank_packed_pos destination then (can_bank_result, TargetBank)
  else if is_equipment_packed_pos destination then
    if bool_decide (can_equip_result = InventoryResult.Ok)
    then (equip_dest_can_unequip_result, TargetEquip equip_dest)
    else (can_equip_result, TargetEquip equip_dest)
  else (InventoryResult.Ok, TargetNone).

(** What was found out about moving one of the two items to the other's place. *)
Record SwapChecks : Type := mkSwapChecks
  { can_store_result : InventoryResult.t; can_bank_result : InventoryResult.t;
    can_equip_result : InventoryResult.t; equip_dest : Z;
    equip_dest_can_unequip_result : InventoryResult.t }.

Definition swap_target (destination : Z) (c : SwapChecks) :
    InventoryResult.t * SwapItemRealSwapTarget :=
  swap_item_real_swap_target_for_destination destination (can_store_result c) (can_bank_result c)
    (can_equip_result c) (equip_dest c) (equip_dest_can_unequip_result c).

Definition swap_item_real_swap_validation_plan (src dst : Z) (source destination : SwapChecks) :
    SwapItemRealSwapValidationResult :=
  let '(source_result, source_target) := swap_target dst source in
  if bool_decide (source_result <> InventoryResult.Ok)
  then ValidationError source_result SubjectSource
  else
    let '(destination_result, destination_target) := swap_target src destination in
    if bool_decide (destination_result <> InventoryResult.Ok)
    then ValidationError destination_result SubjectDestination
    else ValidationContinue source_target destination_target.

(** * Exchanging the contents of bags *)
Record SwapBagItemRef : Type := mkSwapBagItem { swap_item_slot : Z; can_go_into_empty_bag : bool }.
Record SwapBagRef : Type := mkSwapBag
  { swap_is_empty : bool; swap_bag_size : Z; swap_items : list SwapBagItemRef }.
Record SwapBagItemMove : Type := mkMove { from_slot : Z; to_slot : Z }.

Inductive SwapItemBagExchangeResult : Type :=
  | ExchangeContinue
  | ExchangeError (r : InventoryResult.t)
  | Exchange (empty_bag_is_source : bool) (moves : list SwapBagItemMove).

Definition swap_item_at (b : SwapBagRef) (slot : Z) : option SwapBagItemRef :=
  find_first (fun i => swap_item_slot i = slot) (swap_items b).

(** The first loop: [None] when an item cannot go into the empty bag. *)
Fixpoint count_exchanged (full_bag : SwapBagRef) (l : list Z) (count : Z) : option Z :=
  match l with
  | [] => Some count
  | slot :: l =>
      match swap_item_at full_bag slot with
      | Some item =>
          if negb (can_go_into_empty_bag item) then None
          else count_exchanged full_bag l (sat_add u8_max count 1)
      | None => count_exchanged full_bag l count
      end
  end.

(** The second loop. *)
Fixpoint exchange_moves (full_bag : SwapBagRef) (l : list Z) (to : Z) (moves : list SwapBagItemMove) :
    list SwapBagItemMove :=
  match l with
  | [] => moves
  | slot :: l =>
      match swap_item_at full_bag slot with
      | Some _ => exchange_moves full_bag l (sat_add u8_max to 1) (moves ++ [mkMove slot to])
      | None => exchange_moves full_bag l to moves
      end
  end.

Definition empty_and_full (src dst : Z) (source_bag destination_bag : SwapBagRef) :
    option (bool * SwapBagRef * SwapBagRef) :=
  if swap_is_empty source_bag && negb (is_bag_pos src) then Some (true, source_bag, destination_bag)
  else if swap_is_empty destination_bag && negb (is_bag_pos dst)
  then Some (false, destination_bag, source_bag)
  else None.

Definition swap_item_bag_exchange_plan (src dst : Z) (source_bag destination_bag : option SwapBagRef) :
    SwapItemBagExchangeResult :=
  match source_bag, destination_bag with
  | Some source_bag, Some destination_bag =>
      match empty_and_full src dst source_bag destination_bag with
      | None => ExchangeContinue
      | Some (empty_bag_is_source, empty_bag, full_bag) =>
          let l := slot_range 0 (swap_bag_size full_bag) in
          match count_exchanged full_bag l 0 with
          | None => ExchangeError InventoryResult.BagInBag
          | Some count =>
              if swap_bag_size empty_bag <? count then ExchangeError InventoryResult.CantSwap
              else Exchange empty_bag_is_source (exchange_moves full_bag l 0 [])
          end
      end
  | _, _ => ExchangeContinue
  end.

(** * Execution and orchestration *)
Record SwapItemRealSwapExecutionPlan : Type := mkExecutionPlan
  { remove_destination_update : bool; remove_source_update : bool;
    source_target : SwapItemRealSwapTarget; destination_target : SwapItemRealSwapTarget;
    apply_item_dependent_auras : bool; release_loot : bool; auto_unequip_offhand : bool }.

Definition swap_item_real_swap_execution_plan (src dst : Z)
    (source_target destination_target : SwapItemRealSwapTarget)
    (ae_loot_view_not_empty source_bag_has_looted_item destination_bag_has_looted_item : bool) :
    SwapItemRealSwapExecutionPlan :=
  let worn pos := (pos_bag pos =? INVENTORY_SLOT_BAG_0) && (pos_slot pos <? INVENTORY_SLOT_BAG_END) in
  mkExecutionPlan false false source_target destination_target (worn src || worn dst)
    (ae_loot_view_not_empty
     && ((is_bag_pos src && source_bag_has_looted_item)
         || (is_bag_pos dst && destination_bag_has_looted_item)))
    true.

Inductive SwapItemErrorItemOrder : Type := SourceDestination | SourceOnly | DestinationSource.
Inductive SwapItemMissingPhase : Type :=
  | EmptyDestinationPhase | MergeFillPhase | RealSwapValidationPhase | BagExchangePhase
  | RealSwapExecutionPhase.

Inductive SwapItemOrchestrationResult : Type :=
  | OrchestrationNoSource
  | OrchestrationChildRedirect (first_src first_dst second_src second_dst : Z)
  | OrchestrationError (r : InventoryResult.t) (item_order : SwapItemErrorItemOrder)
  | OrchestrationEmptyDestination (plan : SwapItemEmptyDestinationResult)
  | OrchestrationMergeFill (plan : SwapItemMergeFillPlan)
  | RealSwap (bag_exchange : SwapItemBagExchangeResult) (execution : SwapItemRealSwapExecutionPlan)
  | InconsistentRealSwapTargets (validation_source_target validation_destination_target
      execution_source_target execution_destination_target : SwapItemRealSwapTarget)
  | MissingPhase (phase : SwapItemMissingPhase).

(** From the phase of the real swap on. *)
Definition orchestrate_real_swap (real_swap_validation : option SwapItemRealSwapValidationResult)
    (bag_exchange : option SwapItemBagExchangeResult)
    (real_swap_execution : option SwapItemRealSwapExecutionPlan) : SwapItemOrchestrationResult :=
  match real_swap_validation with
  | None => MissingPhase RealSwapValidationPhase
  | Some (ValidationError r SubjectSource) => OrchestrationError r SourceDestination
  | Some (ValidationError r SubjectDestination) => OrchestrationError r DestinationSource
  | Some (ValidationContinue validated_source validated_destination) =>
      match bag_exchange with
      | None => MissingPhase BagExchangePhase
      | Some (ExchangeError r) => OrchestrationError r SourceDestination
      | Some exchange =>
          match real_swap_execution with
          | None => MissingPhase RealSwapExecutionPhase
          | Some execution =>
              if bool_decide (source_target execution <> validated_source)
                 || bool_decide (destination_target execution <> validated_destination)
              then InconsistentRealSwapTargets validated_source validated_destination
                     (source_target execution) (destination_target execution)
              else RealSwap exchange execution
          end
      end
  end.

Definition swap_item_orchestration_plan (preflight : SwapItemPreflightPlan)
    (empty_destination : option SwapItemEmptyDestinationResult)
    (merge_fill : option SwapItemMergeFillPlan)
    (real_swap_validation : option SwapItemRealSwapValidationResult)
    (bag_exchange : option SwapItemBagExchangeResult)
    (real_swap_execution : option SwapItemRealSwapExecutionPlan) : SwapItemOrchestrationResult :=
  match preflight_result preflight with
  | NoSource => OrchestrationNoSource
  | ChildRedirect first_src first_dst second_src second_dst =>
      OrchestrationChildRedirect first_src first_dst second_src second_dst
  | PreflightError r => OrchestrationError r SourceDestination
  | PreflightContinue =>
      match empty_destination with
      | None => MissingPhase EmptyDestinationPhase
      | Some OccupiedDestination =>
          match merge_fill with
          | None => MissingPhase MergeFillPhase
          | Some fill =>
              if bool_decide (merge_fill_result fill <> ContinueToRealSwap)
              then OrchestrationMergeFill fill
              else orchestrate_real_swap real_swap_validation bag_exchange real_swap_execution
          end
      | Some (EmptyError r) => OrchestrationError r SourceOnly
      | Some plan => OrchestrationEmptyDestination plan
      end
  end.

(** * Exchanging the contents of bags *)
Definition occupied_slots (b : SwapBagRef) : list Z :=
  filter (fun s => is_Some (swap_item_at b s)) (slot_range 0 (swap_bag_size b)).

Definition all_fit (b : SwapBagRef) (l : list Z) : bool :=
  forallb (fun s => from_option can_go_into_empty_bag true (swap_item_at b s)) l.

Lemma count_exchanged_exact b l c :
  0 <= c -> c + Z.of_nat (length l) <= u8_max ->
  count_exchanged b l c
  = if all_fit b l
    then Some (c + Z.of_nat (length (filter (fun s => is_Some (swap_item_at b s)) l))) else None.
Proof.
  revert c. induction l as [|s l IH]; intros c H0 Hc; [cbn; f_equal; lia|].
  cbn [length count_exchanged] in *. unfold all_fit. cbn [forallb]. rewrite filter_cons.
  fold (all_fit b l). destruct (swap_item_at b s) as [i|] eqn:E; cbn [from_option andb].
  - rewrite decide_True by eauto. destruct (can_go_into_empty_bag i); cbn [negb andb]; [|done].
    replace (sat_add u8_max c 1) with (c + 1) by (unfold sat_add; lia).
    rewrite IH by lia. destruct (all_fit b l); [|done]. cbn [length]. f_equal. lia.
  - rewrite decide_False by (by intros []). apply IH; lia.
Qed.

Lemma exchange_moves_exact b l to moves :
  0 <= to -> to + Z.of_nat (length l) <= u8_max ->
  exchange_moves b l to moves
  = moves ++ imap (fun i s => mkMove s (to + Z.of_nat i))
               (filter (fun s => is_Some (swap_item_at b s)) l).
Proof.
  revert to moves. induction l as [|s l IH]; intros to moves H0 Hc; [by rewrite app_nil_r|].
  cbn [length exchange_moves] in *. rewrite filter_cons.
  destruct (swap_item_at b s) as [i|] eqn:E.
  - rewrite decide_True by eauto. replace (sat_add u8_max to 1) with (to + 1) by (unfold sat_add; lia).
    rewrite IH by lia. rewrite imap_cons, <- app_assoc. cbn [app]. f_equal.
    f_equal; [f_equal; lia|]. apply imap_ext. intros j x _. cbn. f_equal. lia.
  - rewrite decide_False by (by intros []). apply IH; lia.
Qed.

Lemma length_slot_range n : 0 <= n -> Z.of_nat (length (slot_range 0 n)) = n.
Proof. intros ?. unfold slot_range. rewrite length_seqZ. lia. Qed.

(** C32: Two bags exchanged when one is empty: the exchange is refused exactly
    when an item of the other bag may not go into the empty one or has no room
    there, and otherwise moves every occupied slot, in order, to the slots of
    the empty bag from the first on, no two items to the same slot. *)
Theorem bag_exchange_exact src dst source destination from_source empty full :
  0 <= swap_bag_size full <= u8_max ->
  empty_and_full src dst source destination = Some (from_source, empty, full) ->
  let occupied := occupied_slots full in
  let moves := imap (fun i s => mkMove s (Z.of_nat i)) occupied in
  swap_item_bag_exchange_plan src dst (Some source) (Some destination)
  = (if all_fit full (slot_range 0 (swap_bag_size full)) then
       if swap_bag_size empty <? Z.of_nat (length occupied) then ExchangeError InventoryResult.CantSwap
       else Exchange from_source moves
     else ExchangeError InventoryResult.BagInBag)
  /\ (Z.of_nat (length occupied) <= swap_bag_size empty ->
      NoDup (to_slot <$> moves) /\ NoDup (from_slot <$> moves)
      /\ Forall (fun m => 0 <= to_slot m < swap_bag_size empty) moves).
Proof.
  intros Hsize He occupied moves. unfold swap_item_bag_exchange_plan. rewrite He.
  pose proof (length_slot_range (swap_bag_size full)) as Hlen. split.
  - rewrite count_exchanged_exact by lia. destruct (all_fit _ _); [|done].
    rewrite Z.add_0_l. change (filter _ _) with occupied. case_match; [done|].
    by rewrite exchange_moves_exact by lia.
  - intros Hroom. unfold moves. rewrite !fmap_imap. split; [|split].
    + rewrite (imap_ext _ (fun j _ => Z.of_nat j)), imap_seq_0 by done. apply NoDup_fmap_2, NoDup_seq. apply _.
    + rewrite (imap_ext _ (const id)) by done. rewrite imap_const, list_fmap_id.
      apply NoDup_filter, NoDup_seqZ.
    + apply Forall_forall. intros m (i & s & -> & Hi)%elem_of_lookup_imap.
      apply lookup_lt_Some in Hi. cbn. lia.
Qed.

(** * Merging stacks *)
(** Two stacks merged: what does not fit into the destination stays behind. *)
Lemma merge_fill_keeps_items dst sb db s d max store bank equip pos in_world :
  0 <= s -> 0 <= d -> s + d <= u32_max ->
  match merge_fill_result
          (swap_item_merge_fill_plan dst sb db s d max store bank equip pos in_world) with
  | PartialFill rest filled _ => rest + filled = s + d /\ filled = max /\ 0 < rest
  | MoveMergedStackToInventory | MoveMergedStackToBank | EquipMergedStack _ _ => s + d <= max
  | ContinueToRealSwap | MergeInvalidDestinationNoop => True
  end.
Proof.
  intros Hs Hd Hsum. unfold swap_item_merge_fill_plan.
  assert (E : sat_add u32_max s d = s + d) by (unfold sat_add; lia).
  assert (R : forall x, max < x -> sat_sub x max = x - max) by (unfold sat_sub; lia).
  repeat (case_match; simplify_eq/=; try done); rewrite ?E, ?R in *; lia.
Qed.

(** An empty bag of two slots on the player and a bag with items in slots 1 and
    3, the second of which may be kept out. *)
Definition sample_full_bag (allowed : bool) : SwapBagRef :=
  mkSwapBag false 4 [mkSwapBagItem 3 allowed; mkSwapBagItem 1 true].

Lemma bag_exchange_exact_witness :
  swap_item_bag_exchange_plan (make_item_pos INVENTORY_SLOT_BAG_0 40) (make_item_pos INVENTORY_SLOT_BAG_0 30)
    (Some (mkSwapBag true 2 [])) (Some (sample_full_bag true))
  = Exchange true [mkMove 1 0; mkMove 3 1]
  /\ swap_item_bag_exchange_plan (make_item_pos INVENTORY_SLOT_BAG_0 40)
       (make_item_pos INVENTORY_SLOT_BAG_0 30) (Some (mkSwapBag true 2 [])) (Some (sample_full_bag false))
     = ExchangeError InventoryResult.BagInBag.
Proof.
  split.
  - rewrite (proj1 (bag_exchange_exact (make_item_pos INVENTORY_SLOT_BAG_0 40) (make_item_pos INVENTORY_SLOT_BAG_0 30)
               (mkSwapBag true 2 []) (sample_full_bag true) true (mkSwapBag true 2 []) (sample_full_bag true)
               ltac:(by vm_compute) ltac:(by vm_compute))). by vm_compute.
  - rewrite (proj1 (bag_exchange_exact (make_item_pos INVENTORY_SLOT_BAG_0 40) (make_item_pos INVENTORY_SLOT_BAG_0 30)
               (mkSwapBag true 2 []) (sample_full_bag false) true (mkSwapBag true 2 []) (sample_full_bag false)
               ltac:(by vm_compute) ltac:(by vm_compute))). by vm_compute.
Defined.
