(* ===== verification/InventoryEquip.v ===== *)
(** wow-entities/src/player/items/equipment.rs and the checks of storage.rs it
    needs: where an item may be worn, whether it may be put on, taken off or
    used, and putting it on. *)
From S2P Require Import Prelude Guid InventoryModel Items InventoryStorage InventoryPlan.

(** * Slots to wear an item in *)
Record FindEquipSlotArgs : Type := mkFindEquipSlot
  { find_proto : ItemStorageTemplate; find_slot : Z; find_swap : bool; find_can_dual_wield : bool;
    find_can_titan_grip : bool; find_is_two_hand_used : bool;
    find_has_required_profession_skill : bool; find_profession_slot : option Z;
    find_equipped_items : list ItemSlotRef }.

Definition no_slots : list Z := [NULL_SLOT; NULL_SLOT; NULL_SLOT; NULL_SLOT].
Definition one_slot (slot : Z) : list Z := [slot; NULL_SLOT; NULL_SLOT; NULL_SLOT].
Definition two_slots (slot1 slot2 : Z) : list Z := [slot1; slot2; NULL_SLOT; NULL_SLOT].

Definition is_primary_profession (subclass : Z) : bool :=
  existsb (Z.eqb subclass)
    [ItemSubclassProfession.Blacksmithing; ItemSubclassProfession.Leatherworking;
     ItemSubclassProfession.Alchemy; ItemSubclassProfession.Herbalism;
     ItemSubclassProfession.Mining; ItemSubclassProfession.Tailoring;
     ItemSubclassProfession.Engineering; ItemSubclassProfession.Enchanting;
     ItemSubclassProfession.Skinning; ItemSubclassProfession.Jewelcrafting;
     ItemSubclassProfession.Inscription].

(** The slots of professions: gear goes into the second gear slot, the first one
    being overwritten. *)
Definition profession_slots (args : FindEquipSlotArgs) (is_tool : bool) : list Z :=
  let subclass := subclass_id (find_proto args) in
  if bool_decide (class_id (find_proto args) <> ItemClass.Profession)
     || negb (find_has_required_profession_skill args)
  then no_slots
  else if subclass =? ItemSubclassProfession.Cooking
  then one_slot (if is_tool then PROFESSION_SLOT_COOKING_TOOL else PROFESSION_SLOT_COOKING_GEAR1)
  else if subclass =? ItemSubclassProfession.Fishing
  then if is_tool then one_slot PROFESSION_SLOT_FISHING_TOOL else no_slots
  else if is_primary_profession subclass then
    match find_profession_slot args with
    | None => no_slots
    | Some slot =>
        one_slot (u8 ((if is_tool then PROFESSION_SLOT_PROFESSION1_TOOL
                       else PROFESSION_SLOT_PROFESSION1_GEAR2)
                      + u8 (slot * PROFESSION_SLOT_MAX_COUNT)))
    end
  else no_slots.

Definition equip_slot_candidates (args : FindEquipSlotArgs) : list Z :=
  match inventory_type (find_proto args) with
  | InventoryType.Head => one_slot EQUIPMENT_SLOT_HEAD
  | InventoryType.Neck => one_slot EQUIPMENT_SLOT_NECK
  | InventoryType.Shoulders => one_slot EQUIPMENT_SLOT_SHOULDERS
  | InventoryType.Body => one_slot EQUIPMENT_SLOT_BODY
  | InventoryType.Chest | InventoryType.Robe => one_slot EQUIPMENT_SLOT_CHEST
  | InventoryType.Waist => one_slot EQUIPMENT_SLOT_WAIST
  | InventoryType.Legs => one_slot EQUIPMENT_SLOT_LEGS
  | InventoryType.Feet => one_slot EQUIPMENT_SLOT_FEET
  | InventoryType.Wrists => one_slot EQUIPMENT_SLOT_WRISTS
  | InventoryType.Hands => one_slot EQUIPMENT_SLOT_HANDS
  | InventoryType.Finger => two_slots EQUIPMENT_SLOT_FINGER1 EQUIPMENT_SLOT_FINGER2
  | InventoryType.Trinket => two_slots EQUIPMENT_SLOT_TRINKET1 EQUIPMENT_SLOT_TRINKET2
  | InventoryType.Cloak => one_slot EQUIPMENT_SLOT_BACK
  | InventoryType.Weapon =>
      if find_can_dual_wield args then two_slots EQUIPMENT_SLOT_MAINHAND EQUIPMENT_SLOT_OFFHAND
      else one_slot EQUIPMENT_SLOT_MAINHAND
  | InventoryType.Shield | InventoryType.WeaponOffhand | InventoryType.Holdable =>
      one_slot EQUIPMENT_SLOT_OFFHAND
  | InventoryType.Ranged | InventoryType.WeaponMainhand | InventoryType.RangedRight =>
      one_slot EQUIPMENT_SLOT_MAINHAND
  | InventoryType.Weapon2Hand =>
      if find_can_dual_wield args && find_can_titan_grip args
      then two_slots EQUIPMENT_SLOT_MAINHAND EQUIPMENT_SLOT_OFFHAND
      else one_slot EQUIPMENT_SLOT_MAINHAND
  | InventoryType.Tabard => one_slot EQUIPMENT_SLOT_TABARD
  | InventoryType.Bag =>
      [INVENTORY_SLOT_BAG_START; INVENTORY_SLOT_BAG_START + 1; INVENTORY_SLOT_BAG_START + 2;
       INVENTORY_SLOT_BAG_START + 3]
  | InventoryType.ProfessionTool => profession_slots args true
  | InventoryType.ProfessionGear => profession_slots args false
  | _ => no_slots
  end.

Definition worn_at (equipped : list ItemSlotRef) (slot : Z) : option Item :=
  item_ref_by_pos equipped INVENTORY_SLOT_BAG_0 slot.

(** The candidate whose item has the least level: [min_item_level_index] starts
    at the first slot, and changes only for a lower level. *)
Fixpoint lowest_level (equipped : list ItemSlotRef) (candidates : list Z) (min_level best : Z) : Z :=
  match candidates with
  | [] => best
  | candidate :: rest =>
      if candidate =? NULL_SLOT then lowest_level equipped rest min_level best
      else
        match worn_at equipped candidate with
        | None => lowest_level equipped rest min_level best
        | Some item =>
            if debug_item_level item <? min_level
            then lowest_level equipped rest (debug_item_level item) candidate
            else lowest_level equipped rest min_level best
        end
  end.

Definition find_equip_slot (args : FindEquipSlotArgs) : Z :=
  let candidates := equip_slot_candidates args in
  let equipped := find_equipped_items args in
  let first := nth 0 candidates NULL_SLOT in
  if first =? NULL_SLOT then NULL_SLOT
  else if negb (find_slot args =? NULL_SLOT) then
    if (find_swap args || negb (bool_decide (is_Some (worn_at equipped (find_slot args)))))
       && existsb (fun candidate => candidate =? find_slot args) candidates
    then find_slot args
    else NULL_SLOT
  else
    match find_first (fun candidate => candidate <> NULL_SLOT /\ worn_at equipped candidate = None /\
                        (candidate <> EQUIPMENT_SLOT_OFFHAND \/ find_is_two_hand_used args = false))
            candidates with
    | Some candidate => candidate
    | None =>
        if find_swap args then lowest_level equipped candidates u32_max first else NULL_SLOT
    end.

(** * Using an item *)
Definition TEAM_HORDE_ID : Z := 67.
Definition TEAM_ALLIANCE_ID : Z := 469.
Definition CLASS_WARRIOR : Z := 1.
Definition CLASS_PALADIN : Z := 2.
Definition CLASS_HUNTER : Z := 3.
Definition CLASS_SHAMAN : Z := 7.
Definition SKILL_PLATE_MAIL : Z := 293.
Definition SKILL_MAIL : Z := 413.

Record CanUseItemTemplateArgs : Type := mkUseTemplate
  { use_template_proto : option ItemStorageTemplate; skip_required_level_check : bool;
    template_player_level : Z; team : Z; allowable_class_matches : bool;
    allowable_race_matches : bool; internal_item : bool; faction_horde : bool;
    faction_alliance : bool; required_skill : Z; required_skill_rank : Z;
    required_skill_value : Z; required_spell : Z; has_required_spell : bool;
    base_required_level : Z; holiday_id : Z; holiday_active : bool;
    required_reputation_faction : Z; required_reputation_rank : Z; player_reputation_rank : Z;
    effect0_spell_id : option Z; effect1_spell_id : option Z; has_effect1_spell : bool;
    artifact_specialization : option Z; primary_specialization : Z }.

#[export] Instance eta_use_template : Eta CanUseItemTemplateArgs := fun a =>
  mkUseTemplate (use_template_proto a) (skip_required_level_check a) (template_player_level a)
    (team a) (allowable_class_matches a) (allowable_race_matches a) (internal_item a)
    (faction_horde a) (faction_alliance a) (required_skill a) (required_skill_rank a)
    (required_skill_value a) (required_spell a) (has_required_spell a) (base_required_level a)
    (holiday_id a) (holiday_active a) (required_reputation_faction a)
    (required_reputation_rank a) (player_reputation_rank a) (effect0_spell_id a)
    (effect1_spell_id a) (has_effect1_spell a) (artifact_specialization a)
    (primary_specialization a).

(** The first check that fails, in order. *)
Fixpoint first_failure (checks : list (bool * InventoryResult.t)) : InventoryResult.t :=
  match checks with
  | [] => InventoryResult.Ok
  | (failed, e) :: checks => if failed then e else first_failure checks
  end.

Definition can_use_item_template (a : CanUseItemTemplateArgs) : InventoryResult.t :=
  match use_template_proto a with
  | None => InventoryResult.ItemNotFound
  | Some _ =>
      first_failure
        [(internal_item a, InventoryResult.CantEquipEver);
         (faction_horde a && negb (team a =? TEAM_HORDE_ID), InventoryResult.CantEquipEver);
         (faction_alliance a && negb (team a =? TEAM_ALLIANCE_ID), InventoryResult.CantEquipEver);
         (negb (allowable_class_matches a) || negb (allowable_race_matches a),
          InventoryResult.CantEquipEver);
         (negb (required_skill a =? 0) && (required_skill_value a =? 0),
          InventoryResult.ProficiencyNeeded);
         (negb (required_skill a =? 0) && (required_skill_value a <? required_skill_rank a),
          InventoryResult.CantEquipSkill);
         (negb (required_spell a =? 0) && negb (has_required_spell a),
          InventoryResult.ProficiencyNeeded);
         (negb (skip_required_level_check a) && (template_player_level a <? base_required_level a),
          InventoryResult.CantEquipLevelI);
         (negb (holiday_id a =? 0) && negb (holiday_active a), InventoryResult.ClientLockedOut);
         (negb (required_reputation_faction a =? 0)
          && (player_reputation_rank a <? required_reputation_rank a),
          InventoryResult.CantEquipReputation);
         (match effect0_spell_id a with Some s => (s =? 483) || (s =? 55884) | None => false end
          && bool_decide (is_Some (effect1_spell_id a)) && has_effect1_spell a,
          InventoryResult.InternalBagError);
         (match artifact_specialization a with
          | Some spec => negb (spec =? primary_specialization a)
          | None => false
          end, InventoryResult.CantUseItem)]
  end.

Record CanUseItemArgs : Type := mkUseItem
  { use_source_item : option Item; use_proto : option ItemStorageTemplate; use_not_loading : bool;
    use_is_alive : bool; use_player_level : Z; item_required_level : Z;
    use_bop_trade_allowed_for_player : bool; template_args : CanUseItemTemplateArgs;
    item_skill : Z; item_skill_value : Z; has_item_skill : bool; player_class : Z;
    proto_is_heirloom : bool }.

(** An heirloom of mail or plate may be worn before its skill is learned. *)
Definition heirloom_armor_allowed (a : CanUseItemArgs) (proto : ItemStorageTemplate) : bool :=
  proto_is_heirloom a && bool_decide (class_id proto = ItemClass.Armor) && negb (has_item_skill a)
  && (if (player_class a =? CLASS_HUNTER) || (player_class a =? CLASS_SHAMAN)
      then item_skill a =? SKILL_MAIL
      else if (player_class a =? CLASS_PALADIN) || (player_class a =? CLASS_WARRIOR)
      then item_skill a =? SKILL_PLATE_MAIL
      else false).

Definition can_use_item (a : CanUseItemArgs) (p : Player) : InventoryResult.t :=
  match use_source_item a with
  | None => InventoryResult.ItemNotFound
  | Some source =>
      if negb (use_is_alive a) && use_not_loading a then InventoryResult.PlayerDead
      else
        match use_proto a with
        | None => InventoryResult.ItemNotFound
        | Some proto =>
            if is_binded_not_with (player_guid p) proto (use_bop_trade_allowed_for_player a) source
            then InventoryResult.NotOwner
            else if use_player_level a <? item_required_level a
            then InventoryResult.CantEquipLevelI
            else
              match can_use_item_template
                      ((template_args a) <| use_template_proto := use_proto a |>
                                       <| skip_required_level_check := true |>) with
              | InventoryResult.Ok =>
                  if negb (item_skill a =? 0) && negb (heirloom_armor_allowed a proto)
                     && (item_skill_value a =? 0)
                  then InventoryResult.ProficiencyNeeded
                  else InventoryResult.Ok
              | e => e
              end
        end
  end.

(** * Unique items *)
Record EquippedGemRef : Type := mkGem { gem_slot : Z; gem_entry : Z; gem_limit_category : Z }.

Definition has_equipped_item_entry (equipped : list ItemStorageRef) (e except_slot : Z) : bool :=
  existsb (fun r => (stored_bag r =? INVENTORY_SLOT_BAG_0) && negb (stored_slot r =? except_slot)
                    && (item_entry (stored_item r) =? e)) equipped.

Definition has_equipped_gem_entry (gems : list EquippedGemRef) (e except_slot : Z) : bool :=
  existsb (fun g => negb (gem_slot g =? except_slot) && (gem_entry g =? e)) gems.

Definition equipped_item_limit_category_count (equipped : list ItemStorageRef)
    (category except_slot : Z) : Z :=
  let counted r :=
    (stored_bag r =? INVENTORY_SLOT_BAG_0) && negb (stored_slot r =? except_slot)
    && match stored_template r with
       | Some template => item_limit_category template =? category
       | None => false
       end in
  sum_counts (stored_item <$> filter (fun r => counted r = true) equipped).

Definition equipped_gem_limit_category_count (gems : list EquippedGemRef)
    (category except_slot : Z) : Z :=
  let counted g := negb (gem_slot g =? except_slot) && (gem_limit_category g =? category) in
  u32 (Z.of_nat (length (filter (fun g => counted g = true) gems))).

Section Unique.
Variable except_slot : Z.
Variable equipped_items : list ItemStorageRef.
Variable equipped_gems : list EquippedGemRef.

(** The checks of one template, of an item or of a gem in it. *)
Definition can_equip_unique_item_template (proto : option ItemStorageTemplate) (limit_count : Z)
    (unique_equippable : bool) (limit_category : option ItemLimitCategoryTemplate) :
    InventoryResult.t :=
  match proto with
  | None => InventoryResult.ItemNotFound
  | Some proto =>
      if unique_equippable
         && (has_equipped_item_entry equipped_items (entry proto) except_slot
             || has_equipped_gem_entry equipped_gems (entry proto) except_slot)
      then InventoryResult.ItemUniqueEquippable
      else if item_limit_category proto =? 0 then InventoryResult.Ok
      else
        match limit_category with
        | None => InventoryResult.NotEquippable
        | Some category =>
            if limit_quantity category <? limit_count
            then InventoryResult.ItemMaxLimitCategoryEquippedExceededIs
            else
              let required_count := u32 (sat_sub (limit_quantity category) limit_count + 1) in
              if required_count <=? equipped_item_limit_category_count equipped_items
                                      (item_limit_category proto) except_slot
              then InventoryResult.ItemMaxLimitCategoryEquippedExceededIs
              else if required_count <=? equipped_gem_limit_category_count equipped_gems
                                           (item_limit_category proto) except_slot
              then InventoryResult.ItemMaxCountEquippedSocketed
              else InventoryResult.Ok
        end
  end.

Record SocketedGemUniqueRef : Type := mkSocketedGem
  { socketed_proto : option ItemStorageTemplate; socketed_unique_equippable : bool;
    socketed_limit_category : option ItemLimitCategoryTemplate;
    source_limit_category_count : Z }.

Fixpoint check_socketed_gems (source : Item) (gems : list SocketedGemUniqueRef) :
    InventoryResult.t :=
  match gems with
  | [] => InventoryResult.Ok
  | gem :: gems =>
      match socketed_proto gem with
      | None => check_socketed_gems source gems
      | Some gem_proto =>
          let gem_limit_count :=
            if negb (is_equipped source) && negb (item_limit_category gem_proto =? 0)
            then source_limit_category_count gem else 1 in
          match can_equip_unique_item_template (Some gem_proto) gem_limit_count
                  (socketed_unique_equippable gem) (socketed_limit_category gem) with
          | InventoryResult.Ok => check_socketed_gems source gems
          | e => e
          end
      end
  end.

Definition can_equip_unique_item (source_item : option Item) (proto : option ItemStorageTemplate)
    (limit_count : Z) (unique_equippable : bool)
    (limit_category : option ItemLimitCategoryTemplate)
    (socketed_gems : list SocketedGemUniqueRef) : InventoryResult.t :=
  match source_item with
  | None => InventoryResult.ItemNotFound
  | Some source =>
      match can_equip_unique_item_template proto limit_count unique_equippable limit_category with
      | InventoryResult.Ok => check_socketed_gems source socketed_gems
      | e => e
      end
  end.
End Unique.

(** * Equipping *)
Record CanEquipItemArgs : Type := mkEquipArgs
  { equip_slot : Z; equip_proto : option ItemStorageTemplate; equip_source_item : option Item;
    equip_bop_trade_allowed_for_player : bool; equip_swap : bool; not_loading : bool;
    is_stunned : bool; is_charmed : bool; is_in_combat : bool; is_in_progress_arena : bool;
    weapon_change_timer_active : bool; current_generic_spell_allows_equip : option bool;
    current_channeled_spell_allows_equip : option bool; heirloom_required_level_failed : bool;
    equip_can_use_result : InventoryResult.t; can_equip_unique_result : InventoryResult.t;
    can_dual_wield : bool; can_titan_grip : bool; is_two_hand_used : bool;
    proto_always_allow_dual_wield : bool; has_required_profession_skill : bool;
    profession_slot : option Z; offhand_can_unequip_result : InventoryResult.t;
    offhand_can_store_result : InventoryResult.t;
    equip_limit_category : option ItemLimitCategoryTemplate;
    equipped_items : list ItemSlotRef; equip_stored_items : list ItemStorageRef }.

Record CanEquipItemOutcome : Type := mkEquipOutcome
  { equip_result : InventoryResult.t; equip_dest : Z; unique_ignore_slot : option Z }.

Definition can_equip_item_outcome (r : InventoryResult.t) : CanEquipItemOutcome :=
  mkEquipOutcome r 0 None.

Definition paired_unique_ignore_slot (slot : Z) : option Z :=
  if slot =? EQUIPMENT_SLOT_MAINHAND then Some EQUIPMENT_SLOT_OFFHAND
  else if slot =? EQUIPMENT_SLOT_OFFHAND then Some EQUIPMENT_SLOT_MAINHAND
  else if slot =? EQUIPMENT_SLOT_FINGER1 then Some EQUIPMENT_SLOT_FINGER2
  else if slot =? EQUIPMENT_SLOT_FINGER2 then Some EQUIPMENT_SLOT_FINGER1
  else if slot =? EQUIPMENT_SLOT_TRINKET1 then Some EQUIPMENT_SLOT_TRINKET2
  else if slot =? EQUIPMENT_SLOT_TRINKET2 then Some EQUIPMENT_SLOT_TRINKET1
  else if slot =? PROFESSION_SLOT_PROFESSION1_GEAR1 then Some PROFESSION_SLOT_PROFESSION1_GEAR2
  else if slot =? PROFESSION_SLOT_PROFESSION1_GEAR2 then Some PROFESSION_SLOT_PROFESSION1_GEAR1
  else if slot =? PROFESSION_SLOT_PROFESSION2_GEAR1 then Some PROFESSION_SLOT_PROFESSION2_GEAR2
  else if slot =? PROFESSION_SLOT_PROFESSION2_GEAR2 then Some PROFESSION_SLOT_PROFESSION2_GEAR1
  else None.

Definition find_args (a : CanEquipItemArgs) (proto : ItemStorageTemplate) : FindEquipSlotArgs :=
  mkFindEquipSlot proto (equip_slot a) (equip_swap a) (can_dual_wield a) (can_titan_grip a)
    (is_two_hand_used a) (has_required_profession_skill a) (profession_slot a) (equipped_items a).

Definition is_weapon_class (proto : ItemStorageTemplate) : bool :=
  bool_decide (class_id proto = ItemClass.Weapon).

(** What the state of the player forbids, when the player is not being loaded. *)
Definition equip_state_failure (a : CanEquipItemArgs) (proto : ItemStorageTemplate) :
    InventoryResult.t :=
  let fixed := negb (can_change_equip_state_in_combat proto) in
  if not_loading a then
    first_failure
      [(is_stunned a, InventoryResult.GenericStunned);
       (is_charmed a, InventoryResult.ClientLockedOut);
       (fixed && is_in_combat a, InventoryResult.NotInCombat);
       (fixed && is_in_progress_arena a, InventoryResult.NotDuringArenaMatch);
       (is_in_combat a
        && (is_weapon_class proto || bool_decide (inventory_type proto = InventoryType.Relic))
        && weapon_change_timer_active a, InventoryResult.ItemCooldown);
       (bool_decide (current_generic_spell_allows_equip a = Some false)
        || bool_decide (current_channeled_spell_allows_equip a = Some false),
        InventoryResult.ClientLockedOut)]
  else InventoryResult.Ok.

(** What the off hand asks for, and a two-handed weapon of the off hand. *)
Definition offhand_failure (a : CanEquipItemArgs) (proto : ItemStorageTemplate) (eslot : Z) :
    InventoryResult.t :=
  if negb (eslot =? EQUIPMENT_SLOT_OFFHAND) then InventoryResult.Ok
  else
    let skill_missing :=
      match inventory_type proto with
      | InventoryType.Weapon =>
          (subclass_id proto =? ItemSubClassWeapon.Polearm) || negb (can_dual_wield a)
      | InventoryType.WeaponOffhand =>
          negb (can_dual_wield a) && negb (proto_always_allow_dual_wield a)
      | InventoryType.Weapon2Hand => negb (can_dual_wield a) || negb (can_titan_grip a)
      | _ => false
      end in
    first_failure [(skill_missing, InventoryResult.TwoHandSkillNotFound);
                   (is_two_hand_used a, InventoryResult.Equipped2handed)].

Definition two_hand_failure (a : CanEquipItemArgs) (proto : ItemStorageTemplate) (eslot : Z) :
    InventoryResult.t :=
  if bool_decide (inventory_type proto <> InventoryType.Weapon2Hand) then InventoryResult.Ok
  else
    first_failure
      [(if eslot =? EQUIPMENT_SLOT_OFFHAND then negb (can_titan_grip a)
        else negb (eslot =? EQUIPMENT_SLOT_MAINHAND), InventoryResult.NotEquippable);
       (negb (can_titan_grip a)
        && bool_decide (is_Some (worn_at (equipped_items a) EQUIPMENT_SLOT_OFFHAND))
        && (negb (not_loading a)
            || bool_decide (offhand_can_unequip_result a <> InventoryResult.Ok)
            || bool_decide (offhand_can_store_result a <> InventoryResult.Ok)),
        if equip_swap a then InventoryResult.CantSwap else InventoryResult.InvFull)].

Section Equip.
(** [std::ptr::eq] on two items. *)
Variable same_object : Item -> Item -> bool.

Definition equip_unique_ignore_slot (a : CanEquipItemArgs) (source : Item) (eslot : Z) : Z :=
  let ignore := default NULL_SLOT (paired_unique_ignore_slot eslot) in
  let ignore :=
    if (ignore =? NULL_SLOT)
       || negb (match worn_at (equipped_items a) ignore with
                | Some equipped => same_object equipped source
                | None => false
                end)
    then eslot else ignore in
  if equip_swap a then ignore else NULL_SLOT.

(** Another quiver or ammunition pouch already worn. *)
Fixpoint quiver_failure (a : CanEquipItemArgs) (source : Item) (proto : ItemStorageTemplate)
    (eslot : Z) (stored : list ItemStorageRef) : InventoryResult.t :=
  match stored with
  | [] => InventoryResult.Ok
  | r :: stored =>
      let next := quiver_failure a source proto eslot stored in
      if negb (stored_bag r =? INVENTORY_SLOT_BAG_0)
         || negb (in_range INVENTORY_SLOT_BAG_START INVENTORY_SLOT_BAG_END (stored_slot r))
         || same_object (stored_item r) source
      then next
      else
        match stored_template r with
        | Some bag_proto =>
            if bool_decide (class_id bag_proto = class_id proto)
               && (negb (equip_swap a) || negb (stored_slot r =? eslot))
            then if subclass_id bag_proto =? ItemSubClassQuiver.AmmoPouch
                 then InventoryResult.OnlyOneAmmo else InventoryResult.OnlyOneQuiver
            else next
        | None => next
        end
  end.

(** The part from the slot on. *)
Definition can_equip_in_slot (a : CanEquipItemArgs) (source : Item) (proto : ItemStorageTemplate)
    (eslot : Z) : CanEquipItemOutcome :=
  if eslot =? NULL_SLOT then can_equip_item_outcome InventoryResult.NotEquippable
  else if bool_decide (equip_can_use_result a <> InventoryResult.Ok)
  then can_equip_item_outcome (equip_can_use_result a)
  else if negb (equip_swap a) && bool_decide (is_Some (worn_at (equipped_items a) eslot))
  then can_equip_item_outcome InventoryResult.NoSlotAvailable
  else
    let ignore := Some (equip_unique_ignore_slot a source eslot) in
    if bool_decide (can_equip_unique_result a <> InventoryResult.Ok)
    then mkEquipOutcome (can_equip_unique_result a) 0 ignore
    else
      let quiver :=
        if bool_decide (class_id proto = ItemClass.Quiver)
        then quiver_failure a source proto eslot (equip_stored_items a) else InventoryResult.Ok in
      if bool_decide (quiver <> InventoryResult.Ok) then mkEquipOutcome quiver 0 ignore
      else
        match offhand_failure a proto eslot with
        | InventoryResult.Ok =>
            match two_hand_failure a proto eslot with
            | InventoryResult.Ok =>
                mkEquipOutcome InventoryResult.Ok (make_item_pos INVENTORY_SLOT_BAG_0 eslot) ignore
            | e => can_equip_item_outcome e
            end
        | e => can_equip_item_outcome e
        end.

Definition can_equip_item (a : CanEquipItemArgs) (p : Player) : CanEquipItemOutcome :=
  let missing := if equip_swap a then InventoryResult.CantSwap else InventoryResult.ItemNotFound in
  match equip_source_item a, equip_proto a with
  | Some source, Some proto =>
      if loot_generated source then can_equip_item_outcome InventoryResult.LootGone
      else if is_binded_not_with (player_guid p) proto (equip_bop_trade_allowed_for_player a) source
      then can_equip_item_outcome InventoryResult.NotOwner
      else
        let similar :=
          can_take_more_similar_items (equip_proto a) (item_count source) (equip_source_item a)
            (item_count_by_entry (entry proto) false (equip_source_item a) (equip_stored_items a))
            (equip_limit_category a)
            (item_count_with_limit_category (item_limit_category proto) (equip_source_item a)
               (equip_stored_items a)) in
        match similar_result similar with
        | InventoryResult.Ok =>
            match equip_state_failure a proto with
            | InventoryResult.Ok =>
                if heirloom_required_level_failed a
                then can_equip_item_outcome InventoryResult.NotEquippable
                else can_equip_in_slot a source proto (find_equip_slot (find_args a proto))
            | e => can_equip_item_outcome e
            end
        | e => can_equip_item_outcome e
        end
  | _, _ => can_equip_item_outcome missing
  end.
End Equip.

(** * Taking off *)
Record CanUnequipItemArgs : Type := mkUnequipArgs
  { unequip_pos : Z; unequip_source_item : option Item; unequip_proto : option ItemStorageTemplate;
    unequip_swap : bool; unequip_source_is_not_empty_bag : bool; unequip_is_charmed : bool;
    unequip_is_in_combat : bool; unequip_is_in_progress_arena : bool }.

Definition can_unequip_item (a : CanUnequipItemArgs) : InventoryResult.t :=
  if negb (is_equipment_packed_pos (unequip_pos a)) && negb (is_bag_pos (unequip_pos a))
  then InventoryResult.Ok
  else
    match unequip_source_item a, unequip_proto a with
    | None, _ => InventoryResult.Ok
    | Some _, None => InventoryResult.ItemNotFound
    | Some source, Some proto =>
        let fixed := negb (can_change_equip_state_in_combat proto) in
        first_failure
          [(loot_generated source, InventoryResult.LootGone);
           (unequip_is_charmed a, InventoryResult.ClientLockedOut);
           (fixed && unequip_is_in_combat a, InventoryResult.NotInCombat);
           (fixed && unequip_is_in_progress_arena a, InventoryResult.NotDuringArenaMatch);
           (negb (unequip_swap a) && unequip_source_is_not_empty_bag a,
            InventoryResult.DestroyNonemptyBag)]
    end.

(** * Putting on *)
Inductive EquipItemObjectOutcome : Type := Equipped | Merged.

(** The slot of a position on the player itself. *)
Definition equip_position (position : Z) : Prelude.result Z PlayerStorageError :=
  if negb (pos_bag position =? INVENTORY_SLOT_BAG_0) then Err (UnknownBag (pos_bag position))
  else if PLAYER_SLOT_END <=? pos_slot position then Err (InvalidPlayerSlot (pos_slot position))
  else Ok (pos_slot position).

Definition quick_equip_item_object (position : Z) (i : Item) (visible : VisibleItemValues)
    (p : Player) : Prelude.result (Player * Item) PlayerStorageError :=
  let? slot := equip_position position in
  let? r := visualize_item_object slot i visible p in
  Ok (fst r, set_item_flag2 ItemFieldFlags2.EQUIPPED (snd r)).

(** The player, the item, the item it was put onto and what was done. *)
Definition equip_item_object (position : Z) (i : Item) (existing : option Item)
    (visible : VisibleItemValues) (p : Player) :
    Prelude.result (Player * Item * option Item * EquipItemObjectOutcome) PlayerStorageError :=
  let? slot := equip_position position in
  match existing with
  | None =>
      if bool_decide (is_Some (top_level_item_guid slot p)) then Err (OccupiedPlayerSlot slot)
      else
        let? r := visualize_item_object slot i visible p in
        Ok (fst r, set_item_flag2 ItemFieldFlags2.EQUIPPED (snd r), None, Equipped)
  | Some existing =>
      let? expected := ok_or (top_level_item_guid slot p) (EmptyPlayerSlot slot) in
      if bool_decide (expected <> item_guid existing)
      then Err (MismatchedItemGuid slot expected (item_guid existing))
      else
        Ok (p, merged_away (player_guid p) i,
            Some (changed (existing <| item_count := u32 (item_count existing + item_count i) |>)),
            Merged)
  end.
