(* ===== verification/InventoryEquipTheorems.v ===== *)
(** Wearing items: the slot [find_equip_slot] chooses, and what an item must
    satisfy for [can_equip_item] to allow it. *)
From S2P Require Import Prelude Guid InventoryModel Items InventoryStorage InventoryPlan InventoryEquip.

(** * The slot *)
(** A candidate an item can be put into without taking another off. *)
Definition free_candidate (args : FindEquipSlotArgs) (slot : Z) : Prop :=
  slot <> NULL_SLOT /\ worn_at (find_equipped_items args) slot = None
  /\ (slot <> EQUIPMENT_SLOT_OFFHAND \/ find_is_two_hand_used args = false).

#[export] Instance free_candidate_dec args slot : Decision (free_candidate args slot).
Proof. unfold free_candidate. apply _. Defined.

Lemma lowest_level_in equipped candidates min best :
  best <> NULL_SLOT ->
  lowest_level equipped candidates min best = best
  \/ (lowest_level equipped candidates min best ∈ candidates
      /\ lowest_level equipped candidates min best <> NULL_SLOT).
Proof.
  revert min best. induction candidates as [|c l IH]; intros min best Hb; [by left|].
  cbn [lowest_level]. repeat case_match;
    try (destruct (IH min best Hb) as [?|[? ?]]; [by left|right; split; [by right|done]]).
  assert (Hc : c <> NULL_SLOT) by (apply Z.eqb_neq; done).
  destruct (IH (debug_item_level i) c Hc) as [->|[? ?]]; right; split; try done; [by left|by right].
Qed.

(** The slot is [NULL_SLOT] or a candidate: the one asked for, the first free
    one, or with a swap one that is worn. *)
Lemma find_equip_slot_candidate args :
  find_equip_slot args <> NULL_SLOT ->
  find_equip_slot args ∈ equip_slot_candidates args
  /\ (find_slot args <> NULL_SLOT -> find_equip_slot args = find_slot args)
  /\ (find_swap args = false -> worn_at (find_equipped_items args) (find_equip_slot args) = None).
Proof.
  unfold find_equip_slot. destruct (_ =? NULL_SLOT) eqn:E0; [done|].
  destruct (find_slot args =? NULL_SLOT) eqn:E1; cbn [negb].
  - apply Z.eqb_eq in E1. rewrite E1.
    destruct (find_first _ _) as [c|] eqn:E2.
    + apply find_first_Some in E2 as (H1 & H2 & H3 & _). done.
    + destruct (find_swap args) eqn:E3; [|done]. intros _.
      apply Z.eqb_neq in E0. split; [|done].
      destruct (lowest_level_in (find_equipped_items args) (equip_slot_candidates args) u32_max _ E0)
        as [->|[H _]]; [|done].
      destruct (equip_slot_candidates args); [done|left].
  - case_match eqn:E2; [|done]. intros Hn. apply andb_true_iff in E2 as [H1 H2].
    apply existsb_exists in H2 as (c & Hin & Hc). apply Z.eqb_eq in Hc. subst.
    split; [by apply list_elem_of_In|]. split; [done|]. intros Hs. rewrite Hs in H1. cbn in H1.
    apply negb_true_iff, bool_decide_eq_false in H1. by apply eq_None_not_Some.
Qed.

Lemma candidates_first args :
  nth 0 (equip_slot_candidates args) NULL_SLOT = NULL_SLOT ->
  Forall (fun c => c = NULL_SLOT) (equip_slot_candidates args).
Proof.
  unfold equip_slot_candidates, profession_slots, one_slot, two_slots, no_slots.
  intros Hnth. repeat case_match; cbn [nth] in Hnth; try discriminate; repeat constructor; done.
Qed.

(** Nothing is taken off while a candidate is free. *)
Lemma find_equip_slot_free args c :
  find_slot args = NULL_SLOT -> c ∈ equip_slot_candidates args -> free_candidate args c ->
  free_candidate args (find_equip_slot args).
Proof.
  intros H0 Hin Hc. unfold find_equip_slot. rewrite H0, Z.eqb_refl. cbn [negb].
  destruct (_ =? NULL_SLOT) eqn:E.
  - apply Z.eqb_eq, candidates_first in E. rewrite Forall_forall in E. by destruct Hc; destruct (E c).
  - destruct (find_first _ _) as [c'|] eqn:E2.
    + by apply find_first_Some in E2 as [_ ?].
    + rewrite find_first_None, Forall_forall in E2. by destruct (E2 c).
Qed.

(** * Equipping *)
Lemma first_failure_Ok checks :
  Forall (fun c => c.2 <> InventoryResult.Ok) checks ->
  first_failure checks = InventoryResult.Ok -> Forall (fun c => c.1 = false) checks.
Proof.
  induction 1 as [|[b e] l He _ IH]; [constructor|]. cbn [first_failure].
  destruct b; [done|]. intros E. constructor; [done|by apply IH].
Qed.

(** An outcome that is not [Ok] names no destination. *)
Lemma can_equip_error same a p :
  equip_result (can_equip_item same a p) <> InventoryResult.Ok -> equip_dest (can_equip_item same a p) = 0.
Proof.
  unfold can_equip_item, can_equip_in_slot. repeat (case_match; try done).
Qed.

Definition off_hand_can_go (a : CanEquipItemArgs) : Prop :=
  worn_at (equipped_items a) EQUIPMENT_SLOT_OFFHAND = None
  \/ (not_loading a = true /\ offhand_can_unequip_result a = InventoryResult.Ok
      /\ offhand_can_store_result a = InventoryResult.Ok).

(** Where a two-handed weapon may go, and what becomes of the off hand. *)
Definition two_hand_fits (a : CanEquipItemArgs) (slot : Z) : Prop :=
  if can_titan_grip a then slot = EQUIPMENT_SLOT_MAINHAND \/ slot = EQUIPMENT_SLOT_OFFHAND
  else slot = EQUIPMENT_SLOT_MAINHAND /\ off_hand_can_go a.

Lemma two_hand_ok a proto eslot :
  two_hand_failure a proto eslot = InventoryResult.Ok ->
  inventory_type proto = InventoryType.Weapon2Hand -> two_hand_fits a eslot.
Proof.
  unfold two_hand_failure, two_hand_fits, off_hand_can_go. intros Hf Ht. rewrite Ht in Hf.
  rewrite bool_decide_false in Hf by (intros E; by destruct E).
  apply first_failure_Ok in Hf as [H1 [H2 _]%Forall_cons]%Forall_cons.
  2: repeat constructor; cbn; [done|by destruct (equip_swap a)].
  cbn in H1, H2. destruct (can_titan_grip a).
  { destruct (Z.eqb_spec eslot EQUIPMENT_SLOT_OFFHAND); [by right|]. left. apply negb_false_iff in H1. lia. }
  split.
  - destruct (eslot =? EQUIPMENT_SLOT_OFFHAND); [done|]. apply negb_false_iff in H1. lia.
  - apply andb_false_iff in H2 as [H2|H2].
    + left. apply bool_decide_eq_false in H2. by apply eq_None_not_Some.
    + right. apply orb_false_iff in H2 as [[H2 H4]%orb_false_iff H5].
      apply negb_false_iff in H2. apply bool_decide_eq_false in H4, H5.
      split; [done|]. split; by apply dec_stable.
Qed.

(** What the off hand asks for. *)
Definition off_hand_fits (a : CanEquipItemArgs) (proto : ItemStorageTemplate) : Prop :=
  is_two_hand_used a = false
  /\ match inventory_type proto with
     | InventoryType.Weapon => subclass_id proto <> ItemSubClassWeapon.Polearm /\ can_dual_wield a = true
     | InventoryType.WeaponOffhand => can_dual_wield a = true \/ proto_always_allow_dual_wield a = true
     | InventoryType.Weapon2Hand => can_dual_wield a = true /\ can_titan_grip a = true
     | _ => True
     end.

Lemma off_hand_ok a proto :
  offhand_failure a proto EQUIPMENT_SLOT_OFFHAND = InventoryResult.Ok -> off_hand_fits a proto.
Proof.
  unfold offhand_failure, off_hand_fits. rewrite Z.eqb_refl. cbn [negb].
  intros [H1 [H2 _]%Forall_cons]%first_failure_Ok%Forall_cons; [|repeat constructor; done]. cbn in H1, H2.
  split; [done|]. destruct (inventory_type proto); try done.
  - apply orb_false_iff in H1 as [H1 H3%negb_false_iff]. by apply Z.eqb_neq in H1.
  - apply orb_false_iff in H1 as [H1%negb_false_iff H3%negb_false_iff]. done.
  - apply andb_false_iff in H1 as [H1%negb_false_iff|H1%negb_false_iff]; auto.
Qed.

(** No other quiver or pouch is worn, but the one a swap takes off. *)
Definition lone_quiver (same : Item -> Item -> bool) (a : CanEquipItemArgs) (source : Item)
    (proto : ItemStorageTemplate) (slot : Z) : Prop :=
  class_id proto = ItemClass.Quiver ->
  forall r bag_proto, r ∈ equip_stored_items a ->
  stored_bag r = INVENTORY_SLOT_BAG_0 ->
  INVENTORY_SLOT_BAG_START <= stored_slot r < INVENTORY_SLOT_BAG_END ->
  same (stored_item r) source = false -> stored_template r = Some bag_proto ->
  class_id bag_proto = class_id proto -> equip_swap a = true /\ stored_slot r = slot.

Lemma quiver_ok same a source proto slot l r bag_proto :
  quiver_failure same a source proto slot l = InventoryResult.Ok -> r ∈ l ->
  stored_bag r = INVENTORY_SLOT_BAG_0 ->
  INVENTORY_SLOT_BAG_START <= stored_slot r < INVENTORY_SLOT_BAG_END ->
  same (stored_item r) source = false -> stored_template r = Some bag_proto ->
  class_id bag_proto = class_id proto -> equip_swap a = true /\ stored_slot r = slot.
Proof.
  intros Hq Hr Hb Hs Hsame Ht Hc. induction l as [|x l IH]; [by apply elem_of_nil in Hr|].
  cbn [quiver_failure] in Hq. apply elem_of_cons in Hr as [<-|Hr].
  - rewrite Hb, Hsame, Ht, Z.eqb_refl in Hq. cbn [negb orb] in Hq.
    replace (in_range _ _ _) with true in Hq by (unfold in_range; lia). cbn [negb orb] in Hq.
    rewrite (bool_decide_true _ Hc) in Hq. cbn [andb] in Hq.
    destruct (equip_swap a); cbn [negb orb] in Hq; [|by destruct (_ =? ItemSubClassQuiver.AmmoPouch)].
    destruct (Z.eqb_spec (stored_slot r) slot); [done|]. by destruct (_ =? ItemSubClassQuiver.AmmoPouch).
  - apply IH; [|done]. revert Hq. case_match; [done|]. case_match; [|done]. case_match; [|done]. by case_match.
Qed.

(** ** What the state of the player forbids *)
Record equip_state_allows (a : CanEquipItemArgs) (proto : ItemStorageTemplate) : Prop := {
  allows_stunned : is_stunned a = false;
  allows_charmed : is_charmed a = false;
  allows_combat : can_change_equip_state_in_combat proto = false ->
    is_in_combat a = false /\ is_in_progress_arena a = false;
  allows_timer : is_in_combat a = true ->
    class_id proto = ItemClass.Weapon \/ inventory_type proto = InventoryType.Relic ->
    weapon_change_timer_active a = false;
  allows_spell : current_generic_spell_allows_equip a <> Some false /\
    current_channeled_spell_allows_equip a <> Some false }.

Lemma equip_state_ok a proto :
  equip_state_failure a proto = InventoryResult.Ok -> not_loading a = true -> equip_state_allows a proto.
Proof.
  unfold equip_state_failure. intros H E. rewrite E in H.
  apply first_failure_Ok in H; [|repeat constructor; done]. repeat rewrite Forall_cons in H. cbn [fst] in H.
  destruct H as (H1 & H2 & H3 & H4 & H5 & H6 & _). split; [done|done| | |].
  - intros Ec. rewrite Ec in H3, H4. done.
  - intros Ec Hp. rewrite Ec in H5. cbn [andb] in H5. apply andb_false_iff in H5 as [H5|H5]; [|done].
    apply orb_false_iff in H5 as [H5 H7]. unfold is_weapon_class in H5.
    apply bool_decide_eq_false in H5, H7. by destruct Hp.
  - apply orb_false_iff in H6 as [H6%bool_decide_eq_false H7%bool_decide_eq_false]. done.
Qed.

(** The part from the slot on. *)
Lemma can_equip_in_slot_ok same a source proto eslot :
  equip_result (can_equip_in_slot same a source proto eslot) = InventoryResult.Ok ->
  can_equip_in_slot same a source proto eslot
  = mkEquipOutcome InventoryResult.Ok (make_item_pos INVENTORY_SLOT_BAG_0 eslot)
      (Some (equip_unique_ignore_slot same a source eslot))
  /\ eslot <> NULL_SLOT /\ equip_can_use_result a = InventoryResult.Ok
  /\ can_equip_unique_result a = InventoryResult.Ok
  /\ lone_quiver same a source proto eslot
  /\ offhand_failure a proto eslot = InventoryResult.Ok
  /\ two_hand_failure a proto eslot = InventoryResult.Ok.
Proof.
  unfold can_equip_in_slot. destruct (Z.eqb_spec eslot NULL_SLOT); [done|].
  destruct (bool_decide (equip_can_use_result a <> _)) eqn:E1; [by apply bool_decide_eq_true in E1|].
  apply bool_decide_eq_false, dec_stable in E1.
  destruct (negb (equip_swap a) && _); [done|].
  destruct (bool_decide (can_equip_unique_result a <> _)) eqn:E2; [by apply bool_decide_eq_true in E2|].
  apply bool_decide_eq_false, dec_stable in E2.
  destruct (bool_decide (_ <> InventoryResult.Ok)) eqn:E3; [by apply bool_decide_eq_true in E3|].
  apply bool_decide_eq_false, dec_stable in E3.
  destruct (offhand_failure a proto eslot); try done.
  destruct (two_hand_failure a proto eslot) eqn:E4; try done.
  intros _. split_and!; try done. intros Hc r bag_proto Hr. rewrite (bool_decide_true _ Hc) in E3.
  by eapply quiver_ok.
Qed.

(** C31: An item that may be equipped is the player's own and carries no loot, and
    the player may own that many more of it; its destination is a slot of the
    player that is a candidate for its type, the one asked for if any, and free
    unless items are swapped. A player who is not being loaded is neither
    stunned nor charmed, neither in combat nor in an arena match unless the item
    can be changed there, has no running weapon timer when changing a weapon or
    relic in combat, and casts and channels nothing that forbids it. The level
    fits a heirloom, what the caller found out about using the item and about
    unique items was [Ok], and no other quiver is worn; the off hand takes what
    the player can wield there, and a two-handed weapon goes where the grip
    allows, with an off hand that is empty or can be put away. Every refusal
    names no destination. *)
Theorem can_equip_sound same a p :
  (equip_result (can_equip_item same a p) <> InventoryResult.Ok ->
   equip_dest (can_equip_item same a p) = 0)
  /\ (equip_result (can_equip_item same a p) = InventoryResult.Ok ->
      exists source proto slot,
        equip_source_item a = Some source /\ equip_proto a = Some proto
        /\ can_equip_item same a p
           = mkEquipOutcome InventoryResult.Ok (make_item_pos INVENTORY_SLOT_BAG_0 slot)
               (Some (equip_unique_ignore_slot same a source slot))
        /\ slot <> NULL_SLOT /\ slot ∈ equip_slot_candidates (find_args a proto)
        /\ (equip_slot a <> NULL_SLOT -> slot = equip_slot a)
        /\ (equip_swap a = false -> worn_at (equipped_items a) slot = None)
        /\ loot_generated source = false
        /\ is_binded_not_with (player_guid p) proto (equip_bop_trade_allowed_for_player a) source = false
        /\ similar_result
             (can_take_more_similar_items (Some proto) (item_count source) (Some source)
                (item_count_by_entry (entry proto) false (Some source) (equip_stored_items a))
                (equip_limit_category a)
                (item_count_with_limit_category (item_limit_category proto) (Some source)
                   (equip_stored_items a))) = InventoryResult.Ok
        /\ (not_loading a = true -> equip_state_allows a proto)
        /\ heirloom_required_level_failed a = false
        /\ equip_can_use_result a = InventoryResult.Ok
        /\ can_equip_unique_result a = InventoryResult.Ok
        /\ lone_quiver same a source proto slot
        /\ (slot = EQUIPMENT_SLOT_OFFHAND -> off_hand_fits a proto)
        /\ (inventory_type proto = InventoryType.Weapon2Hand -> two_hand_fits a slot)).
Proof.
  split; [apply can_equip_error|]. unfold can_equip_item.
  destruct (equip_source_item a) as [source|], (equip_proto a) as [proto|] eqn:Ep;
    try (by destruct (equip_swap a)).
  destruct (loot_generated source) eqn:El; [done|]. destruct (is_binded_not_with _ _ _ _) eqn:Eb; [done|].
  cbv zeta. destruct (similar_result _) eqn:Es; try done.
  destruct (equip_state_failure a proto) eqn:Ef; try done.
  destruct (heirloom_required_level_failed a); [done|]. intros Hok.
  apply can_equip_in_slot_ok in Hok as (Hd & Hn & Hu & Hq & Hl & Ho & Ht).
  destruct (find_equip_slot_candidate (find_args a proto) Hn) as (Hin & Hask & Hfree).
  exists source, proto, (find_equip_slot (find_args a proto)).
  split_and!; try done.
  - by apply equip_state_ok.
  - intros E. rewrite E in Ho. by apply off_hand_ok.
  - by apply two_hand_ok.
Qed.

(** A two-handed sword put on in place of a one-handed one. *)
Definition sample_sword (counter : Z) : Item := (item_new 0) <| item_guid := mkGuid counter 1 |> <| item_entry := 300 |> <| item_count := 1 |>.
Definition sample_two_hander : ItemStorageTemplate :=
  mkTemplate 300 ItemClass.Weapon 0 InventoryType.Weapon2Hand ItemBondingType.None 0 1 0 0 0 0 false 0.
Definition sample_equip_args (is_stunned : bool) : CanEquipItemArgs :=
  mkEquipArgs NULL_SLOT (Some sample_two_hander) (Some (sample_sword 9)) false true true is_stunned false
    false false false None None false InventoryResult.Ok InventoryResult.Ok false false false false
    false None InventoryResult.Ok InventoryResult.Ok None
    [mkSlotRef INVENTORY_SLOT_BAG_0 EQUIPMENT_SLOT_MAINHAND (sample_sword 8)] [].

(** The sword is not put on in combat while the weapon timer runs. *)
Definition in_combat (timer : bool) (a : CanEquipItemArgs) : CanEquipItemArgs :=
  mkEquipArgs (equip_slot a) (equip_proto a) (equip_source_item a) (equip_bop_trade_allowed_for_player a)
    (equip_swap a) (not_loading a) (is_stunned a) (is_charmed a) true false timer None None false
    InventoryResult.Ok InventoryResult.Ok false false false false false None InventoryResult.Ok
    InventoryResult.Ok None (equipped_items a) [].

Lemma can_equip_sound_witness :
  let p := player_default (mkGuid 1 1) 2 2 in
  let same := fun _ _ => false in
  equip_result (can_equip_item same (sample_equip_args false) p) = InventoryResult.Ok
  /\ (exists slot, equip_dest (can_equip_item same (sample_equip_args false) p)
        = make_item_pos INVENTORY_SLOT_BAG_0 slot /\ slot = EQUIPMENT_SLOT_MAINHAND)
  /\ equip_result (can_equip_item same (sample_equip_args true) p) = InventoryResult.GenericStunned
  /\ equip_dest (can_equip_item same (sample_equip_args true) p) = 0
  /\ equip_result (can_equip_item same (in_combat true (sample_equip_args false)) p)
     = InventoryResult.ItemCooldown.
Proof.
  cbv zeta. split; [by vm_compute|]. split; [|split; [by vm_compute|split; [|by vm_compute]]].
  - destruct (proj2 (can_equip_sound (fun _ _ => false) (sample_equip_args false)
                (player_default (mkGuid 1 1) 2 2)) ltac:(by vm_compute))
      as (source & proto & slot & Hs & Hp & Hd & _ & _ & _ & _ & _ & _ & _ & _ & _ & _ & _ & _ & _ & H2).
    injection Hp as <-. exists slot. split; [by rewrite Hd|]. by apply H2.
  - apply (proj1 (can_equip_sound (fun _ _ => false) (sample_equip_args true)
             (player_default (mkGuid 1 1) 2 2))). by vm_compute.
Defined.
