(* ===== verification/BTree.v ===== *)
(** [BTreeMap]s keyed by an integer: a finite map with the order in which it is
    iterated, smallest key first. *)
From stdpp Require Import sorting.
From S2P Require Import Prelude.

Definition keys_in_order {V} (m : gmap Z V) : list Z := merge_sort Z.le (elements (dom m)).
Definition values_in_order {V} (m : gmap Z V) : list V := omap (m !!.) (keys_in_order m).
Definition entries_in_order {V} (m : gmap Z V) : list (Z * V) :=
  omap (fun k => v ← m !! k; Some (k, v)) (keys_in_order m).

Section Order.
Context {V : Type}.
Implicit Types m : gmap Z V.

Lemma elem_of_keys_in_order m k : k ∈ keys_in_order m <-> is_Some (m !! k).
Proof.
  unfold keys_in_order. rewrite merge_sort_Permutation, elem_of_elements. apply elem_of_dom.
Qed.

Lemma NoDup_keys_in_order m : NoDup (keys_in_order m).
Proof. unfold keys_in_order. rewrite merge_sort_Permutation. apply NoDup_elements. Qed.

Lemma elem_of_entries_in_order m k v : (k, v) ∈ entries_in_order m <-> m !! k = Some v.
Proof.
  unfold entries_in_order. rewrite list_elem_of_omap. split.
  - intros (k' & _ & E). destruct (m !! k') eqn:E'; by simplify_eq/=.
  - intros E. exists k. rewrite elem_of_keys_in_order, E. split; [eauto|done].
Qed.

Lemma entries_in_order_fst m : (entries_in_order m).*1 = keys_in_order m.
Proof.
  unfold entries_in_order.
  assert (H : forall k, k ∈ keys_in_order m -> is_Some (m !! k)) by (intros; by apply elem_of_keys_in_order).
  induction (keys_in_order m) as [|k l IH]; [done|]. cbn [omap list_omap].
  destruct (H k ltac:(by left)) as [v E]. rewrite E. cbn [mbind option_bind fmap list_fmap fst].
  f_equal. apply IH. intros. apply H. by right.
Qed.

Lemma values_in_order_snd m : values_in_order m = (entries_in_order m).*2.
Proof.
  unfold values_in_order, entries_in_order.
  induction (keys_in_order m) as [|k l IH]; [done|]. cbn [omap list_omap].
  destruct (m !! k); cbn [mbind option_bind fmap list_fmap snd]; by rewrite IH.
Qed.

Lemma elem_of_values_in_order m v : v ∈ values_in_order m <-> exists k, m !! k = Some v.
Proof.
  rewrite values_in_order_snd, list_elem_of_fmap. split.
  - intros ([k w] & -> & H). exists k. by apply elem_of_entries_in_order.
  - intros [k H]. exists (k, v). by rewrite elem_of_entries_in_order.
Qed.

Lemma list_to_map_entries m : list_to_map (entries_in_order m) = m.
Proof.
  apply map_eq. intros i. destruct (m !! i) as [v|] eqn:E.
  - apply elem_of_list_to_map_1; [rewrite entries_in_order_fst; apply NoDup_keys_in_order|].
    by apply elem_of_entries_in_order.
  - apply not_elem_of_list_to_map_1. rewrite entries_in_order_fst, elem_of_keys_in_order, E.
    by intros [].
Qed.
End Order.

(** A fold that alters each key once. *)
Lemma foldl_alter_lookup {V W} (f : W -> option V -> option V) (l : list (Z * W)) (m : gmap Z V) g :
  NoDup l.*1 ->
  foldl (fun m '(k, w) => partial_alter (f w) k m) m l !! g
  = match list_to_map (M := gmap Z W) l !! g with
    | Some w => f w (m !! g)
    | None => m !! g
    end.
Proof.
  revert m. induction l as [|[k w] l IH]; intros m Hnd; [done|].
  apply NoDup_cons in Hnd as [Hk Hnd]. cbn [foldl fmap list_fmap fst] in *.
  rewrite IH, list_to_map_cons by done. destruct (decide (g = k)) as [->|Hg].
  - rewrite not_elem_of_list_to_map_1 by done. rewrite lookup_insert_eq.
    apply lookup_partial_alter_eq.
  - rewrite lookup_insert_ne by done. by rewrite lookup_partial_alter_ne.
Qed.

(** A loop over the entries of a map that alters each key of another. *)
Lemma fold_entries_lookup {V W} (f : W -> option V -> option V) (saved : gmap Z W) (m : gmap Z V) g :
  foldl (fun m '(k, w) => partial_alter (f w) k m) m (entries_in_order saved) !! g
  = match saved !! g with Some w => f w (m !! g) | None => m !! g end.
Proof.
  rewrite foldl_alter_lookup by (rewrite entries_in_order_fst; apply NoDup_keys_in_order).
  by rewrite list_to_map_entries.
Qed.

(** * A [BTreeSet] of pairs *)
Definition pair_le (x y : Z * Z) : Prop := x.1 < y.1 \/ (x.1 = y.1 /\ x.2 <= y.2).
#[export] Instance pair_le_dec x y : Decision (pair_le x y).
Proof. unfold pair_le. apply _. Defined.

Definition pairs_in_order (s : gset (Z * Z)) : list (Z * Z) := merge_sort pair_le (elements s).

Lemma elem_of_pairs_in_order s p : p ∈ pairs_in_order s <-> p ∈ s.
Proof. unfold pairs_in_order. rewrite merge_sort_Permutation. apply elem_of_elements. Qed.

Lemma NoDup_pairs_in_order s : NoDup (pairs_in_order s).
Proof. unfold pairs_in_order. rewrite merge_sort_Permutation. apply NoDup_elements. Qed.
