(* ===== verification/EquipmentSets.v ===== *)
(** Equipment sets and transmog outfits: the sets a player owns
    (wow-entities/src/player/equipment_sets.rs, data in player/mod.rs) and the
    session operations that change them (wow-world
    session/player_items/equipment_sets.rs, appearance.rs). *)
From S2P Require Import Prelude BTree Guid.

(** * Data *)
Module EquipmentSetType.
Inductive t : Set := Equipment | Transmog.
#[global] Instance eq_dec : EqDecision t.
Proof. solve_decision. Defined.
End EquipmentSetType.

Definition set_type_as_i32 (t : EquipmentSetType.t) : Z :=
  match t with EquipmentSetType.Equipment => 0 | EquipmentSetType.Transmog => 1 end.

Definition handler_branch_from_i32 (value : Z) : option EquipmentSetType.t :=
  if set_type_as_i32 EquipmentSetType.Transmog <? value then None
  else if value =? set_type_as_i32 EquipmentSetType.Equipment
  then Some EquipmentSetType.Equipment else Some EquipmentSetType.Transmog.

Module EquipmentSetState.
Inductive t : Set := Unchanged | Changed | New | Deleted.
#[global] Instance eq_dec : EqDecision t.
Proof. solve_decision. Defined.
End EquipmentSetState.

Definition EQUIPMENT_SET_SLOTS : nat := 19.
Definition MAX_EQUIPMENT_SET_INDEX : Z := 20.

(** [PlayerEquipmentSetLikeCpp]. *)
Record EquipmentSet : Type := mkSet
  { raw_set_type : Z; set_type : EquipmentSetType.t; set_guid : Z; set_id : Z; ignore_mask : Z;
    pieces : list ObjectGuid; appearances : list Z; enchants : Z * Z;
    secondary_shoulder_appearance_id : Z; secondary_shoulder_slot : Z;
    secondary_weapon_appearance_id : Z; secondary_weapon_slot : Z; assigned_spec_index : Z;
    set_name : string; set_icon : string; set_state : EquipmentSetState.t }.

#[export] Instance eta_equipment_set : Eta EquipmentSet := fun s =>
  mkSet (raw_set_type s) (set_type s) (set_guid s) (set_id s) (ignore_mask s) (pieces s)
    (appearances s) (enchants s) (secondary_shoulder_appearance_id s) (secondary_shoulder_slot s)
    (secondary_weapon_appearance_id s) (secondary_weapon_slot s) (assigned_spec_index s)
    (set_name s) (set_icon s) (set_state s).

#[export] Instance equipment_set_eq_dec : EqDecision EquipmentSet.
Proof. solve_decision. Defined.

(** [PlayerEquipmentSetsLikeCpp]: a [BTreeMap] by set guid, and whether the
    stored rows were read. *)
Record EquipmentSets : Type := mkSets { sets : gmap Z EquipmentSet; loaded : bool }.

#[export] Instance eta_equipment_sets : Eta EquipmentSets := fun s => mkSets (sets s) (loaded s).

(** * Operations of the container *)
Definition set_state_of (guid : Z) (c : EquipmentSets) : option EquipmentSetState.t :=
  set_state <$> sets c !! guid.

Definition install_loaded_set (s : EquipmentSet) (c : EquipmentSets) : EquipmentSets :=
  c <| sets := <[set_guid s := s]> (sets c) |>.

Definition mark_loaded (c : EquipmentSets) : EquipmentSets := c <| loaded := true |>.

Definition clear (c : EquipmentSets) : EquipmentSets := mkSets ∅ false.

Definition create_set (s : EquipmentSet) (c : EquipmentSets) : EquipmentSets :=
  c <| sets := <[set_guid s := s <| set_state := EquipmentSetState.New |>]> (sets c) |>.

(** The rule shared by [update_set] and [assign_set_to_spec]: a set not yet
    saved stays new. *)
Definition edited_state (st : EquipmentSetState.t) : EquipmentSetState.t :=
  match st with
  | EquipmentSetState.New => EquipmentSetState.New
  | _ => EquipmentSetState.Changed
  end.

Definition update_set (s : EquipmentSet) (c : EquipmentSets) : EquipmentSets * bool :=
  match set_state_of (set_guid s) c with
  | None => (c, false)
  | Some existing_state =>
      (c <| sets := <[set_guid s := s <| set_state := edited_state existing_state |>]> (sets c) |>,
       true)
  end.

(** The set [assign_set_to_spec] changes: the first one, by guid. *)
Definition assignable (id : Z) (c : EquipmentSets) : option (Z * EquipmentSet) :=
  find_first (fun e => set_id e.2 = id /\ set_type e.2 = EquipmentSetType.Equipment)
    (entries_in_order (sets c)).

Definition assign_set_to_spec (id spec_index : Z) (c : EquipmentSets) : EquipmentSets * bool :=
  match assignable id c with
  | None => (c, false)
  | Some (guid, s) =>
      (c <| sets := <[guid := s <| assigned_spec_index := spec_index |>
                                <| set_state := edited_state (set_state s) |>]> (sets c) |>, true)
  end.

Definition delete_set (guid : Z) (c : EquipmentSets) : EquipmentSets * bool :=
  match sets c !! guid with
  | None => (c, false)
  | Some s =>
      (match set_state s with
       | EquipmentSetState.New => c <| sets := delete guid (sets c) |>
       | _ => c <| sets := <[guid := s <| set_state := EquipmentSetState.Deleted |>]> (sets c) |>
       end, true)
  end.

(** What a save leaves of a set. *)
Definition saved_set (s : EquipmentSet) : option EquipmentSet :=
  match set_state s with
  | EquipmentSetState.Deleted => None
  | _ => Some (s <| set_state := EquipmentSetState.Unchanged |>)
  end.

Definition mark_sets_saved (c : EquipmentSets) : EquipmentSets :=
  c <| sets := omap saved_set (sets c) |>.

(** The state of a set that differs from its saved row. *)
Definition reconciled_state (saved current : EquipmentSetState.t) : EquipmentSetState.t :=
  match saved, current with
  | EquipmentSetState.Deleted, EquipmentSetState.Deleted => EquipmentSetState.Deleted
  | EquipmentSetState.Deleted, _ => EquipmentSetState.New
  | _, EquipmentSetState.Deleted => EquipmentSetState.Deleted
  | _, _ => EquipmentSetState.Changed
  end.

(** One row of [acknowledge_saved_sets]: what becomes of the set. *)
Definition acknowledge_row (row : EquipmentSet) (current : option EquipmentSet) :
    option EquipmentSet :=
  match current with
  | Some s =>
      if bool_decide (s = row) then
        match set_state row with
        | EquipmentSetState.Deleted => None
        | _ => Some (s <| set_state := EquipmentSetState.Unchanged |>)
        end
      else Some (s <| set_state := reconciled_state (set_state row) (set_state s) |>)
  | None =>
      match set_state row with
      | EquipmentSetState.Deleted => None
      | _ => Some (row <| set_state := EquipmentSetState.Deleted |>)
      end
  end.

Definition acknowledge_saved_sets (saved : gmap Z EquipmentSet) (c : EquipmentSets) : EquipmentSets :=
  c <| sets := foldl (fun m '(guid, row) => partial_alter (acknowledge_row row) guid m)
                 (sets c) (entries_in_order saved) |>.

(** * Operations of the session *)
(** [EquipmentSetDataLikeCpp], the set in a packet. *)
Record EquipmentSetData : Type := mkSetData
  { data_type : Z; data_guid : Z; data_set_id : Z; data_ignore_mask : Z;
    data_pieces : list ObjectGuid; data_appearances : list Z; data_enchants : Z * Z;
    data_shoulder_appearance_id : Z; data_shoulder_slot : Z; data_weapon_appearance_id : Z;
    data_weapon_slot : Z; data_assigned_spec_index : Z; data_name : string; data_icon : string }.

#[export] Instance eta_set_data : Eta EquipmentSetData := fun d =>
  mkSetData (data_type d) (data_guid d) (data_set_id d) (data_ignore_mask d) (data_pieces d)
    (data_appearances d) (data_enchants d) (data_shoulder_appearance_id d) (data_shoulder_slot d)
    (data_weapon_appearance_id d) (data_weapon_slot d) (data_assigned_spec_index d) (data_name d)
    (data_icon d).

Definition represented_equipment_set_from_packet (d : EquipmentSetData) (guid : Z)
    (state : EquipmentSetState.t) : option EquipmentSet :=
  t ← handler_branch_from_i32 (data_type d);
  Some (mkSet (data_type d) t guid (data_set_id d) (data_ignore_mask d) (data_pieces d)
          (data_appearances d) (data_enchants d) (data_shoulder_appearance_id d)
          (data_shoulder_slot d) (data_weapon_appearance_id d) (data_weapon_slot d)
          (data_assigned_spec_index d) (data_name d) (data_icon d) state).

(** What the session sees of the player's worn items and of the stores. *)
Record SetCatalog : Type := mkCatalog
  { worn_guid : Z -> option ObjectGuid;
    appearance_in_store : option (Z -> bool);
    has_item_appearance : Z -> bool;
    enchantment_in_store : option (Z -> option (Z * bool)) }.

(** [u32::try_from(x : i32).ok()]. *)
Definition u32_try_from (x : Z) : option Z := if x <? 0 then None else Some x.

Definition zero_piece (i : nat) (d : EquipmentSetData) : EquipmentSetData :=
  d <| data_pieces := <[i := EMPTY]> (data_pieces d) |>.
Definition zero_appearance (i : nat) (d : EquipmentSetData) : EquipmentSetData :=
  d <| data_appearances := <[i := 0]> (data_appearances d) |>.
Definition ignore_slot (i : nat) (d : EquipmentSetData) : EquipmentSetData :=
  d <| data_ignore_mask := Z.lor (data_ignore_mask d) (Z.shiftl 1 (Z.of_nat i)) |>.

(** One slot of the set: [None] when the packet is refused. *)
Definition validate_slot (cat : SetCatalog) (t : EquipmentSetType.t) (i : nat)
    (d : EquipmentSetData) : option EquipmentSetData :=
  if negb (Z.land (data_ignore_mask d) (Z.shiftl 1 (Z.of_nat i)) =? 0)
  then Some (zero_appearance i (zero_piece i d))
  else
    match t with
    | EquipmentSetType.Equipment =>
        let d := zero_appearance i d in
        let item_guid := nth i (data_pieces d) EMPTY in
        if is_empty item_guid then Some (ignore_slot i d)
        else
          worn ← worn_guid cat (Z.of_nat i);
          if bool_decide (worn <> item_guid) then None else Some d
    | EquipmentSetType.Transmog =>
        let d := zero_piece i d in
        let appearance := nth i (data_appearances d) 0 in
        if appearance =? 0 then Some (ignore_slot i d)
        else
          appearance_id ← u32_try_from appearance;
          if match appearance_in_store cat with
             | Some known => negb (known appearance_id)
             | None => false
             end
          then None
          else if negb (has_item_appearance cat appearance_id) then None else Some d
    end.

Fixpoint validate_slots (cat : SetCatalog) (t : EquipmentSetType.t) (slots : list nat)
    (d : EquipmentSetData) : option EquipmentSetData :=
  match slots with
  | [] => Some d
  | i :: slots => d ← validate_slot cat t i d; validate_slots cat t slots d
  end.

(** An enchantment of an outfit must be one that may be transmogrified. *)
Definition enchant_allowed (cat : SetCatalog) (enchant_id : Z) : bool :=
  (enchant_id =? 0)
  || match u32_try_from enchant_id with
     | None => false
     | Some enchant_id =>
         match enchantment_in_store cat with
         | None => true
         | Some store =>
             match store enchant_id with
             | Some (item_visual, allow_transmog) => negb (item_visual =? 0) && allow_transmog
             | None => false
             end
         end
     end.

Definition validate_enchants (cat : SetCatalog) (t : EquipmentSetType.t) (d : EquipmentSetData) :
    option EquipmentSetData :=
  match t with
  | EquipmentSetType.Equipment => Some (d <| data_enchants := (0, 0) |>)
  | EquipmentSetType.Transmog =>
      if enchant_allowed cat (data_enchants d).1 && enchant_allowed cat (data_enchants d).2
      then Some d else None
  end.

(** The set as the session accepts it, before its guid is chosen. *)
Definition validate_set (cat : SetCatalog) (d : EquipmentSetData) :
    option (EquipmentSetType.t * EquipmentSetData) :=
  if MAX_EQUIPMENT_SET_INDEX <=? data_set_id d then None
  else
    t ← handler_branch_from_i32 (data_type d);
    d ← validate_slots cat t (seq 0 EQUIPMENT_SET_SLOTS) d;
    let d := d <| data_ignore_mask := Z.land (data_ignore_mask d) 0x7FFFF |> in
    d ← validate_enchants cat t d;
    Some (t, d).

(** [RepresentedEquipmentSetSavedLikeCpp]. *)
Record EquipmentSetSaved : Type := mkSetSaved
  { saved_guid : Z; saved_type : EquipmentSetType.t; saved_raw_type : Z; saved_set_id : Z;
    generated_new_guid : bool }.

(** The generator and the container afterwards, and the answer; [None] for a
    new guid is the abort of the generator. *)
Definition save_represented_equipment_set_with_generator (cat : SetCatalog) (generator : Z)
    (d : EquipmentSetData) (c : EquipmentSets) :
    option (Z * EquipmentSets * option EquipmentSetSaved) :=
  match validate_set cat d with
  | None => Some (generator, c, None)
  | Some (t, d) =>
      let existing_state := set_state_of (data_guid d) c in
      if negb (data_guid d =? 0) && bool_decide (existing_state = None)
      then Some (generator, c, None)
      else
        let generated_new_guid := data_guid d =? 0 in
        let '(generator, guid) :=
          if generated_new_guid then equipment_set_generate generator
          else (generator, Some (data_guid d)) in
        guid ← guid;
        match represented_equipment_set_from_packet d guid
                (default EquipmentSetState.New existing_state) with
        | None => Some (generator, c, None)
        | Some saved =>
            let '(c, stored) :=
              if generated_new_guid then (create_set saved c, true) else update_set saved c in
            Some (generator, c,
                  if stored
                  then Some (mkSetSaved guid t (raw_set_type saved) (set_id saved)
                               generated_new_guid)
                  else None)
        end
  end.

Definition assign_represented_equipment_set_to_spec (id spec_index : Z) (c : EquipmentSets) :
    EquipmentSets * bool :=
  if MAX_EQUIPMENT_SET_INDEX <=? id then (c, false) else assign_set_to_spec id (i32 spec_index) c.

Definition delete_represented_equipment_set (id : Z) (c : EquipmentSets) : EquipmentSets * bool :=
  delete_set id c.

(** The rows read at login. *)
Definition load_represented_equipment_set_row (guid id : Z) (name icon : string) (mask spec : Z)
    (items : list ObjectGuid) (c : EquipmentSets) : EquipmentSets * bool :=
  if MAX_EQUIPMENT_SET_INDEX <=? id then (c, false)
  else
    (install_loaded_set
       (mkSet (set_type_as_i32 EquipmentSetType.Equipment) EquipmentSetType.Equipment guid id mask
          items (repeat 0 EQUIPMENT_SET_SLOTS) (0, 0) 0 0 0 0 spec name icon
          EquipmentSetState.Unchanged) c, true).

Definition load_represented_transmog_outfit_row (guid id : Z) (name icon : string) (mask : Z)
    (looks : list Z) (illusions : Z * Z) (c : EquipmentSets) : EquipmentSets * bool :=
  if MAX_EQUIPMENT_SET_INDEX <=? id then (c, false)
  else
    (install_loaded_set
       (mkSet (set_type_as_i32 EquipmentSetType.Transmog) EquipmentSetType.Transmog guid id mask
          (repeat EMPTY EQUIPMENT_SET_SLOTS) looks illusions 0 0 0 0 (-1) name icon
          EquipmentSetState.Unchanged) c, true).

(** The sets the client is told of. *)
Definition represented_load_equipment_set_packet (c : EquipmentSets) : list EquipmentSetData :=
  (fun s => mkSetData (raw_set_type s) (set_guid s) (set_id s) (ignore_mask s) (pieces s)
              (appearances s) (enchants s) (secondary_shoulder_appearance_id s)
              (secondary_shoulder_slot s) (secondary_weapon_appearance_id s)
              (secondary_weapon_slot s) (assigned_spec_index s) (set_name s) (set_icon s))
  <$> filter (fun s => set_state s <> EquipmentSetState.Deleted) (values_in_order (sets c)).
