(* ===== verification/EquipmentSave.v ===== *)
(** How equipment sets are written and read: the rows of a save (wow-world
    lifecycle/persistence/projection.rs, wow-persistence player/save.rs), the
    statements they become (wow-database player/lifecycle_adapter) and what the
    statements do to the two tables, the rows read at login (world_entry.rs),
    and the system of a player, the tables and a save in flight. *)
From stdpp Require Import sorting.
From S2P Require Import Prelude BTree Guid EquipmentSets.

(** * The rows of a save *)
(** [PlayerEquipmentSetSaveLikeCpp]. *)
Record EquipmentSetSave : Type := mkSetSave
  { save_guid : Z; save_set_id : Z; save_type : EquipmentSetType.t;
    save_state : EquipmentSetState.t; save_name : string; save_icon : string; save_mask : Z;
    save_spec : Z; save_pieces : list Z; save_appearances : list Z; save_enchants : Z * Z }.

Definition equipment_set_save (s : EquipmentSet) : EquipmentSetSave :=
  mkSetSave (set_guid s) (set_id s) (set_type s) (set_state s) (set_name s) (set_icon s)
    (ignore_mask s) (assigned_spec_index s) ((fun g => u64 (counter g)) <$> pieces s)
    (appearances s) (enchants s).

(** Nothing is saved before the sets were read. *)
Definition equipment_sets_request (c : EquipmentSets) : option (list EquipmentSetSave) :=
  if loaded c then Some (equipment_set_save <$> values_in_order (sets c)) else None.

(** [committed_groups_like_cpp]: whether the group was written at all. *)
Definition equipment_group_committed (rows : option (list EquipmentSetSave)) : bool :=
  match rows with
  | Some rows =>
      existsb (fun r => bool_decide (save_state r <> EquipmentSetState.Unchanged)) rows
  | None => false
  end.

(** * The statements *)
Inductive EquipmentStep : Type :=
| InsertEquipmentSet (player_guid : Z) (row : EquipmentSetSave)
| UpdateEquipmentSet (player_guid : Z) (row : EquipmentSetSave)
| DeleteEquipmentSet (set_guid : Z)
| InsertTransmogOutfit (player_guid : Z) (row : EquipmentSetSave)
| UpdateTransmogOutfit (player_guid : Z) (row : EquipmentSetSave)
| DeleteTransmogOutfit (set_guid : Z).

Definition equipment_step (player : Z) (row : EquipmentSetSave) : option EquipmentStep :=
  match save_state row, save_type row with
  | EquipmentSetState.Unchanged, _ => None
  | EquipmentSetState.Deleted, EquipmentSetType.Equipment => Some (DeleteEquipmentSet (save_guid row))
  | EquipmentSetState.Deleted, EquipmentSetType.Transmog => Some (DeleteTransmogOutfit (save_guid row))
  | EquipmentSetState.New, EquipmentSetType.Equipment => Some (InsertEquipmentSet player row)
  | EquipmentSetState.Changed, EquipmentSetType.Equipment => Some (UpdateEquipmentSet player row)
  | EquipmentSetState.New, EquipmentSetType.Transmog => Some (InsertTransmogOutfit player row)
  | EquipmentSetState.Changed, EquipmentSetType.Transmog => Some (UpdateTransmogOutfit player row)
  end.

Definition equipment_steps (player : Z) (rows : option (list EquipmentSetSave)) :
    list EquipmentStep :=
  match rows with Some rows => omap (equipment_step player) rows | None => [] end.

(** * The tables *)
(** [character_equipmentsets] and [character_transmog_outfits]; no key is
    assumed of them.  The 19 item and appearance columns are lists. *)
Record EquipmentSetRow : Type := mkEquipmentRow
  { equipment_player : Z; equipment_setguid : Z; equipment_setindex : Z; equipment_name : string;
    equipment_icon : string; equipment_mask : Z; equipment_spec : Z; equipment_items : list Z }.
Record TransmogRow : Type := mkTransmogRow
  { transmog_player : Z; transmog_setguid : Z; transmog_setindex : Z; transmog_name : string;
    transmog_icon : string; transmog_mask : Z; transmog_appearances : list Z;
    transmog_enchants : Z * Z }.

Record EquipmentDb : Type := mkEquipmentDb
  { equipment_table : list EquipmentSetRow; transmog_table : list TransmogRow }.

(** The columns the statements bind. *)
Definition equipment_row (player : Z) (r : EquipmentSetSave) : EquipmentSetRow :=
  mkEquipmentRow player (save_guid r) (save_set_id r) (save_name r) (save_icon r) (save_mask r)
    (save_spec r) (save_pieces r).
Definition transmog_row (player : Z) (r : EquipmentSetSave) : TransmogRow :=
  mkTransmogRow player (save_guid r) (save_set_id r) (save_name r) (save_icon r) (save_mask r)
    (save_appearances r) (save_enchants r).

(** [WHERE guid=? AND setguid=? AND setindex=?]. *)
Definition equipment_matches (player : Z) (r : EquipmentSetSave) (row : EquipmentSetRow) : bool :=
  (equipment_player row =? player) && (equipment_setguid row =? save_guid r)
  && (equipment_setindex row =? save_set_id r).
Definition transmog_matches (player : Z) (r : EquipmentSetSave) (row : TransmogRow) : bool :=
  (transmog_player row =? player) && (transmog_setguid row =? save_guid r)
  && (transmog_setindex row =? save_set_id r).

Definition run_equipment_step (step : EquipmentStep) (db : EquipmentDb) : EquipmentDb :=
  match step with
  | InsertEquipmentSet player r =>
      mkEquipmentDb (equipment_table db ++ [equipment_row player r]) (transmog_table db)
  | UpdateEquipmentSet player r =>
      mkEquipmentDb
        (map (fun row => if equipment_matches player r row then equipment_row player r else row)
           (equipment_table db)) (transmog_table db)
  | DeleteEquipmentSet g =>
      mkEquipmentDb (filter (fun row => equipment_setguid row <> g) (equipment_table db))
        (transmog_table db)
  | InsertTransmogOutfit player r =>
      mkEquipmentDb (equipment_table db) (transmog_table db ++ [transmog_row player r])
  | UpdateTransmogOutfit player r =>
      mkEquipmentDb (equipment_table db)
        (map (fun row => if transmog_matches player r row then transmog_row player r else row)
           (transmog_table db))
  | DeleteTransmogOutfit g =>
      mkEquipmentDb (equipment_table db)
        (filter (fun row => transmog_setguid row <> g) (transmog_table db))
  end.

Definition run_equipment_steps (steps : list EquipmentStep) (db : EquipmentDb) : EquipmentDb :=
  foldl (fun db step => run_equipment_step step db) db steps.

(** How many rows a statement changes, an inserted one counted. *)
Definition affected_rows (step : EquipmentStep) (db : EquipmentDb) : nat :=
  match step with
  | InsertEquipmentSet _ _ | InsertTransmogOutfit _ _ => 1
  | UpdateEquipmentSet player r =>
      length (filter (fun row => equipment_matches player r row = true) (equipment_table db))
  | DeleteEquipmentSet g => length (filter (fun row => equipment_setguid row = g) (equipment_table db))
  | UpdateTransmogOutfit player r =>
      length (filter (fun row => transmog_matches player r row = true) (transmog_table db))
  | DeleteTransmogOutfit g =>
      length (filter (fun row => transmog_setguid row = g) (transmog_table db))
  end.

(** * Reading the sets at login *)
Definition equipment_setindex_le (r1 r2 : EquipmentSetRow) : Prop :=
  equipment_setindex r1 <= equipment_setindex r2.
Definition transmog_setindex_le (r1 r2 : TransmogRow) : Prop :=
  transmog_setindex r1 <= transmog_setindex r2.
#[export] Instance equipment_setindex_le_dec : RelDecision equipment_setindex_le.
Proof. unfold RelDecision, equipment_setindex_le. intros r1 r2. apply Z_le_dec. Defined.
#[export] Instance transmog_setindex_le_dec : RelDecision transmog_setindex_le.
Proof. unfold RelDecision, transmog_setindex_le. intros r1 r2. apply Z_le_dec. Defined.

(** A low guid of 0 is an empty slot; [item_low_guid as i64]. *)
Definition loaded_piece (realm low : Z) : ObjectGuid :=
  if low =? 0 then EMPTY else create_item realm (i64 low).

(** [try_read::<u8>(..).unwrap_or(0)]. *)
Definition read_u8 (x : Z) : Z := if (0 <=? x) && (x <=? u8_max) then x else 0.

Definition load_equipment_row (realm : Z) (c : EquipmentSets) (row : EquipmentSetRow) :
    EquipmentSets :=
  (load_represented_equipment_set_row (equipment_setguid row) (read_u8 (equipment_setindex row))
     (equipment_name row) (equipment_icon row) (equipment_mask row) (equipment_spec row)
     (loaded_piece realm <$> equipment_items row) c).1.

Definition load_transmog_row (c : EquipmentSets) (row : TransmogRow) : EquipmentSets :=
  (load_represented_transmog_outfit_row (transmog_setguid row) (read_u8 (transmog_setindex row))
     (transmog_name row) (transmog_icon row) (transmog_mask row) (transmog_appearances row)
     (transmog_enchants row) c).1.

(** [SELECT .. WHERE guid = ? ORDER BY setindex]. *)
Definition select_equipment_rows (player : Z) (db : EquipmentDb) : list EquipmentSetRow :=
  merge_sort equipment_setindex_le
    (filter (fun row => equipment_player row = player) (equipment_table db)).
Definition select_transmog_rows (player : Z) (db : EquipmentDb) : list TransmogRow :=
  merge_sort transmog_setindex_le
    (filter (fun row => transmog_player row = player) (transmog_table db)).

(** Both queries answered. *)
Definition load_equipment_sets (realm player : Z) (db : EquipmentDb) (c : EquipmentSets) :
    EquipmentSets :=
  mark_loaded
    (foldl load_transmog_row
       (foldl (load_equipment_row realm) (clear c) (select_equipment_rows player db))
       (select_transmog_rows player db)).

(** * A player's sets, the tables and a save in flight *)
Inductive SaveFlight : Type :=
| Grounded
| Captured (snapshot : EquipmentSets)
| CommittedSave (snapshot : EquipmentSets).

(** [generator] is shared by all players. *)
Record SaveSystem : Type := mkSystem
  { owned : EquipmentSets; tables : EquipmentDb; generator : Z; flight : SaveFlight }.

#[export] Instance eta_system : Eta SaveSystem := fun s =>
  mkSystem (owned s) (tables s) (generator s) (flight s).

(** [prepare_player_save] takes the rows and the receipt of one owner read. *)
Definition capture (s : SaveSystem) : SaveSystem := s <| flight := Captured (owned s) |>.

(** The committed transaction of a captured save. *)
Definition commit_equipment (player : Z) (snapshot : EquipmentSets) (db : EquipmentDb) : EquipmentDb :=
  run_equipment_steps (equipment_steps player (equipment_sets_request snapshot)) db.

(** [SavedPlayerReceipt::acknowledge] and
    [acknowledge_saved_projection_like_cpp], for the group of the sets. *)
Definition acknowledge_equipment (snapshot : EquipmentSets) (c : EquipmentSets) : EquipmentSets :=
  if equipment_group_committed (equipment_sets_request snapshot) && loaded c
  then acknowledge_saved_sets (sets snapshot) c else c.
