(* ===== verification/EquipmentSaveSystem.v ===== *)
(** The tables of equipment sets seen from one set guid, what a commit does there,
    and what the state of a set says of its rows: how edits, commits and
    acknowledgements keep that true. *)
From stdpp Require Import sorting.
From S2P Require Import Prelude BTree Guid EquipmentSets EquipmentSave.

Lemma acknowledge_lookup (saved : gmap Z EquipmentSet) c g :
  sets (acknowledge_saved_sets saved c) !! g
  = match saved !! g with Some row => acknowledge_row row (sets c !! g) | None => sets c !! g end.
Proof. unfold acknowledge_saved_sets. ssimpl_goal. apply (fold_entries_lookup acknowledge_row). Qed.

(** * The tables at one set guid *)
Definition at_guid (g : Z) (db : EquipmentDb) : EquipmentDb :=
  mkEquipmentDb (filter (fun r => equipment_setguid r = g) (equipment_table db))
    (filter (fun r => transmog_setguid r = g) (transmog_table db)).

Definition step_guid (step : EquipmentStep) : Z :=
  match step with
  | InsertEquipmentSet _ r | UpdateEquipmentSet _ r | InsertTransmogOutfit _ r
  | UpdateTransmogOutfit _ r => save_guid r
  | DeleteEquipmentSet g | DeleteTransmogOutfit g => g
  end.

Section Rows.
Context {R : Type} (key : R -> Z).
Implicit Types l : list R.

Lemma filter_map_key (f : R -> R) g l :
  (forall r, key (f r) = key r) ->
  filter (fun r => key r = g) (map f l) = map f (filter (fun r => key r = g) l).
Proof.
  intros Hf. induction l as [|r l IH]; [done|]. cbn [map]. rewrite !filter_cons, Hf, IH.
  by case_decide.
Qed.

Lemma map_other_key (f : R -> R) g l :
  (forall r, key r = g -> f r = r) ->
  map f (filter (fun r => key r = g) l) = filter (fun r => key r = g) l.
Proof. intros Hf. apply map_id_on. intros r [E _]%list_elem_of_filter. by apply Hf. Qed.

Lemma filter_comm (P Q : R -> Prop) `{!forall x, Decision (P x)} `{!forall x, Decision (Q x)} (l : list R) :
  filter P (filter Q l) = filter Q (filter P l).
Proof.
  induction l as [|r l IH]; [done|]. rewrite !filter_cons.
  do 2 case_decide; rewrite ?filter_cons; repeat case_decide; try done; by f_equal.
Qed.

Lemma filter_ne_other g g' l :
  g <> g' -> filter (fun r => key r <> g') (filter (fun r => key r = g) l) = filter (fun r => key r = g) l.
Proof.
  intros Hg. apply filter_all, Forall_forall. intros r [E _]%list_elem_of_filter. congruence.
Qed.
End Rows.

Lemma equipment_update_key p r row :
  equipment_setguid (if equipment_matches p r row then equipment_row p r else row)
  = equipment_setguid row.
Proof.
  destruct (equipment_matches p r row) eqn:E; [|done]. unfold equipment_matches in E.
  apply andb_true_iff in E as [[_ E]%andb_true_iff _]. cbn. lia.
Qed.

Lemma transmog_update_key p r row :
  transmog_setguid (if transmog_matches p r row then transmog_row p r else row)
  = transmog_setguid row.
Proof.
  destruct (transmog_matches p r row) eqn:E; [|done]. unfold transmog_matches in E.
  apply andb_true_iff in E as [[_ E]%andb_true_iff _]. cbn. lia.
Qed.

Lemma equipment_matches_other p r row g :
  equipment_setguid row = g -> save_guid r <> g -> equipment_matches p r row = false.
Proof. intros <- ?. unfold equipment_matches. apply andb_false_iff. left. apply andb_false_iff. lia. Qed.

Lemma transmog_matches_other p r row g :
  transmog_setguid row = g -> save_guid r <> g -> transmog_matches p r row = false.
Proof. intros <- ?. unfold transmog_matches. apply andb_false_iff. left. apply andb_false_iff. lia. Qed.

(** A statement is about the rows of one guid. *)
Lemma run_step_at g step db :
  at_guid g (run_equipment_step step db)
  = if decide (step_guid step = g) then run_equipment_step step (at_guid g db) else at_guid g db.
Proof.
  destruct step as [p r|p r|g'|p r|p r|g']; unfold at_guid; cbn [run_equipment_step step_guid equipment_table transmog_table].
  - rewrite filter_app, filter_cons, filter_nil. cbn. case_decide; [done|by rewrite app_nil_r].
  - rewrite (filter_map_key equipment_setguid) by (intros; apply equipment_update_key).
    case_decide as E; [done|]. f_equal. apply (map_other_key equipment_setguid). intros row Hrow.
    by rewrite (equipment_matches_other _ _ _ _ Hrow E).
  - rewrite filter_comm. case_decide as E; [done|]. by rewrite (filter_ne_other equipment_setguid) by congruence.
  - rewrite filter_app, filter_cons, filter_nil. cbn. case_decide; [done|by rewrite app_nil_r].
  - rewrite (filter_map_key transmog_setguid) by (intros; apply transmog_update_key).
    case_decide as E; [done|]. f_equal. apply (map_other_key transmog_setguid). intros row Hrow.
    by rewrite (transmog_matches_other _ _ _ _ Hrow E).
  - rewrite filter_comm. case_decide as E; [done|]. by rewrite (filter_ne_other transmog_setguid) by congruence.
Qed.

Lemma run_steps_other g steps db :
  Forall (fun step => step_guid step <> g) steps ->
  at_guid g (run_equipment_steps steps db) = at_guid g db.
Proof.
  unfold run_equipment_steps. intros H. revert db. induction H as [|step steps Hs _ IH]; intros db; [done|].
  cbn [foldl]. by rewrite IH, run_step_at, decide_False.
Qed.

(** * What a commit does at one guid *)
(** Every set is stored under its guid. *)
Definition keyed (c : EquipmentSets) : Prop := map_Forall (fun g s => set_guid s = g) (sets c).

Definition set_step (p : Z) (s : EquipmentSet) : option EquipmentStep :=
  equipment_step p (equipment_set_save s).

Lemma set_step_guid p s step : set_step p s = Some step -> step_guid step = set_guid s.
Proof. unfold set_step, equipment_step. cbn. by destruct (set_state s), (set_type s); intros [= <-]. Qed.

Definition run_set (p : Z) (s : EquipmentSet) (db : EquipmentDb) : EquipmentDb :=
  match set_step p s with Some step => run_equipment_step step db | None => db end.

Lemma commit_steps p c :
  loaded c = true ->
  equipment_steps p (equipment_sets_request c)
  = omap (set_step p) (values_in_order (sets c)).
Proof.
  intros Hl. unfold equipment_sets_request, set_step. rewrite Hl. cbn [equipment_steps].
  induction (values_in_order (sets c)) as [|s l IH]; [done|]. cbn. by rewrite IH.
Qed.

Lemma run_sets_at p g l db :
  NoDup (set_guid <$> l) ->
  at_guid g (run_equipment_steps (omap (set_step p) l) db)
  = match find_first (fun s => set_guid s = g) l with
    | Some s => run_set p s (at_guid g db)
    | None => at_guid g db
    end.
Proof.
  revert db. induction l as [|s l IH]; intros db; [done|].
  cbn [fmap list_fmap]. intros [Hs Hnd]%NoDup_cons. cbn [omap list_omap].
  unfold find_first. cbn [list_find]. case_decide as E.
  - cbn [fmap option_fmap option_map snd].
    assert (Hl : Forall (fun step => step_guid step <> g) (omap (set_step p) l)).
    { apply Forall_forall. intros step (s' & Hs' & E')%list_elem_of_omap.
      apply set_step_guid in E'. rewrite E'. intros E2. apply Hs. rewrite E, <- E2.
      apply list_elem_of_fmap. eauto. }
    unfold run_set. destruct (set_step p s) as [step|] eqn:E'.
    + unfold run_equipment_steps. cbn [foldl]. change (foldl _ ?db ?l) with (run_equipment_steps l db).
      rewrite run_steps_other, run_step_at by done. apply set_step_guid in E'. by rewrite decide_True by congruence.
    + by apply run_steps_other.
  - assert (Hrest : forall db, at_guid g (run_equipment_steps (omap (set_step p) l) db)
        = match snd <$> (prod_map S id <$> list_find (fun s => set_guid s = g) l) with
          | Some s => run_set p s (at_guid g db) | None => at_guid g db end).
    { intros db'. rewrite IH by done. unfold find_first. by destruct (list_find _ l) as [[]|]. }
    destruct (set_step p s) as [step|] eqn:E'; [|apply Hrest].
    unfold run_equipment_steps. cbn [foldl]. change (foldl _ ?db ?l) with (run_equipment_steps l db).
    apply set_step_guid in E'.
    by rewrite Hrest, run_step_at, decide_False by congruence.
Qed.

Lemma keyed_values c :
  keyed c -> set_guid <$> values_in_order (sets c) = keys_in_order (sets c).
Proof.
  intros Hk. rewrite <- entries_in_order_fst, values_in_order_snd, <- list_fmap_compose.
  apply list_fmap_ext. intros i [k s] E. cbn. apply list_elem_of_lookup_2, elem_of_entries_in_order in E.
  by apply Hk.
Qed.

Lemma keyed_find c g :
  keyed c -> find_first (fun s => set_guid s = g) (values_in_order (sets c)) = sets c !! g.
Proof.
  intros Hk. destruct (find_first _ _) as [s|] eqn:E.
  - apply find_first_Some in E as [H1 <-]. apply elem_of_values_in_order in H1 as [k H1].
    pose proof (Hk _ _ H1). cbn in *. congruence.
  - rewrite find_first_None, Forall_forall in E. destruct (sets c !! g) as [s|] eqn:E'; [|done].
    destruct (E s); [|by apply Hk]. apply elem_of_values_in_order. eauto.
Qed.

Lemma commit_at p c db g :
  keyed c -> loaded c = true ->
  at_guid g (commit_equipment p c db)
  = match sets c !! g with Some s => run_set p s (at_guid g db) | None => at_guid g db end.
Proof.
  intros Hk Hl. unfold commit_equipment. rewrite commit_steps by done.
  rewrite run_sets_at, keyed_find; [done..|]. rewrite keyed_values by done. apply NoDup_keys_in_order.
Qed.

Import EquipmentSetState.

(** * What a state says of the rows *)
(** Type and index: the table and the key of the set's row. *)
Definition same_key (s s' : EquipmentSet) : Prop :=
  set_type s = set_type s' /\ set_id s = set_id s'.

Section Player.
Variable p : Z.

Definition foreign (db : EquipmentDb) : Prop :=
  Forall (fun r => equipment_player r <> p) (equipment_table db)
  /\ Forall (fun r => transmog_player r <> p) (transmog_table db).

(** The tables hold one row for the set, where an [UPDATE] finds it. *)
Definition stored_as (s : EquipmentSet) (exact : Prop) (db : EquipmentDb) : Prop :=
  match set_type s with
  | EquipmentSetType.Equipment => exists r,
      db = mkEquipmentDb [r] [] /\ equipment_player r = p /\ equipment_setguid r = set_guid s
      /\ equipment_setindex r = set_id s /\ (exact -> r = equipment_row p (equipment_set_save s))
  | EquipmentSetType.Transmog => exists r,
      db = mkEquipmentDb [] [r] /\ transmog_player r = p /\ transmog_setguid r = set_guid s
      /\ transmog_setindex r = set_id s /\ (exact -> r = transmog_row p (equipment_set_save s))
  end.

(** [db]: the rows of one set guid; [o]: what the player holds there. *)
Definition tracks_at (db : EquipmentDb) (o : option EquipmentSet) : Prop :=
  match o with
  | None => foreign db
  | Some s =>
      match set_state s with
      | New => db = mkEquipmentDb [] []
      | Unchanged => stored_as s True db
      | Changed | Deleted => stored_as s False db
      end
  end.

Definition tracks (db : EquipmentDb) (m : gmap Z EquipmentSet) : Prop :=
  forall g, tracks_at (at_guid g db) (m !! g).

(** What the player can hold once [x] was captured. *)
Definition since (x : EquipmentSet) (o : option EquipmentSet) : Prop :=
  match set_state x with
  | Deleted => o = Some x
  | New => o = None \/ exists y, o = Some y /\ set_state y = New /\ same_key x y /\ set_guid x = set_guid y
  | Unchanged | Changed => exists y, o = Some y /\ same_key x y /\ set_guid x = set_guid y
      /\ (y = x \/ set_state y = Changed \/ set_state y = Deleted)
  end.

(** One change of what the player holds at a guid; a set's key stays, and a
    deleted set is not edited. *)
Inductive edit_at : option EquipmentSet -> option EquipmentSet -> Prop :=
| edit_same o : edit_at o o
| edit_update y y' :
    set_state y <> Deleted -> same_key y y' -> set_guid y = set_guid y' ->
    set_state y' = edited_state (set_state y) -> edit_at (Some y) (Some y')
| edit_drop y : set_state y = New -> edit_at (Some y) None
| edit_delete y : set_state y <> New -> edit_at (Some y) (Some (y <| set_state := Deleted |>)).

Lemma stored_weaken s s' exact db :
  same_key s s' -> set_guid s = set_guid s' -> stored_as s exact db -> stored_as s' False db.
Proof.
  intros [Ht Hi] Hg. unfold stored_as. rewrite <- Ht, <- Hi, <- Hg.
  destruct (set_type s); intros (r & ? & ? & ? & ? & _); by exists r.
Qed.

Lemma tracks_stored s db :
  set_state s <> New -> tracks_at db (Some s) -> stored_as s False db.
Proof.
  unfold tracks_at. destruct (set_state s); try done; intros _; by apply stored_weaken.
Qed.

Lemma stored_tracks s db :
  set_state s = Changed \/ set_state s = Deleted -> stored_as s False db -> tracks_at db (Some s).
Proof. unfold tracks_at. by intros [->| ->]. Qed.

Lemma foreign_nil : foreign (mkEquipmentDb [] []).
Proof. split; constructor. Qed.

#[local] Hint Resolve foreign_nil stored_tracks tracks_stored stored_weaken : save.

(** ** Edits *)
Lemma edit_tracks db o o' : edit_at o o' -> tracks_at db o -> tracks_at db o'.
Proof.
  intros [o0|y y' Hd Hk Hg Hst|y Hn|y Hn] Ht; [done| | |].
  - destruct (decide (set_state y = New)) as [E|E].
    + unfold tracks_at in *. rewrite E in *. rewrite Hst. done.
    + apply stored_tracks; [left; rewrite Hst; by destruct (set_state y)|].
      eapply stored_weaken; [done|done|]. by apply tracks_stored.
  - unfold tracks_at in Ht |- *. rewrite Hn in Ht. subst. apply foreign_nil.
  - apply stored_tracks; [by right|]. by apply (tracks_stored y).
Qed.

Lemma same_key_trans a b c : same_key a b -> same_key b c -> same_key a c.
Proof. unfold same_key. naive_solver congruence. Qed.

Lemma edit_since x o o' : edit_at o o' -> since x o -> since x o'.
Proof.
  intros He Hs. unfold since in *. destruct (set_state x) eqn:Ex.
  1,2: destruct Hs as (y & -> & Hk & Hg & Hy); inversion He as [|? y' Hd Hk' Hg' Hst|? Hn|? Hn]; subst.
  - by exists y.
  - exists y'. split; [done|]. split; [by eapply same_key_trans|]. split; [congruence|].
    right; left. rewrite Hst. destruct Hy as [->|[->| ->]]; by rewrite ?Ex.
  - destruct Hy as [->|[?|?]]; congruence.
  - eexists. split; [done|]. split; [done|]. split; [done|]. right; by right.
  - by exists y.
  - exists y'. split; [done|]. split; [by eapply same_key_trans|]. split; [congruence|].
    right; left. rewrite Hst. destruct Hy as [->|[->| ->]]; by rewrite ?Ex.
  - destruct Hy as [->|[?|?]]; congruence.
  - eexists. split; [done|]. split; [done|]. split; [done|]. right; by right.
  - destruct Hs as [->|(y & -> & Hn & Hk & Hg)]; [inversion He; by left|].
    inversion He as [|? y' Hd Hk' Hg' Hst|? Hn'|? Hn']; subst; [right; by exists y| |by left|done].
    right. exists y'. rewrite Hst, Hn. split; [done|]. split; [done|].
    split; [by eapply same_key_trans|congruence].
  - subst. inversion He as [|? ? Hd|? Hn|? Hn]; subst; [done|done|congruence|].
    f_equal. destruct x. cbn in Ex. by subst.
Qed.

Lemma since_refl x : since x (Some x).
Proof.
  unfold since, same_key. destruct (set_state x) eqn:E.
  1,2: exists x; split; [done|]; split; [done|]; split; [done|]; by left.
  - right. exists x. done.
  - done.
Qed.

Lemma since_tracks db x o : tracks_at db (Some x) -> since x o -> tracks_at db o.
Proof.
  intros Ht Hs. unfold since in Hs. destruct (set_state x) eqn:Ex.
  1,2: destruct Hs as (y & -> & Hk & Hg & [->|Hy]); [done|].
  1,2: apply stored_tracks; [done|]; eapply stored_weaken; [done|done|];
    apply tracks_stored; [congruence|done].
  - unfold tracks_at in Ht. rewrite Ex in Ht. subst db.
    destruct Hs as [->|(y & -> & Hn & _)]; [apply foreign_nil|]. cbn. by rewrite Hn.
  - by subst.
Qed.

(** ** The commit *)
Lemma run_set_tracks s db :
  tracks_at db (Some s) -> tracks_at (run_set p s db) (saved_set s).
Proof.
  unfold run_set, set_step, equipment_step, saved_set, tracks_at. cbn.
  destruct (set_state s); unfold stored_as; cbn.
  - done.
  - destruct (set_type s); intros (r & -> & Hp & Hg & Hi & _); cbn.
    + unfold equipment_matches. rewrite Hp, Hg, Hi. cbn. rewrite !Z.eqb_refl. cbn. by eexists.
    + unfold transmog_matches. rewrite Hp, Hg, Hi. cbn. rewrite !Z.eqb_refl. cbn. by eexists.
  - intros ->. destruct (set_type s); cbn; by eexists.
  - destruct (set_type s); intros (r & -> & Hp & Hg & Hi & _);
      cbn [run_equipment_step equipment_table transmog_table];
      rewrite filter_cons, decide_False by (intros E; by apply E); apply foreign_nil.
Qed.

(** A statement of a tracked set has exactly one row to work on, and an
    [INSERT] none to collide with. *)
Definition is_insert (step : EquipmentStep) : bool :=
  match step with InsertEquipmentSet _ _ | InsertTransmogOutfit _ _ => true | _ => false end.

Lemma set_step_affects s step db :
  tracks_at db (Some s) -> set_step p s = Some step ->
  affected_rows step db = 1%nat /\ (is_insert step = true -> db = mkEquipmentDb [] []).
Proof.
  unfold set_step, equipment_step, tracks_at. cbn.
  destruct (set_state s); [done|..]; unfold stored_as; destruct (set_type s).
  1,2: intros (r & -> & Hp & Hg & Hi & _) [= <-]; split; [|done];
    cbn [affected_rows equipment_table transmog_table];
    rewrite filter_cons, decide_True; [done|]; unfold equipment_matches, transmog_matches; cbn;
    by rewrite Hp, Hg, Hi, !Z.eqb_refl.
  1,2: intros -> [= <-]; by cbn.
  1,2: intros (r & -> & Hp & Hg & Hi & _) [= <-]; split; [|done];
    cbn [affected_rows equipment_table transmog_table]; by rewrite filter_cons, decide_True.
Qed.

(** ** The acknowledgement *)
Lemma stored_restate s s' st exact db :
  same_key s s' -> set_guid s = set_guid s' -> st = Changed \/ st = Deleted ->
  stored_as s exact db -> tracks_at db (Some (s' <| set_state := st |>)).
Proof. intros Hk Hg Hst Hs. apply stored_tracks; [done|]. by apply (stored_weaken s _ exact). Qed.

Lemma acknowledge_tracks db x o :
  tracks_at db (saved_set x) -> since x o -> tracks_at db (acknowledge_row x o).
Proof.
  intros Ht Hs. unfold since in Hs. unfold saved_set in Ht. unfold acknowledge_row.
  destruct (set_state x) eqn:Ex.
  1,2: destruct Hs as (y & -> & Hk & Hg & Hy); case_bool_decide as E; [by subst|];
    destruct Hy as [|[Hy|Hy]]; [done|..]; rewrite Hy;
    solve [apply (stored_restate x _ _ True); [done|done|by auto|exact Ht]].
  - destruct Hs as [->|(y & -> & Hn & Hk & Hg)].
    + apply (stored_restate x _ _ True); [done|done|by auto|exact Ht].
    + case_bool_decide as E; [by subst|]. rewrite Hn.
      apply (stored_restate x _ _ True); [done|done|by auto|exact Ht].
  - subst. by rewrite bool_decide_true.
Qed.
End Player.
