(* ===== verification/EquipmentSaveTheorems.v ===== *)
(** Equipment sets through any interleaving of edits and saves: the steps, with the
    guids that an edit retyped, moved or brought back, and the invariant for every
    other guid, that the state of a set says what its rows are. *)
From stdpp Require Import sorting.
From S2P Require Import Prelude BTree Guid EquipmentSets EquipmentSave EquipmentSaveSystem.

Import EquipmentSetState.

(** * The steps *)
(** An edit keeps the row of a set: its type and index, the table and the key of
    its row, stay, and a set already deleted is left alone. *)
Definition keeps_row (y y' : EquipmentSet) : Prop :=
  same_key y y' /\ (set_state y = Deleted -> y' = y).

#[export] Instance keeps_row_decision y y' : Decision (keeps_row y y').
Proof. unfold keeps_row, same_key. apply _. Defined.

Definition keeps_row_at (o o' : option EquipmentSet) : Prop :=
  match o, o' with Some y, Some y' => keeps_row y y' | _, _ => True end.

#[export] Instance keeps_row_at_decision o o' : Decision (keeps_row_at o o').
Proof. destruct o, o'; cbn; apply _. Defined.

(** The sets whose row an edit does not keep. *)
Definition rewritten (c c' : EquipmentSets) : gset Z :=
  filter (fun g => ~ keeps_row_at (sets c !! g) (sets c' !! g)) (dom (sets c)).

Definition snapshot_of (f : SaveFlight) : gmap Z EquipmentSet :=
  match f with
  | Grounded => ∅
  | Captured c | CommittedSave c => sets c
  end.

Section System.
Variable p : Z.

(** What the sessions of other players do to the tables and the generator. *)
Definition others_wrote (s : SaveSystem) (db : EquipmentDb) (gen : Z) : Prop :=
  generator s <= gen
  /\ forall g, at_guid g db = at_guid g (tables s)
       \/ (sets (owned s) !! g = None /\ snapshot_of (flight s) !! g = None
           /\ foreign p (at_guid g db) /\ g < gen).

(** A step, with the sets whose row it rewrites: every packet the handlers
    accept is a step. [data_set_id] is an unsigned field of the packet. *)
Inductive save_step (s : SaveSystem) : gset Z -> SaveSystem -> Prop :=
| step_save cat d gen c answer :
    0 <= data_set_id d ->
    save_represented_equipment_set_with_generator cat (generator s) d (owned s)
    = Some (gen, c, answer) ->
    save_step s (rewritten (owned s) c) (s <| owned := c |> <| generator := gen |>)
| step_assign id spec c found :
    assign_represented_equipment_set_to_spec id spec (owned s) = (c, found) ->
    save_step s (rewritten (owned s) c) (s <| owned := c |>)
| step_delete g :
    save_step s ∅ (s <| owned := (delete_represented_equipment_set g (owned s)).1 |>)
| step_capture : flight s = Grounded -> save_step s ∅ (capture s)
| step_commit c :
    flight s = Captured c ->
    save_step s ∅ (s <| tables := commit_equipment p c (tables s) |> <| flight := CommittedSave c |>)
| step_fail c : flight s = Captured c -> save_step s ∅ (s <| flight := Grounded |>)
| step_acknowledge c :
    flight s = CommittedSave c ->
    save_step s ∅ (s <| owned := acknowledge_equipment c (owned s) |> <| flight := Grounded |>)
| step_others db gen :
    others_wrote s db gen -> save_step s ∅ (s <| tables := db |> <| generator := gen |>).

(** A run, with all the sets whose row it rewrote. *)
Inductive save_run (s : SaveSystem) : gset Z -> SaveSystem -> Prop :=
| run_start : save_run s ∅ s
| run_step gone gone' s1 s2 :
    save_run s gone s1 -> save_step s1 gone' s2 -> save_run s (gone ∪ gone') s2.

(** * The invariant *)
Definition phase_at (f : SaveFlight) (g : Z) (db : EquipmentDb) (o : option EquipmentSet) : Prop :=
  match snapshot_of f !! g with
  | None => tracks_at p db o /\ (f <> Grounded -> foreign p db)
  | Some x =>
      since x o /\ tracks_at p db (match f with CommittedSave _ => saved_set x | _ => Some x end)
  end.

Definition container_ok (c : EquipmentSets) : Prop :=
  loaded c = true /\ keyed c
  /\ map_Forall (fun _ s => 0 <= set_id s < MAX_EQUIPMENT_SET_INDEX) (sets c).

Definition snapshot_ok (f : SaveFlight) : Prop :=
  match f with Grounded => True | Captured c | CommittedSave c => container_ok c end.

Definition empty_db : EquipmentDb := mkEquipmentDb [] [].

(** [gone]: the sets nothing is claimed of. *)
Record save_inv (gone : gset Z) (s : SaveSystem) : Prop := mkInv
  { inv_container : container_ok (owned s);
    inv_snapshot : snapshot_ok (flight s);
    inv_phase : forall g, g ∉ gone -> phase_at (flight s) g (at_guid g (tables s)) (sets (owned s) !! g);
    inv_fresh : forall g, generator s <= g ->
      sets (owned s) !! g = None /\ snapshot_of (flight s) !! g = None
      /\ at_guid g (tables s) = empty_db }.

(** ** Edits of the container *)
Lemma phase_edit f g db o o' : edit_at o o' -> phase_at f g db o -> phase_at f g db o'.
Proof.
  intros He. unfold phase_at. destruct (snapshot_of f !! g) as [x|].
  - intros [Hs Ht]. split; [by eapply edit_since|done].
  - intros [Ht Hf]. split; [by eapply edit_tracks|done].
Qed.

Lemma container_insert c g s :
  container_ok c -> set_guid s = g -> 0 <= set_id s < MAX_EQUIPMENT_SET_INDEX ->
  container_ok (c <| sets := <[g := s]> (sets c) |>).
Proof.
  intros (Hl & Hk & Hi) Hg Hid. split; [done|]. split; cbn; by apply map_Forall_insert_2.
Qed.

Lemma container_delete c g : container_ok c -> container_ok (c <| sets := delete g (sets c) |>).
Proof.
  intros (Hl & Hk & Hi). split; [done|]. split; cbn; by apply map_Forall_delete.
Qed.

Lemma container_ok_key c g s :
  container_ok c -> sets c !! g = Some s ->
  set_guid s = g /\ 0 <= set_id s < MAX_EQUIPMENT_SET_INDEX.
Proof. intros (_ & Hk & Hi) E. split; [by apply Hk|by eapply Hi]. Qed.

Lemma inv_weaken gone gone' s : gone ⊆ gone' -> save_inv gone s -> save_inv gone' s.
Proof. intros Hsub [Hc Hs Hp Hf]. split; [done..| |done]. intros g Hg. apply Hp. set_solver. Qed.

(** Changes of the sets, guid by guid, apart from those [gone]. *)
Definition edits (gone : gset Z) (c c' : EquipmentSets) : Prop :=
  container_ok c'
  /\ (forall g, g ∉ gone -> edit_at (sets c !! g) (sets c' !! g))
  /\ forall g, sets c !! g = None -> sets c' !! g = None.

Lemma edits_refl gone c : container_ok c -> edits gone c c.
Proof. intros. split; [done|]. split; [|done]. intros. constructor. Qed.

Lemma not_rewritten c c' g :
  g ∉ rewritten c c' -> keeps_row_at (sets c !! g) (sets c' !! g).
Proof.
  unfold rewritten. rewrite elem_of_filter, elem_of_dom. intros Hg.
  destruct (decide (keeps_row_at (sets c !! g) (sets c' !! g))) as [|Hn]; [done|].
  destruct (sets c !! g) eqn:E; [|done]. destruct Hg. by split.
Qed.

(** A set changed by the rule of [edited_state]. *)
Lemma edits_insert c g y y' :
  container_ok c -> sets c !! g = Some y -> set_state y' = edited_state (set_state y) ->
  set_guid y' = g -> 0 <= set_id y' < MAX_EQUIPMENT_SET_INDEX ->
  edits (rewritten c (c <| sets := <[g := y']> (sets c) |>)) c (c <| sets := <[g := y']> (sets c) |>).
Proof.
  intros Hc E Hst Hg Hi. split; [by apply container_insert|]. split; intros g'; cbn.
  - intros Hr%not_rewritten. cbn in Hr. destruct (decide (g = g')) as [<-|].
    2: rewrite lookup_insert_ne by done; constructor.
    rewrite lookup_insert_eq, E in *. destruct Hr as [Hk Hd].
    destruct (decide (set_state y = Deleted)) as [Hy|]; [rewrite Hd by done; constructor|].
    destruct (container_ok_key _ _ _ Hc E). constructor; [done|done|congruence|done].
  - intros En. destruct (decide (g = g')) as [<-|]; [congruence|]. by rewrite lookup_insert_ne.
Qed.

Lemma edits_delete_set gone c g : container_ok c -> edits gone c (delete_set g c).1.
Proof.
  intros Hc. unfold delete_set. destruct (sets c !! g) as [y|] eqn:E; [|by apply edits_refl].
  destruct (container_ok_key _ _ _ Hc E) as [Hg Hi].
  assert (Hother : set_state y <> New ->
    edits gone c (c <| sets := <[g := y <| set_state := Deleted |>]> (sets c) |>)).
  { intros Hn. split; [by apply container_insert|]. split; intros g'; cbn;
      (destruct (decide (g = g')) as [<-|]; [|by rewrite lookup_insert_ne; try constructor]).
    - intros _. rewrite lookup_insert_eq, E. by constructor.
    - congruence. }
  destruct (set_state y) eqn:Hs; try (apply Hother; congruence). cbn. split.
  - by apply container_delete.
  - split; intros g'; cbn; (destruct (decide (g = g')) as [<-|]; [|by rewrite lookup_delete_ne; try constructor]).
    + intros _. rewrite lookup_delete_eq, E. by constructor.
    + congruence.
Qed.

Lemma assignable_Some id c g s :
  assignable id c = Some (g, s) -> sets c !! g = Some s /\ set_id s = id /\ set_type s = EquipmentSetType.Equipment.
Proof.
  unfold assignable. intros [H1 [H2 H3]]%find_first_Some. by apply elem_of_entries_in_order in H1.
Qed.

Lemma edits_assign id spec c :
  container_ok c ->
  let c' := (assign_represented_equipment_set_to_spec id spec c).1 in edits (rewritten c c') c c'.
Proof.
  intros Hc. unfold assign_represented_equipment_set_to_spec. case_match; [by apply edits_refl|].
  unfold assign_set_to_spec. destruct (assignable id c) as [[g y]|] eqn:E; [|by apply edits_refl].
  apply assignable_Some in E as (E & _). destruct (container_ok_key _ _ _ Hc E) as [Hg ?].
  by apply (edits_insert _ _ y).
Qed.

Lemma edits_inv gone gone' s c :
  save_inv gone s -> edits gone' (owned s) c -> save_inv (gone ∪ gone') (s <| owned := c |>).
Proof.
  intros [Hc Hs Hp Hf] (Hc' & He & Hn). split; ssimpl_goal; [done|done| |].
  - intros g [??]%not_elem_of_union. eapply phase_edit; [by apply He|by apply Hp].
  - intros g Hg. destruct (Hf g Hg) as (H1 & H2 & H3). split; [by apply Hn|done].
Qed.

(** ** Saving a set *)
Lemma validate_slot_keeps cat t i d d' :
  validate_slot cat t i d = Some d' ->
  data_type d' = data_type d /\ data_set_id d' = data_set_id d /\ data_guid d' = data_guid d.
Proof.
  unfold validate_slot. intros H. repeat (case_match; simplify_eq/=; try done);
  repeat match goal with
  | H : mbind _ ?o = Some _ |- _ => destruct o; simplify_eq/=; try done; repeat (case_match; simplify_eq/=; try done)
  end.
Qed.

Lemma validate_slots_keeps cat t l d d' :
  validate_slots cat t l d = Some d' ->
  data_type d' = data_type d /\ data_set_id d' = data_set_id d /\ data_guid d' = data_guid d.
Proof.
  revert d. induction l as [|i l IH]; intros d; cbn [validate_slots]; [by intros [= ->]|].
  intros (d1 & H1 & H2)%bind_Some. apply validate_slot_keeps in H1. apply IH in H2.
  intuition congruence.
Qed.

Lemma validate_set_keeps cat d t d' :
  validate_set cat d = Some (t, d') ->
  data_type d' = data_type d /\ data_set_id d' = data_set_id d /\ data_guid d' = data_guid d
  /\ handler_branch_from_i32 (data_type d) = Some t /\ data_set_id d < MAX_EQUIPMENT_SET_INDEX.
Proof.
  unfold validate_set. case_match eqn:E; [done|]. apply Z.leb_gt in E.
  intros (t' & Ht & (d1 & H1%validate_slots_keeps & (d2 & H2 & [= -> ->])%bind_Some)%bind_Some)%bind_Some.
  assert (data_type d' = data_type d1 /\ data_set_id d' = data_set_id d1 /\ data_guid d' = data_guid d1)
    by (unfold validate_enchants in H2; destruct t; [|case_match]; simplify_eq/=; done).
  intuition congruence.
Qed.

(** A save of the client changes nothing, creates a set under the generator's
    guid, or edits the set of the packet. *)
Lemma save_outcome cat gen d c gen' c' answer :
  container_ok c -> 0 <= data_set_id d ->
  save_represented_equipment_set_with_generator cat gen d c = Some (gen', c', answer) ->
  (gen' = gen \/ gen' = gen + 1) /\
  (edits (rewritten c c') c c'
   \/ exists s, gen' = gen + 1 /\ set_guid s = gen /\ set_state s = New
        /\ 0 <= set_id s < MAX_EQUIPMENT_SET_INDEX
        /\ c' = c <| sets := <[gen := s]> (sets c) |>).
Proof.
  intros Hc H0. unfold save_represented_equipment_set_with_generator.
  destruct (validate_set cat d) as [[t d']|] eqn:Hv.
  2: intros [= <- <- _]; split; [by left|]; left; by apply edits_refl.
  apply validate_set_keeps in Hv as (Ht & Hid & Hg & Hb & Hlim).
  case_match; [intros [= <- <- _]; split; [by left|]; left; by apply edits_refl|].
  destruct (data_guid d' =? 0) eqn:Hz.
  - unfold equipment_set_generate, equipment_set_try_generate.
    destruct (gen <? EQUIPMENT_SET_GUID_LIMIT_LIKE_CPP); [|done].
    cbn [mbind option_bind]. unfold represented_equipment_set_from_packet.
    rewrite Ht, Hb. cbn [mbind option_bind]. intros [= <- <- _]. split; [by right|]. right.
    unfold create_set. cbn [set_guid].
    eexists. split; [done|]. split; [|split; [|split; [|reflexivity]]]; [done|done|cbn; lia].
  - cbn [mbind option_bind]. unfold represented_equipment_set_from_packet.
    rewrite Ht, Hb. cbn [mbind option_bind]. unfold update_set, set_state_of. cbn [set_guid].
    destruct (sets c !! data_guid d') as [y|] eqn:E; cbn [fmap option_fmap option_map];
      intros [= <- <- _]; (split; [by left|]); left; [|by apply edits_refl].
    apply (edits_insert _ _ y); [done..|]. cbn. lia.
Qed.

Lemma inv_save gone s cat d gen c answer :
  save_inv gone s -> 0 <= data_set_id d ->
  save_represented_equipment_set_with_generator cat (generator s) d (owned s) = Some (gen, c, answer) ->
  save_inv (gone ∪ rewritten (owned s) c) (s <| owned := c |> <| generator := gen |>).
Proof.
  intros Hinv H0 E. pose proof Hinv as [Hc Hs Hp Hf].
  apply save_outcome in E as [Hgen [He|(x & -> & Hg & Hn & Hi & ->)]]; try done.
  - eapply edits_inv in He as [Hc' Hs' Hp' Hf']; [|done].
    split; ssimpl; [done|done|done|]. intros g Hge. apply Hf'. lia.
  - destruct (Hf (generator s) ltac:(lia)) as (F1 & F2 & F3).
    eapply inv_weaken; [apply union_subseteq_l|].
    split; ssimpl_goal; [by apply container_insert|done| |].
    + intros g Hgone. destruct (decide (generator s = g)) as [<-|].
      * rewrite lookup_insert_eq. unfold phase_at. rewrite F2, F3. cbn. rewrite Hn.
        split; [done|]. intros _. apply foreign_nil.
      * rewrite lookup_insert_ne by done. by apply Hp.
    + intros g Hge. rewrite lookup_insert_ne by lia. apply Hf. lia.
Qed.

(** ** The save itself *)
Lemma phase_tracks f g db o :
  (forall c, f <> CommittedSave c) -> phase_at f g db o -> tracks_at p db o.
Proof.
  intros Hf. unfold phase_at. destruct (snapshot_of f !! g) as [x|]; [|by intros [? _]].
  intros [Hs Ht]. eapply since_tracks; [|done]. by destruct f; [| |edestruct Hf].
Qed.

Lemma inv_capture gone s : save_inv gone s -> flight s = Grounded -> save_inv gone (capture s).
Proof.
  intros [Hc Hs Hp Hf] E. split; unfold capture; ssimpl_goal; [done|done| |].
  - intros g Hg. specialize (Hp g Hg). apply phase_tracks in Hp; [|rewrite E; done].
    unfold phase_at. cbn. destruct (sets (owned s) !! g) as [x|]; [|by split].
    split; [apply since_refl|done].
  - intros g Hg. destruct (Hf g Hg) as (? & ? & ?). done.
Qed.

Lemma inv_commit gone s c :
  save_inv gone s -> flight s = Captured c ->
  save_inv gone (s <| tables := commit_equipment p c (tables s) |> <| flight := CommittedSave c |>).
Proof.
  intros [Hc Hs Hp Hf] E. rewrite E in Hs, Hp, Hf. destruct Hs as (Hl & Hk & Hi).
  split; ssimpl_goal; [done|done| |].
  - intros g Hg. specialize (Hp g Hg). unfold phase_at in *. cbn in Hp |- *.
    rewrite commit_at by done.
    destruct (sets c !! g) as [x|]; [|split; [apply Hp|intros _; by apply Hp]].
    destruct Hp as [? ?]. split; [done|]. by apply run_set_tracks.
  - intros g Hg. destruct (Hf g Hg) as (? & F & ?). cbn in F |- *. by rewrite commit_at, F.
Qed.

Lemma inv_fail gone s c :
  save_inv gone s -> flight s = Captured c -> save_inv gone (s <| flight := Grounded |>).
Proof.
  intros [Hc Hs Hp Hf] E. split; ssimpl_goal; [done|done| |].
  - intros g Hg. unfold phase_at. cbn. split; [|done].
    eapply phase_tracks; [|by apply Hp]. by rewrite E.
  - intros g Hg. destruct (Hf g Hg) as (? & _ & ?). done.
Qed.

Lemma group_uncommitted c :
  loaded c = true -> equipment_group_committed (equipment_sets_request c) = false ->
  map_Forall (fun _ x => set_state x = Unchanged) (sets c).
Proof.
  intros Hl. unfold equipment_sets_request, equipment_group_committed. rewrite Hl.
  intros H g x E. destruct (decide (set_state x = Unchanged)) as [|Hn]; [done|].
  enough (existsb (fun r => bool_decide (save_state r <> Unchanged))
            (equipment_set_save <$> values_in_order (sets c)) = true) by congruence.
  apply existsb_exists. exists (equipment_set_save x). split; [|by apply bool_decide_eq_true].
  apply list_elem_of_In, list_elem_of_fmap. exists x. split; [done|].
  apply elem_of_values_in_order. eauto.
Qed.

(** What the acknowledgement leaves is the set of the player or the saved one. *)
Lemma acknowledge_row_key x o y :
  acknowledge_row x o = Some y ->
  exists z, (o = Some z \/ z = x) /\ set_guid y = set_guid z /\ set_id y = set_id z.
Proof.
  unfold acknowledge_row. intros E.
  destruct o as [z|]; [exists z|exists x]; repeat case_match; simplify_eq/=; auto.
Qed.

Lemma container_acknowledge saved c :
  container_ok saved -> container_ok c -> container_ok (acknowledge_saved_sets (sets saved) c).
Proof.
  intros Hsv Hc. split; [by destruct Hc|].
  assert (Hat : forall g y, sets (acknowledge_saved_sets (sets saved) c) !! g = Some y ->
    exists z, (sets c !! g = Some z \/ sets saved !! g = Some z)
      /\ set_guid y = set_guid z /\ set_id y = set_id z).
  { intros g y. rewrite acknowledge_lookup. destruct (sets saved !! g) as [x|]; [|by exists y; auto].
    intros (z & [Hz| ->] & ?)%acknowledge_row_key; eauto. }
  split; intros g y (z & [Hz|Hz] & Hy & Hi)%Hat; (eapply container_ok_key in Hz as [??]; [|done]);
    cbn; [congruence|congruence|lia|lia].
Qed.

(** The acknowledgement leaves the sets what the rows say. *)
Lemma acknowledge_ok gone s c :
  save_inv gone s -> flight s = CommittedSave c ->
  container_ok (acknowledge_equipment c (owned s))
  /\ forall g, g ∉ gone -> tracks_at p (at_guid g (tables s)) (sets (acknowledge_equipment c (owned s)) !! g).
Proof.
  intros [Hc Hs Hp Hf] E. rewrite E in Hs, Hp. unfold acknowledge_equipment.
  pose proof Hs as (Hl & Hk & Hi). pose proof Hc as (-> & Hkc & Hic). rewrite andb_true_r.
  destruct (equipment_group_committed _) eqn:Hgr.
  - split; [by apply container_acknowledge|].
    intros g Hg. rewrite acknowledge_lookup. specialize (Hp g Hg). unfold phase_at in Hp. cbn in Hp.
    destruct (sets c !! g) as [x|]; destruct Hp; [|done]. by apply acknowledge_tracks.
  - split; [done|]. intros g Hg. specialize (Hp g Hg). unfold phase_at in Hp. cbn in Hp.
    destruct (sets c !! g) as [x|] eqn:Ex; destruct Hp as [Hsi Ht]; [|done].
    eapply since_tracks; [|done]. pose proof (group_uncommitted _ Hl Hgr _ _ Ex) as Hu. cbn in Hu.
    unfold saved_set in Ht. rewrite Hu in Ht.
    replace (x <| set_state := Unchanged |>) with x in Ht; [done|]. destruct x. cbn in Hu. by subst.
Qed.

Lemma inv_acknowledge gone s c :
  save_inv gone s -> flight s = CommittedSave c ->
  save_inv gone (s <| owned := acknowledge_equipment c (owned s) |> <| flight := Grounded |>).
Proof.
  intros Hinv E. destruct (acknowledge_ok _ _ _ Hinv E) as [Hc Ht]. destruct Hinv as [_ _ _ Hf].
  split; ssimpl_goal; [done|done| |].
  - intros g Hg. split; [by apply Ht|done].
  - intros g Hg. destruct (Hf g Hg) as (F1 & F2 & F3). rewrite E in F2. cbn in F2.
    split; [|done]. unfold acknowledge_equipment. case_match; [|done].
    by rewrite acknowledge_lookup, F2.
Qed.

Lemma inv_others gone s db gen :
  save_inv gone s -> others_wrote s db gen -> save_inv gone (s <| tables := db |> <| generator := gen |>).
Proof.
  intros [Hc Hs Hp Hf] [Hgen Ho]. split; ssimpl_goal; [done|done| |].
  - intros g Hg. destruct (Ho g) as [->|(F1 & F2 & F3 & _)]; [by apply Hp|].
    unfold phase_at. by rewrite F1, F2.
  - intros g Hg. destruct (Hf g ltac:(lia)) as (F1 & F2 & F3).
    split; [done|]. split; [done|]. destruct (Ho g) as [->|(_ & _ & _ & ?)]; [done|lia].
Qed.

Lemma inv_step gone gone' s s' :
  save_step s gone' s' -> save_inv gone s -> save_inv (gone ∪ gone') s'.
Proof.
  intros Hstep Hinv. pose proof (inv_container _ _ Hinv) as Hc.
  destruct Hstep; rewrite ?union_empty_r_L; [by eapply inv_save|..].
  - apply edits_inv; [done|]. match goal with E : _ = (c, _) |- _ => apply (f_equal fst) in E; cbn in E; subst c end.
    by apply edits_assign.
  - rewrite <- (union_empty_r_L gone). apply edits_inv; [done|]. by apply edits_delete_set.
  - by apply inv_capture.
  - by apply inv_commit.
  - by eapply inv_fail.
  - by apply inv_acknowledge.
  - by apply inv_others.
Qed.

Lemma inv_run gone s s' : save_run s gone s' -> save_inv ∅ s -> save_inv gone s'.
Proof. induction 1; [done|]. intros. by eapply inv_step; eauto. Qed.
End System.
