(* ===== verification/EquipmentSaveProperties.v ===== *)
(** The login that starts the system of equipment sets, and the properties of
    every save: rows and states agree, statements are exact, and a login after
    a save sees the saved sets. *)
From stdpp Require Import sorting.
From S2P Require Import Prelude BTree Guid EquipmentSets EquipmentSave EquipmentSaveSystem EquipmentSaveTheorems.

Import EquipmentSetState.

(** * Selecting rows that are single *)
Section SingleRows.
Context {R : Type} (key player index : R -> Z) (p : Z).
Implicit Types l : list R.

Definition single_rows l : Prop :=
  Forall (fun r => player r <> p) l
  \/ exists r, l = [r] /\ player r = p /\ 0 <= index r < MAX_EQUIPMENT_SET_INDEX.

Definition view l : option R :=
  match l with
  | [r] => if decide (player r = p) then Some r else None
  | _ => None
  end.

Lemma view_foreign l : Forall (fun r => player r <> p) l -> view l = None.
Proof. intros H. destruct H as [|r ? Hr []]; [done| |done]. cbn. by rewrite decide_False. Qed.

(** The rows of the guid [g] among the player's. *)
Lemma selected_at tab sel g :
  single_rows (filter (fun r => key r = g) tab) ->
  sel ≡ₚ filter (fun r => player r = p) tab ->
  let o := view (filter (fun r => key r = g) tab) in
  filter (fun r => key r = g) sel = option_list o
  /\ (forall r, o = Some r -> 0 <= index r < MAX_EQUIPMENT_SET_INDEX).
Proof.
  intros Hs Hsel. cbn zeta.
  assert (Hp : filter (fun r => key r = g) sel
    ≡ₚ filter (fun r => player r = p) (filter (fun r => key r = g) tab)) by (by rewrite Hsel, filter_comm).
  destruct Hs as [Hf|(r & E & Hr & Hi)].
  - rewrite view_foreign by done. split; [|done].
    assert (E : filter (fun r => player r = p) (filter (fun r => key r = g) tab) = []).
    { clear Hp. induction Hf as [|r l Hr _ IH]; [done|]. by rewrite filter_cons, decide_False. }
    rewrite E in Hp. by apply Permutation_nil_r in Hp.
  - rewrite E in *. cbn. rewrite decide_True by done. split; [|by intros ? [= <-]].
    rewrite filter_cons, decide_True, filter_nil in Hp by done. by apply Permutation_singleton_r in Hp as ->.
Qed.

(** Loading rows in turn, seen from one guid. *)
Lemma foldl_load_at (load : EquipmentSets -> R -> EquipmentSets) (f : R -> EquipmentSet) g sel c o :
  (forall c r, key r <> g -> sets (load c r) !! g = sets c !! g) ->
  filter (fun r => key r = g) sel = option_list o ->
  (forall r, o = Some r -> forall c, sets (load c r) !! g = Some (f r)) ->
  sets (foldl load c sel) !! g = match o with Some r => Some (f r) | None => sets c !! g end.
Proof.
  intros Hother. revert c o. induction sel as [|r sel IH]; intros c o; [by destruct o|].
  rewrite filter_cons. cbn [foldl]. case_decide as E; intros Hl Hload.
  - destruct o as [r'|]; [|done]. injection Hl as -> Hl.
    by rewrite (IH _ None), Hload.
  - rewrite (IH _ o), Hother by done. done.
Qed.
End SingleRows.

(** * The login *)
(** The set a row is read as. *)
Definition set_of_equipment_row (realm : Z) (r : EquipmentSetRow) : EquipmentSet :=
  mkSet 0 EquipmentSetType.Equipment (equipment_setguid r) (equipment_setindex r) (equipment_mask r)
    (loaded_piece realm <$> equipment_items r) (repeat 0 EQUIPMENT_SET_SLOTS) (0, 0) 0 0 0 0
    (equipment_spec r) (equipment_name r) (equipment_icon r) Unchanged.

Definition set_of_transmog_row (r : TransmogRow) : EquipmentSet :=
  mkSet 1 EquipmentSetType.Transmog (transmog_setguid r) (transmog_setindex r) (transmog_mask r)
    (repeat EMPTY EQUIPMENT_SET_SLOTS) (transmog_appearances r) (transmog_enchants r) 0 0 0 0 (-1)
    (transmog_name r) (transmog_icon r) Unchanged.

Lemma read_u8_index i : 0 <= i < MAX_EQUIPMENT_SET_INDEX -> read_u8 i = i /\ (MAX_EQUIPMENT_SET_INDEX <=? i) = false.
Proof.
  unfold read_u8, MAX_EQUIPMENT_SET_INDEX, u8_max. intros ?. split; [|lia].
  by rewrite (proj2 (andb_true_iff _ _)) by lia.
Qed.

(** Rows of a player, at most one. *)
Definition single_at (p : Z) (db : EquipmentDb) : Prop :=
  single_rows equipment_player equipment_setindex p (equipment_table db)
  /\ single_rows transmog_player transmog_setindex p (transmog_table db).

(** The set the login makes of the rows of a guid. *)
Definition set_at (realm p : Z) (db : EquipmentDb) : option EquipmentSet :=
  match view transmog_player p (transmog_table db) with
  | Some r => Some (set_of_transmog_row r)
  | None => set_of_equipment_row realm <$> view equipment_player p (equipment_table db)
  end.

Section Login.
Variables realm p : Z.

Lemma load_equipment_other c r g :
  equipment_setguid r <> g -> sets (load_equipment_row realm c r) !! g = sets c !! g.
Proof.
  intros. unfold load_equipment_row, load_represented_equipment_set_row. case_match; [done|].
  cbn. by rewrite lookup_insert_ne.
Qed.

Lemma load_transmog_other c r g :
  transmog_setguid r <> g -> sets (load_transmog_row c r) !! g = sets c !! g.
Proof.
  intros. unfold load_transmog_row, load_represented_transmog_outfit_row. case_match; [done|].
  cbn. by rewrite lookup_insert_ne.
Qed.

Lemma load_equipment_own c r :
  0 <= equipment_setindex r < MAX_EQUIPMENT_SET_INDEX ->
  sets (load_equipment_row realm c r) !! equipment_setguid r = Some (set_of_equipment_row realm r).
Proof.
  intros Hi. unfold load_equipment_row, load_represented_equipment_set_row.
  destruct (read_u8_index _ Hi) as [-> ->]. cbn. by rewrite lookup_insert_eq.
Qed.

Lemma load_transmog_own c r :
  0 <= transmog_setindex r < MAX_EQUIPMENT_SET_INDEX ->
  sets (load_transmog_row c r) !! transmog_setguid r = Some (set_of_transmog_row r).
Proof.
  intros Hi. unfold load_transmog_row, load_represented_transmog_outfit_row.
  destruct (read_u8_index _ Hi) as [-> ->]. cbn. by rewrite lookup_insert_eq.
Qed.

Lemma view_key {R} (key player : R -> Z) g tab r :
  view player p (filter (fun r => key r = g) tab) = Some r -> key r = g.
Proof.
  intros E. assert (Hin : r ∈ filter (fun r => key r = g) tab).
  { destruct (filter _ tab) as [|r' []]; cbn in E; try done. case_decide; simplify_eq. left. }
  by apply list_elem_of_filter in Hin as [? _].
Qed.

(** The login reads each guid on its own: other guids' rows do not matter. *)
Lemma load_lookup db c g :
  single_at p (at_guid g db) ->
  sets (load_equipment_sets realm p db c) !! g = set_at realm p (at_guid g db).
Proof.
  intros [He Ht]. unfold load_equipment_sets, mark_loaded. ssimpl_goal.
  apply (selected_at equipment_setguid _ _ _ _ (select_equipment_rows p db)) in He as [Fe Ie];
    [|apply merge_sort_Permutation].
  apply (selected_at transmog_setguid _ _ _ _ (select_transmog_rows p db)) in Ht as [Ft It];
    [|apply merge_sort_Permutation].
  rewrite (foldl_load_at transmog_setguid _ set_of_transmog_row g _ _ _ (fun c r => load_transmog_other c r g) Ft).
  2: { intros r E c'. rewrite <- (view_key _ _ _ _ _ E) at 1. apply load_transmog_own. by apply It. }
  rewrite (foldl_load_at equipment_setguid _ (set_of_equipment_row realm) g _ _ _
             (fun c r => load_equipment_other c r g) Fe).
  2: { intros r E c'. rewrite <- (view_key _ _ _ _ _ E) at 1. apply load_equipment_own. by apply Ie. }
  unfold set_at. cbn [at_guid equipment_table transmog_table].
  destruct (view transmog_player p _); [done|]. by destruct (view equipment_player p _).
Qed.
End Login.

(** * The start: a login *)
(** The low guids of items fit the counter of a guid. *)
Definition stored_row (p : Z) (db : EquipmentDb) : Prop :=
  match equipment_table db, transmog_table db with
  | [r], [] => equipment_player r = p /\ 0 <= equipment_setindex r < MAX_EQUIPMENT_SET_INDEX
               /\ Forall (in_u 40) (equipment_items r)
  | [], [r] => transmog_player r = p /\ 0 <= transmog_setindex r < MAX_EQUIPMENT_SET_INDEX
  | _, _ => False
  end.

(** Each set guid is one set of one player, below the generator. *)
Definition tables_ok (p gen : Z) (db : EquipmentDb) : Prop :=
  forall g, (gen <= g -> at_guid g db = empty_db)
       /\ (foreign p (at_guid g db) \/ stored_row p (at_guid g db)).

Definition logged_in (realm p : Z) (gen : Z) (db : EquipmentDb) (c : EquipmentSets) : SaveSystem :=
  mkSystem (load_equipment_sets realm p db c) db gen Grounded.

Lemma create_item_counter realm x : in_u 40 x -> counter (create_item realm x) = x.
Proof.
  intros Hx. unfold counter. rewrite decide_False.
  - cbn. by apply (land_ones_id x 40).
  - assert (E : high_type (create_item realm x) = HighGuid.Item)
      by (apply high_type_of_fields; [done|]; intros; by apply realm_bits_low).
    by rewrite E.
Qed.

Lemma loaded_piece_counter realm x : in_u 40 x -> u64 (counter (loaded_piece realm x)) = x.
Proof.
  intros Hx. unfold loaded_piece. destruct (Z.eqb_spec x 0) as [->|]; [done|].
  rewrite wrap_s_id by (unfold in_u, in_s in *; lia).
  rewrite create_item_counter by done. apply wrap_u_id. unfold in_u in *. lia.
Qed.

Lemma stored_row_cases p db :
  stored_row p db ->
  (exists r, db = mkEquipmentDb [r] [] /\ equipment_player r = p
     /\ 0 <= equipment_setindex r < MAX_EQUIPMENT_SET_INDEX /\ Forall (in_u 40) (equipment_items r))
  \/ (exists r, db = mkEquipmentDb [] [r] /\ transmog_player r = p
     /\ 0 <= transmog_setindex r < MAX_EQUIPMENT_SET_INDEX).
Proof.
  destruct db as [[|r [|? ?]] [|r' [|? ?]]]; cbn; try done.
  - intros (? & ?). right. by exists r'.
  - intros (? & ? & ?). left. by exists r.
Qed.

Lemma set_at_foreign realm p db : foreign p db -> set_at realm p db = None.
Proof. intros [H1 H2]. unfold set_at. by rewrite !view_foreign. Qed.

Section Login.
Variables realm p gen : Z.
Variable db : EquipmentDb.
Hypothesis ok : tables_ok p gen db.

Lemma login_single g : single_at p (at_guid g db).
Proof.
  destruct (proj2 (ok g)) as [[H1 H2]|[(r & E & Hp & Hi & _)|(r & E & Hp & Hi)]%stored_row_cases].
  - split; by left.
  - rewrite E. split; [right; by exists r|left; constructor].
  - rewrite E. split; [left; constructor|right; by exists r].
Qed.

Lemma login_at c g :
  tracks_at p (at_guid g db) (sets (load_equipment_sets realm p db c) !! g)
  /\ (forall s, sets (load_equipment_sets realm p db c) !! g = Some s ->
      set_guid s = g /\ 0 <= set_id s < MAX_EQUIPMENT_SET_INDEX).
Proof.
  rewrite load_lookup by apply login_single.
  destruct (proj2 (ok g)) as [Hf|[(r & E & Hp & Hi & Hit)|(r & E & Hp & Hi)]%stored_row_cases].
  - by rewrite set_at_foreign.
  - assert (Hg : equipment_setguid r = g).
    { assert (Hin : r ∈ equipment_table (at_guid g db)) by (rewrite E; left).
      by apply list_elem_of_filter in Hin as [? _]. }
    rewrite E. unfold set_at. cbn. rewrite decide_True by done. cbn.
    split; [|by intros s [= <-]]. exists r. cbn. split; [done|]. split; [done|]. split; [done|].
    split; [done|]. intros _. unfold equipment_row. destruct r as [? ? ? ? ? ? ? its]; cbn in *.
    f_equal; [done|]. rewrite <- list_fmap_compose. rewrite <- (list_fmap_id its) at 1.
    apply list_fmap_ext. intros i x Hx. cbn. symmetry. apply loaded_piece_counter.
    rewrite Forall_forall in Hit. apply Hit. by eapply list_elem_of_lookup_2.
  - assert (Hg : transmog_setguid r = g).
    { assert (Hin : r ∈ transmog_table (at_guid g db)) by (rewrite E; left).
      by apply list_elem_of_filter in Hin as [? _]. }
    rewrite E. unfold set_at. cbn. rewrite decide_True by done. cbn.
    split; [|by intros s [= <-]]. exists r. cbn. split; [done|]. split; [done|]. split; [done|].
    split; [done|]. intros _. unfold transmog_row. destruct r; cbn in *. by subst.
Qed.

Lemma login_inv c : save_inv p ∅ (logged_in realm p gen db c).
Proof.
  split; unfold logged_in; cbn [owned flight tables generator]; [|done|..].
  - split; [done|]. split; intros g s E; by apply (proj2 (login_at c g)).
  - intros g _. split; [apply login_at|done].
  - intros g Hg. pose proof (proj1 (ok g) Hg) as E. split; [|by split].
    by rewrite load_lookup, E by apply login_single.
Qed.

Lemma reachable_save_inv c gone s :
  save_run p (logged_in realm p gen db c) gone s -> save_inv p gone s.
Proof. intros H. eapply inv_run; [done|]. apply login_inv. Qed.
End Login.

(** * Properties *)
(** What the acknowledgement of a save in flight will make of the sets. *)
Definition settled (s : SaveSystem) : gmap Z EquipmentSet :=
  match flight s with
  | CommittedSave c => sets (acknowledge_equipment c (owned s))
  | _ => sets (owned s)
  end.

(** C6: after a login, through any interleaving of the edits the packet handlers
    accept with captures, commits, failures and acknowledgements of saves and
    with the other players' writes, the state of every set none of whose edits
    changed its type or index or brought it back after its deletion (those of
    [gone]) says what the tables hold for its guid once the save in flight is
    acknowledged: no row for a new set, a row with its type and index for a
    changed or deleted one, exactly its own columns for an unchanged one, and no
    row of the player where there is no set. *)
Theorem set_states_follow_rows realm p gen db c gone s :
  tables_ok p gen db -> save_run p (logged_in realm p gen db c) gone s ->
  forall g, g ∉ gone -> tracks_at p (at_guid g (tables s)) (settled s !! g).
Proof.
  intros Hok Hr g Hg. apply reachable_save_inv in Hr; [|done]. unfold settled.
  destruct (flight s) as [|c0|c0] eqn:E.
  3: by eapply acknowledge_ok.
  1,2: eapply (phase_tracks p (flight s)); [by rewrite E|by apply Hr].
Qed.

Lemma omap_middle {A B} (f : A -> option B) l before y after :
  omap f l = before ++ y :: after ->
  exists l1 x l2, l = l1 ++ x :: l2 /\ omap f l1 = before /\ f x = Some y.
Proof.
  revert before. induction l as [|x l IH]; intros before; [by destruct before|].
  cbn [omap list_omap]. destruct (f x) as [z|] eqn:E.
  - destruct before as [|z' before]; cbn; intros [= -> H].
    + by exists [], x, l.
    + destruct (IH _ H) as (l1 & x' & l2 & -> & <- & Hx). exists (x :: l1), x', l2.
      split; [done|]. split; [|done]. cbn [omap list_omap]. by rewrite E.
  - intros H. destruct (IH _ H) as (l1 & x' & l2 & -> & <- & Hx). exists (x :: l1), x', l2.
    split; [done|]. split; [|done]. cbn [omap list_omap]. by rewrite E.
Qed.

Lemma affected_rows_at step db :
  affected_rows step db = affected_rows step (at_guid (step_guid step) db).
Proof.
  destruct step as [?|? r|?|?|? r|?]; cbn [affected_rows step_guid at_guid equipment_table transmog_table]; [done| | |done| |].
  - f_equal. rewrite list_filter_filter_l; [done|]. intros row.
    unfold equipment_matches. rewrite !andb_true_iff. lia.
  - f_equal. by rewrite list_filter_filter_l.
  - f_equal. rewrite list_filter_filter_l; [done|]. intros row.
    unfold transmog_matches. rewrite !andb_true_iff. lia.
  - f_equal. by rewrite list_filter_filter_l.
Qed.

(** C7: whenever a captured save is written after such a run, every statement of
    its transaction about a set that is not [gone], run after those before it,
    changes exactly one row, and an [INSERT] meets no row of its guid in either
    table. *)
Theorem save_statements_exact realm p gen db c gone s snapshot before step after :
  tables_ok p gen db -> save_run p (logged_in realm p gen db c) gone s ->
  flight s = Captured snapshot ->
  equipment_steps p (equipment_sets_request snapshot) = before ++ step :: after ->
  step_guid step ∉ gone ->
  let db' := run_equipment_steps before (tables s) in
  affected_rows step db' = 1%nat
  /\ (is_insert step = true -> at_guid (step_guid step) db' = empty_db).
Proof.
  intros Hok Hr Hf Hsteps Hgone. apply reachable_save_inv in Hr; [|done].
  destruct Hr as [_ Hs Hp _]. rewrite Hf in Hs, Hp. destruct Hs as (Hl & Hk & _).
  rewrite commit_steps in Hsteps by done. cbn zeta. rewrite affected_rows_at.
  apply omap_middle in Hsteps as (l1 & x & l2 & Hl12 & <- & Hx).
  assert (Hnd : NoDup (set_guid <$> (l1 ++ x :: l2)))
    by (rewrite <- Hl12, keyed_values by done; apply NoDup_keys_in_order).
  rewrite fmap_app in Hnd. apply NoDup_app in Hnd as (_ & Hnd & _).
  pose proof (set_step_guid _ _ _ Hx) as Hg.
  rewrite run_steps_other.
  2: { apply Forall_forall. intros st (y & Hy & Hst%set_step_guid)%list_elem_of_omap E.
       apply (Hnd (set_guid y)); [by apply list_elem_of_fmap_2|]. cbn. rewrite <- Hst, E, Hg. left. }
  apply (set_step_affects p x); [|done].
  assert (Hin : x ∈ values_in_order (sets snapshot)) by (rewrite Hl12; apply elem_of_app; right; left).
  apply elem_of_values_in_order in Hin as [k Hin]. pose proof (Hk _ _ Hin) as Hkx. cbn in Hkx.
  rewrite Hg, Hkx in *. specialize (Hp k Hgone). unfold phase_at in Hp. cbn in Hp. rewrite Hin in Hp.
  apply Hp.
Qed.

(** ** The next login *)
(** What the columns of a set keep of it. *)
Definition stored_form (realm : Z) (s : EquipmentSet) : EquipmentSet :=
  match set_type s with
  | EquipmentSetType.Equipment =>
      mkSet 0 EquipmentSetType.Equipment (set_guid s) (set_id s) (ignore_mask s)
        ((fun g => loaded_piece realm (u64 (counter g))) <$> pieces s)
        (repeat 0 EQUIPMENT_SET_SLOTS) (0, 0) 0 0 0 0 (assigned_spec_index s) (set_name s)
        (set_icon s) Unchanged
  | EquipmentSetType.Transmog =>
      mkSet 1 EquipmentSetType.Transmog (set_guid s) (set_id s) (ignore_mask s)
        (repeat EMPTY EQUIPMENT_SET_SLOTS) (appearances s) (enchants s) 0 0 0 0 (-1) (set_name s)
        (set_icon s) Unchanged
  end.

Lemma stored_single p s exact db :
  0 <= set_id s < MAX_EQUIPMENT_SET_INDEX -> stored_as p s exact db ->
  single_rows equipment_player equipment_setindex p (equipment_table db)
  /\ single_rows transmog_player transmog_setindex p (transmog_table db).
Proof.
  intros Hi. unfold stored_as. destruct (set_type s); intros (r & -> & Hp & _ & Hx & _); cbn; split.
  1,4: right; exists r; split; [done|]; split; [done|lia].
  all: left; constructor.
Qed.

Lemma stored_set_at realm p s db :
  stored_as p s True db -> set_at realm p db = Some (stored_form realm s).
Proof.
  unfold stored_as, stored_form. destruct (set_type s); intros (r & -> & _ & _ & _ & Hr);
    rewrite (Hr I); unfold set_at; cbn; rewrite decide_True by done; cbn; [|done].
  unfold set_of_equipment_row. cbn. by rewrite <- list_fmap_compose.
Qed.

(** A saved set is a row of its own columns. *)
Lemma saved_stored p x y db :
  tracks_at p db (saved_set x) -> saved_set x = Some y -> stored_as p y True db /\ set_id y = set_id x.
Proof. unfold saved_set. destruct (set_state x); [..|done]; intros Ht [= <-]; by split. Qed.

(** C8: once a captured save is committed after such a run, a login reads for
    every guid that is not [gone] exactly the captured set, unless it was
    deleted, as far as the columns keep it, and no set where none was captured,
    whatever the client changed while the save ran. *)
Theorem committed_save_is_read_back realm p gen db c gone s snapshot c' g :
  tables_ok p gen db -> save_run p (logged_in realm p gen db c) gone s ->
  flight s = Captured snapshot -> g ∉ gone ->
  sets (load_equipment_sets realm p (commit_equipment p snapshot (tables s)) c') !! g
  = stored_form realm <$> (sets snapshot !! g ≫= saved_set).
Proof.
  intros Hok Hr Hf Hg. apply reachable_save_inv in Hr; [|done]. destruct Hr as [_ Hs Hp _].
  rewrite Hf in Hs, Hp. destruct Hs as (Hl & Hk & Hi). cbn in Hi.
  specialize (Hp g Hg). unfold phase_at in Hp. cbn in Hp.
  assert (Hat : match sets snapshot !! g ≫= saved_set with
     | Some y => stored_as p y True (at_guid g (commit_equipment p snapshot (tables s)))
                 /\ 0 <= set_id y < MAX_EQUIPMENT_SET_INDEX
     | None => foreign p (at_guid g (commit_equipment p snapshot (tables s)))
     end).
  { rewrite commit_at by done. destruct (sets snapshot !! g) as [x|] eqn:Ex; cbn; [|by apply Hp].
    destruct Hp as [_ Ht]. apply run_set_tracks in Ht. specialize (Hi _ _ Ex). cbn in Hi.
    destruct (saved_set x) as [y|] eqn:Ey; [|done]. rewrite <- Ey in Ht.
    destruct (saved_stored _ _ _ _ Ht Ey) as [? ->]. done. }
  destruct (sets snapshot !! g ≫= saved_set) as [y|]; rewrite load_lookup.
  - destruct Hat as [Hst _]. by apply stored_set_at.
  - destruct Hat as [Hst Hy]. by eapply stored_single.
  - by apply set_at_foreign.
  - destruct Hat. split; by left.
Qed.

(** A commit keeps the promise [others_wrote] makes to it: guids that are not
    in the snapshot keep their rows. *)
Lemma commit_leaves_other_guids p snapshot db g :
  keyed snapshot -> loaded snapshot = true -> sets snapshot !! g = None ->
  at_guid g (commit_equipment p snapshot db) = at_guid g db.
Proof. intros Hk Hl E. by rewrite commit_at, E. Qed.

(** * Witnesses *)
Definition sample_db : EquipmentDb :=
  mkEquipmentDb
    [mkEquipmentRow 8 3 2 "theirs" "" 0 (-1) (repeat 0 19); mkEquipmentRow 7 5 2 "tank" "" 0 (-1) (40 :: repeat 0 18);
     mkEquipmentRow 7 9 4 "pvp" "" 0 (-1) (repeat 0 19)]
    [mkTransmogRow 7 6 4 "gala" "" 0 (11 :: repeat 0 18) (0, 0)].

Definition sample_start : SaveSystem := logged_in 1 7 10 sample_db (mkSets ∅ false).

Definition no_catalog : SetCatalog :=
  mkCatalog (fun _ => None) None (fun _ => true) None.

(** A set of no items. *)
Definition sample_data (t guid id : Z) (name : string) : EquipmentSetData :=
  mkSetData t guid id 0x7FFFF (repeat EMPTY EQUIPMENT_SET_SLOTS) (repeat 0 EQUIPMENT_SET_SLOTS)
    (0, 0) 0 0 0 0 0 name "".

Definition after_save (d : EquipmentSetData) (s : SaveSystem) : SaveSystem :=
  match save_represented_equipment_set_with_generator no_catalog (generator s) d (owned s) with
  | Some (gen, c, _) => s <| owned := c |> <| generator := gen |>
  | None => s
  end.

Definition after_delete (g : Z) (s : SaveSystem) : SaveSystem :=
  s <| owned := (delete_represented_equipment_set g (owned s)).1 |>.

(** A set created, one edited, one deleted and one turned into an outfit; then
    the save begins, and the edited set is deleted while it runs. *)
Definition sample_captured : SaveSystem :=
  capture (after_delete 6 (after_save (sample_data 0 5 2 "healer") (after_save (sample_data 0 0 1 "dps")
    (after_save (sample_data 1 9 4 "pvp") sample_start)))).
Definition sample_racing : SaveSystem := after_delete 5 sample_captured.

Lemma sample_tables_ok : tables_ok 7 10 sample_db.
Proof.
  intros g. unfold at_guid, sample_db. cbn [equipment_table transmog_table].
  rewrite !filter_cons, !filter_nil. cbn [equipment_setguid transmog_setguid].
  split.
  - intros Hg. by rewrite !decide_False by lia.
  - repeat case_decide; subst; try lia;
      first [ right; cbn; repeat split; try done; repeat constructor; done
            | left; split; repeat constructor; done ].
Qed.

Lemma run_after_save gone gone' d s s0 :
  0 <= data_set_id d -> gone' = gone ∪ rewritten (owned s) (owned (after_save d s)) ->
  save_run 7 s0 gone s -> save_run 7 s0 gone' (after_save d s).
Proof.
  intros H0 ->. unfold after_save. case_match eqn:E.
  - repeat case_match. intros. eapply run_step; [done|]. by eapply step_save.
  - assert (rewritten (owned s) (owned s) = ∅) as ->; [|by rewrite union_empty_r_L].
    apply set_eq. intros g. unfold rewritten. rewrite elem_of_filter. split; [|by intros ?%elem_of_empty].
    intros [[] _]. by destruct (sets (owned s) !! g).
Qed.

Lemma run_still gone s0 s s' : save_run 7 s0 gone s -> save_step 7 s ∅ s' -> save_run 7 s0 gone s'.
Proof. intros H1 H2. rewrite <- (union_empty_r_L gone). by eapply run_step. Qed.

Lemma sample_reachable : save_run 7 sample_start {[9]} sample_racing.
Proof.
  eapply run_still; [|apply (step_delete _ _ 5)]. eapply run_still; [|by apply step_capture].
  eapply run_still; [|apply (step_delete _ _ 6)].
  do 2 (apply (run_after_save {[9]}); [done|by vm_compute|]).
  apply (run_after_save ∅); [done|by vm_compute|apply run_start].
Qed.

Lemma sample_not_gone : (5 : Z) ∉ ({[9]} : gset Z).
Proof. by vm_compute. Qed.

Lemma set_states_follow_rows_witness :
  tables_ok 7 10 sample_db /\ save_run 7 (logged_in 1 7 10 sample_db (mkSets ∅ false)) {[9]} sample_racing
  /\ (set_state <$> settled sample_racing !! 5) = Some Deleted
  /\ tracks_at 7 (at_guid 5 (tables sample_racing)) (settled sample_racing !! 5).
Proof.
  split; [exact sample_tables_ok|]. split; [exact sample_reachable|]. split; [by vm_compute|].
  exact (set_states_follow_rows 1 7 10 sample_db (mkSets ∅ false) _ sample_racing sample_tables_ok
           sample_reachable 5 sample_not_gone).
Defined.

Definition sample_steps : list EquipmentStep :=
  equipment_steps 7 (equipment_sets_request (owned sample_captured)).

Lemma save_statements_exact_witness :
  length sample_steps = 4%nat
  /\ affected_rows (DeleteTransmogOutfit 6)
       (run_equipment_steps (take 1 sample_steps) (tables sample_racing)) = 1%nat.
Proof.
  split; [by vm_compute|].
  refine (proj1 (save_statements_exact 1 7 10 sample_db (mkSets ∅ false) {[9]} sample_racing
            (owned sample_captured) (take 1 sample_steps) (DeleteTransmogOutfit 6)
            (drop 2 sample_steps) sample_tables_ok sample_reachable _ _ _)); by vm_compute.
Defined.

Lemma committed_save_is_read_back_witness :
  (set_name <$> sets (load_equipment_sets 1 7
     (commit_equipment 7 (owned sample_captured) (tables sample_racing)) (mkSets ∅ false)) !! 5)
  = Some "healer"%string
  /\ sets (load_equipment_sets 1 7 (commit_equipment 7 (owned sample_captured) (tables sample_racing))
           (mkSets ∅ false)) !! 6 = None.
Proof.
  assert (Hg : (6 : Z) ∉ ({[9]} : gset Z)) by (by vm_compute).
  split; rewrite (committed_save_is_read_back 1 7 10 sample_db (mkSets ∅ false) {[9]} sample_racing
             (owned sample_captured) (mkSets ∅ false) _ sample_tables_ok sample_reachable)
    by (first [exact sample_not_gone|exact Hg|by vm_compute]); by vm_compute.
Defined.

(** * What becomes of a rewritten set *)
(** The whole cycle of a save nothing interferes with. *)
Definition after_cycle (s : SaveSystem) : SaveSystem :=
  s <| tables := commit_equipment 7 (owned s) (tables s) |>
    <| owned := acknowledge_equipment (owned s) (owned s) |>.

(** The type of a stored set is the packet's: a set edited as an outfit is
    updated in the other table, where it has no row, and counts as saved. *)
Lemma retyped_set_is_not_saved :
  let s := after_cycle (after_save (sample_data 1 5 2 "outfit") sample_start) in
  (set_name <$> sets (owned s) !! 5) = Some "outfit"%string
  /\ (set_state <$> sets (owned s) !! 5) = Some Unchanged
  /\ tables s = sample_db.
Proof. by vm_compute. Qed.

(** So is a set moved to another index: [setindex] is in the [WHERE] clause. *)
Lemma moved_set_is_not_saved :
  let s := after_cycle (after_save (sample_data 0 5 9 "moved") sample_start) in
  (set_state <$> sets (owned s) !! 5) = Some Unchanged /\ tables s = sample_db.
Proof. by vm_compute. Qed.

(** Assigning an index to a specialization finds the deleted set of that index
    first, and brings it back instead of assigning the live one. *)
Lemma assign_revives_deleted_set :
  let c := owned (after_save (sample_data 0 0 2 "new") (after_delete 5 sample_start)) in
  let c' := (assign_represented_equipment_set_to_spec 2 1 c).1 in
  (set_state <$> sets c !! 5) = Some Deleted /\ (set_state <$> sets c' !! 5) = Some Changed
  /\ sets c' !! 10 = sets c !! 10.
Proof. by vm_compute. Qed.

(** A deleted set revived and deleted again while its deletion is written keeps
    a tombstone for a row that is gone: edited once more it is updated nowhere. *)
Lemma revived_set_is_not_saved :
  let deleted := after_delete 5 sample_start in
  let racing := after_delete 5 (after_save (sample_data 0 5 2 "again") deleted) in
  let s := racing <| tables := commit_equipment 7 (owned deleted) (tables racing) |>
                  <| owned := acknowledge_equipment (owned deleted) (owned racing) |> in
  let s := after_cycle (after_save (sample_data 0 5 2 "back") s) in
  (set_name <$> sets (owned s) !! 5) = Some "back"%string
  /\ (set_state <$> sets (owned s) !! 5) = Some Unchanged
  /\ at_guid 5 (tables s) = empty_db.
Proof. by vm_compute. Qed.
