(* ===== verification/SpellCatalog.v ===== *)
(** The spell tables the acquisition planner reads: wow-data/src/spell_acquisition
    (state_1.rs, state_2_ops_1.rs, state_2_ops_2.rs, state_3.rs) with the checked
    reading of their raw fields, and the stores of spell ranks, learned skills,
    learned spells, required spells, custom attributes, trait definitions and
    mounts (spell/, trait_tree.rs, mount.rs).  Loading them is not modelled: a
    store is any value of its type. *)
From S2P Require Import Prelude BTree Float32.

(** * Source tables and why a value of theirs is unknown *)
Inductive SpellAcquisitionTable : Type :=
  | SpellEffectTable | SpellLearnSpellTable | SpellMiscTable | SpellLevelsTable | TalentTable
  | SummonPropertiesTable | BattlePetSpeciesTable.

Inductive SpellAcquisitionIndeterminateReason : Type :=
  | ServerSideMetadataUnavailable
  | EffectivePayloadUnavailable
  | InvalidEffectiveRow (table : SpellAcquisitionTable) (record_id : Z) (field : string) (raw : Z)
  | EffectiveTableIncomplete (table : SpellAcquisitionTable).

Record InvalidAcquisitionValue : Type := invalid
  { invalid_field : string; invalid_raw : Z; invalid_expected : string }.

Abbreviation checked A := (Prelude.result A InvalidAcquisitionValue).

(** * Checked readings of an [i64] (state_3.rs) *)
Definition is_i32 (z : Z) : bool := (- 2 ^ 31 <=? z) && (z <=? i32_max).
Definition is_u32 (z : Z) : bool := (0 <=? z) && (z <=? u32_max).
Definition is_u16 (z : Z) : bool := (0 <=? z) && (z <=? 65535).
Definition is_u8 (z : Z) : bool := (0 <=? z) && (z <=? u8_max).
Definition is_i16 (z : Z) : bool := (-32768 <=? z) && (z <=? 32767).

Definition check (ok : bool) (raw : Z) (field expected : string) : checked Z :=
  if ok then Ok raw else Err (invalid field raw expected).

Definition source_i32 (raw : Z) (field : string) : checked Z := check (is_i32 raw) raw field "i32".
Definition positive_u32 (raw : Z) (field : string) : checked Z :=
  check (is_u32 raw && negb (raw =? 0)) raw field "positive u32".
Definition optional_positive_u32 (raw : Z) (field : string) : checked (option Z) :=
  if raw =? 0 then Ok None else let? z := positive_u32 raw field in Ok (Some z).
Definition nonnegative_u32 (raw : Z) (field : string) : checked Z := check (is_u32 raw) raw field "u32".
Definition checked_u8 (raw : Z) (field : string) : checked Z := check (is_u8 raw) raw field "u8".
Definition checked_u32_bits (raw : Z) (field : string) : checked Z :=
  if is_u32 raw then Ok raw
  else if is_i32 raw then Ok (u32 raw) else Err (invalid field raw "u32/i32 bit field").
Definition finite_f32_from_bits (bits : Z) (field : string) : checked f32 :=
  let value := f32_from_bits bits in
  if f32_is_finite value then Ok value else Err (invalid field bits "finite f32").

(** * Spell effects *)
Definition MAX_SPELL_EFFECTS : Z := 32.
Definition TOTAL_SPELL_EFFECTS : Z := 316.
Definition TARGET_UNIT_PET : Z := 5.
Definition TARGET_NONE : Z := 0.
Definition TARGET_UNIT_CASTER : Z := 1.
Definition TARGET_UNIT_TARGET_ALLY : Z := 21.
Definition SPELL_ATTR0_PASSIVE : Z := 0x40.
Definition SPELL_ATTR1_CAST_WHEN_LEARNED : Z := 0x80000000.

Record SpellAcquisitionEffect : Type := mkEffect
  { effect_record_id : Z; spell_id_raw : Z; difficulty_id_raw : Z; effect_index_raw : Z;
    effect_type_raw : Z; effect_aura_raw : Z; effect_mechanic_raw : Z; effect_attributes_raw : Z;
    effect_base_points_raw : Z; effect_die_sides_raw : Z; effect_chain_targets_raw : Z;
    effect_points_per_resource_bits : Z; effect_real_points_per_level_bits : Z;
    effect_coefficient_bits : Z; effect_variance_bits : Z; effect_trigger_spell_raw : Z;
    effect_item_type_raw : Z; effect_misc_value_raw : Z * Z; implicit_target_raw : Z * Z }.

#[export] Instance effect_eq_dec : EqDecision SpellAcquisitionEffect.
Proof. solve_decision. Defined.

Record AcquisitionValueDomain : Type := mkDomain { minimum : Z; maximum : Z }.
Definition deterministic_value (d : AcquisitionValueDomain) : option Z :=
  if minimum d =? maximum d then Some (minimum d) else None.

Definition spell_id_checked (e : SpellAcquisitionEffect) : checked Z :=
  positive_u32 (spell_id_raw e) "SpellEffect.SpellID".

Definition effect_index_checked (e : SpellAcquisitionEffect) : checked Z :=
  let? index := checked_u8 (effect_index_raw e) "SpellEffect.EffectIndex" in
  if MAX_SPELL_EFFECTS <=? index
  then Err (invalid "SpellEffect.EffectIndex" (effect_index_raw e) "0..MAX_SPELL_EFFECTS")
  else Ok index.

Definition effect_type_checked (e : SpellAcquisitionEffect) : checked Z :=
  let? effect := nonnegative_u32 (effect_type_raw e) "SpellEffect.Effect" in
  if TOTAL_SPELL_EFFECTS <=? effect
  then Err (invalid "SpellEffect.Effect" (effect_type_raw e) "0..TOTAL_SPELL_EFFECTS")
  else Ok effect.

Definition trigger_spell_id_checked (e : SpellAcquisitionEffect) : checked Z :=
  let? _ := source_i32 (effect_trigger_spell_raw e) "SpellEffect.EffectTriggerSpell" in
  positive_u32 (effect_trigger_spell_raw e) "SpellEffect.EffectTriggerSpell".

(** [misc_value_id_checked(0)]. *)
Definition misc_value_id_checked (e : SpellAcquisitionEffect) : checked Z :=
  let raw := fst (effect_misc_value_raw e) in
  let? _ := source_i32 raw "SpellEffect.EffectMiscValue" in
  positive_u32 raw "SpellEffect.EffectMiscValue".

Definition targets_player (e : SpellAcquisitionEffect) : bool :=
  let ok t := (t =? TARGET_NONE) || (t =? TARGET_UNIT_CASTER) || (t =? TARGET_UNIT_TARGET_ALLY) in
  ok (fst (implicit_target_raw e)) && ok (snd (implicit_target_raw e)).

Definition coefficient_checked (e : SpellAcquisitionEffect) : checked f32 :=
  finite_f32_from_bits (effect_coefficient_bits e) "SpellEffect.Coefficient".
Definition variance_checked (e : SpellAcquisitionEffect) : checked f32 :=
  finite_f32_from_bits (effect_variance_bits e) "SpellEffect.Variance".

(** [f64::from(i32::MIN)..=f64::from(i32::MAX)]. *)
Definition in_i32_range (x : f64) : bool := f64_between (f64_of_Z (- 2 ^ 31)) x (f64_of_Z i32_max).

Definition checked_rounded_i32 (value : f64) (raw_base_points : Z) : checked Z :=
  let rounded := f64_round value in
  if f32_is_finite rounded && in_i32_range rounded then Ok (f64_to_i32 rounded)
  else Err (invalid "SpellEffect.EffectBasePoints+EffectDieSides+Variance" raw_base_points "i32 result").

(** The base points after [CalcBaseValue]. *)
Definition rounded_base (e : SpellAcquisitionEffect) (source_base : Z) (coefficient : f32) : checked Z :=
  if f32_nonzero coefficient then Ok 0
  else
    let rounded := f64_of_f32 (f32_round (f32_of_Z source_base)) in
    if in_i32_range rounded then Ok (f64_to_i32 rounded)
    else Err (invalid "SpellEffect.EffectBasePoints" (effect_base_points_raw e) "f32-rounded i32 result").

(** The least and the greatest a die of [die] sides adds. *)
Definition die_bounds (die : Z) : Z * Z :=
  if die =? 0 then (0, 0) else if die =? 1 then (1, 1)
  else if 1 <? die then (1, die) else (die, 1).

Definition f32_half : f32 := f32_from_bits 0x3F000000.

(** The bounds of the base points with the variance; the greatest sample is the
    [f32] below [variance_delta]. *)
Definition variance_bounds (base : Z) (variance : f32) : f64 * f64 :=
  let variance_delta := f32_abs (f32_mul variance f32_half) in
  let b := f64_of_Z base in
  if negb (f32_nonzero variance_delta) then (b, b)
  else
    let lower_sample := f64_opp (f64_of_f32 variance_delta) in
    let upper_sample := f64_of_f32 (f32_from_bits (f32_to_bits variance_delta - 1)) in
    let lower_value := f64_add b (f64_mul b lower_sample) in
    let upper_value := f64_add b (f64_mul b upper_sample) in
    (f64_min lower_value upper_value, f64_max lower_value upper_value).

Definition base_points_die_sides_domain_checked (e : SpellAcquisitionEffect) :
    checked AcquisitionValueDomain :=
  let? source_base := source_i32 (effect_base_points_raw e) "SpellEffect.EffectBasePoints" in
  let? coefficient := coefficient_checked e in
  let? variance := variance_checked e in
  let? base := rounded_base e source_base coefficient in
  let? die := source_i32 (effect_die_sides_raw e) "SpellEffect.EffectDieSides" in
  let '(minimum_die, maximum_die) := die_bounds die in
  let '(minimum_with_variance, maximum_with_variance) := variance_bounds base variance in
  let? lo := checked_rounded_i32 (f64_add minimum_with_variance (f64_of_Z minimum_die))
               (effect_base_points_raw e) in
  let? hi := checked_rounded_i32 (f64_add maximum_with_variance (f64_of_Z maximum_die))
               (effect_base_points_raw e) in
  Ok (mkDomain lo hi).

(** * Learned spells, attributes and levels *)
Record SpellAcquisitionDependency : Type := mkDependency
  { dependency_record_id : Z; dependency_spell_id_raw : Z; learn_spell_id_raw : Z;
    overrides_spell_id_raw : Z }.

Definition learned_spell_id_checked (d : SpellAcquisitionDependency) : checked Z :=
  let? _ := source_i32 (learn_spell_id_raw d) "SpellLearnSpell.LearnSpellID" in
  positive_u32 (learn_spell_id_raw d) "SpellLearnSpell.LearnSpellID".

Record SpellAcquisitionMisc : Type := mkMisc
  { misc_record_id : Z; misc_spell_id_raw : Z; misc_difficulty_id_raw : Z; attributes_raw : Z * Z;
    show_future_spell_player_condition_id_raw : Z }.

Definition is_passive_checked (m : SpellAcquisitionMisc) : checked bool :=
  let? bits := checked_u32_bits (fst (attributes_raw m)) "SpellMisc.Attributes1" in
  Ok (has_flag bits SPELL_ATTR0_PASSIVE).

Definition cast_when_learned_checked (m : SpellAcquisitionMisc) : checked bool :=
  let? bits := checked_u32_bits (snd (attributes_raw m)) "SpellMisc.Attributes2" in
  Ok (has_flag bits SPELL_ATTR1_CAST_WHEN_LEARNED).

Definition future_player_condition_id_checked (m : SpellAcquisitionMisc) : checked (option Z) :=
  let raw := show_future_spell_player_condition_id_raw m in
  let? _ := source_i32 raw "SpellMisc.ShowFutureSpellPlayerConditionID" in
  optional_positive_u32 raw "SpellMisc.ShowFutureSpellPlayerConditionID".

Record SpellAcquisitionLevels : Type := mkLevels
  { levels_record_id : Z; levels_spell_id_raw : Z; levels_difficulty_id_raw : Z; base_level_raw : Z;
    spell_level_raw : Z }.

Definition base_level_checked (l : SpellAcquisitionLevels) : checked Z :=
  check (is_i16 (base_level_raw l)) (base_level_raw l) "SpellLevels.BaseLevel" "i16".
Definition spell_level_checked (l : SpellAcquisitionLevels) : checked Z :=
  check (is_i16 (spell_level_raw l)) (spell_level_raw l) "SpellLevels.SpellLevel" "i16".

(** * The catalog *)
Definition DIFFICULTY_NONE : Z := 0.

(** The reasons why a key is not fully known, per table. *)
Record CoverageRecord : Type := mkCoverage
  { reasons_for_table : SpellAcquisitionTable -> list SpellAcquisitionIndeterminateReason }.

(** The indexes of [SpellAcquisitionCatalogLikeCpp] the planner reads. *)
Record SpellAcquisitionCatalog : Type := mkCatalog
  { coverage_by_key : gmap (Z * Z) CoverageRecord;
    effects_by_key : gmap (Z * Z) (list SpellAcquisitionEffect);
    dependencies_by_spell : gmap Z (list SpellAcquisitionDependency);
    misc_by_key : gmap (Z * Z) SpellAcquisitionMisc;
    levels_by_key : gmap (Z * Z) SpellAcquisitionLevels;
    talent_spell_ids : gset Z;
    global_indeterminate_by_table : SpellAcquisitionTable -> list SpellAcquisitionIndeterminateReason }.

(** A lookup of rows, and one of at most one row. *)
Inductive RowsLookup (A : Type) : Type :=
  | RowsMissingCoverage
  | RowsIndeterminate (reasons : list SpellAcquisitionIndeterminateReason)
  | RowsCovered (rows : list A).
Arguments RowsMissingCoverage {A}.
Arguments RowsIndeterminate {A}.
Arguments RowsCovered {A}.

Inductive MetadataLookup (A : Type) : Type :=
  | MetadataMissingCoverage
  | MetadataIndeterminate (reasons : list SpellAcquisitionIndeterminateReason)
  | CoveredWithoutRow
  | MetadataPresent (row : A).
Arguments MetadataMissingCoverage {A}.
Arguments MetadataIndeterminate {A}.
Arguments CoveredWithoutRow {A}.
Arguments MetadataPresent {A}.

Inductive SpellAcquisitionTalentLookup : Type :=
  | TalentIndeterminate (reasons : list SpellAcquisitionIndeterminateReason) | NotTalent | Talent.

Section Catalog.
Variable c : SpellAcquisitionCatalog.

Definition contains_spell_difficulty_key (spell_id difficulty_id : Z) : bool :=
  bool_decide (is_Some (coverage_by_key c !! (spell_id, difficulty_id))).

(** The rows of a key, unless the table is not fully known for it. *)
Definition rows_lookup {A} (key : Z * Z) (table : SpellAcquisitionTable) (rows : list A) :
    RowsLookup A :=
  match coverage_by_key c !! key with
  | None => RowsMissingCoverage
  | Some coverage =>
      match reasons_for_table coverage table with
      | [] => RowsCovered rows
      | reasons => RowsIndeterminate reasons
      end
  end.

Definition difficulty_none_effects (spell_id : Z) : RowsLookup SpellAcquisitionEffect :=
  let key := (spell_id, DIFFICULTY_NONE) in
  rows_lookup key SpellEffectTable (default [] (effects_by_key c !! key)).

Definition dependency_rows_lookup (spell_id : Z) : RowsLookup SpellAcquisitionDependency :=
  rows_lookup (spell_id, DIFFICULTY_NONE) SpellLearnSpellTable
    (default [] (dependencies_by_spell c !! spell_id)).

Definition metadata_lookup {A} (key : Z * Z) (table : SpellAcquisitionTable) (rows : gmap (Z * Z) A) :
    MetadataLookup A :=
  match coverage_by_key c !! key with
  | None => MetadataMissingCoverage
  | Some coverage =>
      match reasons_for_table coverage table with
      | [] => match rows !! key with Some row => MetadataPresent row | None => CoveredWithoutRow end
      | reasons => MetadataIndeterminate reasons
      end
  end.

Definition misc_for_spell (spell_id difficulty_id : Z) : MetadataLookup SpellAcquisitionMisc :=
  metadata_lookup (spell_id, difficulty_id) SpellMiscTable (misc_by_key c).
Definition levels_for_spell (spell_id difficulty_id : Z) : MetadataLookup SpellAcquisitionLevels :=
  metadata_lookup (spell_id, difficulty_id) SpellLevelsTable (levels_by_key c).

Definition talent_membership (spell_id : Z) : SpellAcquisitionTalentLookup :=
  if bool_decide (spell_id ∈ talent_spell_ids c) then Talent
  else
    match global_indeterminate_by_table c TalentTable with
    | [] => NotTalent
    | reasons => TalentIndeterminate reasons
    end.
End Catalog.

(** * Ranks *)
Record SpellChainNode : Type := mkChainNode
  { prev_spell_id : option Z; next_spell_id : option Z; first_spell_id : Z; last_spell_id : Z;
    rank : Z }.

Inductive SpellChainLoadDiagnostic : Type :=
  | SelfLoop (spell_id : Z)
  | MultiplePredecessors (spell_id : Z) (predecessor_spell_ids : list Z)
  | ChainCycle (spell_ids : list Z)
  | RankOutOfRange (first_spell_id spell_id rank : Z)
  | InvalidEffectiveSkillLineAbilityRankEndpoints (record_id spell_raw supercedes_spell_raw : Z)
      (affected_spell_ids : list Z).

Record SpellChainStore : Type := mkChainStore
  { chains_by_spell_id : gmap Z SpellChainNode;
    indeterminate_by_spell_id : gmap Z (list SpellChainLoadDiagnostic);
    global_indeterminate : option (list SpellChainLoadDiagnostic) }.

Inductive SpellChainLookup : Type :=
  | Unranked | Node (node : SpellChainNode) | ChainIndeterminate (d : list SpellChainLoadDiagnostic).

Definition spell_chain_lookup (s : SpellChainStore) (spell_id : Z) : SpellChainLookup :=
  match global_indeterminate s with
  | Some diagnostics => ChainIndeterminate diagnostics
  | None =>
      match indeterminate_by_spell_id s !! spell_id with
      | Some diagnostics => ChainIndeterminate diagnostics
      | None => match chains_by_spell_id s !! spell_id with Some node => Node node | None => Unranked end
      end
  end.

(** * Skills and spells a spell teaches *)
Record SpellLearnSkillNode : Type := mkLearnSkill
  { learn_skill : Z; learn_step : Z; learn_value : Z; learn_maxvalue : Z }.

Inductive SpellLearnSkillIndeterminateReason : Type :=
  | MissingEffectiveCoverage (difficulty_id : Z)
  | EffectiveMetadata (reasons : list SpellAcquisitionIndeterminateReason)
  | InvalidLearnSkillValue (record_id : Z) (field : string) (raw : Z)
  | RngDependentCalcValue (record_id : Z) (domain : AcquisitionValueDomain)
  | SkillOutOfRange (value : Z)
  | StepOutOfRange (value : Z)
  | DuplicateSourceSpell.

Record SpellLearnSkillStore : Type := mkLearnSkillStore
  { skill_by_spell_id : gmap Z SpellLearnSkillNode; covered_spell_ids : gset Z;
    learn_skill_indeterminate : gmap Z SpellLearnSkillIndeterminateReason }.

Inductive SpellLearnSkillLookup : Type :=
  | LearnSkillPresent (node : SpellLearnSkillNode)
  | CoveredWithoutNode
  | LearnSkillIndeterminate (reason : SpellLearnSkillIndeterminateReason)
  | LearnSkillMissingCoverage.

Definition spell_learn_skill_lookup (s : SpellLearnSkillStore) (spell_id : Z) : SpellLearnSkillLookup :=
  match learn_skill_indeterminate s !! spell_id with
  | Some reason => LearnSkillIndeterminate reason
  | None =>
      match skill_by_spell_id s !! spell_id with
      | Some node => LearnSkillPresent node
      | None => if bool_decide (spell_id ∈ covered_spell_ids s) then CoveredWithoutNode
                else LearnSkillMissingCoverage
      end
  end.

Record SpellLearnSpellNode : Type := mkLearnSpell
  { learned_spell : Z; overrides_spell : Z; learned_active : bool; auto_learned : bool }.

Record SpellLearnSpellStore : Type := mkLearnSpellStore
  { learned_by_spell_id : gmap Z (list SpellLearnSpellNode) }.
Definition get_spell_learn_spell_map_bounds (s : SpellLearnSpellStore) (spell_id : Z) :
    list SpellLearnSpellNode := default [] (learned_by_spell_id s !! spell_id).

Record SpellRequiredStore : Type := mkRequiredStore
  { requiring_by_required_spell_id : gmap Z (list Z) }.
Definition spells_requiring_spell (s : SpellRequiredStore) (req_spell : Z) : list Z :=
  default [] (requiring_by_required_spell_id s !! req_spell).

(** * Attributes, trait definitions and mounts *)
Definition SPELL_ATTR0_CU_IS_TALENT : Z := 0x800000.

Record SpellCustomAttributeStore : Type := mkAttributeStore
  { attributes_by_spell_and_difficulty : gmap (Z * Z) Z }.
Definition attributes_for_spell_difficulty (s : SpellCustomAttributeStore) (spell_id difficulty : Z) : Z :=
  default 0 (attributes_by_spell_and_difficulty s !! (spell_id, difficulty)).

Record TraitDefinitionEntry : Type := mkTrait { trait_id : Z; trait_overrides_spell_id : Z }.
Record TraitDefinitionStore : Type := mkTraitStore { trait_entries : gmap Z TraitDefinitionEntry }.
Definition get_trait_definition (s : TraitDefinitionStore) (id : Z) : option TraitDefinitionEntry :=
  trait_entries s !! id.

Record MountEntry : Type := mkMount { mount_id : Z; mount_source_spell_id : Z }.
Record MountStore : Type := mkMountStore
  { mounts_by_id : gmap Z MountEntry; by_source_spell_id : gmap Z Z }.
Definition get_by_source_spell_id (s : MountStore) (spell_id : Z) : option MountEntry :=
  id ← by_source_spell_id s !! spell_id; mounts_by_id s !! id.

(** The skill tables the acquisition planner reads: wow-data/src/skill
    (state_1.rs, state_2.rs, ops_1.rs) and the skill lines of skill_talent.rs.
    Loading them is not modelled: a store is any value of its type. *)

(** * Constants *)
Definition SKILL_LINE_ABILITY_REWARDED_FROM_QUEST : Z := 4.
Definition SKILL_LINE_ABILITY_LEARNED_ON_SKILL_VALUE : Z := 1.
Definition SKILL_LINE_ABILITY_LEARNED_ON_SKILL_LEARN : Z := 2.
(** [0x80u8 as i8]. *)
Definition SKILL_LINE_ABILITY_CAN_FALLBACK_TO_LEARNED_ON_SKILL_LEARN : Z := -128.
Definition SKILL_FLAG_ALWAYS_MAX_VALUE : Z := 0x10.
Definition SKILL_RUNEFORGING : Z := 960.
Definition SKILL_RIDING : Z := 762.
Definition SKILL_CATEGORY_ARMOR : Z := 8.
Definition SKILL_CATEGORY_LANGUAGES : Z := 10.
Definition SKILL_CATEGORY_PROFESSION : Z := 11.
Definition CLASS_WARRIOR : Z := 1.
Definition CLASS_DEATH_KNIGHT : Z := 6.
Definition MAX_CLASSES : Z := 15.
Definition MAX_SKILL_STEP : Z := 16.

(** * Records *)
Record SkillLineAbilityRecord : Type := mkAbility
  { ability_id : Z; ability_race_mask : Z; skill_line : Z; ability_spell : Z; min_skill_line_rank : Z;
    ability_class_mask : Z; supercedes_spell : Z; acquire_method : Z; trivial_rank_high : Z;
    trivial_rank_low : Z; ability_flags : Z; num_skill_ups : Z; skillup_skill_line_id : Z }.

Record SkillRaceClassInfoRecord : Type := mkRaceClass
  { race_class_id : Z; race_mask : Z; race_class_skill_id : Z; class_mask : Z; race_class_flags : Z;
    availability : Z; min_level : Z; skill_tier_id : Z }.

Inductive SkillStoreLoadSource : Type := Wdc4 | OfficialSql | CustomSql.
Inductive SkillStoreTable : Type := SkillLineAbilityTable | SkillRaceClassInfoTable.

Inductive SkillStoreLoadDiagnostic : Type :=
  | InvalidSkillLineAbilityIdentifier (source : SkillStoreLoadSource)
      (record_id spell skill_line skillup_skill_line_id : Z)
  | InvalidSkillRaceClassInfoIdentifier (source : SkillStoreLoadSource)
      (record_id race_mask skill_id class_mask : Z)
  | InvalidSourceField (table : SkillStoreTable) (source : SkillStoreLoadSource) (record_id : Z)
      (field : string) (value : Z)
  | MissingEffectiveSkillLine (record_id skill_id : Z)
  | ConflictingRaceClassInfo (skill_id first_record_id second_record_id : Z).

(** * Races and classes *)
Definition race_mask_for_race (race : Z) : Z :=
  let bit :=
    if ((1 <=? race) && (race <=? 11)) || (race =? 22) || ((24 <=? race) && (race <=? 32))
    then Some (race - 1)
    else if race =? 34 then Some 11 else if race =? 35 then Some 12 else if race =? 36 then Some 13
    else if race =? 37 then Some 14 else if race =? 52 then Some 16 else if race =? 70 then Some 15
    else None in
  match bit with Some bit => 2 ^ bit | None => 0 end.

Definition matches_race (mask race : Z) : bool :=
  (mask =? 0) || negb (Z.land mask (race_mask_for_race race) =? 0).

Definition matches_class (mask class : Z) : bool :=
  if (mask =? -1) || (mask =? 0) then true
  else if negb ((CLASS_WARRIOR <=? class) && (class <? MAX_CLASSES)) then false
  else negb (Z.land mask (2 ^ (class - 1)) =? 0).

(** * Skill tiers *)
Record SkillTiersEntry : Type := mkTiers { tiers_id : Z; tier_value : list Z }.

(** The loop that goes down to the last tier with a value. *)
Fixpoint value_at_or_below (value : list Z) (tier_index : nat) : Z :=
  let v := nth tier_index value 0 in
  match tier_index with
  | O => v
  | S below => if v =? 0 then value_at_or_below value below else v
  end.

Definition get_value_for_tier_index (t : SkillTiersEntry) (tier_index : Z) : Z :=
  let tier_index := if MAX_SKILL_STEP <=? tier_index then MAX_SKILL_STEP - 1 else tier_index in
  value_at_or_below (tier_value t) (Z.to_nat tier_index).

Record SkillTiersStore : Type := mkTiersStore { tiers : gmap Z SkillTiersEntry }.
Definition get_skill_tier (s : SkillTiersStore) (skill_tier_id : Z) : option SkillTiersEntry :=
  tiers s !! skill_tier_id.

(** [u32::try_from(skill_tier_id).ok().and_then(get_skill_tier)]. *)
Definition tier_of (s : SkillTiersStore) (info : SkillRaceClassInfoRecord) : option SkillTiersEntry :=
  if is_u32 (skill_tier_id info) then get_skill_tier s (skill_tier_id info) else None.

(** * Skill lines *)
Record SkillLineAcquisitionFields : Type := mkSkillLineFields
  { category_id : Z; parent_skill_line_id : Z; parent_tier_index : Z }.

Inductive SkillLineAcquisitionPayload : Type :=
  | Absent | Incomplete | Complete (fields : SkillLineAcquisitionFields).

Record SkillLineStore : Type := mkSkillLineStore
  { effective_record_ids : gset Z;
    acquisition_fields_by_effective_record : gmap Z SkillLineAcquisitionFields }.

Definition acquisition_payload (s : SkillLineStore) (id : Z) : SkillLineAcquisitionPayload :=
  if bool_decide (id ∈ effective_record_ids s) then
    match acquisition_fields_by_effective_record s !! id with
    | Some fields => Complete fields
    | None => Incomplete
    end
  else Absent.

(** The closure of [filter_map]. *)
Definition child_or_incomplete (s : SkillLineStore) (parent record_id : Z) :
    option (Z * SkillLineAcquisitionPayload) :=
  match acquisition_payload s record_id with
  | Complete fields =>
      if parent_skill_line_id fields =? parent then Some (record_id, Complete fields) else None
  | Incomplete => Some (record_id, Incomplete)
  | Absent => None
  end.

(** In the order of the record ids. *)
Definition acquisition_children_for_parent (s : SkillLineStore) (parent : Z) :
    list (Z * SkillLineAcquisitionPayload) :=
  omap (child_or_incomplete s parent) (keys_in_order (gset_to_gmap tt (effective_record_ids s))).

Definition is_primary_profession_skill (s : SkillLineStore) (skill_id : Z) : option bool :=
  match acquisition_payload s skill_id with
  | Absent => Some false
  | Incomplete => None
  | Complete fields =>
      Some ((category_id fields =? SKILL_CATEGORY_PROFESSION) && (parent_skill_line_id fields =? 0))
  end.

(** * Abilities and race/class rows *)
Record SkillStore : Type := mkSkillStore
  { abilities_by_skill : gmap Z (list SkillLineAbilityRecord);
    abilities_by_spell : gmap Z (list SkillLineAbilityRecord);
    invalid_abilities_by_skill : gmap Z (list SkillStoreLoadDiagnostic);
    invalid_abilities_by_spell : gmap Z (list SkillStoreLoadDiagnostic);
    race_class_by_skill : gmap Z (list SkillRaceClassInfoRecord);
    invalid_race_class_by_skill : gmap Z (list SkillStoreLoadDiagnostic) }.

Inductive SkillLineAbilityCoverage : Type :=
  | AbilitiesCoveredZero | AbilityRows (rows : list SkillLineAbilityRecord)
  | AbilitiesIndeterminate (d : list SkillStoreLoadDiagnostic).

Inductive SkillRaceClassInfoMatchCoverage : Type :=
  | RaceClassCoveredZero | RaceClassRow (row : SkillRaceClassInfoRecord)
  | RaceClassIndeterminate (d : list SkillStoreLoadDiagnostic).

Definition ability_coverage (invalid : gmap Z (list SkillStoreLoadDiagnostic))
    (rows : gmap Z (list SkillLineAbilityRecord)) (key : Z) : SkillLineAbilityCoverage :=
  match invalid !! key with
  | Some diagnostics => AbilitiesIndeterminate diagnostics
  | None => match rows !! key with Some rows => AbilityRows rows | None => AbilitiesCoveredZero end
  end.

Definition skill_line_ability_coverage_by_spell (s : SkillStore) (spell_id : Z) :=
  ability_coverage (invalid_abilities_by_spell s) (abilities_by_spell s) spell_id.
Definition skill_line_ability_coverage_by_skill (s : SkillStore) (skill_id : Z) :=
  ability_coverage (invalid_abilities_by_skill s) (abilities_by_skill s) skill_id.

Definition same_race_class_payload (a b : SkillRaceClassInfoRecord) : bool :=
  (race_class_flags a =? race_class_flags b) && (availability a =? availability b)
  && (min_level a =? min_level b) && (skill_tier_id a =? skill_tier_id b).

Definition skill_race_class_info_coverage_for_player (s : SkillStore) (skill_id race class : Z) :
    SkillRaceClassInfoMatchCoverage :=
  match invalid_race_class_by_skill s !! skill_id with
  | Some diagnostics => RaceClassIndeterminate diagnostics
  | None =>
      match race_class_by_skill s !! skill_id with
      | None => RaceClassCoveredZero
      | Some records =>
          match filter (fun r => matches_race (race_mask r) race && matches_class (class_mask r) class)
                  records with
          | [] => RaceClassCoveredZero
          | first :: candidates =>
              if existsb (fun r => negb (same_race_class_payload first r)) candidates
              then RaceClassIndeterminate [] else RaceClassRow first
          end
      end
  end.

Inductive SkillRangeType : Type := RangeLanguage | RangeLevel | RangeMono | RangeRank | RangeNone.

Definition skill_range_type (info : SkillRaceClassInfoRecord) (lines : SkillLineStore)
    (tiers : SkillTiersStore) : SkillRangeType :=
  match acquisition_payload lines (race_class_skill_id info) with
  | Complete skill =>
      if bool_decide (is_Some (tier_of tiers info)) then RangeRank
      else if race_class_skill_id info =? SKILL_RUNEFORGING then RangeMono
      else if category_id skill =? SKILL_CATEGORY_ARMOR then RangeMono
      else if category_id skill =? SKILL_CATEGORY_LANGUAGES then RangeLanguage
      else RangeLevel
  | _ => RangeNone
  end.
