(* ===== verification/SpellModel.v ===== *)
(** The data of the spell acquisition planner: wow-world/src/spell_acquisition/
    model.rs (the rows a player owns, snapshots, transitions, plans, refusals)
    and authority.rs (which casts and crafts are proven safe). *)
From S2P Require Import Prelude BTree Guid SpellCatalog.

(** * What a plan starts from *)
Inductive SpellAcquisitionRoot : Type :=
  | DirectLearn (spell_id : Z) | TrainerWrapperCast (spell_id : Z).
#[export] Instance root_eq_dec : EqDecision SpellAcquisitionRoot.
Proof. solve_decision. Defined.

(** [PlayerSpellPersistenceStateLikeCpp]. *)
Module SpellState.
Inductive t : Set := Unchanged | Changed | New | Removed | Temporary.
#[global] Instance eq_dec : EqDecision t.
Proof. solve_decision. Defined.
End SpellState.

Record PlayerSpellRow : Type := mkSpellRow
  { row_spell_id : Z; active : bool; disabled : bool; dependent : bool; favorite : bool;
    trait_definition_id : option Z; spell_state : SpellState.t }.
#[export] Instance spell_row_eq_dec : EqDecision PlayerSpellRow.
Proof. solve_decision. Defined.
#[export] Instance eta_spell_row : Eta PlayerSpellRow := fun r =>
  mkSpellRow (row_spell_id r) (active r) (disabled r) (dependent r) (favorite r)
    (trait_definition_id r) (spell_state r).

(** Which of the two profession slots a skill is in. *)
Inductive ProfessionAssociationInput : Type :=
  | Unassigned | Slot (slot : Z) | InvalidSlot (value : Z).
#[export] Instance profession_association_eq_dec : EqDecision ProfessionAssociationInput.
Proof. solve_decision. Defined.

Definition from_database_value (value : Z) : ProfessionAssociationInput :=
  if value =? -1 then Unassigned
  else if (value =? 0) || (value =? 1) then Slot value else InvalidSlot value.

(** [slot as i8]. *)
Definition database_value (a : ProfessionAssociationInput) : Z :=
  match a with Unassigned => -1 | Slot slot => wrap_s 8 slot | InvalidSlot value => value end.

(** [PlayerSkillPersistenceStateLikeCpp]. *)
Module SkillState.
Inductive t : Set := Unchanged | Changed | New | Deleted.
#[global] Instance eq_dec : EqDecision t.
Proof. solve_decision. Defined.
End SkillState.

Record PlayerSkillRow : Type := mkSkillRow
  { row_skill_id : Z; skill_step : Z; skill_value : Z; skill_maximum : Z;
    profession_association : ProfessionAssociationInput; skill_state : SkillState.t }.
#[export] Instance skill_row_eq_dec : EqDecision PlayerSkillRow.
Proof. solve_decision. Defined.
#[export] Instance eta_skill_row : Eta PlayerSkillRow := fun r =>
  mkSkillRow (row_skill_id r) (skill_step r) (skill_value r) (skill_maximum r)
    (profession_association r) (skill_state r).

Inductive PlayerAcquisitionLifecycle : Type := Loading | OutOfWorld | InWorld.
#[export] Instance lifecycle_eq_dec : EqDecision PlayerAcquisitionLifecycle.
Proof. solve_decision. Defined.
Definition is_in_world (l : PlayerAcquisitionLifecycle) : bool :=
  match l with InWorld => true | _ => false end.
Definition is_loading (l : PlayerAcquisitionLifecycle) : bool :=
  match l with Loading => true | _ => false end.
(** [lifecycle as i128]. *)
Definition lifecycle_value (l : PlayerAcquisitionLifecycle) : Z :=
  match l with Loading => 0 | OutOfWorld => 1 | InWorld => 2 end.

Record ExecutedDualWieldEffect : Type := mkDualWield
  { dual_wield_record_id : Z; dual_wield_effect_index : Z }.
#[export] Instance dual_wield_eq_dec : EqDecision ExecutedDualWieldEffect.
Proof. solve_decision. Defined.

Record CastResolution : Type := mkCastResolution
  { reached_immediate_phase : bool; executed_hit_target_effect_mask : Z;
    effective_effects : list SpellAcquisitionEffect;
    executed_dual_wield_effects : list ExecutedDualWieldEffect }.
#[export] Instance cast_resolution_eq_dec : EqDecision CastResolution.
Proof. solve_decision. Defined.

Record FutureConditionResolution : Type := mkFutureCondition
  { future_condition_id : Z; future_allowed : bool }.
#[export] Instance future_condition_eq_dec : EqDecision FutureConditionResolution.
Proof. solve_decision. Defined.

(** [PlayerSpellAcquisitionSnapshotLikeCpp]. *)
Record Snapshot : Type := mkSnapshot
  { character_guid : option ObjectGuid;
    spells : list PlayerSpellRow; skills : list PlayerSkillRow; occupied_skill_slots : Z;
    overrides : list (Z * Z); primary_profession_skill_ids : list Z;
    non_durable_skill_tombstone_ids : list Z; race : Z; class : Z; level : Z;
    lifecycle : PlayerAcquisitionLifecycle;
    future_player_condition_resolutions : list FutureConditionResolution;
    cast_resolutions : gmap Z CastResolution }.
#[export] Instance eta_snapshot : Eta Snapshot := fun s =>
  mkSnapshot (character_guid s) (spells s) (skills s) (occupied_skill_slots s) (overrides s)
    (primary_profession_skill_ids s) (non_durable_skill_tombstone_ids s) (race s) (class s) (level s)
    (lifecycle s) (future_player_condition_resolutions s) (cast_resolutions s).
#[export] Instance snapshot_eq_dec : EqDecision Snapshot.
Proof. solve_decision. Defined.

(** * What a plan consists of *)
Inductive Provenance : Type :=
  | ProvenanceRoot (root : SpellAcquisitionRoot)
  | PreviousRank (requested_spell_id : Z)
  | LearnDependency (source_spell_id : Z)
  | HigherDisabledRank (source_spell_id : Z)
  | RequiredDisabledSpell (required_spell_id : Z)
  | DirectLearnSkill (source_spell_id : Z)
  | SkillLineAbilityFallback (source_spell_id record_id : Z)
  | ParentSkill (child_skill_id : Z)
  | RootChildSkill (parent_skill_id : Z)
  | SkillReward (skill_id record_id : Z)
  | WrapperEffect (wrapper_spell_id effect_index record_id : Z)
  | AutocastEffect (source_spell_id effect_index record_id : Z).
#[export] Instance provenance_eq_dec : EqDecision Provenance.
Proof. solve_decision. Defined.

Record SpellTransition : Type := mkSpellTransition
  { spell_transition_id : Z; spell_before : option PlayerSpellRow; spell_after : option PlayerSpellRow;
    spell_provenance : Provenance }.
#[export] Instance spell_transition_eq_dec : EqDecision SpellTransition.
Proof. solve_decision. Defined.

Record SkillTransition : Type := mkSkillTransition
  { skill_transition_id : Z; skill_before : option PlayerSkillRow; skill_after : PlayerSkillRow;
    skill_provenance : Provenance }.
#[export] Instance skill_transition_eq_dec : EqDecision SkillTransition.
Proof. solve_decision. Defined.

Record OverrideTransition : Type := mkOverrideTransition
  { overridden_spell_id : Z; overriding_spell_id : Z; override_add : bool }.
#[export] Instance override_transition_eq_dec : EqDecision OverrideTransition.
Proof. solve_decision. Defined.

Inductive Mutation : Type :=
  | MutationSpell (t : SpellTransition) | MutationSkill (t : SkillTransition)
  | MutationOverride (t : OverrideTransition).

Inductive CastReason : Type :=
  | TalentLearnEffect | PassiveLearn | SkillStepReason | CastWhenLearned | TrainerWrapper.

Inductive PostCommitAction : Type :=
  | LearnedSpell (spell_id : Z) (favorite suppress_messaging : bool)
  | SupersededSpell (old_spell_id new_spell_id : Z)
  | UnlearnedSpell (spell_id : Z)
  | GrantDualWield (source_spell_id effect_record_id effect_index : Z)
  | RefreshPassive (spell_id : Z)
  | UpdateLearnSpellQuestObjective (spell_id : Z)
  | UpdateLearnTradeskillSkillLineCriteria (source_spell_id skill_id : Z)
  | UpdateLearnSpellFromSkillLineCriteria (source_spell_id skill_id : Z)
  | UpdateLearnOrKnowSpellCriteria (spell_id : Z)
  | UpdateMountCapability (skill_id : Z)
  | UpdateSkillRaisedCriteria (skill_id : Z)
  | UpdateAchieveSkillStepCriteria (skill_id : Z).
#[export] Instance post_commit_action_eq_dec : EqDecision PostCommitAction.
Proof. solve_decision. Defined.

(** [SpellAcquisitionPublicationRequirementLikeCpp]. *)
Inductive PublicationRequirement : Type :=
  | RequireLearnedSpell (spell_id : Z) (favorite suppress_messaging : bool)
  | RequireLearnSpellQuestObjective (spell_id : Z)
  | RequireLearnTradeskillSkillLineCriteria (source_spell_id skill_id : Z)
  | RequireLearnSpellFromSkillLineCriteria (source_spell_id skill_id : Z)
  | RequireLearnOrKnowSpellCriteria (spell_id : Z).
#[export] Instance publication_requirement_eq_dec : EqDecision PublicationRequirement.
Proof. solve_decision. Defined.

(** * Refusals *)
Inductive CastIndeterminateReason : Type :=
  | ScriptBinding | LegacySpellScriptCommand | SpellPetAura | LinkedCast | LinkedHit | LinkedAura
  | CastCondition | TargetCondition | SpellModifierClassOptions | SpellModifierLabel | AuraLearnSpell
  | RuntimeCalcValueReason | DisabledSpell | PassiveCastPrerequisites | HardcodedDummyHandler
  | DelayedOrChanneled | UnsupportedTargetSelection | UnmodelledCheckCast
  | RuntimeStateMutationBeforeClosure | IncompleteCastAuthority.
#[export] Instance cast_reason_eq_dec : EqDecision CastIndeterminateReason.
Proof. solve_decision. Defined.

Inductive CraftIndeterminateReason : Type :=
  | MissingCreatedItemTemplate (item_id : Z) | MissingReagentItemTemplate (item_id : Z)
  | IncompleteCraftAuthority.

(** [SpellAcquisitionSnapshotAdapterErrorLikeCpp]. *)
Inductive SnapshotAdapterError : Type :=
  | IncompleteSpellRows | IncompleteSkillRows | MissingSkillSlotOccupancy | IncompleteTraitDefinitions
  | IncompleteOverrides
  | AdapterInvalidSpellId (spell_id : Z)
  | AdapterInvalidTraitDefinitionId (spell_id trait_definition_id : Z)
  | OrphanTraitDefinition (spell_id : Z)
  | AdapterInvalidOverride (overridden_spell_id overriding_spell_id : Z).

(** [SpellAcquisitionIndeterminateLikeCpp]. *)
Inductive Indeterminate : Type :=
  | SnapshotAdapter (e : SnapshotAdapterError)
  | MissingTrainerProjectionMetadata
  | InvalidSnapshot (field : string) (value : Z)
  | DuplicateSnapshotSpell (spell_id : Z)
  | DuplicateSnapshotSkill (skill_id : Z)
  | MissingSpellCoverage (spell_id : Z) (table : SpellAcquisitionTable)
  | IndeterminateSpellMetadata (spell_id : Z) (table : SpellAcquisitionTable)
      (reasons : list SpellAcquisitionIndeterminateReason)
  | InvalidEffectiveValue (record_id : Z) (field : string) (raw : Z)
  | RankChain (spell_id : Z) (diagnostics : list SpellChainLoadDiagnostic)
  | SpellValidationCycle (spell_ids : list Z)
  | UnsupportedSpellValidityPath (spell_id effect_index effect_type : Z)
  | CraftSpellValidityAuthority (spell_id : Z) (reasons : list CraftIndeterminateReason)
  | LearnSkill (spell_id : Z) (reason : SpellLearnSkillIndeterminateReason)
  | MissingLearnSkillCoverage (spell_id : Z)
  | SkillLineAbility (spell_id skill_id : option Z) (diagnostics : list SkillStoreLoadDiagnostic)
  | MissingSkillLine (skill_id : Z)
  | MissingTraitDefinition (trait_definition_id : Z)
  | IncompleteSkillLine (skill_id : Z)
  | InvalidSkillIdentifier (value : Z) (source : string)
  | InvalidSkillStep (skill_id step : Z)
  | MissingSkillTier (skill_id skill_tier_id : Z)
  | InvalidSkillTierValue (skill_id value : Z)
  | SkillParentCycle (skill_ids : list Z)
  | MissingFuturePlayerConditionResolution (spell_id condition_id occurrence_index : Z)
  | FuturePlayerConditionResolutionMismatch (spell_id occurrence_index expected_condition_id
      actual_condition_id : Z)
  | MissingCastResolution (spell_id : Z)
  | InvalidCastResolution (spell_id : Z) (effect_index : option Z)
  | UnsupportedPassiveAcquisition (spell_id : Z)
  | UnsupportedMountAcquisition (spell_id : Z)
  | IncompleteMountAuthority (spell_id : Z)
  | UnsupportedRuntimeEffect (spell_id effect_index effect_type : Z)
  | CastAuthority (spell_id : Z) (reasons : list CastIndeterminateReason)
  | RuntimeCalcValue (spell_id effect_index : Z) (field : string)
  | UnsupportedEffectTarget (spell_id effect_index : Z) (targets : Z * Z)
  | CastItemLearnPath (spell_id effect_index : Z)
  | PetLearnPath (spell_id effect_index : Z)
  | BattlePetOrSummonPath (spell_id effect_index : Z)
  | MissingDerivedDependency (source_spell_id learned_spell_id : Z)
  | UnsupportedSkillDecrease (skill_id old_value new_value : Z)
  | RewardSpellRemovalRequired (skill_id spell_id record_id : Z)
  | PlayerSkillCapacityExceeded
  | WorkLimitExceeded (limit : Z).

Inductive Diagnostic : Type :=
  | ExistingSpellAlreadyMatches (spell_id : Z)
  | ExistingInactiveSpellActivated (spell_id : Z)
  | SkillRaceClassNotApplicable (skill_id : Z)
  | RewardGateRejected (skill_id record_id : Z) (gate : string)
  | EffectHadNoRuntimeChange (spell_id effect_index : Z) (reason : string)
  | AcquisitionCastProjected (spell_id : Z) (reason : CastReason)
  | AcquisitionCastDeferred (spell_id : Z) (reason : CastReason) (cause : Indeterminate)
  | DualWieldEffectProjected (spell_id effect_record_id effect_index : Z)
  | CastStoppedBeforeImmediatePhase (spell_id : Z)
  | HitTargetEffectSuppressed (spell_id effect_index : Z).

(** [SpellAcquisitionPlanLikeCpp]. *)
Record Plan : Type := mkPlan
  { plan_root : SpellAcquisitionRoot; source_snapshot : Snapshot; mutations : list Mutation;
    spell_transitions : list SpellTransition; skill_transitions : list SkillTransition;
    override_transitions : list OverrideTransition; root_primary_profession_skill_ids : list Z;
    publication_requirements : list PublicationRequirement;
    profession_association_inputs : list PlayerSkillRow; post_commit_actions : list PostCommitAction;
    diagnostics : list Diagnostic; resulting_snapshot : Snapshot }.

Inductive Outcome : Type :=
  | Deterministic (p : Plan) | OutcomeIndeterminate (e : Indeterminate).

(** * Authorities (authority.rs) *)
Record CraftValidityAuthority : Type := mkCraftAuthority
  { proven_valid_spell_ids : gset Z; craft_reasons_by_spell : gmap Z (list CraftIndeterminateReason) }.

(** [SpellAcquisitionCraftValidityAuthorityLikeCpp::from_audited_rows]; a later
    row of a spell replaces an earlier one. *)
Definition craft_from_audited_rows (proven : list Z)
    (indeterminate : list (Z * list CraftIndeterminateReason)) : CraftValidityAuthority :=
  let reasons := foldl (fun m kv => <[kv.1 := kv.2]> m) ∅ indeterminate in
  mkCraftAuthority (list_to_set proven ∖ dom reasons) reasons.

Definition require_valid (a : CraftValidityAuthority) (spell_id : Z) : Prelude.result unit Indeterminate :=
  if bool_decide (spell_id ∈ proven_valid_spell_ids a) then Ok tt
  else Err (CraftSpellValidityAuthority spell_id
              (default [IncompleteCraftAuthority] (craft_reasons_by_spell a !! spell_id))).

Record CastAuthorityTable : Type := mkCastAuthority
  { proven_safe_spell_ids : gset Z; cast_reasons_by_spell : gmap Z (list CastIndeterminateReason) }.

Record CastAuditEvidence : Type := mkEvidence
  { evidence_spell_id : Z; all_sources_complete : bool; has_script_binding : bool;
    has_legacy_spell_script_command : bool; has_spell_pet_aura : bool; has_linked_cast : bool;
    has_linked_hit : bool; has_linked_aura : bool; has_cast_condition : bool;
    has_target_condition : bool; has_spell_modifier_class_options : bool;
    has_spell_modifier_label : bool; has_aura_learn_spell : bool; has_runtime_calc_value : bool;
    is_disabled : bool; has_hardcoded_dummy_handler : bool; is_delayed_or_channeled : bool;
    has_unsupported_target_selection : bool; has_unmodelled_check_cast : bool;
    has_runtime_state_mutation_before_closure : bool; passive_cast_prerequisites_proven : bool;
    is_passive_cast : bool }.

(** [reasons.sort(); reasons.dedup()]: the reasons in the order of the enum. *)
Definition sort_dedup (reasons : list CastIndeterminateReason) : list CastIndeterminateReason :=
  filter (fun r => r ∈ reasons)
    [ScriptBinding; LegacySpellScriptCommand; SpellPetAura; LinkedCast; LinkedHit; LinkedAura;
     CastCondition; TargetCondition; SpellModifierClassOptions; SpellModifierLabel; AuraLearnSpell;
     RuntimeCalcValueReason; DisabledSpell; PassiveCastPrerequisites; HardcodedDummyHandler;
     DelayedOrChanneled; UnsupportedTargetSelection; UnmodelledCheckCast;
     RuntimeStateMutationBeforeClosure; IncompleteCastAuthority].

Definition blockers (row : CastAuditEvidence) : list (bool * CastIndeterminateReason) :=
  [(has_script_binding row, ScriptBinding);
   (has_legacy_spell_script_command row, LegacySpellScriptCommand);
   (has_spell_pet_aura row, SpellPetAura); (has_linked_cast row, LinkedCast);
   (has_linked_hit row, LinkedHit); (has_linked_aura row, LinkedAura);
   (has_cast_condition row, CastCondition); (has_target_condition row, TargetCondition);
   (has_spell_modifier_class_options row, SpellModifierClassOptions);
   (has_spell_modifier_label row, SpellModifierLabel); (has_aura_learn_spell row, AuraLearnSpell);
   (has_runtime_calc_value row, RuntimeCalcValueReason); (is_disabled row, DisabledSpell);
   (has_hardcoded_dummy_handler row, HardcodedDummyHandler);
   (is_delayed_or_channeled row, DelayedOrChanneled);
   (has_unsupported_target_selection row, UnsupportedTargetSelection);
   (has_unmodelled_check_cast row, UnmodelledCheckCast);
   (has_runtime_state_mutation_before_closure row, RuntimeStateMutationBeforeClosure);
   (is_passive_cast row && negb (passive_cast_prerequisites_proven row), PassiveCastPrerequisites)].

(** The reasons one row of evidence gives against a spell. *)
Definition evidence_reasons (row : CastAuditEvidence) : list CastIndeterminateReason :=
  sort_dedup ((if negb (all_sources_complete row) then [IncompleteCastAuthority] else [])
              ++ omap (fun b : bool * CastIndeterminateReason => if b.1 then Some b.2 else None)
                   (blockers row)).

Definition add_evidence (a : CastAuthorityTable) (row : CastAuditEvidence) : CastAuthorityTable :=
  match evidence_reasons row with
  | [] => mkCastAuthority ({[evidence_spell_id row]} ∪ proven_safe_spell_ids a) (cast_reasons_by_spell a)
  | reasons =>
      mkCastAuthority (proven_safe_spell_ids a)
        (partial_alter (fun old => Some (default [] old ++ reasons)) (evidence_spell_id row)
           (cast_reasons_by_spell a))
  end.

Definition from_evidence (evidence : list CastAuditEvidence) : CastAuthorityTable :=
  let a := foldl add_evidence (mkCastAuthority ∅ ∅) evidence in
  let reasons := sort_dedup <$> cast_reasons_by_spell a in
  mkCastAuthority (proven_safe_spell_ids a ∖ dom reasons) reasons.

Definition require_safe (a : CastAuthorityTable) (spell_id : Z) : Prelude.result unit Indeterminate :=
  if bool_decide (spell_id ∈ proven_safe_spell_ids a) then Ok tt
  else Err (CastAuthority spell_id
              (default [IncompleteCastAuthority] (cast_reasons_by_spell a !! spell_id))).
