(* ===== verification/SpellPlanner.v ===== *)
(** The state of the spell acquisition planner and what its functions share:
    wow-world/src/spell_acquisition/planner/mod.rs.

    The planner is a state of its own, so a function of it is a transformer of
    the state that may refuse; [None] means that the fuel of the recursion ran
    out.  A refusal keeps the state: a projected cast that is refused leaves its
    work count behind.  The functions that call each other are given through
    [Ops]; SpellPlannerSpell.v ties the knot.  The fields that never change (root,
    source snapshot, metadata, policy) are in [Env]. *)
From stdpp Require Import sorting.
From S2P Require Import Prelude BTree Guid SpellCatalog SpellModel.

Definition SPELL_EFFECT_DUMMY : Z := 3.
Definition SPELL_EFFECT_CREATE_ITEM : Z := 24.
Definition SPELL_EFFECT_SUMMON : Z := 28.
Definition SPELL_EFFECT_TRIGGER_MISSILE : Z := 32.
Definition SPELL_EFFECT_SUMMON_CHANGE_ITEM : Z := 34.
Definition SPELL_EFFECT_LEARN_SPELL : Z := 36.
Definition SPELL_EFFECT_DUAL_WIELD : Z := 40.
Definition SPELL_EFFECT_SKILL_STEP : Z := 44.
Definition SPELL_EFFECT_SUMMON_PET : Z := 56.
Definition SPELL_EFFECT_LEARN_PET_SPELL : Z := 57.
Definition SPELL_EFFECT_TRIGGER_SPELL : Z := 64.
Definition SPELL_EFFECT_SCRIPT_EFFECT : Z := 77.
Definition SPELL_EFFECT_SKILL : Z := 118.
Definition SPELL_EFFECT_UNLEARN_SPECIALIZATION : Z := 133.
Definition SPELL_EFFECT_TRIGGER_SPELL_WITH_VALUE : Z := 142.
Definition SPELL_EFFECT_TRIGGER_MISSILE_SPELL_WITH_VALUE : Z := 148.
Definition SPELL_EFFECT_TRIGGER_SPELL_2 : Z := 151.
Definition SPELL_EFFECT_CREATE_LOOT : Z := 157.
Definition SPELL_EFFECT_UPGRADE_CHARACTER_SPELLS : Z := 215.
Definition SPELL_EFFECT_TRIGGER_ACTION_SET : Z := 226.
Definition MAX_PLAYER_SKILLS : Z := 256.
Definition DEFAULT_ACQUISITION_WORK_LIMIT : Z := 16384.

(** * Metadata *)
Record Metadata : Type := mkMetadata
  { catalog : SpellAcquisitionCatalog; spell_chains : SpellChainStore;
    spell_learn_skills : SpellLearnSkillStore; spell_learn_spells : SpellLearnSpellStore;
    spell_required : SpellRequiredStore; spell_custom_attributes : SpellCustomAttributeStore;
    trait_definitions : TraitDefinitionStore; cast_authority : CastAuthorityTable;
    craft_validity_authority : CraftValidityAuthority; mounts : option MountStore;
    skill_store : SkillStore; skill_lines : SkillLineStore; skill_tiers : SkillTiersStore }.

Record SpellProjection : Type := mkProjection
  { projected_effects : list SpellAcquisitionEffect; projected_misc : option SpellAcquisitionMisc;
    projected_talent : bool; projected_chain : option SpellChainNode;
    projected_learn_skill : option SpellLearnSkillNode;
    projected_dependencies : list SpellLearnSpellNode }.

Inductive CastSideEffectPolicy : Type := RequireComplete | DeferUnavailable.
#[export] Instance policy_eq_dec : EqDecision CastSideEffectPolicy.
Proof. solve_decision. Defined.

(** The fields of the planner that no function changes. *)
Record Env : Type := mkEnv
  { env_root : SpellAcquisitionRoot; env_snapshot : Snapshot; env_metadata : Metadata;
    env_policy : CastSideEffectPolicy }.

(** The others. *)
Record Planner : Type := mkPlanner
  { p_cursor : nat; p_spells : gmap Z PlayerSpellRow; p_skills : gmap Z PlayerSkillRow;
    p_occupied : Z; p_overrides : gset (Z * Z); p_parent_path : list Z; p_pending : list Z;
    p_visiting : list Z; p_validated : gset Z; p_spell_transitions : list SpellTransition;
    p_skill_transitions : list SkillTransition; p_override_transitions : list OverrideTransition;
    p_mutations : list Mutation; p_root_professions : list Z;
    p_requirements : list PublicationRequirement; p_actions : list PostCommitAction;
    p_diagnostics : list Diagnostic; p_work : Z }.

#[export] Instance eta_planner : Eta Planner := fun p =>
  mkPlanner (p_cursor p) (p_spells p) (p_skills p) (p_occupied p) (p_overrides p) (p_parent_path p)
    (p_pending p) (p_visiting p) (p_validated p) (p_spell_transitions p) (p_skill_transitions p)
    (p_override_transitions p) (p_mutations p) (p_root_professions p) (p_requirements p)
    (p_actions p) (p_diagnostics p) (p_work p).

(** * The monad *)
Definition M (A : Type) : Type := Planner -> option (Planner * Prelude.result A Indeterminate).

Definition ret {A} (a : A) : M A := fun p => Some (p, Ok a).
Definition bind {A B} (m : M A) (k : A -> M B) : M B := fun p =>
  match m p with
  | None => None
  | Some (p1, Ok a) => k a p1
  | Some (p1, Err e) => Some (p1, Err e)
  end.
Definition refuse {A} (e : Indeterminate) : M A := fun p => Some (p, Err e).
Definition lift {A} (r : Prelude.result A Indeterminate) : M A := fun p => Some (p, r).
Definition gets {A} (f : Planner -> A) : M A := fun p => Some (p, Ok (f p)).
Definition modify (f : Planner -> Planner) : M unit := fun p => Some (f p, Ok tt).

(** Run [m] and undo a push whatever its result. *)
Definition finally {A} (m : M A) (f : Planner -> Planner) : M A := fun p =>
  match m p with
  | None => None
  | Some (p1, r) => Some (f p1, r)
  end.

Notation "'let!' x ':=' m 'in' k" := (bind m (fun x => k))
  (at level 10, x pattern, m at level 100, k at level 200) : wow_scope.
Notation "m ;; k" := (bind m (fun _ => k)) (at level 100, k at level 200, right associativity) : wow_scope.

Fixpoint for_each {A} (f : A -> M unit) (l : list A) : M unit :=
  match l with
  | [] => ret tt
  | a :: l => f a ;; for_each f l
  end.

(** [map_err] into [InvalidEffectiveValue]. *)
Definition effective {A} (record_id : Z) (r : checked A) : Prelude.result A Indeterminate :=
  match r with
  | Ok a => Ok a
  | Err e => Err (InvalidEffectiveValue record_id (invalid_field e) (invalid_raw e))
  end.

(** [None] becomes a refusal. *)
Definition some_or {A} (o : option A) (e : Indeterminate) : M A := lift (ok_or o e).

(** * Small steps *)
Definition push_diagnostic (d : Diagnostic) : M unit :=
  modify (fun p => p <| p_diagnostics := p_diagnostics p ++ [d] |>).
Definition push_action (a : PostCommitAction) : M unit :=
  modify (fun p => p <| p_actions := p_actions p ++ [a] |>).

(** A publication is put on both tapes. *)
Definition push_publication (r : PublicationRequirement) (a : PostCommitAction) : M unit :=
  modify (fun p => p <| p_requirements := p_requirements p ++ [r] |>) ;; push_action a.

(** [usize::saturating_add] on a count that the limit keeps small. *)
Definition consume_work : M unit :=
  modify (fun p => p <| p_work := p_work p + 1 |>) ;;
  let! work := gets p_work in
  if DEFAULT_ACQUISITION_WORK_LIMIT <? work
  then refuse (WorkLimitExceeded DEFAULT_ACQUISITION_WORK_LIMIT) else ret tt.

Definition has_spell (spell_id : Z) (p : Planner) : bool :=
  match p_spells p !! spell_id with
  | Some row => bool_decide (spell_state row <> SpellState.Removed) && negb (disabled row)
  | None => false
  end.

Definition has_skill (skill_id : Z) (p : Planner) : bool :=
  match p_skills p !! skill_id with
  | Some row => bool_decide (skill_state row <> SkillState.Deleted) && (0 <? skill_value row)
  | None => false
  end.

(** The row of a skill unless it is deleted. *)
Definition live_skill (skill_id : Z) (p : Planner) : option PlayerSkillRow :=
  row ← p_skills p !! skill_id;
  if bool_decide (skill_state row <> SkillState.Deleted) then Some row else None.

Definition record_spell_transition (spell_id : Z) (before after : option PlayerSpellRow)
    (provenance : Provenance) : M unit :=
  if bool_decide (before <> after) then
    let transition := mkSpellTransition spell_id before after provenance in
    modify (fun p => p <| p_spell_transitions := p_spell_transitions p ++ [transition] |>
                       <| p_mutations := p_mutations p ++ [MutationSpell transition] |>)
  else ret tt.

Definition record_skill_transition (skill_id : Z) (before : option PlayerSkillRow)
    (after : PlayerSkillRow) (provenance : Provenance) : M unit :=
  if bool_decide (before = Some after) then ret tt
  else
    let transition := mkSkillTransition skill_id before after provenance in
    modify (fun p => p <| p_skill_transitions := p_skill_transitions p ++ [transition] |>
                       <| p_mutations := p_mutations p ++ [MutationSkill transition] |>).

Definition replace_spell_row (row : PlayerSpellRow) (provenance : Provenance) : M unit :=
  let! before := gets (fun p => p_spells p !! row_spell_id row) in
  modify (fun p => p <| p_spells := <[row_spell_id row := row]> (p_spells p) |>) ;;
  record_spell_transition (row_spell_id row) before (Some row) provenance.

Definition remove_spell_row (spell_id : Z) (provenance : Provenance) : M unit :=
  let! before := gets (fun p => p_spells p !! spell_id) in
  modify (fun p => p <| p_spells := delete spell_id (p_spells p) |>) ;;
  record_spell_transition spell_id before None provenance.

Definition push_override_transition (overridden overriding : Z) (add : bool) : M unit :=
  let transition := mkOverrideTransition overridden overriding add in
  modify (fun p => p <| p_override_transitions := p_override_transitions p ++ [transition] |>
                     <| p_mutations := p_mutations p ++ [MutationOverride transition] |>).

(** planner/spell.rs. *)
Definition add_override (overridden overriding : Z) : M unit :=
  let! known := gets (fun p => bool_decide ((overridden, overriding) ∈ p_overrides p)) in
  if known then ret tt
  else
    modify (fun p => p <| p_overrides := {[(overridden, overriding)]} ∪ p_overrides p |>) ;;
    push_override_transition overridden overriding true.

Definition remove_override (overridden overriding : Z) : M unit :=
  let! known := gets (fun p => bool_decide ((overridden, overriding) ∈ p_overrides p)) in
  if known then
    modify (fun p => p <| p_overrides := p_overrides p ∖ {[(overridden, overriding)]} |>) ;;
    push_override_transition overridden overriding false
  else ret tt.

(** * The functions that call each other *)
Record Ops : Type := mkOps
  { op_learn_spell : Z -> bool -> Z -> Provenance -> M unit;
    op_add_spell : Z -> bool -> bool -> bool -> bool -> Z -> bool -> Provenance -> M bool;
    op_set_skill : Z -> Z -> Z -> Z -> Provenance -> M unit;
    op_validate_spell_definition : Z -> M unit }.

Section Env.
Variable env : Env.
Notation md := (env_metadata env).

(** * Reading the metadata of a spell *)
Definition rows_or_refuse {A} (spell_id : Z) (table : SpellAcquisitionTable) (l : RowsLookup A) :
    M (list A) :=
  match l with
  | RowsMissingCoverage => refuse (MissingSpellCoverage spell_id table)
  | RowsIndeterminate reasons => refuse (IndeterminateSpellMetadata spell_id table reasons)
  | RowsCovered rows => ret rows
  end.

Definition row_or_refuse {A} (spell_id : Z) (table : SpellAcquisitionTable) (l : MetadataLookup A) :
    M (option A) :=
  match l with
  | MetadataMissingCoverage => refuse (MissingSpellCoverage spell_id table)
  | MetadataIndeterminate reasons => refuse (IndeterminateSpellMetadata spell_id table reasons)
  | CoveredWithoutRow => ret None
  | MetadataPresent row => ret (Some row)
  end.

Definition effects_or_refuse (spell_id : Z) : M (list SpellAcquisitionEffect) :=
  rows_or_refuse spell_id SpellEffectTable (difficulty_none_effects (catalog md) spell_id).

(** Every effective row that teaches a spell must be in the derived graph. *)
Definition check_dependency_row (spell_id : Z) (derived : list SpellLearnSpellNode)
    (row : SpellAcquisitionDependency) : M unit :=
  let! learned := lift (effective (dependency_record_id row) (learned_spell_id_checked row)) in
  if existsb (fun node => learned_spell node =? learned) derived then ret tt
  else refuse (MissingDerivedDependency spell_id learned).

Definition talent_or_refuse (spell_id : Z) : M bool :=
  if has_flag (attributes_for_spell_difficulty (spell_custom_attributes md) spell_id DIFFICULTY_NONE)
       SPELL_ATTR0_CU_IS_TALENT then ret true
  else
    match talent_membership (catalog md) spell_id with
    | Talent => ret true
    | NotTalent => ret false
    | TalentIndeterminate reasons => refuse (IndeterminateSpellMetadata spell_id TalentTable reasons)
    end.

Definition chain_or_refuse (spell_id : Z) : M (option SpellChainNode) :=
  match spell_chain_lookup (spell_chains md) spell_id with
  | Unranked => ret None
  | Node node => ret (Some node)
  | ChainIndeterminate d => refuse (RankChain spell_id d)
  end.

Definition learn_skill_or_refuse (spell_id : Z) : M (option SpellLearnSkillNode) :=
  match spell_learn_skill_lookup (spell_learn_skills md) spell_id with
  | LearnSkillPresent node => ret (Some node)
  | CoveredWithoutNode => ret None
  | LearnSkillIndeterminate reason => refuse (LearnSkill spell_id reason)
  | LearnSkillMissingCoverage => refuse (MissingLearnSkillCoverage spell_id)
  end.

Definition effective_spell_projection (spell_id : Z) : M SpellProjection :=
  consume_work ;;
  let! effects := effects_or_refuse spell_id in
  let! misc := row_or_refuse spell_id SpellMiscTable (misc_for_spell (catalog md) spell_id DIFFICULTY_NONE) in
  let derived := get_spell_learn_spell_map_bounds (spell_learn_spells md) spell_id in
  let! rows := rows_or_refuse spell_id SpellLearnSpellTable (dependency_rows_lookup (catalog md) spell_id) in
  for_each (check_dependency_row spell_id derived) rows ;;
  let! talent := talent_or_refuse spell_id in
  let! chain := chain_or_refuse spell_id in
  let! learned := learn_skill_or_refuse spell_id in
  ret (mkProjection effects misc talent chain learned derived).

(** * Validating a spell and the spells it teaches *)
Variable self : Ops.

Definition validate_effect (spell_id : Z) (effect : SpellAcquisitionEffect) : M unit :=
  let! effect_type := lift (effective (effect_record_id effect) (effect_type_checked effect)) in
  let! _ := lift (effective (effect_record_id effect) (effect_index_checked effect)) in
  (if (effect_type =? SPELL_EFFECT_CREATE_ITEM) || (effect_type =? SPELL_EFFECT_CREATE_LOOT)
   then lift (require_valid (craft_validity_authority md) spell_id) else ret tt) ;;
  if effect_type =? SPELL_EFFECT_LEARN_SPELL then
    let! learned := lift (effective (effect_record_id effect) (trigger_spell_id_checked effect)) in
    op_validate_spell_definition self learned
  else ret tt.

(** From the first visit of [spell_id] on, and [spell_id] again. *)
Definition visiting_cycle (path : list Z) (spell_id : Z) : option (list Z) :=
  i ← fst <$> list_find (eq spell_id) path; Some (drop i path ++ [spell_id]).

Definition pop_visiting (p : Planner) : Planner := p <| p_visiting := removelast (p_visiting p) |>.

Definition validate_spell_definition (spell_id : Z) : M unit :=
  let! validated := gets (fun p => bool_decide (spell_id ∈ p_validated p)) in
  if validated then ret tt
  else
    let! cycle := gets (fun p => visiting_cycle (p_visiting p) spell_id) in
    match cycle with
    | Some spell_ids => refuse (SpellValidationCycle spell_ids)
    | None =>
        consume_work ;;
        let! effects := effects_or_refuse spell_id in
        modify (fun p => p <| p_visiting := p_visiting p ++ [spell_id] |>) ;;
        finally (for_each (validate_effect spell_id) effects) pop_visiting ;;
        modify (fun p => p <| p_validated := {[spell_id]} ∪ p_validated p |>)
    end.
End Env.

(** * Starting a plan *)
Definition is_player_skill_id (z : Z) : bool := is_u16 z.

(** The checks of one spell row of the snapshot, in the map built so far. *)
Definition insert_snapshot_spell (m : gmap Z PlayerSpellRow) (row : PlayerSpellRow) :
    Prelude.result (gmap Z PlayerSpellRow) Indeterminate :=
  if row_spell_id row =? 0 then Err (InvalidSnapshot "spell_id" 0)
  else
    match trait_definition_id row with
    | Some id =>
        if id <=? 0 then Err (InvalidSnapshot "trait_definition_id" id)
        else if bool_decide (is_Some (m !! row_spell_id row))
        then Err (DuplicateSnapshotSpell (row_spell_id row)) else Ok (<[row_spell_id row := row]> m)
    | None =>
        if bool_decide (is_Some (m !! row_spell_id row))
        then Err (DuplicateSnapshotSpell (row_spell_id row)) else Ok (<[row_spell_id row := row]> m)
    end.

Definition invalid_association (a : ProfessionAssociationInput) : option Z :=
  match a with
  | InvalidSlot value => Some value
  | Slot slot => if 1 <? slot then Some slot else None
  | Unassigned => None
  end.

(** A deleted skill keeps nothing but its id. *)
Definition deleted_with_payload (row : PlayerSkillRow) : bool :=
  bool_decide (skill_state row = SkillState.Deleted)
  && (negb (skill_step row =? 0) || negb (skill_value row =? 0) || negb (skill_maximum row =? 0)
      || bool_decide (profession_association row <> Unassigned)).

Definition insert_snapshot_skill (m : gmap Z PlayerSkillRow) (row : PlayerSkillRow) :
    Prelude.result (gmap Z PlayerSkillRow) Indeterminate :=
  let id := row_skill_id row in
  if id =? 0 then Err (InvalidSnapshot "skill_id" 0)
  else if negb (is_u16 id) then Err (InvalidSkillIdentifier id "player snapshot")
  else if MAX_SKILL_STEP <? skill_step row then Err (InvalidSkillStep id (skill_step row))
  else
    match invalid_association (profession_association row) with
    | Some value => Err (InvalidSnapshot "profession_association" value)
    | None =>
        if deleted_with_payload row then Err (InvalidSnapshot "deleted_skill_payload" id)
        else if (skill_maximum row <? skill_value row) && negb (skill_maximum row =? 0)
        then Err (InvalidSnapshot "skill_value_above_maximum" id)
        else if bool_decide (is_Some (m !! id)) then Err (DuplicateSnapshotSkill id)
        else Ok (<[id := row]> m)
    end.

Fixpoint fold_result {A B E} (f : B -> A -> Prelude.result B E) (b : B) (l : list A) :
    Prelude.result B E :=
  match l with
  | [] => Ok b
  | a :: l => let? b := f b a in fold_result f b l
  end.

(** The professions among the skills that are neither deleted nor at value 0. *)
Definition expect_profession (lines : SkillLineStore) (ids : list Z) (row : PlayerSkillRow) :
    Prelude.result (list Z) Indeterminate :=
  if bool_decide (skill_state row <> SkillState.Deleted) && negb (skill_value row =? 0) then
    match is_primary_profession_skill lines (row_skill_id row) with
    | Some true => Ok (ids ++ [row_skill_id row])
    | Some false => Ok ids
    | None => Err (MissingSkillLine (row_skill_id row))
    end
  else Ok ids.

Definition insert_snapshot_override (s : gset (Z * Z)) (edge : Z * Z) :
    Prelude.result (gset (Z * Z)) Indeterminate :=
  if (edge.1 =? 0) || (edge.2 =? 0)
  then Err (InvalidSnapshot "spell_override" (Z.min edge.1 edge.2)) else Ok ({[edge]} ∪ s).

Definition ok {A E} (r : Prelude.result A E) : option A := match r with Ok a => Some a | Err _ => None end.
Definition mask_bit (mask index : Z) : bool := negb (Z.land mask (2 ^ index) =? 0).

Definition valid_dual_wield (r : CastResolution) (e : ExecutedDualWieldEffect) : bool :=
  negb (dual_wield_record_id e =? 0) && (dual_wield_effect_index e <? 32)
  && mask_bit (executed_hit_target_effect_mask r) (dual_wield_effect_index e).

Definition valid_cast_resolution (spell_id : Z) (r : CastResolution) : bool :=
  negb (spell_id =? 0)
  && (reached_immediate_phase r
      || ((executed_hit_target_effect_mask r =? 0)
          && bool_decide (executed_dual_wield_effects r = [])))
  && forallb (valid_dual_wield r) (executed_dual_wield_effects r)
  && bool_decide (NoDup (executed_dual_wield_effects r))
  && forallb (fun e => bool_decide (ok (spell_id_checked e) = Some spell_id)
                       && bool_decide (is_Some (ok (effect_index_checked e)))) (effective_effects r)
  && bool_decide (NoDup (omap (fun e => ok (effect_index_checked e)) (effective_effects r))).

Definition check_cast_resolution (u : unit) (kv : Z * CastResolution) : Prelude.result unit Indeterminate :=
  if valid_cast_resolution kv.1 kv.2 then Ok tt else Err (InvalidCastResolution kv.1 None).

(** [SpellAcquisitionPlannerLikeCpp::new]. *)
Definition planner_new (snapshot : Snapshot) (metadata : Metadata) : Prelude.result Planner Indeterminate :=
  if race_mask_for_race (race snapshot) =? 0 then Err (InvalidSnapshot "race" (race snapshot))
  else if negb ((CLASS_WARRIOR <=? class snapshot) && (class snapshot <? MAX_CLASSES))
  then Err (InvalidSnapshot "class" (class snapshot))
  else if level snapshot =? 0 then Err (InvalidSnapshot "level" 0)
  else
    let? spell_map := fold_result insert_snapshot_spell ∅ (spells snapshot) in
    let? skill_map := fold_result insert_snapshot_skill ∅ (skills snapshot) in
    let primary := merge_sort Z.le (primary_profession_skill_ids snapshot) in
    if bool_decide (~ NoDup primary) then Err (InvalidSnapshot "primary_profession_skill_ids" 0)
    else
      let? expected := fold_result (expect_profession (skill_lines metadata)) []
                         (values_in_order skill_map) in
      if bool_decide (primary <> merge_sort Z.le expected)
      then Err (InvalidSnapshot "primary_profession_skill_ids" 0)
      else if MAX_PLAYER_SKILLS <? occupied_skill_slots snapshot then Err PlayerSkillCapacityExceeded
      else if negb (occupied_skill_slots snapshot =? Z.of_nat (size skill_map))
      then Err (InvalidSnapshot "occupied_skill_slots" (occupied_skill_slots snapshot))
      else
        let? override_set := fold_result insert_snapshot_override ∅ (overrides snapshot) in
        let? _ := fold_result check_cast_resolution tt (entries_in_order (cast_resolutions snapshot)) in
        Ok (mkPlanner 0 spell_map skill_map (occupied_skill_slots snapshot) override_set [] [] [] ∅
              [] [] [] [] [] [] [] [] 0).
