(* ===== verification/SpellPlannerSkill.v ===== *)
(** Skills in the spell acquisition planner: wow-world/src/spell_acquisition/
    planner/skill.rs.  A skill is set together with its parent skill, its
    children and the spells it rewards; a spell that is learned may set a skill. *)
From S2P Require Import Prelude BTree Guid SpellCatalog SpellModel SpellPlanner.

(** * Small steps *)
Definition put_skill (row : PlayerSkillRow) : M unit :=
  modify (fun p => p <| p_skills := <[row_skill_id row := row]> (p_skills p) |>).

Definition push_pending (skill_id : Z) : M unit :=
  modify (fun p => p <| p_pending := p_pending p ++ [skill_id] |>).
Definition pop_pending (p : Planner) : Planner := p <| p_pending := removelast (p_pending p) |>.

Definition push_parent (skill_id : Z) : M unit :=
  modify (fun p => p <| p_parent_path := p_parent_path p ++ [skill_id] |>).
Definition pop_parent (p : Planner) : Planner := p <| p_parent_path := removelast (p_parent_path p) |>.

(** The value of a skill, 0 where it is absent or deleted. *)
Definition live_value (skill_id : Z) (p : Planner) : Z :=
  match live_skill skill_id p with Some row => skill_value row | None => 0 end.

(** The skill is held at [step] or above. *)
Definition has_step (skill_id step : Z) (p : Planner) : bool :=
  match live_skill skill_id p with
  | Some row => (0 <? skill_value row) && (step <=? skill_step row)
  | None => false
  end.

Definition record_primary_profession_activation (fields : SkillLineAcquisitionFields) (old_value : Z)
    (after : PlayerSkillRow) : M unit :=
  let! known := gets (fun p => bool_decide (row_skill_id after ∈ p_root_professions p)) in
  if (old_value =? 0) && (category_id fields =? SKILL_CATEGORY_PROFESSION)
     && (parent_skill_line_id fields =? 0) && negb known
  then modify (fun p => p <| p_root_professions := p_root_professions p ++ [row_skill_id after] |>)
  else ret tt.

Definition record_skill_criteria (skill_id : Z) : M unit :=
  push_action (UpdateSkillRaisedCriteria skill_id) ;; push_action (UpdateAchieveSkillStepCriteria skill_id).

(** [race_mask_matches_like_cpp]; [class_mask_matches_like_cpp] does not know
    the mask -1 of [SpellCatalog.matches_class]. *)
Definition race_mask_matches (mask race : Z) : bool :=
  (mask =? 0) || negb (Z.land mask (race_mask_for_race race) =? 0).
Definition class_mask_matches (mask class : Z) : bool :=
  (mask =? 0) || negb (Z.land mask (2 ^ (class - 1)) =? 0).

(** The state of an existing skill after it was set to a positive value. *)
Definition settled_state (s : SkillState.t) (old_value : Z) : SkillState.t :=
  match s with
  | SkillState.Unchanged => if old_value =? 0 then SkillState.New else SkillState.Changed
  | SkillState.Deleted | SkillState.Changed => SkillState.Changed
  | SkillState.New => SkillState.New
  end.

Section Skill.
Variable env : Env.
Variable self : Ops.
Notation md := (env_metadata env).
Notation snap := (env_snapshot env).

(** * Reading the skill tables *)
Definition skill_line_fields (skill_id : Z) : Prelude.result SkillLineAcquisitionFields Indeterminate :=
  match acquisition_payload (skill_lines md) skill_id with
  | Absent => Err (MissingSkillLine skill_id)
  | Incomplete => Err (IncompleteSkillLine skill_id)
  | Complete fields => Ok fields
  end.

Definition tier_or_refuse (skill_id : Z) (info : SkillRaceClassInfoRecord) :
    Prelude.result SkillTiersEntry Indeterminate :=
  ok_or (tier_of (skill_tiers md) info) (MissingSkillTier skill_id (skill_tier_id info)).

Definition tier_maximum (skill_id : Z) (tier : SkillTiersEntry) (tier_index : Z) :
    Prelude.result Z Indeterminate :=
  let value := get_value_for_tier_index tier tier_index in
  if is_u16 value then Ok value else Err (InvalidSkillTierValue skill_id value).

(** [None] where the skill has no row for the race and class of the player. *)
Definition race_class_or_refuse (spell_id : option Z) (skill_id : Z) :
    Prelude.result (option SkillRaceClassInfoRecord) Indeterminate :=
  match skill_race_class_info_coverage_for_player (skill_store md) skill_id (race snap) (class snap) with
  | RaceClassCoveredZero => Ok None
  | RaceClassRow row => Ok (Some row)
  | RaceClassIndeterminate diagnostics => Err (SkillLineAbility spell_id (Some skill_id) diagnostics)
  end.

(** [u16::from(level) * 5], which a [u8] level keeps in range. *)
Definition max_for_level : Z := level snap * 5.

(** * Learning the skill a spell teaches *)
Definition range_maximum (info : SkillRaceClassInfoRecord) (learned : SpellLearnSkillNode)
    (value : Z) : Prelude.result (Z * Z) Indeterminate :=
  let skill_id := learn_skill learned in
  match skill_range_type info (skill_lines md) (skill_tiers md) with
  | RangeLanguage => Ok (300, 300)
  | RangeLevel => Ok (value, max_for_level)
  | RangeMono => Ok (value, 1)
  | RangeRank =>
      if learn_step learned =? 0 then Err (InvalidSkillStep skill_id 0)
      else
        let? tier := tier_or_refuse skill_id info in
        let? maximum := tier_maximum skill_id tier (learn_step learned - 1) in
        Ok (value, maximum)
  | RangeNone => Err (IncompleteSkillLine skill_id)
  end.

(** The value and the maximum the spell gives the skill, from the value the
    player has. *)
Definition learned_value_maximum (spell_id : Z) (learned : SpellLearnSkillNode) (value : Z) :
    Prelude.result (Z * Z) Indeterminate :=
  if negb (learn_maxvalue learned =? 0) then Ok (value, learn_maxvalue learned)
  else
    let? info := race_class_or_refuse (Some spell_id) (learn_skill learned) in
    match info with
    | None => Ok (value, 0)
    | Some info =>
        let? vm := range_maximum info learned value in
        Ok (if has_flag (race_class_flags info) SKILL_FLAG_ALWAYS_MAX_VALUE then vm.2 else vm.1, vm.2)
    end.

Definition apply_direct_learn_skill (spell_id : Z) (learned : SpellLearnSkillNode)
    (provenance : Provenance) : M unit :=
  let skill_id := learn_skill learned in
  if MAX_SKILL_STEP <? learn_step learned then refuse (InvalidSkillStep skill_id (learn_step learned))
  else
    let! _ := lift (skill_line_fields skill_id) in
    let! row := gets (live_skill skill_id) in
    let value := Z.max (match row with Some row => skill_value row | None => 0 end) (learn_value learned) in
    let maximum := match row with Some row => skill_maximum row | None => 0 end in
    let! vm := lift (learned_value_maximum spell_id learned value) in
    op_set_skill self skill_id (learn_step learned) vm.1 (Z.max maximum vm.2) provenance.

(** The step, value and maximum of a skill learned by default. *)
Definition starting_value (info : SkillRaceClassInfoRecord) (maximum : Z) : Z :=
  if has_flag (race_class_flags info) SKILL_FLAG_ALWAYS_MAX_VALUE then maximum
  else if class snap =? CLASS_DEATH_KNIGHT then Z.min (Z.max (sat_sub (level snap) 1 * 5) 1) maximum
  else 1.

Definition default_skill (info : SkillRaceClassInfoRecord) :
    Prelude.result (Z * Z * Z) Indeterminate :=
  let skill_id := race_class_skill_id info in
  match skill_range_type info (skill_lines md) (skill_tiers md) with
  | RangeLanguage => Ok (0, 300, 300)
  | RangeLevel => Ok (0, starting_value info max_for_level, max_for_level)
  | RangeMono => Ok (0, 1, 1)
  | RangeRank =>
      let? tier := tier_or_refuse skill_id info in
      let? maximum := tier_maximum skill_id tier 0 in
      Ok (1, starting_value info maximum, maximum)
  | RangeNone => Err (IncompleteSkillLine skill_id)
  end.

Definition learn_default_skill (info : SkillRaceClassInfoRecord) (provenance : Provenance) : M unit :=
  let skill_id := race_class_skill_id info in
  let! _ := lift (skill_line_fields skill_id) in
  let! svm := lift (default_skill info) in
  let '(step, value, maximum) := svm in
  let value :=
    if has_flag (race_class_flags info) SKILL_FLAG_ALWAYS_MAX_VALUE then maximum else value in
  op_set_skill self skill_id step value maximum provenance.

(** One row of [apply_skill_line_fallback]. *)
Definition fallback_row (spell_id from_skill : Z) (row : SkillLineAbilityRecord) : M unit :=
  let skill_id := skill_line row in
  let! _ := lift (skill_line_fields skill_id) in
  if skill_id =? from_skill then ret tt
  else
    let! known := gets (has_skill skill_id) in
    if ((acquire_method row =? SKILL_LINE_ABILITY_LEARNED_ON_SKILL_LEARN) && negb known)
       || ((skill_id =? SKILL_RUNEFORGING) && (trivial_rank_high row =? 0)) then
      let! info := lift (race_class_or_refuse (Some spell_id) skill_id) in
      match info with
      | None => push_diagnostic (SkillRaceClassNotApplicable skill_id)
      | Some info => learn_default_skill info (SkillLineAbilityFallback spell_id (ability_id row))
      end
    else ret tt.

(** The rows of the abilities of a spell. *)
Definition abilities_of_spell (spell_id : Z) : Prelude.result (list SkillLineAbilityRecord) Indeterminate :=
  if negb (is_i32 spell_id) then Err (InvalidSnapshot "spell_id_i32" spell_id)
  else
    match skill_line_ability_coverage_by_spell (skill_store md) spell_id with
    | AbilitiesCoveredZero => Ok []
    | AbilityRows rows => Ok rows
    | AbilitiesIndeterminate diagnostics => Err (SkillLineAbility (Some spell_id) None diagnostics)
    end.

Definition apply_skill_line_fallback (spell_id from_skill : Z) : M unit :=
  let! rows := lift (abilities_of_spell spell_id) in
  for_each (fallback_row spell_id from_skill) rows.

(** * The spells a skill rewards *)
Definition consume_future_player_condition_resolution (spell_id condition_id : Z) : M bool :=
  let! occurrence := gets p_cursor in
  match future_player_condition_resolutions snap !! occurrence with
  | None => refuse (MissingFuturePlayerConditionResolution spell_id condition_id (Z.of_nat occurrence))
  | Some resolution =>
      if negb (future_condition_id resolution =? condition_id)
      then refuse (FuturePlayerConditionResolutionMismatch spell_id (Z.of_nat occurrence) condition_id
                     (future_condition_id resolution))
      else modify (fun p => p <| p_cursor := S occurrence |>) ;; ret (future_allowed resolution)
  end.

(** A gate answers with its name where it rejects. *)
Definition quest_gate (ability : SkillLineAbilityRecord) (spell_id : Z) : M (option string) :=
  if negb (acquire_method ability =? SKILL_LINE_ABILITY_REWARDED_FROM_QUEST) then ret None
  else if Z.land (wrap_u 8 (ability_flags ability))
            (wrap_u 8 SKILL_LINE_ABILITY_CAN_FALLBACK_TO_LEARNED_ON_SKILL_LEARN) =? 0
  then ret (Some "quest fallback flag"%string)
  else
    let! misc := row_or_refuse spell_id SpellMiscTable (misc_for_spell (catalog md) spell_id DIFFICULTY_NONE) in
    let! condition := lift (match misc with
                            | None => Ok None
                            | Some misc => effective (misc_record_id misc) (future_player_condition_id_checked misc)
                            end) in
    match condition with
    | None => ret (Some "missing future player condition"%string)
    | Some condition_id =>
        let! allowed := consume_future_player_condition_resolution spell_id condition_id in
        ret (if allowed then None else Some "future player condition"%string)
    end.

Definition riding_gate (skill_id : Z) (ability : SkillLineAbilityRecord) : option string :=
  if (skill_id =? SKILL_RIDING)
     && (negb (acquire_method ability =? SKILL_LINE_ABILITY_LEARNED_ON_SKILL_LEARN)
         || negb (num_skill_ups ability =? 1))
  then Some "riding auto-learn"%string else None.

Definition race_class_gate (ability : SkillLineAbilityRecord) : option string :=
  if negb (race_mask_matches (ability_race_mask ability) (race snap))
     || negb (class_mask_matches (ability_class_mask ability) (class snap))
  then Some "race/class"%string else None.

Definition level_gate (spell_id : Z) : M (option string) :=
  let! row := row_or_refuse spell_id SpellLevelsTable (levels_for_spell (catalog md) spell_id DIFFICULTY_NONE) in
  let levels := default (mkLevels 0 spell_id DIFFICULTY_NONE 0 0) row in
  let! base := lift (effective (levels_record_id levels) (base_level_checked levels)) in
  let! spell := lift (effective (levels_record_id levels) (spell_level_checked levels)) in
  let required := Z.max base spell in
  if required <? 0
  then refuse (InvalidEffectiveValue (levels_record_id levels) "SpellLevels.BaseLevel/SpellLevel" required)
  else ret (if level snap <? required then Some "player level"%string else None).

Definition rank_gate (skill_id skill_value spell_id : Z) (ability : SkillLineAbilityRecord) :
    M (option string) :=
  if (skill_value <? min_skill_line_rank ability)
     && (acquire_method ability =? SKILL_LINE_ABILITY_LEARNED_ON_SKILL_VALUE) then
    let! row := gets (fun p => p_spells p !! spell_id) in
    match row with
    | Some row =>
        if bool_decide (spell_state row <> SpellState.Removed /\ spell_state row <> SpellState.Temporary)
        then refuse (RewardSpellRemovalRequired skill_id spell_id (ability_id ability))
        else ret (Some "minimum skill rank"%string)
    | None => ret (Some "minimum skill rank"%string)
    end
  else ret None.

(** Gates in a row: the first that rejects. *)
Definition and_gate (gate next : M (option string)) : M (option string) :=
  let! rejected := gate in
  match rejected with Some name => ret (Some name) | None => next end.

Definition learn_reward (skill_id spell_id : Z) (ability : SkillLineAbilityRecord) : M unit :=
  let provenance := SkillReward skill_id (ability_id ability) in
  if is_in_world (lifecycle snap) then op_learn_spell self spell_id true (skill_line ability) provenance
  else op_add_spell self spell_id true true true false (skill_line ability) false provenance ;; ret tt.

Definition relevant_method (ability : SkillLineAbilityRecord) : bool :=
  (acquire_method ability =? SKILL_LINE_ABILITY_LEARNED_ON_SKILL_VALUE)
  || (acquire_method ability =? SKILL_LINE_ABILITY_LEARNED_ON_SKILL_LEARN)
  || (acquire_method ability =? SKILL_LINE_ABILITY_REWARDED_FROM_QUEST).

Definition reward_spell_id (ability : SkillLineAbilityRecord) : Prelude.result Z Indeterminate :=
  if is_u32 (ability_spell ability) && negb (ability_spell ability =? 0) then Ok (ability_spell ability)
  else Err (InvalidSnapshot "SkillLineAbility.Spell" (ability_spell ability)).

Definition learn_skill_reward (skill_id skill_value : Z) (ability : SkillLineAbilityRecord) : M unit :=
  let reject gate := push_diagnostic (RewardGateRejected skill_id (ability_id ability) gate) in
  if negb (relevant_method ability) then reject "acquire method"%string
  else
    let! spell_id := lift (reward_spell_id ability) in
    if negb (contains_spell_difficulty_key (catalog md) spell_id DIFFICULTY_NONE)
    then reject "missing SpellInfo"%string
    else
      let! rejected :=
        and_gate (quest_gate ability spell_id)
          (and_gate (ret (riding_gate skill_id ability))
             (and_gate (ret (race_class_gate ability))
                (and_gate (level_gate spell_id) (rank_gate skill_id skill_value spell_id ability)))) in
      match rejected with
      | Some gate => reject gate
      | None => learn_reward skill_id spell_id ability
      end.

Definition learn_skill_rewards (skill_id skill_value : Z) : M unit :=
  if negb (is_u16 skill_id) then refuse (InvalidSkillIdentifier skill_id "LearnSkillRewardedSpells")
  else
    match skill_line_ability_coverage_by_skill (skill_store md) skill_id with
    | AbilitiesCoveredZero => ret tt
    | AbilityRows rows => for_each (learn_skill_reward skill_id skill_value) rows
    | AbilitiesIndeterminate diagnostics => refuse (SkillLineAbility None (Some skill_id) diagnostics)
    end.

(** * The parent of a skill *)
(** Sets the parent with both skills on the path, unless that closes a cycle. *)
Definition set_parent_skill (child parent step value maximum : Z) : M unit :=
  let! owns_child := gets (fun p => negb (bool_decide (last (p_parent_path p) = Some child))) in
  (if owns_child then push_parent child else ret tt) ;;
  finally
    (let! cycle := gets (fun p => visiting_cycle (p_parent_path p) parent) in
     match cycle with
     | Some skill_ids => refuse (SkillParentCycle skill_ids)
     | None =>
         push_parent parent ;;
         finally (op_set_skill self parent step value maximum (ParentSkill child)) pop_parent
     end)
    (fun p => if owns_child then pop_parent p else p).

Definition activate_parent_skill (child : Z) (fields : SkillLineAcquisitionFields) : M unit :=
  let parent := parent_skill_line_id fields in
  let required_step := parent_tier_index fields in
  if (parent =? 0) || (required_step <=? 0) then ret tt
  else if negb (is_u16 required_step) || (MAX_SKILL_STEP <? required_step)
  then refuse (InvalidSkillStep parent required_step)
  else
    let! active := gets (has_step parent required_step) in
    if active then ret tt
    else if negb (is_u16 parent)
    then refuse (InvalidSkillIdentifier parent "SkillLine.ParentSkillLineID")
    else
      let! info := lift (race_class_or_refuse None parent) in
      match info with
      | None => push_diagnostic (SkillRaceClassNotApplicable parent)
      | Some info =>
          let! _ := lift (skill_line_fields parent) in
          let! tier := lift (tier_or_refuse parent info) in
          let! maximum := lift (tier_maximum parent tier (sat_sub required_step 1)) in
          let! value := gets (live_value parent) in
          set_parent_skill child parent required_step (Z.max value 1) maximum
      end.

(** * Setting a skill *)
Definition set_existing_skill (skill_id step new_value maximum : Z) (provenance : Provenance)
    (fields : SkillLineAcquisitionFields) (existing : PlayerSkillRow) : M unit :=
  if 0 <? new_value then
    activate_parent_skill skill_id fields ;;
    let during_rewards := mkSkillRow skill_id step new_value maximum (profession_association existing)
                            (skill_state existing) in
    put_skill during_rewards ;;
    record_skill_transition skill_id (Some existing) during_rewards provenance ;;
    learn_skill_rewards skill_id new_value ;;
    (if (skill_id =? SKILL_RIDING) && (skill_value existing <? new_value)
     then push_action (UpdateMountCapability skill_id) else ret tt) ;;
    record_skill_criteria skill_id ;;
    let after := mkSkillRow skill_id step new_value maximum (profession_association existing)
                   (settled_state (skill_state existing) (skill_value existing)) in
    put_skill after ;;
    record_skill_transition skill_id (Some during_rewards) after provenance ;;
    record_primary_profession_activation fields (skill_value existing) after
  else if 0 <? skill_value existing
  then refuse (UnsupportedSkillDecrease skill_id (skill_value existing) new_value)
  else ret tt.

(** One child of a root skill that is being created. *)
Definition create_child (skill_id : Z) (child : Z * SkillLineAcquisitionPayload) : M unit :=
  match child.2 with
  | Incomplete => refuse (IncompleteSkillLine child.1)
  | Absent => refuse (MissingSkillLine child.1)
  | Complete _ =>
      let! pending := gets (fun p => bool_decide (child.1 ∈ p_pending p)) in
      let! known := gets (has_skill child.1) in
      if pending || known then ret tt
      else op_set_skill self child.1 0 0 0 (RootChildSkill skill_id)
  end.

Definition check_capacity : M unit :=
  let! occupied := gets p_occupied in
  if MAX_PLAYER_SKILLS <=? occupied then refuse PlayerSkillCapacityExceeded else ret tt.

(** The parent is being created and asked for this child. *)
Definition created_by_parent (provenance : Provenance) (parent : Z) (p : Planner) : bool :=
  match provenance with
  | RootChildSkill parent_skill_id =>
      (parent_skill_id =? parent) && bool_decide (parent_skill_id ∈ p_pending p)
  | _ => false
  end.

Definition relate_new_skill (skill_id : Z) (provenance : Provenance)
    (fields : SkillLineAcquisitionFields) : M unit :=
  let! created := gets (created_by_parent provenance (parent_skill_line_id fields)) in
  if negb (parent_skill_line_id fields =? 0) && negb created then activate_parent_skill skill_id fields
  else if parent_skill_line_id fields =? 0
  then for_each (create_child skill_id) (acquisition_children_for_parent (skill_lines md) skill_id)
  else ret tt.

Definition insert_new_skill (skill_id step new_value maximum : Z) (provenance : Provenance)
    (fields : SkillLineAcquisitionFields) : M unit :=
  push_pending skill_id ;;
  finally
    (check_capacity ;;
     relate_new_skill skill_id provenance fields ;;
     check_capacity ;;
     let after := mkSkillRow skill_id step new_value maximum Unassigned SkillState.New in
     put_skill after ;;
     modify (fun p => p <| p_occupied := sat_add 65535 (p_occupied p) 1 |>) ;;
     record_skill_transition skill_id None after provenance ;;
     record_primary_profession_activation fields 0 after ;;
     (if 0 <? new_value
      then learn_skill_rewards skill_id new_value ;; record_skill_criteria skill_id else ret tt))
    pop_pending.

Definition set_skill_inner (skill_id step new_value maximum : Z) (provenance : Provenance) : M unit :=
  if negb (is_u16 skill_id) then refuse (InvalidSkillIdentifier skill_id "SetSkill")
  else
    let! fields := lift (skill_line_fields skill_id) in
    let! before := gets (fun p => p_skills p !! skill_id) in
    match before with
    | Some existing => set_existing_skill skill_id step new_value maximum provenance fields existing
    | None => insert_new_skill skill_id step new_value maximum provenance fields
    end.

Definition set_skill (skill_id step new_value maximum : Z) (provenance : Provenance) : M unit :=
  if MAX_SKILL_STEP <? step then refuse (InvalidSkillStep skill_id step)
  else consume_work ;; set_skill_inner skill_id step new_value maximum provenance.
End Skill.
