(* ===== verification/SpellPlannerCast.v ===== *)
(** Casts in the spell acquisition planner: wow-world/src/spell_acquisition/
    planner/cast.rs.  A spell that is cast when it is learned has the effects
    that teach spells and set skills projected into the plan, each in the phase
    the cast runs it in; a cast that is not proven safe is refused or, where the
    policy says so, deferred with everything it did undone. *)
From S2P Require Import Prelude BTree Guid Float32 SpellCatalog SpellModel SpellPlanner SpellPlannerSkill.

Inductive AddSpellAutocastResult : Type := AutocastNone | AutocastCast | SkillStepReturned.
#[export] Instance autocast_result_eq_dec : EqDecision AddSpellAutocastResult.
Proof. solve_decision. Defined.

(** * Kinds of effects *)
(** [is_cpp_null_or_unused_noop] of wow-data/src/spell/spell_effect_types.rs. *)
Definition null_or_unused_effects : list Z :=
  [0;4;12;13;14;15;20;21;25;26;35;37;39;46;48;49;51;52;65;78;80;81;82;91;105;107;112;119;122;128;129;
   135;143;163;168;175;177;178;180;182;183;184;185;186;187;188;189;190;191;193;194;199;202;206;207;208;
   209;210;211;214;215;216;217;218;220;221;223;224;226;227;228;229;230;231;232;233;234;235;238;239;240;
   241;242;244;246;247;248;249;250;251;256;257;258;259;260;261;262;263;264;265;266;268;269;270;271;272;
   273;274;275;277;278;279;280;281;282;283;285;287;288;294;295;296;297;298;299;300;301;302;305;306;307;
   308;309;310;311;312;313;314;315].
Definition is_cpp_null_or_unused_noop (effect : Z) : bool := existsb (Z.eqb effect) null_or_unused_effects.

Definition runtime_dispatched_acquisition_effect (effect_type : Z) : bool :=
  existsb (Z.eqb effect_type)
    [SPELL_EFFECT_TRIGGER_MISSILE; SPELL_EFFECT_SUMMON_CHANGE_ITEM; SPELL_EFFECT_SUMMON_PET;
     SPELL_EFFECT_TRIGGER_SPELL; SPELL_EFFECT_SCRIPT_EFFECT; SPELL_EFFECT_TRIGGER_SPELL_WITH_VALUE;
     SPELL_EFFECT_TRIGGER_MISSILE_SPELL_WITH_VALUE; SPELL_EFFECT_TRIGGER_SPELL_2;
     SPELL_EFFECT_UNLEARN_SPECIALIZATION; SPELL_EFFECT_UPGRADE_CHARACTER_SPELLS;
     SPELL_EFFECT_TRIGGER_ACTION_SET].

(** The type of an effect, [None] where it is invalid. *)
Definition effect_type (e : SpellAcquisitionEffect) : option Z := ok (effect_type_checked e).
Definition has_type (types : list Z) (e : SpellAcquisitionEffect) : bool :=
  match effect_type e with Some t => existsb (Z.eqb t) types | None => false end.

Definition effect_can_change_acquisition (e : SpellAcquisitionEffect) : bool :=
  match effect_type e with
  | Some t =>
      existsb (Z.eqb t)
        [SPELL_EFFECT_SUMMON; SPELL_EFFECT_LEARN_SPELL; SPELL_EFFECT_SKILL_STEP; SPELL_EFFECT_SKILL;
         SPELL_EFFECT_DUAL_WIELD; SPELL_EFFECT_LEARN_PET_SPELL]
      || runtime_dispatched_acquisition_effect t || negb (effect_trigger_spell_raw e =? 0)
  | None => false
  end.

Definition effect_provenance (spell_id : Z) (e : SpellAcquisitionEffect) (trainer_wrapper : bool) :
    Prelude.result Provenance Indeterminate :=
  let? index := effective (effect_record_id e) (effect_index_checked e) in
  Ok (if trainer_wrapper then WrapperEffect spell_id index (effect_record_id e)
      else AutocastEffect spell_id index (effect_record_id e)).

(** [misc.map(...).transpose()?.unwrap_or(false)]. *)
Definition misc_flag (read : SpellAcquisitionMisc -> checked bool) (misc : option SpellAcquisitionMisc) :
    Prelude.result bool Indeterminate :=
  match misc with
  | None => Ok false
  | Some misc => effective (misc_record_id misc) (read misc)
  end.

Definition require_player_effect_target (spell_id index : Z) (e : SpellAcquisitionEffect) :
    Prelude.result unit Indeterminate :=
  let '(a, b) := implicit_target_raw e in
  if (a =? TARGET_UNIT_PET) || (b =? TARGET_UNIT_PET) then Err (PetLearnPath spell_id index)
  else if targets_player e then Ok tt else Err (UnsupportedEffectTarget spell_id index (a, b)).

Section Cast.
Variable env : Env.
Variable self : Ops.
Notation md := (env_metadata env).
Notation snap := (env_snapshot env).

Definition defers : bool := bool_decide (env_policy env = DeferUnavailable).

Definition require_cast_authority_or_defer (spell_id : Z) (reason : CastReason) : M bool :=
  match require_safe (cast_authority md) spell_id with
  | Ok _ => ret true
  | Err cause =>
      if defers then push_diagnostic (AcquisitionCastDeferred spell_id reason cause) ;; ret false
      else refuse cause
  end.

(** * Skill effects *)
(** The fields of an effect that would make its value depend on the cast. *)
Definition dynamic_calc_fields (e : SpellAcquisitionEffect) : list (string * Z) :=
  [("SpellEffect.Coefficient"%string, effect_coefficient_bits e);
   ("SpellEffect.Variance"%string, effect_variance_bits e);
   ("SpellEffect.EffectPointsPerResource"%string, effect_points_per_resource_bits e);
   ("SpellEffect.EffectRealPointsPerLevel"%string, effect_real_points_per_level_bits e)].

Definition static_field (spell_id index : Z) (u : unit) (f : string * Z) : Prelude.result unit Indeterminate :=
  let value := f32_from_bits f.2 in
  if negb (f32_is_finite value) || f32_nonzero value then Err (RuntimeCalcValue spell_id index f.1) else Ok tt.

(** The skill and the value an effect names. *)
Definition skill_effect_value (spell_id : Z) (e : SpellAcquisitionEffect) :
    Prelude.result (Z * Z * Z * Z) Indeterminate :=
  let checked_field {A} (r : checked A) := effective (effect_record_id e) r in
  let? index := checked_field (effect_index_checked e) in
  let? kind := checked_field (effect_type_checked e) in
  let? skill_id := checked_field (misc_value_id_checked e) in
  if negb (is_u16 skill_id) then Err (InvalidSkillIdentifier skill_id "SpellEffect.EffectMiscValue")
  else
    let? _ := fold_result (static_field spell_id index) tt (dynamic_calc_fields e) in
    if negb (effect_chain_targets_raw e =? 0)
    then Err (RuntimeCalcValue spell_id index "SpellEffect.EffectChainTargets")
    else
      let? domain := checked_field (base_points_die_sides_domain_checked e) in
      match deterministic_value domain with
      | None => Err (InvalidEffectiveValue (effect_record_id e) "SpellEffect.CalcValue" (effect_base_points_raw e))
      | Some value => Ok (index, kind, skill_id, value)
      end.

(** Raising [skill_id] to [step]. *)
Definition raise_skill (skill_id step : Z) (provenance : Provenance) : M unit :=
  let! info := lift (race_class_or_refuse env None skill_id) in
  match info with
  | None => push_diagnostic (SkillRaceClassNotApplicable skill_id)
  | Some info =>
      let! _ := lift (skill_line_fields env skill_id) in
      let! tier := lift (tier_or_refuse env skill_id info) in
      let! maximum := lift (tier_maximum skill_id tier (step - 1)) in
      let! value := gets (live_value skill_id) in
      op_set_skill self skill_id step
        (if has_flag (race_class_flags info) SKILL_FLAG_ALWAYS_MAX_VALUE then maximum else Z.max value 1)
        maximum provenance
  end.

Definition apply_cast_skill_effect (spell_id : Z) (e : SpellAcquisitionEffect) (provenance : Provenance) :
    M unit :=
  let! v := lift (skill_effect_value spell_id e) in
  let '(index, kind, skill_id, step) := v in
  if step <? 1 then push_diagnostic (EffectHadNoRuntimeChange spell_id index "CalcValue < 1")
  else if negb (is_u16 step) || (MAX_SKILL_STEP <? step) then refuse (InvalidSkillStep skill_id step)
  else
    let! held := gets (has_step skill_id step) in
    if (kind =? SPELL_EFFECT_SKILL) && held
    then push_diagnostic (EffectHadNoRuntimeChange spell_id index "SKILL effect did not raise the current step")
    else raise_skill skill_id step provenance.

(** * The phases of a cast *)
(** Refuses an effect whose handler the plan cannot project. *)
Definition require_projectable (spell_id : Z) (e : SpellAcquisitionEffect) : M unit :=
  let! kind := lift (effective (effect_record_id e) (effect_type_checked e)) in
  let! index := lift (effective (effect_record_id e) (effect_index_checked e)) in
  if kind =? SPELL_EFFECT_SUMMON then refuse (BattlePetOrSummonPath spell_id index)
  else if kind =? SPELL_EFFECT_LEARN_PET_SPELL then refuse (PetLearnPath spell_id index)
  else if runtime_dispatched_acquisition_effect kind
          || (negb (kind =? SPELL_EFFECT_LEARN_SPELL) && negb (effect_trigger_spell_raw e =? 0))
  then refuse (UnsupportedRuntimeEffect spell_id index kind)
  else if negb (kind =? 0)
          && negb (existsb (Z.eqb kind)
               [SPELL_EFFECT_DUMMY; SPELL_EFFECT_LEARN_SPELL; SPELL_EFFECT_SKILL_STEP; SPELL_EFFECT_SKILL;
                SPELL_EFFECT_DUAL_WIELD])
          && negb (is_cpp_null_or_unused_noop kind)
  then refuse (UnsupportedRuntimeEffect spell_id index kind)
  else ret tt.

Definition known_effect_mask (mask : Z) (e : SpellAcquisitionEffect) : Prelude.result Z Indeterminate :=
  let? index := effective (effect_record_id e) (effect_index_checked e) in
  Ok (Z.lor mask (2 ^ index)).

(** The position of the lowest bit of a mask of 32 bits. *)
Definition trailing_zeros (mask : Z) : Z :=
  match list_find (fun i => Is_true (Z.testbit mask (Z.of_nat i))) (seq 0 32) with
  | Some (i, _) => Z.of_nat i
  | None => 32
  end.

(** What the server resolved of the cast; [None] where it stopped before the
    immediate phase. *)
Definition require_cast_resolution (spell_id : Z) (effects : list SpellAcquisitionEffect) :
    M (option CastResolution) :=
  let! resolution := some_or (cast_resolutions snap !! spell_id) (MissingCastResolution spell_id) in
  let! known := lift (fold_result known_effect_mask 0 effects) in
  let unknown := Z.ldiff (executed_hit_target_effect_mask resolution) known in
  if negb (unknown =? 0) then refuse (InvalidCastResolution spell_id (Some (trailing_zeros unknown)))
  else if negb (reached_immediate_phase resolution)
  then push_diagnostic (CastStoppedBeforeImmediatePhase spell_id) ;; ret None
  else ret (Some resolution).

(** [HANDLE_HIT]. *)
Definition immediate_effect (spell_id : Z) (trainer_wrapper : bool) (e : SpellAcquisitionEffect) : M unit :=
  if has_type [SPELL_EFFECT_SKILL] e then
    let! provenance := lift (effect_provenance spell_id e trainer_wrapper) in
    apply_cast_skill_effect spell_id e provenance
  else ret tt.

Definition grant_dual_wield (spell_id index : Z) (e : SpellAcquisitionEffect) (resolution : CastResolution) :
    M unit :=
  if existsb (fun x => (dual_wield_effect_index x =? index)
                       && (dual_wield_record_id x =? effect_record_id e))
       (executed_dual_wield_effects resolution)
  then
    push_diagnostic (DualWieldEffectProjected spell_id (effect_record_id e) index) ;;
    push_action (GrantDualWield spell_id (effect_record_id e) index)
  else refuse (InvalidCastResolution spell_id (Some index)).

(** One effect of [HANDLE_HIT_TARGET] on the player. *)
Definition execute_hit_target (spell_id kind index : Z) (trainer_wrapper : bool)
    (e : SpellAcquisitionEffect) (resolution : CastResolution) : M unit :=
  let! provenance := lift (effect_provenance spell_id e trainer_wrapper) in
  if kind =? SPELL_EFFECT_LEARN_SPELL then
    if effect_trigger_spell_raw e =? 0 then refuse (CastItemLearnPath spell_id index)
    else
      let! learned := lift (effective (effect_record_id e) (trigger_spell_id_checked e)) in
      op_learn_spell self learned false 0 provenance
  else if kind =? SPELL_EFFECT_SKILL_STEP then apply_cast_skill_effect spell_id e provenance
  else grant_dual_wield spell_id index e resolution.

Definition hit_target_types : list Z :=
  [SPELL_EFFECT_LEARN_SPELL; SPELL_EFFECT_SKILL_STEP; SPELL_EFFECT_DUAL_WIELD].

Definition hit_target_effect (spell_id : Z) (trainer_wrapper : bool) (resolution : CastResolution)
    (e : SpellAcquisitionEffect) : M unit :=
  let! kind := lift (effective (effect_record_id e) (effect_type_checked e)) in
  if negb (existsb (Z.eqb kind) hit_target_types) then ret tt
  else
    let! index := lift (effective (effect_record_id e) (effect_index_checked e)) in
    let! _ := lift (require_player_effect_target spell_id index e) in
    if mask_bit (executed_hit_target_effect_mask resolution) index
    then execute_hit_target spell_id kind index trainer_wrapper e resolution
    else push_diagnostic (HitTargetEffectSuppressed spell_id index).

(** The effects that need the server's resolution of the cast. *)
Definition player_cast_types : list Z :=
  [SPELL_EFFECT_LEARN_SPELL; SPELL_EFFECT_SKILL_STEP; SPELL_EFFECT_SKILL; SPELL_EFFECT_DUAL_WIELD].

(** A trainer's cast uses the effects the server resolved, if there are any. *)
Definition cast_effects (spell_id : Z) (effects : list SpellAcquisitionEffect) (trainer_wrapper : bool) :
    list SpellAcquisitionEffect :=
  if trainer_wrapper then
    match effective_effects <$> cast_resolutions snap !! spell_id with
    | Some (e :: l) => e :: l
    | _ => effects
    end
  else effects.

(** Without such effects neither phase has anything to do. *)
Definition run_phases (spell_id : Z) (effects : list SpellAcquisitionEffect) (trainer_wrapper : bool) : M unit :=
  if existsb (has_type player_cast_types) effects then
    let! resolution := require_cast_resolution spell_id effects in
    match resolution with
    | None => ret tt
    | Some resolution =>
        for_each (immediate_effect spell_id trainer_wrapper) effects ;;
        for_each (hit_target_effect spell_id trainer_wrapper resolution) effects
    end
  else ret tt.

Definition simulate_cast (spell_id : Z) (effects : list SpellAcquisitionEffect) (reason : CastReason)
    (trainer_wrapper : bool) : M unit :=
  consume_work ;;
  let! _ := lift (require_safe (cast_authority md) spell_id) in
  let effects := cast_effects spell_id effects trainer_wrapper in
  push_diagnostic (AcquisitionCastProjected spell_id reason) ;;
  for_each (require_projectable spell_id) effects ;;
  run_phases spell_id effects trainer_wrapper.

(** The cast runs on a copy of the planner that is kept where it succeeds; a
    deferred cast leaves its work count behind. *)
Definition simulate_or_defer_cast (spell_id : Z) (effects : list SpellAcquisitionEffect)
    (reason : CastReason) (trainer_wrapper : bool) : M bool := fun p =>
  match simulate_cast spell_id effects reason trainer_wrapper p with
  | None => None
  | Some (sandbox, Ok _) => Some (sandbox, Ok true)
  | Some (sandbox, Err cause) =>
      if defers then
        (modify (fun p => p <| p_work := Z.max (p_work p) (p_work sandbox) |>) ;;
         push_diagnostic (AcquisitionCastDeferred spell_id reason cause) ;;
         ret false) p
      else Some (p, Err cause)
  end.

(** * The cast of a spell that is added *)
(** An ordinary passive cast is left to the runtime. *)
Definition refresh_passive (spell_id : Z) : M unit :=
  let! safe := require_cast_authority_or_defer spell_id PassiveLearn in
  if safe then push_action (RefreshPassive spell_id) else ret tt.

Definition autocast_reason (projection : SpellProjection) (passive cast_when_learned : bool) :
    option CastReason :=
  if projected_talent projection
     && existsb (has_type [SPELL_EFFECT_LEARN_SPELL]) (projected_effects projection)
  then Some TalentLearnEffect
  else if passive then
    if existsb effect_can_change_acquisition (projected_effects projection) then Some PassiveLearn else None
  else if existsb (has_type [SPELL_EFFECT_SKILL_STEP]) (projected_effects projection)
  then Some SkillStepReason
  else if cast_when_learned then Some CastWhenLearned else None.

Definition project_add_spell_autocast (spell_id : Z) (projection : SpellProjection) :
    M AddSpellAutocastResult :=
  let! passive := lift (misc_flag is_passive_checked (projected_misc projection)) in
  let! when_learned := lift (misc_flag cast_when_learned_checked (projected_misc projection)) in
  match autocast_reason projection passive when_learned with
  | None => (if passive then refresh_passive spell_id else ret tt) ;; ret AutocastNone
  | Some reason =>
      simulate_or_defer_cast spell_id (projected_effects projection) reason false ;;
      ret (if existsb (has_type [SPELL_EFFECT_SKILL_STEP]) (projected_effects projection)
           then SkillStepReturned else AutocastCast)
  end.
End Cast.
