(* ===== verification/SpellPlannerSpell.v ===== *)
(** Spells in the spell acquisition planner: wow-world/src/spell_acquisition/
    planner/spell.rs.  A spell is added with the ranks below it, the cast it
    starts, the skill and the spells it teaches; learning a spell adds it and
    enables again the ranks and spells that were disabled with it.  The end of the
    file ties the planner together and makes its plans (planner/mod.rs). *)
From S2P Require Import Prelude BTree Guid SpellCatalog SpellModel SpellPlanner SpellPlannerSkill SpellPlannerCast.

(** The arguments of [add_spell] that it never changes ([_loading] is not read). *)
Record AddRequest : Type := mkAdd
  { add_spell_id : Z; add_learning : bool; add_dependent : bool; add_disabled : bool;
    add_from_skill : Z; add_favorite : bool; add_provenance : Provenance }.

(** What the row the player already has leaves to do: nothing, or going on with
    this [active], this state of the new row and this [disabled_case]. *)
Inductive ExistingOutcome : Type :=
  | Finished (learned : bool) | Proceed (now_active : bool) (state : SpellState.t) (disabled_case : bool).

(** [if row.state != New { row.state = Changed }]. *)
Definition touch (row : PlayerSpellRow) : PlayerSpellRow :=
  if bool_decide (spell_state row = SpellState.New) then row else row <| spell_state := SpellState.Changed |>.

Definition deactivate (row : PlayerSpellRow) : PlayerSpellRow := touch (row <| active := false |>).

(** Runs [f] on every element: one of them answered [true]. *)
Fixpoint any_each {A} (f : A -> M bool) (l : list A) : M bool :=
  match l with
  | [] => ret false
  | a :: l => let! b := f a in let! c := any_each f l in ret (b || c)
  end.

Section Spell.
Variable env : Env.
Variable self : Ops.
Notation md := (env_metadata env).
Notation snap := (env_snapshot env).

Definition in_world : bool := is_in_world (lifecycle snap).

Definition next_rank (spell_id : Z) : Prelude.result (option Z) Indeterminate :=
  match spell_chain_lookup (spell_chains md) spell_id with
  | Unranked => Ok None
  | Node node => Ok (next_spell_id node)
  | ChainIndeterminate diagnostics => Err (RankChain spell_id diagnostics)
  end.

(** * The criteria a spell updates *)
Definition skill_line_criteria (spell_id : Z) (row : SkillLineAbilityRecord) : M unit :=
  push_publication (RequireLearnTradeskillSkillLineCriteria spell_id (skill_line row))
    (UpdateLearnTradeskillSkillLineCriteria spell_id (skill_line row)) ;;
  push_publication (RequireLearnSpellFromSkillLineCriteria spell_id (skill_line row))
    (UpdateLearnSpellFromSkillLineCriteria spell_id (skill_line row)).

Definition record_spell_criteria (spell_id : Z) : M unit :=
  if is_loading (lifecycle snap) then ret tt
  else
    let! rows := lift (abilities_of_spell env spell_id) in
    for_each (skill_line_criteria spell_id) rows ;;
    push_publication (RequireLearnOrKnowSpellCriteria spell_id) (UpdateLearnOrKnowSpellCriteria spell_id).

(** * A row the player already has *)
(** The trait that gave the spell its row is forgotten with its override. *)
Definition forget_trait (spell_id : Z) (row : PlayerSpellRow) : M PlayerSpellRow :=
  match trait_definition_id row with
  | None => ret row
  | Some id =>
      if negb (is_u32 id) then refuse (InvalidSnapshot "trait_definition_id" id)
      else
        let! definition := some_or (get_trait_definition (trait_definitions md) id) (MissingTraitDefinition id) in
        let overridden := trait_overrides_spell_id definition in
        if negb (is_u32 overridden)
        then refuse (InvalidEffectiveValue (trait_id definition) "TraitDefinition.OverridesSpellID" overridden)
        else
          (if overridden =? 0 then ret tt else remove_override overridden spell_id) ;;
          ret (row <| trait_definition_id := None |>)
  end.

(** A passive spell that becomes active is cast. *)
Definition cast_passive (spell_id : Z) (projection : SpellProjection) : M unit :=
  let! passive := lift (misc_flag is_passive_checked (projected_misc projection)) in
  if negb passive then ret tt
  else if existsb effect_can_change_acquisition (projected_effects projection)
  then simulate_or_defer_cast env self spell_id (projected_effects projection) PassiveLearn false ;; ret tt
  else refresh_passive env spell_id.

(** The row only differs in [active]. *)
Definition change_active (req : AddRequest) (projection : SpellProjection) (now_active : bool)
    (next : option Z) (dependent_set : bool) (row : PlayerSpellRow) : M ExistingOutcome :=
  let spell_id := add_spell_id req in
  let row := row <| active := now_active |> in
  let row := if negb in_world && negb (add_learning req) && negb dependent_set
             then row <| spell_state := SpellState.Unchanged |> else touch row in
  replace_spell_row row (add_provenance req) ;;
  (if now_active then
     push_diagnostic (ExistingInactiveSpellActivated spell_id) ;; cast_passive spell_id projection
   else if in_world then
     push_action (match next with
                  | Some next => SupersededSpell spell_id next
                  | None => UnlearnedSpell spell_id
                  end)
   else ret tt) ;;
  ret (Finished now_active).

(** The state a new row starts with. *)
Definition fresh_state (req : AddRequest) : SpellState.t :=
  if add_learning req then SpellState.New else SpellState.Unchanged.

Definition change_disabled (req : AddRequest) (now_active : bool) (row : PlayerSpellRow) : M ExistingOutcome :=
  replace_spell_row (touch row <| disabled := add_disabled req |>) (add_provenance req) ;;
  ret (if add_disabled req then Finished false else Proceed now_active (fresh_state req) true).

Definition same_flags (req : AddRequest) (now_active dependent_set : bool) (row : PlayerSpellRow) :
    M ExistingOutcome :=
  match spell_state row with
  | SpellState.Unchanged => replace_spell_row row (add_provenance req) ;; ret (Finished false)
  | SpellState.Removed =>
      remove_spell_row (add_spell_id req) (add_provenance req) ;; ret (Proceed now_active SpellState.Changed false)
  | SpellState.Changed | SpellState.New | SpellState.Temporary =>
      replace_spell_row
        (if negb in_world && negb (add_learning req) && negb dependent_set
         then row <| spell_state := SpellState.Unchanged |> else row) (add_provenance req) ;;
      ret (Finished false)
  end.

(** The flags differ: which change comes first. *)
Definition change_row (req : AddRequest) (projection : SpellProjection) (now_active : bool)
    (next : option Z) (existing : PlayerSpellRow) : M ExistingOutcome :=
  let removed := bool_decide (spell_state existing = SpellState.Removed) in
  let dependent_set := negb removed && negb (dependent existing) && add_dependent req in
  let row := if dependent_set then touch (existing <| dependent := true |>) else existing in
  let! row := forget_trait (add_spell_id req) row in
  let row := row <| favorite := add_favorite req |> in
  if negb (eqb (active row) now_active) && negb removed && negb (disabled row)
  then change_active req projection now_active next dependent_set row
  else if negb (eqb (disabled row) (add_disabled req)) && negb removed
  then change_disabled req now_active row
  else same_flags req now_active dependent_set row.

(** The next rank where the player has it: the spell then stays inactive. *)
Definition known_next_rank (projection : SpellProjection) (p : Planner) : option Z :=
  chain ← projected_chain projection;
  next ← next_spell_id chain;
  if has_spell next p then Some next else None.

Definition already_matches (req : AddRequest) (now_active : bool) (row : PlayerSpellRow) : bool :=
  bool_decide (spell_state row <> SpellState.Removed)
  && eqb (active row) now_active && eqb (dependent row) (add_dependent req)
  && eqb (disabled row) (add_disabled req).

Definition existing_spell (req : AddRequest) (projection : SpellProjection) (now_active : bool)
    (existing : PlayerSpellRow) : M ExistingOutcome :=
  if bool_decide (spell_state existing = SpellState.Temporary) then
    remove_spell_row (add_spell_id req) (add_provenance req) ;;
    ret (Proceed now_active (fresh_state req) false)
  else
    let! next := gets (known_next_rank projection) in
    let now_active := match next with Some _ => false | None => now_active end in
    if already_matches req now_active existing then
      (if negb in_world && negb (add_learning req)
       then replace_spell_row (existing <| spell_state := SpellState.Unchanged |>) (add_provenance req)
       else ret tt) ;;
      push_diagnostic (ExistingSpellAlreadyMatches (add_spell_id req)) ;;
      ret (Finished false)
    else change_row req projection now_active next existing.

(** * A row that is new *)
Definition add_previous_rank (req : AddRequest) (projection : SpellProjection) (now_active : bool) : M unit :=
  match chain ← projected_chain projection; prev_spell_id chain with
  | None => ret tt
  | Some previous =>
      let provenance := PreviousRank (add_spell_id req) in
      if negb in_world || add_disabled req
      then op_add_spell self previous now_active true true (add_disabled req) (add_from_skill req) false
             provenance ;; ret tt
      else op_learn_spell self previous true (add_from_skill req) provenance
  end.

Definition push_superseded (old new : Z) : M unit :=
  if in_world then push_action (SupersededSpell old new) else ret tt.

(** The new row against another active row of its chain: it supersedes a lower
    rank and gives way to a higher one.  The new row is never absent here. *)
Definition supersede_candidate (req : AddRequest) (chain : SpellChainNode) (candidate_id : Z) : M bool :=
  let spell_id := add_spell_id req in
  let! candidate := gets (fun p => p_spells p !! candidate_id) in
  match candidate with
  | Some candidate =>
      if (candidate_id =? spell_id) || bool_decide (spell_state candidate = SpellState.Removed)
         || negb (active candidate) then ret false
      else
        match spell_chain_lookup (spell_chains md) candidate_id with
        | ChainIndeterminate diagnostics => refuse (RankChain candidate_id diagnostics)
        | Unranked => ret false
        | Node candidate_chain =>
            if negb (first_spell_id candidate_chain =? first_spell_id chain) then ret false
            else if rank candidate_chain <? rank chain then
              replace_spell_row (deactivate candidate) (add_provenance req) ;;
              push_superseded candidate_id spell_id ;; ret true
            else
              let! current := gets (fun p => p_spells p !! spell_id) in
              match current with
              | Some current =>
                  replace_spell_row (deactivate current) (add_provenance req) ;;
                  push_superseded spell_id candidate_id ;; ret false
              | None => ret false
              end
        end
  | None => ret false
  end.

Definition supersede_ranks (req : AddRequest) (projection : SpellProjection) (new_row : PlayerSpellRow) :
    M bool :=
  match projected_chain projection with
  | Some chain =>
      if active new_row && negb (disabled new_row) then
        let! candidates := gets (fun p => keys_in_order (p_spells p)) in
        any_each (supersede_candidate req chain) candidates
      else ret false
  | None => ret false
  end.

(** Answers whether a lower rank was superseded. *)
Definition insert_spell (req : AddRequest) (projection : SpellProjection) (now_active : bool)
    (state : SpellState.t) : M bool :=
  add_previous_rank req projection now_active ;;
  let! known := gets (fun p => bool_decide (is_Some (p_spells p !! add_spell_id req))) in
  let new_row := mkSpellRow (add_spell_id req) now_active (add_disabled req) (add_dependent req)
                   (add_favorite req) None (if known then SpellState.Changed else state) in
  replace_spell_row new_row (add_provenance req) ;;
  supersede_ranks req projection new_row.

(** * What a spell teaches *)
Definition apply_skills (req : AddRequest) (projection : SpellProjection) : M unit :=
  let spell_id := add_spell_id req in
  match projected_learn_skill projection with
  | Some learned =>
      if learn_skill learned =? add_from_skill req then ret tt
      else apply_direct_learn_skill env self spell_id learned (DirectLearnSkill spell_id)
  | None => apply_skill_line_fallback env self spell_id (add_from_skill req)
  end.

Definition add_dependency (source : Z) (d : SpellLearnSpellNode) : M unit :=
  (if auto_learned d then ret tt
   else if negb in_world || negb (learned_active d)
   then op_add_spell self (learned_spell d) (learned_active d) true true false 0 false
          (LearnDependency source) ;; ret tt
   else op_learn_spell self (learned_spell d) true 0 (LearnDependency source)) ;;
  (if negb (overrides_spell d =? 0) && learned_active d
   then add_override (overrides_spell d) (learned_spell d) else ret tt).

Definition check_mount (spell_id : Z) : M unit :=
  let! mounts := some_or (mounts md) (IncompleteMountAuthority spell_id) in
  match get_by_source_spell_id mounts spell_id with
  | Some _ => refuse (UnsupportedMountAcquisition spell_id)
  | None => ret tt
  end.

(** The cast, the skill and the spells of a spell whose row is in place. *)
Definition follow_up (req : AddRequest) (projection : SpellProjection) (superseded_old : bool) : M bool :=
  let spell_id := add_spell_id req in
  let! cast := project_add_spell_autocast env self spell_id projection in
  if bool_decide (cast = SkillStepReturned) then ret false
  else
    apply_skills req projection ;;
    for_each (add_dependency spell_id) (projected_dependencies projection) ;;
    record_spell_criteria spell_id ;;
    check_mount spell_id ;;
    gets (fun p =>
      match p_spells p !! spell_id with Some row => active row | None => false end
      && negb (add_disabled req) && negb superseded_old).

(** * Adding and learning a spell *)
Definition proceed (req : AddRequest) (projection : SpellProjection) (o : ExistingOutcome) : M bool :=
  match o with
  | Finished learned => ret learned
  | Proceed now_active state true => follow_up req projection false
  | Proceed now_active state false =>
      let! superseded_old := insert_spell req projection now_active state in
      if add_disabled req then ret false else follow_up req projection superseded_old
  end.

Definition add_spell (req : AddRequest) (now_active : bool) : M bool :=
  op_validate_spell_definition self (add_spell_id req) ;;
  consume_work ;;
  let! projection := effective_spell_projection env (add_spell_id req) in
  let! existing := gets (fun p => p_spells p !! add_spell_id req) in
  let! outcome := match existing with
                  | Some row => existing_spell req projection now_active row
                  | None => ret (Proceed now_active (fresh_state req) false)
                  end in
  proceed req projection outcome.

Definition is_disabled_spell (spell_id : Z) (p : Planner) : bool :=
  match p_spells p !! spell_id with Some row => disabled row | None => false end.

(** Learns [spell_id] again if it is disabled. *)
Definition enable_again (spell_id from_skill : Z) (provenance : Provenance) : M unit :=
  let! d := gets (is_disabled_spell spell_id) in
  if d then op_learn_spell self spell_id false from_skill provenance else ret tt.

Definition enable_dependents (spell_id from_skill : Z) : M unit :=
  let! next := lift (next_rank spell_id) in
  (match next with
   | Some next => enable_again next from_skill (HigherDisabledRank spell_id)
   | None => ret tt
   end) ;;
  for_each (fun requiring => enable_again requiring from_skill (RequiredDisabledSpell spell_id))
    (spells_requiring_spell (spell_required md) spell_id).

Definition learn_spell (spell_id : Z) (as_dependent : bool) (from_skill : Z) (provenance : Provenance) :
    M unit :=
  let! existing := gets (fun p => p_spells p !! spell_id) in
  let was_disabled := match existing with Some row => disabled row | None => false end in
  let now_active := match existing with Some row => negb (disabled row) || active row | None => true end in
  let fav := match existing with Some row => favorite row | None => false end in
  let! learning := op_add_spell self spell_id now_active true as_dependent false from_skill fav provenance in
  (if learning && in_world
   then push_publication (RequireLearnedSpell spell_id fav false) (LearnedSpell spell_id fav false)
   else ret tt) ;;
  if was_disabled then enable_dependents spell_id from_skill
  else push_publication (RequireLearnSpellQuestObjective spell_id) (UpdateLearnSpellQuestObjective spell_id).
End Spell.

(** * The functions tied together (planner/mod.rs)

    [ops n] allows calls that are nested [n] deep.  The work limit bounds the
    depth: [planner_fuel] is always enough (SpellPlannerTotal.v). *)
Definition out_of_fuel {A} : M A := fun _ => None.

Section Run.
Variable env : Env.
Notation md := (env_metadata env).
Notation snap := (env_snapshot env).

Fixpoint ops (fuel : nat) : Ops :=
  match fuel with
  | O => mkOps (fun _ _ _ _ => out_of_fuel) (fun _ _ _ _ _ _ _ _ => out_of_fuel)
           (fun _ _ _ _ _ => out_of_fuel) (fun _ => out_of_fuel)
  | S n =>
      mkOps
        (fun spell_id as_dependent from_skill provenance p =>
           learn_spell env (ops n) spell_id as_dependent from_skill provenance p)
        (fun spell_id now_active learning as_dependent as_disabled from_skill fav provenance p =>
           add_spell env (ops n)
             (mkAdd spell_id learning as_dependent as_disabled from_skill fav provenance) now_active p)
        (fun skill_id step value maximum provenance p =>
           set_skill env (ops n) skill_id step value maximum provenance p)
        (fun spell_id p => validate_spell_definition env (ops n) spell_id p)
  end.

Definition planner_fuel : nat := Z.to_nat (3 * DEFAULT_ACQUISITION_WORK_LIMIT + 3).

(** What the root asks for. *)
Definition run_root (fuel : nat) : M unit :=
  match env_root env with
  | DirectLearn spell_id => op_learn_spell (ops fuel) spell_id false 0 (ProvenanceRoot (env_root env))
  | TrainerWrapperCast spell_id =>
      if negb (is_in_world (lifecycle snap))
      then refuse (InvalidSnapshot "trainer_wrapper_lifecycle" (lifecycle_value (lifecycle snap)))
      else
        let! projection := effective_spell_projection env spell_id in
        simulate_cast env (ops fuel) spell_id (projected_effects projection) TrainerWrapper true
  end.

(** * The plan *)
Definition is_live_profession (row : PlayerSkillRow) : bool :=
  bool_decide (skill_state row <> SkillState.Deleted) && negb (skill_value row =? 0)
  && bool_decide (is_primary_profession_skill (skill_lines md) (row_skill_id row) = Some true).

(** A row without anything in it that the tables do not hold. *)
Definition is_tombstone (row : PlayerSkillRow) : bool :=
  (skill_step row =? 0) && (skill_value row =? 0) && (skill_maximum row =? 0)
  && bool_decide (profession_association row = Unassigned)
  && bool_decide (skill_state row = SkillState.Unchanged \/ skill_state row = SkillState.Deleted).

Definition keeps_tombstone (skills : gmap Z PlayerSkillRow) (skill_id : Z) : bool :=
  match skills !! skill_id with Some row => is_tombstone row | None => false end.

Definition snapshot_of (p : Planner) : Snapshot :=
  mkSnapshot (character_guid snap) (values_in_order (p_spells p)) (values_in_order (p_skills p))
    (p_occupied p) (pairs_in_order (p_overrides p))
    (map row_skill_id (filter (fun row => is_live_profession row) (values_in_order (p_skills p))))
    (filter (fun id => keeps_tombstone (p_skills p) id) (non_durable_skill_tombstone_ids snap))
    (race snap) (class snap) (level snap) (lifecycle snap)
    (future_player_condition_resolutions snap) (cast_resolutions snap).

Definition plan_of (p : Planner) : Plan :=
  mkPlan (env_root env) snap (p_mutations p) (p_spell_transitions p) (p_skill_transitions p)
    (p_override_transitions p) (p_root_professions p) (p_requirements p)
    (values_in_order (p_skills p)) (p_actions p) (p_diagnostics p) (snapshot_of p).

Definition project (fuel : nat) (p : Planner) : option (Prelude.result Plan Indeterminate) :=
  match run_root fuel p with
  | None => None
  | Some (p1, Ok _) => Some (Ok (plan_of p1))
  | Some (_, Err e) => Some (Err e)
  end.
End Run.

(** [None] is never the answer with [planner_fuel]. *)
Definition project_with_cast_policy (fuel : nat) (snapshot : Snapshot) (metadata : Metadata)
    (root : SpellAcquisitionRoot) (policy : CastSideEffectPolicy) : option Outcome :=
  match planner_new snapshot metadata with
  | Err e => Some (OutcomeIndeterminate e)
  | Ok p =>
      match project (mkEnv root snapshot metadata policy) fuel p with
      | Some (Ok plan) => Some (Deterministic plan)
      | Some (Err e) => Some (OutcomeIndeterminate e)
      | None => None
      end
  end.

Definition project_spell_acquisition (snapshot : Snapshot) (metadata : Metadata)
    (root : SpellAcquisitionRoot) : option Outcome :=
  project_with_cast_policy planner_fuel snapshot metadata root RequireComplete.

Definition project_effect_learn_spell_acquisition (snapshot : Snapshot) (metadata : Metadata)
    (spell_id : Z) : option Outcome :=
  project_with_cast_policy planner_fuel snapshot metadata (DirectLearn spell_id) DeferUnavailable.
