(* ===== verification/SpellPlannerTotal.v ===== *)
(** The spell acquisition planner always answers: every call nested in another
    consumes work, and the work limit stops the recursion before the fuel ends. *)
From S2P Require Import Prelude BTree Guid SpellCatalog SpellModel SpellPlanner SpellPlannerSkill SpellPlannerCast SpellPlannerSpell.

Notation limit := DEFAULT_ACQUISITION_WORK_LIMIT.

(** * Answers from a state with at most [k] work left *)
Definition answers (k : Z) {A} (m : M A) : Prop :=
  forall p, limit - p_work p <= k -> exists p' r, m p = Some (p', r) /\ p_work p <= p_work p'.

(** ... and an answer that is no refusal has consumed work. *)
Definition works (k : Z) {A} (m : M A) : Prop :=
  forall p, limit - p_work p <= k ->
  exists p' r, m p = Some (p', r) /\ p_work p <= p_work p'
  /\ (forall a, r = Ok a -> p_work p + 1 <= p_work p' /\ p_work p < limit).

Lemma works_answers k {A} (m : M A) : works k m -> answers k m.
Proof. intros H p Hp. destruct (H p Hp) as (p' & r & E & L & _). eauto. Qed.

Lemma answers_ret k {A} (a : A) : answers k (ret a).
Proof. intros p _. exists p, (Ok a). split; [done|lia]. Qed.
Lemma answers_refuse k {A} e : answers k (refuse (A := A) e).
Proof. intros p _. exists p, (Err e). split; [done|lia]. Qed.
Lemma answers_lift k {A} (r : Prelude.result A Indeterminate) : answers k (lift r).
Proof. intros p _. exists p, r. split; [done|lia]. Qed.
Lemma answers_some_or k {A} (o : option A) e : answers k (some_or o e).
Proof. apply answers_lift. Qed.
Lemma answers_gets k {A} (f : Planner -> A) : answers k (gets f).
Proof. intros p _. exists p, (Ok (f p)). split; [done|lia]. Qed.
Lemma answers_modify k f : (forall p, p_work p <= p_work (f p)) -> answers k (modify f).
Proof. intros H p _. exists (f p), (Ok tt). split; [done|apply H]. Qed.

Lemma answers_bind k {A B} (m : M A) (f : A -> M B) :
  answers k m -> (forall a, answers k (f a)) -> answers k (bind m f).
Proof.
  intros Hm Hf p Hp. unfold bind. destruct (Hm p Hp) as (p1 & [a|e] & -> & L); [|eauto].
  destruct (Hf a p1 ltac:(lia)) as (p2 & r & -> & L2). exists p2, r. split; [done|lia].
Qed.

Lemma works_bind_r k {A B} (m : M A) (f : A -> M B) :
  answers k m -> (forall a, works k (f a)) -> works k (bind m f).
Proof.
  intros Hm Hf p Hp. unfold bind. destruct (Hm p Hp) as (p1 & [a|e] & -> & L).
  - destruct (Hf a p1 ltac:(lia)) as (p2 & r & -> & L2 & G). exists p2, r.
    split_and!; [done|lia|]. intros b E. destruct (G b E). lia.
  - exists p1, (Err e). by split_and!.
Qed.

(** Once work is consumed less is left, and some was. *)
Lemma works_bind k {A B} (m : M A) (f : A -> M B) :
  works k m -> (1 <= k -> forall a, answers (k - 1) (f a)) -> works k (bind m f).
Proof.
  intros Hm Hf p Hp. unfold bind. destruct (Hm p Hp) as (p1 & [a|e] & -> & L & G).
  - destruct (G a eq_refl) as [G1 G2].
    destruct (Hf ltac:(lia) a p1 ltac:(lia)) as (p2 & r & -> & L2). exists p2, r.
    split_and!; [done|lia|]. intros; lia.
  - exists p1, (Err e). by split_and!.
Qed.

Lemma answers_bind_works k {A B} (m : M A) (f : A -> M B) :
  works k m -> (1 <= k -> forall a, answers (k - 1) (f a)) -> answers k (bind m f).
Proof. intros. by apply works_answers, works_bind. Qed.

Lemma works_consume k : works k consume_work.
Proof.
  intros p _. unfold consume_work, bind, modify, gets, refuse, ret. ssimpl.
  destruct (Z.ltb_spec limit (p_work p + 1)); eexists _, _; (split; [reflexivity|]); ssimpl;
    (split; [lia|]); intros a E; [discriminate E|lia].
Qed.

Lemma answers_finally k {A} (m : M A) f :
  answers k m -> (forall p, p_work p <= p_work (f p)) -> answers k (finally m f).
Proof.
  intros Hm Hf p Hp. unfold finally. destruct (Hm p Hp) as (p1 & r & -> & L).
  exists (f p1), r. split; [done|]. specialize (Hf p1). lia.
Qed.

Lemma answers_for_each k {A} (f : A -> M unit) l : (forall a, answers k (f a)) -> answers k (for_each f l).
Proof.
  intros H. induction l as [|a l IH]; [apply answers_ret|]. apply answers_bind; [apply H|by intros _].
Qed.

Lemma answers_any_each k {A} (f : A -> M bool) l : (forall a, answers k (f a)) -> answers k (any_each f l).
Proof.
  intros H. induction l as [|a l IH]; [apply answers_ret|]. apply answers_bind; [apply H|intros b].
  apply answers_bind; [done|]. intros c. apply answers_ret.
Qed.

(** Less work left is easier. *)
Lemma answers_le k k' {A} (m : M A) : k <= k' -> answers k' m -> answers k m.
Proof. intros Hk H p Hp. apply H. lia. Qed.

(** The functions that are called. *)
Record ops_answer (k : Z) (o : Ops) : Prop :=
  { learn_answers : forall id d s pr, answers k (op_learn_spell o id d s pr);
    add_answers : forall id a l d di s f pr, answers k (op_add_spell o id a l d di s f pr);
    set_answers : forall id s v m pr, answers k (op_set_skill o id s v m pr);
    validate_answers : forall id, answers k (op_validate_spell_definition o id) }.

(** * The pieces of the planner *)
Create HintDb answers.
#[export] Hint Resolve answers_ret answers_refuse answers_lift answers_some_or answers_gets
  answers_for_each answers_any_each learn_answers add_answers set_answers validate_answers : answers.

(** Descends into a computation. *)
Ltac answers :=
  intros;
  lazymatch goal with
  | |- answers ?k (bind consume_work _) =>
      apply (answers_bind_works k consume_work); [apply works_consume|intros; apply (answers_le _ k); [lia|answers]]
  | |- answers _ (bind _ _) => apply answers_bind; [answers|intros; answers]
  | |- answers _ (finally _ _) => apply answers_finally; [answers|intros; ssimpl; repeat case_match; ssimpl; lia]
  | |- answers _ (modify _) => apply answers_modify; intros; ssimpl; lia
  | |- answers _ (for_each _ _) => apply answers_for_each; intros; answers
  | |- answers _ (any_each _ _) => apply answers_any_each; intros; answers
  | |- answers _ (match ?x with _ => _ end) => destruct x; answers
  | |- answers _ (let _ := _ in _) => cbv zeta; answers
  | |- _ => try solve [eauto with answers]
  end.

Section Bodies.
Variables (env : Env) (self : Ops) (k : Z).

Lemma consume_answers : answers k consume_work.
Proof. apply works_answers, works_consume. Qed.
Hint Resolve consume_answers : answers.

Lemma push_diagnostic_answers d : answers k (push_diagnostic d).
Proof. unfold push_diagnostic. answers. Qed.
Lemma push_action_answers a : answers k (push_action a).
Proof. unfold push_action. answers. Qed.
Hint Resolve push_diagnostic_answers push_action_answers : answers.
Lemma push_publication_answers r a : answers k (push_publication r a).
Proof. unfold push_publication. answers. Qed.
Lemma record_spell_transition_answers id b a pr : answers k (record_spell_transition id b a pr).
Proof. unfold record_spell_transition. answers. Qed.
Lemma record_skill_transition_answers id b a pr : answers k (record_skill_transition id b a pr).
Proof. unfold record_skill_transition. answers. Qed.
Hint Resolve push_publication_answers record_spell_transition_answers record_skill_transition_answers : answers.
Lemma replace_spell_row_answers row pr : answers k (replace_spell_row row pr).
Proof. unfold replace_spell_row. answers. Qed.
Lemma remove_spell_row_answers id pr : answers k (remove_spell_row id pr).
Proof. unfold remove_spell_row. answers. Qed.
Lemma push_override_transition_answers a b c : answers k (push_override_transition a b c).
Proof. unfold push_override_transition. answers. Qed.
Hint Resolve replace_spell_row_answers remove_spell_row_answers push_override_transition_answers : answers.
Lemma add_override_answers a b : answers k (add_override a b).
Proof. unfold add_override. answers. Qed.
Lemma remove_override_answers a b : answers k (remove_override a b).
Proof. unfold remove_override. answers. Qed.
Lemma rows_or_refuse_answers {A} id t (l : RowsLookup A) : answers k (rows_or_refuse id t l).
Proof. unfold rows_or_refuse. answers. Qed.
Lemma row_or_refuse_answers {A} id t (l : MetadataLookup A) : answers k (row_or_refuse id t l).
Proof. unfold row_or_refuse. answers. Qed.
Hint Resolve add_override_answers remove_override_answers rows_or_refuse_answers row_or_refuse_answers : answers.
Lemma projection_answers id : answers k (effective_spell_projection env id).
Proof.
  unfold effective_spell_projection, effects_or_refuse, talent_or_refuse, chain_or_refuse,
    learn_skill_or_refuse, check_dependency_row. answers.
Qed.
Hint Resolve projection_answers : answers.
End Bodies.

#[export] Hint Resolve consume_answers push_diagnostic_answers push_action_answers push_publication_answers
  record_spell_transition_answers record_skill_transition_answers replace_spell_row_answers
  remove_spell_row_answers push_override_transition_answers add_override_answers
  remove_override_answers rows_or_refuse_answers row_or_refuse_answers projection_answers : answers.

Section Callers.
Variables (env : Env) (self : Ops) (k : Z).
Hypothesis Hself : ops_answer k self.

(** ** Skills *)
Lemma put_skill_answers row : answers k (put_skill row).
Proof. unfold put_skill. answers. Qed.
Lemma record_criteria_answers id : answers k (record_skill_criteria id).
Proof. unfold record_skill_criteria. answers. Qed.
Lemma activation_answers fields v row : answers k (record_primary_profession_activation fields v row).
Proof. unfold record_primary_profession_activation. answers. Qed.
Hint Resolve put_skill_answers record_criteria_answers activation_answers : answers.

Lemma future_condition_answers id c : answers k (consume_future_player_condition_resolution env id c).
Proof. unfold consume_future_player_condition_resolution. answers. Qed.
Hint Resolve future_condition_answers : answers.

Lemma gates_answer id v spell ability :
  answers k
    (and_gate (quest_gate env ability spell)
       (and_gate (ret (riding_gate id ability))
          (and_gate (ret (race_class_gate env ability))
             (and_gate (level_gate env spell) (rank_gate id v spell ability))))).
Proof. unfold and_gate, quest_gate, level_gate, rank_gate. answers. Qed.

Lemma rewards_answer id v : answers k (learn_skill_rewards env self id v).
Proof.
  unfold learn_skill_rewards, learn_skill_reward, learn_reward. destruct (negb _); [answers|].
  case_match; [answers| |answers]. apply answers_for_each. intros ability.
  case_match; [answers|]. apply answers_bind; [answers|]. intros spell. case_match; [answers|].
  apply answers_bind; [apply gates_answer|answers].
Qed.
Hint Resolve rewards_answer : answers.

Lemma set_parent_answers c p s v m : answers k (set_parent_skill self c p s v m).
Proof. unfold set_parent_skill, push_parent, pop_parent. answers. Qed.
Hint Resolve set_parent_answers : answers.
Lemma activate_parent_answers c fields : answers k (activate_parent_skill env self c fields).
Proof. unfold activate_parent_skill. answers. Qed.
Hint Resolve activate_parent_answers : answers.

Lemma set_skill_inner_answers id s v m pr : answers k (set_skill_inner env self id s v m pr).
Proof.
  unfold set_skill_inner, set_existing_skill, insert_new_skill, relate_new_skill, create_child,
    check_capacity, push_pending, pop_pending. answers.
Qed.

Lemma direct_skill_answers id l pr : answers k (apply_direct_learn_skill env self id l pr).
Proof. unfold apply_direct_learn_skill. answers. Qed.
Lemma fallback_answers id s : answers k (apply_skill_line_fallback env self id s).
Proof. unfold apply_skill_line_fallback, fallback_row, learn_default_skill. answers. Qed.
Hint Resolve direct_skill_answers fallback_answers : answers.

(** ** Casts *)
Lemma require_authority_answers id r : answers k (require_cast_authority_or_defer env id r).
Proof. unfold require_cast_authority_or_defer. answers. Qed.
Hint Resolve require_authority_answers : answers.
Lemma refresh_passive_answers id : answers k (refresh_passive env id).
Proof. unfold refresh_passive. answers. Qed.
Lemma cast_skill_answers id e pr : answers k (apply_cast_skill_effect env self id e pr).
Proof. unfold apply_cast_skill_effect, raise_skill. answers. Qed.
Hint Resolve refresh_passive_answers cast_skill_answers : answers.

Lemma run_phases_answers id effects w : answers k (run_phases env self id effects w).
Proof.
  unfold run_phases, require_cast_resolution, immediate_effect, hit_target_effect, execute_hit_target,
    grant_dual_wield. answers.
Qed.
Hint Resolve run_phases_answers : answers.
Lemma simulate_answers id effects r w : answers k (simulate_cast env self id effects r w).
Proof. unfold simulate_cast, require_projectable. answers. Qed.

(** A deferred cast gives the state back with the work of the copy. *)
Lemma defer_answers id effects r w : answers k (simulate_or_defer_cast env self id effects r w).
Proof.
  intros p Hp. unfold simulate_or_defer_cast.
  destruct (simulate_answers id effects r w p Hp) as (q & [u|e] & -> & L); [eauto|].
  destruct (defers env); [|exists p, (Err e); by split].
  eexists _, _. split; [reflexivity|]. ssimpl. lia.
Qed.
Hint Resolve defer_answers : answers.

Lemma autocast_answers id projection : answers k (project_add_spell_autocast env self id projection).
Proof. unfold project_add_spell_autocast. answers. Qed.
Hint Resolve autocast_answers : answers.

(** ** Spells *)
Lemma criteria_answers id : answers k (record_spell_criteria env id).
Proof. unfold record_spell_criteria, skill_line_criteria. answers. Qed.
Hint Resolve criteria_answers : answers.
Lemma forget_trait_answers id row : answers k (forget_trait env id row).
Proof. unfold forget_trait. answers. Qed.
Hint Resolve forget_trait_answers : answers.
Lemma existing_answers req projection a row : answers k (existing_spell env self req projection a row).
Proof.
  unfold existing_spell, change_row, change_active, cast_passive, change_disabled, same_flags. answers.
Qed.
Hint Resolve existing_answers : answers.
Lemma insert_spell_answers req projection a s : answers k (insert_spell env self req projection a s).
Proof.
  unfold insert_spell, add_previous_rank, supersede_ranks, supersede_candidate, push_superseded. answers.
Qed.
Lemma follow_up_answers req projection b : answers k (follow_up env self req projection b).
Proof. unfold follow_up, apply_skills, add_dependency, check_mount. answers. Qed.
Hint Resolve insert_spell_answers follow_up_answers : answers.
Lemma proceed_answers req projection o : answers k (proceed env self req projection o).
Proof. unfold proceed. answers. Qed.
Lemma enable_dependents_answers id s : answers k (enable_dependents env self id s).
Proof. unfold enable_dependents, enable_again. answers. Qed.
Lemma validate_effect_answers id e : answers k (validate_effect env self id e).
Proof. unfold validate_effect. answers. Qed.
End Callers.

(** * The recursion *)
Record ready (n : nat) (k : Z) (o : Ops) : Prop :=
  { ready_learn : 3 * Z.max k 0 + 3 <= Z.of_nat n -> forall id d s pr, answers k (op_learn_spell o id d s pr);
    ready_add : 3 * Z.max k 0 + 2 <= Z.of_nat n ->
      forall id a l d di s f pr, works k (op_add_spell o id a l d di s f pr);
    ready_set : 3 * Z.max k 0 + 1 <= Z.of_nat n -> forall id s v m pr, answers k (op_set_skill o id s v m pr);
    ready_validate : 3 * Z.max k 0 + 1 <= Z.of_nat n ->
      forall id, answers k (op_validate_spell_definition o id) }.

Lemma ready_ops n k o : 3 * Z.max k 0 + 3 <= Z.of_nat n -> ready n k o -> ops_answer k o.
Proof.
  intros Hn H. split; intros.
  - apply (ready_learn _ _ _ H); lia.
  - apply works_answers, (ready_add _ _ _ H); lia.
  - apply (ready_set _ _ _ H); lia.
  - apply (ready_validate _ _ _ H); lia.
Qed.

Section Recursion.
Variables (env : Env) (n : nat) (o : Ops).
Hypothesis Ho : forall k, ready n k o.

Lemma set_skill_answers k id s v m pr :
  3 * Z.max k 0 <= Z.of_nat n -> answers k (set_skill env o id s v m pr).
Proof.
  intros Hn. unfold set_skill. destruct (MAX_SKILL_STEP <? s); [apply answers_refuse|].
  apply answers_bind_works; [apply works_consume|]. intros Hk _.
  apply set_skill_inner_answers, (ready_ops n); [lia|apply Ho].
Qed.

Lemma validate_definition_answers k id :
  3 * Z.max k 0 <= Z.of_nat n -> answers k (validate_spell_definition env o id).
Proof.
  intros Hn. unfold validate_spell_definition.
  apply answers_bind; [answers|intros [|]]; [answers|].
  apply answers_bind; [answers|intros [ids|]]; [answers|].
  apply answers_bind_works; [apply works_consume|]. intros Hk _.
  assert (H : ops_answer (k - 1) o) by (apply (ready_ops n); [lia|apply Ho]).
  pose proof (validate_effect_answers env o (k - 1) H). unfold effects_or_refuse, pop_visiting. answers.
Qed.

Lemma add_spell_works k req a : 3 * Z.max k 0 + 1 <= Z.of_nat n -> works k (add_spell env o req a).
Proof.
  intros Hn. unfold add_spell.
  apply works_bind_r; [apply (ready_validate _ _ _ (Ho k)); lia|]. intros _.
  apply works_bind; [apply works_consume|]. intros Hk _.
  assert (H : ops_answer (k - 1) o) by (apply (ready_ops n); [lia|apply Ho]).
  pose proof (existing_answers env o (k - 1) H). pose proof (proceed_answers env o (k - 1) H). answers.
Qed.

Lemma learn_spell_answers k id d s pr :
  3 * Z.max k 0 + 2 <= Z.of_nat n -> answers k (learn_spell env o id d s pr).
Proof.
  intros Hn. unfold learn_spell. apply answers_bind; [answers|]. intros existing. cbv zeta.
  apply answers_bind_works; [apply (ready_add _ _ _ (Ho k)); lia|]. intros Hk learning.
  assert (H : ops_answer (k - 1) o) by (apply (ready_ops n); [lia|apply Ho]).
  pose proof (enable_dependents_answers env o (k - 1) H). answers.
Qed.
End Recursion.

Lemma ops_ready env n k : ready n k (ops env n).
Proof.
  revert k. induction n as [|n IH]; intros k.
  - split; intros Hn; exfalso; lia.
  - split; intros Hn; intros.
    + intros p Hp. apply (learn_spell_answers env n (ops env n) IH k id d s pr ltac:(lia) p Hp).
    + intros p Hp. apply (add_spell_works env n (ops env n) IH k (mkAdd id l d di s f pr) a ltac:(lia) p Hp).
    + intros p Hp. apply (set_skill_answers env n (ops env n) IH k id s v m pr ltac:(lia) p Hp).
    + intros p Hp. apply (validate_definition_answers env n (ops env n) IH k id ltac:(lia) p Hp).
Qed.

Lemma planner_fuel_ops env n : (planner_fuel <= n)%nat -> ops_answer limit (ops env n).
Proof.
  intros Hn. apply (ready_ops n); [|apply ops_ready]. unfold planner_fuel in Hn. unfold limit in *. lia.
Qed.

Lemma run_root_answers env n : (planner_fuel <= n)%nat -> answers limit (run_root env n).
Proof.
  intros Hn. pose proof (planner_fuel_ops env n Hn) as H. unfold run_root. case_match; [answers|].
  case_match; [answers|]. pose proof (simulate_answers env (ops env n) limit H). answers.
Qed.

Lemma planner_new_work snapshot metadata p : planner_new snapshot metadata = Ok p -> p_work p = 0.
Proof.
  unfold planner_new, rbind. intros E. repeat case_match; try discriminate E. by simplify_eq/=.
Qed.

(** C15: With [planner_fuel] levels of nested calls, or more, the planner always
    answers: whatever tables and snapshot it is given, it ends with a plan or a
    refusal. *)
Theorem planner_always_answers (n : nat) (snapshot : Snapshot) (metadata : Metadata)
    (root : SpellAcquisitionRoot) (policy : CastSideEffectPolicy) :
  (planner_fuel <= n)%nat ->
  is_Some (project_with_cast_policy n snapshot metadata root policy).
Proof.
  intros Hn. unfold project_with_cast_policy, project.
  destruct (planner_new snapshot metadata) as [p|e] eqn:E; [|eauto].
  destruct (run_root_answers (mkEnv root snapshot metadata policy) n Hn p) as (q & [u|e] & -> & _); eauto.
  rewrite (planner_new_work _ _ _ E). unfold limit. lia.
Qed.
