(* ===== verification/Profession.v ===== *)
(** Primary professions: wow-world/src/profession.rs.  A player may learn a
    configured number of them; two of them are associated with the equipment
    slots of a profession.  The analysis of the current skills repairs their
    slots, the plan decides on the new professions all or none. *)
From stdpp Require Import sorting.
From S2P Require Import Prelude BTree SpellCatalog.

Definition MAX_PRIMARY_TRADE_SKILLS_CONFIG : Z := 11.
Definition NO_PRIMARY_PROFESSION_EQUIPMENT_SLOT : Z := -1.

(** * Data *)
Record PlayerSkillProfessionSnapshot : Type := mkProfessionSkill
  { profession_skill_id : Z; profession_value : Z; profession_slot : Z }.

Inductive EquipmentSlot : Set := First | Second.
#[export] Instance equipment_slot_eq_dec : EqDecision EquipmentSlot.
Proof. solve_decision. Defined.

Definition all_slots : list EquipmentSlot := [First; Second].
Definition from_db_value (value : Z) : option EquipmentSlot :=
  if value =? 0 then Some First else if value =? 1 then Some Second else None.
Definition db_value (slot : EquipmentSlot) : Z := match slot with First => 0 | Second => 1 end.
Definition slot_db_value (slot : option EquipmentSlot) : Z :=
  match slot with Some slot => db_value slot | None => NO_PRIMARY_PROFESSION_EQUIPMENT_SLOT end.

Inductive NormalizationReason : Set :=
  | InactiveSkill | NonPrimarySkill | OutOfRange | Duplicate | FillEmptyAssociation.
#[export] Instance normalization_reason_eq_dec : EqDecision NormalizationReason.
Proof. solve_decision. Defined.

Record SlotNormalization : Type := mkNormalization
  { normalization_skill_id : Z; original_slot : Z; normalized_slot : option EquipmentSlot;
    normalization_reason : NormalizationReason }.
#[export] Instance slot_normalization_eq_dec : EqDecision SlotNormalization.
Proof. solve_decision. Defined.

Record PlannedProfession : Type := mkPlanned
  { planned_skill_id : Z; equipment_slot : option EquipmentSlot }.
#[export] Instance planned_profession_eq_dec : EqDecision PlannedProfession.
Proof. solve_decision. Defined.

Record CapacityAnalysis : Type := mkAnalysis
  { analysis_max : Z; analysis_existing : list PlannedProfession;
    analysis_normalizations : list SlotNormalization }.

Record CapacityPlan : Type := mkCapacityPlan
  { configured_max : Z; used_before : Z; free_before : Z; existing_professions : list PlannedProfession;
    new_professions : list PlannedProfession; slot_normalizations : list SlotNormalization }.

Inductive CapacityPlanError : Type :=
  | MissingSkillLineStore | MissingPlayerSkillSnapshot
  | InvalidConfiguredMaximum (configured : Z) | MissingSkillLinePayload (skill_id : Z)
  | CapacityExceeded (max used requested_new : Z).

(** [ExistingPrimaryProfessionLikeCpp]. *)
Record ExistingProfession : Type := mkExisting
  { existing_skill_id : Z; existing_original_slot : Z; existing_slot : option EquipmentSlot;
    existing_reason : option NormalizationReason }.

(** * Slots *)
(** The lowest free slot. *)
Definition free_slot (occupied : list EquipmentSlot) : option EquipmentSlot :=
  find_first (fun slot => slot ∉ occupied) all_slots.

(** [occupied] with a slot, where there is one. *)
Definition occupy (occupied : list EquipmentSlot) (slot : option EquipmentSlot) : list EquipmentSlot :=
  match slot with Some slot => slot :: occupied | None => occupied end.

(** * Analysis *)
Definition skill_le (a b : PlayerSkillProfessionSnapshot) : Prop :=
  profession_skill_id a <= profession_skill_id b.
#[export] Instance skill_le_dec a b : Decision (skill_le a b).
Proof. unfold skill_le. apply _. Defined.
Definition normalization_le (a b : SlotNormalization) : Prop :=
  normalization_skill_id a <= normalization_skill_id b.
#[export] Instance normalization_le_dec a b : Decision (normalization_le a b).
Proof. unfold normalization_le. apply _. Defined.

(** A skill that may hold no slot gives up the one it has. *)
Definition release (skill : PlayerSkillProfessionSnapshot) (reason : NormalizationReason) :
    list SlotNormalization :=
  if profession_slot skill =? NO_PRIMARY_PROFESSION_EQUIPMENT_SLOT then []
  else [mkNormalization (profession_skill_id skill) (profession_slot skill) None reason].

(** The slot an active profession keeps, or why it loses the one it names. *)
Definition keep_slot (occupied : list EquipmentSlot) (slot : Z) :
    option EquipmentSlot * option NormalizationReason :=
  match from_db_value slot with
  | Some s => if bool_decide (s ∉ occupied) then (Some s, None) else (None, Some Duplicate)
  | None =>
      if slot =? NO_PRIMARY_PROFESSION_EQUIPMENT_SLOT then (None, None) else (None, Some OutOfRange)
  end.

(** The first loop: the existing professions, the slots they keep and the slots
    other skills give up. *)
Fixpoint classify_skills (lines : SkillLineStore) (occupied : list EquipmentSlot)
    (skills : list PlayerSkillProfessionSnapshot) :
    Prelude.result (list ExistingProfession * list EquipmentSlot * list SlotNormalization) CapacityPlanError :=
  match skills with
  | [] => Ok ([], occupied, [])
  | skill :: skills =>
      if profession_value skill =? 0 then
        let? r := classify_skills lines occupied skills in
        Ok (r.1.1, r.1.2, release skill InactiveSkill ++ r.2)
      else
        match is_primary_profession_skill lines (profession_skill_id skill) with
        | None => Err (MissingSkillLinePayload (profession_skill_id skill))
        | Some false =>
            let? r := classify_skills lines occupied skills in
            Ok (r.1.1, r.1.2, release skill NonPrimarySkill ++ r.2)
        | Some true =>
            let kept := keep_slot occupied (profession_slot skill) in
            let? r := classify_skills lines (occupy occupied kept.1) skills in
            Ok (mkExisting (profession_skill_id skill) (profession_slot skill) kept.1 kept.2 :: r.1.1,
                r.1.2, r.2)
        end
  end.

(** The second loop: a profession without a slot gets the lowest free one. *)
Fixpoint fill_slots (occupied : list EquipmentSlot) (existing : list ExistingProfession) :
    list PlannedProfession * list SlotNormalization :=
  match existing with
  | [] => ([], [])
  | e :: existing =>
      match existing_slot e with
      | Some slot =>
          let r := fill_slots occupied existing in
          (mkPlanned (existing_skill_id e) (Some slot) :: r.1, r.2)
      | None =>
          let slot := free_slot occupied in
          let r := fill_slots (occupy occupied slot) existing in
          (mkPlanned (existing_skill_id e) slot :: r.1,
           (if slot_db_value slot =? existing_original_slot e then []
            else [mkNormalization (existing_skill_id e) (existing_original_slot e) slot
                    (default FillEmptyAssociation (existing_reason e))]) ++ r.2)
      end
  end.

Definition analyze_primary_professions (configured : Z) (lines : SkillLineStore)
    (current_skills : list PlayerSkillProfessionSnapshot) :
    Prelude.result CapacityAnalysis CapacityPlanError :=
  if MAX_PRIMARY_TRADE_SKILLS_CONFIG <? configured then Err (InvalidConfiguredMaximum configured)
  else
    let? r := classify_skills lines [] (merge_sort skill_le current_skills) in
    let filled := fill_slots r.1.2 r.1.1 in
    Ok (mkAnalysis configured filled.1 (merge_sort normalization_le (r.2 ++ filled.2))).

(** * Plan *)
(** The requested skills that are new primary professions, once each. *)
Fixpoint requested_primary (lines : SkillLineStore) (known : list Z) (requested : list Z) :
    Prelude.result (list Z) CapacityPlanError :=
  match requested with
  | [] => Ok []
  | skill_id :: requested =>
      match is_primary_profession_skill lines skill_id with
      | None => Err (MissingSkillLinePayload skill_id)
      | Some primary =>
          if primary && negb (bool_decide (skill_id ∈ known)) then
            let? r := requested_primary lines (skill_id :: known) requested in Ok (skill_id :: r)
          else requested_primary lines known requested
      end
  end.

Fixpoint assign_slots (occupied : list EquipmentSlot) (skill_ids : list Z) : list PlannedProfession :=
  match skill_ids with
  | [] => []
  | skill_id :: skill_ids =>
      let slot := free_slot occupied in
      mkPlanned skill_id slot :: assign_slots (occupy occupied slot) skill_ids
  end.

(** [existing_ids.len()]: the number of different ids. *)
Definition existing_ids (analysis : CapacityAnalysis) : list Z :=
  map planned_skill_id (analysis_existing analysis).

Definition plan_primary_professions (analysis : CapacityAnalysis) (lines : SkillLineStore)
    (requested_skill_ids : list Z) : Prelude.result CapacityPlan CapacityPlanError :=
  let? requested := requested_primary lines (existing_ids analysis) requested_skill_ids in
  let used := Z.of_nat (length (remove_dups (existing_ids analysis))) in
  let requested_new := Z.of_nat (length requested) in
  let free := sat_sub (analysis_max analysis) used in
  if free <? requested_new then Err (CapacityExceeded (analysis_max analysis) used requested_new)
  else
    let occupied := omap equipment_slot (analysis_existing analysis) in
    Ok (mkCapacityPlan (analysis_max analysis) used free (analysis_existing analysis)
          (assign_slots occupied requested) (analysis_normalizations analysis)).
