(* ===== verification/SpellReplay.v ===== *)
(** Checking a plan by replaying it: wow-world/src/spell_acquisition/application/
    validate_plan.rs, with the maps of translate.rs.  The mutations of a plan are
    run from its source snapshot; they must start from the rows they name and end
    in its resulting snapshot.  The client actions are checked next
    (validate_post_commit.rs): each must be backed by a transition of its own. *)
From stdpp Require Import sorting.
From S2P Require Import Prelude BTree Guid SpellCatalog SpellModel SpellPlanner SpellPlannerSpell Profession.

(** [PlayerSpellAcquisitionPrepareErrorLikeCpp]. *)
Inductive PrepareError : Type :=
  | StaleSnapshot
  | InvalidSpellId (spell_id : Z)
  | InvalidSkillId (skill_id : Z)
  | InvalidTraitDefinitionId (id : Z)
  | InvalidProfessionAssociation (value : Z)
  | ConflictingProfessionAssociation (slot : Z)
  | DuplicateSpell (spell_id : Z)
  | DuplicateSkill (skill_id : Z)
  | DuplicateOverride (overridden overriding : Z)
  | TransitionBeforeMismatch (domain : string) (id : Z)
  | TransitionIdMismatch (domain : string) (id : Z)
  | DuplicateOverrideMutation (overridden overriding : Z)
  | MissingOverrideMutation (overridden overriding : Z)
  | TypedProjectionMismatch (what : string)
  | ResultingSnapshotMismatch
  | SnapshotIdentityChanged (field : string)
  | SkillOccupancyMismatch
  | InvalidDeletedSkill (skill_id : Z)
  | InvalidNonDurableSkillTombstone (skill_id : Z)
  | ProfessionInputsMismatch
  | ProfessionPlanMismatch (what : string)
  | InvalidPostCommitAction (domain : string) (id : Z)
  | PostCommitActionCausalityMismatch (action : string) (id : Z)
  | LearnedActionRowMismatch (spell_id : Z)
  | ProvenanceMismatch (what : string).
#[export] Instance prepare_error_eq_dec : EqDecision PrepareError.
Proof. solve_decision. Defined.

Abbreviation prepared A := (Prelude.result A PrepareError).

(** Answers the error unless the condition holds. *)
Definition require (b : bool) (e : PrepareError) : prepared unit := if b then Ok tt else Err e.
Notation "m ?; k" := (rbind m (fun _ => k)) (at level 100, k at level 200, right associativity) : wow_scope.

(** * The maps of a snapshot (translate.rs) *)
(** [i32::try_from(id)] of a [u32]. *)
Definition valid_spell_id (id : Z) : bool := is_u32 id && is_i32 id && negb (id =? 0).
Definition valid_skill_id (id : Z) : bool := is_u16 id && negb (id =? 0).

Definition insert_spell_row (m : gmap Z PlayerSpellRow) (row : PlayerSpellRow) :
    prepared (gmap Z PlayerSpellRow) :=
  let id := row_spell_id row in
  require (valid_spell_id id) (InvalidSpellId id) ?;
  if bool_decide (is_Some (m !! id)) then Err (DuplicateSpell id) else Ok (<[id := row]> m).

Definition insert_skill_row (m : gmap Z PlayerSkillRow) (row : PlayerSkillRow) :
    prepared (gmap Z PlayerSkillRow) :=
  let id := row_skill_id row in
  require (valid_skill_id id) (InvalidSkillId id) ?;
  if bool_decide (is_Some (m !! id)) then Err (DuplicateSkill id) else Ok (<[id := row]> m).

Definition insert_override (s : gset (Z * Z)) (edge : Z * Z) : prepared (gset (Z * Z)) :=
  require (valid_spell_id edge.1) (InvalidSpellId edge.1) ?;
  require (valid_spell_id edge.2) (InvalidSpellId edge.2) ?;
  if bool_decide (edge ∈ s) then Err (DuplicateOverride edge.1 edge.2) else Ok ({[edge]} ∪ s).

Definition spell_map (s : Snapshot) : prepared (gmap Z PlayerSpellRow) :=
  fold_result insert_spell_row ∅ (spells s).
Definition skill_map (s : Snapshot) : prepared (gmap Z PlayerSkillRow) :=
  fold_result insert_skill_row ∅ (skills s).
Definition override_set (s : Snapshot) : prepared (gset (Z * Z)) :=
  fold_result insert_override ∅ (overrides s).

(** * Snapshots *)
Definition validate_root (root : SpellAcquisitionRoot) : prepared unit :=
  let spell_id := match root with DirectLearn id => id | TrainerWrapperCast id => id end in
  require (valid_spell_id spell_id) (InvalidSpellId spell_id).

(** The first adjacent pair that does not increase ([windows(2)]). *)
Fixpoint not_increasing (l : list Z) : option Z :=
  match l with
  | x :: ((y :: _) as rest) => if y <=? x then Some y else not_increasing rest
  | _ => None
  end.

Definition is_live_skill (skills : gmap Z PlayerSkillRow) (id : Z) : bool :=
  match skills !! id with
  | Some row => bool_decide (skill_state row <> SkillState.Deleted) && negb (skill_value row =? 0)
  | None => false
  end.

Definition invalid_tombstone (skills : gmap Z PlayerSkillRow) (ids : list Z) : option Z :=
  match not_increasing ids with
  | Some id => Some id
  | None => find_first (fun id => Is_true (negb (keeps_tombstone skills id))) ids
  end.

(** The rows of the skills one after the other, with the slots taken so far. *)
Definition check_association (taken : list Z) (row : PlayerSkillRow) : prepared (list Z) :=
  if deleted_with_payload row then Err (InvalidDeletedSkill (row_skill_id row))
  else
    match profession_association row with
    | Unassigned => Ok taken
    | Slot slot =>
        if (0 <=? slot) && (slot <=? 1) then
          if bool_decide (slot ∈ taken) then Err (ConflictingProfessionAssociation slot)
          else Ok (slot :: taken)
        else Err (InvalidProfessionAssociation (wrap_s 8 slot))
    | InvalidSlot value => Err (InvalidProfessionAssociation value)
    end.

Definition check_trait (u : unit) (row : PlayerSpellRow) : prepared unit :=
  match trait_definition_id row with
  | Some id => require (0 <? id) (InvalidTraitDefinitionId id)
  | None => Ok tt
  end.

Definition valid_guid (guid : option ObjectGuid) : bool :=
  match guid with Some g => is_player g && negb (counter g =? 0) | None => true end.

Definition validate_snapshot (s : Snapshot) : prepared unit :=
  require (valid_guid (character_guid s)) (SnapshotIdentityChanged "character_guid") ?;
  let? spell_rows := spell_map s in
  let? skill_rows := skill_map s in
  override_set s ?;
  require (bool_decide (not_increasing (primary_profession_skill_ids s) = None)
           && forallb (is_live_skill skill_rows) (primary_profession_skill_ids s))
    (ProfessionPlanMismatch "snapshot primary profession authority") ?;
  match invalid_tombstone skill_rows (non_durable_skill_tombstone_ids s) with
  | Some id => Err (InvalidNonDurableSkillTombstone id)
  | None =>
      require ((occupied_skill_slots s =? Z.of_nat (size skill_rows)) && (occupied_skill_slots s <=? 256))
        SkillOccupancyMismatch ?;
      fold_result check_association [] (values_in_order skill_rows) ?;
      fold_result check_trait tt (values_in_order spell_rows)
  end.

Definition validate_snapshot_identity (source resulting : Snapshot) : prepared unit :=
  let same (b : bool) field := require b (SnapshotIdentityChanged field) in
  same (bool_decide (character_guid source = character_guid resulting)) "character_guid"%string ?;
  same (race source =? race resulting) "race"%string ?;
  same (class source =? class resulting) "class"%string ?;
  same (level source =? level resulting) "level"%string ?;
  same (bool_decide (lifecycle source = lifecycle resulting)) "lifecycle"%string ?;
  same (bool_decide (future_player_condition_resolutions source
                     = future_player_condition_resolutions resulting))
    "future_player_condition_resolutions"%string ?;
  same (bool_decide (cast_resolutions source = cast_resolutions resulting)) "cast_resolutions"%string.

(** * Mutations *)
Definition valid_provenance (root : SpellAcquisitionRoot) (p : Provenance) : bool :=
  match p with
  | ProvenanceRoot r => bool_decide (r = root)
  | PreviousRank id | LearnDependency id | HigherDisabledRank id | RequiredDisabledSpell id
  | DirectLearnSkill id => valid_spell_id id
  | SkillLineAbilityFallback id record_id => valid_spell_id id && negb (record_id =? 0)
  | ParentSkill id | RootChildSkill id => valid_skill_id id
  | SkillReward id record_id => valid_skill_id id && negb (record_id =? 0)
  | WrapperEffect id _ record_id | AutocastEffect id _ record_id =>
      valid_spell_id id && negb (record_id =? 0)
  end.

Definition validate_provenance (root : SpellAcquisitionRoot) (p : Provenance) : prepared unit :=
  require (valid_provenance root p)
    (ProvenanceMismatch "invalid or root-mismatched transition provenance").

(** The maps the mutations run on. *)
Record Replay : Type := mkReplay
  { replay_spells : gmap Z PlayerSpellRow; replay_skills : gmap Z PlayerSkillRow;
    replay_overrides : gset (Z * Z) }.

(** A row, where there is one, is of this spell or skill. *)
Definition spell_of (id : Z) (row : option PlayerSpellRow) : bool :=
  match row with Some row => row_spell_id row =? id | None => true end.
Definition skill_of (id : Z) (row : option PlayerSkillRow) : bool :=
  match row with Some row => row_skill_id row =? id | None => true end.

Definition replay_spell (root : SpellAcquisitionRoot) (r : Replay) (t : SpellTransition) : prepared Replay :=
  let id := spell_transition_id t in
  validate_provenance root (spell_provenance t) ?;
  require (spell_of id (spell_before t) && spell_of id (spell_after t)) (TransitionIdMismatch "spell" id) ?;
  require (bool_decide (replay_spells r !! id = spell_before t)) (TransitionBeforeMismatch "spell" id) ?;
  Ok (mkReplay (match spell_after t with
                | Some row => <[id := row]> (replay_spells r)
                | None => delete id (replay_spells r)
                end) (replay_skills r) (replay_overrides r)).

Definition replay_skill (root : SpellAcquisitionRoot) (r : Replay) (t : SkillTransition) : prepared Replay :=
  let id := skill_transition_id t in
  validate_provenance root (skill_provenance t) ?;
  require ((row_skill_id (skill_after t) =? id) && skill_of id (skill_before t))
    (TransitionIdMismatch "skill" id) ?;
  require (bool_decide (replay_skills r !! id = skill_before t)) (TransitionBeforeMismatch "skill" id) ?;
  Ok (mkReplay (replay_spells r) (<[id := skill_after t]> (replay_skills r)) (replay_overrides r)).

Definition replay_override (r : Replay) (t : OverrideTransition) : prepared Replay :=
  let pair := (overridden_spell_id t, overriding_spell_id t) in
  if override_add t then
    if bool_decide (pair ∈ replay_overrides r) then Err (DuplicateOverrideMutation pair.1 pair.2)
    else Ok (mkReplay (replay_spells r) (replay_skills r) ({[pair]} ∪ replay_overrides r))
  else if bool_decide (pair ∈ replay_overrides r)
  then Ok (mkReplay (replay_spells r) (replay_skills r) (replay_overrides r ∖ {[pair]}))
  else Err (MissingOverrideMutation pair.1 pair.2).

Definition replay_mutation (root : SpellAcquisitionRoot) (r : Replay) (m : Mutation) : prepared Replay :=
  match m with
  | MutationSpell t => replay_spell root r t
  | MutationSkill t => replay_skill root r t
  | MutationOverride t => replay_override r t
  end.

Definition replay_mutations (root : SpellAcquisitionRoot) (r : Replay) (l : list Mutation) : prepared Replay :=
  fold_result (replay_mutation root) r l.

(** What a replay that succeeds has pushed on its three lists. *)
Definition spells_of (l : list Mutation) : list SpellTransition :=
  omap (fun m => match m with MutationSpell t => Some t | _ => None end) l.
Definition skills_of (l : list Mutation) : list SkillTransition :=
  omap (fun m => match m with MutationSkill t => Some t | _ => None end) l.
Definition overrides_of (l : list Mutation) : list OverrideTransition :=
  omap (fun m => match m with MutationOverride t => Some t | _ => None end) l.

Definition skill_row_le (a b : PlayerSkillRow) : Prop := row_skill_id a <= row_skill_id b.
#[export] Instance skill_row_le_dec a b : Decision (skill_row_le a b).
Proof. unfold skill_row_le. apply _. Defined.

Definition replay_plan (plan : Plan) : prepared Replay :=
  let? spell_rows := spell_map (source_snapshot plan) in
  let? skill_rows := skill_map (source_snapshot plan) in
  let? edges := override_set (source_snapshot plan) in
  replay_mutations (plan_root plan) (mkReplay spell_rows skill_rows edges) (mutations plan).

(** The typed lists are those of the mutations. *)
Definition check_typed_projections (plan : Plan) : prepared unit :=
  require (bool_decide (spells_of (mutations plan) = spell_transitions plan))
    (TypedProjectionMismatch "spell_transitions") ?;
  require (bool_decide (skills_of (mutations plan) = skill_transitions plan))
    (TypedProjectionMismatch "skill_transitions") ?;
  require (bool_decide (overrides_of (mutations plan) = override_transitions plan))
    (TypedProjectionMismatch "override_transitions").

Definition check_resulting (plan : Plan) (r : Replay) : prepared unit :=
  let? spell_rows := spell_map (resulting_snapshot plan) in
  let? skill_rows := skill_map (resulting_snapshot plan) in
  let? edges := override_set (resulting_snapshot plan) in
  require (bool_decide (replay_spells r = spell_rows /\ replay_skills r = skill_rows
                        /\ replay_overrides r = edges)) ResultingSnapshotMismatch.

Definition check_profession_inputs (plan : Plan) : prepared unit :=
  require (bool_decide (merge_sort skill_row_le (profession_association_inputs plan)
                        = merge_sort skill_row_le (skills (resulting_snapshot plan))))
    ProfessionInputsMismatch.

Section Replay.
(** [validate_post_commit_actions_like_cpp] (SpellReplay.v). *)
Variable validate_post_commit_actions : Plan -> prepared unit.

Definition validate_plan_replay_with (plan : Plan) : prepared unit :=
  validate_root (plan_root plan) ?;
  validate_snapshot (source_snapshot plan) ?;
  validate_snapshot (resulting_snapshot plan) ?;
  validate_snapshot_identity (source_snapshot plan) (resulting_snapshot plan) ?;
  let? r := replay_plan plan in
  check_typed_projections plan ?;
  check_resulting plan r ?;
  validate_post_commit_actions plan ?;
  check_profession_inputs plan.
End Replay.

(** The actions of a plan after its commit: wow-world/src/spell_acquisition/
    application/validate_post_commit.rs.  Every action must have its evidence in
    the transitions of the plan, which it uses up. *)

(** The publication an action is, if it is one. *)
Definition publication_of (a : PostCommitAction) : option PublicationRequirement :=
  match a with
  | LearnedSpell id fav suppress => Some (RequireLearnedSpell id fav suppress)
  | UpdateLearnSpellQuestObjective id => Some (RequireLearnSpellQuestObjective id)
  | UpdateLearnTradeskillSkillLineCriteria id skill => Some (RequireLearnTradeskillSkillLineCriteria id skill)
  | UpdateLearnSpellFromSkillLineCriteria id skill => Some (RequireLearnSpellFromSkillLineCriteria id skill)
  | UpdateLearnOrKnowSpellCriteria id => Some (RequireLearnOrKnowSpellCriteria id)
  | _ => None
  end.

(** * Evidence: how often a key may still be used *)
Section Count.
Context {K : Type} `{Countable K}.

Definition add_evidence_of (m : gmap K nat) (key : K) : gmap K nat :=
  <[key := S (default 0%nat (m !! key))]> m.

Definition consume_action_evidence (m : gmap K nat) (key : K) : option (gmap K nat) :=
  match m !! key with
  | Some (S n) => Some (<[key := n]> m)
  | _ => None
  end.
End Count.

(** A row is active: neither removed nor disabled. *)
Definition is_active (row : option PlayerSpellRow) : bool :=
  match row with
  | Some row => bool_decide (spell_state row <> SpellState.Removed) && active row && negb (disabled row)
  | None => false
  end.

(** * What the spell transitions are evidence of *)
Record SpellEvidence : Type := mkSpellEvidence
  { seen_spells : gmap Z PlayerSpellRow; learned_evidence : gmap (Z * bool) nat;
    refresh_evidence : gmap Z nat; deactivation_evidence : list (nat * Z);
    supersede_evidence : gmap (Z * Z) (list nat); prior_activations : list (nat * Z * Provenance);
    superseding_activations : gset nat }.

Definition favorite_after (t : SpellTransition) : bool :=
  match spell_after t with Some row => favorite row | None => false end.

Definition note_activation (index : nat) (t : SpellTransition) (e : SpellEvidence) : SpellEvidence :=
  if negb (is_active (spell_before t)) && is_active (spell_after t) then
    mkSpellEvidence (seen_spells e)
      (add_evidence_of (learned_evidence e) (spell_transition_id t, favorite_after t))
      (add_evidence_of (refresh_evidence e) (spell_transition_id t))
      (deactivation_evidence e) (supersede_evidence e)
      (prior_activations e ++ [(index, spell_transition_id t, spell_provenance t)])
      (superseding_activations e)
  else e.

(** An activation of another spell with the same provenance that still holds
    supersedes the spell that is deactivated. *)
Definition note_superseding (index : nat) (t : SpellTransition) (e : SpellEvidence)
    (prior : nat * Z * Provenance) : SpellEvidence :=
  let '(candidate_index, candidate, provenance) := prior in
  if negb (candidate =? spell_transition_id t) && bool_decide (provenance = spell_provenance t)
     && is_active (seen_spells e !! candidate)
  then
    let key := (spell_transition_id t, candidate) in
    mkSpellEvidence (seen_spells e) (learned_evidence e) (refresh_evidence e) (deactivation_evidence e)
      (<[key := default [] (supersede_evidence e !! key) ++ [index]]> (supersede_evidence e))
      (prior_activations e) ({[candidate_index]} ∪ superseding_activations e)
  else e.

Definition note_deactivation (index : nat) (t : SpellTransition) (e : SpellEvidence) : SpellEvidence :=
  if is_active (spell_before t) && negb (is_active (spell_after t)) then
    foldl (note_superseding index t)
      (mkSpellEvidence (seen_spells e) (learned_evidence e) (refresh_evidence e)
         (deactivation_evidence e ++ [(index, spell_transition_id t)]) (supersede_evidence e)
         (prior_activations e) (superseding_activations e))
      (prior_activations e)
  else e.

Definition note_transition (e : SpellEvidence) (indexed : nat * SpellTransition) : SpellEvidence :=
  let '(index, t) := indexed in
  let seen := match spell_after t with
              | Some row => <[spell_transition_id t := row]> (seen_spells e)
              | None => delete (spell_transition_id t) (seen_spells e)
              end in
  note_deactivation index t
    (note_activation index t
       (mkSpellEvidence seen (learned_evidence e) (refresh_evidence e) (deactivation_evidence e)
          (supersede_evidence e) (prior_activations e) (superseding_activations e))).

Definition spell_evidence (source : gmap Z PlayerSpellRow) (transitions : list SpellTransition) :
    SpellEvidence :=
  foldl note_transition (mkSpellEvidence source ∅ ∅ [] ∅ [] ∅) (imap pair transitions).

(** A superseding activation is no evidence of a learned spell. *)
Definition withdraw_learned (transitions : list SpellTransition) (m : gmap (Z * bool) nat) (index : nat) :
    gmap (Z * bool) nat :=
  match transitions !! index with
  | Some t => default m (consume_action_evidence m (spell_transition_id t, favorite_after t))
  | None => m
  end.

Definition learned_after_superseding (transitions : list SpellTransition) (e : SpellEvidence) :
    gmap (Z * bool) nat :=
  foldl (withdraw_learned transitions) (learned_evidence e)
    (merge_sort le (elements (superseding_activations e))).

(** * What may be used up *)
Record Available : Type := mkAvailable
  { available_learned : gmap (Z * bool) nat; available_refresh : gmap Z nat;
    available_mount : gmap Z nat; available_raised : gmap Z nat; available_achieve : gmap Z nat;
    consumed_deactivations : gset nat; available_dual_wield : gmap (Z * Z * Z) nat }.

Definition dual_wield_evidence (m : gmap (Z * Z * Z) nat) (resolution : Z * CastResolution) :
    gmap (Z * Z * Z) nat :=
  if reached_immediate_phase resolution.2 then
    foldl (fun m x => add_evidence_of m (resolution.1, dual_wield_record_id x, dual_wield_effect_index x)) m
      (executed_dual_wield_effects resolution.2)
  else m.

Definition skill_evidence (transitions : list SkillTransition) : gmap Z nat :=
  foldl (fun m t => add_evidence_of m (skill_transition_id t)) ∅ transitions.

Definition initial_evidence (plan : Plan) (e : SpellEvidence) : Available :=
  let of_skills := skill_evidence (skill_transitions plan) in
  mkAvailable (learned_after_superseding (spell_transitions plan) e) (refresh_evidence e)
    of_skills of_skills of_skills ∅
    (foldl dual_wield_evidence ∅ (entries_in_order (cast_resolutions (source_snapshot plan)))).

(** * The actions *)
Definition validate_post_commit_id (domain : string) (id : Z) (u16_required : bool) : prepared unit :=
  require (negb (id =? 0) && is_i32 id && (negb u16_required || is_u16 id))
    (InvalidPostCommitAction domain id).

Definition mismatch {A} (action : string) (id : Z) : prepared A :=
  Err (PostCommitActionCausalityMismatch action id).

(** [first] and [next] are the actions before and after. *)
Definition is_tradeskill_criteria (id skill : Z) (a : option PostCommitAction) : bool :=
  bool_decide (a = Some (UpdateLearnTradeskillSkillLineCriteria id skill)).
Definition is_skill_line_criteria (id skill : Z) (a : option PostCommitAction) : bool :=
  bool_decide (a = Some (UpdateLearnSpellFromSkillLineCriteria id skill)).
Definition continues_block (id : Z) (a : option PostCommitAction) : bool :=
  match a with
  | Some (UpdateLearnTradeskillSkillLineCriteria next _) => next =? id
  | Some (UpdateLearnOrKnowSpellCriteria next) => next =? id
  | _ => false
  end.

Section Actions.
Variable resulting_spells : gmap Z PlayerSpellRow.
Variable resulting_skills : gmap Z PlayerSkillRow.
Variable transitions : list SpellTransition.
Variable evidence : SpellEvidence.

Definition spell_is_present (id : Z) : bool :=
  match resulting_spells !! id with
  | Some row => bool_decide (spell_state row <> SpellState.Removed)
  | None => false
  end.
Definition skill_is_present (id : Z) : bool :=
  match resulting_skills !! id with
  | Some row => bool_decide (skill_state row <> SkillState.Deleted)
  | None => false
  end.
Definition has_spell_transition (id : Z) : bool := existsb (fun t => spell_transition_id t =? id) transitions.

Definition check_learned (v : Available) (id : Z) (fav : bool) : prepared Available :=
  let row_matches := match resulting_spells !! id with Some row => eqb (favorite row) fav | None => false end in
  match consume_action_evidence (available_learned v) (id, fav) with
  | Some m =>
      if row_matches
      then Ok (mkAvailable m (available_refresh v) (available_mount v) (available_raised v)
                 (available_achieve v) (consumed_deactivations v) (available_dual_wield v))
      else Err (LearnedActionRowMismatch id)
  | None => Err (LearnedActionRowMismatch id)
  end.

(** Uses up a deactivation. *)
Definition consume_deactivation (v : Available) (index : nat) : Available :=
  mkAvailable (available_learned v) (available_refresh v) (available_mount v) (available_raised v)
    (available_achieve v) ({[index]} ∪ consumed_deactivations v) (available_dual_wield v).

Definition check_superseded (v : Available) (old new : Z) : prepared Available :=
  require (valid_spell_id old) (InvalidPostCommitAction "spell" old) ?;
  require (valid_spell_id new) (InvalidPostCommitAction "spell" new) ?;
  match find_first (fun i => i ∉ consumed_deactivations v)
          (default [] (supersede_evidence evidence !! (old, new))) with
  | Some index => if old =? new then mismatch "SupersededSpell" old else Ok (consume_deactivation v index)
  | None => mismatch "SupersededSpell" old
  end.

Definition check_unlearned (v : Available) (id : Z) : prepared Available :=
  validate_post_commit_id "spell" id false ?;
  match find_first (fun d : nat * Z => d.2 = id /\ d.1 ∉ consumed_deactivations v)
          (deactivation_evidence evidence) with
  | Some d =>
      if is_active (resulting_spells !! id) then mismatch "UnlearnedSpell" id
      else Ok (consume_deactivation v d.1)
  | None => mismatch "UnlearnedSpell" id
  end.

Definition check_refresh (v : Available) (id : Z) : prepared Available :=
  validate_post_commit_id "spell" id false ?;
  match consume_action_evidence (available_refresh v) id with
  | Some m =>
      if spell_is_present id
      then Ok (mkAvailable (available_learned v) m (available_mount v) (available_raised v)
                 (available_achieve v) (consumed_deactivations v) (available_dual_wield v))
      else mismatch "RefreshPassive" id
  | None => mismatch "RefreshPassive" id
  end.

Definition check_present (v : Available) (action : string) (id : Z) : prepared Available :=
  validate_post_commit_id "spell" id false ?;
  if spell_is_present id then Ok v else mismatch action id.

Definition check_dual_wield (v : Available) (id record_id index : Z) : prepared Available :=
  validate_post_commit_id "spell" id false ?;
  if record_id =? 0 then mismatch "GrantDualWield" id
  else
    match consume_action_evidence (available_dual_wield v) (id, record_id, index) with
    | Some m => Ok (mkAvailable (available_learned v) (available_refresh v) (available_mount v)
                      (available_raised v) (available_achieve v) (consumed_deactivations v) m)
    | None => mismatch "GrantDualWield" id
    end.

Definition check_tradeskill (v : Available) (id skill : Z) (next : option PostCommitAction) :
    prepared Available :=
  validate_post_commit_id "spell" id false ?;
  validate_post_commit_id "skill" skill true ?;
  if is_skill_line_criteria id skill next && has_spell_transition id && spell_is_present id
  then Ok v else mismatch "tradeskill skill-line criteria" id.

Definition check_skill_line (v : Available) (id skill : Z) (previous next : option PostCommitAction) :
    prepared Available :=
  validate_post_commit_id "spell" id false ?;
  validate_post_commit_id "skill" skill true ?;
  if is_tradeskill_criteria id skill previous && continues_block id next && has_spell_transition id
     && spell_is_present id
  then Ok v else mismatch "learn-spell skill-line criteria" id.

(** The evidence of an action on a skill. *)
Definition consume_skill (m : gmap Z nat) (action : string) (skill : Z) : prepared (gmap Z nat) :=
  match consume_action_evidence m skill with
  | Some m => if skill_is_present skill then Ok m else mismatch action skill
  | None => mismatch action skill
  end.

Definition check_mount_capability (v : Available) (skill : Z) : prepared Available :=
  validate_post_commit_id "skill" skill true ?;
  if negb (skill =? SKILL_RIDING) then mismatch "UpdateMountCapability" skill
  else
    let? m := consume_skill (available_mount v) "UpdateMountCapability" skill in
    Ok (mkAvailable (available_learned v) (available_refresh v) m (available_raised v)
          (available_achieve v) (consumed_deactivations v) (available_dual_wield v)).

Definition check_raised (v : Available) (skill : Z) : prepared Available :=
  validate_post_commit_id "skill" skill true ?;
  let? m := consume_skill (available_raised v) "skill action" skill in
  Ok (mkAvailable (available_learned v) (available_refresh v) (available_mount v) m
        (available_achieve v) (consumed_deactivations v) (available_dual_wield v)).

Definition check_achieve (v : Available) (skill : Z) : prepared Available :=
  validate_post_commit_id "skill" skill true ?;
  let? m := consume_skill (available_achieve v) "skill action" skill in
  Ok (mkAvailable (available_learned v) (available_refresh v) (available_mount v) (available_raised v)
        m (consumed_deactivations v) (available_dual_wield v)).

Definition check_action (v : Available) (previous : option PostCommitAction) (a : PostCommitAction)
    (next : option PostCommitAction) : prepared Available :=
  match a with
  | LearnedSpell id fav _ => check_learned v id fav
  | SupersededSpell old new => check_superseded v old new
  | UnlearnedSpell id => check_unlearned v id
  | RefreshPassive id => check_refresh v id
  | UpdateLearnSpellQuestObjective id => check_present v "UpdateLearnSpellQuestObjective" id
  | UpdateLearnOrKnowSpellCriteria id => check_present v "UpdateLearnOrKnowSpellCriteria" id
  | GrantDualWield id record_id index => check_dual_wield v id record_id index
  | UpdateLearnTradeskillSkillLineCriteria id skill => check_tradeskill v id skill next
  | UpdateLearnSpellFromSkillLineCriteria id skill => check_skill_line v id skill previous next
  | UpdateMountCapability skill => check_mount_capability v skill
  | UpdateSkillRaisedCriteria skill => check_raised v skill
  | UpdateAchieveSkillStepCriteria skill => check_achieve v skill
  end.

Fixpoint check_actions (v : Available) (previous : option PostCommitAction) (l : list PostCommitAction) :
    prepared Available :=
  match l with
  | [] => Ok v
  | a :: l => let? v := check_action v previous a (head l) in check_actions v (Some a) l
  end.
End Actions.

(** Every dual wield the server executed must have been granted; the first left
    over in the order of the keys is reported. *)
Definition unused_dual_wield (m : gmap (Z * Z * Z) nat) : option Z :=
  head (merge_sort Z.le
    (omap (fun e : Z * Z * Z * nat => if (e.2 =? 0)%nat then None else Some e.1.1.1) (map_to_list m))).

Definition validate_post_commit_actions (plan : Plan) : prepared unit :=
  require (bool_decide (omap publication_of (post_commit_actions plan) = publication_requirements plan))
    (PostCommitActionCausalityMismatch "required publication tape" 0) ?;
  let? resulting_spells := spell_map (resulting_snapshot plan) in
  let? resulting_skills := skill_map (resulting_snapshot plan) in
  let? source_spells := spell_map (source_snapshot plan) in
  let evidence := spell_evidence source_spells (spell_transitions plan) in
  let? v := check_actions resulting_spells resulting_skills (spell_transitions plan) evidence
              (initial_evidence plan evidence) None (post_commit_actions plan) in
  match unused_dual_wield (available_dual_wield v) with
  | Some id => mismatch "DualWieldEffectProjected" id
  | None => Ok tt
  end.

Definition validate_plan_replay : Plan -> prepared unit := validate_plan_replay_with validate_post_commit_actions.
