(* ===== verification/SpellApply.v ===== *)
(** Applying a plan: validate_profession_plan_like_cpp of wow-world/src/
    spell_acquisition/application/validate_plan.rs, translate.rs and prepare.rs,
    with the rows and operations of wow-persistence/src/spell/acquisition.rs.  A
    plan that replays becomes the rows of the character tables, the operations
    that write them and the snapshot of the player after the save.  The second
    half is the transaction of wow-database/src/player/spell_acquisition_adapter.rs
    on the tables, and what a caller learns of an attempt whose end is unknown. *)
From stdpp Require Import sorting.
From S2P Require Import Prelude BTree Guid SpellCatalog SpellModel SpellPlanner SpellPlannerSpell Profession SpellReplay.

(** * Durable rows (wow-persistence) *)
Record DurableSpell : Type := mkDurableSpell
  { durable_spell_id : Z; durable_active : bool; durable_disabled : bool }.
#[export] Instance durable_spell_eq_dec : EqDecision DurableSpell.
Proof. solve_decision. Defined.

Record DurableSkill : Type := mkDurableSkill
  { durable_skill_id : Z; durable_value : Z; durable_maximum : Z; durable_profession_slot : Z }.
#[export] Instance durable_skill_eq_dec : EqDecision DurableSkill.
Proof. solve_decision. Defined.

Record Authority : Type := mkAuthority
  { authority_spells : list DurableSpell; authority_favorites : list Z;
    authority_skills : list DurableSkill }.
#[export] Instance authority_eq_dec : EqDecision Authority.
Proof. solve_decision. Defined.

Inductive DurableOperation : Type :=
  | LockCharacter | DeleteSpells | DeleteFavoriteSpells | DeleteSkills
  | InsertSpell (row : DurableSpell) | InsertFavoriteSpell (spell_id : Z) | InsertSkill (row : DurableSkill).
#[export] Instance durable_operation_eq_dec : EqDecision DurableOperation.
Proof. solve_decision. Defined.

Definition durable_spell_le (a b : DurableSpell) : Prop := durable_spell_id a <= durable_spell_id b.
#[export] Instance durable_spell_le_dec a b : Decision (durable_spell_le a b).
Proof. unfold durable_spell_le. apply _. Defined.
Definition durable_skill_le (a b : DurableSkill) : Prop := durable_skill_id a <= durable_skill_id b.
#[export] Instance durable_skill_le_dec a b : Decision (durable_skill_le a b).
Proof. unfold durable_skill_le. apply _. Defined.

(** * The plan of the professions *)
Definition profession_check (b : bool) (what : string) : prepared unit := require b (ProfessionPlanMismatch what).

(** The capacity the plan names is the one it computes. *)
Definition capacity_arithmetic (p : CapacityPlan) : bool :=
  (configured_max p <=? MAX_PRIMARY_TRADE_SKILLS_CONFIG)
  && (used_before p =? Z.of_nat (length (existing_professions p)))
  && (free_before p =? sat_sub (configured_max p) (used_before p))
  && (Z.of_nat (length (new_professions p)) <=? free_before p).

Definition same_ids (a b : list Z) : bool := bool_decide (list_to_set a =@{gset Z} list_to_set b).

(** One assignment, after those before it. *)
Definition check_assignment (source resulting : gmap Z PlayerSkillRow)
    (seen : list Z * list EquipmentSlot) (profession : PlannedProfession * bool) :
    prepared (list Z * list EquipmentSlot) :=
  let '(p, existing) := profession in
  let id := planned_skill_id p in
  let held := match resulting !! id with
              | Some row => bool_decide (skill_state row <> SkillState.Deleted) | None => false end in
  let was_held := match source !! id with Some row => negb (skill_value row =? 0) | None => false end in
  let slot_free := match equipment_slot p with Some s => bool_decide (s ∉ seen.2) | None => true end in
  profession_check (bool_decide (id ∉ seen.1) && held && (negb existing || was_held) && slot_free)
    "profession membership or slot assignment" ?;
  Ok (id :: seen.1, occupy seen.2 (equipment_slot p)).

Definition assigned_slot (p : CapacityPlan) (skill_id : Z) : option (option EquipmentSlot) :=
  equipment_slot <$> find_first (fun a => planned_skill_id a = skill_id)
                       (existing_professions p ++ new_professions p).

Definition check_normalization (source resulting : gmap Z PlayerSkillRow) (p : CapacityPlan)
    (seen : list Z) (n : SlotNormalization) : prepared (list Z) :=
  let id := normalization_skill_id n in
  match source !! id with
  | None => Err (ProfessionPlanMismatch "normalization source skill")
  | Some row =>
      profession_check
        (bool_decide (id ∉ seen) && (database_value (profession_association row) =? original_slot n)
         && bool_decide (is_Some (resulting !! id))
         && match assigned_slot p id with
            | Some slot => bool_decide (slot = normalized_slot n)
            | None => bool_decide (normalized_slot n = None)
            end) "slot normalization" ?;
      Ok (id :: seen)
  end.

Definition validate_profession_plan (plan : Plan) (p : CapacityPlan) : prepared unit :=
  profession_check (capacity_arithmetic p) "capacity arithmetic" ?;
  profession_check (bool_decide (map planned_skill_id (new_professions p)
                                 = root_primary_profession_skill_ids plan)) "new profession order" ?;
  let? source := skill_map (source_snapshot plan) in
  let? resulting := skill_map (resulting_snapshot plan) in
  let primary := primary_profession_skill_ids (source_snapshot plan) in
  profession_check (same_ids (primary_profession_skill_ids (resulting_snapshot plan))
                      (primary ++ root_primary_profession_skill_ids plan))
    "resulting primary profession authority" ?;
  let ids := map planned_skill_id (existing_professions p) in
  profession_check (same_ids ids primary && bool_decide (NoDup ids))
    "complete existing profession membership" ?;
  fold_result (check_assignment source resulting) ([], [])
    (map (fun a => (a, true)) (existing_professions p) ++ map (fun a => (a, false)) (new_professions p)) ?;
  fold_result (check_normalization source resulting p) [] (slot_normalizations p) ?;
  Ok tt.

(** * Translation *)
Definition association_of (slot : option EquipmentSlot) : ProfessionAssociationInput :=
  match slot with Some slot => Slot (db_value slot) | None => Unassigned end.

(** The first row of the skill, which a validated plan has. *)
Fixpoint assign_association (skill_id : Z) (slot : option EquipmentSlot) (l : list PlayerSkillRow) :
    list PlayerSkillRow :=
  match l with
  | [] => []
  | row :: l =>
      if row_skill_id row =? skill_id then row <| profession_association := association_of slot |> :: l
      else row :: assign_association skill_id slot l
  end.

Definition assigned_skills (plan : Plan) (p : CapacityPlan) : list PlayerSkillRow :=
  foldl (fun l a => assign_association a.1 a.2 l) (skills (resulting_snapshot plan))
    (map (fun n => (normalization_skill_id n, normalized_slot n)) (slot_normalizations p)
     ++ map (fun a => (planned_skill_id a, equipment_slot a)) (existing_professions p ++ new_professions p)).

(** The row of a spell and its entry among the favorites; a dependent spell only
    has the second. *)
Definition saved_spell (row : PlayerSpellRow) : bool :=
  bool_decide (spell_state row <> SpellState.Removed /\ spell_state row <> SpellState.Temporary).
Definition durable_spell (row : PlayerSpellRow) : DurableSpell :=
  mkDurableSpell (row_spell_id row) (active row) (disabled row).

Definition durable_spell_rows (rows : list PlayerSpellRow) : list DurableSpell :=
  merge_sort durable_spell_le
    (map durable_spell (filter (fun row => saved_spell row && negb (dependent row)) rows)).
Definition durable_favorites (rows : list PlayerSpellRow) : list Z :=
  merge_sort Z.le (map row_spell_id (filter (fun row => saved_spell row && favorite row) rows)).

(** The rows that are written must have an id of their column's type. *)
Definition check_saved_spell (u : unit) (row : PlayerSpellRow) : prepared unit :=
  require (negb (saved_spell row && (favorite row || negb (dependent row))) || is_i32 (row_spell_id row))
    (InvalidSpellId (row_spell_id row)).

Definition durable_skill (row : PlayerSkillRow) : DurableSkill :=
  mkDurableSkill (row_skill_id row) (skill_value row) (skill_maximum row)
    (database_value (profession_association row)).

(** A skill that stays out of the table. *)
Definition not_durable (tombstones : list Z) (row : PlayerSkillRow) : bool :=
  bool_decide (skill_state row = SkillState.Deleted)
  || (bool_decide (row_skill_id row ∈ tombstones) && is_tombstone row).

Definition check_saved_skill (u : unit) (row : PlayerSkillRow) : prepared unit :=
  require (is_u16 (row_skill_id row)) (InvalidSkillId (row_skill_id row)).

Definition durable_skill_rows (tombstones : list Z) (rows : list PlayerSkillRow) : list DurableSkill :=
  merge_sort durable_skill_le
    (map durable_skill (filter (fun row => negb (not_durable tombstones row)) rows)).
(** A [BTreeSet] of the ids of the others. *)
Definition tombstone_ids (tombstones : list Z) (rows : list PlayerSkillRow) : list Z :=
  merge_sort Z.le
    (remove_dups (map row_skill_id (filter (fun row => not_durable tombstones row) rows))).

(** The rows in memory after the save. *)
Definition settle_spell (row : PlayerSpellRow) : PlayerSpellRow :=
  if bool_decide (spell_state row = SpellState.Temporary) then row
  else row <| spell_state := SpellState.Unchanged |>.
Definition settle_spells (rows : list PlayerSpellRow) : list PlayerSpellRow :=
  map settle_spell (filter (fun row => bool_decide (spell_state row <> SpellState.Removed)) rows).
Definition settle_skill (row : PlayerSkillRow) : PlayerSkillRow := row <| skill_state := SkillState.Unchanged |>.

(** [expected_replacement_operations_like_cpp] of the adapter builds the same
    list from an authority. *)
Definition replacement_operations (a : Authority) : list DurableOperation :=
  [LockCharacter; DeleteSpells; DeleteFavoriteSpells; DeleteSkills]
  ++ map InsertSpell (authority_spells a) ++ map InsertFavoriteSpell (authority_favorites a)
  ++ map InsertSkill (authority_skills a).

Record Prepared : Type := mkPrepared
  { prepared_guid : option ObjectGuid; prepared_root : SpellAcquisitionRoot; prepared_source : Snapshot;
    pending_save_runtime_snapshot : Snapshot; runtime_snapshot : Snapshot; durable_rows : Authority;
    prepared_tombstones : list Z; durable_operations : list DurableOperation;
    prepared_actions : list PostCommitAction }.

Definition translate_plan (plan : Plan) (p : CapacityPlan) : prepared Prepared :=
  let result := resulting_snapshot plan in
  let assigned := assigned_skills plan p in
  let tombstones := non_durable_skill_tombstone_ids (source_snapshot plan) in
  fold_result check_saved_spell tt (spells result) ?;
  fold_result check_saved_skill tt assigned ?;
  let rows := mkAuthority (durable_spell_rows (spells result)) (durable_favorites (spells result))
                (durable_skill_rows tombstones assigned) in
  let ids := tombstone_ids tombstones assigned in
  Ok (mkPrepared (character_guid (source_snapshot plan)) (plan_root plan) (source_snapshot plan)
        (result <| skills := assigned |>)
        (result <| skills := map settle_skill assigned |> <| spells := settle_spells (spells result) |>
                <| non_durable_skill_tombstone_ids := ids |>)
        rows ids (replacement_operations rows) (post_commit_actions plan)).

(** * Preparation *)
Definition snapshot_has_pending_durable_save (s : Snapshot) : bool :=
  existsb (fun row => bool_decide (spell_state row <> SpellState.Unchanged
                                   /\ spell_state row <> SpellState.Temporary)) (spells s)
  || existsb (fun row => bool_decide (skill_state row <> SkillState.Unchanged)) (skills s).

Inductive PreparedOutcome : Type :=
  | Ready (p : Prepared)
  | ActionsOnly (guid : option ObjectGuid) (runtime : Snapshot) (actions : list PostCommitAction)
      (runtime_actions_already_applied : bool)
  | AlreadyApplied
  | NoChange.

Definition prepare (plan : Plan) (p : CapacityPlan) (current : Snapshot) : prepared PreparedOutcome :=
  validate_plan_replay plan ?;
  validate_profession_plan plan p ?;
  let? translated := translate_plan plan p in
  match mutations plan with
  | [] =>
      if bool_decide (current <> source_snapshot plan) then Err StaleSnapshot
      else
        match post_commit_actions plan with
        | [] => Ok NoChange
        | actions => Ok (ActionsOnly (character_guid (source_snapshot plan)) (resulting_snapshot plan) actions false)
        end
  | _ :: _ =>
      if bool_decide (current = runtime_snapshot translated) then Ok AlreadyApplied
      else if bool_decide (current <> source_snapshot plan) then Err StaleSnapshot
      else Ok (Ready translated)
  end.

(** The rows of the tables behind a snapshot without unsaved rows. *)
Definition stable_source_durable_authority (s : Snapshot) : option Authority :=
  let kept := filter (fun row => bool_decide (spell_state row <> SpellState.Temporary)) (spells s) in
  if forallb (fun row => bool_decide (spell_state row = SpellState.Unchanged) && is_i32 (row_spell_id row)) kept
     && forallb (fun row => bool_decide (skill_state row = SkillState.Unchanged) && is_u16 (row_skill_id row))
          (skills s)
  then Some
    (mkAuthority
       (merge_sort durable_spell_le (map durable_spell (filter (fun row => negb (dependent row)) kept)))
       (merge_sort Z.le (map row_spell_id (filter (fun row => Is_true (favorite row)) kept)))
       (merge_sort durable_skill_le
          (map durable_skill
             (filter (fun row => row_skill_id row ∉ non_durable_skill_tombstone_ids s) (skills s)))))
  else None.

Record PersistenceRequest : Type := mkRequest
  { request_guid : Z; money_before : Z; money_after : Z; operation_token : list Z;
    source_authority : Authority; resulting_authority : Authority; request_operations : list DurableOperation }.

Definition persistence_request (guid_counter : Z) (p : Prepared) (before after : Z) (token : list Z) :
    Prelude.result PersistenceRequest string :=
  if bool_decide (counter <$> prepared_guid p <> Some guid_counter)
  then Err "prepared player spell acquisition character GUID mismatch"%string
  else
    match stable_source_durable_authority (prepared_source p) with
    | None => Err "trainer acquisition source contains unsaved persistence state"%string
    | Some source =>
        Ok (mkRequest guid_counter before after token source (durable_rows p) (durable_operations p))
    end.

(** Writing a prepared acquisition: the transaction of wow-database/src/player/
    spell_acquisition_adapter.rs, the reconciliation of a lost commit (wow-
    persistence/src/spell/acquisition.rs) and the call of both through the port
    (wow-world/src/spell_acquisition/application/prepare.rs).

    The database is the rows of the tables the statements name; no key of theirs
    is assumed.  What the server does not decide is given: which statement fails,
    and how a commit ends. *)

(** * The tables *)
Record SpellDb : Type := mkSpellDb
  { character_money : gmap Z Z; character_spell : list (Z * DurableSpell);
    character_spell_favorite : list (Z * Z); character_skills : list (Z * DurableSkill);
    operation_tokens : gmap Z (list Z) }.

#[export] Instance eta_spell_db : Eta SpellDb := fun d =>
  mkSpellDb (character_money d) (character_spell d) (character_spell_favorite d) (character_skills d)
    (operation_tokens d).

(** The rows of a player, and those of the others ([DELETE ... WHERE guid = ?]). *)
Definition rows_of {A} (guid : Z) (table : list (Z * A)) : list A :=
  (filter (fun row : Z * A => row.1 = guid) table).*2.
Definition rows_of_others {A} (guid : Z) (table : list (Z * A)) : list (Z * A) :=
  filter (fun row : Z * A => row.1 <> guid) table.

(** [read_durable_authority_in_transaction_like_cpp]: each table [ORDER BY] its id. *)
Definition read_durable_authority (guid : Z) (d : SpellDb) : Authority :=
  mkAuthority (merge_sort durable_spell_le (rows_of guid (character_spell d)))
    (merge_sort Z.le (rows_of guid (character_spell_favorite d)))
    (merge_sort durable_skill_le (rows_of guid (character_skills d))).

(** * Statements *)
Record DbError : Type := mkDbError { is_deadlock : bool; error_text : string }.

(** The statements run so far and the database the transaction sees. *)
Record Transaction : Type := mkTransaction { statement_count : nat; transaction_db : SpellDb }.

Definition Tx (A : Type) : Type := Transaction -> Transaction * Prelude.result A DbError.
Definition tx_ret {A} (a : A) : Tx A := fun t => (t, Ok a).
Definition tx_fail {A} (e : DbError) : Tx A := fun t => (t, Err e).
Definition tx_bind {A B} (m : Tx A) (k : A -> Tx B) : Tx B := fun t =>
  match m t with
  | (t1, Ok a) => k a t1
  | (t1, Err e) => (t1, Err e)
  end.
Notation "'tx!' x ':=' m 'in' k" := (tx_bind m (fun x => k))
  (at level 10, x pattern, m at level 100, k at level 200) : wow_scope.

Inductive Attempt : Type :=
  | Applied | DefinitelyRolledBack (reason : string) (retryable_deadlock : bool)
  | CommitOutcomeUnknown (reason : string).

(** How a commit ends.  The server rolls a deadlock back; with another error the
    transaction may have been made durable or not. *)
Inductive CommitEnd : Type :=
  | CommitDone | CommitDeadlock (text : string) | CommitLost (durable : bool) (text : string).

Definition definitely_rolled_back (e : DbError) : Attempt :=
  DefinitelyRolledBack (error_text e) (is_deadlock e).
Definition transaction_error (text : string) : DbError := mkDbError false text.

Section Adapter.
(** The error of the n-th statement of the transaction, [BEGIN] being number 0. *)
Variable fails : nat -> option DbError.

(** Runs a statement that changes the database and answers a number of rows. *)
Definition statement {A} (f : SpellDb -> SpellDb * A) : Tx A := fun t =>
  let n := statement_count t in
  match fails n with
  | Some e => (mkTransaction (S n) (transaction_db t), Err e)
  | None => let r := f (transaction_db t) in (mkTransaction (S n) r.1, Ok r.2)
  end.
Definition query {A} (f : SpellDb -> A) : Tx A := statement (fun d => (d, f d)).

Definition execute_insert (f : SpellDb -> SpellDb) : Tx unit :=
  tx! rows := statement (fun d => (f d, 1)) in
  if rows =? 1 then tx_ret tt
  else tx_fail (transaction_error "prepared player spell acquisition insert affected rows; expected exactly 1").

Definition execute_operation (guid : Z) (o : DurableOperation) : Tx unit :=
  match o with
  | LockCharacter =>
      tx! row := query (fun d => character_money d !! guid) in
      match row with
      | Some _ => tx_ret tt
      | None => tx_fail (transaction_error "prepared player spell acquisition character vanished")
      end
  | DeleteSpells =>
      statement (fun d => (d <| character_spell := rows_of_others guid (character_spell d) |>, tt))
  | DeleteFavoriteSpells =>
      statement (fun d => (d <| character_spell_favorite := rows_of_others guid (character_spell_favorite d) |>, tt))
  | DeleteSkills =>
      statement (fun d => (d <| character_skills := rows_of_others guid (character_skills d) |>, tt))
  | InsertSpell row =>
      execute_insert (fun d => d <| character_spell := character_spell d ++ [(guid, row)] |>)
  | InsertFavoriteSpell spell_id =>
      execute_insert (fun d => d <| character_spell_favorite := character_spell_favorite d ++ [(guid, spell_id)] |>)
  | InsertSkill row =>
      execute_insert (fun d => d <| character_skills := character_skills d ++ [(guid, row)] |>)
  end.

(** The lock of the money row stands for [LockCharacter]. *)
Fixpoint execute_operations (guid : Z) (l : list DurableOperation) : Tx unit :=
  match l with
  | [] => tx_ret tt
  | LockCharacter :: l => execute_operations guid l
  | o :: l => tx! _ := execute_operation guid o in execute_operations guid l
  end.

Definition read_authority (guid : Z) : Tx Authority :=
  tx! s := query (fun d => authority_spells (read_durable_authority guid d)) in
  tx! f := query (fun d => authority_favorites (read_durable_authority guid d)) in
  tx! k := query (fun d => authority_skills (read_durable_authority guid d)) in
  tx_ret (mkAuthority s f k).

(** [UPDATE characters SET money = ? WHERE guid = ? AND money = ?] answers the
    number of rows it changed. *)
Definition update_money (guid before after : Z) : Tx Z :=
  statement (fun d =>
    if bool_decide (character_money d !! guid = Some before)
    then (d <| character_money := <[guid := after]> (character_money d) |>, 1) else (d, 0)).

Definition pay (r : PersistenceRequest) : Tx unit :=
  if money_before r =? money_after r then tx_ret tt
  else
    tx! rows := update_money (request_guid r) (money_before r) (money_after r) in
    if rows =? 1 then tx_ret tt
    else tx_fail (transaction_error "trainer acquisition money update affected rows; expected exactly 1").

Definition write_token (r : PersistenceRequest) : Tx unit :=
  statement (fun d => (d <| operation_tokens := <[request_guid r := operation_token r]> (operation_tokens d) |>, tt)).

(** Everything between [BEGIN] and [COMMIT]. *)
Definition attempt_body (r : PersistenceRequest) : Tx unit :=
  tx! locked := query (fun d => character_money d !! request_guid r) in
  if bool_decide (locked <> Some (money_before r))
  then tx_fail (transaction_error "trainer acquisition durable money no longer matches the prepared balance")
  else
    tx! observed := read_authority (request_guid r) in
    if bool_decide (observed <> source_authority r)
    then tx_fail (transaction_error "trainer acquisition durable source no longer matches the prepared snapshot")
    else
      tx! _ := execute_operations (request_guid r) (request_operations r) in
      tx! _ := pay r in
      write_token r.

(** The database afterwards and the answer. *)
Definition attempt (commit : CommitEnd) (r : PersistenceRequest) (d : SpellDb) : SpellDb * Attempt :=
  if bool_decide (request_operations r <> replacement_operations (resulting_authority r))
  then (d, definitely_rolled_back
             (transaction_error "trainer acquisition replacement operations do not match the resulting authority"))
  else
    match fails 0%nat with
    | Some e => (d, definitely_rolled_back e)
    | None =>
        match attempt_body r (mkTransaction 1 d) with
        | (_, Err e) => (d, definitely_rolled_back e)
        | (t, Ok _) =>
            match commit with
            | CommitDone => (transaction_db t, Applied)
            | CommitDeadlock text => (d, DefinitelyRolledBack text true)
            | CommitLost durable text => (if durable then transaction_db t else d, CommitOutcomeUnknown text)
            end
        end
    end.
End Adapter.

(** * Reconciliation *)
Inductive Reconciliation : Type := ReconciledCommitted | ReconciledIndeterminate.
#[export] Instance reconciliation_eq_dec : EqDecision Reconciliation.
Proof. solve_decision. Defined.

Definition classify_reconciliation (after observed : Z) (durable_matches operation_matches : bool) :
    Reconciliation :=
  if (observed =? after) && durable_matches && operation_matches then ReconciledCommitted
  else ReconciledIndeterminate.

(** [fails] and [commits] are those of the transaction that reads. *)
Definition reconcile (fails : nat -> option DbError) (commits : bool) (r : PersistenceRequest) (d : SpellDb) :
    Reconciliation :=
  match fails 0%nat with
  | Some _ => ReconciledIndeterminate
  | None =>
      let body : Tx (option (Z * option (list Z) * Authority)) :=
        tx! money := query fails (fun d => character_money d !! request_guid r) in
        match money with
        | None => tx_ret None
        | Some money =>
            tx! token := query fails (fun d => operation_tokens d !! request_guid r) in
            tx! observed := read_authority fails (request_guid r) in
            tx_ret (Some (money, token, observed))
        end in
      match (body (mkTransaction 1 d)).2 with
      | Ok (Some (money, token, observed)) =>
          if commits then
            classify_reconciliation (money_after r) money
              (bool_decide (observed = resulting_authority r))
              (bool_decide (token = Some (operation_token r)))
          else ReconciledIndeterminate
      | _ => ReconciledIndeterminate
      end
  end.

(** * Through the port *)
Inductive PersistenceOutcome : Type :=
  | OutcomeApplied | OutcomeReconciledCommit (reason : string) | OutcomeRolledBack (reason : string)
  | OutcomeUnknown (reason : string).

Definition persist_through_port (fails : nat -> option DbError) (commit : CommitEnd)
    (reconcile_fails : nat -> option DbError) (reconcile_commits : bool) (r : PersistenceRequest)
    (d : SpellDb) : SpellDb * PersistenceOutcome :=
  let '(d1, answer) := attempt fails commit r d in
  (d1, match answer with
       | Applied => OutcomeApplied
       | DefinitelyRolledBack reason _ => OutcomeRolledBack reason
       | CommitOutcomeUnknown reason =>
           match reconcile reconcile_fails reconcile_commits r d1 with
           | ReconciledCommitted => OutcomeReconciledCommit reason
           | ReconciledIndeterminate => OutcomeUnknown reason
           end
       end).
