(* ===== verification/SpellPlannerSteps.v ===== *)
(** Relations that the computations of the planner keep: [steps R m] where every
    answer of [m] that is no refusal leaves a state related to the first one. *)
From S2P Require Import Prelude BTree Guid SpellCatalog SpellModel SpellPlanner SpellPlannerSkill SpellPlannerCast SpellPlannerSpell SpellReplay.

Section Steps.
Variable R : Planner -> Planner -> Prop.
Context {HR : PreOrder R}.

Definition steps {A} (m : M A) : Prop := forall p q a, m p = Some (q, Ok a) -> R p q.

Lemma steps_ret {A} (a : A) : steps (ret a).
Proof. intros p q b [= -> ->]. done. Qed.
Lemma steps_refuse {A} e : steps (refuse (A := A) e).
Proof. by intros p q b [= ]. Qed.
Lemma steps_lift {A} (r : Prelude.result A Indeterminate) : steps (lift r).
Proof. intros p q b [= -> _]. done. Qed.
Lemma steps_some_or {A} (o : option A) e : steps (some_or o e).
Proof. apply steps_lift. Qed.
Lemma steps_gets {A} (f : Planner -> A) : steps (gets f).
Proof. intros p q b [= -> _]. done. Qed.
Lemma steps_modify f : (forall p, R p (f p)) -> steps (modify f).
Proof. intros H p q b [= <- _]. apply H. Qed.

Lemma bind_Ok {A B} (m : M A) (f : A -> M B) p q b :
  bind m f p = Some (q, Ok b) <-> exists p1 a, m p = Some (p1, Ok a) /\ f a p1 = Some (q, Ok b).
Proof.
  unfold bind. split.
  - intros E. destruct (m p) as [[p1 [a|e]]|]; [eauto|discriminate..].
  - intros (p1 & a & -> & E). done.
Qed.

Lemma steps_bind {A B} (m : M A) (f : A -> M B) : steps m -> (forall a, steps (f a)) -> steps (bind m f).
Proof.
  intros Hm Hf p q b (p1 & a & E1 & E2)%bind_Ok. transitivity p1; [by apply (Hm _ _ a)|by apply (Hf a _ _ b)].
Qed.

Lemma steps_finally {A} (m : M A) f : steps m -> (forall p, R p (f p)) -> steps (finally m f).
Proof.
  intros Hm Hf p q a E. unfold finally in E. destruct (m p) as [[p1 r]|] eqn:E1; [|discriminate].
  simplify_eq. transitivity p1; [by apply (Hm _ _ a)|apply Hf].
Qed.

Lemma steps_for_each {A} (f : A -> M unit) l : (forall a, steps (f a)) -> steps (for_each f l).
Proof.
  intros H. induction l as [|a l IH]; [apply steps_ret|]. apply steps_bind; [apply H|by intros _].
Qed.

Lemma steps_any_each {A} (f : A -> M bool) l : (forall a, steps (f a)) -> steps (any_each f l).
Proof.
  intros H. induction l as [|a l IH]; [apply steps_ret|]. apply steps_bind; [apply H|intros b].
  apply steps_bind; [done|]. intros c. apply steps_ret.
Qed.

(** A cast that is deferred changes the work count and the diagnostics only. *)
Lemma steps_defer env self id effects r w :
  steps (simulate_cast env self id effects r w) ->
  (forall d n p, R p (p <| p_work := n |> <| p_diagnostics := d |>)) ->
  steps (simulate_or_defer_cast env self id effects r w).
Proof.
  intros Hm Hd p q a E. unfold simulate_or_defer_cast in E.
  destruct (simulate_cast env self id effects r w p) as [[s [[]|cause]]|] eqn:E1; [| |discriminate].
  - simplify_eq. by eapply Hm.
  - destruct (defers env); [|discriminate].
    unfold push_diagnostic, bind, modify, ret in E. cbv beta iota in E. inversion E. apply Hd.
Qed.

(** The functions that are called; a plan never asks for a disabled spell. *)
Record ops_step (o : Ops) : Prop :=
  { learn_steps : forall id d s pr, steps (op_learn_spell o id d s pr);
    add_steps : forall id a l d s f pr, steps (op_add_spell o id a l d false s f pr);
    set_steps : forall id s v m pr, steps (op_set_skill o id s v m pr);
    validate_steps : forall id, steps (op_validate_spell_definition o id) }.

(** A relation the four bodies keep is kept at every depth. *)
Lemma ops_induction env n :
  (forall o, ops_step o -> forall id d s pr, steps (learn_spell env o id d s pr)) ->
  (forall o, ops_step o -> forall req a, add_disabled req = false -> steps (add_spell env o req a)) ->
  (forall o, ops_step o -> forall id s v m pr, steps (set_skill env o id s v m pr)) ->
  (forall o, ops_step o -> forall id, steps (validate_spell_definition env o id)) ->
  ops_step (ops env n).
Proof.
  intros H1 H2 H3 H4. induction n as [|n IH].
  - split; intros; intros p q r E; discriminate E.
  - split.
    + intros id d s pr p q a E. exact (H1 _ IH _ _ _ _ p q a E).
    + intros id b l d s f pr p q a E. exact (H2 _ IH (mkAdd id l d false s f pr) b eq_refl p q a E).
    + intros id s v m pr p q a E. exact (H3 _ IH _ _ _ _ _ p q a E).
    + intros id p q a E. exact (H4 _ IH _ p q a E).
Qed.
End Steps.

Create HintDb steps.
#[export] Hint Resolve steps_ret steps_refuse steps_lift steps_some_or steps_gets learn_steps add_steps
  set_steps validate_steps : steps.

(** Descends into a computation; a change of the fields the relation does not
    read is reflexivity. *)
Ltac steps :=
  intros;
  lazymatch goal with
  | |- steps _ (bind _ _) => apply steps_bind; [apply _|steps|intros; steps]
  | |- steps _ (finally _ _) => apply steps_finally; [apply _|steps|intros; repeat case_match; reflexivity]
  | |- steps _ (modify _) => apply steps_modify; intros; try reflexivity
  | |- steps _ (for_each _ _) => apply steps_for_each; [apply _|intros; steps]
  | |- steps _ (any_each _ _) => apply steps_any_each; [apply _|intros; steps]
  | |- steps _ (match ?x with _ => _ end) => destruct x; steps
  | |- steps _ (let _ := _ in _) => cbv zeta; steps
  | |- _ => try solve [eauto with steps typeclass_instances]
  end.

(** * Relations on what a plan is made of *)
(** The fields of the planner that reach the player or the plan's mutations. *)
Record View : Type := mkView
  { view_spells : gmap Z PlayerSpellRow; view_skills : gmap Z PlayerSkillRow;
    view_overrides : gset (Z * Z); view_spell_transitions : list SpellTransition;
    view_skill_transitions : list SkillTransition; view_override_transitions : list OverrideTransition;
    view_mutations : list Mutation; view_requirements : list PublicationRequirement;
    view_actions : list PostCommitAction }.

Definition view (p : Planner) : View :=
  mkView (p_spells p) (p_skills p) (p_overrides p) (p_spell_transitions p) (p_skill_transitions p)
    (p_override_transitions p) (p_mutations p) (p_requirements p) (p_actions p).

(** A relation that only reads the view and that publications, actions and
    overrides keep. *)
Class PlanRelation (R : Planner -> Planner -> Prop) : Prop :=
  { relation_preorder :: PreOrder R;
    relation_view : forall p q, view p = view q -> R p q;
    relation_action : forall a, publication_of a = None -> steps R (push_action a);
    relation_publication : forall r a, publication_of a = Some r -> steps R (push_publication r a);
    relation_add_override : forall a b, steps R (add_override a b);
    relation_remove_override : forall a b, steps R (remove_override a b) }.

Ltac view := intros; apply relation_view; ssimpl; reflexivity.
(** As [steps], a change outside of the view included. *)
Ltac steps_view :=
  intros;
  lazymatch goal with
  | |- steps _ (bind _ _) => apply steps_bind; [apply _|steps_view|intros; steps_view]
  | |- steps _ (finally _ _) => apply steps_finally; [apply _|steps_view|intros; repeat case_match; first [reflexivity|view]]
  | |- steps _ (modify _) => apply steps_modify; view
  | |- steps _ (for_each _ _) => apply steps_for_each; [apply _|intros; steps_view]
  | |- steps _ (any_each _ _) => apply steps_any_each; [apply _|intros; steps_view]
  | |- steps _ (push_action (match ?x with _ => _ end)) => destruct x; steps_view
  | |- steps _ (push_action _) => apply relation_action; reflexivity
  | |- steps _ (push_publication _ _) => apply relation_publication; reflexivity
  | |- steps _ (match ?x with _ => _ end) => destruct x; steps_view
  | |- steps _ (let _ := _ in _) => cbv zeta; steps_view
  | |- _ => try solve [eauto with steps typeclass_instances]
  end.

Section Bodies.
Variable R : Planner -> Planner -> Prop.
Context `{HR : !PlanRelation R}.
Variables (env : Env) (self : Ops).
Hypothesis Hself : ops_step R self.

Lemma consume_steps : steps R consume_work.
Proof. unfold consume_work. steps_view. Qed.
Lemma push_diagnostic_steps d : steps R (push_diagnostic d).
Proof. unfold push_diagnostic. steps_view. Qed.
Hint Resolve consume_steps push_diagnostic_steps relation_add_override relation_remove_override : steps.

Lemma projection_steps id : steps R (effective_spell_projection env id).
Proof.
  unfold effective_spell_projection, effects_or_refuse, rows_or_refuse, row_or_refuse, talent_or_refuse,
    chain_or_refuse, learn_skill_or_refuse, check_dependency_row. steps_view.
Qed.
Hint Resolve projection_steps : steps.

Lemma validate_definition_steps id : steps R (validate_spell_definition env self id).
Proof.
  unfold validate_spell_definition, effects_or_refuse, rows_or_refuse, validate_effect, pop_visiting.
  steps_view.
Qed.

(** ** Skills *)
Lemma record_criteria_steps id : steps R (record_skill_criteria id).
Proof. unfold record_skill_criteria. steps_view. Qed.
Lemma activation_steps fields v row : steps R (record_primary_profession_activation fields v row).
Proof. unfold record_primary_profession_activation. steps_view. Qed.
Hint Resolve record_criteria_steps activation_steps : steps.

Lemma gates_step id v spell ability :
  steps R
    (and_gate (quest_gate env ability spell)
       (and_gate (ret (riding_gate id ability))
          (and_gate (ret (race_class_gate env ability))
             (and_gate (level_gate env spell) (rank_gate id v spell ability))))).
Proof.
  unfold and_gate, quest_gate, level_gate, rank_gate, row_or_refuse,
    consume_future_player_condition_resolution. steps_view.
Qed.

Lemma rewards_step id v : steps R (learn_skill_rewards env self id v).
Proof.
  unfold learn_skill_rewards, learn_skill_reward, learn_reward. destruct (negb _); [steps_view|].
  case_match; [steps_view| |steps_view]. apply steps_for_each; [apply _|]. intros ability.
  case_match; [steps_view|]. apply steps_bind; [apply _|steps_view|]. intros spell.
  case_match; [steps_view|]. apply steps_bind; [apply _|apply gates_step|steps_view].
Qed.

Lemma activate_parent_steps c fields : steps R (activate_parent_skill env self c fields).
Proof. unfold activate_parent_skill, set_parent_skill, push_parent, pop_parent. steps_view. Qed.

Lemma relate_new_skill_steps id pr fields : steps R (relate_new_skill env self id pr fields).
Proof.
  pose proof activate_parent_steps. unfold relate_new_skill, create_child. steps_view.
Qed.

Lemma direct_skill_steps id l pr : steps R (apply_direct_learn_skill env self id l pr).
Proof. unfold apply_direct_learn_skill. steps_view. Qed.
Lemma fallback_steps id s : steps R (apply_skill_line_fallback env self id s).
Proof. unfold apply_skill_line_fallback, fallback_row, learn_default_skill. steps_view. Qed.
Hint Resolve direct_skill_steps fallback_steps : steps.

(** ** Casts *)
Lemma refresh_passive_steps id : steps R (refresh_passive env id).
Proof. unfold refresh_passive, require_cast_authority_or_defer. steps_view. Qed.
Lemma cast_skill_steps id e pr : steps R (apply_cast_skill_effect env self id e pr).
Proof. unfold apply_cast_skill_effect, raise_skill. steps_view. Qed.
Hint Resolve refresh_passive_steps cast_skill_steps : steps.

Lemma simulate_steps id effects r w : steps R (simulate_cast env self id effects r w).
Proof.
  unfold simulate_cast, require_projectable, run_phases, require_cast_resolution, immediate_effect,
    hit_target_effect, execute_hit_target, grant_dual_wield. steps_view.
Qed.

Lemma defer_steps id effects r w : steps R (simulate_or_defer_cast env self id effects r w).
Proof. apply steps_defer; [apply simulate_steps|view]. Qed.
Hint Resolve simulate_steps defer_steps : steps.

Lemma cast_passive_steps id projection : steps R (cast_passive env self id projection).
Proof. unfold cast_passive. steps_view. Qed.
Lemma autocast_steps id projection : steps R (project_add_spell_autocast env self id projection).
Proof. unfold project_add_spell_autocast. steps_view. Qed.
Hint Resolve autocast_steps : steps.

(** ** Spells *)
Lemma criteria_steps id : steps R (record_spell_criteria env id).
Proof. unfold record_spell_criteria, skill_line_criteria. steps_view. Qed.
Hint Resolve criteria_steps : steps.
Lemma forget_trait_steps id row : steps R (forget_trait env id row).
Proof. unfold forget_trait. steps_view. Qed.
Lemma add_previous_rank_steps req projection a :
  add_disabled req = false -> steps R (add_previous_rank env self req projection a).
Proof. intros Hd. unfold add_previous_rank. rewrite Hd. steps_view. Qed.
Lemma follow_up_steps req projection b : steps R (follow_up env self req projection b).
Proof. unfold follow_up, apply_skills, add_dependency, check_mount. steps_view. Qed.
Lemma enable_dependents_steps id s : steps R (enable_dependents env self id s).
Proof. unfold enable_dependents, enable_again. steps_view. Qed.
Hint Resolve enable_dependents_steps : steps.
Lemma learn_spell_steps id d s pr : steps R (learn_spell env self id d s pr).
Proof. unfold learn_spell. steps_view. Qed.
End Bodies.

#[export] Hint Resolve consume_steps push_diagnostic_steps relation_add_override relation_remove_override
  projection_steps record_criteria_steps activation_steps rewards_step activate_parent_steps
  relate_new_skill_steps direct_skill_steps fallback_steps refresh_passive_steps cast_skill_steps
  simulate_steps defer_steps cast_passive_steps autocast_steps criteria_steps forget_trait_steps
  add_previous_rank_steps follow_up_steps enable_dependents_steps : steps.
