(* ===== verification/SpellApplyTheorems.v ===== *)
(** The plan of the primary professions: slots are held once and never left free
    beside a profession without one, no profession is forgotten, and new ones are
    learned all or none within the configured number.  Then what is prepared and
    what the transaction stores: the rows of memory, the operations and the tables
    agree. *)
From stdpp Require Import sorting.
From S2P Require Import Prelude BTree SpellCatalog Profession SpellModel SpellReplay SpellApply Guid SpellPlanner SpellPlannerSpell.

(** * Slots *)
Lemma free_slot_Some occupied slot : free_slot occupied = Some slot -> slot ∉ occupied.
Proof. unfold free_slot. intros H. by apply find_first_Some in H as [_ H]. Qed.

Lemma free_slot_None occupied : free_slot occupied = None -> forall slot, slot ∈ occupied.
Proof.
  unfold free_slot. intros H slot. apply find_first_None in H. rewrite Forall_forall in H.
  destruct (decide (slot ∈ occupied)) as [|Hn]; [done|]. exfalso. apply (H slot); [|done].
  destruct slot; [by left|by right; left].
Qed.

(** The slots two lists of professions hold, and those held before them. *)
Definition slots_of (l : list PlannedProfession) : list EquipmentSlot := omap equipment_slot l.

Lemma NoDup_occupy occupied slot :
  NoDup occupied -> (forall s, slot = Some s -> s ∉ occupied) -> NoDup (occupy occupied slot).
Proof. intros Hnd H. destruct slot as [s|]; [|done]. cbn. apply NoDup_cons. auto. Qed.

Lemma assign_slots_NoDup occupied ids : NoDup occupied -> NoDup (slots_of (assign_slots occupied ids) ++ occupied).
Proof.
  revert occupied. induction ids as [|id ids IH]; intros occupied H; [done|]. cbn [assign_slots].
  specialize (IH (occupy occupied (free_slot occupied))). unfold slots_of in *. cbn [omap list_omap equipment_slot].
  destruct (free_slot occupied) as [s|] eqn:E; cbn [occupy] in *.
  - apply free_slot_Some in E. rewrite <- app_comm_cons. rewrite Permutation_middle. apply IH.
    by apply NoDup_cons.
  - by apply IH.
Qed.

Lemma assign_slots_ids occupied ids : map planned_skill_id (assign_slots occupied ids) = ids.
Proof. revert occupied. induction ids as [|id ids IH]; intros occupied; [done|]. cbn. by rewrite IH. Qed.

(** Where one of them has no slot, none is free. *)
Definition no_slot_wasted (l : list PlannedProfession) (held : list EquipmentSlot) : Prop :=
  None ∈ map equipment_slot l -> forall slot, slot ∈ held.

Lemma assign_slots_wasted occupied ids :
  no_slot_wasted (assign_slots occupied ids) (slots_of (assign_slots occupied ids) ++ occupied).
Proof.
  revert occupied. induction ids as [|id ids IH]; intros occupied; unfold no_slot_wasted in *.
  { by intros ?%elem_of_nil. }
  cbn [assign_slots map equipment_slot]. unfold slots_of in *. cbn [omap list_omap equipment_slot].
  destruct (free_slot occupied) as [s|] eqn:E; cbn [occupy] in *.
  - intros [?|H]%elem_of_cons slot; [done|]. specialize (IH (s :: occupied) H slot). set_solver.
  - intros _ slot. apply elem_of_app. right. by apply free_slot_None.
Qed.

(** * The analysis *)
Definition is_active_primary (lines : SkillLineStore) (s : PlayerSkillProfessionSnapshot) : bool :=
  negb (profession_value s =? 0)
  && bool_decide (is_primary_profession_skill lines (profession_skill_id s) = Some true).

Lemma classify_skills_Ok lines occupied skills r :
  classify_skills lines occupied skills = Ok r ->
  map existing_skill_id r.1.1
  = map profession_skill_id (filter (fun s => Is_true (is_active_primary lines s)) skills)
  /\ r.1.2 ≡ₚ omap existing_slot r.1.1 ++ occupied
  /\ (NoDup occupied -> NoDup r.1.2).
Proof.
  revert occupied r. induction skills as [|s skills IH]; intros occupied r E; cbn [classify_skills] in E.
  { by injection E as <-. }
  rewrite filter_cons. destruct (decide (is_active_primary lines s)) as [Ha|Ha]; unfold is_active_primary in Ha.
  - apply Is_true_true, andb_prop in Ha as [Hv Hp]. apply negb_true_iff in Hv. apply bool_decide_eq_true in Hp.
    rewrite Hv, Hp in E. apply rbind_Ok in E as (r' & E & [= <-]). apply IH in E as (E1 & E2 & E3).
    cbn [fst snd map]. split_and!.
    + by rewrite E1.
    + rewrite E2. cbn [omap list_omap existing_slot]. destruct (keep_slot occupied (profession_slot s)).1; cbn [occupy];
        [by rewrite <- Permutation_middle|done].
    + intros Hnd. apply E3, NoDup_occupy; [done|]. intros s' H. unfold keep_slot in H. case_match.
      * case_bool_decide; by simplify_eq/=.
      * case_match; discriminate.
  - destruct (profession_value s =? 0); [apply rbind_Ok in E as (r' & E & [= <-]); by apply IH in E|].
    destruct (is_primary_profession_skill lines (profession_skill_id s)) as [[]|]; [| |discriminate].
    + exfalso. apply Ha. cbn. by rewrite bool_decide_true.
    + apply rbind_Ok in E as (r' & E & [= <-]). by apply IH in E.
Qed.

Lemma fill_slots_spec occupied existing other :
  occupied ≡ₚ omap existing_slot existing ++ other -> NoDup occupied ->
  let planned := (fill_slots occupied existing).1 in
  map planned_skill_id planned = map existing_skill_id existing
  /\ NoDup (slots_of planned ++ other)
  /\ (forall s, s ∈ occupied -> s ∈ slots_of planned ++ other)
  /\ no_slot_wasted planned (slots_of planned ++ other).
Proof.
  revert occupied other. induction existing as [|e existing IH]; intros occupied other Hp Hnd; cbn [fill_slots fst].
  { rewrite Hp in Hnd. split_and!; [done|done| |by intros ?%elem_of_nil]. intros s. by rewrite Hp. }
  cbn [omap list_omap] in Hp. destruct (existing_slot e) as [s|] eqn:Es.
  - assert (Hp' : occupied ≡ₚ omap existing_slot existing ++ s :: other) by by rewrite <- Permutation_middle.
    destruct (IH occupied (s :: other) Hp' Hnd) as (I1 & I2 & I3 & I4).
    cbn [fst map planned_skill_id]. unfold slots_of in *. cbn [omap list_omap equipment_slot]. split_and!.
    + by rewrite I1.
    + by rewrite <- app_comm_cons, Permutation_middle.
    + intros s' H. specialize (I3 s' H). set_solver.
    + intros [?|H]%elem_of_cons s'; [done|]. specialize (I4 H s'). set_solver.
  - set (slot := free_slot occupied) in *.
    assert (Hp' : occupy occupied slot ≡ₚ omap existing_slot existing ++ occupy other slot).
    { destruct slot; cbn [occupy]; [by rewrite <- Permutation_middle, Hp|done]. }
    assert (Hnd' : NoDup (occupy occupied slot)) by by apply NoDup_occupy; [|apply free_slot_Some].
    destruct (IH _ _ Hp' Hnd') as (I1 & I2 & I3 & I4).
    cbn [fst map planned_skill_id]. unfold slots_of in *. cbn [omap list_omap equipment_slot].
    destruct slot as [s|] eqn:E; cbn [occupy] in *; split_and!.
    + by rewrite I1.
    + by rewrite <- app_comm_cons, Permutation_middle.
    + intros s' H. specialize (I3 s' ltac:(by right)). set_solver.
    + intros [?|H]%elem_of_cons s'; [done|]. specialize (I4 H s'). set_solver.
    + by rewrite I1.
    + done.
    + done.
    + intros _ s'. apply I3. by apply free_slot_None.
Qed.

Lemma analyze_Ok configured lines current a :
  analyze_primary_professions configured lines current = Ok a -> NoDup (map profession_skill_id current) ->
  analysis_max a = configured /\ configured <= MAX_PRIMARY_TRADE_SKILLS_CONFIG
  /\ existing_ids a ≡ₚ map profession_skill_id (filter (fun s => Is_true (is_active_primary lines s)) current)
  /\ NoDup (existing_ids a) /\ NoDup (slots_of (analysis_existing a))
  /\ no_slot_wasted (analysis_existing a) (slots_of (analysis_existing a)).
Proof.
  unfold analyze_primary_professions. intros E Hnd. case_match eqn:Hc; [discriminate|].
  apply rbind_Ok in E as (r & E & [= <-]). apply classify_skills_Ok in E as (E1 & E2 & E3).
  destruct (fill_slots_spec r.1.2 r.1.1 [] E2 (E3 (NoDup_nil_2))) as (I1 & I2 & _ & I4).
  rewrite app_nil_r in *. cbn [analysis_max analysis_existing]. unfold existing_ids. cbn [analysis_existing].
  rewrite I1, E1.
  assert (Hids : map profession_skill_id (filter (fun s => Is_true (is_active_primary lines s)) (merge_sort skill_le current))
                 ≡ₚ map profession_skill_id (filter (fun s => Is_true (is_active_primary lines s)) current)).
  { by rewrite merge_sort_Permutation. }
  split_and!; [done|lia|done| |done|done]. rewrite Hids. clear -Hnd.
  induction current as [|s current IH]; [done|]. rewrite filter_cons. cbn [map] in Hnd.
  apply NoDup_cons in Hnd as [Hs Hnd]. case_decide; [|by apply IH]. cbn [map]. apply NoDup_cons.
  split; [|by apply IH]. intros (b & Eb & [_ Hb]%list_elem_of_filter)%list_elem_of_fmap. apply Hs. rewrite Eb.
  apply list_elem_of_fmap. eauto.
Qed.

(** * The plan *)
Lemma requested_primary_Ok lines known requested r :
  requested_primary lines known requested = Ok r ->
  NoDup r /\ (forall id, id ∈ r -> id ∉ known /\ is_primary_profession_skill lines id = Some true)
  /\ (forall id, id ∈ requested -> is_primary_profession_skill lines id = Some true -> id ∈ known \/ id ∈ r).
Proof.
  revert known r. induction requested as [|x requested IH]; intros known r E; cbn [requested_primary] in E.
  { injection E as <-. split_and!; [constructor|by intros ? ?%elem_of_nil..]. }
  destruct (is_primary_profession_skill lines x) as [primary|] eqn:Ep; [|discriminate].
  destruct (primary && negb (bool_decide (x ∈ known))) eqn:Hx.
  - apply andb_prop in Hx as [Hx1 Hx2]. apply Is_true_true in Hx1. destruct primary; [|done].
    apply negb_true_iff, bool_decide_eq_false in Hx2.
    apply rbind_Ok in E as (r' & E & [= <-]). apply IH in E as (I1 & I2 & I3). split_and!.
    + apply NoDup_cons. split; [|done]. intros H. apply I2 in H as [H _]. apply H. by left.
    + intros id [->|H]%elem_of_cons; [done|]. apply I2 in H as [H ?]. split; [|done]. intros Hk. apply H. by right.
    + intros id [->|H]%elem_of_cons Hid; [right; by left|].
      destruct (I3 id H Hid) as [[->|?]%elem_of_cons|?]; [right; by left|by left|right; by right].
  - apply IH in E as (I1 & I2 & I3). split_and!; [done..|].
    intros id [->|H]%elem_of_cons Hid; [|by apply I3]. left. rewrite Hid in Ep. injection Ep as <-.
    cbn in Hx. apply negb_false_iff in Hx. by apply bool_decide_eq_true in Hx.
Qed.

(** Each element once, where it comes first. *)
Fixpoint first_occurrences (l : list Z) : list Z :=
  match l with
  | [] => []
  | x :: l => x :: filter (fun y => y <> x) (first_occurrences l)
  end.

Lemma first_occurrences_filter (P : Z -> Prop) `{forall z, Decision (P z)} l :
  first_occurrences (filter P l) = filter P (first_occurrences l).
Proof.
  induction l as [|x l IH]; [done|]. cbn [first_occurrences]. rewrite !filter_cons, !list_filter_filter.
  case_decide as Hx; cbn [first_occurrences]; rewrite IH, ?list_filter_filter.
  - f_equal. apply list_filter_iff. tauto.
  - apply list_filter_iff. intros y. split; [|tauto]. intros Hy. split; [done|]. by intros ->.
Qed.

(** A requested profession that the player does not have. *)
Abbreviation fresh_primary lines known :=
  (fun id => is_primary_profession_skill lines id = Some true /\ id ∉ known).

Lemma requested_primary_exact lines known requested r :
  requested_primary lines known requested = Ok r ->
  r = first_occurrences (filter (fresh_primary lines known) requested).
Proof.
  revert known r. induction requested as [|x requested IH]; intros known r E; cbn [requested_primary] in E.
  { by injection E as <-. }
  destruct (is_primary_profession_skill lines x) as [primary|] eqn:Ep; [|discriminate].
  rewrite filter_cons. destruct (primary && negb (bool_decide (x ∈ known))) eqn:Hx.
  - apply andb_prop in Hx as [Hx1 Hx2]. destruct primary; [|done].
    apply negb_true_iff, bool_decide_eq_false in Hx2. rewrite decide_True by done.
    apply rbind_Ok in E as (r' & E & [= <-]). apply IH in E as ->. cbn [first_occurrences].
    rewrite <- first_occurrences_filter, list_filter_filter. do 2 f_equal.
    apply list_filter_iff. intros y. rewrite not_elem_of_cons. tauto.
  - rewrite decide_False; [by apply IH|]. intros [Hp Hk]. rewrite Ep in Hp. injection Hp as ->.
    rewrite bool_decide_eq_false_2 in Hx; done.
Qed.

(** C19: A plan of the primary professions is sound.  Its capacity is what it
    says; both slots are held at most once and are both held if a profession has
    none; no profession is named twice; the existing ones are exactly the active
    primary professions of the player; the new ones are exactly the requested
    primary professions that are not among those, each once, in the order first
    requested; and when there are any, all the professions together fit into the
    configured number. *)
Theorem profession_plan_sound (configured : Z) (lines : SkillLineStore)
    (current : list PlayerSkillProfessionSnapshot) (requested : list Z) (a : CapacityAnalysis)
    (p : CapacityPlan) :
  NoDup (map profession_skill_id current) ->
  analyze_primary_professions configured lines current = Ok a ->
  plan_primary_professions a lines requested = Ok p ->
  let all := existing_professions p ++ new_professions p in
  capacity_arithmetic p = true
  /\ NoDup (slots_of all) /\ (None ∈ map equipment_slot all -> forall slot, slot ∈ slots_of all)
  /\ NoDup (map planned_skill_id all)
  /\ map planned_skill_id (existing_professions p)
     ≡ₚ map profession_skill_id (filter (fun s => Is_true (is_active_primary lines s)) current)
  /\ map planned_skill_id (new_professions p)
     = first_occurrences (filter (fresh_primary lines (map planned_skill_id (existing_professions p))) requested)
  /\ (forall id, id ∈ requested -> is_primary_profession_skill lines id = Some true ->
       id ∈ map planned_skill_id all)
  /\ (new_professions p <> [] -> Z.of_nat (length all) <= configured).
Proof.
  intros Hnd Ha Hp all. destruct (analyze_Ok _ _ _ _ Ha Hnd) as (A1 & A2 & A3 & A4 & A5 & A6).
  unfold plan_primary_professions in Hp. apply rbind_Ok in Hp as (req & Hr & Hp).
  pose proof (requested_primary_exact _ _ _ _ Hr) as Hexact.
  apply requested_primary_Ok in Hr as (R1 & R2 & R3).
  assert (Hlen : length (remove_dups (existing_ids a)) = length (analysis_existing a)).
  { transitivity (length (existing_ids a)); [|unfold existing_ids; by rewrite length_map].
    apply Permutation_length, NoDup_Permutation; [apply NoDup_remove_dups|done|].
    intros x. apply elem_of_remove_dups. }
  rewrite Hlen, A1 in Hp. destruct (_ <? _) eqn:Hf in Hp; [discriminate|]. injection Hp as <-.
  subst all. cbn [existing_professions new_professions]. set (occ := omap equipment_slot (analysis_existing a)).
  assert (Hslots : slots_of (analysis_existing a ++ assign_slots occ req) ≡ₚ slots_of (assign_slots occ req) ++ occ).
  { unfold slots_of. rewrite omap_app. apply Permutation_app_comm. }
  split_and!.
  - unfold capacity_arithmetic. cbn [configured_max used_before free_before existing_professions new_professions].
    rewrite !Z.eqb_refl. assert (L : length (assign_slots occ req) = length req).
    { by rewrite <- (length_map planned_skill_id), assign_slots_ids. }
    rewrite L. unfold sat_sub in *. lia.
  - rewrite Hslots. by apply assign_slots_NoDup.
  - intros Hn slot. rewrite Hslots. rewrite map_app in Hn. apply elem_of_app in Hn as [Hn|Hn].
    + apply elem_of_app. right. by apply A6.
    + by apply assign_slots_wasted.
  - rewrite map_app, assign_slots_ids. apply NoDup_app. split_and!; [done| |done].
    intros id Hid Hr. by apply R2 in Hr as [Hr _].
  - done.
  - by rewrite assign_slots_ids.
  - intros id Hid Hprim. rewrite map_app, assign_slots_ids. apply elem_of_app. by apply R3.
  - intros Hnew. rewrite length_app, <- (length_map planned_skill_id (assign_slots _ _)), assign_slots_ids.
    assert (0 < length req)%nat by (destruct req; [done|cbn; lia]). unfold sat_sub in Hf. lia.
Qed.

(** What a prepared acquisition is: its snapshot of the player is the one whose
    rows are in the tables after the save, and preparing it again finds it done. *)

(** * Lists *)
Lemma filter_map_comm {A B} (f : A -> B) (P : B -> Prop) `{forall b, Decision (P b)} (l : list A) :
  filter P (map f l) = map f (filter (fun a => P (f a)) l).
Proof.
  induction l as [|a l IH]; [done|]. cbn [map]. rewrite !filter_cons. destruct (decide (P (f a))); cbn [map]; by rewrite IH.
Qed.

Lemma filter_ext_in {A} (P Q : A -> Prop) `{forall a, Decision (P a)} `{forall a, Decision (Q a)} (l : list A) :
  (forall a, a ∈ l -> (P a <-> Q a)) -> filter P l = filter Q l.
Proof.
  induction l as [|a l IH]; intros H'; [done|]. rewrite !filter_cons.
  destruct (decide (P a)) as [Hp|Hp], (decide (Q a)) as [Hq|Hq]; rewrite IH by (intros; apply H'; by right); try done;
    exfalso; [apply Hq|apply Hp]; by apply (H' a ltac:(by left)).
Qed.

Lemma NoDup_key_inj {A} (key : A -> Z) (l : list A) a b :
  NoDup (map key l) -> a ∈ l -> b ∈ l -> key a = key b -> a = b.
Proof.
  induction l as [|c l IH]; [by intros _ ?%elem_of_nil|]. cbn [map].
  intros [Hc Hnd]%NoDup_cons [->|Ha]%elem_of_cons [->|Hb]%elem_of_cons E; [done| | |auto].
  - exfalso. apply Hc. rewrite E. apply list_elem_of_fmap. eauto.
  - exfalso. apply Hc. rewrite <- E. apply list_elem_of_fmap. eauto.
Qed.

(** The elements that are not chosen are those whose key is not chosen. *)
Lemma filter_unchosen {A} (key : A -> Z) (chosen : A -> bool) (l : list A) :
  NoDup (map key l) ->
  filter (fun a => key a ∉ map key (filter (fun a => Is_true (chosen a)) l)) l
  = filter (fun a => Is_true (negb (chosen a))) l.
Proof.
  intros Hnd. apply filter_ext_in. intros a Ha. rewrite negb_True. split.
  - intros H Hc. apply H. apply list_elem_of_fmap. exists a. by rewrite list_elem_of_filter.
  - intros H (b & E & [Hc Hb]%list_elem_of_filter)%list_elem_of_fmap. apply H.
    by rewrite (NoDup_key_inj key l a b Hnd Ha Hb E).
Qed.

(** * Skills that are assigned to a profession *)
Lemma assign_association_ids id slot l : map row_skill_id (assign_association id slot l) = map row_skill_id l.
Proof.
  induction l as [|row l IH]; [done|]. cbn. case_match; cbn; [done|]. by rewrite IH.
Qed.

Lemma assigned_skills_ids plan p :
  map row_skill_id (assigned_skills plan p) = map row_skill_id (skills (resulting_snapshot plan)).
Proof.
  unfold assigned_skills. generalize (skills (resulting_snapshot plan)) as l.
  generalize (map (fun n => (normalization_skill_id n, normalized_slot n)) (slot_normalizations p)
     ++ map (fun a => (planned_skill_id a, equipment_slot a)) (existing_professions p ++ new_professions p)) as as_.
  induction as_ as [|a as_ IH]; intros l; [done|]. cbn [foldl]. by rewrite IH, assign_association_ids.
Qed.

(** * Checked folds *)
Lemma fold_check {A E} (f : unit -> A -> Prelude.result unit E) l u :
  fold_result f u l = Ok tt -> forall a, a ∈ l -> f tt a = Ok tt.
Proof.
  revert u. induction l as [|a l IH]; intros [] E0 b; [by intros ?%elem_of_nil|]. cbn in E0.
  destruct (f tt a) as [[]|] eqn:Ea; [|discriminate].
  intros [->|Hb]%elem_of_cons; [done|]. by apply (IH tt).
Qed.

Lemma require_Ok b e u : require b e = Ok u <-> b = true.
Proof. unfold require. destruct b, u; split; congruence. Qed.

Lemma rbind_unit_Ok {A E} (m : Prelude.result unit E) (k : Prelude.result A E) a :
  rbind m (fun _ => k) = Ok a <-> m = Ok tt /\ k = Ok a.
Proof. rewrite rbind_Ok. split; [intros ([] & ? & ?)|intros [? ?]]; eauto. Qed.

(** The rows of a map of a snapshot. *)
Lemma map_rows {A} (key : A -> Z) (f : gmap Z A -> A -> prepared (gmap Z A)) l m m' :
  (forall m a m', f m a = Ok m' -> m !! key a = None /\ m' = <[key a := a]> m) ->
  fold_result f m l = Ok m' ->
  NoDup (map key l) /\ (forall a, a ∈ l -> m !! key a = None).
Proof.
  intros Hf. revert m. induction l as [|a l IH]; intros m E.
  - split; [constructor|]. by intros a ?%elem_of_nil.
  - cbn in E. destruct (f m a) as [m1|] eqn:E1; [|discriminate]. apply Hf in E1 as [Hn ->].
    destruct (IH _ E) as [I1 I2]. split.
    + cbn [map]. apply NoDup_cons. split; [|done]. intros (b & Eb & Hb)%list_elem_of_fmap.
      specialize (I2 b Hb). rewrite <- Eb, lookup_insert_eq in I2. discriminate.
    + intros b [->|Hb]%elem_of_cons; [done|]. specialize (I2 b Hb).
      by apply lookup_insert_None in I2 as [? _].
Qed.

Lemma insert_skill_row_Ok m row m' :
  insert_skill_row m row = Ok m' -> m !! row_skill_id row = None /\ m' = <[row_skill_id row := row]> m.
Proof.
  unfold insert_skill_row. intros [_ E]%rbind_unit_Ok. case_bool_decide as H; [discriminate|]. injection E as <-.
  split; [by apply eq_None_not_Some|done].
Qed.

Lemma insert_spell_row_Ok m row m' :
  insert_spell_row m row = Ok m' -> valid_spell_id (row_spell_id row) = true.
Proof. unfold insert_spell_row. by intros [E%require_Ok _]%rbind_unit_Ok. Qed.

Lemma insert_spell_row_fresh m row m' :
  insert_spell_row m row = Ok m' -> m !! row_spell_id row = None /\ m' = <[row_spell_id row := row]> m.
Proof.
  unfold insert_spell_row. intros [_ E]%rbind_unit_Ok. case_bool_decide as H; [discriminate|]. injection E as <-.
  split; [by apply eq_None_not_Some|done].
Qed.

Lemma spell_map_valid s m : spell_map s = Ok m -> forall row, row ∈ spells s -> valid_spell_id (row_spell_id row) = true.
Proof.
  unfold spell_map. generalize (∅ : gmap Z PlayerSpellRow) as m0.
  induction (spells s) as [|a l IH]; intros m0 E row; [by intros ?%elem_of_nil|]. cbn in E.
  destruct (insert_spell_row m0 a) as [m1|] eqn:E1; [|discriminate].
  intros [->|H]%elem_of_cons; [by eapply insert_spell_row_Ok|by eapply IH].
Qed.

Lemma validated_rows s :
  validate_snapshot s = Ok tt ->
  NoDup (map row_skill_id (skills s)) /\ NoDup (map row_spell_id (spells s))
  /\ (forall row, row ∈ spells s -> is_i32 (row_spell_id row) = true).
Proof.
  unfold validate_snapshot. intros [_ (sm & E1 & (kk & E2 & _)%rbind_Ok)%rbind_Ok]%rbind_unit_Ok. split_and!.
  - by apply (map_rows row_skill_id _ _ _ _ insert_skill_row_Ok E2).
  - by apply (map_rows row_spell_id _ _ _ _ insert_spell_row_fresh E1).
  - intros row Hr. pose proof (spell_map_valid _ _ E1 row Hr) as H. by apply andb_prop in H as [[_ H]%andb_prop _].
Qed.

(** * Memory and tables *)
Lemma settle_kept rows :
  filter (fun row => Is_true (bool_decide (spell_state row <> SpellState.Temporary))) (settle_spells rows)
  = map settle_spell (filter (fun row => Is_true (saved_spell row)) rows).
Proof.
  unfold settle_spells. rewrite filter_map_comm. f_equal. rewrite list_filter_filter.
  apply filter_ext_in. intros row _. unfold settle_spell, saved_spell.
  destruct (spell_state row) eqn:E; cbn; rewrite ?E; cbn; naive_solver.
Qed.

Lemma settle_spell_fields row :
  saved_spell row = true ->
  settle_spell row = row <| spell_state := SpellState.Unchanged |>.
Proof.
  unfold saved_spell, settle_spell. intros [_ H]%bool_decide_eq_true. by rewrite bool_decide_false.
Qed.

Lemma kept_durable rows (P : PlayerSpellRow -> bool) {B} (f : PlayerSpellRow -> B) :
  (forall row, saved_spell row = true -> P (settle_spell row) = P row /\ f (settle_spell row) = f row) ->
  map f (filter (fun row => Is_true (P row)) (map settle_spell (filter (fun row => Is_true (saved_spell row)) rows)))
  = map f (filter (fun row => Is_true (saved_spell row && P row)) rows).
Proof.
  intros H. rewrite filter_map_comm, map_map, list_filter_filter.
  rewrite (filter_ext_in _ (fun row => Is_true (saved_spell row && P row))).
  - apply map_ext_in. intros row [Hr _]%list_elem_of_In%list_elem_of_filter.
    apply Is_true_true, andb_prop in Hr as [Hr _]. by apply H.
  - intros row _. rewrite andb_True. split.
    + intros [H1 H2]. destruct (H row ltac:(by apply Is_true_true)) as [E _]. by rewrite E in H1.
    + intros [H1 H2]. destruct (H row ltac:(by apply Is_true_true)) as [E _]. by rewrite E.
Qed.

Lemma settle_skill_ids l : map row_skill_id (map settle_skill l) = map row_skill_id l.
Proof. by rewrite map_map. Qed.

Lemma elem_of_tombstone_ids tombstones l id :
  id ∈ tombstone_ids tombstones l
  <-> id ∈ map row_skill_id (filter (fun row => Is_true (not_durable tombstones row)) l).
Proof. unfold tombstone_ids. by rewrite merge_sort_Permutation, elem_of_remove_dups. Qed.

Lemma durable_skills_kept tombstones l :
  NoDup (map row_skill_id l) ->
  map durable_skill
    (filter (fun row => row_skill_id row ∉ tombstone_ids tombstones l) (map settle_skill l))
  = map durable_skill (filter (fun row => Is_true (negb (not_durable tombstones row))) l).
Proof.
  intros Hnd. rewrite filter_map_comm, map_map, <- (filter_unchosen row_skill_id (not_durable tombstones) l Hnd).
  f_equal. apply filter_ext_in. intros row _. cbn. by rewrite elem_of_tombstone_ids.
Qed.

(** The snapshot after the save against the rows that are saved. *)
Lemma translated_authority plan p t :
  translate_plan plan p = Ok t -> validate_snapshot (resulting_snapshot plan) = Ok tt ->
  stable_source_durable_authority (runtime_snapshot t) = Some (durable_rows t)
  /\ snapshot_has_pending_durable_save (runtime_snapshot t) = false
  /\ durable_operations t = replacement_operations (durable_rows t)
  /\ prepared_source t = source_snapshot plan /\ prepared_guid t = character_guid (source_snapshot plan).
Proof.
  unfold translate_plan. intros [Hs [Hk E]%rbind_unit_Ok]%rbind_unit_Ok Hv. injection E as <-.
  destruct (validated_rows _ Hv) as (Hnd & _ & Hi). rewrite <- (assigned_skills_ids plan p) in Hnd.
  cbn [runtime_snapshot durable_rows durable_operations prepared_source prepared_guid]. split_and!; try done.
  - unfold stable_source_durable_authority. ssimpl. rewrite settle_kept.
    set (l := assigned_skills plan p) in *. set (s := spells (resulting_snapshot plan)) in *.
    assert (F1 : forallb (fun row => bool_decide (spell_state row = SpellState.Unchanged) && is_i32 (row_spell_id row))
                   (map settle_spell (filter (fun row => Is_true (saved_spell row)) s)) = true).
    { apply forallb_forall. intros row (r & <- & Hr)%in_map_iff. apply list_elem_of_In, list_elem_of_filter in Hr as [Hr1 Hr2].
      rewrite settle_spell_fields by by apply Is_true_true. ssimpl. by rewrite (Hi r Hr2). }
    assert (F2 : forallb (fun row => bool_decide (skill_state row = SkillState.Unchanged) && is_u16 (row_skill_id row))
                   (map settle_skill l) = true).
    { apply forallb_forall. intros row (r & <- & Hr)%in_map_iff. ssimpl. apply list_elem_of_In in Hr.
      pose proof (fold_check _ _ _ Hk r Hr) as Hc. by apply require_Ok in Hc. }
    rewrite F1, F2. cbn [andb]. f_equal. f_equal.
    + unfold durable_spell_rows. f_equal. apply (kept_durable s (fun row => negb (dependent row)) durable_spell).
      intros row E. rewrite settle_spell_fields by done. done.
    + unfold durable_favorites. f_equal. apply (kept_durable s favorite row_spell_id).
      intros row E. rewrite settle_spell_fields by done. done.
    + unfold durable_skill_rows. f_equal. by apply durable_skills_kept.
  - unfold snapshot_has_pending_durable_save. ssimpl. apply orb_false_iff. split; apply not_true_iff_false.
    + intros (row & Hr & H%bool_decide_eq_true)%existsb_exists. unfold settle_spells in Hr.
      apply in_map_iff in Hr as (r & <- & _). unfold settle_spell in H.
      case_bool_decide as Ht; [by destruct H as [_ []]|]. by destruct H as [[] _].
    + intros (row & Hr & H%bool_decide_eq_true)%existsb_exists.
      apply in_map_iff in Hr as (r & <- & _). by apply H.
Qed.

(** C18: A prepared acquisition is consistent.  The rows it writes are exactly
    those that the snapshot it leaves in memory stands for, nothing of that
    snapshot is left to save, the operations replace the tables with those rows,
    and preparing the same plan on that snapshot answers that it is done. *)
Theorem prepared_is_durable (plan : Plan) (p : CapacityPlan) (current : Snapshot) (r : Prepared) :
  prepare plan p current = Ok (Ready r) ->
  stable_source_durable_authority (runtime_snapshot r) = Some (durable_rows r)
  /\ snapshot_has_pending_durable_save (runtime_snapshot r) = false
  /\ durable_operations r = replacement_operations (durable_rows r)
  /\ prepare plan p (runtime_snapshot r) = Ok AlreadyApplied.
Proof.
  unfold prepare. intros [H1 [H2 (t & H3 & E)%rbind_Ok]%rbind_unit_Ok]%rbind_unit_Ok.
  assert (Hv : validate_snapshot (resulting_snapshot plan) = Ok tt).
  { unfold validate_plan_replay, validate_plan_replay_with in H1. apply rbind_unit_Ok in H1 as [_ H1].
    apply rbind_unit_Ok in H1 as [_ H1]. by apply rbind_unit_Ok in H1 as [H1 _]. }
  assert (r = t) as ->.
  { repeat case_match; congruence. }
  destruct (translated_authority _ _ _ H3 Hv) as (A1 & A2 & A3 & _ & _). split_and!; [done..|].
  rewrite H1, H2, H3. cbn [rbind]. destruct (mutations plan) as [|m l].
  - repeat case_match; congruence.
  - by rewrite bool_decide_true.
Qed.

(** The transaction that writes a prepared acquisition: all of it is written or
    nothing, the answer says which where it is known, and a lost commit is only
    taken for done where it was. *)

(** * What a request asks for *)
(** The database after the request of a player whose row is there. *)
Definition replaced (r : PersistenceRequest) (d : SpellDb) : SpellDb :=
  let guid := request_guid r in
  let rows := resulting_authority r in
  mkSpellDb (<[guid := money_after r]> (character_money d))
    (rows_of_others guid (character_spell d) ++ map (pair guid) (authority_spells rows))
    (rows_of_others guid (character_spell_favorite d) ++ map (pair guid) (authority_favorites rows))
    (rows_of_others guid (character_skills d) ++ map (pair guid) (authority_skills rows))
    (<[guid := operation_token r]> (operation_tokens d)).

(** What must hold of the database before. *)
Definition expected (r : PersistenceRequest) (d : SpellDb) : Prop :=
  character_money d !! request_guid r = Some (money_before r)
  /\ read_durable_authority (request_guid r) d = source_authority r
  /\ request_operations r = replacement_operations (resulting_authority r).

(** * Statements *)
Lemma tx_bind_Ok {A B} (m : Tx A) (f : A -> Tx B) t t' b :
  tx_bind m f t = (t', Ok b) <-> exists t1 a, m t = (t1, Ok a) /\ f a t1 = (t', Ok b).
Proof.
  unfold tx_bind. split.
  - intros E. destruct (m t) as [t1 [a|e]]; [eauto|discriminate].
  - intros (t1 & a & -> & E). done.
Qed.

Section Adapter.
Variable fails : nat -> option DbError.

Lemma statement_Ok {A} (f : SpellDb -> SpellDb * A) t t' a :
  statement fails f t = (t', Ok a) -> transaction_db t' = (f (transaction_db t)).1 /\ a = (f (transaction_db t)).2.
Proof. unfold statement. intros E. case_match; [discriminate|]. by injection E as <- <-. Qed.

Lemma query_Ok {A} (f : SpellDb -> A) t t' a :
  query fails f t = (t', Ok a) -> transaction_db t' = transaction_db t /\ a = f (transaction_db t).
Proof. apply statement_Ok. Qed.

Lemma insert_Ok f t t' u :
  execute_insert fails f t = (t', Ok u) -> transaction_db t' = f (transaction_db t).
Proof.
  unfold execute_insert. intros (t1 & a & [E1 ->]%statement_Ok & E)%tx_bind_Ok. cbn in E. by injection E as <-.
Qed.

(** What an operation does to the tables. *)
Definition operation_effect (guid : Z) (d : SpellDb) (o : DurableOperation) : SpellDb :=
  match o with
  | LockCharacter => d
  | DeleteSpells => d <| character_spell := rows_of_others guid (character_spell d) |>
  | DeleteFavoriteSpells => d <| character_spell_favorite := rows_of_others guid (character_spell_favorite d) |>
  | DeleteSkills => d <| character_skills := rows_of_others guid (character_skills d) |>
  | InsertSpell row => d <| character_spell := character_spell d ++ [(guid, row)] |>
  | InsertFavoriteSpell id => d <| character_spell_favorite := character_spell_favorite d ++ [(guid, id)] |>
  | InsertSkill row => d <| character_skills := character_skills d ++ [(guid, row)] |>
  end.

Lemma execute_operations_Ok guid l t t' u :
  execute_operations fails guid l t = (t', Ok u) ->
  transaction_db t' = foldl (operation_effect guid) (transaction_db t) l.
Proof.
  revert t. induction l as [|o l IH]; intros t E; [by injection E as <-|].
  destruct o; cbn [execute_operations] in E; [by apply IH|..]; apply tx_bind_Ok in E as (t1 & v & E1 & E);
    apply IH in E; rewrite E; cbn [foldl]; f_equal; cbn [execute_operation] in E1;
    first [by apply insert_Ok in E1|by apply statement_Ok in E1 as [-> _]].
Qed.

Lemma inserts_spells guid d l :
  foldl (operation_effect guid) d (map InsertSpell l) = d <| character_spell := character_spell d ++ map (pair guid) l |>.
Proof.
  revert d. induction l as [|x l IH]; intros d; cbn [map foldl]; [by destruct d; ssimpl; rewrite app_nil_r|].
  rewrite IH. ssimpl. by rewrite <- app_assoc.
Qed.
Lemma inserts_favorites guid d l :
  foldl (operation_effect guid) d (map InsertFavoriteSpell l)
  = d <| character_spell_favorite := character_spell_favorite d ++ map (pair guid) l |>.
Proof.
  revert d. induction l as [|x l IH]; intros d; cbn [map foldl]; [by destruct d; ssimpl; rewrite app_nil_r|].
  rewrite IH. ssimpl. by rewrite <- app_assoc.
Qed.
Lemma inserts_skills guid d l :
  foldl (operation_effect guid) d (map InsertSkill l) = d <| character_skills := character_skills d ++ map (pair guid) l |>.
Proof.
  revert d. induction l as [|x l IH]; intros d; cbn [map foldl]; [by destruct d; ssimpl; rewrite app_nil_r|].
  rewrite IH. ssimpl. by rewrite <- app_assoc.
Qed.

Lemma replacement_effect guid d a :
  foldl (operation_effect guid) d (replacement_operations a)
  = mkSpellDb (character_money d)
      (rows_of_others guid (character_spell d) ++ map (pair guid) (authority_spells a))
      (rows_of_others guid (character_spell_favorite d) ++ map (pair guid) (authority_favorites a))
      (rows_of_others guid (character_skills d) ++ map (pair guid) (authority_skills a)) (operation_tokens d).
Proof.
  unfold replacement_operations. rewrite !foldl_app, inserts_skills, inserts_favorites, inserts_spells. done.
Qed.

Lemma read_authority_Ok guid t t' a :
  read_authority fails guid t = (t', Ok a) ->
  transaction_db t' = transaction_db t /\ a = read_durable_authority guid (transaction_db t).
Proof.
  unfold read_authority. intros (t1 & s & [E1 ->]%query_Ok & E)%tx_bind_Ok.
  apply tx_bind_Ok in E as (t2 & f & [E2 ->]%query_Ok & E). apply tx_bind_Ok in E as (t3 & k & [E3 ->]%query_Ok & E).
  injection E as <- <-. rewrite E3, E2, E1. done.
Qed.

(** The body of the transaction, where no statement fails. *)
Lemma attempt_body_Ok r t t' u :
  attempt_body fails r t = (t', Ok u) ->
  request_operations r = replacement_operations (resulting_authority r) ->
  expected r (transaction_db t) /\ transaction_db t' = replaced r (transaction_db t).
Proof.
  intros E Hops. unfold attempt_body in E. apply tx_bind_Ok in E as (t1 & m & [E1 ->]%query_Ok & E).
  case_bool_decide as Hm; [discriminate|].
  apply tx_bind_Ok in E as (t2 & a & [E2 ->]%read_authority_Ok & E).
  case_bool_decide as Ha; [discriminate|]. rewrite E1 in *.
  apply tx_bind_Ok in E as (t3 & [] & E3%execute_operations_Ok & E).
  rewrite E2, Hops, replacement_effect in E3. apply tx_bind_Ok in E as (t4 & [] & E4 & E).
  unfold write_token in E. apply statement_Ok in E as [E _]. split; [done|]. rewrite E. ssimpl.
  assert (E5 : transaction_db t4 = (transaction_db t3) <| character_money := <[request_guid r := money_after r]> (character_money (transaction_db t3)) |>).
  { unfold pay in E4. destruct (Z.eqb_spec (money_before r) (money_after r)) as [Heq|Hne].
    - injection E4 as <-. rewrite E3. ssimpl. rewrite insert_id; [done|by rewrite <- Heq].
    - apply tx_bind_Ok in E4 as (t5 & rows & E5 & E4). unfold update_money in E5.
      apply statement_Ok in E5 as [E5 ->]. rewrite E3 in E5. ssimpl. rewrite bool_decide_true in E5 by done.
      rewrite E3 in E4. ssimpl. rewrite bool_decide_true in E4 by done. cbn in E4. injection E4 as <-.
      by rewrite E5, E3. }
  rewrite E5, E3. done.
Qed.

(** The transaction is atomic.  It answers that it is applied only where the
    money and the rows were those of the request, and the database is then the
    one with the rows, the money and the token of the request and with nothing of
    another player changed; where it answers that it is rolled back nothing is
    changed; and where the end of the commit is not known one of the two holds. *)
Lemma attempt_atomic (commit : CommitEnd) (r : PersistenceRequest) (d d' : SpellDb) (answer : Attempt) :
  attempt fails commit r d = (d', answer) ->
  match answer with
  | Applied => expected r d /\ d' = replaced r d
  | DefinitelyRolledBack _ _ => d' = d
  | CommitOutcomeUnknown _ => d' = d \/ (expected r d /\ d' = replaced r d)
  end.
Proof.
  unfold attempt. intros E. case_bool_decide as Hops; [by injection E as <- <-|].
  destruct (fails 0%nat); [by injection E as <- <-|].
  destruct (attempt_body fails r (mkTransaction 1 d)) as [t [u|e]] eqn:Eb; [|by injection E as <- <-].
  apply attempt_body_Ok in Eb as [Hexp Hdb]; [|done]. cbn [transaction_db] in *.
  destruct commit as [|text|[|] text]; injection E as <- <-; rewrite ?Hdb; auto.
Qed.
End Adapter.

(** * Reading back *)
Lemma merge_sort_again {A} (R : A -> A -> Prop) `{forall x y, Decision (R x y)} `{!Transitive R} `{!Total R}
    (key : A -> Z) (l : list A) :
  (forall x y, R x y -> R y x -> key x = key y) -> NoDup (map key l) ->
  merge_sort R (merge_sort R l) = merge_sort R l.
Proof.
  intros Hkey Hnd.
  eapply (StronglySorted_unique_strong R);
    [|by apply StronglySorted_merge_sort..|by rewrite merge_sort_Permutation].
  intros x y Hx Hy Hxy Hyx. rewrite !merge_sort_Permutation in Hx. rewrite merge_sort_Permutation in Hy.
  apply (NoDup_key_inj key l); auto.
Qed.

#[export] Instance durable_spell_le_trans : Transitive durable_spell_le.
Proof. unfold durable_spell_le. intros ???. lia. Qed.
#[export] Instance durable_spell_le_total : Total durable_spell_le.
Proof. unfold durable_spell_le. intros ??. lia. Qed.
#[export] Instance durable_skill_le_trans : Transitive durable_skill_le.
Proof. unfold durable_skill_le. intros ???. lia. Qed.
#[export] Instance durable_skill_le_total : Total durable_skill_le.
Proof. unfold durable_skill_le. intros ??. lia. Qed.

(** The rows of an authority are in the order the tables are read. *)
Definition in_table_order (a : Authority) : Prop :=
  merge_sort durable_spell_le (authority_spells a) = authority_spells a
  /\ merge_sort Z.le (authority_favorites a) = authority_favorites a
  /\ merge_sort durable_skill_le (authority_skills a) = authority_skills a.

Lemma NoDup_map_filter {A} (key : A -> Z) (P : A -> Prop) `{forall a, Decision (P a)} l :
  NoDup (map key l) -> NoDup (map key (filter P l)).
Proof.
  induction l as [|a l IH]; [done|]. cbn [map]. intros [Ha Hl]%NoDup_cons. rewrite filter_cons.
  case_decide; [|auto]. cbn [map]. apply NoDup_cons. split; [|auto].
  intros (b & E & [_ Hb]%list_elem_of_filter)%list_elem_of_fmap. apply Ha. rewrite E.
  apply list_elem_of_fmap. eauto.
Qed.

Lemma translated_in_order plan p t :
  translate_plan plan p = Ok t -> validate_snapshot (resulting_snapshot plan) = Ok tt ->
  in_table_order (durable_rows t).
Proof.
  unfold translate_plan. intros [_ [_ E]%rbind_unit_Ok]%rbind_unit_Ok Hv. injection E as <-.
  destruct (validated_rows _ Hv) as (Hk & Hs & _). rewrite <- (assigned_skills_ids plan p) in Hk.
  split_and!; cbn [durable_rows authority_spells authority_favorites authority_skills].
  - apply (merge_sort_again _ durable_spell_id); [unfold durable_spell_le; lia|].
    rewrite map_map. by apply (NoDup_map_filter row_spell_id).
  - apply (merge_sort_again _ id); [unfold id; lia|]. rewrite map_id. by apply NoDup_map_filter.
  - apply (merge_sort_again _ durable_skill_id); [unfold durable_skill_le; lia|].
    rewrite map_map. by apply (NoDup_map_filter row_skill_id).
Qed.

Lemma rows_of_replaced {A} guid (table : list (Z * A)) l :
  rows_of guid (rows_of_others guid table ++ map (pair guid) l) = l.
Proof.
  unfold rows_of, rows_of_others. rewrite filter_app, list_filter_filter.
  rewrite (filter_ext_in _ (fun _ => False)) by (intros ? _; naive_solver).
  assert (E : filter (fun _ : Z * A => False) table = []).
  { induction table as [|x table IH]; [done|]. rewrite filter_cons. by destruct (decide False). }
  rewrite E. cbn [app]. induction l as [|x l IH]; [done|]. cbn [map]. rewrite filter_cons, decide_True by done.
  cbn [fmap list_fmap]. f_equal. apply IH.
Qed.

(** What the tables say after the request. *)
Lemma read_replaced r d :
  in_table_order (resulting_authority r) ->
  read_durable_authority (request_guid r) (replaced r d) = resulting_authority r.
Proof.
  intros (E1 & E2 & E3). unfold read_durable_authority, replaced. cbn [character_spell character_spell_favorite character_skills]. rewrite !rows_of_replaced.
  rewrite E1, E2, E3. by destruct (resulting_authority r).
Qed.

(** * Reconciliation *)
Lemma reconcile_committed fails commits r d :
  reconcile fails commits r d = ReconciledCommitted ->
  character_money d !! request_guid r = Some (money_after r)
  /\ operation_tokens d !! request_guid r = Some (operation_token r)
  /\ read_durable_authority (request_guid r) d = resulting_authority r.
Proof.
  unfold reconcile. intros E. destruct (fails 0%nat); [discriminate|].
  match type of E with context [(?b _).2] => destruct (b (mkTransaction 1 d)) as [t [[[[m tok] a]|]|e]] eqn:Eb end;
    try discriminate. cbn [snd] in E.
  apply tx_bind_Ok in Eb as (t1 & money & [E1 ->]%query_Ok & Eb). cbn [transaction_db] in *.
  destruct (character_money d !! request_guid r) as [money|] eqn:Em; [|discriminate].
  apply tx_bind_Ok in Eb as (t2 & token & [E2 ->]%query_Ok & Eb).
  apply tx_bind_Ok in Eb as (t3 & observed & [E3 ->]%read_authority_Ok & Eb).
  injection Eb as <- <- <- <-. rewrite E2, E1 in *.
  destruct commits; [|discriminate]. unfold classify_reconciliation in E.
  destruct (Z.eqb_spec money (money_after r)) as [->|]; [|discriminate].
  cbn [andb] in E. case_bool_decide; [|discriminate]. case_bool_decide; [|discriminate]. done.
Qed.

Lemma reconcile_replaced r d :
  in_table_order (resulting_authority r) ->
  reconcile (fun _ => None) true r (replaced r d) = ReconciledCommitted.
Proof.
  intros Ho. pose proof (read_replaced r d Ho) as Hr.
  assert (Hm : character_money (replaced r d) !! request_guid r = Some (money_after r)) by apply lookup_insert_eq.
  assert (Ht : operation_tokens (replaced r d) !! request_guid r = Some (operation_token r)) by apply lookup_insert_eq.
  revert Hr Hm Ht. generalize (replaced r d) as e. intros e Hr Hm Ht.
  unfold reconcile, read_authority, query, statement, tx_bind, tx_ret.
  cbn [transaction_db statement_count fst snd]. rewrite Hm. cbn [transaction_db statement_count fst snd].
  rewrite Ht, Hr. unfold classify_reconciliation. rewrite Z.eqb_refl, !bool_decide_true; [done|done|].
  by destruct (resulting_authority r).
Qed.

(** What a prepared acquisition comes from. *)
Lemma prepare_Ready plan p current q :
  prepare plan p current = Ok (Ready q) ->
  translate_plan plan p = Ok q /\ current = source_snapshot plan
  /\ validate_snapshot (source_snapshot plan) = Ok tt /\ validate_snapshot (resulting_snapshot plan) = Ok tt
  /\ validate_profession_plan plan p = Ok tt.
Proof.
  unfold prepare. intros [H1 [H2 (t & H3 & E)%rbind_Ok]%rbind_unit_Ok]%rbind_unit_Ok.
  destruct (mutations plan); [repeat case_match; discriminate|].
  case_bool_decide; [discriminate|]. destruct (bool_decide_reflect (current <> source_snapshot plan)) as [|Hs]; [discriminate|]. injection E as ->.
  apply dec_stable in Hs. unfold validate_plan_replay, validate_plan_replay_with in H1.
  apply rbind_unit_Ok in H1 as [_ H1]. apply rbind_unit_Ok in H1 as [Hv1 H1].
  apply rbind_unit_Ok in H1 as [Hv2 _]. done.
Qed.

(** The database after a request whose token is new to it. *)
Lemma port_outcome fails commit reads reads_commit r d d' outcome :
  in_table_order (resulting_authority r) -> operation_tokens d !! request_guid r <> Some (operation_token r) ->
  persist_through_port fails commit reads reads_commit r d = (d', outcome) ->
  match outcome with
  | OutcomeApplied | OutcomeReconciledCommit _ => d' = replaced r d
  | OutcomeRolledBack _ => d' = d
  | OutcomeUnknown _ =>
      d' = d \/ (d' = replaced r d /\ ~ (reads = (fun _ => None) /\ reads_commit = true))
  end.
Proof.
  intros Ho Htok E. unfold persist_through_port in E. destruct (attempt fails commit r d) as [d1 answer] eqn:Ea.
  pose proof (attempt_atomic fails commit r d d1 answer Ea) as Hat.
  destruct answer as [|reason b|reason]; [injection E as <- <-; by destruct Hat|by injection E as <- <-|].
  destruct (reconcile reads reads_commit r d1) eqn:Er; injection E as <- <-.
  - destruct Hat as [->|[_ ->]]; [|done]. by apply reconcile_committed in Er as (_ & Ht & _).
  - destruct Hat as [->|[_ ->]]; [by left|right]. split; [done|]. intros [-> ->].
    rewrite reconcile_replaced in Er; [discriminate|done].
Qed.

(** C3: A purchase that is reported as done is in the database.  A plan that is
    prepared, turned into a request with a token the database does not hold, and
    written through the port leaves: where it is applied or its lost commit is
    taken for done, the tables with exactly the rows the snapshot in memory
    stands for and the new balance; where it is rolled back, the database as it
    was; where its end is unknown, one of the two, and the first is only
    unknown if the reconciliation itself failed. *)
Theorem acquisition_persisted (plan : Plan) (p : CapacityPlan) (current : Snapshot) (q : Prepared)
    (guid before after : Z) (token : list Z) (r : PersistenceRequest)
    (fails reads : nat -> option DbError) (commit : CommitEnd) (reads_commit : bool)
    (d d' : SpellDb) (outcome : PersistenceOutcome) :
  prepare plan p current = Ok (Ready q) ->
  persistence_request guid q before after token = Ok r ->
  operation_tokens d !! guid <> Some token ->
  persist_through_port fails commit reads reads_commit r d = (d', outcome) ->
  match outcome with
  | OutcomeApplied | OutcomeReconciledCommit _ =>
      stable_source_durable_authority (runtime_snapshot q) = Some (read_durable_authority guid d')
      /\ character_money d' !! guid = Some after /\ d' = replaced r d
  | OutcomeRolledBack _ => d' = d
  | OutcomeUnknown _ =>
      d' = d \/ (d' = replaced r d /\ ~ (reads = (fun _ => None) /\ reads_commit = true))
  end.
Proof.
  intros Hp Hr Htok E. destruct (prepare_Ready _ _ _ _ Hp) as (Ht & _ & _ & Hv & _).
  destruct (translated_authority _ _ _ Ht Hv) as (Hq & _). pose proof (translated_in_order _ _ _ Ht Hv) as Ho.
  unfold persistence_request in Hr. case_bool_decide; [discriminate|].
  destruct (stable_source_durable_authority (prepared_source q)) as [source|]; [|discriminate].
  injection Hr as <-. pose proof (port_outcome _ _ _ _ (mkRequest _ _ _ _ _ _ _) _ _ _ Ho Htok E) as H'.
  assert (Hdone : forall e, e = replaced (mkRequest guid before after token source (durable_rows q) (durable_operations q)) d ->
    stable_source_durable_authority (runtime_snapshot q) = Some (read_durable_authority guid e)
    /\ character_money e !! guid = Some after
    /\ e = replaced (mkRequest guid before after token source (durable_rows q) (durable_operations q)) d).
  { intros e ->. rewrite Hq. split_and!; [|apply lookup_insert_eq|done]. f_equal. symmetry.
    by apply (read_replaced (mkRequest guid before after token source (durable_rows q) (durable_operations q))). }
  destruct outcome; auto.
Qed.
