(* ===== verification/SpellReplayTheorems.v ===== *)
(** The plans of the planner replay: their mutations lead from the source
    snapshot to the resulting one.  Client actions that are accepted are accounted
    for by transitions. *)
From stdpp Require Import sorting.
From S2P Require Import Prelude BTree Guid SpellCatalog SpellModel SpellPlanner SpellPlannerSkill SpellPlannerCast SpellPlannerSpell SpellReplay SpellPlannerSteps SpellApplyTheorems.

(** * Folds that may fail *)
Lemma fold_result_app {A B E} (f : B -> A -> Prelude.result B E) b l1 l2 :
  fold_result f b (l1 ++ l2) = rbind (fold_result f b l1) (fun b => fold_result f b l2).
Proof.
  revert b. induction l1 as [|a l1 IH]; intros b; [done|]. cbn. destruct (f b a); cbn; [apply IH|done].
Qed.

(** * The relation *)
(** Every row is under its own id. *)
Definition keyed (p : Planner) : Prop :=
  (forall k row, p_spells p !! k = Some row -> row_spell_id row = k)
  /\ (forall k row, p_skills p !! k = Some row -> row_skill_id row = k).

(** The refusals of a replay that are about the provenance of a transition or
    about skills. *)
Definition benign (e : PrepareError) : Prop :=
  match e with
  | ProvenanceMismatch _ => True
  | TransitionBeforeMismatch domain _ => domain = "skill"%string
  | _ => False
  end.

Definition reaches (q : Planner) (r : prepared Replay) : Prop :=
  match r with
  | Ok r => replay_spells r = p_spells q /\ replay_overrides r = p_overrides q
  | Err e => benign e
  end.

Record grown (p q : Planner) (l : list Mutation) (la : list PostCommitAction) : Prop :=
  { grown_mutations : p_mutations q = p_mutations p ++ l;
    grown_spells : p_spell_transitions q = p_spell_transitions p ++ spells_of l;
    grown_skills : p_skill_transitions q = p_skill_transitions p ++ skills_of l;
    grown_overrides : p_override_transitions q = p_override_transitions p ++ overrides_of l;
    grown_actions : p_actions q = p_actions p ++ la;
    grown_requirements : p_requirements q = p_requirements p ++ omap publication_of la;
    grown_replay : forall root sk,
      reaches q (replay_mutations root (mkReplay (p_spells p) sk (p_overrides p)) l) }.

Definition replays (p q : Planner) : Prop := keyed p -> keyed q /\ exists l la, grown p q l la.

Lemma replays_same p q : view p = view q -> replays p q.
Proof.
  intros E Hk. unfold view in E. injection E as E1 E2 E3 E4 E5 E6 E7 E8 E9. split.
  - unfold keyed. by rewrite <- E1, <- E2.
  - exists [], []. split; rewrite ?app_nil_r; done.
Qed.

Lemma grown_app p q s l1 l2 la1 la2 : grown p q l1 la1 -> grown q s l2 la2 -> grown p s (l1 ++ l2) (la1 ++ la2).
Proof.
  intros [] []. split; unfold spells_of, skills_of, overrides_of in *; rewrite ?omap_app, ?app_assoc; try congruence.
  intros root sk. unfold replay_mutations in *. rewrite fold_result_app.
  specialize (grown_replay0 root sk). destruct (fold_result _ _ l1) as [[m sk' o]|e]; [|done].
  destruct grown_replay0 as [E1 E2]. ssimpl. rewrite E1, E2. apply grown_replay1.
Qed.

#[export] Instance replays_preorder : PreOrder replays.
Proof.
  split.
  - intros p. by apply replays_same.
  - intros p q s H1 H2 Hk. destruct (H1 Hk) as (Hk1 & l1 & la1 & G1).
    destruct (H2 Hk1) as (Hk2 & l2 & la2 & G2). split; [done|]. eexists _, _. by eapply grown_app.
Qed.

(** * The primitives *)
Lemma actions_replay a p :
  publication_of a = None -> replays p (p <| p_actions := p_actions p ++ [a] |>).
Proof.
  intros Ha Hk. split; [done|]. exists [], [a]. split; ssimpl; rewrite ?app_nil_r; try done.
  by rewrite Ha, app_nil_r.
Qed.

Lemma publication_replays r a : publication_of a = Some r -> steps replays (push_publication r a).
Proof.
  intros Ha p q b E. unfold push_publication, push_action, bind, modify in E. injection E as <- _.
  intros Hk. split; [done|]. exists [], [a]. split; ssimpl; rewrite ?app_nil_r; try done. by rewrite Ha.
Qed.

(** One mutation that the replay accepts, or refuses for its provenance. *)
Lemma mutation_grown p q m :
  p_mutations q = p_mutations p ++ [m] ->
  p_spell_transitions q = p_spell_transitions p ++ spells_of [m] ->
  p_skill_transitions q = p_skill_transitions p ++ skills_of [m] ->
  p_override_transitions q = p_override_transitions p ++ overrides_of [m] ->
  p_actions q = p_actions p -> p_requirements q = p_requirements p ->
  (forall root sk, reaches q (replay_mutation root (mkReplay (p_spells p) sk (p_overrides p)) m)) ->
  grown p q [m] [].
Proof.
  intros E1 E2 E3 E4 E5 E6 H. split; rewrite ?app_nil_r; try done. intros root sk. cbn.
  specialize (H root sk). by destruct (replay_mutation _ _ _).
Qed.

Lemma override_replays p t :
  bool_decide ((overridden_spell_id t, overriding_spell_id t) ∈ p_overrides p) = negb (override_add t) ->
  replays p
    (p <| p_overrides := if override_add t then {[(overridden_spell_id t, overriding_spell_id t)]} ∪ p_overrides p
                         else p_overrides p ∖ {[(overridden_spell_id t, overriding_spell_id t)]} |>
       <| p_override_transitions := p_override_transitions p ++ [t] |>
       <| p_mutations := p_mutations p ++ [MutationOverride t] |>).
Proof.
  intros Hd Hk. split; [done|]. exists [MutationOverride t], [].
  apply mutation_grown; ssimpl; rewrite ?app_nil_r; try done. intros root sk.
  unfold replay_override. cbn [replay_overrides]. rewrite Hd. by destruct (override_add t).
Qed.

Lemma add_override_replays a b : steps replays (add_override a b).
Proof.
  intros p q [] E. unfold add_override in E. apply bind_Ok in E as (p1 & known & [= -> <-] & E).
  case_bool_decide as Hin; [injection E as ->; reflexivity|].
  unfold push_override_transition, bind, modify in E. injection E as <-.
  apply (override_replays p1 (mkOverrideTransition a b true)). by apply bool_decide_eq_false.
Qed.

Lemma remove_override_replays a b : steps replays (remove_override a b).
Proof.
  intros p q [] E. unfold remove_override in E. apply bind_Ok in E as (p1 & known & [= -> <-] & E).
  case_bool_decide as Hin; [|injection E as ->; reflexivity].
  unfold push_override_transition, bind, modify in E. injection E as <-.
  apply (override_replays p1 (mkOverrideTransition a b false)). by apply bool_decide_eq_true.
Qed.

#[export] Instance replays_relation : PlanRelation replays.
Proof.
  split; [apply _|apply replays_same| | |apply add_override_replays|apply remove_override_replays].
  - intros a Ha p q b E. injection E as <- _. by apply actions_replay.
  - apply publication_replays.
Qed.

Lemma insert_keyed p row :
  keyed p -> keyed (p <| p_spells := <[row_spell_id row := row]> (p_spells p) |>).
Proof.
  intros [H1 H2]. split; [|done]. ssimpl. intros k r [[<- <-]|[_ E]]%lookup_insert_Some; [done|by apply H1].
Qed.

Lemma delete_keyed p id : keyed p -> keyed (p <| p_spells := delete id (p_spells p) |>).
Proof. intros [H1 H2]. split; [|done]. ssimpl. intros k r [_ E]%lookup_delete_Some. by apply H1. Qed.

(** A transition of a spell from the row it has. *)
Lemma transition_replays p id after pr m :
  keyed p -> spell_of id after = true ->
  m = (match after with Some row => <[id := row]> (p_spells p) | None => delete id (p_spells p) end) ->
  keyed (p <| p_spells := m |>) ->
  forall q u, record_spell_transition id (p_spells p !! id) after pr (p <| p_spells := m |>) = Some (q, Ok u) ->
  keyed q /\ exists l la, grown p q l la.
Proof.
  intros Hk Ha Hm Hkm q u E. unfold record_spell_transition in E. case_bool_decide as Hd.
  - unfold modify in E. injection E as <- _. split; [done|]. eexists [MutationSpell _], [].
    apply mutation_grown; ssimpl; rewrite ?app_nil_r; try done. intros root sk.
    unfold replay_spell, validate_provenance, require. ssimpl.
    destruct (valid_provenance root pr); [|exact I]. ssimpl. rewrite Ha, andb_true_r.
    assert (Hb : spell_of id (p_spells p !! id) = true).
    { unfold spell_of. destruct (p_spells p !! id) eqn:El; [|done]. by apply Z.eqb_eq, (proj1 Hk). }
    rewrite Hb. ssimpl. rewrite bool_decide_true by done. ssimpl. by rewrite Hm.
  - injection E as <- _. split; [done|]. exists [], [].
    assert (Hs : m = p_spells p).
    { rewrite Hm, <- Hd. destruct (p_spells p !! id) eqn:El; [by apply insert_id|by apply delete_id]. }
    split; ssimpl; rewrite ?app_nil_r; done.
Qed.

Lemma replace_replays row pr : steps replays (replace_spell_row row pr).
Proof.
  intros p q u E Hk. unfold replace_spell_row in E. apply bind_Ok in E as (p1 & before & [= -> <-] & E).
  apply bind_Ok in E as (p2 & [] & [= <-] & E).
  exact (transition_replays p1 _ (Some row) pr _ Hk (Z.eqb_refl _) eq_refl (insert_keyed _ _ Hk) q u E).
Qed.

Lemma remove_replays id pr : steps replays (remove_spell_row id pr).
Proof.
  intros p q u E Hk. unfold remove_spell_row in E. apply bind_Ok in E as (p1 & before & [= -> <-] & E).
  apply bind_Ok in E as (p2 & [] & [= <-] & E).
  exact (transition_replays p1 id None pr _ Hk eq_refl eq_refl (delete_keyed _ _ Hk) q u E).
Qed.

(** Skills are only related through their ids. *)
Lemma put_skill_replays row : steps replays (put_skill row).
Proof.
  intros p q u E Hk. injection E as <- _. destruct Hk as [H1 H2]. split.
  - split; [done|]. ssimpl. intros k r [[<- <-]|[_ E]]%lookup_insert_Some; [done|by apply H2].
  - exists [], []. by split; ssimpl; rewrite ?app_nil_r.
Qed.

Lemma skill_transition_replays id before after pr :
  skill_of id before = true -> row_skill_id after = id ->
  steps replays (record_skill_transition id before after pr).
Proof.
  intros Hb Ha p q u E Hk. unfold record_skill_transition in E. case_bool_decide.
  - injection E as <- _. by apply replays_same.
  - unfold modify in E. injection E as <- _. split; [done|]. eexists [MutationSkill _], [].
    apply mutation_grown; ssimpl; rewrite ?app_nil_r; try done. intros root sk.
    unfold replay_skill, validate_provenance, require. ssimpl.
    destruct (valid_provenance root pr); [|exact I]. ssimpl. rewrite Ha, Z.eqb_refl, Hb. ssimpl.
    by case_bool_decide.
Qed.

#[export] Hint Resolve replace_replays remove_replays put_skill_replays : steps.

(** * The planner *)
Section Bodies.
Variables (env : Env) (self : Ops).
Hypothesis Hself : ops_step replays self.

Lemma existing_replays req projection a row : steps replays (existing_spell env self req projection a row).
Proof.
  unfold existing_spell, change_row, change_active, change_disabled, same_flags. steps_view.
Qed.

Lemma insert_spell_replays req projection a s :
  add_disabled req = false -> steps replays (insert_spell env self req projection a s).
Proof. intros Hd. unfold insert_spell, supersede_ranks, supersede_candidate, push_superseded. steps_view. Qed.
Hint Resolve existing_replays insert_spell_replays : steps.

Lemma add_spell_replays req a : add_disabled req = false -> steps replays (add_spell env self req a).
Proof. intros Hd. unfold add_spell, proceed. steps_view. Qed.

Lemma set_existing_replays id s v m pr fields row :
  row_skill_id row = id -> steps replays (set_existing_skill env self id s v m pr fields row).
Proof.
  intros Hrow.
  assert (H : forall b a, skill_of id b = true -> row_skill_id a = id ->
              steps replays (record_skill_transition id b a pr)) by (intros; by apply skill_transition_replays).
  unfold set_existing_skill. steps_view; apply H; cbn; rewrite ?Hrow; try done; apply Z.eqb_refl.
Qed.

Lemma insert_new_replays id s v m pr fields : steps replays (insert_new_skill env self id s v m pr fields).
Proof.
  assert (H : forall a, row_skill_id a = id -> steps replays (record_skill_transition id None a pr))
    by (intros; by apply skill_transition_replays).
  unfold insert_new_skill, check_capacity, push_pending, pop_pending. steps_view; by apply H.
Qed.

Lemma set_skill_replays id s v m pr : steps replays (set_skill env self id s v m pr).
Proof.
  unfold set_skill, set_skill_inner. case_match; [steps_view|].
  apply steps_bind; [apply _|steps_view|]. intros _. case_match; [steps_view|].
  apply steps_bind; [apply _|steps_view|]. intros fields p q u E Hk.
  apply bind_Ok in E as (p1 & before & [= -> <-] & E).
  destruct (p_skills p1 !! id) as [row|] eqn:Er.
  - by apply (set_existing_replays id s v m pr fields row ltac:(by apply (proj2 Hk)) p1 q u).
  - by apply (insert_new_replays id s v m pr fields p1 q u).
Qed.
End Bodies.

Lemma ops_replay env n : ops_step replays (ops env n).
Proof.
  apply (ops_induction replays); intros.
  - by apply learn_spell_steps; [apply _|].
  - by apply add_spell_replays.
  - by apply set_skill_replays.
  - by apply validate_definition_steps; [apply _|].
Qed.

Lemma run_root_replays env n : steps replays (run_root env n).
Proof. pose proof (ops_replay env n) as H. unfold run_root. steps_view. Qed.

(** * From the snapshot to the plan *)
Lemma fold_result_foldl {A B X} (f : B -> A -> Prelude.result B X) (g : B -> A -> B) l b b' :
  (forall b a b', f b a = Ok b' -> b' = g b a) -> fold_result f b l = Ok b' -> b' = foldl g b l.
Proof.
  intros H. revert b. induction l as [|a l IH]; intros b E; [by injection E|]. cbn in E |- *.
  destruct (f b a) as [c|] eqn:Ef; [|discriminate]. rewrite <- (H _ _ _ Ef). by apply IH.
Qed.

Definition spell_table (l : list PlayerSpellRow) : gmap Z PlayerSpellRow :=
  foldl (fun m row => <[row_spell_id row := row]> m) ∅ l.
Definition skill_table (l : list PlayerSkillRow) : gmap Z PlayerSkillRow :=
  foldl (fun m row => <[row_skill_id row := row]> m) ∅ l.
Definition override_table (l : list (Z * Z)) : gset (Z * Z) := foldl (fun s e => {[e]} ∪ s) ∅ l.

Ltac fold_table :=
  let E := fresh in intros ? ? ? E; unfold rbind, require in E; repeat case_match; by simplify_eq/=.

Lemma spell_map_table s m : spell_map s = Ok m -> m = spell_table (spells s).
Proof. apply fold_result_foldl. unfold insert_spell_row. fold_table. Qed.
Lemma skill_map_table s m : skill_map s = Ok m -> m = skill_table (skills s).
Proof. apply fold_result_foldl. unfold insert_skill_row. fold_table. Qed.
Lemma override_set_table s m : override_set s = Ok m -> m = override_table (overrides s).
Proof. apply fold_result_foldl. unfold insert_override. fold_table. Qed.

(** The state a plan starts from. *)
Lemma planner_new_Ok snapshot metadata p :
  planner_new snapshot metadata = Ok p ->
  p_spells p = spell_table (spells snapshot) /\ p_skills p = skill_table (skills snapshot)
  /\ p_overrides p = override_table (overrides snapshot)
  /\ p_mutations p = [] /\ p_spell_transitions p = [] /\ p_skill_transitions p = []
  /\ p_override_transitions p = [] /\ p_actions p = [] /\ p_requirements p = [].
Proof.
  unfold planner_new, rbind. intros E.
  repeat case_match; try discriminate E; simplify_eq/=. split_and!; try done.
  - eapply fold_result_foldl; [|eassumption]. unfold insert_snapshot_spell. fold_table.
  - eapply fold_result_foldl; [|eassumption]. unfold insert_snapshot_skill. fold_table.
  - eapply fold_result_foldl; [|eassumption]. unfold insert_snapshot_override. fold_table.
Qed.

Lemma table_keyed {A} (key : A -> Z) (l : list A) (m : gmap Z A) :
  (forall k row, m !! k = Some row -> key row = k) ->
  forall k row, foldl (fun m row => <[key row := row]> m) m l !! k = Some row -> key row = k.
Proof.
  revert m. induction l as [|a l IH]; intros m H k row; [apply H|]. cbn. apply IH.
  intros k' r [[<- <-]|[_ E]]%lookup_insert_Some; [done|by apply H].
Qed.

Lemma planner_new_keyed snapshot metadata p : planner_new snapshot metadata = Ok p -> keyed p.
Proof.
  intros E. destruct (planner_new_Ok _ _ _ E) as (E1 & E2 & _). unfold keyed. rewrite E1, E2.
  split; apply table_keyed; intros ? ? H; by rewrite lookup_empty in H.
Qed.

Lemma project_inv n snapshot metadata root policy plan :
  project_with_cast_policy n snapshot metadata root policy = Some (Deterministic plan) ->
  exists p q, planner_new snapshot metadata = Ok p
  /\ run_root (mkEnv root snapshot metadata policy) n p = Some (q, Ok tt)
  /\ plan = plan_of (mkEnv root snapshot metadata policy) q.
Proof.
  unfold project_with_cast_policy, project. intros E.
  destruct (planner_new snapshot metadata) as [p|]; [|discriminate].
  destruct (run_root _ n p) as [[q [[]|]]|] eqn:Er; simplify_eq/=. eauto.
Qed.

Lemma validated_tables s :
  validate_snapshot s = Ok tt ->
  spell_map s = Ok (spell_table (spells s)) /\ skill_map s = Ok (skill_table (skills s))
  /\ override_set s = Ok (override_table (overrides s)).
Proof.
  unfold validate_snapshot, rbind, require. intros E.
  destruct (spell_map s) eqn:E1, (skill_map s) eqn:E2, (override_set s) eqn:E3;
    try (by repeat case_match). apply spell_map_table in E1. apply skill_map_table in E2.
  apply override_set_table in E3. by subst.
Qed.

(** C5: What the validator replays of a plan of the planner.  The player of the
    resulting snapshot is that of the source; the typed transitions and the
    publications are those of the mutations and actions; the replay of the
    mutations from a valid source ends in exactly the spells and overrides of the
    resulting snapshot, and it refuses only a provenance or the row a skill
    transition starts from. *)
Theorem planned_mutations_replay (n : nat) (snapshot : Snapshot) (metadata : Metadata)
    (root : SpellAcquisitionRoot) (policy : CastSideEffectPolicy) (plan : Plan) :
  project_with_cast_policy n snapshot metadata root policy = Some (Deterministic plan) ->
  validate_snapshot_identity (source_snapshot plan) (resulting_snapshot plan) = Ok tt
  /\ check_typed_projections plan = Ok tt
  /\ omap publication_of (post_commit_actions plan) = publication_requirements plan
  /\ check_profession_inputs plan = Ok tt
  /\ (validate_snapshot (source_snapshot plan) = Ok tt ->
      match replay_plan plan with
      | Ok r => spells (resulting_snapshot plan) = values_in_order (replay_spells r)
                /\ overrides (resulting_snapshot plan) = pairs_in_order (replay_overrides r)
      | Err e => benign e
      end).
Proof.
  intros (p & q & Hnew & Hrun & ->)%project_inv.
  destruct (planner_new_Ok _ _ _ Hnew) as (E1 & E2 & E3 & E4 & E5 & E6 & E7 & E8 & E9).
  destruct (run_root_replays _ _ _ _ _ Hrun (planner_new_keyed _ _ _ Hnew)) as (_ & l & la & []).
  rewrite E4, E5, E6, E7, E8, E9 in *. ssimpl. split_and!.
  - unfold validate_snapshot_identity, require. ssimpl.
    rewrite !bool_decide_true, !Z.eqb_refl by done. done.
  - unfold check_typed_projections, require. ssimpl.
    rewrite grown_mutations0, grown_spells0, grown_skills0, grown_overrides0. by rewrite !bool_decide_true.
  - by rewrite grown_actions0, grown_requirements0.
  - unfold check_profession_inputs, require. ssimpl. by rewrite bool_decide_true.
  - intros Hv. destruct (validated_tables _ Hv) as (H1 & H2 & H3).
    unfold replay_plan. ssimpl. rewrite H1, H2, H3. ssimpl. rewrite grown_mutations0.
    rewrite <- E1, <- E2, <- E3. specialize (grown_replay0 root (p_skills p)). unfold replay_mutations in grown_replay0. destruct (fold_result _ _ _); cbn in grown_replay0; [|exact grown_replay0]. by destruct grown_replay0 as [-> ->].
Qed.

(** What the check of the actions of a plan guarantees: no action is published
    more often than the transitions account for, and the player gets exactly the
    dual wields the server executed. *)

(** * Counting *)
Definition count {K} `{Countable K} (m : gmap K nat) (key : K) : nat := default 0%nat (m !! key).
Definition times {A} (P : A -> bool) (l : list A) : nat := length (filter (fun a => Is_true (P a)) l).

Lemma times_cons {A} (P : A -> bool) a l : times P (a :: l) = ((if P a then 1 else 0) + times P l)%nat.
Proof. unfold times. rewrite filter_cons. destruct (P a) eqn:E; cbn; by try rewrite E. Qed.

Section Count.
Context {K : Type} `{Countable K}.
Implicit Types (m : gmap K nat) (k : K).

Lemma count_add m key k : count (add_evidence_of m key) k = ((if bool_decide (key = k) then 1 else 0) + count m k)%nat.
Proof.
  unfold count, add_evidence_of. case_bool_decide as E.
  - by rewrite E, lookup_insert_eq.
  - by rewrite lookup_insert_ne.
Qed.

Lemma count_consume m key m' k :
  consume_action_evidence m key = Some m' ->
  count m k = ((if bool_decide (key = k) then 1 else 0) + count m' k)%nat.
Proof.
  unfold count, consume_action_evidence. intros E. destruct (m !! key) as [[|n]|] eqn:El; simplify_eq.
  case_bool_decide as Ek.
  - by rewrite <- Ek, El, lookup_insert_eq.
  - by rewrite lookup_insert_ne.
Qed.
End Count.

(** * The evidence *)
Definition activates (id : Z) (fav : bool) (t : SpellTransition) : bool :=
  negb (is_active (spell_before t)) && is_active (spell_after t)
  && (spell_transition_id t =? id) && eqb (favorite_after t) fav.

Lemma superseding_learned index t e l :
  learned_evidence (foldl (note_superseding index t) e l) = learned_evidence e.
Proof.
  revert e. induction l as [|[[i c] pr] l IH]; intros e; [done|]. cbn [foldl]. rewrite IH.
  unfold note_superseding. by destruct (_ && _).
Qed.

Lemma note_transition_learned e i t id fav :
  count (learned_evidence (note_transition e (i, t))) (id, fav)
  = ((if activates id fav t then 1 else 0) + count (learned_evidence e) (id, fav))%nat.
Proof.
  cbn [note_transition]. unfold note_deactivation, note_activation. cbn [learned_evidence].
  assert (D : forall e', learned_evidence
     (if is_active (spell_before t) && negb (is_active (spell_after t)) then
        foldl (note_superseding i t)
          (mkSpellEvidence (seen_spells e') (learned_evidence e') (refresh_evidence e')
             (deactivation_evidence e' ++ [(i, spell_transition_id t)]) (supersede_evidence e')
             (prior_activations e') (superseding_activations e')) (prior_activations e')
      else e') = learned_evidence e').
  { intros e'. destruct (_ && _); [by rewrite superseding_learned|done]. }
  rewrite D. unfold activates. destruct (negb (is_active (spell_before t)) && is_active (spell_after t)); [|done].
  cbn [learned_evidence andb]. rewrite count_add. f_equal.
  destruct (Z.eqb_spec (spell_transition_id t) id) as [->|Hne]; cbn [andb].
  - destruct (eqb (favorite_after t) fav) eqn:Ef.
    + apply eqb_prop in Ef as ->. by rewrite bool_decide_true.
    + rewrite bool_decide_false; [done|]. intros [= E]. rewrite E in Ef. by destruct fav.
  - rewrite bool_decide_false; congruence.
Qed.

Lemma spell_evidence_learned source ts id fav :
  count (learned_evidence (spell_evidence source ts)) (id, fav) = times (activates id fav) ts.
Proof.
  unfold spell_evidence.
  assert (G : forall l e, count (learned_evidence (foldl note_transition e l)) (id, fav)
                          = (times (activates id fav) l.*2 + count (learned_evidence e) (id, fav))%nat).
  { induction l as [|[i t] l IH]; intros e; [done|]. cbn [foldl fmap list_fmap snd].
    rewrite IH, note_transition_learned, times_cons. lia. }
  rewrite G. cbn [learned_evidence]. unfold count. rewrite lookup_empty. cbn [default from_option].
  assert (E : (imap pair ts).*2 = ts).
  { clear. induction ts as [|t ts IH] using rev_ind; [done|]. rewrite imap_app, fmap_app, IH. done. }
  rewrite E. lia.
Qed.

(** Withdrawing evidence leaves less. *)
Lemma withdraw_le ts e id fav :
  (count (learned_after_superseding ts e) (id, fav) <= count (learned_evidence e) (id, fav))%nat.
Proof.
  unfold learned_after_superseding. generalize (learned_evidence e) as m.
  generalize (merge_sort le (elements (superseding_activations e))) as l.
  induction l as [|i l IH]; intros m; [done|]. cbn [foldl]. etransitivity; [apply IH|].
  unfold withdraw_learned. destruct (ts !! i) as [t|]; [|done].
  destruct (consume_action_evidence m _) as [m'|] eqn:E; [|done].
  apply (count_consume _ _ _ (id, fav)) in E. change (default m (Some m')) with m'. destruct (bool_decide _); lia.
Qed.

(** * The actions *)
Definition is_learned (id : Z) (fav : bool) (a : PostCommitAction) : bool :=
  match a with LearnedSpell i f _ => (i =? id) && eqb f fav | _ => false end.
Definition is_grant (key : Z * Z * Z) (a : PostCommitAction) : bool :=
  match a with GrantDualWield i r x => bool_decide ((i, r, x) = key) | _ => false end.
Definition is_raised (id : Z) (a : PostCommitAction) : bool :=
  match a with UpdateSkillRaisedCriteria i => i =? id | _ => false end.

Lemma if_pair_eqb (i id : Z) (f fav : bool) :
  (if bool_decide ((i, f) = (id, fav)) then 1%nat else 0%nat) = (if (i =? id) && eqb f fav then 1%nat else 0%nat).
Proof.
  destruct (Z.eqb_spec i id) as [->|]; cbn [andb]; [|rewrite bool_decide_false; congruence].
  destruct (eqb f fav) eqn:E.
  - apply eqb_prop in E as ->. by rewrite bool_decide_true.
  - rewrite bool_decide_false; [done|]. intros [= ->]. by rewrite eqb_reflx in E.
Qed.

(** What one action uses up. *)
Definition accounts (v v' : Available) (a : PostCommitAction) : Prop :=
  (forall id fav, count (available_learned v) (id, fav)
     = ((if is_learned id fav a then 1 else 0) + count (available_learned v') (id, fav))%nat)
  /\ (forall key, count (available_dual_wield v) key
     = ((if is_grant key a then 1 else 0) + count (available_dual_wield v') key)%nat)
  /\ (forall id, count (available_raised v) id
     = ((if is_raised id a then 1 else 0) + count (available_raised v') id)%nat).

Lemma accounts_refl v a :
  (forall id fav, is_learned id fav a = false) -> (forall key, is_grant key a = false) ->
  (forall id, is_raised id a = false) -> accounts v v a.
Proof. intros H1 H2 H3. split_and!; intros; by rewrite ?H1, ?H2, ?H3. Qed.

Ltac same v E := injection E as <-; by apply (accounts_refl v).

Section Actions.
Variables (rs : gmap Z PlayerSpellRow) (rk : gmap Z PlayerSkillRow) (ts : list SpellTransition)
  (evidence : SpellEvidence).

Lemma consume_skill_Ok m action skill m' :
  consume_skill rk m action skill = Ok m' -> consume_action_evidence m skill = Some m'.
Proof. unfold consume_skill. intros E. repeat case_match; unfold mismatch in *; by simplify_eq. Qed.

Lemma check_action_accounts v previous a next v' :
  check_action rs rk ts evidence v previous a next = Ok v' -> accounts v v' a.
Proof.
  destruct a; cbn [check_action]; intros E.
  - unfold check_learned in E. destruct (consume_action_evidence _ _) as [m|] eqn:Ec; [|discriminate].
    destruct (match rs !! spell_id with Some row => _ | None => _ end); [|discriminate]. injection E as <-.
    split_and!; [|done|done]. intros id fav. cbn [available_learned is_learned].
    by rewrite (count_consume _ _ _ (id, fav) Ec), if_pair_eqb.
  - unfold check_superseded in E. apply rbind_unit_Ok in E as [_ E]. apply rbind_unit_Ok in E as [_ E].
    destruct (find_first _ _); [|discriminate]. destruct (_ =? _); [discriminate|]. injection E as <-. done.
  - unfold check_unlearned in E. apply rbind_unit_Ok in E as [_ E]. destruct (find_first _ _); [|discriminate].
    destruct (is_active _); [discriminate|]. injection E as <-. done.
  - unfold check_dual_wield in E. apply rbind_unit_Ok in E as [_ E]. destruct (_ =? 0); [discriminate|].
    destruct (consume_action_evidence _ _) as [m|] eqn:Ec; [|discriminate]. injection E as <-.
    split_and!; [done| |done]. intros key. cbn [available_dual_wield is_grant]. by rewrite (count_consume _ _ _ key Ec).
  - unfold check_refresh in E. apply rbind_unit_Ok in E as [_ E].
    destruct (consume_action_evidence _ _); [|discriminate]. destruct (spell_is_present _ _); [|discriminate].
    injection E as <-. done.
  - unfold check_present in E. apply rbind_unit_Ok in E as [_ E]. destruct (spell_is_present _ _); [|discriminate]. same v E.
  - unfold check_tradeskill in E. do 2 apply rbind_unit_Ok in E as [_ E]. destruct (_ && _); [|discriminate]. same v E.
  - unfold check_skill_line in E. do 2 apply rbind_unit_Ok in E as [_ E]. destruct (_ && _); [|discriminate]. same v E.
  - unfold check_present in E. apply rbind_unit_Ok in E as [_ E]. destruct (spell_is_present _ _); [|discriminate]. same v E.
  - unfold check_mount_capability in E. apply rbind_unit_Ok in E as [_ E]. destruct (negb _); [discriminate|].
    apply rbind_Ok in E as (m & _ & [= <-]). done.
  - unfold check_raised in E. apply rbind_unit_Ok in E as [_ E]. apply rbind_Ok in E as (m & Ec%consume_skill_Ok & [= <-]).
    split_and!; [done|done|]. intros id. cbn [available_raised is_raised].
    rewrite (count_consume _ _ _ id Ec). destruct (Z.eqb_spec skill_id id) as [->|]; [by rewrite bool_decide_true|].
    by rewrite bool_decide_false.
  - unfold check_achieve in E. apply rbind_unit_Ok in E as [_ E]. apply rbind_Ok in E as (m & _ & [= <-]). done.
Qed.

Lemma check_actions_account v previous l v' :
  check_actions rs rk ts evidence v previous l = Ok v' ->
  (forall id fav, count (available_learned v) (id, fav)
     = (times (is_learned id fav) l + count (available_learned v') (id, fav))%nat)
  /\ (forall key, count (available_dual_wield v) key
     = (times (is_grant key) l + count (available_dual_wield v') key)%nat)
  /\ (forall id, count (available_raised v) id = (times (is_raised id) l + count (available_raised v') id)%nat).
Proof.
  revert v previous. induction l as [|a l IH]; intros v previous E; cbn [check_actions] in E; [by injection E as <-|].
  apply rbind_Ok in E as (v1 & (A1 & A2 & A3)%check_action_accounts & E). apply IH in E as (I1 & I2 & I3).
  split_and!; intros; rewrite times_cons; [rewrite A1, I1|rewrite A2, I2|rewrite A3, I3]; lia.
Qed.
End Actions.

(** * What is there to use up *)
Lemma skill_evidence_count ts id :
  count (skill_evidence ts) id = times (fun t => (skill_transition_id t =? id)%Z) ts.
Proof.
  unfold skill_evidence.
  assert (G : forall l m, count (foldl (fun m t => add_evidence_of m (skill_transition_id t)) m l) id
                          = (times (fun t => (skill_transition_id t =? id)%Z) l + count m id)%nat).
  { induction l as [|t l IH]; intros m; [done|]. cbn [foldl]. rewrite IH, count_add, times_cons.
    destruct (Z.eqb_spec (skill_transition_id t) id); [rewrite bool_decide_true by done|rewrite bool_decide_false by done]; lia. }
  rewrite G. unfold count. rewrite lookup_empty. cbn. lia.
Qed.

(** The dual wields the server executed. *)
Definition executed_dual_wields (s : Snapshot) : list (Z * Z * Z) :=
  flat_map (fun r : Z * CastResolution =>
    if reached_immediate_phase r.2
    then map (fun x => (r.1, dual_wield_record_id x, dual_wield_effect_index x)) (executed_dual_wield_effects r.2)
    else []) (entries_in_order (cast_resolutions s)).

Lemma dual_wield_count l m key :
  count (foldl dual_wield_evidence m l) key
  = (times (fun k => bool_decide (k = key))
       (flat_map (fun r : Z * CastResolution =>
          if reached_immediate_phase r.2
          then map (fun x => (r.1, dual_wield_record_id x, dual_wield_effect_index x)) (executed_dual_wield_effects r.2)
          else []) l) + count m key)%nat.
Proof.
  revert m. induction l as [|r l IH]; intros m; [done|]. cbn [foldl flat_map]. rewrite IH. unfold times at 2.
  rewrite filter_app, length_app. fold (times (fun k => bool_decide (k = key))
    (if reached_immediate_phase r.2
     then map (fun x => (r.1, dual_wield_record_id x, dual_wield_effect_index x)) (executed_dual_wield_effects r.2)
     else [])).
  unfold dual_wield_evidence. destruct (reached_immediate_phase r.2); [|reflexivity].
  assert (G : forall es m, count (foldl (fun m x => add_evidence_of m (r.1, dual_wield_record_id x, dual_wield_effect_index x)) m es) key
    = (times (fun k => bool_decide (k = key)) (map (fun x => (r.1, dual_wield_record_id x, dual_wield_effect_index x)) es) + count m key)%nat).
  { induction es as [|x es IHe]; intros m'; [done|]. cbn [foldl map]. rewrite IHe, count_add, times_cons. destruct (bool_decide _); lia. }
  rewrite G. unfold times. lia.
Qed.

Lemma unused_dual_wield_None m : unused_dual_wield m = None -> forall key, count m key = 0%nat.
Proof.
  unfold unused_dual_wield. intros E key. unfold count. destruct (m !! key) as [n|] eqn:El; [|done]. cbn.
  destruct n as [|n]; [done|]. exfalso.
  assert (H : key.1.1 ∈ merge_sort Z.le (omap (fun e : Z * Z * Z * nat => if (e.2 =? 0)%nat then None else Some e.1.1.1) (map_to_list m))).
  { rewrite merge_sort_Permutation. apply list_elem_of_omap. exists (key, S n). split; [by apply elem_of_map_to_list|done]. }
  destruct (merge_sort _ _); [by apply elem_of_nil in H|discriminate].
Qed.

(** C20: The actions of a plan that is accepted are accounted for.  The publications
    are those the plan requires; a learned spell is announced at most as often as
    the transitions make it active with that mark, a raised skill at most as often
    as a transition sets it; and the dual wields granted are exactly those the
    server executed, each as often as it did. *)
Theorem accepted_actions_accounted (plan : Plan) :
  validate_post_commit_actions plan = Ok tt ->
  omap publication_of (post_commit_actions plan) = publication_requirements plan
  /\ (forall id fav, (times (is_learned id fav) (post_commit_actions plan)
                      <= times (activates id fav) (spell_transitions plan))%nat)
  /\ (forall id, (times (is_raised id) (post_commit_actions plan)
                  <= times (fun t => (skill_transition_id t =? id)%Z) (skill_transitions plan))%nat)
  /\ (forall key, times (is_grant key) (post_commit_actions plan)
                  = times (fun k => bool_decide (k = key)) (executed_dual_wields (source_snapshot plan))).
Proof.
  unfold validate_post_commit_actions. intros [H1%require_Ok E]%rbind_unit_Ok. apply bool_decide_eq_true in H1.
  apply rbind_Ok in E as (rs & _ & E). apply rbind_Ok in E as (rk & _ & E). apply rbind_Ok in E as (src & _ & E).
  apply rbind_Ok in E as (v & (A1 & A2 & A3)%check_actions_account & E). split_and!; [done|..].
  - intros id fav. specialize (A1 id fav). cbn [available_learned initial_evidence] in A1.
    pose proof (withdraw_le (spell_transitions plan) (spell_evidence src (spell_transitions plan)) id fav) as W.
    rewrite spell_evidence_learned in W. lia.
  - intros id. specialize (A3 id). cbn [available_raised initial_evidence] in A3. rewrite skill_evidence_count in A3. lia.
  - intros key. specialize (A2 key). cbn [available_dual_wield initial_evidence] in A2.
    rewrite dual_wield_count in A2. unfold count at 1 in A2. rewrite lookup_empty in A2. cbn [default from_option] in A2.
    unfold executed_dual_wields. destruct (unused_dual_wield (available_dual_wield v)) eqn:Eu; [discriminate|].
    rewrite (unused_dual_wield_None _ Eu) in A2. lia.
Qed.
