(* ===== verification/SpellLearned.v ===== *)
(** What a plan of the planner gives the player: the spell that was asked for is
    there, and no spell or skill the player had is lost.  Then a small set of tables
    and a player on which the theorems on spell acquisition are applied: Alchemy (171)
    is a primary profession; its second rank (spell 200) replaces the first (100),
    sets the skill and teaches a recipe (300). *)
From S2P Require Import Prelude BTree Guid SpellCatalog SpellModel SpellPlanner SpellPlannerSkill SpellPlannerCast SpellPlannerSpell SpellReplay SpellPlannerSteps SpellReplayTheorems Profession SpellApply SpellPlannerTotal SpellApplyTheorems.

(** * Keeping spells and skills *)
(** Every spell but those of [xs] and every skill but those of [ys] is kept; the
    rows stay under their ids. *)
Definition keeps_but (xs ys : Z -> Prop) (p q : Planner) : Prop :=
  keyed p ->
  keyed q /\ (forall id, ~ xs id -> has_spell id p = true -> has_spell id q = true)
  /\ (forall id, ~ ys id -> has_skill id p = true -> has_skill id q = true).

Abbreviation none := (fun _ : Z => False).
Abbreviation keeps := (keeps_but none none).

Lemma keeps_but_view xs ys p q : view p = view q -> keeps_but xs ys p q.
Proof.
  intros E Hk. unfold view in E. injection E as E1 E2 _ _ _ _ _ _ _.
  unfold keyed, has_spell, has_skill. by rewrite <- E1, <- E2.
Qed.

(** The same rows and skills. *)
Lemma keeps_but_rows xs ys p q : p_spells p = p_spells q -> p_skills p = p_skills q -> keeps_but xs ys p q.
Proof. intros E1 E2 Hk. unfold keyed, has_spell, has_skill. by rewrite <- E1, <- E2. Qed.

#[export] Instance keeps_but_preorder xs ys : PreOrder (keeps_but xs ys).
Proof.
  split.
  - intros p. by apply keeps_but_view.
  - intros p q r H1 H2 Hk. destruct (H1 Hk) as (Hq & A1 & B1). destruct (H2 Hq) as (Hr & A2 & B2). auto.
Qed.

Lemma keeps_but_mono xs ys {A} (m : M A) : steps keeps m -> steps (keeps_but xs ys) m.
Proof.
  intros H p q a E Hk. destruct (H p q a E Hk) as (Hq & A1 & B1). split_and!; [done| |]; intros id _.
  - apply A1. by intros [].
  - apply B1. by intros [].
Qed.

#[export] Instance keeps_but_relation xs ys : PlanRelation (keeps_but xs ys).
Proof.
  split; [apply _|apply keeps_but_view| | | |].
  - intros a _ p q b E. injection E as <- _. by apply keeps_but_rows.
  - intros r a _ p q b E. unfold push_publication, push_action, bind, modify in E. injection E as <- _.
    by apply keeps_but_rows.
  - intros a b. unfold add_override, push_override_transition. steps; by apply keeps_but_rows.
  - intros a b. unfold remove_override, push_override_transition. steps; by apply keeps_but_rows.
Qed.

(** * The rows *)
Definition known_row (row : PlayerSpellRow) : Prop :=
  spell_state row <> SpellState.Removed /\ disabled row = false.

Lemma has_spell_row id row p :
  p_spells p !! id = Some row -> (has_spell id p = true <-> known_row row).
Proof.
  intros E. unfold has_spell, known_row. rewrite E, andb_true_iff, bool_decide_eq_true, negb_true_iff. done.
Qed.

Lemma record_spell_transition_keeps id b a pr xs ys : steps (keeps_but xs ys) (record_spell_transition id b a pr).
Proof. unfold record_spell_transition. steps; by apply keeps_but_rows. Qed.
Lemma record_skill_transition_keeps id b a pr xs ys : steps (keeps_but xs ys) (record_skill_transition id b a pr).
Proof. unfold record_skill_transition. steps; by apply keeps_but_rows. Qed.
#[export] Hint Resolve record_spell_transition_keeps record_skill_transition_keeps : steps.

(** A row may be replaced where the spell is excepted or stays known. *)
Lemma taught_replace_keeps xs ys row pr p q u :
  replace_spell_row row pr p = Some (q, Ok u) ->
  (xs (row_spell_id row) \/ known_row row \/ has_spell (row_spell_id row) p = false) ->
  keeps_but xs ys p q.
Proof.
  intros E Hrow Hk. unfold replace_spell_row in E. apply bind_Ok in E as (p1 & before & [= -> <-] & E).
  apply bind_Ok in E as (p2 & [] & [= <-] & E).
  destruct (record_spell_transition_keeps _ _ _ _ xs ys _ _ _ E (insert_keyed _ _ Hk)) as (Hq & A & B).
  split_and!; [done| |by intros id Hid; apply B].
  intros id Hid Hs. apply A; [done|]. destruct (decide (id = row_spell_id row)) as [->|Hne].
  - destruct Hrow as [H|[H|H]]; [done| |by rewrite H in Hs].
    apply (has_spell_row _ row); [|done]. ssimpl. by rewrite lookup_insert_eq.
  - unfold has_spell in *. ssimpl. by rewrite lookup_insert_ne by done.
Qed.

(** ... and is then known. *)
Lemma replace_known row pr p q u :
  replace_spell_row row pr p = Some (q, Ok u) -> known_row row -> has_spell (row_spell_id row) q = true.
Proof.
  intros E Hrow. unfold replace_spell_row in E. apply bind_Ok in E as (p1 & before & [= -> <-] & E).
  apply bind_Ok in E as (p2 & [] & [= <-] & E). unfold record_spell_transition in E.
  apply (has_spell_row _ row); [|done].
  case_match; injection E as <- _; ssimpl; by rewrite lookup_insert_eq.
Qed.

Lemma remove_keeps xs ys id pr : xs id -> steps (keeps_but xs ys) (remove_spell_row id pr).
Proof.
  intros Hx p q u E Hk. unfold remove_spell_row in E. apply bind_Ok in E as (p1 & before & [= -> <-] & E).
  apply bind_Ok in E as (p2 & [] & [= <-] & E).
  destruct (record_spell_transition_keeps _ _ _ _ xs ys _ _ _ E (delete_keyed _ _ Hk)) as (Hq & A & B).
  split_and!; [done| |by intros i Hi; apply B].
  intros i Hi Hs. apply A; [done|]. unfold has_spell in *. ssimpl. rewrite lookup_delete_ne; [done|congruence].
Qed.

Lemma put_skill_keyed row p : keyed p -> keyed (p <| p_skills := <[row_skill_id row := row]> (p_skills p) |>).
Proof.
  intros [H1 H2]. split; [done|]. ssimpl. intros k r [[<- <-]|[_ E]]%lookup_insert_Some; [done|by apply H2].
Qed.

Lemma put_skill_keeps xs ys row : ys (row_skill_id row) -> steps (keeps_but xs ys) (put_skill row).
Proof.
  intros Hy p q u E Hk. injection E as <- _. split_and!; [by apply put_skill_keyed|done|].
  intros id Hid Hs. unfold has_skill in *. ssimpl. rewrite lookup_insert_ne; [done|congruence].
Qed.

(** * Setting a skill keeps it *)
Lemma bind_assoc {A B C} (m : M A) (f : A -> M B) (g : B -> M C) p :
  bind (bind m f) g p = bind m (fun a => bind (f a) g) p.
Proof. unfold bind. destruct (m p) as [[q [a|e]]|]; done. Qed.

Section Skills.
Variables (env : Env) (self : Ops).
Hypothesis Hself : ops_step keeps self.

Lemma ops_step_but ys : ops_step (keeps_but none ys) self.
Proof. destruct Hself. split; intros; by apply keeps_but_mono. Qed.
Hint Resolve ops_step_but : steps.

(** The row the skill ends with. *)
Lemma put_skill_known row p q u (tail : M unit) :
  (put_skill row ;; tail) p = Some (q, Ok u) -> keyed p -> steps keeps tail ->
  skill_state row <> SkillState.Deleted -> 0 < skill_value row -> has_skill (row_skill_id row) q = true.
Proof.
  intros E Hk Ht Hs Hv. apply bind_Ok in E as (p1 & [] & [= <-] & E).
  destruct (Ht _ _ _ E (put_skill_keyed row p Hk)) as (_ & _ & B). apply B; [by intros []|].
  unfold has_skill. ssimpl. rewrite lookup_insert_eq. apply andb_true_iff. split; [by apply bool_decide_eq_true|lia].
Qed.

Lemma settled_not_deleted s v : settled_state s v <> SkillState.Deleted.
Proof. destruct s; cbn; [destruct (v =? 0)| | |]; done. Qed.

(** The steps of [set_existing_skill] before its last row. *)
Definition before_settling (id s v m : Z) (pr : Provenance) (fields : SkillLineAcquisitionFields)
    (row : PlayerSkillRow) : M unit :=
  activate_parent_skill env self id fields ;;
  put_skill (mkSkillRow id s v m (profession_association row) (skill_state row)) ;;
  record_skill_transition id (Some row) (mkSkillRow id s v m (profession_association row) (skill_state row)) pr ;;
  learn_skill_rewards env self id v ;;
  (if (id =? SKILL_RIDING) && (skill_value row <? v) then push_action (UpdateMountCapability id) else ret tt) ;;
  record_skill_criteria id.

Lemma set_existing_keeps id s v m pr fields row p q u :
  set_existing_skill env self id s v m pr fields row p = Some (q, Ok u) -> keeps p q.
Proof.
  intros E. unfold set_existing_skill in E. destruct (Z.ltb_spec 0 v) as [Hv|Hv].
  - set (after := mkSkillRow id s v m (profession_association row)
                    (settled_state (skill_state row) (skill_value row))) in E.
    assert (E2 : exists p1, before_settling id s v m pr fields row p = Some (p1, Ok tt)
                 /\ (put_skill after ;;
                     record_skill_transition id
                       (Some (mkSkillRow id s v m (profession_association row) (skill_state row))) after pr ;;
                     record_primary_profession_activation fields (skill_value row) after) p1 = Some (q, Ok u)).
    { unfold before_settling. do 5 (apply bind_Ok in E as (? & [] & ? & E)).
      apply bind_Ok in E as (p1 & [] & ? & E). exists p1. split; [|done].
      by do 5 (apply bind_Ok; eexists _, _; split; [eassumption|]). }
    destruct E2 as (p1 & E1 & E2). intros Hk.
    assert (S1 : steps (keeps_but none (eq id)) (before_settling id s v m pr fields row)).
    { pose proof (put_skill_keeps none (eq id)). unfold before_settling. steps_view. }
    destruct (S1 _ _ _ E1 Hk) as (Hk1 & A1 & B1).
    assert (S2 : steps (keeps_but none (eq id))
      (put_skill after ;;
       record_skill_transition id
         (Some (mkSkillRow id s v m (profession_association row) (skill_state row))) after pr ;;
       record_primary_profession_activation fields (skill_value row) after)).
    { pose proof (put_skill_keeps none (eq id)). steps_view. }
    destruct (S2 _ _ _ E2 Hk1) as (Hk2 & A2 & B2). split_and!; [done|auto|].
    intros i _ Hi. destruct (decide (i = id)) as [->|Hne].
    + apply (put_skill_known after p1 q u _ E2 Hk1); [steps_view|apply settled_not_deleted|done].
    + apply B2; [by intros ->|]. apply B1; [by intros ->|done].
  - destruct (0 <? skill_value row); [discriminate|]. injection E as -> _. reflexivity.
Qed.

Lemma insert_new_keeps id s v m pr fields : steps (keeps_but none (eq id)) (insert_new_skill env self id s v m pr fields).
Proof.
  pose proof (put_skill_keeps none (eq id)). unfold insert_new_skill, check_capacity, push_pending, pop_pending.
  steps_view.
Qed.

Lemma set_skill_keeps id s v m pr : steps keeps (set_skill env self id s v m pr).
Proof.
  unfold set_skill, set_skill_inner. case_match; [steps_view|].
  apply steps_bind; [apply _|steps_view|]. intros _. case_match; [steps_view|].
  apply steps_bind; [apply _|steps_view|]. intros fields p q u E.
  apply bind_Ok in E as (p1 & before & [= -> <-] & E).
  destruct (p_skills p1 !! id) as [row|] eqn:Er; [by eapply set_existing_keeps|].
  intros Hk. destruct (insert_new_keeps id s v m pr fields p1 q u E Hk) as (Hq & A & B).
  split_and!; [done|done|]. intros i _ Hi. apply B; [|done]. intros <-. unfold has_skill in Hi. by rewrite Er in Hi.
Qed.
End Skills.

(** * Adding a spell *)
(** What a spell is when its row is dealt with. *)
Definition settled (id : Z) (o : ExistingOutcome) (q : Planner) : Prop :=
  match o with
  | Finished _ | Proceed _ _ true => has_spell id q = true
  | Proceed _ s false => s <> SpellState.Removed
  end.

Lemma touch_known row : known_row row -> known_row (touch row).
Proof. intros [H1 H2]. unfold touch, known_row. case_bool_decide; ssimpl; done. Qed.
Lemma touch_flags row :
  disabled (touch row) = disabled row
  /\ (spell_state row <> SpellState.Removed -> spell_state (touch row) <> SpellState.Removed).
Proof. unfold touch. by case_bool_decide. Qed.
Lemma touch_id row : row_spell_id (touch row) = row_spell_id row.
Proof. unfold touch. by case_bool_decide. Qed.

Section Spells.
Variables (env : Env) (self : Ops).
Hypothesis Hself : ops_step keeps self.

(** The row of [id] is known from here on. *)
Lemma keeps_known {A} (m : M A) id p q a :
  m p = Some (q, Ok a) -> steps keeps m -> keyed p -> has_spell id p = true -> has_spell id q = true.
Proof. intros E Hm Hk H. destruct (Hm _ _ _ E Hk) as (_ & X & _). apply X; [by intros []|done]. Qed.

(** The new row is replaced by a known row, and the rest keeps it. *)
Lemma replace_then {A} row pr (rest : M A) p q a :
  (replace_spell_row row pr ;; rest) p = Some (q, Ok a) -> known_row row -> steps keeps rest -> keyed p ->
  keeps_but (eq (row_spell_id row)) none p q /\ has_spell (row_spell_id row) q = true.
Proof.
  intros E Hrow Hrest Hk. apply bind_Ok in E as (p1 & u & E1 & E2).
  assert (K1 : keeps_but none none p p1) by (eapply taught_replace_keeps; eauto).
  destruct (K1 Hk) as (Hk1 & _). split.
  - intros _. destruct (K1 Hk) as (_ & A1 & B1). destruct (Hrest _ _ _ E2 Hk1) as (Hk2 & A2 & B2).
    split_and!; [done| |]; intros i _ H.
    + apply A2; [by intros []|]. apply A1; [by intros []|done].
    + apply B2; [by intros []|]. apply B1; [by intros []|done].
  - eapply keeps_known; [exact E2|done..|]. by eapply replace_known.
Qed.

Lemma change_active_settles req projection a next d row p q o :
  change_active env self req projection a next d row p = Some (q, Ok o) ->
  known_row row -> row_spell_id row = add_spell_id req -> keyed p ->
  keeps_but (eq (add_spell_id req)) none p q /\ settled (add_spell_id req) o q.
Proof.
  intros E Hrow Hid Hk. unfold change_active in E.
  set (row' := if negb (in_world env) && negb (add_learning req) && negb d
               then row <| active := a |> <| spell_state := SpellState.Unchanged |>
               else touch (row <| active := a |>)) in E.
  assert (Hk' : known_row row').
  { unfold row'. destruct (_ && _); [by destruct Hrow|]. apply touch_known. by destruct Hrow. }
  assert (Hid' : row_spell_id row' = add_spell_id req).
  { unfold row'. destruct (_ && _); [done|]. by rewrite touch_id. }
  assert (Ho : o = Finished a).
  { apply bind_Ok in E as (? & ? & _ & E). apply bind_Ok in E as (? & ? & _ & E). by injection E. }
  destruct (replace_then _ _ _ _ _ _ E Hk') as [K H]; [steps_view|done|]. rewrite Hid' in *. by subst o.
Qed.

Lemma known_outcome row pr id o p q r :
  (replace_spell_row row pr ;; ret o) p = Some (q, Ok r) -> known_row row -> row_spell_id row = id ->
  match o with Proceed _ _ false => False | _ => True end -> keyed p ->
  keeps_but (eq id) none p q /\ settled id r q.
Proof.
  intros E Hrow <- Ho Hk. pose proof E as E'. apply bind_Ok in E' as (? & ? & _ & [= _ <-]).
  destruct (replace_then _ _ _ _ _ _ E Hrow) as [K H]; [steps_view|done|]. split; [done|].
  by destruct o as [|? ? []].
Qed.

(** A row whose disabled flag is as asked, unless it is removed. *)
Lemma same_flags_settles req a d row p q o :
  same_flags env req a d row p = Some (q, Ok o) ->
  (spell_state row <> SpellState.Removed -> disabled row = false) ->
  row_spell_id row = add_spell_id req -> keyed p ->
  keeps_but (eq (add_spell_id req)) none p q /\ settled (add_spell_id req) o q.
Proof.
  intros E Hrow Hid Hk. unfold same_flags in E. destruct (spell_state row) eqn:Es.
  4: { pose proof E as E'. apply bind_Ok in E as (p1 & u & E1 & [= <- <-]). split; [|done].
       by apply (remove_keeps _ _ _ (add_provenance req) eq_refl _ _ u). }
  all: eapply known_outcome; [exact E| | | |done]; try done; unfold known_row.
  all: try (case_match; ssimpl); rewrite ?Es, ?Hrow by done; done.
Qed.

Lemma forget_trait_row id row p q row' :
  forget_trait env id row p = Some (q, Ok row') ->
  row_spell_id row' = row_spell_id row /\ spell_state row' = spell_state row
  /\ disabled row' = disabled row /\ active row' = active row.
Proof.
  unfold forget_trait, lift, some_or. intros E. case_match; [|by injection E as _ <-]. case_match; [discriminate|].
  apply bind_Ok in E as (? & ? & _ & E). case_match; [discriminate|].
  apply bind_Ok in E as (? & ? & _ & [= _ <-]). done.
Qed.

Lemma change_row_settles req projection a next row p q o :
  change_row env self req projection a next row p = Some (q, Ok o) -> add_disabled req = false ->
  row_spell_id row = add_spell_id req -> keyed p ->
  keeps_but (eq (add_spell_id req)) none p q /\ settled (add_spell_id req) o q.
Proof.
  intros E Hd Hid Hk. unfold change_row in E. apply bind_Ok in E as (p1 & row1 & E1 & E).
  assert (K1 : keeps_but (eq (add_spell_id req)) none p p1).
  { apply (forget_trait_steps _ env _ _ _ _ _ E1). }
  apply forget_trait_row in E1 as (R1 & R2 & R3 & R4).
  set (ds := negb (bool_decide (spell_state row = SpellState.Removed)) && negb (dependent row) && add_dependent req) in *.
  set (row0 := if ds then touch (row <| dependent := true |>) else row) in *.
  assert (R0 : row_spell_id row0 = row_spell_id row /\ disabled row0 = disabled row
               /\ (spell_state row0 = SpellState.Removed <-> spell_state row = SpellState.Removed)).
  { unfold row0. destruct ds eqn:Ht; [|done]. unfold ds in Ht.
    apply andb_prop in Ht as [[Ht%negb_true_iff _]%andb_prop _]. apply bool_decide_eq_false in Ht.
    destruct (touch_flags (row <| dependent := true |>)) as [T1 T2]. rewrite touch_id, T1.
    split_and!; [done..|]. split; [intros X; by apply T2 in X|done]. }
  destruct R0 as (I0 & D0 & S0). destruct (K1 Hk) as (Hk1 & _).
  enough (Hgoal : keeps_but (eq (add_spell_id req)) none p1 q /\ settled (add_spell_id req) o q).
  { destruct Hgoal as [K2 S2]. split; [by transitivity p1|done]. }
  ssimpl. rewrite R3, D0 in E.
  destruct (negb (eqb (active row1) a) && negb (bool_decide (spell_state row = SpellState.Removed)) && negb (disabled row)) eqn:C1.
  - apply andb_prop in C1 as [[_ C2]%andb_prop C3]. apply negb_true_iff in C2, C3.
    apply bool_decide_eq_false in C2. eapply change_active_settles; [exact E|..]; ssimpl; try congruence.
    split; ssimpl; [by rewrite R2, S0|done].
  - rewrite Hd in E.
    destruct (negb (eqb (disabled row) false) && negb (bool_decide (spell_state row = SpellState.Removed))) eqn:C2.
    + apply andb_prop in C2 as [_ C2]. apply negb_true_iff, bool_decide_eq_false in C2.
      unfold change_disabled in E. rewrite Hd in E.
      eapply known_outcome; [exact E|..]; try done; rewrite ?touch_id; ssimpl; [|congruence].
      apply touch_known. split; ssimpl; [by rewrite R2, S0|done].
    + eapply same_flags_settles; [exact E|..]; ssimpl; try congruence.
      rewrite R2, S0. intros Hs. apply andb_false_iff in C2 as [C2|C2].
      * apply negb_false_iff, eqb_prop in C2. done.
      * apply negb_false_iff, bool_decide_eq_true in C2. done.
Qed.

Lemma existing_settles req projection a row p q o :
  existing_spell env self req projection a row p = Some (q, Ok o) -> add_disabled req = false ->
  row_spell_id row = add_spell_id req -> p_spells p !! add_spell_id req = Some row -> keyed p ->
  keeps_but (eq (add_spell_id req)) none p q /\ settled (add_spell_id req) o q.
Proof.
  intros E Hd Hid Hrow Hk. unfold existing_spell in E. destruct (bool_decide _) eqn:Ht.
  - apply bind_Ok in E as (p1 & u & E1 & [= <- <-]). split.
    + by apply (remove_keeps _ _ _ (add_provenance req) eq_refl _ _ u).
    + cbn. unfold fresh_state. by destruct (add_learning req).
  - apply bind_Ok in E as (p1 & next & [= -> <-] & E). cbv zeta in E.
    set (a' := match known_next_rank projection p1 with Some _ => false | None => a end) in *.
    destruct (already_matches req a' row) eqn:Hm; [|by eapply change_row_settles].
    unfold already_matches in Hm. rewrite !andb_true_iff, bool_decide_eq_true, Hd in Hm.
    destruct Hm as [[[Hs _] _] Hdis%eqb_prop].
    destruct (negb (in_world env) && negb (add_learning req)).
    + assert (Ho : exists rest, steps keeps rest /\
        (replace_spell_row (row <| spell_state := SpellState.Unchanged |>) (add_provenance req) ;; rest) p1 = Some (q, Ok o)
        /\ o = Finished false).
      { eexists. split; [|split; [exact E|]]; [steps_view|].
        apply bind_Ok in E as (? & ? & _ & E). apply bind_Ok in E as (? & ? & _ & E). by injection E. }
      destruct Ho as (rest & Hrest & E2 & ->).
      destruct (replace_then _ _ _ _ _ _ E2) as [K H]; [by split|done..|]. ssimpl. by rewrite Hid in *.
    + assert (K : keeps p1 q).
      { assert (S : steps keeps (ret tt ;; push_diagnostic (ExistingSpellAlreadyMatches (add_spell_id req)) ;;
                                 ret (Finished false))) by steps_view.
        by apply (S _ _ _ E). }
      assert (Ho : o = Finished false).
      { apply bind_Ok in E as (? & ? & _ & E). apply bind_Ok in E as (? & ? & _ & E). by injection E. }
      subst o. split.
      * intros _. destruct (K Hk) as (Hq & A & B). split_and!; [done|intros i _; apply A; by intros []|done].
      * destruct (K Hk) as (_ & A & _). apply A; [by intros []|]. by apply (has_spell_row _ row).
Qed.

(** ** A new row *)
Lemma deactivate_keeps id row pr p q u :
  p_spells p !! id = Some row -> replace_spell_row (deactivate row) pr p = Some (q, Ok u) -> keeps p q.
Proof.
  intros Hrow E Hk. assert (Hid : row_spell_id row = id) by by apply (proj1 Hk).
  assert (Hi : row_spell_id (deactivate row) = id) by (unfold deactivate; by rewrite touch_id).
  assert (H : known_row (deactivate row) \/ has_spell id p = false).
  { destruct (has_spell id p) eqn:Eh; [left|by right]. apply (has_spell_row _ row) in Eh; [|done].
    unfold deactivate. apply touch_known. by destruct Eh. }
  eapply taught_replace_keeps; [exact E| |done]. rewrite Hi. by right.
Qed.

Lemma supersede_candidate_keeps req chain id : steps keeps (supersede_candidate env req chain id).
Proof.
  intros p q b E. unfold supersede_candidate in E. apply bind_Ok in E as (p1 & c & [= -> <-] & E).
  destruct (p_spells p1 !! id) as [row|] eqn:Er; [|injection E as -> _; reflexivity].
  destruct (_ || _); [injection E as -> _; reflexivity|].
  destruct (spell_chain_lookup _ _) as [|node|]; [injection E as -> _; reflexivity| |discriminate].
  destruct (negb _); [injection E as -> _; reflexivity|]. destruct (rank node <? rank chain).
  - apply bind_Ok in E as (p2 & [] & E1 & E2). transitivity p2; [by eapply deactivate_keeps|].
    assert (S : steps keeps (push_superseded env id (add_spell_id req) ;; ret true))
      by (unfold push_superseded; steps_view). by apply (S _ _ _ E2).
  - apply bind_Ok in E as (p2 & cur & [= -> <-] & E).
    destruct (p_spells p2 !! add_spell_id req) as [cur|] eqn:Ec; [|injection E as -> _; reflexivity].
    apply bind_Ok in E as (p3 & [] & E1 & E2). transitivity p3; [by eapply deactivate_keeps|].
    assert (S : steps keeps (push_superseded env (add_spell_id req) id ;; ret false))
      by (unfold push_superseded; steps_view). by apply (S _ _ _ E2).
Qed.

Lemma insert_settles req projection a s p q b :
  insert_spell env self req projection a s p = Some (q, Ok b) -> add_disabled req = false ->
  s <> SpellState.Removed -> keyed p ->
  keeps_but (eq (add_spell_id req)) none p q /\ has_spell (add_spell_id req) q = true.
Proof.
  intros E Hd Hs Hk. unfold insert_spell in E. apply bind_Ok in E as (p1 & [] & E1 & E).
  assert (K1 : keeps_but (eq (add_spell_id req)) none p p1).
  { apply (keeps_but_mono _ _ _ (add_previous_rank_steps keeps env self Hself req projection a Hd) _ _ _ E1). }
  destruct (K1 Hk) as (Hk1 & _). apply bind_Ok in E as (p2 & known & [= -> <-] & E). cbv zeta in E.
  destruct (replace_then _ _ _ _ _ _ E) as [K H]; [|  |done|].
  - split; ssimpl; [|done]. by case_match.
  - unfold supersede_ranks. pose proof (supersede_candidate_keeps req). steps_view.
  - ssimpl. split; [by transitivity p2|done].
Qed.

(** ** The whole of it *)
Lemma proceed_settles req projection o p q b :
  proceed env self req projection o p = Some (q, Ok b) -> add_disabled req = false ->
  settled (add_spell_id req) o p -> keyed p ->
  keeps_but (eq (add_spell_id req)) none p q /\ has_spell (add_spell_id req) q = true.
Proof.
  intros E Hd Ho Hk. destruct o as [learned|a s [|]]; cbn in E, Ho.
  - injection E as -> _. split; [reflexivity|done].
  - pose proof (follow_up_steps keeps env self Hself req projection false) as S. split.
    + by apply (keeps_but_mono _ _ _ S _ _ _ E).
    + by eapply keeps_known.
  - apply bind_Ok in E as (p1 & old & E1 & E). rewrite Hd in E.
    destruct (insert_settles _ _ _ _ _ _ _ E1 Hd Ho Hk) as [K1 H1]. destruct (K1 Hk) as (Hk1 & _).
    pose proof (follow_up_steps keeps env self Hself req projection old) as S. split.
    + transitivity p1; [done|]. by apply (keeps_but_mono _ _ _ S _ _ _ E).
    + by eapply keeps_known.
Qed.

Lemma add_spell_settles req a p q b :
  add_spell env self req a p = Some (q, Ok b) -> add_disabled req = false -> keyed p ->
  keeps p q /\ has_spell (add_spell_id req) q = true.
Proof.
  intros E Hd Hk. unfold add_spell in E. apply bind_Ok in E as (p1 & [] & E1 & E).
  apply bind_Ok in E as (p2 & [] & E2 & E). apply bind_Ok in E as (p3 & projection & E3 & E).
  assert (K : keeps p p3).
  { transitivity p1; [by eapply (validate_steps keeps self)|].
    transitivity p2; [by apply (consume_steps keeps _ _ _ E2)|by apply (projection_steps keeps _ _ _ _ _ E3)]. }
  destruct (K Hk) as (Hk3 & _). apply bind_Ok in E as (p4 & existing & [= -> <-] & E).
  apply bind_Ok in E as (p5 & o & E5 & E).
  assert (H5 : keeps_but (eq (add_spell_id req)) none p4 p5 /\ settled (add_spell_id req) o p5).
  { destruct (p_spells p4 !! add_spell_id req) as [row|] eqn:Er.
    - eapply existing_settles; try done. by apply (proj1 Hk3).
    - injection E5 as -> <-. split; [reflexivity|]. cbn. unfold fresh_state. by destruct (add_learning req). }
  destruct H5 as [K5 S5]. destruct (K5 Hk3) as (Hk5 & _).
  destruct (proceed_settles _ _ _ _ _ _ E Hd S5 Hk5) as [K6 H6]. split; [|done].
  transitivity p4; [done|]. intros _.
  destruct (K5 Hk3) as (_ & A5 & B5). destruct (K6 Hk5) as (Hq & A6 & B6).
  split_and!; [done| |by intros i Hi H; apply B6, B5].
  intros i _ H. destruct (decide (i = add_spell_id req)) as [->|Hne]; [done|].
  apply A6; [congruence|]. apply A5; [congruence|done].
Qed.
End Spells.

(** * Plans *)
Lemma ops_keep env n : ops_step keeps (ops env n).
Proof.
  apply (ops_induction keeps); intros.
  - by apply learn_spell_steps; [apply _|].
  - intros p q b E Hk. by eapply add_spell_settles.
  - by apply set_skill_keeps.
  - by apply validate_definition_steps; [apply _|].
Qed.

Lemma learn_spell_known env n id from_skill pr p q u :
  op_learn_spell (ops env n) id false from_skill pr p = Some (q, Ok u) -> keyed p -> has_spell id q = true.
Proof.
  intros E Hk. destruct n as [|[|n]]; [discriminate| |].
  - cbn in E. discriminate E.
  - cbn [ops op_learn_spell] in E. unfold learn_spell in E. apply bind_Ok in E as (p1 & e & [= -> <-] & E).
    apply bind_Ok in E as (p2 & b & E1 & E). cbn [op_add_spell ops] in E1.
    destruct (add_spell_settles env (ops env n) (ops_keep env n) _ _ _ _ _ E1 eq_refl Hk) as [K H].
    destruct (K Hk) as (Hk2 & _). eapply keeps_known; [exact E| |done|exact H].
    pose proof (enable_dependents_steps keeps env (ops env (S n)) (ops_keep env (S n))). steps_view.
Qed.

(** The player knows a spell, or has a skill, in a list of rows. *)
Definition knows_spell (s : Snapshot) (id : Z) : Prop :=
  exists row, row ∈ spells s /\ row_spell_id row = id /\ known_row row.
Definition knows_skill (s : Snapshot) (id : Z) : Prop :=
  exists row, row ∈ skills s /\ row_skill_id row = id /\ skill_state row <> SkillState.Deleted /\ 0 < skill_value row.

(** A fold that refuses a second row of an id keeps every row. *)
Lemma fold_keeps {A} (key : A -> Z) (f : gmap Z A -> A -> Prelude.result (gmap Z A) Indeterminate) l m m' :
  (forall m a m', f m a = Ok m' -> m !! key a = None /\ m' = <[key a := a]> m) ->
  fold_result f m l = Ok m' ->
  (forall k a, m !! k = Some a -> m' !! k = Some a) /\ (forall a, a ∈ l -> m' !! key a = Some a).
Proof.
  intros Hf. revert m. induction l as [|a l IH]; intros m E.
  - injection E as <-. split; [done|]. by intros a ?%elem_of_nil.
  - cbn in E. destruct (f m a) as [m1|] eqn:E1; [|discriminate]. apply Hf in E1 as [Hn ->].
    destruct (IH _ E) as [I1 I2]. split.
    + intros k b H. apply I1. rewrite lookup_insert_ne; [done|]. intros <-. by rewrite Hn in H.
    + intros b [->|Hb]%elem_of_cons; [|by apply I2]. apply I1. by rewrite lookup_insert_eq.
Qed.

Lemma insert_snapshot_spell_Ok m row m' :
  insert_snapshot_spell m row = Ok m' -> m !! row_spell_id row = None /\ m' = <[row_spell_id row := row]> m.
Proof.
  unfold insert_snapshot_spell. intros E. repeat case_match; try discriminate; injection E as <-; (split; [|done]);
    apply eq_None_not_Some; match goal with H : bool_decide (is_Some _) = false |- _ => by apply bool_decide_eq_false in H end.
Qed.
Lemma insert_snapshot_skill_Ok m row m' :
  insert_snapshot_skill m row = Ok m' -> m !! row_skill_id row = None /\ m' = <[row_skill_id row := row]> m.
Proof.
  unfold insert_snapshot_skill. intros E. repeat case_match; try discriminate; injection E as <-; (split; [|done]);
    apply eq_None_not_Some; match goal with H : bool_decide (is_Some _) = false |- _ => by apply bool_decide_eq_false in H end.
Qed.

Lemma planner_new_rows snapshot metadata p :
  planner_new snapshot metadata = Ok p ->
  (forall row, row ∈ spells snapshot -> p_spells p !! row_spell_id row = Some row)
  /\ (forall row, row ∈ skills snapshot -> p_skills p !! row_skill_id row = Some row).
Proof.
  unfold planner_new, rbind. intros E. repeat case_match; try discriminate E; simplify_eq/=. split.
  - eapply (fold_keeps row_spell_id); [apply insert_snapshot_spell_Ok|eassumption].
  - eapply (fold_keeps row_skill_id); [apply insert_snapshot_skill_Ok|eassumption].
Qed.

Lemma planner_knows_spell env p id : keyed p -> (knows_spell (snapshot_of env p) id <-> has_spell id p = true).
Proof.
  intros Hk. unfold knows_spell. cbn [spells snapshot_of]. setoid_rewrite elem_of_values_in_order. split.
  - intros (row & [k H] & <- & Hr). rewrite (proj1 Hk _ _ H). by apply (has_spell_row _ row).
  - intros H. destruct (p_spells p !! id) as [row|] eqn:E; [|unfold has_spell in H; by rewrite E in H].
    exists row. split_and!; [eauto|by apply (proj1 Hk)|by apply (has_spell_row _ _ _ E)].
Qed.

Lemma planner_knows_skill env p id : keyed p -> has_skill id p = true -> knows_skill (snapshot_of env p) id.
Proof.
  intros Hk H. unfold has_skill in H. destruct (p_skills p !! id) as [row|] eqn:E; [|done].
  apply andb_prop in H as [H1%bool_decide_eq_true H2%Z.ltb_lt]. exists row. cbn [skills snapshot_of].
  rewrite elem_of_values_in_order. split_and!; [eauto|by apply (proj2 Hk)|done..].
Qed.

Lemma run_root_keeps env n : steps keeps (run_root env n).
Proof. pose proof (ops_keep env n) as H. unfold run_root. steps_view. Qed.

(** C16: A plan gives what it is asked for and takes nothing: where the planner
    answers with a plan, the player knows in its resulting snapshot the spell that
    was to be learned directly, every spell he knew, and every skill he had. *)
Theorem plan_learns_and_keeps (n : nat) (snapshot : Snapshot) (metadata : Metadata)
    (root : SpellAcquisitionRoot) (policy : CastSideEffectPolicy) (plan : Plan) :
  project_with_cast_policy n snapshot metadata root policy = Some (Deterministic plan) ->
  (forall id, root = DirectLearn id -> knows_spell (resulting_snapshot plan) id)
  /\ (forall id, knows_spell snapshot id -> knows_spell (resulting_snapshot plan) id)
  /\ (forall id, knows_skill snapshot id -> knows_skill (resulting_snapshot plan) id).
Proof.
  intros (p & q & Hnew & Hrun & ->)%project_inv. pose proof (planner_new_keyed _ _ _ Hnew) as Hk.
  destruct (planner_new_rows _ _ _ Hnew) as [Hs Hsk].
  destruct (run_root_keeps _ _ _ _ _ Hrun Hk) as (Hq & A & B). cbn [plan_of resulting_snapshot]. split_and!.
  - intros id ->. apply planner_knows_spell; [done|]. unfold run_root in Hrun. cbn [env_root] in Hrun. by apply (learn_spell_known _ _ _ _ _ _ _ _ Hrun).
  - intros id (row & Hrow & <- & Hr). apply planner_knows_spell; [done|]. apply A; [by intros []|].
    by apply (has_spell_row _ row); [apply Hs|].
  - intros id (row & Hrow & <- & H1 & H2). apply planner_knows_skill; [done|]. apply B; [by intros []|].
    unfold has_skill. rewrite (Hsk _ Hrow). apply andb_true_iff. split; [by apply bool_decide_eq_true|lia].
Qed.

Definition demo_guid : option ObjectGuid := Some (create_player 1 42).
Definition full_coverage : CoverageRecord := mkCoverage (fun _ => []).
Definition demo_spells : list Z := [100; 200; 300; 400].

Definition demo_catalog : SpellAcquisitionCatalog :=
  mkCatalog (list_to_map (map (fun id => ((id, DIFFICULTY_NONE), full_coverage)) demo_spells)) ∅ ∅ ∅ ∅ ∅
    (fun _ => []).

Definition demo_chains : SpellChainStore :=
  mkChainStore {[100 := mkChainNode None (Some 200) 100 200 1; 200 := mkChainNode (Some 100) None 100 200 2]} ∅ None.

Definition demo_skill_lines : SkillLineStore :=
  mkSkillLineStore {[171]} {[171 := mkSkillLineFields SKILL_CATEGORY_PROFESSION 0 0]}.

(** The tables; [rewards] are the abilities of the skill, [teaches] the spells a
    spell teaches. *)
Definition demo_metadata (rewards : list SkillLineAbilityRecord) (teaches : gmap Z (list SpellLearnSpellNode))
    (skill : gmap Z SpellLearnSkillNode) : Metadata :=
  mkMetadata demo_catalog demo_chains
    (mkLearnSkillStore skill (list_to_set demo_spells) ∅)
    (mkLearnSpellStore teaches) (mkRequiredStore ∅) (mkAttributeStore ∅) (mkTraitStore ∅)
    (mkCastAuthority ∅ ∅) (mkCraftAuthority ∅ ∅) (Some (mkMountStore ∅ ∅))
    (mkSkillStore {[171 := rewards]} ∅ ∅ ∅ ∅ ∅) demo_skill_lines (mkTiersStore ∅).

Definition demo_snapshot (spells : list PlayerSpellRow) (skills : list PlayerSkillRow)
    (professions : list Z) : Snapshot :=
  mkSnapshot demo_guid spells skills (Z.of_nat (length skills)) [] professions [] 1 1 80 InWorld [] ∅.

(** The player knows the first rank and has the skill. *)
Definition rank_row : PlayerSpellRow := mkSpellRow 100 true false true false None SpellState.Unchanged.
Definition skill_row (value : Z) : PlayerSkillRow := mkSkillRow 171 1 value 75 (Slot 0) SkillState.Unchanged.
Definition alchemist : Snapshot := demo_snapshot [rank_row] [skill_row 60] [171].

(** Spell 200 raises the skill to its second step and teaches spell 300. *)
Definition alchemy : Metadata :=
  demo_metadata [] {[200 := [mkLearnSpell 300 0 true false]]} {[200 := mkLearnSkill 171 2 60 150]}.

Definition demo_plan (m : Metadata) (s : Snapshot) (id : Z) : option Plan :=
  match project_with_cast_policy planner_fuel s m (DirectLearn id) RequireComplete with
  | Some (Deterministic plan) => Some plan
  | _ => None
  end.

(** A reward of the skill that sets the skill again: 171 rewards spell 300, which
    teaches spell 400, which raises 171. *)
Definition reward_row : SkillLineAbilityRecord :=
  mkAbility 1 0 171 300 1 0 0 SKILL_LINE_ABILITY_LEARNED_ON_SKILL_LEARN 0 0 0 0 0.
Definition reentrant : Metadata :=
  demo_metadata [reward_row] {[300 := [mkLearnSpell 400 0 true false]]}
    {[200 := mkLearnSkill 171 2 60 150; 400 := mkLearnSkill 171 3 70 225]}.

(** The professions of the alchemist, and what the tables hold of him. *)
Definition demo_capacity : CapacityPlan :=
  mkCapacityPlan 2 1 1 [mkPlanned 171 (Some First)] [] [].
Definition demo_professions : list PlayerSkillProfessionSnapshot :=
  [mkProfessionSkill 186 0 1; mkProfessionSkill 171 60 5].
Definition demo_db : SpellDb :=
  mkSpellDb {[42 := 1000; 7 := 5]} [(7, mkDurableSpell 100 true false)] []
    [(42, mkDurableSkill 171 60 75 0); (7, mkDurableSkill 171 1 75 0)] {[42 := [9]]}.

(** The theorems on spell acquisition applied to this player and these tables. *)

Lemma planner_always_answers_witness :
  (planner_fuel <= planner_fuel)%nat
  /\ is_Some (project_with_cast_policy planner_fuel alchemist alchemy (DirectLearn 200) RequireComplete).
Proof. split; [reflexivity|]. apply (planner_always_answers planner_fuel). reflexivity. Defined.

Lemma planned_mutations_replay_witness :
  exists plan, project_with_cast_policy 60 alchemist alchemy (DirectLearn 200) RequireComplete = Some (Deterministic plan)
  /\ length (mutations plan) = 5%nat /\ check_typed_projections plan = Ok tt.
Proof.
  eexists. split; [vm_compute; reflexivity|]. split; [reflexivity|].
  apply (planned_mutations_replay 60 alchemist alchemy (DirectLearn 200) RequireComplete). vm_compute; reflexivity.
Defined.

Lemma plan_learns_and_keeps_witness :
  exists plan, project_with_cast_policy 60 alchemist alchemy (DirectLearn 200) RequireComplete = Some (Deterministic plan)
  /\ knows_spell (resulting_snapshot plan) 200.
Proof.
  eexists. split; [vm_compute; reflexivity|].
  refine (proj1 (plan_learns_and_keeps 60 alchemist alchemy (DirectLearn 200) RequireComplete _ _) 200 eq_refl).
  vm_compute; reflexivity.
Defined.

Lemma prepared_is_durable_witness :
  exists plan r, demo_plan alchemy alchemist 200 = Some plan
  /\ prepare plan demo_capacity alchemist = Ok (Ready r)
  /\ prepare plan demo_capacity (runtime_snapshot r) = Ok AlreadyApplied.
Proof.
  eexists _, _. split; [vm_compute; reflexivity|]. split; [vm_compute; reflexivity|].
  apply (prepared_is_durable _ demo_capacity alchemist). vm_compute; reflexivity.
Defined.

(** The commit is lost, but the transaction was durable. *)
Lemma acquisition_persisted_witness :
  exists plan q r d',
  demo_plan alchemy alchemist 200 = Some plan
  /\ prepare plan demo_capacity alchemist = Ok (Ready q)
  /\ persistence_request 42 q 1000 900 [1] = Ok r
  /\ persist_through_port (fun _ => None) (CommitLost true "lost") (fun _ => None) true r demo_db
     = (d', OutcomeReconciledCommit "lost")
  /\ stable_source_durable_authority (runtime_snapshot q) = Some (read_durable_authority 42 d').
Proof.
  let p := eval vm_compute in (demo_plan alchemy alchemist 200) in
  match p with Some ?plan => exists plan; pose (learned := plan) end.
  eexists _, _, _. split; [vm_compute; reflexivity|]. split; [vm_compute; reflexivity|].
  split; [vm_compute; reflexivity|]. split; [vm_compute; reflexivity|].
  refine (proj1 (acquisition_persisted learned demo_capacity alchemist _ 42 1000 900 [1] _ (fun _ => None) (fun _ => None)
                   (CommitLost true "lost") true demo_db _ (OutcomeReconciledCommit "lost") _ _ _ _)).
  all: vm_compute; solve [reflexivity|discriminate].
Defined.

Lemma profession_plan_sound_witness :
  exists a p, analyze_primary_professions 2 demo_skill_lines demo_professions = Ok a
  /\ plan_primary_professions a demo_skill_lines [171] = Ok p
  /\ slot_normalizations p
     = [mkNormalization 171 5 (Some First) OutOfRange; mkNormalization 186 1 None InactiveSkill]
  /\ capacity_arithmetic p = true.
Proof.
  eexists _, _. split; [vm_compute; reflexivity|]. split; [vm_compute; reflexivity|]. split; [reflexivity|].
  eapply (profession_plan_sound 2 demo_skill_lines demo_professions [171]); [|vm_compute; reflexivity..].
  apply (bool_decide_unpack _). vm_compute. exact I.
Defined.

Lemma accepted_actions_accounted_witness :
  exists plan, demo_plan alchemy alchemist 200 = Some plan /\ validate_post_commit_actions plan = Ok tt
  /\ times (is_learned 300 false) (post_commit_actions plan) = 1%nat
  /\ (times (is_learned 300 false) (post_commit_actions plan) <= times (activates 300 false) (spell_transitions plan))%nat.
Proof.
  eexists. split; [vm_compute; reflexivity|]. split; [vm_compute; reflexivity|]. split; [vm_compute; reflexivity|].
  apply accepted_actions_accounted. vm_compute; reflexivity.
Defined.

(** A re-entered skill ends in a refusal.  The planner accepts a skill that is
    raised again by a spell it rewards, but the row it then writes back is the
    one from before, so the plan it answers with is not accepted: nothing that
    teaches such a skill can be applied. *)
Lemma reentered_skill_refused :
  exists plan, demo_plan reentrant alchemist 200 = Some plan
  /\ validate_plan_replay plan = Err (TransitionBeforeMismatch "skill" 171)
  /\ forall p current, prepare plan p current = Err (TransitionBeforeMismatch "skill" 171).
Proof.
  eexists. split; [vm_compute; reflexivity|]. split; [vm_compute; reflexivity|].
  intros p current. unfold prepare.
  match goal with |- rbind ?m _ = _ => replace m with (@Err unit PrepareError (TransitionBeforeMismatch "skill" 171)) end;
    [reflexivity|]. vm_compute. reflexivity.
Qed.
