(* ===== verification/SpellTrainer.v ===== *)
(** Applying a prepared acquisition and buying it from a trainer: wow-world/src/
    spell_acquisition/application/runtime.rs, trainer_purchase.rs and
    trainer_offer.rs.

    The session is reached through an interface, as in the code: what it can do
    for an acquisition, and what else for a purchase.  Any state with these
    operations will do, so the theorem here is about every session: what it is
    asked to do, in which order, and where a purchase stops.  An operation may
    panic, which is [None]; an [await] is a step of the session. *)
From Stdlib Require Import SpecFloat.
From S2P Require Import Prelude BTree Guid Float32 SpellCatalog SpellModel SpellPlanner Profession SpellReplay SpellApply.

(** * Operations of a session *)
Definition Rt (S A : Type) : Type := S -> option (S * A).
Definition rt_ret {S A} (a : A) : Rt S A := fun s => Some (s, a).
Definition rt_bind {S A B} (m : Rt S A) (k : A -> Rt S B) : Rt S B := fun s =>
  match m s with Some (s1, a) => k a s1 | None => None end.
Definition rt_read {S A} (f : S -> A) : Rt S A := fun s => Some (s, f s).
Notation "'rt!' x ':=' m 'in' k" := (rt_bind m (fun x => k))
  (at level 10, x pattern, m at level 100, k at level 200) : wow_scope.

(** [PlayerSpellAcquisitionRuntimeApplyErrorLikeCpp]. *)
Inductive ApplyError : Set := InvalidPreparedRuntime | PublicationInterrupted.
Abbreviation applied := (Prelude.result unit ApplyError).

(** [m?] in a function that answers a [Result]. *)
Definition rt_try {S B} (m : Rt S applied) (k : Rt S (Prelude.result B ApplyError)) :
    Rt S (Prelude.result B ApplyError) :=
  rt! r := m in match r with Ok _ => k | Err e => rt_ret (Err e) end.

(** [PlayerSpellAcquisitionRuntimeLikeCpp]. *)
Class AcquisitionRuntime (S : Type) : Type :=
  { runtime_guid : S -> option ObjectGuid;
    has_canonical_player : S -> bool;
    install_snapshot : Snapshot -> list Z -> Rt S applied;
    begin_action_batch : Rt S unit;
    record_action : PostCommitAction -> Rt S unit;
    grant_dual_wield : Rt S bool;
    publish_action : PostCommitAction -> option Z -> Rt S unit }.

(** * Applying what is prepared (runtime.rs) *)
(** [PreparedPlayerSpellAcquisitionActionsLikeCpp]. *)
Record PreparedActions : Type := mkPreparedActions
  { actions_guid : option ObjectGuid; actions_snapshot : Snapshot; actions_list : list PostCommitAction;
    runtime_actions_already_applied : bool }.
#[export] Instance eta_prepared_actions : Eta PreparedActions := fun a =>
  mkPreparedActions (actions_guid a) (actions_snapshot a) (actions_list a) (runtime_actions_already_applied a).

Definition grants_dual_wield (a : PostCommitAction) : bool :=
  match a with GrantDualWield _ _ _ => true | _ => false end.

(** [snapshot.spells.iter().find(..).and_then(|spell| spell.trait_definition_id)]. *)
Definition published_trait (s : Snapshot) (a : PostCommitAction) : option Z :=
  match a with
  | LearnedSpell spell_id _ _ =>
      row ← find_first (fun row => row_spell_id row = spell_id) (spells s); trait_definition_id row
  | _ => None
  end.

Section Apply.
Context {S : Type} `{AcquisitionRuntime S}.

Definition require_character (guid : option ObjectGuid) (s : S) : applied :=
  if bool_decide (guid = None) || bool_decide (runtime_guid s <> guid) then Err InvalidPreparedRuntime
  else Ok tt.

Definition preflight_owners (actions : list PostCommitAction) (s : S) : applied :=
  if existsb grants_dual_wield actions && negb (has_canonical_player s) then Err InvalidPreparedRuntime
  else Ok tt.

(** The loop over the actions that grants each dual wield, or stops. *)
Fixpoint grant_all (actions : list PostCommitAction) : Rt S applied :=
  match actions with
  | [] => rt_ret (Ok tt)
  | a :: rest =>
      if grants_dual_wield a then
        rt! granted := grant_dual_wield in
        if granted then grant_all rest else rt_ret (Err InvalidPreparedRuntime)
      else grant_all rest
  end.

Fixpoint record_all (actions : list PostCommitAction) : Rt S unit :=
  match actions with
  | [] => rt_ret tt
  | a :: rest => rt! _ := record_action a in record_all rest
  end.

Definition apply_non_packet_runtime_actions (actions : list PostCommitAction) : Rt S applied :=
  rt_try (grant_all actions)
    (rt! _ := begin_action_batch in rt! _ := record_all actions in rt_ret (Ok tt)).

(** [fault index] interrupts the publication before an action. *)
Fixpoint publish_from (index : nat) (snapshot : Snapshot) (actions : list PostCommitAction)
    (already_applied : bool) (fault : nat -> bool) : Rt S applied :=
  match actions with
  | [] => rt_ret (Ok tt)
  | a :: rest =>
      if fault index then rt_ret (Err PublicationInterrupted)
      else
        rt! _ := (if already_applied then rt_ret tt else record_action a) in
        if grants_dual_wield a then
          rt! granted := (if already_applied then rt_ret true else grant_dual_wield) in
          if granted then publish_from (1 + index)%nat snapshot rest already_applied fault
          else rt_ret (Err InvalidPreparedRuntime)
        else
          rt! _ := publish_action a (published_trait snapshot a) in
          publish_from (1 + index)%nat snapshot rest already_applied fault
  end.

Definition publish_actions (snapshot : Snapshot) (actions : list PostCommitAction)
    (already_applied : bool) (fault : nat -> bool) : Rt S applied :=
  rt! _ := (if already_applied then rt_ret tt else begin_action_batch) in
  publish_from 0 snapshot actions already_applied fault.

Definition apply_runtime_snapshot (snapshot : Snapshot) (tombstones : list Z)
    (actions : list PostCommitAction) (before_actions : Rt S unit) (fault : nat -> bool) : Rt S applied :=
  rt_try (rt_read (preflight_owners actions))
    (rt_try (install_snapshot snapshot tombstones)
       (rt! _ := before_actions in publish_actions snapshot actions false fault)).

Definition no_fault : nat -> bool := fun _ => false.

Definition apply_prepared_with_fault (p : Prepared) (fault : nat -> bool) : Rt S applied :=
  rt_try (rt_read (require_character (prepared_guid p)))
    (apply_runtime_snapshot (runtime_snapshot p) (prepared_tombstones p) (prepared_actions p) (rt_ret tt) fault).

Definition apply_prepared (p : Prepared) : Rt S applied :=
  rt_try (rt_read (require_character (prepared_guid p))) (apply_prepared_with_fault p no_fault).

Definition apply_prepared_with_before_actions (p : Prepared) (before_actions : Rt S unit) : Rt S applied :=
  rt_try (rt_read (require_character (prepared_guid p)))
    (apply_runtime_snapshot (runtime_snapshot p) (prepared_tombstones p) (prepared_actions p) before_actions
       no_fault).

Definition install_prepared (p : Prepared) : Rt S (Prelude.result PreparedActions ApplyError) :=
  rt_try (rt_read (require_character (prepared_guid p)))
    (rt_try (rt_read (preflight_owners (prepared_actions p)))
       (rt_try (apply_runtime_snapshot (runtime_snapshot p) (prepared_tombstones p) [] (rt_ret tt) no_fault)
          (rt_try (apply_non_packet_runtime_actions (prepared_actions p))
             (rt_ret (Ok (mkPreparedActions (prepared_guid p) (runtime_snapshot p) (prepared_actions p) true)))))).

Definition validate_runtime (guid : option ObjectGuid) (actions : list PostCommitAction) (s : S) : applied :=
  match require_character guid s with Ok _ => preflight_owners actions s | Err e => Err e end.

Definition validate_prepared (p : Prepared) : S -> applied :=
  validate_runtime (prepared_guid p) (prepared_actions p).
Definition validate_prepared_actions (a : PreparedActions) : S -> applied :=
  validate_runtime (actions_guid a) (actions_list a).

Definition install_prepared_actions (a : PreparedActions) : Rt S (Prelude.result PreparedActions ApplyError) :=
  rt_try (rt_read (validate_prepared_actions a))
    (rt_try (apply_non_packet_runtime_actions (actions_list a))
       (rt_ret (Ok (a <| runtime_actions_already_applied := true |>)))).

(** The dirty snapshot, whose rows the next save writes. *)
Definition apply_prepared_before_save (p : Prepared) : Rt S applied :=
  rt_try (rt_read (require_character (prepared_guid p)))
    (apply_runtime_snapshot (pending_save_runtime_snapshot p) (prepared_tombstones p) (prepared_actions p)
       (rt_ret tt) no_fault).

Definition apply_prepared_actions (a : PreparedActions) : Rt S applied :=
  rt_try (rt_read (require_character (actions_guid a)))
    (rt_try (rt_read (preflight_owners (actions_list a)))
       (publish_actions (actions_snapshot a) (actions_list a) (runtime_actions_already_applied a) no_fault)).
End Apply.

(** * Offers (trainer_offer.rs) *)
Inductive HiddenReason : Set :=
  | MissingTrainerMembership | ClassOrRaceMismatch | ClassOrRaceIndeterminate | ConditionRejected
  | ConditionIndeterminate.
Inductive KnownReason : Set := DirectSourceSpell | AllValidWrapperTargets.
Inductive UnavailableReason : Type :=
  | InvalidEffectiveMetadata
  | RequiredSkill (skill_id required actual : Z)
  | RequiredAbility (spell_id index : Z)
  | RequiredLevel (required actual : Z)
  | UnavailableWrapper
  | BattlePetMetadataIndeterminate
  | AcquisitionIndeterminate (e : Indeterminate)
  | ProfessionCapacity (e : CapacityPlanError).

(** [PreparedTrainerOfferLikeCpp], [PreparedBattlePetTrainerOfferLikeCpp]. *)
Record TrainerOffer : Type := mkTrainerOffer
  { source_spell_id : Z; effective_price : Z; acquisition_plan : Plan; profession_plan : CapacityPlan;
    battle_pet_species_id : option Z }.
Record BattlePetOffer : Type := mkBattlePetOffer
  { pet_source_spell_id : Z; pet_effective_price : Z; species_id : Z }.

Inductive OfferDecision : Type :=
  | Hidden (r : HiddenReason) | Known (r : KnownReason) | Unavailable (r : UnavailableReason)
  | Available (o : TrainerOffer) | AvailableBattlePet (o : BattlePetOffer).

Inductive AdmissionProof : Set := Proven (b : bool) | ProofIndeterminate.
Inductive TrainerProduct : Set := Direct | Wrapper (valid_learn_targets : list Z) | InvalidOrUnsupportedWrapper.
Inductive BattlePetProof : Set := NotBattlePet | Species (species_id : Z) | PetIndeterminate.

Record OfferInput : Type := mkOfferInput
  { input_spell_id : Z; is_exact_member : bool; class_race : AdmissionProof; condition : AdmissionProof;
    directly_known : bool; required_skill : option (Z * Z); skill_value_of : Z -> option Z;
    required_abilities : list Z; knows : Z -> bool; required_level : Z; player_level : Z;
    product : TrainerProduct; battle_pet : BattlePetProof; input_price : Z }.

(** The first ability the player lacks, with its place. *)
Definition missing_ability (input : OfferInput) : option (Z * Z) :=
  entry ← find_first (fun e : nat * Z => Is_true (negb (e.2 =? 0) && negb (knows input e.2)))
            (imap pair (required_abilities input));
  Some (entry.2, wrap_u 8 (Z.of_nat entry.1)).

(** What the gates before the projection answer, or the root to project. *)
Definition offered_root (input : OfferInput) : OfferDecision + SpellAcquisitionRoot :=
  match product input with
  | Direct => inr (DirectLearn (input_spell_id input))
  | Wrapper targets =>
      if bool_decide (targets = []) then inl (Unavailable UnavailableWrapper)
      else if forallb (knows input) targets then inl (Known AllValidWrapperTargets)
      else inr (TrainerWrapperCast (input_spell_id input))
  | InvalidOrUnsupportedWrapper => inl (Unavailable UnavailableWrapper)
  end.

Definition lacks_skill (input : OfferInput) : option UnavailableReason :=
  match required_skill input with
  | Some (skill_id, required) =>
      let actual := default 0 (skill_value_of input skill_id) in
      if actual <? required then Some (RequiredSkill skill_id required actual) else None
  | None => None
  end.

Definition admission_gates (input : OfferInput) : OfferDecision + SpellAcquisitionRoot :=
  if negb (is_exact_member input) then inl (Hidden MissingTrainerMembership)
  else
    match class_race input with
    | Proven false => inl (Hidden ClassOrRaceMismatch)
    | ProofIndeterminate => inl (Hidden ClassOrRaceIndeterminate)
    | Proven true =>
        match condition input with
        | Proven false => inl (Hidden ConditionRejected)
        | ProofIndeterminate => inl (Hidden ConditionIndeterminate)
        | Proven true =>
            if directly_known input then inl (Known DirectSourceSpell)
            else
              match lacks_skill input with
              | Some reason => inl (Unavailable reason)
              | None =>
                  match missing_ability input with
                  | Some (spell_id, index) => inl (Unavailable (RequiredAbility spell_id index))
                  | None =>
                      if player_level input <? required_level input
                      then inl (Unavailable (RequiredLevel (required_level input) (player_level input)))
                      else offered_root input
                  end
              end
        end
    end.

(** The pet of a spell that is learned directly is sold in another way. *)
Definition pet_gate (input : OfferInput) (root : SpellAcquisitionRoot) : OfferDecision + option Z :=
  match battle_pet input with
  | NotBattlePet => inr None
  | Species species =>
      match root with
      | DirectLearn _ =>
          inl (AvailableBattlePet (mkBattlePetOffer (input_spell_id input) (input_price input) species))
      | TrainerWrapperCast _ => inr (Some species)
      end
  | PetIndeterminate => inl (Unavailable BattlePetMetadataIndeterminate)
  end.

Definition decide_trainer_offer (input : OfferInput) (project : SpellAcquisitionRoot -> Outcome)
    (capacity : list Z -> Prelude.result CapacityPlan CapacityPlanError) : OfferDecision :=
  match admission_gates input with
  | inl decision => decision
  | inr root =>
      match pet_gate input root with
      | inl decision => decision
      | inr species =>
          match project root with
          | OutcomeIndeterminate reason => Unavailable (AcquisitionIndeterminate reason)
          | Deterministic plan =>
              match capacity (root_primary_profession_skill_ids plan) with
              | Err reason => Unavailable (ProfessionCapacity reason)
              | Ok professions =>
                  Available (mkTrainerOffer (input_spell_id input) (input_price input) plan professions species)
              end
          end
      end
  end.

(** [ReputationRankLikeCpp], [rank as u8]. *)
Inductive ReputationRank : Set :=
  | Hated | Hostile | Unfriendly | Neutral | Friendly | Honored | Revered | Exalted.
Definition rank_as_u8 (r : ReputationRank) : Z :=
  match r with
  | Hated => 0 | Hostile => 1 | Unfriendly => 2 | Neutral => 3 | Friendly => 4 | Honored => 5
  | Revered => 6 | Exalted => 7
  end.

(** The literal 0.05, bits 0x3D4CCCCD. *)
Definition f32_0_05 : f32 := f32_from_bits 0x3D4CCCCD.

(** [x as u32] of a number that is not negative: rounds down, at most the maximum. *)
Definition f32_to_u32 (x : f32) : Z :=
  match x with
  | S754_finite false m e => Z.min u32_max (Z.shiftl (Z.pos m) e)
  | S754_infinity false => u32_max
  | _ => 0
  end.

Definition trainer_price (base_cost : Z) (rank : ReputationRank) : Z :=
  let discount :=
    if rank_as_u8 rank <=? rank_as_u8 Neutral then f32_one
    else SFsub 24 128 f32_one
           (f32_mul f32_0_05 (f32_of_Z (sat_sub (rank_as_u8 rank) (rank_as_u8 Neutral)))) in
  f32_to_u32 (f32_mul (f32_of_Z base_cost) discount).

(** * The purchase (trainer_purchase.rs) *)
Record Position : Type := mkPosition { position_x : f32; position_y : f32; position_z : f32; orientation : f32 }.

Record TrainerPublication : Type := mkPublication
  { trainer_guid : ObjectGuid; publication_player_guid : ObjectGuid; trainer_position : Position;
    suppress_visuals : bool }.

(** [TrainerAcquisitionRuntimeLikeCpp]; [X] is its [MoneyExclusion]. *)
Class TrainerRuntime (S X : Type) : Type :=
  { trainer_acquisition :: AcquisitionRuntime S;
    commit_acquisition : X -> option Prepared -> Z -> Z -> Rt S (option X);
    stage_money : Z -> Z -> Rt S bool;
    publish_money : Z -> Rt S unit;
    fence_instance_before_realm : Rt S bool;
    publish_visuals : TrainerPublication -> Rt S unit;
    fence_realm_before_instance : Rt S bool;
    publish_skills : Rt S unit }.

Inductive TrainerResult : Set :=
  | PurchaseApplied | InvalidPreparation | PersistenceUnavailable | RuntimeInstallationFailed
  | MoneyOwnerUnavailable | WriterFenceFailed | PublicationFailed.
#[export] Instance trainer_result_eq_dec : EqDecision TrainerResult.
Proof. solve_decision. Defined.

Inductive PreparedPurchase : Type :=
  | Durable (p : Prepared) | OnlyActions (a : PreparedActions) | Nothing.

Definition prepared_purchase (o : TrainerOffer) (snapshot : Snapshot) : option PreparedPurchase :=
  match prepare (acquisition_plan o) (profession_plan o) snapshot with
  | Ok (Ready p) => Some (Durable p)
  | Ok (ActionsOnly guid runtime actions already) => Some (OnlyActions (mkPreparedActions guid runtime actions already))
  | Ok NoChange => Some Nothing
  | Ok AlreadyApplied | Err _ => None
  end.

Definition durable_part (p : PreparedPurchase) : option Prepared :=
  match p with Durable p => Some p | _ => None end.

Definition skills_change (p : PreparedPurchase) : bool :=
  match p with
  | Durable p => negb (bool_decide (skills (prepared_source p) = skills (runtime_snapshot p)))
  | _ => false
  end.

Section Purchase.
Context {S X : Type} `{TrainerRuntime S X}.

Definition validate_purchase (p : PreparedPurchase) (s : S) : applied :=
  match p with
  | Durable p => validate_prepared p s
  | OnlyActions a => validate_prepared_actions a s
  | Nothing => Ok tt
  end.

Definition install_purchase (p : PreparedPurchase) :
    Rt S (Prelude.result (option PreparedActions) ApplyError) :=
  let some (m : Rt S (Prelude.result PreparedActions ApplyError)) :=
    rt! r := m in rt_ret (match r with Ok a => Ok (Some a) | Err e => Err e end) in
  match p with
  | Durable p => some (install_prepared p)
  | OnlyActions a => some (install_prepared_actions a)
  | Nothing => rt_ret (Ok None)
  end.

(** From the visuals on: the two fences order the packets of the two sockets. *)
Definition publish_purchase (publication : TrainerPublication) (skills_changed : bool)
    (actions : option PreparedActions) : Rt S TrainerResult :=
  rt! fenced := fence_instance_before_realm in
  if negb fenced then rt_ret WriterFenceFailed
  else
    rt! _ := publish_visuals publication in
    rt! fenced := fence_realm_before_instance in
    if negb fenced then rt_ret WriterFenceFailed
    else
      rt! _ := (if skills_changed then publish_skills else rt_ret tt) in
      match actions with
      | None => rt_ret PurchaseApplied
      | Some actions =>
          rt! r := apply_prepared_actions actions in
          rt_ret (match r with Ok _ => PurchaseApplied | Err _ => PublicationFailed end)
      end.

(** The result, and the exclusion if it is still held. *)
Definition execute_trainer_acquisition (exclusion : X) (o : TrainerOffer) (snapshot : Snapshot)
    (before after : Z) (publication : TrainerPublication) : Rt S (TrainerResult * option X) :=
  match prepared_purchase o snapshot with
  | None => rt_ret (InvalidPreparation, Some exclusion)
  | Some p =>
      rt! valid := rt_read (validate_purchase p) in
      match valid with
      | Err _ => rt_ret (InvalidPreparation, Some exclusion)
      | Ok _ =>
          rt! exclusion := commit_acquisition exclusion (durable_part p) before after in
          match exclusion with
          | None => rt_ret (PersistenceUnavailable, None)
          | Some exclusion =>
              rt! installed := install_purchase p in
              match installed with
              | Err _ => rt_ret (RuntimeInstallationFailed, Some exclusion)
              | Ok actions =>
                  rt! staged := stage_money before after in
                  if negb staged then rt_ret (MoneyOwnerUnavailable, Some exclusion)
                  else
                    rt! _ := (if before =? after then rt_ret tt else publish_money after) in
                    rt! r := publish_purchase publication (skills_change p) actions in
                    rt_ret (r, Some exclusion)
              end
          end
      end
  end.
End Purchase.

(** * What a purchase asks of the session *)
Inductive Call : Type :=
  | CallCommit (durable : option Prepared) (before after : Z)
  | CallInstall (snapshot : Snapshot) (tombstones : list Z)
  | CallBeginBatch | CallRecord (a : PostCommitAction) | CallGrantDualWield
  | CallPublish (a : PostCommitAction) (trait_definition_id : option Z)
  | CallStageMoney (before after : Z) | CallPublishMoney (after : Z)
  | CallFenceInstance | CallVisuals (p : TrainerPublication) | CallFenceRealm | CallSkills.

(** The calls made, each with whether it succeeded. *)
Abbreviation Log := (list (Call * bool)).

(** A session that keeps a log beside what it does. *)
Definition logged {S A} (c : Call) (ok : A -> bool) (m : Rt S A) : Rt (S * Log) A := fun t =>
  match m t.1 with Some (s, a) => Some ((s, t.2 ++ [(c, ok a)]), a) | None => None end.
Definition succeeds {A E} (r : Prelude.result A E) : bool := match r with Ok _ => true | Err _ => false end.

#[export] Instance logged_acquisition {S} `{AcquisitionRuntime S} : AcquisitionRuntime (S * Log) :=
  {| runtime_guid t := runtime_guid t.1;
     has_canonical_player t := has_canonical_player t.1;
     install_snapshot s l := logged (CallInstall s l) succeeds (install_snapshot s l);
     begin_action_batch := logged CallBeginBatch (fun _ => true) begin_action_batch;
     record_action a := logged (CallRecord a) (fun _ => true) (record_action a);
     grant_dual_wield := logged CallGrantDualWield id grant_dual_wield;
     publish_action a d := logged (CallPublish a d) (fun _ => true) (publish_action a d) |}.

#[export] Instance logged_runtime {S X} `{TrainerRuntime S X} : TrainerRuntime (S * Log) X :=
  {| trainer_acquisition := logged_acquisition;
     commit_acquisition x p before after :=
       logged (CallCommit p before after) (fun x => bool_decide (is_Some x)) (commit_acquisition x p before after);
     stage_money before after := logged (CallStageMoney before after) id (stage_money (X := X) before after);
     publish_money after := logged (CallPublishMoney after) (fun _ => true) (publish_money (X := X) after);
     fence_instance_before_realm := logged CallFenceInstance id (fence_instance_before_realm (X := X));
     publish_visuals p := logged (CallVisuals p) (fun _ => true) (publish_visuals (X := X) p);
     fence_realm_before_instance := logged CallFenceRealm id (fence_realm_before_instance (X := X));
     publish_skills := logged CallSkills (fun _ => true) (publish_skills (X := X)) |}.

(** ** The script of a purchase *)
(** A call that cannot fail, a call whose failure ends the purchase, and a check
    of the session's player, which leaves no call behind. *)
Inductive Step : Type :=
  | Do (c : Call) | Must (c : Call) (failure : TrainerResult) | Owner (failure : TrainerResult).

Inductive follows : list Step -> Log -> TrainerResult -> Prop :=
  | follows_end : follows [] [] PurchaseApplied
  | follows_do c l log r : follows l log r -> follows (Do c :: l) ((c, true) :: log) r
  | follows_must c f l log r : follows l log r -> follows (Must c f :: l) ((c, true) :: log) r
  | follows_failure c f l : follows (Must c f :: l) [(c, false)] f
  | follows_owner f l log r : follows l log r -> follows (Owner f :: l) log r
  | follows_lost f l : follows (Owner f :: l) [] f.

Definition grant_steps (actions : list PostCommitAction) : list Step :=
  map (fun _ => Must CallGrantDualWield RuntimeInstallationFailed)
    (filter (fun a => Is_true (grants_dual_wield a)) actions).
Definition publish_steps (snapshot : Snapshot) (actions : list PostCommitAction) : list Step :=
  map (fun a => Do (CallPublish a (published_trait snapshot a)))
    (filter (fun a => Is_true (negb (grants_dual_wield a))) actions).

Definition runtime_steps (actions : list PostCommitAction) : list Step :=
  grant_steps actions ++ [Do CallBeginBatch] ++ map (fun a => Do (CallRecord a)) actions.

Definition install_steps (p : PreparedPurchase) : list Step :=
  match p with
  | Durable p =>
      [Owner RuntimeInstallationFailed;
       Must (CallInstall (runtime_snapshot p) (prepared_tombstones p)) RuntimeInstallationFailed;
       Do CallBeginBatch] ++ runtime_steps (prepared_actions p)
  | OnlyActions a => Owner RuntimeInstallationFailed :: runtime_steps (actions_list a)
  | Nothing => []
  end.

Definition publication_steps (p : PreparedPurchase) : list Step :=
  match p with
  | Durable p => Owner PublicationFailed :: publish_steps (runtime_snapshot p) (prepared_actions p)
  | OnlyActions a => Owner PublicationFailed :: publish_steps (actions_snapshot a) (actions_list a)
  | Nothing => []
  end.

Definition purchase_steps (p : PreparedPurchase) (before after : Z) (publication : TrainerPublication) :
    list Step :=
  [Owner InvalidPreparation; Must (CallCommit (durable_part p) before after) PersistenceUnavailable]
  ++ install_steps p
  ++ [Must (CallStageMoney before after) MoneyOwnerUnavailable]
  ++ (if before =? after then [] else [Do (CallPublishMoney after)])
  ++ [Must CallFenceInstance WriterFenceFailed; Do (CallVisuals publication);
      Must CallFenceRealm WriterFenceFailed]
  ++ (if skills_change p then [Do CallSkills] else [])
  ++ publication_steps p.

(** * Runs and their logs *)
Section Runs.
Context {S X : Type} `{HR : TrainerRuntime S X}.

(** [m'], the computation with a log, does what [m] does, and what it adds to
    the log is allowed by [P]. *)
Definition yields {A} (m : Rt S A) (m' : Rt (S * Log) A) (P : A -> Log -> Prop) : Prop :=
  forall s log, match m s with
                | Some (s', a) => exists l, m' (s, log) = Some ((s', log ++ l), a) /\ P a l
                | None => m' (s, log) = None
                end.

Lemma yields_ret {A} (a : A) (P : A -> Log -> Prop) : P a [] -> yields (rt_ret a) (rt_ret a) P.
Proof. intros H s log. exists []. by rewrite app_nil_r. Qed.

Lemma yields_read {A} (f : S -> A) (P : A -> Log -> Prop) :
  (forall a, P a []) -> yields (rt_read f) (rt_read (fun t => f t.1)) P.
Proof. intros H s log. exists []. by rewrite app_nil_r. Qed.

Lemma yields_call {A} c ok (m : Rt S A) (P : A -> Log -> Prop) :
  (forall a, P a [(c, ok a)]) -> yields m (logged c ok m) P.
Proof. intros H s log. unfold logged. cbn. destruct (m s) as [[s' a]|]; [|done]. eauto. Qed.

Lemma yields_bind {A B} (m : Rt S A) m' (k : A -> Rt S B) k' P Q :
  yields m m' P ->
  (forall a l, P a l -> yields (k a) (k' a) (fun b l' => Q b (l ++ l'))) ->
  yields (rt_bind m k) (rt_bind m' k') Q.
Proof.
  intros Hm Hk s log. unfold rt_bind. specialize (Hm s log). destruct (m s) as [[s1 a]|].
  - destruct Hm as (l & -> & Ha). specialize (Hk a l Ha s1 (log ++ l)).
    destruct (k a s1) as [[s2 b]|]; [|done]. destruct Hk as (l' & -> & Hb).
    exists (l ++ l'). by rewrite app_assoc.
  - by rewrite Hm.
Qed.

Lemma yields_mono {A} (m : Rt S A) m' (P Q : A -> Log -> Prop) :
  (forall a l, P a l -> Q a l) -> yields m m' P -> yields m m' Q.
Proof.
  intros HPQ H s log. specialize (H s log). destruct (m s) as [[s' a]|]; [|done].
  destruct H as (l & E & Ha). eauto.
Qed.

(** ** Logs of the beginning of a script *)
Definition passes (l : list Step) (log : Log) : Prop :=
  forall rest log' r, follows rest log' r -> follows (l ++ rest) (log ++ log') r.
Definition stops (l : list Step) (log : Log) (r : TrainerResult) : Prop :=
  forall rest, follows (l ++ rest) log r.

Lemma passes_nil : passes [] [].
Proof. by intros rest log' r. Qed.
Lemma passes_app l1 l2 log1 log2 : passes l1 log1 -> passes l2 log2 -> passes (l1 ++ l2) (log1 ++ log2).
Proof. intros H1 H2 rest log' r H. rewrite <- !app_assoc. by apply H1, H2. Qed.
Lemma stops_app l1 l2 log1 log2 r : passes l1 log1 -> stops l2 log2 r -> stops (l1 ++ l2) (log1 ++ log2) r.
Proof. intros H1 H2 rest. rewrite <- app_assoc. by apply H1, H2. Qed.
Lemma stops_more l1 l2 log r : stops l1 log r -> stops (l1 ++ l2) log r.
Proof. intros H rest. rewrite <- app_assoc. apply H. Qed.
Lemma passes_do c : passes [Do c] [(c, true)].
Proof. intros rest log' r H. by constructor. Qed.
Lemma passes_must c f : passes [Must c f] [(c, true)].
Proof. intros rest log' r H. by constructor. Qed.
Lemma passes_owner f : passes [Owner f] [].
Proof. intros rest log' r H. by constructor. Qed.
Lemma stops_must c f : stops [Must c f] [(c, false)] f.
Proof. intros rest. constructor. Qed.
Lemma stops_owner f : stops [Owner f] [] f.
Proof. intros rest. apply follows_lost. Qed.

(** What a part of the purchase leaves in the log: all its steps, or those up to
    the one that failed. *)
Definition part {A E} (l : list Step) (f : TrainerResult) (r : Prelude.result A E) (log : Log) : Prop :=
  match r with Ok _ => passes l log | Err _ => stops l log f end.

Lemma part_check {A E} (r : Prelude.result A E) f : part [Owner f] f r [].
Proof. destruct r; [apply passes_owner|apply stops_owner]. Qed.

(** [yields] of a part followed by the rest of its function. *)
Lemma yields_try {B} (m : Rt S applied) m' (k : Rt S (Prelude.result B ApplyError)) k' l1 l2 f :
  yields m m' (part l1 f) -> yields k k' (part l2 f) ->
  yields (rt_try m k) (rt_try m' k') (part (l1 ++ l2) f).
Proof.
  intros Hm Hk. eapply yields_bind; [exact Hm|]. intros [[]|e] log H.
  - eapply yields_mono; [|exact Hk]. intros [b|e] log' H'; [by apply passes_app|by apply stops_app].
  - apply yields_ret. rewrite app_nil_r. by apply stops_more.
Qed.

Lemma yields_check {B} (g : S -> applied) (k : Rt S (Prelude.result B ApplyError)) k' l f :
  yields k k' (part l f) ->
  yields (rt_try (rt_read g) k) (rt_try (rt_read (fun t => g t.1)) k') (part (Owner f :: l) f).
Proof.
  intros Hk. apply (yields_try _ _ _ _ [Owner f] l f); [|done]. apply yields_read. intros r. apply part_check.
Qed.

Lemma grant_all_yields actions :
  yields (grant_all actions) (grant_all actions) (part (grant_steps actions) RuntimeInstallationFailed).
Proof.
  unfold grant_steps. induction actions as [|a actions IH]; [apply yields_ret, passes_nil|].
  cbn [grant_all]. rewrite filter_cons. destruct (grants_dual_wield a); cbn [decide].
  - rewrite decide_True by done. cbn [map].
    eapply yields_bind; [by apply (yields_call _ _ _ (fun b log => log = [(CallGrantDualWield, b)]))|].
    intros [] log ->.
    + eapply yields_mono; [|exact IH]. intros [u|e] log' H'.
      * apply (passes_app [_] _ [_]); [apply passes_must|exact H'].
      * apply (stops_app [_] _ [_]); [apply passes_must|exact H'].
    + apply yields_ret. cbn [app]. apply (stops_more [_]), stops_must.
  - by rewrite decide_False by (by intros []).
Qed.

Lemma do_call {B} c (m : Rt S unit) (k : Rt S B) k' (P : list Step -> B -> Log -> Prop) l :
  (forall b log, P l b log -> P (Do c :: l) b ((c, true) :: log)) ->
  yields k k' (P l) ->
  yields (rt_bind m (fun _ => k)) (rt_bind (logged c (fun _ => true) m) (fun _ => k')) (P (Do c :: l)).
Proof.
  intros HP Hk. eapply yields_bind; [by apply (yields_call _ _ _ (fun _ log => log = [(c, true)]))|].
  intros [] log ->. eapply yields_mono; [|exact Hk]. intros b log' H'. by apply HP.
Qed.

Lemma part_do {A E} c l f (r : Prelude.result A E) log : part l f r log -> part (Do c :: l) f r ((c, true) :: log).
Proof.
  destruct r; intros H'; [apply (passes_app [_] _ [_])|apply (stops_app [_] _ [_])]; by apply passes_do || exact H'.
Qed.

Lemma record_all_yields {B} actions (k : Rt S (Prelude.result B ApplyError)) k' l f :
  yields k k' (part l f) ->
  yields (rt_bind (record_all actions) (fun _ => k)) (rt_bind (record_all actions) (fun _ => k'))
    (part (map (fun a => Do (CallRecord a)) actions ++ l) f).
Proof.
  intros Hk. eapply yields_bind with (P := fun _ => passes (map (fun a => Do (CallRecord a)) actions)).
  - induction actions as [|a actions IH]; [apply yields_ret, passes_nil|].
    apply (do_call (CallRecord a) (record_action a) (record_all actions) (record_all actions) (fun l _ => passes l)); [|done].
    intros _ log H'. apply (passes_app [_] _ [_]); [apply passes_do|exact H'].
  - intros _ log H'. eapply yields_mono; [|exact Hk]. intros [b|e] log'; [by apply passes_app|by apply stops_app].
Qed.

Lemma runtime_actions_yields actions :
  yields (apply_non_packet_runtime_actions actions) (apply_non_packet_runtime_actions actions)
    (part (runtime_steps actions) RuntimeInstallationFailed).
Proof.
  apply yields_try; [apply grant_all_yields|].
  apply (do_call CallBeginBatch begin_action_batch _ _ (fun l => part l RuntimeInstallationFailed)).
  { intros b log. apply part_do. }
  rewrite <- (app_nil_r (map _ actions)). apply record_all_yields. apply yields_ret, passes_nil.
Qed.

Lemma publish_from_yields index snapshot actions f :
  yields (publish_from index snapshot actions true no_fault) (publish_from index snapshot actions true no_fault)
    (part (publish_steps snapshot actions) f).
Proof.
  unfold publish_steps. revert index. induction actions as [|a actions IH]; intros index; [apply yields_ret, passes_nil|].
  cbn [publish_from no_fault rt_bind rt_ret]. rewrite filter_cons. destruct (grants_dual_wield a).
  - rewrite decide_False by (by intros []). apply IH.
  - rewrite decide_True by done.
    apply (do_call (CallPublish a (published_trait snapshot a)) (publish_action a (published_trait snapshot a)) _ _ (fun l => part l f)); [|apply IH].
    intros b log. apply part_do.
Qed.

Lemma install_snapshot_yields p :
  yields (apply_runtime_snapshot (runtime_snapshot p) (prepared_tombstones p) [] (rt_ret tt) no_fault)
    (apply_runtime_snapshot (runtime_snapshot p) (prepared_tombstones p) [] (rt_ret tt) no_fault)
    (part [Must (CallInstall (runtime_snapshot p) (prepared_tombstones p)) RuntimeInstallationFailed; Do CallBeginBatch]
       RuntimeInstallationFailed).
Proof.
  set (s := runtime_snapshot p). set (ids := prepared_tombstones p).
  assert (E : forall T (HT : AcquisitionRuntime T),
    apply_runtime_snapshot s ids [] (rt_ret tt) no_fault
    = rt_try (install_snapshot s ids) (rt_bind begin_action_batch (fun _ => rt_ret (Ok tt)))) by done.
  rewrite !E. apply (yields_try _ _ _ _ [_] [_]).
  - apply yields_call. intros [u|e]; [apply passes_must|apply stops_must].
  - apply (do_call CallBeginBatch begin_action_batch _ _ (fun l => part l RuntimeInstallationFailed)).
    { intros b log. apply part_do. }
    apply yields_ret, passes_nil.
Qed.

(** What an installed purchase is published with. *)
Definition installs (p : PreparedPurchase) (a : option PreparedActions) : Prop :=
  match p, a with
  | Durable p, Some a => a = mkPreparedActions (prepared_guid p) (runtime_snapshot p) (prepared_actions p) true
  | OnlyActions b, Some a => a = b <| runtime_actions_already_applied := true |>
  | Nothing, None => True
  | _, _ => False
  end.

Lemma rt_try_Ok {T B} (m : Rt T applied) (k : Rt T (Prelude.result B ApplyError)) s s' b :
  rt_try m k s = Some (s', Ok b) -> exists s1, k s1 = Some (s', Ok b).
Proof.
  unfold rt_try, rt_bind. destruct (m s) as [[s1 [u|e]]|]; [eauto|discriminate..].
Qed.

Lemma yields_value {A} (m : Rt S (Prelude.result A ApplyError)) m' l f (Q : A -> Prop) :
  (forall s s' a, m s = Some (s', Ok a) -> Q a) -> yields m m' (part l f) ->
  yields m m' (fun r log => part l f r log /\ match r with Ok a => Q a | Err _ => True end).
Proof.
  intros HQ H s log. specialize (H s log). destruct (m s) as [[s' [a|e]]|] eqn:E; [| |done];
    destruct H as (l' & E' & Ha); exists l'; [by eauto|done].
Qed.

Lemma yields_check_again {B} (g : S -> applied) (k : Rt S (Prelude.result B ApplyError)) k' l f :
  yields k k' (part (Owner f :: l) f) ->
  yields (rt_try (rt_read g) k) (rt_try (rt_read (fun t => g t.1)) k') (part (Owner f :: l) f).
Proof.
  intros Hk. apply (yields_bind _ _ _ _ (fun _ log => log = [])); [by apply yields_read|].
  intros [[]|e] log ->; [exact Hk|]. apply yields_ret. apply (stops_more [_]), stops_owner.
Qed.

Lemma install_prepared_yields p :
  yields (install_prepared p) (install_prepared p) (part (install_steps (Durable p)) RuntimeInstallationFailed).
Proof.
  cbn [install_steps app]. apply yields_check_again, yields_check.
  apply (yields_try _ _ _ _ [_; _]); [apply install_snapshot_yields|].
  rewrite <- (app_nil_r (runtime_steps _)). apply yields_try; [apply runtime_actions_yields|apply yields_ret, passes_nil].
Qed.

Lemma install_actions_yields a :
  yields (install_prepared_actions a) (install_prepared_actions a)
    (part (install_steps (OnlyActions a)) RuntimeInstallationFailed).
Proof.
  cbn [install_steps]. apply yields_check.
  rewrite <- (app_nil_r (runtime_steps _)). apply yields_try; [apply runtime_actions_yields|apply yields_ret, passes_nil].
Qed.

Lemma install_purchase_yields p :
  yields (install_purchase p) (install_purchase p)
    (fun r log => part (install_steps p) RuntimeInstallationFailed r log
                  /\ match r with Ok a => installs p a | Err _ => True end).
Proof.
  destruct p as [p|a|]; cbn [install_purchase].
  - eapply yields_bind.
    + apply (yields_value _ _ (install_steps (Durable p)) RuntimeInstallationFailed (fun a => installs (Durable p) (Some a))); [|apply install_prepared_yields].
      intros s s' a E. do 4 (apply rt_try_Ok in E as [? E]). by injection E as _ <-.
    + intros [b|e] log H'; apply yields_ret; by rewrite app_nil_r.
  - eapply yields_bind.
    + apply (yields_value _ _ (install_steps (OnlyActions a)) RuntimeInstallationFailed (fun b => installs (OnlyActions a) (Some b))); [|apply install_actions_yields].
      intros s s' b E. do 2 (apply rt_try_Ok in E as [? E]). by injection E as _ <-.
    + intros [b|e] log H'; apply yields_ret; by rewrite app_nil_r.
  - apply yields_ret. split; [apply passes_nil|done].
Qed.

(** ** After the installation *)
Lemma apply_actions_yields p a f :
  installs p (Some a) -> f = PublicationFailed ->
  yields (apply_prepared_actions a) (apply_prepared_actions a) (part (publication_steps p) f).
Proof.
  intros Hi ->. destruct p as [p|b|]; cbn in Hi; [subst a|subst a|done]; cbn [publication_steps].
  - apply yields_check_again, yields_check. apply publish_from_yields.
  - apply yields_check_again, yields_check. apply publish_from_yields.
Qed.

Lemma follows_if (b : bool) c l log r :
  follows l log r ->
  follows ((if b then [Do c] else []) ++ l) ((if b then [(c, true)] else []) ++ log) r.
Proof. intros H'. destruct b; [by constructor|done]. Qed.

(** A boolean answer that ends the function where it is false. *)
Lemma yields_must {B} c (m : Rt S bool) (k1 k2 : Rt S B) k1' k2' l f (res : B -> TrainerResult) :
  yields k1 k1' (fun b log => log = [] /\ res b = f) ->
  yields k2 k2' (fun b log => follows l log (res b)) ->
  yields (rt_bind m (fun ok => if negb ok then k1 else k2))
    (rt_bind (logged c id m) (fun ok => if negb ok then k1' else k2'))
    (fun b log => follows (Must c f :: l) log (res b)).
Proof.
  intros H1 H2. eapply yields_bind; [by apply (yields_call _ _ _ (fun ok log => log = [(c, ok)]))|].
  intros [] log ->; cbn [negb].
  - eapply yields_mono; [|exact H2]. intros b log'. by apply follows_must.
  - eapply yields_mono; [|exact H1]. intros b log' [-> ->]. constructor.
Qed.

Lemma yields_if {B} (b : bool) c (m : Rt S unit) (k : Rt S B) k' l (res : B -> TrainerResult) :
  yields k k' (fun a log => follows l log (res a)) ->
  yields (rt_bind (if b then m else rt_ret tt) (fun _ => k))
    (rt_bind (if b then logged c (fun _ => true) m else rt_ret tt) (fun _ => k'))
    (fun a log => follows ((if b then [Do c] else []) ++ l) log (res a)).
Proof.
  intros Hk. apply (yields_bind _ _ _ _ (fun _ log => log = if b then [(c, true)] else [])).
  - destruct b; [by apply yields_call|by apply yields_ret].
  - intros u log ->. eapply yields_mono; [|exact Hk]. intros a log'. apply follows_if.
Qed.

Lemma publish_purchase_yields p publication actions :
  installs p actions ->
  yields (publish_purchase publication (skills_change p) actions)
    (publish_purchase publication (skills_change p) actions)
    (fun r log => follows
       ([Must CallFenceInstance WriterFenceFailed; Do (CallVisuals publication);
         Must CallFenceRealm WriterFenceFailed]
        ++ (if skills_change p then [Do CallSkills] else []) ++ publication_steps p) log r).
Proof.
  intros Hi. unfold publish_purchase. cbn [app].
  apply (yields_must _ _ _ _ _ _ _ _ id); [by apply yields_ret|].
  apply (do_call _ _ _ _ (fun l r log => follows l log r)); [intros; by constructor|].
  apply (yields_must _ _ _ _ _ _ _ _ id); [by apply yields_ret|].
  apply (yields_if _ _ _ _ _ _ id). destruct actions as [a|].
  - apply (yields_bind _ _ _ _ (part (publication_steps p) PublicationFailed)); [by apply apply_actions_yields|].
    intros [u|e] log H'; apply yields_ret.
    + specialize (H' [] [] PurchaseApplied). rewrite app_nil_r in H'. apply H'. constructor.
    + specialize (H' []). by rewrite !app_nil_r in *.
  - destruct p; try done. apply yields_ret. constructor.
Qed.
End Runs.

Section Execution.
Context {S X : Type} `{HR : TrainerRuntime S X}.

Lemma validate_yields p (P : applied -> Log -> Prop) :
  (forall r, P r []) -> yields (rt_read (validate_purchase p)) (rt_read (validate_purchase p)) P.
Proof. intros H s log. exists []. rewrite app_nil_r. split; [by destruct p|apply H]. Qed.

Lemma publish_purchase_result publication changed actions s s' r :
  publish_purchase publication changed actions s = Some (s', r) -> r <> PersistenceUnavailable.
Proof.
  unfold publish_purchase, rt_bind, rt_ret. intros E. by repeat case_match; simplify_eq.
Qed.

Lemma yields_and {A} (m : Rt S A) m' (P : A -> Log -> Prop) (Q : A -> Prop) :
  (forall s s' a, m s = Some (s', a) -> Q a) -> yields m m' P -> yields m m' (fun a log => P a log /\ Q a).
Proof.
  intros HQ H s log. specialize (H s log). destruct (m s) as [[s' a]|] eqn:E; [|done].
  destruct H as (l & E' & Ha). eauto 6.
Qed.

(** From the money on. *)
Definition settle_steps (p : PreparedPurchase) (before after : Z) (publication : TrainerPublication) : list Step :=
  [Must (CallStageMoney before after) MoneyOwnerUnavailable]
  ++ (if before =? after then [] else [Do (CallPublishMoney after)])
  ++ [Must CallFenceInstance WriterFenceFailed; Do (CallVisuals publication);
      Must CallFenceRealm WriterFenceFailed]
  ++ (if skills_change p then [Do CallSkills] else []) ++ publication_steps p.

Lemma settle_yields p (x : X) before after publication actions :
  installs p actions ->
  let settle T (R : TrainerRuntime T X) :=
    rt! staged := stage_money before after in
    if negb staged then rt_ret (MoneyOwnerUnavailable, Some x)
    else
      rt! _ := (if before =? after then rt_ret tt else publish_money after) in
      rt! r := publish_purchase publication (skills_change p) actions in
      rt_ret (r, Some x) in
  yields (settle S _) (settle (S * Log)%type _)
    (fun a log => follows (settle_steps p before after publication) log a.1
                  /\ (a.2 = None <-> a.1 = PersistenceUnavailable)).
Proof.
  intros Hi settle. apply (yields_and _ _ (fun a log => follows (settle_steps p before after publication) log a.1)).
  - intros s s' a E. subst settle. unfold rt_bind, rt_ret in E. repeat case_match; simplify_eq; cbn;
      (split; [done|]); try done; intros ->; exfalso; by eapply publish_purchase_result.
  - apply (yields_must _ _ _ _ _ _ _ _ fst); [by apply yields_ret|].
    apply (yields_bind _ _ _ _ (fun _ => passes (if before =? after then [] else [Do (CallPublishMoney after)]))).
    { case_match; [apply yields_ret, passes_nil|]. apply (yields_call (CallPublishMoney after)). intros _. apply passes_do. }
    intros _ log H1. eapply yields_bind; [by apply publish_purchase_yields|].
    intros r log' H2. apply yields_ret. rewrite app_nil_r. by apply H1.
Qed.

Lemma execute_yields x o snapshot before after publication p :
  prepared_purchase o snapshot = Some p ->
  yields (execute_trainer_acquisition x o snapshot before after publication)
    (execute_trainer_acquisition x o snapshot before after publication)
    (fun a log => follows (purchase_steps p before after publication) log a.1
                  /\ (a.2 = None <-> a.1 = PersistenceUnavailable)).
Proof.
  intros Hp. unfold execute_trainer_acquisition. rewrite Hp.
  eapply yields_bind; [by apply (validate_yields p (fun _ log => log = []))|].
  intros [u|e] log ->; cbn [app]; [|apply yields_ret; split; [apply follows_lost|done]].
  eapply yields_bind; [by apply (yields_call _ _ _ (fun x log => log = [(CallCommit (durable_part p) before after, bool_decide (is_Some x))]))|].
  intros [y|] log ->; [rewrite bool_decide_true by done|];
    [|apply yields_ret; split; [apply follows_owner, follows_failure|done]].
  eapply yields_bind; [apply install_purchase_yields|].
  intros [actions|e] log [H1 H2];
    [|apply yields_ret; split; [|done]; apply follows_owner, follows_must; rewrite app_nil_r; apply H1].
  eapply yields_mono; [|by apply settle_yields].
  intros a log' [H3 H4]. split; [|done]. apply follows_owner, follows_must. by apply H1.
Qed.
End Execution.

(** C17: What a purchase asks of the session, and in which order.  Whatever the
    session does with its calls, they are those of the script, each made once and
    only after the one before it succeeded: the commit first, then the snapshot,
    the dual wields, the money, and nothing is sent before the commit; the first
    call that fails is the last one, and the result names it.  The money exclusion
    is kept to the end unless the commit took it.  What cannot be prepared reaches
    the session not at all. *)
Theorem purchase_follows_script {S X : Type} {HR : TrainerRuntime S X} (x : X) (o : TrainerOffer)
    (snapshot : Snapshot) (before after : Z) (publication : TrainerPublication) (s : S) :
  match prepared_purchase o snapshot with
  | None => execute_trainer_acquisition x o snapshot before after publication s
            = Some (s, (InvalidPreparation, Some x))
  | Some p =>
      match execute_trainer_acquisition x o snapshot before after publication s with
      | None => execute_trainer_acquisition x o snapshot before after publication (s, []) = None
      | Some (s', (r, kept)) =>
          exists log,
            execute_trainer_acquisition x o snapshot before after publication (s, []) = Some ((s', log), (r, kept))
            /\ follows (purchase_steps p before after publication) log r
            /\ (kept = None <-> r = PersistenceUnavailable)
      end
  end.
Proof.
  destruct (prepared_purchase o snapshot) as [p|] eqn:Hp.
  - pose proof (execute_yields x o snapshot before after publication p Hp s []) as H. cbn [app] in H.
    by destruct (execute_trainer_acquisition x o snapshot before after publication s) as [[s' [r kept]]|].
  - unfold execute_trainer_acquisition. by rewrite Hp.
Qed.
