(* ===== verification/SpellSession.v ===== *)
(** The session a purchase is made in: the part of a player that an acquisition
    changes (wow-entities/src/player/progression.rs, spell_runtime.rs), how the
    session reads it into a snapshot and installs one (wow-world/src/
    spell_acquisition/adapter.rs and runtime_adapter.rs, session/spell_state/
    acquisition.rs), how it commits (session/persistence/commit.rs), and the end of
    the handler of a purchase (handlers/trainer.rs).

    The session implements the interface of SpellTrainer.v.  The outside decides how a
    transaction ends, whether the map still has the player after it, and whether a
    socket is drained; it is the [Outside] of a purchase.  The records and states of
    the session (Represented...) are those of the player under other names, so they
    are not kept apart; auras, the registry of players and the quest objectives that
    a change of money completes are left out. *)
From stdpp Require Import sorting.
From S2P Require Import Prelude BTree Guid SpellCatalog SpellModel SpellPlanner SpellPlannerSpell Profession SpellReplay SpellApply SpellTrainer.

(** * The player *)
(** [PlayerKnownSpellRecord]: the id is an [i32]. *)
Record KnownSpell : Type := mkKnownSpell
  { known_id : Z; known_state : SpellState.t; known_active : bool; known_disabled : bool;
    known_favorite : bool; known_dependent : bool }.

(** [PlayerSkillRecord]. *)
Record SkillRecord : Type := mkSkillRecord
  { skill_line_id : Z; current_value : Z; max_value : Z; record_step : Z; record_slot : Z;
    record_state : SkillState.t }.

Record Player : Type := mkPlayer
  { known_spells : list Z; player_rows : gmap Z KnownSpell; rows_loaded : bool; rows_complete : bool;
    fallback_rows : gmap Z KnownSpell; dependent_known_spells : gset Z; removed_known_spells : gset Z; favorite_known_spells : gset Z;
    trait_definition_ids : gmap Z Z; trait_definition_ids_complete : bool;
    override_spells : gmap Z (gset Z); override_spells_complete : bool;
    player_skills : list SkillRecord; skills_loaded : bool; skills_complete : bool;
    player_occupied_slots : option Z; non_durable_skill_tombstones : gset Z;
    player_money : Z; can_dual_wield : bool }.
#[export] Instance eta_player : Eta Player := fun p =>
  mkPlayer (known_spells p) (player_rows p) (rows_loaded p) (rows_complete p) (fallback_rows p)
    (dependent_known_spells p) (removed_known_spells p) (favorite_known_spells p) (trait_definition_ids p) (trait_definition_ids_complete p)
    (override_spells p) (override_spells_complete p) (player_skills p) (skills_loaded p) (skills_complete p)
    (player_occupied_slots p) (non_durable_skill_tombstones p) (player_money p) (can_dual_wield p).

(** [PreparedPlayerSpellAcquisitionLikeCpp] of wow-entities. *)
Record PreparedPlayer : Type := mkPreparedPlayer
  { exact_spells : gmap Z KnownSpell; exact_traits : gmap Z Z; exact_overrides : gmap Z (gset Z);
    exact_skills : gmap Z SkillRecord; exact_occupied : Z; exact_tombstones : gset Z }.

(** A loop over a list that may give up. *)
Fixpoint try_each {A B} (f : B -> A -> option B) (b : B) (l : list A) : option B :=
  match l with [] => Some b | a :: l => b' ← f b a; try_each f b' l end.

Definition cleared_record (r : SkillRecord) : bool :=
  (record_step r =? 0) && (current_value r =? 0) && (max_value r =? 0) && (record_slot r =? -1).

Definition exact_spell (m : gmap Z KnownSpell) (r : KnownSpell) : option (gmap Z KnownSpell) :=
  if (known_id r <=? 0) || bool_decide (is_Some (m !! known_id r)) then None else Some (<[known_id r := r]> m).

Definition exact_trait (rows : gmap Z KnownSpell) (m : gmap Z Z) (t : Z * Z) : option (gmap Z Z) :=
  let held := match rows !! t.1 with
              | Some r => bool_decide (known_state r <> SpellState.Removed) | None => false end in
  if (t.2 <=? 0) || negb held || bool_decide (is_Some (m !! t.1)) then None else Some (<[t.1 := t.2]> m).

Definition exact_override (m : gmap Z (gset Z)) (e : Z * Z) : option (gmap Z (gset Z)) :=
  if (e.1 <=? 0) || (e.2 <=? 0) then None
  else Some (<[e.1 := {[e.2]} ∪ default ∅ (m !! e.1)]> m).

Definition exact_skill (m : gmap Z SkillRecord) (e : Z * SkillRecord) : option (gmap Z SkillRecord) :=
  if (e.1 =? 0) || negb (e.1 =? skill_line_id e.2)
     || (bool_decide (record_state e.2 = SkillState.Deleted) && negb (cleared_record e.2))
     || bool_decide (is_Some (m !! e.1))
  then None else Some (<[e.1 := e.2]> m).

Definition tombstone_record (m : gmap Z SkillRecord) (id : Z) : bool :=
  match m !! id with
  | Some r => cleared_record r
              && bool_decide (record_state r = SkillState.Unchanged \/ record_state r = SkillState.Deleted)
  | None => false
  end.

Definition try_new (rows : list KnownSpell) (traits overrides : list (Z * Z)) (skills : list (Z * SkillRecord))
    (occupied : Z) (tombstones : gset Z) : option PreparedPlayer :=
  rows ← try_each exact_spell ∅ rows;
  traits ← try_each (exact_trait rows) ∅ traits;
  overrides ← try_each exact_override ∅ overrides;
  if (256 <? occupied) || negb (occupied =? Z.of_nat (length skills)) then None
  else
    skills ← try_each exact_skill ∅ skills;
    if forallb (tombstone_record skills) (elements tombstones)
    then Some (mkPreparedPlayer rows traits overrides skills occupied tombstones) else None.

Definition record_le (a b : SkillRecord) : Prop := skill_line_id a <= skill_line_id b.
#[export] Instance record_le_dec a b : Decision (record_le a b).
Proof. unfold record_le. apply _. Defined.

Definition replace_skill_records (records : list SkillRecord) (loaded complete : bool) (occupied : option Z)
    (tombstones : gset Z) (p : Player) : Player :=
  p <| player_skills := merge_sort record_le records |> <| skills_loaded := loaded |>
    <| skills_complete := loaded && complete |> <| player_occupied_slots := occupied |>
    <| non_durable_skill_tombstones := tombstones |>.

(** The ids of the rows that satisfy [f], in the order of the map. *)
Definition ids_where (f : KnownSpell -> bool) (rows : gmap Z KnownSpell) : list Z :=
  map known_id (filter (fun r => Is_true (f r)) (values_in_order rows)).

Definition apply_prepared_acquisition (x : PreparedPlayer) (p : Player) : Player :=
  let live r := bool_decide (known_state r <> SpellState.Removed) in
  let rows := exact_spells x in
  replace_skill_records (values_in_order (exact_skills x)) true true (Some (exact_occupied x)) (exact_tombstones x)
    (p <| known_spells := ids_where (fun r => live r && negb (known_disabled r)) rows |>
       <| dependent_known_spells := list_to_set (ids_where (fun r => live r && known_dependent r) rows) |>
       <| favorite_known_spells := list_to_set (ids_where (fun r => live r && known_favorite r) rows) |>
       <| removed_known_spells := list_to_set (ids_where (fun r => negb (live r)) rows) |>
       <| player_rows := rows |> <| rows_loaded := true |> <| rows_complete := true |>
       <| trait_definition_ids := exact_traits x |> <| trait_definition_ids_complete := true |>
       <| override_spells := exact_overrides x |> <| override_spells_complete := true |>).

(** * The session *)
(** What is sent to the client, in order, on either socket. *)
Inductive Packet : Type :=
  | PacketMoney (money : Z) | PacketSkillValues
  | PacketVisual (unit : ObjectGuid) (kit_record_id kit_type : Z) (broadcast : bool)
  | PacketLearned (spell_id : Z) (favorite : bool) (trait : option Z) (suppress_messaging : bool)
  | PacketSuperceded (old_spell_id new_spell_id : Z) | PacketUnlearned (spell_id : Z)
  | PacketBuyFailed (reason : Z).

Record Session : Type := mkSession
  { session_guid : option ObjectGuid; owner : option Player; session_race : Z; session_class : Z;
    session_level : Z; session_skill_lines : option SkillLineStore; acquisition_port : bool;
    lifecycle_port : bool; sent : list Packet; money_changes : list (Z * Z); quarantined : bool;
    kicked : bool }.
#[export] Instance eta_session : Eta Session := fun s =>
  mkSession (session_guid s) (owner s) (session_race s) (session_class s) (session_level s)
    (session_skill_lines s) (acquisition_port s) (lifecycle_port s) (sent s) (money_changes s) (quarantined s)
    (kicked s).

Definition send (l : list Packet) (s : Session) : Session := s <| sent := sent s ++ l |>.
Definition kick (s : Session) : Session := s <| kicked := true |>.

(** * Reading a snapshot (adapter.rs) *)
Abbreviation adapted := (fun A => Prelude.result A SnapshotAdapterError).

(** [iter().map(..).collect::<Result<Vec<_>, _>>()]. *)
Fixpoint collect {A B E} (f : A -> Prelude.result B E) (l : list A) : Prelude.result (list B) E :=
  match l with
  | [] => Ok []
  | a :: l => let? b := f a in let? l' := collect f l in Ok (b :: l')
  end.

Definition complete_spell_rows (p : Player) : option (gmap Z KnownSpell) :=
  if rows_loaded p && rows_complete p then Some (player_rows p) else None.
(** [u16::try_from(skill_line_id).ok()] drops the other records; the last of an id stays. *)
Definition skill_record_map (l : list SkillRecord) : gmap Z SkillRecord :=
  foldl (fun m r => <[skill_line_id r := r]> m) ∅ (filter (fun r => Is_true (is_u16 (skill_line_id r))) l).
Definition complete_skill_records (p : Player) : option (gmap Z SkillRecord) :=
  if skills_complete p then Some (skill_record_map (player_skills p)) else None.
Definition complete_occupied_slots (p : Player) : option Z :=
  if skills_complete p then player_occupied_slots p else None.
Definition complete_traits (p : Player) : option (gmap Z Z) :=
  if trait_definition_ids_complete p then Some (trait_definition_ids p) else None.
Definition complete_overrides (p : Player) : option (gmap Z (gset Z)) :=
  if override_spells_complete p then Some (override_spells p) else None.

Definition read_spell (traits : gmap Z Z) (r : KnownSpell) : Prelude.result PlayerSpellRow SnapshotAdapterError :=
  let trait := traits !! known_id r in
  if negb (is_u32 (known_id r)) then Err (AdapterInvalidSpellId (known_id r))
  else if match trait with Some id => id <=? 0 | None => false end
  then Err (AdapterInvalidTraitDefinitionId (known_id r) (default 0 trait))
  else Ok (mkSpellRow (known_id r) (known_active r) (known_disabled r) (known_dependent r) (known_favorite r)
             trait (known_state r)).

Definition read_skill (r : SkillRecord) : PlayerSkillRow :=
  mkSkillRow (skill_line_id r) (record_step r) (current_value r) (max_value r)
    (from_database_value (record_slot r)) (record_state r).

(** The pairs of the override map, sorted. *)
Definition override_pairs (m : gmap Z (gset Z)) : list (Z * Z) :=
  merge_sort pair_le (map_to_list m ≫= fun e => pair e.1 <$> elements e.2).

Definition read_override (e : Z * Z) : Prelude.result (Z * Z) SnapshotAdapterError :=
  if is_u32 e.1 && is_u32 e.2 then Ok e else Err (AdapterInvalidOverride e.1 e.2).

Definition live_primary (lines : option SkillLineStore) (row : PlayerSkillRow) : bool :=
  bool_decide (skill_state row <> SkillState.Deleted) && negb (skill_value row =? 0)
  && match lines with
     | Some store => bool_decide (is_primary_profession_skill store (row_skill_id row) = Some true)
     | None => false
     end.

Definition skill_row_le (a b : PlayerSkillRow) : Prop := row_skill_id a <= row_skill_id b.
#[export] Instance skill_row_le_dec a b : Decision (skill_row_le a b).
Proof. unfold skill_row_le. apply _. Defined.

Definition set_in_order (s : gset Z) : list Z := merge_sort Z.le (elements s).

(** [spell_acquisition_snapshot_like_cpp]. *)
Definition session_snapshot (lifecycle : PlayerAcquisitionLifecycle) (future : list FutureConditionResolution)
    (casts : gmap Z CastResolution) (s : Session) : Prelude.result Snapshot SnapshotAdapterError :=
  let? rows := ok_or (p ← owner s; complete_spell_rows p) IncompleteSpellRows in
  let? records := ok_or (p ← owner s; complete_skill_records p) IncompleteSkillRows in
  let? occupied := ok_or (p ← owner s; complete_occupied_slots p) MissingSkillSlotOccupancy in
  let? traits := ok_or (p ← owner s; complete_traits p) IncompleteTraitDefinitions in
  let? overrides := ok_or (p ← owner s; complete_overrides p) IncompleteOverrides in
  match find_first (fun id => rows !! id = None) (keys_in_order traits) with
  | Some spell_id => Err (OrphanTraitDefinition spell_id)
  | None =>
      let? spell_rows := collect (read_spell traits) (values_in_order rows) in
      let skill_rows := merge_sort skill_row_le (map read_skill (map_to_list records).*2) in
      let? override_rows := collect read_override (override_pairs overrides) in
      let primary := merge_sort Z.le
                       (map row_skill_id (filter (fun row => Is_true (live_primary (session_skill_lines s) row)) skill_rows)) in
      let? tombstones := ok_or (non_durable_skill_tombstones <$> owner s) IncompleteSkillRows in
      Ok (mkSnapshot (session_guid s) spell_rows skill_rows occupied override_rows primary
            (set_in_order tombstones) (session_race s) (session_class s) (session_level s) lifecycle future casts)
  end.

(** * Installing a snapshot (runtime_adapter.rs) *)
Definition known_spell (row : PlayerSpellRow) : KnownSpell :=
  mkKnownSpell (row_spell_id row) (spell_state row) (active row) (disabled row) (favorite row) (dependent row).
Definition skill_record (row : PlayerSkillRow) : SkillRecord :=
  mkSkillRecord (row_skill_id row) (skill_value row) (skill_maximum row) (skill_step row)
    (database_value (profession_association row)) (skill_state row).

(** The traits of the rows that are not removed and whose id is an [i32]. *)
Definition installed_traits (rows : list PlayerSpellRow) : list (Z * Z) :=
  omap (fun row =>
    if bool_decide (spell_state row = SpellState.Removed) || negb (is_i32 (row_spell_id row)) then None
    else pair (row_spell_id row) <$> trait_definition_id row) rows.

(** The conversions of ids that [expect] success. *)
Definition ids_convert (s : Snapshot) : bool :=
  forallb (fun row => is_i32 (row_spell_id row)) (spells s)
  && forallb (fun e : Z * Z => is_i32 e.1 && is_i32 e.2) (overrides s)
  && forallb (fun row => is_u16 (row_skill_id row)) (skills s).

Definition skill_records (rows : list PlayerSkillRow) : gmap Z SkillRecord :=
  foldl (fun m row => <[row_skill_id row := skill_record row]> m) ∅ rows.

(** The tombstones whose rows are still cleared, and the new ones. *)
Definition kept_tombstones (records : gmap Z SkillRecord) (old : gset Z) (new : list Z) : gset Z :=
  list_to_set (filter (fun id => Is_true (tombstone_record records id)) (elements old)) ∪ list_to_set new.

Definition replace_complete_acquisition (rows : list KnownSpell) (traits overrides : list (Z * Z))
    (records : gmap Z SkillRecord) (occupied : Z) (tombstones : gset Z) (s : Session) : Session * bool :=
  match try_new rows traits overrides (map_to_list records) occupied tombstones with
  | None => (s, false)
  | Some x =>
      match owner s with
      | None => (s, false)
      | Some p => (s <| owner := Some (apply_prepared_acquisition x p) |>, true)
      end
  end.

Definition session_install (snapshot : Snapshot) (new_tombstones : list Z) : Rt Session applied := fun s =>
  if negb (ids_convert snapshot) then None
  else
    let records := skill_records (skills snapshot) in
    match owner s with
    | None => Some (s, Err InvalidPreparedRuntime)
    | Some p =>
        let tombstones := kept_tombstones records (non_durable_skill_tombstones p) new_tombstones in
        let '(s, replaced) :=
          replace_complete_acquisition (map known_spell (spells snapshot)) (installed_traits (spells snapshot))
            (overrides snapshot) records (occupied_skill_slots snapshot) tombstones s in
        Some (s, if replaced then Ok tt else Err InvalidPreparedRuntime)
    end.

(** * Publishing an action *)
(** A packet with an id that is expected to be an [i32]. *)
Definition session_publish (a : PostCommitAction) (trait : option Z) : Rt Session unit := fun s =>
  match a with
  | LearnedSpell spell_id fav suppress =>
      if is_i32 spell_id then Some (send [PacketLearned spell_id fav trait suppress] s, tt) else None
  | SupersededSpell old_spell_id new_spell_id =>
      if is_i32 old_spell_id && is_i32 new_spell_id
      then Some (send [PacketSuperceded old_spell_id new_spell_id] s, tt) else None
  | UnlearnedSpell spell_id => Some (send [PacketUnlearned spell_id] s, tt)
  | _ => Some (s, tt)
  end.

(** The player of the session's own guid. *)
Definition has_player (s : Session) : bool :=
  bool_decide (is_Some (session_guid s)) && bool_decide (is_Some (owner s)).

Definition session_grant_dual_wield : Rt Session bool := fun s =>
  match session_guid s, owner s with
  | Some _, Some p => Some (s <| owner := Some (p <| can_dual_wield := true |>) |>, true)
  | _, _ => Some (s, false)
  end.

(** * Committing (session/spell_state/acquisition.rs, session/persistence/commit.rs) *)
(** How a transaction that only changes the money ends, deadlocks retried. *)
Inductive MoneyEnd : Type := MoneyCommitted | MoneyRolledBack | MoneyUnknown (durable readable : bool).

(** What the outside decides during a purchase: how the transactions and the
    reconciliation go, the random token, whether the map keeps the player while the
    commit is awaited, and whether the sockets are drained. *)
Record Outside : Type := mkOutside
  { statement_fails : nat -> option DbError; commit_end : CommitEnd; reconcile_fails : nat -> option DbError;
    reconcile_commits : bool; fresh_token : list Z; money_end : MoneyEnd; player_stays : bool;
    instance_drained : bool; realm_drained : bool }.

(** The session and the database of the characters. *)
Record World : Type := mkWorld { session : Session; database : SpellDb }.
#[export] Instance eta_world : Eta World := fun w => mkWorld (session w) (database w).

(** [player_money_transaction_statements_like_cpp]: the money of a row that is
    there, and the money read again where the commit is unknown. *)
Definition write_money (guid after : Z) (d : SpellDb) : SpellDb :=
  match character_money d !! guid with
  | Some _ => d <| character_money := <[guid := after]> (character_money d) |>
  | None => d
  end.

Inductive MoneyReconciliation : Set := MoneyWasCommitted | MoneyWasRolledBack | MoneyIndeterminate.
Definition reconcile_absolute_money (before after : Z) (observed : option Z) : MoneyReconciliation :=
  if before =? after then MoneyIndeterminate
  else
    match observed with
    | Some z => if z =? after then MoneyWasCommitted else if z =? before then MoneyWasRolledBack else MoneyIndeterminate
    | None => MoneyIndeterminate
    end.

Definition money_outcome (e : MoneyEnd) (guid before after : Z) (d : SpellDb) : SpellDb * MoneyReconciliation :=
  match e with
  | MoneyCommitted => (write_money guid after d, MoneyWasCommitted)
  | MoneyRolledBack => (d, MoneyWasRolledBack)
  | MoneyUnknown durable readable =>
      let d' := if durable then write_money guid after d else d in
      (d', reconcile_absolute_money before after (if readable then character_money d' !! guid else None))
  end.

(** The player is gone after the await where the map removed him meanwhile. *)
Definition awaited (o : Outside) (s : Session) : Session := if player_stays o then s else s <| owner := None |>.
(** [mark_indeterminate_like_cpp] and the kick. *)
Definition quarantine (s : Session) : Session := kick (s <| quarantined := true |>).

Section Outside.
Variable env : Outside.

Definition commit_money_and_acquisition (p : Prepared) (before after : Z) : Rt World bool := fun w =>
  let s := session w in
  match (if acquisition_port s then session_guid s else None) with
  | None => Some (w, false)
  | Some guid =>
      match persistence_request (counter guid) p before after (fresh_token env) with
      | Err _ => Some (w, false)
      | Ok r =>
          let '(d, outcome) := persist_through_port (statement_fails env) (commit_end env) (reconcile_fails env)
                                 (reconcile_commits env) r (database w) in
          let s := awaited env s in
          Some (match outcome with
                | OutcomeApplied | OutcomeReconciledCommit _ => (mkWorld s d, true)
                | OutcomeRolledBack _ => (mkWorld s d, false)
                | OutcomeUnknown _ => (mkWorld (quarantine s) d, false)
                end)
      end
  end.

Definition commit_money_only (before after : Z) : Rt World bool := fun w =>
  if before =? after then Some (w, true)
  else
    let s := session w in
    match session_guid s with
    | None => Some (w, false)
    | Some guid =>
        if negb (lifecycle_port s) then Some (w, false)
        else
          let '(d, outcome) := money_outcome (money_end env) (counter guid) before after (database w) in
          let s := awaited env s in
          Some (match outcome with
                | MoneyWasCommitted => (mkWorld s d, true)
                | MoneyWasRolledBack => (mkWorld s d, false)
                | MoneyIndeterminate => (mkWorld (quarantine s) d, false)
                end)
    end.

(** [stage_player_money_change_like_cpp]. *)
Definition session_stage_money (before after : Z) : Rt Session bool := fun s =>
  match owner s with
  | None => Some (s, false)
  | Some p =>
      let s := s <| owner := Some (p <| player_money := after |>) |> in
      Some (if before =? after then s else s <| money_changes := money_changes s ++ [(before, after)] |>, true)
  end.

Definition visual_packets (p : TrainerPublication) : list Packet :=
  if suppress_visuals p then []
  else
    [PacketVisual (trainer_guid p) 179 0 false; PacketVisual (trainer_guid p) 179 0 true;
     PacketVisual (publication_player_guid p) 362 1 false; PacketVisual (publication_player_guid p) 362 1 true].

Definition in_session {A} (m : Rt Session A) : Rt World A := fun w =>
  match m (session w) with Some (s, a) => Some (w <| session := s |>, a) | None => None end.
Definition sends (l : list Packet) : Rt Session unit := fun s => Some (send l s, tt).

#[export] Instance session_acquisition : AcquisitionRuntime World :=
  {| runtime_guid w := session_guid (session w);
     has_canonical_player w := has_player (session w);
     install_snapshot s l := in_session (session_install s l);
     begin_action_batch := rt_ret tt;
     record_action _ := rt_ret tt;
     grant_dual_wield := in_session session_grant_dual_wield;
     publish_action a d := in_session (session_publish a d) |}.

(** The exclusion is a guard without content. *)
#[export] Instance session_trainer : TrainerRuntime World unit :=
  {| trainer_acquisition := session_acquisition;
     commit_acquisition x p before after :=
       rt! committed := match p with
                        | Some p => commit_money_and_acquisition p before after
                        | None => commit_money_only before after
                        end in
       rt_ret (if committed : bool then Some x else None);
     stage_money before after := in_session (session_stage_money before after);
     publish_money after := in_session (sends [PacketMoney after]);
     fence_instance_before_realm := rt_ret (instance_drained env);
     publish_visuals p := in_session (sends (visual_packets p));
     fence_realm_before_instance := rt_ret (realm_drained env);
     publish_skills := in_session (sends [PacketSkillValues]) |}.

(** * Buying (handlers/trainer.rs) *)
(** From the offer on; [capped] is the answer of the pet journal for a species,
    [trainer] and [position] those of the trainer that was reached. *)
Definition buy_offer (o : TrainerOffer) (trainer : ObjectGuid) (position : Position) (capped : Z -> bool) :
    Rt World unit :=
  let fail reason := in_session (sends [PacketBuyFailed reason]) in
  let kicks := in_session (fun s => Some (kick s, tt)) in
  if match battle_pet_species_id o with Some species => capped species | None => false end then rt_ret tt
  else
    rt! money := rt_read (fun w => player_money <$> owner (session w)) in
    match money with
    | None => rt_ret tt
    | Some old_money =>
        if old_money <? effective_price o then fail 1
        else
          let new_money := old_money - effective_price o in
          let source := source_snapshot (acquisition_plan o) in
          rt! snapshot := rt_read (fun w =>
            session_snapshot InWorld (future_player_condition_resolutions source) (cast_resolutions source) (session w)) in
          match snapshot with
          | Err _ => fail 0
          | Ok snapshot =>
              match character_guid snapshot with
              | None => fail 0
              | Some player =>
                  rt! completion :=
                    execute_trainer_acquisition tt o snapshot old_money new_money
                      (mkPublication trainer player position (bool_decide (is_Some (battle_pet_species_id o)))) in
                  match completion.1 with
                  | PurchaseApplied | PersistenceUnavailable => rt_ret tt
                  | InvalidPreparation => fail 0
                  | RuntimeInstallationFailed | MoneyOwnerUnavailable | WriterFenceFailed | PublicationFailed => kicks
                  end
              end
          end
    end.
End Outside.
