(* ===== verification/SpellSessionTheorems.v ===== *)
(** An installed acquisition reads back: what a session that gave the snapshot of
    a plan installs is, row by row, the snapshot it is read into afterwards.  The
    tables of rows and their order, what a validated snapshot guarantees, the skills
    a plan leaves alone, and the professions that are assigned on the way. *)
From stdpp Require Import sorting.
From S2P Require Import Prelude BTree Guid SpellCatalog SpellModel SpellPlanner SpellPlannerSkill SpellPlannerCast SpellPlannerSpell Profession SpellReplay SpellApply SpellPlannerSteps SpellApplyTheorems SpellReplayTheorems SpellTrainer SpellSession.

(** * Skills a plan leaves alone *)
(** Every skill but those of [ys] keeps its row or has a value. *)
Definition spares (ys : Z -> Prop) (p q : Planner) : Prop :=
  forall id row, ~ ys id -> p_skills p !! id = Some row ->
  exists row', p_skills q !! id = Some row' /\ (row' = row \/ 0 < skill_value row').

Definition no_skill : Z -> Prop := fun _ => False.

Lemma spares_rows ys p q : p_skills p = p_skills q -> spares ys p q.
Proof. intros E id row _ Er. rewrite E in Er. exists row. auto. Qed.

#[export] Instance spares_preorder ys : PreOrder (spares ys).
Proof.
  split; [intros p; by apply spares_rows|].
  intros p q s H1 H2 id row Hid E. destruct (H1 id row Hid E) as (row1 & E1 & Hr1).
  destruct (H2 id row1 Hid E1) as (row2 & E2 & [->|Hr2]); [exists row1|exists row2]; auto.
Qed.

Lemma spares_mono ys {A} (m : M A) : steps (spares no_skill) m -> steps (spares ys) m.
Proof. intros H p q a E id row _. apply (H p q a E). by intros []. Qed.

#[export] Instance spares_relation ys : PlanRelation (spares ys).
Proof.
  split; [apply _| | | | |].
  - intros p q E. apply spares_rows. by injection E.
  - intros a _ p q b E. injection E as <- _. by apply spares_rows.
  - intros r a _ p q b E. unfold push_publication, push_action, bind, modify in E. injection E as <- _.
    by apply spares_rows.
  - intros a b. unfold add_override, push_override_transition. steps; by apply spares_rows.
  - intros a b. unfold remove_override, push_override_transition. steps; by apply spares_rows.
Qed.

Lemma replace_spares ys row pr : steps (spares ys) (replace_spell_row row pr).
Proof. unfold replace_spell_row, record_spell_transition. steps; by apply spares_rows. Qed.
Lemma remove_spares ys id pr : steps (spares ys) (remove_spell_row id pr).
Proof. unfold remove_spell_row, record_spell_transition. steps; by apply spares_rows. Qed.
Lemma skill_transition_spares ys id b a pr : steps (spares ys) (record_skill_transition id b a pr).
Proof. unfold record_skill_transition. steps; by apply spares_rows. Qed.

(** A row that is put has a value, or is one of the others. *)
Lemma put_skill_spares (ys : Z -> Prop) row :
  0 < skill_value row \/ ys (row_skill_id row) -> steps (spares ys) (put_skill row).
Proof.
  intros Hr p q u E id r Hid Er. injection E as <- _. ssimpl.
  destruct (decide (id = row_skill_id row)) as [->|Hne].
  - exists row. rewrite lookup_insert_eq. split; [done|right]. by destruct Hr.
  - exists r. rewrite lookup_insert_ne by done. auto.
Qed.

#[export] Hint Resolve replace_spares remove_spares skill_transition_spares : steps.

Section Spared.
Variables (env : Env) (self : Ops).
Hypothesis Hself : ops_step (spares no_skill) self.

Lemma ops_spare ys : ops_step (spares ys) self.
Proof. destruct Hself. split; intros; by apply spares_mono. Qed.

Lemma set_existing_spares id s v m pr fields row :
  steps (spares no_skill) (set_existing_skill env self id s v m pr fields row).
Proof.
  unfold set_existing_skill. destruct (Z.ltb_spec 0 v) as [Hv|Hv]; [|steps_view].
  assert (Hput : forall a st, steps (spares no_skill) (put_skill (mkSkillRow id s v m a st)))
    by (intros; apply put_skill_spares; by left).
  steps_view.
Qed.

Lemma insert_new_spares id s v m pr fields : steps (spares (eq id)) (insert_new_skill env self id s v m pr fields).
Proof.
  pose proof (ops_spare (eq id)) as Ho.
  assert (Hput : forall a st, steps (spares (eq id)) (put_skill (mkSkillRow id s v m a st)))
    by (intros; apply put_skill_spares; by right).
  unfold insert_new_skill, check_capacity, push_pending, pop_pending. steps_view.
Qed.

Lemma set_skill_spares id s v m pr : steps (spares no_skill) (set_skill env self id s v m pr).
Proof.
  unfold set_skill, set_skill_inner. case_match; [steps_view|].
  apply steps_bind; [apply _|steps_view|]. intros _. case_match; [steps_view|].
  apply steps_bind; [apply _|steps_view|]. intros fields p q u E.
  apply bind_Ok in E as (p1 & before & [= -> <-] & E).
  destruct (p_skills p1 !! id) as [row|] eqn:Er; [by eapply set_existing_spares|].
  intros i r _ Ei. apply (insert_new_spares _ _ _ _ _ _ _ _ _ E); [|done]. intros <-. by rewrite Er in Ei.
Qed.

Lemma add_spell_spares req a : add_disabled req = false -> steps (spares no_skill) (add_spell env self req a).
Proof.
  intros Hd. unfold add_spell, proceed, existing_spell, change_row, change_active, change_disabled, same_flags,
    insert_spell, supersede_ranks, supersede_candidate, push_superseded. steps_view.
Qed.
End Spared.

Lemma run_root_spares env n : steps (spares no_skill) (run_root env n).
Proof.
  assert (H : ops_step (spares no_skill) (ops env n)).
  { apply ops_induction; intros.
    - by apply learn_spell_steps; [apply _|].
    - by apply add_spell_spares.
    - by apply set_skill_spares.
    - by apply validate_definition_steps; [apply _|]. }
  unfold run_root. steps_view.
Qed.

(** * Tables of rows *)
Section Tables.
Context {A B : Type} (key : A -> Z) (f : A -> B).
Implicit Types (m : gmap Z B) (l : list A).

Definition table_from m l : gmap Z B := foldl (fun m a => <[key a := f a]> m) m l.

Lemma table_lookup m l k v :
  NoDup (map key l) -> (forall a, a ∈ l -> m !! key a = None) ->
  (table_from m l !! k = Some v <-> (exists a, a ∈ l /\ key a = k /\ f a = v) \/ m !! k = Some v).
Proof.
  unfold table_from. revert m. induction l as [|a l IH]; intros m Hnd Hm; cbn [foldl].
  - split; [by right|]. by intros [(a & []%elem_of_nil & _)|].
  - cbn [map] in Hnd. apply NoDup_cons in Hnd as [Ha Hnd]. rewrite IH; [|done|].
    + rewrite lookup_insert_Some. split.
      * intros [(b & Hb & <- & <-)|[[<- <-]|[_ E]]]; [left; exists b|left; exists a|by right]; rewrite elem_of_cons; auto.
      * intros [(b & [->|Hb]%elem_of_cons & <- & <-)|E]; [auto|left; eauto|].
        right. right. split; [|done]. intros <-. rewrite Hm in E; [done|by left].
    + intros b Hb. rewrite lookup_insert_ne; [apply Hm; by right|]. intros E. apply Ha. rewrite E.
      apply list_elem_of_fmap. eauto.
Qed.

(** A loop that inserts each element or gives up. *)
Lemma try_each_table (step : gmap Z B -> A -> option (gmap Z B)) m l :
  (forall m a, a ∈ l -> m !! key a = None -> step m a = Some (<[key a := f a]> m)) ->
  NoDup (map key l) -> (forall a, a ∈ l -> m !! key a = None) ->
  try_each step m l = Some (table_from m l).
Proof.
  unfold table_from. revert m. induction l as [|a l IH]; intros m Hs Hnd Hm; [done|].
  cbn [map] in Hnd. apply NoDup_cons in Hnd as [Ha Hnd]. cbn [try_each foldl].
  rewrite Hs by (try apply Hm; by left). cbn [mbind option_bind]. apply IH; [|done|].
  - intros m' b Hb. apply Hs. by right.
  - intros b Hb. rewrite lookup_insert_ne; [apply Hm; by right|]. intros E. apply Ha. rewrite E.
    apply list_elem_of_fmap. eauto.
Qed.

(** In the order of their keys. *)
Lemma table_in_order l :
  NoDup (map key l) -> StronglySorted Z.le (map key l) -> values_in_order (table_from ∅ l) = map f l.
Proof.
  intros Hnd Hs.
  assert (Hl : forall k v, table_from ∅ l !! k = Some v <-> exists a, a ∈ l /\ key a = k /\ f a = v).
  { intros k v. rewrite table_lookup; [|done|intros; apply lookup_empty]. rewrite lookup_empty. naive_solver. }
  assert (Hk : keys_in_order (table_from ∅ l) = map key l).
  { apply (StronglySorted_unique Z.le); [by apply (StronglySorted_merge_sort Z.le)|done|].
    apply NoDup_Permutation; [apply NoDup_keys_in_order|done|]. intros k. rewrite elem_of_keys_in_order.
    rewrite list_elem_of_fmap. split.
    - intros [v (a & Ha & <- & _)%Hl]. eauto.
    - intros (a & -> & Ha). exists (f a). apply Hl. eauto. }
  unfold values_in_order. rewrite Hk.
  assert (Hv : forall a, a ∈ l -> table_from ∅ l !! key a = Some (f a)) by (intros a Ha; apply Hl; eauto).
  clear Hnd Hs Hl Hk. revert Hv. generalize (table_from ∅ l) as m. intros m Hv.
  induction l as [|a l IH]; [done|]. cbn [map omap list_omap]. rewrite Hv by by left. f_equal.
  apply IH. intros b Hb. apply Hv. by right.
Qed.
End Tables.

(** Rows under their own ids, in order. *)
Lemma keys_of_values {A} (key : A -> Z) (m : gmap Z A) :
  (forall k a, m !! k = Some a -> key a = k) -> map key (values_in_order m) = keys_in_order m.
Proof.
  intros Hm. unfold values_in_order.
  assert (H : forall k, k ∈ keys_in_order m -> is_Some (m !! k)) by (intros; by apply elem_of_keys_in_order).
  induction (keys_in_order m) as [|k l IH]; [done|]. cbn [omap list_omap].
  destruct (H k ltac:(by left)) as [a E]. rewrite E. cbn [map]. f_equal; [by apply Hm|].
  apply IH. intros. apply H. by right.
Qed.

Lemma keys_in_order_sorted {A} (m : gmap Z A) : StronglySorted Z.le (keys_in_order m).
Proof. by apply (StronglySorted_merge_sort Z.le). Qed.

Lemma StronglySorted_filter_map {A} (key : A -> Z) (P : A -> Prop) `{forall a, Decision (P a)} (l : list A) :
  StronglySorted Z.le (map key l) -> StronglySorted Z.le (map key (filter P l)).
Proof.
  induction l as [|a l IH]; [done|]. cbn [map]. intros [Hs Ha]%StronglySorted_inv. rewrite filter_cons.
  case_decide; [|auto]. cbn [map]. constructor; [auto|]. rewrite Forall_forall in *.
  intros k (b & -> & [_ Hb]%list_elem_of_filter)%list_elem_of_fmap. apply Ha. apply list_elem_of_fmap. eauto.
Qed.

(** * Validated snapshots *)
Lemma fold_result_each {A B X} (f : B -> A -> Prelude.result B X) b l b' :
  fold_result f b l = Ok b' -> forall a, a ∈ l -> exists c c', f c a = Ok c'.
Proof.
  revert b. induction l as [|a l IH]; intros b E c; [by intros ?%elem_of_nil|]. cbn in E.
  destruct (f b a) as [b1|] eqn:E1; [|discriminate]. intros [->|Hc]%elem_of_cons; eauto.
Qed.

Lemma skill_table_lookup l k row :
  NoDup (map row_skill_id l) -> (skill_table l !! k = Some row <-> row ∈ l /\ row_skill_id row = k).
Proof.
  intros Hnd. pose proof (table_lookup row_skill_id (fun r => r) ∅ l k row Hnd) as H.
  rewrite lookup_empty in H. change (table_from row_skill_id (fun r => r) ∅ l) with (skill_table l) in H.
  rewrite H by (intros; apply lookup_empty). naive_solver.
Qed.
Lemma spell_table_lookup l k row :
  NoDup (map row_spell_id l) -> (spell_table l !! k = Some row <-> row ∈ l /\ row_spell_id row = k).
Proof.
  intros Hnd. pose proof (table_lookup row_spell_id (fun r => r) ∅ l k row Hnd) as H.
  rewrite lookup_empty in H. change (table_from row_spell_id (fun r => r) ∅ l) with (spell_table l) in H.
  rewrite H by (intros; apply lookup_empty). naive_solver.
Qed.

Definition valid_association (a : ProfessionAssociationInput) : Prop :=
  match a with Unassigned => True | Slot s => s = 0 \/ s = 1 | InvalidSlot _ => False end.

Lemma association_roundtrip a : valid_association a -> from_database_value (database_value a) = a.
Proof. destruct a as [|s|]; [done| |done]. by intros [->| ->]. Qed.

Lemma association_cleared a : valid_association a -> database_value a = -1 -> a = Unassigned.
Proof. destruct a as [|s|]; [done| |done]. by intros [->| ->]. Qed.

(** What a validated snapshot guarantees of its rows. *)
Record sound_snapshot (s : Snapshot) : Prop :=
  { sound_spell_ids : NoDup (map row_spell_id (spells s));
    sound_skill_ids : NoDup (map row_skill_id (skills s));
    sound_spells : forall row, row ∈ spells s -> valid_spell_id (row_spell_id row) = true
                   /\ forall id, trait_definition_id row = Some id -> 0 < id;
    sound_skills : forall row, row ∈ skills s -> valid_skill_id (row_skill_id row) = true
                   /\ valid_association (profession_association row) /\ deleted_with_payload row = false;
    sound_overrides : NoDup (overrides s)
                      /\ forall e, e ∈ overrides s -> valid_spell_id e.1 = true /\ valid_spell_id e.2 = true;
    sound_occupied : occupied_skill_slots s = Z.of_nat (length (skills s)) /\ occupied_skill_slots s <= 256;
    sound_tombstones : forall id, id ∈ non_durable_skill_tombstone_ids s ->
                       exists row, row ∈ skills s /\ row_skill_id row = id /\ is_tombstone row = true }.

Lemma override_rows l s s' :
  fold_result insert_override s l = Ok s' ->
  NoDup l /\ (forall e, e ∈ l -> e ∉ s /\ valid_spell_id e.1 = true /\ valid_spell_id e.2 = true).
Proof.
  revert s. induction l as [|e l IH]; intros s E; [split; [constructor|by intros e ?%elem_of_nil]|].
  cbn in E. destruct (insert_override s e) as [s1|] eqn:E1; [|discriminate].
  unfold insert_override in E1. apply rbind_unit_Ok in E1 as [H1%require_Ok E1].
  apply rbind_unit_Ok in E1 as [H2%require_Ok E1]. case_bool_decide as Hn; [discriminate|]. injection E1 as <-.
  destruct (IH _ E) as [I1 I2]. split.
  - constructor; [|done]. intros He. apply (I2 e He). set_solver.
  - intros e' [->|He]%elem_of_cons; [done|]. destruct (I2 e' He) as (I & J). split; [set_solver|done].
Qed.

Lemma not_payload_association taken row taken' :
  check_association taken row = Ok taken' ->
  valid_association (profession_association row) /\ deleted_with_payload row = false.
Proof.
  unfold check_association. destruct (deleted_with_payload row); [discriminate|].
  destruct (profession_association row) as [|slot|]; cbn; [done| |discriminate].
  destruct (Z.leb_spec 0 slot), (Z.leb_spec slot 1); cbn; try discriminate. intros _. split; [lia|done].
Qed.

Lemma skill_map_valid l m m' :
  fold_result insert_skill_row m l = Ok m' -> forall row, row ∈ l -> valid_skill_id (row_skill_id row) = true.
Proof.
  intros E row Hr. destruct (fold_result_each _ _ _ _ E row Hr) as (c & c' & E').
  unfold insert_skill_row in E'. by apply rbind_unit_Ok in E' as [E'%require_Ok _].
Qed.

Lemma invalid_tombstone_None skills ids :
  invalid_tombstone skills ids = None -> forall id, id ∈ ids -> keeps_tombstone skills id = true.
Proof.
  unfold invalid_tombstone. case_match; [discriminate|]. intros Hf id Hid.
  apply find_first_None in Hf. rewrite Forall_forall in Hf. specialize (Hf id Hid). by destruct (keeps_tombstone skills id).
Qed.

Lemma size_skill_table l : NoDup (map row_skill_id l) -> size (skill_table l) = length l.
Proof.
  intros Hnd. rewrite <- size_dom.
  assert (E : dom (skill_table l) =@{gset Z} list_to_set (map row_skill_id l)).
  { apply leibniz_equiv. intros k. rewrite elem_of_dom, elem_of_list_to_set, list_elem_of_fmap. split.
    - intros [row [Hr <-]%skill_table_lookup]; eauto.
    - intros (row & -> & Hr). exists row. by apply skill_table_lookup. }
  rewrite E, size_list_to_set by done. by rewrite length_map.
Qed.

Lemma validated_sound s : validate_snapshot s = Ok tt -> sound_snapshot s.
Proof.
  intros Hv. destruct (validated_tables _ Hv) as (E1 & E2 & E3). revert Hv. unfold validate_snapshot.
  rewrite E1, E2, E3. cbn [rbind]. intros [_ [_ H]%rbind_unit_Ok]%rbind_unit_Ok.
  assert (Hs : NoDup (map row_skill_id (skills s))) by exact (proj1 (map_rows row_skill_id _ _ _ _ insert_skill_row_Ok E2)).
  assert (Hp : NoDup (map row_spell_id (spells s))) by exact (proj1 (map_rows row_spell_id _ _ _ _ insert_spell_row_fresh E1)).
  destruct (invalid_tombstone _ _) eqn:Ht; [discriminate|].
  apply rbind_unit_Ok in H as [Ho%require_Ok (taken & Ha & Htr)%rbind_Ok].
  apply andb_prop in Ho as [Ho1%Z.eqb_eq Ho2%Z.leb_le]. rewrite size_skill_table in Ho1 by done.
  split; [done|done| | | |done|].
  - intros row Hr. pose proof (spell_map_valid _ _ E1 row Hr) as Hid. split; [done|]. intros id Hd.
    assert (Hin : row ∈ values_in_order (spell_table (spells s))).
    { apply elem_of_values_in_order. exists (row_spell_id row). by apply spell_table_lookup. }
    pose proof (fold_check _ _ _ Htr row Hin) as Hc. unfold check_trait in Hc. rewrite Hd in Hc.
    apply require_Ok in Hc. lia.
  - intros row Hr. split; [by apply (skill_map_valid _ _ _ E2)|].
    assert (Hin : row ∈ values_in_order (skill_table (skills s))).
    { apply elem_of_values_in_order. exists (row_skill_id row). by apply skill_table_lookup. }
    destruct (fold_result_each _ _ _ _ Ha row Hin) as (c & c' & Hc). by apply not_payload_association in Hc.
  - destruct (override_rows _ _ _ E3) as [N1 N2]. split; [done|]. intros e He. by apply N2.
  - intros id Hid. pose proof (invalid_tombstone_None _ _ Ht id Hid) as Hk. unfold keeps_tombstone in Hk.
    destruct (skill_table (skills s) !! id) as [row|] eqn:El; [|discriminate].
    apply skill_table_lookup in El as [Hr <-]; eauto.
Qed.

(** * The skills after the professions are assigned *)
Definition assignments (p : CapacityPlan) : list (Z * option EquipmentSlot) :=
  map (fun n => (normalization_skill_id n, normalized_slot n)) (slot_normalizations p)
  ++ map (fun a => (planned_skill_id a, equipment_slot a)) (existing_professions p ++ new_professions p).

(** Only the association of a row is changed, to one that is assigned. *)
Definition reassigned (as_ : list (Z * option EquipmentSlot)) (r row : PlayerSkillRow) : Prop :=
  row = r <| profession_association := profession_association row |>
  /\ (profession_association row = profession_association r
      \/ exists a, a ∈ as_ /\ a.1 = row_skill_id r /\ profession_association row = association_of a.2).

Lemma assign_association_rows id slot l row :
  row ∈ assign_association id slot l -> exists r, r ∈ l /\ reassigned [(id, slot)] r row.
Proof.
  induction l as [|r l IH]; [by intros ?%elem_of_nil|]. cbn.
  assert (Hsame : forall x, reassigned [(id, slot)] x x) by (intros []; split; [done|by left]).
  destruct (Z.eqb_spec (row_skill_id r) id) as [Hid|Hid].
  - intros [->|Hr]%elem_of_cons; [|exists row; split; [by right|done]].
    exists r. split; [by left|]. split; [by destruct r|right]. exists (id, slot). split; [by left|done].
  - intros [->|Hr]%elem_of_cons; [exists r; split; [by left|done]|].
    destruct (IH Hr) as (x & Hx & Hrx). exists x. split; [by right|done].
Qed.

Lemma reassigned_trans l1 l2 a b c : reassigned l1 a b -> reassigned l2 b c -> reassigned (l1 ++ l2) a c.
Proof.
  intros [E1 H1] [E2 H2]. split; [rewrite E2, E1; by destruct a|].
  assert (Hid : row_skill_id b = row_skill_id a) by by rewrite E1.
  destruct H2 as [->|(x & Hx & Hi & ->)].
  - destruct H1 as [->|(x & Hx & Hi & ->)]; [by left|right]. exists x. rewrite elem_of_app. auto.
  - right. exists x. rewrite elem_of_app. rewrite <- Hid. auto.
Qed.

Lemma assigned_row plan p row :
  row ∈ assigned_skills plan p -> exists r, r ∈ skills (resulting_snapshot plan) /\ reassigned (assignments p) r row.
Proof.
  unfold assigned_skills. change (map (fun n => (normalization_skill_id n, normalized_slot n)) (slot_normalizations p)
    ++ map (fun a => (planned_skill_id a, equipment_slot a)) (existing_professions p ++ new_professions p))
    with (assignments p).
  generalize (skills (resulting_snapshot plan)) as l. induction (assignments p) as [|a l IH]; intros rows.
  - intros Hr. exists row. split; [done|]. split; [by destruct row|by left].
  - cbn [foldl]. intros Hr. destruct (IH _ Hr) as (r & (x & Hx & Hxr)%assign_association_rows & Hrr).
    exists x. split; [done|]. apply (reassigned_trans [_] l _ r); [|done]. by destruct a.
Qed.

(** A profession that gets a slot has its skill. *)
Lemma planned_held plan p a m :
  validate_profession_plan plan p = Ok tt -> skill_map (resulting_snapshot plan) = Ok m ->
  a ∈ existing_professions p ++ new_professions p ->
  exists row, m !! planned_skill_id a = Some row /\ skill_state row <> SkillState.Deleted.
Proof.
  unfold validate_profession_plan. intros H Hm Ha.
  apply rbind_unit_Ok in H as [_ H]. apply rbind_unit_Ok in H as [_ H].
  apply rbind_Ok in H as (source & _ & H). rewrite Hm in H. cbn [rbind] in H.
  apply rbind_unit_Ok in H as [_ H]. apply rbind_unit_Ok in H as [_ H].
  apply rbind_Ok in H as (seen & Hf & _).
  assert (Hin : exists b, (a, b) ∈ map (fun a => (a, true)) (existing_professions p) ++ map (fun a => (a, false)) (new_professions p)).
  { apply elem_of_app in Ha as [Ha|Ha]; eexists; apply elem_of_app; [left|right]; apply list_elem_of_fmap; eauto. }
  destruct Hin as [b Hin]. destruct (fold_result_each _ _ _ _ Hf _ Hin) as (c & c' & Hc).
  unfold check_assignment in Hc. apply rbind_unit_Ok in Hc as [Hc _]. apply require_Ok in Hc.
  do 2 (apply andb_prop in Hc as [Hc ?]). apply andb_prop in Hc as [_ Hc].
  destruct (m !! planned_skill_id a) as [row|]; [|discriminate]. exists row. by apply bool_decide_eq_true in Hc.
Qed.

(** A normalization of a skill that is no planned profession frees its slot. *)
Lemma normalization_frees plan p n :
  validate_profession_plan plan p = Ok tt -> n ∈ slot_normalizations p ->
  normalized_slot n = None
  \/ exists a, a ∈ existing_professions p ++ new_professions p /\ planned_skill_id a = normalization_skill_id n.
Proof.
  unfold validate_profession_plan. intros H Hn.
  apply rbind_unit_Ok in H as [_ H]. apply rbind_unit_Ok in H as [_ H].
  apply rbind_Ok in H as (source & _ & H). apply rbind_Ok in H as (resulting & _ & H).
  apply rbind_unit_Ok in H as [_ H]. apply rbind_unit_Ok in H as [_ H].
  apply rbind_Ok in H as (seen & _ & H). apply rbind_Ok in H as (seen' & Hf & _).
  destruct (fold_result_each _ _ _ _ Hf n Hn) as (c & c' & Hc). unfold check_normalization in Hc.
  destruct (source !! normalization_skill_id n); [|discriminate].
  apply rbind_unit_Ok in Hc as [Hc%require_Ok _]. apply andb_prop in Hc as [_ Hc]. unfold assigned_slot in Hc.
  destruct (find_first _ _) as [a|] eqn:Ef; cbn in Hc.
  - right. apply find_first_Some in Ef as [Ha Hid]. eauto.
  - left. by apply bool_decide_eq_true in Hc.
Qed.

(** The assigned rows are sound: their associations are slots, and a deleted skill has none. *)
Lemma assigned_sound plan p row :
  validate_snapshot (resulting_snapshot plan) = Ok tt -> validate_profession_plan plan p = Ok tt ->
  row ∈ assigned_skills plan p ->
  valid_skill_id (row_skill_id row) = true /\ valid_association (profession_association row)
  /\ deleted_with_payload row = false.
Proof.
  intros Hv Hp Hr. destruct (assigned_row _ _ _ Hr) as (r & Hin & E & Ha).
  destruct (validated_sound _ Hv). destruct (sound_skills0 r Hin) as (S1 & S2 & S3).
  assert (Hid : row_skill_id row = row_skill_id r) by by rewrite E.
  split; [by rewrite Hid|]. split.
  - destruct Ha as [->|(a & _ & _ & ->)]; [done|]. destruct a as [i [[]|]]; cbn; auto.
  - unfold deleted_with_payload in *. rewrite E. ssimpl. destruct (bool_decide_reflect (skill_state r = SkillState.Deleted)) as [Hd|]; [|done].
    cbn [andb] in *. apply orb_false_iff in S3 as [S3 S4]. rewrite S3. cbn [orb].
    apply bool_decide_eq_false in S4. apply dec_stable in S4. apply bool_decide_eq_false. intros Hne. apply Hne.
    destruct Ha as [->|(a & Ha & Hai & ->)]; [done|]. destruct (validated_tables _ Hv) as (_ & Hm & _).
    assert (Hheld : forall b, b ∈ existing_professions p ++ new_professions p -> planned_skill_id b <> row_skill_id r).
    { intros b Hb Hbi. destruct (planned_held _ _ _ _ Hp Hm Hb) as (x & Hx & Hxd).
      apply skill_table_lookup in Hx as [Hx Hxi]; [|done]. apply Hxd.
      by rewrite (NoDup_key_inj row_skill_id _ x r sound_skill_ids0 Hx Hin (eq_trans Hxi Hbi)). }
    unfold assignments in Ha. apply elem_of_app in Ha as [(n & -> & Hn)%list_elem_of_fmap|(b & -> & Hb)%list_elem_of_fmap].
    + cbn in Hai |- *. destruct (normalization_frees _ _ _ Hp Hn) as [->|(b & Hb & Hbi)]; [done|].
      exfalso. apply (Hheld b Hb). congruence.
    + by destruct (Hheld b Hb).
Qed.

(** * Rows read back *)
#[export] Instance pair_le_trans : Transitive pair_le.
Proof. unfold pair_le. intros ???. lia. Qed.
#[export] Instance pair_le_total : Total pair_le.
Proof. unfold pair_le. intros ??. lia. Qed.
#[export] Instance record_le_trans : Transitive record_le.
Proof. unfold record_le. intros ???. lia. Qed.
#[export] Instance record_le_total : Total record_le.
Proof. unfold record_le. intros ??. lia. Qed.
#[export] Instance skill_row_le_trans : Transitive skill_row_le.
Proof. unfold skill_row_le. intros ???. lia. Qed.
#[export] Instance skill_row_le_total : Total skill_row_le.
Proof. unfold skill_row_le. intros ??. lia. Qed.

(** A sorted list is what its elements sort to. *)
Lemma merge_sort_of {A} (R : A -> A -> Prop) `{forall x y, Decision (R x y)} `{!Transitive R} `{!Total R}
    (l l' : list A) :
  (forall x y, x ∈ l -> y ∈ l -> R x y -> R y x -> x = y) -> StronglySorted R l -> l' ≡ₚ l -> merge_sort R l' = l.
Proof.
  intros Hkey Hs Hp. apply (StronglySorted_unique_strong R); [|by apply StronglySorted_merge_sort|done|].
  - intros x y Hx Hy. rewrite merge_sort_Permutation, Hp in Hx. by apply Hkey.
  - by rewrite merge_sort_Permutation.
Qed.

Lemma merge_sort_ids (l l' : list Z) : StronglySorted Z.le l -> l' ≡ₚ l -> merge_sort Z.le l' = l.
Proof. intros Hs Hp. apply (merge_sort_of Z.le); [|done|done]. intros x y _ _. lia. Qed.

Lemma StronglySorted_keys {A} (key : A -> Z) (l : list A) :
  StronglySorted Z.le (map key l) -> StronglySorted (fun a b => key a <= key b) l.
Proof.
  induction l as [|a l IH]; [constructor|]. cbn [map]. intros [Hs Ha]%StronglySorted_inv.
  constructor; [auto|]. apply Forall_forall. intros b Hb. rewrite Forall_forall in Ha. apply Ha.
  apply list_elem_of_fmap. eauto.
Qed.

Lemma table_of_map {A} (m : gmap Z A) : table_from fst snd ∅ (map_to_list m) = m.
Proof.
  apply map_eq_iff. intros k. apply option_eq. intros v. rewrite table_lookup.
  - rewrite lookup_empty. split.
    + by intros [([k' v'] & H%elem_of_map_to_list & <- & <-)|].
    + intros H. left. exists (k, v). by rewrite elem_of_map_to_list.
  - apply NoDup_fst_map_to_list.
  - intros. apply lookup_empty.
Qed.

Lemma values_of_map {A} (m : gmap Z A) : values_in_order m ≡ₚ (map_to_list m).*2.
Proof.
  rewrite values_in_order_snd. apply fmap_Permutation, NoDup_Permutation.
  - apply (NoDup_fmap_1 fst). rewrite entries_in_order_fst. apply NoDup_keys_in_order.
  - apply NoDup_map_to_list.
  - intros [k v]. by rewrite elem_of_entries_in_order, elem_of_map_to_list.
Qed.

(** ** Overrides *)
Definition in_overrides (m : gmap Z (gset Z)) (e : Z * Z) : Prop := exists s, m !! e.1 = Some s /\ e.2 ∈ s.

Lemma overrides_taken m l :
  (forall e, e ∈ l -> 0 < e.1 /\ 0 < e.2) ->
  exists m', try_each exact_override m l = Some m' /\ forall e, in_overrides m' e <-> e ∈ l \/ in_overrides m e.
Proof.
  revert m. induction l as [|[a b] l IH]; intros m Hl.
  { exists m. split; [done|]. intros e. rewrite elem_of_nil. tauto. }
  destruct (Hl (a, b) ltac:(by left)) as [Ha Hb]. cbn in Ha, Hb. cbn [try_each].
  assert (Ho : exact_override m (a, b) = Some (<[a := {[b]} ∪ default ∅ (m !! a)]> m)).
  { unfold exact_override. cbn [fst snd]. destruct (Z.leb_spec a 0), (Z.leb_spec b 0); (done || lia). }
  rewrite Ho. cbn [mbind option_bind].
  destruct (IH (<[a := {[b]} ∪ default ∅ (m !! a)]> m)) as (m' & E & Hm'); [intros; apply Hl; by right|].
  exists m'. split; [done|]. intros [x y]. rewrite Hm', elem_of_cons. unfold in_overrides. cbn [fst snd].
  destruct (decide (x = a)) as [->|Hx].
  - rewrite lookup_insert_eq. split.
    + intros [He|(s & [= <-] & [->%elem_of_singleton|Hy]%elem_of_union)]; [by left; right|by left; left|].
      right. destruct (m !! a) as [s|]; [eauto|by apply elem_of_empty in Hy].
    + intros [[[= ->]|He]|(s & -> & Hy)]; [right|by left|right]; (eexists; split; [done|]); apply elem_of_union.
      * left. by apply elem_of_singleton.
      * by right.
  - rewrite lookup_insert_ne by done. naive_solver.
Qed.

Lemma elem_of_override_pairs m e : e ∈ override_pairs m <-> in_overrides m e.
Proof.
  destruct e as [a b]. unfold override_pairs, in_overrides. rewrite merge_sort_Permutation, list_elem_of_bind. split.
  - intros ([k s] & (y & [= -> ->] & Hy)%list_elem_of_fmap & Hk%elem_of_map_to_list). cbn in *.
    exists s. by rewrite elem_of_elements in Hy.
  - intros (s & Hs & Hb). exists (a, s). rewrite elem_of_map_to_list. split; [|done]. apply list_elem_of_fmap.
    exists b. by rewrite elem_of_elements.
Qed.

Lemma NoDup_override_pairs m : NoDup (override_pairs m).
Proof.
  unfold override_pairs. rewrite merge_sort_Permutation. apply NoDup_bind.
  - intros [k1 s1] [k2 s2] e H1%elem_of_map_to_list H2%elem_of_map_to_list
      (y & -> & _)%list_elem_of_fmap (z & [= -> ->] & _)%list_elem_of_fmap. cbn in *. by simplify_eq.
  - intros [k s] _. apply NoDup_fmap; [by intros ?? [=]|apply NoDup_elements].
  - apply NoDup_map_to_list.
Qed.

Lemma overrides_read_back l :
  StronglySorted pair_le l -> NoDup l -> (forall e, e ∈ l -> valid_spell_id e.1 = true /\ valid_spell_id e.2 = true) ->
  exists m, try_each exact_override ∅ l = Some m /\ override_pairs m = l /\ collect read_override l = Ok l.
Proof.
  intros Hs Hnd Hl. assert (Hv : forall id, valid_spell_id id = true -> 0 < id /\ is_u32 id = true).
  { intros id. unfold valid_spell_id, is_u32. rewrite !andb_true_iff, negb_true_iff, Z.eqb_neq, !Z.leb_le. lia. }
  destruct (overrides_taken ∅ l) as (m & E & Hm).
  { intros e He. destruct (Hl e He). split; by apply Hv. }
  exists m. split_and!; [done| |].
  - apply (StronglySorted_unique_strong pair_le).
    + intros [] [] _ _. unfold pair_le. cbn. intros. f_equal; lia.
    + by apply (StronglySorted_merge_sort pair_le).
    + done.
    + apply NoDup_Permutation; [apply NoDup_override_pairs|done|]. intros e.
      rewrite elem_of_override_pairs, Hm. unfold in_overrides. setoid_rewrite lookup_empty. naive_solver.
  - clear E Hm Hs Hnd. induction l as [|e l IH]; [done|]. cbn [collect]. unfold read_override at 1.
    destruct (Hl e ltac:(by left)) as [[_ ->]%Hv [_ ->]%Hv]. cbn [andb rbind]. rewrite IH; [done|].
    intros; apply Hl; by right.
Qed.

(** ** Skills *)
Lemma skill_row_back row : valid_association (profession_association row) -> read_skill (skill_record row) = row.
Proof. destruct row. cbn. intros H. unfold read_skill. cbn. by rewrite association_roundtrip. Qed.

Definition settled_row (row : PlayerSkillRow) : Prop :=
  valid_skill_id (row_skill_id row) = true /\ valid_association (profession_association row)
  /\ skill_state row = SkillState.Unchanged.

Section Skills.
Variable l : list PlayerSkillRow.
Hypothesis Hnd : NoDup (map row_skill_id l).
Hypothesis Hs : StronglySorted Z.le (map row_skill_id l).
Hypothesis Hl : forall row, row ∈ l -> settled_row row.

Lemma skill_records_lookup k r :
  skill_records l !! k = Some r <-> exists row, row ∈ l /\ row_skill_id row = k /\ skill_record row = r.
Proof.
  change (skill_records l) with (table_from row_skill_id skill_record ∅ l).
  rewrite table_lookup; [|done|intros; apply lookup_empty]. rewrite lookup_empty. naive_solver.
Qed.

Lemma skill_records_in_order : values_in_order (skill_records l) = map skill_record l.
Proof. by apply (table_in_order row_skill_id). Qed.

Lemma length_skill_records : length (map_to_list (skill_records l)) = length l.
Proof.
  transitivity (length (values_in_order (skill_records l))).
  - by rewrite values_of_map, length_fmap.
  - by rewrite skill_records_in_order, length_map.
Qed.

Lemma exact_skill_records : try_each exact_skill ∅ (map_to_list (skill_records l)) = Some (skill_records l).
Proof.
  rewrite <- (table_of_map (skill_records l)) at 2. apply try_each_table.
  - intros m [k r] (row & Hr & <- & <-)%elem_of_map_to_list%skill_records_lookup Hm. unfold exact_skill. cbn [fst snd] in *.
    destruct (Hl row Hr) as (Hv & _ & Hu). unfold valid_skill_id in Hv. apply andb_prop in Hv as [_ Hv%negb_true_iff].
    rewrite Hv, Hm. cbn [skill_record skill_line_id record_state]. rewrite Z.eqb_refl, Hu. done.
  - apply NoDup_fst_map_to_list.
  - intros. apply lookup_empty.
Qed.

Lemma skill_records_kept : skill_record_map (merge_sort record_le (values_in_order (skill_records l))) = skill_records l.
Proof.
  apply map_eq_iff. intros k. apply option_eq. intros r. rewrite skill_records_lookup.
  change (skill_record_map ?x) with (table_from skill_line_id (fun r : SkillRecord => r) ∅ (filter (fun r => Is_true (is_u16 (skill_line_id r))) x)).
  assert (Hin : forall x, x ∈ filter (fun r => Is_true (is_u16 (skill_line_id r)))
                              (merge_sort record_le (values_in_order (skill_records l)))
                          <-> exists row, row ∈ l /\ skill_record row = x).
  { intros x. rewrite list_elem_of_filter, merge_sort_Permutation, skill_records_in_order, list_elem_of_fmap. split.
    - intros [_ (row & -> & Hr)]. eauto.
    - intros (row & Hr & <-). split; [|eauto]. destruct (Hl row Hr) as (Hv & _). cbn [skill_record skill_line_id].
      apply andb_prop in Hv as [-> _]. done. }
  rewrite table_lookup.
  - rewrite lookup_empty. setoid_rewrite Hin. naive_solver.
  - apply NoDup_map_filter. rewrite merge_sort_Permutation, skill_records_in_order, map_map. done.
  - intros. apply lookup_empty.
Qed.

Lemma skills_read_back : merge_sort skill_row_le (map read_skill (map_to_list (skill_records l)).*2) = l.
Proof.
  apply (merge_sort_of skill_row_le).
  - intros x y Hx Hy. unfold skill_row_le. intros H1 H2. apply (NoDup_key_inj row_skill_id l); auto. lia.
  - by apply StronglySorted_keys.
  - rewrite <- values_of_map, skill_records_in_order, map_map.
    rewrite (map_ext_in _ id); [by rewrite map_id|]. intros row Hr%list_elem_of_In. apply skill_row_back.
    by destruct (Hl row Hr) as (_ & ? & _).
Qed.
End Skills.

(** ** Spells *)
Definition live_row (row : PlayerSpellRow) : Prop :=
  valid_spell_id (row_spell_id row) = true /\ (forall id, trait_definition_id row = Some id -> 0 < id)
  /\ spell_state row <> SpellState.Removed.

Lemma collect_back {A B E} (f : B -> Prelude.result A E) (g : A -> B) l :
  (forall a, a ∈ l -> f (g a) = Ok a) -> collect f (map g l) = Ok l.
Proof.
  induction l as [|a l IH]; intros H; [done|]. cbn [map collect]. rewrite H by by left. cbn [rbind].
  rewrite IH by (intros; apply H; by right). done.
Qed.

Section Spells.
Variable l : list PlayerSpellRow.
Hypothesis Hnd : NoDup (map row_spell_id l).
Hypothesis Hs : StronglySorted Z.le (map row_spell_id l).
Hypothesis Hl : forall row, row ∈ l -> live_row row.

Definition installed_rows : gmap Z KnownSpell := table_from row_spell_id known_spell ∅ l.
Definition trait_table : gmap Z Z := table_from fst snd ∅ (installed_traits l).

Lemma valid_spell_bounds id : valid_spell_id id = true -> 0 < id /\ is_u32 id = true /\ is_i32 id = true.
Proof. unfold valid_spell_id, is_u32, is_i32. rewrite !andb_true_iff, negb_true_iff, Z.eqb_neq, !Z.leb_le. lia. Qed.

Lemma installed_rows_lookup k r :
  installed_rows !! k = Some r <-> exists row, row ∈ l /\ row_spell_id row = k /\ known_spell row = r.
Proof.
  unfold installed_rows. rewrite table_lookup; [|done|intros; apply lookup_empty]. rewrite lookup_empty. naive_solver.
Qed.

Lemma exact_spell_rows : try_each exact_spell ∅ (map known_spell l) = Some installed_rows.
Proof.
  assert (E : installed_rows = table_from known_id (fun r => r) ∅ (map known_spell l)).
  { unfold installed_rows, table_from. clear. generalize (∅ : gmap Z KnownSpell).
    induction l as [|row l' IH]; intros m; [done|]. cbn. apply IH. }
  rewrite E. apply (try_each_table known_id (fun r => r)).
  - intros m a (row & -> & Hr)%list_elem_of_fmap Hm. unfold exact_spell.
    destruct (Hl row Hr) as (Hv & _). apply valid_spell_bounds in Hv as (Hv & _). cbn [known_spell known_id] in *.
    destruct (Z.leb_spec (row_spell_id row) 0); [lia|]. by rewrite Hm.
  - by rewrite map_map.
  - intros. apply lookup_empty.
Qed.

Lemma elem_of_installed_traits k id :
  (k, id) ∈ installed_traits l <-> exists row, row ∈ l /\ row_spell_id row = k /\ trait_definition_id row = Some id.
Proof.
  unfold installed_traits. rewrite list_elem_of_omap.
  assert (Hif : forall row, row ∈ l -> bool_decide (spell_state row = SpellState.Removed) || negb (is_i32 (row_spell_id row)) = false).
  { intros row Hr. destruct (Hl row Hr) as (Hv & _ & Hn). apply valid_spell_bounds in Hv as (_ & _ & ->).
    by rewrite bool_decide_false. }
  split.
  - intros (row & Hr & E). rewrite Hif in E by done. destruct (trait_definition_id row) eqn:Et; simplify_eq/=. eauto.
  - intros (row & Hr & <- & Et). exists row. split; [done|]. rewrite Hif by done. by rewrite Et.
Qed.

Lemma NoDup_installed_traits : NoDup (map fst (installed_traits l)).
Proof.
  assert (Hsub : sublist (map fst (installed_traits l)) (map row_spell_id l)).
  { unfold installed_traits. clear. induction l as [|row l' IH]; [done|]. cbn [omap list_omap map].
    destruct (_ || _); [by constructor|]. destruct (trait_definition_id row); cbn; by constructor. }
  by eapply sublist_NoDup.
Qed.

Lemma trait_table_lookup k id :
  trait_table !! k = Some id <-> exists row, row ∈ l /\ row_spell_id row = k /\ trait_definition_id row = Some id.
Proof.
  unfold trait_table. rewrite table_lookup; [|apply NoDup_installed_traits|intros; apply lookup_empty].
  rewrite lookup_empty, <- elem_of_installed_traits. split.
  - by intros [([k' id'] & H & <- & <-)|].
  - intros H. left. by exists (k, id).
Qed.

Lemma trait_of_row row : row ∈ l -> trait_table !! row_spell_id row = trait_definition_id row.
Proof.
  intros Hr. apply option_eq. intros id. rewrite trait_table_lookup. split.
  - intros (r & Hr' & E & Et). by rewrite <- (NoDup_key_inj row_spell_id l r row Hnd Hr' Hr E).
  - eauto.
Qed.

Lemma exact_traits_table : try_each (exact_trait installed_rows) ∅ (installed_traits l) = Some trait_table.
Proof.
  apply try_each_table; [|apply NoDup_installed_traits|intros; apply lookup_empty].
  intros m [k id] (row & Hr & <- & Et)%elem_of_installed_traits Hm. unfold exact_trait. cbn [fst snd] in *.
  destruct (Hl row Hr) as (_ & Hpos & Hn). specialize (Hpos id Et).
  assert (E : installed_rows !! row_spell_id row = Some (known_spell row)) by (apply installed_rows_lookup; eauto).
  rewrite E, Hm. destruct (Z.leb_spec id 0); [lia|]. cbn [known_spell known_state]. by rewrite bool_decide_true.
Qed.

Lemma no_orphan : find_first (fun id => installed_rows !! id = None) (keys_in_order trait_table) = None.
Proof.
  apply find_first_None. apply Forall_forall. intros k [id (row & Hr & <- & _)%trait_table_lookup]%elem_of_keys_in_order E.
  assert (E' : installed_rows !! row_spell_id row = Some (known_spell row)) by (apply installed_rows_lookup; eauto).
  by rewrite E in E'.
Qed.

Lemma spells_read_back : collect (read_spell trait_table) (values_in_order installed_rows) = Ok l.
Proof.
  unfold installed_rows. rewrite table_in_order by done. apply collect_back. intros row Hr. unfold read_spell.
  destruct (Hl row Hr) as (Hv & Hpos & _). apply valid_spell_bounds in Hv as (_ & Hv & _). cbn [known_spell known_id].
  rewrite Hv, trait_of_row by done. cbn [negb].
  assert (E : match trait_definition_id row with Some id => id <=? 0 | None => false end = false).
  { destruct (trait_definition_id row) as [id|]; [|done]. apply Z.leb_gt. by apply Hpos. }
  rewrite E. by destruct row.
Qed.
End Spells.

(** * Installing *)
(** What a session reads back as it was installed. *)
Record installable (r : Snapshot) : Prop :=
  { inst_spell_ids : NoDup (map row_spell_id (spells r));
    inst_spell_order : StronglySorted Z.le (map row_spell_id (spells r));
    inst_spells : forall row, row ∈ spells r -> live_row row;
    inst_skill_ids : NoDup (map row_skill_id (skills r));
    inst_skill_order : StronglySorted Z.le (map row_skill_id (skills r));
    inst_skills : forall row, row ∈ skills r -> settled_row row;
    inst_overrides : StronglySorted pair_le (overrides r) /\ NoDup (overrides r)
                     /\ forall e, e ∈ overrides r -> valid_spell_id e.1 = true /\ valid_spell_id e.2 = true;
    inst_occupied : occupied_skill_slots r = Z.of_nat (length (skills r)) /\ occupied_skill_slots r <= 256;
    inst_tombstones : StronglySorted Z.le (non_durable_skill_tombstone_ids r)
                      /\ NoDup (non_durable_skill_tombstone_ids r)
                      /\ forall id, id ∈ non_durable_skill_tombstone_ids r ->
                         exists row, row ∈ skills r /\ row_skill_id row = id /\ is_tombstone row = true }.

(** The rest of a snapshot is the session's. *)
Definition of_session (lc : PlayerAcquisitionLifecycle) (conds : list FutureConditionResolution)
    (casts : gmap Z CastResolution) (s : Session) (r : Snapshot) : Prop :=
  character_guid r = session_guid s /\ race r = session_race s /\ class r = session_class s
  /\ level r = session_level s /\ lifecycle r = lc /\ future_player_condition_resolutions r = conds
  /\ cast_resolutions r = casts.

Lemma cleared_tombstone row : is_tombstone row = true -> cleared_record (skill_record row) = true.
Proof.
  unfold is_tombstone, cleared_record. cbn. rewrite !andb_true_iff, !bool_decide_eq_true.
  intros ((((-> & ->) & ->) & ->) & _). done.
Qed.

Lemma tombstones_recorded l ids :
  NoDup (map row_skill_id l) ->
  (forall id, id ∈ ids -> exists row, row ∈ l /\ row_skill_id row = id /\ is_tombstone row = true) ->
  forallb (tombstone_record (skill_records l)) (elements (list_to_set ids : gset Z)) = true.
Proof.
  intros Hnd H. apply forallb_forall. intros id Hid%list_elem_of_In.
  rewrite elem_of_elements, elem_of_list_to_set in Hid. destruct (H id Hid) as (row & Hr & Hi & Ht).
  unfold tombstone_record.
  assert (E : skill_records l !! id = Some (skill_record row)) by (apply skill_records_lookup; eauto).
  rewrite E, (cleared_tombstone _ Ht). cbn [skill_record record_state]. unfold is_tombstone in Ht.
  by apply andb_prop in Ht as [_ ->].
Qed.

Lemma installable_converts r : installable r -> ids_convert r = true.
Proof.
  intros []. unfold ids_convert. rewrite !andb_true_iff, !forallb_forall. split_and!.
  - intros row Hr%list_elem_of_In. destruct (inst_spells0 row Hr) as (Hv & _). by apply valid_spell_bounds in Hv as (_ & _ & ?).
  - intros e He%list_elem_of_In. destruct inst_overrides0 as (_ & _ & H). destruct (H e He) as [H1 H2].
    apply valid_spell_bounds in H1 as (_ & _ & ->). by apply valid_spell_bounds in H2 as (_ & _ & ->).
  - intros row Hr%list_elem_of_In. destruct (inst_skills0 row Hr) as (Hv & _). by apply andb_prop in Hv as [? _].
Qed.

Lemma installable_prepares r :
  installable r ->
  exists overrides', override_pairs overrides' = overrides r /\ collect read_override (overrides r) = Ok (overrides r)
  /\ try_new (map known_spell (spells r)) (installed_traits (spells r)) (overrides r)
       (map_to_list (skill_records (skills r))) (occupied_skill_slots r)
       (list_to_set (non_durable_skill_tombstone_ids r))
     = Some (mkPreparedPlayer (installed_rows (spells r)) (trait_table (spells r)) overrides'
               (skill_records (skills r)) (occupied_skill_slots r) (list_to_set (non_durable_skill_tombstone_ids r))).
Proof.
  intros []. destruct inst_overrides0 as (O1 & O2 & O3). destruct (overrides_read_back _ O1 O2 O3) as (m & E1 & E2 & E3).
  exists m. split_and!; [done..|]. unfold try_new.
  rewrite exact_spell_rows by done. cbn [mbind option_bind]. rewrite exact_traits_table by done. cbn [mbind option_bind].
  rewrite E1. cbn [mbind option_bind]. rewrite length_skill_records by done. destruct inst_occupied0 as [-> Ho].
  destruct (Z.ltb_spec 256 (Z.of_nat (length (skills r)))); [lia|]. rewrite Z.eqb_refl. cbn [orb negb].
  rewrite exact_skill_records by done. cbn [mbind option_bind].
  rewrite tombstones_recorded; [done|done|]. by destruct inst_tombstones0 as (_ & _ & ?).
Qed.

Lemma installed_reads_back r new s p lc conds casts :
  installable r -> owner s = Some p -> of_session lc conds casts s r ->
  kept_tombstones (skill_records (skills r)) (non_durable_skill_tombstones p) new
  = list_to_set (non_durable_skill_tombstone_ids r) ->
  primary_profession_skill_ids r
  = map row_skill_id (filter (fun row => Is_true (live_primary (session_skill_lines s) row)) (skills r)) ->
  exists p', session_install r new s = Some (s <| owner := Some p' |>, Ok tt)
  /\ player_money p' = player_money p
  /\ session_snapshot lc conds casts (s <| owner := Some p' |>) = Ok r.
Proof.
  intros Hi Hp (I1 & I2 & I3 & I4 & I5 & I6 & I7) Ht Hprim.
  destruct (installable_prepares r Hi) as (m & E1 & E2 & E3).
  pose proof (installable_converts r Hi) as Hc. destruct Hi.
  pose proof (skill_records_kept _ inst_skill_ids0 inst_skill_order0 inst_skills0) as Hk.
  eexists. split_and!.
  - unfold session_install. rewrite Hc, Hp. cbn [negb]. unfold replace_complete_acquisition. rewrite Ht, E3, Hp. done.
  - done.
  - unfold session_snapshot. ssimpl. cbn [mbind option_bind ok_or].
    unfold complete_spell_rows, complete_skill_records, complete_occupied_slots, complete_traits, complete_overrides,
      apply_prepared_acquisition, replace_skill_records. ssimpl. cbn [andb mbind option_bind ok_or rbind].
    rewrite no_orphan by done. rewrite spells_read_back by done. cbn [rbind].
    unfold skill_record_map in Hk. rewrite Hk, skills_read_back by done. rewrite E1, E2. cbn [rbind ok_or fmap option_fmap option_map].
    rewrite <- Hprim. f_equal. rewrite (merge_sort_ids (primary_profession_skill_ids r)); [|rewrite Hprim; by apply StronglySorted_filter_map|done].
    unfold set_in_order. rewrite (merge_sort_ids (non_durable_skill_tombstone_ids r)); [|by destruct inst_tombstones0|].
    + rewrite <- I1, <- I2, <- I3, <- I4, <- I5, <- I6, <- I7. by destruct r.
    + apply elements_list_to_set. by destruct inst_tombstones0 as (_ & ? & _).
Qed.

(** * The snapshot of a plan *)
Lemma cleared_settled l1 r row : reassigned l1 r row -> row_skill_id row = row_skill_id r /\ skill_state row = skill_state r
  /\ skill_value row = skill_value r.
Proof. intros [-> _]. done. Qed.

(** A skill that is kept out of the tables is cleared, and stays so after the save. *)
Lemma not_durable_settled tombstones row :
  deleted_with_payload row = false -> not_durable tombstones row = true -> is_tombstone (settle_skill row) = true.
Proof.
  unfold not_durable, deleted_with_payload, is_tombstone, settle_skill. ssimpl. intros Hd H.
  rewrite (bool_decide_true (_ \/ _)) by by left. rewrite andb_true_r.
  apply orb_prop in H as [H|[_ H]%andb_prop].
  - rewrite H in Hd. cbn [andb] in Hd. rewrite !orb_false_iff, !negb_false_iff, bool_decide_eq_false in Hd.
    destruct_and! Hd. repeat match goal with E : (_ =? _) = true |- _ => rewrite E end.
    by rewrite bool_decide_true by by apply dec_stable.
  - by apply andb_prop in H as [-> _].
Qed.

Section Planned.
Variables (n : nat) (snapshot : Snapshot) (metadata : Metadata) (root : SpellAcquisitionRoot)
  (policy : CastSideEffectPolicy) (plan : Plan) (p : CapacityPlan) (current : Snapshot) (q : Prepared).
Hypothesis Hplan : project_with_cast_policy n snapshot metadata root policy = Some (Deterministic plan).
Hypothesis Hready : prepare plan p current = Ok (Ready q).

Lemma planned_orders :
  StronglySorted Z.le (map row_spell_id (spells (resulting_snapshot plan)))
  /\ StronglySorted Z.le (map row_skill_id (skills (resulting_snapshot plan)))
  /\ StronglySorted pair_le (overrides (resulting_snapshot plan)).
Proof.
  destruct (project_inv _ _ _ _ _ _ Hplan) as (a & b & Hnew & Hrun & ->).
  destruct (run_root_replays _ _ _ _ _ Hrun (planner_new_keyed _ _ _ Hnew)) as ([Hk1 Hk2] & _).
  cbn [resulting_snapshot plan_of snapshot_of spells skills overrides]. split_and!.
  - rewrite keys_of_values by exact Hk1. apply keys_in_order_sorted.
  - rewrite keys_of_values by exact Hk2. apply keys_in_order_sorted.
  - by apply (StronglySorted_merge_sort pair_le).
Qed.

(** An old tombstone keeps its row or gets a value. *)
Lemma planned_tombstone id r :
  id ∈ non_durable_skill_tombstone_ids (source_snapshot plan) -> r ∈ skills (resulting_snapshot plan) ->
  row_skill_id r = id -> skill_value r = 0 -> is_tombstone r = true.
Proof.
  intros Hid Hr Hri Hv0. destruct (prepare_Ready _ _ _ _ Hready) as (_ & _ & Hvs & _).
  destruct (validated_sound _ Hvs). destruct (sound_tombstones0 id Hid) as (row & Hrow & Hi & Ht).
  destruct (project_inv _ _ _ _ _ _ Hplan) as (a & b & Hnew & Hrun & E). rewrite E in *.
  destruct (planner_new_Ok _ _ _ Hnew) as (_ & E2 & _).
  destruct (run_root_replays _ _ _ _ _ Hrun (planner_new_keyed _ _ _ Hnew)) as ([_ Hk2] & _).
  cbn [resulting_snapshot plan_of snapshot_of skills source_snapshot] in *.
  assert (Hrow' : p_skills a !! id = Some row) by (rewrite E2; by apply skill_table_lookup).
  destruct (run_root_spares _ _ _ _ _ Hrun id row ltac:(by intros []) Hrow') as (row' & Eb & Hrow'').
  apply elem_of_values_in_order in Hr as [k Er]. assert (k = id) by (rewrite <- Hri; symmetry; by apply Hk2). subst k.
  rewrite Er in Eb. injection Eb as <-. destruct Hrow'' as [->|]; [done|lia].
Qed.

Lemma planned_installable : installable (runtime_snapshot q).
Proof.
  destruct planned_orders as (O1 & O2 & O3).
  destruct (prepare_Ready _ _ _ _ Hready) as (Ht & _ & Hvs & Hv & Hp). pose proof (validated_sound _ Hv) as [].
  unfold translate_plan in Ht. apply rbind_unit_Ok in Ht as [_ Ht]. apply rbind_unit_Ok in Ht as [_ [= <-]].
  assert (Hids : map row_skill_id (map settle_skill (assigned_skills plan p)) = map row_skill_id (skills (resulting_snapshot plan))).
  { by rewrite settle_skill_ids, assigned_skills_ids. }
  assert (Hsp : map row_spell_id (settle_spells (spells (resulting_snapshot plan)))
    = map row_spell_id (filter (fun row => Is_true (bool_decide (spell_state row <> SpellState.Removed))) (spells (resulting_snapshot plan)))).
  { unfold settle_spells. rewrite map_map. apply map_ext. intros row. unfold settle_spell. by case_bool_decide. }
  split; ssimpl.
  - rewrite Hsp. by apply NoDup_map_filter.
  - rewrite Hsp. by apply StronglySorted_filter_map.
  - intros row (r & -> & [Hs Hr]%list_elem_of_filter)%list_elem_of_fmap. destruct (sound_spells0 r Hr) as [H1 H2].
    apply Is_true_true, bool_decide_eq_true in Hs. unfold settle_spell. by case_bool_decide.
  - by rewrite Hids.
  - by rewrite Hids.
  - intros row (r & -> & Hr)%list_elem_of_fmap. by destruct (assigned_sound _ _ _ Hv Hp Hr) as (H1 & H2 & _).
  - destruct sound_overrides0. done.
  - rewrite length_map, <- (length_map row_skill_id), assigned_skills_ids, length_map. done.
  - unfold tombstone_ids. split_and!.
    + by apply (StronglySorted_merge_sort Z.le).
    + rewrite merge_sort_Permutation. apply NoDup_remove_dups.
    + intros id. rewrite merge_sort_Permutation, elem_of_remove_dups.
      intros (row & -> & [Hd Hr]%list_elem_of_filter)%list_elem_of_fmap.
      exists (settle_skill row). split_and!; [apply list_elem_of_fmap; eauto|done|].
      apply Is_true_true in Hd. apply (not_durable_settled _ _) in Hd; [done|].
      by destruct (assigned_sound _ _ _ Hv Hp Hr) as (_ & _ & ?).
Qed.

(** The assigned rows are the rows of the result, but for their associations. *)
Lemma assigned_partner r :
  r ∈ skills (resulting_snapshot plan) -> exists row, row ∈ assigned_skills plan p /\ reassigned (assignments p) r row.
Proof.
  intros Hr. destruct (prepare_Ready _ _ _ _ Hready) as (_ & _ & _ & Hv & _). destruct (validated_sound _ Hv).
  assert (Hid : row_skill_id r ∈ map row_skill_id (assigned_skills plan p)).
  { rewrite assigned_skills_ids. apply list_elem_of_fmap. eauto. }
  apply list_elem_of_fmap in Hid as (row & Hi & Hrow). exists row. split; [done|].
  destruct (assigned_row _ _ _ Hrow) as (r' & Hr' & Hrr).
  by rewrite (NoDup_key_inj row_skill_id _ r r' sound_skill_ids0 Hr Hr') by (by rewrite Hi, (proj1 Hrr)).
Qed.

Lemma translated_fields :
  skills (runtime_snapshot q) = map settle_skill (assigned_skills plan p)
  /\ non_durable_skill_tombstone_ids (runtime_snapshot q) = prepared_tombstones q
  /\ prepared_tombstones q = tombstone_ids (non_durable_skill_tombstone_ids (source_snapshot plan)) (assigned_skills plan p)
  /\ primary_profession_skill_ids (runtime_snapshot q) = primary_profession_skill_ids (resulting_snapshot plan).
Proof.
  destruct (prepare_Ready _ _ _ _ Hready) as (Ht & _). unfold translate_plan in Ht.
  apply rbind_unit_Ok in Ht as [_ Ht]. by apply rbind_unit_Ok in Ht as [_ [= <-]].
Qed.

Lemma planned_tombstones_kept old :
  set_in_order old = non_durable_skill_tombstone_ids (source_snapshot plan) ->
  kept_tombstones (skill_records (skills (runtime_snapshot q))) old (prepared_tombstones q)
  = list_to_set (non_durable_skill_tombstone_ids (runtime_snapshot q)).
Proof.
  intros Hold. destruct translated_fields as (-> & -> & E & _). destruct planned_installable.
  destruct (prepare_Ready _ _ _ _ Hready) as (_ & _ & _ & Hv & Hp).
  unfold kept_tombstones. apply leibniz_equiv. intros id. rewrite elem_of_union, !elem_of_list_to_set.
  split; [|by right]. intros [[Ht Ho]%list_elem_of_filter|]; [|done].
  assert (Hsrc : id ∈ non_durable_skill_tombstone_ids (source_snapshot plan)).
  { rewrite <- Hold. unfold set_in_order. by rewrite merge_sort_Permutation. }
  rewrite E. apply elem_of_tombstone_ids. unfold tombstone_record in Ht.
  destruct (skill_records _ !! id) as [x|] eqn:Ex; [|done]. apply Is_true_true, andb_prop in Ht as [Hc _].
  apply skill_records_lookup in Ex as (row & (y & -> & Hy)%list_elem_of_fmap & Hi & <-);
    [|rewrite settle_skill_ids, assigned_skills_ids; by destruct (validated_sound _ Hv)].
  apply list_elem_of_fmap. exists y. split; [done|]. apply list_elem_of_filter. split; [|done].
  apply Is_true_true. unfold not_durable. apply orb_true_intro. right. cbn in Hi. rewrite Hi.
  rewrite bool_decide_true by done. cbn [andb].
  destruct (assigned_sound _ _ _ Hv Hp Hy) as (_ & Ha & _).
  unfold cleared_record, skill_record, settle_skill in Hc. cbn in Hc. rewrite !andb_true_iff, !Z.eqb_eq in Hc.
  destruct Hc as (((H1 & H2) & H3) & H4). apply association_cleared in H4; [|done].
  destruct (assigned_row _ _ _ Hy) as (r & Hr & Er & _).
  assert (Hst : is_tombstone r = true).
  { apply (planned_tombstone id); [done|done|by rewrite <- Hi, Er|by rewrite <- H2, Er]. }
  unfold is_tombstone in *. rewrite H1, H2, H3, H4. rewrite Er. ssimpl.
  by apply andb_prop in Hst as [_ ->].
Qed.

Lemma planned_primary :
  primary_profession_skill_ids (runtime_snapshot q)
  = map row_skill_id (filter (fun row => Is_true (live_primary (Some (skill_lines metadata)) row)) (skills (runtime_snapshot q))).
Proof.
  destruct planned_orders as (_ & O & _). destruct translated_fields as (-> & _ & _ & ->).
  destruct (prepare_Ready _ _ _ _ Hready) as (_ & _ & _ & Hv & Hp). destruct (validated_sound _ Hv).
  assert (Hids : map row_skill_id (map settle_skill (assigned_skills plan p)) = map row_skill_id (skills (resulting_snapshot plan))).
  { by rewrite settle_skill_ids, assigned_skills_ids. }
  assert (E : primary_profession_skill_ids (resulting_snapshot plan)
    = map row_skill_id (filter (fun row => Is_true (live_primary (Some (skill_lines metadata)) row)) (skills (resulting_snapshot plan)))).
  { by destruct (project_inv _ _ _ _ _ _ Hplan) as (a & b & _ & _ & ->). }
  rewrite E. apply (StronglySorted_unique Z.le); [by apply StronglySorted_filter_map|..].
  { apply StronglySorted_filter_map. by rewrite Hids. }
  apply NoDup_Permutation; [by apply NoDup_map_filter|apply NoDup_map_filter; by rewrite Hids|].
  assert (Hsame : forall r row, reassigned (assignments p) r row -> row ∈ assigned_skills plan p ->
    live_primary (Some (skill_lines metadata)) (settle_skill row) = live_primary (Some (skill_lines metadata)) r).
  { intros r row [Er _] Hrow. destruct (assigned_sound _ _ _ Hv Hp Hrow) as (_ & _ & Hd). rewrite Er in *.
    unfold deleted_with_payload in Hd. unfold live_primary, settle_skill. ssimpl.
    destruct (bool_decide_reflect (skill_state r = SkillState.Deleted)) as [Hs|Hs].
    - rewrite Hs in *. cbn [andb] in Hd. rewrite !orb_false_iff, !negb_false_iff in Hd.
      destruct_and! Hd. repeat match goal with E : (skill_value _ =? 0) = true |- _ => rewrite E end.
      rewrite !andb_false_r. done.
    - by rewrite !(bool_decide_true (_ <> SkillState.Deleted)). }
  intros id. rewrite !list_elem_of_fmap. split.
  - intros (r & -> & [Hf Hr]%list_elem_of_filter). destruct (assigned_partner r Hr) as (row & Hrow & Hrr).
    exists (settle_skill row). split; [by rewrite (proj1 Hrr)|]. apply list_elem_of_filter.
    rewrite (Hsame r row) by done. split; [done|]. apply list_elem_of_fmap. eauto.
  - intros (x & -> & [Hf (row & -> & Hrow)%list_elem_of_fmap]%list_elem_of_filter).
    destruct (assigned_row _ _ _ Hrow) as (r & Hr & Hrr). exists r. split; [by rewrite (proj1 Hrr)|].
    apply list_elem_of_filter. by rewrite <- (Hsame r row).
Qed.

Lemma planned_of_session lc conds casts s :
  of_session lc conds casts s (source_snapshot plan) -> of_session lc conds casts s (runtime_snapshot q).
Proof.
  destruct (prepare_Ready _ _ _ _ Hready) as (Ht & _). unfold translate_plan in Ht.
  apply rbind_unit_Ok in Ht as [_ Ht]. apply rbind_unit_Ok in Ht as [_ [= <-]].
  by destruct (project_inv _ _ _ _ _ _ Hplan) as (a & b & _ & _ & ->).
Qed.
End Planned.

Lemma session_snapshot_Ok lc conds casts s r :
  session_snapshot lc conds casts s = Ok r ->
  exists p, owner s = Some p /\ of_session lc conds casts s r
  /\ set_in_order (non_durable_skill_tombstones p) = non_durable_skill_tombstone_ids r.
Proof.
  unfold session_snapshot. destruct (owner s) as [p|]; [|done]. cbn [mbind option_bind]. unfold rbind, ok_or.
  repeat case_match; try done; intros [= <-]; simplify_eq/=. by exists p.
Qed.

Lemma planned_install (n : nat) (snapshot : Snapshot) (metadata : Metadata) (root : SpellAcquisitionRoot)
    (policy : CastSideEffectPolicy) (plan : Plan) (p : CapacityPlan) (current : Snapshot) (q : Prepared)
    (lc : PlayerAcquisitionLifecycle) (conds : list FutureConditionResolution) (casts : gmap Z CastResolution)
    (s : Session) (x : Player) :
  project_with_cast_policy n snapshot metadata root policy = Some (Deterministic plan) ->
  session_snapshot lc conds casts s = Ok current -> session_skill_lines s = Some (skill_lines metadata) ->
  prepare plan p current = Ok (Ready q) -> owner s = Some x ->
  exists x', session_install (runtime_snapshot q) (prepared_tombstones q) s = Some (s <| owner := Some x' |>, Ok tt)
  /\ player_money x' = player_money x
  /\ session_snapshot lc conds casts (s <| owner := Some x' |>) = Ok (runtime_snapshot q).
Proof.
  intros Hplan Hs Hlines Hready Hx. destruct (session_snapshot_Ok _ _ _ _ _ Hs) as (y & Hy & Hof & Hold).
  rewrite Hx in Hy. injection Hy as <-.
  destruct (prepare_Ready _ _ _ _ Hready) as (_ & Esrc & _). rewrite Esrc in Hof, Hold.
  apply (installed_reads_back (runtime_snapshot q)).
  - by eapply planned_installable.
  - done.
  - by eapply planned_of_session.
  - by eapply planned_tombstones_kept.
  - rewrite Hlines. by eapply planned_primary.
Qed.

(** C4: An acquisition that is installed in a session reads back.  Where the session
    that gave the snapshot of a plan installs what was prepared, nothing is refused,
    no id fails to convert, the money and the identity are kept, and the snapshot
    the session is read into then is the one that was installed: every spell with
    its trait, every override, every skill with its slot, the professions, and
    exactly the tombstones that the tables do not hold. *)
Theorem installed_snapshot_reads_back (n : nat) (snapshot : Snapshot) (metadata : Metadata)
    (root : SpellAcquisitionRoot) (policy : CastSideEffectPolicy) (plan : Plan) (p : CapacityPlan) (q : Prepared)
    (lc : PlayerAcquisitionLifecycle) (conds : list FutureConditionResolution) (casts : gmap Z CastResolution)
    (s : Session) :
  project_with_cast_policy n snapshot metadata root policy = Some (Deterministic plan) ->
  session_snapshot lc conds casts s = Ok snapshot -> session_skill_lines s = Some (skill_lines metadata) ->
  prepare plan p snapshot = Ok (Ready q) ->
  exists s', session_install (runtime_snapshot q) (prepared_tombstones q) s = Some (s', Ok tt)
  /\ session_snapshot lc conds casts s' = Ok (runtime_snapshot q)
  /\ player_money <$> owner s' = player_money <$> owner s /\ session_guid s' = session_guid s.
Proof.
  intros Hplan Hs Hlines Hready. destruct (session_snapshot_Ok _ _ _ _ _ Hs) as (x & Hx & _).
  destruct (planned_install _ _ _ _ _ _ _ _ _ _ _ _ _ _ Hplan Hs Hlines Hready Hx) as (x' & E1 & E2 & E3).
  exists (s <| owner := Some x' |>). split_and!; [done|done| |done]. rewrite Hx. cbn. by rewrite E2.
Qed.
