(* ===== verification/SpellPurchase.v ===== *)
(** A purchase from a trainer, from the offer to the tables: it never panics, and
    where the session is not kicked it either leaves the player and the database as
    they were, or the price is paid and what was prepared is in memory and in the
    tables.  The database has the money and the rows of the session before and after. *)
From stdpp Require Import sorting.
From S2P Require Import Prelude BTree Guid Float32 SpellCatalog SpellModel SpellPlanner SpellPlannerSpell Profession SpellReplay SpellApply SpellApplyTheorems SpellReplayTheorems SpellLearned SpellTrainer SpellSession SpellSessionTheorems.

(** * Runs that end *)
Definition ends {A} (m : Rt World A) (w : World) (Q : A -> World -> Prop) : Prop :=
  exists w' a, m w = Some (w', a) /\ Q a w'.

Lemma ends_ret {A} (a : A) w (Q : A -> World -> Prop) : Q a w -> ends (rt_ret a) w Q.
Proof. intros H. by exists w, a. Qed.
Lemma ends_read {A} (f : World -> A) w (Q : A -> World -> Prop) : Q (f w) w -> ends (rt_read f) w Q.
Proof. intros H. by exists w, (f w). Qed.
Lemma ends_mono {A} (m : Rt World A) w (P Q : A -> World -> Prop) :
  ends m w P -> (forall a w', P a w' -> Q a w') -> ends m w Q.
Proof. intros (w' & a & E & H) HPQ. exists w', a. auto. Qed.
Lemma ends_bind {A B} (m : Rt World A) (k : A -> Rt World B) w (Q : B -> World -> Prop) :
  ends m w (fun a w1 => ends (k a) w1 Q) -> ends (rt_bind m k) w Q.
Proof. intros (w1 & a & E & w2 & b & E' & H). exists w2, b. unfold rt_bind. by rewrite E. Qed.
Lemma ends_try {B} (m : Rt World applied) (k : Rt World (Prelude.result B ApplyError)) w Q :
  ends m w (fun r w1 => match r with Ok _ => ends k w1 Q | Err e => Q (Err e) w1 end) -> ends (rt_try m k) w Q.
Proof.
  intros H. apply ends_bind. eapply ends_mono; [exact H|]. intros [] w1 H1; [done|by apply ends_ret].
Qed.

(** * Steps that only show *)
(** Packets are sent and dual wield is granted; the rest stays. *)
Record quiet (w w' : World) : Prop :=
  { quiet_db : database w' = database w;
    quiet_guid : session_guid (session w') = session_guid (session w);
    quiet_money : player_money <$> owner (session w') = player_money <$> owner (session w);
    quiet_rows : forall lc conds casts,
      session_snapshot lc conds casts (session w') = session_snapshot lc conds casts (session w) }.

#[export] Instance quiet_preorder : PreOrder quiet.
Proof.
  split; [by split|]. intros w1 w2 w3 [] []. split; [congruence..|]. intros lc conds casts. by rewrite quiet_rows1.
Qed.

Definition quietly {A} (m : Rt World A) : Prop := forall w, ends m w (fun _ w' => quiet w w').

Create HintDb quiet.

Lemma quietly_ret {A} (a : A) : quietly (rt_ret a).
Proof. intros w. by apply ends_ret. Qed.
Lemma quietly_read {A} (f : World -> A) : quietly (rt_read f).
Proof. intros w. by apply ends_read. Qed.
Lemma quietly_bind {A B} (m : Rt World A) (k : A -> Rt World B) :
  quietly m -> (forall a, quietly (k a)) -> quietly (rt_bind m k).
Proof.
  intros Hm Hk w. apply ends_bind. eapply ends_mono; [apply Hm|]. intros a w1 H1.
  eapply ends_mono; [apply Hk|]. intros b w2 H2. by transitivity w1.
Qed.
Lemma quietly_try {B} (m : Rt World applied) (k : Rt World (Prelude.result B ApplyError)) :
  quietly m -> quietly k -> quietly (rt_try m k).
Proof. intros Hm Hk. apply quietly_bind; [done|]. intros []; [done|apply quietly_ret]. Qed.
Lemma quietly_sends l : quietly (in_session (sends l)).
Proof. intros w. eexists _, _. split; [done|]. by split. Qed.
#[export] Hint Resolve quietly_ret quietly_read quietly_sends : quiet.

(** Walks through a computation whose parts are known. *)
Ltac quietly :=
  repeat first
    [ progress eauto with quiet
    | apply quietly_try | apply quietly_bind; [|intros ?]
    | match goal with |- quietly (match ?x with _ => _ end) => destruct x end ].

Lemma grant_quietly : quietly (in_session session_grant_dual_wield).
Proof.
  intros w. unfold ends, in_session, session_grant_dual_wield.
  destruct (session_guid (session w)) as [g|] eqn:Eg, (owner (session w)) as [x|] eqn:Ex;
    (eexists _, _; split; [reflexivity|]); try by destruct w.
  split; cbn; [done|done|by rewrite Ex|]. intros lc conds casts. unfold session_snapshot. cbn. by rewrite Ex.
Qed.

(** The ids of a published action convert. *)
Definition publishable (a : PostCommitAction) : Prop :=
  match a with
  | LearnedSpell spell_id _ _ => is_i32 spell_id = true
  | SupersededSpell old_spell_id new_spell_id => is_i32 old_spell_id = true /\ is_i32 new_spell_id = true
  | _ => True
  end.

Lemma publish_quietly a d : publishable a -> quietly (in_session (session_publish a d)).
Proof.
  intros Ha w. unfold publishable in Ha. destruct a; unfold ends, in_session, session_publish.
  all: try match type of Ha with _ /\ _ => destruct Ha as [Ha Hb]; rewrite Hb end; try rewrite Ha.
  all: eexists _, _; (split; [reflexivity|]); by split.
Qed.
#[export] Hint Resolve grant_quietly publish_quietly : quiet.

Section Applying.
Variable actions : list PostCommitAction.

Lemma grant_all_quietly : quietly (grant_all actions).
Proof. induction actions as [|a l IH]; cbn [grant_all]; quietly. Qed.
Lemma record_all_quietly : quietly (record_all (S := World) actions).
Proof. induction actions as [|a l IH]; cbn [record_all]; quietly. Qed.
Lemma non_packet_quietly : quietly (apply_non_packet_runtime_actions actions).
Proof.
  unfold apply_non_packet_runtime_actions. pose proof grant_all_quietly. pose proof record_all_quietly.
  cbn [begin_action_batch session_acquisition]. quietly.
Qed.

Lemma publish_from_quietly index snapshot :
  Forall publishable actions -> quietly (publish_from index snapshot actions true no_fault).
Proof.
  revert index. induction actions as [|a l IH]; intros index H; cbn [publish_from]; [quietly|].
  apply Forall_cons in H as [Ha Hl]. specialize (IH (1 + index)%nat Hl). cbn [no_fault]. quietly. by apply publish_quietly.
Qed.
End Applying.

Lemma apply_actions_quietly a :
  Forall publishable (actions_list a) -> runtime_actions_already_applied a = true -> quietly (apply_prepared_actions a).
Proof.
  intros H Ht. unfold apply_prepared_actions, publish_actions. rewrite Ht.
  pose proof (publish_from_quietly _ 0 (actions_snapshot a) H). quietly.
Qed.

(** * The actions of a plan *)
Lemma checked_publishable rs rk ts evidence v previous a next v' s :
  spell_map s = Ok rs -> check_action rs rk ts evidence v previous a next = Ok v' -> publishable a.
Proof.
  intros Hs. pose proof (spell_map_table _ _ Hs) as Ht. destruct a; cbn [check_action publishable]; try done; intros E.
  - unfold check_learned in E. destruct (consume_action_evidence _ _); [|discriminate].
    destruct (rs !! spell_id) as [row|] eqn:El; [|discriminate].
    assert (Hr : row ∈ spells s /\ row_spell_id row = spell_id).
    { apply spell_table_lookup; [|by rewrite <- Ht]. by apply (map_rows row_spell_id _ _ _ _ insert_spell_row_fresh Hs). }
    destruct Hr as [Hr <-]. by apply (spell_map_valid _ _ Hs), valid_spell_bounds in Hr as (_ & _ & ?).
  - unfold check_superseded in E. apply rbind_unit_Ok in E as [H1%require_Ok E]. apply rbind_unit_Ok in E as [H2%require_Ok _].
    apply valid_spell_bounds in H1 as (_ & _ & ?). by apply valid_spell_bounds in H2 as (_ & _ & ?).
Qed.

Lemma checked_all_publishable rs rk ts evidence v previous l v' s :
  spell_map s = Ok rs -> check_actions rs rk ts evidence v previous l = Ok v' -> Forall publishable l.
Proof.
  intros Hs. revert v previous. induction l as [|a l IH]; intros v previous E; [constructor|]. cbn [check_actions] in E.
  apply rbind_Ok in E as (v1 & H1 & E). constructor; [by eapply checked_publishable|by eapply IH].
Qed.

Lemma plan_publishable plan p current r :
  prepare plan p current = Ok r -> Forall publishable (post_commit_actions plan).
Proof.
  unfold prepare. intros [H _]%rbind_unit_Ok. unfold validate_plan_replay, validate_plan_replay_with in H.
  do 4 apply rbind_unit_Ok in H as [_ H]. apply rbind_Ok in H as (? & _ & H). do 2 apply rbind_unit_Ok in H as [_ H].
  apply rbind_unit_Ok in H as [H _]. unfold validate_post_commit_actions in H. apply rbind_unit_Ok in H as [_ H].
  apply rbind_Ok in H as (rs & Hs & H). apply rbind_Ok in H as (rk & _ & H). apply rbind_Ok in H as (src & _ & H).
  apply rbind_Ok in H as (v & H & _). by eapply checked_all_publishable.
Qed.

(** What a purchase installs, and the actions it then publishes. *)
Definition purchased (p : PreparedPurchase) : list PostCommitAction :=
  match p with Durable p => prepared_actions p | OnlyActions a => actions_list a | Nothing => [] end.

Lemma prepared_publishable o snapshot p :
  prepared_purchase o snapshot = Some p -> Forall publishable (purchased p).
Proof.
  unfold prepared_purchase. destruct (prepare _ _ _) as [r|] eqn:E; [|discriminate].
  pose proof (plan_publishable _ _ _ _ E) as H. unfold prepare in E.
  apply rbind_unit_Ok in E as [_ E]. apply rbind_unit_Ok in E as [_ E]. apply rbind_Ok in E as (t & Et & E).
  assert (Ha : prepared_actions t = post_commit_actions (acquisition_plan o)).
  { unfold translate_plan in Et. apply rbind_unit_Ok in Et as [_ Et]. by apply rbind_unit_Ok in Et as [_ [= <-]]. }
  rewrite <- Ha in *. repeat case_match; simplify_eq; intros [= <-]; cbn [purchased actions_list]; (done || constructor).
Qed.

(** ** Tables
    Only a commit writes the database. *)
Definition keeps_tables {A} (m : Rt World A) : Prop :=
  forall w w' a, m w = Some (w', a) -> database w' = database w.

Lemma keeps_bind {A B} (m : Rt World A) (k : A -> Rt World B) :
  keeps_tables m -> (forall a, keeps_tables (k a)) -> keeps_tables (rt_bind m k).
Proof.
  intros Hm Hk w w' b E. unfold rt_bind in E. destruct (m w) as [[w1 a]|] eqn:E1; [|discriminate].
  by rewrite (Hk _ _ _ _ E), (Hm _ _ _ E1).
Qed.
Lemma keeps_ret {A} (a : A) : keeps_tables (rt_ret a).
Proof. by intros w w' b [= <- _]. Qed.
Lemma keeps_reading {A} (f : World -> A) : keeps_tables (rt_read f).
Proof. by intros w w' b [= <- _]. Qed.
Lemma keeps_session {A} (m : Rt Session A) : keeps_tables (in_session m).
Proof. intros w w' a E. unfold in_session in E. destruct (m (session w)) as [[s b]|]; by simplify_eq. Qed.

Ltac keeps :=
  repeat first
    [ solve [auto with quiet] | apply keeps_ret | apply keeps_reading | apply keeps_session | apply keeps_bind; [|intros ?]
    | match goal with |- keeps_tables (match ?x with _ => _ end) => destruct x end ].

Lemma keeps_grants actions : keeps_tables (apply_non_packet_runtime_actions actions).
Proof.
  assert (H1 : keeps_tables (grant_all actions)).
  { induction actions; cbn [grant_all grant_dual_wield session_acquisition]; keeps. }
  assert (H2 : keeps_tables (record_all (S := World) actions)).
  { clear H1. induction actions; cbn [record_all record_action session_acquisition]; keeps. }
  unfold apply_non_packet_runtime_actions, rt_try. cbn [begin_action_batch session_acquisition]. keeps.
Qed.

Lemma keeps_publication index s actions already : keeps_tables (publish_from index s actions already no_fault).
Proof.
  revert index. induction actions as [|a l IH]; intros index;
    cbn [publish_from no_fault record_action grant_dual_wield publish_action session_acquisition]; keeps; apply IH.
Qed.

#[export] Hint Resolve keeps_grants keeps_publication : quiet.

Lemma ends_keeps {A} (m : Rt World A) w (Q : A -> World -> Prop) :
  keeps_tables m -> ends m w Q -> ends m w (fun a w' => Q a w' /\ database w' = database w).
Proof. intros Hm (w' & a & E & H). exists w', a. split_and!; [done..|by eapply Hm]. Qed.

(** * In step *)
(** The tables have the money of the player, and exactly the rows of a session that
    has nothing left to save. *)
Record in_step (g : ObjectGuid) (w : World) : Prop :=
  { money_in_step : forall x, owner (session w) = Some x ->
      character_money (database w) !! counter g = Some (player_money x);
    rows_in_step : forall r rows, session_snapshot InWorld [] ∅ (session w) = Ok r ->
      stable_source_durable_authority r = Some rows -> read_durable_authority (counter g) (database w) = rows }.

(** The balance and the rows of a player in the tables. *)
Definition written (g : ObjectGuid) (after : Z) (rows : Authority) (d : SpellDb) : Prop :=
  character_money d !! counter g = Some after /\ read_durable_authority (counter g) d = rows.

(** The database is as it was; packets were sent, or the map removed the player. *)
Definition nothing_bought (w w' : World) : Prop :=
  database w' = database w
  /\ ((exists l, session w' = send l (session w)) \/ session w' = (session w) <| owner := None |>).

(** The snapshot a purchase is decided on, and the one it leaves. *)
Definition offered_snapshot (o : TrainerOffer) (w : World) : Prelude.result Snapshot SnapshotAdapterError :=
  let source := source_snapshot (acquisition_plan o) in
  session_snapshot InWorld (future_player_condition_resolutions source) (cast_resolutions source) (session w).
Definition acquired (o : TrainerOffer) (current : Snapshot) : Snapshot :=
  match prepare (acquisition_plan o) (profession_plan o) current with
  | Ok (Ready q) => runtime_snapshot q
  | _ => current
  end.

Definition paid (o : TrainerOffer) (w w' : World) : Prop :=
  exists x x' current,
  owner (session w) = Some x /\ owner (session w') = Some x' /\ effective_price o <= player_money x
  /\ player_money x' = player_money x - effective_price o
  /\ offered_snapshot o w = Ok current /\ offered_snapshot o w' = Ok (acquired o current).

(** The tables after a purchase: all of it, or nothing. *)
Definition acquired_rows (o : TrainerOffer) (current : Snapshot) (rows : Authority) : Authority :=
  match prepare (acquisition_plan o) (profession_plan o) current with
  | Ok (Ready q) => durable_rows q
  | _ => rows
  end.
Definition stored (g : ObjectGuid) (o : TrainerOffer) (w w' : World) : Prop :=
  database w' = database w
  \/ exists x current,
     owner (session w) = Some x /\ offered_snapshot o w = Ok current /\ effective_price o <= player_money x
     /\ written g (player_money x - effective_price o)
          (acquired_rows o current (read_durable_authority (counter g) (database w))) (database w').

Definition purchase_outcome (g : ObjectGuid) (o : TrainerOffer) (w w' : World) : Prop :=
  stored g o w w' /\ (kicked (session w') = true \/ (in_step g w' /\ (nothing_bought w w' \/ paid o w w'))).

Lemma snapshot_independent lc conds casts lc' conds' casts' s r :
  session_snapshot lc conds casts s = Ok r ->
  session_snapshot lc' conds' casts' s
  = Ok (r <| lifecycle := lc' |> <| future_player_condition_resolutions := conds' |> <| cast_resolutions := casts' |>).
Proof. unfold session_snapshot, rbind, ok_or. intros E. by repeat case_match; simplify_eq/=. Qed.

Lemma nothing_in_step g w w' : in_step g w -> nothing_bought w w' -> in_step g w'.
Proof.
  intros [Hm Hr] [Hd [[l Hs]|Hs]]; split; rewrite Hd, Hs; [exact Hm|exact Hr|done|done].
Qed.

(** * The parts of a purchase *)
Section Purchase.
Variable env : Outside.
#[local] Existing Instance session_acquisition.
#[local] Instance trainer : TrainerRuntime World unit := session_trainer env.

Lemma publish_purchase_quietly publication changed actions :
  (forall a, actions = Some a -> Forall publishable (actions_list a) /\ runtime_actions_already_applied a = true) ->
  quietly (publish_purchase (X := unit) publication changed actions).
Proof.
  intros H. unfold publish_purchase. cbn [trainer session_trainer fence_instance_before_realm publish_visuals fence_realm_before_instance publish_skills].
  destruct actions as [a|]; [|quietly]. destruct (H a eq_refl) as [H1 H2].
  pose proof (apply_actions_quietly a H1 H2). quietly.
Qed.

(** The map may have removed the player during a commit. *)
Definition kept (s s' : Session) : Prop := s' = s \/ s' = s <| owner := None |>.

Lemma awaited_kept s : kept s (awaited env s).
Proof. unfold kept, awaited. destruct (player_stays env); auto. Qed.

(** What a commit leaves. *)
Definition committed (g : ObjectGuid) (w : World) (after : Z) (rows : Authority) (b : bool) (w' : World) : Prop :=
  if b then kept (session w) (session w') /\ written g after rows (database w')
  else (kicked (session w') = true /\ (database w' = database w \/ written g after rows (database w')))
       \/ (kept (session w) (session w') /\ database w' = database w).

Lemma commit_durable q before after g w :
  session_guid (session w) = Some g -> in_table_order (durable_rows q) ->
  operation_tokens (database w) !! counter g <> Some (fresh_token env) ->
  ends (commit_money_and_acquisition env q before after) w (committed g w after (durable_rows q)).
Proof.
  intros Hg Ho Htok. unfold ends, commit_money_and_acquisition. rewrite Hg.
  assert (Hsame : committed g w after (durable_rows q) false w) by (right; split; [by left|done]).
  destruct (acquisition_port (session w)); [|by exists w, false].
  unfold persistence_request. case_bool_decide; [by exists w, false|].
  destruct (stable_source_durable_authority (prepared_source q)) as [src|]; [|by exists w, false].
  set (r := mkRequest _ _ _ _ _ _ _). destruct (persist_through_port _ _ _ _ r _) as [d outcome] eqn:E.
  pose proof (port_outcome _ _ _ _ r _ _ _ Ho Htok E) as H'. pose proof (awaited_kept (session w)) as Hk.
  assert (Hdone : d = replaced r (database w) -> written g after (durable_rows q) d).
  { intros ->. split; [apply lookup_insert_eq|by apply (read_replaced r)]. }
  destruct outcome; (eexists _, _; split; [reflexivity|]); try (split; [done|by apply Hdone]).
  - right. by split.
  - left. split; [done|]. destruct H' as [->|[H' _]]; [by left|right]. by apply Hdone.
Qed.

Lemma commit_money before after g w :
  session_guid (session w) = Some g -> character_money (database w) !! counter g = Some before ->
  ends (commit_money_only env before after) w
    (committed g w after (read_durable_authority (counter g) (database w))).
Proof.
  intros Hg Hm. unfold ends, commit_money_only. rewrite Hg. set (rows := read_durable_authority _ _).
  destruct (Z.eqb_spec before after) as [->|Hne].
  { exists w, true. split; [done|]. split; [by left|done]. }
  assert (Hsame : committed g w after rows false w) by (right; split; [by left|done]).
  destruct (lifecycle_port (session w)); cbn [negb]; [|by exists w, false].
  pose proof (awaited_kept (session w)) as Hk.
  assert (Hw : written g after rows (write_money (counter g) after (database w))).
  { unfold written, write_money. rewrite Hm. split; [apply lookup_insert_eq|done]. }
  assert (Hdone : committed g w after rows true
                    (mkWorld (awaited env (session w)) (write_money (counter g) after (database w)))) by done.
  assert (Hback : committed g w after rows false (mkWorld (awaited env (session w)) (database w))) by (right; by split).
  destruct (money_end env) as [| |durable readable]; cbn [money_outcome]; [by eexists _, true|by eexists _, false|].
  unfold reconcile_absolute_money. destruct (Z.eqb_spec before after) as [|_]; [done|].
  destruct durable, readable; try rewrite (proj1 Hw); try rewrite Hm; try rewrite Z.eqb_refl.
  - by eexists _, true.
  - eexists _, false. split; [done|left]. split; [done|by right].
  - destruct (Z.eqb_spec before after) as [|_]; [done|]. by eexists _, false.
  - eexists _, false. split; [done|left]. split; [done|by left].
Qed.

(** ** Installing *)
Lemma keeps_install p : keeps_tables (install_purchase (X := unit) p).
Proof.
  unfold install_purchase, install_prepared, install_prepared_actions, apply_runtime_snapshot, publish_actions, rt_try.
  cbn [install_snapshot begin_action_batch session_acquisition]. keeps.
Qed.

Lemma keeps_publish publication changed actions : keeps_tables (publish_purchase (X := unit) publication changed actions).
Proof.
  unfold publish_purchase, apply_prepared_actions, publish_actions, rt_try.
  cbn [trainer session_trainer fence_instance_before_realm publish_visuals fence_realm_before_instance publish_skills
    begin_action_batch session_acquisition]. keeps.
Qed.

Section Reading.
Variables (conds : list FutureConditionResolution) (casts : gmap Z CastResolution).
Definition look (w : World) : Prelude.result Snapshot SnapshotAdapterError :=
  session_snapshot InWorld conds casts (session w).

Definition installed_from (p : PreparedPurchase) (w w' : World) : Prop :=
  database w' = database w /\ session_guid (session w') = session_guid (session w)
  /\ player_money <$> owner (session w') = player_money <$> owner (session w)
  /\ look w' = match p with Durable q => Ok (runtime_snapshot q) | _ => look w end.

Lemma installed_quiet p w w1 w2 : installed_from p w w1 -> quiet w1 w2 -> installed_from p w w2.
Proof.
  intros (H1 & H2 & H3 & H4) []. unfold installed_from, look in *. rewrite quiet_rows0. by split_and!; [congruence..|].
Qed.

(** The actions that come with an installation are ready to be published. *)
Definition ready_actions (actions : option PreparedActions) : Prop :=
  forall a, actions = Some a -> Forall publishable (actions_list a) /\ runtime_actions_already_applied a = true.

Variables (n : nat) (snapshot : Snapshot) (metadata : Metadata) (root : SpellAcquisitionRoot)
  (policy : CastSideEffectPolicy) (o : TrainerOffer) (current : Snapshot) (p : PreparedPurchase) (w : World).
Hypothesis Hplan : project_with_cast_policy n snapshot metadata root policy = Some (Deterministic (acquisition_plan o)).
Hypothesis Hlines : session_skill_lines (session w) = Some (skill_lines metadata).
Hypothesis Hlook : look w = Ok current.
Hypothesis Hprepared : prepared_purchase o current = Some p.

Lemma durable_Ready q : p = Durable q -> prepare (acquisition_plan o) (profession_plan o) current = Ok (Ready q).
Proof. intros ->. unfold prepared_purchase in Hprepared. by repeat case_match; simplify_eq. Qed.

Lemma install_snapshot_ends q w1 :
  p = Durable q -> kept (session w) (session w1) ->
  ends (in_session (session_install (runtime_snapshot q) (prepared_tombstones q))) w1 (fun r w2 =>
    match r with Ok _ => is_Some (owner (session w1)) /\ installed_from p w1 w2 | Err _ => True end).
Proof.
  intros Hp Hk. pose proof (durable_Ready q Hp) as Hready. unfold ends, in_session.
  destruct (owner (session w1)) as [x|] eqn:Hx.
  - destruct Hk as [Hk|Hk]; [|by rewrite Hk in Hx].
    unfold look in Hlook. rewrite <- Hk in *.
    destruct (planned_install _ _ _ _ _ _ _ _ _ _ _ _ _ _ Hplan Hlook Hlines Hready Hx) as (x' & E1 & E2 & E3).
    rewrite E1. eexists _, _. split; [reflexivity|]. split; [done|]. rewrite Hp.
    split_and!; [done|done| |exact E3]. rewrite Hx. cbn. by rewrite E2.
  - assert (Hc : ids_convert (runtime_snapshot q) = true) by (eapply installable_converts, planned_installable; eassumption).
    unfold session_install. rewrite Hc, Hx. cbn [negb]. by eexists _, _.
Qed.

Lemma install_ends w1 :
  kept (session w) (session w1) ->
  ends (install_purchase (X := unit) p) w1 (fun r w2 =>
    match r with
    | Ok actions => ready_actions actions
        /\ match owner (session w1) with None => owner (session w2) = None | Some _ => installed_from p w1 w2 end
    | Err _ => True
    end).
Proof.
  intros Hk. pose proof (prepared_publishable _ _ _ Hprepared) as Hpub. pose proof install_snapshot_ends as Hinstall.
  unfold install_purchase. destruct p as [q|a|] eqn:Hp; cbn [purchased] in Hpub.
  - apply ends_bind. unfold install_prepared. apply ends_try, ends_read.
    destruct (require_character _ _); [|by apply ends_ret]. apply ends_try, ends_read.
    destruct (preflight_owners _ _); [|by apply ends_ret]. apply ends_try. unfold apply_runtime_snapshot.
    apply ends_try, ends_read. cbn [preflight_owners existsb andb]. apply ends_try.
    eapply ends_mono; [by apply Hinstall|]. intros [u|] w2 H2; [|by apply ends_ret].
    destruct H2 as [[x Hx] H2]. apply ends_bind, ends_ret. unfold publish_actions. apply ends_bind, ends_ret.
    cbn [publish_from]. apply ends_ret, ends_try. eapply ends_mono; [apply non_packet_quietly|].
    intros [v|] w3 H3; [|by apply ends_ret]. apply ends_ret, ends_ret. rewrite Hx. split.
    + by intros b [= <-].
    + by eapply installed_quiet.
  - apply ends_bind. unfold install_prepared_actions. apply ends_try, ends_read.
    destruct (validate_prepared_actions _ _); [|by apply ends_ret]. apply ends_try.
    eapply ends_mono; [apply non_packet_quietly|]. intros [v|] w3 H3; [|by apply ends_ret].
    apply ends_ret, ends_ret. split; [by intros b [= <-]|]. destruct H3.
    destruct (owner (session w1)) as [x|] eqn:Hx.
    + split_and!; [done|done|by rewrite quiet_money0, Hx|apply quiet_rows0].
    + by apply fmap_None in quiet_money0.
  - apply ends_ret. split; [done|]. by destruct (owner (session w1)).
Qed.

(** ** From the commit on *)
Lemma stage_ends before after w1 :
  ends (in_session (session_stage_money before after)) w1 (fun staged w' =>
    match owner (session w1) with
    | None => staged = false
    | Some _ => staged = true /\ database w' = database w1 /\ session_guid (session w') = session_guid (session w1)
        /\ player_money <$> owner (session w') = Some after /\ look w' = look w1
    end).
Proof.
  unfold ends, in_session, session_stage_money, look. destruct (owner (session w1)) as [x|] eqn:Hx; [|by eexists _, _].
  eexists _, _. split; [reflexivity|]. unfold session_snapshot. rewrite Hx. by destruct (before =? after).
Qed.

Variables (g : ObjectGuid) (before after : Z).
Hypothesis Hguid : session_guid (session w) = Some g.
Hypothesis Htoken : operation_tokens (database w) !! counter g <> Some (fresh_token env).
Hypothesis Hmoney : character_money (database w) !! counter g = Some before.

Definition purchased_rows : Authority :=
  match p with Durable q => durable_rows q | _ => read_durable_authority (counter g) (database w) end.

(** Paid, installed and stored. *)
Definition settled (w' : World) : Prop :=
  character_money (database w') !! counter g = Some after
  /\ read_durable_authority (counter g) (database w') = purchased_rows
  /\ session_guid (session w') = Some g /\ player_money <$> owner (session w') = Some after
  /\ look w' = match p with Durable q => Ok (runtime_snapshot q) | _ => look w end.

Lemma settled_quiet w1 w2 : settled w1 -> quiet w1 w2 -> settled w2.
Proof.
  intros (H1 & H2 & H3 & H4 & H5) []. unfold settled, look in *. rewrite quiet_rows0. by split_and!; [congruence..|].
Qed.

Lemma commit_ends :
  ends (commit_acquisition tt (durable_part p) before after) w (fun x w' =>
    committed g w after purchased_rows (bool_decide (is_Some x)) w').
Proof.
  assert (H : ends (match durable_part p with
                    | Some q => commit_money_and_acquisition env q before after
                    | None => commit_money_only env before after end) w (committed g w after purchased_rows)).
  { unfold purchased_rows. pose proof durable_Ready as Hready. destruct p as [q|a|]; cbn [durable_part]; try by apply commit_money.
    destruct (prepare_Ready _ _ _ _ (Hready q eq_refl)) as (Ht & _ & _ & Hv & _).
    apply commit_durable; [done|by eapply translated_in_order|done]. }
  unfold commit_acquisition. cbn [trainer session_trainer]. apply ends_bind. eapply ends_mono; [exact H|].
  intros b w' Hb. apply ends_ret. by destruct b.
Qed.

Lemma execute_ends publication :
  ends (execute_trainer_acquisition tt o current before after publication) w (fun r w' =>
    (database w' = database w \/ written g after purchased_rows (database w'))
    /\ match r.1 with
       | PurchaseApplied => settled w'
       | InvalidPreparation => w' = w
       | PersistenceUnavailable => kicked (session w') = true \/ (kept (session w) (session w') /\ database w' = database w)
       | _ => True
       end).
Proof.
  unfold execute_trainer_acquisition. rewrite Hprepared. apply ends_bind, ends_read.
  destruct (validate_purchase p w); [|by apply ends_ret; split; [left|]]. apply ends_bind. eapply ends_mono; [apply commit_ends|].
  intros [x|] w1 H1; cbn in H1.
  2:{ apply ends_ret. destruct H1 as [[H1 Hd]|[Hk Hd]]; (split; [tauto|cbn; tauto]). }
  destruct H1 as (Hk & Hw). pose proof Hw as [Hm Hr].
  apply ends_bind. eapply ends_mono; [apply ends_keeps; [apply keeps_install|by apply install_ends]|].
  intros [actions|] w2 [H2 Hd2]; [|apply ends_ret; split; [right; by rewrite Hd2|done]].
  destruct H2 as [Hready H2]. apply ends_bind. eapply ends_mono; [apply ends_keeps; [apply keeps_session|apply stage_ends]|].
  intros staged w3 [H3 Hd3]. destruct (owner (session w1)) as [y|] eqn:Hy.
  2:{ rewrite H2 in H3. rewrite H3. apply ends_ret. split; [right; by rewrite Hd3, Hd2|done]. }
  destruct H2 as (I1 & I2 & I3 & I4). rewrite Hy in I3. destruct (owner (session w2)); [|discriminate].
  destruct H3 as (-> & S1 & S2 & S3 & S4). cbn [negb].
  assert (Hg1 : session_guid (session w1) = Some g) by (destruct Hk as [->| ->]; done).
  assert (Hl1 : look w1 = look w).
  { destruct Hk as [Hk|Hk]; unfold look; [by rewrite Hk|by rewrite Hk in Hy]. }
  assert (H3 : settled w3).
  { unfold settled. rewrite S1, I1, S2, I2, S4, I4. split_and!; [done..|]. by rewrite Hl1. }
  apply ends_bind. eapply (ends_mono _ _ (fun _ w4 => settled w4)).
  { eapply (ends_mono _ _ (fun _ w4 => quiet w3 w4)); [|intros _ w4; by apply settled_quiet].
    destruct (before =? after); [by apply ends_ret|]. apply quietly_sends. }
  intros _ w4 H4. apply ends_bind.
  pose proof (publish_purchase_quietly publication (skills_change p) actions Hready w4) as (w5 & r & E & Hq).
  exists w5, r. split; [exact E|]. apply ends_ret. cbn [fst].
  pose proof (settled_quiet _ _ H4 Hq) as H5. split; [right; by destruct H5 as (? & ? & _)|].
  destruct r; try done; exfalso; unfold publish_purchase, rt_bind, rt_ret in E; by repeat case_match; simplify_eq.
Qed.
End Reading.

(** ** The whole purchase *)
Lemma settled_in_step conds casts o current p w g after w' x :
  look conds casts w = Ok current -> prepared_purchase o current = Some p -> in_step g w ->
  owner (session w) = Some x -> settled conds casts p w g after w' -> in_step g w'.
Proof.
  intros Hlook Hp [Hm Hr] Hx (S1 & S2 & S3 & S4 & S5). split.
  - intros y Hy. rewrite Hy in S4. injection S4 as <-. done.
  - intros r rows E Hrows. rewrite S2. unfold purchased_rows. unfold look in *.
    pose proof (durable_Ready o current p Hp) as Hready.
    destruct p as [q|a|]; [|rewrite Hlook in S5..].
    + pose proof (snapshot_independent _ _ _ InWorld [] ∅ _ _ S5) as E'. rewrite E in E'. injection E' as ->.
      destruct (prepare_Ready _ _ _ _ (Hready q eq_refl)) as (Ht & _ & _ & Hv & _).
      destruct (translated_authority _ _ _ Ht Hv) as (Hq & _).
      change (stable_source_durable_authority (runtime_snapshot q) = Some rows) in Hrows. congruence.
    + pose proof (snapshot_independent _ _ _ InWorld [] ∅ _ _ S5) as E'. rewrite E in E'. injection E' as ->.
      eapply Hr; [by eapply snapshot_independent|done].
    + pose proof (snapshot_independent _ _ _ InWorld [] ∅ _ _ S5) as E'. rewrite E in E'. injection E' as ->.
      eapply Hr; [by eapply snapshot_independent|done].
Qed.
End Purchase.

Lemma purchased_acquired o current p w g :
  prepared_purchase o current = Some p ->
  purchased_rows p w g = acquired_rows o current (read_durable_authority (counter g) (database w))
  /\ match p with Durable q => runtime_snapshot q | _ => current end = acquired o current.
Proof.
  unfold prepared_purchase, purchased_rows, acquired_rows, acquired. intros E. by repeat case_match; simplify_eq.
Qed.

Lemma nothing_outcome g o w w' : in_step g w -> nothing_bought w w' -> purchase_outcome g o w w'.
Proof.
  intros Hstep H. split; [by left; destruct H|]. right. split; [by eapply nothing_in_step|by left].
Qed.

Lemma send_nothing s : send [] s = s.
Proof. unfold send. rewrite app_nil_r. by destruct s. Qed.

(** C1: A purchase is all or nothing, and keeps the database in step.  Buying an
    offer whose plan is the planner's never panics, and its tables are those of
    before or have both the balance less the price and the rows that were prepared.
    If the session is not kicked at the end, the tables still hold the money and the
    rows of the player in memory, and either the database and the player are
    untouched, up to packets and to the map removing the player, or he had the
    price, is short of exactly the price, and his spells and skills are those that
    were prepared. *)
Theorem purchase_in_step (env : Outside) (o : TrainerOffer) (trainer : ObjectGuid) (position : Position)
    (capped : Z -> bool) (n : nat) (snapshot : Snapshot) (metadata : Metadata) (root : SpellAcquisitionRoot)
    (policy : CastSideEffectPolicy) (g : ObjectGuid) (w : World) :
  project_with_cast_policy n snapshot metadata root policy = Some (Deterministic (acquisition_plan o)) ->
  session_skill_lines (session w) = Some (skill_lines metadata) -> session_guid (session w) = Some g ->
  operation_tokens (database w) !! counter g <> Some (fresh_token env) -> in_step g w ->
  exists w', buy_offer env o trainer position capped w = Some (w', tt)
  /\ stored g o w w'
  /\ (kicked (session w') = true \/ (in_step g w' /\ (nothing_bought w w' \/ paid o w w'))).
Proof.
  intros Hplan Hlines Hguid Htok Hstep.
  cut (ends (buy_offer env o trainer position capped) w (fun _ w' => purchase_outcome g o w w')).
  { intros (w' & [] & E & H). by exists w'. }
  assert (Hsame : purchase_outcome g o w w).
  { apply nothing_outcome; [done|]. split; [done|]. left. exists []. by rewrite send_nothing. }
  assert (Hfail : forall reason, ends (in_session (sends [PacketBuyFailed reason])) w (fun _ w' => purchase_outcome g o w w')).
  { intros reason. eexists _, _. split; [reflexivity|]. apply nothing_outcome; [done|]. split; [done|]. left. by eexists. }
  unfold buy_offer. destruct (match battle_pet_species_id o with Some _ => _ | None => _ end); [by apply ends_ret|].
  apply ends_bind, ends_read. destruct (owner (session w)) as [x|] eqn:Hx; cbn [fmap option_fmap option_map]; [|by apply ends_ret].
  destruct (Z.ltb_spec (player_money x) (effective_price o)) as [|Hprice]; [apply Hfail|].
  apply ends_bind, ends_read. destruct (session_snapshot _ _ _ _) as [current|] eqn:Hlook; [|apply Hfail].
  destruct (character_guid current) as [guid|]; [|apply Hfail].
  set (conds := future_player_condition_resolutions _) in *. set (casts := cast_resolutions _) in *.
  apply ends_bind. destruct (prepared_purchase o current) as [p|] eqn:Hp.
  2:{ unfold execute_trainer_acquisition. rewrite Hp. apply ends_ret. cbn [fst]. apply Hfail. }
  destruct (purchased_acquired o current p w g Hp) as [Erows Esnap].
  eapply ends_mono.
  { apply (execute_ends env conds casts n snapshot metadata root policy o current p w Hplan Hlines Hlook Hp g
             (player_money x) (player_money x - effective_price o) Hguid Htok). by apply (money_in_step g w Hstep). }
  intros [r exclusion] w' [Hd H]. cbn [fst] in *.
  assert (Hstored : stored g o w w').
  { destruct Hd as [Hd|Hd]; [by left|right]. exists x, current. by rewrite <- Erows. }
  assert (Hkick : ends (in_session (fun s => Some (kick s, tt))) w' (fun _ w'' => purchase_outcome g o w w'')).
  { eexists _, _. split; [reflexivity|]. split; [exact Hstored|by left]. }
  destruct r; try exact Hkick.
  - apply ends_ret. split; [done|]. right. split; [by eapply settled_in_step|]. right.
    destruct H as (_ & _ & _ & S4 & S5). destruct (owner (session w')) as [x'|] eqn:Hx'; [|discriminate].
    injection S4 as S4. exists x, x', current. split_and!; try done.
    unfold offered_snapshot. fold conds casts. unfold look in S5. rewrite S5, Hlook, <- Esnap. by destruct p.
  - subst w'. apply Hfail.
  - apply ends_ret. destruct H as [H|[[H|H] Hd']]; [by split; [|left]|apply nothing_outcome; [done|]; split; [done|]..].
    + left. exists []. by rewrite send_nothing.
    + by right.
Qed.

(** * A purchase *)
(** The alchemist of SpellLearned.v, in his session. *)
Definition demo_player : Player :=
  mkPlayer [100] {[100 := known_spell rank_row]} true true ∅ {[100]} ∅ ∅ ∅ true ∅ true
    [skill_record (skill_row 60)] true true (Some 1) ∅ 1000 false.
Definition demo_session : Session :=
  mkSession demo_guid (Some demo_player) 1 1 80 (Some demo_skill_lines) true true [] [] false false.
Definition demo_world : World := mkWorld demo_session demo_db.

(** The transaction is committed, but its answer is lost. *)
Definition demo_outside : Outside :=
  mkOutside (fun _ => None) (CommitLost true "lost") (fun _ => None) true [1] MoneyCommitted true true true.
Definition demo_offer (plan : Plan) : TrainerOffer := mkTrainerOffer 200 100 plan demo_capacity None.
Definition demo_position : Position :=
  let zero := f32_from_bits 0 in mkPosition zero zero zero zero.

Lemma demo_in_step : in_step (create_player 1 42) demo_world.
Proof. split; [by intros x [= <-]|]. intros r rows [= <-] [= <-]. by vm_compute. Qed.

Lemma installed_snapshot_reads_back_witness :
  exists plan q s',
  demo_plan alchemy alchemist 200 = Some plan
  /\ prepare plan demo_capacity alchemist = Ok (Ready q)
  /\ session_install (runtime_snapshot q) (prepared_tombstones q) demo_session = Some (s', Ok tt)
  /\ session_snapshot InWorld [] ∅ s' = Ok (runtime_snapshot q).
Proof.
  let p := eval vm_compute in (demo_plan alchemy alchemist 200) in
  match p with Some ?plan => exists plan; pose (learned := plan) end.
  let r := eval vm_compute in (prepare learned demo_capacity alchemist) in
  match r with Ok (Ready ?q) => exists q; pose (ready := q) end.
  destruct (installed_snapshot_reads_back planner_fuel alchemist alchemy (DirectLearn 200) RequireComplete learned
              demo_capacity ready InWorld [] ∅ demo_session) as (s' & H1 & H2 & _);
    [vm_compute; reflexivity..|].
  exists s'. split; [vm_compute; reflexivity|]. split; [vm_compute; reflexivity|]. split; [exact H1|exact H2].
Defined.

Lemma purchase_in_step_witness :
  exists plan w',
  demo_plan alchemy alchemist 200 = Some plan
  /\ buy_offer demo_outside (demo_offer plan) EMPTY demo_position (fun _ => false) demo_world = Some (w', tt)
  /\ player_money <$> owner (session w') = Some 900
  /\ stored (create_player 1 42) (demo_offer plan) demo_world w'.
Proof.
  let p := eval vm_compute in (demo_plan alchemy alchemist 200) in
  match p with Some ?plan => exists plan; pose (learned := plan) end.
  destruct (purchase_in_step demo_outside (demo_offer learned) EMPTY demo_position (fun _ => false) planner_fuel alchemist
              alchemy (DirectLearn 200) RequireComplete (create_player 1 42) demo_world) as (w' & H1 & H2 & _);
    [vm_compute; reflexivity|reflexivity|reflexivity|vm_compute; discriminate|exact demo_in_step|].
  exists w'. split; [vm_compute; reflexivity|]. split; [exact H1|]. split; [|exact H2].
  assert (E : player_money <$> (r ← buy_offer demo_outside (demo_offer learned) EMPTY demo_position (fun _ => false) demo_world;
                owner (session (fst r))) = Some 900) by (vm_compute; reflexivity).
  rewrite H1 in E. exact E.
Defined.
