(* ===== verification/SpellRuntime.v ===== *)
(** The spells of a player in memory: the operations of wow-entities/src/player/
    spell_runtime.rs and spellbook.rs on the rows, the known spells and what is
    derived of them, and those of the session on top (wow-world/src/session/
    spell_state/spell.rs and spellbook.rs).  Known spells are exactly those of the
    live rows ([known_rows]) and what keeps them so. *)
From S2P Require Import Prelude BTree Guid SpellCatalog SpellModel SpellApply SpellTrainer SpellSession.

(** * The player (spell_runtime.rs, spellbook.rs) *)
#[export] Instance eta_known_spell : Eta KnownSpell := fun r =>
  mkKnownSpell (known_id r) (known_state r) (known_active r) (known_disabled r) (known_favorite r)
    (known_dependent r).
#[export] Instance known_spell_eq_dec : EqDecision KnownSpell.
Proof. solve_decision. Defined.

Definition learn_known_spell_id (id : Z) (p : Player) : Player :=
  p <| known_spells := if bool_decide (id ∈ known_spells p) then known_spells p else known_spells p ++ [id] |>
    <| removed_known_spells := removed_known_spells p ∖ {[id]} |>.

Definition mark_known_spell_dependent (id : Z) (p : Player) : Player :=
  p <| dependent_known_spells := {[id]} ∪ dependent_known_spells p |>
    <| favorite_known_spells := favorite_known_spells p ∖ {[id]} |>
    <| player_rows :=
         if rows_complete p
         then alter (fun r => r <| known_dependent := true |> <| known_favorite := false |>) id (player_rows p)
         else player_rows p |>.

(** [ForgottenKnownSpellLikeCpp]. *)
Record Forgotten : Type := mkForgotten { was_known : bool; was_dependent : bool }.

Definition forget_known_spell (id : Z) (p : Player) : Player * Forgotten :=
  let f := mkForgotten (bool_decide (id ∈ known_spells p)) (bool_decide (id ∈ dependent_known_spells p)) in
  (p <| known_spells := filter (fun known => known <> id) (known_spells p) |>
     <| dependent_known_spells := dependent_known_spells p ∖ {[id]} |>
     <| favorite_known_spells := favorite_known_spells p ∖ {[id]} |>
     <| removed_known_spells :=
          if was_known f && negb (was_dependent f) then {[id]} ∪ removed_known_spells p
          else removed_known_spells p |>, f).

Definition replace_known_favorites (favorites : list Z) (p : Player) : Player :=
  let kept : gset Z := list_to_set (filter (fun id => id ∈ known_spells p) favorites) in
  p <| favorite_known_spells := kept |>
    <| player_rows :=
         if rows_complete p
         then (fun r => r <| known_favorite := bool_decide (known_id r ∈ kept) |>) <$> player_rows p
         else player_rows p |>.

Definition clear_rows (p : Player) : Player :=
  p <| player_rows := ∅ |> <| rows_loaded := false |> <| rows_complete := false |>.
Definition replace_rows (rows : gmap Z KnownSpell) (complete : bool) (p : Player) : Player :=
  p <| player_rows := rows |> <| rows_loaded := true |> <| rows_complete := complete |>.
Definition insert_fallback_row (id : Z) (row : KnownSpell) (p : Player) : Player :=
  p <| fallback_rows := <[id := row]> (fallback_rows p) |>.

Definition set_acquisition_snapshot_completeness (traits overrides : bool) (p : Player) : Player :=
  p <| trait_definition_ids_complete := traits |> <| override_spells_complete := overrides |>.

Definition take_trait_definition_id (id : Z) (p : Player) : Player * option Z :=
  (p <| trait_definition_ids := delete id (trait_definition_ids p) |>, trait_definition_ids p !! id).

Definition add_override_spell (overridden replacement : Z) (p : Player) : Player :=
  if (0 <? overridden) && (0 <? replacement)
  then p <| override_spells :=
              <[overridden := {[replacement]} ∪ default ∅ (override_spells p !! overridden)]> (override_spells p) |>
  else p.

(** The entry goes with its last replacement. *)
Definition remove_override_spell (overridden replacement : Z) (p : Player) : Player :=
  match override_spells p !! overridden with
  | Some set =>
      let rest := set ∖ {[replacement]} in
      p <| override_spells :=
             if decide (rest = ∅) then delete overridden (override_spells p)
             else <[overridden := rest]> (override_spells p) |>
  | None => p
  end.

Definition live (r : KnownSpell) : bool := bool_decide (known_state r <> SpellState.Removed).
Definition is_temporary (r : KnownSpell) : bool := bool_decide (known_state r = SpellState.Temporary).
Definition settle_row (r : KnownSpell) : KnownSpell :=
  if is_temporary r then r else r <| known_state := SpellState.Unchanged |>.

(** The sets and the list of known spells made again from the rows. *)
Definition derive_from_rows (p : Player) : Player :=
  let rows := player_rows p in
  p <| dependent_known_spells := list_to_set (ids_where (fun r => live r && known_dependent r) rows) |>
    <| favorite_known_spells := list_to_set (ids_where (fun r => live r && known_favorite r) rows) |>
    <| known_spells := ids_where (fun r => live r && negb (known_disabled r)) rows |>.

(** [retain(|id, _| rows.contains_key(id))]. *)
Definition retain_traits (p : Player) : Player :=
  p <| trait_definition_ids :=
         filter (fun e : Z * Z => is_Some (player_rows p !! e.1)) (trait_definition_ids p) |>.

(** Only live rows are left to derive from. *)
Definition mark_spell_rows_saved (p : Player) : Player :=
  derive_from_rows
    (retain_traits
       (p <| player_rows := settle_row <$> filter (fun e : Z * KnownSpell => Is_true (live e.2)) (player_rows p) |>
          <| removed_known_spells := ∅ |>)).

(** A grant that was kept while nothing was loaded, against the loaded row. *)
Definition reconcile_loaded (fallback loaded : KnownSpell) : KnownSpell :=
  let active := if known_disabled loaded then known_active loaded else true in
  let promoted := known_dependent fallback && negb (known_dependent loaded) in
  loaded <| known_active := active |> <| known_disabled := false |>
    <| known_state :=
         match known_state loaded with
         | SpellState.New => SpellState.New
         | SpellState.Removed => SpellState.Changed
         | SpellState.Temporary => SpellState.New
         | s => if known_disabled loaded || negb (eqb (known_active loaded) active) || promoted
                then SpellState.Changed else s
         end |>
    <| known_dependent := known_dependent loaded || known_dependent fallback |>.

Definition merge_fallback (rows : gmap Z KnownSpell) (e : Z * KnownSpell) : gmap Z KnownSpell :=
  <[e.1 := match rows !! e.1 with Some loaded => reconcile_loaded e.2 loaded | None => e.2 end]> rows.

Definition replace_loaded_spell_rows (rows : gmap Z KnownSpell) (complete : bool) (p : Player) : Player :=
  replace_rows (foldl merge_fallback rows (entries_in_order (fallback_rows p))) complete p.

(** [None] clears what was there: a duplicate or an id that is not positive. *)
Definition exact_trait_row (m : gmap Z Z) (t : Z * Z) : option (gmap Z Z) :=
  if (t.1 <=? 0) || (t.2 <=? 0) || bool_decide (is_Some (m !! t.1)) then None else Some (<[t.1 := t.2]> m).
Definition replace_complete_trait_definition_ids (traits : list (Z * Z)) (p : Player) : Player * bool :=
  match try_each exact_trait_row ∅ traits with
  | Some m => (p <| trait_definition_ids := m |> <| trait_definition_ids_complete := true |>, true)
  | None => (p <| trait_definition_ids := ∅ |> <| trait_definition_ids_complete := false |>, false)
  end.

(** * The session (spell.rs, spellbook.rs) *)
(** A transition of the player, where the session has one. *)
Definition mutate_player (f : Player -> Player) (s : Session) : Session :=
  match owner s with Some p => s <| owner := Some (f p) |> | None => s end.
Definition invalidate_auxiliary (s : Session) : Session :=
  mutate_player (set_acquisition_snapshot_completeness false false) s.
Definition invalidate_rows (s : Session) : Session := invalidate_auxiliary (mutate_player clear_rows s).

(** Learning alone does not keep the rows exact. *)
Definition learn_known_spell (id : Z) (s : Session) : Session :=
  mutate_player (learn_known_spell_id id) (invalidate_rows s).
Definition learn_dependent_known_spell (id : Z) (s : Session) : Session :=
  mutate_player (mark_known_spell_dependent id) (learn_known_spell id s).

(** [complete_rows]: the rows where they were complete. *)
Definition install_loaded_spell_row (id : Z) (row : KnownSpell) (complete_rows : option (gmap Z KnownSpell))
    (s : Session) : Session :=
  mutate_player
    (match complete_rows with
     | Some rows => replace_rows (<[id := row]> rows) true
     | None => insert_fallback_row id row
     end) s.

Definition exact_loaded_row (m : gmap Z KnownSpell) (r : KnownSpell) : option (gmap Z KnownSpell) :=
  if (known_id r <=? 0) || bool_decide (is_Some (m !! known_id r)) then None else Some (<[known_id r := r]> m).

Definition replace_loaded_player_spell_rows (rows : list KnownSpell) (complete : bool) (s : Session) :
    Session * bool :=
  let s := invalidate_auxiliary s in
  match try_each exact_loaded_row ∅ rows with
  | None => (invalidate_rows s, false)
  | Some rows => (mutate_player (replace_loaded_spell_rows rows complete) s, bool_decide (is_Some (owner s)))
  end.

(** The part of [remove_known_spell_with_seen_like_cpp] that forgets the spell
    itself, where the rows are complete: was it dependent? *)
Definition removed_row (r : KnownSpell) : KnownSpell :=
  r <| known_active := false |> <| known_disabled := false |> <| known_dependent := false |>
    <| known_favorite := false |> <| known_state := SpellState.Removed |>.
Definition forget_row (id : Z) (p : Player) : Player * bool :=
  let '(p', f) := forget_known_spell id p in
  (if rows_complete p
   then p' <| player_rows := if was_dependent f then delete id (player_rows p')
                             else alter removed_row id (player_rows p') |>
   else p', was_dependent f).

(** * Known spells follow the rows *)
Definition keyed_rows (rows : gmap Z KnownSpell) : Prop := map_Forall (fun id r => known_id r = id) rows.
Definition usable (r : KnownSpell) : bool := live r && negb (known_disabled r).

(** The known spells are those of the usable rows. *)
Definition known_rows (p : Player) : Prop :=
  keyed_rows (player_rows p)
  /\ forall id, id ∈ known_spells p <-> exists r, player_rows p !! id = Some r /\ usable r = true.

Lemma elem_of_ids_where (f : KnownSpell -> bool) rows id :
  keyed_rows rows -> id ∈ ids_where f rows <-> exists r, rows !! id = Some r /\ f r = true.
Proof.
  intros Hk. unfold ids_where. rewrite list_elem_of_fmap. split.
  - intros (r & -> & [Hf (k & E)%elem_of_values_in_order]%list_elem_of_filter).
    pose proof (Hk k r E) as <-. exists r. split; [done|]. by apply Is_true_true.
  - intros (r & E & Hf). exists r. split; [symmetry; by apply Hk|].
    apply list_elem_of_filter. split; [by apply Is_true_true|]. apply elem_of_values_in_order. eauto.
Qed.

Lemma keyed_insert rows r : keyed_rows rows -> keyed_rows (<[known_id r := r]> rows).
Proof. intros H. by apply map_Forall_insert_2. Qed.

Lemma keyed_alter f id rows :
  (forall r, known_id (f r) = known_id r) -> keyed_rows rows -> keyed_rows (alter f id rows).
Proof.
  intros Hf H k r E. destruct (decide (id = k)) as [->|Hne].
  - rewrite lookup_alter_eq in E. destruct (rows !! k) eqn:Ek; simplify_eq/=. rewrite Hf. by apply H.
  - rewrite lookup_alter_ne in E by done. by apply H.
Qed.

Lemma derive_known_rows p : keyed_rows (player_rows p) -> known_rows (derive_from_rows p).
Proof. intros H. split; [done|]. intros id. by apply elem_of_ids_where. Qed.

Lemma saved_known_rows p : keyed_rows (player_rows p) -> known_rows (mark_spell_rows_saved p).
Proof.
  intros H. apply derive_known_rows. intros k r E. ssimpl. rewrite lookup_fmap in E.
  destruct (filter _ _ !! k) as [r0|] eqn:Er; simplify_eq/=.
  apply map_lookup_filter_Some in Er as [Er _]. unfold settle_row. rewrite <- (H k r0 Er). by case_match.
Qed.

(** What [install_fallback_row] and [forget_row] do to the rows. *)
Lemma learned_known_rows id row p :
  known_rows p -> known_id row = id -> usable row = true ->
  known_rows (replace_rows (<[id := row]> (player_rows p)) true (learn_known_spell_id id (clear_rows p))).
Proof.
  intros [Hk Hp] <- Hu. split; [by apply keyed_insert|]. intros id'.
  change (id' ∈ (if bool_decide (known_id row ∈ known_spells p) then known_spells p
                 else known_spells p ++ [known_id row])
          <-> exists r, <[known_id row := row]> (player_rows p) !! id' = Some r /\ usable r = true).
  assert (Hin : id' ∈ (if bool_decide (known_id row ∈ known_spells p) then known_spells p
                       else known_spells p ++ [known_id row]) <-> id' ∈ known_spells p \/ id' = known_id row).
  { case_bool_decide; set_solver. }
  rewrite Hin, Hp. clear Hin. destruct (decide (id' = known_id row)) as [->|Hne].
  - rewrite lookup_insert_eq. split; [eauto|by right].
  - rewrite lookup_insert_ne by done. naive_solver.
Qed.

Lemma forget_rows id p :
  rows_complete p = true ->
  player_rows (forget_row id p).1
  = partial_alter (if bool_decide (id ∈ dependent_known_spells p) then fun _ => None else fmap removed_row) id
      (player_rows p)
  /\ known_spells (forget_row id p).1 = filter (fun known => known <> id) (known_spells p).
Proof.
  intros Hc. unfold forget_row, forget_known_spell. rewrite Hc. split; [|done]. cbn -[bool_decide].
  by case_bool_decide.
Qed.

Lemma forget_known_rows id p : known_rows p -> rows_complete p = true -> known_rows (forget_row id p).1.
Proof.
  intros [Hk Hp] Hc. unfold known_rows. destruct (forget_rows id p Hc) as [-> ->]. split.
  - case_bool_decide; [exact (map_Forall_delete _ _ id Hk)|by apply (keyed_alter removed_row)].
  - intros id'. rewrite list_elem_of_filter, Hp. destruct (decide (id' = id)) as [->|Hne].
    + rewrite lookup_partial_alter_eq. split; [by intros [? _]|]. intros (r & E & Hu).
      case_bool_decide; [done|]. by destruct (player_rows p !! id); simplify_eq/=.
    + rewrite lookup_partial_alter_ne by done. naive_solver.
Qed.
