(* ===== verification/SpellSave.v ===== *)
(** How the spells of a player are saved and read: the group of a deferred save
    (wow-world lifecycle/persistence/projection.rs, wow-persistence player/save.rs),
    the statements it becomes (wow-database player/lifecycle_adapter) and what they
    do to the two tables, the acknowledgement of a committed save (wow-entities/src/
    player/save_ack.rs), the rows made at login (world_entry.rs), and the transition
    system of a player, the tables and a save in flight. *)
From stdpp Require Import sorting.
From S2P Require Import Prelude BTree Guid SpellCatalog SpellModel SpellApply SpellTrainer SpellSession SpellRuntime.

Import SpellState.

(** * The group of a save *)
(** [PlayerSpellSaveGroupLikeCpp]: the rows keep the fields of the records. *)
Inductive SpellSaveGroup : Type :=
  | Complete (rows : list KnownSpell) (fallback_rows_were_present : bool)
  | Fallback (rows : list KnownSpell).

Definition spells_request (p : Player) : option SpellSaveGroup :=
  if rows_loaded p && rows_complete p
  then Some (Complete (values_in_order (player_rows p)) (bool_decide (fallback_rows p <> ∅)))
  else if bool_decide (fallback_rows p <> ∅) then Some (Fallback (values_in_order (fallback_rows p)))
  else None.

(** [committed_groups_like_cpp]: were the rows written, and the fallback rows? *)
Definition committed_spell_groups (group : option SpellSaveGroup) : bool * bool :=
  match group with
  | Some (Complete _ present) => (true, present)
  | Some (Fallback _) => (false, true)
  | None => (false, false)
  end.

(** * The statements (save_plan.rs, save_steps.rs) *)
Inductive SpellStep : Type :=
  | DeleteSpell (spell_id guid : Z)
  | InsertSpell (guid spell_id : Z) (active disabled : bool)
  | UpsertFallbackSpell (guid spell_id : Z) (active : bool)
  | DeleteFavoriteSpell (guid spell_id : Z)
  | InsertFavoriteSpell (guid spell_id : Z).

Definition known_le (a b : KnownSpell) : Prop := known_id a <= known_id b.
#[export] Instance known_le_dec a b : Decision (known_le a b).
Proof. unfold known_le. apply _. Defined.

Definition is_deleted (s : SpellState.t) : bool := match s with Removed | Changed => true | _ => false end.
Definition is_written (s : SpellState.t) : bool := match s with New | Changed => true | _ => false end.

Definition row_steps (guid : Z) (r : KnownSpell) : list SpellStep :=
  (if is_deleted (known_state r) then [DeleteSpell (known_id r) guid] else [])
  ++ if is_written (known_state r)
     then (if known_dependent r then [] else [InsertSpell guid (known_id r) (known_active r) (known_disabled r)])
          ++ [DeleteFavoriteSpell guid (known_id r)]
          ++ (if known_favorite r then [InsertFavoriteSpell guid (known_id r)] else [])
     else [].

Definition fallback_step (guid : Z) (r : KnownSpell) : SpellStep :=
  if known_dependent r then DeleteSpell (known_id r) guid
  else UpsertFallbackSpell guid (known_id r) (known_active r).

Definition spell_steps (guid : Z) (group : option SpellSaveGroup) : list SpellStep :=
  match group with
  | Some (Complete rows _) => merge_sort known_le rows ≫= row_steps guid
  | Some (Fallback rows) => map (fallback_step guid) (merge_sort known_le rows)
  | None => []
  end.

(** * The tables *)
(** [character_spell] and [character_spell_favorite], with the keys (guid, spell)
    that the code relies on; a row holds [active] and [disabled]. *)
Record SpellTables : Type := mkTables
  { spell_table : gmap (Z * Z) (bool * bool); favorite_table : gset (Z * Z) }.
#[export] Instance eta_spell_tables : Eta SpellTables := fun t =>
  mkTables (spell_table t) (favorite_table t).

(** [ON DUPLICATE KEY UPDATE]: a row that was disabled keeps its [active]. *)
Definition upserted_row (active : bool) (was : option (bool * bool)) : bool * bool :=
  (match was with Some (was_active, true) => was_active | _ => active end, false).

(** [None]: the key is there already, and the transaction fails. *)
Definition run_spell_step (step : SpellStep) (t : SpellTables) : option SpellTables :=
  match step with
  | DeleteSpell id g => Some (t <| spell_table := delete (g, id) (spell_table t) |>)
  | InsertSpell g id active disabled =>
      match spell_table t !! (g, id) with
      | Some _ => None
      | None => Some (t <| spell_table := <[(g, id) := (active, disabled)]> (spell_table t) |>)
      end
  | UpsertFallbackSpell g id active =>
      Some (t <| spell_table := <[(g, id) := upserted_row active (spell_table t !! (g, id))]> (spell_table t) |>)
  | DeleteFavoriteSpell g id => Some (t <| favorite_table := favorite_table t ∖ {[(g, id)]} |>)
  | InsertFavoriteSpell g id =>
      if bool_decide ((g, id) ∈ favorite_table t) then None
      else Some (t <| favorite_table := {[(g, id)]} ∪ favorite_table t |>)
  end.

Definition run_spell_steps (steps : list SpellStep) (t : SpellTables) : option SpellTables :=
  foldl (fun (o : option SpellTables) (step : SpellStep) => t ← o; run_spell_step step t) (Some t) steps.

(** The committed transaction of a save of [p], or its failure. *)
Definition commit_spells (guid : Z) (p : Player) (t : SpellTables) : option SpellTables :=
  run_spell_steps (spell_steps guid (spells_request p)) t.

(** * The acknowledgement (save_ack.rs) *)
Definition reconciled (saved current : SpellState.t) : SpellState.t :=
  match saved, current with
  | Removed, Removed => Removed
  | Removed, _ => New
  | _, Removed => Removed
  | (New | Changed | Unchanged), _ => Changed
  | Temporary, other => other
  end.

Definition acknowledge_spell (row : KnownSpell) (current : option KnownSpell) : option KnownSpell :=
  if is_temporary row then current
  else
    match current with
    | Some c =>
        if bool_decide (c = row) then
          if live row then Some (c <| known_state := Unchanged |>) else None
        else if negb (is_temporary c) then Some (c <| known_state := reconciled (known_state row) (known_state c) |>)
        else Some c
    | None => if live row then Some (row <| known_state := Removed |>) else None
    end.

(** One turn of the loop over the saved rows. *)
Definition acknowledge_entry (p : Player) (e : Z * KnownSpell) : Player :=
  let forgotten := negb (live e.2) && bool_decide (player_rows p !! e.1 = Some e.2) in
  p <| player_rows := partial_alter (acknowledge_spell e.2) e.1 (player_rows p) |>
    <| removed_known_spells :=
         if forgotten then removed_known_spells p ∖ {[e.1]} else removed_known_spells p |>.

Definition acknowledge_spells (saved : gmap Z KnownSpell) (p : Player) : Player :=
  derive_from_rows (retain_traits (foldl acknowledge_entry p (entries_in_order saved))).

(** A grant goes where it is still the one that was written. *)
Definition forget_fallback (row : KnownSpell) (current : option KnownSpell) : option KnownSpell :=
  if bool_decide (current = Some row) then None else current.

(** [SavedPlayerReceipt::acknowledge] and [acknowledge_saved_projection_like_cpp],
    for the two groups of spells; [saved] is the player that was captured. *)
Definition acknowledge_save (saved p : Player) : Player :=
  let groups := committed_spell_groups (spells_request saved) in
  let p := if groups.1 && rows_loaded p && rows_complete p then acknowledge_spells (player_rows saved) p else p in
  if groups.2
  then p <| fallback_rows :=
              foldl (fun m '(id, row) => partial_alter (forget_fallback row) id m) (fallback_rows p)
                (entries_in_order (fallback_rows saved)) |>
  else p.

(** * The rows at login (world_entry.rs) *)
Definition is_spell_id (id : Z) : bool := (0 <? id) && (id <=? i32_max).

(** What else the login found: the spells that are dependent, those a skill takes
    away or rewards, the known spells and the favorites. *)
Record LoginSpells : Type := mkLogin
  { login_dependent : gset Z; rewarded_dependent : gset Z; rewarded_removed : gset Z;
    login_known : list Z; login_favorites : gset Z }.

(** [SELECT spell, active, disabled]: ids that are not positive [i32]s are skipped. *)
Definition read_row (id : Z) (row : bool * bool) : option KnownSpell :=
  if is_spell_id id then Some (mkKnownSpell id Unchanged row.1 row.2 false false) else None.

Definition login_row (l : LoginSpells) (r : KnownSpell) : KnownSpell :=
  let id := known_id r in
  let dep := bool_decide (id ∈ login_dependent l) || bool_decide (id ∈ rewarded_dependent l) in
  let r := r <| known_favorite := negb dep && bool_decide (id ∈ login_favorites l) |>
             <| known_dependent := known_dependent r || dep |> in
  if bool_decide (id ∈ rewarded_removed l) then removed_row r
  else if known_disabled r then r else r <| known_active := bool_decide (id ∈ login_known l) |>.

Definition add_known_row (l : LoginSpells) (rows : gmap Z KnownSpell) (id : Z) : gmap Z KnownSpell :=
  let fav := bool_decide (id ∈ login_favorites l) in
  <[id := match rows !! id with
          | Some r => r <| known_disabled := false |> <| known_favorite := fav |>
          | None => mkKnownSpell id Unchanged true false fav
                      (bool_decide (id ∈ login_dependent l) || bool_decide (id ∈ rewarded_dependent l))
          end]> rows.

(** The rows of the table ([loaded], by id) become the rows of the player. *)
Definition login_spell_rows (l : LoginSpells) (loaded : list KnownSpell) : gmap Z KnownSpell :=
  foldl (add_known_row l) (foldl (fun m r => <[known_id r := login_row l r]> m) ∅ loaded) (login_known l).

Definition select_spells (guid : Z) (t : SpellTables) : list KnownSpell :=
  omap (fun e : (Z * Z) * (bool * bool) => if e.1.1 =? guid then read_row e.1.2 e.2 else None)
    (map_to_list (spell_table t)).

(** The player after a login whose queries were all answered. *)
Definition login_player (guid : Z) (l : LoginSpells) (t : SpellTables) (s : Session) : Session * bool :=
  replace_loaded_player_spell_rows (values_in_order (login_spell_rows l (select_spells guid t))) true s.

(** * The player, the tables and a save in flight *)
(** A row that its state says the table may hold. *)
Definition maybe_stored (o : option KnownSpell) : Prop :=
  exists r, o = Some r /\ (known_state r = Unchanged \/ known_state r = Changed \/ known_state r = Removed).

(** What may happen to the row of a spell while the rows stay complete: a row that
    may be stored is never dropped nor made new, a change of a row is marked, and no
    row becomes temporary. *)
Record row_edit (o o' : option KnownSpell) : Prop := mkRowEdit
  { edit_keeps : maybe_stored o -> maybe_stored o';
    edit_marks : forall r, o' = Some r -> known_state r = Unchanged -> o = o';
    edit_temporary : forall r, o' = Some r -> known_state r = Temporary ->
      exists r0, o = Some r0 /\ known_state r0 = Temporary }.

(** Rows are under their ids, which fit the column. *)
Definition row_ids (rows : gmap Z KnownSpell) : Prop :=
  map_Forall (fun id r => known_id r = id /\ is_spell_id id = true) rows.

Record coherent (p : Player) : Prop := mkCoherent
  { fallback_ids : row_ids (fallback_rows p);
    complete_loaded : rows_complete p = true -> rows_loaded p = true;
    complete_ids : rows_complete p = true -> row_ids (player_rows p) }.

Definition rows_edit (p p' : Player) : Prop :=
  rows_complete p' = rows_complete p
  /\ forall id, row_edit (player_rows p !! id) (player_rows p' !! id).

Inductive SpellFlight : Type :=
  | NoSave | SaveCaptured (saved : Player) | SaveCommitted (saved : Player) | OutcomeUnknown.

Record SpellSaves : Type := mkSaves { holder : Session; stored : SpellTables; in_flight : SpellFlight }.
#[export] Instance eta_spell_saves : Eta SpellSaves := fun s => mkSaves (holder s) (stored s) (in_flight s).

Definition with_player (p : Player) (s : SpellSaves) : SpellSaves :=
  s <| holder := (holder s) <| owner := Some p |> |>.

(** The rows of the other players, and the statements on them. *)
Definition same_player (guid : Z) (t t' : SpellTables) : Prop :=
  forall id, spell_table t' !! (guid, id) = spell_table t !! (guid, id)
             /\ ((guid, id) ∈ favorite_table t' <-> (guid, id) ∈ favorite_table t).

Section System.
Variable guid : Z.

(** Between two logins. *)
Inductive save_step : SpellSaves -> SpellSaves -> Prop :=
| save_edit s p p' : owner (holder s) = Some p -> rows_edit p p' -> coherent p' ->
    save_step s (with_player p' s)
| save_invalidate s p p' : owner (holder s) = Some p -> rows_complete p' = false -> coherent p' ->
    save_step s (with_player p' s)
| save_capture s p : owner (holder s) = Some p -> in_flight s = NoSave ->
    save_step s (s <| in_flight := SaveCaptured p |>)
| save_commit s saved t : in_flight s = SaveCaptured saved -> commit_spells guid saved (stored s) = Some t ->
    save_step s (s <| stored := t |> <| in_flight := SaveCommitted saved |>)
| save_fail s saved : in_flight s = SaveCaptured saved -> save_step s (s <| in_flight := NoSave |>)
| save_unknown s saved : in_flight s = SaveCaptured saved -> save_step s (s <| in_flight := OutcomeUnknown |>)
| save_acknowledge s saved p : owner (holder s) = Some p -> in_flight s = SaveCommitted saved ->
    save_step s (with_player (acknowledge_save saved p) s <| in_flight := NoSave |>)
| save_receipt_lost s saved : in_flight s = SaveCommitted saved -> save_step s (s <| in_flight := OutcomeUnknown |>)
| save_foreign s t : same_player guid (stored s) t -> save_step s (s <| stored := t |>).

(** Where the outcome of a save is unknown the session is quarantined: only a new
    login makes rows of the tables. *)
Inductive save_or_login : SpellSaves -> SpellSaves -> Prop :=
| save_within s s' : save_step s s' -> save_or_login s s'
| save_login s l fresh p : in_flight s = NoSave \/ in_flight s = OutcomeUnknown ->
    owner fresh = Some p -> fallback_rows p = ∅ -> Forall (fun id => id <= i32_max) (login_known l) ->
    save_or_login s (mkSaves (login_player guid l (stored s) fresh).1 (stored s) NoSave).

Inductive saves_reachable : SpellSaves -> Prop :=
| saves_initial s : in_flight s = NoSave ->
    (forall p, owner (holder s) = Some p -> rows_complete p = false /\ coherent p) ->
    (forall id, is_Some (spell_table (stored s) !! (guid, id)) -> is_spell_id id = true) -> saves_reachable s
| saves_next s s' : saves_reachable s -> save_or_login s s' -> saves_reachable s'.
End System.

(** * What a commit does to the tables *)
(** What the tables hold under a key: the row, and whether it is a favorite. *)
Definition entry_at (t : SpellTables) (k : Z * Z) : option (bool * bool) * bool :=
  (spell_table t !! k, bool_decide (k ∈ favorite_table t)).

(** The columns of a row that is written. *)
Definition stored_columns (r : KnownSpell) : option (bool * bool) :=
  if known_dependent r then None else Some (known_active r, known_disabled r).

Definition saved_entry (r : KnownSpell) (e : option (bool * bool) * bool) : option (bool * bool) * bool :=
  match known_state r with
  | Removed => (None, e.2)
  | New | Changed => (stored_columns r, known_favorite r)
  | Unchanged | Temporary => e
  end.

Section Commit.
Variable guid : Z.

Definition row_effect (t : SpellTables) (r : KnownSpell) : SpellTables :=
  let k := (guid, known_id r) in
  match known_state r with
  | Removed => t <| spell_table := delete k (spell_table t) |>
  | New | Changed =>
      t <| spell_table := match stored_columns r with
                          | Some c => <[k := c]> (spell_table t) | None => delete k (spell_table t) end |>
        <| favorite_table := if known_favorite r then {[k]} ∪ favorite_table t else favorite_table t ∖ {[k]} |>
  | Unchanged | Temporary => t
  end.

Lemma row_effect_at t r k :
  entry_at (row_effect t r) k
  = if decide (k = (guid, known_id r)) then saved_entry r (entry_at t k) else entry_at t k.
Proof.
  unfold row_effect, saved_entry, stored_columns. destruct (decide (k = _)) as [->|Hk].
  - destruct (known_state r), (known_dependent r), (known_favorite r); unfold entry_at; cbn;
      rewrite ?lookup_delete_eq, ?lookup_insert_eq; try done; f_equal; case_bool_decide; set_solver.
  - destruct (known_state r), (known_dependent r), (known_favorite r); unfold entry_at; cbn;
      rewrite ?lookup_delete_ne, ?lookup_insert_ne by done; try done; f_equal; apply bool_decide_ext; set_solver.
Qed.

Lemma run_steps_app l1 l2 t :
  run_spell_steps (l1 ++ l2) t = t' ← run_spell_steps l1 t; run_spell_steps l2 t'.
Proof.
  unfold run_spell_steps. rewrite foldl_app. destruct (foldl _ (Some t) l1) as [t'|]; [done|].
  cbn. by induction l2.
Qed.

Lemma run_row t r :
  (known_state r = New -> spell_table t !! (guid, known_id r) = None) ->
  run_spell_steps (row_steps guid r) t = Some (row_effect t r).
Proof.
  intros Hn. destruct t as [rows favs]. cbn in Hn.
  assert (Hf : (guid, known_id r) ∉ favs ∖ {[(guid, known_id r)]}) by set_solver.
  assert (Hu : {[(guid, known_id r)]} ∪ favs ∖ {[(guid, known_id r)]} = {[(guid, known_id r)]} ∪ favs).
  { apply set_eq. intros k. destruct (decide (k = (guid, known_id r))); set_solver. }
  unfold row_steps, row_effect, stored_columns, run_spell_steps.
  destruct (known_state r), (known_dependent r), (known_favorite r); cbn -[bool_decide] in *;
    rewrite ?lookup_delete_eq, ?Hn by done; cbn -[bool_decide]; rewrite ?bool_decide_eq_false_2 by done;
    unfold set_field; cbn; rewrite ?Hu, ?insert_delete_eq, ?delete_id by auto; done.
Qed.

Lemma run_rows l t :
  NoDup (map known_id l) ->
  (forall r, r ∈ l -> known_state r = New -> spell_table t !! (guid, known_id r) = None) ->
  run_spell_steps (l ≫= row_steps guid) t = Some (foldl row_effect t l).
Proof.
  revert t. induction l as [|r l IH]; intros t Hnd Hn; [done|].
  apply NoDup_cons in Hnd as [Hr Hnd]. cbn [mbind list_bind]. rewrite run_steps_app, run_row by (apply Hn; by left).
  cbn [mbind option_bind]. apply IH; [done|]. intros r' Hr' Hs.
  pose proof (row_effect_at t r (guid, known_id r')) as E. rewrite decide_False in E.
  - injection E as -> _. apply Hn; [by right|done].
  - intros [= Hid]. apply Hr. rewrite <- Hid. by apply list_elem_of_fmap_2.
Qed.

Lemma rows_effect_at l t k :
  NoDup (map known_id l) ->
  (forall r, r ∈ l -> k = (guid, known_id r) -> entry_at (foldl row_effect t l) k = saved_entry r (entry_at t k))
  /\ ((forall r, r ∈ l -> k <> (guid, known_id r)) -> entry_at (foldl row_effect t l) k = entry_at t k).
Proof.
  revert t. induction l as [|r0 l IH]; intros t Hnd; [split; [by intros ? ?%not_elem_of_nil|done]|].
  apply NoDup_cons in Hnd as [Hr0 Hnd]. destruct (IH (row_effect t r0) Hnd) as [IH1 IH2]. cbn [foldl]. split.
  - intros r [->|Hr]%elem_of_cons ->.
    + rewrite IH2; [by rewrite row_effect_at, decide_True|].
      intros r' Hr' [= Hid]. apply Hr0. rewrite Hid. by apply list_elem_of_fmap_2.
    + rewrite (IH1 r Hr eq_refl), row_effect_at, decide_False; [done|].
      intros [= Hid]. apply Hr0. rewrite <- Hid. by apply list_elem_of_fmap_2.
  - intros Hk. rewrite IH2, row_effect_at, decide_False; [done|apply Hk; by left|].
    intros r Hr. apply Hk. by right.
Qed.
End Commit.

(** What the tables hold of the player has a row that may be stored. *)
Definition covered (guid : Z) (t : SpellTables) (p : Player) : Prop :=
  forall id, is_Some (spell_table t !! (guid, id)) -> maybe_stored (player_rows p !! id).

Definition in_range (guid : Z) (t : SpellTables) : Prop :=
  forall id, is_Some (spell_table t !! (guid, id)) -> is_spell_id id = true.

Section Committed.
Variables (guid : Z) (q : Player).
Hypothesis Hq : coherent q.

Lemma sorted_rows l r : r ∈ merge_sort known_le l <-> r ∈ l.
Proof. by rewrite merge_sort_Permutation. Qed.

Lemma row_ids_keyed rows : row_ids rows -> keyed_rows rows.
Proof. intros H id r E. by apply (H id r). Qed.

Lemma values_ids rows : keyed_rows rows -> map known_id (values_in_order rows) = keys_in_order rows.
Proof.
  intros H. rewrite <- entries_in_order_fst, values_in_order_snd.
  change (known_id <$> (entries_in_order rows).*2 = (entries_in_order rows).*1).
  rewrite <- list_fmap_compose. apply list_fmap_ext. intros i [k r] E.
  apply list_elem_of_lookup_2, elem_of_entries_in_order in E. by apply (H k r).
Qed.

Lemma sorted_ids rows : row_ids rows -> NoDup (map known_id (merge_sort known_le (values_in_order rows))).
Proof.
  intros H. change (NoDup (known_id <$> merge_sort known_le (values_in_order rows))).
  rewrite merge_sort_Permutation. change (NoDup (map known_id (values_in_order rows))).
  rewrite values_ids by (by apply row_ids_keyed). apply NoDup_keys_in_order.
Qed.

Lemma commit_complete t :
  rows_complete q = true -> covered guid t q ->
  exists t', commit_spells guid q t = Some t'
  /\ forall k, entry_at t' k
     = match (if k.1 =? guid then player_rows q !! k.2 else None) with
       | Some r => saved_entry r (entry_at t k) | None => entry_at t k end.
Proof.
  intros Hc Hk. pose proof (complete_ids q Hq Hc) as Hids. unfold commit_spells, spells_request.
  rewrite (complete_loaded q Hq Hc), Hc. cbn [andb spell_steps].
  set (l := merge_sort known_le (values_in_order (player_rows q))).
  pose proof (sorted_ids _ Hids) as Hnd. fold l in Hnd.
  assert (Hl : forall r, r ∈ l <-> player_rows q !! known_id r = Some r).
  { intros r. unfold l. rewrite sorted_rows, elem_of_values_in_order. split; [|eauto].
    intros [id E]. by rewrite (proj1 (Hids id r E)). }
  rewrite run_rows; [|done|].
  - eexists. split; [done|]. intros [g id]. cbn [fst snd].
    destruct (rows_effect_at guid l t (g, id) Hnd) as [H1 H2].
    destruct (Z.eqb_spec g guid) as [->|Hg]; [|apply H2; congruence].
    destruct (player_rows q !! id) as [r|] eqn:E.
    + destruct (Hids id r E) as [Hid _]. apply H1; [apply Hl; congruence|congruence].
    + apply H2. intros r Hr%Hl [= ->]. congruence.
  - intros r Hr%Hl Hn. destruct (spell_table t !! (guid, known_id r)) eqn:E; [|done].
    destruct (Hk (known_id r) ltac:(eauto)) as (r' & Er & Hs). rewrite Hr in Er. injection Er as <-.
    rewrite Hn in Hs. by destruct Hs as [?|[?|?]].
Qed.

Lemma run_fallback l t :
  (forall r, r ∈ l -> is_spell_id (known_id r) = true) ->
  exists t', run_spell_steps (map (fallback_step guid) l) t = Some t'
  /\ (forall k, k.1 <> guid -> entry_at t' k = entry_at t k) /\ (in_range guid t -> in_range guid t').
Proof.
  revert t. induction l as [|r l IH]; intros t Hl; [by exists t|].
  assert (Hs : exists t1, run_spell_step (fallback_step guid r) t = Some t1
    /\ (forall k, k.1 <> guid -> entry_at t1 k = entry_at t k) /\ (in_range guid t -> in_range guid t1)).
  { unfold fallback_step. destruct (known_dependent r); eexists; (split; [done|]); split;
      try (intros [g id] Hg; cbn in Hg; unfold entry_at; cbn; rewrite ?lookup_delete_ne, ?lookup_insert_ne by congruence; done).
    - intros Hr id. cbn. intros [? [_ E]%lookup_delete_Some]. eauto.
    - intros Hr id. cbn. destruct (decide (id = known_id r)) as [->|]; [intros _; apply Hl; by left|].
      rewrite lookup_insert_ne by congruence. apply Hr. }
  destruct Hs as (t1 & E1 & Hf1 & Hr1). destruct (IH t1) as (t' & E' & Hf' & Hr'); [intros; apply Hl; by right|].
  exists t'. unfold run_spell_steps in *. cbn [map foldl mbind option_bind]. rewrite E1.
  split; [done|]. split; [intros k Hk; by rewrite Hf', Hf1|auto].
Qed.

Lemma commit_incomplete t :
  rows_complete q = false ->
  exists t', commit_spells guid q t = Some t'
  /\ (forall k, k.1 <> guid -> entry_at t' k = entry_at t k) /\ (in_range guid t -> in_range guid t').
Proof.
  intros Hc. unfold commit_spells, spells_request. rewrite Hc, andb_false_r. case_bool_decide; [|by exists t].
  apply run_fallback. intros r [k E]%sorted_rows%elem_of_values_in_order.
  destruct (fallback_ids q Hq k r E) as [-> ?]. done.
Qed.

Lemma saved_entry_stored r e :
  is_Some (saved_entry r e).1 -> known_state r <> Removed /\ (known_state r = Temporary -> is_Some e.1).
Proof. unfold saved_entry. by destruct (known_state r); cbn; intros H; split; try done; destruct H. Qed.

(** The save of a captured player succeeds. *)
Lemma commit_succeeds t :
  (rows_complete q = true -> covered guid t q) ->
  exists t', commit_spells guid q t = Some t'
  /\ (forall k, k.1 <> guid -> entry_at t' k = entry_at t k) /\ (in_range guid t -> in_range guid t').
Proof.
  intros Hk. destruct (rows_complete q) eqn:Hc; [|by apply commit_incomplete].
  destruct (commit_complete t Hc (Hk eq_refl)) as (t' & E & He). exists t'. split; [done|]. split.
  - intros [g id] Hg. rewrite He. cbn [fst] in *. by apply Z.eqb_neq in Hg as ->.
  - intros Hr id Hs. specialize (He (guid, id)). cbn [fst snd] in He. rewrite Z.eqb_refl in He.
    destruct (player_rows q !! id) as [r|] eqn:E'; [by apply (complete_ids q Hq Hc id r)|].
    apply Hr. injection He as <- _. done.
Qed.
End Committed.

(** * What an acknowledgement does to the rows *)
Lemma acknowledged_rows saved p id :
  player_rows (acknowledge_spells saved p) !! id
  = match saved !! id with
    | Some r => acknowledge_spell r (player_rows p !! id) | None => player_rows p !! id end.
Proof.
  rewrite <- (fold_entries_lookup acknowledge_spell saved (player_rows p) id).
  unfold acknowledge_spells, derive_from_rows, retain_traits. cbn. f_equal.
  generalize (entries_in_order saved) as l. intros l. revert p.
  induction l as [|[k r] l IH]; intros p; [done|]. cbn [foldl]. by rewrite IH.
Qed.

Lemma acknowledge_entry_keeps p e :
  rows_loaded (acknowledge_entry p e) = rows_loaded p /\ rows_complete (acknowledge_entry p e) = rows_complete p
  /\ fallback_rows (acknowledge_entry p e) = fallback_rows p.
Proof. done. Qed.

Lemma acknowledged_frame saved p :
  rows_loaded (acknowledge_spells saved p) = rows_loaded p
  /\ rows_complete (acknowledge_spells saved p) = rows_complete p
  /\ fallback_rows (acknowledge_spells saved p) = fallback_rows p.
Proof.
  unfold acknowledge_spells, derive_from_rows, retain_traits. cbn. generalize (entries_in_order saved) as l.
  intros l. revert p. induction l as [|e l IH]; intros p; [done|]. cbn [foldl]. by apply (IH (acknowledge_entry p e)).
Qed.

(** Whether the rows are acknowledged. *)
Definition acknowledges (saved p : Player) : bool :=
  rows_loaded saved && rows_complete saved && rows_loaded p && rows_complete p.

Lemma acknowledge_save_rows saved p :
  player_rows (acknowledge_save saved p)
  = player_rows (if acknowledges saved p then acknowledge_spells (player_rows saved) p else p)
  /\ rows_loaded (acknowledge_save saved p) = rows_loaded p
  /\ rows_complete (acknowledge_save saved p) = rows_complete p.
Proof.
  assert (Hg : (committed_spell_groups (spells_request saved)).1 = rows_loaded saved && rows_complete saved).
  { unfold spells_request. destruct (rows_loaded saved && rows_complete saved); [done|]. by case_bool_decide. }
  unfold acknowledge_save, acknowledges. rewrite Hg. destruct (acknowledged_frame (player_rows saved) p) as (H1 & H2 & _).
  destruct (rows_loaded saved && rows_complete saved && rows_loaded p && rows_complete p) eqn:E;
    destruct (committed_spell_groups _).2; cbn; auto.
Qed.

Lemma acknowledge_id r o r' :
  acknowledge_spell r o = Some r' -> known_id r' = known_id r \/ (exists c, o = Some c /\ known_id r' = known_id c).
Proof.
  unfold acknowledge_spell. intros E. repeat case_match; simplify_eq/=; eauto.
Qed.

Lemma forgotten_fallback saved p :
  row_ids (fallback_rows p) -> row_ids (fallback_rows (acknowledge_save saved p)).
Proof.
  intros H. unfold acknowledge_save. destruct (acknowledged_frame (player_rows saved) p) as (_ & _ & Hf).
  set (p1 := if (_ : bool) then acknowledge_spells (player_rows saved) p else p).
  assert (Hp1 : fallback_rows p1 = fallback_rows p) by (unfold p1; by case_match).
  destruct (committed_spell_groups _).2; [|by rewrite Hp1]. intros id r E. cbn in E.
  rewrite (fold_entries_lookup forget_fallback), Hp1 in E. apply (H id r).
  destruct (fallback_rows saved !! id); [|done]. unfold forget_fallback in E. by case_bool_decide.
Qed.

Lemma acknowledge_coherent saved p : coherent saved -> coherent p -> coherent (acknowledge_save saved p).
Proof.
  intros Hs Hp. destruct (acknowledge_save_rows saved p) as (Hr & Hl & Hc). split.
  - apply forgotten_fallback, Hp.
  - rewrite Hl, Hc. apply Hp.
  - rewrite Hr, Hc. intros Ec. pose proof (complete_ids p Hp Ec) as Hids.
    destruct (acknowledges saved p) eqn:Ea; [|done]. unfold acknowledges in Ea. rewrite !andb_true_iff in Ea.
    destruct Ea as [[[_ Hsc] _] _]. pose proof (complete_ids saved Hs Hsc) as Hsids.
    intros id r E. rewrite acknowledged_rows in E. destruct (player_rows saved !! id) as [r0|] eqn:E0; [|by apply Hids].
    destruct (Hsids id r0 E0) as [Hid Hok]. split; [|done].
    destruct (acknowledge_id _ _ _ E) as [->|(c & Ec' & ->)]; [done|]. by apply (Hids id c).
Qed.

(** * What holds of every reachable state *)
#[export] Instance row_edit_preorder : PreOrder row_edit.
Proof.
  split.
  - intros o. split; [done|done|]. intros r -> Hs. eauto.
  - intros o1 o2 o3 [K1 M1 T1] [K2 M2 T2]. split; [auto| |].
    + intros r E Hs. pose proof (M2 r E Hs) as ->. by apply (M1 r).
    + intros r E Hs. destruct (T2 r E Hs) as (r2 & E2 & H2). by apply (T1 r2).
Qed.

(** The rows of [p] come by edits from those of [q]. *)
Definition since (q p : Player) : Prop :=
  rows_complete q = true /\ forall id, row_edit (player_rows q !! id) (player_rows p !! id).

Lemma maybe_stored_spec o : maybe_stored o <-> match o with Some r => known_state r <> New /\ known_state r <> Temporary | None => False end.
Proof.
  split; [intros (r & -> & [->|[->| ->]]); done|]. destruct o as [r|]; [|done]. intros [Hn Ht]. exists r.
  split; [done|]. destruct (known_state r); auto; done.
Qed.

(** What is covered stays so when a committed save is acknowledged. *)
Lemma acknowledge_maybe_stored r o :
  row_edit (Some r) o -> known_state r <> Removed -> known_state r <> Temporary ->
  maybe_stored (acknowledge_spell r o).
Proof.
  intros [_ _ Ht] Hr Htr. unfold acknowledge_spell, is_temporary, live. rewrite !bool_decide_eq_false_2 by done.
  rewrite (bool_decide_eq_true_2 (known_state r <> Removed)) by done.
  destruct o as [c|]; [|by apply maybe_stored_spec]. case_bool_decide; [by apply maybe_stored_spec|].
  destruct (known_state c) eqn:Ec; try (rewrite bool_decide_eq_false_2 by (intros ?; congruence); apply maybe_stored_spec;
    cbn; by destruct (known_state r)).
  destruct (Ht c eq_refl Ec) as (r0 & [= <-] & H0). done.
Qed.

(** After a commit every row in the tables was captured, and not to be deleted. *)
Definition committed_from (guid : Z) (t : SpellTables) (q : Player) : Prop :=
  forall id, is_Some (spell_table t !! (guid, id)) ->
  exists r, player_rows q !! id = Some r /\ known_state r <> Removed /\ known_state r <> Temporary.

Definition saves_inv (guid : Z) (s : SpellSaves) : Prop :=
  in_range guid (stored s) /\ (forall p, owner (holder s) = Some p -> coherent p)
  /\ match in_flight s with
     | NoSave => forall p, owner (holder s) = Some p -> rows_complete p = true -> covered guid (stored s) p
     | SaveCaptured q => coherent q /\ (rows_complete q = true -> covered guid (stored s) q)
         /\ forall p, owner (holder s) = Some p -> rows_complete p = true -> since q p
     | SaveCommitted q => coherent q
         /\ forall p, owner (holder s) = Some p -> rows_complete p = true ->
            since q p /\ committed_from guid (stored s) q
     | OutcomeUnknown => True
     end.

Section Invariant.
Variable guid : Z.

Lemma covered_commits q t t' :
  coherent q -> rows_complete q = true -> covered guid t q -> commit_spells guid q t = Some t' ->
  committed_from guid t' q.
Proof.
  intros Hq Hc Hk E. destruct (commit_complete guid q Hq t Hc Hk) as (t1 & E1 & He).
  rewrite E in E1. injection E1 as <-. intros id Hs.
  specialize (He (guid, id)). cbn [fst snd] in He. rewrite Z.eqb_refl in He.
  destruct (player_rows q !! id) as [r|] eqn:Er.
  - exists r. split; [done|]. assert (Hs' : is_Some (saved_entry r (entry_at t (guid, id))).1) by by rewrite <- He.
    destruct (saved_entry_stored _ _ Hs') as [Hr Ht]. split; [done|]. intros Et.
    apply Hk, maybe_stored_spec in Ht; [|done]. rewrite Er in Ht. tauto.
  - injection He as E' _. rewrite E' in Hs. apply Hk, maybe_stored_spec in Hs. by rewrite Er in Hs.
Qed.

Lemma committed_acknowledged t q p :
  coherent q -> coherent p -> rows_complete p = true -> since q p -> committed_from guid t q ->
  covered guid t (acknowledge_save q p).
Proof.
  intros Hq Hp Hc [Hqc He] Hk id Hs. destruct (acknowledge_save_rows q p) as (-> & _ & _).
  unfold acknowledges. rewrite (complete_loaded p Hp Hc), (complete_loaded q Hq Hqc), Hc, Hqc. cbn [andb].
  rewrite acknowledged_rows. destruct (Hk id Hs) as (r & Er & Hr & Ht). specialize (He id). rewrite Er in *.
  by apply acknowledge_maybe_stored.
Qed.

Lemma foreign_inv t t' :
  same_player guid t t' ->
  (in_range guid t -> in_range guid t') /\ (forall p, covered guid t p -> covered guid t' p)
  /\ (forall p, committed_from guid t p -> committed_from guid t' p).
Proof.
  intros H. assert (Hs : forall id, is_Some (spell_table t' !! (guid, id)) -> is_Some (spell_table t !! (guid, id)))
    by (intros id; by rewrite (proj1 (H id))).
  split_and!; [intros Hr id ?|intros p Hk id ?|intros p Hk id ?]; eauto.
Qed.

Lemma since_edit q p p' : since q p -> rows_edit p p' -> since q p'.
Proof. intros [Hc H1] [_ H2]. split; [done|]. intros id. by transitivity (player_rows p !! id). Qed.

Lemma since_covered t q p : since q p -> covered guid t q -> covered guid t p.
Proof. intros [_ H] Hk id Hs. by apply (edit_keeps _ _ (H id)), Hk. Qed.

Lemma edit_covered t p p' : rows_edit p p' -> covered guid t p -> covered guid t p'.
Proof. intros [_ H] Hk id Hs. by apply (edit_keeps _ _ (H id)), Hk. Qed.

Lemma step_inv s s' : save_step guid s s' -> saves_inv guid s -> saves_inv guid s'.
Proof.
  intros [? p p' Eo He Hc|? p p' Eo Hi Hc|? p Eo Ef|? q t Ef Ec|? q Ef|? q Ef|? q p Eo Ef|? q Ef|? t Ht] (Hr & Hp & Hf);
    unfold saves_inv; cbn in *; rewrite ?Ef in Hf; (split; [|split]); try done.
  - by intros ? [= <-].
  - pose proof He as [Hcc _]. destruct (in_flight s0) as [|q|q|]; [| | |done].
    + intros ? [= <-] E. rewrite Hcc in E. eapply edit_covered; eauto.
    + destruct Hf as (Hq & Hk & Hs). split_and!; [done|done|]. intros ? [= <-] E. rewrite Hcc in E.
      eapply since_edit; eauto.
    + destruct Hf as (Hq & Hs). split; [done|]. intros ? [= <-] E. rewrite Hcc in E.
      destruct (Hs p Eo E) as [? ?]. split; [by eapply since_edit|done].
  - by intros ? [= <-].
  - destruct (in_flight s0) as [|q|q|]; [by intros ? [= <-]; rewrite Hi| | |done].
    + destruct Hf as (Hq & Hk & _). split_and!; [done|done|]. intros ? [= <-]. by rewrite Hi.
    + destruct Hf as (Hq & _). split; [done|]. intros ? [= <-]. by rewrite Hi.
  - split; [by apply Hp|]. split; [by apply Hf|]. intros ? E Hc. rewrite Eo in E. injection E as <-. split; [done|].
    intros id. reflexivity.
  - destruct Hf as (Hq & Hk & _). destruct (commit_succeeds guid q Hq (stored s0) Hk) as (t' & E' & _ & Hr').
    rewrite Ec in E'. injection E' as <-. by apply Hr'.
  - destruct Hf as (Hq & Hk & Hs). split; [done|]. intros p Eo Hc. pose proof (Hs p Eo Hc) as [Hqc He].
    split; [by split|]. eapply covered_commits; eauto.
  - destruct Hf as (Hq & Hk & Hs). intros p Eo Hc. pose proof (Hs p Eo Hc) as Hse.
    eapply since_covered; [done|]. by apply Hk, Hse.
  - intros ? [= <-]. apply acknowledge_coherent; [apply Hf|by apply Hp].
  - destruct Hf as (Hq & Hs). intros ? [= <-] Hc. destruct (acknowledge_save_rows q p) as (_ & _ & Hcc).
    rewrite Hcc in Hc. destruct (Hs p Eo Hc) as [Hse Hk]. apply committed_acknowledged; auto.
  - by apply (foreign_inv _ _ Ht).
  - destruct (foreign_inv _ _ Ht) as (_ & H1 & H2). destruct (in_flight s0) as [|q|q|]; [| | |done].
    + intros p E Hc. apply H1. by apply Hf.
    + destruct Hf as (Hq & Hk & Hs). split_and!; auto.
    + destruct Hf as (Hq & Hs). split; [done|]. intros p E Hc. destruct (Hs p E Hc). auto.
Qed.
End Invariant.

(** * The rows of a login *)
Section Login.
Variable l : LoginSpells.

Definition settled_rows (rows : gmap Z KnownSpell) : Prop :=
  map_Forall (fun id r => known_id r = id /\ id <= i32_max /\ (known_state r = Unchanged \/ known_state r = Removed)) rows.

Lemma login_row_settled r :
  known_state r = Unchanged ->
  known_id (login_row l r) = known_id r
  /\ (known_state (login_row l r) = Unchanged \/ known_state (login_row l r) = Removed).
Proof. intros H. unfold login_row. repeat case_match; cbn; auto. Qed.

Lemma loaded_rows_settled loaded m :
  Forall (fun r => known_state r = Unchanged /\ known_id r <= i32_max) loaded -> settled_rows m ->
  let rows := foldl (fun m r => <[known_id r := login_row l r]> m) m loaded in
  settled_rows rows /\ (forall id, is_Some (m !! id) -> is_Some (rows !! id))
  /\ forall r, r ∈ loaded -> is_Some (rows !! known_id r).
Proof.
  revert m. induction loaded as [|r loaded IH]; intros m Hl Hm; [by split_and!; [| |intros ? ?%not_elem_of_nil]|].
  apply Forall_cons in Hl as [[Hu Hi] Hl]. cbn [foldl]. destruct (login_row_settled r Hu) as [Hid Hs].
  destruct (IH (<[known_id r := login_row l r]> m) Hl) as (H1 & H2 & H3).
  { by apply map_Forall_insert_2. }
  split_and!; [done| |].
  - intros id Hid'. apply H2. destruct (decide (id = known_id r)) as [->|]; [by rewrite lookup_insert_eq|].
    by rewrite lookup_insert_ne.
  - intros r' [->|Hr']%elem_of_cons; [|by apply H3]. apply H2. by rewrite lookup_insert_eq.
Qed.

Lemma known_rows_settled known m :
  Forall (fun id => id <= i32_max) known -> settled_rows m ->
  settled_rows (foldl (add_known_row l) m known)
  /\ forall id, is_Some (m !! id) -> is_Some (foldl (add_known_row l) m known !! id).
Proof.
  revert m. induction known as [|id known IH]; intros m Hk Hm; [done|].
  apply Forall_cons in Hk as [Hi Hk]. cbn [foldl]. destruct (IH (add_known_row l m id) Hk) as [H1 H2].
  { apply map_Forall_insert_2; [|done]. destruct (m !! id) as [r|] eqn:E; [|cbn; auto]. apply (Hm id r E). }
  split; [done|]. intros id' Hid'. apply H2. unfold add_known_row.
  destruct (decide (id' = id)) as [->|]; [by rewrite lookup_insert_eq|]. by rewrite lookup_insert_ne.
Qed.

Lemma selected_settled guid t : Forall (fun r => known_state r = Unchanged /\ known_id r <= i32_max) (select_spells guid t).
Proof.
  apply Forall_forall. intros r ([[g id] c] & _ & E)%list_elem_of_omap. cbn in E. case_match; [|done].
  unfold read_row, is_spell_id in E. destruct (_ && _) eqn:E'; simplify_eq/=. split; [done|].
  apply andb_true_iff in E' as [_ ?%Z.leb_le]. done.
Qed.

Lemma elem_of_selected guid t id c :
  spell_table t !! (guid, id) = Some c -> is_spell_id id = true ->
  exists r, r ∈ select_spells guid t /\ known_id r = id.
Proof.
  intros E Hi. eexists (mkKnownSpell id Unchanged c.1 c.2 false false). split; [|done].
  apply list_elem_of_omap. exists ((guid, id), c). rewrite elem_of_map_to_list. split; [done|].
  cbn [fst snd]. rewrite Z.eqb_refl. unfold read_row. by rewrite Hi.
Qed.

Lemma login_rows guid t :
  Forall (fun id => id <= i32_max) (login_known l) ->
  settled_rows (login_spell_rows l (select_spells guid t))
  /\ (in_range guid t -> forall id, is_Some (spell_table t !! (guid, id)) ->
      is_Some (login_spell_rows l (select_spells guid t) !! id)).
Proof.
  intros Hk. destruct (loaded_rows_settled (select_spells guid t) ∅) as (H1 & _ & H3);
    [apply selected_settled|apply map_Forall_empty|].
  destruct (known_rows_settled (login_known l) _ Hk H1) as [H4 H5]. split; [done|].
  intros Hr id [c E]. apply H5. destruct (elem_of_selected guid t id c E) as (r & Hin & <-); [by apply Hr; eexists|].
  by apply H3.
Qed.

(** What is installed is the rows themselves, where every id is positive. *)
Lemma exact_rows (rows : list KnownSpell) m m' :
  NoDup (map known_id rows) -> try_each exact_loaded_row m rows = Some m' ->
  (forall r, r ∈ rows -> m' !! known_id r = Some r /\ 0 < known_id r)
  /\ (forall id, (forall r, r ∈ rows -> known_id r <> id) -> m' !! id = m !! id).
Proof.
  revert m. induction rows as [|r rows IH]; intros m Hnd E; [injection E as <-; split; [by intros ? ?%not_elem_of_nil|done]|].
  change (NoDup (known_id r :: map known_id rows)) in Hnd. apply NoDup_cons in Hnd as [Hr Hnd].
  change ((m1 ← exact_loaded_row m r; try_each exact_loaded_row m1 rows) = Some m') in E.
  destruct (exact_loaded_row m r) as [m1|] eqn:Ex; [|done]. unfold exact_loaded_row in Ex.
  destruct ((known_id r <=? 0) || _) eqn:Ep; [done|]. apply orb_false_iff in Ep as [Hpos%Z.leb_gt _].
  injection Ex as <-. destruct (IH _ Hnd E) as [H1 H2]. split.
  - intros r' [->|Hr']%elem_of_cons; [|by apply H1]. split; [|done].
    rewrite H2; [by rewrite lookup_insert_eq|]. intros r' Hr' Hid. apply Hr. rewrite <- Hid. by apply list_elem_of_fmap_2.
  - intros id Hid. rewrite H2 by (intros r' Hr'; apply Hid; by right).
    rewrite lookup_insert_ne; [done|]. apply Hid. by left.
Qed.

Lemma no_fallback_rows rows complete p :
  fallback_rows p = ∅ -> replace_loaded_spell_rows rows complete p = replace_rows rows complete p.
Proof. intros E. unfold replace_loaded_spell_rows. by rewrite E. Qed.

Lemma spell_login_inv guid t fresh p :
  in_range guid t -> owner fresh = Some p -> fallback_rows p = ∅ -> Forall (fun id => id <= i32_max) (login_known l) ->
  saves_inv guid (mkSaves (login_player guid l t fresh).1 t NoSave).
Proof.
  intros Hr Eo Ef Hk. destruct (login_rows guid t Hk) as [Hset Hdom].
  set (rows := login_spell_rows l (select_spells guid t)) in *.
  assert (Hkeys : map known_id (values_in_order rows) = keys_in_order rows)
    by (apply values_ids; intros id r E; by apply (Hset id r)).
  unfold login_player, replace_loaded_player_spell_rows, saves_inv. fold rows. cbn [stored in_flight holder].
  destruct (try_each exact_loaded_row ∅ (values_in_order rows)) as [rows'|] eqn:E; cbn [fst].
  - destruct (exact_rows _ _ _ ltac:(rewrite Hkeys; apply NoDup_keys_in_order) E) as [H1 H2].
    assert (Hrows : forall id r, rows' !! id = Some r -> rows !! id = Some r /\ 0 < id).
    { intros id r Er. destruct (rows !! id) as [r0|] eqn:E0.
      - destruct (Hset id r0 E0) as [Hid _].
        destruct (H1 r0 ltac:(apply elem_of_values_in_order; eauto)) as [Er0 Hp]. rewrite Hid in *.
        rewrite Er in Er0. injection Er0 as <-. done.
      - rewrite H2 in Er; [done|]. intros r' (k & Ek)%elem_of_values_in_order Hid.
        rewrite (proj1 (Hset k r' Ek)) in Hid. congruence. }
    unfold invalidate_auxiliary, mutate_player. rewrite Eo. cbn. rewrite no_fallback_rows by done.
    split_and!; [done| |].
    + intros ? [= <-]. split.
      * cbn. rewrite Ef. apply map_Forall_empty.
      * done.
      * intros _ id r Er. apply Hrows in Er as [Er Hp]. destruct (Hset id r Er) as (? & ? & _). split; [done|].
        unfold is_spell_id. apply andb_true_iff. split; [by apply Z.ltb_lt|by apply Z.leb_le].
    + intros ? [= <-] _ id Hs.
      destruct (Hdom Hr id Hs) as [r Er]. destruct (Hset id r Er) as (Hid & _ & Hst).
      destruct (H1 r ltac:(apply elem_of_values_in_order; eauto)) as [Er' _]. rewrite Hid in Er'.
      exists r. split; [done|]. tauto.
  - unfold invalidate_rows, invalidate_auxiliary, mutate_player. rewrite Eo. cbn.
    split_and!; [done| |].
    + intros ? [= <-]. split; cbn; [rewrite Ef; apply map_Forall_empty|done|done].
    + intros ? [= <-]. done.
Qed.
End Login.

(** * Saves *)
Lemma saves_reachable_inv guid s : saves_reachable guid s -> saves_inv guid s.
Proof.
  induction 1 as [s Hf Hp Hr|s s' _ IH Hs]; [|inversion Hs as [? ? Hs'|? l fresh p Hf Eo Ef Hk]; subst].
  - unfold saves_inv. rewrite Hf. split_and!; [done| |]; intros p E; destruct (Hp p E) as [Hc Hco];
      [done|by rewrite Hc].
  - eapply step_inv; eauto.
  - eapply spell_login_inv; eauto. by destruct IH as [? _].
Qed.

(** A row that says it is saved is. *)
Definition settled_at (guid : Z) (t : SpellTables) (id : Z) (o : option KnownSpell) : Prop :=
  forall r, o = Some r -> known_state r = Unchanged ->
  entry_at t (guid, id) = (stored_columns r, known_favorite r).

(** The tables hold the row: its columns and whether it is a favorite, or nothing
    where it is removed, temporary or absent. *)
Definition stored_exactly (guid : Z) (t : SpellTables) (id : Z) (o : option KnownSpell) : Prop :=
  match o with
  | Some r =>
      match known_state r with
      | Removed | Temporary => spell_table t !! (guid, id) = None
      | _ => entry_at t (guid, id) = (stored_columns r, known_favorite r)
      end
  | None => spell_table t !! (guid, id) = None
  end.

Definition exact_inv (guid id : Z) (s : SpellSaves) : Prop :=
  match in_flight s with
  | NoSave => forall p, owner (holder s) = Some p -> rows_complete p = true ->
      settled_at guid (stored s) id (player_rows p !! id)
  | SaveCaptured q => rows_complete q = true -> settled_at guid (stored s) id (player_rows q !! id)
  | SaveCommitted q => rows_complete q = true -> stored_exactly guid (stored s) id (player_rows q !! id)
  | OutcomeUnknown => True
  end.

Section Exact.
Variables guid id : Z.

Lemma edit_settled t o o' : row_edit o o' -> settled_at guid t id o -> settled_at guid t id o'.
Proof. intros He Hs r E Hu. apply Hs; [|done]. by rewrite (edit_marks _ _ He r E Hu). Qed.

Lemma commit_exact q t t' :
  coherent q -> rows_complete q = true -> covered guid t q -> settled_at guid t id (player_rows q !! id) ->
  commit_spells guid q t = Some t' -> stored_exactly guid t' id (player_rows q !! id).
Proof.
  intros Hq Hc Hk Hs E. destruct (commit_complete guid q Hq t Hc Hk) as (t1 & E1 & He).
  rewrite E in E1. injection E1 as <-. specialize (He (guid, id)). cbn [fst snd] in He. rewrite Z.eqb_refl in He.
  assert (Hn : ~ maybe_stored (player_rows q !! id) -> spell_table t !! (guid, id) = None).
  { intros Hn. destruct (spell_table t !! (guid, id)) eqn:Et; [|done]. destruct Hn. apply Hk. by eexists. }
  unfold stored_exactly. destruct (player_rows q !! id) as [r|] eqn:Er.
  - unfold saved_entry in He. destruct (known_state r) eqn:Es; try (rewrite He; first [done|by apply Hs]).
    + by injection He as -> _.
    + injection He as -> _. apply Hn. rewrite maybe_stored_spec. tauto.
  - injection He as -> _. apply Hn. rewrite maybe_stored_spec. tauto.
Qed.

Lemma acknowledged_settled t q p :
  coherent q -> coherent p -> rows_complete p = true -> since q p ->
  stored_exactly guid t id (player_rows q !! id) ->
  settled_at guid t id (player_rows (acknowledge_save q p) !! id).
Proof.
  intros Hq Hp Hc [Hqc He] Hs r Er Hu. destruct (acknowledge_save_rows q p) as (Hrows & _ & _). rewrite Hrows in Er.
  unfold acknowledges in Er. rewrite (complete_loaded p Hp Hc), (complete_loaded q Hq Hqc), Hc, Hqc in Er.
  cbn [andb] in Er. rewrite acknowledged_rows in Er. specialize (He id).
  assert (Hmarked : player_rows p !! id = Some r -> player_rows q !! id = Some r).
  { intros E. by rewrite (edit_marks _ _ He r E Hu). }
  destruct (player_rows q !! id) as [x|] eqn:Ex; [|by specialize (Hmarked Er)].
  unfold acknowledge_spell, is_temporary, live in Er. cbn in Hs.
  case_bool_decide as Ht; [specialize (Hmarked Er); congruence|].
  destruct (player_rows p !! id) as [c|] eqn:Ep; [|case_bool_decide; simplify_eq/=; done].
  case_bool_decide as Hcx.
  - subst c. case_bool_decide as Hr; [|done]. injection Er as <-. cbn. by destruct (known_state x).
  - case_bool_decide as Htc; cbn in Er; injection Er as <-; [congruence|]. cbn in Hu.
    destruct (known_state x), (known_state c); done.
Qed.

Lemma step_exact s s' :
  save_step guid s s' -> saves_inv guid s -> exact_inv guid id s -> exact_inv guid id s'.
Proof.
  intros [? p p' Eo He Hc|? p p' Eo Hi Hc|? p Eo Ef|? q t Ef Ec|? q Ef|? q Ef|? q p Eo Ef|? q Ef|? t Ht] (Hr & Hp & Hf) Hx;
    unfold exact_inv in *; cbn in *; rewrite ?Ef in Hf, Hx; try done.
  - destruct (in_flight s0); try done. intros ? [= <-] Hcp. destruct He as [Hcc He]. eapply edit_settled; [apply He|].
    apply Hx; [done|]. by rewrite <- Hcc.
  - destruct (in_flight s0); try done. intros ? [= <-]. by rewrite Hi.
  - by apply Hx.
  - destruct Hf as (Hq & Hk & _). intros Hqc. eapply commit_exact; eauto.
  - destruct Hf as (Hq & Hk & Hs). intros p Eo Hcp. destruct (Hs p Eo Hcp) as [Hqc He].
    eapply edit_settled; [apply He|]. by apply Hx.
  - destruct Hf as (Hq & Hs). intros ? [= <-] Hcp. destruct (acknowledge_save_rows q p) as (_ & _ & Hcc).
    rewrite Hcc in Hcp. destruct (Hs p Eo Hcp) as [Hse _]. apply acknowledged_settled; auto. apply Hx, Hse.
  - assert (He : entry_at t (guid, id) = entry_at (stored s0) (guid, id)).
    { unfold entry_at. destruct (Ht id) as [-> Hfav]. f_equal. by apply bool_decide_ext. }
    destruct (in_flight s0) as [|q|q|]; try done; unfold settled_at, stored_exactly in *.
    + rewrite He. eauto.
    + rewrite He. eauto.
    + rewrite He. injection He as -> _. done.
Qed.
End Exact.

(** ** Changes that are edits *)
Lemma inserted_edit p p' id r :
  rows_complete p' = rows_complete p -> player_rows p' = <[id := r]> (player_rows p) ->
  row_edit (player_rows p !! id) (Some r) -> rows_edit p p'.
Proof.
  intros Hc Hr He. split; [done|]. intros k. rewrite Hr.
  destruct (decide (k = id)) as [->|Hne]; [by rewrite lookup_insert_eq|]. by rewrite lookup_insert_ne.
Qed.

(** Forgetting a spell that is not dependent; the row of a dependent one is erased. *)
Lemma forgotten_edit id p :
  rows_complete p = true -> id ∉ dependent_known_spells p -> rows_edit p (forget_row id p).1.
Proof.
  intros Hc Hd. destruct (forget_rows id p Hc) as [Hr _]. rewrite bool_decide_eq_false_2 in Hr by done. split.
  - unfold forget_row. cbn. by rewrite Hc.
  - intros k. rewrite Hr. destruct (decide (k = id)) as [->|Hne]; [|by rewrite lookup_partial_alter_ne].
    rewrite lookup_partial_alter_eq. destruct (player_rows p !! id) as [r|]; [|reflexivity]. cbn. split.
    + intros _. apply maybe_stored_spec. done.
    + intros r' [= <-] Hs. done.
    + intros r' [= <-] Hs. done.
Qed.

(** C33: A save of a player's spells never fails on a key the tables already hold: in
    every state that logins, edits of rows ([row_edit]: they keep a row that may be
    stored, mark what they change and make no row temporary), losses of the rows,
    saves, lost answers and acknowledgements reach, whatever was edited while a save
    was in flight, the statements of a captured save all succeed and leave the rows
    of other players.  Learning from an effect and forgetting a spell that is not
    dependent are edits; erasing the stored row of a dependent one is not
    ([erased_row_blocks_saves]). *)
Theorem spell_saves_never_collide (guid : Z) (s : SpellSaves) (saved : Player) :
  saves_reachable guid s -> in_flight s = SaveCaptured saved ->
  exists t, commit_spells guid saved (stored s) = Some t
  /\ forall k, k.1 <> guid -> entry_at t k = entry_at (stored s) k.
Proof.
  intros H Ef. apply saves_reachable_inv in H as (_ & _ & Hf). rewrite Ef in Hf. destruct Hf as (Hq & Hk & _).
  destruct (commit_succeeds guid saved Hq (stored s) Hk) as (t & E & Hother & _). eauto.
Qed.

(** No change of a spell is lost to a save in flight: from a state without a save
    in which the row of a spell is marked or is what the tables hold, through any
    changes, saves and acknowledgements in any order, what a save commits is exactly
    the row it captured, for the spell and for the favorite. *)
Theorem committed_rows_exact (guid id : Z) (s s' : SpellSaves) (p saved : Player) :
  saves_reachable guid s -> in_flight s = NoSave -> owner (holder s) = Some p -> rows_complete p = true ->
  settled_at guid (stored s) id (player_rows p !! id) ->
  rtc (save_step guid) s s' -> in_flight s' = SaveCommitted saved -> rows_complete saved = true ->
  stored_exactly guid (stored s') id (player_rows saved !! id).
Proof.
  intros Hreach Ef Eo Hc Hs Hrun Ef' Hc'.
  assert (Hx : exact_inv guid id s) by (unfold exact_inv; rewrite Ef; intros ? E _; rewrite Eo in E; by injection E as <-).
  assert (Hinv : saves_inv guid s /\ exact_inv guid id s) by (split; [by apply saves_reachable_inv|done]).
  clear Ef Eo Hc Hs Hx Hreach. induction Hrun as [s|s s1 s2 Hstep _ IH].
  - destruct Hinv as [_ Hx]. unfold exact_inv in Hx. rewrite Ef' in Hx. by apply Hx.
  - destruct Hinv as [Hi Hx]. apply IH; [done|]. split; [eapply step_inv; eauto|eapply step_exact; eauto].
Qed.

(** * A player who forgets one spell, learns another and takes the first up again *)
Definition demo_tables : SpellTables := mkTables {[(7, 10) := (true, false)]} {[(7, 10)]}.
Definition demo_login : LoginSpells := mkLogin ∅ ∅ ∅ [10] {[10]}.
Definition empty_player : Player := mkPlayer [] ∅ false false ∅ ∅ ∅ ∅ ∅ false ∅ false [] false false None ∅ 0 false.
Definition fresh_session : Session :=
  mkSession None (Some empty_player) 1 1 1 None false false [] [] false false.

Definition at_login : Player := replace_rows {[10 := mkKnownSpell 10 Unchanged true false true false]} true empty_player.
Definition learned : Player :=
  replace_rows (<[20 := mkKnownSpell 20 New true false false false]> (player_rows at_login)) true at_login.
Definition forgotten : Player := (forget_row 10 learned).1.
Definition taken_up : Player :=
  replace_rows (<[10 := mkKnownSpell 10 Changed true false false false]> (player_rows forgotten)) true forgotten.

Definition demo_saves (p : Player) (t : SpellTables) (f : SpellFlight) : SpellSaves :=
  mkSaves (fresh_session <| owner := Some p |>) t f.

Definition committed_tables : SpellTables := mkTables {[(7, 20) := (true, false)]} {[(7, 10)]}.

Lemma at_login_reached : saves_reachable 7 (demo_saves at_login demo_tables NoSave).
Proof.
  apply (saves_next 7 (mkSaves fresh_session demo_tables NoSave)).
  - apply saves_initial; [done| |].
    + intros ? [= <-]. split; [done|]. split; [apply map_Forall_empty|done|done].
    + intros id. unfold demo_tables. cbn [stored spell_table]. destruct (decide (id = 10)) as [->|Hne]; [done|].
      rewrite lookup_singleton_ne by congruence. by intros [? ?].
  - replace (demo_saves at_login demo_tables NoSave)
      with (mkSaves (login_player 7 demo_login demo_tables fresh_session).1 demo_tables NoSave)
      by (vm_compute; reflexivity).
    apply (save_login 7 (mkSaves fresh_session demo_tables NoSave) demo_login fresh_session empty_player);
      [by left|done|done|]. by repeat constructor.
Qed.

Ltac demo_coherent := split; [apply map_Forall_empty|done|intros _; apply (bool_decide_unpack _); by vm_compute].
Ltac demo_mark := split; [intros _; by apply maybe_stored_spec|by intros ? [= <-]|by intros ? [= <-]].

Lemma captured_from_login :
  rtc (save_step 7) (demo_saves at_login demo_tables NoSave)
    (demo_saves forgotten demo_tables (SaveCaptured forgotten)).
Proof.
  eapply rtc_l with (y := demo_saves learned demo_tables NoSave).
  { apply (save_edit 7 (demo_saves at_login demo_tables NoSave) at_login learned); [done| |demo_coherent].
    eapply inserted_edit; [done|done|]. split; [intros H%maybe_stored_spec; by destruct H|..]; by intros ? [= <-]. }
  eapply rtc_l with (y := demo_saves forgotten demo_tables NoSave).
  { apply (save_edit 7 (demo_saves learned demo_tables NoSave) learned forgotten); [done| |demo_coherent].
    apply forgotten_edit; [done|]. apply (bool_decide_unpack _). by vm_compute. }
  apply rtc_once. by apply (save_capture 7 (demo_saves forgotten demo_tables NoSave) forgotten).
Qed.

Lemma committed_from_captured :
  rtc (save_step 7) (demo_saves forgotten demo_tables (SaveCaptured forgotten))
    (demo_saves taken_up committed_tables (SaveCommitted forgotten)).
Proof.
  eapply rtc_l with (y := demo_saves taken_up demo_tables (SaveCaptured forgotten)).
  { apply (save_edit 7 (demo_saves forgotten demo_tables (SaveCaptured forgotten)) forgotten taken_up);
      [done| |demo_coherent]. eapply inserted_edit; [done|done|demo_mark]. }
  apply rtc_once. apply (save_commit 7 (demo_saves taken_up demo_tables (SaveCaptured forgotten)) forgotten); [done|].
  vm_compute; reflexivity.
Qed.

Lemma runs_reachable guid s s' : saves_reachable guid s -> rtc (save_step guid) s s' -> saves_reachable guid s'.
Proof. intros H Hrun. induction Hrun as [|s s1 s2 Hs _ IH]; [done|]. apply IH. eapply saves_next; [done|by left]. Qed.

Lemma spell_saves_never_collide_witness :
  exists t, commit_spells 7 forgotten demo_tables = Some t /\ spell_table t !! (7, 20) = Some (true, false)
  /\ spell_table t !! (7, 10) = None
  /\ forall k, k.1 <> 7 -> entry_at t k = entry_at demo_tables k.
Proof.
  destruct (spell_saves_never_collide 7 (demo_saves forgotten demo_tables (SaveCaptured forgotten)) forgotten) as (t & E & H).
  - exact (runs_reachable _ _ _ at_login_reached captured_from_login).
  - reflexivity.
  - exists t. split; [exact E|]. change (stored _) with demo_tables in E.
    assert (Ec : commit_spells 7 forgotten demo_tables = Some committed_tables) by (vm_compute; reflexivity).
    rewrite Ec in E. injection E as <-. split; [reflexivity|]. split; [reflexivity|exact H].
Defined.

Lemma committed_rows_exact_witness :
  player_rows taken_up !! 10 = Some (mkKnownSpell 10 Changed true false false false)
  /\ stored_exactly 7 committed_tables 10 (player_rows forgotten !! 10).
Proof.
  split; [vm_compute; reflexivity|].
  apply (committed_rows_exact 7 10 (demo_saves at_login demo_tables NoSave)
           (demo_saves taken_up committed_tables (SaveCommitted forgotten)) at_login forgotten).
  - exact at_login_reached.
  - reflexivity.
  - reflexivity.
  - reflexivity.
  - intros r [= <-] _. reflexivity.
  - etransitivity; [exact captured_from_login|exact committed_from_captured].
  - reflexivity.
  - reflexivity.
Defined.

(** ** A dependent row is erased *)
(** The row of a dependent spell whose state says it may be stored is not marked but
    erased, so the stored row stays; learned again, the spell is a new row, and its
    INSERT makes the whole save fail. *)
Definition dependent_player : Player :=
  replace_rows {[10 := mkKnownSpell 10 Unchanged true false false true]} true
    (empty_player <| dependent_known_spells := {[10]} |>).
Definition learned_again (p : Player) : Player :=
  replace_rows (<[10 := mkKnownSpell 10 New true false false false]> (player_rows p)) true p.

Lemma erased_row_blocks_saves :
  commit_spells 7 (learned_again (forget_row 10 dependent_player).1) demo_tables = None
  /\ ~ rows_edit dependent_player (forget_row 10 dependent_player).1.
Proof.
  split; [vm_compute; reflexivity|]. intros [_ He]. specialize (He 10).
  assert (Hs : maybe_stored (player_rows dependent_player !! 10)) by by apply maybe_stored_spec.
  apply (edit_keeps _ _ He), maybe_stored_spec in Hs. exact Hs.
Qed.
