(* ===== verification/SpellEffect.v ===== *)
(** A player learns a spell from an effect: wow-world/src/spell_acquisition/
    effect_learning.rs, over the session of session/effect_learning.rs.  A plan is
    tried first; where there is none, or it is not applied, a bounded fallback learns
    the spell and enables again the ranks and spells that were disabled with it.
    The fallback is validated before its first change: it is all or nothing. *)
From S2P Require Import Prelude BTree Guid SpellCatalog SpellModel SpellPlanner SpellPlannerSpell Profession SpellReplay SpellApply SpellPlannerTotal SpellTrainer SpellSession SpellRuntime SpellSave.

Import SpellState.

(** * The interface *)
(** [EffectLearningRuntimeLikeCpp]; [Player] stands for the spells of the player. *)
Class EffectLearningRuntime (S : Type) : Type :=
  { effect_acquisition :: AcquisitionRuntime S;
    admits_learning_target : Z -> ObjectGuid -> S -> option bool;
    project_learning : Z -> S -> option Outcome;
    acquisition_snapshot : S -> Prelude.result Snapshot SnapshotAdapterError;
    profession_capacity : list Z -> S -> Prelude.result CapacityPlan CapacityPlanError;
    fallback_snapshot : S -> option Player;
    fallback_chains : S -> option SpellChainStore;
    fallback_requirements : S -> option SpellRequiredStore;
    fallback_traits : S -> option TraitDefinitionStore;
    install_fallback_row : KnownSpell -> Player -> Rt S unit }.

(** A read that may not answer. *)
Definition rt_ask {S A} (f : S -> option A) : Rt S A := fun s => a ← f s; Some (s, a).

Definition next_spell_in_chain (store : SpellChainStore) (spell_id : Z) : Z :=
  default 0 (node ← chains_by_spell_id store !! spell_id; next_spell_id node).

(** [i32::try_from(id).ok()] of a [u32]. *)
Definition i32_try_from (id : Z) : option Z := if is_i32 id then Some id else None.

Definition may_shallow_fallback_after_profession_plan_error (e : CapacityPlanError) : bool :=
  match e with MissingSkillLineStore | MissingPlayerSkillSnapshot => true | _ => false end.

(** The row of a spell, or the grant kept for it. *)
Definition previous_row (p : Player) (spell : Z) : option KnownSpell :=
  match player_rows p !! spell with Some r => Some r | None => fallback_rows p !! spell end.

Definition removed_or_temporary (r : KnownSpell) : bool :=
  match known_state r with Removed | Temporary => true | _ => false end.
Definition row_disabled (rows : gmap Z KnownSpell) (id : Z) : bool :=
  match rows !! id with Some r => known_disabled r | None => false end.
Definition previous_disabled (p : Player) (id : Z) : bool :=
  match previous_row p id with Some r => known_disabled r | None => false end.

(** What [apply_fallback] reads of the player before its changes. *)
Definition fallback_active (p : Player) (previous : option KnownSpell) (next : option Z) : bool :=
  match previous with
  | Some r => if known_disabled r then known_active r
              else negb (match next with Some id => bool_decide (id ∈ known_spells p) | None => false end)
  | None => negb (match next with Some id => bool_decide (id ∈ known_spells p) | None => false end)
  end.
Definition requires_learn (p : Player) (spell : Z) (previous : option KnownSpell) (act : bool) : bool :=
  match previous with
  | Some r => removed_or_temporary r || known_disabled r || negb (eqb (known_active r) act)
  | None => negb (bool_decide (spell ∈ known_spells p))
  end.
Definition reaches_tail (previous : option KnownSpell) (requires : bool) : bool :=
  match previous with Some r => known_disabled r || removed_or_temporary r | None => requires end.

Definition learned_state (previous : option KnownSpell) : SpellState.t :=
  match previous with
  | None => New
  | Some r => match known_state r with Temporary | New => New | _ => Changed end
  end.
Definition learned_row (spell : Z) (previous : option KnownSpell) (act : bool) : KnownSpell :=
  mkKnownSpell spell (learned_state previous) act false
    (match previous with Some r => known_favorite r | None => false end)
    (match previous with Some r => known_dependent r | None => false end).

(** The ranks and spells that were disabled with it, once each. *)
Definition disabled_dependents (p : Player) (next : option Z) (required : list Z) : list Z :=
  let first := match next with Some id => if previous_disabled p id then [id] else [] | None => [] end in
  foldl (fun l id => if previous_disabled p id && negb (bool_decide (id ∈ l)) then l ++ [id] else l) first required.

(** Any of a list, in order, until one fails. *)
Fixpoint all_answer {A} (f : A -> option bool) (l : list A) : option bool :=
  match l with
  | [] => Some true
  | a :: l => match f a with Some true => all_answer f l | r => r end
  end.
Fixpoint rt_all {S A} (f : A -> Rt S bool) (l : list A) : Rt S bool :=
  match l with
  | [] => rt_ret true
  | a :: l => rt! ok := f a in if ok then rt_all f l else rt_ret false
  end.

Section Effect.
Context {S : Type} `{EffectLearningRuntime S}.

Definition next_spell (spell : Z) (s : S) : option Z :=
  if negb (is_u32 spell) then None
  else
    let id := match fallback_chains s with Some chains => next_spell_in_chain chains spell | None => 0 end in
    if id =? 0 then None else i32_try_from id.

Definition requiring_spells (spell : Z) (s : S) : list Z :=
  if negb (is_u32 spell) then []
  else match fallback_requirements s with
       | Some store => omap i32_try_from (spells_requiring_spell store spell) | None => [] end.

(** The trait of a row that is replaced overrides no spell of a negative id. *)
Definition trait_admits (p : Player) (spell : Z) (s : S) : bool :=
  match trait_definition_ids p !! spell with
  | None => true
  | Some trait_id =>
      match (if is_u32 trait_id then store ← fallback_traits s; get_trait_definition store trait_id else None) with
      | Some definition => 0 <=? trait_overrides_spell_id definition
      | None => false
      end
  end.

Definition has_catalogs (s : S) : bool :=
  bool_decide (is_Some (fallback_chains s)) && bool_decide (is_Some (fallback_requirements s)).

(** [visiting] is the path to the spell: it is left as it was. *)
Fixpoint validate_fallback (fuel : nat) (spell : Z) (visiting : gset Z) (s : S) : option bool :=
  match fuel with
  | O => None
  | Datatypes.S fuel =>
      if bool_decide (spell ∈ visiting) then Some true
      else
        match fallback_snapshot s with
        | None => Some false
        | Some p =>
            match player_rows p !! spell with
            | None => Some true
            | Some previous =>
                if negb (trait_definition_ids_complete p && override_spells_complete p) then Some false
                else if negb (trait_admits p spell s) then Some false
                else if known_disabled previous then
                  if negb (has_catalogs s) then Some false
                  else
                    all_answer (fun id => validate_fallback fuel id ({[spell]} ∪ visiting) s)
                      (filter (fun id => Is_true (row_disabled (player_rows p) id))
                         (option_list (next_spell spell s) ++ requiring_spells spell s))
                else Some true
            end
        end
  end.

(** What is learned and told of the spell itself. *)
Definition learn_fallback_row (p : Player) (spell : Z) (previous : option KnownSpell) (act : bool) : Rt S unit :=
  let row := learned_row spell previous act in
  rt! _ := install_fallback_row row p in
  if act then
    let action := LearnedSpell (u32 spell) (known_favorite row) false in
    rt! _ := record_action action in publish_action action None
  else rt_ret tt.

Fixpoint apply_fallback (fuel : nat) (spell : Z) (visiting : gset Z) : Rt S bool :=
  match fuel with
  | O => fun _ => None
  | Datatypes.S fuel =>
      if bool_decide (spell ∈ visiting) then rt_ret true
      else
        rt! snapshot := rt_read fallback_snapshot in
        match snapshot with
        | None => rt_ret false
        | Some p =>
            let previous := previous_row p spell in
            let was_disabled := previous_disabled p spell in
            rt! catalogs := rt_read has_catalogs in
            if was_disabled && negb (rows_complete p && catalogs) then rt_ret false
            else
              rt! next := rt_read (next_spell spell) in
              let act := fallback_active p previous next in
              let requires := requires_learn p spell previous act in
              rt! _ := (if reaches_tail previous requires
                        then record_action (UpdateLearnOrKnowSpellCriteria (u32 spell)) else rt_ret tt) in
              rt! _ := (if requires then learn_fallback_row p spell previous act else rt_ret tt) in
              if was_disabled then
                rt! current := rt_read fallback_snapshot in
                rt! required := rt_read (requiring_spells spell) in
                rt_all (fun id => apply_fallback fuel id ({[spell]} ∪ visiting))
                  (match current with Some p => disabled_dependents p next required | None => [] end)
              else
                rt! _ := record_action (UpdateLearnSpellQuestObjective (u32 spell)) in rt_ret true
        end
  end.

(** One level of nested calls for every row that is disabled, and two more. *)
Definition fallback_fuel (p : Player) : nat :=
  (2 + size (dom (player_rows p) ∪ dom (fallback_rows p)))%nat.

(** A later rank is not learned before the player has the one below. *)
Definition rank_admits (chains : SpellChainStore) (previous : option KnownSpell) (spell : Z) : bool :=
  match spell_chain_lookup chains spell with
  | ChainIndeterminate _ => false
  | Node node =>
      match prev_spell_id node with
      | Some _ => match previous with Some r => negb (removed_or_temporary r) | None => false end
      | None => true
      end
  | Unranked => true
  end.

Definition apply_base_learning (spell : Z) : Rt S bool :=
  if negb (is_u32 spell) then rt_ret false
  else
    rt! snapshot := rt_read fallback_snapshot in
    match snapshot with
    | None => rt_ret false
    | Some p =>
        if negb (rows_complete p) then rt_ret false
        else
          rt! chains := rt_read fallback_chains in
          match chains with
          | None => rt_ret false
          | Some chains =>
              if negb (rank_admits chains (previous_row p spell) spell) then rt_ret false
              else
                rt! valid := rt_ask (validate_fallback (fallback_fuel p) spell ∅) in
                if negb valid then rt_ret false
                else rt! _ := begin_action_batch in apply_fallback (fallback_fuel p) spell ∅
          end
    end.

(** [is_ok()]. *)
Definition rt_is_ok {A E} (m : Rt S (Prelude.result A E)) : Rt S bool :=
  rt! r := m in rt_ret (match r with Ok _ => true | Err _ => false end).

Definition apply_planned (outcome : prepared PreparedOutcome) : Rt S bool :=
  match outcome with
  | Ok (Ready p) => rt_is_ok (apply_prepared_before_save p)
  | Ok (ActionsOnly guid runtime actions applied) =>
      rt_is_ok (apply_prepared_actions (mkPreparedActions guid runtime actions applied))
  | Ok AlreadyApplied | Ok NoChange | Err _ => rt_ret false
  end.

Definition execute_effect_learning (spell : Z) (target : ObjectGuid) : Rt S bool :=
  rt! admitted := rt_ask (admits_learning_target spell target) in
  if negb admitted then rt_ret false
  else
    rt! outcome := rt_ask (project_learning (u32 spell)) in
    match outcome with
    | OutcomeIndeterminate _ => apply_base_learning spell
    | Deterministic plan =>
        rt! snapshot := rt_read acquisition_snapshot in
        match snapshot with
        | Err _ => apply_base_learning spell
        | Ok snapshot =>
            rt! capacity := rt_read (profession_capacity (root_primary_profession_skill_ids plan)) in
            match capacity with
            | Err e => if may_shallow_fallback_after_profession_plan_error e then apply_base_learning spell
                       else rt_ret false
            | Ok capacity =>
                rt! applied := apply_planned (prepare plan capacity snapshot) in
                if applied then rt_ret true else apply_base_learning spell
            end
        end
    end.
End Effect.

(** * The session (session/effect_learning.rs) *)
(** The catalogs of the server; the skill lines are the session's.  [spell_store]
    holds the effects of a spell: their type and the spell they trigger. *)
Record SpellCatalogs : Type := mkCatalogs
  { cat_acquisition : option SpellAcquisitionCatalog; cat_chains : option SpellChainStore;
    cat_learn_skills : option SpellLearnSkillStore; cat_learn_spells : option SpellLearnSpellStore;
    cat_required : option SpellRequiredStore; cat_attributes : option SpellCustomAttributeStore;
    cat_traits : option TraitDefinitionStore; cat_mounts : option MountStore; cat_skills : option SkillStore;
    cat_tiers : option SkillTiersStore; cat_casts : CastAuthorityTable; cat_crafts : CraftValidityAuthority;
    spell_store : option (gmap Z (list (Z * Z))); max_primary_trade_skills : Z }.

Definition SPELL_EFFECT_LEARN_SPELL : Z := 36.

(** [all] over the effects of a spell, the spells that were seen threaded. *)
Fixpoint all_seen {A} (f : A -> gset Z -> option (bool * gset Z)) (l : list A) (seen : gset Z) :
    option (bool * gset Z) :=
  match l with
  | [] => Some (true, seen)
  | a :: l => match f a seen with Some (true, seen) => all_seen f l seen | r => r end
  end.

(** [represented_spell_valid_with_seen_like_cpp]. *)
Fixpoint spell_valid_with_seen (store : gmap Z (list (Z * Z))) (fuel : nat) (spell : Z) (seen : gset Z) :
    option (bool * gset Z) :=
  match fuel with
  | O => None
  | Datatypes.S fuel =>
      if bool_decide (spell ∈ seen) then Some (true, seen)
      else
        let seen := {[spell]} ∪ seen in
        match store !! spell with
        | None => Some (false, seen)
        | Some effects =>
            all_seen (fun (e : Z * Z) seen =>
              if negb (e.1 =? SPELL_EFFECT_LEARN_SPELL) then Some (true, seen)
              else if e.2 <=? 0 then Some (false, seen)
              else spell_valid_with_seen store fuel e.2 seen) effects seen
        end
  end.

Definition valid_for_learning (cats : SpellCatalogs) (spell : Z) : option bool :=
  match spell_store cats with
  | None => Some false
  | Some store => fst <$> spell_valid_with_seen store (2 + size store) spell ∅
  end.

Definition session_admits (cats : SpellCatalogs) (spell : Z) (target : ObjectGuid) (s : Session) : option bool :=
  if negb (bool_decide (session_guid s = Some target)) || (spell <=? 0) then Some false
  else
    valid ← valid_for_learning cats spell;
    Some (valid && match cat_mounts cats with
                   | Some mounts => bool_decide (get_by_source_spell_id mounts spell = None) | None => false end).

Definition metadata_of (cats : SpellCatalogs) (s : Session) : option Metadata :=
  catalog ← cat_acquisition cats; chains ← cat_chains cats; learn_skills ← cat_learn_skills cats;
  learn_spells ← cat_learn_spells cats; required ← cat_required cats; attributes ← cat_attributes cats;
  traits ← cat_traits cats; skills ← cat_skills cats; lines ← session_skill_lines s; tiers ← cat_tiers cats;
  Some (mkMetadata catalog chains learn_skills learn_spells required attributes traits (cat_casts cats)
          (cat_crafts cats) (cat_mounts cats) skills lines tiers).

(** [project_player_spell_acquisition_with_policy_like_cpp] for a spell that is
    learned directly. *)
Definition session_project (cats : SpellCatalogs) (spell : Z) (s : Session) : option Outcome :=
  match session_snapshot InWorld [] ∅ s with
  | Err e => Some (OutcomeIndeterminate (SnapshotAdapter e))
  | Ok snapshot =>
      match metadata_of cats s with
      | None => Some (OutcomeIndeterminate MissingTrainerProjectionMetadata)
      | Some metadata => project_effect_learn_spell_acquisition snapshot metadata spell
      end
  end.

Definition profession_skill (r : SkillRecord) : PlayerSkillProfessionSnapshot :=
  mkProfessionSkill (skill_line_id r) (current_value r) (record_slot r).

(** [plan_primary_profession_capacity_like_cpp]. *)
Definition session_capacity (cats : SpellCatalogs) (requested : list Z) (s : Session) :
    Prelude.result CapacityPlan CapacityPlanError :=
  match session_skill_lines s with
  | None => Err MissingSkillLineStore
  | Some lines =>
      match owner s with
      | None => Err MissingPlayerSkillSnapshot
      | Some p =>
          if negb (skills_loaded p) then Err MissingPlayerSkillSnapshot
          else
            let? analysis := analyze_primary_professions (max_primary_trade_skills cats) lines
                               (map profession_skill (map_to_list (skill_record_map (player_skills p))).*2) in
            plan_primary_professions analysis lines requested
      end
  end.

(** The override of the trait that went, then the row; [source] is the player that
    was read before. *)
Definition taken_override (cats : SpellCatalogs) (trait : option Z) : option Z :=
  trait_id ← trait;
  definition ← (if is_u32 trait_id then store ← cat_traits cats; get_trait_definition store trait_id else None);
  if 0 <? trait_overrides_spell_id definition then Some (trait_overrides_spell_id definition) else None.

Definition drop_trait (cats : SpellCatalogs) (spell : Z) (p : Player) : Player :=
  let '(p, trait) := take_trait_definition_id spell p in
  match taken_override cats trait with Some overridden => remove_override_spell overridden spell p | None => p end.

Definition session_install_fallback (cats : SpellCatalogs) (row : KnownSpell) (source : Player) : Rt Session unit :=
  fun s =>
    let spell := known_id row in
    let s := mutate_player (drop_trait cats spell) s in
    let complete := if rows_complete source then Some (player_rows source) else None in
    Some (install_loaded_spell_row spell row complete (learn_known_spell spell s), tt).

#[export] Instance session_effect (cats : SpellCatalogs) : EffectLearningRuntime World :=
  {| effect_acquisition := session_acquisition;
     admits_learning_target spell target w := session_admits cats spell target (session w);
     project_learning spell w := session_project cats spell (session w);
     acquisition_snapshot w := session_snapshot InWorld [] ∅ (session w);
     profession_capacity requested w := session_capacity cats requested (session w);
     fallback_snapshot w := owner (session w);
     fallback_chains w := cat_chains cats;
     fallback_requirements w := cat_required cats;
     fallback_traits w := cat_traits cats;
     install_fallback_row row source := in_session (session_install_fallback cats row source) |}.

(** The session learns a spell from an effect on [target]. *)
Definition apply_learn_spell_effect (cats : SpellCatalogs) (spell : Z) (target : ObjectGuid) : Rt World bool :=
  execute_effect_learning (H := session_effect cats) spell target.

(** * The fallback on a session *)
Section Session.
Variable cats : SpellCatalogs.
#[local] Instance this_session : EffectLearningRuntime World := session_effect cats.








(** ** What a fallback does to the player *)
Definition dependents_of (spell : Z) (w : World) : list Z := option_list (next_spell spell w) ++ requiring_spells spell w.

Lemma dependents_const spell w w' : dependents_of spell w = dependents_of spell w'.
Proof. done. Qed.









(** ** The fallback applies *)
(** Only the player and what was sent may differ. *)
Definition only_told (w w' : World) : Prop :=
  database w' = database w
  /\ exists l, session w' = ((session w) <| owner := owner (session w') |>) <| sent := sent (session w) ++ l |>.

#[export] Instance only_told_preorder : PreOrder only_told.
Proof.
  split.
  - intros [[] d]. split; [done|]. exists []. cbn. by rewrite app_nil_r.
  - intros w1 w2 w3 [D1 (l1 & E1)] [D2 (l2 & E2)]. split; [congruence|]. exists (l1 ++ l2).
    rewrite E2 at 1. rewrite E1 at 1. cbn. rewrite E1. cbn. by rewrite app_assoc.
Qed.










Definition learns (spell : Z) (p p' : Player) : Prop :=
  row_disabled (player_rows p') spell = false /\ (known_rows p -> spell ∈ known_spells p').













End Session.




